(* ===== verification/_CoqProject ===== *)
-Q . S2P
Prelude.v
Text.v
Path.v
Device.v
MemoryDevice.v
Mbr.v
Fat32Types.v
Fat32Name.v
Fat32Format.v
Fat32Table.v
Fat32Dir.v
Fat32Fs.v
Fat32Handle.v
Fat32Write.v
Fat32DirSpec.v
Fat32Behaviour.v
RBTree.v
RBTreeSpec.v
RBTreeRefine.v
Semaphore.v
SemaphoreSpec.v
Locks.v
Spsc.v
SpscSpec.v
Rc.v
RcSpec.v
Thread.v
ThreadSpec.v
AsyncRt.v
Idt.v
Irq.v
Asm.v
AsmSpec.v
Physics.v
PhysicsSpec.v
Page.v
PageForest.v
PageSpec.v
PageUnmap.v
PageAlloc.v
PageAccess.v
PageDemo.v
Heap.v
HeapSpec.v
HeapRefine.v
KernelHeap.v
HeapDemo.v
UserTable.v
UserSpace.v
Elf.v
Process.v
ElfLoader.v
Syscall.v
SyscallSpec.v
SyscallFat32.v
CreateProcess.v
CreateFat32.v
CosSys.v
CosSpec.v
UserHeap.v
Ata.v
AtaSpec.v
AtaTasks.v
Simulation.v
AtaDevice.v
DiskInit.v
BootMemory.v
Loader.v
BootPage.v
BootSpec.v
VgaText.v
Spin.v
Keyboard.v
