(* ===== verification/Prelude.v ===== *)
(** * A verification of the cos-rs operating system

    cos-rs is an experimental operating system for x86-64 in Rust: a boot
    loader, a kernel, libraries for both, and a library through which programs
    call the kernel. This development translates the code into executable
    definitions and proves what the parts promise to each other.

    ** The program and how its parts meet

    The boot loader (src/bootloader) makes the memory map, reads the kernel from
    the disk, builds the first page tables and jumps. The kernel (src/kernel)
    hands out frames, maps pages, has a heap over them, runs threads and
    processes, takes interrupts and system calls, and drives disk, keyboard and
    screen. The file system library (src/library/filesystem) puts FAT32 volumes
    on partitions on block devices, of which the disk driver is one; the loader
    of programs (src/library/elf) reads files of a volume into the address space
    of a process. Programs use src/user/library: system calls, and the heap of
    src/library/heap over pages from the kernel. Locks and channels are in
    src/library/async_locks, the tree map and reference counts in
    src/library/try_alloc.

    The joints are type classes with laws: [BlockDevice] and [BlockDeviceSpec]
    between file systems and devices (Device.v; MemoryDevice.v, Mbr.v and, for
    the content of a disk, AtaDevice.v discharge them), [DeviceSim] between two
    devices that behave alike (Simulation.v; AtaDevice.v for the driver), [MemoryPageProvider] and [ProviderLaws] between
    the heap and its pages (Heap.v, HeapSpec.v; KernelHeap.v and UserHeap.v),
    [FileSystem] between system calls and volumes (Syscall.v; SyscallFat32.v),
    the traits of input and of memory of the ELF library (Elf.v; ElfLoader.v,
    CreateFat32.v).

    ** How code is modelled

    Fallible code with state is a function [M S E A] to an [outcome]: [Ok] and
    [Err] are Rust's [Result], [Panic] is a failed assertion, an index out of
    range, an overflow or an access the language or the hardware leaves
    undefined, [Diverge] is a loop that has used up its fuel. [wp m s Q] says
    that [m] ends with [Ok] and [Q]: a theorem in this form says that the code
    returns, and also that no arithmetic on the way overflows, so that it holds
    for builds with and without overflow checks. The system calls, whose
    arguments programs choose, are modelled for both: [Build] says whether
    overflows are checked, and [arith] panics or wraps around. Integers are [Z] with the width
    written out where it matters; bytes on disk and in memory are lists of [Z].
    Code that runs beside other code is a machine with an executable step, one
    per atomic operation or section with interrupts off, and its theorems are
    about all reachable states. Parameters stand for what is not in the sources:
    where the linker puts tables, the bytes of assembled stubs, addresses an
    allocator returns, what the BIOS and the drives answer, the sort of the
    standard library.

    ** The files

    Prelude.v (this file): the monad, its logic, integers as bytes, lists,
    tactics and the hint database. Text.v: Rust strings.

    File systems. Path.v (path/mod.rs), Device.v and MemoryDevice.v
    (device/mod.rs, device/memory.rs), Mbr.v (device/mbr.rs). fs/fat32.rs is in
    Fat32Types.v (structures on disk), Fat32Name.v (names), Fat32Format.v (mount
    and format), Fat32Table.v (allocation table), Fat32Dir.v (directories),
    Fat32Fs.v and Fat32Handle.v (the two traits); Fat32Write.v and
    Fat32DirSpec.v hold the theorems on writing and on directories,
    Fat32Behaviour.v runs in which data is lost.

    Libraries. RBTree.v, RBTreeSpec.v, RBTreeRefine.v (collection/rbtree);
    Semaphore.v, SemaphoreSpec.v (semaphore.rs), Locks.v (mutex.rs, rwlock.rs),
    Spsc.v, SpscSpec.v (channel/spsc.rs), Rc.v, RcSpec.v (rc.rs), Spin.v
    (spin.rs, and the kernel's sync/); Heap.v, HeapSpec.v, HeapRefine.v
    (library/heap); Elf.v (library/elf, library/async_io).

    Kernel. Thread.v, ThreadSpec.v (multitask/thread.rs), AsyncRt.v (async_rt.rs,
    async_task.rs), Idt.v, Irq.v (trap/idt.rs, tss.rs, hard.rs, soft.rs), Asm.v,
    AsmSpec.v (the assembly of traps and context switches). Physics.v,
    PhysicsSpec.v (memory/physics.rs); memory/page.rs is in Page.v, with
    PageForest.v (the invariant), PageSpec.v, PageUnmap.v, PageAlloc.v,
    PageAccess.v, UserTable.v, UserSpace.v (what it does) and PageDemo.v (a
    concrete machine); KernelHeap.v, HeapDemo.v (memory/heap.rs). Process.v
    (process.rs, user/handle.rs), ElfLoader.v, CreateProcess.v, CreateFat32.v
    (elf_loader.rs, create_user_process), Syscall.v, SyscallSpec.v,
    SyscallFat32.v (syscall/). Ata.v, AtaSpec.v, AtaTasks.v, AtaDevice.v
    (io/disk/ata_lba.rs), DiskInit.v (io/disk/mod.rs), with Simulation.v for
    what runs over the driver; Keyboard.v (io/keyboard.rs), VgaText.v
    (display/vga_text.rs, panicking.rs).

    Boot loader. BootMemory.v (memory.rs), Loader.v (loader.rs), BootPage.v,
    BootSpec.v (main.rs, bit64.rs, vga.rs, asm/stub.s).

    Programs. CosSys.v, CosSpec.v (cos-sys), UserHeap.v (cos-heap).

    ** What the theorems show

    Files: reading and writing a handle is reading and splicing the content of
    the file and leaves every byte alone that is not the file's, looking up and
    listing are functions of the files of a directory, creating adds one when
    nothing was deleted before; writes inside a partition do not touch another
    one, and partitions survive a format and mount. Trees, heap, locks: the tree refines a sorted list within
    logarithmically many rounds, the heap refines a store of blocks and gives
    all pages back, permits and wake-ups are not lost, the channel is a queue,
    a reference count frees once, a spin lock has one owner. Memory: frames are
    exclusive, if the regions of memory that are used start at page boundaries
    (another theorem says what happens if not), mapping and unmapping change the translations they name and no
    other, bytes written to an address space are read back. Threads: every
    thread is in its place in every reachable state, the registers are those of
    the running one, interrupts and system calls come back to their caller. The
    disk: requests are done one at a time and in order, in every interleaving
    with the interrupt handler, and on a drive that works all are answered; any
    sequence of transfers through the driver is one on a plain disk, and
    [init_disk] mounts through it what is there or reports what cannot be
    mounted. The keyboard: every key typed is accounted for. From end to end:
    the boot loader enters the kernel in long mode with its memory mapped (the
    part of the loader that reads the kernel writes behind a buffer of 256
    bytes, so [_start] as a whole is shown for one of 512), a program on the disk becomes a process whose memory is its image, a program
    that reads a file has its bytes in its buffer, programs have a lawful heap.

    Other theorems show where the code does not do what it means to: they are
    stated as what the code does, next to the component they are about.

    ** Bounds and fuel

    The fuel of a loop is an argument and the theorems say how much is enough:
    more than the clusters of a chain or of the volume for FAT32, the height of
    the tree for the map, one more than the pages of the range for the search
    for addresses (2^35 for a whole address space, so programs have [fuel] above
    that), and for the boot loader a number that the proof gives. Waiting for
    the drive counts readings of its status: a drive that is quicker than the
    count is assumed where an answer is claimed. Pages of programs are asked for
    up to 64 MiB at a time on machines of up to 4 GiB. Counters that only grow
    are assumed to stay below their width where a theorem says so.

    ** Interrupts

    The gates of the kernel leave interrupts enabled (AsmSpec.v), so handlers
    are modelled as code that can be interrupted: in Spin.v they nest to any
    depth, in Keyboard.v the receiver runs between any two steps of the sender,
    in AtaTasks.v tasks run between the reading of the status and the section
    with interrupts off, in Thread.v the timer comes between any two sections.
    In AtaTasks.v a handler begins only when the drive asks for it, and the drive
    does not ask before it has had a request.

    ** What is not modelled

    The one-shot channel, the condition variable and the watch: answers and exit
    codes arrive in one step. The hash map and the intrusive list, which nothing
    uses; vectors and strings that report a failed allocation, which are lists
    here. The shell, the first program, [kmain] and the build scripts. The cache
    of translations of the processor, memory orders weaker than sequential
    consistency, the formatting of text, priorities of the interrupt controller
    beyond one handler of a device at a time. That dropping the last reference to
    a process releases its page table is not joined with the scheduler. *)
From stdpp Require Export base tactics numbers list option gmap sets.
From Stdlib Require Export ZArith Lia.
From Stdlib Require Ascii String.

#[global] Open Scope Z_scope.
#[global] Set Default Goal Selector "!".

(** [lia] reasons about [/] and [mod] by constants. *)
Ltac Zify.zify_post_hook ::= Z.div_mod_to_equations.

(** ** Results of fallible code

    [Ok] and [Err] are the constructors of Rust's [Result]; [Panic] is an
    [assert!], an out-of-range index, an [unwrap] of nothing or an arithmetic
    overflow (a build with overflow checks); [Diverge] says that the fuel of a
    loop has been used up. *)
Inductive outcome (E A : Type) : Type :=
  | Ok (a : A)
  | Err (e : E)
  | Panic
  | Diverge.
Arguments Ok {E A} a.
Arguments Err {E A} e.
Arguments Panic {E A}.
Arguments Diverge {E A}.

(** State passing with failure: the state survives an error, as the memory
    and the disk of the program do. *)
Definition M (S E A : Type) : Type := S -> outcome E A * S.

#[global] Instance M_ret S E : MRet (M S E) := fun A a s => (Ok a, s).
#[global] Instance M_bind S E : MBind (M S E) := fun A B f m s =>
  match m s with
  | (Ok a, s') => f a s'
  | (Err e, s') => (Err e, s')
  | (Panic, s') => (Panic, s')
  | (Diverge, s') => (Diverge, s')
  end.

#[global] Instance outcome_ret E : MRet (outcome E) := fun A a => Ok a.
#[global] Instance outcome_bind E : MBind (outcome E) := fun A B f m =>
  match m with
  | Ok a => f a
  | Err e => Err e
  | Panic => Panic
  | Diverge => Diverge
  end.

Definition throw {S E A} (e : E) : M S E A := fun s => (Err e, s).
Definition panic {S E A} : M S E A := fun s => (Panic, s).
Definition diverge {S E A} : M S E A := fun s => (Diverge, s).
Definition gets {S E A} (f : S -> A) : M S E A := fun s => (Ok (f s), s).
Definition modify {S E} (f : S -> S) : M S E unit := fun s => (Ok tt, f s).
Definition lift {S E A} (o : outcome E A) : M S E A := fun s => (o, s).
Definition rust_assert {S E} (b : bool) : M S E unit :=
  if b then mret tt else panic.

(** [result.map_err(Into::into)?]: run [m] and convert its error. *)
Definition map_err {S E E' A} (f : E -> E') (m : M S E A) : M S E' A := fun s =>
  match m s with
  | (Ok a, s') => (Ok a, s')
  | (Err e, s') => (Err (f e), s')
  | (Panic, s') => (Panic, s')
  | (Diverge, s') => (Diverge, s')
  end.

(** Handle the result of [m] as a value, the way a [match] on it does. *)
Definition attempt {S E A} (m : M S E A) : M S E (A + E) := fun s =>
  match m s with
  | (Ok a, s') => (Ok (inl a), s')
  | (Err e, s') => (Ok (inr e), s')
  | (Panic, s') => (Panic, s')
  | (Diverge, s') => (Diverge, s')
  end.

(** Run [m] on a component of the state. *)
Definition zoom {S T E A} (get : S -> T) (set : T -> S -> S) (m : M T E A) : M S E A :=
  fun s => let '(r, t) := m (get s) in (r, set t s).

(** ** Loops *)

(** [for i in lo..lo+n { f i acc }]. *)
Fixpoint for_range {S E A} (lo n : nat) (f : nat -> A -> M S E A) (acc : A) : M S E A :=
  match n with
  | O => mret acc
  | Datatypes.S n' => acc' ← f lo acc; for_range (Datatypes.S lo) n' f acc'
  end.

(** [for x in l { f x acc }]. *)
Fixpoint for_each {S E A B} (l : list B) (f : B -> A -> M S E A) (acc : A) : M S E A :=
  match l with
  | [] => mret acc
  | x :: l' => acc' ← f x acc; for_each l' f acc'
  end.

(** ** Machine integers *)

Definition U8_MAX : Z := 0xff.
Definition U16_MAX : Z := 0xffff.
Definition U32_MAX : Z := 0xffffffff.
Definition U64_MAX : Z := 0xffffffffffffffff.
Definition usize_max : Z := 2 ^ 64 - 1.

(** [fits w x]: [x] is a value of the unsigned type of width [w]. *)
Definition fits (w x : Z) : bool := (0 <=? x) && (x <? 2 ^ w).

(** [x as uN]. *)
Definition wrap (w x : Z) : Z := x `mod` 2 ^ w.

(** The result of an arithmetic operation at width [w], checked. *)
Definition checked {S E} (w x : Z) : M S E Z :=
  if fits w x then mret x else panic.

(** The same in any build: an overflow panics in a build with overflow checks
    and wraps around in one without. *)
Class Build : Type := overflow_checks : bool.

Definition arith `{Build} {S E} (w x : Z) : M S E Z :=
  if fits w x then mret x else if overflow_checks then panic else mret (x `mod` 2 ^ w).

(** ** Buffers *)

(** [&l[off..off + len]]. *)
Definition slice {A} (off len : nat) (l : list A) : list A := take len (drop off l).

(** [l[off..off + l'.len()].copy_from_slice(l')]. *)
Definition splice {A} (off : nat) (l' l : list A) : list A :=
  take off l ++ l' ++ drop (off + length l') l.

(** Little-endian encoding in [n] bytes, and back. *)
Fixpoint to_le (n : nat) (x : Z) : list Z :=
  match n with
  | O => []
  | S n' => x `mod` 256 :: to_le n' (x / 256)
  end.

Fixpoint from_le (l : list Z) : Z :=
  match l with
  | [] => 0
  | b :: l' => b + 256 * from_le l'
  end.

(** The bytes of a literal. *)
Fixpoint ascii_bytes (s : String.string) : list Z :=
  match s with
  | String.EmptyString => []
  | String.String c s => Z.of_nat (Ascii.nat_of_ascii c) :: ascii_bytes s
  end.

Definition is_byte (b : Z) : Prop := 0 <= b < 256.

#[global] Arguments slice {A} off len l : simpl never.
#[global] Arguments splice {A} off l' l : simpl never.
#[global] Arguments checked {S E} w x : simpl never.
#[global] Arguments fits w x : simpl never.

(** ** Total correctness of a computation

    [wp m s Q]: run from [s], [m] returns [Ok] and [Q] holds of its value and
    its final state: it neither fails, panics nor runs out of fuel. *)
Definition wp {S E A} (m : M S E A) (s : S) (Q : A -> S -> Prop) : Prop :=
  match m s with
  | (Ok a, s') => Q a s'
  | _ => False
  end.

Create HintDb cos.

Section wp.
  Context {S E : Type}.
  Implicit Types s : S.

Lemma wp_run {A} (m : M S E A) s Q :
  wp m s Q -> exists a s', m s = (Ok a, s') /\ Q a s'.
Proof. unfold wp. destruct (m s) as [[a|e| |] s']; naive_solver. Qed.

Lemma wp_intro {A} (m : M S E A) s a s' (Q : A -> S -> Prop) :
  m s = (Ok a, s') -> Q a s' -> wp m s Q.
Proof. unfold wp. by intros ->. Qed.

Lemma wp_mono {A} (m : M S E A) s (P Q : A -> S -> Prop) :
  wp m s P -> (forall a s', P a s' -> Q a s') -> wp m s Q.
Proof. unfold wp. destruct (m s) as [[a|e| |] s']; naive_solver. Qed.

Lemma wp_ret {A} (a : A) s (Q : A -> S -> Prop) : Q a s -> wp (E:=E) (mret a) s Q.
Proof. done. Qed.

Lemma wp_bind {A B} (m : M S E A) (f : A -> M S E B) s Q :
  wp m s (fun a s' => wp (f a) s' Q) -> wp (m ≫= f) s Q.
Proof.
  unfold wp, mbind, M_bind. destruct (m s) as [[a|e| |] s']; naive_solver.
Qed.

Lemma wp_bind_inv {A B} (m : M S E A) (f : A -> M S E B) s Q :
  wp (m ≫= f) s Q -> wp m s (fun a s' => wp (f a) s' Q).
Proof. unfold wp, mbind, M_bind. destruct (m s) as [[a|e| |] s']; naive_solver. Qed.

Lemma wp_gets {A} (f : S -> A) s (Q : A -> S -> Prop) : Q (f s) s -> wp (E:=E) (gets f) s Q.
Proof. done. Qed.

Lemma wp_modify (f : S -> S) s (Q : unit -> S -> Prop) : Q tt (f s) -> wp (E:=E) (modify f) s Q.
Proof. done. Qed.

Lemma wp_assert (b : bool) s (Q : unit -> S -> Prop) :
  b = true -> Q tt s -> wp (E:=E) (rust_assert b) s Q.
Proof. by intros ->. Qed.

Lemma wp_checked w x s (Q : Z -> S -> Prop) :
  0 <= x < 2 ^ w -> Q x s -> wp (E:=E) (checked w x) s Q.
Proof.
  intros Hx HQ. unfold checked, fits.
  rewrite (proj2 (Z.leb_le _ _)), (proj2 (Z.ltb_lt _ _)) by lia. done.
Qed.

Lemma wp_arith `{Build} w x s (Q : Z -> S -> Prop) :
  0 <= x < 2 ^ w -> Q x s -> wp (E:=E) (arith w x) s Q.
Proof.
  intros Hx HQ. unfold arith, fits.
  rewrite (proj2 (Z.leb_le _ _)), (proj2 (Z.ltb_lt _ _)) by lia. done.
Qed.

Lemma wp_map_err {E' A} (f : E -> E') (m : M S E A) s Q :
  wp m s Q -> wp (map_err f m) s Q.
Proof. unfold wp, map_err. destruct (m s) as [[a|e| |] s']; naive_solver. Qed.

Lemma wp_attempt {A} (m : M S E A) s (Q : A + E -> S -> Prop) :
  wp m s (fun a s' => Q (inl a) s') -> wp (attempt m) s Q.
Proof. unfold wp, attempt. destruct (m s) as [[a|e| |] s']; naive_solver. Qed.

Lemma wp_zoom {T A} (get : T -> S) (set : S -> T -> T) (m : M S E A) (t : T) Q :
  wp m (get t) (fun a s' => Q a (set s' t)) -> wp (zoom get set m) t Q.
Proof. unfold wp, zoom. destruct (m (get t)) as [[a|e| |] s']; naive_solver. Qed.

(** The loop rule: an invariant indexed by the loop variable. *)
Lemma wp_for_range {A} (I : nat -> A -> S -> Prop) (f : nat -> A -> M S E A) n lo acc s :
  I lo acc s ->
  (forall i a s', (lo <= i < lo + n)%nat -> I i a s' ->
     wp (f i a) s' (I (Datatypes.S i))) ->
  wp (for_range lo n f acc) s (I (lo + n)%nat).
Proof.
  revert lo acc s. induction n as [|n IH]; intros lo acc s HI Hf; cbn [for_range].
  - apply wp_ret. by rewrite Nat.add_0_r.
  - apply wp_bind. eapply wp_mono; [apply Hf; [lia|done]|].
    intros a s' HI'. replace (lo + Datatypes.S n)%nat with (Datatypes.S lo + n)%nat by lia.
    apply IH; [done|]. intros i a' s'' Hi. apply Hf. lia.
Qed.

Lemma wp_for_each {A B} (I : list B -> A -> S -> Prop) (f : B -> A -> M S E A) l acc s :
  I l acc s ->
  (forall x l' a s', x :: l' `suffix_of` l -> I (x :: l') a s' -> wp (f x a) s' (I l')) ->
  wp (for_each l f acc) s (I []).
Proof.
  revert acc s. induction l as [|x l IH]; intros acc s HI Hf; cbn [for_each].
  - by apply wp_ret.
  - apply wp_bind. eapply wp_mono; [apply Hf; done|].
    intros a s' HI'. apply IH; [done|].
    intros y l' a' s'' Hsuf. apply Hf. by apply suffix_cons_r.
Qed.
End wp.

(** [wpe m s Q R]: [m] returns [Ok] with [Q] or [Err] with [R]. *)
Definition wpe {S E A} (m : M S E A) (s : S) (Q : A -> S -> Prop) (R : E -> S -> Prop) : Prop :=
  match m s with
  | (Ok a, s') => Q a s'
  | (Err e, s') => R e s'
  | _ => False
  end.

Section wpe.
  Context {S E : Type}.

Lemma wpe_ret {A} (a : A) (s : S) (Q : A -> S -> Prop) (R : E -> S -> Prop) : Q a s -> wpe (mret a) s Q R.
Proof. done. Qed.

Lemma wpe_throw {A} (e : E) (s : S) (Q : A -> S -> Prop) (R : E -> S -> Prop) : R e s -> wpe (throw e) s Q R.
Proof. done. Qed.

Lemma wpe_wp {A} (m : M S E A) (s : S) Q R : wp m s Q -> wpe m s Q R.
Proof. unfold wp, wpe. destruct (m s) as [[]]; done. Qed.

(** A first part that cannot fail, and one that can. *)
Lemma wpe_bind {A B} (m : M S E A) (f : A -> M S E B) (s : S) Q R :
  wp m s (fun a s' => wpe (f a) s' Q R) -> wpe (m ≫= f) s Q R.
Proof. unfold wp, wpe, mbind, M_bind. destruct (m s) as [[]]; done. Qed.

Lemma wpe_try {A B} (m : M S E A) (f : A -> M S E B) (s : S) Q R :
  wpe m s (fun a s' => wpe (f a) s' Q R) R -> wpe (m ≫= f) s Q R.
Proof. unfold wpe, mbind, M_bind. destruct (m s) as [[]]; done. Qed.

Lemma wpe_mono {A} (m : M S E A) (s : S) (Q Q' : A -> S -> Prop) (R R' : E -> S -> Prop) :
  wpe m s Q R -> (forall a s', Q a s' -> Q' a s') -> (forall e s', R e s' -> R' e s') -> wpe m s Q' R'.
Proof. unfold wpe. destruct (m s) as [[]]; auto. Qed.

Lemma wpe_attempt {A} (m : M S E A) (s : S) (Q : A + E -> S -> Prop) :
  wpe m s (fun a => Q (inl a)) (fun e => Q (inr e)) -> wp (attempt m) s Q.
Proof. unfold wp, wpe, attempt. destruct (m s) as [[]]; done. Qed.

Lemma wpe_map_err {E' A} (g : E -> E') (m : M S E A) (s : S) (Q : A -> S -> Prop) (R : E' -> S -> Prop) :
  wpe m s Q (fun e => R (g e)) -> wpe (map_err g m) s Q R.
Proof. unfold wpe, map_err. destruct (m s) as [[]]; done. Qed.

Lemma wpe_zoom {T A} (get : T -> S) (set : S -> T -> T) (m : M S E A) (t : T) (Q : A -> T -> Prop) (R : E -> T -> Prop) :
  wpe m (get t) (fun a s' => Q a (set s' t)) (fun e s' => R e (set s' t)) -> wpe (zoom get set m) t Q R.
Proof. unfold wpe, zoom. destruct (m (get t)) as [[]]; done. Qed.
End wpe.

(** Symbolic execution of straight-line monadic code. *)
Ltac wp_step :=
  lazymatch goal with
  | |- wp (mret _) _ _ => apply wp_ret
  | |- wp (mbind _ _) _ _ => apply wp_bind
  | |- wp (gets _) _ _ => apply wp_gets
  | |- wp (modify _) _ _ => apply wp_modify
  | |- wp (rust_assert _) _ _ => apply wp_assert
  | |- wp (checked _ _) _ _ => apply wp_checked
  | |- wp (arith _ _) _ _ => apply wp_arith
  | |- wp (map_err _ _) _ _ => apply wp_map_err
  | |- wp (zoom _ _ _) _ _ => apply wp_zoom
  end; cbn beta iota.
Ltac wp_pure := repeat (wp_step; try (lia || done || reflexivity)).

(** Split conjunctions, not the definitions that stand for one. *)
Ltac split_conj := repeat lazymatch goal with |- _ /\ _ => split end.

(** Boolean tests as propositions, in the context and the goal. *)
Ltac bool_to_prop :=
  repeat match goal with
  | H : _ && _ = true |- _ => apply andb_prop in H as [? ?]
  | H : _ || _ = false |- _ => apply orb_false_elim in H as [? ?]
  | H : negb _ = true |- _ => apply negb_true_iff in H
  | H : negb _ = false |- _ => apply negb_false_iff in H
  | H : (_ =? _) = true |- _ => apply Z.eqb_eq in H
  | H : (_ =? _) = false |- _ => apply Z.eqb_neq in H
  | H : (_ <? _) = true |- _ => apply Z.ltb_lt in H
  | H : (_ <? _) = false |- _ => apply Z.ltb_ge in H
  | H : (_ <=? _) = true |- _ => apply Z.leb_le in H
  | H : (_ <=? _) = false |- _ => apply Z.leb_gt in H
  | H : bool_decide _ = true |- _ => apply bool_decide_eq_true in H
  | H : bool_decide _ = false |- _ => apply bool_decide_eq_false in H
  end.

(** ** Sums over a list *)

Definition zsum {A} (f : A -> Z) (l : list A) : Z := foldr (fun x acc => f x + acc) 0 l.

Lemma zsum_app {A} (f : A -> Z) l k : zsum f (l ++ k) = zsum f l + zsum f k.
Proof. induction l as [|x l IH]; cbn; [done|]. unfold zsum in *. lia. Qed.

Lemma zsum_insert {A} (f : A -> Z) l i x y :
  l !! i = Some x -> zsum f (<[i := y]> l) = zsum f l - f x + f y.
Proof.
  revert i. induction l as [|z l IH]; intros [|i] Hi; cbn in *; simplify_eq; unfold zsum in *; cbn; [lia|].
  rewrite IH by done. lia.
Qed.

Lemma zsum_nonneg {A} (f : A -> Z) l : Forall (fun x => 0 <= f x) l -> 0 <= zsum f l.
Proof. induction 1; cbn; [lia|]. unfold zsum in *. lia. Qed.

Lemma zsum_cons {A} (f : A -> Z) x l : zsum f (x :: l) = f x + zsum f l.
Proof. done. Qed.

Lemma zsum_ge {A} (f : A -> Z) l i x :
  Forall (fun x => 0 <= f x) l -> l !! i = Some x -> f x <= zsum f l.
Proof.
  intros Hf. revert i. induction Hf as [|y l Hy Hl IH]; intros [|i] Hi; cbn in *; simplify_eq.
  - pose proof (zsum_nonneg f l Hl). unfold zsum in *. lia.
  - specialize (IH _ Hi). unfold zsum in *. lia.
Qed.

Lemma zsum_le_length {A} (f : A -> Z) l :
  (forall x, f x <= 1) -> zsum f l <= Z.of_nat (length l).
Proof. intros Hf. induction l as [|x l IH]; cbn; [lia|]. specialize (Hf x). unfold zsum in *. lia. Qed.

Lemma zsum_pos {A} (f : A -> Z) l : 0 < zsum f l -> exists i x, l !! i = Some x /\ 0 < f x.
Proof.
  induction l as [|x l IH]; cbn; [lia|]. intros H. destruct (decide (0 < f x)) as [Hx|Hx].
  - by exists 0%nat, x.
  - destruct IH as (i & y & Hi & Hy); [unfold zsum in *; lia|]. by exists (S i), y.
Qed.

#[global] Arguments zsum {A} f l : simpl never.

(** ** Offsets in pages of 4K *)

Lemma land_low x : Z.land x 0xFFF = x `mod` 0x1000.
Proof. exact (Z.land_ones x 12 ltac:(lia)). Qed.

Lemma land_page x : Z.land x (Z.lnot 0xFFF) = x - x `mod` 0x1000.
Proof.
  rewrite <-Z.ldiff_land. change 0xFFF with (Z.ones 12). rewrite Z.ldiff_ones_r by lia.
  rewrite Z.shiftl_mul_pow2, Z.shiftr_div_pow2 by lia. change (2 ^ 12) with 0x1000. lia.
Qed.

(** ** Lemmas on buffers *)
Section buffers.
  Context {A : Type}.
  Implicit Types l : list A.

Lemma length_slice off len l :
  (off + len <= length l)%nat -> length (slice off len l) = len.
Proof. intros. unfold slice. rewrite length_take, length_drop. lia. Qed.

Lemma length_splice off l' l :
  (off + length l' <= length l)%nat -> length (splice off l' l) = length l.
Proof.
  intros. unfold splice. rewrite !length_app, length_take, length_drop. lia.
Qed.

Lemma lookup_slice off len l i :
  (i < len)%nat -> slice off len l !! i = l !! (off + i)%nat.
Proof. intros. unfold slice. by rewrite lookup_take_lt, lookup_drop by lia. Qed.

Lemma lookup_splice off l' l i :
  (off + length l' <= length l)%nat ->
  splice off l' l !! i =
    if decide (off <= i < off + length l')%nat then l' !! (i - off)%nat else l !! i.
Proof.
  intros. unfold splice. case_decide.
  - rewrite lookup_app_r, length_take by (rewrite length_take; lia).
    rewrite lookup_app_l by lia. f_equal. lia.
  - destruct (decide (i < off)%nat).
    + rewrite lookup_app_l, lookup_take_lt by (rewrite ?length_take; lia). done.
    + rewrite lookup_app_r, length_take by (rewrite length_take; lia).
      rewrite lookup_app_r, lookup_drop by lia. f_equal. lia.
Qed.

Lemma slice_splice_eq off l' l :
  (off + length l' <= length l)%nat -> slice off (length l') (splice off l' l) = l'.
Proof.
  intros. unfold slice, splice.
  rewrite drop_app_length' by (rewrite length_take; lia). by rewrite take_app_length.
Qed.

Lemma slice_splice_eq' off n l' l :
  n = length l' -> (off + n <= length l)%nat -> slice off n (splice off l' l) = l'.
Proof. intros ->. apply slice_splice_eq. Qed.

Lemma slice_splice_ne off len off' l' l :
  (off' + length l' <= length l)%nat ->
  (off + len <= off' \/ off' + length l' <= off)%nat ->
  slice off len (splice off' l' l) = slice off len l.
Proof.
  intros Hl Hd. apply list_eq. intros i. destruct (decide (i < len)%nat).
  - rewrite !lookup_slice by lia. rewrite lookup_splice by lia.
    by rewrite decide_False by lia.
  - unfold slice. by rewrite !lookup_take_ge by lia.
Qed.

Lemma Forall_slice (P : A -> Prop) off len l : Forall P l -> Forall P (slice off len l).
Proof. intros. by apply Forall_take, Forall_drop. Qed.

Lemma Forall_splice (P : A -> Prop) off l' l :
  Forall P l' -> Forall P l -> Forall P (splice off l' l).
Proof.
  intros. unfold splice. apply Forall_app; split; [by apply Forall_take|].
  apply Forall_app; split; [done|by apply Forall_drop].
Qed.

Lemma slice_full l n : n = length l -> slice 0 n l = l.
Proof. intros ->. unfold slice. by rewrite drop_0, take_ge by lia. Qed.

Lemma splice_full l' l : length l' = length l -> splice 0 l' l = l'.
Proof.
  intros H. unfold splice. rewrite take_0, drop_ge by lia. by rewrite app_nil_r.
Qed.

Lemma slice_slice off len off' len' l :
  (off' + len' <= len)%nat -> slice off' len' (slice off len l) = slice (off + off') len' l.
Proof.
  intros. apply list_eq. intros i. destruct (decide (i < len')%nat).
  - rewrite !lookup_slice by lia. f_equal. lia.
  - unfold slice. by rewrite !lookup_take_ge by lia.
Qed.

Lemma slice_app_l off len l l' :
  (off + len <= length l)%nat -> slice off len (l ++ l') = slice off len l.
Proof.
  intros. apply list_eq. intros i. destruct (decide (i < len)%nat).
  - rewrite !lookup_slice by lia. by rewrite lookup_app_l by lia.
  - unfold slice. by rewrite !lookup_take_ge by lia.
Qed.

Lemma slice_app_r off len l l' :
  (length l <= off)%nat -> slice off len (l ++ l') = slice (off - length l) len l'.
Proof. intros. unfold slice. by rewrite drop_app_ge by lia. Qed.

Lemma splice_slice_id off len l :
  (off + len <= length l)%nat -> splice off (slice off len l) l = l.
Proof.
  intros. apply list_eq. intros i.
  rewrite lookup_splice by (rewrite length_slice; lia).
  rewrite length_slice by lia. case_decide; [|done].
  rewrite lookup_slice by lia. f_equal. lia.
Qed.
Lemma splice_nil off l : splice off [] l = l.
Proof. unfold splice. cbn. by rewrite Nat.add_0_r, take_drop. Qed.

Lemma slice_0 off l : slice off 0 l = [].
Proof. done. Qed.

Lemma slice_add off a b l : slice off (a + b) l = slice off a l ++ slice (off + a) b l.
Proof. unfold slice. by rewrite <-take_take_drop, drop_drop. Qed.

Lemma splice_splice_adj off x y l :
  (off + length x + length y <= length l)%nat ->
  splice (off + length x) y (splice off x l) = splice off (x ++ y) l.
Proof.
  intros. unfold splice. rewrite (take_app_ge _ _ (off + _)), length_take by (rewrite length_take; lia).
  replace (off + length x - off `min` length l)%nat with (length x + 0)%nat by lia.
  rewrite take_app_add, take_0, app_nil_r, <-!app_assoc. do 3 f_equal.
  rewrite !drop_app_ge by (rewrite ?length_app, ?length_take; lia).
  rewrite drop_drop. f_equal. rewrite ?length_app, length_take. lia.
Qed.

Lemma splice_app_l off x l l' :
  (off + length x <= length l)%nat -> splice off x (l ++ l') = splice off x l ++ l'.
Proof.
  intros. unfold splice. rewrite take_app_le, drop_app_le, <-!app_assoc by lia. done.
Qed.

Lemma splice_app_r off x l l' :
  (length l <= off)%nat -> splice off x (l ++ l') = l ++ splice (off - length l) x l'.
Proof.
  intros. unfold splice. rewrite take_app_ge, drop_app_ge, <-!app_assoc by lia.
  do 3 f_equal. f_equal. lia.
Qed.

Lemma slice_splice_in off len o x l :
  (off <= o)%nat -> (o + length x <= off + len)%nat -> (off + len <= length l)%nat ->
  slice off len (splice o x l) = splice (o - off) x (slice off len l).
Proof.
  intros Ho Hx Hl. apply list_eq. intros k. destruct (decide (k < len)%nat).
  - rewrite lookup_slice, !lookup_splice by (rewrite ?length_slice; lia).
    rewrite lookup_slice by lia. repeat case_decide; try lia; [f_equal; lia|done].
  - rewrite !lookup_ge_None_2; [done| |rewrite length_slice; [lia|rewrite length_splice; lia]].
    rewrite length_splice; rewrite length_slice; lia.
Qed.

Lemma slice_in_splice a len off x l :
  (off <= a)%nat -> (a + len <= off + length x)%nat -> (off <= length l)%nat ->
  slice a len (splice off x l) = slice (a - off) len x.
Proof.
  intros. unfold splice. rewrite slice_app_r by (rewrite length_take; lia).
  rewrite length_take, Nat.min_l, slice_app_l by lia. done.
Qed.
End buffers.

#[export] Hint Rewrite @length_app @length_take @length_drop @length_replicate @length_insert : len.
Ltac len := autorewrite with len in *; try lia.

(** ** Lemmas on little-endian integers *)

Lemma length_to_le n x : length (to_le n x) = n.
Proof. revert x. induction n; intros; simpl; auto. Qed.

Lemma from_to_le n x : 0 <= x < 256 ^ Z.of_nat n -> from_le (to_le n x) = x.
Proof.
  revert x. induction n as [|n IH]; intros x Hx; cbn [to_le from_le]; [lia|].
  rewrite Nat2Z.inj_succ, Z.pow_succ_r in Hx by lia. rewrite IH by lia. lia.
Qed.

Lemma to_from_le l : Forall is_byte l -> to_le (length l) (from_le l) = l.
Proof.
  unfold is_byte. induction 1 as [|b l Hb _ IH]; cbn [to_le from_le length]; [done|].
  f_equal; [lia|]. replace ((b + 256 * from_le l) / 256) with (from_le l) by lia. done.
Qed.

Lemma from_le_bound l : Forall is_byte l -> 0 <= from_le l < 256 ^ Z.of_nat (length l).
Proof.
  unfold is_byte. induction 1 as [|b l Hb _ IH]; cbn [from_le length]; [lia|].
  rewrite Nat2Z.inj_succ, Z.pow_succ_r by lia. lia.
Qed.

Lemma to_le_bytes n x : Forall is_byte (to_le n x).
Proof. revert x. induction n; intros; cbn [to_le]; constructor; auto. unfold is_byte. lia. Qed.

#[global] Arguments to_le n x : simpl never.
#[export] Hint Resolve to_le_bytes Forall_slice Forall_splice : cos.
#[export] Hint Rewrite length_to_le : len.

(** ** Runs of equally long blocks *)

Lemma concat_seqZ_snoc {A} (f : Z -> list A) i k :
  0 <= k -> concat (f <$> seqZ i (k + 1)) = concat (f <$> seqZ i k) ++ f (i + k).
Proof.
  intros. rewrite seqZ_app, fmap_app, concat_app by lia. f_equal.
  rewrite seqZ_cons by lia. cbn. by rewrite app_nil_r.
Qed.

Lemma length_concat_seqZ {A} (f : Z -> list A) i n b :
  (forall j, i <= j < i + n -> length (f j) = b) ->
  length (concat (f <$> seqZ i n)) = (Z.to_nat n * b)%nat.
Proof.
  intros Hf. destruct (decide (n < 0)).
  { rewrite seqZ_nil by lia. cbn. lia. }
  assert (Hk : forall k, (k <= Z.to_nat n)%nat ->
    length (concat (f <$> seqZ i (Z.of_nat k))) = (k * b)%nat).
  { induction k as [|k IH]; intros Hk; [done|].
    rewrite Nat2Z.inj_succ, <-Z.add_1_r, concat_seqZ_snoc, length_app, IH, Hf by lia. lia. }
  specialize (Hk (Z.to_nat n)). rewrite Z2Nat.id in Hk by lia. auto.
Qed.

Lemma slice_concat_seqZ {A} (f : Z -> list A) i n b k :
  (forall j, i <= j < i + n -> length (f j) = b) ->
  0 <= k < n ->
  slice (Z.to_nat k * b) b (concat (f <$> seqZ i n)) = f (i + k).
Proof.
  intros Hf Hk. replace n with (k + (1 + (n - k - 1))) by lia.
  rewrite seqZ_app, fmap_app, concat_app by lia.
  rewrite slice_app_r, (length_concat_seqZ _ _ _ b), Nat.sub_diag
    by (try rewrite (length_concat_seqZ _ _ _ b); try (intros; apply Hf); lia).
  rewrite seqZ_app, fmap_app, concat_app by lia. rewrite seqZ_cons by lia. cbn.
  rewrite app_nil_r, slice_app_l by (rewrite Hf; lia).
  apply slice_full. by rewrite Hf by lia.
Qed.

(** ** Bit operations *)

Lemma lor_bound a b n : 0 <= n -> 0 <= a < 2 ^ n -> 0 <= b < 2 ^ n -> 0 <= Z.lor a b < 2 ^ n.
Proof.
  intros Hn Ha Hb. assert (0 <= Z.lor a b) by (apply Z.lor_nonneg; lia). split; [done|].
  destruct (decide (Z.lor a b = 0)); [lia|]. apply Z.log2_lt_pow2; [lia|].
  rewrite Z.log2_lor by lia.
  destruct (decide (a = 0)) as [->|]; destruct (decide (b = 0)) as [->|]; [by cbn in *| | |];
    repeat match goal with
    | |- context [Z.log2 ?x] => lazymatch x with
      | 0 => change (Z.log2 0) with 0
      | _ => pose proof (Z.log2_nonneg x); assert (Z.log2 x < n) by (apply Z.log2_lt_pow2; lia);
             generalize dependent (Z.log2 x); intros
      end
    end; lia.
Qed.

Lemma land_bound a b : 0 <= b -> 0 <= Z.land a b <= b.
Proof.
  intros Hb. split; [apply Z.land_nonneg; by right|].
  apply Z.ldiff_le; [done|]. apply Z.bits_inj'. intros n Hn.
  rewrite Z.ldiff_spec, Z.land_spec, Z.bits_0.
  destruct (Z.testbit a n), (Z.testbit b n); done.
Qed.

Lemma wrap_bound w x : 0 <= w -> 0 <= wrap w x < 2 ^ w.
Proof. intros. apply Z.mod_pos_bound, Z.pow_pos_nonneg; lia. Qed.

Lemma wrap_small w x : 0 <= x < 2 ^ w -> wrap w x = x.
Proof. intros. by apply Z.mod_small. Qed.

Lemma testbit_above x n k : 0 <= x < 2 ^ n -> 0 <= n <= k -> Z.testbit x k = false.
Proof.
  intros Hx Hk. destruct (decide (x = 0)) as [->|]; [apply Z.bits_0|].
  apply Z.bits_above_log2; [lia|]. assert (Z.log2 x < n) by (apply Z.log2_lt_pow2; lia). lia.
Qed.

Lemma mul3_bound a b c A B C :
  0 <= a <= A -> 0 <= b <= B -> 0 <= c <= C -> 0 <= a * b * c <= A * B * C.
Proof.
  intros. assert (0 <= a * b) by (apply Z.mul_nonneg_nonneg; lia).
  split; [apply Z.mul_nonneg_nonneg; lia|].
  apply Z.mul_le_mono_nonneg; [done| |lia|lia]. apply Z.mul_le_mono_nonneg; lia.
Qed.
