(* ===== verification/Text.v ===== *)
(** * Rust strings

    A [String] or [&str] is the list of its Unicode scalar values. This file
    models what the sources use of the standard library on them: the UTF-8
    bytes of a string and [String::from_utf8]/[from_utf8_lossy], the UTF-16
    units of a string and [String::from_utf16_lossy], [trim_ascii]. *)
From S2P Require Import Prelude.

Definition rstring : Type := list Z.

(** [char]: a scalar value, not a surrogate. *)
Definition is_char (c : Z) : Prop := 0 <= c < 0xD800 \/ 0xE000 <= c < 0x110000.

Definition REPLACEMENT_CHARACTER : Z := 0xFFFD.

(** ** UTF-8 *)

Definition utf8_encode_char (c : Z) : list Z :=
  if c <? 0x80 then [c]
  else if c <? 0x800 then [0xC0 + c / 0x40; 0x80 + c `mod` 0x40]
  else if c <? 0x10000 then
    [0xE0 + c / 0x1000; 0x80 + (c / 0x40) `mod` 0x40; 0x80 + c `mod` 0x40]
  else
    [0xF0 + c / 0x40000; 0x80 + (c / 0x1000) `mod` 0x40;
     0x80 + (c / 0x40) `mod` 0x40; 0x80 + c `mod` 0x40].

(** [str::as_bytes]. *)
Definition as_bytes (s : rstring) : list Z := concat (utf8_encode_char <$> s).

Definition in_range (lo hi b : Z) : bool := (lo <=? b) && (b <=? hi).
Definition is_cont (b : Z) : bool := in_range 0x80 0xBF b.

(** Second bytes allowed after a three-byte or a four-byte lead. *)
Definition second3 (b0 b1 : Z) : bool :=
  if b0 =? 0xE0 then in_range 0xA0 0xBF b1
  else if b0 =? 0xED then in_range 0x80 0x9F b1
  else is_cont b1.
Definition second4 (b0 b1 : Z) : bool :=
  if b0 =? 0xF0 then in_range 0x90 0xBF b1
  else if b0 =? 0xF4 then in_range 0x80 0x8F b1
  else is_cont b1.

(** Decoding: [Some c] for a well-formed sequence, [None] for each maximal
    ill-formed one. *)
Fixpoint utf8_decode (l : list Z) : list (option Z) :=
  match l with
  | [] => []
  | b0 :: t0 =>
      if b0 <? 0x80 then Some b0 :: utf8_decode t0
      else if in_range 0xC2 0xDF b0 then
        match t0 with
        | b1 :: t1 =>
            if is_cont b1 then Some ((b0 - 0xC0) * 0x40 + (b1 - 0x80)) :: utf8_decode t1
            else None :: utf8_decode t0
        | [] => [None]
        end
      else if in_range 0xE0 0xEF b0 then
        match t0 with
        | b1 :: t1 =>
            if second3 b0 b1 then
              match t1 with
              | b2 :: t2 =>
                  if is_cont b2 then
                    Some ((b0 - 0xE0) * 0x1000 + (b1 - 0x80) * 0x40 + (b2 - 0x80))
                      :: utf8_decode t2
                  else None :: utf8_decode t1
              | [] => [None]
              end
            else None :: utf8_decode t0
        | [] => [None]
        end
      else if in_range 0xF0 0xF4 b0 then
        match t0 with
        | b1 :: t1 =>
            if second4 b0 b1 then
              match t1 with
              | b2 :: t2 =>
                  if is_cont b2 then
                    match t2 with
                    | b3 :: t3 =>
                        if is_cont b3 then
                          Some ((b0 - 0xF0) * 0x40000 + (b1 - 0x80) * 0x1000
                                + (b2 - 0x80) * 0x40 + (b3 - 0x80)) :: utf8_decode t3
                        else None :: utf8_decode t2
                    | [] => [None]
                    end
                  else None :: utf8_decode t1
              | [] => [None]
              end
            else None :: utf8_decode t0
        | [] => [None]
        end
      else None :: utf8_decode t0
  end.

(** [String::from_utf8]: all of the sequence, or nothing. *)
Definition from_utf8 (l : list Z) : option rstring := mapM id (utf8_decode l).

(** [String::from_utf8_lossy]. *)
Definition from_utf8_lossy (l : list Z) : rstring :=
  default REPLACEMENT_CHARACTER <$> utf8_decode l.

(** ** UTF-16 *)

Definition utf16_encode_char (c : Z) : list Z :=
  if c <? 0x10000 then [c]
  else [0xD800 + (c - 0x10000) / 0x400; 0xDC00 + (c - 0x10000) `mod` 0x400].

(** [str::encode_utf16]. *)
Definition encode_utf16 (s : rstring) : list Z := concat (utf16_encode_char <$> s).

(** [char::decode_utf16]: [None] for each unpaired surrogate. *)
Fixpoint decode_utf16 (l : list Z) : list (option Z) :=
  match l with
  | [] => []
  | u :: t =>
      if negb (in_range 0xD800 0xDFFF u) then Some u :: decode_utf16 t
      else if 0xDC00 <=? u then None :: decode_utf16 t
      else
        match t with
        | [] => [None]
        | u2 :: t2 =>
            if in_range 0xDC00 0xDFFF u2
            then Some ((u - 0xD800) * 0x400 + (u2 - 0xDC00) + 0x10000) :: decode_utf16 t2
            else None :: decode_utf16 t
        end
  end.

(** [String::from_utf16_lossy]. *)
Definition from_utf16_lossy (l : list Z) : rstring :=
  default REPLACEMENT_CHARACTER <$> decode_utf16 l.

(** ** [trim_ascii] *)

Definition is_ascii_whitespace (b : Z) : bool :=
  (b =? 0x20) || (b =? 0x09) || (b =? 0x0A) || (b =? 0x0C) || (b =? 0x0D).

Fixpoint trim_ascii_start (l : list Z) : list Z :=
  match l with
  | b :: l' => if is_ascii_whitespace b then trim_ascii_start l' else l
  | [] => []
  end.

Definition trim_ascii (l : list Z) : list Z :=
  reverse (trim_ascii_start (reverse (trim_ascii_start l))).

(** ** Round trips *)

Lemma in_range_true lo hi b : lo <= b <= hi -> in_range lo hi b = true.
Proof. unfold in_range. intros. by rewrite !(proj2 (Z.leb_le _ _)) by lia. Qed.

Lemma in_range_false lo hi b : b < lo \/ hi < b -> in_range lo hi b = false.
Proof.
  unfold in_range. intros [?|?]; [rewrite (proj2 (Z.leb_gt _ _)) by lia; done|].
  rewrite (proj2 (Z.leb_gt b hi)) by lia. apply andb_false_r.
Qed.

(** The base-64 digits of a scalar value. *)
Lemma base64_digits c : 0 <= c ->
  exists x y z w, c / 0x40000 = x /\ (c / 0x1000) `mod` 0x40 = y /\
    (c / 0x40) `mod` 0x40 = z /\ c `mod` 0x40 = w /\
    c / 0x1000 = 0x40 * x + y /\ c / 0x40 = 0x1000 * x + 0x40 * y + z /\
    0 <= x /\ 0 <= y < 64 /\ 0 <= z < 64 /\ 0 <= w < 64 /\
    c = x * 0x40000 + y * 0x1000 + z * 0x40 + w.
Proof.
  intros. assert (c / 0x1000 = c / 0x40 / 0x40) as -> by (rewrite Z.div_div; lia).
  assert (c / 0x40000 = c / 0x40 / 0x40 / 0x40) as -> by (rewrite !Z.div_div; lia).
  do 4 eexists. split_and!; try reflexivity; lia.
Qed.

Lemma second3_true b0 y z w :
  0 <= y < 16 -> 0 <= z < 64 -> 0 <= w < 64 -> b0 = 0xE0 + y -> 0x800 <= y * 0x1000 + z * 0x40 + w ->
  is_char (y * 0x1000 + z * 0x40 + w) -> second3 b0 (0x80 + z) = true.
Proof.
  unfold second3, is_char. intros ? ? ? -> ? ?.
  destruct (Z.eqb_spec (0xE0 + y) 0xE0); [apply in_range_true; lia|].
  destruct (Z.eqb_spec (0xE0 + y) 0xED); apply in_range_true; lia.
Qed.

Lemma second4_true b0 x y z w :
  0 <= x -> 0 <= y < 64 -> 0 <= z < 64 -> 0 <= w < 64 -> b0 = 0xF0 + x ->
  0x10000 <= x * 0x40000 + y * 0x1000 + z * 0x40 + w < 0x110000 -> second4 b0 (0x80 + y) = true.
Proof.
  unfold second4. intros ? ? ? ? -> ?.
  destruct (Z.eqb_spec (0xF0 + x) 0xF0); [apply in_range_true; lia|].
  destruct (Z.eqb_spec (0xF0 + x) 0xF4); apply in_range_true; lia.
Qed.

Lemma utf8_decode_encode_char c l :
  is_char c -> utf8_decode (utf8_encode_char c ++ l) = Some c :: utf8_decode l.
Proof.
  unfold utf8_encode_char. intros Hc. assert (Hr : 0 <= c < 0x110000) by (unfold is_char in Hc; lia).
  destruct (base64_digits c) as (x & y & z & w & Ex & -> & Ez & -> & Ey & Ez' & ? & ? & ? & ? & ->);
    [lia|]. rewrite Ez, Ez', Ey, Ex.
  destruct (Z.ltb_spec (x * 0x40000 + y * 0x1000 + z * 0x40 + w) 0x80);
    [|destruct (Z.ltb_spec (x * 0x40000 + y * 0x1000 + z * 0x40 + w) 0x800);
      [|destruct (Z.ltb_spec (x * 0x40000 + y * 0x1000 + z * 0x40 + w) 0x10000)]];
    cbn [app utf8_decode].
  - rewrite (proj2 (Z.ltb_lt _ _)) by lia. done.
  - rewrite (proj2 (Z.ltb_ge _ _)), in_range_true by lia. unfold is_cont. rewrite in_range_true by lia.
    f_equal. f_equal. lia.
  - assert (x = 0) as -> by lia.
    rewrite (proj2 (Z.ltb_ge _ _)), in_range_false, in_range_true by lia.
    rewrite (second3_true _ y z w) by (lia || exact Hc). unfold is_cont. rewrite in_range_true by lia.
    f_equal. f_equal. lia.
  - rewrite (proj2 (Z.ltb_ge _ _)), !in_range_false, in_range_true by lia.
    rewrite (second4_true _ x y z w) by lia. unfold is_cont. rewrite !in_range_true by lia.
    f_equal. f_equal. lia.
Qed.

Lemma utf8_decode_as_bytes s : Forall is_char s -> utf8_decode (as_bytes s) = Some <$> s.
Proof.
  unfold as_bytes. induction 1 as [|c s Hc _ IH]; [done|].
  cbn [fmap list_fmap concat]. rewrite utf8_decode_encode_char, IH by done. done.
Qed.

Lemma mapM_id_Some {A} (s : list A) : mapM (M:=option) id (Some <$> s) = Some s.
Proof. induction s as [|x s IH]; [done|]. cbn. cbn in IH. by rewrite IH. Qed.

Lemma from_utf8_as_bytes s : Forall is_char s -> from_utf8 (as_bytes s) = Some s.
Proof. intros. unfold from_utf8. by rewrite utf8_decode_as_bytes, mapM_id_Some. Qed.

Lemma decode_encode_utf16_char c l :
  is_char c -> decode_utf16 (utf16_encode_char c ++ l) = Some c :: decode_utf16 l.
Proof.
  unfold is_char, utf16_encode_char. intros Hc.
  destruct (Z.ltb_spec c 0x10000); cbn [app decode_utf16].
  - rewrite in_range_false by lia. done.
  - rewrite (in_range_true 0xD800 _ (0xD800 + _)), (proj2 (Z.leb_gt 0xDC00 (0xD800 + _))) by lia.
    rewrite (in_range_true 0xDC00) by lia.
    cbn [negb]. f_equal. f_equal. lia.
Qed.

Lemma decode_encode_utf16 s : Forall is_char s -> decode_utf16 (encode_utf16 s) = Some <$> s.
Proof.
  unfold encode_utf16. induction 1 as [|c s Hc _ IH]; [done|].
  cbn [fmap list_fmap concat]. rewrite decode_encode_utf16_char, IH by done. done.
Qed.

Lemma from_utf16_lossy_encode s : Forall is_char s -> from_utf16_lossy (encode_utf16 s) = s.
Proof.
  intros. unfold from_utf16_lossy. rewrite decode_encode_utf16 by done.
  rewrite <-list_fmap_compose. apply list_fmap_id.
Qed.

Lemma encode_utf16_inj s t :
  Forall is_char s -> Forall is_char t -> encode_utf16 s = encode_utf16 t -> s = t.
Proof.
  intros Hs Ht Heq. rewrite <-(from_utf16_lossy_encode s), <-(from_utf16_lossy_encode t) by done.
  by rewrite Heq.
Qed.

Lemma encode_utf16_units s :
  Forall is_char s -> Forall (fun u => 0 <= u < 0x10000) (encode_utf16 s).
Proof.
  unfold encode_utf16. induction 1 as [|c s Hc _ IH]; [constructor|].
  cbn [fmap list_fmap concat]. apply Forall_app; split; [|done].
  unfold is_char, utf16_encode_char in *. destruct (Z.ltb_spec c 0x10000); repeat constructor; lia.
Qed.

(** A string without NUL has no zero unit. *)
Lemma encode_utf16_nonzero s :
  Forall is_char s -> Forall (fun c => c <> 0) s -> Forall (fun u => u <> 0) (encode_utf16 s).
Proof.
  unfold encode_utf16. induction 1 as [|c s Hc _ IH]; intros H0; [constructor|].
  apply Forall_cons in H0 as [Hn H0].
  cbn [fmap list_fmap concat]. apply Forall_app; split; [|auto].
  unfold is_char, utf16_encode_char in *. destruct (Z.ltb_spec c 0x10000); repeat constructor; lia.
Qed.

Lemma as_bytes_is_byte s : Forall is_char s -> Forall is_byte (as_bytes s).
Proof.
  unfold as_bytes. induction 1 as [|c s Hc _ IH]; [constructor|].
  cbn [fmap list_fmap concat]. apply Forall_app; split; [|done].
  unfold is_char, is_byte, utf8_encode_char in *.
  destruct (Z.ltb_spec c 0x80); [|destruct (Z.ltb_spec c 0x800); [|destruct (Z.ltb_spec c 0x10000)]];
    repeat constructor; lia.
Qed.

(** Only the character ['/'] (or any other ASCII one) has that byte. *)
Lemma utf8_encode_char_ascii c b :
  is_char c -> 0 <= b < 0x80 -> b ∈ utf8_encode_char c -> c = b.
Proof.
  unfold is_char, utf8_encode_char. intros Hc Hb.
  destruct (Z.ltb_spec c 0x80); [|destruct (Z.ltb_spec c 0x800); [|destruct (Z.ltb_spec c 0x10000)]];
    rewrite ?elem_of_cons, elem_of_nil; lia.
Qed.
