(* ===== verification/Path.v ===== *)
(** * File paths (library/filesystem/src/path/mod.rs)

    [PathBuf] is its vector of segments; [Path] is a borrowed prefix of one,
    so the same lists model both. *)
From S2P Require Import Prelude Text.

Definition DELIMITER : Z := 0x2f.

Inductive ParsePathError : Type := InvalidSegments.

Definition PathBuf : Type := list rstring.

Module PathImpl.

(** [bytes.split(|&b| b == DELIMITER)]. *)
Fixpoint split (bytes : list Z) : list (list Z) :=
  match bytes with
  | [] => [[]]
  | b :: rest =>
      if b =? DELIMITER then [] :: split rest
      else match split rest with
           | seg :: segs => (b :: seg) :: segs
           | [] => [[b]]
           end
  end.

Definition is_empty {A} (l : list A) : bool :=
  match l with [] => true | _ => false end.

(** [.map(String::from_utf8).collect::<Result<Vec<_>, _>>()]. *)
Fixpoint collect (segs : list (list Z)) : outcome ParsePathError PathBuf :=
  match segs with
  | [] => Ok []
  | seg :: rest =>
      match from_utf8 seg with
      | None => Err InvalidSegments
      | Some s => segments ← collect rest; Ok (s :: segments)
      end
  end.

Definition from_bytes (bytes : list Z) : outcome ParsePathError PathBuf :=
  if is_empty bytes then Ok []
  else collect (filter (fun seg => is_empty seg = false) (split bytes)).

Definition from_str (s : rstring) : outcome ParsePathError PathBuf := from_bytes (as_bytes s).

Definition extends (self other : PathBuf) : PathBuf := self ++ other.

Definition add (self rhs : PathBuf) : PathBuf := self ++ rhs.

Definition is_root (self : PathBuf) : bool := is_empty self.

Definition parent (self : PathBuf) : PathBuf :=
  if is_root self then [] else take (length self - 1) self.

Definition last_segment (self : PathBuf) : option rstring := last self.

(** ** Lemmas *)

Lemma split_app a b : exists init seg, split a = init ++ [seg] /\
  split (a ++ DELIMITER :: b) = init ++ [seg] ++ split b.
Proof.
  induction a as [|x a IH].
  - by exists [], [].
  - destruct IH as (init & seg & Ha & Hab). cbn [split app]. destruct (x =? DELIMITER).
    + exists ([] :: init), seg. rewrite Ha, Hab. done.
    + rewrite Ha, Hab. destruct init as [|i init]; cbn.
      * exists [], (x :: seg). done.
      * exists ((x :: i) :: init), seg. done.
Qed.

Lemma split_delimiter a b : split (a ++ DELIMITER :: b) = split a ++ split b.
Proof.
  destruct (split_app a b) as (init & seg & -> & ->). by rewrite <-app_assoc.
Qed.

Lemma collect_app l k :
  collect (l ++ k) = (p ← collect l; q ← collect k; Ok (p ++ q)).
Proof.
  induction l as [|seg l IH]; cbn [collect app].
  - cbn. by destruct (collect k).
  - destruct (from_utf8 seg); [|done]. rewrite IH.
    destruct (collect l); [|done..]. cbn. by destruct (collect k).
Qed.

Lemma from_bytes_split bytes :
  from_bytes bytes = collect (filter (fun seg => is_empty seg = false) (split bytes)).
Proof. by destruct bytes. Qed.

Lemma split_no_delimiter bytes : DELIMITER ∉ bytes -> split bytes = [bytes].
Proof.
  induction bytes as [|b bytes IH]; intros Hn; [done|]. apply not_elem_of_cons in Hn as [Hb Hn].
  cbn [split]. rewrite (proj2 (Z.eqb_neq _ _)) by auto. by rewrite IH.
Qed.

(** A segment: not empty, without delimiter. *)
Definition is_segment (s : rstring) : Prop :=
  s <> [] /\ Forall is_char s /\ DELIMITER ∉ s.

Lemma segment_no_delimiter s :
  Forall is_char s -> DELIMITER ∉ s -> DELIMITER ∉ as_bytes s.
Proof.
  unfold as_bytes. induction 1 as [|c s Hc _ IH]; intros Hd; [apply not_elem_of_nil|].
  apply not_elem_of_cons in Hd as [Hn Hd]. cbn [fmap list_fmap concat].
  rewrite elem_of_app. intros [Hin|Hin]; [|by apply IH].
  apply Hn. symmetry. apply utf8_encode_char_ascii; [done|unfold DELIMITER; lia|done].
Qed.

Lemma as_bytes_nonempty s : s <> [] -> is_empty (as_bytes s) = false.
Proof.
  destruct s as [|c s]; [done|]. intros _. unfold as_bytes. cbn [fmap list_fmap concat].
  unfold utf8_encode_char. by repeat case_match.
Qed.

Lemma from_bytes_segment s : is_segment s -> from_bytes (as_bytes s) = Ok [s].
Proof.
  intros (Hne & Hc & Hd). rewrite from_bytes_split, split_no_delimiter by (by apply segment_no_delimiter).
  rewrite filter_cons_True by (by apply as_bytes_nonempty).
  cbn. by rewrite from_utf8_as_bytes.
Qed.

Lemma from_bytes_app a b :
  from_bytes (a ++ DELIMITER :: b) = (p ← from_bytes a; q ← from_bytes b; Ok (p ++ q)).
Proof. rewrite !from_bytes_split, split_delimiter, filter_app. apply collect_app. Qed.

(** Leading delimiters are ignored. *)
Lemma from_bytes_delimiter l : from_bytes (DELIMITER :: l) = from_bytes l.
Proof.
  change (DELIMITER :: l) with ([] ++ DELIMITER :: l). rewrite from_bytes_app.
  change (from_bytes []) with (Ok (E:=ParsePathError) (@nil rstring)).
  by destruct (from_bytes l).
Qed.

(** The text of a path: each segment behind a delimiter. *)
Definition to_text (p : PathBuf) : list Z := concat ((fun s => DELIMITER :: as_bytes s) <$> p).

(** ** Properties *)

(** Parsing is a homomorphism: the path of two texts joined by a delimiter
    is the concatenation of their paths, and it fails exactly when one of the
    two does (the first error wins). *)
Theorem from_bytes_join a b :
  from_bytes (a ++ DELIMITER :: b) =
    (p ← from_bytes a; q ← from_bytes b; Ok (add p q)).
Proof. apply from_bytes_app. Qed.

(** Printing a path of proper segments and parsing the text gives the
    path back; its parent and its last segment make up the path. *)
Theorem from_bytes_to_text p :
  Forall is_segment p ->
  from_bytes (to_text p) = Ok p /\
  (p <> [] -> exists s, last_segment p = Some s /\ extends (parent p) [s] = p).
Proof.
  intros Hp. split.
  - unfold to_text. induction Hp as [|s p Hs _ IH]; [done|].
    cbn [fmap list_fmap concat app]. rewrite from_bytes_delimiter.
    destruct p as [|s' p]; cbn [fmap list_fmap concat app] in *.
    + rewrite app_nil_r. by apply from_bytes_segment.
    + rewrite from_bytes_app, from_bytes_segment by done.
      rewrite from_bytes_delimiter in IH. by rewrite IH.
  - intros Hne. unfold last_segment, parent, is_root, extends.
    clear Hp. induction p as [|x p' _] using rev_ind; [congruence|]. exists x. rewrite last_snoc. split; [done|].
    assert (is_empty (p' ++ [x]) = false) as -> by (by destruct p').
    rewrite length_app. cbn [length]. by rewrite Nat.add_sub, take_app_length.
Qed.

Lemma from_bytes_to_text_witness :
  from_bytes (to_text [[0x64]; [0x4F60; 0x2e; 0x74]]) = Ok [[0x64]; [0x4F60; 0x2e; 0x74]].
Proof.
  apply (from_bytes_to_text [[0x64]; [0x4F60; 0x2e; 0x74]]).
  repeat constructor; try done; try (unfold is_char; lia);
    unfold DELIMITER; rewrite ?elem_of_cons, elem_of_nil; lia.
Defined.
End PathImpl.
