(* ===== verification/Device.v ===== *)
(** * Block devices (library/filesystem/src/device/mod.rs)

    The [BlockDevice] trait as a type class over the type of device states:
    the six methods, the provided bodies of the four that have one, and
    [BlockDeviceSpec], the contract that a client (the MBR partitions, the
    FAT32 file system) relies on and that every implementation discharges. *)
From S2P Require Import Prelude.

(** [dyn-io-error] is a feature for host builds; its [DynError] variant does
    not exist in the kernel. *)
Inductive BlockDeviceError : Type :=
  | OutOfBounds
  | OutOfMemory
  | IoError.

#[global] Instance BlockDeviceError_eq_dec : EqDecision BlockDeviceError.
Proof. solve_decision. Defined.

(** Methods take [&self] and change the device behind it: each is a
    computation on the device state. A read is handed the caller's buffer and
    returns it filled. *)
Class BlockDevice (D : Type) : Type := {
  block_size : D -> Z;
  block_count : D -> Z;
  write_block : Z -> list Z -> M D BlockDeviceError unit;
  read_block : Z -> list Z -> M D BlockDeviceError (list Z);
  write_blocks : Z -> Z -> list Z -> M D BlockDeviceError unit;
  read_blocks : Z -> Z -> list Z -> M D BlockDeviceError (list Z);
  write_zeros : Z -> Z -> M D BlockDeviceError unit;
  clear_blocks : Z -> Z -> M D BlockDeviceError unit;
}.

(** ** The provided methods of the trait *)
Section provided.
  Context {D : Type}.
  Variable size_of_block : D -> Z.
  Variable write_one : Z -> list Z -> M D BlockDeviceError unit.
  Variable read_one : Z -> list Z -> M D BlockDeviceError (list Z).

Definition provided_write_blocks (block_index count : Z) (buf : list Z)
    : M D BlockDeviceError unit :=
  size ← gets size_of_block;
  let size := Z.to_nat size in
  for_range 0 (Z.to_nat count) (fun i _ =>
    let offset := (i * size)%nat in
    if (length buf <? offset + size)%nat then panic
    else
      idx ← checked 64 (block_index + Z.of_nat i);
      write_one idx (slice offset size buf)) tt.

Definition provided_read_blocks (block_index count : Z) (buf : list Z)
    : M D BlockDeviceError (list Z) :=
  size ← gets size_of_block;
  let size := Z.to_nat size in
  for_range 0 (Z.to_nat count) (fun i buf =>
    let offset := (i * size)%nat in
    if (length buf <? offset + size)%nat then panic
    else
      idx ← checked 64 (block_index + Z.of_nat i);
      part ← read_one idx (slice offset size buf);
      mret (splice offset part buf)) buf.

Definition provided_write_zeros (multi_write : Z -> Z -> list Z -> M D BlockDeviceError unit)
    (block_index count : Z) : M D BlockDeviceError unit :=
  size ← gets size_of_block;
  len ← checked 64 (size * count);
  multi_write block_index count (replicate (Z.to_nat len) 0).

Definition provided_clear_blocks (zeros : Z -> Z -> M D BlockDeviceError unit)
    (block_index count : Z) : M D BlockDeviceError unit :=
  zeros block_index count.
End provided.

(** ** What a device promises

    [blk d i] is the content of block [i]; [written d i n buf d'] says that
    [d'] is [d] with the [n] blocks from [i] on replaced by [buf]. *)
Section written.
  Context {D : Type} `{!BlockDevice D} (ok : D -> Prop) (content : D -> Z -> list Z).

Definition written_as (d : D) (i n : Z) (buf : list Z) (d' : D) : Prop :=
  ok d' /\ block_size d' = block_size d /\ block_count d' = block_count d /\
  forall j, 0 <= j < block_count d ->
    content d' j =
      if decide (i <= j < i + n)
      then slice (Z.to_nat ((j - i) * block_size d)) (Z.to_nat (block_size d)) buf
      else content d j.
End written.

(** The arguments that the trait's documentation asks for. *)
Definition io_args {D} `{!BlockDevice D} (d : D) (i n : Z) (buf : list Z) : Prop :=
  0 <= i /\ 0 <= n /\ i + n <= block_count d /\
  length buf = Z.to_nat (n * block_size d).

Class BlockDeviceSpec (D : Type) `{!BlockDevice D} : Type := {
  dev_ok : D -> Prop;
  blk : D -> Z -> list Z;
  dev_geometry d : dev_ok d ->
    0 < block_size d /\ 0 <= block_count d /\ block_size d * block_count d < 2 ^ 64;
  blk_length d i : dev_ok d -> 0 <= i < block_count d ->
    length (blk d i) = Z.to_nat (block_size d);
  blk_bytes d i : dev_ok d -> 0 <= i < block_count d -> Forall is_byte (blk d i);
  read_block_spec d i buf : dev_ok d -> io_args d i 1 buf ->
    read_block i buf d = (Ok (blk d i), d);
  write_block_spec d i buf : dev_ok d -> io_args d i 1 buf -> Forall is_byte buf ->
    wp (write_block i buf) d (fun _ d' => written_as dev_ok blk d i 1 buf d');
  read_blocks_spec d i n buf : dev_ok d -> io_args d i n buf ->
    read_blocks i n buf d = (Ok (concat (blk d <$> seqZ i n)), d);
  write_blocks_spec d i n buf : dev_ok d -> io_args d i n buf -> Forall is_byte buf ->
    wp (write_blocks i n buf) d (fun _ d' => written_as dev_ok blk d i n buf d');
  write_zeros_spec d i n : dev_ok d -> 0 <= i -> 0 <= n -> i + n <= block_count d ->
    wp (write_zeros i n) d (fun _ d' =>
      written_as dev_ok blk d i n (replicate (Z.to_nat (n * block_size d)) 0) d');
}.

Notation written := (written_as dev_ok blk).

(** ** The provided methods meet the contract *)
Section provided_spec.
  Context {D : Type} `{!BlockDevice D} (ok : D -> Prop) (content : D -> Z -> list Z).
  Hypothesis geometry : forall d, ok d ->
    0 < block_size d /\ 0 <= block_count d /\ block_size d * block_count d < 2 ^ 64.
  Hypothesis content_length : forall d i, ok d -> 0 <= i < block_count d ->
    length (content d i) = Z.to_nat (block_size d).
  Hypothesis read_one_spec : forall d i buf, ok d -> io_args d i 1 buf ->
    read_block i buf d = (Ok (content d i), d).
  Hypothesis write_one_spec : forall d i buf, ok d -> io_args d i 1 buf ->
    Forall is_byte buf ->
    wp (write_block i buf) d (fun _ d' => written_as ok content d i 1 buf d').

Lemma written_snoc d i k buf d1 d2 :
  0 <= i -> 0 <= k -> 0 < block_size d ->
  written_as ok content d i k buf d1 ->
  written_as ok content d1 (i + k) 1
    (slice (Z.to_nat (k * block_size d)) (Z.to_nat (block_size d)) buf) d2 ->
  written_as ok content d i (k + 1) buf d2.
Proof.
  intros Hi Hk Hbs (Hok1 & Hs1 & Hc1 & H1) (Hok2 & Hs2 & Hc2 & H2).
  unfold written_as. rewrite Hc1 in H2. rewrite Hs2, Hc2, Hs1, Hc1.
  split_and!; [done..|]. intros j Hj. rewrite H2, H1 by lia. rewrite Hs1.
  repeat case_decide; try lia; [|done..].
  replace j with (i + k) by lia. rewrite slice_slice by lia.
  f_equal. lia.
Qed.

Lemma provided_write_blocks_spec d i n buf :
  ok d -> io_args d i n buf -> Forall is_byte buf ->
  wp (provided_write_blocks block_size write_block i n buf) d
    (fun _ d' => written_as ok content d i n buf d').
Proof.
  intros Hok (Hi & Hn & Hin & Hlen) Hb. destruct (geometry d Hok) as (Hbs & Hbc & Hmax).
  unfold provided_write_blocks. wp_pure.
  eapply wp_mono; [apply (wp_for_range (fun k _ d' => written_as ok content d i (Z.of_nat k) buf d'))|].
  - split_and!; [done..|]. intros j Hj. by rewrite decide_False by lia.
  - intros k [] d' Hk Hw. pose proof Hw as (Hok' & Hs' & Hc' & _).
    assert (Z.of_nat k * block_size d + block_size d <= n * block_size d) by nia.
    assert (k * Z.to_nat (block_size d) = Z.to_nat (Z.of_nat k * block_size d))%nat as Hoff by lia.
    assert (i + Z.of_nat k < 2 ^ 64) by nia.
    rewrite (proj2 (Nat.ltb_ge _ _)) by lia.
    wp_pure. eapply wp_mono.
    { apply write_one_spec; [done| |by apply Forall_take, Forall_drop].
      unfold io_args. rewrite Hc', Hs', length_slice by lia. lia. }
    intros [] d'' Hw'. rewrite Hoff in Hw'. rewrite Nat2Z.inj_succ.
    eapply written_snoc; eauto; lia.
  - cbn beta. rewrite Nat.add_0_l, Z2Nat.id by lia. done.
Qed.

Lemma provided_read_blocks_spec d i n buf :
  ok d -> io_args d i n buf ->
  provided_read_blocks block_size read_block i n buf d =
    (Ok (concat (content d <$> seqZ i n)), d).
Proof.
  intros Hok (Hi & Hn & Hin & Hlen). destruct (geometry d Hok) as (Hbs & Hbc & Hmax).
  unfold provided_read_blocks.
  cut (wp (provided_read_blocks block_size read_block i n buf) d
    (fun r d' => d' = d /\ r = concat (content d <$> seqZ i n))).
  { unfold provided_read_blocks. intros (r & d' & -> & -> & ->)%wp_run. done. }
  unfold provided_read_blocks. wp_pure.
  eapply wp_mono; [apply (wp_for_range (fun k r d' => d' = d /\
    r = concat (content d <$> seqZ i (Z.of_nat k)) ++ drop (k * Z.to_nat (block_size d)) buf))|].
  - rewrite drop_0. done.
  - assert (Hcl : forall k, 0 <= Z.of_nat k <= n ->
      length (concat (content d <$> seqZ i (Z.of_nat k))) = (k * Z.to_nat (block_size d))%nat).
    { intros k Hk. rewrite (length_concat_seqZ _ _ _ (Z.to_nat (block_size d))), Nat2Z.id; [done|].
      intros. apply content_length; [done|lia]. }
    intros k r d' Hk [-> ->].
    assert (Z.of_nat k * block_size d + block_size d <= n * block_size d) by nia.
    assert (i + Z.of_nat k < 2 ^ 64) by nia.
    rewrite (proj2 (Nat.ltb_ge _ _)) by (len; rewrite Hcl by lia; lia).
    wp_pure. eapply wp_intro.
    { apply read_one_spec; [done|]. unfold io_args.
      rewrite length_slice by (len; rewrite Hcl by lia; lia). lia. }
    apply wp_ret. split; [done|].
    rewrite Nat2Z.inj_succ, <-Z.add_1_r, concat_seqZ_snoc by lia.
    unfold splice. rewrite take_app_length' by (by rewrite Hcl by lia).
    rewrite <-app_assoc. f_equal.
    rewrite content_length by (done || lia). f_equal. rewrite drop_app_ge by (rewrite Hcl by lia; lia).
    rewrite Hcl, drop_drop by lia. f_equal. lia.
  - intros r d' [-> ->]. split; [done|].
    rewrite Nat.add_0_l, Z2Nat.id, drop_ge, app_nil_r by lia. done.
Qed.

Lemma provided_write_zeros_spec d i n :
  ok d -> 0 <= i -> 0 <= n -> i + n <= block_count d ->
  wp (provided_write_zeros block_size (provided_write_blocks block_size write_block) i n) d
    (fun _ d' => written_as ok content d i n (replicate (Z.to_nat (n * block_size d)) 0) d').
Proof.
  intros Hok Hi Hn Hin. destruct (geometry d Hok) as (Hbs & Hbc & Hmax).
  unfold provided_write_zeros. wp_pure; [nia|].
  rewrite (Z.mul_comm (block_size d) n). apply provided_write_blocks_spec; [done| |].
  - unfold io_args. rewrite length_replicate. auto.
  - apply Forall_replicate. unfold is_byte. lia.
Qed.
End provided_spec.

(** ** Consequences of the contract *)
Section consequences.
  Context {D : Type} `{BlockDevice D, !BlockDeviceSpec D}.
  Implicit Types d : D.

(** Blocks outside the written range keep their content. *)
Lemma written_other d i n buf d' j :
  written d i n buf d' -> 0 <= j < block_count d -> j < i \/ i + n <= j -> blk d' j = blk d j.
Proof. intros (_ & _ & _ & Hw) Hj Hout. rewrite Hw, decide_False by lia. done. Qed.

Lemma written_in d i n buf d' j :
  written d i n buf d' -> 0 <= j < block_count d -> i <= j < i + n ->
  blk d' j = slice (Z.to_nat ((j - i) * block_size d)) (Z.to_nat (block_size d)) buf.
Proof. intros (_ & _ & _ & Hw) Hj Hin. rewrite Hw, decide_True by lia. done. Qed.

Lemma written_one d i buf d' :
  io_args d i 1 buf -> written d i 1 buf d' -> blk d' i = buf.
Proof.
  intros (? & ? & ? & Hl) (_ & _ & _ & Hw). rewrite Hw, decide_True by lia.
  rewrite Z.sub_diag. apply slice_full. rewrite Hl. f_equal. lia.
Qed.

(** Writing whole blocks and reading them back returns what was written. *)
Lemma written_concat d i n buf d' :
  dev_ok d -> io_args d i n buf -> written d i n buf d' ->
  concat (blk d' <$> seqZ i n) = buf.
Proof.
  intros Hok (Hi & Hn & Hin & Hl) (Hok' & Hs & Hc & Hw).
  destruct (dev_geometry d Hok) as (Hbs & _).
  assert (Hk : forall k, (k <= Z.to_nat n)%nat ->
    concat (blk d' <$> seqZ i (Z.of_nat k)) = take (k * Z.to_nat (block_size d)) buf).
  { induction k as [|k IH]; intros Hk; [done|].
    rewrite Nat2Z.inj_succ, <-Z.add_1_r, concat_seqZ_snoc, IH by lia.
    rewrite Hw, decide_True by lia. unfold slice.
    replace (Z.to_nat ((i + Z.of_nat k - i) * block_size d)) with (k * Z.to_nat (block_size d))%nat by lia.
    rewrite take_take_drop. f_equal. lia. }
  specialize (Hk (Z.to_nat n)). rewrite Z2Nat.id in Hk by lia. rewrite Hk by lia.
  apply take_ge. lia.
Qed.

Lemma write_read_blocks d i n buf buf' :
  dev_ok d -> io_args d i n buf -> Forall is_byte buf -> length buf' = length buf ->
  wp (write_blocks i n buf) d (fun _ d' => written d i n buf d' /\
    read_blocks i n buf' d' = (Ok buf, d')).
Proof.
  intros Hok Hio Hb Hl. eapply wp_mono; [by apply write_blocks_spec|].
  intros u d' Hw. split; [done|]. pose proof Hw as (Hok' & Hs & Hc & _).
  rewrite read_blocks_spec; [|done|].
  - by rewrite (written_concat d i n buf).
  - destruct Hio as (? & ? & ? & ?). unfold io_args. rewrite Hs, Hc, Hl. done.
Qed.
End consequences.
