(* ===== verification/MemoryDevice.v ===== *)
(** * The memory-backed block device (library/filesystem/src/device/memory.rs)

    [MemoryDevice] with its constructor and the two methods it implements
    itself; the other four are the provided ones of the trait. It discharges
    [BlockDeviceSpec]. The mutex around [data] is held for one copy only and
    serialises the accesses, so a method is one step on the state. *)
From S2P Require Import Prelude Device.

Record MemoryDevice : Type := mkMemoryDevice {
  data : list Z;
  md_block_size : Z;
  md_block_count : Z;
}.

Module MemoryDeviceImpl.

(** [MemoryDevice::new]: the size is rounded up to whole blocks. *)
Definition new (size_in_bytes block_size : Z) : outcome BlockDeviceError MemoryDevice :=
  if negb (fits 64 (size_in_bytes + block_size)) then Panic
  else if negb (fits 64 (size_in_bytes + block_size - 1)) then Panic
  else if block_size =? 0 then Panic
  else
    let aligned_size := (size_in_bytes + block_size - 1) / block_size * block_size in
    Ok (mkMemoryDevice (replicate (Z.to_nat aligned_size) 0) block_size
          (aligned_size / block_size)).

Definition write_block (block_index : Z) (buf : list Z) : M MemoryDevice BlockDeviceError unit :=
  d ← gets id;
  if md_block_count d <=? block_index then throw OutOfBounds
  else if Z.of_nat (length buf) <? md_block_size d then throw OutOfBounds
  else
    start ← checked 64 (block_index * md_block_size d);
    end_ ← checked 64 (start + md_block_size d);
    if Z.of_nat (length (data d)) <? end_ then panic
    else
      modify (fun d => mkMemoryDevice
        (splice (Z.to_nat start) (take (Z.to_nat (md_block_size d)) buf) (data d))
        (md_block_size d) (md_block_count d)).

Definition read_block (block_index : Z) (buf : list Z) : M MemoryDevice BlockDeviceError (list Z) :=
  d ← gets id;
  if md_block_count d <=? block_index then throw OutOfBounds
  else if Z.of_nat (length buf) <? md_block_size d then throw OutOfBounds
  else
    start ← checked 64 (block_index * md_block_size d);
    end_ ← checked 64 (start + md_block_size d);
    if Z.of_nat (length (data d)) <? end_ then panic
    else
      mret (splice 0 (slice (Z.to_nat start) (Z.to_nat (md_block_size d)) (data d)) buf).

End MemoryDeviceImpl.

#[global] Instance memory_device : BlockDevice MemoryDevice := {|
  block_size := md_block_size;
  block_count := md_block_count;
  write_block := MemoryDeviceImpl.write_block;
  read_block := MemoryDeviceImpl.read_block;
  write_blocks := provided_write_blocks md_block_size MemoryDeviceImpl.write_block;
  read_blocks := provided_read_blocks md_block_size MemoryDeviceImpl.read_block;
  write_zeros := provided_write_zeros md_block_size
    (provided_write_blocks md_block_size MemoryDeviceImpl.write_block);
  clear_blocks := provided_clear_blocks (provided_write_zeros md_block_size
    (provided_write_blocks md_block_size MemoryDeviceImpl.write_block));
|}.

(** The data vector holds the whole blocks, all of them bytes. *)
Definition memory_ok (d : MemoryDevice) : Prop :=
  0 < md_block_size d /\ 0 <= md_block_count d /\
  md_block_size d * md_block_count d < 2 ^ 64 /\
  length (data d) = Z.to_nat (md_block_count d * md_block_size d) /\
  Forall is_byte (data d).

Definition memory_blk (d : MemoryDevice) (i : Z) : list Z :=
  slice (Z.to_nat (i * md_block_size d)) (Z.to_nat (md_block_size d)) (data d).

(** ** Lemmas *)

Lemma memory_range d i :
  memory_ok d -> 0 <= i < md_block_count d ->
  0 <= i * md_block_size d /\
  i * md_block_size d + md_block_size d <= Z.of_nat (length (data d)) < 2 ^ 64.
Proof. intros (? & ? & ? & -> & _) ?. rewrite Z2Nat.id by nia. nia. Qed.

Lemma memory_read_block_spec d i buf :
  memory_ok d -> io_args d i 1 buf ->
  MemoryDeviceImpl.read_block i buf d = (Ok (memory_blk d i), d).
Proof.
  intros Hok (Hi & _ & Hc & Hlen). cbn in Hc, Hlen.
  pose proof (memory_range d i Hok ltac:(lia)) as [? ?]. destruct Hok as (Hbs & _).
  cut (wp (MemoryDeviceImpl.read_block i buf) d (fun r d' => r = memory_blk d i /\ d' = d)).
  { by intros (? & ? & -> & -> & ->)%wp_run. }
  unfold MemoryDeviceImpl.read_block. wp_pure. cbn.
  rewrite (proj2 (Z.leb_gt _ _)), (proj2 (Z.ltb_ge _ _)) by lia.
  wp_pure. rewrite (proj2 (Z.ltb_ge _ _)) by lia. apply wp_ret. split; [|done].
  unfold memory_blk. apply splice_full. rewrite length_slice; lia.
Qed.

Lemma memory_write_block_spec d i buf :
  memory_ok d -> io_args d i 1 buf -> Forall is_byte buf ->
  wp (MemoryDeviceImpl.write_block i buf) d
    (fun _ d' => written_as memory_ok memory_blk d i 1 buf d').
Proof.
  intros Hok (Hi & _ & Hc & Hlen) Hb. cbn in Hc, Hlen.
  pose proof (memory_range d i Hok ltac:(lia)) as [? ?]. pose proof Hok as (Hbs & Hbc & Hm & Hl & Hd).
  unfold MemoryDeviceImpl.write_block. wp_pure. cbn.
  rewrite (proj2 (Z.leb_gt _ _)), (proj2 (Z.ltb_ge _ _)) by lia.
  wp_pure. rewrite (proj2 (Z.ltb_ge _ _)) by lia. apply wp_modify.
  rewrite take_ge by lia.
  assert (Hls : length (splice (Z.to_nat (i * md_block_size d)) buf (data d)) = length (data d)).
  { apply length_splice. lia. }
  split_and!; cbn; [|done..|].
  - split_and!; cbn; [done..|by rewrite Hls|].
    by apply Forall_splice.
  - intros j Hj. unfold memory_blk; cbn. case_decide.
    + replace j with i by lia. replace (i - i) with 0 by lia.
      rewrite (slice_full buf) by lia.
      replace (Z.to_nat (md_block_size d)) with (length buf) by lia.
      apply slice_splice_eq. lia.
    + apply slice_splice_ne; [lia|].
      destruct (decide (j < i)); [left|right]; nia.
Qed.

Lemma memory_geometry (d : MemoryDevice) : memory_ok d ->
  0 < block_size d /\ 0 <= block_count d /\ block_size d * block_count d < 2 ^ 64.
Proof. by intros (? & ? & ? & _). Qed.

Lemma memory_blk_length (d : MemoryDevice) i :
  memory_ok d -> 0 <= i < block_count d -> length (memory_blk d i) = Z.to_nat (block_size d).
Proof.
  intros Hok Hi. pose proof (memory_range d i Hok Hi).
  unfold memory_blk. rewrite length_slice; [done|]. destruct Hok as (? & _). lia.
Qed.

Lemma memory_blk_bytes (d : MemoryDevice) i :
  memory_ok d -> 0 <= i < block_count d -> Forall is_byte (memory_blk d i).
Proof. intros (_ & _ & _ & _ & H) _. by apply Forall_take, Forall_drop. Qed.

(** The memory device meets the contract of the trait. *)
#[global] Instance memory_device_spec : BlockDeviceSpec MemoryDevice := {|
  dev_ok := memory_ok;
  blk := memory_blk;
  dev_geometry := memory_geometry;
  blk_length := memory_blk_length;
  blk_bytes := memory_blk_bytes;
  read_block_spec := memory_read_block_spec;
  write_block_spec := memory_write_block_spec;
  read_blocks_spec := provided_read_blocks_spec memory_ok memory_blk
    memory_geometry memory_blk_length memory_read_block_spec;
  write_blocks_spec := provided_write_blocks_spec memory_ok memory_blk
    memory_geometry memory_write_block_spec;
  write_zeros_spec := provided_write_zeros_spec memory_ok memory_blk
    memory_geometry memory_write_block_spec;
|}.

Lemma new_spec size bs :
  0 <= size -> 0 < bs -> size + bs < 2 ^ 64 ->
  exists d, MemoryDeviceImpl.new size bs = Ok d /\ memory_ok d /\
    md_block_size d = bs /\
    md_block_count d = (size + bs - 1) / bs /\
    forall i, 0 <= i < md_block_count d -> memory_blk d i = replicate (Z.to_nat bs) 0.
Proof.
  intros Hs Hb Hm. unfold MemoryDeviceImpl.new, fits.
  rewrite !(proj2 (Z.leb_le _ _)), !(proj2 (Z.ltb_lt _ _)), (proj2 (Z.eqb_neq _ _)) by lia.
  cbn [andb negb]. eexists. split; [done|]. cbn.
  set (n := (size + bs - 1) / bs). rewrite Z.div_mul by lia.
  assert (0 <= n /\ n * bs <= size + bs - 1) as [Hn Hle].
  { subst n. split; [apply Z.div_pos; lia|]. rewrite Z.mul_comm. apply Z.mul_div_le. lia. }
  split_and!; [|done..|].
  - split_and!; cbn; [done..|lia| |].
    + by rewrite length_replicate.
    + apply Forall_replicate. unfold is_byte. lia.
  - intros i Hi. unfold memory_blk, slice; cbn.
    rewrite drop_replicate, take_replicate. f_equal. nia.
Qed.

(** A device of [n] zero blocks of [bs] bytes. *)
Definition zero_disk (bs n : Z) : MemoryDevice :=
  mkMemoryDevice (replicate (Z.to_nat (n * bs)) 0) bs n.

Lemma zero_disk_ok bs n : 0 < bs -> 0 <= n -> bs * n < 2 ^ 64 -> memory_ok (zero_disk bs n).
Proof.
  intros. split_and!; cbn; [done..| |].
  - by rewrite length_replicate.
  - apply Forall_replicate. unfold is_byte. lia.
Qed.
