(* ===== verification/Mbr.v ===== *)
(** * MBR partitions (library/filesystem/src/device/mbr.rs)

    The partition table in block 0 of a device ([mount], [format],
    [lba_to_chs]) and the block device that a partition is. The partitions
    that [mount] returns share the device they were read from ([Arc]): a
    partition is a descriptor, its methods run on the state of the shared
    device, and [PartitionDevice] pairs the two where a block device is
    wanted. *)
From S2P Require Import Prelude Device MemoryDevice.

Definition MBR_PARTITION_TABLE_OFFSET : nat := 446.
Definition MBR_PARTITION_ENTRY_SIZE : nat := 16.
Definition MBR_PARTITION_ENTRY_COUNT : nat := 4.

Module Mbr.

Inductive MountError : Type :=
  | MountIoError (e : BlockDeviceError)
  | MountBlockSizeNotExpected.

Inductive FormatError : Type :=
  | FormatIoError (e : BlockDeviceError)
  | FormatBlockSizeNotExpected
  | FormatBadArgument.

(** [MbrPartitionDevice] without [inner]. *)
Record MbrPartition : Type := mkMbrPartition {
  partition_type : Z;
  start : Z;
  end_ : Z;
}.

(** [MbrPartitionEntry], the argument of [format]. *)
Record MbrPartitionEntry : Type := mkMbrPartitionEntry {
  bootable : bool;
  entry_start : Z;
  entry_end : Z;
  entry_type : Z;
}.

(** Offset of entry [i] in block 0. *)
Definition entry_offset (i : nat) : nat :=
  MBR_PARTITION_TABLE_OFFSET + i * MBR_PARTITION_ENTRY_SIZE.

Definition lba_to_chs (lba : Z) : Z * Z * Z :=
  let HEAD_PER_CYLINDER := 256 in
  let SECTOR_PER_TRACK := 63 in
  let cylinder := lba / (HEAD_PER_CYLINDER * SECTOR_PER_TRACK) in
  let head := lba `mod` (HEAD_PER_CYLINDER * SECTOR_PER_TRACK) / SECTOR_PER_TRACK in
  let sectors := lba `mod` SECTOR_PER_TRACK + 1 in
  let '(cylinder, head, sectors) :=
    if (1023 <? cylinder) || (255 <? head) || (63 <? sectors)
    then (1023, 255, 63) else (cylinder, head, sectors) in
  (wrap 8 head,
   Z.lor (wrap 8 (Z.land sectors 0x3f)) (wrap 8 (Z.land (Z.shiftr cylinder 6) 0xc0)),
   wrap 8 (Z.land cylinder 0xff)).

(** The body of the loop of [mount]: the partition that the 16 bytes of an
    entry describe, if any. *)
Definition parse_entry (block_count : Z) (entry : list Z) : option MbrPartition :=
  let partition_type := nth 4 entry 0 in
  if partition_type =? 0 then None
  else
    let start := from_le (slice 8 4 entry) in
    let count := from_le (slice 12 4 entry) in
    let end_ := start + count in
    if negb (fits 32 end_) then None
    else if (start =? 0) || (block_count <=? start) || (block_count <? end_) then None
    else Some (mkMbrPartition partition_type start end_).

(** The 16 bytes that the loop of [format] writes for a partition. *)
Definition encode_entry (p : MbrPartitionEntry) : list Z :=
  let '(h1, s1, c1) := lba_to_chs (entry_start p) in
  let '(h2, s2, c2) := lba_to_chs (entry_end p) in
  [if bootable p then 0x80 else 0; h1; s1; c1; entry_type p; h2; s2; c2]
    ++ to_le 4 (entry_start p) ++ to_le 4 (entry_end p - entry_start p).

Definition bad_entry (block_count : Z) (p : MbrPartitionEntry) : bool :=
  (entry_type p =? 0) || (entry_start p =? 0) || (entry_end p <? entry_start p)
    || (block_count <? entry_end p).

(** The loop of [format]: fill the entries from [i] on into [buf], stopping at
    the first bad one. *)
Fixpoint fill_entries (block_count : Z) (i : nat) (partition : list (option MbrPartitionEntry))
    (buf : list Z) : outcome FormatError (list Z * list (option MbrPartition)) :=
  match partition with
  | [] => Ok (buf, [])
  | None :: rest =>
      '(buf', parts) ← fill_entries block_count (S i) rest
        (splice (entry_offset i) (replicate MBR_PARTITION_ENTRY_SIZE 0) buf);
      Ok (buf', None :: parts)
  | Some p :: rest =>
      if bad_entry block_count p then Err FormatBadArgument
      else
        '(buf', parts) ← fill_entries block_count (S i) rest
          (splice (entry_offset i) (encode_entry p) buf);
        Ok (buf', Some (mkMbrPartition (entry_type p) (entry_start p) (entry_end p)) :: parts)
  end.

Section device.
  Context {D : Type} `{!BlockDevice D}.

Definition mount : M D MountError (list (option MbrPartition)) :=
  count ← gets block_count;
  size ← gets block_size;
  if size <? 512 then throw MountBlockSizeNotExpected
  else
    buf ← map_err MountIoError (read_block 0 (replicate (Z.to_nat size) 0));
    mret ((fun i => parse_entry count (slice (entry_offset i) MBR_PARTITION_ENTRY_SIZE buf))
            <$> seq 0 MBR_PARTITION_ENTRY_COUNT).

Definition format (partition : list (option MbrPartitionEntry))
    : M D FormatError (list (option MbrPartition)) :=
  count ← gets block_count;
  size ← gets block_size;
  if size <? 512 then throw FormatBlockSizeNotExpected
  else
    buf ← map_err FormatIoError (read_block 0 (replicate (Z.to_nat size) 0));
    '(buf, partitions) ← lift (fill_entries count 0 partition buf);
    map_err FormatIoError (write_block 0 buf);;
    mret partitions.

(** The methods of a partition, on the shared device. *)
Definition part_write_block (p : MbrPartition) (block_index : Z) (buf : list Z)
    : M D BlockDeviceError unit :=
  if end_ p <? block_index then throw OutOfBounds
  else idx ← checked 64 (block_index + start p); write_block idx buf.

Definition part_read_block (p : MbrPartition) (block_index : Z) (buf : list Z)
    : M D BlockDeviceError (list Z) :=
  if end_ p <? block_index then throw OutOfBounds
  else idx ← checked 64 (block_index + start p); read_block idx buf.

Definition part_write_blocks (p : MbrPartition) (block_index count : Z) (buf : list Z)
    : M D BlockDeviceError unit :=
  last ← checked 64 (block_index + count);
  if end_ p <? last then throw OutOfBounds
  else idx ← checked 64 (block_index + start p); write_blocks idx count buf.

Definition part_read_blocks (p : MbrPartition) (block_index count : Z) (buf : list Z)
    : M D BlockDeviceError (list Z) :=
  last ← checked 64 (block_index + count);
  if end_ p <? last then throw OutOfBounds
  else idx ← checked 64 (block_index + start p); read_blocks idx count buf.

Definition part_write_zeros (p : MbrPartition) (block_index count : Z)
    : M D BlockDeviceError unit :=
  last ← checked 64 (block_index + count);
  if end_ p <? last then throw OutOfBounds
  else idx ← checked 64 (block_index + start p); write_zeros idx count.

Definition part_clear_blocks (p : MbrPartition) (block_index count : Z)
    : M D BlockDeviceError unit :=
  last ← checked 64 (block_index + count);
  if end_ p <? last then throw OutOfBounds
  else idx ← checked 64 (block_index + start p); clear_blocks idx count.
End device.

(** [MbrPartitionDevice]: a partition together with the device it lives on. *)
Record PartitionDevice (D : Type) : Type := mkPartitionDevice {
  inner : D;
  part : MbrPartition;
}.
Arguments mkPartitionDevice {D} inner part.
Arguments inner {D} p.
Arguments part {D} p.

Definition on_inner {D E A} (f : MbrPartition -> M D E A) : M (PartitionDevice D) E A :=
  fun p => let '(r, d) := f (part p) (inner p) in (r, mkPartitionDevice d (part p)).

#[global] Instance partition_device {D} `{!BlockDevice D} : BlockDevice (PartitionDevice D) := {|
  block_size p := block_size (inner p);
  block_count p := end_ (part p) - start (part p);
  write_block i buf := on_inner (fun p => part_write_block p i buf);
  read_block i buf := on_inner (fun p => part_read_block p i buf);
  write_blocks i n buf := on_inner (fun p => part_write_blocks p i n buf);
  read_blocks i n buf := on_inner (fun p => part_read_blocks p i n buf);
  write_zeros i n := on_inner (fun p => part_write_zeros p i n);
  clear_blocks i n := on_inner (fun p => part_clear_blocks p i n);
|}.

(** A partition of a device: what [mount] checks, and what [format] checks
    up to the empty partition at the very end of the device. *)
Definition part_ok (block_count : Z) (p : MbrPartition) : Prop :=
  0 < start p /\ start p <= end_ p /\ end_ p <= block_count /\ end_ p < 2 ^ 32.

Definition partition_ok {D} `{BlockDevice D, !BlockDeviceSpec D} (p : PartitionDevice D) : Prop :=
  dev_ok (inner p) /\ part_ok (block_count (inner p)) (part p).

Definition partition_blk {D} `{BlockDevice D, !BlockDeviceSpec D} (p : PartitionDevice D) (i : Z) : list Z :=
  blk (inner p) (start (part p) + i).

(** The entry as the caller of [format] gives it: field widths. *)
Definition entry_typed (p : MbrPartitionEntry) : Prop :=
  0 <= entry_type p < 256 /\ 0 <= entry_start p < 2 ^ 32 /\ 0 <= entry_end p < 2 ^ 32.

(** What [format] returns for an entry. *)
Definition entry_part (p : MbrPartitionEntry) : MbrPartition :=
  mkMbrPartition (entry_type p) (entry_start p) (entry_end p).

(** What a later [mount] finds of an entry. *)
Definition mounted (block_count : Z) (e : option MbrPartitionEntry) : option MbrPartition :=
  p ← e; if block_count <=? entry_start p then None else Some (entry_part p).

(** ** Lemmas: the table *)

Lemma lba_to_chs_bytes lba :
  let '(h, s, c) := lba_to_chs lba in is_byte h /\ is_byte s /\ is_byte c.
Proof.
  unfold lba_to_chs, is_byte. destruct (_ || _); change 256 with (2 ^ 8);
    (split; [|split]); try (apply wrap_bound; lia);
    apply lor_bound; try apply wrap_bound; lia.
Qed.

Lemma length_encode_entry p : length (encode_entry p) = MBR_PARTITION_ENTRY_SIZE.
Proof.
  unfold encode_entry. destruct (lba_to_chs (entry_start p)) as [[??]?].
  by destruct (lba_to_chs (entry_end p)) as [[??]?].
Qed.

Lemma encode_entry_bytes p : entry_typed p -> Forall is_byte (encode_entry p).
Proof.
  intros (Ht & _). unfold encode_entry.
  pose proof (lba_to_chs_bytes (entry_start p)) as H1.
  pose proof (lba_to_chs_bytes (entry_end p)) as H2.
  destruct (lba_to_chs (entry_start p)) as [[??]?], (lba_to_chs (entry_end p)) as [[??]?].
  destruct H1 as (?&?&?), H2 as (?&?&?).
  apply Forall_app; split; [|apply Forall_app; auto using to_le_bytes].
  repeat (constructor; [done || unfold is_byte; destruct (bootable p); lia|]). done.
Qed.

Lemma encode_entry_fields p :
  nth 4 (encode_entry p) 0 = entry_type p /\
  slice 8 4 (encode_entry p) = to_le 4 (entry_start p) /\
  slice 12 4 (encode_entry p) = to_le 4 (entry_end p - entry_start p).
Proof.
  unfold encode_entry. destruct (lba_to_chs (entry_start p)) as [[??]?].
  by destruct (lba_to_chs (entry_end p)) as [[??]?].
Qed.

(** Decoding an encoded entry gives it back, unless it is empty at the end of
    the device. *)
Lemma parse_encode_entry bc p :
  entry_typed p -> bad_entry bc p = false ->
  parse_entry bc (encode_entry p) = mounted bc (Some p).
Proof.
  intros (Ht & Hs & He) Hbad. unfold bad_entry in Hbad. bool_to_prop.
  destruct (encode_entry_fields p) as (H4 & H8 & H12).
  unfold parse_entry. rewrite H4, H8, H12, !from_to_le by lia.
  replace (entry_start p + (entry_end p - entry_start p)) with (entry_end p) by lia.
  unfold fits. rewrite (proj2 (Z.leb_le _ _)), (proj2 (Z.ltb_lt _ _)) by lia. cbn [andb negb].
  rewrite !(proj2 (Z.eqb_neq _ _)), (proj2 (Z.ltb_ge bc _)) by lia. cbn [orb].
  unfold mounted; cbn. by destruct (bc <=? entry_start p).
Qed.

Lemma parse_zero_entry bc : parse_entry bc (replicate MBR_PARTITION_ENTRY_SIZE 0) = None.
Proof. done. Qed.

(** What [fill_entries] leaves in the buffer. *)
Definition entry_image (e : option MbrPartitionEntry) : list Z :=
  match e with
  | None => replicate MBR_PARTITION_ENTRY_SIZE 0
  | Some p => encode_entry p
  end.

Lemma length_entry_image e : length (entry_image e) = MBR_PARTITION_ENTRY_SIZE.
Proof. destruct e; [apply length_encode_entry|done]. Qed.

Definition entries_good (bc : Z) (es : list (option MbrPartitionEntry)) : Prop :=
  Forall (fun e => match e with
    | None => True
    | Some p => entry_typed p /\ bad_entry bc p = false
    end) es.

Lemma fill_entries_spec bc es i buf :
  entries_good bc es -> (entry_offset (i + length es) <= length buf)%nat ->
  exists buf', fill_entries bc i es buf = Ok (buf', fmap (M:=option) entry_part <$> es) /\
    length buf' = length buf /\
    (Forall is_byte buf -> Forall is_byte buf') /\
    (forall off len, (off + len <= entry_offset i \/ entry_offset (i + length es) <= off)%nat ->
       slice off len buf' = slice off len buf) /\
    (forall k e, es !! k = Some e ->
       slice (entry_offset (i + k)) MBR_PARTITION_ENTRY_SIZE buf' = entry_image e).
Proof.
  unfold entry_offset, MBR_PARTITION_TABLE_OFFSET.
  revert i buf. induction es as [|e es IH]; intros i buf Hgood Hlen.
  { exists buf. split_and!; auto. intros k e [=]. }
  apply Forall_cons in Hgood as [He Hgood]. cbn [length] in *.
  set (buf1 := splice (446 + i * MBR_PARTITION_ENTRY_SIZE) (entry_image e) buf).
  assert (Hl1 : length buf1 = length buf).
  { apply length_splice. rewrite length_entry_image. unfold MBR_PARTITION_ENTRY_SIZE in *. lia. }
  destruct (IH (S i) buf1 Hgood) as (buf' & Hf & Hl & Hb & Hout & Hin).
  { rewrite Hl1. unfold MBR_PARTITION_ENTRY_SIZE in *. lia. }
  exists buf'. split_and!.
  - cbn [fill_entries]. destruct e as [p|]; cbn [entry_image] in buf1.
    + destruct He as [_ ->]. unfold entry_offset, MBR_PARTITION_TABLE_OFFSET.
      fold buf1. rewrite Hf. done.
    + unfold entry_offset, MBR_PARTITION_TABLE_OFFSET. fold buf1. rewrite Hf. done.
  - congruence.
  - intros Hbuf. apply Hb, Forall_splice; [|done].
    destruct e as [p|]; [apply encode_entry_bytes, He|].
    apply Forall_replicate. unfold is_byte. lia.
  - intros off len Hoff. unfold MBR_PARTITION_ENTRY_SIZE in *. rewrite Hout by lia.
    apply slice_splice_ne; rewrite length_entry_image; unfold MBR_PARTITION_ENTRY_SIZE; lia.
  - intros [|k] e' Hk; cbn in Hk.
    + simplify_eq. rewrite Hout, Nat.add_0_r by (unfold MBR_PARTITION_ENTRY_SIZE in *; lia).
      apply slice_splice_eq'; rewrite ?length_entry_image; unfold MBR_PARTITION_ENTRY_SIZE in *; lia.
    + rewrite <-(Hin k e') by done. f_equal. unfold MBR_PARTITION_ENTRY_SIZE. lia.
Qed.

(** ** Lemmas: mount and format *)

Section table.
  Context {D : Type} `{BlockDevice D, !BlockDeviceSpec D}.

Lemma io_args_block0 (d : D) buf :
  0 < block_count d -> length buf = Z.to_nat (block_size d) -> io_args d 0 1 buf.
Proof. intros. unfold io_args. split_and!; lia. Qed.

Lemma mount_run (d : D) :
  dev_ok d -> 0 < block_count d -> 512 <= block_size d ->
  mount d = (Ok ((fun i => parse_entry (block_count d)
    (slice (entry_offset i) MBR_PARTITION_ENTRY_SIZE (blk d 0))) <$> seq 0 4), d).
Proof.
  intros Hok Hc Hs. unfold mount, gets, mbind, M_bind.
  rewrite (proj2 (Z.ltb_ge _ _)) by lia. unfold map_err.
  rewrite read_block_spec; [done..|]. apply io_args_block0; [done|]. by rewrite length_replicate.
Qed.

Lemma format_run es (d : D) :
  dev_ok d -> 0 < block_count d -> 512 <= block_size d ->
  length es = MBR_PARTITION_ENTRY_COUNT -> entries_good (block_count d) es ->
  wp (format es) d (fun parts d' =>
    parts = (fmap (M:=option) entry_part <$> es) /\
    exists buf, written d 0 1 buf d' /\ length buf = Z.to_nat (block_size d) /\
      blk d' 0 = buf /\
      (forall off len, (off + len <= 446 \/ 510 <= off)%nat ->
         slice off len buf = slice off len (blk d 0)) /\
      (forall k e, es !! k = Some e ->
         slice (entry_offset k) MBR_PARTITION_ENTRY_SIZE buf = entry_image e)).
Proof.
  intros Hok Hc Hs Hes Hgood. unfold format. wp_pure.
  rewrite (proj2 (Z.ltb_ge _ _)) by lia. wp_step. wp_step.
  eapply wp_intro; [apply read_block_spec; [done|]|].
  { apply io_args_block0; [done|]. by rewrite length_replicate. }
  assert (Hl0 : length (blk d 0) = Z.to_nat (block_size d)) by (apply blk_length; [done|lia]).
  destruct (fill_entries_spec (block_count d) es 0 (blk d 0) Hgood)
    as (buf & Hf & Hl & Hb & Hout & Hin).
  { rewrite Hes, Hl0. cbn. lia. }
  wp_step. eapply wp_intro; [unfold lift; by rewrite Hf|].
  cbn beta iota. wp_step. wp_step. eapply wp_mono.
  { apply write_block_spec; [done| |apply Hb, blk_bytes; [done|lia]].
    apply io_args_block0; [done|congruence]. }
  intros [] d' Hw. apply wp_ret. split; [done|]. exists buf.
  split_and!; [done|congruence| | |exact Hin].
  - destruct Hw as (_ & _ & _ & Hw). rewrite Hw by lia. rewrite decide_True by lia.
    apply slice_full. rewrite Hl, Hl0. done.
  - intros off len Hoff. apply Hout. rewrite Hes. cbn. lia.
Qed.
End table.

(** ** Lemmas: a partition is a block device *)

Section partition.
  Context {D : Type} `{BlockDevice D, !BlockDeviceSpec D}.
  Implicit Types (d : D) (p : MbrPartition) (pd : PartitionDevice D).

Lemma wp_on_inner {E A} (f : MbrPartition -> M D E A) pd Q :
  wp (f (part pd)) (inner pd) (fun a d => Q a (mkPartitionDevice d (part pd))) ->
  wp (on_inner f) pd Q.
Proof.
  unfold wp, on_inner. destruct (f (part pd) (inner pd)) as [[a|e| |] d']; done.
Qed.

Lemma on_inner_run {E A} (f : MbrPartition -> M D E A) pd a :
  f (part pd) (inner pd) = (Ok a, inner pd) -> on_inner f pd = (Ok a, pd).
Proof. unfold on_inner. intros ->. by destruct pd. Qed.

(** An access inside the partition is the shifted access to the device. *)
Lemma part_access {E A} p i n (err : E) (f : Z -> M D E A) d :
  part_ok (block_count d) p -> dev_ok d -> 0 <= i -> 0 <= n -> i + n <= end_ p - start p ->
  (last ← checked 64 (i + n); if end_ p <? last then throw err
   else idx ← checked 64 (i + start p); f idx) d = f (i + start p) d.
Proof.
  intros (? & ? & ? & ?) Hok Hi Hn Hin. unfold mbind, M_bind, checked, fits.
  rewrite (proj2 (Z.leb_le _ _)), (proj2 (Z.ltb_lt _ _)) by lia. cbn.
  rewrite (proj2 (Z.ltb_ge _ _)), (proj2 (Z.leb_le _ _)), (proj2 (Z.ltb_lt (i + _) _)) by lia. done.
Qed.

Lemma part_access_one {E A} p i (err : E) (f : Z -> M D E A) d :
  part_ok (block_count d) p -> 0 <= i <= end_ p ->
  (if end_ p <? i then throw err else idx ← checked 64 (i + start p); f idx) d
    = f (i + start p) d.
Proof.
  intros (? & ? & ? & ?) Hi. unfold mbind, M_bind, checked, fits.
  rewrite (proj2 (Z.ltb_ge _ _)), (proj2 (Z.leb_le _ _)), (proj2 (Z.ltb_lt (i + _) _)) by lia.
  done.
Qed.

Lemma io_args_shift pd i n buf :
  partition_ok pd -> io_args pd i n buf -> io_args (inner pd) (i + start (part pd)) n buf.
Proof. intros (_ & ? & ? & ? & ?) (? & ? & Hin & ?). cbn in *. unfold io_args. lia. Qed.

Lemma written_shift pd i n buf d' :
  partition_ok pd -> io_args pd i n buf ->
  written (inner pd) (i + start (part pd)) n buf d' ->
  written_as partition_ok partition_blk pd i n buf (mkPartitionDevice d' (part pd)).
Proof.
  intros (Hok & Hs & Hse & He & Hb) (? & ? & Hin & _) (Hok' & Hs' & Hc' & Hw). cbn in Hin.
  unfold written_as, partition_ok, part_ok. cbn.
  split_and!; [done..|congruence|done|done|done|].
  intros j Hj. unfold partition_blk; cbn. rewrite Hw by lia.
  repeat case_decide; try lia; [|done].
  by replace (start (part pd) + j - (i + start (part pd))) with (j - i) by lia.
Qed.

Lemma partition_geometry pd : partition_ok pd ->
  0 < block_size pd /\ 0 <= block_count pd /\ block_size pd * block_count pd < 2 ^ 64.
Proof.
  intros (Hok & Hs & Hse & He & Hb). cbn. destruct (dev_geometry _ Hok) as (? & ? & ?).
  split_and!; [lia..|]. nia.
Qed.

Lemma partition_blk_length pd i : partition_ok pd -> 0 <= i < block_count pd ->
  length (partition_blk pd i) = Z.to_nat (block_size pd).
Proof. intros (Hok & ? & ? & ? & ?) Hi. cbn in *. apply blk_length; [done|lia]. Qed.

Lemma partition_blk_bytes pd i : partition_ok pd -> 0 <= i < block_count pd ->
  Forall is_byte (partition_blk pd i).
Proof. intros (Hok & ? & ? & ? & ?) Hi. cbn in *. apply blk_bytes; [done|lia]. Qed.

Lemma partition_read_block_spec pd i buf : partition_ok pd -> io_args pd i 1 buf ->
  read_block i buf pd = (Ok (partition_blk pd i), pd).
Proof.
  intros Hok Hio. pose proof (io_args_shift _ _ _ _ Hok Hio) as Hio'.
  destruct Hok as [Hok Hp]. destruct Hio as (? & ? & Hin & ?). cbn in Hin.
  apply on_inner_run. unfold part_read_block. destruct Hp as (? & ? & ? & ?).
  rewrite part_access_one by (unfold part_ok; lia).
  rewrite read_block_spec by done. unfold partition_blk. do 3 f_equal. lia.
Qed.

Lemma partition_write_block_spec pd i buf : partition_ok pd -> io_args pd i 1 buf ->
  Forall is_byte buf ->
  wp (write_block i buf) pd (fun _ pd' => written_as partition_ok partition_blk pd i 1 buf pd').
Proof.
  intros Hok Hio Hb. pose proof (io_args_shift _ _ _ _ Hok Hio) as Hio'.
  apply wp_on_inner. unfold wp, part_write_block.
  rewrite part_access_one.
  2: { apply Hok. } 2: { destruct Hok as (_ & ? & ? & ? & ?), Hio as (? & ? & Hin & ?). cbn in *. lia. }
  apply (wp_mono (write_block (i + start (part pd)) buf) (inner pd)
    (fun _ d' => written (inner pd) (i + start (part pd)) 1 buf d')).
  - by apply write_block_spec; [apply Hok|..].
  - intros _ d' Hw. by apply written_shift.
Qed.

Lemma partition_read_blocks_spec pd i n buf : partition_ok pd -> io_args pd i n buf ->
  read_blocks i n buf pd = (Ok (concat (partition_blk pd <$> seqZ i n)), pd).
Proof.
  intros Hok Hio. pose proof (io_args_shift _ _ _ _ Hok Hio) as Hio'.
  destruct Hok as [Hok Hp]. destruct Hio as (? & ? & Hin & ?). cbn in Hin.
  apply on_inner_run. unfold part_read_blocks. rewrite part_access by done.
  rewrite read_blocks_spec by done. do 3 f_equal.
  replace (seqZ (i + start (part pd)) n) with (Z.add (start (part pd)) <$> seqZ i n).
  - rewrite <-list_fmap_compose. done.
  - rewrite fmap_add_seqZ. f_equal. lia.
Qed.

Lemma partition_write_blocks_spec pd i n buf : partition_ok pd -> io_args pd i n buf ->
  Forall is_byte buf ->
  wp (write_blocks i n buf) pd (fun _ pd' => written_as partition_ok partition_blk pd i n buf pd').
Proof.
  intros Hok Hio Hb. pose proof (io_args_shift _ _ _ _ Hok Hio) as Hio'.
  apply wp_on_inner. unfold wp, part_write_blocks.
  rewrite part_access; [|apply Hok..|apply Hio|apply Hio|apply Hio].
  apply (wp_mono (write_blocks (i + start (part pd)) n buf) (inner pd)
    (fun _ d' => written (inner pd) (i + start (part pd)) n buf d')).
  - by apply write_blocks_spec; [apply Hok|..].
  - intros _ d' Hw. by apply written_shift.
Qed.

Lemma partition_write_zeros_spec pd i n : partition_ok pd ->
  0 <= i -> 0 <= n -> i + n <= block_count pd ->
  wp (write_zeros i n) pd (fun _ pd' => written_as partition_ok partition_blk pd i n
    (replicate (Z.to_nat (n * block_size pd)) 0) pd').
Proof.
  intros Hok Hi Hn Hin.
  assert (Hio : io_args pd i n (replicate (Z.to_nat (n * block_size pd)) 0)).
  { unfold io_args. rewrite length_replicate. done. }
  apply wp_on_inner. unfold wp, part_write_zeros.
  rewrite part_access; [|apply Hok..|done|done|done]. cbn in Hin.
  destruct Hok as (Hok & Hp). pose proof Hp as (? & ? & ? & ?).
  apply (wp_mono (write_zeros (i + start (part pd)) n) (inner pd) _ _
    (write_zeros_spec (inner pd) (i + start (part pd)) n Hok ltac:(lia) Hn ltac:(lia))).
  intros _ d' Hw. by apply written_shift.
Qed.

(** A partition meets the contract of the trait when its device does. *)
#[global] Instance partition_device_spec : BlockDeviceSpec (PartitionDevice D) := {|
  dev_ok := partition_ok;
  blk := partition_blk;
  dev_geometry := partition_geometry;
  blk_length := partition_blk_length;
  blk_bytes := partition_blk_bytes;
  read_block_spec := partition_read_block_spec;
  write_block_spec := partition_write_block_spec;
  read_blocks_spec := partition_read_blocks_spec;
  write_blocks_spec := partition_write_blocks_spec;
  write_zeros_spec := partition_write_zeros_spec;
|}.
End partition.

(** The check of the methods on ranges. *)
Lemma refused {D E A} p i n (e : E) (m : Z -> M D E A) (d : D) :
  0 <= i -> 0 <= n -> i + n < 2 ^ 63 -> end_ p < i + n ->
  (last ← checked 64 (i + n); if end_ p <? last then throw e else idx ← checked 64 (i + start p); m idx) d = (Err e, d).
Proof.
  intros. unfold mbind, M_bind, checked, fits. rewrite (proj2 (Z.leb_le _ _)), (proj2 (Z.ltb_lt _ _)) by lia. cbn.
  by rewrite (proj2 (Z.ltb_lt _ _)) by lia.
Qed.

Lemma passed {D E A} count p i n (e : E) (m : Z -> M D E A) (d : D) :
  part_ok count p -> 0 <= i -> 0 <= n -> i + n <= end_ p ->
  (last ← checked 64 (i + n); if end_ p <? last then throw e else idx ← checked 64 (i + start p); m idx) d = m (i + start p) d.
Proof.
  intros (?&?&?&?) ???. unfold mbind, M_bind, checked, fits.
  rewrite (proj2 (Z.leb_le _ _)), (proj2 (Z.ltb_lt _ _)) by lia. cbn.
  rewrite (proj2 (Z.ltb_ge _ _)), (proj2 (Z.leb_le _ _)), (proj2 (Z.ltb_lt (i + _) _)) by lia. done.
Qed.

(** ** Properties *)

Section properties.
  Context {D : Type} `{BlockDevice D, !BlockDeviceSpec D}.

(** C32: formatting a device with four valid entries succeeds and returns the
    partitions asked for; mounting the device afterwards finds them again,
    except an empty one that starts at the very end of the device. Only the
    table changes: the boot code before it, the signature behind it and every
    other block keep their content. *)
Theorem format_mount_roundtrip (d : D) es :
  dev_ok d -> 0 < block_count d -> 512 <= block_size d ->
  length es = MBR_PARTITION_ENTRY_COUNT -> entries_good (block_count d) es ->
  exists d', format es d = (Ok (fmap (M:=option) entry_part <$> es), d') /\
    mount d' = (Ok (mounted (block_count d) <$> es), d') /\
    (forall off len, (off + len <= 446 \/ 510 <= off)%nat ->
       slice off len (blk d' 0) = slice off len (blk d 0)) /\
    (forall j, 0 < j < block_count d -> blk d' j = blk d j).
Proof.
  intros Hok Hc Hs Hes Hgood.
  destruct (wp_run _ _ _ (format_run es d Hok Hc Hs Hes Hgood))
    as (parts & d' & Hrun & -> & buf & Hw & Hl & Hb0 & Hout & Hin).
  exists d'. pose proof Hw as (Hok' & Hs' & Hc' & _).
  split_and!; [done| |by rewrite Hb0|].
  - rewrite mount_run by (done || lia). rewrite Hb0, Hc'. do 2 f_equal.
    apply list_eq. intros k. rewrite !list_lookup_fmap.
    destruct (es !! k) as [e|] eqn:Hk; cbn [fmap option_fmap option_map].
    + assert (k < 4)%nat by (apply lookup_lt_Some in Hk; rewrite Hes in Hk; done).
      rewrite lookup_seq_lt by lia. cbn [fmap option_fmap option_map Nat.add]. rewrite (Hin k e) by done. f_equal.
      unfold entries_good in Hgood. rewrite Forall_lookup in Hgood.
      specialize (Hgood _ _ Hk). destruct e as [p|]; [|done].
      destruct Hgood. by apply parse_encode_entry.
    + apply lookup_ge_None in Hk. rewrite Hes in Hk.
      rewrite lookup_seq_ge by (unfold MBR_PARTITION_ENTRY_COUNT in Hk; lia). done.
  - intros j Hj. eapply written_other; [done|lia|lia].
Qed.


(** The bounds check of a partition compares the index with the absolute
    end of the partition instead of its length: a write at an index between
    the two succeeds and lands on a block behind the partition. *)
Theorem partition_write_escapes (d : D) p i buf :
  dev_ok d -> part_ok (block_count d) p ->
  end_ p - start p <= i <= end_ p -> i + start p < block_count d ->
  length buf = Z.to_nat (block_size d) -> Forall is_byte buf ->
  exists d', part_write_block p i buf d = (Ok tt, d') /\
    end_ p <= start p + i /\ blk d' (start p + i) = buf.
Proof.
  intros Hok Hp Hi Hc Hl Hb. pose proof Hp as (?&?&?&?).
  assert (Hio : io_args d (i + start p) 1 buf) by (unfold io_args; split_and!; lia).
  destruct (wp_run _ _ _ (write_block_spec d (i + start p) buf Hok Hio Hb))
    as ([] & d' & Hrun & Hw).
  exists d'. split_and!; [|lia|].
  - unfold part_write_block. by rewrite part_access_one by (done || lia).
  - rewrite Z.add_comm. by eapply written_one.
Qed.
End properties.

(** The second CHS byte never carries the upper cylinder bits (its shift
    is 6 where the layout needs 2): from cylinder 256 on the address of a
    partition in the table aliases a lower one. *)
Theorem lba_to_chs_no_high_cylinder lba :
  0 <= lba -> let '(_, s, _) := lba_to_chs lba in Z.land s 0xc0 = 0.
Proof.
  intros Hlba. unfold lba_to_chs.
  assert (Hhi : forall c, 0 <= c <= 1023 -> Z.land (Z.shiftr c 6) 0xc0 = 0).
  { intros c Hc. rewrite Z.shiftr_div_pow2 by lia.
    assert (Hq : 0 <= c / 2 ^ 6 < 16) by lia. revert Hq. generalize (c / 2 ^ 6). intros q Hq.
    apply Z.bits_inj'. intros k Hk. rewrite Z.land_spec, Z.bits_0.
    destruct (decide (4 <= k)).
    - by rewrite (testbit_above q 4 k) by lia.
    - assert (k = 0 \/ k = 1 \/ k = 2 \/ k = 3) as [->|[->|[->| ->]]] by lia; cbn; by rewrite andb_false_r. }
  destruct (_ || _) eqn:Hbig; [by cbn|]. bool_to_prop.
  rewrite Hhi by lia. change (wrap 8 0) with 0. rewrite Z.lor_0_r.
  unfold wrap. rewrite Z.mod_small.
  - rewrite <-Z.land_assoc. apply Z.land_0_r.
  - pose proof (land_bound (lba `mod` 63 + 1) 0x3f). lia.
Qed.

(** ** Instances of the properties *)

Definition demo_entries : list (option MbrPartitionEntry) :=
  [Some (mkMbrPartitionEntry true 1 2 0xEB); Some (mkMbrPartitionEntry false 2 4 0x0C); None; None].

Lemma format_mount_roundtrip_witness :
  exists d', format demo_entries (zero_disk 512 4) =
      (Ok [Some (mkMbrPartition 0xEB 1 2); Some (mkMbrPartition 0x0C 2 4); None; None], d') /\
    mount d' = (Ok [Some (mkMbrPartition 0xEB 1 2); Some (mkMbrPartition 0x0C 2 4); None; None], d').
Proof.
  destruct (format_mount_roundtrip (zero_disk 512 4) demo_entries) as (d' & H1 & H2 & _).
  - by apply zero_disk_ok.
  - done.
  - done.
  - done.
  - repeat constructor; done.
  - exists d'. split; [exact H1|exact H2].
Defined.


Lemma partition_write_escapes_witness :
  exists d', part_write_block (mkMbrPartition 0xEB 1 2) 1 (replicate 512 7) (zero_disk 512 4) = (Ok tt, d') /\
    2 <= 1 + 1 /\ memory_blk d' (1 + 1) = replicate 512 7.
Proof.
  destruct (partition_write_escapes (zero_disk 512 4) (mkMbrPartition 0xEB 1 2) 1 (replicate 512 7))
    as (d' & H1 & H2 & H3).
  - by apply zero_disk_ok.
  - done.
  - done.
  - done.
  - done.
  - apply Forall_replicate. unfold is_byte. lia.
  - exists d'. split; [exact H1|]. split; [exact H2|exact H3].
Defined.

Lemma lba_to_chs_no_high_cylinder_witness :
  Z.land (lba_to_chs 4128768).1.2 0xc0 = 0 /\ lba_to_chs 4128768 = lba_to_chs 0.
Proof.
  split; [|reflexivity].
  pose proof (lba_to_chs_no_high_cylinder 4128768 ltac:(lia)) as Hw. exact Hw.
Defined.
End Mbr.
