(* ===== verification/Fat32Types.v ===== *)
(** * FAT32: on-disk structures and geometry (library/filesystem/src/fs/fat32.rs)

    The packed structures with their byte images ([DiskStruct] of
    internal/mod.rs is the pair of an encoder and a decoder), the constants,
    the error types of fs/mod.rs, the checks that [mount] makes and the
    cluster count that [with_format] computes. *)
From S2P Require Import Prelude Text Device.

(** ** Errors (fs/mod.rs) *)

Inductive FileSystemError : Type :=
  | FsIoError (e : BlockDeviceError)
  | FileNotFound
  | FileExists
  | DiskFull
  | FileTypeMismatch
  | NameTooLang
  | FileOccupied
  | OperationNotSupport
  | Unmounted
  | FileClosed
  | FileTooLarge.

Inductive MountError : Type :=
  | MountIoError (e : BlockDeviceError)
  | InvalidFormat.

Inductive FormatError : Type :=
  | FormatIoError (e : BlockDeviceError)
  | DeviceTooSmall.

Record FileMetadata : Type := mkFileMetadata {
  fm_name : rstring;
  fm_size : Z;
  fm_is_directory : bool;
  fm_allocated_size : Z;
}.

(** ** Constants *)

Definition FAT_ENTRY_FREE : Z := 0x00000000.
Definition FAT_ENTRY_RESERVED_START : Z := 0x0FFFFFF0.
Definition FAT_ENTRY_EOC_START : Z := 0x0FFFFFF8.

Definition ATTR_READ_ONLY : Z := 0x01.
Definition ATTR_HIDDEN : Z := 0x02.
Definition ATTR_SYSTEM : Z := 0x04.
Definition ATTR_VOLUME_ID : Z := 0x08.
Definition ATTR_DIRECTORY : Z := 0x10.
Definition ATTR_ARCHIVE : Z := 0x20.
Definition ATTR_LONG_NAME : Z :=
  Z.lor (Z.lor (Z.lor ATTR_READ_ONLY ATTR_HIDDEN) ATTR_SYSTEM) ATTR_VOLUME_ID.

Definition NAME1_LEN : nat := 5.
Definition NAME2_LEN : nat := 6.
Definition NAME3_LEN : nat := 2.

Definition RESERVED_CODE : list Z := [0xeb; 0xfe; 0x90].
Definition OEM_ID : list Z := [0x63; 0x6f; 0x73; 0x66; 0x73; 0x31; 0x2e; 0x30].
Definition FS_TYPE : list Z := [0x46; 0x41; 0x54; 0x33; 0x32; 0x20; 0x20; 0x20].
Definition BOOT_SECTOR_SIGNATURE : Z := 0xAA55.

Definition LEAD_SIGNATURE : Z := 0x41615252.
Definition STRUCT_SIGNATURE : Z := 0x61417272.
Definition TRAIL_SIGNATURE : Z := 0xAA550000.

(** ** Structures *)

Record BPB : Type := mkBPB {
  reserved_code : list Z;
  oem_id : list Z;
  bytes_per_sector : Z;
  sectors_per_cluster : Z;
  reserved_sector_count : Z;
  num_fats : Z;
  root_entry_count : Z;
  total_sectors_16 : Z;
  media : Z;
  fat_size_16 : Z;
  sectors_per_track : Z;
  num_heads : Z;
  hidden_sectors : Z;
  total_sectors_32 : Z;
  fat_size_32 : Z;
  ext_flags : Z;
  fs_version : Z;
  root_cluster : Z;
  bpb_fs_info : Z;
  bk_boot_sector : Z;
  bpb_reserved : list Z;
  drive_number : Z;
  reserved1 : Z;
  boot_signature : Z;
  volume_id : Z;
  volume_label : list Z;
  fs_type : list Z;
  code : list Z;
  boot_sector_signature : Z;
}.

Definition encode_bpb (b : BPB) : list Z := concat
  [ reserved_code b; oem_id b; to_le 2 (bytes_per_sector b); to_le 1 (sectors_per_cluster b);
    to_le 2 (reserved_sector_count b); to_le 1 (num_fats b); to_le 2 (root_entry_count b);
    to_le 2 (total_sectors_16 b); to_le 1 (media b); to_le 2 (fat_size_16 b);
    to_le 2 (sectors_per_track b); to_le 2 (num_heads b); to_le 4 (hidden_sectors b);
    to_le 4 (total_sectors_32 b); to_le 4 (fat_size_32 b); to_le 2 (ext_flags b);
    to_le 2 (fs_version b); to_le 4 (root_cluster b); to_le 2 (bpb_fs_info b);
    to_le 2 (bk_boot_sector b); bpb_reserved b; to_le 1 (drive_number b);
    to_le 1 (reserved1 b); to_le 1 (boot_signature b); to_le 4 (volume_id b);
    volume_label b; fs_type b; code b; to_le 2 (boot_sector_signature b) ].

(** A little-endian field of [n] bytes at offset [off]. *)
Definition field (off n : nat) (l : list Z) : Z := from_le (slice off n l).

Definition decode_bpb (l : list Z) : BPB := {|
  reserved_code := slice 0 3 l;
  oem_id := slice 3 8 l;
  bytes_per_sector := field 11 2 l;
  sectors_per_cluster := field 13 1 l;
  reserved_sector_count := field 14 2 l;
  num_fats := field 16 1 l;
  root_entry_count := field 17 2 l;
  total_sectors_16 := field 19 2 l;
  media := field 21 1 l;
  fat_size_16 := field 22 2 l;
  sectors_per_track := field 24 2 l;
  num_heads := field 26 2 l;
  hidden_sectors := field 28 4 l;
  total_sectors_32 := field 32 4 l;
  fat_size_32 := field 36 4 l;
  ext_flags := field 40 2 l;
  fs_version := field 42 2 l;
  root_cluster := field 44 4 l;
  bpb_fs_info := field 48 2 l;
  bk_boot_sector := field 50 2 l;
  bpb_reserved := slice 52 12 l;
  drive_number := field 64 1 l;
  reserved1 := field 65 1 l;
  boot_signature := field 66 1 l;
  volume_id := field 67 4 l;
  volume_label := slice 71 11 l;
  fs_type := slice 82 8 l;
  code := slice 90 420 l;
  boot_sector_signature := field 510 2 l;
|}.

Record FSInfo : Type := mkFSInfo {
  lead_signature : Z;
  fi_reserved1 : list Z;
  struct_signature : Z;
  free_cluster_count : Z;
  next_free_cluster : Z;
  fi_reserved2 : list Z;
  trail_signature : Z;
}.

Definition encode_fs_info (f : FSInfo) : list Z := concat
  [ to_le 4 (lead_signature f); fi_reserved1 f; to_le 4 (struct_signature f);
    to_le 4 (free_cluster_count f); to_le 4 (next_free_cluster f); fi_reserved2 f;
    to_le 4 (trail_signature f) ].

Definition decode_fs_info (l : list Z) : FSInfo := {|
  lead_signature := field 0 4 l;
  fi_reserved1 := slice 4 480 l;
  struct_signature := field 484 4 l;
  free_cluster_count := field 488 4 l;
  next_free_cluster := field 492 4 l;
  fi_reserved2 := slice 496 12 l;
  trail_signature := field 508 4 l;
|}.

Record DirectoryEntryShort : Type := mkShort {
  sh_name : list Z;
  sh_ext : list Z;
  sh_attr : Z;
  sh_reserved : Z;
  create_time_tenths : Z;
  create_time : Z;
  create_date : Z;
  last_access_date : Z;
  first_cluster_high : Z;
  write_time : Z;
  write_date : Z;
  first_cluster_low : Z;
  file_size : Z;
}.

Definition encode_short (e : DirectoryEntryShort) : list Z := concat
  [ sh_name e; sh_ext e; to_le 1 (sh_attr e); to_le 1 (sh_reserved e);
    to_le 1 (create_time_tenths e); to_le 2 (create_time e); to_le 2 (create_date e);
    to_le 2 (last_access_date e); to_le 2 (first_cluster_high e); to_le 2 (write_time e);
    to_le 2 (write_date e); to_le 2 (first_cluster_low e); to_le 4 (file_size e) ].

Definition decode_short (l : list Z) : DirectoryEntryShort := {|
  sh_name := slice 0 8 l;
  sh_ext := slice 8 3 l;
  sh_attr := field 11 1 l;
  sh_reserved := field 12 1 l;
  create_time_tenths := field 13 1 l;
  create_time := field 14 2 l;
  create_date := field 16 2 l;
  last_access_date := field 18 2 l;
  first_cluster_high := field 20 2 l;
  write_time := field 22 2 l;
  write_date := field 24 2 l;
  first_cluster_low := field 26 2 l;
  file_size := field 28 4 l;
|}.

Record DirectoryEntryLong : Type := mkLong {
  order : Z;
  name1 : list Z;
  lg_attr : Z;
  type_ : Z;
  checksum : Z;
  name2 : list Z;
  lg_first_cluster_low : Z;
  name3 : list Z;
}.

(** An array of [u16]. *)
Definition encode_u16s (l : list Z) : list Z := concat (to_le 2 <$> l).
Definition decode_u16s (off n : nat) (l : list Z) : list Z :=
  (fun k => field (off + 2 * k) 2 l) <$> seq 0 n.

Definition encode_long (e : DirectoryEntryLong) : list Z := concat
  [ to_le 1 (order e); encode_u16s (name1 e); to_le 1 (lg_attr e); to_le 1 (type_ e);
    to_le 1 (checksum e); encode_u16s (name2 e); to_le 2 (lg_first_cluster_low e);
    encode_u16s (name3 e) ].

Definition decode_long (l : list Z) : DirectoryEntryLong := {|
  order := field 0 1 l;
  name1 := decode_u16s 1 NAME1_LEN l;
  lg_attr := field 11 1 l;
  type_ := field 12 1 l;
  checksum := field 13 1 l;
  name2 := decode_u16s 14 NAME2_LEN l;
  lg_first_cluster_low := field 26 2 l;
  name3 := decode_u16s 28 NAME3_LEN l;
|}.

(** [size_of::<DirectoryEntry>()] and [size_of::<FatEntry>()]. *)
Definition DIR_ENTRY_SIZE : nat := 32.
Definition FAT_ENTRY_SIZE : nat := 4.

(** ** Checks and geometry *)

(** [is_power_of_two]. *)
Definition is_power_of_two (x : Z) : bool := (0 <? x) && (Z.land x (x - 1) =? 0).

Definition check_bpb (b : BPB) (block_size block_count : Z) : outcome MountError unit :=
  if (bytes_per_sector b <? 512) || (block_size <? bytes_per_sector b)
     || negb (is_power_of_two (bytes_per_sector b)) then Err InvalidFormat
  else if (sectors_per_cluster b =? 0) || negb (is_power_of_two (sectors_per_cluster b))
  then Err InvalidFormat
  else if (reserved_sector_count b =? 0) || (block_count <? reserved_sector_count b)
  then Err InvalidFormat
  else if num_fats b =? 0 then Err InvalidFormat
  else if negb (root_entry_count b =? 0) then Err InvalidFormat
  else if negb (fat_size_16 b =? 0) then Err InvalidFormat
  else if (if total_sectors_16 b =? 0
           then negb (total_sectors_32 b =? block_count)
           else negb (total_sectors_16 b =? block_count) || negb (total_sectors_32 b =? 0))
  then Err InvalidFormat
  else if fat_size_32 b =? 0 then Err InvalidFormat
  else if root_cluster b <? 2 then Err InvalidFormat
  else if negb (boot_signature b =? 0x28) && negb (boot_signature b =? 0x29)
  then Err InvalidFormat
  else if negb (boot_sector_signature b =? BOOT_SECTOR_SIGNATURE) then Err InvalidFormat
  else Ok tt.

Definition check_fs_info (f : FSInfo) : outcome MountError unit :=
  if negb (lead_signature f =? LEAD_SIGNATURE) then Err InvalidFormat
  else if negb (struct_signature f =? STRUCT_SIGNATURE) then Err InvalidFormat
  else if negb (trail_signature f =? TRAIL_SIGNATURE) then Err InvalidFormat
  else Ok tt.

(** [calc_cluster_count]; [block_count - reserved_sector_count] underflows on
    a device smaller than the reserved area. *)
Definition calc_cluster_count (reserved bytes_per_sec sectors_per_clus block_count : Z)
    : outcome FormatError (Z * Z) :=
  let cluster_per_fat := bytes_per_sec / 4 in
  let sector_per_group := 2 + cluster_per_fat * sectors_per_clus in
  if block_count <? reserved then Panic
  else
    let virtual_block_count := block_count - reserved + sectors_per_clus * 2 in
    if negb (fits 64 virtual_block_count) then Panic
    else
    let group_count := virtual_block_count / sector_per_group in
    let remain_block_count := virtual_block_count - sector_per_group * group_count in
    '(remain_cluster, remain_block_count) ←
      (if 2 <? remain_block_count then
         if sectors_per_clus =? 0 then Panic
         else
           let remain_cluster := (remain_block_count - 2) / sectors_per_clus in
           Ok (remain_cluster, remain_block_count - 2 - remain_cluster * sectors_per_clus)
       else Ok (0, remain_block_count));
    Ok (Z.max 0 (group_count * cluster_per_fat + remain_cluster - 2), remain_block_count).

(** ** Well-typed structures *)

Definition uint (n : nat) (x : Z) : Prop := 0 <= x < 256 ^ Z.of_nat n.
Definition byte_array (n : nat) (l : list Z) : Prop := length l = n /\ Forall is_byte l.
Definition u16_array (n : nat) (l : list Z) : Prop := length l = n /\ Forall (uint 2) l.

Definition bpb_typed (b : BPB) : Prop :=
  byte_array 3 (reserved_code b) /\ byte_array 8 (oem_id b) /\
  uint 2 (bytes_per_sector b) /\ uint 1 (sectors_per_cluster b) /\
  uint 2 (reserved_sector_count b) /\ uint 1 (num_fats b) /\ uint 2 (root_entry_count b) /\
  uint 2 (total_sectors_16 b) /\ uint 1 (media b) /\ uint 2 (fat_size_16 b) /\
  uint 2 (sectors_per_track b) /\ uint 2 (num_heads b) /\ uint 4 (hidden_sectors b) /\
  uint 4 (total_sectors_32 b) /\ uint 4 (fat_size_32 b) /\ uint 2 (ext_flags b) /\
  uint 2 (fs_version b) /\ uint 4 (root_cluster b) /\ uint 2 (bpb_fs_info b) /\
  uint 2 (bk_boot_sector b) /\ byte_array 12 (bpb_reserved b) /\ uint 1 (drive_number b) /\
  uint 1 (reserved1 b) /\ uint 1 (boot_signature b) /\ uint 4 (volume_id b) /\
  byte_array 11 (volume_label b) /\ byte_array 8 (fs_type b) /\ byte_array 420 (code b) /\
  uint 2 (boot_sector_signature b).

Definition fs_info_typed (f : FSInfo) : Prop :=
  uint 4 (lead_signature f) /\ byte_array 480 (fi_reserved1 f) /\
  uint 4 (struct_signature f) /\ uint 4 (free_cluster_count f) /\
  uint 4 (next_free_cluster f) /\ byte_array 12 (fi_reserved2 f) /\ uint 4 (trail_signature f).

Definition short_typed (e : DirectoryEntryShort) : Prop :=
  byte_array 8 (sh_name e) /\ byte_array 3 (sh_ext e) /\ uint 1 (sh_attr e) /\
  uint 1 (sh_reserved e) /\ uint 1 (create_time_tenths e) /\ uint 2 (create_time e) /\
  uint 2 (create_date e) /\ uint 2 (last_access_date e) /\ uint 2 (first_cluster_high e) /\
  uint 2 (write_time e) /\ uint 2 (write_date e) /\ uint 2 (first_cluster_low e) /\
  uint 4 (file_size e).

Definition long_typed (e : DirectoryEntryLong) : Prop :=
  uint 1 (order e) /\ u16_array NAME1_LEN (name1 e) /\ uint 1 (lg_attr e) /\ uint 1 (type_ e) /\
  uint 1 (checksum e) /\ u16_array NAME2_LEN (name2 e) /\ uint 2 (lg_first_cluster_low e) /\
  u16_array NAME3_LEN (name3 e).

(** ** Byte images: lemmas *)

Lemma slice_concat {A} (fs : list (list A)) k f off n :
  fs !! k = Some f -> off = length (concat (take k fs)) -> n = length f ->
  slice off n (concat fs) = f.
Proof.
  intros Hk -> ->. rewrite <-(take_drop k fs) at 2.
  rewrite concat_app. rewrite slice_app_r, Nat.sub_diag by done.
  rewrite (drop_S _ _ _ Hk). cbn [concat]. rewrite slice_app_l by lia. by apply slice_full.
Qed.

Lemma field_concat fs k x off n :
  fs !! k = Some (to_le n x) -> off = length (concat (take k fs)) -> uint n x ->
  field off n (concat fs) = x.
Proof.
  intros Hk Hoff Hx. unfold field. rewrite (slice_concat fs k (to_le n x)); [|done|done|].
  - by apply from_to_le.
  - by rewrite length_to_le.
Qed.

Lemma length_encode_u16s l : length (encode_u16s l) = (2 * length l)%nat.
Proof.
  unfold encode_u16s. induction l as [|x l IH]; [done|].
  cbn [fmap list_fmap concat]. rewrite length_app, length_to_le.
  change (list_fmap _ _ (to_le 2) l) with (to_le 2 <$> l). rewrite IH. cbn [length]. lia.
Qed.

Lemma decode_encode_u16s a l b :
  Forall (uint 2) l ->
  decode_u16s (length a) (length l) (a ++ encode_u16s l ++ b) = l.
Proof.
  intros Hl. unfold decode_u16s. apply list_eq. intros k.
  rewrite list_lookup_fmap. destruct (decide (k < length l)%nat).
  2: { rewrite lookup_seq_ge, lookup_ge_None_2 by lia. done. }
  rewrite lookup_seq_lt by lia. destruct (lookup_lt_is_Some_2 l k) as [x Hx]; [done|].
  cbn [fmap option_fmap option_map Nat.add]. rewrite Hx. f_equal.
  unfold field. rewrite slice_app_r by lia.
  replace (length a + 2 * k - length a)%nat with (2 * k)%nat by lia.
  rewrite slice_app_l by (rewrite length_encode_u16s; lia).
  unfold encode_u16s. rewrite (slice_concat _ k (to_le 2 x)).
  - apply from_to_le. rewrite Forall_lookup in Hl. by apply Hl in Hx.
  - by rewrite list_lookup_fmap, Hx.
  - rewrite <-fmap_take. change (concat (to_le 2 <$> take k l)) with (encode_u16s (take k l)).
    rewrite length_encode_u16s, length_take. lia.
  - done.
Qed.

(** Solve the side conditions of a field access by the lengths of the fields
    in front of it. *)
Ltac codec_len :=
  cbv beta iota delta [take concat]; rewrite ?length_app, ?length_to_le, ?length_encode_u16s;
  repeat match goal with
  | H : byte_array _ ?l |- context [length ?l] => rewrite (proj1 H)
  | H : u16_array _ ?l |- context [length ?l] => rewrite (proj1 H)
  end; reflexivity.

(** Find the field by its position. *)
Ltac codec_field k :=
  first
  [ solve [apply (field_concat _ k); [reflexivity|codec_len|assumption]]
  | solve [apply (slice_concat _ k);
      [reflexivity|codec_len|match goal with H : byte_array _ _ |- _ => symmetry; apply (proj1 H) end]]
  | lazymatch k with 40%nat => fail | _ => codec_field constr:(S k) end ].

Ltac intros_conj :=
  repeat lazymatch goal with |- _ /\ _ -> _ => let H := fresh in intros [? H]; revert H end;
  intros.

#[local] Arguments concat : simpl never.
#[global] Arguments encode_u16s : simpl never.
#[global] Arguments decode_u16s : simpl never.
#[global] Arguments field : simpl never.

Lemma decode_encode_fs_info f : fs_info_typed f -> decode_fs_info (encode_fs_info f) = f.
Proof.
  unfold fs_info_typed, decode_fs_info, encode_fs_info. destruct f; cbn.
  intros (? & ? & ? & ? & ? & ? & ?). f_equal; codec_field O.
Qed.

Lemma decode_encode_bpb b : bpb_typed b -> decode_bpb (encode_bpb b) = b.
Proof.
  unfold bpb_typed, decode_bpb, encode_bpb. destruct b; cbn.
  intros_conj. f_equal; codec_field O.
Qed.

Lemma decode_encode_short e : short_typed e -> decode_short (encode_short e) = e.
Proof.
  unfold short_typed, decode_short, encode_short. destruct e; cbn.
  intros_conj. f_equal; codec_field O.
Qed.

Lemma u16s_concat fs k l off n :
  fs !! k = Some (encode_u16s l) -> off = length (concat (take k fs)) -> u16_array n l ->
  decode_u16s off n (concat fs) = l.
Proof.
  intros Hk -> [<- Hl]. rewrite <-(take_drop k fs) at 2. rewrite concat_app.
  rewrite (drop_S _ _ _ Hk). cbv beta iota delta [concat]. by apply decode_encode_u16s.
Qed.

Lemma decode_encode_long e : long_typed e -> decode_long (encode_long e) = e.
Proof.
  unfold long_typed, decode_long, encode_long. destruct e; cbn. intros_conj. f_equal.
  - codec_field O.
  - apply (u16s_concat _ 1); [done|codec_len|done].
  - codec_field O.
  - codec_field O.
  - codec_field O.
  - apply (u16s_concat _ 5); [done|codec_len|done].
  - codec_field O.
  - apply (u16s_concat _ 7); [done|codec_len|done].
Qed.

(** Sizes: the [const] assertions of the source. *)
Lemma length_encode_fs_info f : fs_info_typed f -> length (encode_fs_info f) = 512%nat.
Proof. unfold fs_info_typed, encode_fs_info. destruct f; cbn. intros_conj. codec_len. Qed.

Lemma length_encode_bpb b : bpb_typed b -> length (encode_bpb b) = 512%nat.
Proof. unfold bpb_typed, encode_bpb. destruct b; cbn. intros_conj. codec_len. Qed.

Lemma length_encode_short e : short_typed e -> length (encode_short e) = DIR_ENTRY_SIZE.
Proof. unfold short_typed, encode_short. destruct e; cbn. intros_conj. codec_len. Qed.

Lemma length_encode_long e : long_typed e -> length (encode_long e) = DIR_ENTRY_SIZE.
Proof. unfold long_typed, encode_long. destruct e; cbn. intros_conj. codec_len. Qed.

Lemma encode_u16s_bytes l : Forall is_byte (encode_u16s l).
Proof. apply Forall_concat, Forall_fmap, Forall_true. intros. apply to_le_bytes. Qed.

Ltac codec_byte :=
  match goal with
  | |- Forall is_byte (to_le _ _) => apply to_le_bytes
  | |- Forall is_byte (encode_u16s _) => apply encode_u16s_bytes
  | H : byte_array _ ?l |- Forall is_byte ?l => apply (proj2 H)
  end.
Ltac codec_bytes :=
  apply Forall_concat; repeat (apply Forall_cons_2; [codec_byte|]); apply Forall_nil_2.

Lemma encode_fs_info_bytes f : fs_info_typed f -> Forall is_byte (encode_fs_info f).
Proof. unfold fs_info_typed, encode_fs_info. intros_conj. codec_bytes. Qed.

Lemma encode_bpb_bytes b : bpb_typed b -> Forall is_byte (encode_bpb b).
Proof. unfold bpb_typed, encode_bpb. intros_conj. codec_bytes. Qed.

Lemma encode_short_bytes e : short_typed e -> Forall is_byte (encode_short e).
Proof. unfold short_typed, encode_short. intros_conj. codec_bytes. Qed.

Lemma encode_long_bytes e : Forall is_byte (encode_long e).
Proof. unfold encode_long. codec_bytes. Qed.

(** What is read from bytes is well typed. *)
Lemma field_uint off n l : (off + n <= length l)%nat -> Forall is_byte l -> uint n (field off n l).
Proof.
  intros Hl Hb. unfold field, uint.
  pose proof (from_le_bound (slice off n l)) as Hbound. rewrite length_slice in Hbound by done.
  by apply Hbound, Forall_take, Forall_drop.
Qed.

Lemma slice_byte_array off n l :
  (off + n <= length l)%nat -> Forall is_byte l -> byte_array n (slice off n l).
Proof. intros. split; [by apply length_slice|by apply Forall_take, Forall_drop]. Qed.

Lemma decode_u16s_array off n l :
  (off + 2 * n <= length l)%nat -> Forall is_byte l -> u16_array n (decode_u16s off n l).
Proof.
  intros Hl Hb. unfold decode_u16s. split; [by rewrite length_fmap, length_seq|].
  apply Forall_fmap, Forall_forall. intros k Hk%elem_of_seq. apply field_uint; [lia|done].
Qed.

Ltac decode_typed :=
  repeat lazymatch goal with
  | |- _ /\ _ => split
  | |- uint _ (field _ _ _) => apply field_uint; [lia|assumption]
  | |- byte_array _ (slice _ _ _) => apply slice_byte_array; [lia|assumption]
  | |- u16_array _ (decode_u16s _ _ _) => apply decode_u16s_array; [cbn; lia|assumption]
  end.

Lemma decode_bpb_typed l : (512 <= length l)%nat -> Forall is_byte l -> bpb_typed (decode_bpb l).
Proof. intros. unfold bpb_typed, decode_bpb. cbn. decode_typed. Qed.

Lemma decode_fs_info_typed l :
  (512 <= length l)%nat -> Forall is_byte l -> fs_info_typed (decode_fs_info l).
Proof. intros. unfold fs_info_typed, decode_fs_info. cbn. decode_typed. Qed.

Lemma decode_short_typed l :
  (32 <= length l)%nat -> Forall is_byte l -> short_typed (decode_short l).
Proof. intros. unfold short_typed, decode_short. cbn. decode_typed. Qed.

Lemma decode_long_typed l :
  (32 <= length l)%nat -> Forall is_byte l -> long_typed (decode_long l).
Proof. intros. unfold long_typed, decode_long. cbn. decode_typed. Qed.

(** ** The cluster count *)

(** A layout: [fat] sectors for each of the two FATs have an entry for every
    cluster and the two reserved ones, and everything fits on the device. *)
Definition layout_fits (reserved bytes_per_sec sectors_per_clus block_count clusters fat : Z) : Prop :=
  clusters + 2 <= fat * (bytes_per_sec / 4) /\
  reserved + 2 * fat + clusters * sectors_per_clus <= block_count.

Lemma calc_cluster_count_spec reserved bps spc bc :
  4 <= bps -> 0 < spc -> 0 <= reserved <= bc -> bc + 2 * spc < 2 ^ 64 ->
  exists n rem, calc_cluster_count reserved bps spc bc = Ok (n, rem) /\
    0 <= n /\ 0 <= rem <= Z.max 2 spc /\
    (0 < n -> exists fat, layout_fits reserved bps spc bc n fat /\
       reserved + rem + 2 * fat + n * spc = bc /\ (fat - 1) * (bps / 4) <= n + 2) /\
    (forall n' fat', 0 <= fat' -> layout_fits reserved bps spc bc n' fat' -> n' <= n).
Proof.
  intros Hbps Hspc Hres Hbc. unfold calc_cluster_count, layout_fits.
  set (cpf := bps / 4). assert (1 <= cpf) by (subst cpf; lia). clearbody cpf.
  set (v := bc - reserved + spc * 2). set (spg := 2 + cpf * spc).
  assert (Hspg : 0 < spg) by (subst spg; nia). assert (0 <= v < 2 ^ 64) by lia.
  rewrite (proj2 (Z.ltb_ge _ _)) by lia. unfold fits.
  rewrite (proj2 (Z.leb_le _ _)), (proj2 (Z.ltb_lt _ _)), (proj2 (Z.eqb_neq _ _)) by lia.
  cbn [andb negb].
  set (g := v / spg). assert (Hg : 0 <= g) by (apply Z.div_pos; lia).
  assert (Hr : 0 <= v - spg * g < spg).
  { subst g. pose proof (Z.div_mod v spg ltac:(lia)). pose proof (Z.mod_pos_bound v spg Hspg). lia. }
  set (r := v - spg * g) in *. assert (Hv : v = spg * g + r) by lia. clearbody g r.
  destruct (Z.ltb_spec 2 r) as [Hr2|Hr2]; cbn.
  - set (rc := (r - 2) / spc). assert (0 <= rc) by (apply Z.div_pos; lia).
    assert (Hrc : rc * spc <= r - 2 < (rc + 1) * spc).
    { subst rc. pose proof (Z.div_mod (r - 2) spc ltac:(lia)).
      pose proof (Z.mod_pos_bound (r - 2) spc Hspc). nia. }
    clearbody rc. assert (rc < cpf) by (subst spg; nia).
    do 2 eexists. split; [done|]. split; [lia|]. split; [lia|]. split.
    + intros Hn. exists (g + 1). subst v spg. split; [nia|]. split; [lia|]. nia.
    + intros n' fat' Hf [Hcov Hfit]. destruct (decide (n' <= g * cpf + rc - 2)); [lia|]. exfalso.
      assert (g + 1 <= fat').
      { apply Z.nlt_ge. intros Hlt.
        pose proof (Z.mul_le_mono_nonneg_r fat' g cpf ltac:(lia) ltac:(lia)). lia. }
      pose proof (Z.mul_le_mono_nonneg_r (g * cpf + rc + 1) (n' + 2) spc ltac:(lia) ltac:(lia)).
      subst v spg. lia.
  - do 2 eexists. split; [done|]. split; [lia|]. split; [lia|]. split.
    + intros Hn. exists g. subst v spg. split; [nia|]. split; [lia|]. nia.
    + intros n' fat' Hf [Hcov Hfit]. destruct (decide (n' <= g * cpf + 0 - 2)); [lia|]. exfalso.
      assert (g + 1 <= fat').
      { apply Z.nlt_ge. intros Hlt.
        pose proof (Z.mul_le_mono_nonneg_r fat' g cpf ltac:(lia) ltac:(lia)). lia. }
      pose proof (Z.mul_le_mono_nonneg_r (g * cpf + 1) (n' + 2) spc ltac:(lia) ltac:(lia)).
      subst v spg. lia.
Qed.

(** [calc_cluster_count] is exact and optimal: it never panics on a device
    that holds the reserved sectors; the clusters it returns, together with
    two FATs that have an entry for each of them and with the sectors it
    reports as left over, make up the whole device; and no layout has more
    clusters. *)
Theorem calc_cluster_count_optimal reserved bps spc bc :
  4 <= bps -> 0 < spc -> 0 <= reserved <= bc -> bc + 2 * spc < 2 ^ 64 ->
  exists n rem, calc_cluster_count reserved bps spc bc = Ok (n, rem) /\
    0 <= n /\ 0 <= rem /\
    (0 < n -> exists fat, layout_fits reserved bps spc bc n fat /\
       reserved + rem + 2 * fat + n * spc = bc) /\
    (forall n' fat', 0 <= fat' -> layout_fits reserved bps spc bc n' fat' -> n' <= n).
Proof.
  intros Hbps Hspc Hres Hbc.
  destruct (calc_cluster_count_spec reserved bps spc bc Hbps Hspc Hres Hbc)
    as (n & rem & Hrun & Hn & [Hrem _] & Hfit & Hmax).
  exists n, rem. split_conj; try done. intros Hpos.
  destruct (Hfit Hpos) as (fat & ? & ? & _). by exists fat.
Qed.

Lemma calc_cluster_count_optimal_witness :
  calc_cluster_count 32 512 8 65536 = Ok (8172, 0) /\
  forall n fat, 0 <= fat -> layout_fits 32 512 8 65536 n fat -> n <= 8172.
Proof.
  destruct (calc_cluster_count_optimal 32 512 8 65536) as (n & rem & Hrun & _ & _ & _ & Hmax);
    [lia..|]. vm_compute in Hrun. injection Hrun as <- <-. split; [reflexivity|exact Hmax].
Defined.
