(* ===== verification/Fat32Name.v ===== *)
(** * FAT32: file names (library/filesystem/src/fs/fat32.rs)

    [Fat32FileMetadata] with its constructor and its name, and the comparison
    of a path segment with a directory entry. A name is stored as UTF-16 units
    in long entries of 13 units each, padded with zeros. *)
From S2P Require Import Prelude Text Device Fat32Types.

(** Where an entry was found is kept with it: [m_start_*] is the position of
    its first long entry, [short_*] that of its short entry. *)
Record Fat32FileMetadata : Type := mkMeta {
  short : DirectoryEntryShort;
  long : list DirectoryEntryLong;
  m_start_cluster : Z;
  m_start_sector : Z;
  m_start_sector_offset : Z;
  short_cluster : Z;
  short_sector : Z;
  short_sector_offset : Z;
}.

Module Fat32Name.

(** ** [Fat32FileMetadata::new] *)

Definition QUESTION : Z := 0x3f.

Definition new_short (start_cluster attr : Z) : DirectoryEntryShort := {|
  sh_name := replicate 8 QUESTION;
  sh_ext := replicate 3 QUESTION;
  sh_attr := attr;
  sh_reserved := 0;
  create_time_tenths := 0;
  create_time := 0;
  create_date := 0;
  last_access_date := 0;
  first_cluster_high := wrap 16 (Z.land (Z.shiftr start_cluster 16) 0xffff);
  write_time := 0;
  write_date := 0;
  first_cluster_low := wrap 16 (Z.land start_cluster 0xffff);
  file_size := 0;
|}.

Definition new_long (order : Z) : DirectoryEntryLong := {|
  order := order;
  name1 := replicate NAME1_LEN 0;
  lg_attr := ATTR_LONG_NAME;
  type_ := 0;
  checksum := 0;
  name2 := replicate NAME2_LEN 0;
  lg_first_cluster_low := 0;
  name3 := replicate NAME3_LEN 0;
|}.

(** [current.nameK[..] = ch] for the position [i] of the unit in the entry. *)
Definition set_unit (i : nat) (ch : Z) (e : DirectoryEntryLong) : DirectoryEntryLong :=
  let set1 := if (i <? NAME1_LEN)%nat then <[i := ch]> (name1 e) else name1 e in
  let set2 :=
    if (i <? NAME1_LEN)%nat then name2 e
    else if (i <? NAME1_LEN + NAME2_LEN)%nat then <[(i - NAME1_LEN)%nat := ch]> (name2 e)
    else name2 e in
  let set3 :=
    if (i <? NAME1_LEN + NAME2_LEN)%nat then name3 e
    else <[(i - NAME1_LEN - NAME2_LEN)%nat := ch]> (name3 e) in
  mkLong (order e) set1 (lg_attr e) (type_ e) (checksum e) set2 (lg_first_cluster_low e) set3.

(** The body of the loop over the units: [long], [current_long] and [i]. *)
Definition push_unit (st : list DirectoryEntryLong * option DirectoryEntryLong * nat) (ch : Z)
    : list DirectoryEntryLong * option DirectoryEntryLong * nat :=
  let '(long, current_long, i) := st in
  let '(current, i) :=
    match current_long with
    | None => (new_long (wrap 8 (Z.of_nat (length long))), O)
    | Some current => (current, i)
    end in
  let current := set_unit i ch current in
  let i := S i in
  if (i =? NAME1_LEN + NAME2_LEN + NAME3_LEN)%nat then (long ++ [current], None, i)
  else (long, Some current, i).

Definition new_longs (name : rstring) : list DirectoryEntryLong :=
  let '(long, current_long, _) := foldl push_unit ([], None, O) (encode_utf16 name) in
  match current_long with
  | Some current => long ++ [current]
  | None => long
  end.

(** The debug assertion that the name is not empty is left out: a name is a
    component of a path, and components are not empty. *)
Definition new (name : rstring) (start_cluster attr : Z) : Fat32FileMetadata :=
  mkMeta (new_short start_cluster attr) (new_longs name) 0 0 0 0 0 0.

(** The method [start_cluster]: the first cluster of the file. *)
Definition start_cluster (m : Fat32FileMetadata) : Z :=
  Z.lor (first_cluster_low (short m)) (wrap 32 (Z.shiftl (first_cluster_high (short m)) 16)).

Definition is_dir (m : Fat32FileMetadata) : bool :=
  negb (Z.land (sh_attr (short m)) ATTR_DIRECTORY =? 0).

Definition long_units (e : DirectoryEntryLong) : list Z := name1 e ++ name2 e ++ name3 e.

Definition name_to_string (m : Fat32FileMetadata) : rstring :=
  match long m with
  | [] =>
      let start := trim_ascii (sh_name (short m)) in
      let end_ := trim_ascii (sh_ext (short m)) in
      match end_ with
      | [] => from_utf8_lossy start
      | _ => from_utf8_lossy start ++ [0x2e] ++ from_utf8_lossy end_
      end
  | longs =>
      from_utf16_lossy (foldl (fun buffer e => buffer ++ filter (fun u => u <> 0) (long_units e)) [] longs)
  end.

(** ** Matching *)

(** [match_with_array]: [None] for [false], else what is left of the iterator. *)
Fixpoint match_with_array (iter array : list Z) {struct array} : option (list Z) :=
  match array with
  | [] => Some iter
  | item :: array' =>
      if item =? 0 then Some iter
      else match iter with
           | [] => None
           | next :: iter' => if item =? next then match_with_array iter' array' else None
           end
  end.

Definition name_match_short (e : DirectoryEntryShort) (name : rstring) : bool :=
  match match_with_array (as_bytes name) (sh_name e) with
  | None => false
  | Some bytes =>
      let name_has_dot := match bytes with b :: _ => b =? 0x2e | [] => false end in
      let bytes := tail bytes in
      let entry_has_ext := negb (nth 0 (sh_ext e) 0 =? 0) in
      if xorb name_has_dot entry_has_ext then false
      else if name_has_dot then
        match match_with_array bytes (sh_ext e) with
        | None => false
        | Some [] => true
        | Some (_ :: _) => false
        end
      else match bytes with [] => true | _ => false end
  end.

Fixpoint match_longs (utf16 : list Z) (entries : list DirectoryEntryLong) : option (list Z) :=
  match entries with
  | [] => Some utf16
  | e :: entries' =>
      utf16 ← match_with_array utf16 (name1 e);
      utf16 ← match_with_array utf16 (name2 e);
      utf16 ← match_with_array utf16 (name3 e);
      match_longs utf16 entries'
  end.

Definition name_match_long (entries : list DirectoryEntryLong) (name : rstring) : bool :=
  match match_longs (encode_utf16 name) entries with
  | Some [] => true
  | _ => false
  end.

(** [sort_unstable_by_key(|entry| entry.order)] (a stable sort here). *)
Fixpoint insert_by_order (e : DirectoryEntryLong) (l : list DirectoryEntryLong)
    : list DirectoryEntryLong :=
  match l with
  | [] => [e]
  | e' :: l' => if order e <=? order e' then e :: l else e' :: insert_by_order e l'
  end.

Fixpoint sort_by_order (l : list DirectoryEntryLong) : list DirectoryEntryLong :=
  match l with
  | [] => []
  | e :: l' => insert_by_order e (sort_by_order l')
  end.

(** The closure of [get_file_metadata_by_cluster]: does the entry have this name? *)
Definition name_matches (m : Fat32FileMetadata) (name : rstring) : bool :=
  match long m with
  | [] => name_match_short (short m) name
  | longs => name_match_long (sort_by_order longs) name
  end.

(** A name that the entries can hold: not empty, without NUL. *)
Definition valid_name (name : rstring) : Prop :=
  name <> [] /\ Forall is_char name /\ Forall (fun c => c <> 0) name.

(** ** Lemmas: the entries that [new] makes *)

Definition UNITS : nat := NAME1_LEN + NAME2_LEN + NAME3_LEN.

(** The entry number [k] with the units [chunk]. *)
Definition entry_of (k : nat) (chunk : list Z) : DirectoryEntryLong :=
  let padded := chunk ++ replicate (UNITS - length chunk) 0 in
  mkLong (wrap 8 (Z.of_nat k)) (slice 0 NAME1_LEN padded) ATTR_LONG_NAME 0 0
    (slice NAME1_LEN NAME2_LEN padded) 0 (slice (NAME1_LEN + NAME2_LEN) NAME3_LEN padded).

Lemma new_long_entry k : new_long (wrap 8 (Z.of_nat k)) = entry_of k [].
Proof. done. Qed.

Lemma insert_replicate_snoc (chunk : list Z) ch n :
  (length chunk < n)%nat ->
  <[length chunk := ch]> (chunk ++ replicate (n - length chunk) 0) =
    (chunk ++ [ch]) ++ replicate (n - length (chunk ++ [ch])) 0.
Proof.
  intros Hn. rewrite length_app. cbn [length].
  replace (n - length chunk)%nat with (S (n - (length chunk + 1))) by lia.
  rewrite <-(Nat.add_0_r (length chunk)) at 1. rewrite insert_app_r. cbn. by rewrite <-app_assoc.
Qed.

Lemma slice_insert_in {A} off n (l : list A) i x :
  (off <= i < off + n)%nat -> slice off n (<[i := x]> l) = <[(i - off)%nat := x]> (slice off n l).
Proof.
  intros Hi. apply list_eq. intros k. destruct (decide (k < n)%nat).
  - rewrite lookup_slice by lia. destruct (decide (k = i - off)%nat) as [->|].
    + replace (off + (i - off))%nat with i by lia.
      destruct (decide (i < length l)%nat).
      * rewrite list_lookup_insert_eq by done. rewrite list_lookup_insert_eq; [done|].
        unfold slice. rewrite length_take, length_drop. lia.
      * rewrite !list_insert_ge by (unfold slice; rewrite ?length_take, ?length_drop; lia).
        rewrite lookup_slice by lia. f_equal. lia.
    + rewrite !list_lookup_insert_ne by lia. by rewrite lookup_slice by lia.
  - rewrite !lookup_ge_None_2; [done|rewrite ?length_insert; unfold slice; rewrite ?length_insert, length_take; lia..].
Qed.

Lemma slice_insert_out {A} off n (l : list A) i x :
  (i < off \/ off + n <= i)%nat -> slice off n (<[i := x]> l) = slice off n l.
Proof.
  intros Hi. apply list_eq. intros k. destruct (decide (k < n)%nat).
  - rewrite !lookup_slice by lia. by rewrite list_lookup_insert_ne by lia.
  - rewrite !lookup_ge_None_2; [done|unfold slice; rewrite length_take; lia..].
Qed.

Lemma set_unit_entry k chunk ch :
  (length chunk < UNITS)%nat -> set_unit (length chunk) ch (entry_of k chunk) = entry_of k (chunk ++ [ch]).
Proof.
  intros Hl. unfold entry_of. rewrite <-(insert_replicate_snoc chunk ch UNITS Hl).
  unfold set_unit. cbn [order name1 name2 name3 lg_attr type_ checksum lg_first_cluster_low].
  unfold UNITS, NAME1_LEN, NAME2_LEN, NAME3_LEN in *. cbn [Nat.add] in *.
  destruct (Nat.ltb_spec (length chunk) 5); [|destruct (Nat.ltb_spec (length chunk) 11)];
    [destruct (Nat.ltb_spec (length chunk) 11); [|lia]|..]; f_equal;
    rewrite ?slice_insert_in, ?slice_insert_out by lia; f_equal; lia.
Qed.

(** The chunks of 13 units, numbered from [k]. *)
Fixpoint entries_of (fuel k : nat) (units : list Z) : list DirectoryEntryLong :=
  match fuel, units with
  | S fuel, _ :: _ => entry_of k (take UNITS units) :: entries_of fuel (S k) (drop UNITS units)
  | _, _ => []
  end.

Lemma foldl_push_chunk long chunk units :
  (0 < length chunk < UNITS)%nat -> (length chunk + length units < UNITS)%nat ->
  foldl push_unit (long, Some (entry_of (length long) chunk), length chunk) units =
    (long, Some (entry_of (length long) (chunk ++ units)), length (chunk ++ units)).
Proof.
  revert chunk. induction units as [|u units IH]; intros chunk Hc Hl; cbn [foldl length] in *.
  { by rewrite app_nil_r. }
  unfold push_unit at 2. rewrite set_unit_entry by lia.
  rewrite (proj2 (Nat.eqb_neq _ _)) by (change (NAME1_LEN + NAME2_LEN + NAME3_LEN)%nat with UNITS; lia).
  replace (S (length chunk)) with (length (chunk ++ [u])) by (rewrite length_app; cbn [length]; lia).
  rewrite IH by (rewrite length_app; cbn [length]; lia). by rewrite <-app_assoc.
Qed.

Lemma foldl_push_from_first long u units :
  (1 + length units < UNITS)%nat ->
  foldl push_unit (long, Some (entry_of (length long) [u]), 1%nat) units =
    (long, Some (entry_of (length long) (u :: units)), S (length units)).
Proof. intros. apply (foldl_push_chunk long [u] units); cbn [length]; lia. Qed.

Lemma push_first long j u :
  push_unit (long, None, j) u = (long, Some (entry_of (length long) [u]), 1%nat).
Proof.
  unfold push_unit. rewrite new_long_entry.
  pose proof (set_unit_entry (length long) [] u) as H. cbn [length app] in H.
  rewrite H by (cbn; lia). done.
Qed.

Lemma foldl_push_full long j units :
  length units = UNITS ->
  foldl push_unit (long, None, j) units = (long ++ [entry_of (length long) units], None, UNITS).
Proof.
  intros Hl. destruct units as [|u units]; [done|]. cbn [foldl]. rewrite push_first.
  destruct units as [|x units _] using rev_ind; [done|].
  cbn [length] in Hl. rewrite length_app in Hl. cbn [length] in Hl.
  rewrite foldl_app. cbn [foldl].
  rewrite foldl_push_from_first by lia. unfold push_unit.
  rewrite (set_unit_entry _ (u :: units)) by (cbn [length]; lia).
  rewrite (proj2 (Nat.eqb_eq _ _)) by (change (NAME1_LEN + NAME2_LEN + NAME3_LEN)%nat with UNITS; lia).
  f_equal. lia.
Qed.

Lemma foldl_push_units fuel long j units :
  (length units <= fuel * UNITS)%nat ->
  let '(l, cur, _) := foldl push_unit (long, None, j) units in
  match cur with Some c => l ++ [c] | None => l end = long ++ entries_of fuel (length long) units.
Proof.
  revert long j units. induction fuel as [|fuel IH]; intros long j units Hl.
  { destruct units; [cbn; by rewrite app_nil_r|cbn in Hl; lia]. }
  destruct (decide (units = [])) as [->|Hne]; [cbn; by rewrite app_nil_r|].
  assert (entries_of (S fuel) (length long) units = entry_of (length long) (take UNITS units)
    :: entries_of fuel (S (length long)) (drop UNITS units)) as -> by (by destruct units).
  destruct (decide (length units < UNITS)%nat).
  - destruct units as [|u units]; [done|].
    cbn [foldl]. rewrite push_first, foldl_push_from_first by (cbn [length] in *; lia).
    rewrite take_ge, drop_ge by lia. by destruct fuel.
  - assert (foldl push_unit (long, None, j) units = foldl push_unit
      (long ++ [entry_of (length long) (take UNITS units)], None, UNITS) (drop UNITS units)) as ->.
    { rewrite <-(take_drop UNITS units) at 1. rewrite foldl_app.
      by rewrite foldl_push_full by (rewrite length_take; lia). }
    specialize (IH (long ++ [entry_of (length long) (take UNITS units)]) UNITS (drop UNITS units)).
    rewrite length_drop in IH. specialize (IH ltac:(lia)).
    destruct (foldl _ _ (drop UNITS units)) as [[l cur] i]. rewrite IH, <-app_assoc.
    rewrite length_app. cbn [length]. by rewrite Nat.add_1_r.
Qed.

Lemma new_longs_entries name :
  new_longs name = entries_of (length (encode_utf16 name)) 0 (encode_utf16 name).
Proof.
  unfold new_longs.
  pose proof (foldl_push_units (length (encode_utf16 name)) [] 0 (encode_utf16 name)) as H.
  cbn [length app] in H. specialize (H ltac:(unfold UNITS, NAME1_LEN, NAME2_LEN, NAME3_LEN; lia)).
  by destruct (foldl push_unit _ _) as [[l [c|]] i].
Qed.

Lemma long_units_entry k chunk :
  (length chunk <= UNITS)%nat ->
  long_units (entry_of k chunk) = chunk ++ replicate (UNITS - length chunk) 0.
Proof.
  intros Hl. unfold long_units, entry_of. cbn [name1 name2 name3].
  set (p := chunk ++ replicate (UNITS - length chunk) 0).
  assert (Hp : length p = UNITS) by (subst p; len; lia).
  unfold slice, UNITS, NAME1_LEN, NAME2_LEN, NAME3_LEN in *. clearbody p. cbn in Hp.
  do 14 (destruct p as [|? p]; try discriminate Hp). done.
Qed.

Lemma entry_of_typed k chunk :
  (length chunk <= UNITS)%nat -> Forall (uint 2) chunk -> long_typed (entry_of k chunk).
Proof.
  intros Hl Hc. unfold long_typed, entry_of; cbn [order name1 name2 name3 lg_attr type_ checksum lg_first_cluster_low].
  set (p := chunk ++ replicate (UNITS - length chunk) 0).
  assert (Hp : length p = UNITS) by (subst p; len; lia).
  assert (Hpu : Forall (uint 2) p).
  { apply Forall_app; split; [done|]. apply Forall_replicate. unfold uint. lia. }
  assert (Hs : forall off n, (off + n <= UNITS)%nat -> u16_array n (slice off n p)).
  { intros. split; [apply length_slice; lia|by apply Forall_take, Forall_drop]. }
  assert (uint 1 (wrap 8 (Z.of_nat k))) by (apply (wrap_bound 8); lia).
  split_conj; first [done|apply Hs; unfold UNITS, NAME1_LEN, NAME2_LEN, NAME3_LEN; lia].
Qed.

Lemma entries_of_typed fuel k units :
  Forall (uint 2) units -> Forall long_typed (entries_of fuel k units).
Proof.
  revert k units. induction fuel as [|fuel IH]; intros k units Hu; [constructor|].
  destruct units as [|u units]; [constructor|]. cbn [entries_of]. constructor.
  - apply entry_of_typed; [rewrite length_take; lia|by apply Forall_take].
  - apply IH. by apply Forall_drop.
Qed.

Lemma entries_of_attr fuel k units :
  Forall (fun e => lg_attr e = ATTR_LONG_NAME) (entries_of fuel k units).
Proof.
  revert k units. induction fuel as [|fuel IH]; intros k units; [constructor|].
  destruct units; cbn [entries_of]; constructor; auto.
Qed.

Lemma filter_nonzero_id l : Forall (fun u => u <> 0) l -> filter (fun u => u <> 0) l = l.
Proof. induction 1 as [|x l Hx _ IH]; [done|]. rewrite filter_cons_True, IH by done. done. Qed.

Lemma filter_nonzero_zeros n : filter (fun u => u <> 0) (replicate n 0) = [].
Proof. induction n as [|n IH]; [done|]. cbn [replicate]. rewrite filter_cons_False by auto. done. Qed.

Lemma foldl_entries_units fuel k units acc :
  (length units <= fuel * UNITS)%nat -> Forall (fun u => u <> 0) units ->
  foldl (fun buffer e => buffer ++ filter (fun u => u <> 0) (long_units e)) acc
    (entries_of fuel k units) = acc ++ units.
Proof.
  revert k units acc. induction fuel as [|fuel IH]; intros k units acc Hl Hnz.
  { destruct units; [cbn; by rewrite app_nil_r|cbn in Hl; lia]. }
  destruct (decide (units = [])) as [->|Hne]; [cbn; by rewrite app_nil_r|].
  assert (entries_of (S fuel) k units = entry_of k (take UNITS units)
    :: entries_of fuel (S k) (drop UNITS units)) as -> by (by destruct units).
  cbn [foldl]. rewrite long_units_entry by (rewrite length_take; lia).
  rewrite filter_app, filter_nonzero_zeros, app_nil_r, filter_nonzero_id by (by apply Forall_take).
  rewrite IH by (rewrite ?length_drop; try lia; by apply Forall_drop).
  by rewrite <-app_assoc, take_drop.
Qed.

Lemma new_longs_nonempty name : name <> [] -> new_longs name <> [].
Proof.
  intros Hne. rewrite new_longs_entries. destruct name as [|c name]; [done|].
  unfold encode_utf16, utf16_encode_char. cbn [fmap list_fmap concat].
  destruct (c <? 0x10000); done.
Qed.

Lemma name_to_string_new name c attr :
  valid_name name -> name_to_string (new name c attr) = name.
Proof.
  intros (Hne & Hc & Hnz). unfold name_to_string. cbn [long new].
  pose proof (new_longs_nonempty name Hne) as Hl.
  destruct (new_longs name) as [|e es] eqn:E; [done|]. rewrite <-E, new_longs_entries.
  rewrite foldl_entries_units; [|unfold UNITS, NAME1_LEN, NAME2_LEN, NAME3_LEN; lia|by apply encode_utf16_nonzero].
  by apply from_utf16_lossy_encode.
Qed.

(** ** Lemmas: matching *)

Definition prefix_test (p iter : list Z) : option (list Z) :=
  if decide (take (length p) iter = p) then Some (drop (length p) iter) else None.

(** Matching against non-zero units followed by padding is a prefix test. *)
Lemma match_with_array_padded iter p n :
  Forall (fun u => u <> 0) p ->
  match_with_array iter (p ++ replicate n 0) = prefix_test p iter.
Proof.
  unfold prefix_test. intros Hp. revert iter. induction Hp as [|u p Hu _ IH]; intros iter; cbn [app length take drop].
  - rewrite drop_0, take_0, decide_True by done. by destruct n.
  - cbn [match_with_array]. rewrite (proj2 (Z.eqb_neq _ _)) by done.
    destruct iter as [|x iter]; [by rewrite decide_False|]. cbn [take drop].
    destruct (Z.eqb_spec u x) as [->|]; [|rewrite decide_False; [done|congruence]].
    rewrite IH. do 2 case_decide; try done; congruence.
Qed.

Lemma slice_padded off n (chunk : list Z) m :
  (off + n <= m)%nat ->
  slice off n (chunk ++ replicate (m - length chunk) 0) =
    slice off n chunk ++ replicate (n - length (slice off n chunk)) 0.
Proof.
  intros Hm. unfold slice. rewrite length_take, length_drop.
  destruct (decide (length chunk <= off)%nat).
  - rewrite drop_app_ge, drop_replicate, take_replicate by lia.
    rewrite (drop_ge chunk), take_nil by lia. cbn [app]. f_equal. lia.
  - rewrite drop_app_le by lia. destruct (decide (length chunk <= off + n)%nat).
    + rewrite take_app_ge, take_replicate by (rewrite length_drop; lia).
      rewrite length_drop, (take_ge (drop off chunk)) by (rewrite length_drop; lia). f_equal. f_equal. lia.
    + rewrite take_app_le by (rewrite length_drop; lia).
      replace (n - (n `min` (length chunk - off)))%nat with O by lia. by rewrite app_nil_r.
Qed.

Lemma prefix_test_app p q iter :
  prefix_test (p ++ q) iter = (rest ← prefix_test p iter; prefix_test q rest).
Proof.
  unfold prefix_test. rewrite length_app.
  destruct (decide (take (length p) iter = p)) as [Hp|Hp]; cbn.
  - rewrite <-take_take_drop, Hp, drop_drop.
    destruct (decide (take (length q) (drop (length p) iter) = q)) as [Hq|Hq].
    + rewrite Hq, decide_True by done. done.
    + rewrite decide_False; [done|]. intros Heq. by apply app_inv_head in Heq.
  - rewrite decide_False; [done|]. intros Heq. apply Hp.
    apply (f_equal (take (length p))) in Heq.
    rewrite take_take, take_app_length, Nat.min_l in Heq by lia. done.
Qed.

Lemma prefix_test_full units iter : prefix_test units iter = Some [] <-> iter = units.
Proof.
  unfold prefix_test. split.
  - case_decide as Ht; [|done]. intros [= Hd]. rewrite <-(take_drop (length units) iter), Ht, Hd.
    apply app_nil_r.
  - intros ->. rewrite take_ge, drop_ge, decide_True by (done || lia). done.
Qed.

Lemma match_entry k chunk iter :
  (length chunk <= UNITS)%nat -> Forall (fun u => u <> 0) chunk ->
  (iter1 ← match_with_array iter (name1 (entry_of k chunk));
   iter2 ← match_with_array iter1 (name2 (entry_of k chunk));
   match_with_array iter2 (name3 (entry_of k chunk))) = prefix_test chunk iter.
Proof.
  intros Hl Hnz. unfold entry_of; cbn [name1 name2 name3].
  rewrite !slice_padded by (unfold UNITS, NAME1_LEN, NAME2_LEN, NAME3_LEN; lia).
  assert (Hs : forall off n, Forall (fun u => u <> 0) (slice off n chunk)).
  { intros. by apply Forall_take, Forall_drop. }
  assert (chunk = slice 0 NAME1_LEN chunk ++ slice NAME1_LEN NAME2_LEN chunk
                    ++ slice (NAME1_LEN + NAME2_LEN) NAME3_LEN chunk) as Hsplit.
  { unfold slice. rewrite drop_0. unfold UNITS in Hl.
    rewrite <-(take_drop NAME1_LEN chunk) at 1. f_equal.
    rewrite <-(take_drop NAME2_LEN (drop NAME1_LEN chunk)) at 1. f_equal.
    rewrite drop_drop. symmetry. apply take_ge. rewrite length_drop. lia. }
  transitivity (prefix_test (slice 0 NAME1_LEN chunk ++ slice NAME1_LEN NAME2_LEN chunk
    ++ slice (NAME1_LEN + NAME2_LEN) NAME3_LEN chunk) iter); [|by rewrite <-Hsplit].
  rewrite prefix_test_app, match_with_array_padded by done.
  destruct (prefix_test (slice 0 NAME1_LEN chunk) iter) as [i1|]; [|done]. cbn [mbind option_bind].
  rewrite prefix_test_app, match_with_array_padded by done.
  destruct (prefix_test (slice NAME1_LEN NAME2_LEN chunk) i1) as [i2|]; [|done]. cbn [mbind option_bind].
  by rewrite match_with_array_padded.
Qed.

Lemma match_longs_entries fuel k units iter :
  (length units <= fuel * UNITS)%nat -> Forall (fun u => u <> 0) units ->
  match_longs iter (entries_of fuel k units) = prefix_test units iter.
Proof.
  revert k units iter. induction fuel as [|fuel IH]; intros k units iter Hl Hnz.
  { destruct units; [done|cbn in Hl; lia]. }
  destruct (decide (units = [])) as [->|Hne]; [done|].
  assert (entries_of (S fuel) k units = entry_of k (take UNITS units)
    :: entries_of fuel (S k) (drop UNITS units)) as -> by (by destruct units).
  rewrite <-(take_drop UNITS units) at 3. rewrite prefix_test_app.
  rewrite <-(match_entry k) by (rewrite ?length_take; try lia; by apply Forall_take).
  cbn [match_longs]. 
  destruct (match_with_array iter _) as [i1|]; [cbn [mbind option_bind]|done].
  destruct (match_with_array i1 _) as [i2|]; [cbn [mbind option_bind]|done].
  destruct (match_with_array i2 _) as [i3|]; [cbn [mbind option_bind]|done].
  apply IH; [rewrite length_drop; lia|by apply Forall_drop].
Qed.

Lemma name_match_long_new name name' :
  valid_name name -> Forall is_char name' ->
  name_match_long (new_longs name) name' = bool_decide (name' = name).
Proof.
  intros (Hne & Hc & Hnz) Hc'. unfold name_match_long. rewrite new_longs_entries.
  rewrite match_longs_entries;
    [|unfold UNITS, NAME1_LEN, NAME2_LEN, NAME3_LEN; lia|by apply encode_utf16_nonzero].
  case_bool_decide as Heq.
  - by rewrite (proj2 (prefix_test_full _ _) (f_equal encode_utf16 Heq)).
  - destruct (prefix_test _ _) as [[|]|] eqn:E; [|done..].
    apply prefix_test_full, encode_utf16_inj in E; done.
Qed.

Lemma insert_by_order_head e l :
  Forall (fun e' => order e <= order e') l -> insert_by_order e l = e :: l.
Proof. destruct 1 as [|e' l He' Hl]; [done|]. cbn. by rewrite (proj2 (Z.leb_le _ _)). Qed.

Lemma entries_of_order fuel k units :
  (length units <= fuel * UNITS)%nat -> (UNITS * k + length units <= 256 * UNITS)%nat ->
  Forall (fun e => Z.of_nat k <= order e) (entries_of fuel k units) /\
  sort_by_order (entries_of fuel k units) = entries_of fuel k units.
Proof.
  revert k units. induction fuel as [|fuel IH]; intros k units Hl Hk; [by split; [constructor|]|].
  destruct (decide (units = [])) as [->|Hne]; [by split; [constructor|]|].
  assert (entries_of (S fuel) k units = entry_of k (take UNITS units)
    :: entries_of fuel (S k) (drop UNITS units)) as -> by (by destruct units).
  assert (0 < length units)%nat by (destruct units; cbn; [done|lia]).
  assert (order (entry_of k (take UNITS units)) = Z.of_nat k) as Ho.
  { cbn. apply wrap_small. unfold UNITS, NAME1_LEN, NAME2_LEN, NAME3_LEN in *. lia. }
  destruct (decide (length units <= UNITS)%nat).
  { rewrite drop_ge by lia. assert (entries_of fuel (S k) [] = []) as -> by (by destruct fuel).
    split; [constructor; [lia|constructor]|done]. }
  destruct (IH (S k) (drop UNITS units)) as [Hf Hsort];
    [rewrite length_drop; lia|rewrite length_drop; lia|].
  split.
  - constructor; [lia|]. eapply Forall_impl; [done|]. cbn. intros. lia.
  - cbn [sort_by_order]. rewrite Hsort. apply insert_by_order_head.
    eapply Forall_impl; [done|]. cbn beta. intros. rewrite Ho. lia.
Qed.

Lemma sort_new_longs name :
  (length (encode_utf16 name) <= 256 * UNITS)%nat -> sort_by_order (new_longs name) = new_longs name.
Proof.
  intros. rewrite new_longs_entries. apply entries_of_order; [|lia].
  unfold UNITS, NAME1_LEN, NAME2_LEN, NAME3_LEN. lia.
Qed.

Lemma start_cluster_new name c attr : 0 <= c < 2 ^ 32 -> start_cluster (new name c attr) = c.
Proof.
  intros Hc. unfold start_cluster, new, new_short; cbn [short first_cluster_low first_cluster_high].
  change 0xffff with (Z.ones 16). rewrite !Z.land_ones by lia. unfold wrap.
  rewrite !Z.mod_mod by lia. rewrite Z.shiftr_div_pow2, Z.shiftl_mul_pow2 by lia.
  rewrite (Z.mod_small (c / 2 ^ 16)) by lia. rewrite (Z.mod_small (_ * _)) by lia.
  rewrite <-Z.shiftl_mul_pow2, <-Z.shiftr_div_pow2 by lia. rewrite <-Z.land_ones by lia.
  apply Z.bits_inj'. intros n Hn. rewrite Z.lor_spec, Z.land_spec.
  destruct (decide (n < 16)).
  - rewrite Z.ones_spec_low, Z.shiftl_spec_low by lia. by rewrite andb_true_r, orb_false_r.
  - rewrite Z.ones_spec_high, Z.shiftl_spec, Z.shiftr_spec by lia.
    rewrite andb_false_r. cbn. f_equal. lia.
Qed.

Lemma new_short_typed c attr : uint 1 attr -> short_typed (new_short c attr).
Proof.
  intros Ha. unfold short_typed, new_short; cbn.
  assert (forall x, uint 2 (wrap 16 x)) by (intros; apply (wrap_bound 16); lia).
  assert (Hq : forall n, byte_array n (replicate n QUESTION)).
  { intros n. split; [apply length_replicate|]. apply Forall_replicate. unfold is_byte, QUESTION. lia. }
  split_conj; first [done|apply (Hq 8%nat)|apply (Hq 3%nat)|unfold uint; cbn; lia].
Qed.

(** ** Properties *)

(** A file name survives its encoding in long entries: the entries that
    [new] makes for a name read back as that name, and the lookup (which
    sorts them first) accepts them for exactly that name. *)
Theorem long_name_roundtrip name c attr name' :
  valid_name name -> (length (encode_utf16 name) <= 256 * UNITS)%nat -> Forall is_char name' ->
  name_to_string (new name c attr) = name /\
  name_matches (new name c attr) name' = bool_decide (name' = name).
Proof.
  intros Hv Hl Hc'. split; [by apply name_to_string_new|].
  unfold name_matches. cbn [long new]. pose proof (new_longs_nonempty name (proj1 Hv)).
  destruct (new_longs name) eqn:E; [done|]. rewrite <-E, sort_new_longs by done.
  by apply name_match_long_new.
Qed.

Lemma long_name_roundtrip_witness :
  name_to_string (new [0x6e; 0x1F600; 0x2e; 0x74] 5 ATTR_ARCHIVE) = [0x6e; 0x1F600; 0x2e; 0x74] /\
  name_matches (new [0x6e; 0x1F600; 0x2e; 0x74] 5 ATTR_ARCHIVE) [0x6e; 0x2e; 0x74] = false.
Proof.
  destruct (long_name_roundtrip [0x6e; 0x1F600; 0x2e; 0x74] 5 ATTR_ARCHIVE [0x6e; 0x2e; 0x74]) as [H1 H2].
  - split; [done|]. split; repeat constructor; unfold is_char; lia.
  - vm_compute. lia.
  - repeat constructor; unfold is_char; lia.
  - split; [exact H1|exact H2].
Defined.

(** The bytes of an ASCII string. *)
Lemma as_bytes_ascii s : Forall (fun c => 0 <= c < 0x80) s -> as_bytes s = s.
Proof.
  unfold as_bytes. induction 1 as [|c s Hc _ IH]; [done|]. cbn [fmap list_fmap concat].
  unfold utf8_encode_char at 1. rewrite (proj2 (Z.ltb_lt _ _)) by lia. cbn [app]. f_equal. exact IH.
Qed.

(** The short-name comparison reads one byte behind the base name and
    drops it when it is not a dot: an entry without extension matches every
    name that is one character longer than its own. *)
Theorem name_match_short_extra_char e base c n :
  sh_name e = base ++ replicate n 0 -> nth 0 (sh_ext e) 0 = 0 ->
  Forall (fun c => 0 < c < 0x80) base -> 0 < c < 0x80 -> c <> 0x2e ->
  name_match_short e base = true /\ name_match_short e (base ++ [c]) = true.
Proof.
  intros Hn He Hb Hc Hdot. unfold name_match_short. rewrite Hn, He.
  assert (Hb0 : Forall (fun u => u <> 0) base) by (eapply Forall_impl; [exact Hb|]; cbn; intros; lia).
  rewrite !as_bytes_ascii.
  - rewrite !match_with_array_padded by done. unfold prefix_test.
    rewrite take_ge, drop_ge, decide_True by (done || lia).
    rewrite take_app_length, drop_app_length, decide_True by done. cbn.
    by rewrite (proj2 (Z.eqb_neq _ _)) by done.
  - apply Forall_app; split; [eapply Forall_impl; [exact Hb|]; cbn; intros; lia|]. repeat constructor; lia.
  - eapply Forall_impl; [exact Hb|]; cbn; intros; lia.
Qed.

Lemma name_match_short_extra_char_witness :
  name_match_short (mkShort [0x41; 0; 0; 0; 0; 0; 0; 0] [0; 0; 0] 0 0 0 0 0 0 0 0 0 0 0) [0x41] = true /\
  name_match_short (mkShort [0x41; 0; 0; 0; 0; 0; 0; 0] [0; 0; 0] 0 0 0 0 0 0 0 0 0 0 0) ([0x41] ++ [0x42]) = true.
Proof.
  apply (name_match_short_extra_char _ [0x41] 0x42 7); [done|done|repeat constructor; lia|lia|lia].
Defined.
End Fat32Name.
