(* ===== verification/Fat32Format.v ===== *)
(** * FAT32: mounting and formatting (library/filesystem/src/fs/fat32.rs)

    [Fat32Inner], the state of a mounted file system, with [mount] and
    [with_format]; [fat_ok], the geometry that every operation relies on. *)
From S2P Require Import Prelude Text Device MemoryDevice Fat32Types.

Record Fat32Inner (D : Type) : Type := mkInner {
  device : D;
  bpb : BPB;
  fs_info : option FSInfo;
  max_cluster : Z;
  occupied_file : gset Z;
}.
Arguments mkInner {D} device bpb fs_info max_cluster occupied_file.
Arguments device {D} s : rename.
Arguments bpb {D} s : rename.
Arguments fs_info {D} s : rename.
Arguments max_cluster {D} s : rename.
Arguments occupied_file {D} s : rename.

(** [alloc::vec![0u8; n]]. *)
Definition zeros (n : Z) : list Z := replicate (Z.to_nat n) 0.

(** ** [mount] and [with_format] *)
Section format.
  Context {D : Type} `{!BlockDevice D}.

Definition set_device (d : D) (s : Fat32Inner D) : Fat32Inner D :=
  mkInner d (bpb s) (fs_info s) (max_cluster s) (occupied_file s).

Definition set_fs_info (f : option FSInfo) (s : Fat32Inner D) : Fat32Inner D :=
  mkInner (device s) (bpb s) f (max_cluster s) (occupied_file s).

Definition set_occupied (o : gset Z) (s : Fat32Inner D) : Fat32Inner D :=
  mkInner (device s) (bpb s) (fs_info s) (max_cluster s) o.

Definition mount : M D MountError (Fat32Inner D) :=
  size ← gets block_size;
  count ← gets block_count;
  if size <? 512 then throw InvalidFormat
  else if count <? 2 then throw InvalidFormat
  else
    boot ← map_err MountIoError (read_block 0 (zeros size));
    let b := decode_bpb boot in
    lift (check_bpb b size count);;
    info ←
      (if bpb_fs_info b <? reserved_sector_count b then
         sector ← map_err MountIoError (read_block (bpb_fs_info b) (zeros size));
         mret (Some (decode_fs_info sector))
       else mret None);
    match info with Some f => lift (check_fs_info f) | None => mret tt end;;
    fat_limit ← checked 64 (fat_size_32 b * bytes_per_sector b / 4 - 2);
    data_blocks ← checked 64 (count - reserved_sector_count b);
    data_blocks ← checked 64 (data_blocks - fat_size_32 b * num_fats b);
    let device_limit := data_blocks / sectors_per_cluster b in
    d ← gets id;
    mret (mkInner d b info (wrap 32 (fat_limit `min` device_limit)) ∅).

(** The values that [with_format] derives from the size of the device. *)
Definition format_bytes_per_sector (size : Z) : Z :=
  if is_power_of_two size then size else 2 ^ Z.log2 size.

Definition format_fat_size (clusters bps : Z) : Z :=
  let cluster_per_fat := bps / 4 in
  (clusters + cluster_per_fat - 1) / cluster_per_fat.

Definition format_bpb (bps spc reserved fat count : Z) : BPB := {|
  reserved_code := RESERVED_CODE;
  oem_id := OEM_ID;
  bytes_per_sector := wrap 16 bps;
  sectors_per_cluster := wrap 8 spc;
  reserved_sector_count := wrap 16 reserved;
  num_fats := 2;
  root_entry_count := 0;
  total_sectors_16 := 0;
  media := 0;
  fat_size_16 := 0;
  sectors_per_track := 0;
  num_heads := 0;
  hidden_sectors := 0;
  total_sectors_32 := wrap 32 count;
  fat_size_32 := wrap 32 fat;
  ext_flags := 0;
  fs_version := 0;
  root_cluster := 2;
  bpb_fs_info := 1;
  bk_boot_sector := U16_MAX;
  bpb_reserved := replicate 12 0;
  drive_number := 0x80;
  reserved1 := 0;
  boot_signature := 0x28;
  volume_id := 0;
  volume_label := replicate 11 0;
  fs_type := FS_TYPE;
  code := replicate 420 0;
  boot_sector_signature := BOOT_SECTOR_SIGNATURE;
|}.

Definition format_fs_info (clusters : Z) : FSInfo :=
  mkFSInfo LEAD_SIGNATURE (replicate 480 0) STRUCT_SIGNATURE (wrap 32 (clusters - 1)) 3
    (replicate 12 0) TRAIL_SIGNATURE.

(** The first sector of a fresh FAT. *)
Definition format_fat_sector (size : Z) : list Z :=
  splice 0 (to_le 4 0xffffff00 ++ to_le 4 0xffffffff ++ to_le 4 FAT_ENTRY_EOC_START) (zeros size).

(** The writes of [with_format]: boot area, FATs, root directory. The boot area
    is copied from the two 512-byte structures with the block size as length:
    on a device with larger blocks this reads behind them, which is undefined
    and modelled as [panic]. *)
Definition format_device (size reserved fat spc : Z) (b : BPB) (f : FSInfo)
    : M D FormatError unit :=
  (if 512 <? size then panic
   else map_err FormatIoError (write_blocks 0 2 (encode_bpb b ++ encode_fs_info f)));;
  map_err FormatIoError (write_zeros reserved (fat * 2));;
  map_err FormatIoError (write_block reserved (format_fat_sector size));;
  map_err FormatIoError (write_block (reserved + fat) (format_fat_sector size));;
  map_err FormatIoError (write_zeros (reserved + fat * 2) spc).

Definition with_format : M D FormatError (Fat32Inner D) :=
  size ← gets block_size;
  count ← gets block_count;
  if size <? 512 then throw DeviceTooSmall
  else if count <? 2 then throw DeviceTooSmall
  else
    let reserved := 2 in
    let bps := format_bytes_per_sector size in
    let spc := 8 in
    '(total, remain) ← lift (calc_cluster_count reserved bps spc count);
    if total <? 2 then throw DeviceTooSmall
    else
      let reserved := reserved + remain in
      let fat := format_fat_size total bps in
      let b := format_bpb bps spc reserved fat count in
      let f := format_fs_info total in
      format_device size reserved fat spc b f;;
      d ← gets id;
      mret (mkInner d b (Some f) (wrap 32 total) ∅).
End format.

(** ** The geometry of a well-formed file system *)
Section geometry.
  Context {D : Type} `{BlockDevice D, !BlockDeviceSpec D}.
  Implicit Types s : Fat32Inner D.

Definition cluster_per_sector s : Z := bytes_per_sector (bpb s) / 4.

(** The first block of the data area (two FATs, as in [get_sector_by_cluster]). *)
Definition data_start s : Z := reserved_sector_count (bpb s) + fat_size_32 (bpb s) * 2.

(** The numbers of the data clusters. *)
Definition is_cluster s (c : Z) : Prop := 2 <= c < max_cluster s + 2.

(** The block where cluster [c] starts. *)
Definition cluster_block s (c : Z) : Z := data_start s + (c - 2) * sectors_per_cluster (bpb s).

Record fat_ok s : Prop := mkFatOk {
  ok_dev : dev_ok (device s);
  ok_typed : bpb_typed (bpb s);
  ok_bps : 512 <= bytes_per_sector (bpb s) <= block_size (device s);
  ok_bps_dir : bytes_per_sector (bpb s) `mod` 32 = 0;
  ok_spc : 1 <= sectors_per_cluster (bpb s);
  ok_fats : 1 <= num_fats (bpb s) <= 2;
  ok_info_sector : bpb_fs_info (bpb s) < reserved_sector_count (bpb s);
  ok_cover : max_cluster s + 2 <= fat_size_32 (bpb s) * cluster_per_sector s;
  ok_fits : data_start s + max_cluster s * sectors_per_cluster (bpb s) <= block_count (device s);
  ok_max : 0 <= max_cluster s /\ max_cluster s + 2 <= FAT_ENTRY_RESERVED_START;
  ok_info : match fs_info s with Some f => fs_info_typed f | None => True end;
}.

(** ** Lemmas *)

Lemma fat_ok_bounds s : fat_ok s ->
  0 <= reserved_sector_count (bpb s) /\ 0 <= fat_size_32 (bpb s) /\ 0 <= bpb_fs_info (bpb s) /\
  128 <= cluster_per_sector s /\ cluster_per_sector s * 4 = bytes_per_sector (bpb s) /\
  data_start s <= block_count (device s) < 2 ^ 64 /\ 0 < block_size (device s).
Proof.
  intros Hok. destruct (dev_geometry _ (ok_dev _ Hok)) as (? & ? & ?).
  pose proof (ok_typed _ Hok) as Ht. unfold bpb_typed, uint in Ht.
  destruct Ht as (_ & _ & _ & _ & Hr & _ & _ & _ & _ & _ & _ & _ & _ & _ & Hf & _ & _ & _ & Hi & _).
  pose proof (ok_bps _ Hok). pose proof (ok_bps_dir _ Hok). pose proof (ok_fits _ Hok).
  pose proof (ok_max _ Hok). pose proof (ok_spc _ Hok). unfold cluster_per_sector.
  assert (0 <= max_cluster s * sectors_per_cluster (bpb s)) by nia.
  assert (block_count (device s) <= block_size (device s) * block_count (device s)) by nia.
  lia.
Qed.

(** The state with another device of the same shape is well formed. *)
Lemma fat_ok_set_device s d' : fat_ok s -> dev_ok d' ->
  block_size d' = block_size (device s) -> block_count d' = block_count (device s) ->
  fat_ok (set_device d' s).
Proof.
  intros [] Hd Hs Hc.
  constructor; cbn; unfold data_start, cluster_per_sector in *; cbn; rewrite ?Hs, ?Hc; done.
Qed.

Lemma length_zeros n : length (zeros n) = Z.to_nat n.
Proof. apply length_replicate. Qed.

Lemma zeros_bytes n : Forall is_byte (zeros n).
Proof. apply Forall_replicate. unfold is_byte. lia. Qed.


Lemma slice_replicate {A} off n m (x : A) :
  (off + n <= m)%nat -> slice off n (replicate m x) = replicate n x.
Proof. intros. unfold slice. rewrite drop_replicate, take_replicate. f_equal. lia. Qed.

(** What a fresh file system looks like on the device: the boot area, the two
    FATs, the root directory. *)
Record formatted (d : D) (b : BPB) (f : FSInfo) : Prop := mkFormatted {
  fm_boot : blk d 0 = encode_bpb b;
  fm_info : blk d 1 = encode_fs_info f;
  fm_fat : forall k, 0 <= k < 2 ->
    blk d (reserved_sector_count b + fat_size_32 b * k) = format_fat_sector 512;
  fm_fat_rest : forall j, reserved_sector_count b <= j < reserved_sector_count b + fat_size_32 b * 2 ->
    j <> reserved_sector_count b -> j <> reserved_sector_count b + fat_size_32 b ->
    blk d j = zeros 512;
  fm_root : forall j, reserved_sector_count b + fat_size_32 b * 2 <= j
      < reserved_sector_count b + fat_size_32 b * 2 + 8 -> blk d j = zeros 512;
}.

Lemma format_bpb_typed bps spc reserved fat count : bpb_typed (format_bpb bps spc reserved fat count).
Proof.
  unfold bpb_typed, format_bpb; cbn.
  assert (forall x, uint 2 (wrap 16 x)) by (intros; apply (wrap_bound 16); lia).
  assert (forall x, uint 1 (wrap 8 x)) by (intros; apply (wrap_bound 8); lia).
  assert (forall x, uint 4 (wrap 32 x)) by (intros; apply (wrap_bound 32); lia).
  assert (Hr : forall n, byte_array n (replicate n 0)).
  { intros n. split; [apply length_replicate|apply Forall_replicate; unfold is_byte; lia]. }
  split_conj; first [done|apply (Hr 12%nat)|apply (Hr 11%nat)|apply (Hr 420%nat)
    |split; [done|repeat constructor; unfold is_byte; lia]].
Qed.

Lemma format_fs_info_typed n : fs_info_typed (format_fs_info n).
Proof.
  unfold fs_info_typed, format_fs_info; cbn.
  assert (uint 4 (wrap 32 (n - 1))) by (apply (wrap_bound 32); lia).
  assert (Hr : forall n, byte_array n (replicate n 0)).
  { intros m. split; [apply length_replicate|apply Forall_replicate; unfold is_byte; lia]. }
  split_conj; first [done|apply (Hr 480%nat)|apply (Hr 12%nat)].
Qed.

Lemma format_fat_sector_ok :
  length (format_fat_sector 512) = Z.to_nat 512 /\ Forall is_byte (format_fat_sector 512).
Proof.
  split; [done|]. apply Forall_splice; [|apply zeros_bytes].
  repeat (apply Forall_app; split); apply to_le_bytes.
Qed.

Lemma format_device_spec (d : D) b f reserved fat :
  dev_ok d -> block_size d = 512 -> bpb_typed b -> fs_info_typed f ->
  reserved_sector_count b = reserved -> fat_size_32 b = fat -> 2 <= reserved -> 1 <= fat ->
  reserved + fat * 2 + 8 <= block_count d ->
  wp (format_device 512 reserved fat 8 b f) d
    (fun _ d' => dev_ok d' /\ block_size d' = 512 /\ block_count d' = block_count d /\ formatted d' b f).
Proof.
  intros Hok Hs Hb Hf Hrs Hfs Hr Hft Hfit.
  destruct format_fat_sector_ok as [Hfl Hfb].
  pose proof (length_encode_bpb b Hb) as Hlb. pose proof (length_encode_fs_info f Hf) as Hlf.
  unfold format_device. change (512 <? 512) with false. cbn beta iota. wp_step. wp_step. eapply wp_mono.
  { apply write_blocks_spec; [done| |apply Forall_app; split;
      [by apply encode_bpb_bytes|by apply encode_fs_info_bytes]].
    unfold io_args. rewrite length_app, Hlb, Hlf, Hs. lia. }
  intros [] d1 Hw1. pose proof Hw1 as (Hok1 & Hs1 & Hc1 & _).
  wp_step. wp_step. eapply wp_mono; [apply write_zeros_spec; [done|lia..]|].
  intros [] d2 Hw2. pose proof Hw2 as (Hok2 & Hs2 & Hc2 & _).
  wp_step. wp_step. eapply wp_mono.
  { apply write_block_spec; [done| |done]. unfold io_args. rewrite Hfl. lia. }
  intros [] d3 Hw3. pose proof Hw3 as (Hok3 & Hs3 & Hc3 & _).
  wp_step. wp_step. eapply wp_mono.
  { apply write_block_spec; [done| |done]. unfold io_args. rewrite Hfl. lia. }
  intros [] d4 Hw4. pose proof Hw4 as (Hok4 & Hs4 & Hc4 & _).
  wp_step. eapply wp_mono; [apply write_zeros_spec; [done|lia..]|].
  intros [] d5 Hw5. pose proof Hw5 as (Hok5 & Hs5 & Hc5 & _).
  split; [done|]. split; [lia|]. split; [lia|]. rewrite <-Hrs, <-Hfs in *.
  pose proof (fun j => written_other _ _ _ _ _ j Hw2) as O2.
  pose proof (fun j => written_other _ _ _ _ _ j Hw3) as O3.
  pose proof (fun j => written_other _ _ _ _ _ j Hw4) as O4.
  pose proof (fun j => written_other _ _ _ _ _ j Hw5) as O5.
  constructor.
  - rewrite O5, O4, O3, O2 by lia. rewrite (written_in _ _ _ _ _ _ Hw1) by lia.
    rewrite Hs, Z.sub_diag. rewrite slice_app_l by lia. apply slice_full. lia.
  - rewrite O5, O4, O3, O2 by lia. rewrite (written_in _ _ _ _ _ _ Hw1) by lia.
    rewrite Hs. rewrite slice_app_r by lia. rewrite Hlb. apply slice_full. lia.
  - intros k Hk. assert (k = 0 \/ k = 1) as [->| ->] by lia.
    + rewrite Z.mul_0_r, Z.add_0_r. rewrite O5, O4 by lia.
      apply (written_one d2 _ _ _); [|done]. unfold io_args. rewrite Hfl. lia.
    + rewrite Z.mul_1_r. rewrite O5 by lia.
      apply (written_one d3 _ _ _); [|done]. unfold io_args. rewrite Hfl. lia.
  - intros j Hj Hj1 Hj2. rewrite O5, O4, O3 by lia. rewrite (written_in _ _ _ _ _ _ Hw2) by lia.
    replace (block_size d1) with 512 by lia. unfold zeros. apply slice_replicate. lia.
  - intros j Hj. rewrite (written_in _ _ _ _ _ _ Hw5) by lia.
    replace (block_size d4) with 512 by lia. unfold zeros. apply slice_replicate. lia.
Qed.

(** What [with_format] needs of the device: 512-byte blocks, fewer than
    [2^32] of them, enough for two clusters, and a cluster count whose FAT has
    room for the two reserved entries. *)
Definition formattable (d : D) (n rem : Z) : Prop :=
  dev_ok d /\ block_size d = 512 /\ 2 <= block_count d < 2 ^ 32 /\
  calc_cluster_count 2 512 8 (block_count d) = Ok (n, rem) /\
  2 <= n /\ n + 2 <= FAT_ENTRY_RESERVED_START /\ n + 2 <= format_fat_size n 512 * 128.

Lemma formattable_layout (d : D) n rem : formattable d n rem ->
  let fat := format_fat_size n 512 in
  0 <= rem <= 8 /\ 1 <= fat < 2 ^ 32 /\
  2 + rem + fat * 2 + n * 8 <= block_count d < 2 + rem + fat * 2 + n * 8 + 8.
Proof.
  intros (Hok & Hs & Hc & Hcalc & Hn & _ & Hcov) fat.
  destruct (calc_cluster_count_spec 2 512 8 (block_count d)) as (n' & rem' & Hcalc' & _ & Hrem & Hfit & _);
    [lia..|].
  rewrite Hcalc in Hcalc'. injection Hcalc' as <- <-.
  destruct (Hfit ltac:(lia)) as (F & [HF _] & Heq & Htight). change (512 / 4) with 128 in *.
  subst fat. unfold format_fat_size in *. change (512 / 4) with 128 in *. lia.
Qed.

Lemma with_format_run (d : D) n rem : formattable d n rem ->
  wp with_format d (fun s d' => d' = device s /\
    s = mkInner d' (format_bpb 512 8 (2 + rem) (format_fat_size n 512) (block_count d))
          (Some (format_fs_info n)) n ∅ /\
    dev_ok d' /\ block_size d' = 512 /\ block_count d' = block_count d /\
    formatted d' (bpb s) (format_fs_info n)).
Proof.
  intros Hfm. pose proof (formattable_layout d n rem Hfm) as (Hrem & Hfat & Hfit).
  destruct Hfm as (Hok & Hs & Hc & Hcalc & Hn & Hmx & Hcov). unfold FAT_ENTRY_RESERVED_START in Hmx.
  unfold with_format. do 4 wp_step. rewrite Hs.
  rewrite (proj2 (Z.ltb_ge _ _)), (proj2 (Z.ltb_ge _ 2)) by lia.
  change (format_bytes_per_sector 512) with 512.
  wp_step. eapply wp_intro; [unfold lift; by rewrite Hcalc|]. cbn beta iota zeta.
  rewrite (proj2 (Z.ltb_ge n 2)) by lia.
  set (b := format_bpb 512 8 (2 + rem) (format_fat_size n 512) (block_count d)).
  wp_step. eapply wp_mono.
  { apply format_device_spec; [done|done|apply format_bpb_typed|apply format_fs_info_typed|..]; try lia.
    - cbn. apply wrap_small. lia.
    - cbn. apply wrap_small. lia. }
  intros [] d' (Hok' & Hs' & Hc' & Hfmd). wp_step. wp_step. wp_step.
  rewrite (wrap_small 32 n) by lia. by split_and!.
Qed.

(** The geometry of the fresh file system, and what [mount] computes of it. *)
Lemma format_fat_ok (d d' : D) n rem : formattable d n rem ->
  dev_ok d' -> block_size d' = 512 -> block_count d' = block_count d ->
  fat_ok (mkInner d' (format_bpb 512 8 (2 + rem) (format_fat_size n 512) (block_count d))
    (Some (format_fs_info n)) n ∅).
Proof.
  intros Hfm Hok' Hs' Hc'. pose proof (formattable_layout d n rem Hfm) as (Hrem & Hfat & Hfit).
  destruct Hfm as (Hok & Hs & Hc & Hcalc & Hn & Hmx & Hcov).
  constructor; unfold data_start, cluster_per_sector; cbn;
    rewrite ?(wrap_small 16 (2 + rem)), ?(wrap_small 32 (format_fat_size n 512)) by lia;
    change (wrap 16 512) with 512; change (wrap 8 8) with 8; try done; try lia.
  - apply format_bpb_typed.
  - apply format_fs_info_typed.
Qed.

Lemma check_format_bpb bps' reserved fat bc :
  0 < reserved < 2 ^ 16 -> reserved <= bc -> 0 < fat < 2 ^ 32 -> 0 <= bc < 2 ^ 32 -> bps' = 512 ->
  check_bpb (format_bpb bps' 8 reserved fat bc) 512 bc = Ok tt.
Proof.
  intros Hr Hrb Hf Hbc ->. unfold check_bpb, format_bpb; cbn.
  rewrite !wrap_small by lia. rewrite !(proj2 (Z.eqb_neq _ 0)) by lia.
  rewrite (proj2 (Z.ltb_ge bc _)) by lia. by rewrite Z.eqb_refl.
Qed.

Lemma mount_formatted (d d' : D) n rem : formattable d n rem ->
  dev_ok d' -> block_size d' = 512 -> block_count d' = block_count d ->
  let b := format_bpb 512 8 (2 + rem) (format_fat_size n 512) (block_count d) in
  formatted d' b (format_fs_info n) ->
  mount d' = (Ok (mkInner d' b (Some (format_fs_info n)) n ∅), d').
Proof.
  intros Hfm Hok' Hs' Hc' b Hfmd. pose proof (formattable_layout d n rem Hfm) as (Hrem & Hfat & Hfit).
  destruct Hfm as (Hok & Hs & Hc & Hcalc & Hn & Hmx & Hcov). unfold FAT_ENTRY_RESERVED_START in Hmx.
  cut (wp mount d' (fun s d2 => s = mkInner d' b (Some (format_fs_info n)) n ∅ /\ d2 = d')).
  { by intros (s & d2 & -> & -> & ->)%wp_run. }
  assert (Hbb : decode_bpb (encode_bpb b) = b) by (apply decode_encode_bpb, format_bpb_typed).
  assert (Hff : decode_fs_info (encode_fs_info (format_fs_info n)) = format_fs_info n)
    by (apply decode_encode_fs_info, format_fs_info_typed).
  assert (Hres : reserved_sector_count b = 2 + rem) by (cbn; apply wrap_small; lia).
  assert (Hfs : fat_size_32 b = format_fat_size n 512) by (cbn; apply wrap_small; lia).
  unfold mount. do 4 wp_step. rewrite Hs', Hc'.
  rewrite (proj2 (Z.ltb_ge _ _)), (proj2 (Z.ltb_ge _ 2)) by lia.
  wp_step. wp_step. eapply wp_intro.
  { apply read_block_spec; [done|]. unfold io_args. rewrite Hs', length_zeros. lia. }
  rewrite (fm_boot _ _ _ Hfmd), Hbb. wp_step. eapply wp_intro.
  { unfold lift. subst b. rewrite check_format_bpb by lia. done. }
  rewrite Hres, (proj2 (Z.ltb_lt _ _)) by (cbn; lia).
  wp_step. wp_step. wp_step. eapply wp_intro.
  { apply read_block_spec; [done|]. unfold io_args. rewrite Hs', length_zeros. cbn. lia. }
  change (bpb_fs_info b) with 1. rewrite (fm_info _ _ _ Hfmd), Hff.
  wp_step. cbn beta iota. wp_step. eapply wp_intro; [done|]. cbn beta. rewrite Hfs.
  change (bytes_per_sector b) with 512. change (num_fats b) with 2. change (sectors_per_cluster b) with 8.
  wp_step. wp_step; [lia|]. wp_step. wp_step; [lia|]. wp_step. wp_step; [lia|].
  wp_step. wp_step. wp_step. split; [|done]. f_equal.
  rewrite Z.min_r by lia.
  replace ((block_count d - (2 + rem) - format_fat_size n 512 * 2) / 8) with n by lia.
  apply wrap_small. lia.
Qed.
End geometry.

(** ** Properties *)
Section format_properties.
  Context {D : Type} `{BlockDevice D, !BlockDeviceSpec D}.

(** Formatting a device with 512-byte blocks yields a well-formed file
    system with the computed number of clusters, laid out on the device as
    [formatted] says, and mounting the device afterwards gives exactly the
    state that formatting returned. *)
Theorem with_format_mount (d : D) n rem : formattable d n rem ->
  exists s, with_format d = (Ok s, device s) /\ fat_ok s /\ max_cluster s = n /\
    fs_info s = Some (format_fs_info n) /\ occupied_file s = ∅ /\
    formatted (device s) (bpb s) (format_fs_info n) /\
    mount (device s) = (Ok s, device s).
Proof.
  intros Hfm. destruct (wp_run _ _ _ (with_format_run d n rem Hfm))
    as (s & d' & Hrun & -> & Hs & Hok & Hsz & Hc & Hfmd).
  exists s. split; [done|]. pose proof (format_fat_ok d (device s) n rem Hfm Hok Hsz Hc) as Hfok.
  pose proof (mount_formatted d (device s) n rem Hfm Hok Hsz Hc) as Hmount.
  rewrite Hs in Hfmd. cbn in Hfmd. rewrite <-Hs in Hfok. specialize (Hmount Hfmd).
  rewrite <-Hs in Hmount. split_conj; try done; rewrite Hs; done.
Qed.
End format_properties.

(** The FAT that [with_format] lays out forgets the two reserved entries:
    it is too small for the clusters exactly when their number, divided by the
    entries of a FAT sector, leaves a remainder of none or of all but one. *)
Theorem format_fat_size_too_small n bps :
  8 <= bps -> 0 < n ->
  format_fat_size n bps * (bps / 4) < n + 2 <->
  n `mod` (bps / 4) = 0 \/ n `mod` (bps / 4) = bps / 4 - 1.
Proof.
  intros Hb Hn. unfold format_fat_size. set (k := bps / 4). assert (2 <= k) by (subst k; lia). clearbody k.
  pose proof (Z.div_mod n k ltac:(lia)) as Hd. pose proof (Z.mod_pos_bound n k ltac:(lia)) as Hm.
  destruct (decide (n `mod` k = 0)) as [H0|H0].
  - assert ((n + k - 1) / k = n / k) as ->.
    { symmetry. apply (Z.div_unique _ _ _ (k - 1)); lia. }
    rewrite H0, Z.add_0_r in Hd. rewrite Z.mul_comm, <-Hd. lia.
  - assert ((n + k - 1) / k = n / k + 1) as ->.
    { symmetry. apply (Z.div_unique _ _ _ (n `mod` k - 1)); lia. }
    rewrite Z.mul_add_distr_r, (Z.mul_comm (n / k)). lia.
Qed.

(** ** The file system of the source's tests: 28 blocks of 512 bytes *)

Lemma demo_formattable : formattable (zero_disk 512 28) 3 0.
Proof. split; [by apply zero_disk_ok|]. split_conj; vm_compute; done. Qed.

Definition demo_fs : Fat32Inner MemoryDevice :=
  match with_format (zero_disk 512 28) with
  | (Ok s, _) => s
  | (_, d) => mkInner d (decode_bpb []) None 0 ∅
  end.

Lemma demo_fs_run :
  with_format (zero_disk 512 28) = (Ok demo_fs, device demo_fs) /\ fat_ok demo_fs /\
  formatted (device demo_fs) (bpb demo_fs) (format_fs_info 3) /\
  fs_info demo_fs = Some (format_fs_info 3) /\ max_cluster demo_fs = 3.
Proof.
  destruct (wp_run _ _ _ (with_format_run _ _ _ demo_formattable))
    as (s & d' & Hrun & -> & Hs & Hok & Hsz & Hc & Hfmd).
  pose proof (format_fat_ok _ (device s) _ _ demo_formattable Hok Hsz Hc) as Hfok.
  rewrite <-Hs in Hfok. unfold demo_fs. rewrite Hrun. clear Hrun. split_conj; try done; by rewrite Hs.
Qed.

Lemma with_format_mount_witness :
  exists s : Fat32Inner MemoryDevice,
    with_format (zero_disk 512 28) = (Ok s, device s) /\ max_cluster s = 3 /\
    mount (device s) = (Ok s, device s).
Proof.
  destruct (with_format_mount (zero_disk 512 28) 3 0 demo_formattable)
    as (s & H1 & _ & H2 & _ & _ & _ & H3).
  exists s. split; [exact H1|]. split; [exact H2|exact H3].
Defined.

Lemma format_fat_size_too_small_witness :
  calc_cluster_count 2 512 8 1022 = Ok (127, 0) /\ format_fat_size 127 512 * (512 / 4) < 127 + 2.
Proof.
  split; [reflexivity|].
  apply (proj2 (format_fat_size_too_small 127 512 ltac:(lia) ltac:(lia))). right. reflexivity.
Defined.
