(* ===== verification/Fat32Table.v ===== *)
(** * FAT32: the allocation table (library/filesystem/src/fs/fat32.rs)

    The operations on the allocation table of a mounted file system: following a chain, allocating and freeing a
    cluster, writing an entry to every copy of the table. The [RwLock] around
    the state is held for the whole of an operation, so an operation is one
    step on the state.

    [fat s c] is the entry of cluster [c]; the theorems say what each
    operation does to this function and that it leaves the data clusters
    alone. *)
From S2P Require Import Prelude Text Device MemoryDevice Fat32Types Fat32Format.

Section fat_ops.
  Context {D : Type} `{!BlockDevice D}.

Definition FsM (A : Type) : Type := M (Fat32Inner D) FileSystemError A.

(** [self.device.op(..).await?]: the device's error becomes an [IoError]. *)
Definition on_device {A} (m : M D BlockDeviceError A) : FsM A :=
  zoom device set_device (map_err FsIoError m).

Definition is_end (limit cluster : Z) : bool :=
  (cluster =? FAT_ENTRY_FREE) || (limit <=? cluster).

Definition get_sector_by_cluster (cluster : Z) : FsM Z :=
  s ← gets id;
  limit ← checked 32 (max_cluster s + 2);
  rust_assert ((2 <=? cluster) && (cluster <? limit));;
  mret (reserved_sector_count (bpb s) + fat_size_32 (bpb s) * 2
        + (cluster - 2) * sectors_per_cluster (bpb s)).

(** Where the entry of a cluster is: the block of the first FAT, and the index
    of the entry in it. *)
Definition entry_location (cluster : Z) : FsM (Z * Z) :=
  s ← gets id;
  let cluster_per_sector := bytes_per_sector (bpb s) / 4 in
  rust_assert (negb (cluster_per_sector =? 0));;
  mret (reserved_sector_count (bpb s) + cluster / cluster_per_sector,
        cluster `mod` cluster_per_sector).

(** [read_unaligned(ptr.add(offset))] and [write_unaligned] of a [FatEntry]. *)
Definition read_entry (buffer : list Z) (offset : Z) : Z :=
  from_le (slice (Z.to_nat (offset * 4)) 4 buffer).
Definition write_entry (buffer : list Z) (offset entry : Z) : list Z :=
  splice (Z.to_nat (offset * 4)) (to_le 4 entry) buffer.

Definition get_next_cluster (cluster : Z) : FsM Z :=
  '(block_index, offset) ← entry_location cluster;
  size ← gets (fun s => block_size (device s));
  buffer ← on_device (read_block block_index (zeros size));
  mret (read_entry buffer offset).

(** The copies of a FAT sector: [for i in 0..self.bpb.num_fats]. *)
Definition write_all_fats (block_index : Z) (buffer : list Z) : FsM unit :=
  b ← gets bpb;
  for_range 0 (Z.to_nat (num_fats b)) (fun i _ =>
    on_device (write_block (block_index + fat_size_32 b * Z.of_nat i) buffer)) tt.

Definition update_cluster (cluster entry : Z) : FsM unit :=
  '(block_index, offset) ← entry_location cluster;
  size ← gets (fun s => block_size (device s));
  buffer ← on_device (read_block block_index (zeros size));
  write_all_fats block_index (write_entry buffer offset entry).

Definition write_fs_info : FsM unit :=
  info ← gets fs_info;
  match info with
  | None => mret tt
  | Some f =>
      size ← gets (fun s => block_size (device s));
      b ← gets bpb;
      on_device (write_block (bpb_fs_info b) (splice 0 (encode_fs_info f) (zeros size)))
  end.

Definition set_free_count (f : FSInfo) (n : Z) : FSInfo :=
  mkFSInfo (lead_signature f) (fi_reserved1 f) (struct_signature f) n (next_free_cluster f)
    (fi_reserved2 f) (trail_signature f).

(** [fs_info.free_cluster_count = n; self.write_fs_info().await?]. *)
Definition store_free_count (f : FSInfo) (n : Z) : FsM unit :=
  modify (set_fs_info (Some (set_free_count f n)));;
  write_fs_info.

Definition free_cluster (cluster : Z) : FsM unit :=
  update_cluster cluster FAT_ENTRY_FREE;;
  info ← gets fs_info;
  match info with
  | None => mret tt
  | Some f =>
      n ← checked 32 (free_cluster_count f + 1);
      store_free_count f n
  end.

(** The loop of [find_available_cluster]; [cache] is the block that is in
    [cache_buffer]. *)
Fixpoint find_loop (fuel : nat) (hint : option Z) (current_cluster end_ : Z)
    (cache : option Z) (cache_buffer : list Z) : FsM Z :=
  match fuel with
  | O => diverge
  | S fuel =>
      if end_ <=? current_cluster then
        match hint with
        | Some hint => find_loop fuel (Some hint) 2 hint cache cache_buffer
        | None =>
            info ← gets fs_info;
            match info with
            | Some f =>
                store_free_count f 0;;
                throw DiskFull
            | None => throw DiskFull
            end
        end
      else
        '(block_index, offset) ← entry_location current_cluster;
        cache_buffer ←
          (if decide (cache = Some block_index) then mret cache_buffer
           else on_device (read_block block_index cache_buffer));
        if negb (read_entry cache_buffer offset =? FAT_ENTRY_FREE) then
          next ← checked 32 (current_cluster + 1);
          find_loop fuel hint next end_ (Some block_index) cache_buffer
        else
          write_all_fats block_index (write_entry cache_buffer offset FAT_ENTRY_EOC_START);;
          info ← gets fs_info;
          match info with
          | Some f =>
              n ← checked 32 (free_cluster_count f - 1);
              store_free_count f n;;
              mret current_cluster
          | None => mret current_cluster
          end
  end.

Definition find_available_cluster (fuel : nat) : FsM Z :=
  info ← gets fs_info;
  if (match info with Some f => free_cluster_count f =? 0 | None => false end)
  then throw DiskFull
  else
    let hint := next_free_cluster <$> info in
    max ← gets max_cluster;
    end_ ← checked 32 (max + 2);
    size ← gets (fun s => block_size (device s));
    find_loop fuel hint (default 2 hint) end_ None (zeros size).

(** [get_allocated_size]: the clusters of a chain, in bytes. *)
Fixpoint count_clusters (fuel : nat) (cluster cluster_count : Z) : FsM Z :=
  match fuel with
  | O => diverge
  | S fuel =>
      if is_end FAT_ENTRY_RESERVED_START cluster then mret cluster_count
      else
        n ← checked 64 (cluster_count + 1);
        next ← get_next_cluster cluster;
        count_clusters fuel next n
  end.

Definition get_allocated_size (fuel : nat) (cluster : Z) : FsM Z :=
  n ← count_clusters fuel cluster 0;
  b ← gets bpb;
  checked 64 (n * bytes_per_sector b * sectors_per_cluster b).

(** The loop that [delete_file] and [delete_directory] end with. *)
Fixpoint free_chain (fuel : nat) (cluster : Z) : FsM unit :=
  match fuel with
  | O => diverge
  | S fuel =>
      if is_end FAT_ENTRY_RESERVED_START cluster then mret tt
      else
        next ← get_next_cluster cluster;
        free_cluster cluster;;
        free_chain fuel next
  end.
End fat_ops.
Arguments FsM D A : clear implicits.

(** ** What the table holds, and when the file system is well formed *)
Section fat_spec.
  Context {D : Type} `{BlockDevice D, !BlockDeviceSpec D}.
  Implicit Types s : Fat32Inner D.

(** The block of the first FAT with the entry of cluster [c]. *)
Definition fat_block s (c : Z) : Z := reserved_sector_count (bpb s) + c / cluster_per_sector s.

(** The entry of cluster [c]. *)
Definition fat s (c : Z) : Z := read_entry (blk (device s) (fat_block s c)) (c `mod` cluster_per_sector s).

(** Every copy of the FAT is the first one. *)
Definition mirrored s : Prop :=
  forall k t, 0 <= k < num_fats (bpb s) -> 0 <= t < fat_size_32 (bpb s) ->
    blk (device s) (reserved_sector_count (bpb s) + t + fat_size_32 (bpb s) * k)
      = blk (device s) (reserved_sector_count (bpb s) + t).

Definition same_meta s s' : Prop :=
  bpb s' = bpb s /\ max_cluster s' = max_cluster s /\ occupied_file s' = occupied_file s /\
  block_size (device s') = block_size (device s) /\
  block_count (device s') = block_count (device s).

(** The FSInfo block holds FSInfo as it is in memory. *)
Definition info_stored s : Prop :=
  match fs_info s with
  | Some f => blk (device s) (bpb_fs_info (bpb s)) = splice 0 (encode_fs_info f) (zeros (block_size (device s)))
  | None => True
  end.

(** A change of the table: only FAT blocks and the FSInfo block are written,
    the copies stay equal, the entries are those of [f], and the FSInfo block
    is up to date if it was. *)
Definition table_step s (f : Z -> Z) s' : Prop :=
  same_meta s s' /\ fat_ok s' /\ (mirrored s -> mirrored s') /\
  (forall j, 0 <= j < block_count (device s) -> j < reserved_sector_count (bpb s) \/ data_start s <= j ->
     j <> bpb_fs_info (bpb s) -> blk (device s') j = blk (device s) j) /\
  (forall c, 0 <= c < max_cluster s + 2 -> fat s' c = f c) /\
  (info_stored s -> info_stored s').

Definition upd (f : Z -> Z) (c e : Z) : Z -> Z := fun c' => if decide (c' = c) then e else f c'.

(** ** Lemmas: geometry *)

Lemma fat_block_range s c : fat_ok s -> 0 <= c < max_cluster s + 2 ->
  reserved_sector_count (bpb s) <= fat_block s c < reserved_sector_count (bpb s) + fat_size_32 (bpb s) /\
  0 <= c `mod` cluster_per_sector s < cluster_per_sector s.
Proof.
  intros Hok Hc. destruct (fat_ok_bounds s Hok) as (? & ? & ? & ? & ? & ? & ?).
  pose proof (ok_cover _ Hok). unfold fat_block. split.
  - split; [pose proof (Z.div_pos c (cluster_per_sector s)); lia|].
    assert (c / cluster_per_sector s < fat_size_32 (bpb s)); [|lia].
    apply Z.div_lt_upper_bound; lia.
  - apply Z.mod_pos_bound. lia.
Qed.

Lemma entry_location_run s c : fat_ok s ->
  entry_location c s = (Ok (fat_block s c, c `mod` cluster_per_sector s), s).
Proof.
  intros Hok. destruct (fat_ok_bounds s Hok) as (? & ? & ? & ? & ? & ? & ?).
  unfold entry_location, gets, mbind, M_bind, rust_assert. cbn [id].
  fold (cluster_per_sector s). by rewrite (proj2 (Z.eqb_neq _ _)) by lia.
Qed.

Lemma read_device s i n : fat_ok s -> 0 <= i < block_count (device s) ->
  length n = Z.to_nat (block_size (device s)) ->
  on_device (read_block i n) s = (Ok (blk (device s) i), s).
Proof.
  intros Hok Hi Hl. unfold on_device, zoom, map_err.
  rewrite read_block_spec; [by destruct s|apply (ok_dev _ Hok)|].
  unfold io_args. rewrite Hl. lia.
Qed.

(** Following a chain reads the table. *)
Lemma get_next_cluster_run s c : fat_ok s -> 0 <= c < max_cluster s + 2 ->
  get_next_cluster c s = (Ok (fat s c), s).
Proof.
  intros Hok Hc. unfold get_next_cluster, mbind, M_bind. rewrite entry_location_run by done.
  unfold gets. destruct (fat_block_range s c Hok Hc) as [? ?].
  destruct (fat_ok_bounds s Hok) as (? & ? & ? & ? & ? & ? & ?). unfold data_start in *.
  rewrite read_device; [done|done|lia|apply length_zeros].
Qed.

Lemma get_sector_run s c : fat_ok s -> is_cluster s c ->
  get_sector_by_cluster c s = (Ok (cluster_block s c), s).
Proof.
  intros Hok [? ?]. unfold get_sector_by_cluster, gets, mbind, M_bind, checked, fits. cbn [id].
  pose proof (ok_max _ Hok) as [? Hm]. unfold FAT_ENTRY_RESERVED_START in Hm.
  rewrite (proj2 (Z.leb_le _ _)), (proj2 (Z.ltb_lt _ _)) by lia. cbn.
  rewrite (proj2 (Z.leb_le _ _)), (proj2 (Z.ltb_lt c _)) by lia. done.
Qed.

Lemma cluster_block_range s c : fat_ok s -> is_cluster s c ->
  data_start s <= cluster_block s c /\
  cluster_block s c + sectors_per_cluster (bpb s) <= block_count (device s).
Proof.
  intros Hok Hc. pose proof (ok_fits _ Hok). pose proof (ok_spc _ Hok).
  unfold cluster_block, is_cluster in *. nia.
Qed.

(** ** Lemmas: writing *)

Lemma write_all_fats_spec s bi buffer :
  fat_ok s -> reserved_sector_count (bpb s) <= bi < reserved_sector_count (bpb s) + fat_size_32 (bpb s) ->
  length buffer = Z.to_nat (block_size (device s)) -> Forall is_byte buffer ->
  wp (write_all_fats bi buffer) s (fun _ s' =>
    exists d', s' = set_device d' s /\ dev_ok d' /\
      block_size d' = block_size (device s) /\ block_count d' = block_count (device s) /\
      (forall k, 0 <= k < num_fats (bpb s) -> blk d' (bi + fat_size_32 (bpb s) * k) = buffer) /\
      (forall j, 0 <= j < block_count (device s) ->
         (forall k, 0 <= k < num_fats (bpb s) -> j <> bi + fat_size_32 (bpb s) * k) ->
         blk d' j = blk (device s) j)).
Proof.
  intros Hok Hbi Hl Hb. destruct (fat_ok_bounds s Hok) as (? & ? & ? & ? & ? & ? & ?).
  pose proof (ok_fats _ Hok) as Hnf. unfold data_start in *.
  unfold write_all_fats. wp_step. wp_step.
  eapply wp_mono; [apply (wp_for_range (fun i _ s' =>
    exists d', s' = set_device d' s /\ dev_ok d' /\
      block_size d' = block_size (device s) /\ block_count d' = block_count (device s) /\
      (forall k, 0 <= k < Z.of_nat i -> blk d' (bi + fat_size_32 (bpb s) * k) = buffer) /\
      (forall j, 0 <= j < block_count (device s) ->
         (forall k, 0 <= k < Z.of_nat i -> j <> bi + fat_size_32 (bpb s) * k) ->
         blk d' j = blk (device s) j)))|].
  - exists (device s). split_and!; try done; [by destruct s|apply (ok_dev _ Hok)|].
    intros k Hk. lia.
  - intros i [] s' Hi (d & -> & Hd & Hs & Hc & Hin & Hout). unfold on_device.
    wp_step. wp_step. cbn [device set_device].
    assert (Hr : 0 <= bi + fat_size_32 (bpb s) * Z.of_nat i < block_count (device s)).
    { assert (Z.of_nat i = 0 \/ Z.of_nat i = 1) as [->| ->] by lia; lia. }
    eapply wp_mono.
    { apply write_block_spec; [done| |done]. unfold io_args. rewrite Hs, Hc, Hl. lia. }
    intros [] d' Hw. pose proof Hw as (Hd' & Hs' & Hc' & _).
    exists d'. split; [by destruct s|]. split; [done|]. split; [congruence|]. split; [congruence|].
    rewrite Nat2Z.inj_succ. split.
    + intros k Hk. destruct (decide (k = Z.of_nat i)) as [->|].
      * apply (written_one d _ buffer d'); [|done]. unfold io_args. rewrite Hs, Hc, Hl. lia.
      * rewrite (written_other d _ _ _ _ _ Hw); [apply Hin; lia| |nia].
        rewrite Hc. assert (k = 0) as -> by lia. lia.
    + intros j Hj Hk. rewrite (written_other d _ _ _ _ _ Hw).
      * apply Hout; [done|]. intros k Hk'. apply Hk. lia.
      * by rewrite Hc.
      * specialize (Hk (Z.of_nat i) ltac:(lia)). lia.
  - intros _ s' (d' & -> & Hd & Hs & Hc & Hin & Hout). exists d'.
    rewrite Nat.add_0_l, Z2Nat.id in * by lia. done.
Qed.

Lemma length_write_entry buf o e :
  0 <= o -> (Z.to_nat (o * 4) + 4 <= length buf)%nat -> length (write_entry buf o e) = length buf.
Proof. intros. unfold write_entry. apply length_splice. rewrite length_to_le. lia. Qed.

Lemma write_entry_bytes buf o e : Forall is_byte buf -> Forall is_byte (write_entry buf o e).
Proof. intros. apply Forall_splice; [apply to_le_bytes|done]. Qed.

Lemma read_write_entry buf o o' e :
  0 <= o -> 0 <= o' -> 0 <= e < 2 ^ 32 -> (Z.to_nat (o * 4) + 4 <= length buf)%nat ->
  read_entry (write_entry buf o e) o' = if decide (o' = o) then e else read_entry buf o'.
Proof.
  intros Ho Ho' He Hl. unfold read_entry, write_entry. case_decide as Heq.
  - subst. rewrite slice_splice_eq'; [|done|lia]. by apply from_to_le.
  - rewrite slice_splice_ne; [done|rewrite length_to_le; lia|rewrite length_to_le; lia].
Qed.

Lemma fat_bound s c : fat_ok s -> 0 <= c < max_cluster s + 2 -> 0 <= fat s c < 2 ^ 32.
Proof.
  intros Hok Hc. destruct (fat_block_range s c Hok Hc) as [Hb Hm].
  destruct (fat_ok_bounds s Hok) as (? & ? & ? & ? & ? & ? & ?). unfold data_start in *.
  pose proof (ok_bps _ Hok). unfold fat, read_entry.
  set (b := blk (device s) (fat_block s c)).
  assert (length b = Z.to_nat (block_size (device s))) as Hlb
    by (apply blk_length; [apply (ok_dev _ Hok)|lia]).
  assert (Forall is_byte b) as Hbb by (apply blk_bytes; [apply (ok_dev _ Hok)|lia]).
  pose proof (from_le_bound (slice (Z.to_nat (c `mod` cluster_per_sector s * 4)) 4 b)) as Hf.
  rewrite length_slice in Hf by lia. apply Hf. by apply Forall_take, Forall_drop.
Qed.

(** Writing one entry of a FAT sector to all copies. *)
Lemma write_entry_all_spec s c e :
  fat_ok s -> 0 <= c < max_cluster s + 2 -> 0 <= e < 2 ^ 32 ->
  wp (write_all_fats (fat_block s c)
       (write_entry (blk (device s) (fat_block s c)) (c `mod` cluster_per_sector s) e)) s
    (fun _ s' => table_step s (upd (fat s) c e) s' /\ fs_info s' = fs_info s).
Proof.
  intros Hok Hc He. destruct (fat_block_range s c Hok Hc) as [Hb Hm].
  destruct (fat_ok_bounds s Hok) as (? & ? & ? & ? & ? & ? & ?).
  pose proof (ok_bps _ Hok). pose proof (ok_fats _ Hok) as Hnf. unfold data_start in *.
  set (old := blk (device s) (fat_block s c)).
  assert (length old = Z.to_nat (block_size (device s))) as Hlb
    by (apply blk_length; [apply (ok_dev _ Hok)|lia]).
  assert (Forall is_byte old) as Hbb by (apply blk_bytes; [apply (ok_dev _ Hok)|lia]).
  set (new := write_entry old (c `mod` cluster_per_sector s) e).
  eapply wp_mono.
  { apply write_all_fats_spec; [done|done| |by apply write_entry_bytes].
    subst new. rewrite length_write_entry; [done|lia|lia]. }
  intros [] s' (d' & -> & Hd & Hs & Hc' & Hin & Hout). split; [|done].
  split; [by split_and!|]. split; [by apply fat_ok_set_device|].
  unfold data_start. cbn [bpb device set_device]. split_and!.
  - intros Hmir k t Hk Ht. unfold mirrored in *. cbn in *.
    destruct (decide (reserved_sector_count (bpb s) + t = fat_block s c)) as [Heq|Hne].
    + pose proof (Hin 0 ltac:(lia)) as Hin0. rewrite Z.mul_0_r, Z.add_0_r in Hin0.
      rewrite Heq, Hin, Hin0 by lia. done.
    + rewrite !Hout; [by apply Hmir|lia| |..].
      * intros k' Hk'. assert (k' = 0 \/ k' = 1) as [->| ->] by lia; assert (k = 0 \/ k = 1) as [->| ->] by lia; lia.
      * assert (k = 0 \/ k = 1) as [->| ->] by lia; lia.
      * intros k' Hk'. assert (k = 0 \/ k = 1) as [->| ->] by lia;
          assert (k' = 0 \/ k' = 1) as [->| ->] by lia; lia.
  - intros j Hj Hreg _. apply Hout; [done|]. intros k Hk.
    assert (k = 0 \/ k = 1) as [->| ->] by lia; lia.
  - intros c' Hc''. destruct (fat_block_range s c' Hok Hc'') as [Hb' Hm'].
    unfold fat, fat_block, upd. cbn [bpb device set_device].
    change (cluster_per_sector (set_device d' s)) with (cluster_per_sector s).
    change (reserved_sector_count (bpb s) + c' / cluster_per_sector s) with (fat_block s c').
    destruct (decide (fat_block s c' = fat_block s c)) as [Heq|Hne].
    + pose proof (Hin 0 ltac:(lia)) as Hin0. rewrite Z.mul_0_r, Z.add_0_r in Hin0.
      rewrite Heq, Hin0. subst new. rewrite read_write_entry by lia.
      assert (Hq : c' / cluster_per_sector s = c / cluster_per_sector s) by (unfold fat_block in Heq; lia).
      pose proof (Z.div_mod c (cluster_per_sector s) ltac:(lia)).
      pose proof (Z.div_mod c' (cluster_per_sector s) ltac:(lia)).
      repeat case_decide; try done; [congruence|congruence].
    + rewrite decide_False by congruence. rewrite Hout; [done|lia|].
      intros k Hk. assert (k = 0 \/ k = 1) as [->| ->] by lia; lia.
  - pose proof (ok_info_sector _ Hok). unfold info_stored. cbn [fs_info bpb device set_device].
    rewrite Hs, Hout; [done|lia|]. intros k Hk. assert (k = 0 \/ k = 1) as [->| ->] by lia; lia.
Qed.

(** Writing FSInfo leaves the table alone. *)
Lemma write_fs_info_spec s :
  fat_ok s -> wp write_fs_info s (fun _ s' => table_step s (fat s) s' /\ fs_info s' = fs_info s /\ info_stored s').
Proof.
  intros Hok. unfold write_fs_info. wp_step. wp_step.
  destruct (fs_info s) as [f|] eqn:Hf.
  2: { apply wp_ret. split_conj; try done. unfold info_stored. by rewrite Hf. }
  pose proof (ok_info _ Hok) as Hft. rewrite Hf in Hft.
  destruct (fat_ok_bounds s Hok) as (? & ? & ? & ? & ? & ? & ?).
  pose proof (ok_info_sector _ Hok). pose proof (ok_bps _ Hok).
  do 4 wp_step. unfold on_device. wp_step. wp_step.
  assert (Hl : length (splice 0 (encode_fs_info f) (zeros (block_size (device s))))
    = Z.to_nat (block_size (device s))).
  { pose proof (length_encode_fs_info f Hft). pose proof (length_zeros (block_size (device s))).
    rewrite length_splice; lia. }
  eapply wp_mono.
  { apply write_block_spec; [apply (ok_dev _ Hok)| |].
    - unfold io_args, data_start in *. rewrite Hl. lia.
    - apply Forall_splice; [by apply encode_fs_info_bytes|apply zeros_bytes]. }
  intros [] d' Hw. pose proof Hw as (Hd & Hs & Hc & _).
  assert (Hst : info_stored (set_device d' s)).
  { unfold info_stored. cbn [fs_info bpb device set_device]. rewrite Hf, Hs.
    apply (written_one (device s) _ _ d'); [|done]. unfold io_args, data_start in *. rewrite Hl. lia. }
  split; [|by split; [|exact Hst]].
  split; [by split_and!|]. split; [by apply fat_ok_set_device|].
  assert (Hkeep : forall j, 0 <= j < block_count (device s) -> j <> bpb_fs_info (bpb s) ->
    blk d' j = blk (device s) j).
  { intros j Hj Hne. apply (written_other _ _ _ _ _ _ Hw); lia. }
  cbn [bpb device set_device]. unfold data_start in *. split_and!.
  - intros Hmir k t Hk Ht. cbn in *. pose proof (ok_fats _ Hok).
    specialize (Hmir k t Hk Ht).
    assert (k = 0 \/ k = 1) as [->| ->] by lia; rewrite !Hkeep by lia; exact Hmir.
  - intros j Hj _ Hne. by apply Hkeep.
  - intros c Hc'. destruct (fat_block_range s c Hok Hc') as [Hb _].
    unfold fat. cbn [device set_device]. f_equal. apply Hkeep; [|change (fat_block s c <> bpb_fs_info (bpb s)); lia].
    change (0 <= fat_block s c < block_count (device s)). lia.
  - done.
Qed.

Lemma table_step_ok s f s' : table_step s f s' -> fat_ok s'.
Proof. by intros (_ & ? & _). Qed.

Lemma table_step_meta s f s' : table_step s f s' -> same_meta s s'.
Proof. by intros (? & _). Qed.

Lemma table_step_fat s f s' c :
  table_step s f s' -> 0 <= c < max_cluster s + 2 -> fat s' c = f c.
Proof. intros (_ & _ & _ & _ & Hf & _) Hc. by apply Hf. Qed.

Lemma table_step_data s f s' j : fat_ok s ->
  table_step s f s' -> data_start s <= j < block_count (device s) -> blk (device s') j = blk (device s) j.
Proof.
  intros Hok (_ & _ & _ & Hd & _) Hj.
  destruct (fat_ok_bounds s Hok) as (? & ? & ? & ? & ? & ? & ?). pose proof (ok_info_sector _ Hok).
  unfold data_start in *. apply Hd; lia.
Qed.

Lemma table_step_refl s : fat_ok s -> table_step s (fat s) s.
Proof. intros. split_conj; try done; by split_and!. Qed.

Lemma same_meta_trans s1 s2 s3 : same_meta s1 s2 -> same_meta s2 s3 -> same_meta s1 s3.
Proof. unfold same_meta. intros (?&?&?&?&?) (?&?&?&?&?). split_and!; congruence. Qed.

Lemma table_step_trans s f s1 g s2 h :
  table_step s f s1 -> table_step s1 g s2 ->
  (forall c, 0 <= c < max_cluster s + 2 -> g c = h c) -> table_step s h s2.
Proof.
  intros (Hm1 & _ & Hi1 & Hd1 & _ & Ht1) (Hm2 & Hok2 & Hi2 & Hd2 & Hf2 & Ht2) Hgh.
  pose proof Hm1 as (Hb & Hmax & _ & _ & Hbc).
  split; [by eapply same_meta_trans|]. split; [done|]. split; [auto|]. split_conj; [| |auto].
  - intros j Hj Hr Hne. unfold data_start in *. rewrite Hb in *. rewrite Hbc in *.
    rewrite Hd2, Hd1 by done. done.
  - intros c Hc. rewrite Hf2 by (rewrite Hmax; done). by apply Hgh.
Qed.

Lemma fat_ok_set_fs_info s f : fat_ok s -> fs_info_typed f -> fat_ok (set_fs_info (Some f) s).
Proof. intros [] Hf. by constructor. Qed.

Lemma table_step_set_fs_info s i f s' :
  table_step (set_fs_info i s) f s' -> info_stored s' -> table_step s f s'.
Proof. by intros (? & ? & ? & ? & ? & _) ?. Qed.

Lemma update_cluster_spec s c e :
  fat_ok s -> 0 <= c < max_cluster s + 2 -> 0 <= e < 2 ^ 32 ->
  wp (update_cluster c e) s (fun _ s' =>
    table_step s (upd (fat s) c e) s' /\ fs_info s' = fs_info s).
Proof.
  intros Hok Hc He. unfold update_cluster. wp_step.
  eapply wp_intro; [by apply entry_location_run|]. cbn beta iota. wp_step. wp_step. wp_step.
  destruct (fat_block_range s c Hok Hc) as [? ?].
  destruct (fat_ok_bounds s Hok) as (? & ? & ? & ? & ? & ? & ?). unfold data_start in *.
  eapply wp_intro; [apply read_device; [done|lia|apply length_zeros]|].
  by apply write_entry_all_spec.
Qed.

(** Store a new free count, in memory and on disk. *)
Lemma store_free_count_spec s f n :
  fat_ok s -> fs_info s = Some f -> 0 <= n < 2 ^ 32 ->
  wp (store_free_count f n) s (fun _ s' =>
    table_step s (fat s) s' /\ fs_info s' = Some (set_free_count f n)).
Proof.
  intros Hok Hf Hn.
  assert (Ht : fs_info_typed (set_free_count f n)).
  { pose proof (ok_info _ Hok) as Ht. rewrite Hf in Ht. unfold fs_info_typed in *.
    cbn. destruct Ht as (?&?&?&?&?&?&?). split_conj; done. }
  unfold store_free_count. wp_step. wp_step.
  eapply wp_mono; [by apply write_fs_info_spec, fat_ok_set_fs_info|].
  intros [] s' (Hs & Hi & Hst). split; [|by rewrite Hi].
  by apply (table_step_set_fs_info _ _ _ _ Hs).
Qed.

(** The free count after [delta] more clusters are free. *)
Definition info_after (delta : Z) (info : option FSInfo) : option FSInfo :=
  (fun f => set_free_count f (free_cluster_count f + delta)) <$> info.

Definition count_in_range (delta : Z) s : Prop :=
  match fs_info s with Some f => 0 <= free_cluster_count f + delta < 2 ^ 32 | None => True end.

Lemma free_cluster_spec s c :
  fat_ok s -> 0 <= c < max_cluster s + 2 -> count_in_range 1 s ->
  wp (free_cluster c) s (fun _ s' =>
    table_step s (upd (fat s) c FAT_ENTRY_FREE) s' /\ fs_info s' = info_after 1 (fs_info s)).
Proof.
  intros Hok Hc Hn. unfold free_cluster. wp_step.
  eapply wp_mono; [apply update_cluster_spec; [done|done|unfold FAT_ENTRY_FREE; lia]|].
  intros [] s1 [Hs1 Hi1]. wp_step. wp_step. rewrite Hi1. unfold count_in_range in Hn.
  destruct (fs_info s) as [f|]; [|by apply wp_ret].
  wp_step. wp_step; [lia|].
  eapply wp_mono; [apply store_free_count_spec; [apply (table_step_ok _ _ _ Hs1)|done|lia]|].
  intros [] s2 [Hs2 Hi2]. split; [|done]. apply (table_step_trans _ _ _ _ _ _ Hs1 Hs2).
  intros c' Hc'. by apply (table_step_fat _ _ _ _ Hs1).
Qed.

(** ** Lemmas: the search for a free cluster *)

Definition cache_ok s (cache : option Z) (buf : list Z) : Prop :=
  length buf = Z.to_nat (block_size (device s)) /\
  match cache with Some b => buf = blk (device s) b | None => True end.

Lemma find_read s (c : Z) cache buf :
  fat_ok s -> 0 <= c < max_cluster s + 2 -> cache_ok s cache buf ->
  (if decide (cache = Some (fat_block s c)) then mret buf
   else on_device (read_block (fat_block s c) buf)) s = (Ok (blk (device s) (fat_block s c)), s).
Proof.
  intros Hok Hc [Hl Hcache]. case_decide as Heq.
  - subst cache. by subst buf.
  - destruct (fat_block_range s c Hok Hc) as [? ?].
    destruct (fat_ok_bounds s Hok) as (? & ? & ? & ? & ? & ? & ?). unfold data_start in *.
    apply read_device; [done|lia|done].
Qed.

Lemma cache_ok_block s c : fat_ok s -> 0 <= c < max_cluster s + 2 ->
  cache_ok s (Some (fat_block s c)) (blk (device s) (fat_block s c)).
Proof.
  intros Hok Hc. split; [|done]. destruct (fat_block_range s c Hok Hc) as [? ?].
  destruct (fat_ok_bounds s Hok) as (? & ? & ? & ? & ? & ? & ?). unfold data_start in *.
  apply blk_length; [apply (ok_dev _ Hok)|lia].
Qed.

(** The loop passes over clusters that are in use. *)
Lemma find_loop_skip n fuel hint cur end_ cache buf s :
  fat_ok s -> 0 <= cur -> cur + Z.of_nat n <= end_ -> cur + Z.of_nat n <= max_cluster s + 2 ->
  (forall c, cur <= c < cur + Z.of_nat n -> fat s c <> 0) -> cache_ok s cache buf ->
  exists cache' buf', cache_ok s cache' buf' /\
    find_loop (n + fuel) hint cur end_ cache buf s =
    find_loop fuel hint (cur + Z.of_nat n) end_ cache' buf' s.
Proof.
  intros Hok. revert cur cache buf. induction n as [|n IH]; intros cur cache buf Hcur He Hm Hnf Hcache.
  { exists cache, buf. split; [done|]. by rewrite Z.add_0_r. }
  assert (Hc : 0 <= cur < max_cluster s + 2) by lia.
  destruct (IH (cur + 1) (Some (fat_block s cur)) (blk (device s) (fat_block s cur)))
    as (cache' & buf' & Hc' & Hrun); [lia..| |by apply cache_ok_block|].
  { intros c ?. apply Hnf. lia. }
  exists cache', buf'. split; [done|].
  replace (cur + Z.of_nat (S n)) with (cur + 1 + Z.of_nat n) by lia. rewrite <-Hrun.
  cbn [find_loop Nat.add]. rewrite (proj2 (Z.leb_gt _ _)) by lia.
  unfold mbind at 1, M_bind at 1. rewrite entry_location_run by done. cbn beta iota.
  unfold mbind at 1, M_bind at 1. rewrite find_read by done.
  change (read_entry (blk (device s) (fat_block s cur)) (cur `mod` cluster_per_sector s)) with (fat s cur).
  rewrite (proj2 (Z.eqb_neq _ _)) by (apply Hnf; lia). cbn [negb].
  unfold mbind, M_bind, checked, fits. pose proof (ok_max _ Hok) as [_ Hmx].
  unfold FAT_ENTRY_RESERVED_START in Hmx.
  rewrite (proj2 (Z.leb_le _ _)), (proj2 (Z.ltb_lt _ _)) by lia. done.
Qed.

Lemma find_loop_skip_sub n fuel hint cur end_ cache buf s :
  (n <= fuel)%nat ->
  fat_ok s -> 0 <= cur -> cur + Z.of_nat n <= end_ -> cur + Z.of_nat n <= max_cluster s + 2 ->
  (forall c, cur <= c < cur + Z.of_nat n -> fat s c <> 0) -> cache_ok s cache buf ->
  exists cache' buf', cache_ok s cache' buf' /\
    find_loop fuel hint cur end_ cache buf s =
    find_loop (fuel - n) hint (cur + Z.of_nat n) end_ cache' buf' s.
Proof.
  intros (k & -> & _)%Nat.le_exists_sub. rewrite (Nat.add_comm k n), (Nat.add_comm n k), Nat.add_sub.
  rewrite Nat.add_comm. apply find_loop_skip.
Qed.

(** What allocating cluster [c] does. *)
Definition allocated s (c : Z) s' : Prop :=
  table_step s (upd (fat s) c FAT_ENTRY_EOC_START) s' /\ fs_info s' = info_after (-1) (fs_info s).

Lemma find_loop_found fuel hint c end_ cache buf s :
  fat_ok s -> 0 <= c < max_cluster s + 2 -> c < end_ -> fat s c = 0 -> cache_ok s cache buf ->
  count_in_range (-1) s ->
  wp (find_loop (S fuel) hint c end_ cache buf) s (fun r s' => r = c /\ allocated s c s').
Proof.
  intros Hok Hc He Hfree Hcache Hn. cbn [find_loop]. rewrite (proj2 (Z.leb_gt _ _)) by lia.
  wp_step. eapply wp_intro; [by apply entry_location_run|]. cbn beta iota.
  wp_step. eapply wp_intro; [by apply find_read|].
  change (read_entry (blk (device s) (fat_block s c)) (c `mod` cluster_per_sector s)) with (fat s c).
  rewrite Hfree. cbn [negb Z.eqb FAT_ENTRY_FREE].
  wp_step. eapply wp_mono; [apply write_entry_all_spec; [done|done|unfold FAT_ENTRY_EOC_START; lia]|].
  intros [] s1 [Hs1 Hi1]. wp_step. wp_step. rewrite Hi1. unfold count_in_range in Hn. unfold allocated.
  destruct (fs_info s) as [f|]; [|by apply wp_ret].
  wp_step. wp_step; [lia|].
  wp_step. eapply wp_mono.
  { apply store_free_count_spec; [apply (table_step_ok _ _ _ Hs1)|done|lia]. }
  intros [] s2 [Hs2 Hi2]. apply wp_ret. split; [done|]. split; [|done].
  apply (table_step_trans _ _ _ _ _ _ Hs1 Hs2).
  intros c' Hc'. by apply (table_step_fat _ _ _ _ Hs1).
Qed.

(** The order in which clusters are tried: from the hint to the end, then from
    the first one to the hint. *)
Definition scan_order s : list Z :=
  let hint := next_free_cluster <$> fs_info s in
  let from := default 2 hint in
  seqZ from (max_cluster s + 2 - from) ++
  match hint with Some h => seqZ 2 (h `min` (max_cluster s + 2) - 2) | None => [] end.

Definition hint_ok s : Prop :=
  match fs_info s with Some f => 2 <= next_free_cluster f | None => True end.

(** [list_find] in a run of consecutive numbers. *)
Lemma list_find_seqZ_Some (P : Z -> Prop) `{!forall c, Decision (P c)} m n i c :
  list_find P (seqZ m n) = Some (i, c) ->
  c = m + Z.of_nat i /\ Z.of_nat i < n /\ P c /\ forall c', m <= c' < c -> ~ P c'.
Proof.
  intros (Hl & HP & Hmin)%list_find_Some. apply lookup_seqZ in Hl as [-> Hi].
  split_and!; [done|done|done|]. intros c' Hc'.
  apply (Hmin (Z.to_nat (c' - m)) c'); [|lia]. apply lookup_seqZ. lia.
Qed.

Lemma list_find_seqZ_None (P : Z -> Prop) `{!forall c, Decision (P c)} m n :
  list_find P (seqZ m n) = None -> forall c, m <= c < m + n -> ~ P c.
Proof.
  intros Hn%list_find_None c Hc. rewrite Forall_forall in Hn. apply Hn, elem_of_seqZ. lia.
Qed.

Lemma find_loop_wrap fuel h cur end_ cache buf s :
  end_ <= cur ->
  find_loop (S fuel) (Some h) cur end_ cache buf s = find_loop fuel (Some h) 2 h cache buf s.
Proof. intros. cbn [find_loop]. by rewrite (proj2 (Z.leb_le _ _)) by lia. Qed.

Lemma find_from fuel hint cur end_ cache buf s c :
  fat_ok s -> 0 <= cur <= c -> c < end_ -> c < max_cluster s + 2 -> fat s c = 0 ->
  (forall c', cur <= c' < c -> fat s c' <> 0) -> cache_ok s cache buf -> count_in_range (-1) s ->
  (Z.to_nat (c - cur) < fuel)%nat ->
  wp (find_loop fuel hint cur end_ cache buf) s (fun r s' => r = c /\ allocated s c s').
Proof.
  intros Hok Hcur He Hm Hfree Hnf Hcache Hn Hfuel.
  destruct (find_loop_skip_sub (Z.to_nat (c - cur)) fuel hint cur end_ cache buf s)
    as (cache' & buf' & Hc' & Hrun); [lia|done|lia..| |done|].
  { intros c' ?. apply Hnf. lia. }
  unfold wp. rewrite Hrun. replace (fuel - Z.to_nat (c - cur))%nat with (S (fuel - Z.to_nat (c - cur) - 1)) by lia.
  replace (cur + Z.of_nat (Z.to_nat (c - cur))) with c by lia.
  apply (find_loop_found (fuel - Z.to_nat (c - cur) - 1) hint c end_ cache' buf' s); try done; lia.
Qed.

Lemma find_available_cluster_spec fuel s i c :
  fat_ok s -> hint_ok s -> count_in_range (-1) s ->
  list_find (fun c => fat s c = 0) (scan_order s) = Some (i, c) ->
  (length (scan_order s) + 1 < fuel)%nat ->
  wp (find_available_cluster fuel) s (fun r s' => r = c /\ allocated s c s').
Proof.
  intros Hok Hh Hn Hfind Hfuel. unfold find_available_cluster. wp_step. wp_step.
  pose proof (ok_max _ Hok) as [Hm0 Hmx]. unfold FAT_ENTRY_RESERVED_START in Hmx.
  assert (Hcache : cache_ok s None (zeros (block_size (device s)))).
  { split; [apply length_zeros|done]. }
  unfold scan_order, hint_ok, count_in_range in *.
  destruct (fs_info s) as [f|] eqn:Hf; cbn [fmap option_fmap option_map default id] in *.
  - rewrite (proj2 (Z.eqb_neq _ _)) by lia. cbn [fmap option_fmap option_map default id].
    wp_step. wp_step. wp_step. wp_step; [lia|]. wp_step. wp_step.
    set (h := next_free_cluster f) in *. rewrite length_app, !length_seqZ in Hfuel.
    apply list_find_app_Some in Hfind as [Hfind|(_ & Hnone & Hfind)].
    + apply list_find_seqZ_Some in Hfind as (-> & Hi & Hfree & Hmin).
      apply find_from; try done; try lia. unfold count_in_range. by rewrite Hf.
    + apply list_find_seqZ_Some in Hfind as (-> & Hi & Hfree & Hmin).
      pose proof (list_find_seqZ_None _ _ _ Hnone) as Hnf.
      set (n := Z.to_nat (max_cluster s + 2 - h)).
      destruct (decide (h <= max_cluster s + 2)).
      * destruct (find_loop_skip_sub n fuel (Some h) h (max_cluster s + 2) None
          (zeros (block_size (device s))) s) as (cache' & buf' & Hc' & Hrun); [lia|done|lia..| |done|].
        { intros c' ?. apply Hnf. lia. }
        unfold wp. rewrite Hrun.
        replace (fuel - n)%nat with (S (fuel - n - 1)) by lia. rewrite find_loop_wrap by lia.
        apply (find_from (fuel - n - 1) (Some h) 2 h cache' buf' s); try done; try lia.
        unfold count_in_range. by rewrite Hf.
      * unfold wp. replace fuel with (S (fuel - 1)) by lia. rewrite find_loop_wrap by lia.
        apply (find_from (fuel - 1) (Some h) 2 h None _ s); try done; try lia.
        unfold count_in_range. by rewrite Hf.
  - wp_step. wp_step. wp_step. wp_step; [lia|]. wp_step. wp_step.
    rewrite app_nil_r in *. rewrite length_seqZ in Hfuel.
    apply list_find_seqZ_Some in Hfind as (-> & Hi & Hfree & Hmin).
    apply find_from; try done; try lia. unfold count_in_range. by rewrite Hf.
Qed.

(** ** Lemmas: chains *)

(** [chain s c l]: the clusters from [c] on are [l], up to an end mark. *)
Inductive chain s : Z -> list Z -> Prop :=
  | chain_end c : c = FAT_ENTRY_FREE \/ FAT_ENTRY_EOC_START <= c -> chain s c []
  | chain_next c l : is_cluster s c -> chain s (fat s c) l -> chain s c (c :: l).

Lemma is_end_chain limit s c l :
  fat_ok s -> FAT_ENTRY_RESERVED_START <= limit <= FAT_ENTRY_EOC_START -> chain s c l ->
  is_end limit c = match l with [] => true | _ => false end.
Proof.
  intros Hok Hlim Hch. unfold is_end. pose proof (ok_max _ Hok) as [_ Hm].
  unfold FAT_ENTRY_FREE in *. inversion Hch as [? [->|Hc]|? ? [Hc Hc'] Hch']; subst; [done| |].
  - rewrite (proj2 (Z.leb_le _ _)) by lia. by rewrite orb_true_r.
  - rewrite (proj2 (Z.eqb_neq _ _)), (proj2 (Z.leb_gt _ _)) by lia. done.
Qed.

Lemma chain_cons_inv s c x l : chain s c (x :: l) -> x = c /\ is_cluster s c /\ chain s (fat s c) l.
Proof. by inversion 1. Qed.

Lemma chain_clusters s c l : chain s c l -> Forall (is_cluster s) l.
Proof. induction 1; by constructor. Qed.

Lemma chain_ext s s' c l :
  max_cluster s' = max_cluster s -> (forall c', c' ∈ l -> fat s' c' = fat s c') ->
  chain s c l -> chain s' c l.
Proof.
  intros Hm Hf Hch. induction Hch as [c Hc|c l Hc Hch IH]; [by constructor|].
  constructor; [unfold is_cluster in *; by rewrite Hm|].
  rewrite Hf by left. apply IH. intros c' Hc'. apply Hf. by right.
Qed.

(** A chain without repetition is no longer than the table. *)
Lemma chain_length s c l : fat_ok s -> chain s c l -> NoDup l -> Z.of_nat (length l) <= max_cluster s.
Proof.
  intros Hok Hch Hnd. pose proof (chain_clusters _ _ _ Hch) as Hcl.
  assert (Hsub : l ⊆+ seqZ 2 (max_cluster s)).
  { apply NoDup_submseteq; [done|]. intros c' Hc'. rewrite Forall_forall in Hcl.
    specialize (Hcl c' Hc'). unfold is_cluster in Hcl. apply elem_of_seqZ. lia. }
  apply submseteq_length in Hsub. rewrite length_seqZ in Hsub. pose proof (ok_max _ Hok). lia.
Qed.

Lemma count_clusters_run fuel s c l n :
  fat_ok s -> chain s c l -> (length l < fuel)%nat -> 0 <= n -> n + Z.of_nat (length l) < 2 ^ 64 ->
  count_clusters fuel c n s = (Ok (n + Z.of_nat (length l)), s).
Proof.
  intros Hok. revert c l n. induction fuel as [|fuel IH]; intros c l n Hch Hfuel Hn Hmax; [lia|].
  cbn [count_clusters]. rewrite (is_end_chain _ s c l) by (done || unfold FAT_ENTRY_RESERVED_START, FAT_ENTRY_EOC_START; lia).
  destruct l as [|x l]; [by rewrite Z.add_0_r|].
  apply chain_cons_inv in Hch as (-> & Hc & Hch). cbn [length] in *.
  unfold mbind, M_bind, checked, fits.
  rewrite (proj2 (Z.leb_le _ _)), (proj2 (Z.ltb_lt _ _)) by lia. cbn [andb mret M_ret].
  rewrite get_next_cluster_run by (done || unfold is_cluster in Hc; lia).
  rewrite (IH _ l) by (done || lia). do 2 f_equal. lia.
Qed.

(** The table with the clusters of [l] free. *)
Definition freed (f : Z -> Z) (l : list Z) : Z -> Z :=
  fun c => if decide (c ∈ l) then FAT_ENTRY_FREE else f c.

Lemma free_chain_spec fuel s c l :
  fat_ok s -> chain s c l -> NoDup l -> (length l < fuel)%nat ->
  match fs_info s with
  | Some f => 0 <= free_cluster_count f /\ free_cluster_count f + Z.of_nat (length l) < 2 ^ 32
  | None => True end ->
  wp (free_chain fuel c) s (fun _ s' =>
    table_step s (freed (fat s) l) s' /\ fs_info s' = info_after (Z.of_nat (length l)) (fs_info s)).
Proof.
  revert s c l. induction fuel as [|fuel IH]; intros s c l Hok Hch Hnd Hfuel Hn; [lia|].
  cbn [free_chain]. rewrite (is_end_chain _ s c l) by (done || unfold FAT_ENTRY_RESERVED_START, FAT_ENTRY_EOC_START; lia).
  destruct l as [|x l].
  { apply wp_ret. split; [|by destruct (fs_info s) as [[]|]; cbn; rewrite ?Z.add_0_r].
    apply (table_step_trans _ _ _ _ _ _ (table_step_refl s Hok) (table_step_refl s Hok)).
    intros c' Hc'. unfold freed. rewrite decide_False; [done|apply not_elem_of_nil]. }
  apply chain_cons_inv in Hch as (-> & Hc & Hch). apply NoDup_cons in Hnd as [Hx Hnd].
  cbn [length] in *. rewrite Nat2Z.inj_succ in *.
  wp_step. eapply wp_intro; [apply get_next_cluster_run; [done|unfold is_cluster in Hc; lia]|].
  wp_step. eapply wp_mono.
  { apply free_cluster_spec; [done|unfold is_cluster in Hc; lia|].
    unfold count_in_range. destruct (fs_info s); [lia|done]. }
  intros [] s1 [Hs1 Hi1]. pose proof (table_step_meta _ _ _ Hs1) as (Hb & Hm & _).
  eapply wp_mono.
  { apply (IH s1 (fat s c) l); [apply (table_step_ok _ _ _ Hs1)| |done|lia|].
    - apply (chain_ext s); [done| |done]. intros c' Hc'.
      pose proof (chain_clusters _ _ _ Hch) as Hcl. rewrite Forall_forall in Hcl.
      specialize (Hcl c' Hc'). unfold is_cluster in Hcl.
      rewrite (table_step_fat _ _ _ _ Hs1) by lia. unfold upd. rewrite decide_False; [done|congruence].
    - rewrite Hi1. destruct (fs_info s) as [f|]; [cbn|done]. lia. }
  intros [] s2 [Hs2 Hi2]. split.
  - apply (table_step_trans _ _ _ _ _ _ Hs1 Hs2). intros c' Hc'. unfold freed.
    destruct (decide (c' ∈ l)) as [Hin|Hin].
    + rewrite decide_True; [done|by right].
    + rewrite (table_step_fat _ _ _ _ Hs1) by done. unfold upd.
      destruct (decide (c' = c)) as [->|]; [rewrite decide_True; [done|by left]|].
      rewrite decide_False; [done|]. by intros [?|?]%elem_of_cons.
  - rewrite Hi2, Hi1. destruct (fs_info s) as [f|]; [cbn|done]. unfold set_free_count; cbn.
    do 2 f_equal. lia.
Qed.

(** ** Lemmas: the search on a full disk *)

Lemma find_loop_full_diverges fuel h cur end_ cache buf s :
  fat_ok s -> 2 <= cur -> end_ <= max_cluster s + 2 -> h <= max_cluster s + 2 ->
  (forall c, is_cluster s c -> fat s c <> 0) -> cache_ok s cache buf ->
  find_loop fuel (Some h) cur end_ cache buf s = (Diverge, s).
Proof.
  intros Hok. revert cur end_ cache buf.
  induction fuel as [|fuel IH]; intros cur end_ cache buf Hcur He Hh Hnf Hcache; [done|].
  destruct (decide (end_ <= cur)).
  - rewrite find_loop_wrap by done. apply IH; (done || lia).
  - destruct (find_loop_skip 1 fuel (Some h) cur end_ cache buf s) as (cache' & buf' & Hc' & Hrun);
      [done|lia..| |done|].
    { intros c ?. apply Hnf. unfold is_cluster. lia. }
    change (S fuel) with (1 + fuel)%nat. rewrite Hrun. apply IH; (done || lia).
Qed.

(** ** Properties *)

(** Writing an entry of the table succeeds; afterwards following a chain
    reads the new entry at that cluster and the old one at every other
    cluster, the copies of the table are still equal, and no block of the data
    area has changed. *)
Theorem update_cluster_roundtrip s c e :
  fat_ok s -> mirrored s -> 0 <= c < max_cluster s + 2 -> 0 <= e < 2 ^ 32 ->
  exists s', update_cluster c e s = (Ok tt, s') /\ fat_ok s' /\ mirrored s' /\
    (forall c', 0 <= c' < max_cluster s + 2 ->
       get_next_cluster c' s' = (Ok (if decide (c' = c) then e else fat s c'), s')) /\
    (forall j, data_start s <= j < block_count (device s) -> blk (device s') j = blk (device s) j).
Proof.
  intros Hok Hmir Hc He.
  destruct (wp_run _ _ _ (update_cluster_spec s c e Hok Hc He)) as ([] & s' & Hrun & Hstep & _).
  pose proof Hstep as ((_ & Hm & _) & Hok' & Hmir' & _). exists s'. split_conj; auto.
  - intros c' Hc'. rewrite get_next_cluster_run by (done || lia).
    by rewrite (table_step_fat _ _ _ _ Hstep).
  - intros j Hj. by apply (table_step_data _ _ _ _ Hok Hstep).
Qed.

(** If a cluster is free, [find_available_cluster] terminates and returns
    the first free one in scan order (from the hint to the end, then from the
    beginning to the hint); it marks it as the end of a chain, decrements the
    free count, and changes no other entry and no data block. *)
Theorem find_available_cluster_first_free fuel s i c :
  fat_ok s -> hint_ok s -> count_in_range (-1) s ->
  list_find (fun c => fat s c = 0) (scan_order s) = Some (i, c) ->
  (length (scan_order s) + 1 < fuel)%nat ->
  exists s', find_available_cluster fuel s = (Ok c, s') /\ fat_ok s' /\
    fat s c = FAT_ENTRY_FREE /\
    (forall c', 0 <= c' < max_cluster s + 2 ->
       fat s' c' = if decide (c' = c) then FAT_ENTRY_EOC_START else fat s c') /\
    fs_info s' = info_after (-1) (fs_info s) /\
    (forall j, data_start s <= j < block_count (device s) -> blk (device s') j = blk (device s) j).
Proof.
  intros Hok Hh Hn Hfind Hfuel.
  destruct (wp_run _ _ _ (find_available_cluster_spec fuel s i c Hok Hh Hn Hfind Hfuel))
    as (r & s' & Hrun & -> & Hstep & Hinfo).
  exists s'. split_conj; try done.
  - by apply (table_step_ok _ _ _ Hstep).
  - by apply list_find_Some in Hfind as (_ & ? & _).
  - intros c' Hc'. by apply (table_step_fat _ _ _ _ Hstep).
  - intros j Hj. by apply (table_step_data _ _ _ _ Hok Hstep).
Qed.

(** When every cluster is in use but FSInfo does not say so, the search
    with a hint never ends: it restarts at the first cluster again and again
    instead of reporting a full disk. (The free count is unknown, 0xFFFFFFFF,
    on volumes of other systems, and too high after [with_format] on devices
    whose FAT lacks entries.) *)
Theorem find_available_cluster_full_diverges fuel s f :
  fat_ok s -> fs_info s = Some f -> free_cluster_count f <> 0 ->
  2 <= next_free_cluster f <= max_cluster s + 2 ->
  (forall c, is_cluster s c -> fat s c <> 0) ->
  find_available_cluster fuel s = (Diverge, s).
Proof.
  intros Hok Hf Hn Hh Hfull. unfold find_available_cluster, gets, mbind, M_bind. rewrite Hf.
  rewrite (proj2 (Z.eqb_neq _ _)) by done. cbn [fmap option_fmap option_map default].
  pose proof (ok_max _ Hok) as [? Hm]. unfold FAT_ENTRY_RESERVED_START in Hm. unfold checked, fits.
  rewrite (proj2 (Z.leb_le _ _)), (proj2 (Z.ltb_lt _ _)) by lia. cbn [andb mret M_ret].
  apply find_loop_full_diverges; try done; try (cbn; lia). split; [apply length_zeros|done].
Qed.

(** The clusters of a chain are counted exactly, and freeing the chain
    marks exactly its clusters as free and adds their number to the free
    count; nothing else in the table changes, and no data block does. *)
Theorem chain_size_and_free fuel s c l :
  fat_ok s -> chain s c l -> NoDup l -> (length l < fuel)%nat ->
  match fs_info s with
  | Some f => 0 <= free_cluster_count f /\ free_cluster_count f + Z.of_nat (length l) < 2 ^ 32
  | None => True end ->
  get_allocated_size fuel c s =
    (Ok (Z.of_nat (length l) * bytes_per_sector (bpb s) * sectors_per_cluster (bpb s)), s) /\
  exists s', free_chain fuel c s = (Ok tt, s') /\ fat_ok s' /\
    (forall c', 0 <= c' < max_cluster s + 2 ->
       fat s' c' = if decide (c' ∈ l) then FAT_ENTRY_FREE else fat s c') /\
    fs_info s' = info_after (Z.of_nat (length l)) (fs_info s) /\
    (forall j, data_start s <= j < block_count (device s) -> blk (device s') j = blk (device s) j).
Proof.
  intros Hok Hch Hnd Hfuel Hn. split.
  - pose proof (chain_length s c l Hok Hch Hnd) as Hlen. pose proof (ok_max _ Hok) as [? Hm].
    unfold FAT_ENTRY_RESERVED_START in Hm. pose proof (ok_bps _ Hok). pose proof (ok_spc _ Hok).
    unfold get_allocated_size, mbind, M_bind. rewrite (count_clusters_run fuel s c l) by (done || lia).
    unfold gets. rewrite Z.add_0_l. pose proof (ok_typed _ Hok) as (_ & _ & Hb & Hs & _).
    unfold uint in *. change (256 ^ Z.of_nat 2) with 65536 in Hb. change (256 ^ Z.of_nat 1) with 256 in Hs.
    pose proof (mul3_bound (Z.of_nat (length l)) (bytes_per_sector (bpb s)) (sectors_per_cluster (bpb s))
      268435440 65536 256 ltac:(lia) ltac:(lia) ltac:(lia)).
    unfold checked, fits. rewrite (proj2 (Z.leb_le _ _)), (proj2 (Z.ltb_lt _ _)) by lia. done.
  - destruct (wp_run _ _ _ (free_chain_spec fuel s c l Hok Hch Hnd Hfuel Hn))
      as ([] & s' & Hrun & Hstep & Hinfo).
    exists s'. split_conj; try done.
    + by apply (table_step_ok _ _ _ Hstep).
    + intros c' Hc'. by apply (table_step_fat _ _ _ _ Hstep).
    + intros j Hj. by apply (table_step_data _ _ _ _ Hok Hstep).
Qed.
End fat_spec.

(** ** Instances of the properties, on the freshly formatted demo disk *)

Lemma demo_mirrored : mirrored demo_fs.
Proof.
  intros k t Hk Ht. destruct demo_fs_run as (_ & _ & Hf & _).
  assert (Hn : num_fats (bpb demo_fs) = 2) by (vm_compute; reflexivity).
  assert (Hs : fat_size_32 (bpb demo_fs) = 1) by (vm_compute; reflexivity).
  rewrite Hn in Hk. rewrite Hs in *. assert (t = 0) as -> by lia.
  pose proof (fm_fat _ _ _ Hf k Hk) as H1. pose proof (fm_fat _ _ _ Hf 0 ltac:(lia)) as H0.
  rewrite Hs in *. rewrite Z.add_0_r. rewrite Z.mul_0_r, Z.add_0_r in H0. congruence.
Qed.

Lemma demo_hint_ok : hint_ok demo_fs /\ count_in_range (-1) demo_fs.
Proof.
  destruct demo_fs_run as (_ & _ & _ & Hi & _). unfold hint_ok, count_in_range. rewrite Hi.
  vm_compute. intuition discriminate.
Qed.

Lemma demo_fat_root : fat demo_fs 2 = FAT_ENTRY_EOC_START.
Proof. vm_compute. reflexivity. Qed.

Lemma demo_chain : chain demo_fs 2 [2].
Proof.
  destruct demo_fs_run as (_ & _ & _ & _ & Hm).
  constructor; [unfold is_cluster; rewrite Hm; lia|]. rewrite demo_fat_root. constructor. right.
  unfold FAT_ENTRY_EOC_START. lia.
Qed.

Lemma update_cluster_roundtrip_witness :
  exists s', update_cluster 3 4 demo_fs = (Ok tt, s') /\
    get_next_cluster 3 s' = (Ok 4, s') /\ get_next_cluster 2 s' = (Ok FAT_ENTRY_EOC_START, s').
Proof.
  destruct demo_fs_run as (_ & Hok & _ & _ & Hm).
  destruct (update_cluster_roundtrip demo_fs 3 4 Hok demo_mirrored) as (s' & H1 & _ & _ & H2 & _);
    [rewrite Hm; lia|lia|].
  exists s'. split; [exact H1|]. rewrite !H2 by (rewrite Hm; lia).
  rewrite <-demo_fat_root. split; reflexivity.
Defined.

Lemma find_available_cluster_first_free_witness :
  exists s', find_available_cluster 10 demo_fs = (Ok 3, s') /\ fat s' 3 = FAT_ENTRY_EOC_START.
Proof.
  destruct demo_fs_run as (_ & Hok & _ & _ & Hm). destruct demo_hint_ok as [Hh Hn].
  destruct (find_available_cluster_first_free 10 demo_fs 0 3 Hok Hh Hn) as (s' & H1 & _ & _ & H2 & _).
  - vm_compute. reflexivity.
  - vm_compute. lia.
  - exists s'. split; [exact H1|]. rewrite H2 by (rewrite Hm; lia). reflexivity.
Defined.

(** The demo disk with every cluster in use and the free count untouched. *)
Lemma demo_full : exists s, fat_ok s /\ fs_info s = Some (format_fs_info 3) /\
  max_cluster s = 3 /\ forall c, is_cluster s c -> fat s c <> 0.
Proof.
  destruct demo_fs_run as (_ & Hok & _ & Hi & Hm).
  destruct (wp_run _ _ _ (update_cluster_spec demo_fs 3 FAT_ENTRY_EOC_START Hok
    ltac:(rewrite Hm; lia) ltac:(unfold FAT_ENTRY_EOC_START; lia))) as ([] & s1 & _ & Hs1 & Hi1).
  pose proof Hs1 as ((_ & Hm1 & _) & Hok1 & _).
  destruct (wp_run _ _ _ (update_cluster_spec s1 4 FAT_ENTRY_EOC_START Hok1
    ltac:(rewrite Hm1, Hm; lia) ltac:(unfold FAT_ENTRY_EOC_START; lia))) as ([] & s2 & _ & Hs2 & Hi2).
  pose proof Hs2 as ((_ & Hm2 & _) & Hok2 & _).
  exists s2. split; [done|]. split; [congruence|]. split; [lia|].
  unfold is_cluster. intros c Hc. rewrite (table_step_fat _ _ _ _ Hs2) by lia. unfold upd.
  case_decide; [done|]. rewrite (table_step_fat _ _ _ _ Hs1) by lia. unfold upd.
  case_decide; [done|]. assert (c = 2) as -> by lia. by rewrite demo_fat_root.
Qed.

Lemma find_available_cluster_full_diverges_witness :
  exists s : Fat32Inner MemoryDevice, find_available_cluster 1000 s = (Diverge, s).
Proof.
  destruct demo_full as (s & Hok & Hi & Hm & Hfull). exists s.
  apply (find_available_cluster_full_diverges 1000 s (format_fs_info 3) Hok Hi).
  - vm_compute. discriminate.
  - rewrite Hm. vm_compute. intuition discriminate.
  - exact Hfull.
Defined.

Lemma chain_size_and_free_witness :
  get_allocated_size 2 2 demo_fs = (Ok 4096, demo_fs) /\
  exists s', free_chain 2 2 demo_fs = (Ok tt, s') /\ fat s' 2 = FAT_ENTRY_FREE.
Proof.
  destruct demo_fs_run as (_ & Hok & _ & Hi & Hm).
  destruct (chain_size_and_free 2 demo_fs 2 [2] Hok demo_chain) as (H1 & s' & H2 & _ & H3 & _).
  - repeat constructor. apply not_elem_of_nil.
  - cbn. lia.
  - rewrite Hi. vm_compute. intuition discriminate.
  - split; [exact H1|]. exists s'. split; [exact H2|]. rewrite H3 by (rewrite Hm; lia).
    reflexivity.
Defined.
