(* ===== verification/Fat32Dir.v ===== *)
(** * FAT32: directories (library/filesystem/src/fs/fat32.rs)

    A directory is a chain of clusters, read as 32-byte entries: the walk over
    them, the lookup of a name, adding, deleting and rewriting the entries of
    a file. The loops over the entries of a buffer are pure functions of the
    buffer; the loops over clusters take fuel. *)
From S2P Require Import Prelude Text Path Device MemoryDevice Fat32Types Fat32Name Fat32Format Fat32Table.

(** ** Walking *)

(** The variables that the walk carries from entry to entry. *)
Record WalkState : Type := mkWalk {
  entry_long : list DirectoryEntryLong;
  w_start_cluster : Z;
  w_start_sector : Z;
  w_start_sector_offset : Z;
}.

(** Where an entry is: cluster, sector of the device, index in the sector. *)
Record Position : Type := mkPos { at_cluster : Z; at_sector : Z; at_offset : Z }.

Definition clear_long (w : WalkState) : WalkState :=
  mkWalk [] (w_start_cluster w) (w_start_sector w) (w_start_sector_offset w).

Definition push_long (p : Position) (e : DirectoryEntryLong) (w : WalkState) : WalkState :=
  match entry_long w with
  | [] => mkWalk [e] (at_cluster p) (at_sector p) (at_offset p)
  | longs => mkWalk (longs ++ [e]) (w_start_cluster w) (w_start_sector w) (w_start_sector_offset w)
  end.

(** The argument of [yield_fn]. *)
Definition found_meta (p : Position) (e : DirectoryEntryShort) (w : WalkState) : Fat32FileMetadata :=
  mkMeta e (entry_long w) (w_start_cluster w) (w_start_sector w) (w_start_sector_offset w)
    (at_cluster p) (at_sector p) (at_offset p).

(** The loops over [i] and [j]: the entries of a sector and of a cluster
    buffer, with their positions. *)
Definition sector_entries (size : nat) (i entries : nat) (buffer : list Z) : list (list Z) :=
  (fun j => slice (i * size + j * DIR_ENTRY_SIZE) DIR_ENTRY_SIZE buffer) <$> seq 0 entries.

Definition place (cluster sector : Z) (l : list (list Z)) : list (Position * list Z) :=
  imap (fun j bytes => (mkPos cluster sector (Z.of_nat j), bytes)) l.

Definition cluster_entries (cluster sector : Z) (size sectors entries : nat) (buffer : list Z)
    : list (Position * list Z) :=
  i ← seq 0 sectors;
  place cluster (sector + Z.of_nat i) (sector_entries size i entries buffer).

(** The body of these loops; the [bool] of the result is false when [yield_fn]
    asked to stop. *)
Fixpoint walk_entries {A} (yield_fn : Fat32FileMetadata -> A -> outcome FileSystemError (bool * A))
    (l : list (Position * list Z)) (w : WalkState) (acc : A)
    : outcome FileSystemError (bool * WalkState * A) :=
  match l with
  | [] => Ok (true, w, acc)
  | (p, bytes) :: l' =>
      if field 11 1 bytes =? ATTR_LONG_NAME then
        walk_entries yield_fn l' (push_long p (decode_long bytes) w) acc
      else
        let entry := decode_short bytes in
        if (nth 0 (sh_name entry) 0 =? 0x00) || (nth 0 (sh_name entry) 0 =? 0xE5) then
          walk_entries yield_fn l' (clear_long w) acc
        else
          '(should_continue, acc) ← yield_fn (found_meta p entry w) acc;
          if (should_continue : bool) then walk_entries yield_fn l' (clear_long w) acc
          else Ok (false, clear_long w, acc)
  end.

(** The closure of [get_file_metadata_by_cluster]: sort the long entries,
    compare, stop at the first match. *)
Definition sort_long (m : Fat32FileMetadata) : Fat32FileMetadata :=
  mkMeta (short m) (Fat32Name.sort_by_order (long m)) (m_start_cluster m) (m_start_sector m)
    (m_start_sector_offset m) (short_cluster m) (short_sector m) (short_sector_offset m).

Definition find_yield (name : rstring) (metadata : Fat32FileMetadata)
    (file : option Fat32FileMetadata)
    : outcome FileSystemError (bool * option Fat32FileMetadata) :=
  if Fat32Name.name_matches metadata name then Ok (false, Some (sort_long metadata))
  else Ok (true, file).

(** The closure of [get_all_filemeta_by_cluster]. *)
Definition push_yield (metadata : Fat32FileMetadata) (files : list Fat32FileMetadata)
    : outcome FileSystemError (bool * list Fat32FileMetadata) :=
  Ok (true, files ++ [metadata]).

(** ** Looking for room *)

(** The two-pointer search of [create_file_meta] in the entries of a sector:
    the first run of [need] entries whose first byte is 0. *)
Fixpoint find_run (need start i : nat) (l : list (list Z)) : option nat :=
  match l with
  | [] => None
  | bytes :: l' =>
      let is_free := nth 0 bytes 0 =? 0 in
      if negb is_free then find_run need (S i) (S i) l'
      else if (need <=? i - start + 1)%nat then Some start
      else find_run need start (S i) l'
  end.

(** The first sector with such a run, and where the run starts. *)
Fixpoint find_slot (need size sector sectors entries : nat) (buffer : list Z) : option (nat * nat) :=
  match sectors with
  | O => None
  | S sectors' =>
      match find_run need 0 0 (sector_entries size sector entries buffer) with
      | Some start => Some (sector, start)
      | None => find_slot need size (S sector) sectors' entries buffer
      end
  end.

(** The bytes of a file's entries, the long ones first. *)
Definition meta_bytes (m : Fat32FileMetadata) : list Z :=
  concat (encode_long <$> long m) ++ encode_short (short m).

(** ** Clearing *)

(** The loops of [delete_file_meta] over a cluster buffer from sector [i],
    [sectors] of them; the [bool] says that the short entry has been reached. *)
Fixpoint clear_offsets (m : Fat32FileMetadata) (cluster sector : Z) (base j n : nat)
    (buffer : list Z) : bool * list Z :=
  match n with
  | O => (false, buffer)
  | S n' =>
      let buffer := splice (base + j * DIR_ENTRY_SIZE) (replicate DIR_ENTRY_SIZE 0) buffer in
      if (cluster =? short_cluster m) && (sector =? short_sector m)
         && (Z.of_nat j =? short_sector_offset m)
      then (true, buffer)
      else clear_offsets m cluster sector base (S j) n' buffer
  end.

Fixpoint clear_sectors (m : Fat32FileMetadata) (cluster sector : Z) (size entries i n : nat)
    (buffer : list Z) : bool * list Z :=
  match n with
  | O => (false, buffer)
  | S n' =>
      let offset_start :=
        if Z.of_nat i + sector =? short_sector m then Z.to_nat (m_start_sector_offset m) else O in
      let '(loop_finish, buffer) :=
        clear_offsets m cluster (sector + Z.of_nat i) (i * size) offset_start
          (entries - offset_start) buffer in
      if loop_finish then (true, buffer)
      else clear_sectors m cluster sector size entries (S i) n' buffer
  end.

(** ** The operations *)
Section dir.
  Context {D : Type} `{!BlockDevice D}.
  Local Notation FsM := (FsM D).

(** [size_of] arithmetic: the size of a block, the sectors of a cluster, the
    entries of a sector. *)
Definition dir_size (s : Fat32Inner D) : nat := Z.to_nat (block_size (device s)).
Definition dir_sectors (s : Fat32Inner D) : nat := Z.to_nat (sectors_per_cluster (bpb s)).
Definition dir_entries (s : Fat32Inner D) : nat :=
  (Z.to_nat (bytes_per_sector (bpb s)) / DIR_ENTRY_SIZE)%nat.

Definition cluster_zeros (s : Fat32Inner D) : list Z :=
  zeros (block_size (device s) * sectors_per_cluster (bpb s)).

Definition read_cluster (sector : Z) (buffer : list Z) : FsM (list Z) :=
  b ← gets bpb;
  on_device (read_blocks sector (sectors_per_cluster b) buffer).

Fixpoint walk_clusters {A} (yield_fn : Fat32FileMetadata -> A -> outcome FileSystemError (bool * A))
    (fuel : nat) (cluster : Z) (w : WalkState) (buffer : list Z) (acc : A) : FsM A :=
  match fuel with
  | O => diverge
  | S fuel =>
      if is_end FAT_ENTRY_RESERVED_START cluster then mret acc
      else
        sector ← get_sector_by_cluster cluster;
        buffer ← read_cluster sector buffer;
        s ← gets id;
        '(should_continue, w, acc) ← lift (walk_entries yield_fn
            (cluster_entries cluster sector (dir_size s) (dir_sectors s) (dir_entries s) buffer)
            w acc);
        if (should_continue : bool) then
          cluster ← get_next_cluster cluster;
          walk_clusters yield_fn fuel cluster w buffer acc
        else mret acc
  end.

Definition walk_file_meta_by_cluster {A} (fuel : nat) (cluster : Z)
    (yield_fn : Fat32FileMetadata -> A -> outcome FileSystemError (bool * A)) (acc : A) : FsM A :=
  buffer ← gets cluster_zeros;
  walk_clusters yield_fn fuel cluster (mkWalk [] 0 0 0) buffer acc.

Definition get_file_metadata_by_cluster (fuel : nat) (cluster : Z) (name : rstring)
    : FsM Fat32FileMetadata :=
  file ← walk_file_meta_by_cluster fuel cluster (find_yield name) None;
  match file with
  | Some metadata => mret metadata
  | None => throw FileNotFound
  end.

Definition get_all_filemeta_by_cluster (fuel : nat) (cluster : Z) : FsM (list Fat32FileMetadata) :=
  walk_file_meta_by_cluster fuel cluster push_yield [].

(** The loop over the segments of the path. *)
Fixpoint get_path (fuel : nat) (cluster : Z) (file_metadata : option Fat32FileMetadata)
    (path : list rstring) : FsM (option Fat32FileMetadata) :=
  match path with
  | [] => mret file_metadata
  | name :: path' =>
      if (match file_metadata with
          | Some metadata => negb (Fat32Name.is_dir metadata)
          | None => false
          end)
      then throw FileNotFound
      else
        next ← get_file_metadata_by_cluster fuel cluster name;
        get_path fuel (Fat32Name.start_cluster next) (Some next) path'
  end.

Definition get_file_metadata (fuel : nat) (path : list rstring) : FsM (option Fat32FileMetadata) :=
  b ← gets bpb;
  get_path fuel (root_cluster b) None path.

(** The loop of [create_file_meta]: [None] when the entries have been written,
    else the last cluster of the directory. *)
Fixpoint create_loop (fuel : nat) (to_create : Fat32FileMetadata) (last_cluster cluster : Z)
    (buffer : list Z) : FsM (option Z) :=
  match fuel with
  | O => diverge
  | S fuel =>
      if is_end FAT_ENTRY_RESERVED_START cluster then mret (Some last_cluster)
      else
        block_index ← get_sector_by_cluster cluster;
        buffer ← read_cluster block_index buffer;
        s ← gets id;
        match find_slot (length (long to_create) + 1) (dir_size s) 0 (dir_sectors s)
                (dir_entries s) buffer with
        | Some (sector, start) =>
            let buffer := splice (sector * dir_size s + start * DIR_ENTRY_SIZE)
                            (meta_bytes to_create) buffer in
            on_device (write_block (block_index + Z.of_nat sector)
              (slice (sector * dir_size s) (dir_size s) buffer));;
            mret None
        | None =>
            next ← get_next_cluster cluster;
            create_loop fuel to_create cluster next buffer
        end
  end.

Definition create_file_meta (fuel : nat) (directory_cluster : Z) (to_create : Fat32FileMetadata)
    : FsM unit :=
  s ← gets id;
  if (dir_entries s <? length (long to_create) + 1)%nat then throw NameTooLang
  else
    last ← create_loop fuel to_create 0 directory_cluster (cluster_zeros s);
    match last with
    | None => mret tt
    | Some last_cluster =>
        cluster ← find_available_cluster fuel;
        sector ← get_sector_by_cluster cluster;
        on_device (write_zeros sector (sectors_per_cluster (bpb s)));;
        sector ← get_sector_by_cluster cluster;
        on_device (write_block sector
          (splice 0 (meta_bytes to_create) (zeros (block_size (device s)))));;
        update_cluster last_cluster cluster
    end.

Definition get_fs_metadata (fuel : nat) (file : Fat32FileMetadata) : FsM FileMetadata :=
  allocated_size ← get_allocated_size fuel (Fat32Name.start_cluster file);
  mret (mkFileMetadata (Fat32Name.name_to_string file) (file_size (short file))
          (Fat32Name.is_dir file) allocated_size).

Fixpoint delete_loop (fuel : nat) (metadata : Fat32FileMetadata) (cluster : Z) (buffer : list Z)
    : FsM unit :=
  match fuel with
  | O => diverge
  | S fuel =>
      if is_end FAT_ENTRY_EOC_START cluster then mret tt
      else
        sector ← get_sector_by_cluster cluster;
        buffer ← read_cluster sector buffer;
        s ← gets id;
        sector_start ←
          (if cluster =? m_start_cluster metadata
           then checked 64 (m_start_sector metadata - sector)
           else mret 0);
        let start := Z.to_nat sector_start in
        let '(loop_finish, buffer) :=
          clear_sectors metadata cluster sector (dir_size s) (dir_entries s) start
            (dir_sectors s - start) buffer in
        on_device (write_blocks sector (sectors_per_cluster (bpb s)) buffer);;
        if (loop_finish : bool) then mret tt
        else
          next ← get_next_cluster cluster;
          delete_loop fuel metadata next buffer
  end.

Definition delete_file_meta (fuel : nat) (metadata : Fat32FileMetadata) : FsM unit :=
  buffer ← gets cluster_zeros;
  delete_loop fuel metadata (m_start_cluster metadata) buffer.

Definition update_file_metadata (metadata : Fat32FileMetadata) : FsM unit :=
  size ← gets (fun s => block_size (device s));
  buffer ← on_device (read_block (short_sector metadata) (zeros size));
  rust_assert (short_sector_offset metadata * Z.of_nat DIR_ENTRY_SIZE <? size);;
  on_device (write_block (short_sector metadata)
    (splice (Z.to_nat (short_sector_offset metadata) * DIR_ENTRY_SIZE)
       (encode_short (short metadata)) buffer)).

End dir.
