(* ===== verification/Fat32Fs.v ===== *)
(** * FAT32: the file system and its handles (library/filesystem/src/fs/fat32.rs)

    The operations of the [FileSystem] and [FileHandle] traits. An operation
    holds the [RwLock] of the file system while it runs, so it is one step on
    the state [Fat32Inner]; a handle operation runs on the handle and that
    state together. *)
From S2P Require Import Prelude Text Path Device MemoryDevice Fat32Types Fat32Name Fat32Format Fat32Table Fat32Dir.

(** [inner] is whether the [Weak] reference can still be upgraded. *)
Record Fat32FileHandle : Type := mkHandle {
  inner : bool;
  metadata : Fat32FileMetadata;
  pointer : Z;
  closed : bool;
}.

(** ** [FileSystem for Fat32FileSystem] *)
Section fs.
  Context {D : Type} `{!BlockDevice D}.
  Local Notation FsM := (FsM D).

Definition total_space : FsM Z :=
  s ← gets id;
  bytes ← checked 64 (max_cluster s * bytes_per_sector (bpb s));
  checked 64 (bytes * sectors_per_cluster (bpb s)).

Definition free_space : FsM Z :=
  s ← gets id;
  let count := match fs_info s with Some f => free_cluster_count f | None => 0 end in
  bytes ← checked 64 (count * bytes_per_sector (bpb s));
  checked 64 (bytes * sectors_per_cluster (bpb s)).

(** The first cluster of a directory; the root has no metadata. *)
Definition directory_cluster (m : option Fat32FileMetadata) : FsM Z :=
  b ← gets bpb;
  mret (match m with Some m => Fat32Name.start_cluster m | None => root_cluster b end).

Definition not_dir (m : option Fat32FileMetadata) : bool :=
  match m with Some m => negb (Fat32Name.is_dir m) | None => false end.

(** [match inner.get_file_metadata_by_cluster(..).await]: fail when the name
    is taken. *)
Definition check_absent (fuel : nat) (cluster : Z) (name : rstring) : FsM unit :=
  found ← attempt (get_file_metadata_by_cluster fuel cluster name);
  match found with
  | inl _ => throw FileExists
  | inr FileNotFound => mret tt
  | inr e => throw e
  end.

Definition create_file (fuel : nat) (path : PathBuf) : FsM unit :=
  match PathImpl.last_segment path with
  | None => throw FileExists
  | Some name =>
      parent ← get_file_metadata fuel (PathImpl.parent path);
      if not_dir parent then throw FileTypeMismatch
      else
        dir ← directory_cluster parent;
        check_absent fuel dir name;;
        cluster ← find_available_cluster fuel;
        created ← attempt (create_file_meta fuel dir (Fat32Name.new name cluster ATTR_ARCHIVE));
        match created with
        | inl _ => mret tt
        | inr e => free_cluster cluster;; throw e
        end
  end.

Definition create_directory (fuel : nat) (path : PathBuf) : FsM unit :=
  match PathImpl.last_segment path with
  | None => throw FileExists
  | Some name =>
      parent ← get_file_metadata fuel (PathImpl.parent path);
      if not_dir parent then throw FileTypeMismatch
      else
        dir ← directory_cluster parent;
        check_absent fuel dir name;;
        cluster ← find_available_cluster fuel;
        sector ← get_sector_by_cluster cluster;
        b ← gets bpb;
        cleared ← attempt (on_device (write_zeros sector (sectors_per_cluster b)));
        match cleared with
        | inr e => attempt (free_cluster cluster);; throw e
        | inl _ =>
            created ← attempt
              (create_file_meta fuel dir (Fat32Name.new name cluster ATTR_DIRECTORY));
            match created with
            | inl _ => mret tt
            | inr e => attempt (free_cluster cluster);; throw e
            end
        end
  end.

Definition open_file (fuel : nat) (path : PathBuf) : FsM Fat32FileHandle :=
  file ← get_file_metadata fuel path;
  match file with
  | None => throw FileTypeMismatch
  | Some file =>
      if Fat32Name.is_dir file then throw FileTypeMismatch
      else
        occupied ← gets occupied_file;
        if decide (Fat32Name.start_cluster file ∈ occupied) then throw FileOccupied
        else
          modify (set_occupied ({[ Fat32Name.start_cluster file ]} ∪ occupied));;
          mret (mkHandle true file 0 false)
  end.

Definition delete_file (fuel : nat) (path : PathBuf) : FsM unit :=
  file ← get_file_metadata fuel path;
  match file with
  | None => throw FileTypeMismatch
  | Some file =>
      if Fat32Name.is_dir file then throw FileTypeMismatch
      else
        occupied ← gets occupied_file;
        if decide (Fat32Name.start_cluster file ∈ occupied) then throw FileOccupied
        else
          delete_file_meta fuel file;;
          free_chain fuel (Fat32Name.start_cluster file)
  end.

Definition delete_directory (fuel : nat) (path : PathBuf) : FsM unit :=
  file ← get_file_metadata fuel path;
  match file with
  | None => throw OperationNotSupport
  | Some file =>
      if negb (Fat32Name.is_dir file) then throw FileTypeMismatch
      else
        files ← get_all_filemeta_by_cluster fuel (Fat32Name.start_cluster file);
        match files with
        | _ :: _ => throw FileExists
        | [] =>
            delete_file_meta fuel file;;
            free_chain fuel (Fat32Name.start_cluster file)
        end
  end.

Definition rename (fuel : nat) (old_path new_path : PathBuf) : FsM unit :=
  src ← get_file_metadata fuel old_path;
  match src with
  | None => throw OperationNotSupport
  | Some src =>
      dst_parent ← get_file_metadata fuel (PathImpl.parent new_path);
      dst_parent_cluster ← directory_cluster dst_parent;
      match PathImpl.last_segment new_path with
      | None => throw OperationNotSupport
      | Some last_segment =>
          check_absent fuel dst_parent_cluster last_segment;;
          delete_file_meta fuel src;;
          create_file_meta fuel dst_parent_cluster src
      end
  end.

Definition get_metadata (fuel : nat) (path : PathBuf) : FsM FileMetadata :=
  file ← get_file_metadata fuel path;
  match file with
  | None => throw OperationNotSupport
  | Some file => get_fs_metadata fuel file
  end.

Definition list_directory (fuel : nat) (path : PathBuf) : FsM (list FileMetadata) :=
  file ← get_file_metadata fuel path;
  if not_dir file then throw FileTypeMismatch
  else
    cluster ← directory_cluster file;
    files ← get_all_filemeta_by_cluster fuel cluster;
    for_each files (fun file result =>
      m ← get_fs_metadata fuel file;
      mret (result ++ [m])) [].

Definition unmount : FsM unit := mret tt.

End fs.
