(* ===== verification/Fat32Handle.v ===== *)
(** * FAT32: file handles (library/filesystem/src/fs/fat32.rs)

    [FileHandle for Fat32FileHandle]. An operation runs on the handle and the
    file system together; the pointer of the handle moves while an operation
    runs, so it has moved also when the operation fails.

    The content of a file is the bytes of the clusters of its chain:
    [read] returns a slice of it and [write] splices into it, allocating
    clusters as it goes. *)
From S2P Require Import Prelude Text Path Device MemoryDevice Fat32Types Fat32Name Fat32Format Fat32Table Fat32Dir Fat32Fs.

Definition set_file_size (n : Z) (e : DirectoryEntryShort) : DirectoryEntryShort :=
  mkShort (sh_name e) (sh_ext e) (sh_attr e) (sh_reserved e) (create_time_tenths e)
    (create_time e) (create_date e) (last_access_date e) (first_cluster_high e)
    (write_time e) (write_date e) (first_cluster_low e) n.

(** ** Copying between a buffer and a cluster buffer *)

(** The variables of the loop over the sectors of a cluster: the pointer of
    the handle, the bytes of the file that lie before the sector, the bytes
    copied so far, the bytes to copy, and the buffer that is written to. *)
Record Copy : Type := mkCopy {
  c_pointer : Z;
  c_offset : Z;
  c_done : Z;
  c_remain : Z;
  c_out : list Z;
}.

Definition skip_sector (bytes_per_sector : Z) (c : Copy) : Copy :=
  mkCopy (c_pointer c) (c_offset c + bytes_per_sector) (c_done c) (c_remain c) (c_out c).

(** After a copy of [n] bytes: the lines under "loop invariant". *)
Definition advance (bytes_per_sector n : Z) (out : list Z) (c : Copy) : Copy :=
  mkCopy (c_pointer c + n) (c_offset c + bytes_per_sector) (c_done c + n) (c_remain c - n) out.

Section sectors.
  Context {S : Type} (bytes_per_sector block_size : Z).

(** [read]: from sector [i] of [cluster_buffer] on, [n] sectors, into the
    caller's buffer. The [bool] is the [break] out of the cluster loop. *)
Fixpoint read_sectors (cluster_buffer : list Z) (i n : nat) (c : Copy)
    : M S FileSystemError (bool * Copy) :=
  match n with
  | O => mret (false, c)
  | Datatypes.S n' =>
      if c_offset c + bytes_per_sector <? c_pointer c then
        read_sectors cluster_buffer (Datatypes.S i) n' (skip_sector bytes_per_sector c)
      else
        copy_start ← checked 64 (c_pointer c - c_offset c);
        room ← checked 64 (bytes_per_sector - copy_start);
        let copy_length := room `min` c_remain c in
        let from := Z.of_nat i * block_size + copy_start in
        rust_assert (from + copy_length <=? Z.of_nat (length cluster_buffer));;
        rust_assert (c_done c + copy_length <=? Z.of_nat (length (c_out c)));;
        let c := advance bytes_per_sector copy_length
          (splice (Z.to_nat (c_done c))
             (slice (Z.to_nat from) (Z.to_nat copy_length) cluster_buffer) (c_out c)) c in
        if c_remain c =? 0 then mret (true, c)
        else
          rust_assert (c_offset c =? c_pointer c);;
          read_sectors cluster_buffer (Datatypes.S i) n' c
  end.

(** [write]: from the caller's [buf] into [c_out], the cluster buffer; both
    loops over clusters have this body. *)
Fixpoint write_sectors (buf : list Z) (i n : nat) (c : Copy) : M S FileSystemError Copy :=
  match n with
  | O => mret c
  | Datatypes.S n' =>
      if c_offset c + bytes_per_sector <? c_pointer c then
        write_sectors buf (Datatypes.S i) n' (skip_sector bytes_per_sector c)
      else
        copy_start ← checked 64 (c_pointer c - c_offset c);
        room ← checked 64 (bytes_per_sector - copy_start);
        let copy_length := room `min` c_remain c in
        let to := Z.of_nat i * block_size + copy_start in
        rust_assert (to + copy_length <=? Z.of_nat (length (c_out c)));;
        rust_assert (c_done c + copy_length <=? Z.of_nat (length buf));;
        let c := advance bytes_per_sector copy_length
          (splice (Z.to_nat to)
             (slice (Z.to_nat (c_done c)) (Z.to_nat copy_length) buf) (c_out c)) c in
        if c_remain c =? 0 then mret c
        else
          rust_assert (c_offset c =? c_pointer c);;
          write_sectors buf (Datatypes.S i) n' c
  end.
End sectors.

(** ** The operations *)
Section handle.
  Context {D : Type} `{!BlockDevice D}.

Definition HM (A : Type) : Type := M (Fat32FileHandle * Fat32Inner D) FileSystemError A.

Definition on_fs {A} (m : FsM D A) : HM A := zoom snd (fun s st => (st.1, s)) m.

Definition set_pointer (p : Z) (h : Fat32FileHandle) : Fat32FileHandle :=
  mkHandle (inner h) (metadata h) p (closed h).

Definition set_size (n : Z) (h : Fat32FileHandle) : Fat32FileHandle :=
  let m := metadata h in
  mkHandle (inner h)
    (mkMeta (set_file_size n (short m)) (long m) (m_start_cluster m) (m_start_sector m)
       (m_start_sector_offset m) (short_cluster m) (short_sector m) (short_sector_offset m))
    (pointer h) (closed h).

Definition modify_handle (f : Fat32FileHandle -> Fat32FileHandle) : HM unit :=
  modify (fun st => (f st.1, st.2)).

(** [self.inner.upgrade().ok_or(Unmounted)?] *)
Definition upgrade : HM unit :=
  h ← gets fst;
  if inner h then mret tt else throw Unmounted.

Definition check_open : HM unit :=
  h ← gets fst;
  if closed h then throw FileClosed else mret tt.

Definition close : HM unit :=
  check_open;;
  upgrade;;
  h ← gets fst;
  on_fs (modify (fun s =>
    set_occupied (occupied_file s ∖ {[ Fat32Name.start_cluster (metadata h) ]}) s));;
  modify_handle (fun h => mkHandle false (metadata h) (pointer h) true).

Definition move_pointer (position : Z) : HM unit :=
  check_open;;
  h ← gets fst;
  modify_handle (set_pointer (position `min` file_size (short (metadata h)))).

Definition get_pointer : HM Z :=
  check_open;;
  h ← gets fst;
  mret (pointer h).

Fixpoint read_clusters (fuel : nat) (cluster : Z) (cluster_buffer : list Z) (c : Copy)
    : HM (list Z) :=
  match fuel with
  | O => diverge
  | S fuel =>
      if is_end FAT_ENTRY_EOC_START cluster || (c_remain c <=? 0) then mret (c_out c)
      else
        b ← gets (fun st => bpb st.2);
        size ← gets (fun st => block_size (device st.2));
        let bytes_per_cluster := bytes_per_sector b * sectors_per_cluster b in
        if c_offset c + bytes_per_cluster <? c_pointer c then
          next ← on_fs (get_next_cluster cluster);
          read_clusters fuel next cluster_buffer (skip_sector bytes_per_cluster c)
        else
          sector ← on_fs (get_sector_by_cluster cluster);
          cluster_buffer ← on_fs (read_cluster sector cluster_buffer);
          '(finished, c) ← read_sectors (bytes_per_sector b) size cluster_buffer 0
            (Z.to_nat (sectors_per_cluster b)) c;
          modify_handle (set_pointer (c_pointer c));;
          if (finished : bool) then mret (c_out c)
          else
            next ← on_fs (get_next_cluster cluster);
            read_clusters fuel next cluster_buffer c
  end.

(** The number of bytes read, and the caller's buffer after the call. *)
Definition read (fuel : nat) (buf : list Z) : HM (Z * list Z) :=
  check_open;;
  upgrade;;
  h ← gets fst;
  s ← gets snd;
  left ← checked 64 (file_size (short (metadata h)) - pointer h);
  let read_length := Z.of_nat (length buf) `min` left in
  buf ← read_clusters fuel (Fat32Name.start_cluster (metadata h)) (cluster_zeros s)
    (mkCopy (pointer h) 0 0 read_length buf);
  mret (read_length, buf).

(** The first loop of [write], over the clusters that the file has: the last
    of them and the state of the copy. *)
Fixpoint write_clusters (fuel : nat) (buf : list Z) (last_cluster cluster : Z) (c : Copy)
    : HM (Z * Copy) :=
  match fuel with
  | O => diverge
  | S fuel =>
      if is_end FAT_ENTRY_EOC_START cluster || (c_remain c <=? 0) then mret (last_cluster, c)
      else
        b ← gets (fun st => bpb st.2);
        size ← gets (fun st => block_size (device st.2));
        let bytes_per_cluster := bytes_per_sector b * sectors_per_cluster b in
        if c_offset c + bytes_per_cluster <? c_pointer c then
          next ← on_fs (get_next_cluster cluster);
          write_clusters fuel buf cluster next (skip_sector bytes_per_cluster c)
        else
          current_sector ← on_fs (get_sector_by_cluster cluster);
          cluster_buffer ← on_fs (read_cluster current_sector (c_out c));
          c ← write_sectors (bytes_per_sector b) size buf 0 (Z.to_nat (sectors_per_cluster b))
            (mkCopy (c_pointer c) (c_offset c) (c_done c) (c_remain c) cluster_buffer);
          modify_handle (set_pointer (c_pointer c));;
          on_fs (on_device (write_blocks current_sector (sectors_per_cluster b) (c_out c)));;
          next ← on_fs (get_next_cluster cluster);
          write_clusters fuel buf cluster next c
  end.

(** The second loop, [scan] being the fuel of the search: a new cluster at the end of the chain for what is left. *)
Fixpoint append_clusters (scan fuel : nat) (buf : list Z) (last_cluster : Z) (c : Copy) : HM Copy :=
  match fuel with
  | O => diverge
  | S fuel =>
      if c_remain c <=? 0 then mret c
      else
        cluster ← on_fs (find_available_cluster scan);
        rust_assert (negb (is_end FAT_ENTRY_RESERVED_START cluster));;
        rust_assert (negb (is_end FAT_ENTRY_RESERVED_START last_cluster));;
        on_fs (update_cluster last_cluster cluster);;
        b ← gets (fun st => bpb st.2);
        size ← gets (fun st => block_size (device st.2));
        c ← write_sectors (bytes_per_sector b) size buf 0 (Z.to_nat (sectors_per_cluster b))
          (mkCopy (c_pointer c) (c_offset c) (c_done c) (c_remain c)
             (replicate (length (c_out c)) 0));
        modify_handle (set_pointer (c_pointer c));;
        sector ← on_fs (get_sector_by_cluster cluster);
        on_fs (on_device (write_blocks sector (sectors_per_cluster b) (c_out c)));;
        append_clusters scan fuel buf cluster c
  end.

Definition write (fuel : nat) (buf : list Z) : HM unit :=
  check_open;;
  h ← gets fst;
  if U32_MAX <? pointer h + Z.of_nat (length buf) then throw FileTooLarge
  else
    upgrade;;
    s ← gets snd;
    let size := file_size (short (metadata h)) in
    '(last_cluster, c) ← write_clusters fuel buf 0 (Fat32Name.start_cluster (metadata h))
      (mkCopy (pointer h) 0 0 (Z.of_nat (length buf)) (cluster_zeros s));
    append_clusters fuel fuel buf last_cluster c;;
    h ← gets fst;
    if size <? pointer h then
      modify_handle (set_size (wrap 32 (pointer h)));;
      h ← gets fst;
      on_fs (update_file_metadata (metadata h))
    else mret tt.

End handle.
Arguments HM D A : clear implicits.

(** ** Lemmas: the bytes of a cluster buffer *)

(** The bytes of sectors [i .. i + n) of a cluster buffer that belong to the
    file system: a sector may be smaller than a block. *)
Definition payload (bps size i n : nat) (buffer : list Z) : list Z :=
  concat ((fun k => slice (k * size) bps buffer) <$> seq i n).

Lemma length_payload bps size i n buffer :
  (bps <= size)%nat -> ((i + n) * size <= length buffer)%nat ->
  length (payload bps size i n buffer) = (n * bps)%nat.
Proof.
  intros Hbs. revert i. induction n as [|n IH]; intros i Hl; [done|].
  change (length (slice (i * size) bps buffer ++ payload bps size (S i) n buffer) = (S n * bps)%nat).
  rewrite length_app, IH, length_slice by nia. lia.
Qed.

Lemma payload_cons bps size i n buffer :
  payload bps size i (S n) buffer = slice (i * size) bps buffer ++ payload bps size (S i) n buffer.
Proof. done. Qed.

Lemma payload_ext bps size i n buffer buffer' :
  (forall k, (i <= k < i + n)%nat -> slice (k * size) bps buffer' = slice (k * size) bps buffer) ->
  payload bps size i n buffer' = payload bps size i n buffer.
Proof.
  intros Hk. unfold payload. f_equal. apply list_fmap_ext. intros j k Hj.
  apply lookup_seq in Hj. apply Hk. lia.
Qed.

Lemma payload_bytes bps size i n buffer :
  Forall is_byte buffer -> Forall is_byte (payload bps size i n buffer).
Proof.
  intros Hb. apply Forall_concat, Forall_fmap, Forall_true. intros k. by apply Forall_slice.
Qed.

(** The state of a copy after [k] more bytes. *)
Definition copied (c : Copy) (k offset : Z) (out : list Z) : Copy :=
  mkCopy (c_pointer c + k) offset (c_done c + k) (c_remain c - k) out.

Definition copy_ok (bps : Z) (n : nat) (c : Copy) : Prop :=
  0 <= c_offset c <= c_pointer c /\ c_pointer c <= c_offset c + Z.of_nat n * bps /\
  0 < c_remain c /\ 0 <= c_done c /\ c_pointer c + c_remain c < 2 ^ 63.

(** What the loop over [n] sectors copies at most. *)
Definition copy_count (bps : Z) (n : nat) (c : Copy) : Z :=
  c_remain c `min` (c_offset c + Z.of_nat n * bps - c_pointer c).

Section copy_lemmas.
  Context {T : Type} (st : T) (bps size : Z).
  Hypothesis Hbps : 0 < bps <= size.
  Hypothesis Hmax : bps < 2 ^ 63.

Lemma row_fits i n (len : nat) :
  ((i + S n) * Z.to_nat size <= len)%nat ->
  (i * Z.to_nat size + Z.to_nat size <= len)%nat /\ Z.of_nat i * size + size <= Z.of_nat len.
Proof.
  intros Hl. assert (i * Z.to_nat size + Z.to_nat size <= len)%nat; [|lia].
  rewrite Nat.add_succ_r, Nat.mul_succ_l, Nat.mul_add_distr_r in Hl. lia.
Qed.

(** One sector, when it is not skipped. *)
Definition read_one (buffer : list Z) (i : nat) (c : Copy) : Copy :=
  let cs := c_pointer c - c_offset c in
  let n := (bps - cs) `min` c_remain c in
  advance bps n (splice (Z.to_nat (c_done c))
    (slice (i * Z.to_nat size + Z.to_nat cs) (Z.to_nat n) buffer) (c_out c)) c.

Lemma read_sectors_one buffer i n c :
  copy_ok bps (S n) c -> c_pointer c <= c_offset c + bps ->
  ((i + S n) * Z.to_nat size <= length buffer)%nat ->
  c_done c + c_remain c <= Z.of_nat (length (c_out c)) ->
  read_sectors bps size buffer i (S n) c st =
    if c_remain (read_one buffer i c) =? 0 then (Ok (true, read_one buffer i c), st)
    else read_sectors bps size buffer (S i) n (read_one buffer i c) st.
Proof.
  intros (Ho & Hp & Hr & Hd & Hpr) Hin Hl Hout. cbn [read_sectors].
  rewrite (proj2 (Z.ltb_ge _ _)) by lia.
  set (cs := c_pointer c - c_offset c). set (k := (bps - cs) `min` c_remain c).
  assert (Hfrom : Z.to_nat (Z.of_nat i * size + cs) = (i * Z.to_nat size + Z.to_nat cs)%nat) by lia.
  unfold mbind, M_bind, checked, fits.
  rewrite (proj2 (Z.leb_le 0 cs)), (proj2 (Z.ltb_lt cs _)) by lia. cbn [andb mret M_ret].
  rewrite (proj2 (Z.leb_le 0 (bps - cs))), (proj2 (Z.ltb_lt (bps - cs) _)) by lia.
  cbn [andb mret M_ret]. fold k. unfold rust_assert.
  destruct (row_fits _ _ _ Hl). rewrite (proj2 (Z.leb_le (Z.of_nat i * size + cs + k) _)) by lia.
  rewrite (proj2 (Z.leb_le (c_done c + k) _)) by lia. rewrite Hfrom.
  cbn [mret M_ret]. change (advance bps k _ c) with (read_one buffer i c).
  destruct (c_remain (read_one buffer i c) =? 0) eqn:Hz; [done|].
  rewrite (proj2 (Z.eqb_eq _ _)); [done|]. bool_to_prop. cbn in Hz |- *. lia.
Qed.

Lemma read_sectors_run buffer i n c :
  copy_ok bps n c -> ((i + n) * Z.to_nat size <= length buffer)%nat ->
  c_done c + c_remain c <= Z.of_nat (length (c_out c)) ->
  exists offset,
    read_sectors bps size buffer i n c st =
      (Ok (c_remain c - copy_count bps n c =? 0,
           copied c (copy_count bps n c) offset
             (splice (Z.to_nat (c_done c))
                (slice (Z.to_nat (c_pointer c - c_offset c)) (Z.to_nat (copy_count bps n c))
                   (payload (Z.to_nat bps) (Z.to_nat size) i n buffer)) (c_out c))), st) /\
    (copy_count bps n c < c_remain c -> offset = c_offset c + Z.of_nat n * bps).
Proof.
  revert i c. induction n as [|n IH]; intros i c Hc Hl Hout.
  { destruct Hc as (? & ? & ? & ? & ?). unfold copy_count. exists (c_offset c).
    replace (c_remain c `min` _) with 0 by lia. rewrite slice_0, splice_nil, Z.sub_0_r.
    rewrite (proj2 (Z.eqb_neq _ _)) by lia. unfold copied. rewrite !Z.add_0_r, Z.sub_0_r.
    split; [by destruct c|lia]. }
  assert (Hs0 : length (slice (i * Z.to_nat size) (Z.to_nat bps) buffer) = Z.to_nat bps)
    by (apply length_slice; nia).
  destruct (decide (c_offset c + bps < c_pointer c)).
  - destruct Hc as (? & ? & ? & ? & ?).
    destruct (IH (S i) (skip_sector bps c)) as (o & Hrun & Ho); [|lia|done|].
    { unfold copy_ok, skip_sector; cbn; lia. }
    exists o. cbn [read_sectors]. rewrite (proj2 (Z.ltb_lt _ _)), Hrun by lia.
    unfold copy_count, skip_sector, copied in *; cbn [c_pointer c_offset c_done c_remain c_out] in *.
    rewrite payload_cons, slice_app_r, Hs0 by lia.
    replace (c_offset c + bps + Z.of_nat n * bps) with (c_offset c + Z.of_nat (S n) * bps) in * by lia.
    replace (Z.to_nat (c_pointer c - c_offset c) - Z.to_nat bps)%nat
      with (Z.to_nat (c_pointer c - (c_offset c + bps))) by lia. done.
  - rewrite read_sectors_one by (done || lia). destruct Hc as (? & ? & ? & ? & ?).
    set (cs := c_pointer c - c_offset c). rewrite payload_cons.
    destruct (decide (c_remain c <= bps - cs)).
    + assert (copy_count bps (S n) c = c_remain c) as -> by (unfold copy_count; nia).
      exists (c_offset c + bps). unfold read_one. fold cs. rewrite Z.min_r by lia.
      cbn [c_remain advance]. rewrite Z.sub_diag. cbn [Z.eqb]. split; [|lia].
      unfold advance, copied. rewrite Z.sub_diag. rewrite slice_app_l by lia.
      rewrite slice_slice by lia. done.
    + destruct (IH (S i) (read_one buffer i c)) as (o & Hrun & Ho); [|lia| |].
      { unfold copy_ok, read_one; cbn. fold cs. lia. }
      { unfold read_one; cbn. fold cs. rewrite Z.min_l by lia.
        rewrite length_splice; [lia|]. rewrite length_slice by nia. lia. }
      unfold copy_count, read_one, copied in Hrun, Ho; cbn in Hrun, Ho; fold cs in Hrun, Ho.
      rewrite (Z.min_l (bps - cs) (c_remain c)) in Hrun, Ho by lia.
      set (k := (c_remain c - (bps - cs)) `min` (c_offset c + bps + Z.of_nat n * bps - (c_pointer c + (bps - cs)))) in *.
      assert (copy_count bps (S n) c = bps - cs + k) as -> by (unfold copy_count, k; lia).
      exists o. unfold read_one at 1. cbn [c_remain advance]. fold cs.
      rewrite (proj2 (Z.eqb_neq _ _)) by lia.
      unfold read_one. fold cs. rewrite (Z.min_l (bps - cs)) by lia. rewrite Hrun.
      split; [|intros; rewrite Ho; lia].
      unfold copied. rewrite !Z.add_assoc, !Z.sub_add_distr. do 4 f_equal; try lia.
      assert (Hx : length (slice (i * Z.to_nat size + Z.to_nat cs) (Z.to_nat (bps - cs)) buffer) = Z.to_nat (bps - cs))
        by (apply length_slice; nia).
      assert (Hp : length (payload (Z.to_nat bps) (Z.to_nat size) (S i) n buffer) = (n * Z.to_nat bps)%nat)
        by (apply length_payload; lia).
      replace (Z.to_nat (c_done c + (bps - cs))) with (Z.to_nat (c_done c) + Z.to_nat (bps - cs))%nat by lia.
      rewrite <-Hx at 1. rewrite splice_splice_adj by (rewrite Hx, length_slice; lia).
      replace (Z.to_nat (bps - cs + k)) with (Z.to_nat (bps - cs) + Z.to_nat k)%nat by lia.
      rewrite slice_add, slice_app_l, slice_slice, slice_app_r, Hs0 by lia.
      do 3 f_equal. lia.
Qed.

Definition write_one (buf : list Z) (i : nat) (c : Copy) : Copy :=
  let cs := c_pointer c - c_offset c in
  let n := (bps - cs) `min` c_remain c in
  advance bps n (splice (i * Z.to_nat size + Z.to_nat cs)
    (slice (Z.to_nat (c_done c)) (Z.to_nat n) buf) (c_out c)) c.

Lemma write_sectors_one buf i n c :
  copy_ok bps (S n) c -> c_pointer c <= c_offset c + bps ->
  ((i + S n) * Z.to_nat size <= length (c_out c))%nat ->
  c_done c + c_remain c <= Z.of_nat (length buf) ->
  write_sectors bps size buf i (S n) c st =
    if c_remain (write_one buf i c) =? 0 then (Ok (write_one buf i c), st)
    else write_sectors bps size buf (S i) n (write_one buf i c) st.
Proof.
  intros (Ho & Hp & Hr & Hd & Hpr) Hin Hl Hout. cbn [write_sectors].
  rewrite (proj2 (Z.ltb_ge _ _)) by lia.
  set (cs := c_pointer c - c_offset c). set (k := (bps - cs) `min` c_remain c).
  assert (Hto : Z.to_nat (Z.of_nat i * size + cs) = (i * Z.to_nat size + Z.to_nat cs)%nat) by lia.
  unfold mbind, M_bind, checked, fits.
  rewrite (proj2 (Z.leb_le 0 cs)), (proj2 (Z.ltb_lt cs _)) by lia. cbn [andb mret M_ret].
  rewrite (proj2 (Z.leb_le 0 (bps - cs))), (proj2 (Z.ltb_lt (bps - cs) _)) by lia.
  cbn [andb mret M_ret]. fold k. unfold rust_assert.
  destruct (row_fits _ _ _ Hl). rewrite (proj2 (Z.leb_le (Z.of_nat i * size + cs + k) _)) by lia.
  rewrite (proj2 (Z.leb_le (c_done c + k) _)) by lia. rewrite Hto.
  cbn [mret M_ret]. change (advance bps k _ c) with (write_one buf i c).
  destruct (c_remain (write_one buf i c) =? 0) eqn:Hz; [done|].
  rewrite (proj2 (Z.eqb_eq _ _)); [done|]. bool_to_prop. cbn in Hz |- *. lia.
Qed.

(** What the loop does to the cluster buffer: sectors before [i] keep their
    content, and the bytes of the file are those of [buf] where the copy goes. *)
Definition buffer_step (buf : list Z) (i n : nat) (c : Copy) (out : list Z) : Prop :=
  length out = length (c_out c) /\
  (forall a b, (a + b <= i * Z.to_nat size)%nat -> slice a b out = slice a b (c_out c)) /\
  payload (Z.to_nat bps) (Z.to_nat size) i n out =
    splice (Z.to_nat (c_pointer c - c_offset c))
      (slice (Z.to_nat (c_done c)) (Z.to_nat (copy_count bps n c)) buf)
      (payload (Z.to_nat bps) (Z.to_nat size) i n (c_out c)) /\
  (Forall is_byte buf -> Forall is_byte (c_out c) -> Forall is_byte out).

Lemma write_one_buffer buf i n c :
  copy_ok bps (S n) c -> c_pointer c <= c_offset c + bps ->
  ((i + S n) * Z.to_nat size <= length (c_out c))%nat ->
  c_done c + c_remain c <= Z.of_nat (length buf) ->
  let cs := c_pointer c - c_offset c in
  let x := slice (Z.to_nat (c_done c)) (Z.to_nat ((bps - cs) `min` c_remain c)) buf in
  let out := c_out (write_one buf i c) in
  length out = length (c_out c) /\
  (forall a b, (a + b <= i * Z.to_nat size)%nat -> slice a b out = slice a b (c_out c)) /\
  slice (i * Z.to_nat size) (Z.to_nat bps) out =
    splice (Z.to_nat cs) x (slice (i * Z.to_nat size) (Z.to_nat bps) (c_out c)) /\
  payload (Z.to_nat bps) (Z.to_nat size) (S i) n out =
    payload (Z.to_nat bps) (Z.to_nat size) (S i) n (c_out c) /\
  length x = Z.to_nat ((bps - cs) `min` c_remain c) /\
  (Forall is_byte buf -> Forall is_byte (c_out c) -> Forall is_byte out).
Proof.
  intros (Ho & Hp & Hr & Hd & Hpr) Hin Hl Hb cs x out.
  assert (Hx : length x = Z.to_nat ((bps - cs) `min` c_remain c)) by (apply length_slice; lia).
  unfold out, write_one; cbn [c_out advance]; fold cs; fold x.
  destruct (row_fits _ _ _ Hl).
  split_conj.
  - apply length_splice. lia.
  - intros a b Hab. apply slice_splice_ne; lia.
  - rewrite slice_splice_in by lia. f_equal. lia.
  - apply payload_ext. intros k Hk. apply slice_splice_ne; [lia|]. right.
    pose proof (Nat.mul_le_mono_r (S i) k (Z.to_nat size)). lia.
  - done.
  - intros. apply Forall_splice; [by apply Forall_slice|done].
Qed.

Lemma write_sectors_run buf i n c :
  copy_ok bps n c -> ((i + n) * Z.to_nat size <= length (c_out c))%nat ->
  c_done c + c_remain c <= Z.of_nat (length buf) ->
  exists offset out,
    write_sectors bps size buf i n c st = (Ok (copied c (copy_count bps n c) offset out), st) /\
    (copy_count bps n c < c_remain c -> offset = c_offset c + Z.of_nat n * bps) /\
    buffer_step buf i n c out.
Proof.
  revert i c. induction n as [|n IH]; intros i c Hc Hl Hb.
  { destruct Hc as (? & ? & ? & ? & ?). exists (c_offset c), (c_out c).
    unfold buffer_step, copied. assert (copy_count bps 0 c = 0) as -> by (unfold copy_count; lia).
    rewrite slice_0, splice_nil, !Z.add_0_r, Z.sub_0_r. split_conj; [by destruct c|lia|done..]. }
  assert (Hs0 : length (slice (i * Z.to_nat size) (Z.to_nat bps) (c_out c)) = Z.to_nat bps)
    by (apply length_slice; nia).
  destruct (decide (c_offset c + bps < c_pointer c)).
  - destruct Hc as (? & ? & ? & ? & ?).
    destruct (IH (S i) (skip_sector bps c)) as (o & out & Hrun & Ho & Hlen & Hpre & Hpay & Hbytes);
      [unfold copy_ok, skip_sector; cbn; lia|cbn; lia|done|].
    assert (Hk : copy_count bps n (skip_sector bps c) = copy_count bps (S n) c)
      by (unfold copy_count, skip_sector; cbn; lia).
    rewrite Hk in *. cbn [c_pointer c_offset c_done c_remain c_out skip_sector] in *.
    exists o, out. cbn [write_sectors]. rewrite (proj2 (Z.ltb_lt _ _)), Hrun by lia.
    split_conj; [done|intros; rewrite Ho; lia|].
    unfold buffer_step. split_conj; [done| | |done].
    + intros a b Hab. apply Hpre. lia.
    + rewrite !payload_cons, Hpay, Hpre, splice_app_r, Hs0 by lia. f_equal. f_equal. lia.
  - rewrite write_sectors_one by (done || lia).
    destruct (write_one_buffer buf i n c) as (Hlen & Hpre & Hone & Hrest & Hx & Hby); [done|lia|done..|].
    destruct Hc as (? & ? & ? & ? & ?).
    set (cs := c_pointer c - c_offset c) in *.
    destruct (decide (c_remain c <= bps - cs)).
    + assert (Hk : copy_count bps (S n) c = c_remain c) by (unfold copy_count; nia).
      exists (c_offset c + bps), (c_out (write_one buf i c)). rewrite Z.min_r in Hone, Hx by lia.
      unfold buffer_step. fold cs. rewrite Hk. split_conj; [|lia|done..| |done].
      * unfold write_one. fold cs. rewrite Z.min_r by lia. cbn [c_remain c_out advance].
        by rewrite Z.sub_diag.
      * rewrite !payload_cons, splice_app_l, Hone, Hrest by lia. done.
    + rewrite Z.min_l in Hone, Hx by lia.
      assert (Hc1 : c_remain (write_one buf i c) = c_remain c - (bps - cs) /\
        c_offset (write_one buf i c) = c_offset c + bps /\
        c_pointer (write_one buf i c) = c_offset c + bps /\
        c_done (write_one buf i c) = c_done c + (bps - cs)) by (cbn; fold cs; lia).
      destruct Hc1 as (Hr1 & Ho1 & Hp1 & Hd1).
      destruct (IH (S i) (write_one buf i c)) as (o & out & Hrun & Ho & Hlen' & Hpre' & Hpay & Hbytes);
        [unfold copy_ok; lia|lia|lia|].
      unfold copied in Hrun.
      assert (Hk : copy_count bps (S n) c = bps - cs + copy_count bps n (write_one buf i c)).
      { unfold copy_count. rewrite Hr1, Ho1, Hp1. lia. }
      assert (0 <= copy_count bps n (write_one buf i c) <= Z.of_nat n * bps) by (unfold copy_count; rewrite Hr1, Ho1, Hp1; lia).
      assert (copy_count bps (S n) c <= c_remain c) by (unfold copy_count; lia).
      set (k := copy_count bps n (write_one buf i c)) in *.
      exists o, out. rewrite Hr1, (proj2 (Z.eqb_neq _ _)), Hrun by lia. clear Hrun.
      split_conj; [|intros; rewrite Ho; lia|].
      * unfold copied. rewrite Hp1, Hr1, Hd1. do 3 f_equal; lia.
      * unfold buffer_step. fold cs. split_conj; [congruence| | |auto].
        -- intros a b Hab. rewrite Hpre' by lia. apply Hpre. lia.
        -- rewrite !payload_cons, Hpay, Hpre', Hone, Hrest by lia. clear Hpay Hone Hrest Hpre Hpre'.
           rewrite Hp1, Ho1, Hd1, Z.sub_diag, Hk.
           replace (Z.to_nat (bps - cs + k)) with (Z.to_nat (bps - cs) + Z.to_nat k)%nat by lia.
           rewrite slice_add.
           rewrite <-splice_splice_adj, Hx.
           ++ rewrite splice_app_l by lia. rewrite splice_app_r by (rewrite length_splice; lia).
              rewrite length_splice by lia. f_equal. f_equal; [lia|]. f_equal. lia.
           ++ rewrite !length_app, Hs0, Hx, length_slice by lia.
              rewrite length_payload by lia. lia.
Qed.
End copy_lemmas.

(** ** The content of a file *)
Section content.
  Context {D : Type} `{BlockDevice D, !BlockDeviceSpec D}.
  Implicit Types s : Fat32Inner D.

Definition cluster_buffer s (c : Z) : list Z :=
  concat (blk (device s) <$> seqZ (cluster_block s c) (sectors_per_cluster (bpb s))).

Definition cluster_data s (c : Z) : list Z :=
  payload (Z.to_nat (bytes_per_sector (bpb s))) (dir_size s) 0 (dir_sectors s) (cluster_buffer s c).

(** The bytes of the clusters of a chain. *)
Definition file_data s (l : list Z) : list Z := concat (cluster_data s <$> l).

Definition cluster_bytes s : Z := bytes_per_sector (bpb s) * sectors_per_cluster (bpb s).

Lemma cluster_geometry s : fat_ok s ->
  0 < bytes_per_sector (bpb s) <= block_size (device s) /\ bytes_per_sector (bpb s) < 2 ^ 16 /\
  0 < sectors_per_cluster (bpb s) < 2 ^ 8 /\ 0 < cluster_bytes s < 2 ^ 24.
Proof.
  intros Hok. pose proof (ok_bps _ Hok). pose proof (ok_spc _ Hok).
  destruct (ok_typed _ Hok) as (_ & _ & Hb & Hs & _). unfold uint in Hb, Hs.
  unfold cluster_bytes. split_conj; try lia; nia.
Qed.

Lemma block_in_cluster s c j : fat_ok s -> is_cluster s c ->
  cluster_block s c <= j < cluster_block s c + sectors_per_cluster (bpb s) ->
  0 <= j < block_count (device s).
Proof.
  intros Hok Hc Hj. destruct (cluster_block_range s c Hok Hc).
  destruct (fat_ok_bounds s Hok) as (? & ? & ? & ? & ? & ? & ?). unfold data_start in *. lia.
Qed.

Lemma length_cluster_buffer s c : fat_ok s -> is_cluster s c ->
  length (cluster_buffer s c) = (dir_sectors s * dir_size s)%nat.
Proof.
  intros Hok Hc. unfold cluster_buffer. rewrite (length_concat_seqZ _ _ _ (dir_size s)); [done|].
  intros j Hj. apply blk_length; [apply (ok_dev _ Hok)|by apply (block_in_cluster s c)].
Qed.

Lemma length_cluster_data s c : fat_ok s -> is_cluster s c ->
  length (cluster_data s c) = Z.to_nat (cluster_bytes s).
Proof.
  intros Hok Hc. destruct (cluster_geometry s Hok) as (? & ? & ? & ?).
  unfold cluster_data. rewrite length_payload; unfold cluster_bytes, dir_size, dir_sectors; [nia|lia|].
  rewrite length_cluster_buffer by done. unfold dir_size, dir_sectors. lia.
Qed.

Lemma length_file_data s l : fat_ok s -> Forall (is_cluster s) l ->
  length (file_data s l) = (length l * Z.to_nat (cluster_bytes s))%nat.
Proof.
  intros Hok. induction 1 as [|c l Hc _ IH]; [done|].
  change (file_data s (c :: l)) with (cluster_data s c ++ file_data s l).
  rewrite length_app, IH, length_cluster_data by done. cbn. lia.
Qed.

Lemma length_cluster_zeros s : fat_ok s ->
  length (cluster_zeros s) = (dir_sectors s * dir_size s)%nat.
Proof.
  intros Hok. destruct (cluster_geometry s Hok) as (? & ? & ? & ?).
  unfold cluster_zeros. rewrite length_zeros. unfold dir_sectors, dir_size. lia.
Qed.

Lemma read_cluster_run s c buf : fat_ok s -> is_cluster s c ->
  length buf = (dir_sectors s * dir_size s)%nat ->
  read_cluster (cluster_block s c) buf s = (Ok (cluster_buffer s c), s).
Proof.
  intros Hok Hc Hl. destruct (cluster_block_range s c Hok Hc).
  destruct (cluster_geometry s Hok) as (? & ? & ? & ?).
  destruct (fat_ok_bounds s Hok) as (? & ? & ? & ? & ? & ? & ?). unfold data_start in *.
  unfold read_cluster, mbind, M_bind, gets, on_device, zoom, map_err.
  rewrite read_blocks_spec; [by destruct s|apply (ok_dev _ Hok)|].
  unfold io_args. rewrite Hl. unfold dir_sectors, dir_size. lia.
Qed.

Lemma set_pointer_id h : set_pointer (pointer h) h = h.
Proof. by destruct h. Qed.

Lemma wp_on_fs {A} (m : FsM D A) h s Q :
  wp m s (fun a s' => Q a (h, s')) -> wp (on_fs m) (h, s) Q.
Proof. intros Hm. by apply wp_zoom. Qed.

Lemma wp_modify_handle f h s (Q : unit -> _ -> Prop) :
  Q tt (f h, s) -> wp (modify_handle (D:=D) f) (h, s) Q.
Proof. done. Qed.

(** The cluster loop of [read]: it copies the wanted part of the content. *)
Lemma read_clusters_run fuel s c l buffer k h :
  fat_ok s -> chain s c l -> (length l < fuel)%nat ->
  length buffer = (dir_sectors s * dir_size s)%nat ->
  0 <= c_offset k <= c_pointer k -> 0 <= c_remain k -> 0 <= c_done k -> pointer h = c_pointer k ->
  c_pointer k + c_remain k <= c_offset k + Z.of_nat (length l) * cluster_bytes s ->
  c_pointer k + c_remain k < 2 ^ 63 ->
  c_done k + c_remain k <= Z.of_nat (length (c_out k)) ->
  wp (read_clusters fuel c buffer k) (h, s) (fun out st =>
    out = splice (Z.to_nat (c_done k))
            (slice (Z.to_nat (c_pointer k - c_offset k)) (Z.to_nat (c_remain k)) (file_data s l))
            (c_out k) /\
    st = (set_pointer (c_pointer k + c_remain k) h, s)).
Proof.
  intros Hok. destruct (cluster_geometry s Hok) as (? & ? & ? & ?).
  revert c l buffer k h. induction fuel as [|fuel IH];
    intros c l buffer k h Hch Hfuel Hbuf Ho Hr Hd Hp Hin Hmax Hout; [lia|].
  cbn [read_clusters]. rewrite (is_end_chain _ s c l)
    by (done || unfold FAT_ENTRY_RESERVED_START, FAT_ENTRY_EOC_START; lia).
  destruct (decide (c_remain k = 0)) as [Hz|Hz].
  { rewrite (proj2 (Z.leb_le _ _)), orb_true_r by lia. apply wp_ret.
    by rewrite Hz, slice_0, splice_nil, Z.add_0_r, <-Hp, set_pointer_id. }
  destruct l as [|x l]; [cbn in Hin; lia|].
  apply chain_cons_inv in Hch as (-> & Hc & Hch).
  rewrite (proj2 (Z.leb_gt _ _)) by lia. cbn [orb].
  assert (Hcd := length_cluster_data s c Hok Hc).
  change (file_data s (c :: l)) with (cluster_data s c ++ file_data s l).
  wp_step. wp_step. wp_step. wp_step. cbn [snd]. fold (cluster_bytes s).
  destruct (c_offset k + cluster_bytes s <? c_pointer k) eqn:Hskip; bool_to_prop; cbn [length] in *.
  - wp_step. apply wp_on_fs. eapply wp_intro; [apply get_next_cluster_run; [done|unfold is_cluster in Hc; cbn; lia]|].
    eapply wp_mono; [apply (IH _ l); cbn; try done; lia|]. cbn beta.
    intros out st [-> ->]. cbn [c_pointer c_offset c_done c_remain c_out skip_sector]. split; [|done].
    rewrite slice_app_r, Hcd by lia. do 2 f_equal. lia.
  - wp_step. apply wp_on_fs. eapply wp_intro; [by apply get_sector_run|].
    wp_step. apply wp_on_fs. eapply wp_intro; [by apply read_cluster_run|].
    destruct (read_sectors_run (h, s) (bytes_per_sector (bpb s)) (block_size (device s)))
      with (buffer := cluster_buffer s c) (i := 0%nat) (n := dir_sectors s) (c := k)
      as (o & Hrun & Ho'); [lia|lia| | |done|].
    { unfold copy_ok, cluster_bytes, dir_sectors in *. lia. }
    { rewrite length_cluster_buffer by done. done. }
    assert (Hk : copy_count (bytes_per_sector (bpb s)) (dir_sectors s) k =
      c_remain k `min` (c_offset k + cluster_bytes s - c_pointer k)).
    { unfold copy_count, cluster_bytes, dir_sectors. lia. }
    rewrite Hk in *. set (n := c_remain k `min` _) in *.
    assert (Hn : 0 <= n /\ (n = c_remain k /\ c_remain k <= c_offset k + cluster_bytes s - c_pointer k \/
      n < c_remain k /\ n = c_offset k + cluster_bytes s - c_pointer k)) by lia.
    clearbody n. wp_step. eapply wp_intro; [exact Hrun|]. cbn beta iota. clear Hrun.
    fold (dir_size s). change (payload _ _ _ _ _) with (cluster_data s c).
    wp_step. apply wp_modify_handle. cbn [c_pointer c_out copied].
    destruct (c_remain k - n =? 0) eqn:Hfin; bool_to_prop.
    + apply wp_ret. assert (n = c_remain k) as -> by lia. split; [|done].
      rewrite slice_app_l by lia. done.
    + assert (o = c_offset k + cluster_bytes s) as ->
        by (rewrite Ho' by lia; unfold cluster_bytes, dir_sectors; lia).
      wp_step. apply wp_on_fs.
      eapply wp_intro; [apply get_next_cluster_run; [done|unfold is_cluster in Hc; lia]|].
      assert (Hx : length (slice (Z.to_nat (c_pointer k - c_offset k)) (Z.to_nat n) (cluster_data s c)) = Z.to_nat n)
        by (apply length_slice; lia).
      eapply wp_mono; [apply (IH _ l); cbn [c_pointer c_offset c_done c_remain c_out copied pointer set_pointer]|].
      all: try done; try lia.
      { rewrite length_cluster_buffer by done. done. }
      { rewrite length_splice by lia. lia. }
      cbn beta. intros out st [-> ->]. cbn [c_pointer c_offset c_done c_remain c_out copied].
      split; [|f_equal; destruct h; unfold set_pointer; cbn; f_equal; lia].
      replace (Z.to_nat (c_done k + n)) with (Z.to_nat (c_done k) + Z.to_nat n)%nat by lia.
      rewrite <-Hx at 1. rewrite splice_splice_adj
        by (rewrite Hx, length_slice; [lia|]; rewrite (length_file_data s l Hok (chain_clusters _ _ _ Hch)); lia).
      replace (Z.to_nat (c_remain k)) with (Z.to_nat n + Z.to_nat (c_remain k - n))%nat by lia.
      rewrite slice_add, slice_app_l, (slice_app_r (_ + _)), Hcd by lia.
      do 3 f_equal. lia.
Qed.

(** ** The properties *)

(** An open handle of a file with the clusters [l]. *)
Record open_on s (h : Fat32FileHandle) (l : list Z) : Prop := mkOpenOn {
  on_open : closed h = false;
  on_inner : inner h = true;
  on_chain : chain s (Fat32Name.start_cluster (metadata h)) l;
  on_distinct : NoDup l;
  on_pointer : 0 <= pointer h <= file_size (short (metadata h));
  on_size : file_size (short (metadata h)) <= U32_MAX;
  on_room : file_size (short (metadata h)) <= Z.of_nat (length l) * cluster_bytes s;
}.

Lemma read_run fuel s h l buf :
  fat_ok s -> open_on s h l -> (length l < fuel)%nat ->
  let n := Z.of_nat (length buf) `min` (file_size (short (metadata h)) - pointer h) in
  read fuel buf (h, s) =
    (Ok (n, slice (Z.to_nat (pointer h)) (Z.to_nat n) (file_data s l) ++ drop (Z.to_nat n) buf),
     (set_pointer (pointer h + n) h, s)).
Proof.
  intros Hok [Hcl Hin Hch Hnd Hp Hs Hr] Hfuel n. unfold U32_MAX in Hs.
  pose proof (length_file_data s l Hok (chain_clusters _ _ _ Hch)) as Hlen.
  cut (wp (read fuel buf) (h, s) (fun r st => r = (n, slice (Z.to_nat (pointer h)) (Z.to_nat n) (file_data s l)
    ++ drop (Z.to_nat n) buf) /\ st = (set_pointer (pointer h + n) h, s))).
  { by intros (r & st & -> & -> & ->)%wp_run. }
  unfold read, check_open, upgrade. wp_step. wp_step. wp_step. cbn [fst]. rewrite Hcl. wp_step.
  wp_step. wp_step. wp_step. cbn [fst]. rewrite Hin. wp_step.
  wp_step. wp_step. wp_step. wp_step. cbn [fst snd]. wp_step. wp_step; [lia|].
  wp_step. eapply wp_mono.
  { apply (read_clusters_run fuel s _ l); cbn; try done; try lia. by apply length_cluster_zeros. }
  cbn [c_pointer c_offset c_done c_remain c_out]. intros out st [-> ->]. apply wp_ret.
  fold n. rewrite Z.sub_0_r. split; [|done]. f_equal. unfold splice. cbn [take app Nat.add].
  rewrite take_0, length_slice by lia. done.
Qed.

(** C2: [read] on an open handle returns [min] of the length of the buffer and
    the distance to the end of the file; it fills the buffer with the bytes of
    the file from the pointer on, wherever they lie in the clusters of the
    chain, leaves the rest of the buffer alone, moves the pointer behind them
    and changes nothing else. It always terminates. *)
Theorem read_refines fuel s h l buf :
  fat_ok s -> open_on s h l -> (length l < fuel)%nat ->
  let n := Z.of_nat (length buf) `min` (file_size (short (metadata h)) - pointer h) in
  read fuel buf (h, s) =
    (Ok (n, slice (Z.to_nat (pointer h)) (Z.to_nat n) (file_data s l) ++ drop (Z.to_nat n) buf),
     (set_pointer (pointer h + n) h, s)).
Proof. exact (read_run fuel s h l buf). Qed.
End content.

(** ** The properties at concrete inputs *)

#[local] Opaque demo_fs.

(** A file with the root cluster of [demo_fs] as content and 700 bytes in it,
    opened, with the pointer at byte 510. *)
Definition demo_handle : Fat32FileHandle :=
  mkHandle true (mkMeta (set_file_size 700 (Fat32Name.new_short 2 ATTR_ARCHIVE)) [] 0 0 0 0 0 0) 510 false.

Lemma demo_open_on : open_on demo_fs demo_handle [2].
Proof.
  assert (Hb : cluster_bytes demo_fs = 4096) by (vm_compute; reflexivity).
  constructor.
  - reflexivity.
  - reflexivity.
  - exact demo_chain.
  - apply NoDup_singleton.
  - cbn. lia.
  - cbn. unfold U32_MAX. lia.
  - rewrite Hb. cbn. lia.
Qed.

Lemma read_refines_witness : exists buf st,
  length buf = 200%nat /\ read 5 (replicate 200 7) (demo_handle, demo_fs) = (Ok (190, buf), st) /\
  drop 190 buf = replicate 10 7 /\ st = (set_pointer 700 demo_handle, demo_fs).
Proof.
  assert (Hd : length (file_data demo_fs [2]) = 4096%nat).
  { rewrite length_file_data; [|apply demo_fs_run|exact (chain_clusters _ _ _ demo_chain)].
    assert (cluster_bytes demo_fs = 4096) as -> by (vm_compute; reflexivity). reflexivity. }
  pose proof (read_refines 5 demo_fs demo_handle [2] (replicate 200 7)
    (proj1 (proj2 demo_fs_run)) demo_open_on ltac:(cbn; lia)) as Hr.
  change (Z.of_nat (length (replicate 200 7)) `min` _) with 190 in Hr. cbv zeta in Hr.
  eexists _, _. split; [|split; [exact Hr|split; [|reflexivity]]].
  - rewrite length_app, length_slice; [reflexivity|]. rewrite Hd. cbn. lia.
  - rewrite drop_app_length'; [reflexivity|]. rewrite length_slice; [reflexivity|]. rewrite Hd. cbn. lia.
Defined.
