(* ===== verification/Fat32Write.v ===== *)
(** * FAT32: writing to a file (library/filesystem/src/fs/fat32.rs)

    What [write] does to the content of a file: the copy into the clusters
    that the file has, the clusters appended to its chain, the update of its
    directory entry; and that everything else on the volume stays. *)
From S2P Require Import Prelude Text Path Device MemoryDevice Fat32Types Fat32Name Fat32Format Fat32Table Fat32Dir Fat32Fs Fat32Handle.

Section steps.
  Context {D : Type} `{BlockDevice D, !BlockDeviceSpec D}.
  Implicit Types s : Fat32Inner D.

(** ** Changes of the volume *)

Definition in_cluster s (c j : Z) : Prop :=
  cluster_block s c <= j < cluster_block s c + sectors_per_cluster (bpb s).

(** From [s] to [s']: the table becomes [f], the clusters [l] may change, the
    other data blocks do not, and of the reserved blocks only that of FSInfo,
    which is up to date if it was. *)
Record fs_step s (f : Z -> Z) (l : list Z) s' : Prop := mkFsStep {
  step_meta : same_meta s s';
  step_ok : fat_ok s';
  step_mirrored : mirrored s -> mirrored s';
  step_fat : forall c, 0 <= c < max_cluster s + 2 -> fat s' c = f c;
  step_data : forall j, data_start s <= j < block_count (device s) ->
    (forall c, c ∈ l -> ~ in_cluster s c j) -> blk (device s') j = blk (device s) j;
  step_reserved : forall j, 0 <= j < reserved_sector_count (bpb s) -> j <> bpb_fs_info (bpb s) ->
    blk (device s') j = blk (device s) j;
  step_info : info_stored s -> info_stored s';
}.

Lemma fs_step_refl s l : fat_ok s -> fs_step s (fat s) l s.
Proof. intros. by constructor. Qed.

Lemma table_fs_step s f s' : fat_ok s -> table_step s f s' -> fs_step s f [] s'.
Proof.
  intros Hok Hs. constructor.
  - by apply (table_step_meta _ _ _ Hs).
  - by apply (table_step_ok _ _ _ Hs).
  - by destruct Hs as (_ & _ & ? & _).
  - intros c. by apply (table_step_fat _ _ _ _ Hs).
  - intros j Hj _. by apply (table_step_data _ _ _ _ Hok Hs).
  - destruct (fat_ok_bounds s Hok) as (? & ? & ? & ? & ? & ? & ?). unfold data_start in *.
    destruct Hs as (_ & _ & _ & Hd & _). intros j Hj Hne. apply Hd; [lia|by left; lia|done].
  - by destruct Hs as (_ & _ & _ & _ & _ & ?).
Qed.

Lemma same_meta_cluster s s' c : same_meta s s' -> cluster_block s' c = cluster_block s c.
Proof. intros (Hb & _). unfold cluster_block, data_start. by rewrite Hb. Qed.

Lemma same_meta_is_cluster s s' c : same_meta s s' -> is_cluster s c -> is_cluster s' c.
Proof. intros (_ & Hm & _). unfold is_cluster. by rewrite Hm. Qed.

Lemma same_meta_bytes s s' : same_meta s s' -> cluster_bytes s' = cluster_bytes s.
Proof. intros (Hb & _). unfold cluster_bytes. by rewrite Hb. Qed.

Lemma fs_step_trans s f l s1 g l' s2 h :
  fs_step s f l s1 -> fs_step s1 g l' s2 ->
  (forall c, 0 <= c < max_cluster s + 2 -> g c = h c) -> fs_step s h (l ++ l') s2.
Proof.
  intros [Hm1 _ Hi1 _ Hd1 Hr1 Ht1] [Hm2 Hok2 Hi2 Hf2 Hd2 Hr2 Ht2] Hgh. pose proof Hm1 as (Hb & Hmax & _ & _ & Hbc).
  constructor; [by eapply same_meta_trans|done|auto| | | |auto].
  - intros c Hc. rewrite Hf2 by (rewrite Hmax; done). by apply Hgh.
  - intros j Hj Hout. rewrite Hd2, Hd1; [done|done| | |].
    + intros c Hc. apply Hout, elem_of_app. by left.
    + unfold data_start. rewrite Hb, Hbc. done.
    + intros c Hc Hin. apply (Hout c); [apply elem_of_app; by right|].
      unfold in_cluster in *. rewrite (same_meta_cluster _ _ _ Hm1), Hb in Hin. done.
  - intros j Hj Hne. rewrite Hr2, Hr1; by rewrite ?Hb.
Qed.

Lemma fs_step_weaken s f l s' l' :
  (forall c, c ∈ l -> c ∈ l') -> fs_step s f l s' -> fs_step s (fat s') l' s'.
Proof. intros Hl [? ? ? ? Hd ? ?]. constructor; try done. intros j Hj Hout. apply Hd; auto. Qed.

Lemma in_cluster_inj s c c' j : 0 < sectors_per_cluster (bpb s) ->
  in_cluster s c j -> in_cluster s c' j -> c = c'.
Proof. unfold in_cluster, cluster_block. intros. nia. Qed.

Lemma fs_step_data s f l s' c : fat_ok s -> fs_step s f l s' ->
  is_cluster s c -> c ∉ l -> cluster_data s' c = cluster_data s c.
Proof.
  intros Hok Hst Hc Hl. pose proof (step_meta _ _ _ _ Hst) as Hm. pose proof Hm as (Hb & _ & _ & Hs & _).
  unfold cluster_data, dir_size, dir_sectors, cluster_buffer. rewrite Hb, Hs, (same_meta_cluster _ _ _ Hm).
  do 2 f_equal. apply list_fmap_ext. intros k j Hk. apply lookup_seqZ in Hk as [-> Hk].
  assert (Hin : in_cluster s c (cluster_block s c + Z.of_nat k)) by (unfold in_cluster; lia).
  apply (step_data _ _ _ _ Hst).
  - destruct (cluster_block_range s c Hok Hc). lia.
  - intros c' Hc' Hin'. pose proof (ok_spc _ Hok).
    assert (c = c') as ->; [|done]. eapply in_cluster_inj; [|done..]. lia.
Qed.

Lemma fs_step_file s f l s' l' : fat_ok s -> fs_step s f l s' ->
  Forall (is_cluster s) l' -> (forall c, c ∈ l' -> c ∉ l) -> file_data s' l' = file_data s l'.
Proof.
  intros Hok Hst Hc Hl. unfold file_data. f_equal. apply list_fmap_ext. intros i c Hi.
  apply list_elem_of_lookup_2 in Hi. rewrite Forall_forall in Hc.
  apply (fs_step_data s f l); auto.
Qed.

Lemma fs_step_length_data s f l s' : fs_step s f l s' -> dir_size s' = dir_size s /\ dir_sectors s' = dir_sectors s.
Proof. intros [(Hb & _ & _ & Hs & _)]. unfold dir_size, dir_sectors. by rewrite Hb, Hs. Qed.

(** A device on which the blocks of a cluster have been written. *)
Lemma written_cluster s c out d' : fat_ok s -> is_cluster s c ->
  length out = (dir_sectors s * dir_size s)%nat ->
  written (device s) (cluster_block s c) (sectors_per_cluster (bpb s)) out d' ->
  fs_step s (fat s) [c] (set_device d' s) /\ cluster_buffer (set_device d' s) c = out.
Proof.
  intros Hok Hc Hl Hw. pose proof Hw as (Hd & Hs & Hn & _).
  destruct (cluster_block_range s c Hok Hc).
  destruct (cluster_geometry s Hok) as (? & ? & ? & ?).
  destruct (fat_ok_bounds s Hok) as (? & ? & ? & ? & ? & ? & ?). unfold data_start in *.
  assert (Hio : io_args (device s) (cluster_block s c) (sectors_per_cluster (bpb s)) out).
  { unfold io_args. rewrite Hl. unfold dir_sectors, dir_size. lia. }
  assert (Hkeep : forall j, 0 <= j < block_count (device s) -> ~ in_cluster s c j -> blk d' j = blk (device s) j).
  { intros j Hj Hout. apply (written_other _ _ _ _ _ _ Hw Hj). unfold in_cluster in Hout. lia. }
  split.
  - constructor.
    + by split_and!.
    + by apply fat_ok_set_device.
    + intros Hmir k t Hk Ht. cbn [device set_device bpb] in *. pose proof (ok_fats _ Hok).
      rewrite !Hkeep; [by apply Hmir| | | |]; unfold in_cluster, data_start in *;
        assert (k = 0 \/ k = 1) as [->| ->] by lia; lia.
    + intros c' Hc'. destruct (fat_block_range s c' Hok Hc') as [Hb _].
      unfold fat. change (fat_block (set_device d' s) c') with (fat_block s c').
      change (cluster_per_sector (set_device d' s)) with (cluster_per_sector s). cbn [device set_device].
      rewrite Hkeep; [done|lia|]. unfold in_cluster. lia.
    + intros j Hj Hout. apply Hkeep; [unfold data_start in Hj; lia|]. apply Hout. by left.
    + intros j Hj _. apply Hkeep; unfold in_cluster; lia.
    + pose proof (ok_info_sector _ Hok). unfold info_stored. cbn [fs_info bpb device set_device].
      rewrite Hs, Hkeep; [done|lia|]. unfold in_cluster. lia.
  - unfold cluster_buffer. cbn [device set_device bpb].
    change (cluster_block (set_device d' s) c) with (cluster_block s c).
    by apply (written_concat (device s) _ _ out d'); [apply (ok_dev _ Hok)|..].
Qed.

(** Writing a cluster buffer, and clearing a cluster. *)
Lemma write_cluster_spec s c out : fat_ok s -> is_cluster s c ->
  length out = (dir_sectors s * dir_size s)%nat -> Forall is_byte out ->
  wp (on_device (write_blocks (cluster_block s c) (sectors_per_cluster (bpb s)) out)) s (fun _ s' =>
    fs_step s (fat s) [c] s' /\ fs_info s' = fs_info s /\ cluster_buffer s' c = out).
Proof.
  intros Hok Hc Hl Hby. destruct (cluster_block_range s c Hok Hc).
  destruct (cluster_geometry s Hok) as (? & ? & ? & ?).
  destruct (fat_ok_bounds s Hok) as (? & ? & ? & ? & ? & ? & ?). unfold data_start in *.
  unfold on_device. wp_step. wp_step.
  eapply wp_mono; [apply write_blocks_spec; [apply (ok_dev _ Hok)| |done]|].
  { unfold io_args. rewrite Hl. unfold dir_sectors, dir_size. lia. }
  intros [] d' Hw. by destruct (written_cluster s c out d' Hok Hc Hl Hw).
Qed.

Lemma write_zeros_cluster_spec s c : fat_ok s -> is_cluster s c ->
  wp (on_device (write_zeros (cluster_block s c) (sectors_per_cluster (bpb s)))) s (fun _ s' =>
    fs_step s (fat s) [c] s' /\ fs_info s' = fs_info s /\
    cluster_buffer s' c = replicate (dir_sectors s * dir_size s) 0).
Proof.
  intros Hok Hc. destruct (cluster_block_range s c Hok Hc).
  destruct (cluster_geometry s Hok) as (? & ? & ? & ?).
  destruct (fat_ok_bounds s Hok) as (? & ? & ? & ? & ? & ? & ?). unfold data_start in *.
  unfold on_device. wp_step. wp_step.
  eapply wp_mono; [apply write_zeros_spec; [apply (ok_dev _ Hok)|lia..]|].
  intros [] d' Hw.
  replace (Z.to_nat (sectors_per_cluster (bpb s) * block_size (device s)))
    with (dir_sectors s * dir_size s)%nat in Hw by (unfold dir_sectors, dir_size; lia).
  by destruct (written_cluster s c _ d' Hok Hc (length_replicate _ _) Hw).
Qed.

(** ** The clusters that the file has *)

(** The result of the first loop of [write] from the cluster [c] with the
    chain [l] on: [n] bytes are copied. *)
Definition clusters_written s (buf : list Z) (lc : Z) (l : list Z) (k : Copy) (n : Z) h
    (r : Z * Copy) (st : Fat32FileHandle * Fat32Inner D) : Prop :=
  exists s' o out,
    r.2 = copied k n o out /\ length out = (dir_sectors s * dir_size s)%nat /\
    st = (set_pointer (c_pointer k + n) h, s') /\
    fs_step s (fat s) l s' /\ fs_info s' = fs_info s /\
    file_data s' l = splice (Z.to_nat (c_pointer k - c_offset k))
      (slice (Z.to_nat (c_done k)) (Z.to_nat n) buf) (file_data s l) /\
    (n < c_remain k -> o = c_offset k + Z.of_nat (length l) * cluster_bytes s /\
       r.1 = default lc (last l)).

Definition write_count s (l : list Z) (k : Copy) : Z :=
  0 `max` (c_remain k `min` (c_offset k + Z.of_nat (length l) * cluster_bytes s - c_pointer k)).

(** What the loops need of the state of the copy. *)
Definition write_ok s (buf : list Z) h (k : Copy) : Prop :=
  length (c_out k) = (dir_sectors s * dir_size s)%nat /\
  (0 < c_remain k -> 0 <= c_offset k <= c_pointer k) /\
  0 <= c_pointer k /\ 0 <= c_remain k /\ 0 <= c_done k /\ pointer h = c_pointer k /\
  c_pointer k + c_remain k < 2 ^ 63 /\ c_done k + c_remain k <= Z.of_nat (length buf).

Lemma last_cons_default {A} (lc c : A) l : default lc (last (c :: l)) = default c (last l).
Proof. rewrite last_cons. by destruct (last l). Qed.

(** The copy into the buffer of one cluster. *)
Lemma write_cluster_run {T} (st : T) s buf k :
  fat_ok s -> copy_ok (bytes_per_sector (bpb s)) (dir_sectors s) k ->
  Forall is_byte buf -> c_done k + c_remain k <= Z.of_nat (length buf) ->
  length (c_out k) = (dir_sectors s * dir_size s)%nat -> Forall is_byte (c_out k) ->
  let n := c_remain k `min` (c_offset k + cluster_bytes s - c_pointer k) in
  exists o out,
    write_sectors (bytes_per_sector (bpb s)) (block_size (device s)) buf 0
      (Z.to_nat (sectors_per_cluster (bpb s))) k st = (Ok (copied k n o out), st) /\
    (n < c_remain k -> o = c_offset k + cluster_bytes s) /\
    length out = (dir_sectors s * dir_size s)%nat /\ Forall is_byte out /\
    payload (Z.to_nat (bytes_per_sector (bpb s))) (dir_size s) 0 (dir_sectors s) out =
      splice (Z.to_nat (c_pointer k - c_offset k))
        (slice (Z.to_nat (c_done k)) (Z.to_nat n) buf)
        (payload (Z.to_nat (bytes_per_sector (bpb s))) (dir_size s) 0 (dir_sectors s) (c_out k)).
Proof.
  intros Hok Hk Hby Hb Hl Hby' n. destruct (cluster_geometry s Hok) as (? & ? & ? & ?).
  assert (Hn : copy_count (bytes_per_sector (bpb s)) (dir_sectors s) k = n).
  { unfold n, copy_count, cluster_bytes, dir_sectors. rewrite Z2Nat.id by lia. do 3 f_equal. lia. }
  destruct (write_sectors_run st (bytes_per_sector (bpb s)) (block_size (device s)))
    with (buf := buf) (i := 0%nat) (n := dir_sectors s) (c := k)
    as (o & out & Hrun & Ho & Hlen & _ & Hpay & Hbytes); [lia|lia|done| |done|].
  { rewrite Hl. done. }
  rewrite Hn in *. exists o, out. split_conj; [done| |congruence|auto|done].
  intros. rewrite Ho by done. unfold cluster_bytes, dir_sectors. lia.
Qed.

Lemma cluster_buffer_bytes s c : fat_ok s -> is_cluster s c -> Forall is_byte (cluster_buffer s c).
Proof.
  intros Hok Hc. apply Forall_concat, Forall_fmap, Forall_forall. intros j Hj.
  apply elem_of_seqZ in Hj. apply blk_bytes; [apply (ok_dev _ Hok)|by apply (block_in_cluster s c)].
Qed.

(** A step that leaves the table alone keeps the chains. *)
Lemma fs_step_chain s l s' c l' : fs_step s (fat s) l s' -> chain s c l' -> chain s' c l'.
Proof.
  intros [(_ & Hmax & _) _ _ Hf _] Hch. pose proof (chain_clusters _ _ _ Hch) as Hcl.
  rewrite Forall_forall in Hcl. eapply chain_ext; [done| |done].
  intros c' Hc'. apply Hf. specialize (Hcl c' Hc'). unfold is_cluster in Hcl. lia.
Qed.

(** A copy that goes on in the next cluster. *)
Lemma splice_across (p a b o : nat) (buf A B : list Z) :
  (p + a <= length A)%nat -> (o + a + b <= length buf)%nat ->
  (b = 0 \/ p + a = length A /\ b <= length B)%nat ->
  splice p (slice o a buf) A ++ splice 0 (slice (o + a) b buf) B =
    splice p (slice o (a + b) buf) (A ++ B).
Proof.
  intros Hp Hb Hcase. assert (Hx : length (slice o a buf) = a) by (apply length_slice; lia).
  destruct Hcase as [->|[Heq Hle]].
  - by rewrite slice_0, splice_nil, Nat.add_0_r, splice_app_l by lia.
  - rewrite slice_add, <-splice_splice_adj
      by (rewrite !length_slice, length_app by lia; lia).
    rewrite splice_app_l by lia. rewrite splice_app_r by (rewrite length_splice; lia).
    rewrite length_splice by lia. do 2 f_equal. lia.
Qed.

Lemma write_clusters_spec fuel s lc c l buf k h :
  fat_ok s -> chain s c l -> NoDup l -> (length l < fuel)%nat -> Forall is_byte buf ->
  write_ok s buf h k ->
  (0 < c_remain k -> c_pointer k <= c_offset k + Z.of_nat (length l) * cluster_bytes s) ->
  wp (write_clusters fuel buf lc c k) (h, s) (clusters_written s buf lc l k (write_count s l k) h).
Proof.
  intros Hok Hch Hnd Hfuel Hby Hw Hin.
  revert s lc c l k h Hok Hch Hnd Hfuel Hw Hin. induction fuel as [|fuel IH];
    intros s lc c l k h Hok Hch Hnd Hfuel (Hl & Ho & Hp0 & Hr & Hd & Hp & Hmax & Hb) Hin; [lia|].
  destruct (cluster_geometry s Hok) as (? & ? & ? & ?).
  cbn [write_clusters]. rewrite (is_end_chain _ s c l)
    by (done || unfold FAT_ENTRY_RESERVED_START, FAT_ENTRY_EOC_START; lia).
  destruct (decide (l = [] \/ c_remain k = 0)) as [Hz|Hz].
  { assert (Hn : write_count s l k = 0).
    { unfold write_count. destruct Hz as [->|]; cbn in *; lia. }
    assert (match l with [] => true | _ :: _ => false end || (c_remain k <=? 0) = true) as ->.
    { destruct Hz as [->|Hz]; [done|]. rewrite Hz. by rewrite orb_true_r. }
    apply wp_ret. rewrite Hn. exists s, (c_offset k), (c_out k).
    unfold copied. rewrite slice_0, splice_nil, !Z.add_0_r, Z.sub_0_r, <-Hp, set_pointer_id.
    split_conj; [by rewrite Hp; destruct k|done|done|by apply fs_step_refl|done|done|].
    intros Hlt. destruct Hz as [->|]; [cbn; split; lia|lia]. }
  destruct l as [|x l]; [by destruct Hz; left|].
  assert (Hz' : 0 < c_remain k) by (destruct (decide (c_remain k = 0)); [by destruct Hz; right|lia]).
  specialize (Ho Hz'). specialize (Hin Hz').
  apply chain_cons_inv in Hch as (-> & Hc & Hch). apply NoDup_cons in Hnd as [Hcl Hnd].
  rewrite (proj2 (Z.leb_gt _ _)) by lia. cbn [orb].
  assert (Hcd := length_cluster_data s c Hok Hc).
  wp_step. wp_step. wp_step. wp_step. cbn [snd]. fold (cluster_bytes s).
  destruct (c_offset k + cluster_bytes s <? c_pointer k) eqn:Hskip; bool_to_prop; cbn [length] in *.
  - wp_step. apply wp_on_fs. eapply wp_intro; [apply get_next_cluster_run; [done|unfold is_cluster in Hc; lia]|].
    eapply wp_mono; [apply (IH s c _ l)|]; [done..| | | |]; [lia|unfold write_ok; cbn; split_conj; done || lia|cbn; lia|].
    intros [lc' k'] st (s' & o & out & Hk' & Hlo & -> & Hst & Hi & Hfile & Hlast). cbn [fst snd] in *.
    assert (Hn : write_count s l (skip_sector (cluster_bytes s) k) = write_count s (c :: l) k).
    { unfold write_count; cbn. lia. }
    rewrite Hn in *. cbn [c_pointer c_offset c_done c_remain c_out skip_sector] in *.
    exists s', o, out. split_conj; try done.
    + destruct Hst as [? ? ? ? Hdat ? ?]. constructor; try done. intros j Hj Hout. apply Hdat; [done|].
      intros c' Hc'. apply Hout. by right.
    + change (file_data s' (c :: l)) with (cluster_data s' c ++ file_data s' l).
      change (file_data s (c :: l)) with (cluster_data s c ++ file_data s l).
      rewrite (fs_step_data s _ _ _ c Hok Hst) by done. rewrite Hfile, splice_app_r, Hcd by lia.
      f_equal. f_equal. lia.
    + intros Hlt. destruct (Hlast Hlt) as [-> ->]. rewrite last_cons_default. cbn [length]. split; [lia|done].
  - wp_step. apply wp_on_fs. eapply wp_intro; [by apply get_sector_run|].
    wp_step. apply wp_on_fs. eapply wp_intro; [by apply read_cluster_run|].
    set (k1 := mkCopy _ _ _ _ _).
    destruct (write_cluster_run (h, s) s buf k1) as (o & out & Hrun & Ho' & Hlo & Hbo & Hpay);
      [done| |done|done|by apply length_cluster_buffer|by apply cluster_buffer_bytes|].
    { unfold copy_ok, cluster_bytes, dir_sectors in *; cbn; lia. }
    change (payload _ _ _ _ (c_out k1)) with (cluster_data s c) in Hpay.
    unfold k1 in Hrun, Ho', Hpay; cbn [c_pointer c_offset c_done c_remain] in Hrun, Ho', Hpay.
    set (n := c_remain k `min` (c_offset k + cluster_bytes s - c_pointer k)) in *.
    wp_step. eapply wp_intro; [exact Hrun|]. cbn beta iota. clear Hrun.
    wp_step. apply wp_modify_handle. cbn [c_pointer c_out copied].
    wp_step. apply wp_on_fs. eapply wp_mono; [by apply write_cluster_spec|].
    intros [] s1 (Hs1 & Hi1 & Hb1). pose proof (step_ok _ _ _ _ Hs1) as Hok1.
    pose proof (step_meta _ _ _ _ Hs1) as Hm1. pose proof (same_meta_bytes _ _ Hm1) as Hcb1.
    pose proof (fs_step_length_data _ _ _ _ Hs1) as [Hds1 Hdn1].
    assert (Hcd1 : cluster_data s1 c = splice (Z.to_nat (c_pointer k - c_offset k))
      (slice (Z.to_nat (c_done k)) (Z.to_nat n) buf) (cluster_data s c)).
    { rewrite <-Hpay. unfold cluster_data. rewrite Hb1, Hds1, Hdn1. by destruct Hm1 as [-> _]. }
    wp_step. apply wp_on_fs.
    eapply wp_intro; [apply get_next_cluster_run; [done|destruct Hm1 as (_ & -> & _); unfold is_cluster in Hc; lia]|].
    rewrite (step_fat _ _ _ _ Hs1) by (unfold is_cluster in Hc; lia).
    assert (Hn : 0 <= n /\ (n = c_remain k /\ c_remain k <= c_offset k + cluster_bytes s - c_pointer k \/
      n < c_remain k /\ n = c_offset k + cluster_bytes s - c_pointer k)) by lia.
    clearbody n. set (k2 := copied _ n o out).
    assert (Hn' : write_count s (c :: l) k = n + write_count s1 l k2 /\ 0 <= write_count s1 l k2 /\
      (write_count s1 l k2 = 0 \/ n < c_remain k /\ n + write_count s1 l k2 <= c_remain k /\
       c_pointer k + n = c_offset k + cluster_bytes s /\
       write_count s1 l k2 <= Z.of_nat (length l) * cluster_bytes s)).
    { unfold write_count. rewrite Hcb1. cbn [c_remain c_offset c_pointer copied k2 length k1].
      destruct Hn as [? [[-> ?]|[? ?]]]; [lia|]. rewrite Ho' by lia. lia. }
    destruct Hn' as (-> & Hn' & Hcase).
    eapply wp_mono; [apply (IH s1 c (fat s c) l k2)|].
    all: try done; try lia.
    { by apply (fs_step_chain _ _ _ _ _ Hs1). }
    { unfold write_ok. cbn [c_out c_remain c_offset c_pointer c_done copied k1 k2 set_pointer pointer].
      rewrite Hds1, Hdn1. split_conj; try done; try lia. }
    { cbn [c_remain c_offset c_pointer copied k1 k2]. rewrite Hcb1. intros. rewrite Ho' by lia. lia. }
    intros [lc' k'] st (s' & o' & out' & Hk' & Hlo' & -> & Hst & Hi & Hfile & Hlast). cbn [fst snd] in *.
    exists s', o', out'. cbn [c_pointer c_offset c_done c_remain c_out copied k1 k2] in Hfile, Hlast |- *.
    split_conj.
    + rewrite Hk'. unfold k2, k1, copied; cbn. f_equal; lia.
    + congruence.
    + f_equal. destruct h; unfold set_pointer; cbn. f_equal. lia.
    + apply (fs_step_trans _ _ _ _ _ _ _ _ Hs1 Hst). intros c' Hc'. by apply (step_fat _ _ _ _ Hs1).
    + congruence.
    + change (file_data s' (c :: l)) with (cluster_data s' c ++ file_data s' l).
      change (file_data s (c :: l)) with (cluster_data s c ++ file_data s l).
      rewrite (fs_step_data s1 _ _ _ c Hok1 Hst) by (done || by apply (same_meta_is_cluster _ _ _ Hm1)).
      rewrite (fs_step_file s _ _ _ l Hok Hs1) in Hfile
        by (try apply (chain_clusters _ _ _ Hch); set_solver).
      rewrite Hfile, Hcd1. clear Hfile Hcd1 Hpay.
      pose proof (length_file_data s l Hok (chain_clusters _ _ _ Hch)).
      set (n' := write_count s1 l k2) in *. clearbody n'.
      replace (Z.to_nat (n + n')) with (Z.to_nat n + Z.to_nat n')%nat by lia.
      rewrite <-splice_across by lia.
      f_equal. replace (Z.to_nat (c_done k + n)) with (Z.to_nat (c_done k) + Z.to_nat n)%nat by lia.
      destruct Hcase as [->|(? & ? & ? & ?)]; [by rewrite slice_0, !splice_nil|].
      rewrite Ho' by lia. f_equal. lia.
    + intros Hlt. rewrite last_cons_default. destruct (Hlast ltac:(lia)) as [-> ->]. rewrite Ho' by lia.
      rewrite Hcb1. cbn [length]. split; [lia|done].
Qed.

(** ** The clusters that are appended *)

Lemma scan_order_cluster s c : hint_ok s -> 0 <= max_cluster s -> c ∈ scan_order s <-> is_cluster s c.
Proof.
  unfold scan_order, hint_ok, is_cluster. intros Hh Hm. destruct (fs_info s) as [f|]; cbn.
  - rewrite elem_of_app, !elem_of_seqZ. lia.
  - rewrite app_nil_r, elem_of_seqZ. lia.
Qed.

Lemma scan_order_length s : hint_ok s -> 0 <= max_cluster s ->
  (length (scan_order s) <= Z.to_nat (max_cluster s))%nat.
Proof.
  unfold scan_order, hint_ok. intros Hh Hm. rewrite length_app, length_seqZ.
  destruct (fs_info s) as [f|]; cbn; [rewrite length_seqZ|]; lia.
Qed.

(** If some cluster is free, one is allocated. *)
Lemma allocate_spec scan s c0 :
  fat_ok s -> hint_ok s -> count_in_range (-1) s -> is_cluster s c0 -> fat s c0 = 0 ->
  (Z.to_nat (max_cluster s) + 1 < scan)%nat ->
  wp (find_available_cluster scan) s (fun c s' =>
    is_cluster s c /\ fat s c = 0 /\ allocated s c s').
Proof.
  intros Hok Hh Hn Hc0 Hf Hscan. pose proof (ok_max _ Hok) as [Hm _].
  destruct (list_find_elem_of (fun c => fat s c = 0) (scan_order s) c0) as [[i c] Hfind];
    [by apply scan_order_cluster|done|].
  eapply wp_mono; [by apply (find_available_cluster_spec scan s i c); [..|pose proof (scan_order_length s Hh Hm); lia]|].
  intros c' s' [-> Ha]. apply list_find_Some in Hfind as (Hl & Hfc & _).
  split_conj; [|done|done]. by apply scan_order_cluster, list_elem_of_lookup_2 with i.
Qed.

(** [c] linked to the end of a chain. *)
Lemma chain_snoc s s' c0 l lc c :
  chain s c0 l -> NoDup l -> last l = Some lc -> c ∉ l -> is_cluster s c ->
  max_cluster s' = max_cluster s ->
  (forall x, is_cluster s x -> fat s' x = upd (upd (fat s) c FAT_ENTRY_EOC_START) lc c x) ->
  chain s' c0 (l ++ [c]).
Proof.
  intros Hch. induction Hch as [c0 Hc0|c0 l Hc0 Hch IH]; intros Hnd Hlast Hcl Hc Hm Hf; [done|].
  apply NoDup_cons in Hnd as [Hc0l Hnd]. apply not_elem_of_cons in Hcl as [Hne Hcl].
  assert (Hcl' : forall x, is_cluster s x -> is_cluster s' x) by (unfold is_cluster; by rewrite Hm).
  constructor; [auto|]. rewrite Hf by done. unfold upd.
  destruct l as [|x l].
  - injection Hlast as <-. rewrite decide_True by done. constructor; [auto|].
    rewrite Hf by done. unfold upd. rewrite decide_False, decide_True by done. constructor. by right.
  - change (last (x :: l) = Some lc) in Hlast.
    assert (c0 <> lc).
    { intros ->. apply Hc0l. rewrite last_lookup in Hlast. by apply list_elem_of_lookup_2 in Hlast. }
    rewrite !decide_False by congruence. by apply IH.
Qed.

(** Clusters that [write] can still get, in the table and in the free count. *)
Definition enough_free s (m : Z) : Prop :=
  (exists fl, NoDup fl /\ m <= Z.of_nat (length fl) /\
     forall c, c ∈ fl -> is_cluster s c /\ fat s c = 0) /\
  match fs_info s with
  | Some f => m <= free_cluster_count f < 2 ^ 32
  | None => True
  end.

Lemma enough_free_step s s' m c lc :
  enough_free s m -> is_cluster s c -> fat s c = 0 -> fat s lc <> 0 -> max_cluster s' = max_cluster s ->
  (forall x, is_cluster s x -> fat s' x = upd (upd (fat s) c FAT_ENTRY_EOC_START) lc c x) ->
  fs_info s' = info_after (-1) (fs_info s) -> 0 < m -> enough_free s' (m - 1).
Proof.
  intros [(fl & Hnd & Hlen & Hfree) Hinfo] Hc Hfc Hlc Hmax Hf Hi Hm. split.
  - exists (filter (fun x => x <> c) fl). split_conj.
    + by apply NoDup_filter.
    + assert (Hsub : fl ⊆+ c :: filter (fun x => x <> c) fl).
      { apply NoDup_submseteq; [done|]. intros x Hx. destruct (decide (x = c)) as [->|]; [by left|].
        right. by apply list_elem_of_filter. }
      apply submseteq_length in Hsub. cbn in Hsub. lia.
    + intros x [Hne Hx]%list_elem_of_filter. destruct (Hfree x Hx) as [Hxc Hxf].
      split; [unfold is_cluster; by rewrite Hmax|]. rewrite Hf by done.
      unfold upd. rewrite decide_False by congruence. by rewrite decide_False by done.
  - rewrite Hi. destruct (fs_info s) as [f|]; cbn; [lia|done].
Qed.

(** Linking a cluster, just allocated, behind [lc]; [rest] is the program
    that follows. *)
Lemma wp_link {A} scan s h c0 lc (rest : Z -> HM D A) Q :
  fat_ok s -> hint_ok s -> count_in_range (-1) s -> is_cluster s c0 -> fat s c0 = 0 ->
  is_cluster s lc -> fat s lc <> 0 -> (Z.to_nat (max_cluster s) + 1 < scan)%nat ->
  (forall c s', is_cluster s c -> fat s c = 0 ->
    fs_step s (upd (upd (fat s) c FAT_ENTRY_EOC_START) lc c) [] s' ->
    fs_info s' = info_after (-1) (fs_info s) -> wp (rest c) (h, s') Q) ->
  wp (c ← on_fs (find_available_cluster scan);
      rust_assert (negb (is_end FAT_ENTRY_RESERVED_START c));;
      rust_assert (negb (is_end FAT_ENTRY_RESERVED_START lc));;
      on_fs (update_cluster lc c);;
      rest c) (h, s) Q.
Proof.
  intros Hok Hh Hn Hc0 Hf Hlc Hlcf Hscan Hrest. pose proof (ok_max _ Hok) as [_ Hmax].
  assert (Hend : forall c, is_cluster s c -> negb (is_end FAT_ENTRY_RESERVED_START c) = true).
  { intros c Hc. unfold is_end, is_cluster, FAT_ENTRY_FREE in *.
    rewrite (proj2 (Z.eqb_neq _ _)), (proj2 (Z.leb_gt _ _)) by lia. done. }
  wp_step. apply wp_on_fs. eapply wp_mono; [by apply (allocate_spec scan s c0)|].
  intros c s1 (Hc & Hfc & Hs1 & Hi1). wp_step. wp_step; [auto|]. wp_step. wp_step; [auto|].
  pose proof (table_step_meta _ _ _ Hs1) as (_ & Hm1 & _).
  wp_step. apply wp_on_fs. eapply wp_mono; [apply update_cluster_spec|].
  { by apply (table_step_ok _ _ _ Hs1). }
  { rewrite Hm1. unfold is_cluster in Hlc. lia. }
  { unfold is_cluster, FAT_ENTRY_RESERVED_START in *. lia. }
  intros [] s2 [Hs2 Hi2]. apply Hrest; [done|done| |congruence].
  apply table_fs_step; [done|]. apply (table_step_trans _ _ _ _ _ _ Hs1 Hs2).
  intros x Hx. unfold upd at 1 2. case_decide; [done|]. apply (table_step_fat _ _ _ _ Hs1 Hx).
Qed.

(** The result of the second loop of [write]. *)
Definition appended s (buf : list Z) (c0 : Z) (l : list Z) (k : Copy) h
    (st : Fat32FileHandle * Fat32Inner D) : Prop :=
  exists new s',
    st = (set_pointer (c_pointer k + c_remain k) h, s') /\
    chain s' c0 (l ++ new) /\ NoDup (l ++ new) /\
    (forall c, c ∈ new -> is_cluster s c /\ fat s c = 0) /\
    (forall c, c ∈ l ++ new -> fat s' c <> 0) /\
    fs_step s (fat s') new s' /\
    (forall c, 0 <= c < max_cluster s + 2 -> c ∉ l ++ new -> fat s' c = fat s c) /\
    fs_info s' = info_after (- Z.of_nat (length new)) (fs_info s) /\
    take (Z.to_nat (c_remain k)) (file_data s' new) =
      slice (Z.to_nat (c_done k)) (Z.to_nat (c_remain k)) buf /\
    Z.of_nat (length new) * cluster_bytes s < c_remain k + cluster_bytes s /\
    c_remain k <= Z.of_nat (length new) * cluster_bytes s.

(** One cluster more at the front of the appended ones. *)
Lemma appended_cons s s2 buf c0 l lc c k n o out h p zs st :
  fat_ok s -> is_cluster s c -> fat s c = 0 -> c ∉ l -> lc ∈ l ->
  fs_step s (upd (upd (fat s) c FAT_ENTRY_EOC_START) lc c) [c] s2 ->
  fs_info s2 = info_after (-1) (fs_info s) ->
  0 < c_remain k -> n = c_remain k `min` cluster_bytes s -> 0 < cluster_bytes s -> 0 <= c_done k ->
  c_done k + c_remain k <= Z.of_nat (length buf) ->
  cluster_data s2 c = splice 0 (slice (Z.to_nat (c_done k)) (Z.to_nat n) buf) zs ->
  length zs = Z.to_nat (cluster_bytes s) ->
  appended s2 buf c0 (l ++ [c]) (copied k n o out) (set_pointer p h) st ->
  appended s buf c0 l k h st.
Proof.
  intros Hok Hc Hfc Hcl Hlcl Hs2 Hi2 Hr Hn Hcb Hd Hb Hcd Hzs
    (new & s' & -> & Hch & Hnd & Hnew & Hused & Hst & Hf & Hi & Htake & Hlen & Hlen').
  pose proof (step_meta _ _ _ _ Hs2) as Hm2. rewrite (same_meta_bytes _ _ Hm2) in *.
  rewrite <-app_assoc in *. cbn [app c_pointer c_remain c_done copied] in *.
  assert (Hcn : c ∉ new) by (apply NoDup_app in Hnd as (_ & _ & [? _]%NoDup_cons); done).
  exists (c :: new), s'. split_conj; try done.
  - destruct h; unfold set_pointer; cbn. do 2 f_equal. lia.
  - intros x [->|Hx]%elem_of_cons; [done|]. destruct (Hnew x Hx) as [Hxc Hxf].
    assert (Hxc' : is_cluster s x) by (destruct Hm2 as (_ & Hm & _); unfold is_cluster in *; by rewrite <-Hm).
    split; [done|]. rewrite (step_fat _ _ _ _ Hs2) in Hxf by (unfold is_cluster in Hxc'; lia).
    unfold upd in Hxf. assert (x ∉ l).
    { intros Hxl. apply NoDup_app in Hnd as (_ & Hdis & _). apply (Hdis x Hxl). by right. }
    rewrite decide_False in Hxf by congruence. rewrite decide_False in Hxf by congruence. done.
  - change (c :: new) with ([c] ++ new). by apply (fs_step_trans _ _ _ _ _ _ _ _ Hs2 Hst).
  - intros x Hx Hxl. destruct Hm2 as (_ & Hmax & _). rewrite Hf by (done || by rewrite Hmax).
    rewrite (step_fat _ _ _ _ Hs2 x Hx). unfold upd.
    rewrite decide_False by set_solver. by rewrite decide_False by set_solver.
  - rewrite Hi, Hi2. destruct (fs_info s) as [fi|]; [|done]. cbn. unfold info_after, set_free_count; cbn.
    do 2 f_equal. lia.
  - change (file_data s' (c :: new)) with (cluster_data s' c ++ file_data s' new).
    rewrite (fs_step_data s2 _ _ _ c (step_ok _ _ _ _ Hs2) Hst)
      by (done || by apply (same_meta_is_cluster _ _ _ Hm2)).
    rewrite Hcd. set (x := slice (Z.to_nat (c_done k)) (Z.to_nat n) buf).
    assert (Hx : length x = Z.to_nat n) by (apply length_slice; lia).
    destruct (decide (c_remain k <= cluster_bytes s)).
    + assert (n = c_remain k) as -> by lia. unfold splice. rewrite take_0. cbn [app].
      rewrite <-app_assoc, take_app_length' by lia. done.
    + replace (Z.to_nat (c_remain k)) with (Z.to_nat n + Z.to_nat (c_remain k - n))%nat by lia.
      rewrite splice_full by lia. rewrite <-Hx at 1. rewrite take_app_add, Htake.
      rewrite slice_add. f_equal. f_equal. lia.
  - cbn [length]. destruct new; cbn [length] in *; nia.
  - cbn [length]. lia.
Qed.

Lemma append_clusters_spec fuel scan s c0 l lc buf k h m :
  fat_ok s -> hint_ok s -> chain s c0 l -> NoDup l -> last l = Some lc ->
  (forall c, c ∈ l -> fat s c <> 0) -> Forall is_byte buf -> write_ok s buf h k ->
  (0 < c_remain k -> c_offset k = c_pointer k) -> enough_free s (Z.of_nat m) ->
  c_remain k <= Z.of_nat m * cluster_bytes s -> Z.of_nat m * cluster_bytes s < c_remain k + cluster_bytes s ->
  (m < fuel)%nat -> (Z.to_nat (max_cluster s) + 1 < scan)%nat ->
  wp (append_clusters scan fuel buf lc k) (h, s) (fun _ st => appended s buf c0 l k h st).
Proof.
  intros Hok Hh Hch Hnd Hlast Hused Hby Hw Hoff Hfree Hm Hm' Hfuel Hscan.
  revert s l lc k h m Hok Hh Hch Hnd Hlast Hused Hw Hoff Hfree Hm Hm' Hfuel Hscan. induction fuel as [|fuel IH];
    intros s l lc k h m Hok Hh Hch Hnd Hlast Hused (Hl & Ho & Hp0 & Hr & Hd & Hp & Hmax & Hb) Hoff Hfree Hm Hm' Hfuel Hscan; [lia|].
  destruct (cluster_geometry s Hok) as (? & ? & ? & ?). cbn [append_clusters].
  destruct (c_remain k <=? 0) eqn:Hz; bool_to_prop.
  { apply wp_ret. assert (c_remain k = 0) as Hz' by lia. exists [], s. rewrite Hz', Z.add_0_r, <-Hp, set_pointer_id.
    rewrite app_nil_r. split_conj; try done; try (cbn; lia); [set_solver|].
    cbn. destruct (fs_info s) as [[]|]; [|done]. unfold info_after, set_free_count; cbn. by rewrite Z.add_0_r. }
  assert (0 < Z.of_nat m) by (destruct m; [cbn in Hm; lia|lia]). specialize (Ho ltac:(lia)). specialize (Hoff ltac:(lia)).
  pose proof (chain_clusters _ _ _ Hch) as Hcls. rewrite Forall_forall in Hcls.
  assert (Hlcl : lc ∈ l) by (rewrite last_lookup in Hlast; by apply list_elem_of_lookup_2 in Hlast).
  pose proof Hfree as [(fl & _ & Hflen & Hffree) Hinfo].
  destruct fl as [|c1 fl]; [cbn in Hflen; lia|]. destruct (Hffree c1 ltac:(by left)) as [Hc1 Hc1f].
  apply (wp_link scan s h c1); try done; [|by apply Hcls|by apply Hused|].
  { unfold count_in_range. destruct (fs_info s); [lia|done]. }
  intros c s1 Hc Hfc Hs1 Hi1.
  pose proof (step_meta _ _ _ _ Hs1) as Hm1. pose proof (step_ok _ _ _ _ Hs1) as Hok1.
  pose proof (fs_step_length_data _ _ _ _ Hs1) as [Hds1 Hdn1]. pose proof (same_meta_bytes _ _ Hm1) as Hcb1.
  pose proof Hm1 as (Hbpb1 & Hmax1 & _ & Hsz1 & _).
  assert (Hcl : c ∉ l) by (intros Hin; by apply (Hused c Hin)).
  wp_step. wp_step. wp_step. wp_step. cbn [snd].
  set (k1 := mkCopy _ _ _ _ _).
  destruct (write_cluster_run (h, s1) s1 buf k1) as (o & out & Hrun & Ho' & Hlo & Hbo & Hpay); [done| |done|done| | |].
  { rewrite Hdn1, Hbpb1. unfold copy_ok, cluster_bytes, dir_sectors in *; cbn. lia. }
  { cbn. rewrite length_replicate. congruence. }
  { cbn. apply Forall_replicate. unfold is_byte. lia. }
  rewrite Hcb1 in Hrun, Ho', Hpay. unfold k1 in Hrun, Ho', Hpay; cbn [c_pointer c_offset c_done c_remain c_out] in Hrun, Ho', Hpay.
  set (n := c_remain k `min` (c_offset k + cluster_bytes s - c_pointer k)) in *.
  assert (Hn : n = c_remain k `min` cluster_bytes s) by lia. clearbody n.
  wp_step. eapply wp_intro; [exact Hrun|]. cbn beta iota. clear Hrun.
  wp_step. apply wp_modify_handle. cbn [c_pointer c_out copied].
  wp_step. apply wp_on_fs. eapply wp_intro; [by apply get_sector_run; [|apply (same_meta_is_cluster _ _ _ Hm1)]|].
  wp_step. apply wp_on_fs. eapply wp_mono; [by apply write_cluster_spec; [|apply (same_meta_is_cluster _ _ _ Hm1)|..]|].
  intros [] s2 (Hs2 & Hi2 & Hb2).
  assert (Hs12 : fs_step s (upd (upd (fat s) c FAT_ENTRY_EOC_START) lc c) [c] s2).
  { apply (fs_step_trans _ _ _ _ _ _ _ _ Hs1 Hs2). intros x Hx. by apply (step_fat _ _ _ _ Hs1). }
  pose proof (step_meta _ _ _ _ Hs12) as Hm2. pose proof Hm2 as (Hbpb2 & Hmax2 & _ & Hsz2 & _).
  pose proof (fs_step_length_data _ _ _ _ Hs12) as [Hds2 Hdn2]. pose proof (same_meta_bytes _ _ Hm2) as Hcb2.
  assert (Hf2 : forall x, is_cluster s x -> fat s2 x = upd (upd (fat s) c FAT_ENTRY_EOC_START) lc c x).
  { intros x Hx. apply (step_fat _ _ _ _ Hs12). unfold is_cluster in Hx. lia. }
  eapply wp_mono; [apply (IH s2 (l ++ [c]) c _ _ (m - 1)%nat)|].
  - apply (step_ok _ _ _ _ Hs2).
  - unfold hint_ok. rewrite Hi2, Hi1. unfold hint_ok in Hh. by destruct (fs_info s).
  - by apply (chain_snoc s s2 c0 l lc c).
  - apply NoDup_app. split_conj; [done|set_solver|apply NoDup_singleton].
  - apply last_snoc.
  - intros x Hx. assert (is_cluster s x /\ (fat s x <> 0 \/ x = c)) as [Hxc Hxf] by (set_solver).
    rewrite Hf2 by done. unfold upd, FAT_ENTRY_EOC_START. case_decide; [unfold is_cluster in Hc; lia|].
    case_decide; [done|]. by destruct Hxf.
  - unfold write_ok. cbn [c_out c_remain c_offset c_pointer c_done copied set_pointer pointer].
    rewrite Hds2, Hdn2. split_conj; try done; try lia.
  - cbn [c_remain c_offset c_pointer copied]. intros. rewrite Ho' by lia. lia.
  - replace (Z.of_nat (m - 1)) with (Z.of_nat m - 1) by lia.
    apply (enough_free_step s s2 (Z.of_nat m) c lc); try done; [by apply Hused|congruence].
  - cbn [c_remain copied k1]. rewrite Hcb2. nia.
  - cbn [c_remain copied k1]. rewrite Hcb2. nia.
  - lia.
  - by rewrite Hmax2.
  - intros r st Happ. apply (appended_cons s s2 buf c0 l lc c k n o out h (c_pointer k + n)
      (payload (Z.to_nat (bytes_per_sector (bpb s))) (dir_size s) 0 (dir_sectors s)
         (replicate (length (c_out k)) 0))); try done; try lia.
    + congruence.
    + unfold cluster_data. rewrite Hb2, Hds2, Hdn2, Hbpb2. rewrite Hds1, Hdn1, Hbpb1 in Hpay. rewrite Hpay.
      by replace (Z.to_nat (c_pointer k - c_offset k)) with 0%nat by lia.
    + rewrite length_payload; unfold cluster_bytes, dir_size, dir_sectors; [nia|lia|].
      rewrite length_replicate, Hl. unfold dir_size, dir_sectors. lia.
Qed.

(** ** The directory entry *)

(** Writing a block of a data cluster. *)
Lemma write_data_block_spec s c j out : fat_ok s -> is_cluster s c -> in_cluster s c j ->
  length out = dir_size s -> Forall is_byte out ->
  wp (on_device (write_block j out)) s (fun _ s' =>
    fs_step s (fat s) [c] s' /\ fs_info s' = fs_info s /\ blk (device s') j = out /\
    (forall j', 0 <= j' < block_count (device s) -> j' <> j -> blk (device s') j' = blk (device s) j')).
Proof.
  intros Hok Hc Hj Hl Hby. pose proof (block_in_cluster s c j Hok Hc Hj).
  destruct (cluster_block_range s c Hok Hc).
  destruct (fat_ok_bounds s Hok) as (? & ? & ? & ? & ? & ? & ?).
  assert (Hio : io_args (device s) j 1 out) by (unfold io_args; rewrite Hl; unfold dir_size; lia).
  unfold on_device. wp_step. wp_step.
  eapply wp_mono; [by apply write_block_spec; [apply (ok_dev _ Hok)|..]|].
  intros [] d' Hw. pose proof Hw as (Hd & Hs & Hn & _).
  assert (Hkeep : forall j', 0 <= j' < block_count (device s) -> j' <> j -> blk d' j' = blk (device s) j').
  { intros j' Hj' Hne. apply (written_other _ _ _ _ _ _ Hw Hj'). lia. }
  split_conj; [|done|by apply (written_one (device s))|done].
  unfold in_cluster, data_start in *. constructor.
  - by split_and!.
  - by apply fat_ok_set_device.
  - intros Hmir k t Hk Ht. cbn [device set_device bpb] in *. pose proof (ok_fats _ Hok).
    rewrite !Hkeep; [by apply Hmir| | | |]; assert (k = 0 \/ k = 1) as [->| ->] by lia; lia.
  - intros c' Hc'. destruct (fat_block_range s c' Hok Hc') as [Hb _].
    unfold fat. change (fat_block (set_device d' s) c') with (fat_block s c').
    change (cluster_per_sector (set_device d' s)) with (cluster_per_sector s). cbn [device set_device].
    rewrite Hkeep; [done|lia|lia].
  - intros j' Hj' Hout. apply Hkeep; [unfold data_start in Hj'; lia|]. intros ->.
    apply (Hout c); [by left|done].
  - intros j' Hj' _. apply Hkeep; lia.
  - pose proof (ok_info_sector _ Hok). unfold info_stored. cbn [fs_info bpb device set_device].
    rewrite Hs, Hkeep; [done|lia|lia].
Qed.

(** Where the short entry of a file is: in the directory cluster [dc]. *)
Record entry_at s (m : Fat32FileMetadata) (dc : Z) : Prop := mkEntryAt {
  at_dc : is_cluster s dc;
  at_block : in_cluster s dc (short_sector m);
  at_off : 0 <= short_sector_offset m /\ (short_sector_offset m + 1) * 32 <= bytes_per_sector (bpb s);
}.

(** The block of a directory with the 32 bytes of the short entry of a file,
    and the other bytes as they are. *)
Definition with_entry (m : Fat32FileMetadata) (block : list Z) : list Z :=
  splice (Z.to_nat (short_sector_offset m) * DIR_ENTRY_SIZE) (encode_short (short m)) block.

Lemma update_file_metadata_spec s m dc :
  fat_ok s -> entry_at s m dc -> short_typed (short m) ->
  wp (update_file_metadata m) s (fun _ s' =>
    fs_step s (fat s) [dc] s' /\ fs_info s' = fs_info s /\
    forall j, 0 <= j < block_count (device s) -> blk (device s') j =
      if decide (j = short_sector m) then with_entry m (blk (device s) j) else blk (device s) j).
Proof.
  intros Hok [Hc Hj [Ho Hoff]] Ht. pose proof (block_in_cluster s dc _ Hok Hc Hj).
  destruct (cluster_geometry s Hok) as (? & ? & ? & ?).
  pose proof (blk_length (device s) (short_sector m) (ok_dev _ Hok) ltac:(done)) as Hbl.
  assert (Hfit : (Z.to_nat (short_sector_offset m) * DIR_ENTRY_SIZE + DIR_ENTRY_SIZE
    <= length (blk (device s) (short_sector m)))%nat) by (rewrite Hbl; unfold DIR_ENTRY_SIZE; lia).
  pose proof (length_encode_short (short m) Ht) as Hes.
  unfold update_file_metadata. wp_step. wp_step. wp_step.
  eapply wp_intro; [apply read_device; [done|done|apply length_zeros]|].
  wp_step. wp_step; [apply Z.ltb_lt; unfold DIR_ENTRY_SIZE; lia|].
  eapply wp_mono; [apply (write_data_block_spec s dc); try done|].
  - rewrite length_splice by lia. done.
  - apply Forall_splice; [by apply encode_short_bytes|]. by apply blk_bytes; [apply (ok_dev _ Hok)|].
  - intros [] s' (Hst & Hi & Hb & Ho'). split_conj; [done..|]. intros j Hj'.
    case_decide as E; [by rewrite E|by apply Ho'].
Qed.

(** ** The whole of [write] *)

(** The clusters that are missing for [n] bytes from the pointer on. *)
Definition missing s (l : list Z) (h : Fat32FileHandle) (n : Z) : Z :=
  (0 `max` (pointer h + n - Z.of_nat (length l) * cluster_bytes s) + cluster_bytes s - 1)
    / cluster_bytes s.

(** The volume before [write]. *)
Record writable s (h : Fat32FileHandle) (l : list Z) (dc : Z) : Prop := mkWritable {
  wr_ok : fat_ok s;
  wr_hint : hint_ok s;
  wr_open : open_on s h l;
  wr_nonempty : l <> [];
  wr_used : forall c, c ∈ l -> fat s c <> 0;
  wr_typed : short_typed (short (metadata h));
  wr_entry : entry_at s (metadata h) dc;
  wr_dir : dc ∉ l /\ fat s dc <> 0;
}.

(** Content after a write that stays inside the clusters, and after one that
    goes beyond them. *)
Lemma take_splice_inside (p size : nat) (buf F : list Z) :
  (p <= size)%nat -> (size <= length F)%nat -> (p + length buf <= length F)%nat ->
  take (size `max` (p + length buf)) (splice p buf F) = splice p buf (take size F).
Proof.
  intros Hp Hs Hl. destruct (decide (p + length buf <= size)%nat).
  - rewrite Nat.max_l by lia. rewrite <-(take_drop size F) at 1.
    rewrite splice_app_l by (rewrite length_take; lia).
    apply take_app_length'. rewrite length_splice; rewrite length_take; lia.
  - rewrite Nat.max_r by lia. unfold splice. rewrite take_take, (Nat.min_l p size) by lia.
    rewrite (drop_ge (take _ _)), app_nil_r, app_assoc by (rewrite length_take; lia).
    apply take_app_length'. rewrite length_app, length_take. lia.
Qed.

Lemma take_splice_beyond (p n size : nat) (buf F B : list Z) :
  (p <= size)%nat -> (size <= length F)%nat -> (p + n = length F)%nat -> (n <= length buf)%nat ->
  take (length buf - n) B = slice n (length buf - n) buf ->
  take (size `max` (p + length buf)) (splice p (slice 0 n buf) F ++ B) = splice p buf (take size F).
Proof.
  intros Hp Hs Hn Hb HB. assert (Hx : length (slice 0 n buf) = n) by (apply length_slice; lia).
  unfold splice. rewrite Hx, take_take, (Nat.min_l p size), (Nat.max_r size) by lia.
  rewrite (drop_ge F), (drop_ge (take _ _)), !app_nil_r by (rewrite ?length_take; lia).
  rewrite take_app_ge; rewrite length_app, Hx, length_take; [|lia].
  rewrite Nat.min_l by lia. replace (p + length buf - (p + n))%nat with (length buf - n)%nat by lia.
  rewrite HB, <-app_assoc. f_equal. change n with (0 + n)%nat at 2.
  rewrite <-slice_add. apply slice_full. lia.
Qed.

Lemma enough_free_ext s s' m :
  max_cluster s' = max_cluster s -> (forall c, is_cluster s c -> fat s' c = fat s c) ->
  fs_info s' = fs_info s -> enough_free s m -> enough_free s' m.
Proof.
  intros Hm Hf Hi [(fl & Hnd & Hl & Hfree) Hinfo]. split; [|by rewrite Hi].
  exists fl. split_conj; [done..|]. intros c Hc. destruct (Hfree c Hc) as [Hcc Hcf].
  split; [unfold is_cluster in *; by rewrite Hm|by rewrite Hf].
Qed.

Lemma enough_free_bound s m : fat_ok s -> enough_free s m -> m <= max_cluster s.
Proof.
  intros Hok [(fl & Hnd & Hl & Hfree) _].
  assert (Hsub : fl ⊆+ seqZ 2 (max_cluster s)).
  { apply NoDup_submseteq; [done|]. intros c Hc. destruct (Hfree c Hc) as [Hcc _].
    unfold is_cluster in Hcc. apply elem_of_seqZ. lia. }
  apply submseteq_length in Hsub. rewrite length_seqZ in Hsub. pose proof (ok_max _ Hok). lia.
Qed.

(** The two loops of [write]. *)
Lemma write_loops_spec fuel s h l dc buf :
  writable s h l dc -> Forall is_byte buf -> pointer h + Z.of_nat (length buf) <= U32_MAX ->
  enough_free s (missing s l h (Z.of_nat (length buf))) ->
  (Z.to_nat (max_cluster s) + 1 < fuel)%nat ->
  wp ('(last_cluster, c) ← write_clusters fuel buf 0 (Fat32Name.start_cluster (metadata h))
        (mkCopy (pointer h) 0 0 (Z.of_nat (length buf)) (cluster_zeros s));
      append_clusters fuel fuel buf last_cluster c) (h, s) (fun _ st =>
    exists new s', st = (set_pointer (pointer h + Z.of_nat (length buf)) h, s') /\
      chain s' (Fat32Name.start_cluster (metadata h)) (l ++ new) /\ NoDup (l ++ new) /\
      (forall c, c ∈ new -> is_cluster s c /\ fat s c = 0) /\
      fs_step s (fat s') (l ++ new) s' /\
      (forall c, 0 <= c < max_cluster s + 2 -> c ∉ l ++ new -> fat s' c = fat s c) /\
      fs_info s' = info_after (- Z.of_nat (length new)) (fs_info s) /\
      take (Z.to_nat (file_size (short (metadata h)) `max` (pointer h + Z.of_nat (length buf)))) (file_data s' (l ++ new)) =
        splice (Z.to_nat (pointer h)) buf
          (take (Z.to_nat (file_size (short (metadata h)))) (file_data s l)) /\
      pointer h + Z.of_nat (length buf) <= Z.of_nat (length (l ++ new)) * cluster_bytes s).
Proof.
  intros [Hok Hh [Hcl Hin Hch Hnd Hp Hs Hr] Hne Hused Ht Hent [Hdc Hdcf]] Hby Hmax Hfree Hfuel.
  unfold U32_MAX in *. destruct (cluster_geometry s Hok) as (? & ? & ? & ?).
  pose proof (chain_length s _ l Hok Hch Hnd) as Hlen.
  pose proof (length_file_data s l Hok (chain_clusters _ _ _ Hch)) as Hfd.
  wp_step. eapply wp_mono; [apply (write_clusters_spec fuel s 0 _ l); try done|]; cbn [c_remain c_pointer c_offset]; try lia.
  { unfold write_ok; cbn. rewrite length_cluster_zeros by done. split_conj; done || lia. }
  intros [lc k'] st (s1 & o & out & Hk & Hlo & -> & Hs1 & Hi1 & Hf1 & Hlast). cbn beta iota. cbn [fst snd] in Hk, Hlast.
  unfold write_count in *. cbn [c_remain c_pointer c_offset c_done] in *.
  set (n := 0 `max` _) in *. set (N := Z.of_nat (length buf)) in *.
  assert (Hn : 0 <= n <= N /\ (n = N /\ pointer h + N <= Z.of_nat (length l) * cluster_bytes s \/
    n < N /\ pointer h + n = Z.of_nat (length l) * cluster_bytes s)) by lia.
  pose proof (step_meta _ _ _ _ Hs1) as Hm1. pose proof (step_ok _ _ _ _ Hs1) as Hok1.
  pose proof (same_meta_bytes _ _ Hm1) as Hcb1. pose proof Hm1 as (_ & Hmax1 & _).
  pose proof (fs_step_length_data _ _ _ _ Hs1) as [Hds1 Hdn1].
  destruct Hn as [Hn0 [[Hn Hroom]|[Hn Hroom]]].
  - destruct fuel as [|fuel]; [lia|]. cbn [append_clusters]. rewrite Hk. cbn [c_remain copied].
    rewrite (proj2 (Z.leb_le _ _)) by lia. apply wp_ret. exists [], s1. rewrite app_nil_r, Hn.
    split_conj; try done.
    + by apply (fs_step_chain _ _ _ _ _ Hs1).
    + set_solver.
    + destruct Hs1; by constructor.
    + intros c Hc _. by apply (step_fat _ _ _ _ Hs1).
    + rewrite Hi1. cbn. destruct (fs_info s) as [[]|]; [|done]. unfold info_after, set_free_count; cbn. by rewrite Z.add_0_r.
    + rewrite Hf1, Hn, Z.sub_0_r, slice_full by lia.
      replace (Z.to_nat (_ `max` _)) with (Z.to_nat (file_size (short (metadata h))) `max` (Z.to_nat (pointer h) + length buf))%nat by lia.
      apply take_splice_inside; lia.
  - destruct (Hlast Hn) as [Ho Hlc].
    assert (Hlc' : last l = Some lc) by (subst lc; destruct (last l) eqn:E; [done|by apply last_None in E]).
    assert (Hf : forall c, is_cluster s c -> fat s1 c = fat s c).
    { intros c Hc. apply (step_fat _ _ _ _ Hs1). unfold is_cluster in Hc. lia. }
    pose proof (chain_clusters _ _ _ Hch) as Hcls. rewrite Forall_forall in Hcls.
    assert (Hmiss : 0 <= missing s l h N /\ N - n <= missing s l h N * cluster_bytes s < N - n + cluster_bytes s).
    { unfold missing. replace (0 `max` _) with (N - n) by lia. split; [apply Z.div_pos; lia|].
      pose proof (Z.div_mod (N - n + cluster_bytes s - 1) (cluster_bytes s) ltac:(lia)) as Hdm.
      pose proof (Z.mod_pos_bound (N - n + cluster_bytes s - 1) (cluster_bytes s) ltac:(lia)). lia. }
    pose proof (enough_free_bound s _ Hok Hfree) as Hmf.
    eapply wp_mono; [apply (append_clusters_spec fuel fuel s1 (Fat32Name.start_cluster (metadata h)) l lc buf k' _ (Z.to_nat (missing s l h N)))|];
      try done; rewrite ?Hk; cbn [c_remain c_pointer c_offset c_done copied]; rewrite ?Hcb1, ?Hmax1; try lia.
    + unfold hint_ok. by rewrite Hi1.
    + by apply (fs_step_chain _ _ _ _ _ Hs1).
    + intros c Hc. rewrite Hf by auto. by apply Hused.
    + unfold write_ok; cbn. rewrite Hds1, Hdn1. split_conj; try done; lia.
    + rewrite Z2Nat.id by lia. by apply (enough_free_ext s s1).
    + intros _ st (new & s2 & -> & Hch2 & Hnd2 & Hnew & _ & Hs2 & Hf2 & Hi2 & Htake & Hl1 & Hl2).
      cbn [c_remain c_pointer c_offset c_done copied] in *. rewrite Hcb1 in *.
      exists new, s2. split_conj; try done.
      * destruct h; unfold set_pointer; cbn. do 2 f_equal. lia.
      * intros c Hc. destruct (Hnew c Hc) as [Hcc Hcf].
        assert (is_cluster s c) by (unfold is_cluster in *; by rewrite <-Hmax1).
        split; [done|]. by rewrite <-Hf.
      * apply (fs_step_trans _ _ _ _ _ _ _ _ Hs1 Hs2). done.
      * intros c Hc Hcl'. rewrite Hf2 by (done || by rewrite Hmax1). by apply (step_fat _ _ _ _ Hs1).
      * by rewrite Hi2, Hi1.
      * unfold file_data at 1. rewrite fmap_app, concat_app. fold (file_data s2 l) (file_data s2 new).
        rewrite (fs_step_file s1 _ _ _ l Hok1 Hs2).
        -- rewrite Hf1, !Z.sub_0_r.
           replace (Z.to_nat (_ `max` _)) with (Z.to_nat (file_size (short (metadata h))) `max` (Z.to_nat (pointer h) + length buf))%nat by lia.
           apply (take_splice_beyond _ (Z.to_nat n)); try lia.
           replace (length buf - Z.to_nat n)%nat with (Z.to_nat (N - n)) by lia. done.
        -- apply Forall_forall. intros c Hc. apply (same_meta_is_cluster _ _ _ Hm1). auto.
        -- intros c Hc Hcn. apply NoDup_app in Hnd2 as (_ & Hdis & _). by apply (Hdis c).
      * rewrite length_app. lia.
Qed.

Lemma entry_at_meta s s' m m' dc :
  same_meta s s' -> short_sector m' = short_sector m -> short_sector_offset m' = short_sector_offset m ->
  entry_at s m dc -> entry_at s' m' dc.
Proof.
  intros Hm Hs Ho [Hc Hj Hoff]. constructor.
  - by apply (same_meta_is_cluster _ _ _ Hm).
  - unfold in_cluster in *. rewrite (same_meta_cluster _ _ _ Hm), Hs. by destruct Hm as [-> _].
  - rewrite Ho. by destruct Hm as [-> _].
Qed.

Lemma set_file_size_typed n e : short_typed e -> uint 4 n -> short_typed (set_file_size n e).
Proof. unfold short_typed. cbn. naive_solver. Qed.

(** What the operation leaves behind. *)
Definition written_to s (h : Fat32FileHandle) (l new : list Z) (buf : list Z)
    (h' : Fat32FileHandle) s' : Prop :=
  let size := file_size (short (metadata h)) in
  let stop := pointer h + Z.of_nat (length buf) in
  h' = set_pointer stop (set_size (size `max` stop) h) /\
  fat_ok s' /\ open_on s' h' (l ++ new) /\
  take (Z.to_nat (size `max` stop)) (file_data s' (l ++ new)) =
    splice (Z.to_nat (pointer h)) buf (take (Z.to_nat size) (file_data s l)) /\
  (forall c, c ∈ new -> is_cluster s c /\ fat s c = 0) /\
  (forall c, 0 <= c < max_cluster s + 2 -> c ∉ l ++ new -> fat s' c = fat s c) /\
  (mirrored s -> mirrored s') /\
  (forall j, data_start s <= j < block_count (device s) -> (forall c, c ∈ l ++ new -> ~ in_cluster s c j) ->
     blk (device s') j = if decide (size < stop /\ j = short_sector (metadata h))
       then with_entry (metadata h') (blk (device s) j) else blk (device s) j) /\
  (forall j, 0 <= j < reserved_sector_count (bpb s) -> j <> bpb_fs_info (bpb s) ->
     blk (device s') j = blk (device s) j) /\
  fs_info s' = info_after (- Z.of_nat (length new)) (fs_info s) /\ (info_stored s -> info_stored s').

(** C1: [write] on an open handle, with enough free clusters on the volume and
    a result of at most 4 GiB, succeeds: the content of the file becomes the
    old content with [buf] spliced in at the pointer, which may extend it; the
    clusters appended to the chain were free; the size in the handle is the new
    size; the pointer stands behind [buf]. All else of the volume is as before:
    the table entries of other clusters, and every block that is not in a
    cluster of the file, but for the 32 bytes of the entry of the file in its
    directory when the size changes, which become the entry with the new size,
    and for FSInfo, whose count of free clusters goes down by the clusters
    appended and whose block stays up to date. The copies of the table stay
    equal. *)
Theorem write_refines fuel s h l dc buf :
  writable s h l dc -> Forall is_byte buf -> pointer h + Z.of_nat (length buf) <= U32_MAX ->
  enough_free s (missing s l h (Z.of_nat (length buf))) ->
  (Z.to_nat (max_cluster s) + 1 < fuel)%nat ->
  exists new h' s', write fuel buf (h, s) = (Ok tt, (h', s')) /\ written_to s h l new buf h' s'.
Proof.
  intros Hw Hby Hmax Hfree Hfuel.
  pose proof (write_loops_spec fuel s h l dc buf Hw Hby Hmax Hfree Hfuel) as Hloops.
  destruct Hw as [Hok Hh [Hcl Hin Hch Hnd Hp Hs Hr] Hne Hused Ht Hent [Hdc Hdcf]].
  set (N := Z.of_nat (length buf)) in *. set (size := file_size (short (metadata h))) in *.
  cut (wp (write fuel buf) (h, s) (fun _ st => exists new, written_to s h l new buf st.1 st.2)).
  { intros ([] & [h' s'] & Hrun & new & Hwr)%wp_run. by exists new, h', s'. }
  unfold write, check_open, upgrade. wp_step. wp_step. wp_step. cbn [fst]. rewrite Hcl. wp_step.
  wp_step. wp_step. cbn [fst]. fold N. rewrite (proj2 (Z.ltb_ge _ _)) by lia.
  wp_step. wp_step. wp_step. cbn [fst]. rewrite Hin. wp_step. wp_step. wp_step. cbn [snd].
  apply wp_bind_inv in Hloops. wp_step. eapply wp_mono; [exact Hloops|]. cbn beta. clear Hloops.
  intros [lc k] st Happ. wp_step. eapply wp_mono; [exact Happ|]. cbn beta. clear Happ.
  intros _ st' (new & s1 & -> & Hch1 & Hnd1 & Hnew & Hs1 & Hf1 & Hi1 & Hdata & Hroom).
  wp_step. wp_step. cbn [fst pointer set_pointer]. fold size.
  pose proof (step_meta _ _ _ _ Hs1) as Hm1. pose proof (step_ok _ _ _ _ Hs1) as Hok1.
  pose proof (same_meta_bytes _ _ Hm1) as Hcb1.
  assert (Hdcn : dc ∉ l ++ new) by (intros [?|[_ ?]%Hnew]%elem_of_app; done).
  pose proof (at_dc _ _ _ Hent) as Hdcc.
  destruct (cluster_geometry s Hok) as (_ & _ & _ & Hcb).
  assert (Hroom' : size <= Z.of_nat (length (l ++ new)) * cluster_bytes s1).
  { rewrite Hcb1, length_app. nia. }
  destruct (size <? pointer h + N) eqn:Hgrow; bool_to_prop.
  - wp_step. apply wp_modify_handle. wp_step. wp_step. cbn [fst]. apply wp_on_fs.
    unfold U32_MAX in *. rewrite wrap_small by lia.
    set (h2 := set_size (pointer h + N) (set_pointer (pointer h + N) h)).
    eapply wp_mono; [apply (update_file_metadata_spec s1 (metadata h2) dc)|].
    + done.
    + by apply (entry_at_meta s s1 (metadata h)).
    + by apply set_file_size_typed; [|unfold uint; lia].
    + intros [] s2 (Hs2 & Hi2 & Hblocks). cbn [fst snd]. exists new. unfold written_to. fold N size.
      rewrite !Z.max_r in * by lia. pose proof (step_meta _ _ _ _ Hs2) as Hm2.
      assert (Hcls : Forall (is_cluster s1) (l ++ new)) by apply (chain_clusters _ _ _ Hch1).
      split_conj; try done.
      * apply (step_ok _ _ _ _ Hs2).
      * constructor; cbn; try done; [by apply (fs_step_chain _ _ _ _ _ Hs2)|lia..|].
        rewrite (same_meta_bytes _ _ Hm2), Hcb1. lia.
      * rewrite (fs_step_file s1 _ _ _ _ Hok1 Hs2); [done|done|set_solver].
      * intros c Hc Hcl'. rewrite (step_fat _ _ _ _ Hs2) by (destruct Hm1 as (_ & -> & _); done). by apply Hf1.
      * intros Hmir. by apply (step_mirrored _ _ _ _ Hs2), (step_mirrored _ _ _ _ Hs1).
      * intros j Hj Hout. destruct (fat_ok_bounds s Hok) as (? & ? & ? & ? & ? & ? & ?). unfold data_start in *.
        rewrite Hblocks, (step_data _ _ _ _ Hs1 j Hj Hout) by (destruct Hm1 as (_ & _ & _ & _ & ->); lia).
        cbn [metadata set_size set_pointer h2]. repeat case_decide; [done|naive_solver..|done].
      * intros j Hj Hne'. rewrite (step_reserved _ _ _ _ Hs2) by (by destruct Hm1 as (-> & _)).
        by apply (step_reserved _ _ _ _ Hs1).
      * by rewrite Hi2.
      * intros Hst. by apply (step_info _ _ _ _ Hs2), (step_info _ _ _ _ Hs1).
  - apply wp_ret. exists new. cbn [fst snd]. unfold written_to. fold N size. rewrite !Z.max_l in * by lia.
    split_conj; try done.
    + by destruct h as [? [[]] ? ?].
    + constructor; cbn; try done; fold size; lia.
    + apply (step_mirrored _ _ _ _ Hs1).
    + intros j Hj Hout. rewrite decide_False by lia. by apply (step_data _ _ _ _ Hs1).
    + apply (step_reserved _ _ _ _ Hs1).
    + apply (step_info _ _ _ _ Hs1).
Qed.
End steps.

(** ** The property at a concrete input *)

#[local] Opaque demo_fs.

(** The demo disk with a file in cluster 3, its entry in the root directory. *)
Lemma demo_file_disk : exists s : Fat32Inner MemoryDevice,
  fat_ok s /\ fs_info s = Some (format_fs_info 3) /\ bpb s = bpb demo_fs /\ max_cluster s = 3 /\
  fat s 2 = FAT_ENTRY_EOC_START /\ fat s 3 = FAT_ENTRY_EOC_START /\ fat s 4 = 0.
Proof.
  destruct demo_fs_run as (_ & Hok & _ & Hi & Hm).
  destruct (wp_run _ _ _ (update_cluster_spec demo_fs 3 FAT_ENTRY_EOC_START Hok
    ltac:(rewrite Hm; lia) ltac:(unfold FAT_ENTRY_EOC_START; lia))) as ([] & s & _ & Hs & Hi').
  exists s. pose proof (table_step_meta _ _ _ Hs) as (Hb & Hmax & _).
  split_conj; [by apply (table_step_ok _ _ _ Hs)|congruence|exact Hb|congruence|..].
  all: rewrite (table_step_fat _ _ _ _ Hs) by (rewrite Hm; lia); vm_compute; reflexivity.
Qed.

Definition demo_file_handle : Fat32FileHandle :=
  mkHandle true
    (mkMeta (set_file_size 4000 (Fat32Name.new_short 3 ATTR_ARCHIVE)) [] 0 0 0 2
       (reserved_sector_count (bpb demo_fs) + fat_size_32 (bpb demo_fs) * 2) 1) 4000 false.

Lemma demo_writable (s : Fat32Inner MemoryDevice) :
  fat_ok s -> fs_info s = Some (format_fs_info 3) -> bpb s = bpb demo_fs -> max_cluster s = 3 ->
  fat s 2 = FAT_ENTRY_EOC_START -> fat s 3 = FAT_ENTRY_EOC_START -> writable s demo_file_handle [3] 2.
Proof.
  intros Hok Hi Hb Hm H2 H3.
  assert (Hcb : cluster_bytes s = 4096) by (unfold cluster_bytes; rewrite Hb; vm_compute; reflexivity).
  assert (Hspc : sectors_per_cluster (bpb demo_fs) = 8) by (vm_compute; reflexivity).
  assert (Hbps : bytes_per_sector (bpb demo_fs) = 512) by (vm_compute; reflexivity).
  constructor.
  - exact Hok.
  - unfold hint_ok. rewrite Hi. vm_compute. discriminate.
  - constructor; [reflexivity|reflexivity| |apply NoDup_singleton|cbn; lia|cbn; unfold U32_MAX; lia|].
    + constructor; [change (is_cluster s 3); unfold is_cluster; rewrite Hm; lia|].
      change (chain s (fat s 3) []). rewrite H3. constructor. right. reflexivity || (unfold FAT_ENTRY_EOC_START; lia).
    + rewrite Hcb. cbn. lia.
  - discriminate.
  - intros c ->%list_elem_of_singleton. rewrite H3. discriminate.
  - apply set_file_size_typed; [apply Fat32Name.new_short_typed; vm_compute; intuition discriminate|].
    unfold uint. cbn. lia.
  - constructor.
    + unfold is_cluster. rewrite Hm. lia.
    + unfold in_cluster, cluster_block, data_start. rewrite Hb, Hspc. cbn. lia.
    + rewrite Hb, Hbps. cbn. lia.
  - rewrite H2. split; [intros [=]%list_elem_of_singleton|discriminate].
Qed.

Lemma write_refines_witness : exists (s : Fat32Inner MemoryDevice) new h' s',
  write 10 (replicate 200 7) (demo_file_handle, s) = (Ok tt, (h', s')) /\
  chain s' 3 (3 :: new) /\ file_size (short (metadata h')) = 4200 /\ pointer h' = 4200 /\
  drop 4000 (take 4200 (file_data s' (3 :: new))) = replicate 200 7.
Proof.
  destruct demo_file_disk as (s & Hok & Hi & Hb & Hm & H2 & H3 & H4).
  assert (Hcb : cluster_bytes s = 4096) by (unfold cluster_bytes; rewrite Hb; vm_compute; reflexivity).
  pose proof (demo_writable s Hok Hi Hb Hm H2 H3) as Hw.
  destruct (write_refines 10 s demo_file_handle [3] 2 (replicate 200 7)) as (new & h' & s' & Hrun & Hwr).
  - exact Hw.
  - apply Forall_replicate. unfold is_byte. lia.
  - cbn. unfold U32_MAX. lia.
  - assert (missing s [3] demo_file_handle (Z.of_nat (length (replicate 200 7))) = 1) as ->.
    { unfold missing. rewrite Hcb. vm_compute. reflexivity. }
    split; [|rewrite Hi; vm_compute; intuition discriminate].
    exists [4]. split; [apply NoDup_singleton|]. split; [cbn; lia|].
    intros c ->%list_elem_of_singleton. split; [unfold is_cluster; rewrite Hm; lia|exact H4].
  - rewrite Hm. cbn. lia.
  - exists s, new, h', s'. destruct Hwr as (-> & _ & Hopen & Hdata & _).
    split; [exact Hrun|]. split; [exact (on_chain _ _ _ Hopen)|]. split; [reflexivity|]. split; [reflexivity|].
    assert (Hfd : length (file_data s [3]) = 4096%nat).
    { rewrite length_file_data; [|exact Hok|]; [rewrite Hcb; reflexivity|].
      constructor; [unfold is_cluster; rewrite Hm; lia|constructor]. }
    change (take 4200 (file_data s' (3 :: new)) =
      splice 4000 (replicate 200 7) (take 4000 (file_data s [3]))) in Hdata.
    rewrite Hdata. unfold splice. rewrite take_take, drop_app_length' by (rewrite length_take, Hfd; reflexivity).
    rewrite drop_ge, app_nil_r by (rewrite length_take, Hfd; cbn; lia). reflexivity.
Defined.
