(* ===== verification/Fat32DirSpec.v ===== *)
(** * FAT32: what the directory operations do (library/filesystem/src/fs/fat32.rs)

    The abstract view of a directory: the list of its files. Walking, looking
    a name up and listing are functions of this list; creating a file inserts
    into it. *)
From S2P Require Import Prelude Text Path Device MemoryDevice Fat32Types Fat32Name Fat32Format Fat32Table Fat32Dir Fat32Fs Fat32Handle Fat32Write.

(** ** The files in a list of entries *)

(** What the walk yields, and the state it ends in. *)
Fixpoint metas (l : list (Position * list Z)) (w : WalkState)
    : list Fat32FileMetadata * WalkState :=
  match l with
  | [] => ([], w)
  | (p, bytes) :: l' =>
      if field 11 1 bytes =? ATTR_LONG_NAME then metas l' (push_long p (decode_long bytes) w)
      else if (nth 0 (sh_name (decode_short bytes)) 0 =? 0x00)
              || (nth 0 (sh_name (decode_short bytes)) 0 =? 0xE5)
      then metas l' (clear_long w)
      else
        let '(ms, w') := metas l' (clear_long w) in
        (found_meta p (decode_short bytes) w :: ms, w')
  end.

Lemma metas_app l l' w :
  metas (l ++ l') w =
    ((metas l w).1 ++ (metas l' (metas l w).2).1, (metas l' (metas l w).2).2).
Proof.
  revert w. induction l as [|[p bytes] l IH]; intros w; cbn [app metas fst snd].
  { by destruct (metas l' w). }
  case_match; [apply IH|]. case_match; [apply IH|]. rewrite IH. by destruct (metas l (clear_long w)).
Qed.

Lemma walk_push l w acc :
  walk_entries push_yield l w acc = Ok (true, (metas l w).2, acc ++ (metas l w).1).
Proof.
  revert w acc. induction l as [|[p bytes] l IH]; intros w acc; cbn [walk_entries metas].
  { by rewrite app_nil_r. }
  case_match; [apply IH|]. case_match; [apply IH|].
  cbn [push_yield mbind outcome_bind]. rewrite IH. destruct (metas l (clear_long w)); cbn.
  by rewrite <-app_assoc.
Qed.

(** The first file of this name. *)
Definition find_file (name : rstring) (ms : list Fat32FileMetadata) : option Fat32FileMetadata :=
  snd <$> list_find (fun m => Fat32Name.name_matches m name = true) ms.

Lemma find_file_cons name m ms :
  find_file name (m :: ms) = if Fat32Name.name_matches m name then Some m else find_file name ms.
Proof.
  unfold find_file. cbn [list_find]. case_decide as Hm.
  - by rewrite Hm.
  - destruct (Fat32Name.name_matches m name); [done|]. by destruct (list_find _ ms) as [[]|].
Qed.

Lemma find_file_app name ms ms' :
  find_file name (ms ++ ms') =
    match find_file name ms with Some m => Some m | None => find_file name ms' end.
Proof.
  induction ms as [|m ms IH]; [done|]. cbn [app]. rewrite !find_file_cons.
  by destruct (Fat32Name.name_matches m name).
Qed.

Lemma walk_find name l w acc :
  exists w', walk_entries (find_yield name) l w acc =
    match find_file name (metas l w).1 with
    | Some m => Ok (false, w', Some (sort_long m))
    | None => Ok (true, (metas l w).2, acc)
    end.
Proof.
  revert w. induction l as [|[p bytes] l IH]; intros w; cbn [walk_entries metas]; [by exists w|].
  case_match; [apply IH|]. case_match; [apply IH|].
  destruct (IH (clear_long w)) as [w' Hw]. destruct (metas l (clear_long w)) as [ms w2].
  cbn [fst snd] in *. rewrite find_file_cons. set (m := found_meta _ _ _).
  assert (Hy : find_yield name m acc =
    if Fat32Name.name_matches m name then Ok (false, Some (sort_long m)) else Ok (true, acc)) by done.
  rewrite Hy. destruct (Fat32Name.name_matches m name); cbn [mbind outcome_bind];
    [by exists (clear_long w)|by exists w'].
Qed.

(** ** Files as groups of entries *)

Definition group_bytes (m : Fat32FileMetadata) : list (list Z) :=
  (encode_long <$> long m) ++ [encode_short (short m)].

(** A file with a long name as [create_file_meta] writes it. *)
Record group_ok (m : Fat32FileMetadata) : Prop := mkGroupOk {
  gr_long : Forall (fun e => long_typed e /\ lg_attr e = ATTR_LONG_NAME) (long m);
  gr_nonempty : long m <> [];
  gr_order : Forall (fun e => order e <> 0) (tail (long m));
  gr_short : short_typed (short m);
  gr_attr : sh_attr (short m) <> ATTR_LONG_NAME;
  gr_used : nth 0 (sh_name (short m)) 0 <> 0 /\ nth 0 (sh_name (short m)) 0 <> 0xE5;
}.

Definition zero_entry : list Z := replicate DIR_ENTRY_SIZE 0.

(** [place] from an index on. *)
Definition place_at (cluster sector : Z) (off : nat) (l : list (list Z)) : list (Position * list Z) :=
  imap (fun j bytes => (mkPos cluster sector (Z.of_nat (off + j)), bytes)) l.

Lemma place_at_0 c sec l : place c sec l = place_at c sec 0 l.
Proof. done. Qed.

Lemma place_at_app c sec off l l' :
  place_at c sec off (l ++ l') = place_at c sec off l ++ place_at c sec (off + length l) l'.
Proof.
  unfold place_at. rewrite imap_app. f_equal. apply imap_ext. intros i x _. cbn. do 2 f_equal. lia.
Qed.

Lemma place_at_cons c sec off x l :
  place_at c sec off (x :: l) = (mkPos c sec (Z.of_nat off), x) :: place_at c sec (S off) l.
Proof.
  unfold place_at. cbn [imap]. rewrite Nat.add_0_r. f_equal. apply imap_ext. intros i y _. cbn.
  do 2 f_equal. lia.
Qed.

(** The metadata of [m] found at index [off] of a sector. *)
Definition placed (cluster sector : Z) (off : nat) (m : Fat32FileMetadata) : Fat32FileMetadata :=
  mkMeta (short m) (long m) cluster sector (Z.of_nat off) cluster sector
    (Z.of_nat (off + length (long m))).

Lemma metas_longs c sec off es w rest :
  Forall (fun e => long_typed e /\ lg_attr e = ATTR_LONG_NAME) es ->
  metas (place_at c sec off (encode_long <$> es) ++ rest) w =
    metas rest (match entry_long w, es with
                | _, [] => w
                | [], _ => mkWalk es c sec (Z.of_nat off)
                | old, _ => mkWalk (old ++ es) (w_start_cluster w) (w_start_sector w) (w_start_sector_offset w)
                end).
Proof.
  intros Hes. revert off w. induction Hes as [|e es [Ht Ha] Hes IH]; intros off w.
  { by destruct (entry_long w). }
  rewrite fmap_cons, place_at_cons. cbn [app metas].
  change (field 11 1 (encode_long e)) with (lg_attr (decode_long (encode_long e))).
  rewrite decode_encode_long, Ha, Z.eqb_refl, IH by done. f_equal. unfold push_long.
  destruct w as [[|o os] x y z]; cbn [entry_long w_start_cluster w_start_sector w_start_sector_offset at_cluster at_sector at_offset].
  - by destruct es.
  - destruct es; [done|]. cbn [app]. by rewrite <-app_assoc.
Qed.

Lemma metas_group c sec off m w :
  group_ok m -> entry_long w = [] ->
  exists w', metas (place_at c sec off (group_bytes m)) w = ([placed c sec off m], w') /\
    entry_long w' = [].
Proof.
  intros [Hl Hne _ Hs Ha [Hz He]] Hw. unfold group_bytes. rewrite place_at_app, metas_longs by done.
  rewrite Hw. rewrite length_fmap, place_at_cons. destruct (long m) as [|e es] eqn:El; [done|].
  cbn [metas]. change (field 11 1 (encode_short (short m))) with (sh_attr (decode_short (encode_short (short m)))).
  rewrite decode_encode_short by done. rewrite (proj2 (Z.eqb_neq _ _) Ha), (proj2 (Z.eqb_neq _ _) Hz), (proj2 (Z.eqb_neq _ _) He). cbn [orb].
  eexists. split; [unfold placed, found_meta; rewrite El; reflexivity|done].
Qed.

Lemma metas_zeros c sec off k w :
  entry_long w = [] ->
  exists w', metas (place_at c sec off (replicate k zero_entry)) w = ([], w') /\ entry_long w' = [].
Proof.
  revert off w. induction k as [|k IH]; intros off w Hw; [by exists w|].
  cbn [replicate]. rewrite place_at_cons. cbn [metas].
  change (field 11 1 zero_entry =? ATTR_LONG_NAME) with false. cbn iota.
  change (nth 0 (sh_name (decode_short zero_entry)) 0) with 0. cbn [Z.eqb orb]. by apply IH.
Qed.

(** A run of files, in one sector from index [off] on. *)
Fixpoint placed_list (cluster sector : Z) (off : nat) (ms : list Fat32FileMetadata)
    : list Fat32FileMetadata :=
  match ms with
  | [] => []
  | m :: ms' => placed cluster sector off m
                :: placed_list cluster sector (off + length (group_bytes m)) ms'
  end.

Definition groups (ms : list Fat32FileMetadata) : list (list Z) := concat (group_bytes <$> ms).

Lemma placed_list_app c sec off ms ms' :
  placed_list c sec off (ms ++ ms') =
    placed_list c sec off ms ++ placed_list c sec (off + length (groups ms)) ms'.
Proof.
  revert off. induction ms as [|m ms IH]; intros off; cbn [app placed_list].
  { by rewrite Nat.add_0_r. }
  rewrite IH. cbn. do 3 f_equal. unfold groups. cbn. rewrite length_app. lia.
Qed.

Lemma metas_groups c sec off ms k w :
  Forall group_ok ms -> entry_long w = [] ->
  exists w', metas (place_at c sec off (groups ms ++ replicate k zero_entry)) w =
    (placed_list c sec off ms, w') /\ entry_long w' = [].
Proof.
  intros Hms. revert off w. induction Hms as [|m ms Hm Hms IH]; intros off w Hw.
  { by apply metas_zeros. }
  unfold groups. cbn [fmap list_fmap concat]. fold (groups ms).
  rewrite <-app_assoc, place_at_app, metas_app.
  destruct (metas_group c sec off m w Hm Hw) as (w1 & -> & Hw1). cbn [fst snd].
  destruct (IH (off + length (group_bytes m))%nat w1 Hw1) as (w2 & -> & Hw2). by exists w2.
Qed.

(** ** The search for room *)

Definition used (bytes : list Z) : Prop := nth 0 bytes 0 <> 0.

Lemma encode_long_first e : long_typed e -> nth 0 (encode_long e) 0 = order e.
Proof.
  intros (Ho & _). change (order e `mod` 256 = order e). apply Z.mod_small. unfold uint in Ho. lia.
Qed.

Lemma encode_short_first e : short_typed e -> nth 0 (encode_short e) 0 = nth 0 (sh_name e) 0.
Proof. intros ([Hl _] & _). unfold encode_short. destruct (sh_name e); [discriminate Hl|done]. Qed.

Lemma find_run_used need start i l rest :
  Forall used l -> l <> [] ->
  find_run need start i (l ++ rest) = find_run need (i + length l) (i + length l) rest.
Proof.
  intros Hl Hne. revert start i. induction Hl as [|x l Hx Hl IH]; intros start i; [done|].
  cbn [app find_run]. rewrite (proj2 (Z.eqb_neq _ _) Hx). cbn [negb].
  destruct l as [|y l]; [cbn; by rewrite Nat.add_1_r|].
  rewrite IH by done. cbn [length]. f_equal; lia.
Qed.

Lemma group_used m : group_ok m ->
  Forall used (encode_long <$> tail (long m)) /\ used (encode_short (short m)).
Proof.
  intros [Hl _ Ho Hs _ [Hz _]]. split.
  - apply Forall_fmap. destruct (long m) as [|e es]; [constructor|]. cbn [tail] in *.
    apply Forall_cons in Hl as [_ Hl]. rewrite Forall_forall in *. intros e' He'.
    unfold used, compose. rewrite encode_long_first by (by apply Hl). by apply Ho.
  - unfold used. by rewrite encode_short_first.
Qed.

Lemma find_run_group need i m rest :
  group_ok m -> (2 <= need)%nat ->
  find_run need i i (group_bytes m ++ rest) =
    find_run need (i + length (group_bytes m)) (i + length (group_bytes m)) rest.
Proof.
  intros Hm Hneed. destruct (group_used m Hm) as [Hl Hs]. pose proof (gr_nonempty m Hm) as Hne.
  unfold group_bytes. destruct (long m) as [|e es]; [done|]. cbn [tail] in Hl.
  cbn [fmap list_fmap app]. set (l := (encode_long <$> es) ++ [encode_short (short m)]).
  assert (Hu : Forall used l /\ l <> []).
  { split; [apply Forall_app; split; [done|by apply Forall_singleton]|]. unfold l. by destruct es. }
  cbn [find_run length]. rewrite Nat.sub_diag, (proj2 (Nat.leb_gt _ _)) by lia.
  destruct (negb (nth 0 (encode_long e) 0 =? 0)); rewrite find_run_used by apply Hu; f_equal; lia.
Qed.

Lemma find_run_zeros need start i k :
  (start <= i)%nat -> (i - start < need)%nat ->
  find_run need start i (replicate k zero_entry) =
    if decide (need <= i - start + k)%nat then Some start else None.
Proof.
  revert i. induction k as [|k IH]; intros i Hi Hn; cbn [replicate find_run].
  { by rewrite decide_False by lia. }
  change (negb (nth 0 zero_entry 0 =? 0)) with false. cbn iota.
  destruct (need <=? i - start + 1)%nat eqn:Hle.
  - apply Nat.leb_le in Hle. by rewrite decide_True by lia.
  - apply Nat.leb_gt in Hle. rewrite IH by lia. do 2 case_decide; done || lia.
Qed.

(** In a sector with files first and free entries behind them, the search
    finds the free entries. *)
Lemma find_run_packed need i ms k :
  Forall group_ok ms -> (2 <= need)%nat ->
  find_run need i i (groups ms ++ replicate k zero_entry) =
    if decide (need <= k)%nat then Some (i + length (groups ms))%nat else None.
Proof.
  intros Hms Hneed. revert i. induction Hms as [|m ms Hm Hms IH]; intros i.
  { cbn [groups fmap list_fmap concat app length]. rewrite find_run_zeros, Nat.sub_diag, Nat.add_0_r by lia. done. }
  change (groups (m :: ms)) with (group_bytes m ++ groups ms).
  rewrite <-app_assoc, find_run_group, IH, length_app by done. by rewrite Nat.add_assoc.
Qed.

(** ** The entries of a block *)

Definition block_entries (entries : nat) (b : list Z) : list (list Z) :=
  (fun j => slice (j * DIR_ENTRY_SIZE) DIR_ENTRY_SIZE b) <$> seq 0 entries.

Lemma block_entries_lookup n b j : (j < n)%nat ->
  block_entries n b !! j = Some (slice (j * DIR_ENTRY_SIZE) DIR_ENTRY_SIZE b).
Proof.
  intros Hj. unfold block_entries. rewrite list_lookup_fmap, lookup_seq_lt by done. done.
Qed.

Lemma length_block_entries n b : length (block_entries n b) = n.
Proof. unfold block_entries. by rewrite length_fmap, length_seq. Qed.

Lemma slice_concat_entries (es : list (list Z)) j e :
  Forall (fun e => length e = DIR_ENTRY_SIZE) es -> es !! j = Some e ->
  slice (j * DIR_ENTRY_SIZE) DIR_ENTRY_SIZE (concat es) = e.
Proof.
  intros Hes. revert j. induction Hes as [|x es Hx Hes IH]; intros j Hj; [done|].
  destruct j as [|j]; cbn [lookup list_lookup] in Hj; cbn [concat].
  - injection Hj as ->. rewrite Nat.mul_0_l, slice_app_l by lia. apply slice_full. done.
  - rewrite slice_app_r, Hx by lia. rewrite <-(IH j Hj). f_equal. lia.
Qed.

Lemma length_concat_entries (es : list (list Z)) :
  Forall (fun e => length e = DIR_ENTRY_SIZE) es -> length (concat es) = (length es * DIR_ENTRY_SIZE)%nat.
Proof.
  induction 1 as [|x es Hx Hes IH]; [done|]. cbn [concat length]. rewrite length_app, IH, Hx. lia.
Qed.

(** Writing entries into a block. *)
Lemma block_entries_splice n b start es :
  Forall (fun e => length e = DIR_ENTRY_SIZE) es -> (start + length es <= n)%nat ->
  (n * DIR_ENTRY_SIZE <= length b)%nat ->
  block_entries n (splice (start * DIR_ENTRY_SIZE) (concat es) b) = splice start es (block_entries n b).
Proof.
  intros Hes Hn Hb. pose proof (length_concat_entries es Hes) as Hlen. unfold DIR_ENTRY_SIZE in *.
  apply list_eq. intros j. destruct (decide (j < n)%nat).
  - rewrite block_entries_lookup, lookup_splice by (rewrite ?length_block_entries; lia).
    case_decide as Hj.
    + destruct (lookup_lt_is_Some_2 es (j - start)) as [e He]; [lia|]. rewrite He. f_equal.
      rewrite slice_in_splice by (unfold DIR_ENTRY_SIZE; lia).
      rewrite <-(slice_concat_entries es (j - start) e Hes He). unfold DIR_ENTRY_SIZE. f_equal. lia.
    + rewrite block_entries_lookup by done. f_equal. apply slice_splice_ne; unfold DIR_ENTRY_SIZE; lia.
  - rewrite !lookup_ge_None_2; [done|rewrite length_splice, length_block_entries; rewrite ?length_block_entries; lia|rewrite length_block_entries; lia].
Qed.

Lemma bind_ext_in {A B} (f g : A -> list B) l :
  (forall x, x ∈ l -> f x = g x) -> l ≫= f = l ≫= g.
Proof.
  induction l as [|x l IH]; intros Hfg; [done|]. cbn. rewrite Hfg by left. f_equal. apply IH.
  intros y Hy. apply Hfg. by right.
Qed.

(** ** Directories on a volume *)
Section dir_spec.
  Context {D : Type} `{BlockDevice D, !BlockDeviceSpec D}.
  Implicit Types s : Fat32Inner D.

(** The entries of sector [i] of cluster [c], with their positions. *)
Definition sector_block s (c : Z) (i : nat) : Z := cluster_block s c + Z.of_nat i.

Definition sector_view s (c : Z) (i : nat) : list (Position * list Z) :=
  place c (sector_block s c i) (block_entries (dir_entries s) (blk (device s) (sector_block s c i))).

Definition cluster_view s (c : Z) : list (Position * list Z) :=
  i ← seq 0 (dir_sectors s); sector_view s c i.

Definition dir_view s (l : list Z) : list (Position * list Z) := c ← l; cluster_view s c.

(** The files of the directory with the clusters [l]. *)
Definition dir_files s (l : list Z) : list Fat32FileMetadata :=
  (metas (dir_view s l) (mkWalk [] 0 0 0)).1.

Lemma slice_sector s c i : fat_ok s -> is_cluster s c -> (i < dir_sectors s)%nat ->
  slice (i * dir_size s) (dir_size s) (cluster_buffer s c) = blk (device s) (sector_block s c i).
Proof.
  intros Hok Hc Hi. unfold cluster_buffer, sector_block.
  replace i with (Z.to_nat (Z.of_nat i)) at 1 by lia.
  rewrite slice_concat_seqZ; [done| |unfold dir_sectors in Hi; lia].
  intros j Hj. apply blk_length; [apply (ok_dev _ Hok)|by apply (block_in_cluster s c)].
Qed.

Lemma entries_fit s : fat_ok s ->
  (dir_entries s * DIR_ENTRY_SIZE = Z.to_nat (bytes_per_sector (bpb s)))%nat /\
  (dir_entries s * DIR_ENTRY_SIZE <= dir_size s)%nat /\ (16 <= dir_entries s)%nat.
Proof.
  intros Hok. destruct (cluster_geometry s Hok) as (? & ? & ? & ?).
  pose proof (ok_bps_dir _ Hok). pose proof (ok_bps _ Hok).
  unfold dir_entries, dir_size, DIR_ENTRY_SIZE.
  assert (Z.to_nat (bytes_per_sector (bpb s)) = (Z.to_nat (bytes_per_sector (bpb s) / 32) * 32)%nat) as -> by lia.
  rewrite Nat.div_mul by lia. lia.
Qed.

Lemma sector_entries_block s c i : fat_ok s -> is_cluster s c -> (i < dir_sectors s)%nat ->
  sector_entries (dir_size s) i (dir_entries s) (cluster_buffer s c) =
    block_entries (dir_entries s) (blk (device s) (sector_block s c i)).
Proof.
  intros Hok Hc Hi. destruct (entries_fit s Hok) as (_ & Hfit & _).
  unfold sector_entries, block_entries. apply list_fmap_ext. intros k j Hj. apply lookup_seq in Hj as [-> Hj].
  rewrite <-(slice_sector s c i) by done. rewrite slice_slice by (unfold DIR_ENTRY_SIZE in *; lia). done.
Qed.

Lemma cluster_entries_view s c : fat_ok s -> is_cluster s c ->
  cluster_entries c (cluster_block s c) (dir_size s) (dir_sectors s) (dir_entries s) (cluster_buffer s c)
    = cluster_view s c.
Proof.
  intros Hok Hc. apply bind_ext_in. intros i Hi. apply elem_of_seq in Hi.
  unfold sector_view. by rewrite sector_entries_block by (done || lia).
Qed.

(** Walking the clusters of a chain is walking the list of their entries. *)
Lemma walk_clusters_push fuel s c l w buffer acc :
  fat_ok s -> chain s c l -> (length l < fuel)%nat ->
  length buffer = (dir_sectors s * dir_size s)%nat ->
  walk_clusters push_yield fuel c w buffer acc s = (Ok (acc ++ (metas (dir_view s l) w).1), s).
Proof.
  intros Hok. revert c l w buffer acc. induction fuel as [|fuel IH]; intros c l w buffer acc Hch Hfuel Hb; [lia|].
  cbn [walk_clusters]. rewrite (is_end_chain _ s c l)
    by (done || unfold FAT_ENTRY_RESERVED_START, FAT_ENTRY_EOC_START; lia).
  destruct l as [|x l]; [cbn; by rewrite app_nil_r|].
  apply chain_cons_inv in Hch as (-> & Hc & Hch). cbn [length] in *.
  unfold mbind, M_bind. rewrite get_sector_run, read_cluster_run by done. unfold gets, lift. cbn [id].
  rewrite cluster_entries_view, walk_push by done.
  rewrite get_next_cluster_run by (done || unfold is_cluster in Hc; lia).
  rewrite (IH _ l) by (done || lia || by apply length_cluster_buffer).
  change (dir_view s (c :: l)) with (cluster_view s c ++ dir_view s l).
  rewrite metas_app, <-app_assoc. done.
Qed.

Lemma walk_clusters_find name fuel s c l w buffer :
  fat_ok s -> chain s c l -> (length l < fuel)%nat ->
  length buffer = (dir_sectors s * dir_size s)%nat ->
  walk_clusters (find_yield name) fuel c w buffer None s =
    (Ok (sort_long <$> find_file name (metas (dir_view s l) w).1), s).
Proof.
  intros Hok. revert c l w buffer. induction fuel as [|fuel IH]; intros c l w buffer Hch Hfuel Hb; [lia|].
  cbn [walk_clusters]. rewrite (is_end_chain _ s c l)
    by (done || unfold FAT_ENTRY_RESERVED_START, FAT_ENTRY_EOC_START; lia).
  destruct l as [|x l]; [done|].
  apply chain_cons_inv in Hch as (-> & Hc & Hch). cbn [length] in *.
  change (dir_view s (c :: l)) with (cluster_view s c ++ dir_view s l).
  unfold mbind, M_bind. rewrite get_sector_run, read_cluster_run by done. unfold gets, lift. cbn [id].
  rewrite cluster_entries_view by done.
  destruct (walk_find name (cluster_view s c) w None) as [w' ->].
  rewrite metas_app. cbn [fst]. rewrite find_file_app.
  destruct (find_file name (metas (cluster_view s c) w).1); [done|].
  rewrite get_next_cluster_run by (done || unfold is_cluster in Hc; lia).
  rewrite (IH _ l) by (done || lia || by apply length_cluster_buffer). done.
Qed.

(** ** Packed directories *)

(** A sector with the files [ms] first and free entries behind them. *)
Definition sector_packed s (c : Z) (i : nat) (ms : list Fat32FileMetadata) : Prop :=
  Forall group_ok ms /\ exists k,
    block_entries (dir_entries s) (blk (device s) (sector_block s c i)) =
      groups ms ++ replicate k zero_entry.

(** A directory that only ever grew: every sector [i] of every cluster [c] of
    it is packed with the files [F c i]. *)
Definition dir_packed s (l : list Z) (F : Z -> nat -> list Fat32FileMetadata) : Prop :=
  forall c i, c ∈ l -> (i < dir_sectors s)%nat -> sector_packed s c i (F c i).

Definition cluster_files s F (c : Z) : list Fat32FileMetadata :=
  i ← seq 0 (dir_sectors s); placed_list c (sector_block s c i) 0 (F c i).

Lemma metas_bind {A} (f : A -> list (Position * list Z)) (g : A -> list Fat32FileMetadata) l w :
  (forall x w, x ∈ l -> entry_long w = [] -> exists w', metas (f x) w = (g x, w') /\ entry_long w' = []) ->
  entry_long w = [] ->
  exists w', metas (l ≫= f) w = (l ≫= g, w') /\ entry_long w' = [].
Proof.
  revert w. induction l as [|x l IH]; intros w Hfg Hw; [by exists w|].
  change ((x :: l) ≫= f) with (f x ++ (l ≫= f)). change ((x :: l) ≫= g) with (g x ++ (l ≫= g)).
  rewrite metas_app. destruct (Hfg x w ltac:(by left) Hw) as (w1 & -> & Hw1). cbn [fst snd].
  destruct (IH w1) as (w2 & -> & Hw2); [|done|by exists w2].
  intros y w' Hy. apply Hfg. by right.
Qed.

Lemma dir_files_packed s l F : dir_packed s l F -> dir_files s l = l ≫= cluster_files s F.
Proof.
  intros Hp. unfold dir_files. change (dir_view s l) with (l ≫= cluster_view s).
  destruct (metas_bind (cluster_view s) (cluster_files s F) l (mkWalk [] 0 0 0)) as (w & -> & _); [|done..].
  intros c w Hc Hw. apply metas_bind; [|done]. intros i w' Hi Hw'. apply elem_of_seq in Hi.
  destruct (Hp c i Hc ltac:(lia)) as [Hms [k Hk]].
  unfold sector_view. rewrite Hk, place_at_0. by apply metas_groups.
Qed.

(** Inserting into one of the lists that are concatenated. *)
Lemma bind_insert {A B} (f g : A -> list B) l x a b y :
  NoDup l -> x ∈ l -> (forall z, z ∈ l -> z <> x -> g z = f z) -> f x = a ++ b -> g x = a ++ y :: b ->
  exists pre post, l ≫= f = pre ++ post /\ l ≫= g = pre ++ y :: post.
Proof.
  intros Hnd Hx Hne Hf Hg. apply list_elem_of_split in Hx as (l1 & l2 & ->).
  apply NoDup_app in Hnd as (_ & Hd1 & [Hx2 _]%NoDup_cons).
  exists ((l1 ≫= f) ++ a), (b ++ (l2 ≫= f)). rewrite !bind_app.
  change ((x :: l2) ≫= f) with (f x ++ (l2 ≫= f)). change ((x :: l2) ≫= g) with (g x ++ (l2 ≫= g)).
  rewrite Hf, Hg, (bind_ext_in g f l1), (bind_ext_in g f l2), <-!app_assoc; [done|..].
  - intros z Hz. apply Hne; [apply elem_of_app; right; by right|]. by intros ->.
  - intros z Hz. apply Hne; [apply elem_of_app; by left|]. intros ->. apply (Hd1 x Hz). by left.
Qed.

Lemma length_groups_fit s c i ms : sector_packed s c i ms ->
  exists k, block_entries (dir_entries s) (blk (device s) (sector_block s c i)) =
    groups ms ++ replicate k zero_entry /\ (length (groups ms) + k = dir_entries s)%nat.
Proof.
  intros [_ [k Hk]]. exists k. split; [done|].
  pose proof (f_equal length Hk) as Hl. rewrite length_block_entries, length_app, length_replicate in Hl. done.
Qed.

(** The search in a packed cluster. *)
Lemma find_slot_packed s c F need i n sector start :
  fat_ok s -> is_cluster s c -> (2 <= need)%nat -> (i + n <= dir_sectors s)%nat ->
  (forall j, (j < dir_sectors s)%nat -> sector_packed s c j (F c j)) ->
  find_slot need (dir_size s) i n (dir_entries s) (cluster_buffer s c) = Some (sector, start) ->
  (sector < dir_sectors s)%nat /\ start = length (groups (F c sector)) /\
  (start + need <= dir_entries s)%nat.
Proof.
  intros Hok Hc Hneed Hin Hp. revert i Hin. induction n as [|n IH]; intros i Hin Hs; [done|].
  cbn [find_slot] in Hs. rewrite sector_entries_block in Hs by (done || lia).
  destruct (length_groups_fit _ _ _ _ (Hp i ltac:(lia))) as (k & Hk & Hlen).
  rewrite Hk, find_run_packed in Hs by (apply Hp || done; lia). rewrite Nat.add_0_l in Hs.
  case_decide; [|by apply (IH (S i)); [lia|]]. injection Hs as <- <-. lia.
Qed.

(** ** Adding a file *)

(** [s'] is [s] with [m] behind the files [ms] of sector [i] of cluster [c]. *)
Record placed_in s (c : Z) (i : nat) (ms : list Fat32FileMetadata) (m : Fat32FileMetadata) s' : Prop :=
  mkPlacedIn {
  pl_step : fs_step s (fat s) [c] s';
  pl_info : fs_info s' = fs_info s;
  pl_packed : sector_packed s' c i (ms ++ [m]);
  pl_other : forall j, 0 <= j < block_count (device s) -> j <> sector_block s c i ->
    blk (device s') j = blk (device s) j;
}.

Lemma group_entries m : group_ok m -> Forall (fun e => length e = DIR_ENTRY_SIZE) (group_bytes m).
Proof.
  intros [Hl _ _ Hs _ _]. apply Forall_app. split; [|by apply Forall_singleton, length_encode_short].
  apply Forall_fmap, (Forall_impl _ _ _ Hl). intros e [He _]. by apply length_encode_long.
Qed.

Lemma group_is_bytes m : group_ok m -> Forall is_byte (concat (group_bytes m)).
Proof.
  intros [Hl _ _ Hs _ _]. apply Forall_concat, Forall_app.
  split; [|by apply Forall_singleton, encode_short_bytes].
  apply Forall_fmap, (Forall_impl _ _ _ Hl). intros e [He _]. by apply encode_long_bytes.
Qed.

Lemma meta_bytes_group m : meta_bytes m = concat (group_bytes m).
Proof. unfold meta_bytes, group_bytes. rewrite concat_app. cbn [concat]. by rewrite app_nil_r. Qed.

Lemma sector_in_cluster s c i : (i < dir_sectors s)%nat -> in_cluster s c (sector_block s c i).
Proof. unfold in_cluster, sector_block, dir_sectors. lia. Qed.

Lemma write_group_spec s c i ms m :
  fat_ok s -> is_cluster s c -> (i < dir_sectors s)%nat -> sector_packed s c i ms -> group_ok m ->
  (length (groups ms) + length (group_bytes m) <= dir_entries s)%nat ->
  wp (on_device (write_block (sector_block s c i)
       (splice (length (groups ms) * DIR_ENTRY_SIZE) (meta_bytes m)
          (blk (device s) (sector_block s c i))))) s
    (fun _ s' => placed_in s c i ms m s').
Proof.
  intros Hok Hc Hi Hp Hm Hfit. destruct (length_groups_fit _ _ _ _ Hp) as (k & Hk & Hlen).
  destruct (entries_fit s Hok) as (_ & Hesz & _). pose proof (sector_in_cluster s c i Hi) as Hin.
  pose proof (block_in_cluster s c _ Hok Hc Hin) as Hbc.
  pose proof (blk_length (device s) _ (ok_dev _ Hok) Hbc) as Hbl. fold (dir_size s) in Hbl.
  pose proof (length_concat_entries _ (group_entries m Hm)) as Hgl. rewrite meta_bytes_group.
  eapply wp_mono; [apply (write_data_block_spec s c); try done|].
  - rewrite length_splice; [done|]. unfold DIR_ENTRY_SIZE in *. lia.
  - apply Forall_splice; [by apply group_is_bytes|]. by apply blk_bytes; [apply (ok_dev _ Hok)|].
  - intros [] s' (Hst & Hi' & Hb & Ho). constructor; [done..| |done].
    pose proof (step_meta _ _ _ _ Hst) as Hmeta. destruct Hp as [Hms _].
    split; [apply Forall_app; split; [done|by apply Forall_singleton]|].
    unfold sector_block. rewrite (same_meta_cluster _ _ _ Hmeta). fold (sector_block s c i).
    assert (dir_entries s' = dir_entries s) as -> by (unfold dir_entries; by destruct Hmeta as [-> _]).
    rewrite Hb, block_entries_splice, Hk by (by apply group_entries || lia).
    exists (k - length (group_bytes m))%nat. unfold groups. rewrite fmap_app, concat_app. cbn [fmap list_fmap concat].
    fold (groups ms). rewrite splice_app_r, Nat.sub_diag, app_nil_r, <-app_assoc by lia. f_equal.
    unfold splice. rewrite take_0, drop_replicate. done.
Qed.

Lemma create_loop_spec fuel s m lc c l F buffer :
  fat_ok s -> chain s c l -> (length l < fuel)%nat -> dir_packed s l F -> group_ok m ->
  length buffer = (dir_sectors s * dir_size s)%nat ->
  wp (create_loop fuel m lc c buffer) s (fun r s' =>
    (r = Some (default lc (last l)) /\ s' = s) \/
    (r = None /\ exists c1 i, c1 ∈ l /\ is_cluster s c1 /\ (i < dir_sectors s)%nat /\
       placed_in s c1 i (F c1 i) m s')).
Proof.
  intros Hok Hch Hfuel Hp Hm Hb. revert lc c l buffer Hch Hfuel Hp Hb.
  induction fuel as [|fuel IH]; intros lc c l buffer Hch Hfuel Hp Hb; [lia|].
  cbn [create_loop]. rewrite (is_end_chain _ s c l)
    by (done || unfold FAT_ENTRY_RESERVED_START, FAT_ENTRY_EOC_START; lia).
  destruct l as [|x l]; [apply wp_ret; by left|].
  apply chain_cons_inv in Hch as (-> & Hc & Hch). cbn [length] in *.
  wp_step. eapply wp_intro; [by apply get_sector_run|].
  wp_step. eapply wp_intro; [by apply read_cluster_run|]. wp_step. wp_step. cbn [id].
  assert (Hneed : length (group_bytes m) = (length (long m) + 1)%nat)
    by (unfold group_bytes; rewrite length_app, length_fmap; done).
  assert (Hne : length (long m) <> 0%nat) by (pose proof (gr_nonempty m Hm); by destruct (long m)).
  destruct (find_slot _ _ _ _ _ _) as [[sector start]|] eqn:Hslot.
  - apply (find_slot_packed s c F) in Hslot as (Hsec & -> & Hfit);
      [|done|done|lia|lia|intros j Hj; by apply Hp; [left|]].
    pose proof (Hp c sector ltac:(by left) Hsec) as Hps.
    destruct (entries_fit s Hok) as (_ & Hesz & _).
    pose proof (length_concat_entries _ (group_entries m Hm)) as Hgl.
    wp_step. fold (sector_block s c sector).
    rewrite slice_splice_in, slice_sector; rewrite ?meta_bytes_group, ?length_cluster_buffer; try done.
    + replace (_ + _ - _)%nat with (length (groups (F c sector)) * DIR_ENTRY_SIZE)%nat by lia.
      rewrite <-meta_bytes_group. eapply wp_mono; [apply write_group_spec; try done; lia|].
      intros [] s' Hpl. apply wp_ret. right. split; [done|]. exists c, sector. split; [by left|done].
    + lia.
    + unfold DIR_ENTRY_SIZE in *. lia.
    + pose proof (Nat.mul_le_mono_r (S sector) (dir_sectors s) (dir_size s)). lia.
  - wp_step. eapply wp_intro; [apply get_next_cluster_run; [done|unfold is_cluster in Hc; lia]|].
    eapply wp_mono; [apply (IH c _ l); try done; try lia|].
    + intros c' i Hc'. apply Hp. by right.
    + by apply length_cluster_buffer.
    + intros r s' [[-> ->]|[-> (c1 & i & Hc1 & Hrest)]]; [left|right].
      * by rewrite last_cons_default.
      * split; [done|]. exists c1, i. split; [by right|done].
Qed.

(** The directory with one file more. *)
Definition inserted s (l : list Z) s' (l' : list Z) (pm : Fat32FileMetadata) : Prop :=
  exists pre post, dir_files s l = pre ++ post /\ dir_files s' l' = pre ++ pm :: post.

Definition add_file (F : Z -> nat -> list Fat32FileMetadata) (c : Z) (i : nat) (m : Fat32FileMetadata)
    : Z -> nat -> list Fat32FileMetadata :=
  fun c' i' => if decide (c' = c /\ i' = i) then F c i ++ [m] else F c' i'.

Lemma sector_packed_ext s s' c i ms :
  same_meta s s' -> blk (device s') (sector_block s c i) = blk (device s) (sector_block s c i) ->
  sector_packed s c i ms -> sector_packed s' c i ms.
Proof.
  intros Hm Hb [Hms [k Hk]]. split; [done|]. exists k. rewrite <-Hk. unfold sector_block.
  rewrite (same_meta_cluster _ _ _ Hm). fold (sector_block s c i). rewrite Hb.
  unfold dir_entries. by destruct Hm as [-> _].
Qed.

Lemma sector_block_inj s c c' i i' : fat_ok s -> (i < dir_sectors s)%nat -> (i' < dir_sectors s)%nat ->
  sector_block s c i = sector_block s c' i' -> c = c' /\ i = i'.
Proof.
  intros Hok Hi Hi' Heq. pose proof (ok_spc _ Hok).
  assert (c = c') as ->.
  { apply (in_cluster_inj s c c' (sector_block s c i)); [lia|by apply sector_in_cluster|].
    rewrite Heq. by apply sector_in_cluster. }
  unfold sector_block in Heq. split; [done|lia].
Qed.

Lemma placed_in_files s l F c i m s' :
  fat_ok s -> Forall (is_cluster s) l -> NoDup l -> dir_packed s l F -> c ∈ l -> (i < dir_sectors s)%nat ->
  placed_in s c i (F c i) m s' ->
  dir_packed s' l (add_file F c i m) /\
  inserted s l s' l (placed c (sector_block s c i) (length (groups (F c i))) m).
Proof.
  intros Hok Hcl Hnd Hp Hc Hi [Hst _ Hpk Hoth]. pose proof (step_meta _ _ _ _ Hst) as Hm.
  destruct (fs_step_length_data _ _ _ _ Hst) as [_ Hds]. rewrite Forall_forall in Hcl.
  assert (Hp' : dir_packed s' l (add_file F c i m)).
  { intros c' i' Hc' Hi'. rewrite Hds in Hi'. unfold add_file. case_decide as Heq.
    - by destruct Heq as [-> ->].
    - apply (sector_packed_ext s); [done| |by apply Hp].
      apply Hoth; [by apply (block_in_cluster s c'), sector_in_cluster; auto|].
      intros Hb. apply Heq. by apply (sector_block_inj s). }
  split; [done|]. unfold inserted. rewrite (dir_files_packed s l F), (dir_files_packed s' l _) by done.
  set (pm := placed _ _ _ _).
  assert (Hsb : forall c' i', sector_block s' c' i' = sector_block s c' i')
    by (intros; unfold sector_block; by rewrite (same_meta_cluster _ _ _ Hm)).
  destruct (bind_insert (fun j => placed_list c (sector_block s c j) 0 (F c j))
    (fun j => placed_list c (sector_block s' c j) 0 (add_file F c i m c j)) (seq 0 (dir_sectors s)) i
    (placed_list c (sector_block s c i) 0 (F c i)) [] pm) as (a & b & Ha & Hb).
  - apply NoDup_seq.
  - apply elem_of_seq. lia.
  - intros j _ Hj. rewrite Hsb. unfold add_file. by rewrite decide_False by naive_solver.
  - by rewrite app_nil_r.
  - rewrite Hsb. unfold add_file. rewrite decide_True by done. by rewrite placed_list_app, Nat.add_0_l.
  - apply (bind_insert _ _ l c a b); [done|done| |exact Ha|].
    + intros c' _ Hne. unfold cluster_files. rewrite Hds. apply bind_ext_in. intros j _.
      rewrite Hsb. unfold add_file. by rewrite decide_False by naive_solver.
    + unfold cluster_files. rewrite Hds. exact Hb.
Qed.

(** A cluster with the single file [m], behind an unchanged directory. *)
Definition add_cluster (F : Z -> nat -> list Fat32FileMetadata) (nc : Z) (m : Fat32FileMetadata)
    : Z -> nat -> list Fat32FileMetadata :=
  fun c i => if decide (c = nc) then (if decide (i = 0%nat) then [m] else []) else F c i.

Lemma step_sector s f l s' c i : fat_ok s -> fs_step s f l s' -> is_cluster s c -> c ∉ l ->
  (i < dir_sectors s)%nat ->
  blk (device s') (sector_block s c i) = blk (device s) (sector_block s c i).
Proof.
  intros Hok Hst Hc Hl Hi. pose proof (sector_in_cluster s c i Hi) as Hin.
  destruct (cluster_block_range s c Hok Hc). pose proof (block_in_cluster s c _ Hok Hc Hin).
  apply (step_data _ _ _ _ Hst); [unfold in_cluster in Hin; lia|].
  intros c' Hc' Hin'. pose proof (ok_spc _ Hok).
  assert (c = c') as ->; [|done]. apply (in_cluster_inj s c c' (sector_block s c i)); [lia|done..].
Qed.

Lemma dir_packed_step s f l s' l' F : fat_ok s -> fs_step s f l s' -> Forall (is_cluster s) l' ->
  (forall c, c ∈ l' -> c ∉ l) -> dir_packed s l' F -> dir_packed s' l' F.
Proof.
  intros Hok Hst Hcl Hd Hp c i Hc Hi. destruct (fs_step_length_data _ _ _ _ Hst) as [_ Hds].
  rewrite Hds in Hi. rewrite Forall_forall in Hcl.
  apply (sector_packed_ext s); [by apply (step_meta _ _ _ _ Hst)| |by apply Hp].
  apply (step_sector s f l); auto.
Qed.

Lemma dir_files_step s f l s' l' : fat_ok s -> fs_step s f l s' -> Forall (is_cluster s) l' ->
  (forall c, c ∈ l' -> c ∉ l) -> dir_files s' l' = dir_files s l'.
Proof.
  intros Hok Hst Hcl Hd. pose proof (step_meta _ _ _ _ Hst) as Hm. rewrite Forall_forall in Hcl.
  destruct (fs_step_length_data _ _ _ _ Hst) as [_ Hds].
  unfold dir_files, dir_view. do 2 f_equal. apply bind_ext_in. intros c Hc.
  unfold cluster_view. rewrite Hds. apply bind_ext_in. intros i Hi. apply elem_of_seq in Hi.
  unfold sector_view. assert (sector_block s' c i = sector_block s c i) as ->.
  { unfold sector_block. by rewrite (same_meta_cluster _ _ _ Hm). }
  rewrite (step_sector s f l s') by (auto || lia).
  f_equal. unfold dir_entries. by destruct Hm as [-> _].
Qed.

Lemma zero_sector s c i : fat_ok s -> is_cluster s c -> (i < dir_sectors s)%nat ->
  cluster_buffer s c = replicate (dir_sectors s * dir_size s) 0 ->
  blk (device s) (sector_block s c i) = zeros (block_size (device s)) /\ sector_packed s c i [].
Proof.
  intros Hok Hc Hi Hb. assert (Hz : blk (device s) (sector_block s c i) = zeros (block_size (device s))).
  { rewrite <-slice_sector, Hb by done. unfold slice. rewrite drop_replicate, take_replicate.
    unfold zeros, dir_size in *. f_equal.
    pose proof (Nat.mul_le_mono_r (S i) (dir_sectors s) (Z.to_nat (block_size (device s)))). lia. }
  split; [done|]. split; [constructor|]. exists (dir_entries s). rewrite Hz. cbn [groups fmap list_fmap concat app].
  destruct (entries_fit s Hok) as (_ & Hfit & _). apply list_eq. intros j.
  destruct (decide (j < dir_entries s)%nat).
  - rewrite block_entries_lookup, lookup_replicate_2 by done. f_equal.
    unfold slice, zeros, zero_entry. rewrite drop_replicate, take_replicate. f_equal.
    unfold dir_size, DIR_ENTRY_SIZE in *. lia.
  - rewrite !lookup_ge_None_2; [done|rewrite length_replicate; lia|rewrite length_block_entries; lia].
Qed.

Lemma cluster_files_single s nc F m : (0 < dir_sectors s)%nat ->
  cluster_files s (add_cluster F nc m) nc = [placed nc (sector_block s nc 0) 0 m].
Proof.
  intros Hn. unfold cluster_files. destruct (dir_sectors s) as [|n]; [lia|].
  change (seq 0 (S n)) with (0%nat :: seq 1 n).
  change ((0%nat :: seq 1 n) ≫= ?f) with (f 0%nat ++ (seq 1 n ≫= f)).
  unfold add_cluster at 1. rewrite !decide_True by done. cbn [placed_list app]. f_equal.
  rewrite (bind_ext_in _ (fun _ => [])).
  - induction (seq 1 n); done.
  - intros i Hi. apply elem_of_seq in Hi. unfold add_cluster. rewrite decide_True, decide_False by (done || lia). done.
Qed.

(** The result of [create_file_meta] on the directory with the clusters [l]. *)
Definition meta_created s (d : Z) (l : list Z) (m : Fat32FileMetadata) s' : Prop :=
  exists l' F' c i off,
    let pm := placed c (sector_block s c i) off m in
    chain s' d l' /\ NoDup l' /\ (forall c, c ∈ l' -> fat s' c <> 0) /\
    dir_packed s' l' F' /\ inserted s l s' l' pm /\ entry_at s pm c /\ c ∈ l' /\
    fs_step s (fat s') l' s' /\
    (forall c, 0 <= c < max_cluster s + 2 -> c ∉ l' -> fat s' c = fat s c) /\
    (forall c, c ∈ l' -> c ∈ l \/ (is_cluster s c /\ fat s c = 0)) /\ (forall c, c ∈ l -> c ∈ l').

(** The directory before. *)
Record dir_ok s (d : Z) (l : list Z) (F : Z -> nat -> list Fat32FileMetadata) : Prop := mkDirOk {
  do_chain : chain s d l;
  do_distinct : NoDup l;
  do_nonempty : l <> [];
  do_used : forall c, c ∈ l -> fat s c <> 0;
  do_packed : dir_packed s l F;
}.

Lemma placed_entry_at s c i off m : fat_ok s -> is_cluster s c -> (i < dir_sectors s)%nat ->
  (off + length (group_bytes m) <= dir_entries s)%nat ->
  entry_at s (placed c (sector_block s c i) off m) c.
Proof.
  intros Hok Hc Hi Hfit. destruct (entries_fit s Hok) as (Hb & _ & _).
  unfold group_bytes in Hfit. rewrite length_app, length_fmap in Hfit. cbn [length] in Hfit.
  constructor; [done|by apply sector_in_cluster|]. cbn. unfold DIR_ENTRY_SIZE in *. split; [lia|].
  destruct (cluster_geometry s Hok) as (? & ? & ? & ?). lia.
Qed.

(** The state after the last step of extending the directory. *)
Lemma extended s d l F m lc nc s3 s4 :
  fat_ok s -> dir_ok s d l F -> last l = Some lc -> is_cluster s nc -> fat s nc = 0 ->
  (length (group_bytes m) <= dir_entries s)%nat ->
  fs_step s (upd (fat s) nc FAT_ENTRY_EOC_START) [nc; nc] s3 ->
  fs_step s3 (upd (fat s3) lc nc) [] s4 ->
  (forall i, (i < dir_sectors s)%nat -> sector_packed s3 nc i (add_cluster F nc m nc i)) ->
  meta_created s d l m s4.
Proof.
  intros Hok [Hch Hnd Hne Hused Hp] Hlast Hnc Hfnc Hfit Hs3 Hs4 Hpk.
  pose proof (chain_clusters _ _ _ Hch) as Hcls. pose proof Hcls as Hcls'. rewrite Forall_forall in Hcls'.
  assert (Hncl : nc ∉ l) by (intros Hin; by apply (Hused nc Hin)).
  pose proof (step_ok _ _ _ _ Hs3) as Hok3. pose proof (step_meta _ _ _ _ Hs3) as Hm3.
  assert (Hst : fs_step s (upd (upd (fat s) nc FAT_ENTRY_EOC_START) lc nc) [nc; nc] s4).
  { apply (fs_step_trans _ _ _ _ _ _ _ _ Hs3 Hs4). intros x Hx. unfold upd at 1 2.
    case_decide; [done|]. by apply (step_fat _ _ _ _ Hs3). }
  pose proof (step_meta _ _ _ _ Hst) as Hm. pose proof Hm as (_ & Hmax & _).
  assert (Hf : forall x, is_cluster s x -> fat s4 x = upd (upd (fat s) nc FAT_ENTRY_EOC_START) lc nc x).
  { intros x Hx. apply (step_fat _ _ _ _ Hst). unfold is_cluster in Hx. lia. }
  destruct (fs_step_length_data _ _ _ _ Hst) as [_ Hds]. destruct (cluster_geometry s Hok) as (_ & _ & Hspc & _).
  assert (Hpos : (0 < dir_sectors s)%nat) by (unfold dir_sectors; lia).
  assert (Hdis : forall c, c ∈ l -> c ∉ [nc; nc]) by set_solver.
  assert (Hp4 : dir_packed s4 (l ++ [nc]) (add_cluster F nc m)).
  { intros c i Hc Hi. rewrite Hds in Hi. apply elem_of_app in Hc as [Hc| ->%list_elem_of_singleton].
    - unfold add_cluster. rewrite decide_False by congruence.
      apply (dir_packed_step s _ _ _ l F Hok Hst); [done..|by rewrite Hds].
    - destruct (fs_step_length_data _ _ _ _ Hs3) as [_ Hds3].
      apply (sector_packed_ext s3); [by apply (step_meta _ _ _ _ Hs4)| |by apply Hpk].
      apply (step_sector s3 (upd (fat s3) lc nc) [] s4); [done|done|by apply (same_meta_is_cluster _ _ _ Hm3)|set_solver|by rewrite Hds3]. }
  exists (l ++ [nc]), (add_cluster F nc m), nc, 0%nat, 0%nat. cbv zeta. split_conj.
  - by apply (chain_snoc s s4 d l lc nc).
  - apply NoDup_app. split_conj; [done|set_solver|apply NoDup_singleton].
  - intros c Hc. assert (is_cluster s c /\ (fat s c <> 0 \/ c = nc)) as [Hcc Hcf] by set_solver.
    rewrite Hf by done. unfold upd, FAT_ENTRY_EOC_START. case_decide; [unfold is_cluster in Hnc; lia|].
    case_decide; [done|]. by destruct Hcf.
  - done.
  - exists (dir_files s l), []. split; [by rewrite app_nil_r|]. rewrite (dir_files_packed s4 _ _ Hp4), bind_app.
    change ([nc] ≫= cluster_files s4 (add_cluster F nc m)) with (cluster_files s4 (add_cluster F nc m) nc ++ []).
    rewrite cluster_files_single, app_nil_r by lia. f_equal.
    + rewrite <-(dir_files_step s _ _ _ l Hok Hst) by done. symmetry. 
      rewrite (dir_files_packed s4 l (add_cluster F nc m)); [done|].
      intros c i Hc. apply Hp4, elem_of_app. by left.
    + unfold sector_block. by rewrite (same_meta_cluster _ _ _ Hm).
  - by apply placed_entry_at.
  - apply elem_of_app. right. by left.
  - eapply (fs_step_weaken _ _ [nc; nc]); [set_solver|exact Hst].
  - intros c Hc Hcl. rewrite (step_fat _ _ _ _ Hst c Hc). unfold upd.
    assert (lc ∈ l) by (rewrite last_lookup in Hlast; by apply list_elem_of_lookup_2 in Hlast).
    rewrite decide_False by set_solver. by rewrite decide_False by set_solver.
  - set_solver.
  - set_solver.
Qed.

Lemma extend_dir_spec fuel s d l F m lc c0 :
  fat_ok s -> hint_ok s -> count_in_range (-1) s -> is_cluster s c0 -> fat s c0 = 0 ->
  dir_ok s d l F -> last l = Some lc -> group_ok m -> (length (group_bytes m) <= dir_entries s)%nat ->
  (Z.to_nat (max_cluster s) + 1 < fuel)%nat ->
  wp (cluster ← find_available_cluster fuel;
      sector ← get_sector_by_cluster cluster;
      on_device (write_zeros sector (sectors_per_cluster (bpb s)));;
      sector ← get_sector_by_cluster cluster;
      on_device (write_block sector (splice 0 (meta_bytes m) (zeros (block_size (device s)))));;
      update_cluster lc cluster) s (fun _ s' => meta_created s d l m s').
Proof.
  intros Hok Hh Hn Hc0 Hf0 [Hch Hnd Hne Hused Hp] Hlast Hm Hfit Hfuel.
  pose proof (chain_clusters _ _ _ Hch) as Hcls. pose proof Hcls as Hcls'. rewrite Forall_forall in Hcls'.
  assert (Hlcl : lc ∈ l) by (rewrite last_lookup in Hlast; by apply list_elem_of_lookup_2 in Hlast).
  destruct (cluster_geometry s Hok) as (_ & _ & Hspc & _).
  wp_step. eapply wp_mono; [by apply (allocate_spec fuel s c0)|].
  intros nc s1 (Hnc & Hfnc & Hs1 & Hi1). apply table_fs_step in Hs1; [|done].
  pose proof (step_ok _ _ _ _ Hs1) as Hok1. pose proof (step_meta _ _ _ _ Hs1) as Hm1.
  assert (Hncl : nc ∉ l) by (intros Hin; by apply (Hused nc Hin)).
  pose proof (same_meta_is_cluster _ _ _ Hm1 Hnc) as Hnc1.
  wp_step. eapply wp_intro; [by apply get_sector_run|].
  assert (bpb s = bpb s1) as -> by (by destruct Hm1 as [-> _]).
  wp_step. eapply wp_mono; [by apply write_zeros_cluster_spec|].
  intros [] s2 (Hs2 & Hi2 & Hz2). pose proof (step_ok _ _ _ _ Hs2) as Hok2.
  destruct (fs_step_length_data _ _ _ _ Hs2) as [Hd2 Hn2]. rewrite <-Hd2, <-Hn2 in Hz2.
  pose proof (same_meta_trans _ _ _ Hm1 (step_meta _ _ _ _ Hs2)) as Hm2.
  pose proof (same_meta_is_cluster _ _ _ Hm2 Hnc) as Hnc2.
  assert (Hsec : forall i, (i < dir_sectors s2)%nat -> sector_packed s2 nc i []) by (intros; by apply zero_sector).
  assert (Hds : dir_sectors s2 = dir_sectors s) by (unfold dir_sectors; by destruct Hm2 as [-> _]).
  assert (Hpos : (0 < dir_sectors s2)%nat) by (rewrite Hds; unfold dir_sectors; lia).
  wp_step. eapply wp_intro; [by apply get_sector_run|].
  assert (block_size (device s) = block_size (device s2)) as -> by (by destruct Hm2 as (_ & _ & _ & -> & _)).
  destruct (zero_sector s2 nc 0 Hok2 Hnc2 Hpos Hz2) as [<- _].
  replace (cluster_block s2 nc) with (sector_block s2 nc 0) by (unfold sector_block; lia).
  wp_step. eapply wp_mono; [apply (write_group_spec s2 nc 0 [] m); auto|].
  { cbn [groups fmap list_fmap concat length]. unfold dir_entries. destruct Hm2 as [-> _]. done. }
  intros [] s3 [Hs3 Hi3 Hp3 Ho3].
  pose proof (same_meta_trans _ _ _ Hm2 (step_meta _ _ _ _ Hs3)) as Hm3.
  eapply wp_mono; [apply update_cluster_spec|].
  { apply (step_ok _ _ _ _ Hs3). }
  { destruct Hm3 as (_ & -> & _). specialize (Hcls' _ Hlcl). unfold is_cluster in Hcls'. lia. }
  { pose proof (ok_max _ Hok). unfold is_cluster, FAT_ENTRY_RESERVED_START in *. lia. }
  intros [] s4 [Hs4 Hi4]. apply table_fs_step in Hs4; [|apply (step_ok _ _ _ _ Hs3)].
  apply (extended s d l F m lc nc s3); try done.
  - apply (fs_step_trans _ _ [nc] s2 (fat s2) [nc] _ _ (fs_step_trans _ _ _ _ _ _ _ _ Hs1 Hs2 ltac:(done)) Hs3).
    intros x Hx. rewrite (step_fat _ _ _ _ Hs2) by (destruct Hm1 as (_ & -> & _); done).
    by apply (step_fat _ _ _ _ Hs1).
  - intros i Hi. unfold add_cluster. rewrite decide_True by done. case_decide as Hi0; [by subst|].
    apply (sector_packed_ext s2); [apply (step_meta _ _ _ _ Hs3)| |apply Hsec; lia].
    apply Ho3; [by apply (block_in_cluster s2 nc), sector_in_cluster; [..|lia]|].
    intros Hb. apply (sector_block_inj s2) in Hb as [_ ?]; [done|done|lia|lia].
Qed.

Lemma create_file_meta_spec fuel s d l F m c0 :
  fat_ok s -> hint_ok s -> count_in_range (-1) s -> is_cluster s c0 -> fat s c0 = 0 ->
  dir_ok s d l F -> group_ok m -> (length (group_bytes m) <= dir_entries s)%nat ->
  (Z.to_nat (max_cluster s) + 1 < fuel)%nat ->
  wp (create_file_meta fuel d m) s (fun _ s' => meta_created s d l m s').
Proof.
  intros Hok Hh Hn Hc0 Hf0 Hdir Hm Hfit Hfuel. pose proof Hdir as [Hch Hnd Hne Hused Hp].
  pose proof (chain_clusters _ _ _ Hch) as Hcls. pose proof (chain_length s d l Hok Hch Hnd).
  unfold create_file_meta. wp_step. wp_step. cbn [id].
  assert (Hneed : length (group_bytes m) = (length (long m) + 1)%nat)
    by (unfold group_bytes; rewrite length_app, length_fmap; done).
  rewrite (proj2 (Nat.ltb_ge _ _)) by lia.
  wp_step. eapply wp_mono; [apply (create_loop_spec fuel s m 0 d l F); try done|].
  { lia. }
  { by apply length_cluster_zeros. }
  intros r s' [[-> ->]|[-> (c & i & Hc & Hcc & Hi & Hpl)]].
  - destruct (last l) as [lc|] eqn:Hlast; [|by apply last_None in Hlast]. cbn [default id].
    by apply (extend_dir_spec fuel s d l F m lc c0).
  - apply wp_ret. pose proof (placed_in_files s l F c i m s' Hok Hcls Hnd Hp Hc Hi Hpl) as [Hp' Hins].
    pose proof (pl_step _ _ _ _ _ _ Hpl) as Hst. rewrite Forall_forall in Hcls.
    assert (Hf : forall x, 0 <= x < max_cluster s + 2 -> fat s' x = fat s x) by apply (step_fat _ _ _ _ Hst).
    exists l, (add_file F c i m), c, i, (length (groups (F c i))). cbv zeta. split_conj; try done.
    + by apply (fs_step_chain _ _ _ _ _ Hst).
    + intros x Hx. rewrite Hf; [by apply Hused|]. specialize (Hcls x Hx). unfold is_cluster in Hcls. lia.
    + apply placed_entry_at; [done|done|done|]. pose proof (pl_packed _ _ _ _ _ _ Hpl) as Hpk.
      destruct (length_groups_fit _ _ _ _ Hpk) as (k & _ & Hlen).
      assert (dir_entries s' = dir_entries s) as He.
      { unfold dir_entries. by destruct (step_meta _ _ _ _ Hst) as [-> _]. }
      unfold groups in Hlen. rewrite fmap_app, concat_app, length_app in Hlen.
      cbn [fmap list_fmap concat] in Hlen. rewrite app_nil_r in Hlen. fold (groups (F c i)) in Hlen. lia.
    + eapply fs_step_weaken; [|exact Hst]. set_solver.
    + intros x Hx _. by apply Hf.
    + auto.
Qed.

(** ** [create_file] *)

Lemma entries_of_tail_order fuel k units :
  (length units <= fuel * Fat32Name.UNITS)%nat -> (Fat32Name.UNITS * k + length units <= 256 * Fat32Name.UNITS)%nat ->
  Forall (fun e => order e <> 0) (tail (Fat32Name.entries_of fuel k units)).
Proof.
  intros Hl Hk. destruct fuel as [|fuel]; [constructor|]. destruct units as [|u units]; [constructor|].
  cbn [Fat32Name.entries_of tail]. set (rest := drop _ _).
  assert (Hrl : length rest = (length (u :: units) - Fat32Name.UNITS)%nat) by apply length_drop.
  destruct rest as [|u' rest'] eqn:Er; [by destruct fuel; constructor|].
  assert (Hnz : (0 < length (u' :: rest'))%nat) by (cbn; lia). rewrite <-Er in *. clear Er.
  destruct (Fat32Name.entries_of_order fuel (S k) rest) as [Ho _].
  - rewrite Hrl. unfold Fat32Name.UNITS, NAME1_LEN, NAME2_LEN, NAME3_LEN in *. lia.
  - rewrite Hrl. unfold Fat32Name.UNITS, NAME1_LEN, NAME2_LEN, NAME3_LEN in *. lia.
  - eapply Forall_impl; [exact Ho|]. cbn. lia.
Qed.

Lemma group_ok_new name c attr :
  Fat32Name.valid_name name -> (length (encode_utf16 name) <= 256 * Fat32Name.UNITS)%nat ->
  uint 1 attr -> attr <> ATTR_LONG_NAME -> group_ok (Fat32Name.new name c attr).
Proof.
  intros (Hne & Hc & Hnz) Hlen Ha Hattr. constructor; cbn [long short Fat32Name.new].
  - rewrite Fat32Name.new_longs_entries. apply Forall_and. split.
    + apply Fat32Name.entries_of_typed. by apply encode_utf16_units.
    + apply Fat32Name.entries_of_attr.
  - by apply Fat32Name.new_longs_nonempty.
  - rewrite Fat32Name.new_longs_entries. apply entries_of_tail_order; [|lia].
    unfold Fat32Name.UNITS, NAME1_LEN, NAME2_LEN, NAME3_LEN. lia.
  - by apply Fat32Name.new_short_typed.
  - done.
  - done.
Qed.

Lemma name_matches_new c sec off name c1 attr name' :
  Fat32Name.valid_name name -> (length (encode_utf16 name) <= 256 * Fat32Name.UNITS)%nat ->
  Forall is_char name' ->
  Fat32Name.name_matches (placed c sec off (Fat32Name.new name c1 attr)) name' = bool_decide (name' = name).
Proof.
  intros Hv Hlen Hc'. unfold Fat32Name.name_matches. cbn [long placed Fat32Name.new].
  pose proof (Fat32Name.new_longs_nonempty name ltac:(apply Hv)) as Hne.
  destruct (Fat32Name.new_longs name) as [|e es] eqn:El; [done|]. rewrite <-El.
  rewrite Fat32Name.sort_new_longs by done. by apply Fat32Name.name_match_long_new.
Qed.

Lemma find_file_inserted s l s' l' pm name name' :
  inserted s l s' l' pm -> Fat32Name.name_matches pm name' = bool_decide (name' = name) ->
  find_file name (dir_files s l) = None ->
  find_file name' (dir_files s' l') =
    if decide (name' = name) then Some pm else find_file name' (dir_files s l).
Proof.
  intros (pre & post & Hf & ->) Hm Hnone. rewrite Hf, find_file_app in *. rewrite find_file_app, find_file_cons, Hm.
  case_decide as Hn.
  - subst. rewrite bool_decide_true by done. by destruct (find_file name pre).
  - by rewrite bool_decide_false.
Qed.

Lemma lookup_run fuel s c l name : fat_ok s -> chain s c l -> (length l < fuel)%nat ->
  get_file_metadata_by_cluster fuel c name s =
    (match find_file name (dir_files s l) with
     | Some m => Ok (sort_long m)
     | None => Err FileNotFound
     end, s).
Proof.
  intros Hok Hch Hfuel. unfold get_file_metadata_by_cluster, walk_file_meta_by_cluster, mbind, M_bind, gets.
  rewrite (walk_clusters_find name fuel s c l) by (done || by apply length_cluster_zeros).
  fold (dir_files s l). by destruct (find_file name (dir_files s l)).
Qed.

Lemma enough_free_two s : enough_free s 2 -> exists c0 c1, c0 <> c1 /\
  is_cluster s c0 /\ fat s c0 = 0 /\ is_cluster s c1 /\ fat s c1 = 0.
Proof.
  intros [(fl & Hnd & Hlen & Hfree) _]. destruct fl as [|c0 [|c1 fl]]; [cbn in Hlen; lia..|].
  exists c0, c1. destruct (Hfree c0 ltac:(by left)), (Hfree c1 ltac:(right; by left)).
  split_conj; try done. intros ->. apply NoDup_cons in Hnd as [Hnd _]. apply Hnd. by left.
Qed.

(** The volume after [create_file]: [l'] are the clusters of the directory,
    [c1] is the cluster of the new file, [pm] its entry. *)
Definition file_created s (d : Z) (l : list Z) (name : rstring) s' : Prop :=
  exists l' F' c1 pm,
    fat_ok s' /\ chain s' d l' /\ dir_packed s' l' F' /\ inserted s l s' l' pm /\
    Fat32Name.start_cluster pm = c1 /\ file_size (short pm) = 0 /\ Fat32Name.is_dir pm = false /\
    is_cluster s c1 /\ fat s c1 = 0 /\ chain s' c1 [c1] /\
    (forall name', Forall is_char name' ->
       find_file name' (dir_files s' l') =
         if decide (name' = name) then Some pm else find_file name' (dir_files s l)) /\
    (forall c, is_cluster s c -> c ∉ l' -> c <> c1 ->
       fat s' c = fat s c /\ cluster_data s' c = cluster_data s c).

(** A directory does not notice that a free cluster gets allocated. *)
Lemma dir_ok_allocated s d l F c1 s1 :
  fat_ok s -> dir_ok s d l F -> is_cluster s c1 -> fat s c1 = 0 ->
  fs_step s (upd (fat s) c1 FAT_ENTRY_EOC_START) [] s1 ->
  dir_ok s1 d l F /\ dir_files s1 l = dir_files s l.
Proof.
  intros Hok [Hch Hnd Hne Hused Hp] Hc1 Hf1 Hst.
  pose proof (chain_clusters _ _ _ Hch) as Hcls. pose proof Hcls as Hcls'. rewrite Forall_forall in Hcls'.
  assert (Hf : forall c, c ∈ l -> fat s1 c = fat s c).
  { intros c Hc. rewrite (step_fat _ _ _ _ Hst) by (specialize (Hcls' c Hc); unfold is_cluster in Hcls'; lia).
    unfold upd. rewrite decide_False; [done|]. intros ->. by apply (Hused c1 Hc). }
  split; [|apply (dir_files_step s _ _ _ _ Hok Hst); [done|set_solver]].
  constructor; try done.
  - apply (chain_ext s); [by destruct (step_meta _ _ _ _ Hst) as (_ & ? & _)|done|done].
  - intros c Hc. rewrite Hf by done. by apply Hused.
  - apply (dir_packed_step s _ _ _ _ _ Hok Hst); [done|set_solver|done].
Qed.

(** Putting the two steps of [create_file] together. *)
Lemma file_created_intro s d l F name c1 s1 s2 :
  fat_ok s -> dir_ok s d l F -> find_file name (dir_files s l) = None -> is_cluster s c1 -> fat s c1 = 0 ->
  Fat32Name.valid_name name -> (length (encode_utf16 name) <= 256 * Fat32Name.UNITS)%nat ->
  fs_step s (upd (fat s) c1 FAT_ENTRY_EOC_START) [] s1 ->
  meta_created s1 d l (Fat32Name.new name c1 ATTR_ARCHIVE) s2 -> file_created s d l name s2.
Proof.
  intros Hok Hdir Hnone Hc1 Hf1 Hv Hlen Hs1 (l' & F' & c & i & off & Hch2 & Hnd2 & Hu2 & Hp2 & Hins & Hat & Hcl & Hs2 & Hf2 & Hold & Hsub).
  destruct (dir_ok_allocated s d l F c1 s1) as [_ Hfiles]; [done..|].
  pose proof (step_meta _ _ _ _ Hs1) as Hm1. pose proof Hm1 as (_ & Hmax1 & _).
  assert (Hrange : forall c, is_cluster s c -> 0 <= c < max_cluster s + 2) by (unfold is_cluster; lia).
  assert (Hf1' : fat s1 c1 = FAT_ENTRY_EOC_START).
  { rewrite (step_fat _ _ _ _ Hs1) by auto. unfold upd. by rewrite decide_True. }
  assert (Hc1l : c1 ∉ l').
  { intros Hin. destruct (Hold c1 Hin) as [Hin'|[_ Hz]]; [|by rewrite Hf1' in Hz].
    by apply (do_used _ _ _ _ Hdir c1 Hin'). }
  set (pm := placed _ _ _ _) in *.
  assert (Hins' : inserted s l s2 l' pm) by (destruct Hins as (pre & post & Ha & Hb); exists pre, post; by rewrite <-Hfiles).
  exists l', F', c1, pm. split_conj; try done.
  - apply (step_ok _ _ _ _ Hs2).
  - apply Fat32Name.start_cluster_new. pose proof (ok_max _ Hok).
    unfold is_cluster, FAT_ENTRY_RESERVED_START in *. lia.
  - constructor; [apply (same_meta_is_cluster _ _ _ (step_meta _ _ _ _ Hs2)); by apply (same_meta_is_cluster _ _ _ Hm1)|].
    rewrite Hf2, Hf1' by (rewrite ?Hmax1; auto). constructor. by right.
  - intros name' Hc'. apply find_file_inserted; [done|by apply name_matches_new|done].
  - intros c' Hcc Hcl' Hne. split.
    + rewrite Hf2, (step_fat _ _ _ _ Hs1) by (rewrite ?Hmax1; auto). unfold upd. by rewrite decide_False.
    + rewrite (fs_step_data s1 _ _ _ c' (step_ok _ _ _ _ Hs1) Hs2) by (done || by apply (same_meta_is_cluster _ _ _ Hm1)).
      apply (fs_step_data s _ _ _ c' Hok Hs1); [done|set_solver].
Qed.

(** C4: looking a name up in a directory, over all the clusters of its chain,
    returns the first file of that name or [FileNotFound], and listing it
    returns all files, in order; neither changes the volume. *)
Theorem directory_walk_refines fuel s c l name :
  fat_ok s -> chain s c l -> (length l < fuel)%nat ->
  get_file_metadata_by_cluster fuel c name s =
    (match find_file name (dir_files s l) with
     | Some m => Ok (sort_long m)
     | None => Err FileNotFound
     end, s) /\
  get_all_filemeta_by_cluster fuel c s = (Ok (dir_files s l), s).
Proof.
  intros Hok Hch Hfuel. split; [by apply lookup_run|].
  unfold get_all_filemeta_by_cluster, walk_file_meta_by_cluster, mbind, M_bind, gets.
  rewrite (walk_clusters_push fuel s c l) by (done || by apply length_cluster_zeros). done.
Qed.

(** C3: [create_file] of a new name in a directory to which files have only
    been added and from which none has been deleted ([dir_ok]: the entries of
    every sector are packed; [create_destroys_neighbour] shows a directory after
    a deletion), with two free clusters on the volume, succeeds. The listing of
    the directory gains one file: it is empty, has the name and a cluster of
    its own that was free; looking the name up finds it, looking up any other
    name gives what it gave before. Clusters that belong to neither the
    directory nor the new file keep their data and their table entries. *)
Theorem create_file_adds fuel s path name p l F :
  let d := match p with Some m => Fat32Name.start_cluster m | None => root_cluster (bpb s) end in
  fat_ok s -> hint_ok s -> enough_free s 2 ->
  PathImpl.last_segment path = Some name -> Fat32Name.valid_name name ->
  (length (encode_utf16 name) <= 256 * Fat32Name.UNITS)%nat ->
  (length (Fat32Name.new_longs name) + 1 <= dir_entries s)%nat ->
  get_file_metadata fuel (PathImpl.parent path) s = (Ok p, s) -> not_dir p = false ->
  dir_ok s d l F -> find_file name (dir_files s l) = None -> (Z.to_nat (max_cluster s) + 1 < fuel)%nat ->
  exists s', create_file fuel path s = (Ok tt, s') /\ file_created s d l name s'.
Proof.
  intros d Hok Hh Hfree Hlast Hv Hlen Hfit Hparent Hnd Hdir Hnone Hfuel.
  destruct (enough_free_two s Hfree) as (x & y & Hxy & Hx & Hfx & Hy & Hfy). destruct Hfree as [_ Hcount].
  pose proof (chain_length s d l Hok (do_chain _ _ _ _ Hdir) (do_distinct _ _ _ _ Hdir)).
  cut (wp (create_file fuel path) s (fun _ s' => file_created s d l name s')).
  { intros ([] & s' & Hrun & Hpost)%wp_run. by exists s'. }
  unfold create_file. rewrite Hlast. wp_step. eapply wp_intro; [exact Hparent|]. rewrite Hnd.
  unfold directory_cluster. wp_step. wp_step. wp_step. wp_step. fold d.
  unfold check_absent. wp_step. wp_step. eapply wp_intro.
  { unfold attempt. rewrite (lookup_run fuel s d l), Hnone; [done|done|apply Hdir|lia]. }
  cbn iota. wp_step. wp_step. eapply wp_mono; [apply (allocate_spec fuel s x); try done|].
  { unfold count_in_range. destruct (fs_info s); [lia|done]. }
  intros c1 s1 (Hc1 & Hf1 & Hs1 & Hi1). apply table_fs_step in Hs1; [|done].
  destruct (dir_ok_allocated s d l F c1 s1) as [Hdir1 _]; [done..|].
  pose proof (step_meta _ _ _ _ Hs1) as Hm1. pose proof Hm1 as (Hb1 & Hmax1 & _).
  assert (Hz : exists z, is_cluster s1 z /\ fat s1 z = 0).
  { assert (exists z, z <> c1 /\ is_cluster s z /\ fat s z = 0) as (z & Hne & Hz & Hfz).
    { destruct (decide (x = c1)) as [->|]; [by exists y|by exists x]. }
    exists z. split; [by apply (same_meta_is_cluster _ _ _ Hm1)|].
    rewrite (step_fat _ _ _ _ Hs1) by (unfold is_cluster in Hz; lia). unfold upd. by rewrite decide_False. }
  destruct Hz as (z & Hz & Hfz).
  wp_step. apply wp_attempt. eapply wp_mono; [apply (create_file_meta_spec fuel s1 d l F _ z); try done|].
  - apply (step_ok _ _ _ _ Hs1).
  - unfold hint_ok in *. rewrite Hi1. by destruct (fs_info s).
  - unfold count_in_range. rewrite Hi1. destruct (fs_info s); [cbn in *; lia|done].
  - by apply group_ok_new.
  - unfold group_bytes. rewrite length_app, length_fmap. unfold dir_entries in *. rewrite Hb1. done.
  - by rewrite Hmax1.
  - intros [] s2 Hs2. apply wp_ret. by apply (file_created_intro s d l F name c1 s1).
Qed.
End dir_spec.

(** ** The properties at concrete inputs *)

#[local] Opaque demo_fs.

(** The root directory of the demo disk is empty. *)
Lemma demo_root_zero : cluster_buffer demo_fs 2 = replicate (dir_sectors demo_fs * dir_size demo_fs) 0.
Proof. vm_compute. reflexivity. Qed.

Lemma demo_dir_ok : dir_ok demo_fs 2 [2] (fun _ _ => []).
Proof.
  constructor.
  - exact demo_chain.
  - apply NoDup_singleton.
  - discriminate.
  - intros c ->%list_elem_of_singleton. rewrite demo_fat_root. discriminate.
  - intros c i ->%list_elem_of_singleton Hi. destruct demo_fs_run as (_ & Hok & _ & _ & Hm).
    apply zero_sector; [exact Hok|unfold is_cluster; rewrite Hm; lia|exact Hi|exact demo_root_zero].
Qed.

Lemma demo_files : dir_files demo_fs [2] = [].
Proof. vm_compute. reflexivity. Qed.

Lemma directory_walk_refines_witness :
  get_file_metadata_by_cluster 2 2 [97] demo_fs = (Err FileNotFound, demo_fs) /\
  get_all_filemeta_by_cluster 2 2 demo_fs = (Ok [], demo_fs).
Proof.
  destruct (directory_walk_refines 2 demo_fs 2 [2] [97] (proj1 (proj2 demo_fs_run)) demo_chain ltac:(cbn; lia))
    as [H1 H2].
  rewrite demo_files in H1, H2. split; [exact H1|exact H2].
Defined.

Lemma demo_free3 : fat demo_fs 3 = 0.
Proof. vm_compute. reflexivity. Qed.

Lemma demo_free4 : fat demo_fs 4 = 0.
Proof. vm_compute. reflexivity. Qed.

Lemma demo_name_ok : Fat32Name.valid_name [97].
Proof.
  split; [discriminate|]. split; repeat constructor; discriminate.
Qed.

Lemma create_file_adds_witness : exists s',
  create_file 10 [[97]] demo_fs = (Ok tt, s') /\ file_created demo_fs 2 [2] [97] s'.
Proof.
  destruct demo_fs_run as (_ & Hok & _ & Hi & Hm).
  assert (Hroot : root_cluster (bpb demo_fs) = 2) by (vm_compute; reflexivity).
  destruct (create_file_adds 10 demo_fs [[97]] [97] None [2] (fun _ _ => [])) as (s' & H1 & H2).
  - exact Hok.
  - exact (proj1 demo_hint_ok).
  - split; [|rewrite Hi; vm_compute; intuition discriminate].
    exists [3; 4]. split; [|split; [cbn; lia|]].
    + repeat constructor; rewrite ?elem_of_cons, ?elem_of_nil; lia.
    + intros c Hc. rewrite !elem_of_cons, elem_of_nil in Hc. unfold is_cluster. rewrite Hm.
      destruct Hc as [->|[->|[]]]; (split; [lia|]); [exact demo_free3|exact demo_free4].
  - reflexivity.
  - exact demo_name_ok.
  - vm_compute. lia.
  - vm_compute. lia.
  - reflexivity.
  - reflexivity.
  - rewrite Hroot. exact demo_dir_ok.
  - rewrite demo_files. reflexivity.
  - rewrite Hm. cbn. lia.
  - cbv zeta iota in H2. rewrite Hroot in H2. exists s'. split; [exact H1|exact H2].
Defined.
