(* ===== verification/Fat32Behaviour.v ===== *)
(** * FAT32: sequences of operations with an unexpected result (library/filesystem/src/fs/fat32.rs)

    Runs of the file system on a freshly formatted volume, computed by the
    kernel, in which every operation that should succeed does and yet data is
    lost or an operation does not do what the [FileSystem] trait documents. *)
From S2P Require Import Prelude Text Path Device MemoryDevice Fat32Types Fat32Name Fat32Format Fat32Table Fat32Dir Fat32Fs Fat32Handle.

(** The names and sizes in the root directory. *)
Definition root_listing (s : Fat32Inner MemoryDevice) : option (list (rstring * Z)) :=
  match list_directory 20 [] s with
  | (Ok l, _) => Some ((fun m => (fm_name m, fm_size m)) <$> l)
  | _ => None
  end.

Definition name_a : rstring := [97].
Definition name_b : rstring := [98].
Definition name_long : rstring := replicate 14 99.

Definition run {A} (m : FsM MemoryDevice A) (Q : A -> Fat32Inner MemoryDevice -> Prop) : Prop :=
  match m demo_fs with
  | (Ok a, s) => Q a s
  | _ => False
  end.

(** A file can vanish when another one is created. The first long entry of
    every file has order 0, and the search for free entries takes an entry
    whose first byte is 0 for free: with [a] deleted in front of [b], a name
    of 14 characters (three entries) is written over the two free entries and
    the first long entry of [b], which can then no longer be opened. *)
Theorem create_destroys_neighbour :
  run (create_file 20 [name_a];; create_file 20 [name_b];; delete_file 20 [name_a];;
       create_file 20 [name_long]) (fun _ s =>
    (open_file 20 [name_b] s).1 = Err FileNotFound /\
    option_map (map fst) (root_listing s) =
      Some [name_long; replicate 8 63 ++ [46] ++ replicate 3 63]).
Proof. vm_compute. split; reflexivity. Qed.

(** [rename] within a directory succeeds without renaming: it writes the
    entries of the source back, with the old name in them. *)
Theorem rename_keeps_old_name :
  run (create_file 20 [name_a];; rename 20 [name_a] [name_b]) (fun _ s =>
    root_listing s = Some [(name_a, 0)] /\ (open_file 20 [name_b] s).1 = Err FileNotFound).
Proof. vm_compute. split; reflexivity. Qed.

(** An entry without a long name, as other systems write it, for a file [B],
    to be put at an index of the root directory. *)
Definition short_only (offset : Z) : Fat32FileMetadata :=
  let root := reserved_sector_count (bpb demo_fs) + fat_size_32 (bpb demo_fs) * 2 in
  mkMeta (mkShort (66 :: replicate 7 0) (replicate 3 0) ATTR_ARCHIVE 0 0 0 0 0 0 0 0 4 0) []
    0 0 0 2 root offset.

(** Deleting a file without a long name deletes the entries of the file
    with a long name in front of it too, because the walk does not reset the
    start position; when there is none in front of it, nothing is deleted and
    only its clusters are freed. *)
Theorem delete_short_entry :
  run (create_file 20 [name_a];; update_file_metadata (short_only 2);;
       delete_file 20 [[66]]) (fun _ s => root_listing s = Some []) /\
  run (update_file_metadata (short_only 0);; delete_file 20 [[66]]) (fun _ s =>
    option_map (map snd) (root_listing s) = Some [0] /\ (open_file 20 [[66]] s).1 <> Err FileNotFound).
Proof. vm_compute. split; [reflexivity|]. split; [reflexivity|discriminate]. Qed.

(** A [write] that fails because the disk is full leaves the pointer
    behind the end of the file; the next [read] underflows. *)
Theorem full_write_breaks_handle :
  run (create_file 20 [name_a];; h ← open_file 20 [name_a];
       create_file 20 [name_b];; mret h) (fun h s =>
    match write 20 (replicate 8192 7) (h, s) with
    | (Err e, st) => e = DiskFull /\ pointer st.1 = 4096 /\
        file_size (short (metadata st.1)) = 0 /\ (read 20 (replicate 16 0) st).1 = Panic
    | _ => False
    end).
Proof. vm_compute. split_conj; reflexivity. Qed.
