(* ===== verification/RBTree.v ===== *)
(** * The red-black tree map (library/try_alloc/src/collection/rbtree)

    [RBTreeMap] with its nodes in a heap of addresses: parent, left and right
    pointers, a shared NIL node. Reading or writing through a pointer that is
    not (or no longer) allocated is undefined behaviour in the source and a
    panic here; memory given to the allocator leaves the heap.

    The proofs see the nodes around a position as a zipper: a subtree and the
    path from it to the root. *)
From S2P Require Import Prelude.

(** [Ord] of the keys. *)
Class Ord (K : Type) : Type := {
  cmp : K -> K -> comparison;
  cmp_eq a b : cmp a b = Eq <-> a = b;
  cmp_antisym a b : cmp b a = CompOpp (cmp a b);
  cmp_trans a b c : cmp a b = Lt -> cmp b c = Lt -> cmp a c = Lt;
}.

#[export] Instance Z_ord : Ord Z.
Proof.
  refine {| cmp := Z.compare |}.
  - apply Z.compare_eq_iff.
  - apply Z.compare_antisym.
  - intros a b c. rewrite !Z.compare_lt_iff. lia.
Defined.

Inductive NodeColor : Type := Black | Red.

#[export] Instance NodeColor_eq_dec : EqDecision NodeColor.
Proof. solve_decision. Defined.

Inductive AllocError : Type := mkAllocError.

(** [crate::ptr::dangling()], the address [usize::MAX]. *)
Definition dangling : Z := 2 ^ 64 - 1.

Definition is_dangling (p : Z) : bool := p =? dangling.

(** [NonNull::dangling()] of a node: its alignment. *)
Definition node_dangling : Z := 8.

Section rbtree.
  Context {K V : Type} `{!Ord K}.

Record Entry : Type := mkEntry { key : K; val : V }.

Record RBNode : Type := mkNode {
  parent : Z;
  left : Z;
  right : Z;
  color : NodeColor;
  value : option Entry;
}.

Record RBTreeMap : Type := mkMap {
  root : Z;
  nil : Z;
  heap : gmap Z RBNode;
}.

Definition RB (A : Type) : Type := M RBTreeMap AllocError A.

(** ** Access through pointers *)

Definition deref (p : Z) : RB RBNode :=
  h ← gets heap;
  match h !! p with
  | Some n => mret n
  | None => panic
  end.

Definition update (p : Z) (f : RBNode -> RBNode) : RB unit :=
  n ← deref p;
  modify (fun t => mkMap (root t) (nil t) (<[p := f n]> (heap t))).

Definition set_parent (p q : Z) : RB unit :=
  update p (fun n => mkNode q (left n) (right n) (color n) (value n)).
Definition set_left (p q : Z) : RB unit :=
  update p (fun n => mkNode (parent n) q (right n) (color n) (value n)).
Definition set_right (p q : Z) : RB unit :=
  update p (fun n => mkNode (parent n) (left n) q (color n) (value n)).
Definition set_color (p : Z) (c : NodeColor) : RB unit :=
  update p (fun n => mkNode (parent n) (left n) (right n) c (value n)).
Definition set_root (p : Z) : RB unit := modify (fun t => mkMap p (nil t) (heap t)).

(** [node_path!(p.field)]. *)
Definition get_parent (p : Z) : RB Z := n ← deref p; mret (parent n).
Definition get_left (p : Z) : RB Z := n ← deref p; mret (left n).
Definition get_right (p : Z) : RB Z := n ← deref p; mret (right n).
Definition get_color (p : Z) : RB NodeColor := n ← deref p; mret (color n).

Definition is_nil (p : Z) : RB bool :=
  n ← deref p;
  mret (match value n with None => true | Some _ => false end).

(** The entry of a data node; NIL has none. *)
Definition get_entry (p : Z) : RB Entry :=
  n ← deref p;
  match value n with
  | Some e => mret e
  | None => panic
  end.

(** ** Construction; [a] is what the allocator returns, [None] when it fails *)

Definition const_new : RBTreeMap := mkMap dangling dangling ∅.

Definition new_nil (a : option Z) : RB Z :=
  match a with
  | None => throw mkAllocError
  | Some a =>
      modify (fun t => mkMap (root t) (nil t) (<[a := mkNode a a a Black None]> (heap t)));;
      mret a
  end.

Definition init (a : option Z) : RB unit :=
  t ← gets id;
  if is_dangling (nil t) then
    n ← new_nil a;
    modify (fun t => mkMap n n (heap t))
  else mret tt.

(** The constructor as the state after it. *)
Definition new (a : option Z) : RB unit :=
  n ← new_nil a;
  modify (fun t => mkMap n n (heap t)).

Definition new_detach (a : option Z) (e : Entry) : RB Z :=
  match a with
  | None => throw mkAllocError
  | Some a =>
      modify (fun t => mkMap (root t) (nil t)
        (<[a := mkNode node_dangling node_dangling node_dangling Black (Some e)]> (heap t)));;
      mret a
  end.

(** Take the value out of a detached node and free the node. *)
Definition unbox_value (p : Z) : RB V :=
  e ← get_entry p;
  modify (fun t => mkMap (root t) (nil t) (delete p (heap t)));;
  mret (val e).

(** ** Rotations *)

(** [if !q.is_nil() { q.parent = p }] *)
Definition adopt (q p : Z) : RB unit :=
  b ← is_nil q;
  if (b : bool) then mret tt else set_parent q p.

(** Node [v] takes the place of [u] below its parent [p], [u] being looked for
    as the left or as the right child first. *)
Definition replace_left_child (p u v : Z) : RB unit :=
  b ← is_nil p;
  if (b : bool) then set_root v
  else
    pl ← get_left p;
    if u =? pl then set_left p v else set_right p v.

Definition replace_right_child (p u v : Z) : RB unit :=
  b ← is_nil p;
  if (b : bool) then set_root v
  else
    pr ← get_right p;
    if u =? pr then set_right p v else set_left p v.

Definition rotate_left (x : Z) : RB unit :=
  t ← gets id;
  rust_assert (negb (x =? nil t));;
  y ← get_right x;
  rust_assert (negb (y =? nil t));;
  yl ← get_left y;
  set_right x yl;;
  yl ← get_left y;
  adopt yl x;;
  xp ← get_parent x;
  set_parent y xp;;
  xp ← get_parent x;
  replace_left_child xp x y;;
  set_left y x;;
  set_parent x y.

Definition rotate_right (x : Z) : RB unit :=
  t ← gets id;
  rust_assert (negb (x =? nil t));;
  y ← get_left x;
  rust_assert (negb (y =? nil t));;
  yr ← get_right y;
  set_left x yr;;
  yr ← get_right y;
  adopt yr x;;
  xp ← get_parent x;
  set_parent y xp;;
  xp ← get_parent x;
  replace_right_child xp x y;;
  set_right y x;;
  set_parent x y.

(** ** Lookup *)

Fixpoint find_loop (fuel : nat) (k : K) (x : Z) : RB (option Z) :=
  match fuel with
  | O => diverge
  | S fuel =>
      b ← is_nil x;
      if (b : bool) then mret None
      else
        e ← get_entry x;
        match cmp k (key e) with
        | Eq => mret (Some x)
        | Lt => x ← get_left x; find_loop fuel k x
        | Gt => x ← get_right x; find_loop fuel k x
        end
  end.

Definition find (fuel : nat) (k : K) : RB (option Z) :=
  t ← gets id;
  if is_dangling (root t) || is_dangling (nil t) then mret None
  else find_loop fuel k (root t).

Definition get (fuel : nat) (k : K) : RB (option V) :=
  p ← find fuel k;
  match p with
  | None => mret None
  | Some p => e ← get_entry p; mret (Some (val e))
  end.

(** The borrow [get_mut] returns is used to change the value with [f]. *)
Definition get_mut (fuel : nat) (k : K) (f : V -> V) : RB (option unit) :=
  p ← find fuel k;
  match p with
  | None => mret None
  | Some p =>
      e ← get_entry p;
      update p (fun n => mkNode (parent n) (left n) (right n) (color n)
                           (Some (mkEntry (key e) (f (val e)))));;
      mret (Some tt)
  end.

(** ** Insertion *)

Definition replace (u v : Z) : RB unit :=
  t ← gets id;
  rust_assert (negb (u =? nil t));;
  rust_assert (negb (v =? nil t));;
  c ← get_color u;
  set_color v c;;
  ul ← get_left u;
  set_left v ul;;
  vl ← get_left v;
  adopt vl v;;
  ur ← get_right u;
  set_right v ur;;
  vr ← get_right v;
  adopt vr v;;
  up ← get_parent u;
  set_parent v up;;
  vp ← get_parent v;
  replace_left_child vp u v;;
  set_parent u dangling;;
  set_left u dangling;;
  set_right u dangling.

(** One round of the loop, the parent [p] of [z] being the left child of the
    grandparent [g]; the result is the next [z]. *)
Definition insert_fixup_left (z p g : Z) : RB Z :=
  y ← get_right g;
  yc ← get_color y;
  if decide (yc = Red) then
    set_color p Black;;
    set_color y Black;;
    set_color g Red;;
    mret g
  else
    pr ← get_right p;
    z ← (if z =? pr then rotate_left p;; mret p else mret z);
    p ← get_parent z;
    set_color p Black;;
    g ← get_parent p;
    set_color g Red;;
    rotate_right g;;
    mret z.

Definition insert_fixup_right (z p g : Z) : RB Z :=
  y ← get_left g;
  yc ← get_color y;
  if decide (yc = Red) then
    set_color p Black;;
    set_color y Black;;
    set_color g Red;;
    mret g
  else
    pl ← get_left p;
    z ← (if z =? pl then rotate_right p;; mret p else mret z);
    p ← get_parent z;
    set_color p Black;;
    g ← get_parent p;
    set_color g Red;;
    rotate_left g;;
    mret z.

Fixpoint insert_fixup_loop (fuel : nat) (z : Z) : RB unit :=
  match fuel with
  | O => diverge
  | S fuel =>
      p ← get_parent z;
      c ← get_color p;
      if decide (c = Red) then
        g ← get_parent p;
        gl ← get_left g;
        z ← (if p =? gl then insert_fixup_left z p g else insert_fixup_right z p g);
        insert_fixup_loop fuel z
      else mret tt
  end.

Definition insert_fixup (fuel : nat) (z : Z) : RB unit :=
  t ← gets id;
  rust_assert (negb (z =? nil t));;
  insert_fixup_loop fuel z;;
  t ← gets id;
  set_color (root t) Black.

(** The search for the place: the node of this key, or the parent-to-be. *)
Fixpoint insert_loop (fuel : nat) (k : K) (y x : Z) : RB (Z + Z) :=
  match fuel with
  | O => diverge
  | S fuel =>
      b ← is_nil x;
      if (b : bool) then mret (inr y)
      else
        e ← get_entry x;
        match cmp k (key e) with
        | Lt => l ← get_left x; insert_loop fuel k x l
        | Gt => r ← get_right x; insert_loop fuel k x r
        | Eq => mret (inl x)
        end
  end.

(** [z] becomes a red leaf below [y]. *)
Definition insert_below (k : K) (z y nl : Z) : RB unit :=
  set_parent z y;;
  b ← is_nil y;
  (if (b : bool) then set_root z
   else
     pe ← get_entry y;
     match cmp k (key pe) with
     | Lt => set_left y z
     | _ => set_right y z
     end);;
  set_left z nl;;
  set_right z nl;;
  set_color z Red.

Definition insert (fuel : nat) (z : Z) : RB (option Z) :=
  t ← gets id;
  e ← get_entry z;
  place ← insert_loop fuel (key e) (nil t) (root t);
  match place with
  | inl x => replace x z;; mret (Some x)
  | inr y =>
      insert_below (key e) z y (nil t);;
      insert_fixup fuel z;;
      mret None
  end.

Definition insert_raw (fuel : nat) (z : Z) : RB (option Z) :=
  t ← gets id;
  rust_assert (negb (is_dangling (root t)));;
  rust_assert (negb (is_dangling (nil t)));;
  insert fuel z.

Definition try_insert (fuel : nat) (a : option Z) (k : K) (v : V) : RB (option V) :=
  node ← new_detach a (mkEntry k v);
  prev ← insert_raw fuel node;
  match prev with
  | None => mret None
  | Some p => v ← unbox_value p; mret (Some v)
  end.

(** ** Removal *)

Definition transplant (u v : Z) : RB unit :=
  t ← gets id;
  rust_assert (negb (u =? nil t));;
  rust_assert (negb (u =? v));;
  up ← get_parent u;
  replace_left_child up u v;;
  b ← is_nil v;
  (if (b : bool) then mret tt else up ← get_parent u; set_parent v up);;
  set_parent u (nil t).

Fixpoint tree_minimum (fuel : nat) (node : Z) : RB Z :=
  match fuel with
  | O => diverge
  | S fuel =>
      l ← get_left node;
      b ← is_nil l;
      if (b : bool) then mret node else tree_minimum fuel l
  end.

(** The four cases of [delete_fixup] for one side: [get_near], [get_far] and
    the two rotations are exchanged in the mirror image. The result is the
    node to go on with, or [None] after a [break]. *)
Definition delete_fixup_side (get_near get_far : Z -> RB Z) (rotate_near rotate_far : Z -> RB unit)
    (x : Z) : RB (option Z) :=
  p ← get_parent x;
  y ← get_far p;
  yc ← get_color y;
  y ← (if decide (yc = Red) then
         p ← get_parent x;
         c ← get_color p;
         set_color y c;;
         set_color p Red;;
         rotate_near p;;
         p ← get_parent x;
         get_far p
       else mret y);
  l ← get_left y; lc ← get_color l;
  r ← get_right y; rc ← get_color r;
  if bool_decide (lc = Black) && bool_decide (rc = Black) then
    set_color y Red;;
    x ← get_parent x;
    c ← get_color x;
    if decide (c = Red) then set_color x Black;; mret None
    else mret (Some x)
  else
    n ← get_near y; nc ← get_color n;
    f ← get_far y; fc ← get_color f;
    y ← (if bool_decide (nc = Red) && bool_decide (fc = Black) then
           set_color y Red;;
           n ← get_near y;
           set_color n Black;;
           rotate_far y;;
           p ← get_parent x;
           get_far p
         else mret y);
    f ← get_far y;
    fc ← get_color f;
    if decide (fc = Red) then
      p ← get_parent x;
      c ← get_color p;
      set_color y c;;
      set_color p Black;;
      f ← get_far y;
      set_color f Black;;
      rotate_near p;;
      mret None
    else mret (Some x).

Fixpoint delete_fixup_loop (fuel : nat) (x : Z) : RB unit :=
  match fuel with
  | O => diverge
  | S fuel =>
      t ← gets id;
      if x =? root t then mret tt
      else
        c ← get_color x;
        rust_assert (bool_decide (c = Black));;
        p ← get_parent x;
        pl ← get_left p;
        next ← (if pl =? x then delete_fixup_side get_left get_right rotate_left rotate_right x
                else delete_fixup_side get_right get_left rotate_right rotate_left x);
        match next with
        | Some x => delete_fixup_loop fuel x
        | None => mret tt
        end
  end.

Definition delete_fixup (fuel : nat) (x : Z) : RB unit :=
  delete_fixup_loop fuel x;;
  t ← gets id;
  set_color (root t) Black.

Definition delete (fuel : nat) (z : Z) : RB unit :=
  t ← gets id;
  rust_assert (negb (z =? nil t));;
  c ← get_color z;
  zl ← get_left z;
  zr ← get_right z;
  bl ← is_nil zl;
  br ← is_nil zr;
  '(x, c) ←
    (if (bl : bool) then transplant z zr;; mret (zr, c)
     else if (br : bool) then transplant z zl;; mret (zl, c)
     else
       y ← tree_minimum fuel zr;
       c ← get_color y;
       x ← get_right y;
       yp ← get_parent y;
       (if yp =? z then set_parent x y
        else
          transplant y x;;
          zr ← get_right z;
          set_right y zr;;
          yr ← get_right y;
          set_parent yr y);;
       transplant z y;;
       zl ← get_left z;
       set_left y zl;;
       yl ← get_left y;
       set_parent yl y;;
       zc ← get_color z;
       set_color y zc;;
       mret (x, c));
  if decide (c = Black) then
    xc ← get_color x;
    match xc with
    | Black => delete_fixup fuel x
    | Red => set_color x Black
    end
  else mret tt.

Definition remove_raw (fuel : nat) (k : K) : RB (option Z) :=
  p ← find fuel k;
  match p with
  | None => mret None
  | Some p => delete fuel p;; mret (Some p)
  end.

Definition remove (fuel : nat) (k : K) : RB (option V) :=
  p ← find fuel k;
  match p with
  | None => mret None
  | Some p => delete fuel p;; v ← unbox_value p; mret (Some v)
  end.

End rbtree.
