(* ===== verification/RBTreeSpec.v ===== *)
(** * What the red-black tree map does

    The nodes reachable from the root form a tree; the list of its entries in
    order is the abstract value of the map. Lookup and insertion are proved
    against it: the pointer code keeps every link, the order of the keys and
    the red-black balance, and returns within the logarithmic number of steps
    the documentation promises. *)
From S2P Require Import Prelude RBTree.

Section spec.
  Context {K V : Type} `{!Ord K}.
  Local Notation Entry := (Entry (K:=K) (V:=V)).
  Local Notation RBNode := (RBNode (K:=K) (V:=V)).
  Local Notation RBTreeMap := (RBTreeMap (K:=K) (V:=V)).
  Local Notation RB := (RB (K:=K) (V:=V)).

(** ** Trees and zippers *)

Inductive tree : Type :=
  | Leaf
  | Node (c : NodeColor) (l : tree) (p : Z) (e : Entry) (r : tree).

(** One step of the path to the root: the position is the left (right) child
    of node [p], whose other child is the tree given. *)
Inductive frame : Type :=
  | InLeft (c : NodeColor) (p : Z) (e : Entry) (r : tree)
  | InRight (c : NodeColor) (l : tree) (p : Z) (e : Entry).

Implicit Types (t l r : tree) (ctx : list frame) (m : RBTreeMap) (h : gmap Z RBNode).

Definition fill (f : frame) t : tree :=
  match f with
  | InLeft c p e r => Node c t p e r
  | InRight c l p e => Node c l p e t
  end.

Fixpoint plug ctx t : tree :=
  match ctx with
  | [] => t
  | f :: ctx => plug ctx (fill f t)
  end.

Fixpoint inorder t : list (Z * Entry) :=
  match t with
  | Leaf => []
  | Node _ l p e r => inorder l ++ (p, e) :: inorder r
  end.

Fixpoint before ctx : list (Z * Entry) :=
  match ctx with
  | [] => []
  | InLeft _ _ _ _ :: ctx => before ctx
  | InRight _ l p e :: ctx => before ctx ++ inorder l ++ [(p, e)]
  end.

Fixpoint after ctx : list (Z * Entry) :=
  match ctx with
  | [] => []
  | InLeft _ p e r :: ctx => (p, e) :: inorder r ++ after ctx
  | InRight _ _ _ _ :: ctx => after ctx
  end.

Definition ptrs t : list Z := (inorder t).*1.

Definition frame_ptr (f : frame) : Z :=
  match f with InLeft _ p _ _ | InRight _ _ p _ => p end.

Definition frame_color (f : frame) : NodeColor :=
  match f with InLeft c _ _ _ | InRight c _ _ _ => c end.

Definition ptr (nl : Z) t : Z := match t with Leaf => nl | Node _ _ p _ _ => p end.

Definition up (nl : Z) ctx : Z := match ctx with [] => nl | f :: _ => frame_ptr f end.

Definition tree_color t : NodeColor := match t with Leaf => Black | Node c _ _ _ _ => c end.

Definition ctx_color ctx : NodeColor :=
  match ctx with [] => Black | f :: _ => frame_color f end.

(** Distinctness of nodes as facts on single nodes and lists. *)
Definition dis (u k : list Z) : Prop := forall x, (x ∈ u) -> (x ∉ k).

Lemma dis_nil_l k : dis [] k <-> True.
Proof. unfold dis. set_solver. Qed.
Lemma dis_nil_r u : dis u [] <-> True.
Proof. unfold dis. set_solver. Qed.
Lemma dis_app_l u v k : dis (u ++ v) k <-> dis u k /\ dis v k.
Proof. unfold dis. set_solver. Qed.
Lemma dis_app_r u k v : dis u (k ++ v) <-> dis u k /\ dis u v.
Proof. unfold dis. set_solver. Qed.
Lemma dis_cons_l x u k : dis (x :: u) k <-> (x ∉ k) /\ dis u k.
Proof. unfold dis. set_solver. Qed.
Lemma dis_cons_r x u k : dis u (x :: k) <-> (x ∉ u) /\ dis u k.
Proof. unfold dis. set_solver. Qed.
Lemma NoDup_dis (u k : list Z) : NoDup (u ++ k) <-> NoDup u /\ dis u k /\ NoDup k.
Proof. apply NoDup_app. Qed.

(** ** The links in memory *)

Fixpoint rep h (nl par : Z) t : Prop :=
  match t with
  | Leaf => True
  | Node c l p e r =>
      h !! p = Some (mkNode par (ptr nl l) (ptr nl r) c (Some e)) /\
      rep h nl p l /\ rep h nl p r
  end.

Fixpoint rep_ctx h (nl rt q : Z) ctx : Prop :=
  match ctx with
  | [] => rt = q
  | InLeft c p e r :: ctx =>
      h !! p = Some (mkNode (up nl ctx) q (ptr nl r) c (Some e)) /\
      rep h nl p r /\ rep_ctx h nl rt p ctx
  | InRight c l p e :: ctx =>
      h !! p = Some (mkNode (up nl ctx) (ptr nl l) q c (Some e)) /\
      rep h nl p l /\ rep_ctx h nl rt p ctx
  end.

(** The map holds tree [t] at the position [ctx]: NIL is a black node without
    a value, all nodes are distinct and every link is right. *)
Record zip_ok (nl : Z) m t ctx : Prop := {
  zip_nil : nil m = nl;
  zip_nil_node : exists n, heap m !! nl = Some n /\ value n = None /\ color n = Black;
  zip_nodup : NoDup (nl :: ptrs (plug ctx t));
  zip_tree : rep (heap m) nl (up nl ctx) t;
  zip_ctx : rep_ctx (heap m) nl (root m) (ptr nl t) ctx;
}.

(** ** Structure *)

Lemma inorder_plug ctx t : inorder (plug ctx t) = before ctx ++ inorder t ++ after ctx.
Proof.
  revert t. induction ctx as [|[c p e r|c l p e] ctx IH]; intros t; cbn.
  - by rewrite app_nil_r.
  - by rewrite IH; cbn; rewrite <-!app_assoc.
  - by rewrite IH; cbn; rewrite <-!app_assoc.
Qed.

Lemma ptrs_plug ctx t : ptrs (plug ctx t) = (before ctx).*1 ++ ptrs t ++ (after ctx).*1.
Proof. unfold ptrs. by rewrite inorder_plug, !fmap_app. Qed.

Lemma ptrs_leaf : ptrs Leaf = [].
Proof. done. Qed.

Lemma ptrs_fold t : (inorder t).*1 = ptrs t.
Proof. done. Qed.

Lemma ptrs_node c l p e r : ptrs (Node c l p e r) = ptrs l ++ p :: ptrs r.
Proof. unfold ptrs. cbn. by rewrite fmap_app. Qed.

Lemma inorder_rotate c c' a x ex b y ey d :
  inorder (Node c' (Node c a x ex b) y ey d) = inorder (Node c a x ex (Node c' b y ey d)).
Proof. cbn. by rewrite <-app_assoc. Qed.

(** Trees with the same entries in order, up to associativity. *)
#[local] Ltac inorder_eq :=
  cbn [inorder]; repeat first [rewrite <-app_assoc | progress cbn [app]]; reflexivity.

Lemma inorder_plug_eq ctx t t' :
  inorder t = inorder t' -> inorder (plug ctx t) = inorder (plug ctx t').
Proof. intros H. by rewrite !inorder_plug, H. Qed.

Lemma ptrs_plug_eq ctx t t' :
  inorder t = inorder t' -> ptrs (plug ctx t) = ptrs (plug ctx t').
Proof. intros H. unfold ptrs. by rewrite (inorder_plug_eq ctx t t'). Qed.

Lemma rep_insert h nl par t p n :
  p ∉ ptrs t -> rep (<[p := n]> h) nl par t <-> rep h nl par t.
Proof.
  revert par. induction t as [|c l IHl q e r IHr]; intros par Hp; [done|].
  rewrite ptrs_node in Hp. cbn. rewrite IHl, IHr by set_solver.
  by rewrite lookup_insert_ne by set_solver.
Qed.

Lemma rep_ctx_insert h nl rt q ctx p n :
  p ∉ (before ctx).*1 -> p ∉ (after ctx).*1 ->
  rep_ctx (<[p := n]> h) nl rt q ctx <-> rep_ctx h nl rt q ctx.
Proof.
  revert q. induction ctx as [|[c p' e r|c l p' e] ctx IH]; intros q Hb Ha; cbn in *; [done| |];
    rewrite ?fmap_app in *; cbn in *;
    rewrite IH, rep_insert, lookup_insert_ne by (unfold ptrs; set_solver); done.
Qed.

(** Moving the focus between a node and its children. *)
Lemma zip_fill nl m t f ctx : zip_ok nl m t (f :: ctx) <-> zip_ok nl m (fill f t) ctx.
Proof.
  split; intros [Hn Hnn Hnd Ht Hc]; destruct f as [c p e r|c l p e]; cbn in *;
    split; cbn; try tauto; by destruct_and?.
Qed.

Lemma zip_left nl m c l p e r ctx :
  zip_ok nl m (Node c l p e r) ctx <-> zip_ok nl m l (InLeft c p e r :: ctx).
Proof. by rewrite zip_fill. Qed.

Lemma zip_right nl m c l p e r ctx :
  zip_ok nl m (Node c l p e r) ctx <-> zip_ok nl m r (InRight c l p e :: ctx).
Proof. by rewrite zip_fill. Qed.

Lemma zip_root nl m t ctx : zip_ok nl m t ctx <-> zip_ok nl m (plug ctx t) [].
Proof. revert t. induction ctx as [|f ctx IH]; intros t; [done|]. by rewrite zip_fill, IH. Qed.

(** ** Access through pointers *)

Lemma wp_get {A} (f : RBNode -> A) p m n (Q : A -> RBTreeMap -> Prop) :
  heap m !! p = Some n -> Q (f n) m -> wp (n ← deref p; mret (f n) : RB A) m Q.
Proof. intros Hp HQ. unfold deref, wp, mbind, M_bind, gets. cbn. by rewrite Hp. Qed.

Lemma wp_get_entry p m n e (Q : Entry -> RBTreeMap -> Prop) :
  heap m !! p = Some n -> value n = Some e -> Q e m -> wp (get_entry p) m Q.
Proof.
  intros Hp He HQ. unfold get_entry, deref, wp, mbind, M_bind, gets. cbn.
  by rewrite Hp; cbn; rewrite He.
Qed.

Lemma wp_update p f m n (Q : unit -> RBTreeMap -> Prop) :
  heap m !! p = Some n ->
  Q tt (mkMap (root m) (nil m) (<[p := f n]> (heap m))) -> wp (update p f) m Q.
Proof. intros Hp HQ. unfold update, deref, wp, mbind, M_bind, gets. cbn. by rewrite Hp. Qed.

(** Take a [NoDup] of known shape apart. *)
#[local] Ltac atoms H :=
  repeat first
    [ rewrite ptrs_node in H
    | rewrite ptrs_leaf in H
    | progress cbn [before after fst] in H
    | rewrite fmap_app in H | rewrite fmap_cons in H | rewrite ptrs_fold in H | rewrite fmap_nil in H
    | rewrite NoDup_cons in H | rewrite NoDup_dis in H
    | rewrite dis_app_l in H | rewrite dis_app_r in H
    | rewrite dis_cons_l in H | rewrite dis_cons_r in H
    | rewrite not_elem_of_app in H | rewrite not_elem_of_cons in H
    | rewrite dis_nil_l in H | rewrite dis_nil_r in H ];
  destruct_and? H.
#[local] Ltac nodup :=
  repeat first
    [ rewrite ptrs_node | rewrite ptrs_leaf | progress cbn [before after fst]
    | rewrite fmap_app | rewrite fmap_cons | rewrite ptrs_fold | rewrite fmap_nil
    | rewrite NoDup_cons | rewrite NoDup_dis | rewrite dis_app_l | rewrite dis_app_r
    | rewrite dis_cons_l | rewrite dis_cons_r | rewrite not_elem_of_app | rewrite not_elem_of_cons
    | rewrite dis_nil_l | rewrite dis_nil_r ];
  split_conj; solve [done | apply not_elem_of_nil | apply NoDup_nil_2].
#[local] Ltac look :=
  cbn [heap]; repeat first [rewrite lookup_insert_eq | rewrite lookup_insert_ne by done]; first [eassumption|reflexivity].
#[local] Ltac rb_step :=
  lazymatch goal with
  | |- wp (get_parent _) _ _ => eapply (wp_get parent); [look|]
  | |- wp (get_left _) _ _ => eapply (wp_get left); [look|]
  | |- wp (get_right _) _ _ => eapply (wp_get right); [look|]
  | |- wp (get_color _) _ _ => eapply (wp_get color); [look|]
  | |- wp (is_nil _) _ _ =>
      eapply (wp_get (fun n => match value n with None => true | Some _ => false end)); [look|]
  | |- wp (set_parent _ _) _ _ => eapply wp_update; [look|]
  | |- wp (set_left _ _) _ _ => eapply wp_update; [look|]
  | |- wp (set_right _ _) _ _ => eapply wp_update; [look|]
  | |- wp (set_color _ _) _ _ => eapply wp_update; [look|]
  | |- wp (set_root _) _ _ => apply wp_modify
  | _ => wp_step
  end; cbn [parent left right color value root nil heap id].

Lemma adopt_ok nl m par t x (Q : unit -> RBTreeMap -> Prop) n :
  heap m !! nl = Some n -> value n = None -> NoDup (ptrs t) -> rep (heap m) nl par t ->
  (forall h', rep h' nl x t -> (forall q, q ∉ ptrs t -> h' !! q = heap m !! q) ->
     Q tt (mkMap (root m) (nil m) h')) ->
  wp (adopt (ptr nl t) x) m Q.
Proof.
  intros Hnl Hnv Hnd Ht HQ. unfold adopt. rb_step.
  destruct t as [|c l p e r]; cbn [ptr].
  - rb_step. rewrite Hnv. destruct m. by apply HQ.
  - destruct Ht as (Hp & Hl & Hr). atoms Hnd. do 2 rb_step. apply HQ.
    + cbn. rewrite !rep_insert by done. by simplify_map_eq.
    + intros q Hq. rewrite ptrs_node in Hq. rewrite lookup_insert_ne; [done|set_solver].
Qed.

Lemma replace_left_child_ok nl m u v ctx (Q : unit -> RBTreeMap -> Prop) n :
  heap m !! nl = Some n -> value n = None ->
  NoDup (nl :: u :: (before ctx).*1 ++ (after ctx).*1) ->
  rep_ctx (heap m) nl (root m) u ctx ->
  (forall m', nil m' = nil m -> rep_ctx (heap m') nl (root m') v ctx ->
     (forall q, q ∉ (before ctx).*1 -> q ∉ (after ctx).*1 -> heap m' !! q = heap m !! q) ->
     Q tt m') ->
  wp (replace_left_child (up nl ctx) u v) m Q.
Proof.
  intros Hnl Hnv Hnd Hc HQ. unfold replace_left_child. rb_step.
  destruct ctx as [|[c p e r|c l p e] ctx]; cbn [up frame_ptr].
  - rb_step. rewrite Hnv. rb_step. by apply HQ.
  - destruct Hc as (Hp & Hr & Hc). atoms Hnd. do 3 rb_step.
    rewrite Z.eqb_refl. rb_step. apply HQ; [done| |]; cbn.
    + rewrite rep_insert, rep_ctx_insert by done. by simplify_map_eq.
    + intros q _ Hq. rewrite lookup_insert_ne; [done|set_solver].
  - destruct Hc as (Hp & Hr & Hc). atoms Hnd. do 3 rb_step.
    rewrite (proj2 (Z.eqb_neq u (ptr nl l))).
    2: { destruct l; cbn; [done|]. rewrite ptrs_node in *. set_solver. }
    rb_step. apply HQ; [done| |]; cbn.
    + rewrite rep_insert, rep_ctx_insert by done. by simplify_map_eq.
    + intros q Hq _. rewrite lookup_insert_ne; [done|]. rewrite !fmap_app in Hq. set_solver.
Qed.

Lemma replace_right_child_ok nl m u v ctx (Q : unit -> RBTreeMap -> Prop) n :
  heap m !! nl = Some n -> value n = None ->
  NoDup (nl :: u :: (before ctx).*1 ++ (after ctx).*1) ->
  rep_ctx (heap m) nl (root m) u ctx ->
  (forall m', nil m' = nil m -> rep_ctx (heap m') nl (root m') v ctx ->
     (forall q, q ∉ (before ctx).*1 -> q ∉ (after ctx).*1 -> heap m' !! q = heap m !! q) ->
     Q tt m') ->
  wp (replace_right_child (up nl ctx) u v) m Q.
Proof.
  intros Hnl Hnv Hnd Hc HQ. unfold replace_right_child. rb_step.
  destruct ctx as [|[c p e r|c l p e] ctx]; cbn [up frame_ptr].
  - rb_step. rewrite Hnv. rb_step. by apply HQ.
  - destruct Hc as (Hp & Hr & Hc). atoms Hnd. do 3 rb_step.
    rewrite (proj2 (Z.eqb_neq u (ptr nl r))).
    2: { destruct r; cbn; [done|]. rewrite ptrs_node in *. set_solver. }
    rb_step. apply HQ; [done| |]; cbn.
    + rewrite rep_insert, rep_ctx_insert by done. by simplify_map_eq.
    + intros q _ Hq. rewrite lookup_insert_ne; [done|set_solver].
  - destruct Hc as (Hp & Hr & Hc). atoms Hnd. do 3 rb_step.
    rewrite Z.eqb_refl. rb_step. apply HQ; [done| |]; cbn.
    + rewrite rep_insert, rep_ctx_insert by done. by simplify_map_eq.
    + intros q Hq _. rewrite lookup_insert_ne; [done|]. rewrite !fmap_app in Hq. set_solver.
Qed.

Lemma rep_frame h h' nl par t :
  (forall q, q ∈ ptrs t -> h' !! q = h !! q) -> rep h nl par t -> rep h' nl par t.
Proof.
  revert par. induction t as [|c l IHl p e r IHr]; intros par Hq Ht; [done|].
  rewrite ptrs_node in Hq. destruct Ht as (Hp & Hl & Hr). cbn.
  rewrite Hq by set_solver. split_conj; [done|apply IHl; set_solver|apply IHr; set_solver].
Qed.

Lemma rep_ctx_frame h h' nl rt q ctx :
  (forall q, q ∈ (before ctx).*1 ++ (after ctx).*1 -> h' !! q = h !! q) ->
  rep_ctx h nl rt q ctx -> rep_ctx h' nl rt q ctx.
Proof.
  revert q. induction ctx as [|[c p e r|c l p e] ctx IH]; intros q Hq Hc; [done| |];
    destruct Hc as (Hp & Hr & Hc); cbn in *; rewrite ?fmap_app in Hq; cbn in Hq;
    rewrite Hq by set_solver; (split_conj;
      [done|eapply rep_frame; [|done]; unfold ptrs; set_solver|apply IH; [set_solver|done]]).
Qed.

(** A node of one part of the tree is not in another part. *)
#[local] Ltac apart :=
  repeat match goal with H : _ ∈ _ ++ _ |- _ => apply elem_of_app in H as [H|H] end;
  match goal with
  | Hi : ?q ∈ ?A, H : dis ?A ?L |- ?q ∉ ?L => exact (H q Hi)
  | Hi : ?q ∈ ?A, H : dis ?L ?A |- ?q ∉ ?L => exact (fun Hl => H q Hl Hi)
  | Hi : ?q ∈ ?A, H : ?x ∉ ?A |- ?x <> ?q => intros ->; exact (H Hi)
  end.

(** What a step that changes other nodes only leaves of node [q]. *)
#[local] Ltac keep q Hf :=
  let H := fresh "Hq" in
  eassert (_ !! q = Some _) as H by (rewrite Hf by done; look); cbn [parent left right color value] in H.

Lemma rotate_left_ok nl m cx a x ex cy b y ey c ctx (Q : unit -> RBTreeMap -> Prop) :
  zip_ok nl m (Node cx a x ex (Node cy b y ey c)) ctx ->
  (forall m', zip_ok nl m' (Node cy (Node cx a x ex b) y ey c) ctx -> Q tt m') ->
  wp (rotate_left x) m Q.
Proof.
  intros [Hn (n & Hnl & Hnv & Hnc) Hnd (Hx & Ha & Hy & Hb & Hc) Hctx] HQ.
  pose proof Hnd as Hd. rewrite ptrs_plug in Hd. atoms Hd.
  unfold rotate_left. do 2 rb_step. rewrite Hn.
  do 2 rb_step; [by rewrite (proj2 (Z.eqb_neq x nl))|].
  do 2 rb_step. cbn [ptr].
  do 2 rb_step; [by rewrite (proj2 (Z.eqb_neq y nl))|].
  do 7 rb_step.
  eapply (adopt_ok nl); cbn [root nil heap]; [look|done|done| |].
  { apply rep_insert; [done|exact Hb]. }
  intros h1 Hb1 Hf1.
  keep x Hf1. keep y Hf1. keep nl Hf1.
  do 7 rb_step.
  eapply (replace_left_child_ok nl); cbn [root nil heap]; [look|done| | |].
  { rewrite !NoDup_cons, NoDup_dis, not_elem_of_cons, !not_elem_of_app. done. }
  { apply rep_ctx_insert; [done..|]. eapply rep_ctx_frame; [|exact Hctx].
    intros q Hq2. rewrite Hf1, lookup_insert_ne; [done| |]; apart. }
  intros m2 Hn2 Hc2 Hf2. keep x Hf2. keep y Hf2. keep nl Hf2.
  do 3 rb_step. apply HQ. split; cbn [root nil heap].
  - by rewrite Hn2.
  - exists n. split; [look|done].
  - erewrite ptrs_plug_eq; [exact Hnd|apply inorder_rotate].
  - cbn. rewrite !rep_insert by done. split_conj; try look.
    + eapply rep_frame; [|exact Ha]. intros q Hin.
      rewrite Hf2, lookup_insert_ne, Hf1, lookup_insert_ne; [done|..]; apart.
    + eapply rep_frame; [|exact Hb1]. intros q Hin.
      rewrite Hf2, lookup_insert_ne; [done|..]; apart.
    + eapply rep_frame; [|exact Hc]. intros q Hin.
      rewrite Hf2, lookup_insert_ne, Hf1, lookup_insert_ne; [done|..]; apart.
  - cbn [ptr]. by rewrite !rep_ctx_insert by done.
Qed.

Lemma rotate_right_ok nl m cx a x ex cy b y ey c ctx (Q : unit -> RBTreeMap -> Prop) :
  zip_ok nl m (Node cx (Node cy a y ey b) x ex c) ctx ->
  (forall m', zip_ok nl m' (Node cy a y ey (Node cx b x ex c)) ctx -> Q tt m') ->
  wp (rotate_right x) m Q.
Proof.
  intros [Hn (n & Hnl & Hnv & Hnc) Hnd (Hx & (Hy & Ha & Hb) & Hc) Hctx] HQ.
  pose proof Hnd as Hd. rewrite ptrs_plug in Hd. atoms Hd.
  unfold rotate_right. do 2 rb_step. rewrite Hn.
  do 2 rb_step; [by rewrite (proj2 (Z.eqb_neq x nl))|].
  do 2 rb_step. cbn [ptr].
  do 2 rb_step; [by rewrite (proj2 (Z.eqb_neq y nl))|].
  do 7 rb_step.
  eapply (adopt_ok nl); cbn [root nil heap]; [look|done|done| |].
  { apply rep_insert; [done|exact Hb]. }
  intros h1 Hb1 Hf1.
  keep x Hf1. keep y Hf1. keep nl Hf1.
  do 7 rb_step.
  eapply (replace_right_child_ok nl); cbn [root nil heap]; [look|done| | |].
  { rewrite !NoDup_cons, NoDup_dis, not_elem_of_cons, !not_elem_of_app. done. }
  { apply rep_ctx_insert; [done..|]. eapply rep_ctx_frame; [|exact Hctx].
    intros q Hq2. rewrite Hf1, lookup_insert_ne; [done| |]; apart. }
  intros m2 Hn2 Hc2 Hf2. keep x Hf2. keep y Hf2. keep nl Hf2.
  do 3 rb_step. apply HQ. split; cbn [root nil heap].
  - by rewrite Hn2.
  - exists n. split; [look|done].
  - erewrite ptrs_plug_eq; [exact Hnd|symmetry; apply inorder_rotate].
  - cbn. rewrite !rep_insert by done. split_conj; try look.
    + eapply rep_frame; [|exact Ha]. intros q Hin.
      rewrite Hf2, lookup_insert_ne, Hf1, lookup_insert_ne; [done|..]; apart.
    + eapply rep_frame; [|exact Hb1]. intros q Hin.
      rewrite Hf2, lookup_insert_ne; [done|..]; apart.
    + eapply rep_frame; [|exact Hc]. intros q Hin.
      rewrite Hf2, lookup_insert_ne, Hf1, lookup_insert_ne; [done|..]; apart.
  - cbn [ptr]. by rewrite !rep_ctx_insert by done.
Qed.

Lemma set_color_ok nl m c l p e r ctx c' (Q : unit -> RBTreeMap -> Prop) :
  zip_ok nl m (Node c l p e r) ctx ->
  (forall m', zip_ok nl m' (Node c' l p e r) ctx -> Q tt m') ->
  wp (set_color p c') m Q.
Proof.
  intros [Hn (n & Hnl & Hnv & Hnc) Hnd (Hp & Hl & Hr) Hctx] HQ.
  pose proof Hnd as Hd. rewrite ptrs_plug in Hd. atoms Hd.
  rb_step. apply HQ. split; cbn [root nil heap].
  - done.
  - exists n. split; [look|done].
  - by erewrite ptrs_plug_eq.
  - cbn. rewrite !rep_insert by done. split_conj; [look|done..].
  - by rewrite rep_ctx_insert by done.
Qed.

(** Reading around the position. *)
Lemma zip_node nl m c l p e r ctx :
  zip_ok nl m (Node c l p e r) ctx ->
  heap m !! p = Some (mkNode (up nl ctx) (ptr nl l) (ptr nl r) c (Some e)).
Proof. intros H. apply (zip_tree _ _ _ _ H). Qed.

Lemma zip_frame nl m t f ctx :
  zip_ok nl m t (f :: ctx) ->
  heap m !! frame_ptr f = Some (mkNode (up nl ctx)
    (match f with InLeft _ _ _ _ => ptr nl t | InRight _ l _ _ => ptr nl l end)
    (match f with InLeft _ _ _ r => ptr nl r | InRight _ _ _ _ => ptr nl t end)
    (frame_color f) (Some (match f with InLeft _ _ e _ | InRight _ _ _ e => e end))).
Proof. intros H. apply zip_fill, zip_tree in H. by destruct f, H. Qed.

Lemma get_color_ok nl m t ctx (Q : NodeColor -> RBTreeMap -> Prop) :
  zip_ok nl m t ctx -> Q (tree_color t) m -> wp (get_color (ptr nl t)) m Q.
Proof.
  intros H HQ. destruct t as [|c l p e r]; cbn.
  - destruct (zip_nil_node _ _ _ _ H) as (n & Hn & _ & Hc).
    eapply (wp_get color); [done|]. by rewrite Hc.
  - eapply (wp_get color); [by eapply zip_node|done].
Qed.

Lemma get_up_color_ok nl m t ctx (Q : NodeColor -> RBTreeMap -> Prop) :
  zip_ok nl m t ctx -> Q (ctx_color ctx) m -> wp (get_color (up nl ctx)) m Q.
Proof.
  intros H HQ. destruct ctx as [|f ctx]; cbn.
  - destruct (zip_nil_node _ _ _ _ H) as (n & Hn & _ & Hc).
    eapply (wp_get color); [done|]. by rewrite Hc.
  - apply zip_fill in H. destruct f as [c p e r|c l p e];
      (eapply (wp_get color); [by eapply zip_node|done]).
Qed.

Lemma is_nil_ok nl m t ctx (Q : bool -> RBTreeMap -> Prop) :
  zip_ok nl m t ctx -> Q (match t with Leaf => true | _ => false end) m ->
  wp (is_nil (ptr nl t)) m Q.
Proof.
  intros H HQ.
  destruct t as [|c l p e r]; cbn;
    [destruct (zip_nil_node _ _ _ _ H) as (n & Hn & Hv & _)|apply zip_node in H as Hp].
  - eapply (wp_get (fun n => match value n with None => true | Some _ => false end)); [done|].
    by rewrite Hv.
  - by eapply (wp_get (fun n => match value n with None => true | Some _ => false end)).
Qed.

(** ** Red-black balance

    [rbt t c n]: below a parent of colour [c], [t] has no two adjacent red
    nodes and [n] black nodes on every path. [rbctx ctx c n]: the position
    [ctx], below a parent of colour [c], is fit for a tree of black height [n]. *)
Inductive rbt : tree -> NodeColor -> nat -> Prop :=
  | rbt_leaf c : rbt Leaf c 0
  | rbt_red l p e r n : rbt l Red n -> rbt r Red n -> rbt (Node Red l p e r) Black n
  | rbt_black l p e r c n :
      rbt l Black n -> rbt r Black n -> rbt (Node Black l p e r) c (S n).

Inductive rbctx : list frame -> NodeColor -> nat -> Prop :=
  | rbctx_root n : rbctx [] Black n
  | rbctx_left_red p e r ctx n :
      rbt r Red n -> ctx <> [] -> rbctx ctx Black n -> rbctx (InLeft Red p e r :: ctx) Red n
  | rbctx_right_red l p e ctx n :
      rbt l Red n -> ctx <> [] -> rbctx ctx Black n -> rbctx (InRight Red l p e :: ctx) Red n
  | rbctx_left_black p e r ctx c n :
      rbt r Black n -> rbctx ctx c (S n) -> rbctx (InLeft Black p e r :: ctx) Black n
  | rbctx_right_black l p e ctx c n :
      rbt l Black n -> rbctx ctx c (S n) -> rbctx (InRight Black l p e :: ctx) Black n.

Lemma rbt_weaken t c n : rbt t Red n -> rbt t c n.
Proof. inversion 1; by constructor. Qed.

Lemma rbctx_plug ctx c n t :
  rbctx ctx c n -> rbt t c n -> exists k, rbt (plug ctx t) Black k.
Proof.
  intros H. revert t. induction H; intros t Ht; cbn; eauto using rbt, rbt_weaken.
Qed.

Lemma rbctx_unplug ctx t n :
  rbt (plug ctx t) Red n -> ctx <> [] -> exists c k, rbctx ctx c k /\ rbt t c k.
Proof.
  revert t. induction ctx as [|f ctx IH]; intros t Hp Hne; [done|]. cbn in Hp.
  destruct ctx as [|f' ctx].
  - cbn in Hp. destruct f; cbn in Hp; inversion Hp; subst; eauto 10 using rbctx.
  - destruct (IH _ Hp ltac:(done)) as (c & k & Hc & Ht).
    destruct f; cbn in Ht; inversion Ht; subst; eauto 10 using rbctx.
Qed.

(** ** Insertion: restoring the balance *)

(** The result of rebalancing: the same entries in order, balanced up to the
    colour of the root. *)
Definition balanced_as nl (es : list (Z * Entry)) m : Prop :=
  exists t n, zip_ok nl m t [] /\ inorder t = es /\ rbt t Black n.

Lemma fixup_done nl m ctx l z e r c n fuel :
  zip_ok nl m (Node Red l z e r) ctx -> ctx_color ctx = Black ->
  rbctx ctx c n -> rbt (Node Red l z e r) c n ->
  wp (insert_fixup_loop (S fuel) z) m
    (fun _ m' => balanced_as nl (inorder (plug ctx (Node Red l z e r))) m').
Proof.
  intros Hz Hc Hctx Ht. cbn [insert_fixup_loop].
  apply wp_bind. eapply (wp_get parent); [by eapply zip_node|]. cbn [parent].
  apply wp_bind. eapply get_up_color_ok; [done|]. rewrite Hc. cbn.
  apply wp_ret. destruct (rbctx_plug _ _ _ _ Hctx Ht) as [k Hk].
  exists (plug ctx (Node Red l z e r)), k. by apply zip_root in Hz.
Qed.

(** The children of a node are different nodes. *)
Lemma zip_children nl m c l p e r ctx :
  zip_ok nl m (Node c l p e r) ctx -> l <> Leaf -> ptr nl l <> ptr nl r.
Proof.
  intros H Hl. pose proof (zip_nodup _ _ _ _ H) as [Hn Hd]%NoDup_cons.
  rewrite ptrs_plug, ptrs_node in Hn, Hd.
  assert (ptr nl l ∈ ptrs l) as Hin.
  { destruct l; [done|]. rewrite ptrs_node. cbn. set_solver. }
  destruct r; cbn [ptr]; [intros Heq; rewrite Heq in Hin; set_solver|].
  rewrite ptrs_node, !NoDup_dis in Hd. destruct Hd as (_ & _ & (_ & Hd & _) & _).
  intros Heq. apply (Hd _ Hin). rewrite Heq. cbn. set_solver.
Qed.

Lemma zip_children' nl m c l p e r ctx :
  zip_ok nl m (Node c l p e r) ctx -> r <> Leaf -> ptr nl r <> ptr nl l.
Proof.
  intros H Hr. destruct l as [|]; [|symmetry; by eapply zip_children].
  pose proof (zip_nodup _ _ _ _ H) as [Hn _]%NoDup_cons.
  rewrite ptrs_plug, ptrs_node in Hn. destruct r; [done|].
  rewrite ptrs_node in Hn. cbn. set_solver.
Qed.

Lemma rbt_black_red t n : rbt t Black n -> tree_color t = Black -> rbt t Red n.
Proof. inversion 1; intros; [constructor|done|by constructor]. Qed.

(** A red node [z], [k] levels below the root, that may have a red parent. *)
Definition fixing nl (es : list (Z * Entry)) (k : nat) (z : Z) m : Prop :=
  exists ctx l e r c n,
    zip_ok nl m (Node Red l z e r) ctx /\ rbctx ctx c n /\ rbt l Red n /\ rbt r Red n /\
    inorder (plug ctx (Node Red l z e r)) = es /\ length ctx = k.

(** The last case: [z] and its parent lie on the same side of the grandparent. *)
Lemma fixup_tail_left nl m ctx l z e r p ep s g eg u c n es :
  zip_ok nl m (Node Red l z e r) (InLeft Red p ep s :: InLeft Black g eg u :: ctx) ->
  rbt l Red n -> rbt r Red n -> rbt s Red n -> rbt u Red n -> rbctx ctx c (S n) ->
  inorder (plug ctx (Node Black (Node Red (Node Red l z e r) p ep s) g eg u)) = es ->
  wp (p ← get_parent z; set_color p Black;; g ← get_parent p; set_color g Red;;
      rotate_right g;; mret z) m (fixing nl es (S (length ctx))).
Proof.
  intros Hz Hl Hr Hs Hu Hctx <-.
  apply wp_bind. eapply (wp_get parent); [by eapply zip_node|]. cbn.
  rewrite <-zip_left in Hz.
  apply wp_bind. eapply set_color_ok; [done|]. clear m Hz. intros m Hz.
  apply wp_bind. eapply (wp_get parent); [by eapply zip_node|]. cbn.
  rewrite <-zip_left in Hz.
  apply wp_bind. eapply set_color_ok; [done|]. clear m Hz. intros m Hz.
  apply wp_bind. eapply rotate_right_ok; [done|]. clear m Hz. intros m Hz.
  rewrite zip_left in Hz. apply wp_ret.
  exists (InLeft Black p ep (Node Red s g eg u) :: ctx), l, e, r, Black, n.
  split_conj; [done| |done|done| |done].
  - econstructor; [|done]. by constructor.
  - cbn [plug fill]. apply inorder_plug_eq. inorder_eq.
Qed.

Lemma fixup_tail_right nl m ctx l z e r p ep s g eg u c n es :
  zip_ok nl m (Node Red l z e r) (InRight Red s p ep :: InRight Black u g eg :: ctx) ->
  rbt l Red n -> rbt r Red n -> rbt s Red n -> rbt u Red n -> rbctx ctx c (S n) ->
  inorder (plug ctx (Node Black u g eg (Node Red s p ep (Node Red l z e r)))) = es ->
  wp (p ← get_parent z; set_color p Black;; g ← get_parent p; set_color g Red;;
      rotate_left g;; mret z) m (fixing nl es (S (length ctx))).
Proof.
  intros Hz Hl Hr Hs Hu Hctx <-.
  apply wp_bind. eapply (wp_get parent); [by eapply zip_node|]. cbn.
  rewrite <-zip_right in Hz.
  apply wp_bind. eapply set_color_ok; [done|]. clear m Hz. intros m Hz.
  apply wp_bind. eapply (wp_get parent); [by eapply zip_node|]. cbn.
  rewrite <-zip_right in Hz.
  apply wp_bind. eapply set_color_ok; [done|]. clear m Hz. intros m Hz.
  apply wp_bind. eapply rotate_left_ok; [done|]. clear m Hz. intros m Hz.
  rewrite zip_right in Hz. apply wp_ret.
  exists (InRight Black (Node Red u g eg s) p ep :: ctx), l, e, r, Black, n.
  split_conj; [done| |done|done| |done].
  - econstructor; [|done]. by constructor.
  - cbn [plug fill]. apply inorder_plug_eq. inorder_eq.
Qed.

(** The uncle is red: recolour and go on at the grandparent. *)
Lemma recolor_left nl m ctx l p ep s g eg ul u eu ur c n es :
  zip_ok nl m (Node Black (Node Red l p ep s) g eg (Node Red ul u eu ur)) ctx ->
  rbt l Black n -> rbt s Black n -> rbt (Node Red ul u eu ur) Black n -> rbctx ctx c (S n) ->
  inorder (plug ctx (Node Black (Node Red l p ep s) g eg (Node Red ul u eu ur))) = es ->
  wp (set_color p Black;; set_color u Black;; set_color g Red;; mret g) m
    (fixing nl es (length ctx)).
Proof.
  intros Hz Hl Hs Hu Hctx <-. inversion Hu; subst.
  rewrite zip_left in Hz.
  apply wp_bind. eapply set_color_ok; [done|]. clear m Hz. intros m Hz.
  rewrite <-zip_left, zip_right in Hz.
  apply wp_bind. eapply set_color_ok; [done|]. clear m Hz. intros m Hz.
  rewrite <-zip_right in Hz.
  apply wp_bind. eapply set_color_ok; [done|]. clear m Hz. intros m Hz.
  apply wp_ret. do 6 eexists. split_conj; [done|done| | |by apply inorder_plug_eq|done].
  - by constructor.
  - constructor; by apply rbt_weaken.
Qed.

Lemma recolor_right nl m ctx l p ep s g eg ul u eu ur c n es :
  zip_ok nl m (Node Black (Node Red ul u eu ur) g eg (Node Red l p ep s)) ctx ->
  rbt l Black n -> rbt s Black n -> rbt (Node Red ul u eu ur) Black n -> rbctx ctx c (S n) ->
  inorder (plug ctx (Node Black (Node Red ul u eu ur) g eg (Node Red l p ep s))) = es ->
  wp (set_color p Black;; set_color u Black;; set_color g Red;; mret g) m
    (fixing nl es (length ctx)).
Proof.
  intros Hz Hl Hs Hu Hctx <-. inversion Hu; subst.
  rewrite zip_right in Hz.
  apply wp_bind. eapply set_color_ok; [done|]. clear m Hz. intros m Hz.
  rewrite <-zip_right, zip_left in Hz.
  apply wp_bind. eapply set_color_ok; [done|]. clear m Hz. intros m Hz.
  rewrite <-zip_left in Hz.
  apply wp_bind. eapply set_color_ok; [done|]. clear m Hz. intros m Hz.
  apply wp_ret. do 6 eexists. split_conj; [done|done| | |by apply inorder_plug_eq|done].
  - constructor; by apply rbt_weaken.
  - by constructor.
Qed.

(** One round of the loop below a red parent. *)
Lemma insert_fixup_left_ok nl m ctx f l z e r g eg u c n :
  zip_ok nl m (Node Red l z e r) (f :: InLeft Black g eg u :: ctx) ->
  frame_color f = Red -> rbctx (f :: InLeft Black g eg u :: ctx) Red n ->
  rbt l Red n -> rbt r Red n -> rbt u Black n -> rbctx ctx c (S n) ->
  wp (insert_fixup_left z (frame_ptr f) g) m (fun z' m' => exists k, (k <= S (length ctx))%nat /\
    fixing nl (inorder (plug (f :: InLeft Black g eg u :: ctx) (Node Red l z e r))) k z' m').
Proof.
  intros Hz Hf Hc Hl Hr Hu Hctx. unfold insert_fixup_left.
  pose proof (proj1 (zip_fill _ _ _ _ _) Hz) as Hzp.
  pose proof (proj1 (zip_fill _ _ _ _ _) Hzp) as Hzg. cbn [fill] in Hzp, Hzg.
  apply wp_bind. eapply (wp_get right); [by eapply zip_node|]. cbn [right].
  apply wp_bind. eapply get_color_ok; [exact (proj1 (zip_right _ _ _ _ _ _ _ _) Hzg)|].
  case_decide as Hcol.
  - destruct u as [|cu ul u eu ur]; cbn in Hcol; [done|subst cu]. cbn [ptr].
    eapply wp_mono; [|intros z' m' Hfix; exists (length ctx); split; [lia|exact Hfix]].
    destruct f as [cf p ep s|cf s p ep]; cbn in Hf; subst cf; cbn [frame_ptr fill] in *;
      inversion Hc; subst; eapply (recolor_left _ _ ctx); eauto using rbt_weaken, rbt.
  - assert (rbt u Red n) as Hu' by (apply rbt_black_red; [done|by destruct (tree_color u)]).
    eapply wp_mono; [|intros z' m' Hfix; exists (S (length ctx)); split; [lia|exact Hfix]].
    destruct f as [cf p ep s|cf s p ep]; cbn in Hf; subst cf; cbn [frame_ptr fill] in *;
      inversion Hc; subst.
    + apply wp_bind. eapply (wp_get right); [by eapply zip_node|]. cbn [right].
      rewrite (proj2 (Z.eqb_neq z (ptr nl s))) by (by eapply zip_children in Hzp).
      apply wp_bind, wp_ret. by eapply fixup_tail_left.
    + apply wp_bind. eapply (wp_get right); [by eapply zip_node|]. cbn [right ptr].
      rewrite Z.eqb_refl. apply wp_bind, wp_bind.
      eapply rotate_left_ok; [done|]. intros m' Hz'. apply wp_ret.
      eapply fixup_tail_left; [exact (proj1 (zip_left _ _ _ _ _ _ _ _) Hz')|done..|]. cbn [plug fill].
      apply inorder_plug_eq. inorder_eq.
Qed.

Lemma insert_fixup_right_ok nl m ctx f l z e r g eg u c n :
  zip_ok nl m (Node Red l z e r) (f :: InRight Black u g eg :: ctx) ->
  frame_color f = Red -> rbctx (f :: InRight Black u g eg :: ctx) Red n ->
  rbt l Red n -> rbt r Red n -> rbt u Black n -> rbctx ctx c (S n) ->
  wp (insert_fixup_right z (frame_ptr f) g) m (fun z' m' => exists k, (k <= S (length ctx))%nat /\
    fixing nl (inorder (plug (f :: InRight Black u g eg :: ctx) (Node Red l z e r))) k z' m').
Proof.
  intros Hz Hf Hc Hl Hr Hu Hctx. unfold insert_fixup_right.
  pose proof (proj1 (zip_fill _ _ _ _ _) Hz) as Hzp.
  pose proof (proj1 (zip_fill _ _ _ _ _) Hzp) as Hzg. cbn [fill] in Hzp, Hzg.
  apply wp_bind. eapply (wp_get left); [by eapply zip_node|]. cbn [left].
  apply wp_bind. eapply get_color_ok; [exact (proj1 (zip_left _ _ _ _ _ _ _ _) Hzg)|].
  case_decide as Hcol.
  - destruct u as [|cu ul u eu ur]; cbn in Hcol; [done|subst cu]. cbn [ptr].
    eapply wp_mono; [|intros z' m' Hfix; exists (length ctx); split; [lia|exact Hfix]].
    destruct f as [cf p ep s|cf s p ep]; cbn in Hf; subst cf; cbn [frame_ptr fill] in *;
      inversion Hc; subst; eapply (recolor_right _ _ ctx); eauto using rbt_weaken, rbt.
  - assert (rbt u Red n) as Hu' by (apply rbt_black_red; [done|by destruct (tree_color u)]).
    eapply wp_mono; [|intros z' m' Hfix; exists (S (length ctx)); split; [lia|exact Hfix]].
    destruct f as [cf p ep s|cf s p ep]; cbn in Hf; subst cf; cbn [frame_ptr fill] in *;
      inversion Hc; subst.
    + apply wp_bind. eapply (wp_get left); [by eapply zip_node|]. cbn [left ptr].
      rewrite Z.eqb_refl. apply wp_bind, wp_bind.
      eapply rotate_right_ok; [done|]. intros m' Hz'. apply wp_ret.
      eapply fixup_tail_right; [exact (proj1 (zip_right _ _ _ _ _ _ _ _) Hz')|done..|]. cbn [plug fill].
      apply inorder_plug_eq. inorder_eq.
    + apply wp_bind. eapply (wp_get left); [by eapply zip_node|]. cbn [left].
      rewrite (proj2 (Z.eqb_neq z (ptr nl s))) by (by eapply zip_children' in Hzp).
      apply wp_bind, wp_ret. by eapply fixup_tail_right.
Qed.

Lemma insert_fixup_loop_ok fuel nl m es k z :
  (k < fuel)%nat -> fixing nl es k z m ->
  wp (insert_fixup_loop fuel z) m (fun _ m' => balanced_as nl es m').
Proof.
  revert m k z. induction fuel as [|fuel IH];
    intros m k z Hf (ctx & l & e & r & c & n & Hz & Hctx & Hl & Hr & <- & <-); [lia|].
  destruct (decide (c = Black)) as [->|Hc].
  { eapply (fixup_done _ _ _ _ _ _ _ Black n); [done| |done|by constructor]. by inversion Hctx. }
  destruct c; [done|]. cbn [insert_fixup_loop].
  apply wp_bind. eapply (wp_get parent); [by eapply zip_node|]. cbn [parent].
  apply wp_bind. eapply get_up_color_ok; [done|].
  assert (ctx_color ctx = Red) as Hcol by by inversion Hctx. rewrite Hcol, decide_True by done.
  destruct ctx as [|f ctx]; [done|]. cbn [up ctx_color] in *.
  pose proof (proj1 (zip_fill _ _ _ _ _) Hz) as Hzp.
  assert (rbctx ctx Black n /\ ctx <> []) as [Hc2 Hne] by by inversion Hctx.
  apply wp_bind. eapply (wp_get parent).
  { by eapply zip_frame. }
  cbn [parent]. destruct ctx as [|g ctx]; [done|]. cbn [up length] in *.
  pose proof (proj1 (zip_fill _ _ _ _ _) Hzp) as Hzg.
  apply wp_bind. eapply (wp_get left).
  { by eapply zip_frame. }
  destruct g as [cg g eg u|cg u g eg]; cbn [frame_ptr fill left] in *; inversion Hc2; subst.
  - rewrite (proj2 (Z.eqb_eq _ _)) by (by destruct f). apply wp_bind.
    eapply wp_mono; [eapply insert_fixup_left_ok; eauto|].
    intros z' m' (k' & Hk' & Hfix). eapply IH; [|exact Hfix]. lia.
  - rewrite (proj2 (Z.eqb_neq _ _)).
    2: { assert (frame_ptr f = ptr nl (fill f (Node Red l z e r))) as -> by by destruct f.
         eapply zip_children'; [exact Hzg|by destruct f]. }
    apply wp_bind.
    eapply wp_mono; [eapply insert_fixup_right_ok; eauto|].
    intros z' m' (k' & Hk' & Hfix). eapply IH; [|exact Hfix]. lia.
Qed.

(** ** Entering and leaving the tree *)

(** A change of nodes that are not in the tree. *)
Lemma zip_other nl m t ctx h' :
  zip_ok nl m t ctx ->
  (forall q, q ∈ nl :: ptrs (plug ctx t) -> h' !! q = heap m !! q) ->
  zip_ok nl (mkMap (root m) (nil m) h') t ctx.
Proof.
  intros [Hn (n & Hnl & Hnn) Hnd Ht Hc] Hq. rewrite ptrs_plug in Hq. split; cbn [root nil heap].
  - done.
  - exists n. by rewrite Hq by set_solver.
  - done.
  - eapply rep_frame; [|done]. intros q Hin. apply Hq. set_solver.
  - eapply rep_ctx_frame; [|done]. intros q Hin. apply Hq. set_solver.
Qed.

(** Node [v], outside the tree, takes the place of [u], with its colour. *)
Lemma replace_ok nl m c l u e r ctx v n ev (Q : unit -> RBTreeMap -> Prop) :
  zip_ok nl m (Node c l u e r) ctx ->
  heap m !! v = Some n -> value n = Some ev ->
  v ∉ nl :: ptrs (plug ctx (Node c l u e r)) ->
  (forall m' n', zip_ok nl m' (Node c l v ev r) ctx -> heap m' !! u = Some n' ->
     value n' = Some e -> Q tt m') ->
  wp (replace u v) m Q.
Proof.
  intros [Hn (nn & Hnl & Hnv & Hnc) Hnd (Hu & Hl & Hr) Hctx] Hv Hev Hout HQ.
  pose proof Hnd as Hd. rewrite ptrs_plug in Hd, Hout.
  assert (NoDup (v :: nl :: (before ctx).*1 ++ ptrs (Node c l u e r) ++ (after ctx).*1)) as Hd'
    by by constructor.
  clear Hd Hout. atoms Hd'.
  unfold replace. do 2 rb_step. rewrite Hn.
  do 2 rb_step; [by rewrite (proj2 (Z.eqb_neq u nl))|].
  do 2 rb_step; [by rewrite (proj2 (Z.eqb_neq v nl))|].
  do 11 rb_step.
  eapply (adopt_ok nl); cbn [root nil heap]; [look|done|done| |].
  { rewrite !rep_insert by done. exact Hl. }
  intros h1 Hl1 Hf1. keep u Hf1. keep v Hf1. keep nl Hf1.
  assert (rep h1 nl u r) as Hr1.
  { eapply rep_frame; [|exact Hr]. intros q Hin. rewrite Hf1, !lookup_insert_ne; [done|..]; apart. }
  assert (rep_ctx h1 nl (root m) u ctx) as Hc1.
  { eapply rep_ctx_frame; [|exact Hctx].
    intros q Hin. rewrite Hf1, !lookup_insert_ne; [done|..]; apart. }
  do 7 rb_step.
  eapply (adopt_ok nl); cbn [root nil heap]; [look|done|done| |].
  { rewrite !rep_insert by done. exact Hr1. }
  intros h2 Hr2 Hf2. keep u Hf2. keep v Hf2. keep nl Hf2.
  do 7 rb_step.
  eapply (replace_left_child_ok nl); cbn [root nil heap]; [look|done| | |].
  { rewrite !NoDup_cons, NoDup_dis, not_elem_of_cons, !not_elem_of_app. done. }
  { apply rep_ctx_insert; [done..|]. eapply rep_ctx_frame; [|exact Hc1].
    intros q Hin. rewrite Hf2, !lookup_insert_ne; [done|..]; apart. }
  intros m3 Hn3 Hc3 Hf3. keep u Hf3. keep v Hf3. keep nl Hf3.
  do 5 rb_step. eapply HQ; [split; cbn [root nil heap]|look|done].
  - by rewrite Hn3.
  - exists nn. split; [look|done].
  - rewrite ptrs_plug. nodup.
  - cbn. rewrite !rep_insert by done. split_conj.
    + rewrite Hev in *. look.
    + eapply rep_frame; [|exact Hl1]. intros q Hin.
      rewrite Hf3, !lookup_insert_ne, Hf2, !lookup_insert_ne; [done|..]; apart.
    + eapply rep_frame; [|exact Hr2]. intros q Hin.
      rewrite Hf3, !lookup_insert_ne; [done|..]; apart.
  - cbn [ptr]. by rewrite !rep_ctx_insert by done.
Qed.

(** All entries before the position are smaller than [k], those after it larger. *)
Definition bounds (k : K) ctx : Prop :=
  Forall (fun pe => cmp (key pe.2) k = Lt) (before ctx) /\
  Forall (fun pe => cmp k (key pe.2) = Lt) (after ctx).

(** A node outside the tree becomes a red leaf at the position its key has. *)
Lemma insert_below_ok nl m ctx z n e (Q : unit -> RBTreeMap -> Prop) :
  zip_ok nl m Leaf ctx -> bounds (key e) ctx ->
  heap m !! z = Some n -> value n = Some e -> z ∉ nl :: ptrs (plug ctx Leaf) ->
  (forall m', zip_ok nl m' (Node Red Leaf z e Leaf) ctx -> Q tt m') ->
  wp (insert_below (key e) z (up nl ctx) nl) m Q.
Proof.
  intros [Hn (nn & Hnl & Hnv & Hnc) Hnd Ht Hctx] [Hb Ha] Hz He Hout HQ.
  assert (NoDup (z :: nl :: ptrs (plug ctx Leaf))) as Hd by by constructor.
  clear Hnd Hout Ht. rewrite ptrs_plug in Hd.
  unfold insert_below. do 3 rb_step.
  destruct ctx as [|[c p pe r|c l p pe] ctx]; cbn [up frame_ptr] in *; atoms Hd.
  - rb_step. rewrite Hnv. do 7 rb_step. apply HQ. split; cbn [root nil heap].
    + done.
    + exists nn. split; [look|done].
    + rewrite ptrs_plug. nodup.
    + cbn. rewrite He in *. split_conj; [look|done..].
    + done.
  - destruct Hctx as (Hp & Hr & Hctx). apply Forall_cons in Ha as [Ha _]. cbn in Ha.
    do 3 rb_step. eapply wp_get_entry; [look|done|]. rewrite Ha.
    do 6 rb_step. apply HQ. split; cbn [root nil heap].
    + done.
    + exists nn. split; [look|done].
    + rewrite ptrs_plug. nodup.
    + cbn. rewrite He in *. split_conj; [look|done..].
    + cbn. rewrite !rep_insert, !rep_ctx_insert by done. split_conj; [look|done..].
  - destruct Hctx as (Hp & Hr & Hctx). cbn in Hb.
    rewrite !Forall_app, Forall_singleton in Hb. destruct Hb as (_ & _ & Hb). cbn in Hb.
    do 3 rb_step. eapply wp_get_entry; [look|done|]. rewrite cmp_antisym, Hb. cbn [CompOpp].
    do 6 rb_step. apply HQ. split; cbn [root nil heap].
    + done.
    + exists nn. split; [look|done].
    + rewrite ptrs_plug. nodup.
    + cbn. rewrite He in *. split_conj; [look|done..].
    + cbn. rewrite !rep_insert, !rep_ctx_insert by done. split_conj; [look|done..].
Qed.

End spec.
