(* ===== verification/RBTreeRefine.v ===== *)
(** * The red-black tree map refines a finite map

    The abstract value of an [RBTreeMap] is the list of its entries sorted by
    key. [get] and [try_insert] compute what the list operations [assoc] and
    [insert_entry] do, in a number of steps logarithmic in the number of
    entries; [remove] does not keep the balance, and goes through freed memory
    once NIL's parent is stale. *)
From stdpp Require Import sorting.
From S2P Require Import Prelude RBTree RBTreeSpec.

Section refine.
  Context {K V : Type} `{!Ord K}.
  Local Notation Entry := (Entry (K:=K) (V:=V)).
  Local Notation RBTreeMap := (RBTreeMap (K:=K) (V:=V)).
  Local Notation RB := (RB (K:=K) (V:=V)).
  Local Notation tree := (tree (K:=K) (V:=V)).
  Local Notation frame := (frame (K:=K) (V:=V)).
  Implicit Types (t l r : tree) (ctx : list frame) (m : RBTreeMap) (es : list Entry).

(** ** The abstract map *)

Fixpoint assoc (k : K) es : option V :=
  match es with
  | [] => None
  | e :: es => match cmp k (key e) with Eq => Some (val e) | _ => assoc k es end
  end.

Fixpoint insert_entry (e : Entry) es : list Entry :=
  match es with
  | [] => [e]
  | x :: es =>
      match cmp (key e) (key x) with
      | Lt => e :: x :: es
      | Eq => e :: es
      | Gt => x :: insert_entry e es
      end
  end.

Definition entry_lt (a b : Entry) : Prop := cmp (key a) (key b) = Lt.

Lemma cmp_gt_lt (a b : K) : cmp a b = Gt <-> cmp b a = Lt.
Proof. rewrite (cmp_antisym a b). destruct (cmp a b); cbn; naive_solver. Qed.

Lemma assoc_before k es es' :
  Forall (fun e => cmp (key e) k = Lt) es -> assoc k (es ++ es') = assoc k es'.
Proof.
  induction 1 as [|e es He _ IH]; [done|]. cbn.
  apply cmp_gt_lt in He. by rewrite He.
Qed.

Lemma assoc_after k es : Forall (fun e => cmp k (key e) = Lt) es -> assoc k es = None.
Proof. induction 1 as [|e es He _ IH]; [done|]. cbn. by rewrite He. Qed.

Lemma insert_entry_before e es es' :
  Forall (fun x => cmp (key x) (key e) = Lt) es ->
  insert_entry e (es ++ es') = es ++ insert_entry e es'.
Proof.
  induction 1 as [|x es He _ IH]; [done|]. cbn.
  apply cmp_gt_lt in He. by rewrite He, IH.
Qed.

Lemma insert_entry_after e es :
  Forall (fun x => cmp (key e) (key x) = Lt) es -> insert_entry e es = e :: es.
Proof. destruct 1 as [|x es He _]; [done|]. cbn. by rewrite He. Qed.

Lemma insert_entry_elem e es x : x ∈ insert_entry e es -> x = e \/ x ∈ es.
Proof.
  induction es as [|y es IH]; cbn; [set_solver|]. destruct (cmp _ _); set_solver.
Qed.

Lemma insert_entry_sorted e es :
  StronglySorted entry_lt es -> StronglySorted entry_lt (insert_entry e es).
Proof.
  induction 1 as [|x es Hs IH Hx]; cbn; [by repeat constructor|].
  destruct (cmp (key e) (key x)) eqn:Hc.
  - apply cmp_eq in Hc. apply SSorted_cons; [done|].
    eapply Forall_impl; [exact Hx|]. intros y. unfold entry_lt. by rewrite Hc.
  - apply SSorted_cons; [by apply SSorted_cons|]. constructor; [done|].
    eapply Forall_impl; [exact Hx|]. intros y Hy. eapply cmp_trans; [exact Hc|done].
  - apply SSorted_cons; [done|]. apply Forall_forall. intros y Hy.
    apply insert_entry_elem in Hy as [->|Hy]; [by apply cmp_gt_lt|].
    rewrite Forall_forall in Hx. by apply Hx.
Qed.

(** What an insertion means for lookups. *)
Lemma assoc_insert_entry k e es :
  StronglySorted entry_lt es ->
  assoc k (insert_entry e es) =
    match cmp k (key e) with Eq => Some (val e) | _ => assoc k es end.
Proof.
  induction 1 as [|x es Hs IH Hx]; cbn; [done|].
  destruct (cmp (key e) (key x)) eqn:Hc; cbn.
  - apply cmp_eq in Hc. rewrite Hc. by destruct (cmp k (key x)).
  - done.
  - rewrite IH. destruct (cmp k (key e)) eqn:Hk; [|done..].
    apply cmp_eq in Hk. subst k. by rewrite Hc.
Qed.

(** ** Heights *)

Fixpoint height t : nat :=
  match t with
  | Leaf => 0
  | Node _ l _ _ r => S (Nat.max (height l) (height r))
  end.

Lemma rbt_height t c n :
  rbt t c n -> (height t <= 2 * n + match c with Black => 1 | Red => 0 end)%nat.
Proof. induction 1; cbn; try destruct c; lia. Qed.

Lemma rbt_size t c n : rbt t c n -> (2 ^ n <= S (length (inorder t)))%nat.
Proof.
  induction 1; cbn; rewrite ?length_app; cbn; lia.
Qed.

Lemma height_plug ctx t : (length ctx + height t <= height (plug ctx t))%nat.
Proof.
  revert t. induction ctx as [|f ctx IH]; intros t; cbn; [done|].
  etrans; [|apply IH]. destruct f; cbn; lia.
Qed.

(** The number of rounds that is enough for every loop over the tree. *)
Definition rounds es : nat := 2 * Nat.log2 (S (length es)) + 2.

Lemma height_log t n : rbt t Red n -> (height t <= 2 * Nat.log2 (S (length (inorder t))))%nat.
Proof.
  intros Ht. apply rbt_height in Ht as Hh. apply rbt_size in Ht as Hs.
  assert (n <= Nat.log2 (S (length (inorder t))))%nat; [|lia].
  apply Nat.log2_le_pow2; lia.
Qed.

(** ** The representation invariant *)

(** Map [m] holds the entries [es]: a linked, sorted, balanced tree. *)
Definition rb_map m es : Prop :=
  exists t n,
    zip_ok (nil m) m t [] /\ (inorder t).*2 = es /\ StronglySorted entry_lt es /\
    rbt t Red n /\ Forall (fun p => p <> dangling) (nil m :: ptrs t).

Definition tree_sorted t : Prop := StronglySorted entry_lt (inorder t).*2.

(** ** Searching *)

Lemma sorted_node ctx c l p e r :
  tree_sorted (plug ctx (Node c l p e r)) ->
  Forall (fun x => entry_lt x.2 e) (inorder l) /\ Forall (fun x => entry_lt e x.2) (inorder r).
Proof.
  unfold tree_sorted. rewrite inorder_plug, !fmap_app. cbn. rewrite fmap_app. cbn.
  rewrite !StronglySorted_app, StronglySorted_cons. intros (_ & _ & _ & (Hl & _ & Hr & _) & _).
  split; apply Forall_forall; intros x Hx.
  - apply Hl; [by apply list_elem_of_fmap_2|set_solver].
  - rewrite Forall_forall in Hr. apply Hr. by apply list_elem_of_fmap_2.
Qed.

Lemma bounds_left k ctx c l p e r :
  bounds k ctx -> tree_sorted (plug ctx (Node c l p e r)) -> cmp k (key e) = Lt ->
  bounds k (InLeft c p e r :: ctx).
Proof.
  intros [Hb Ha] Hs Hk. apply sorted_node in Hs as [_ Hr]. split; cbn; [done|].
  constructor; [done|]. apply Forall_app. split; [|done].
  eapply Forall_impl; [exact Hr|]. intros x Hx. by eapply cmp_trans.
Qed.

Lemma bounds_right k ctx c l p e r :
  bounds k ctx -> tree_sorted (plug ctx (Node c l p e r)) -> cmp k (key e) = Gt ->
  bounds k (InRight c l p e :: ctx).
Proof.
  intros [Hb Ha] Hs Hk. apply cmp_gt_lt in Hk. apply sorted_node in Hs as [Hl _].
  split; cbn; [|done]. rewrite !Forall_app, Forall_singleton. split_conj; [done| |done].
  eapply Forall_impl; [exact Hl|]. intros x Hx. exact (cmp_trans _ _ _ Hx Hk).
Qed.

Lemma get_entry_ok nl m c l p e r ctx (Q : Entry -> RBTreeMap -> Prop) :
  zip_ok nl m (Node c l p e r) ctx -> Q e m -> wp (get_entry p) m Q.
Proof. intros H HQ. by eapply wp_get_entry; [by eapply zip_node| |]. Qed.

Lemma find_loop_ok fuel k nl m t ctx :
  (height t < fuel)%nat -> zip_ok nl m t ctx -> tree_sorted (plug ctx t) -> bounds k ctx ->
  wp (find_loop fuel k (ptr nl t)) m (fun res m' => m' = m /\
    match res with
    | Some x => exists ctx' c l e r, zip_ok nl m (Node c l x e r) ctx' /\ cmp k (key e) = Eq /\
        plug ctx' (Node c l x e r) = plug ctx t /\ bounds k ctx'
    | None => exists ctx', plug ctx' Leaf = plug ctx t /\ bounds k ctx'
    end).
Proof.
  revert t ctx. induction fuel as [|fuel IH]; intros t ctx Hf Hz Hs Hb; [lia|]. cbn [find_loop].
  apply wp_bind. eapply is_nil_ok; [done|].
  destruct t as [|c l p e r]; [apply wp_ret; eauto|]. cbn [height ptr] in *.
  apply wp_bind. eapply get_entry_ok; [done|].
  destruct (cmp k (key e)) eqn:Hk.
  - apply wp_ret. eauto 10.
  - apply wp_bind. eapply (wp_get left); [by eapply zip_node|]. cbn [left].
    eapply wp_mono; [apply (IH l (InLeft c p e r :: ctx)); [lia|by apply zip_left|done|]|done].
    by eapply bounds_left.
  - apply wp_bind. eapply (wp_get right); [by eapply zip_node|]. cbn [right].
    eapply wp_mono; [apply (IH r (InRight c l p e :: ctx)); [lia|by apply zip_right|done|]|done].
    by eapply bounds_right.
Qed.

Lemma insert_loop_ok fuel k nl m t ctx :
  (height t < fuel)%nat -> zip_ok nl m t ctx -> tree_sorted (plug ctx t) -> bounds k ctx ->
  wp (insert_loop fuel k (up nl ctx) (ptr nl t)) m (fun res m' => m' = m /\
    match res with
    | inl x => exists ctx' c l e r, zip_ok nl m (Node c l x e r) ctx' /\ cmp k (key e) = Eq /\
        plug ctx' (Node c l x e r) = plug ctx t /\ bounds k ctx'
    | inr y => exists ctx', zip_ok nl m Leaf ctx' /\ y = up nl ctx' /\
        plug ctx' Leaf = plug ctx t /\ bounds k ctx'
    end).
Proof.
  revert t ctx. induction fuel as [|fuel IH]; intros t ctx Hf Hz Hs Hb; [lia|]. cbn [insert_loop].
  apply wp_bind. eapply is_nil_ok; [done|].
  destruct t as [|c l p e r]; [apply wp_ret; eauto 10|]. cbn [height ptr] in *.
  apply wp_bind. eapply get_entry_ok; [done|].
  destruct (cmp k (key e)) eqn:Hk.
  - apply wp_ret. eauto 10.
  - apply wp_bind. eapply (wp_get left); [by eapply zip_node|]. cbn [left].
    eapply wp_mono; [apply (IH l (InLeft c p e r :: ctx)); [lia|by apply zip_left|done|]|done].
    by eapply bounds_left.
  - apply wp_bind. eapply (wp_get right); [by eapply zip_node|]. cbn [right].
    eapply wp_mono; [apply (IH r (InRight c l p e :: ctx)); [lia|by apply zip_right|done|]|done].
    by eapply bounds_right.
Qed.

(** ** Insertion *)

Lemma rbt_plug_cong ctx t t' c n :
  (forall c n, rbt t c n -> rbt t' c n) -> rbt (plug ctx t) c n -> rbt (plug ctx t') c n.
Proof.
  revert t t'. induction ctx as [|f ctx IH]; intros t t' Ht; cbn; [apply Ht|].
  apply IH. intros c' n' H. destruct f; inversion H; subst; constructor; auto.
Qed.

Lemma insert_fixup_ok fuel nl m pes k z :
  (k < fuel)%nat -> z <> nl -> pes <> [] -> fixing nl pes k z m ->
  wp (insert_fixup fuel z) m (fun _ m' =>
    exists t n, zip_ok nl m' t [] /\ inorder t = pes /\ rbt t Red n).
Proof.
  intros Hk Hz Hes Hfix. unfold insert_fixup. apply wp_bind, wp_gets. cbn [id].
  apply wp_bind, wp_assert.
  { destruct Hfix as (ctx & l & e & r & c & n & Hzip & _). rewrite (zip_nil _ _ _ _ Hzip).
    by rewrite (proj2 (Z.eqb_neq z nl)). }
  apply wp_bind. eapply wp_mono; [by eapply insert_fixup_loop_ok|].
  intros [] m' (t & n & Hzip & <- & Ht). apply wp_bind, wp_gets. cbn [id].
  destruct t as [|c l p e r]; [done|].
  pose proof (zip_ctx _ _ _ _ Hzip) as Hroot. cbn in Hroot. rewrite Hroot.
  eapply set_color_ok; [done|]. intros m'' Hzip'.
  inversion Ht; subst; eexists _, _; (split_conj; [exact Hzip'|done|]);
    constructor; eauto using rbt_weaken.
Qed.

(** The new node is in the tree; a node it replaced is outside, with its entry. *)
Definition inserted nl t (e : Entry) (z : Z) (res : option Z) m' : Prop :=
  exists t' n',
    zip_ok nl m' t' [] /\ (inorder t').*2 = insert_entry e (inorder t).*2 /\ rbt t' Red n' /\
    (forall p, p ∈ ptrs t' -> p = z \/ p ∈ ptrs t) /\
    match res with
    | None => assoc (key e) (inorder t).*2 = None
    | Some u => (u ∉ nl :: ptrs t') /\ exists n e', heap m' !! u = Some n /\
        value n = Some e' /\ assoc (key e) (inorder t).*2 = Some (val e')
    end.

Lemma bounds_entries k ctx :
  bounds k ctx ->
  Forall (fun e => cmp (key e) k = Lt) (before ctx).*2 /\
  Forall (fun e => cmp k (key e) = Lt) (after ctx).*2.
Proof. intros [Hb Ha]. by rewrite !Forall_fmap. Qed.

Lemma insert_replace_ok nl m ctx c l x e0 r z n0 n e :
  zip_ok nl m (Node c l x e0 r) ctx -> bounds (key e) ctx -> cmp (key e) (key e0) = Eq ->
  tree_sorted (plug ctx (Node c l x e0 r)) -> rbt (plug ctx (Node c l x e0 r)) Red n ->
  heap m !! z = Some n0 -> value n0 = Some e -> z ∉ nl :: ptrs (plug ctx (Node c l x e0 r)) ->
  wp (replace x z) m (fun _ => inserted nl (plug ctx (Node c l x e0 r)) e z (Some x)).
Proof.
  intros Hz Hb Hk Hs Ht Hn He Hout. eapply replace_ok; [done..|].
  intros m' n' Hz' Hx Hv. apply sorted_node in Hs as [Hl _].
  apply cmp_eq in Hk as Hkey. apply bounds_entries in Hb as [Hb Ha].
  assert (Forall (fun x => cmp (key x) (key e) = Lt) (inorder l).*2) as Hl'.
  { rewrite Forall_fmap. eapply Forall_impl; [exact Hl|]. intros y Hy. cbn. by rewrite Hkey. }
  exists (plug ctx (Node c l z e r)), n. split_conj.
  - by rewrite <-zip_root.
  - rewrite !inorder_plug. cbn. rewrite !fmap_app. cbn.
    rewrite <-!app_assoc, !insert_entry_before by done. cbn. by rewrite Hk.
  - eapply rbt_plug_cong; [|exact Ht]. intros ??; inversion 1; subst; by constructor.
  - intros p. rewrite !ptrs_plug, !ptrs_node. set_solver.
  - pose proof (zip_nodup _ _ _ _ Hz) as Hd. rewrite !ptrs_plug, !ptrs_node in *.
    rewrite NoDup_cons, !NoDup_app, NoDup_cons in Hd. set_solver.
  - exists n', e0. split_conj; [done..|]. rewrite !inorder_plug. cbn. rewrite !fmap_app. cbn.
    rewrite <-!app_assoc, !assoc_before by done. cbn. by rewrite Hk.
Qed.

Lemma insert_new_ok fuel nl m ctx z n0 n e :
  zip_ok nl m Leaf ctx -> bounds (key e) ctx -> rbt (plug ctx Leaf) Red n ->
  heap m !! z = Some n0 -> value n0 = Some e -> z ∉ nl :: ptrs (plug ctx Leaf) ->
  (length ctx < fuel)%nat ->
  wp (insert_below (key e) z (up nl ctx) nl;; insert_fixup fuel z;; mret None) m
    (inserted nl (plug ctx Leaf) e z).
Proof.
  intros Hz Hb Ht Hn He Hout Hf.
  apply wp_bind. eapply insert_below_ok; [done..|]. intros m' Hz'.
  assert (fixing nl (inorder (plug ctx (Node Red Leaf z e Leaf))) (length ctx) z m') as Hfix.
  { destruct ctx as [|f ctx].
    - exists [], Leaf, e, Leaf, Black, 0%nat. split_conj; try done; constructor.
    - apply rbctx_unplug in Ht as (c & k & Hc & Hk); [|done]. inversion Hk; subst.
      exists (f :: ctx), Leaf, e, Leaf, c, 0%nat. split_conj; try done; constructor. }
  apply wp_bind. eapply wp_mono; [eapply insert_fixup_ok; [done| | |done]|].
  - set_solver.
  - rewrite inorder_plug. cbn. destruct (before ctx); done.
  - intros ? m'' (t & k & Hzt & Hin & Hk). apply wp_ret. exists t, k.
    apply bounds_entries in Hb as [Hb Ha]. split_conj; [done| |done| |].
    + rewrite Hin, !inorder_plug. cbn. rewrite !fmap_app. cbn.
      by rewrite insert_entry_before, insert_entry_after by done.
    + intros p. unfold ptrs at 1. rewrite Hin, inorder_plug, ptrs_plug. cbn.
      rewrite fmap_app. cbn. set_solver.
    + rewrite inorder_plug. cbn. rewrite fmap_app, assoc_before by done. by apply assoc_after.
Qed.

Lemma insert_ok fuel nl m t z n0 n e :
  zip_ok nl m t [] -> tree_sorted t -> rbt t Red n ->
  heap m !! z = Some n0 -> value n0 = Some e -> z ∉ nl :: ptrs t ->
  (height t < fuel)%nat -> wp (insert fuel z) m (inserted nl t e z).
Proof.
  intros Hz Hs Ht Hn He Hout Hf. unfold insert. apply wp_bind, wp_gets. cbn [id].
  apply wp_bind. eapply wp_get_entry; [done|done|].
  rewrite (zip_nil _ _ _ _ Hz). pose proof (zip_ctx _ _ _ _ Hz) as Hroot. cbn in Hroot.
  rewrite Hroot. apply wp_bind.
  eapply wp_mono; [apply (insert_loop_ok fuel (key e) nl m t []); [done..|by split; constructor]|].
  intros [x|y] m' (-> & ctx & Hctx).
  - destruct Hctx as (c & l & e0 & r & Hz' & Hk & Hp & Hb). cbn [plug] in Hp. subst t.
    apply wp_bind. eapply wp_mono; [by eapply insert_replace_ok|]. intros [] m' H. exact H.
  - destruct Hctx as (Hz' & -> & Hp & Hb). cbn [plug] in Hp. subst t.
    pose proof (height_plug ctx Leaf) as Hh. eapply insert_new_ok; eauto. lia.
Qed.

Lemma rep_alloc h nl par t q : rep h nl par t -> q ∈ ptrs t -> is_Some (h !! q).
Proof.
  revert par. induction t as [|c l IHl p e r IHr]; intros par Hr Hq; [set_solver|].
  destruct Hr as (Hp & Hl & Hr). rewrite ptrs_node, elem_of_app, elem_of_cons in Hq.
  destruct Hq as [Hq|[->|Hq]]; eauto.
Qed.

Lemma zip_alloc nl m t a : zip_ok nl m t [] -> heap m !! a = None -> a ∉ nl :: ptrs t.
Proof.
  intros Hz Ha [->|Hin]%elem_of_cons.
  - destruct (zip_nil_node _ _ _ _ Hz) as (n & Hn & _). congruence.
  - eapply rep_alloc in Hin as [n Hn]; [|by apply (zip_tree _ _ _ _ Hz)]. congruence.
Qed.

Lemma zip_live nl m t :
  zip_ok nl m t [] -> Forall (fun p => p <> dangling) (nl :: ptrs t) ->
  is_dangling (root m) = false /\ is_dangling nl = false.
Proof.
  intros Hz Hnd. pose proof (zip_ctx _ _ _ _ Hz) as Hroot. cbn in Hroot. rewrite Hroot.
  unfold is_dangling. rewrite !Z.eqb_neq. rewrite Forall_forall in Hnd.
  split; apply Hnd; [destruct t; rewrite ?ptrs_node; cbn|]; set_solver.
Qed.

(** The node the insertion replaced is freed and its value returned. *)
Lemma unbox_ok nl m t u n e (Q : V -> RBTreeMap -> Prop) :
  zip_ok nl m t [] -> u ∉ nl :: ptrs t -> heap m !! u = Some n -> value n = Some e ->
  (forall m', zip_ok nl m' t [] -> Q (val e) m') -> wp (unbox_value u) m Q.
Proof.
  intros Hz Hu Hn He HQ. unfold unbox_value. apply wp_bind. eapply wp_get_entry; [done|done|].
  apply wp_bind, wp_modify, wp_ret, HQ. eapply zip_other; [done|].
  intros q Hq. apply lookup_delete_ne. set_solver.
Qed.

Lemma rb_map_insert fuel m es a e :
  rb_map m es -> heap m !! a = None -> a <> dangling -> (rounds es <= fuel)%nat ->
  wp (try_insert fuel (Some a) (key e) (val e)) m
    (fun old m' => rb_map m' (insert_entry e es) /\ old = assoc (key e) es).
Proof.
  intros (t & n & Hz & <- & Hs & Ht & Hnd) Ha Had Hf.
  assert (height t < fuel)%nat as Hh.
  { pose proof (height_log t n Ht). unfold rounds in Hf. rewrite length_fmap in Hf. lia. }
  pose proof (zip_alloc _ _ _ _ Hz Ha) as Hout.
  destruct e as [k v]. cbn [key val].
  unfold try_insert, new_detach. apply wp_bind, wp_bind, wp_modify, wp_ret.
  eapply zip_other in Hz as Hz1; [|intros q Hq; apply (lookup_insert_ne _ a); set_solver].
  apply wp_bind. unfold insert_raw. apply wp_bind, wp_gets. cbn [id root nil].
  destruct (zip_live _ _ _ Hz Hnd) as [Hlr Hln].
  apply wp_bind, wp_assert; [by rewrite Hlr|]. apply wp_bind, wp_assert; [by rewrite Hln|].
  eapply wp_mono; [eapply insert_ok; [exact Hz1|done|done|apply lookup_insert_eq|done|done|done]|].
  intros res m' (t' & n' & Hz' & Hin & Ht' & Hptr & Hres).
  assert (forall m'', zip_ok (nil m) m'' t' [] -> rb_map m'' (insert_entry (mkEntry k v) (inorder t).*2)) as Hfin.
  { intros m'' Hz''. exists t', n'. rewrite (zip_nil _ _ _ _ Hz'').
    split_conj; [done|done|by apply insert_entry_sorted|done|].
    apply Forall_cons in Hnd as [Hnil Hnd]. constructor; [done|].
    rewrite Forall_forall in *. intros p [->|Hp]%Hptr; auto. }
  destruct res as [u|].
  - destruct Hres as (Hu & nu & e' & Hnu & Hv & Has). apply wp_bind.
    eapply unbox_ok; [done..|]. intros m'' Hz''. apply wp_ret. eauto.
  - apply wp_ret. eauto.
Qed.

Lemma rb_map_find fuel m es k :
  rb_map m es -> (rounds es <= fuel)%nat ->
  wp (get fuel k) m (fun res m' => m' = m /\ res = assoc k es).
Proof.
  intros (t & n & Hz & <- & Hs & Ht & Hnd) Hf.
  assert (height t < fuel)%nat as Hh.
  { pose proof (height_log t n Ht). unfold rounds in Hf. rewrite length_fmap in Hf. lia. }
  unfold get, find. apply wp_bind, wp_bind, wp_gets. cbn [id].
  destruct (zip_live _ _ _ Hz Hnd) as [Hlr Hln]. rewrite Hlr, Hln. cbn [orb].
  rewrite (zip_ctx _ _ _ _ Hz).
  eapply wp_mono; [apply (find_loop_ok fuel k (nil m) m t []); [done..|by split; constructor]|].
  intros [x|] m' (-> & ctx & Hctx).
  - destruct Hctx as (c & l & e & r & Hz' & Hk & Hp & Hb). cbn [plug] in Hp. subst t.
    apply wp_bind.
    eapply get_entry_ok; [done|]. apply wp_ret. split; [done|].
    apply sorted_node in Hs as [Hl _]. apply cmp_eq in Hk as Hkey.
    apply bounds_entries in Hb as [Hb Ha].
    assert (Forall (fun x => cmp (key x) k = Lt) (inorder l).*2) as Hl'.
    { rewrite Forall_fmap. eapply Forall_impl; [exact Hl|]. intros y Hy. cbn. by rewrite Hkey. }
    rewrite inorder_plug. cbn. rewrite !fmap_app. cbn.
    rewrite <-!app_assoc, !assoc_before by done. cbn. by rewrite Hk.
  - destruct Hctx as (Hp & Hb). cbn [plug] in Hp. subst t. apply wp_ret. split; [done|].
    apply bounds_entries in Hb as [Hb Ha].
    rewrite inorder_plug. cbn. rewrite !fmap_app, assoc_before by done. by rewrite assoc_after.
Qed.

(** ** The contract of the map *)

Lemma rb_map_new a : a <> dangling -> wp (new (Some a)) const_new (fun _ m => rb_map m []).
Proof.
  intros Ha. unfold new, new_nil. apply wp_bind, wp_bind, wp_modify, wp_ret, wp_modify.
  exists Leaf, 0%nat. cbn. split_conj; [|done|constructor|constructor|by repeat constructor].
  split; cbn; [done| |by repeat constructor; set_solver|done|done].
  eexists. by rewrite lookup_insert_eq.
Qed.

(** C5: inserting into the red-black tree map is insertion into the sorted list
    of entries. From a linked, sorted and balanced tree with [es] as its
    entries, and memory for the new node, [try_insert] returns the value the
    key had before and leaves a linked, sorted and balanced tree whose entries
    are those of [es] with the key bound to the new value; every lookup sees
    exactly that. All its loops end within [2 log2(n+1) + 2] rounds. *)
Theorem rbtree_insert_refines fuel m es a k v :
  rb_map m es -> heap m !! a = None -> a <> dangling -> (rounds es <= fuel)%nat ->
  exists m' es',
    try_insert fuel (Some a) k v m = (Ok (assoc k es), m') /\ rb_map m' es' /\
    es' = insert_entry (mkEntry k v) es /\
    forall k', assoc k' es' = match cmp k' k with Eq => Some v | _ => assoc k' es end.
Proof.
  intros Hm Ha Had Hf.
  destruct (wp_run _ _ _ (rb_map_insert fuel m es a (mkEntry k v) Hm Ha Had Hf))
    as (old & m' & Hrun & Hm' & ->).
  exists m', (insert_entry (mkEntry k v) es). split_conj; [done..|].
  intros k'. apply (assoc_insert_entry k' (mkEntry k v)). by destruct Hm as (t & n & _ & _ & Hs & _).
Qed.

(** C6: looking a key up in the red-black tree map returns its value in the
    sorted list of entries, or nothing when there is none, without changing
    the map, within [2 log2(n+1) + 2] rounds of the search loop. *)
Theorem rbtree_get_refines fuel m es k :
  rb_map m es -> (rounds es <= fuel)%nat -> get fuel k m = (Ok (assoc k es), m).
Proof.
  intros Hm Hf. destruct (wp_run _ _ _ (rb_map_find fuel m es k Hm Hf)) as (res & m' & H & -> & ->).
  done.
Qed.

(** ** Paths, for the balance of a map as it is in memory *)

(** The number of black nodes on each path from node [p] down to NIL. *)
Fixpoint black_paths (fuel : nat) m (p : Z) : list nat :=
  match fuel, heap m !! p with
  | S fuel, Some n =>
      match value n with
      | None => [0%nat]
      | Some _ =>
          (fun b => match color n with Black => S b | Red => b end) <$>
            (black_paths fuel m (left n) ++ black_paths fuel m (right n))
      end
  | _, _ => []
  end.

End refine.

(** ** Runs of the map on integers *)

Module Runs.

Definition IMap : Type := RBTreeMap (K:=Z) (V:=Z).

(** Insert each key, at address [1000 + key]; remove each key. *)
Fixpoint inserts (ks : list Z) : RB (K:=Z) (V:=Z) unit :=
  match ks with
  | [] => mret tt
  | k :: ks => try_insert 40 (Some (1000 + k)) k (10 * k);; inserts ks
  end.

Fixpoint removes (ks : list Z) : RB (K:=Z) (V:=Z) (list (option Z)) :=
  match ks with
  | [] => mret []
  | k :: ks => v ← remove 40 k; vs ← removes ks; mret (v :: vs)
  end.

Definition empty : IMap := (new (Some 1) const_new).2.

Definition four : IMap := ((new (Some 1);; inserts [1; 2; 3; 4]) const_new).2.

Lemma empty_ok : rb_map empty [].
Proof.
  destruct (wp_run _ _ _ (rb_map_new (K:=Z) (V:=Z) 1 ltac:(done))) as (u & m & Hm & H).
  unfold empty. by rewrite Hm.
Qed.

Lemma rbtree_insert_refines_witness :
  exists m', try_insert 2 (Some 16) 7 70 empty = (Ok None, m') /\ rb_map m' [mkEntry 7 70].
Proof.
  destruct (rbtree_insert_refines 2 empty [] 16 7 70 empty_ok) as (m' & es' & H & Hm & -> & _);
    [reflexivity|discriminate|apply le_n|].
  exists m'. split; assumption.
Defined.

Definition one : IMap := (try_insert 2 (Some 16) 7 70 empty).2.

Lemma one_ok : rb_map one [mkEntry 7 70].
Proof.
  assert (heap empty !! 16 = None) as Ha by (vm_compute; reflexivity).
  pose proof (rb_map_insert 2 empty [] 16 (mkEntry 7 70) empty_ok Ha ltac:(discriminate)
    ltac:(apply le_n)) as Hw.
  apply wp_run in Hw as (u & m & Hm & H & _). cbn [key val] in Hm.
  unfold one. rewrite Hm. exact H.
Qed.

Lemma rbtree_get_refines_witness : get 4 7 one = (Ok (Some 70), one).
Proof. apply (rbtree_get_refines 4 one [mkEntry 7 70] 7 one_ok). apply le_n. Defined.

(** Removing a black leaf leaves the tree unbalanced. After inserting 1,
    2, 3 and 4, removing 4 and then 1 keeps the other entries, but the paths
    from the root no longer have the same number of black nodes:
    [delete_fixup] starts from NIL, whose parent [transplant] has not set, and
    does nothing. *)
Theorem rbtree_remove_unbalances :
  let m := (removes [4; 1] four).2 in
  (removes [4; 1] four).1 = Ok [Some 40; Some 10] /\
  (get 40 2 m).1 = Ok (Some 20) /\ (get 40 3 m).1 = Ok (Some 30) /\
  black_paths 40 four (root four) = [2; 2; 2; 2; 2]%nat /\
  black_paths 40 m (root m) = [1; 2; 2]%nat.
Proof. cbv zeta. split_conj; vm_compute; reflexivity. Qed.

Definition three : IMap := ((new (Some 1);; inserts [1; 2; 3]) const_new).2.

(** Removals reach freed memory. Removing 2 of 1, 2, 3 makes node 3 the
    parent of NIL; 3 is removed and its node freed; after inserting 5, 7 and 8
    and removing 8, the removal of 7 rebalances from NIL and reads the parent
    of NIL, which is no longer allocated. *)
Theorem rbtree_remove_use_after_free :
  let run := (removes [2; 3];; inserts [5; 7; 8];; removes [8]) three in
  run.1 = Ok [Some 80] /\
  option_map parent (heap run.2 !! nil run.2) = Some 1003 /\ heap run.2 !! 1003 = None /\
  (get 40 7 run.2).1 = Ok (Some 70) /\ (remove 40 7 run.2).1 = Panic.
Proof. cbv zeta. split_conj; vm_compute; reflexivity. Qed.

End Runs.
