(* ===== verification/Semaphore.v ===== *)
(** * The asynchronous semaphore (library/async_locks/src/semaphore.rs)

    [Semaphore] as a machine whose steps are the atomic operations of the
    code: a compare-exchange or swap of [permits], the sections under the lock
    of the queue cut at every access to an atomic that other threads change
    without that lock. Any number of agents (futures, guards, calls of
    [release]) run in any order. *)
From S2P Require Import Prelude.

(** [SemaphoreWaker::STATUS_*]. *)
Inductive Status : Type := WAITING | ACQUIRED | GIVEUP.

#[export] Instance Status_eq_dec : EqDecision Status.
Proof. solve_decision. Defined.

(** What an agent owns. A future that waits has put its [SemaphoreWaker] in
    the queue: the agent carries the status, its index names the waker. *)
Inductive Owner : Type :=
  | FutureNew (n : Z)                  (* SemaphoreAcquireFuture, not polled *)
  | FutureTried (n : Z)                (* in poll, try_acquire has failed *)
  | FutureWait (n : Z) (st : Status)   (* waker: Some, permits: n *)
  | FutureReady                        (* has returned its guard, permits: 0 *)
  | FutureDropped                      (* its waker has STATUS_GIVEUP *)
  | Guard (n : Z)                      (* SemaphoreGuard *)
  | Gone.

(** Where a call of [release] stands. *)
Inductive Release : Type :=
  | RStart (n : Z)    (* about to take the lock *)
  | RLoop             (* holds the lock, at the head of the loop *)
  | RCas (w : nat)    (* has popped waker w, about to compare-exchange *)
  | REnd.             (* the queue is empty *)

Record Agent : Type := mkAgent { owner : Owner; call : option Release }.

Record Semaphore : Type := mkSemaphore {
  permits : Z;
  pending : Z;                (* queue.0 *)
  waiters : list nat;         (* queue.1 *)
  lock : option nat;          (* who holds the lock of the queue *)
  agents : list Agent;
  supply : Z;                 (* permits brought in from outside, minus those forgotten *)
  woken : list nat;           (* the futures whose tasks have been woken *)
}.

Definition new (n : Z) : Semaphore := mkSemaphore n 0 [] None [] n [].

Inductive Result : Type :=
  | Disabled
  | Panicked
  | Step (s : Semaphore).

(** The operations of the interface, and [Run i]: the next atomic step of the
    call of [release] agent [i] is in. *)
Inductive Action : Type :=
  | Acquire (n : Z)
  | TryAcquire (n : Z)
  | Poll (i : nat)
  | PollAgain (i : nat)
  | Enqueue (i : nat)
  | Drop (i : nat)
  | ReleasePart (i : nat) (n : Z)
  | Forget (i : nat)
  | ReleaseCall (n : Z)
  | Run (i : nat).

(** ** Updates *)

Definition set_agent (i : nat) (a : Agent) (s : Semaphore) : Semaphore :=
  mkSemaphore (permits s) (pending s) (waiters s) (lock s) (<[i := a]> (agents s)) (supply s) (woken s).
Definition add_agent (a : Agent) (s : Semaphore) : Semaphore :=
  mkSemaphore (permits s) (pending s) (waiters s) (lock s) (agents s ++ [a]) (supply s) (woken s).
Definition set_permits (n : Z) (s : Semaphore) : Semaphore :=
  mkSemaphore n (pending s) (waiters s) (lock s) (agents s) (supply s) (woken s).
Definition set_queue (n : Z) (ws : list nat) (s : Semaphore) : Semaphore :=
  mkSemaphore (permits s) n ws (lock s) (agents s) (supply s) (woken s).
Definition set_lock (l : option nat) (s : Semaphore) : Semaphore :=
  mkSemaphore (permits s) (pending s) (waiters s) l (agents s) (supply s) (woken s).
Definition add_supply (n : Z) (s : Semaphore) : Semaphore :=
  mkSemaphore (permits s) (pending s) (waiters s) (lock s) (agents s) (supply s + n) (woken s).
Definition wake_by_ref (w : nat) (s : Semaphore) : Semaphore :=
  mkSemaphore (permits s) (pending s) (waiters s) (lock s) (agents s) (supply s) (w :: woken s).

Definition idle (o : Owner) : Agent := mkAgent o None.

(** The status of the waker of agent [w], and the permits it waits for. *)
Definition status (s : Semaphore) (w : nat) : option Status :=
  match owner <$> agents s !! w with
  | Some (FutureWait _ st) => Some st
  | Some FutureReady => Some ACQUIRED
  | Some FutureDropped => Some GIVEUP
  | _ => None
  end.

Definition wanted (s : Semaphore) (w : nat) : Z :=
  match owner <$> agents s !! w with
  | Some (FutureWait n _) => n
  | _ => 0
  end.

(** ** Operations *)

(** [try_acquire]: the compare-exchange that succeeds, or the load that sees
    too few permits. *)
Definition try_acquire (n : Z) (s : Semaphore) : option Semaphore :=
  if permits s <? n then None else Some (set_permits (permits s - n) s).

Definition poll (i : nat) (a : Agent) (s : Semaphore) : Result :=
  match a with
  | mkAgent (FutureNew n) None =>
      match try_acquire n s with
      | Some s => Step (add_agent (idle (Guard n)) (set_agent i (idle Gone) s))
      | None => Step (set_agent i (idle (FutureTried n)) s)
      end
  | mkAgent (FutureWait n st) None =>
      if decide (st = ACQUIRED)
      then Step (add_agent (idle (Guard n)) (set_agent i (idle FutureReady) s))
      else Step s
  | _ => Disabled
  end.

(** Polling a future that has returned its guard. *)
Definition poll_again (a : Agent) (s : Semaphore) : Result :=
  match a with
  | mkAgent FutureReady None => Step (add_agent (idle (Guard 0)) s)
  | _ => Disabled
  end.

(** [queue], then the call of [release(0)] at the end of [poll]. *)
Definition enqueue (i : nat) (a : Agent) (s : Semaphore) : Result :=
  match a, lock s with
  | mkAgent (FutureTried n) None, None =>
      if usize_max <? pending s + permits s then Panicked
      else
        Step (set_agent i (mkAgent (FutureWait n WAITING) (Some (RStart 0)))
          (set_queue (pending s + permits s) (waiters s ++ [i]) (set_permits 0 s)))
  | _, _ => Disabled
  end.

Definition drop_agent (i : nat) (a : Agent) (s : Semaphore) : Result :=
  match a with
  | mkAgent (FutureNew _) None => Step (set_agent i (idle Gone) s)
  | mkAgent (FutureWait n st) None =>
      let k := if decide (st = ACQUIRED) then n else 0 in
      Step (set_agent i (mkAgent FutureDropped (Some (RStart k))) s)
  | mkAgent FutureReady None => Step (set_agent i (mkAgent FutureDropped (Some (RStart 0))) s)
  | mkAgent (Guard n) None => Step (set_agent i (mkAgent Gone (Some (RStart n))) s)
  | _ => Disabled
  end.

(** [release_part]; the field is only seen by the holder of the guard, and is
    lowered before the call here. *)
Definition release_part (i : nat) (k : Z) (a : Agent) (s : Semaphore) : Result :=
  match a with
  | mkAgent (Guard n) None =>
      if n <? k then Panicked
      else Step (set_agent i (mkAgent (Guard (n - k)) (Some (RStart k))) s)
  | _ => Disabled
  end.

(** [core::mem::forget] of a guard. *)
Definition forget (i : nat) (a : Agent) (s : Semaphore) : Result :=
  match a with
  | mkAgent (Guard n) None => Step (add_supply (- n) (set_agent i (idle Gone) s))
  | _ => Disabled
  end.

(** One atomic step of [release]. The wake comes with the exchange before it: a
    poll between them finds the permits as well. *)
Definition release (i : nat) (a : Agent) (s : Semaphore) : Result :=
  let at_ (c : option Release) (s : Semaphore) := set_agent i (mkAgent (owner a) c) s in
  match call a with
  | None => Disabled
  | Some (RStart n) =>
      match lock s with
      | Some _ => Disabled
      | None =>
          if usize_max <? pending s + n then Panicked
          else Step (at_ (Some RLoop)
            (set_lock (Some i) (set_queue (pending s + n) (waiters s) s)))
      end
  | Some RLoop =>
      match waiters s with
      | [] => Step (at_ (Some REnd) s)
      | w :: ws =>
          if decide (status s w = Some GIVEUP) then Step (set_queue (pending s) ws s)
          else if pending s <? wanted s w then Step (at_ None (set_lock None s))
          else Step (at_ (Some (RCas w)) (set_queue (pending s) ws s))
      end
  | Some (RCas w) =>
      if decide (status s w = Some WAITING) then
        let n := wanted s w in
        let s := wake_by_ref w (at_ (Some RLoop) (set_queue (pending s - n) (waiters s) s)) in
        match agents s !! w with
        | Some b => Step (set_agent w (mkAgent (FutureWait n ACQUIRED) (call b)) s)
        | None => Disabled
        end
      else Step (at_ None (set_lock None (set_queue (pending s) (w :: waiters s) s)))
  | Some REnd =>
      Step (at_ None (set_lock None
        (set_queue 0 (waiters s) (set_permits ((permits s + pending s) mod 2 ^ 64) s))))
  end.

Definition with_agent (i : nat) (s : Semaphore) (f : Agent -> Semaphore -> Result) : Result :=
  match agents s !! i with
  | Some a => f a s
  | None => Disabled
  end.

Definition exec (act : Action) (s : Semaphore) : Result :=
  match act with
  | Acquire n => Step (add_agent (idle (FutureNew n)) s)
  | TryAcquire n =>
      match try_acquire n s with
      | Some s => Step (add_agent (idle (Guard n)) s)
      | None => Step s
      end
  | Poll i => with_agent i s (poll i)
  | PollAgain i => with_agent i s poll_again
  | Enqueue i => with_agent i s (enqueue i)
  | Drop i => with_agent i s (drop_agent i)
  | ReleasePart i k => with_agent i s (release_part i k)
  | Forget i => with_agent i s (forget i)
  | ReleaseCall n => Step (add_supply n (add_agent (mkAgent Gone (Some (RStart n))) s))
  | Run i => with_agent i s (release i)
  end.

(** ** Runs *)

(** Arguments the type [usize] has; what callers bring in stays below its
    maximum, and a future that has returned its guard is not polled again. *)
Definition valid (act : Action) (s : Semaphore) : Prop :=
  match act with
  | Acquire n | TryAcquire n => 0 <= n <= usize_max
  | ReleasePart _ n => 0 <= n <= usize_max
  | ReleaseCall n => 0 <= n /\ supply s + n <= usize_max
  | PollAgain _ => False
  | _ => True
  end.

Inductive reachable (n : Z) : Semaphore -> Prop :=
  | reachable_new : reachable n (new n)
  | reachable_step act s s' :
      reachable n s -> valid act s -> exec act s = Step s' -> reachable n s'.

(** Run a list of actions; [None] when one of them is disabled or panics. *)
Fixpoint run (acts : list Action) (s : Semaphore) : option Semaphore :=
  match acts with
  | [] => Some s
  | act :: acts =>
      match exec act s with
      | Step s' => run acts s'
      | _ => None
      end
  end.
