(* ===== verification/SemaphoreSpec.v ===== *)
(** * Correctness of the asynchronous semaphore

    The invariant of the machine of [Semaphore.v] and what it gives: permits
    are neither lost nor made up, waiting futures leave the queue from its
    front, and no future is left waiting that could be served. *)
From S2P Require Import Prelude Semaphore.

(** ** The invariant *)

Definition owner_of (s : Semaphore) (i : nat) : option Owner := owner <$> agents s !! i.
Definition call_of (s : Semaphore) (i : nat) : option Release := agents s !! i ≫= call.

(** The permits an agent accounts for. *)
Definition owned (o : Owner) : Z :=
  match o with
  | Guard n => n
  | FutureWait n ACQUIRED => n
  | _ => 0
  end.
Definition carried (c : option Release) : Z := match c with Some (RStart n) => n | _ => 0 end.
Definition share (a : Agent) : Z := owned (owner a) + carried (call a).

Definition in_section (c : option Release) : bool :=
  match c with Some RLoop | Some (RCas _) | Some REnd => true | _ => false end.

(** The waker the lock holder has taken off the queue. *)
Definition popped (s : Semaphore) : list nat :=
  match lock s with
  | Some i => match call_of s i with Some (RCas w) => [w] | _ => [] end
  | None => []
  end.

Definition starting (s : Semaphore) : Prop := exists j n, call_of s j = Some (RStart n).

Definition sizes_ok (a : Agent) : Prop :=
  match owner a with
  | FutureNew n | FutureTried n | FutureWait n _ | Guard n => 0 <= n
  | _ => True
  end /\ 0 <= carried (call a).

Record inv (s : Semaphore) : Prop := {
  inv_permits : 0 <= permits s;
  inv_pending : 0 <= pending s;
  inv_sizes : Forall sizes_ok (agents s);
  inv_supply : supply s <= usize_max;
  inv_total : permits s + pending s + zsum share (agents s) = supply s;
  inv_lock i : in_section (call_of s i) = true <-> lock s = Some i;
  inv_nodup : NoDup (popped s ++ waiters s);
  inv_status w : w ∈ popped s ++ waiters s -> status s w = Some WAITING \/ status s w = Some GIVEUP;
  inv_queued w n : owner_of s w = Some (FutureWait n WAITING) -> w ∈ popped s ++ waiters s;
  inv_zero : popped s ++ waiters s <> [] -> permits s = 0;
  inv_end i : call_of s i = Some REnd -> waiters s = [];
  inv_cas i w : call_of s i = Some (RCas w) ->
    (status s w = Some WAITING /\ wanted s w <= pending s) \/ (status s w = Some GIVEUP /\ starting s);
  inv_blocked w ws : lock s = None -> waiters s = w :: ws ->
    (status s w = Some WAITING /\ pending s < wanted s w) \/ starting s;
}.

Lemma share_nonneg a : sizes_ok a -> 0 <= share a.
Proof.
  intros [Ho Hc]. unfold share. destruct a as [[| |? []| | | |] c]; cbn in *; lia.
Qed.

Lemma new_inv n : 0 <= n <= usize_max -> inv (new n).
Proof.
  intros Hn. split; cbn; try done; try (unfold zsum; cbn; lia); try set_solver. constructor.
Qed.

(** ** Lookups after updates *)

Lemma owner_of_set s i a b j :
  agents s !! i = Some b ->
  owner_of (set_agent i a s) j = if decide (j = i) then Some (owner a) else owner_of s j.
Proof.
  intros Hi. unfold owner_of, set_agent. cbn. case_decide.
  - subst. rewrite list_lookup_insert_eq; [done|]. by eapply lookup_lt_Some.
  - by rewrite list_lookup_insert_ne.
Qed.

Lemma call_of_set s i a b j :
  agents s !! i = Some b ->
  call_of (set_agent i a s) j = if decide (j = i) then call a else call_of s j.
Proof.
  intros Hi. unfold call_of, set_agent. cbn. case_decide.
  - subst. rewrite list_lookup_insert_eq; [done|]. by eapply lookup_lt_Some.
  - by rewrite list_lookup_insert_ne.
Qed.

Lemma owner_of_add s a j :
  owner_of (add_agent a s) j = if decide (j = length (agents s)) then Some (owner a) else owner_of s j.
Proof.
  unfold owner_of, add_agent. cbn. case_decide.
  - subst. by rewrite lookup_app_r, Nat.sub_diag by lia.
  - destruct (decide (j < length (agents s))%nat); [by rewrite lookup_app_l|].
    rewrite !lookup_ge_None_2; [done| |]; rewrite ?length_app; cbn; lia.
Qed.

Lemma call_of_add s a j :
  call_of (add_agent a s) j = if decide (j = length (agents s)) then call a else call_of s j.
Proof.
  unfold call_of, add_agent. cbn. case_decide.
  - subst. by rewrite lookup_app_r, Nat.sub_diag by lia.
  - destruct (decide (j < length (agents s))%nat); [by rewrite lookup_app_l|].
    rewrite !lookup_ge_None_2; [done| |]; rewrite ?length_app; cbn; lia.
Qed.

Lemma owner_of_new s : owner_of s (length (agents s)) = None.
Proof. unfold owner_of. by rewrite lookup_ge_None_2. Qed.

Lemma call_of_new s : call_of s (length (agents s)) = None.
Proof. unfold call_of. by rewrite lookup_ge_None_2. Qed.

Lemma status_owner s w :
  status s w =
    match owner_of s w with
    | Some (FutureWait _ st) => Some st
    | Some FutureReady => Some ACQUIRED
    | Some FutureDropped => Some GIVEUP
    | _ => None
    end.
Proof. done. Qed.

Lemma wanted_owner s w :
  wanted s w = match owner_of s w with Some (FutureWait n _) => n | _ => 0 end.
Proof. done. Qed.

(** ** Steps outside the section of the lock

    Only the permits in hand shrink; a waker in the queue keeps its status or
    gives up while its owner is about to call [release]. *)
Lemma inv_quiet s s' :
  inv s -> 0 <= permits s' <= permits s ->
  pending s' = pending s -> waiters s' = waiters s -> lock s' = lock s ->
  Forall sizes_ok (agents s') -> supply s' <= usize_max ->
  permits s' + pending s' + zsum share (agents s') = supply s' ->
  (forall j, call_of s' j = call_of s j \/
     (in_section (call_of s' j) = false /\ in_section (call_of s j) = false)) ->
  (starting s -> starting s') ->
  (forall w, w ∈ popped s ++ waiters s ->
     (status s' w = status s w /\ wanted s' w = wanted s w) \/
     (status s' w = Some GIVEUP /\ starting s')) ->
  (forall w n, owner_of s' w = Some (FutureWait n WAITING) ->
     owner_of s w = Some (FutureWait n WAITING)) ->
  inv s'.
Proof.
  intros I Hp Hpe Hw Hl Hsz Hsup Htot Hcall Hst Hstat Hwait.
  assert (Hsec : forall j, in_section (call_of s' j) = in_section (call_of s j)).
  { intros j. destruct (Hcall j) as [->|[-> ->]]; done. }
  assert (Hin : forall j c, in_section (Some c) = true ->
    call_of s' j = Some c <-> call_of s j = Some c).
  { intros j c Hc. destruct (Hcall j) as [->|[H1 H2]]; [done|].
    split; intros H; rewrite H in *; congruence. }
  assert (popped s' = popped s) as Hpop.
  { unfold popped. rewrite Hl. destruct (lock s) as [i|] eqn:Hi; [|done].
    apply (inv_lock s I) in Hi. destruct (Hcall i) as [->|[_ H]]; [done|congruence]. }
  split; rewrite ?Hpop, ?Hw, ?Hpe, ?Hl; try apply I; try done.
  - lia.
  - lia.
  - intros i. rewrite Hsec. apply I.
  - intros w Hin'. destruct (Hstat w Hin') as [[-> _]|[-> _]]; [by apply I|by right].
  - intros w n H. eapply (inv_queued s I). by apply Hwait.
  - intros Hne. pose proof (inv_zero s I Hne). lia.
  - intros i Hc. apply (inv_end s I i). by apply Hin.
  - intros i w Hc. apply Hin in Hc; [|done].
    assert (w ∈ popped s) as Hw'.
    { assert (lock s = Some i) as Hli by (apply (inv_lock s I); by rewrite Hc).
      unfold popped. rewrite Hli, Hc. set_solver. }
    destruct (Hstat w ltac:(set_solver)) as [[-> ->]|[-> ?]]; [|naive_solver].
    destruct (inv_cas s I i w Hc) as [?|[? ?]]; naive_solver.
  - intros w ws Hn Hws.
    assert (w ∈ popped s ++ waiters s) as Hin' by (rewrite Hws, elem_of_app; right; left).
    destruct (Hstat w Hin') as [[-> ->]|[-> ?]]; [|by right].
    destruct (inv_blocked s I w ws Hn Hws) as [?|?]; [by left|right; auto].
Qed.

Lemma sizes_of s i a : inv s -> agents s !! i = Some a -> sizes_ok a.
Proof. intros I Hi. eapply Forall_lookup_1; [apply I|done]. Qed.

Lemma sizes_set s i a : inv s -> sizes_ok a -> Forall sizes_ok (agents (set_agent i a s)).
Proof. intros I Ha. apply Forall_insert; [apply I|done]. Qed.

Lemma sizes_add s a : Forall sizes_ok (agents s) -> sizes_ok a -> Forall sizes_ok (agents (add_agent a s)).
Proof. intros Hs Ha. apply Forall_app. split; [done|]. by constructor. Qed.

Lemma owner_of_agent s i a : agents s !! i = Some a -> owner_of s i = Some (owner a).
Proof. intros Hi. unfold owner_of. by rewrite Hi. Qed.

Lemma call_of_agent s i a : agents s !! i = Some a -> call_of s i = call a.
Proof. intros Hi. unfold call_of. by rewrite Hi. Qed.

(** Owners whose waker, if they have one, is not in the queue. *)
Definition unqueued (o : Owner) : bool :=
  match o with FutureWait _ WAITING | FutureWait _ GIVEUP | FutureDropped => false | _ => true end.

(** An agent that is not a waiting future is not in the queue. *)
Lemma inv_not_queued s w o :
  inv s -> owner_of s w = Some o ->
  unqueued o = true ->
  w ∉ popped s ++ waiters s.
Proof.
  intros I Ho Hn Hin. apply (inv_status s I) in Hin. rewrite status_owner, Ho in Hin.
  destruct o as [| |? []| | | |]; cbn in Hn; try done; by destruct Hin.
Qed.

(** A step that changes one agent, not in a call, and adds others, not in a
    call either, and leaves the queue alone. *)
Lemma inv_owner s s' i a o extra d sup :
  inv s -> agents s !! i = Some a -> call a = None ->
  unqueued (owner a) = true ->
  match o with FutureWait _ _ | FutureDropped => False | _ => True end ->
  sizes_ok (idle o) -> Forall (fun e => sizes_ok (idle e)) extra ->
  Forall (fun e => match e with FutureWait _ _ | FutureReady | FutureDropped => False | _ => True end) extra ->
  0 <= d <= permits s ->
  s' = mkSemaphore (permits s - d) (pending s) (waiters s) (lock s)
         (<[i := idle o]> (agents s) ++ (idle <$> extra)) sup (woken s) ->
  owned o + zsum owned extra = owned (owner a) + d + (sup - supply s) -> sup <= usize_max ->
  inv s'.
Proof.
  intros I Hi Hc Ha Ho Hso Hse He Hd -> Hown Hsup.
  set (s1 := mkSemaphore _ _ _ _ _ _ _).
  assert (Hcall : forall j, call_of s1 j = call_of s j).
  { intros j. unfold call_of, s1. cbn. destruct (decide (j < length (agents s))%nat) as [Hj|Hj].
    - rewrite lookup_app_l by (by rewrite length_insert). destruct (decide (j = i)) as [->|].
      + by rewrite list_lookup_insert_eq, Hi.
      + by rewrite list_lookup_insert_ne.
    - rewrite (lookup_ge_None_2 (agents s)) by lia. rewrite lookup_app_r by (rewrite length_insert; lia).
      rewrite list_lookup_fmap. by destruct (extra !! _). }
  assert (Howner : forall j, j <> i -> (j < length (agents s))%nat -> owner_of s1 j = owner_of s j).
  { intros j Hj Hlt. unfold owner_of, s1. cbn.
    by rewrite lookup_app_l, list_lookup_insert_ne by (rewrite ?length_insert; done). }
  assert (Hi' : owner_of s1 i = Some o).
  { unfold owner_of, s1. cbn. apply lookup_lt_Some in Hi as Hlt.
    rewrite lookup_app_l by (by rewrite length_insert). by rewrite list_lookup_insert_eq. }
  eapply (inv_quiet s); [done|..]; cbn; try done; try lia; try apply I.
  - apply Forall_app. split; [apply Forall_insert; [apply I|done]|by apply Forall_fmap].
  - rewrite zsum_app, (zsum_insert _ _ _ a) by done.
    assert (zsum share (idle <$> extra) = zsum owned extra) as ->.
    { clear. induction extra as [|x l IH]; [done|]. cbn. rewrite !zsum_cons, IH. unfold share. cbn. lia. }
    assert (share a = owned (owner a)) by (unfold share; rewrite Hc; cbn; lia).
    assert (share (idle o) = owned o) by (unfold share; cbn; lia).
    pose proof (inv_total s I). lia.
  - intros j. left. by rewrite Hcall.
  - intros (j & k & Hj). exists j, k. by rewrite Hcall.
  - intros w Hw. left. assert (w <> i) as Hne.
    { intros ->. eapply (inv_not_queued s i (owner a)); [done|by apply owner_of_agent|done|done]. }
    rewrite !status_owner, !wanted_owner, Howner; [done|done|].
    destruct (inv_status s I w Hw) as [H|H]; rewrite status_owner in H; unfold owner_of in H;
      destruct (agents s !! w) eqn:E; try done; by eapply lookup_lt_Some.
  - intros w n Hw. destruct (decide (w = i)) as [->|Hne].
    { rewrite Hi' in Hw. by simplify_eq. }
    destruct (decide (w < length (agents s))%nat); [by rewrite Howner in Hw|].
    unfold owner_of, s1 in Hw. cbn in Hw.
    rewrite lookup_app_r, list_lookup_fmap in Hw by (rewrite length_insert; lia).
    destruct (extra !! _) as [e|] eqn:Hex; [|done]. cbn in Hw. simplify_eq.
    by apply (Forall_lookup_1 _ _ _ _ He) in Hex.
Qed.

(** A step that starts a call of [release] with permits the agent had. *)
Lemma inv_start s i a o k :
  inv s -> agents s !! i = Some a -> call a = None ->
  match o with
  | FutureDropped => True
  | Gone | Guard _ => unqueued (owner a) = true
  | _ => False
  end ->
  sizes_ok (mkAgent o (Some (RStart k))) -> owned o + k = owned (owner a) ->
  inv (set_agent i (mkAgent o (Some (RStart k))) s).
Proof.
  intros I Hi Hc Ho Hs Hown. set (s1 := set_agent _ _ _).
  assert (Hst : starting s1).
  { exists i, k. unfold s1. rewrite (call_of_set _ _ _ a) by done. by rewrite decide_True. }
  eapply (inv_quiet s); [done|..]; cbn; try done; try lia; try apply I.
  - pose proof (inv_permits s I). lia.
  - by apply (sizes_set s i).
  - rewrite (zsum_insert _ _ _ a) by done.
    assert (share a = owned (owner a)) by (unfold share; rewrite Hc; cbn; lia).
    assert (share (mkAgent o (Some (RStart k))) = owned o + k) by done.
    pose proof (inv_total s I). lia.
  - intros j. unfold s1. rewrite (call_of_set _ _ _ a) by done. case_decide; [right|by left].
    subst. by rewrite (call_of_agent _ _ _ Hi), Hc.
  - intros w Hw. rewrite !status_owner, !wanted_owner. unfold s1.
    rewrite (owner_of_set _ _ _ a) by done. case_decide; [|by left]. subst w. right.
    destruct o; cbn in *; try done;
      by destruct (inv_not_queued s i (owner a) I (owner_of_agent _ _ _ Hi) Ho Hw).
  - intros w n. unfold s1. rewrite (owner_of_set _ _ _ a) by done. case_decide; [|done].
    destruct o; naive_solver.
Qed.

Lemma inv_release_call s n :
  inv s -> 0 <= n -> supply s + n <= usize_max ->
  inv (add_supply n (add_agent (mkAgent Gone (Some (RStart n))) s)).
Proof.
  intros I Hn Hsup. set (s1 := add_supply _ _).
  assert (Hcall : forall j, call_of s1 j = if decide (j = length (agents s)) then Some (RStart n)
                            else call_of s j) by apply (call_of_add s).
  assert (Howner : forall j, owner_of s1 j = if decide (j = length (agents s)) then Some Gone
                             else owner_of s j) by apply (owner_of_add s).
  eapply (inv_quiet s); [done|..]; cbn; try done; try lia; try apply I.
  - pose proof (inv_permits s I). lia.
  - apply sizes_add; [apply I|]. by split.
  - rewrite zsum_app, zsum_cons.
    assert (share (mkAgent Gone (Some (RStart n))) = n) as -> by done.
    assert (zsum share [] = 0) as -> by done. pose proof (inv_total s I). lia.
  - intros j. rewrite Hcall. case_decide; [right; subst; by rewrite call_of_new|by left].
  - intros (j & k & Hj). exists j, k. rewrite Hcall. case_decide; [subst|done].
    by rewrite call_of_new in Hj.
  - intros w Hw. left. rewrite !status_owner, !wanted_owner, Howner. case_decide; [subst|done].
    apply (inv_status s I) in Hw. rewrite status_owner, owner_of_new in Hw. by destruct Hw.
  - intros w k. rewrite Howner. by case_decide.
Qed.

(** ** Steps under the lock of the queue *)

Lemma inv_section_unique s i j :
  inv s -> in_section (call_of s i) = true -> in_section (call_of s j) = true -> i = j.
Proof.
  intros I Hi Hj. apply (inv_lock s I) in Hi, Hj. congruence.
Qed.

Lemma inv_enqueue s i n :
  inv s -> agents s !! i = Some (idle (FutureTried n)) -> lock s = None ->
  inv (set_agent i (mkAgent (FutureWait n WAITING) (Some (RStart 0)))
    (set_queue (pending s + permits s) (waiters s ++ [i]) (set_permits 0 s))).
Proof.
  intros I Hi Hl. set (s1 := set_agent _ _ _).
  assert (Hcall : forall j, call_of s1 j = if decide (j = i) then Some (RStart 0) else call_of s j)
    by (intros j; unfold s1; by rewrite (call_of_set _ _ _ (idle (FutureTried n))) by done).
  assert (Howner : forall j, owner_of s1 j = if decide (j = i) then Some (FutureWait n WAITING)
      else owner_of s j) by (intros j; unfold s1; by rewrite (owner_of_set _ _ _ (idle (FutureTried n))) by done).
  assert (Hout : i ∉ popped s ++ waiters s).
  { by apply (inv_not_queued s i (FutureTried n) I); [apply (owner_of_agent _ _ _ Hi)|]. }
  assert (popped s = []) as Hp0 by (unfold popped; by rewrite Hl).
  assert (popped s1 = []) as Hp1 by (unfold popped; cbn; by rewrite Hl).
  pose proof (inv_permits s I). pose proof (inv_pending s I).
  pose proof (sizes_of s i _ I Hi) as [Hn _]. cbn in Hn.
  rewrite Hp0 in Hout. cbn in Hout.
  split; rewrite ?Hp1; cbn.
  - lia.
  - lia.
  - apply (sizes_set s i); [done|by split].
  - apply I.
  - rewrite (zsum_insert _ _ _ (idle (FutureTried n))) by done.
    assert (share (idle (FutureTried n)) = 0) as -> by done.
    assert (share (mkAgent (FutureWait n WAITING) (Some (RStart 0))) = 0) as -> by done.
    pose proof (inv_total s I). lia.
  - intros j. rewrite Hcall. case_decide; [|apply I]. subst. cbn. by rewrite Hl.
  - apply NoDup_app. split_conj; [|set_solver|apply NoDup_singleton].
    pose proof (inv_nodup s I) as Hd. by rewrite Hp0 in Hd.
  - intros w Hw. rewrite status_owner, Howner. case_decide; [by left|].
    apply (inv_status s I). rewrite Hp0. set_solver.
  - intros w k. rewrite Howner. case_decide; [set_solver|]. intros Hk.
    apply (inv_queued s I) in Hk. rewrite Hp0 in Hk. set_solver.
  - done.
  - intros j. rewrite Hcall. case_decide; [done|]. intros Hj.
    assert (lock s = Some j) by (apply (inv_lock s I); by rewrite Hj). congruence.
  - intros j w. rewrite Hcall. case_decide; [done|]. intros Hj.
    assert (lock s = Some j) by (apply (inv_lock s I); by rewrite Hj). congruence.
  - intros w ws _ _. right. exists i, 0. rewrite Hcall. by rewrite decide_True.
Qed.

Definition taken (c : option Release) : list nat :=
  match c with Some (RCas w) => [w] | _ => [] end.

(** A step of the call of [release] of agent [i], which holds the lock or
    takes it: the permits in hand and the queue change, no owner does. *)
Lemma inv_section s i a c p q ws l wk :
  inv s -> l = (if in_section c then Some i else None) -> agents s !! i = Some a -> (lock s = Some i \/ lock s = None) ->
  0 <= p -> 0 <= q -> carried c = 0 -> p + q = permits s + pending s + carried (call a) ->
  NoDup (taken c ++ ws) -> (forall w, w ∈ taken c ++ ws -> w ∈ popped s ++ waiters s) ->
  (forall w, w ∈ popped s ++ waiters s -> status s w = Some WAITING -> w ∈ taken c ++ ws) ->
  (taken c ++ ws <> [] -> p = 0) -> (c = Some REnd -> ws = []) ->
  (forall w, c = Some (RCas w) -> status s w = Some WAITING /\ wanted s w <= q) ->
  (in_section c = false -> forall w ws', ws = w :: ws' ->
     (status s w = Some WAITING /\ q < wanted s w) \/
     exists j n, j <> i /\ call_of s j = Some (RStart n)) ->
  inv (mkSemaphore p q ws l (<[i := mkAgent (owner a) c]> (agents s)) (supply s) wk).
Proof.
  intros I -> Hi Hl Hp Hq Hcar Hsum Hnd Hsub Hsup Hzero Hend Hcas Hbl. set (s1 := mkSemaphore _ _ _ _ _ _ _).
  assert (Hcall : forall j, call_of s1 j = if decide (j = i) then c else call_of s j).
  { intros j. exact (call_of_set s i (mkAgent (owner a) c) a j Hi). }
  assert (Howner : forall j, owner_of s1 j = owner_of s j).
  { intros j. etrans; [exact (owner_of_set s i (mkAgent (owner a) c) a j Hi)|].
    case_decide; [subst j; by rewrite (owner_of_agent _ _ _ Hi)|done]. }
  assert (Hstat : forall w, status s1 w = status s w) by (intros w; by rewrite !status_owner, Howner).
  assert (Hwant : forall w, wanted s1 w = wanted s w) by (intros w; by rewrite !wanted_owner, Howner).
  assert (Hother : forall j, j <> i -> in_section (call_of s j) = false).
  { intros j Hj. destruct (in_section (call_of s j)) eqn:E; [|done].
    apply (inv_lock s I) in E. destruct Hl; congruence. }
  assert (popped s1 = taken c) as Hpop.
  { unfold popped, s1. cbn. destruct (in_section c) eqn:E; [|by destruct c as [[]|]].
    fold s1. rewrite Hcall, decide_True by done. done. }
  split; rewrite ?Hpop; cbn; try done.
  - apply (sizes_set s i); [done|]. split; [apply (sizes_of s i a I Hi)|]. cbn. lia.
  - apply I.
  - rewrite (zsum_insert _ _ _ a) by done. pose proof (inv_total s I).
    assert (share (mkAgent (owner a) c) = owned (owner a)) by (unfold share; cbn; lia).
    unfold share at 2. lia.
  - intros j. rewrite Hcall. case_decide as Hj; [subst|].
    + by destruct (in_section c).
    + rewrite Hother by done. destruct (in_section c); naive_solver.
  - intros w Hw. rewrite Hstat. apply I. auto.
  - intros w n. rewrite Howner. intros Hw. apply Hsup; [by eapply (inv_queued s I)|].
    by rewrite status_owner, Hw.
  - intros j. rewrite Hcall. case_decide; [auto|]. intros Hj.
    pose proof (Hother j ltac:(done)) as Hn. by rewrite Hj in Hn.
  - intros j w. rewrite Hcall, Hstat, Hwant. case_decide; [naive_solver|]. intros Hj.
    pose proof (Hother j ltac:(done)) as Hn. by rewrite Hj in Hn.
  - intros w ws' Hln Hws. rewrite Hstat, Hwant.
    destruct (Hbl ltac:(by destruct (in_section c)) w ws' Hws) as [?|(j & n & Hj & Hn)]; [by left|].
    right. exists j, n. by rewrite Hcall, decide_False.
Qed.

(** The compare-exchange that grants the permits waker [w] waits for. *)
Lemma inv_grant s i w a b n :
  inv s -> agents s !! i = Some a -> call a = Some (RCas w) ->
  status s w = Some WAITING -> wanted s w = n ->
  agents (set_agent i (mkAgent (owner a) (Some RLoop)) s) !! w = Some b ->
  inv (set_agent w (mkAgent (FutureWait n ACQUIRED) (call b))
    (wake_by_ref w (set_agent i (mkAgent (owner a) (Some RLoop)) (set_queue (pending s - n) (waiters s) s)))).
Proof.
  intros I Hi Hc Hst Hn Hb. set (s0 := set_agent i _ s) in Hb. set (s1 := set_agent w _ _).
  assert (Hw : owner_of s w = Some (FutureWait n WAITING)).
  { rewrite status_owner in Hst. rewrite wanted_owner in Hn.
    destruct (owner_of s w) as [[| |k []| | | |]|]; try done. congruence. }
  assert (Hlock : lock s = Some i).
  { apply (inv_lock s I). by rewrite (call_of_agent _ _ _ Hi), Hc. }
  assert (Hpop : popped s = [w]).
  { unfold popped. by rewrite Hlock, (call_of_agent _ _ _ Hi), Hc. }
  assert (Howner0 : forall j, owner_of s0 j = owner_of s j).
  { intros j. unfold s0. rewrite (owner_of_set _ _ _ a) by done.
    case_decide; [subst j; by rewrite (owner_of_agent _ _ _ Hi)|done]. }
  assert (Howner : forall j, owner_of s1 j = if decide (j = w) then Some (FutureWait n ACQUIRED)
                             else owner_of s j).
  { intros j. unfold s1. rewrite (owner_of_set _ _ _ b) by exact Hb. case_decide; [done|].
    apply Howner0. }
  assert (Hcall : forall j, call_of s1 j = if decide (j = i) then Some RLoop else call_of s j).
  { intros j. unfold s1. rewrite (call_of_set _ _ _ b) by exact Hb.
    assert (call_of s0 j = if decide (j = i) then Some RLoop else call_of s j) as H0
      by (unfold s0; by rewrite (call_of_set _ _ _ a)).
    destruct (decide (j = w)) as [->|Hj]; [|exact H0].
    cbn. rewrite <-(call_of_agent s0 w b Hb). exact H0. }
  assert (popped s1 = []) as Hpop1.
  { unfold popped. cbn. rewrite Hlock, Hcall, decide_True by done. done. }
  pose proof (inv_nodup s I) as Hnd. rewrite Hpop in Hnd. apply NoDup_cons in Hnd as [Hnw Hnd].
  assert (Hne : forall x, x ∈ waiters s -> x <> w) by (intros x Hx ->; done).
  destruct (inv_cas s I i w ltac:(by rewrite (call_of_agent _ _ _ Hi))) as [[_ Hle]|[? _]];
    [|congruence].
  pose proof (sizes_of s i a I Hi) as Hsa. assert (sizes_ok b /\ owner b = FutureWait n WAITING) as [Hsb Hob].
  { split.
    - assert (Forall sizes_ok (agents s0)) as H0; [|by apply (Forall_lookup_1 _ _ _ _ H0 Hb)].
      apply (sizes_set s i); [done|]. split; [apply Hsa|cbn; lia].
    - pose proof (Howner0 w) as H0. rewrite (owner_of_agent _ _ _ Hb), Hw in H0. by simplify_eq. }
  split; rewrite ?Hpop1; cbn.
  - apply I.
  - lia.
  - apply Forall_insert; [apply (sizes_set s i); [done|split; [apply Hsa|cbn; lia]]|].
    destruct Hsb as [Hsb1 Hsb2]. rewrite Hob in Hsb1. by split.
  - apply I.
  - rewrite (zsum_insert _ _ _ b) by exact Hb. rewrite (zsum_insert _ _ _ a) by done.
    pose proof (inv_total s I). unfold share. rewrite Hob, Hc. cbn.
    change (fun a0 : Agent => owned (owner a0) + carried (call a0)) with share. lia.
  - intros j. rewrite Hcall, Hlock. case_decide; [subst; cbn; naive_solver|].
    rewrite (inv_lock s I). rewrite Hlock. done.
  - done.
  - intros x Hx. rewrite status_owner, Howner, decide_False by auto. apply (inv_status s I). set_solver.
  - intros x k. rewrite Howner. case_decide; [naive_solver|]. intros Hx.
    apply (inv_queued s I) in Hx. rewrite Hpop in Hx. set_solver.
  - intros _. apply (inv_zero s I). by rewrite Hpop.
  - intros j. rewrite Hcall. case_decide; [done|]. intros Hj.
    assert (lock s = Some j) by (apply (inv_lock s I); by rewrite Hj). congruence.
  - intros j x. rewrite Hcall. case_decide; [done|]. intros Hj.
    assert (lock s = Some j) by (apply (inv_lock s I); by rewrite Hj). congruence.
  - rewrite Hlock. done.
Qed.

Lemma release_inv s i a s' :
  inv s -> agents s !! i = Some a -> release i a s = Step s' -> inv s'.
Proof.
  intros I Hi Hr. unfold release in Hr.
  pose proof (inv_permits s I). pose proof (inv_pending s I).
  pose proof (sizes_of s i a I Hi) as [_ Hcar]. pose proof (inv_nodup s I) as Hnd.
  assert (Hlk : forall c, call a = Some c -> in_section (Some c) = true -> lock s = Some i).
  { intros c Hc Hs. apply (inv_lock s I). by rewrite (call_of_agent _ _ _ Hi), Hc. }
  assert (Hpop : lock s = Some i -> popped s = taken (call a)).
  { intros Hl. unfold popped. by rewrite Hl, (call_of_agent _ _ _ Hi). }
  destruct (call a) as [[n| |w|]|] eqn:Hc; [| | | |done].
  - destruct (lock s) eqn:Hl; [done|]. destruct (usize_max <? _); [done|]. injection Hr as <-.
    assert (popped s = []) as Hp by (unfold popped; by rewrite Hl). rewrite Hp in Hnd.
    cbn in Hcar.
    apply (inv_section s i a (Some RLoop)); rewrite ?Hp; cbn; rewrite ?Hc; cbn; auto; try lia; try done.
    intros Hne. apply (inv_zero s I). by rewrite Hp.
  - specialize (Hlk _ eq_refl eq_refl). pose proof (Hpop Hlk) as Hp. cbn in Hp. rewrite Hp in Hnd.
    pose proof (inv_zero s I) as Hz. rewrite Hp in Hz. cbn in Hnd, Hz.
    destruct (waiters s) as [|w ws] eqn:Hw.
    { injection Hr as <-. apply (inv_section s i a (Some REnd)); cbn; rewrite ?Hp, ?Hw, ?Hc; cbn; auto; try lia; done. }
    assert (w ∈ popped s ++ waiters s) as Hin by (rewrite Hp, Hw; left).
    apply NoDup_cons in Hnd as Hnd'. destruct Hnd' as [Hnw Hnd'].
    case_decide as Hg.
    { injection Hr as <-. unfold set_queue.
      assert (agents s = <[i := mkAgent (owner a) (Some RLoop)]> (agents s)) as ->.
      { symmetry. apply list_insert_id. rewrite Hi. destruct a. cbn in *. by subst. }
      apply (inv_section s i a (Some RLoop)); cbn; rewrite ?Hp, ?Hw, ?Hc; cbn; auto; try lia; try done.
      - set_solver.
      - intros x [->|Hx]%elem_of_cons Hs; [congruence|done]. }
    destruct (pending s <? wanted s w) eqn:Hlt; bool_to_prop.
    { injection Hr as <-.
      apply (inv_section s i a None); cbn; rewrite ?Hp, ?Hw, ?Hc; cbn; auto; try lia; try done.
      intros _ w' ws' [= <- <-]. left. split; [|done].
      destruct (inv_status s I w Hin); [done|congruence]. }
    injection Hr as <-.
    apply (inv_section s i a (Some (RCas w))); cbn; rewrite ?Hp, ?Hw, ?Hc; cbn; auto; try lia; try done.
    intros x [= <-]. split; [|lia]. destruct (inv_status s I w Hin); [done|congruence].
  - specialize (Hlk _ eq_refl eq_refl). pose proof (Hpop Hlk) as Hp. cbn in Hp. rewrite Hp in Hnd.
    pose proof (inv_zero s I) as Hz. rewrite Hp in Hz. cbn in Hnd, Hz.
    case_decide as Hs.
    + destruct (agents _ !! w) as [b|] eqn:Hb in Hr; [|done]. injection Hr as <-.
      by eapply (inv_grant s i w a b).
    + injection Hr as <-.
      apply (inv_section s i a None); cbn; rewrite ?Hp, ?Hc; cbn; auto; try lia; try done.
      intros _ w' ws' [= <- <-]. right.
      destruct (inv_cas s I i w ltac:(by rewrite (call_of_agent _ _ _ Hi))) as [[? _]|[_ (j & n & Hj)]];
        [congruence|].
      exists j, n. split; [|done]. intros ->. rewrite (call_of_agent _ _ _ Hi), Hc in Hj. done.
  - specialize (Hlk _ eq_refl eq_refl). pose proof (Hpop Hlk) as Hp. cbn in Hp.
    assert (waiters s = []) as Hw by (apply (inv_end s I i); by rewrite (call_of_agent _ _ _ Hi)).
    injection Hr as <-. rewrite Hw. pose proof (inv_total s I). pose proof (inv_supply s I).
    assert (0 <= zsum share (agents s)).
    { apply zsum_nonneg. eapply Forall_impl; [apply I|]. apply share_nonneg. }
    unfold usize_max in *. unfold set_permits. cbn [permits pending].
    rewrite Z.mod_small by lia.
    apply (inv_section s i a None); cbn; rewrite ?Hp, ?Hw, ?Hc; cbn; auto; try lia; try done. constructor.
Qed.

Lemma try_acquire_Some n s s' :
  try_acquire n s = Some s' -> n <= permits s /\ s' = set_permits (permits s - n) s.
Proof. unfold try_acquire. destruct (permits s <? n) eqn:H; intros [= <-]. bool_to_prop. done. Qed.

(** New agents without a call. *)
Lemma inv_new_agent s o d :
  inv s -> 0 <= d <= permits s -> sizes_ok (idle o) -> owned o = d ->
  match o with FutureWait _ _ | FutureReady | FutureDropped => False | _ => True end ->
  inv (add_agent (idle o) (set_permits (permits s - d) s)).
Proof.
  intros I Hd Hs Ho Hn. set (s1 := add_agent _ _).
  assert (Hcall : forall j, call_of s1 j = call_of s j).
  { intros j. etrans; [exact (call_of_add s (idle o) j)|]. case_decide; [|done].
    subst. by rewrite call_of_new. }
  assert (Howner : forall j, owner_of s1 j = if decide (j = length (agents s)) then Some o
                             else owner_of s j) by exact (owner_of_add s (idle o)).
  eapply (inv_quiet s); [done|..]; cbn; try done; try lia; try apply I.
  - apply sizes_add; [apply I|done].
  - rewrite zsum_app, zsum_cons. assert (share (idle o) = d) as -> by (unfold share; cbn; lia).
    assert (zsum share [] = 0) as -> by done. pose proof (inv_total s I). lia.
  - intros j. left. apply Hcall.
  - intros (j & k & Hj). exists j, k. by rewrite Hcall.
  - intros w Hw. left. rewrite !status_owner, !wanted_owner, Howner. case_decide; [subst|done].
    apply (inv_status s I) in Hw. rewrite status_owner, owner_of_new in Hw. by destruct Hw.
  - intros w k. rewrite Howner. case_decide; [intros [= ->]; done|done].
Qed.

#[local] Ltac owner_step I :=
  cbn; try done; try lia; try apply I; try solve [by split];
  try solve [constructor; [by split|constructor]]; try solve [constructor; [exact Logic.I|constructor]];
  try solve [constructor].

Lemma poll_inv s i a s' : inv s -> agents s !! i = Some a -> poll i a s = Step s' -> inv s'.
Proof.
  intros I Hi Hr. pose proof (sizes_of s i a I Hi) as [Hn _]. pose proof (inv_permits s I).
  destruct a as [[n|n|n st| | |n|] [c|]]; cbn in Hr, Hn; try done.
  - destruct (try_acquire n s) as [s1|] eqn:Ht; injection Hr as <-.
    + apply try_acquire_Some in Ht as [Hle ->].
      eapply (inv_owner s _ i _ Gone [Guard n] n (supply s)); owner_step I. unfold zsum. cbn. lia.
    + eapply (inv_owner s _ i _ (FutureTried n) [] 0 (supply s)); owner_step I.
      * by rewrite Z.sub_0_r, app_nil_r.
      * unfold zsum. cbn. lia.
  - case_decide as Hst; injection Hr as <-; [subst st|done].
    eapply (inv_owner s _ i _ FutureReady [Guard n] 0 (supply s)); owner_step I.
    + by rewrite Z.sub_0_r.
    + unfold zsum. cbn. lia.
Qed.

Lemma drop_inv s i a s' : inv s -> agents s !! i = Some a -> drop_agent i a s = Step s' -> inv s'.
Proof.
  intros I Hi Hr. pose proof (sizes_of s i a I Hi) as [Hn _]. pose proof (inv_permits s I).
  destruct a as [[n|n|n st| | |n|] [c|]]; cbn in Hr, Hn; try done; injection Hr as <-.
  - eapply (inv_owner s _ i _ Gone [] 0 (supply s)); owner_step I.
    + by rewrite Z.sub_0_r, app_nil_r.
    + unfold zsum. cbn. lia.
  - eapply (inv_start s i _ FutureDropped); try done.
    + split; [done|]. cbn. case_decide; lia.
    + cbn. case_decide; [by subst|]. by destruct st.
  - eapply (inv_start s i _ FutureDropped); try done; by split.
  - eapply (inv_start s i _ Gone); try done; by split.
Qed.

Lemma forget_inv s i a s' : inv s -> agents s !! i = Some a -> forget i a s = Step s' -> inv s'.
Proof.
  intros I Hi Hr. pose proof (sizes_of s i a I Hi) as [Hn _]. pose proof (inv_permits s I).
  pose proof (inv_supply s I).
  destruct a as [[n|n|n st| | |n|] [c|]]; cbn in Hr, Hn; try done; injection Hr as <-.
  eapply (inv_owner s _ i _ Gone [] 0 (supply s - n)); owner_step I.
  - by rewrite Z.sub_0_r, app_nil_r.
  - unfold zsum. cbn. lia.
Qed.

Lemma exec_inv act s s' : inv s -> valid act s -> exec act s = Step s' -> inv s'.
Proof.
  intros I Hv He. pose proof (inv_permits s I) as Hp.
  assert (Hag : forall i f, with_agent i s f = Step s' -> exists a, agents s !! i = Some a /\ f a s = Step s').
  { intros i f. unfold with_agent. destruct (agents s !! i); naive_solver. }
  destruct act as [n|n|i|i|i|i|i k|i|n|i]; cbn in He, Hv; try done;
    try (apply Hag in He as (a & Hi & He)).
  - injection He as <-. assert (s = set_permits (permits s - 0) s) as E
      by (destruct s; cbn; by rewrite Z.sub_0_r).
    rewrite E. apply inv_new_agent; try done; try lia. split; cbn; lia.
  - destruct (try_acquire n s) as [s1|] eqn:Ht; injection He as <-; [|done].
    apply try_acquire_Some in Ht as [Hle ->]. apply inv_new_agent; try done; try lia.
    split; cbn; lia.
  - by eapply poll_inv.
  - destruct a as [[| | | | | |] [c|]]; cbn in He; try done.
    destruct (lock s) eqn:Hl; [done|]. destruct (usize_max <? _); [done|]. injection He as <-.
    by apply inv_enqueue.
  - by eapply drop_inv.
  - destruct a as [[n|n|n st| | |n|] [c|]]; cbn in He; try done.
    destruct (n <? k) eqn:Hlt; [done|]. injection He as <-. bool_to_prop.
    eapply (inv_start s i _ (Guard (n - k))); try done; [split; cbn; lia|cbn; lia].
  - by eapply forget_inv.
  - injection He as <-. destruct Hv. by apply inv_release_call.
  - by eapply release_inv.
Qed.

Lemma reachable_inv n s : 0 <= n <= usize_max -> reachable n s -> inv s.
Proof.
  intros Hn. induction 1 as [|act s s' _ IH Hv He]; [by apply new_inv|]. by eapply exec_inv.
Qed.

Lemma zsum_share_le l i a : Forall sizes_ok l -> l !! i = Some a -> share a <= zsum share l.
Proof.
  intros Hs. revert i. induction Hs as [|b l Hb Hl IH]; intros [|i] Hi; cbn in Hi; simplify_eq;
    rewrite zsum_cons.
  - assert (0 <= zsum share l); [|lia]. apply zsum_nonneg.
    eapply Forall_impl; [exact Hl|apply share_nonneg].
  - specialize (IH _ Hi). pose proof (share_nonneg b Hb). lia.
Qed.

Lemma share_le s i a : inv s -> agents s !! i = Some a -> share a <= zsum share (agents s).
Proof. intros I. apply zsum_share_le, I. Qed.

Lemma no_panic act s :
  inv s -> match act with ReleasePart _ _ => False | _ => True end -> exec act s <> Panicked.
Proof.
  intros I Hact He. pose proof (inv_total s I). pose proof (inv_supply s I).
  assert (0 <= zsum share (agents s)).
  { apply zsum_nonneg. eapply Forall_impl; [apply I|apply share_nonneg]. }
  destruct act as [n|n|i|i|i|i|i k|i|n|i]; cbn in He; try done;
    [by destruct (try_acquire n s)|..]; unfold with_agent in He;
    destruct (agents s !! i) as [a|] eqn:Hi; try done.
  - destruct a as [[] []]; cbn in He; try done; [by destruct (try_acquire _ s)|by case_decide].
  - destruct a as [[] []]; cbn in He; done.
  - destruct a as [[] []]; cbn in He; try done. destruct (lock s); [done|].
    destruct (_ <? _) eqn:Hlt; [|done]. bool_to_prop. lia.
  - destruct a as [[] []]; cbn in He; done.
  - destruct a as [[] []]; cbn in He; done.
  - pose proof (share_le s i a I Hi) as Hsh. pose proof (inv_permits s I).
    pose proof (sizes_of s i a I Hi) as [Ho _]. unfold release in He.
    destruct (call a) as [[m| |w|]|] eqn:Hc; [| | | |done].
    + destruct (lock s); [done|]. destruct (_ <? _) eqn:Hlt; [|done]. bool_to_prop.
      assert (share a = owned (owner a) + m) by (unfold share; by rewrite Hc).
      assert (0 <= owned (owner a)); [|lia]. destruct (owner a) as [| |? []| | | |]; cbn in *; lia.
    + destruct (waiters s); [done|]. case_decide; [done|]. by destruct (_ <? _).
    + case_decide; [|done]. by destruct (agents _ !! w).
    + done.
Qed.

(** ** Progress of [release] *)

(** The steps the lock holder still has to make, at most. *)
Definition to_go (s : Semaphore) (c : option Release) : nat :=
  match c with
  | Some RLoop => 2 * length (waiters s) + 2
  | Some (RCas _) => 2 * length (waiters s) + 3
  | Some REnd => 1
  | _ => 0
  end.

(** The number of calls of [release] that are waiting for the lock. *)
Definition is_start (a : Agent) : bool := match call a with Some (RStart _) => true | _ => false end.
Fixpoint count_starts (l : list Agent) : nat :=
  match l with
  | [] => 0
  | a :: l => (if is_start a then 1 else 0) + count_starts l
  end.
Definition starts (s : Semaphore) : nat := count_starts (agents s).

Lemma count_insert_same l i a b :
  l !! i = Some a -> is_start b = is_start a -> count_starts (<[i := b]> l) = count_starts l.
Proof.
  revert i. induction l as [|x l IH]; intros [|i] Hi Hb; cbn in Hi; simplify_eq; cbn.
  - by rewrite Hb.
  - by rewrite IH.
Qed.

Lemma count_insert_end l i a b :
  l !! i = Some a -> is_start a = true -> is_start b = false ->
  count_starts l = S (count_starts (<[i := b]> l)).
Proof.
  revert i. induction l as [|x l IH]; intros [|i] Hi Ha Hb; cbn in Hi; simplify_eq; cbn.
  - by rewrite Ha, Hb.
  - destruct (is_start x); cbn; by rewrite (IH i).
Qed.

Lemma count_starts_pos l : count_starts l <> 0%nat -> exists i a, l !! i = Some a /\ is_start a = true.
Proof.
  induction l as [|x l IH]; cbn; [done|]. destruct (is_start x) eqn:Hx; [by exists 0%nat, x|].
  intros H. destruct (IH H) as (i & a & Hi & Ha). by exists (S i), a.
Qed.

Lemma count_starts_zero l i a : count_starts l = 0%nat -> l !! i = Some a -> is_start a = false.
Proof.
  revert i. induction l as [|x l IH]; intros [|i] H0 Hi; cbn in *; simplify_eq.
  - by destruct (is_start a).
  - apply (IH i); [lia|done].
Qed.

(** The lock holder is never stuck, and gets nearer to its end. *)
Lemma release_progress s i a :
  inv s -> agents s !! i = Some a -> in_section (call a) = true ->
  exists s', release i a s = Step s' /\ starts s' = starts s /\
    (lock s' = None \/
     lock s' = Some i /\ exists a', agents s' !! i = Some a' /\ in_section (call a') = true /\
       (to_go s' (call a') < to_go s (call a))%nat).
Proof.
  intros I Hi Hs. apply lookup_lt_Some in Hi as Hlt.
  assert (Hl : lock s = Some i).
  { apply (inv_lock s I). by rewrite (call_of_agent _ _ _ Hi). }
  assert (Hst : forall c, in_section c = true \/ c = None -> forall p q ws l sup wk,
    starts (mkSemaphore p q ws l (<[i := mkAgent (owner a) c]> (agents s)) sup wk) = starts s).
  { intros c Hc p q ws l sup wk. unfold starts. cbn. eapply count_insert_same; [done|].
    unfold is_start. cbn. destruct Hc as [Hc| ->]; destruct (call a) as [[]|]; try done;
      by destruct c as [[]|]. }
  assert (Hme : forall c, <[i := mkAgent (owner a) c]> (agents s) !! i = Some (mkAgent (owner a) c)).
  { intros c. by apply list_lookup_insert_eq. }
  unfold release. destruct (call a) as [[n| |w|]|] eqn:Hc; try done.
  - destruct (waiters s) as [|w ws] eqn:Hw.
    + eexists. split_conj; [done|apply Hst; auto|]. right. split; [done|].
      eexists. split_conj; [apply Hme|done|]. cbn. rewrite Hw. cbn. lia.
    + case_decide.
      * eexists. split_conj; [done|done|]. right. split; [done|]. exists a.
        split_conj; [done|by rewrite Hc|]. rewrite Hc. cbn. rewrite Hw. cbn. lia.
      * destruct (_ <? _).
        -- eexists. split_conj; [done|apply Hst; auto|]. by left.
        -- eexists. split_conj; [done|apply Hst; auto|]. right. split; [done|].
           eexists. split_conj; [apply Hme|done|]. cbn. rewrite Hw. cbn. lia.
  - case_decide as Hw; [|eexists; split_conj; [done|apply Hst; auto|by left]].
    cbn [agents set_agent set_queue wake_by_ref].
    destruct (<[i:=mkAgent (owner a) (Some RLoop)]> (agents s) !! w) as [b|] eqn:Hb.
    2: { exfalso. rewrite status_owner in Hw. unfold owner_of in Hw.
         apply lookup_ge_None in Hb. rewrite length_insert in Hb.
         by rewrite lookup_ge_None_2 in Hw. }
    eexists. split_conj; [done| |].
    + unfold starts. cbn. rewrite (count_insert_same _ _ b) by done. exact (Hst (Some RLoop) (or_introl eq_refl) 0 0 [] None 0 []).
    + right. split; [done|]. cbn. destruct (decide (i = w)) as [<-|Hne].
      * eexists. rewrite list_lookup_insert_eq by (by rewrite length_insert).
        split_conj; [done| |]; rewrite Hme in Hb; simplify_eq; cbn; [done|lia].
      * eexists. rewrite list_lookup_insert_ne by done. split_conj; [apply Hme|done|]. cbn. lia.
  - eexists. split_conj; [done|apply Hst; auto|by left].
Qed.

(** Calls that are running come to an end: some schedule of their steps leads
    to a state in which nobody is inside [release]. *)
Definition quiet (s : Semaphore) : Prop := forall i, call_of s i = None.

Lemma run_app acts acts' s s' : run acts s = Some s' -> run (acts ++ acts') s = run acts' s'.
Proof.
  revert s. induction acts as [|act acts IH]; intros s H; cbn in *; [by simplify_eq|].
  destruct (exec act s); try done. by apply IH.
Qed.

Definition is_run (act : Action) : Prop := match act with Run _ => True | _ => False end.

Lemma run_inv acts s s' : Forall is_run acts -> inv s -> run acts s = Some s' -> inv s'.
Proof.
  intros Hr. revert s. induction Hr as [|act acts Ha _ IH]; intros s I H; cbn in H; [by simplify_eq|].
  destruct (exec act s) as [| |s1] eqn:He; try done. apply (IH s1); [|done].
  eapply exec_inv; [done| |done]. by destruct act.
Qed.

(** The lock holder runs until it lets go of the lock. *)
Lemma unlock s i a k :
  inv s -> agents s !! i = Some a -> in_section (call a) = true -> (to_go s (call a) <= k)%nat ->
  exists acts s', Forall is_run acts /\ run acts s = Some s' /\ lock s' = None /\ starts s' = starts s.
Proof.
  revert s a. induction k as [|k IH]; intros s a I Hi Hs Hk.
  { destruct (call a) as [[]|]; cbn in Hk; try done; lia. }
  destruct (release_progress s i a I Hi Hs) as (s1 & Hr & Hst & H1).
  assert (exec (Run i) s = Step s1) as He by (cbn; unfold with_agent; by rewrite Hi).
  destruct H1 as [Hl|(Hl & a' & Ha' & Hs' & Hlt)].
  - exists [Run i], s1. cbn [run]. rewrite He. split_conj; try done. by repeat constructor.
  - destruct (IH s1 a') as (acts & s2 & Hf & Hrun & Hl2 & Hst2); [|done|done|lia|].
    { by eapply (exec_inv (Run i)). }
    exists (Run i :: acts), s2. cbn [run]. rewrite He. split_conj; [by constructor|done|done|congruence].
Qed.

Lemma settle s k :
  inv s -> lock s = None -> (starts s <= k)%nat ->
  exists acts s', Forall is_run acts /\ run acts s = Some s' /\ lock s' = None /\ starts s' = 0%nat.
Proof.
  revert s. induction k as [|k IH]; intros s I Hl Hk.
  { exists [], s. split_conj; try done; lia. }
  destruct (decide (starts s = 0)%nat) as [H0|H0]; [by exists [], s|].
  assert (exists i a n, agents s !! i = Some a /\ call a = Some (RStart n)) as (i & a & n & Hi & Hc).
  { apply count_starts_pos in H0 as (i & a & Hi & Ha). unfold is_start in Ha.
    destruct (call a) as [[n| | |]|] eqn:Hc; try done. eauto. }
  assert (exists s1, exec (Run i) s = Step s1 /\ lock s1 = Some i /\
    agents s1 = <[i := mkAgent (owner a) (Some RLoop)]> (agents s)) as (s1 & He & Hl1 & Ha1).
  { destruct (exec (Run i) s) as [| |s1] eqn:He.
    - cbn in He. unfold with_agent, release in He. rewrite Hi, Hc, Hl in He. by destruct (_ <? _).
    - by apply no_panic in He.
    - exists s1. split; [done|]. cbn in He. unfold with_agent, release in He. rewrite Hi, Hc, Hl in He.
      destruct (_ <? _); [done|]. by injection He as <-. }
  assert (inv s1) as I1 by (by eapply (exec_inv (Run i))).
  apply lookup_lt_Some in Hi as Hlt.
  destruct (unlock s1 i (mkAgent (owner a) (Some RLoop)) (to_go s1 (Some RLoop)) I1) as (acts & s2 & Hf & Hr & Hl2 & Hst2);
    [rewrite Ha1; by apply list_lookup_insert_eq|done|done|].
  assert (starts s = S (starts s1)) as Hdec.
  { unfold starts. rewrite Ha1. eapply count_insert_end; [done| |done].
    unfold is_start. by rewrite Hc. }
  destruct (IH s2) as (acts' & s3 & Hf' & Hr' & Hl3 & Hst3); [by eapply run_inv|done|lia|].
  exists (Run i :: acts ++ acts'), s3. cbn [run]. rewrite He. erewrite run_app by exact Hr.
  split_conj; try done. constructor; [done|]. by apply Forall_app.
Qed.

(** ** The queue *)

Definition queue (s : Semaphore) : list nat := popped s ++ waiters s.

Lemma taken_queue s i a : inv s -> agents s !! i = Some a -> in_section (call a) = true ->
  queue s = taken (call a) ++ waiters s.
Proof.
  intros I Hi Hs. unfold queue, popped.
  assert (lock s = Some i) as ->
    by (apply (inv_lock s I); by rewrite (call_of_agent _ _ _ Hi)).
  by rewrite (call_of_agent _ _ _ Hi).
Qed.

Lemma queue_same s s' :
  waiters s' = waiters s -> lock s' = lock s ->
  (forall j, lock s = Some j -> call_of s' j = call_of s j) -> queue s' = queue s.
Proof.
  intros Hw Hl Hc. unfold queue, popped. rewrite Hw, Hl.
  destruct (lock s) as [j|] eqn:E; [|done]. by rewrite Hc.
Qed.

(** An agent outside [release] is not the lock holder. *)
Lemma lock_other s i a j :
  inv s -> agents s !! i = Some a -> in_section (call a) = false -> lock s = Some j -> j <> i.
Proof.
  intros I Hi Hs Hl ->. apply (inv_lock s I) in Hl.
  rewrite (call_of_agent _ _ _ Hi) in Hl. congruence.
Qed.

Lemma queue_set s s' i a b :
  inv s -> agents s !! i = Some a -> in_section (call a) = false ->
  waiters s' = waiters s -> lock s' = lock s ->
  (agents s' = <[i := b]> (agents s) \/ exists c, agents s' = <[i := b]> (agents s) ++ [c]) ->
  queue s' = queue s.
Proof.
  intros I Hi Hs Hw Hl Ha. apply queue_same; [done..|]. intros j Hj.
  pose proof (lock_other s i a j I Hi Hs Hj) as Hne.
  assert (j < length (agents s))%nat as Hlt.
  { apply (inv_lock s I) in Hj. unfold call_of in Hj.
    destruct (agents s !! j) eqn:E; [|done]. by eapply lookup_lt_Some. }
  unfold call_of. destruct Ha as [->|[c ->]];
    rewrite ?lookup_app_l by (by rewrite length_insert); by rewrite list_lookup_insert_ne.
Qed.

Lemma queue_add s s' c :
  inv s -> waiters s' = waiters s -> lock s' = lock s -> agents s' = agents s ++ [c] ->
  queue s' = queue s.
Proof.
  intros I Hw Hl Ha. apply queue_same; [done..|]. intros j Hj.
  assert (j < length (agents s))%nat as Hlt.
  { apply (inv_lock s I) in Hj. unfold call_of in Hj.
    destruct (agents s !! j) eqn:E; [|done]. by eapply lookup_lt_Some. }
  unfold call_of. by rewrite Ha, lookup_app_l.
Qed.

(** How a step changes the queue. *)
Definition queue_step (s s' : Semaphore) (act : Action) : Prop :=
  queue s' = queue s \/
  (exists i, act = Enqueue i /\ queue s' = queue s ++ [i]) \/
  (exists i w, act = Run i /\ queue s = w :: queue s' /\
     (status s' w = Some ACQUIRED \/ status s' w = Some GIVEUP)).

Lemma release_queue s i a s' :
  inv s -> agents s !! i = Some a -> release i a s = Step s' -> queue_step s s' (Run i).
Proof.
  intros I Hi Hr. apply lookup_lt_Some in Hi as Hlt.
  assert (Hq : forall c p q ws wk, in_section c = true ->
    queue (mkSemaphore p q ws (Some i) (<[i := mkAgent (owner a) c]> (agents s)) (supply s) wk) = taken c ++ ws).
  { intros c p q ws wk Hc. unfold queue, popped, call_of. cbn.
    by rewrite list_lookup_insert_eq. }
  assert (Hin : in_section (call a) = true -> lock s = Some i /\ queue s = taken (call a) ++ waiters s).
  { intros Hs. split; [|by apply (taken_queue s i a)].
    apply (inv_lock s I). by rewrite (call_of_agent _ _ _ Hi). }
  unfold release in Hr. destruct (call a) as [[n| |w|]|] eqn:Hc; [| | | |done].
  - destruct (lock s) eqn:Hl; [done|]. destruct (_ <? _); [done|]. injection Hr as <-. left.
    etrans; [by apply (Hq (Some RLoop))|]. unfold queue, popped. by rewrite Hl.
  - destruct (Hin eq_refl) as [Hl Hqs]. cbn in Hqs. destruct (waiters s) as [|w ws] eqn:Hw.
    { injection Hr as <-. left. unfold set_agent. rewrite Hl.
      etrans; [by apply (Hq (Some REnd))|]. by rewrite Hqs. }
    case_decide as Hg.
    { injection Hr as <-. right; right. exists i, w. split_conj; [done| |by right].
      rewrite Hqs. f_equal. unfold queue, popped. cbn. by rewrite Hl, (call_of_agent (set_queue _ _ s) _ _ Hi), Hc. }
    destruct (_ <? _); injection Hr as <-; left.
    + unfold queue at 1, popped. cbn. by rewrite Hqs.
    + unfold set_agent. cbn. rewrite Hl. etrans; [by apply (Hq (Some (RCas w)))|]. by rewrite Hqs.
  - destruct (Hin eq_refl) as [Hl Hqs]. cbn in Hqs. case_decide as Hs.
    + destruct (agents _ !! w) as [b|] eqn:Hb in Hr; [|done]. injection Hr as <-.
      right; right. exists i, w. cbn in Hb. split_conj; [done| |].
      * rewrite Hqs. f_equal. unfold queue, popped, call_of. cbn. rewrite Hl.
        destruct (decide (i = w)) as [->|Hne].
        -- rewrite list_lookup_insert_eq in Hb by done. injection Hb as <-.
           by rewrite list_lookup_insert_eq by (by rewrite length_insert).
        -- by rewrite list_lookup_insert_ne, list_lookup_insert_eq.
      * left. rewrite status_owner. rewrite (owner_of_set _ _ _ b) by exact Hb.
        by rewrite decide_True.
    + injection Hr as <-. left. unfold queue at 1, popped. cbn. by rewrite Hqs.
  - destruct (Hin eq_refl) as [Hl Hqs]. cbn in Hqs. injection Hr as <-. left.
    unfold queue at 1, popped. cbn. by rewrite Hqs.
Qed.

Lemma exec_queue act s s' :
  inv s -> valid act s -> exec act s = Step s' -> queue_step s s' act.
Proof.
  intros I Hv He.
  assert (Hag : forall i f, with_agent i s f = Step s' -> exists a, agents s !! i = Some a /\ f a s = Step s').
  { intros i f. unfold with_agent. destruct (agents s !! i); naive_solver. }
  destruct act as [n|n|i|i|i|i|i k|i|n|i]; cbn in He, Hv; try done;
    try (apply Hag in He as (a & Hi & He)).
  - left. injection He as <-. by eapply queue_add.
  - left. destruct (try_acquire n s) as [s1|] eqn:Ht; injection He as <-; [|done].
    apply try_acquire_Some in Ht as [_ ->]. by eapply queue_add.
  - left. destruct a as [[n|n|n st| | |n|] [c|]]; cbn in He; try done.
    + destruct (try_acquire n s) as [s1|] eqn:Ht; injection He as <-.
      * apply try_acquire_Some in Ht as [_ ->]. eapply queue_set; try done. right. by eexists.
      * eapply queue_set; try done. by left.
    + case_decide; injection He as <-; [|done]. eapply queue_set; try done. right. by eexists.
  - right; left. exists i. split; [done|]. destruct a as [[n|n|n st| | |n|] [c|]]; cbn in He; try done.
    destruct (lock s) eqn:Hl; [done|]. destruct (_ <? _); [done|]. injection He as <-.
    unfold queue, popped. cbn. by rewrite Hl.
  - left. destruct a as [[n|n|n st| | |n|] [c|]]; cbn in He; try done; injection He as <-;
      (eapply queue_set; try done; by left).
  - left. destruct a as [[n|n|n st| | |n|] [c|]]; cbn in He; try done.
    destruct (_ <? _); [done|]. injection He as <-. eapply queue_set; try done. by left.
  - left. destruct a as [[n|n|n st| | |n|] [c|]]; cbn in He; try done.
    injection He as <-. eapply queue_set; try done. by left.
  - left. injection He as <-. by eapply queue_add.
  - by eapply release_queue.
Qed.

Lemma settled_quiet s : inv s -> lock s = None -> starts s = 0%nat -> quiet s.
Proof.
  intros I Hl H0 i. destruct (call_of s i) as [c|] eqn:Hc; [|done]. exfalso.
  destruct (in_section (Some c)) eqn:Hs.
  - assert (lock s = Some i); [|congruence]. apply (inv_lock s I). by rewrite Hc.
  - unfold call_of in Hc. destruct (agents s !! i) as [a|] eqn:Hi; [|done]. cbn in Hc.
    apply (count_starts_zero _ i a) in H0; [|done]. unfold is_start in H0. rewrite Hc in H0.
    by destruct c.
Qed.

Lemma quiet_blocked s w n :
  inv s -> quiet s -> owner_of s w = Some (FutureWait n WAITING) ->
  exists h k ws, waiters s = h :: ws /\ w ∈ h :: ws /\
    owner_of s h = Some (FutureWait k WAITING) /\ permits s + pending s < k.
Proof.
  intros I Hq Hw. assert (lock s = None) as Hl.
  { destruct (lock s) as [i|] eqn:E; [|done]. apply (inv_lock s I) in E. by rewrite Hq in E. }
  assert (popped s = []) as Hp by (unfold popped; by rewrite Hl).
  pose proof (inv_queued s I w n Hw) as Hin. rewrite Hp in Hin. cbn in Hin.
  destruct (waiters s) as [|h ws] eqn:Hws; [by apply not_elem_of_nil in Hin|].
  destruct (inv_blocked s I h ws Hl Hws) as [[Hst Hlt]|(j & k & Hj)]; [|by rewrite Hq in Hj].
  rewrite status_owner in Hst. rewrite wanted_owner in Hlt.
  destruct (owner_of s h) as [[| |k []| | | |]|] eqn:Hh; try done.
  exists h, k, ws. split_conj; try done.
  assert (permits s = 0); [|lia]. apply (inv_zero s I). by rewrite Hp, Hws.
Qed.

(** ** What the semaphore promises *)

(** No permit is lost or made up. In every reachable state the permits in
    the counter and in the queue, those held by guards, those granted to a
    future that has not been polled since, and those being released add up to
    what was brought in; and no operation of the semaphore overflows. *)
Theorem semaphore_conservation n s :
  0 <= n <= usize_max -> reachable n s ->
  permits s + pending s + zsum share (agents s) = supply s /\
  0 <= permits s /\ 0 <= pending s /\ Forall (fun a => 0 <= share a) (agents s) /\
  forall act, match act with ReleasePart _ _ => False | _ => True end -> exec act s <> Panicked.
Proof.
  intros Hn Hr. apply reachable_inv in Hr as I; [|done].
  split_conj; try apply I.
  - eapply Forall_impl; [apply I|apply share_nonneg].
  - intros act. by apply no_panic.
Qed.

(** The semaphore is fair. A step either leaves the queue of waiting
    futures alone, or appends the future that enqueues itself, or removes the
    first one, which has then been granted its permits or was dropped; and a
    future that is granted its permits was the first in the queue. *)
Theorem semaphore_fifo n s act s' :
  0 <= n <= usize_max -> reachable n s -> valid act s -> exec act s = Step s' ->
  queue_step s s' act /\
  forall w, status s w = Some WAITING -> status s' w = Some ACQUIRED -> queue s = w :: queue s'.
Proof.
  intros Hn Hr Hv He. apply reachable_inv in Hr as I; [|done].
  assert (inv s') as I' by (by eapply exec_inv). apply exec_queue in He as Hq; [|done..].
  split; [done|]. intros w Hw Hw'.
  assert (w ∈ queue s) as Hin.
  { rewrite status_owner in Hw. destruct (owner_of s w) as [[| |k st| | | |]|] eqn:Ho; try done.
    injection Hw as ->. by eapply (inv_queued s I). }
  assert (w ∉ queue s') as Hout.
  { intros H. apply (inv_status s' I') in H. destruct H; congruence. }
  destruct Hq as [E|[(i & _ & E)|(i & w' & _ & E & _)]]; rewrite E in *; [done|set_solver|].
  apply elem_of_cons in Hin as [->|Hin]; done.
Qed.

(** A future that has been given its permits has been woken. *)
Definition all_woken (l : list Agent) (woken : list nat) : Prop :=
  forall w a k, l !! w = Some a -> owner a = FutureWait k ACQUIRED -> w ∈ woken.

Lemma all_woken_insert l woken i a :
  all_woken l woken -> (forall k, owner a = FutureWait k ACQUIRED -> i ∈ woken) -> all_woken (<[i := a]> l) woken.
Proof. intros H Ha w b k [(-> & <- & _)|[_ Hw]]%list_lookup_insert_Some; [apply Ha|by eapply H]. Qed.

Lemma all_woken_add l woken a :
  all_woken l woken -> (forall k, owner a <> FutureWait k ACQUIRED) -> all_woken (l ++ [a]) woken.
Proof.
  intros H Ha w b k [Hw|[_ Hw]]%lookup_app_Some Hb; [by eapply H|].
  destruct (w - length l)%nat; [|done]. injection Hw as <-. by destruct (Ha k).
Qed.

Lemma release_woken i a s s' :
  agents s !! i = Some a -> release i a s = Step s' -> all_woken (agents s) (woken s) -> all_woken (agents s') (woken s').
Proof.
  intros Hi Hr H. assert (Hown : forall k, owner a = FutureWait k ACQUIRED -> i ∈ woken s) by (intros k; by eapply H).
  unfold release in Hr. destruct (call a) as [[n| |w|]|]; [| | | |done].
  - destruct (lock s); [done|]. destruct (_ <? _); [done|]. injection Hr as <-. by apply all_woken_insert.
  - destruct (waiters s) as [|w ws]; [injection Hr as <-; by apply all_woken_insert|].
    case_decide; [by injection Hr as <-|]. destruct (_ <? _); injection Hr as <-; by apply all_woken_insert.
  - case_decide; [|injection Hr as <-; by apply all_woken_insert].
    destruct (agents _ !! w); [|done]. injection Hr as <-. cbn.
    apply all_woken_insert; [apply all_woken_insert|intros; by left].
    + intros w' b k Hw Hb. right. by eapply H.
    + intros k Hk. right. by eapply Hown.
  - injection Hr as <-. by apply all_woken_insert.
Qed.

Lemma exec_woken act s s' :
  exec act s = Step s' -> all_woken (agents s) (woken s) -> all_woken (agents s') (woken s').
Proof.
  intros He H. unfold exec, with_agent in He.
  destruct act as [n|n|i|i|i|i|i n|i|n|i]; try (destruct (agents s !! i) as [a|] eqn:Hi; [|done]).
  1-2, 9: unfold try_acquire in He; repeat case_match; simplify_eq; by try apply all_woken_add.
  7: by eapply release_woken.
  all: unfold poll, poll_again, enqueue, drop_agent, release_part, forget, try_acquire in He;
    repeat case_match; simplify_eq; cbn; try done;
    repeat first [apply all_woken_add; [|done] | apply all_woken_insert; [|done]]; done.
Qed.

Lemma run_woken acts s s' :
  run acts s = Some s' -> all_woken (agents s) (woken s) -> all_woken (agents s') (woken s').
Proof.
  revert s. induction acts as [|act acts IH]; intros s H; cbn in *; [by simplify_eq|].
  destruct (exec act s) eqn:He; try done. intros Hw. eapply IH; [done|]. by eapply exec_woken.
Qed.

Lemma reachable_woken n s : reachable n s -> all_woken (agents s) (woken s).
Proof. induction 1 as [|act s s' _ IH _ He]; [by intros w a k H|by eapply exec_woken]. Qed.

(** C28: no wake-up is lost. From every reachable state the calls of [release]
    in progress can run to their end, and once they have, a future is only
    left waiting if the first in the queue wants more permits than there are;
    and the task of every future that has been given permits and not taken
    them yet has been woken. *)
Theorem semaphore_no_lost_wakeup n s :
  0 <= n <= usize_max -> reachable n s ->
  exists acts s', Forall is_run acts /\ run acts s = Some s' /\ quiet s' /\
    (forall w k, owner_of s' w = Some (FutureWait k WAITING) ->
      exists h j ws, waiters s' = h :: ws /\ w ∈ h :: ws /\
        owner_of s' h = Some (FutureWait j WAITING) /\ permits s' + pending s' < j) /\
    (forall w k, owner_of s' w = Some (FutureWait k ACQUIRED) -> w ∈ woken s').
Proof.
  intros Hn Hr. pose proof (reachable_woken n s Hr) as Hwk. apply reachable_inv in Hr as I; [|done].
  assert (exists acts s1, Forall is_run acts /\ run acts s = Some s1 /\ lock s1 = None)
    as (acts1 & s1 & Hf1 & Hr1 & Hl1).
  { destruct (lock s) as [i|] eqn:Hl; [|by exists [], s].
    apply (inv_lock s I) in Hl. unfold call_of in Hl. destruct (agents s !! i) as [a|] eqn:Hi; [|done].
    destruct (unlock s i a (to_go s (call a)) I Hi Hl) as (acts & s1 & H1 & H2 & H3 & _); [done|].
    by exists acts, s1. }
  assert (inv s1) as I1 by (by eapply run_inv).
  destruct (settle s1 (starts s1) I1 Hl1) as (acts2 & s2 & Hf2 & Hr2 & Hl2 & Hs2); [done|].
  assert (inv s2) as I2 by (by eapply run_inv).
  exists (acts1 ++ acts2), s2. split_conj.
  - by apply Forall_app.
  - by erewrite run_app.
  - by apply settled_quiet.
  - intros w k. apply quiet_blocked; [done|by apply settled_quiet].
  - intros w k. unfold owner_of. destruct (agents s2 !! w) as [a|] eqn:Ha; [|done]. intros [= Ho].
    eapply (run_woken acts2 s1), Ho; [done| |done]. by eapply run_woken.
Qed.

(** ** Runs *)

(** Every action of the list is valid where it happens. *)
Fixpoint valid_run (acts : list Action) (s : Semaphore) : Prop :=
  match acts with
  | [] => True
  | act :: acts =>
      valid act s /\ match exec act s with Step s' => valid_run acts s' | _ => False end
  end.

Lemma run_reachable n acts s s' :
  reachable n s -> valid_run acts s -> run acts s = Some s' -> reachable n s'.
Proof.
  revert s. induction acts as [|act acts IH]; intros s Hr Hv H; cbn in *; [by simplify_eq|].
  destruct Hv as [Hv Hv']. destruct (exec act s) as [| |s1] eqn:He; try done.
  apply (IH s1); [|done..]. by eapply reachable_step.
Qed.

Module Runs.

(** A guard is held, a second future waits, the guard is dropped and its
    [release] has started. *)
Definition contended : Semaphore :=
  default (new 1) (run [TryAcquire 1; Acquire 1; Poll 1; Enqueue 1; Drop 0; Run 0; Run 0] (new 1)).

Lemma contended_reachable : reachable 1 contended.
Proof.
  apply (run_reachable 1
    [TryAcquire 1; Acquire 1; Poll 1; Enqueue 1; Drop 0; Run 0; Run 0] (new 1) contended (reachable_new 1)).
  - vm_compute. repeat split; discriminate.
  - vm_compute. reflexivity.
Qed.

Lemma one_permit : 0 <= 1 <= usize_max.
Proof. vm_compute. split; discriminate. Qed.

Lemma semaphore_conservation_witness :
  permits contended + pending contended + zsum share (agents contended) = 1.
Proof. exact (proj1 (semaphore_conservation 1 contended one_permit contended_reachable)). Defined.

Lemma semaphore_fifo_witness :
  exists s', exec (Run 0) contended = Step s' /\ queue contended = 1%nat :: queue s'.
Proof.
  eexists. split; [vm_compute; reflexivity|].
  refine (proj2 (semaphore_fifo 1 contended (Run 0) _ one_permit contended_reachable Logic.I _) _ _ _);
    vm_compute; reflexivity.
Defined.

Lemma semaphore_no_lost_wakeup_witness :
  exists acts s', run acts contended = Some s' /\ quiet s'.
Proof.
  destruct (semaphore_no_lost_wakeup 1 contended one_permit contended_reachable)
    as (acts & s' & _ & H & Hq & _).
  exists acts, s'. split; assumption.
Defined.

End Runs.
