(* ===== verification/Locks.v ===== *)
(** * Mutex and read-write lock (library/async_locks/src/mutex.rs, rwlock.rs)

    Both are a value with a semaphore: a mutex has one permit, a read-write
    lock [usize::MAX] of them, a reader takes one and a writer all. The
    theorems are exclusion for every interleaving of the operations, and the
    step that breaks it: polling a lock future again after it is ready. *)
From S2P Require Import Prelude Semaphore SemaphoreSpec.

(** ** The permits agents ask for *)

Definition wants (P : Z -> Prop) (a : Agent) : Prop :=
  match owner a with
  | FutureNew n | FutureTried n | FutureWait n _ | Guard n => P n
  | _ => True
  end.

Definition asks (P : Z -> Prop) (s : Semaphore) (act : Action) : Prop :=
  match act with
  | Acquire n | TryAcquire n => P n
  | ReleasePart i k => forall n, owner_of s i = Some (Guard n) -> P (n - k)
  | PollAgain _ => False
  | _ => True
  end.

Lemma exec_wants P act s s' :
  Forall (wants P) (agents s) -> asks P s act -> exec act s = Step s' -> Forall (wants P) (agents s').
Proof.
  intros Hs Hact He.
  assert (Hag : forall i f, with_agent i s f = Step s' ->
    exists a, agents s !! i = Some a /\ f a s = Step s' /\ wants P a).
  { intros i f. unfold with_agent. destruct (agents s !! i) as [a|] eqn:Hi; [|done].
    intros H. exists a. split_conj; [done..|]. by eapply Forall_lookup_1. }
  destruct act as [n|n|i|i|i|i|i k|i|n|i]; cbn in He, Hact; try done;
    try (apply Hag in He as (a & Hi & He & Ha); destruct a as [o c]; cbn in He).
  - injection He as <-. apply Forall_app_2; [done|by repeat constructor].
  - destruct (try_acquire n s) as [s1|] eqn:Ht; injection He as <-; [|done].
    apply try_acquire_Some in Ht as [_ ->]. apply Forall_app_2; [done|by repeat constructor].
  - destruct o as [n|n|n st| | |n|], c; try done.
    + destruct (try_acquire n s) as [s1|] eqn:Ht; injection He as <-.
      * apply try_acquire_Some in Ht as [_ ->]. cbn.
        apply Forall_app_2; [by apply Forall_insert|by repeat constructor].
      * by apply Forall_insert.
    + case_decide; injection He as <-; [|done]. cbn.
      apply Forall_app_2; [by apply Forall_insert|by repeat constructor].
  - destruct o as [n|n|n st| | |n|], c; try done. destruct (lock s); [done|].
    destruct (_ <? _); [done|]. injection He as <-. cbn. by apply Forall_insert.
  - destruct o as [n|n|n st| | |n|], c; try done; injection He as <-; by apply Forall_insert.
  - destruct o as [n|n|n st| | |n|], c; try done. destruct (_ <? _); [done|]. injection He as <-.
    apply Forall_insert; [done|]. apply Hact. by apply (owner_of_agent s i _ Hi).
  - destruct o as [n|n|n st| | |n|], c; try done. injection He as <-. by apply Forall_insert.
  - injection He as <-. apply Forall_app_2; [done|by repeat constructor].
  - assert (Hset : forall c', Forall (wants P) (<[i := mkAgent o c']> (agents s)))
      by (intros c'; by apply Forall_insert).
    unfold release in He. cbn in He. destruct c as [[n| |w|]|]; [| | | |done].
    + destruct (lock s); [done|]. destruct (_ <? _); [done|]. injection He as <-. apply Hset.
    + destruct (waiters s); [injection He as <-; apply Hset|].
      case_decide; [by injection He as <-|]. destruct (_ <? _); injection He as <-; apply Hset.
    + case_decide as Hst; [|injection He as <-; apply Hset].
      destruct (_ !! w) as [b|] eqn:Hb in He; [|done]. injection He as <-. cbn.
      apply Forall_insert; [done|]. cbn.
      assert (exists x, agents s !! w = Some x /\ owner x = FutureWait (wanted s w) WAITING)
        as (x & Hx & Ho).
      { rewrite status_owner in Hst. rewrite wanted_owner. unfold owner_of in *.
        destruct (agents s !! w) as [[[] ?]|]; cbn in *; simplify_eq; eauto. }
      pose proof (Forall_lookup_1 _ _ _ _ Hs Hx) as Hw. unfold wants in Hw. by rewrite Ho in Hw.
    + injection He as <-. apply Hset.
Qed.

(** Only forgetting a guard and an outside call of [release] change the supply. *)
Lemma supply_same act s s' :
  match act with ReleaseCall _ | Forget _ => False | _ => True end ->
  exec act s = Step s' -> supply s' = supply s.
Proof.
  intros Hact He.
  destruct act as [n|n|i|i|i|i|i k|i|n|i]; cbn in He; try done;
    try (unfold with_agent in He; destruct (agents s !! i) as [[o c]|] eqn:Hi; [|done]).
  - by injection He as <-.
  - unfold try_acquire in He. by destruct (_ <? _); injection He as <-.
  - destruct o, c; cbn in He; try done.
    + unfold try_acquire in He. by destruct (_ <? _); injection He as <-.
    + by case_decide; injection He as <-.
  - destruct o, c; cbn in He; try done. by injection He as <-.
  - destruct o, c; cbn in He; try done. destruct (lock s); [done|].
    destruct (_ <? _); [done|]. by injection He as <-.
  - destruct o, c; cbn in He; try done; by injection He as <-.
  - destruct o, c; cbn in He; try done. destruct (_ <? _); [done|]. by injection He as <-.
  - unfold release in He. cbn in He. destruct c as [[n| |w|]|]; [| | | |done].
    + destruct (lock s); [done|]. destruct (_ <? _); [done|]. by injection He as <-.
    + destruct (waiters s); [by injection He as <-|].
      case_decide; [by injection He as <-|]. by destruct (_ <? _); injection He as <-.
    + case_decide; [|by injection He as <-]. destruct (_ !! w); [|done]. by injection He as <-.
    + by injection He as <-.
Qed.

Lemma supply_forget i s s' :
  exec (Forget i) s = Step s' ->
  exists n, agents s !! i = Some (idle (Guard n)) /\ supply s' = supply s - n.
Proof.
  cbn. unfold with_agent. destruct (agents s !! i) as [[[| | | | |n|] []]|]; cbn; try done.
  intros [= <-]. by exists n.
Qed.

(** Two agents that hold permits together hold no more than all of them. *)
Lemma zsum_two l i j a b :
  Forall sizes_ok l -> i <> j -> l !! i = Some a -> l !! j = Some b -> share a + share b <= zsum share l.
Proof.
  intros Hs Hij Hi Hj.
  assert (Hb : <[i := idle Gone]> l !! j = Some b) by (by rewrite list_lookup_insert_ne).
  assert (Forall sizes_ok (<[i := idle Gone]> l)) as Hs' by (by apply Forall_insert; [|split]).
  pose proof (zsum_share_le _ _ _ Hs' Hb) as Hle. rewrite (zsum_insert _ _ _ a) in Hle by done.
  assert (share (idle Gone) = 0) by done. lia.
Qed.

Lemma two_guards n s i j a b k k' :
  0 <= n <= usize_max -> reachable n s -> agents s !! i = Some a -> agents s !! j = Some b ->
  owner a = Guard k -> owner b = Guard k' -> supply s < k + k' -> i = j.
Proof.
  intros Hn Hr Hi Hj Ha Hb Hsup. destruct (decide (i = j)) as [|Hne]; [done|]. exfalso.
  apply reachable_inv in Hr as I; [|done].
  pose proof (zsum_two _ _ _ _ _ (inv_sizes s I) Hne Hi Hj) as Hle.
  pose proof (sizes_of s i a I Hi) as [_ Hca]. pose proof (sizes_of s j b I Hj) as [_ Hcb].
  unfold share in Hle at 1 2. rewrite Ha, Hb in Hle. cbn in Hle.
  pose proof (inv_total s I). pose proof (inv_permits s I). pose proof (inv_pending s I). lia.
Qed.

(** ** Mutex *)

Module Mutex.
Section mutex.
  Context {T : Type}.

Record Mutex : Type := mkMutex { data : T; semaphore : Semaphore }.

Definition new (d : T) : Mutex := mkMutex d (Semaphore.new 1).

(** The operations of the mutex, its futures and its guards. [Tick] is a step
    inside a poll or a release that has begun; [Write i f] changes the value
    through the [DerefMut] of guard [i]. *)
Inductive Op : Type :=
  | Lock
  | TryLock
  | PollLock (i : nat)
  | DropFutureOrGuard (i : nat)
  | ForgetGuard (i : nat)
  | Tick (i : nat)
  | Write (i : nat) (f : T -> T).

(** A guard that is not inside its own release. *)
Definition holds (m : Mutex) (i : nat) : bool :=
  match agents (semaphore m) !! i with
  | Some (mkAgent (Guard _) None) => true
  | _ => false
  end.

Definition lift (m : Mutex) (r : Result) : option Mutex :=
  match r with
  | Step s => Some (mkMutex (data m) s)
  | _ => None
  end.

(** [None]: the operation cannot be made in this state. *)
Definition step (o : Op) (m : Mutex) : option Mutex :=
  let s := semaphore m in
  match o with
  | Lock => lift m (exec (Acquire 1) s)
  | TryLock => lift m (exec (TryAcquire 1) s)
  | PollLock i => lift m (exec (Poll i) s)
  | DropFutureOrGuard i => lift m (exec (Drop i) s)
  | ForgetGuard i => lift m (exec (Forget i) s)
  | Tick i =>
      match exec (Enqueue i) s with
      | Disabled => lift m (exec (Run i) s)
      | r => lift m r
      end
  | Write i f => if holds m i then Some (mkMutex (f (data m)) s) else None
  end.

Inductive reached (d : T) : Mutex -> Prop :=
  | reached_new : reached d (new d)
  | reached_step o m m' : reached d m -> step o m = Some m' -> reached d m'.

Lemma mutex_reached_inv d m :
  reached d m ->
  reachable 1 (semaphore m) /\ Forall (wants (fun n => n = 1)) (agents (semaphore m)) /\
  supply (semaphore m) <= 1.
Proof.
  induction 1 as [|o m m' _ (Hr & Hw & Hsup) Hs]; [split_conj; [constructor|constructor|done]|].
  assert (Hexec : forall act, valid act (semaphore m) -> asks (fun n => n = 1) (semaphore m) act ->
    match act with ReleaseCall _ => False | _ => True end ->
    lift m (exec act (semaphore m)) = Some m' ->
    reachable 1 (semaphore m') /\ Forall (wants (fun n => n = 1)) (agents (semaphore m')) /\
    supply (semaphore m') <= 1).
  { intros act Hv Ha Hn Hl. destruct (exec act (semaphore m)) as [| |s'] eqn:He; try done.
    injection Hl as <-. cbn. assert (inv (semaphore m)) as I by (by apply (reachable_inv 1)).
    split_conj; [by eapply reachable_step|by eapply exec_wants|].
    destruct act; try (apply supply_same in He as ->; done); try done.
    apply supply_forget in He as (k & Hk & ->). pose proof (sizes_of _ _ _ I Hk) as [Hs' _].
    cbn in Hs'. lia. }
  destruct o as [| |i|i|i|i|i f]; cbn in Hs.
  - by apply (Hexec (Acquire 1)).
  - by apply (Hexec (TryAcquire 1)).
  - by apply (Hexec (Poll i)).
  - by apply (Hexec (Drop i)).
  - by apply (Hexec (Forget i)).
  - destruct (with_agent i (semaphore m) (enqueue i)) eqn:He.
    + by apply (Hexec (Run i)).
    + done.
    + apply (Hexec (Enqueue i)); try done. cbn. by rewrite He.
  - destruct (holds m i); [|done]. by injection Hs as <-.
Qed.

(** A mutex has at most one guard. Whatever tasks lock, wait, cancel,
    unlock and however their steps interleave, two guards that exist at the
    same time are the same one, so only one task at a time reaches the value. *)
Theorem mutex_exclusive d m i j :
  reached d m -> holds m i = true -> holds m j = true -> i = j.
Proof.
  intros Hr Hi Hj. apply mutex_reached_inv in Hr as (Hreach & Hw & Hsup).
  unfold holds in Hi, Hj.
  destruct (agents (semaphore m) !! i) as [[[| | | | |k|] [c|]]|] eqn:Ei; try done.
  destruct (agents (semaphore m) !! j) as [[[| | | | |k'|] [c'|]]|] eqn:Ej; try done.
  pose proof (Forall_lookup_1 _ _ _ _ Hw Ei) as Hk. pose proof (Forall_lookup_1 _ _ _ _ Hw Ej) as Hk'.
  cbn in Hk, Hk'. subst k k'.
  eapply (two_guards 1); [done|done|exact Ei|exact Ej|done|done|lia].
Qed.

Fixpoint steps (os : list Op) (m : Mutex) : option Mutex :=
  match os with
  | [] => Some m
  | o :: os => match step o m with Some m' => steps os m' | None => None end
  end.

Lemma mutex_steps_reached d os m m' : reached d m -> steps os m = Some m' -> reached d m'.
Proof.
  revert m. induction os as [|o os IH]; intros m Hm H; cbn in H; [by simplify_eq|].
  destruct (step o m) as [m1|] eqn:Ho; [|done]. apply (IH m1); [|done]. by eapply reached_step.
Qed.

End mutex.

(** Task 0 holds the mutex, task 1 waits for it. *)
Definition busy : @Mutex Z :=
  default (new 5) (steps [TryLock; Lock; PollLock 1; Tick 1] (new 5)).

Lemma busy_reached : reached 5 busy.
Proof.
  apply (mutex_steps_reached 5 [TryLock; Lock; PollLock 1; Tick 1] (new 5)); [constructor|].
  vm_compute. reflexivity.
Qed.

Lemma mutex_exclusive_witness : exists j, holds busy j = true /\ (0 = j)%nat.
Proof.
  exists 0%nat. split; [vm_compute; reflexivity|].
  apply (mutex_exclusive 5 busy 0 0 busy_reached); vm_compute; reflexivity.
Defined.

(** Polling a lock future again after it is ready gives a second guard.
    A future that had to wait returns its guard on the poll that finds the
    status [STATUS_ACQUIRED]; the status stays, so the next poll returns
    another guard, without a permit: two guards, and two exclusive borrows of
    the value, exist at the same time. *)
Theorem mutex_poll_after_ready :
  exists s,
    run [TryAcquire 1; Acquire 1; Poll 1; Enqueue 1; Run 1; Run 1; Drop 0; Run 0; Run 0; Run 0;
         Run 0; Run 0; Poll 1; PollAgain 1] (semaphore (new 5)) = Some s /\
    holds (mkMutex 5 s) 2 = true /\ holds (mkMutex 5 s) 3 = true.
Proof. eexists. split_conj; vm_compute; reflexivity. Qed.

End Mutex.

(** ** Read-write lock *)

Module RwLock.
Section rwlock.
  Context {T : Type}.

Record RwLock : Type := mkRwLock { data : T; semaphore : Semaphore }.

Definition new (d : T) : RwLock := mkRwLock d (Semaphore.new usize_max).

Inductive Op : Type :=
  | Read
  | ReadTry
  | Write
  | WriteTry
  | PollLock (i : nat)
  | DropFutureOrGuard (i : nat)
  | ForgetGuard (i : nat)
  | Downgrade (i : nat)
  | Tick (i : nat)
  | SetData (i : nat) (f : T -> T).

(** A guard with [n] permits that is not inside its own release. *)
Definition holds (m : RwLock) (n : Z) (i : nat) : bool :=
  match agents (semaphore m) !! i with
  | Some (mkAgent (Guard k) None) => k =? n
  | _ => false
  end.

Definition reads (m : RwLock) (i : nat) : bool := holds m 1 i.
Definition writes (m : RwLock) (i : nat) : bool := holds m usize_max i.

Definition lift (m : RwLock) (r : Result) : option RwLock :=
  match r with
  | Step s => Some (mkRwLock (data m) s)
  | _ => None
  end.

Definition step (o : Op) (m : RwLock) : option RwLock :=
  let s := semaphore m in
  match o with
  | Read => lift m (exec (Acquire 1) s)
  | ReadTry => lift m (exec (TryAcquire 1) s)
  | Write => lift m (exec (Acquire usize_max) s)
  | WriteTry => lift m (exec (TryAcquire usize_max) s)
  | PollLock i => lift m (exec (Poll i) s)
  | DropFutureOrGuard i => lift m (exec (Drop i) s)
  | ForgetGuard i => lift m (exec (Forget i) s)
  | Downgrade i => if writes m i then lift m (exec (ReleasePart i (usize_max - 1)) s) else None
  | Tick i =>
      match exec (Enqueue i) s with
      | Disabled => lift m (exec (Run i) s)
      | r => lift m r
      end
  | SetData i f => if writes m i then Some (mkRwLock (f (data m)) s) else None
  end.

Inductive reached (d : T) : RwLock -> Prop :=
  | reached_new : reached d (new d)
  | reached_step o m m' : reached d m -> step o m = Some m' -> reached d m'.

Definition one_or_all (n : Z) : Prop := n = 1 \/ n = usize_max.

Lemma rwlock_reached_inv d m :
  reached d m ->
  reachable usize_max (semaphore m) /\ Forall (wants one_or_all) (agents (semaphore m)).
Proof.
  induction 1 as [|o m m' _ (Hr & Hw) Hs]; [split; constructor|].
  assert (Hexec : forall act, valid act (semaphore m) -> asks one_or_all (semaphore m) act ->
    lift m (exec act (semaphore m)) = Some m' ->
    reachable usize_max (semaphore m') /\ Forall (wants one_or_all) (agents (semaphore m'))).
  { intros act Hv Ha Hl. destruct (exec act (semaphore m)) as [| |s'] eqn:He; try done.
    injection Hl as <-. split; [by eapply reachable_step|by eapply exec_wants]. }
  destruct o as [| | | |i|i|i|i|i|i f]; cbn in Hs.
  - by apply (Hexec (Acquire 1)); [|left|].
  - by apply (Hexec (TryAcquire 1)); [|left|].
  - by apply (Hexec (Acquire usize_max)); [|right|].
  - by apply (Hexec (TryAcquire usize_max)); [|right|].
  - by apply (Hexec (Poll i)).
  - by apply (Hexec (Drop i)).
  - by apply (Hexec (Forget i)).
  - destruct (writes m i) eqn:Hwr; [|done]. apply (Hexec (ReleasePart i (usize_max - 1))); [done| |done].
    intros n Hn. left. unfold writes, holds, owner_of in *.
    destruct (agents (semaphore m) !! i) as [[[| | | | |k|] [c|]]|]; try done.
    bool_to_prop. cbn in Hn. simplify_eq. lia.
  - destruct (with_agent i (semaphore m) (enqueue i)) eqn:He.
    + by apply (Hexec (Run i)).
    + done.
    + apply (Hexec (Enqueue i)); try done. cbn. by rewrite He.
  - destruct (writes m i); [|done]. by injection Hs as <-.
Qed.

(** A writer of the read-write lock is alone. In every state reached by
    readers and writers that lock, wait, cancel, downgrade and unlock, while a
    write guard exists no other guard does, neither for reading nor for
    writing. *)
Theorem rwlock_exclusive d m i j :
  reached d m -> writes m i = true -> reads m j || writes m j = true -> i = j.
Proof.
  intros Hr Hi Hj. apply rwlock_reached_inv in Hr as (Hreach & Hw).
  assert (inv (semaphore m)) as I by (by apply (reachable_inv usize_max)).
  unfold writes, reads, holds in Hi, Hj.
  destruct (agents (semaphore m) !! i) as [[[| | | | |k|] [c|]]|] eqn:Ei; try done.
  destruct (agents (semaphore m) !! j) as [[[| | | | |k'|] [c'|]]|] eqn:Ej; try done.
  pose proof (Forall_lookup_1 _ _ _ _ Hw Ej) as Hk'. cbn in Hk'. bool_to_prop. subst k.
  eapply (two_guards usize_max); [done|done|exact Ei|exact Ej|done|done|].
  pose proof (inv_supply _ I). destruct Hk'; subst; unfold usize_max in *; lia.
Qed.

Fixpoint steps (os : list Op) (m : RwLock) : option RwLock :=
  match os with
  | [] => Some m
  | o :: os => match step o m with Some m' => steps os m' | None => None end
  end.

Lemma rwlock_steps_reached d os m m' : reached d m -> steps os m = Some m' -> reached d m'.
Proof.
  revert m. induction os as [|o os IH]; intros m Hm H; cbn in H; [by simplify_eq|].
  destruct (step o m) as [m1|] eqn:Ho; [|done]. apply (IH m1); [|done]. by eapply reached_step.
Qed.

End rwlock.

(** A reader lets go, a waiting writer gets the lock. *)
Definition written : @RwLock Z :=
  default (new 5) (steps [ReadTry; Write; PollLock 1; Tick 1; Tick 1; Tick 1; DropFutureOrGuard 0;
    Tick 0; Tick 0; Tick 0; Tick 0; Tick 0; PollLock 1] (new 5)).

Lemma written_reached : reached 5 written.
Proof.
  eapply (rwlock_steps_reached 5 [ReadTry; Write; PollLock 1; Tick 1; Tick 1; Tick 1; DropFutureOrGuard 0;
    Tick 0; Tick 0; Tick 0; Tick 0; Tick 0; PollLock 1] (new 5)); [constructor|].
  vm_compute. reflexivity.
Qed.

Lemma rwlock_exclusive_witness : exists j, writes written j = true /\ (2 = j)%nat.
Proof.
  exists 2%nat. split; [vm_compute; reflexivity|].
  apply (rwlock_exclusive 5 written 2 2 written_reached); vm_compute; reflexivity.
Defined.

End RwLock.
