(* ===== verification/Spsc.v ===== *)
(** * The single-producer single-consumer channel
      (library/async_locks/src/channel/spsc.rs)

    The ring buffer, the two semaphores of [Semaphore.v], the state words of
    both ends, the sender and the receiver with the point of their operation
    they are at. A step is one atomic action of one end, or a step of one of
    the semaphores. A call of [Semaphore::release] runs beside the end that
    made it: the ends can do more here than in the code, never less.

    Wakers are not modelled: which task runs next is any of those that can. *)
From S2P Require Import Prelude Semaphore SemaphoreSpec.

(** [STATE_*] *)
Inductive EndState : Type := STATE_IDLE | STATE_WAITING | STATE_DROP.

#[export] Instance EndState_eq_dec : EqDecision EndState.
Proof. solve_decision. Defined.


Section spsc.
  Context {T : Type}.

(** Where the sender is: in [try_send] after the look at [txstate]; in the
    states of [SendReserveFuture]; with a permit taken; with the slot written. *)
Inductive Tx : Type :=
  | TxIdle
  | TxTry (d : T)
  | TxInit (d : T)
  | TxAcquiring (d : T) (fut : nat)
  | TxReserved (d : T)
  | TxWritten
  | TxDropped.

Inductive Rx : Type :=
  | RxIdle
  | RxTried                       (* try_recv, after a failed try_acquire *)
  | RxLast                        (* recv, the sender is lost *)
  | RxInit
  | RxAcquiring (fut : nat)
  | RxReserved
  | RxTaken
  | RxDropped.

Record Channel : Type := mkChannel {
  size : Z;
  buffer : list (option T);
  producer : Semaphore;
  consumer : Semaphore;
  txstate : EndState;
  rxstate : EndState;
  tx_index : Z;
  rx_index : Z;
  lost_receiver : bool;
  lost_sender : bool;
  tx : Tx;
  rx : Rx;
  sent : list T;        (* written to the buffer, in order *)
  received : list T;    (* taken out of it, in order *)
}.

(** [channel]; the assertion on the size is a hypothesis of the theorems. *)
Definition channel (n : Z) : Channel :=
  mkChannel n (replicate (Z.to_nat n) None) (Semaphore.new n) (Semaphore.new 0)
    STATE_IDLE STATE_IDLE 0 0 false false TxIdle RxIdle [] [].

(** The outcome of a step: [Panic] is [expect] on an empty slot or an index
    that overflows. *)
Inductive Outcome : Type :=
  | Blocked
  | Panics
  | Next (c : Channel).

Definition set_tx (t : Tx) (c : Channel) : Channel :=
  mkChannel (size c) (buffer c) (producer c) (consumer c) (txstate c) (rxstate c)
    (tx_index c) (rx_index c) (lost_receiver c) (lost_sender c) t (rx c) (sent c) (received c).
Definition set_rx (r : Rx) (c : Channel) : Channel :=
  mkChannel (size c) (buffer c) (producer c) (consumer c) (txstate c) (rxstate c)
    (tx_index c) (rx_index c) (lost_receiver c) (lost_sender c) (tx c) r (sent c) (received c).
Definition set_producer (s : Semaphore) (c : Channel) : Channel :=
  mkChannel (size c) (buffer c) s (consumer c) (txstate c) (rxstate c)
    (tx_index c) (rx_index c) (lost_receiver c) (lost_sender c) (tx c) (rx c) (sent c) (received c).
Definition set_consumer (s : Semaphore) (c : Channel) : Channel :=
  mkChannel (size c) (buffer c) (producer c) s (txstate c) (rxstate c)
    (tx_index c) (rx_index c) (lost_receiver c) (lost_sender c) (tx c) (rx c) (sent c) (received c).
Definition set_txstate (e : EndState) (c : Channel) : Channel :=
  mkChannel (size c) (buffer c) (producer c) (consumer c) e (rxstate c)
    (tx_index c) (rx_index c) (lost_receiver c) (lost_sender c) (tx c) (rx c) (sent c) (received c).
Definition set_rxstate (e : EndState) (c : Channel) : Channel :=
  mkChannel (size c) (buffer c) (producer c) (consumer c) (txstate c) e
    (tx_index c) (rx_index c) (lost_receiver c) (lost_sender c) (tx c) (rx c) (sent c) (received c).
Definition set_lost (r s : bool) (c : Channel) : Channel :=
  mkChannel (size c) (buffer c) (producer c) (consumer c) (txstate c) (rxstate c)
    (tx_index c) (rx_index c) r s (tx c) (rx c) (sent c) (received c).

(** [try_acquire(1)] and [forget] of its guard: the permit leaves the semaphore. *)
Definition try_take (s : Semaphore) : option Semaphore :=
  match exec (TryAcquire 1) s with
  | Step s' =>
      if (length (agents s) <? length (agents s'))%nat then
        match exec (Forget (length (agents s))) s' with
        | Step s'' => Some s''
        | _ => None
        end
      else None
  | _ => None
  end.

(** Poll an acquire future: [inl] the semaphore after [Pending], [inr] after
    [Ready] and [forget] of the guard. *)
Definition poll_take (fut : nat) (s : Semaphore) : option (Semaphore + Semaphore) :=
  match exec (Poll fut) s with
  | Step s' =>
      if (length (agents s) <? length (agents s'))%nat then
        match exec (Forget (length (agents s))) s' with
        | Step s'' => Some (inr s'')
        | _ => None
        end
      else Some (inl s')
  | _ => None
  end.

(** Drop an acquire future, if it is in a state in which that does something. *)
Definition drop_future (fut : nat) (s : Semaphore) : Semaphore :=
  match exec (Drop fut) s with
  | Step s' => s'
  | _ => s
  end.

(** [compare_exchange(STATE_WAITING, STATE_IDLE)] *)
Definition end_wait (e : EndState) : EndState :=
  if decide (e = STATE_WAITING) then STATE_IDLE else e.

(** ** The sender *)

(** [try_send]: the look at [txstate]. *)
Definition try_send_check (d : T) (c : Channel) : Outcome :=
  match tx c with
  | TxIdle =>
      if lost_receiver c || bool_decide (txstate c = STATE_DROP)
      then Next (set_lost true (lost_sender c) c)
      else Next (set_tx (TxTry d) c)
  | _ => Blocked
  end.

Definition try_send_acquire (c : Channel) : Outcome :=
  match tx c with
  | TxTry d =>
      match try_take (producer c) with
      | Some s => Next (set_tx (TxReserved d) (set_producer s c))
      | None => Next (set_tx TxIdle c)
      end
  | _ => Blocked
  end.

(** [send]: up to the first poll of its future. *)
Definition send_start (d : T) (c : Channel) : Outcome :=
  match tx c with
  | TxIdle => if lost_receiver c then Next c else Next (set_tx (TxInit d) c)
  | _ => Blocked
  end.

(** [SendReserveFuture::Init]: the compare-exchange and [acquire]. *)
Definition send_init (c : Channel) : Outcome :=
  match tx c with
  | TxInit d =>
      if decide (txstate c = STATE_IDLE) then
        match exec (Acquire 1) (producer c) with
        | Step s =>
            Next (set_tx (TxAcquiring d (length (agents (producer c))))
              (set_producer s (set_txstate STATE_WAITING c)))
        | _ => Blocked
        end
      else Next (set_tx TxIdle (set_lost true (lost_sender c) c))
  | _ => Blocked
  end.

(** [SendReserveFuture::Acquiring]: one poll of the future. *)
Definition send_poll (c : Channel) : Outcome :=
  match tx c with
  | TxAcquiring d fut =>
      if decide (txstate c = STATE_DROP) then
        Next (set_tx TxIdle (set_lost true (lost_sender c)
          (set_producer (drop_future fut (producer c)) c)))
      else
        match poll_take fut (producer c) with
        | Some (inr s) =>
            Next (set_tx (TxReserved d) (set_producer (drop_future fut s)
              (set_txstate (end_wait (txstate c)) c)))
        | Some (inl s) => Next (set_producer s c)
        | None => Blocked
        end
  | _ => Blocked
  end.

(** The future of [send] is dropped while it waits. *)
Definition send_cancel (c : Channel) : Outcome :=
  match tx c with
  | TxInit _ => Next (set_tx TxIdle c)
  | TxAcquiring _ fut =>
      Next (set_tx TxIdle (set_producer (drop_future fut (producer c))
        (set_txstate (end_wait (txstate c)) c)))
  | _ => Blocked
  end.

(** [write_solt]: the slot and the index, then the release. *)
Definition write_slot (c : Channel) : Outcome :=
  match tx c with
  | TxReserved d =>
      if usize_max <=? tx_index c then Panics
      else
        Next (mkChannel (size c) (<[Z.to_nat (tx_index c mod size c) := Some d]> (buffer c))
          (producer c) (consumer c) (txstate c) (rxstate c) (tx_index c + 1) (rx_index c)
          (lost_receiver c) (lost_sender c) TxWritten (rx c) (sent c ++ [d]) (received c))
  | _ => Blocked
  end.

Definition write_release (c : Channel) : Outcome :=
  match tx c with
  | TxWritten =>
      match exec (ReleaseCall 1) (consumer c) with
      | Step s => Next (set_tx TxIdle (set_consumer s c))
      | _ => Panics
      end
  | _ => Blocked
  end.

Definition drop_sender (c : Channel) : Outcome :=
  match tx c with
  | TxIdle => Next (set_tx TxDropped (set_rxstate STATE_DROP c))
  | _ => Blocked
  end.

(** ** The receiver *)

(** [try_recv]: the attempt, then the look at [rxstate]. *)
Definition try_recv_acquire (c : Channel) : Outcome :=
  match rx c with
  | RxIdle =>
      match try_take (consumer c) with
      | Some s => Next (set_rx RxReserved (set_consumer s c))
      | None => Next (set_rx RxTried c)
      end
  | _ => Blocked
  end.

Definition try_recv_check (c : Channel) : Outcome :=
  match rx c with
  | RxTried =>
      Next (set_rx RxIdle
        (set_lost (lost_receiver c) (lost_sender c || bool_decide (rxstate c = STATE_DROP)) c))
  | _ => Blocked
  end.

Definition recv_start (c : Channel) : Outcome :=
  match rx c with
  | RxIdle => if lost_sender c then Next (set_rx RxLast c) else Next (set_rx RxInit c)
  | _ => Blocked
  end.

(** The sender is lost: what it has sent before is still there. *)
Definition recv_last (c : Channel) : Outcome :=
  match rx c with
  | RxLast =>
      match try_take (consumer c) with
      | Some s => Next (set_rx RxReserved (set_consumer s c))
      | None => Next (set_rx RxIdle c)
      end
  | _ => Blocked
  end.

Definition recv_init (c : Channel) : Outcome :=
  match rx c with
  | RxInit =>
      if decide (rxstate c = STATE_IDLE) then
        match exec (Acquire 1) (consumer c) with
        | Step s =>
            Next (set_rx (RxAcquiring (length (agents (consumer c))))
              (set_consumer s (set_rxstate STATE_WAITING c)))
        | _ => Blocked
        end
      else Next (set_rx RxLast (set_lost (lost_receiver c) true c))
  | _ => Blocked
  end.

Definition recv_poll (c : Channel) : Outcome :=
  match rx c with
  | RxAcquiring fut =>
      if decide (rxstate c = STATE_DROP) then
        Next (set_rx RxLast (set_lost (lost_receiver c) true
          (set_consumer (drop_future fut (consumer c)) c)))
      else
        match poll_take fut (consumer c) with
        | Some (inr s) =>
            Next (set_rx RxReserved (set_consumer (drop_future fut s)
              (set_rxstate (end_wait (rxstate c)) c)))
        | Some (inl s) => Next (set_consumer s c)
        | None => Blocked
        end
  | _ => Blocked
  end.

Definition recv_cancel (c : Channel) : Outcome :=
  match rx c with
  | RxInit => Next (set_rx RxIdle c)
  | RxAcquiring fut =>
      Next (set_rx RxIdle (set_consumer (drop_future fut (consumer c))
        (set_rxstate (end_wait (rxstate c)) c)))
  | _ => Blocked
  end.

(** [recv_solt]: the slot and the index, then the release. *)
Definition recv_slot (c : Channel) : Outcome :=
  match rx c with
  | RxReserved =>
      let i := Z.to_nat (rx_index c mod size c) in
      match buffer c !! i with
      | Some (Some d) =>
          if usize_max <=? rx_index c then Panics
          else
            Next (mkChannel (size c) (<[i := None]> (buffer c))
              (producer c) (consumer c) (txstate c) (rxstate c) (tx_index c) (rx_index c + 1)
              (lost_receiver c) (lost_sender c) (tx c) RxTaken (sent c) (received c ++ [d]))
      | _ => Panics
      end
  | _ => Blocked
  end.

Definition recv_release (c : Channel) : Outcome :=
  match rx c with
  | RxTaken =>
      match exec (ReleaseCall 1) (producer c) with
      | Step s => Next (set_rx RxIdle (set_producer s c))
      | _ => Panics
      end
  | _ => Blocked
  end.

Definition drop_receiver (c : Channel) : Outcome :=
  match rx c with
  | RxIdle => Next (set_rx RxDropped (set_txstate STATE_DROP c))
  | _ => Blocked
  end.

(** ** The machine *)

Inductive Event : Type :=
  | TrySendCheck (d : T) | TrySendAcquire | SendStart (d : T) | SendInit | SendPoll | SendCancel
  | WriteSlot | WriteRelease | DropSender
  | TryRecvAcquire | TryRecvCheck | RecvStart | RecvLast | RecvInit | RecvPoll | RecvCancel
  | RecvSlot | RecvRelease | DropReceiver
  | ProducerTick (i : nat) | ConsumerTick (i : nat).

(** A step inside a poll or a release that has begun on a semaphore. *)
Definition sem_tick (i : nat) (s : Semaphore) : option Semaphore :=
  match exec (Enqueue i) s with
  | Step s' => Some s'
  | Panicked => None
  | Disabled => match exec (Run i) s with Step s' => Some s' | _ => None end
  end.

Definition step (e : Event) (c : Channel) : Outcome :=
  match e with
  | TrySendCheck d => try_send_check d c
  | TrySendAcquire => try_send_acquire c
  | SendStart d => send_start d c
  | SendInit => send_init c
  | SendPoll => send_poll c
  | SendCancel => send_cancel c
  | WriteSlot => write_slot c
  | WriteRelease => write_release c
  | DropSender => drop_sender c
  | TryRecvAcquire => try_recv_acquire c
  | TryRecvCheck => try_recv_check c
  | RecvStart => recv_start c
  | RecvLast => recv_last c
  | RecvInit => recv_init c
  | RecvPoll => recv_poll c
  | RecvCancel => recv_cancel c
  | RecvSlot => recv_slot c
  | RecvRelease => recv_release c
  | DropReceiver => drop_receiver c
  | ProducerTick i =>
      match sem_tick i (producer c) with Some s => Next (set_producer s c) | None => Blocked end
  | ConsumerTick i =>
      match sem_tick i (consumer c) with Some s => Next (set_consumer s c) | None => Blocked end
  end.

Inductive reached (n : Z) : Channel -> Prop :=
  | reached_new : reached n (channel n)
  | reached_step e c c' : reached n c -> step e c = Next c' -> reached n c'.

End spsc.
