(* ===== verification/SpscSpec.v ===== *)
(** * Correctness of the single-producer single-consumer channel

    The channel of [Spsc.v] delivers what was sent, in order, without losing
    or overwriting a message, for every interleaving of the two ends. The
    proof uses of the semaphores only that they conserve permits. *)
From S2P Require Import Prelude Semaphore SemaphoreSpec Locks Spsc.

(** ** The semaphores of the channel *)

Definition sem_good (s : Semaphore) : Prop := inv s /\ Forall (wants (fun n => n = 1)) (agents s).

Lemma sem_exec act s s' :
  sem_good s -> valid act s -> asks (fun n => n = 1) s act -> exec act s = Step s' -> sem_good s'.
Proof. intros [I Hw] Hv Ha He. split; [by eapply exec_inv|by eapply exec_wants]. Qed.

Lemma sem_supply s : sem_good s -> 0 <= supply s <= usize_max.
Proof.
  intros [I _]. split; [|apply I]. rewrite <-(inv_total s I).
  pose proof (inv_permits s I). pose proof (inv_pending s I).
  assert (0 <= zsum share (agents s)); [|lia].
  apply zsum_nonneg. eapply Forall_impl; [apply I|apply share_nonneg].
Qed.

(** Forgetting a guard takes one permit out. *)
Lemma sem_forget i s s' :
  sem_good s -> exec (Forget i) s = Step s' -> sem_good s' /\ supply s' = supply s - 1.
Proof.
  intros Hs He. split; [by apply (sem_exec (Forget i) s)|].
  apply supply_forget in He as (n & Hn & ->).
  pose proof (Forall_lookup_1 _ _ _ _ (proj2 Hs) Hn) as H. cbn in H. by subst.
Qed.

Lemma sem_same act s s' :
  sem_good s -> valid act s -> asks (fun n => n = 1) s act ->
  match act with ReleaseCall _ | Forget _ => False | _ => True end ->
  exec act s = Step s' -> sem_good s' /\ supply s' = supply s.
Proof. intros Hs Hv Ha Hn He. split; [by apply (sem_exec act s)|by eapply supply_same]. Qed.

Lemma sem_try_take s s' :
  sem_good s -> try_take s = Some s' -> sem_good s' /\ supply s' = supply s - 1.
Proof.
  intros Hs. unfold try_take. destruct (exec (TryAcquire 1) s) as [| |s1] eqn:H1; try done.
  destruct (_ <? _)%nat; [|done]. destruct (exec (Forget _) s1) as [| |s2] eqn:H2; try done.
  intros [= <-]. apply sem_same in H1 as [Hs1 E]; [|done..]. apply sem_forget in H2 as [? ->]; [|done].
  by rewrite E.
Qed.

Lemma sem_poll_take fut s r :
  sem_good s -> poll_take fut s = Some r ->
  match r with
  | inl s' => sem_good s' /\ supply s' = supply s
  | inr s' => sem_good s' /\ supply s' = supply s - 1
  end.
Proof.
  intros Hs. unfold poll_take. destruct (exec (Poll fut) s) as [| |s1] eqn:H1; try done.
  apply sem_same in H1 as [Hs1 E]; [|done..].
  destruct (_ <? _)%nat; [|by intros [= <-]].
  destruct (exec (Forget _) s1) as [| |s2] eqn:H2; try done.
  intros [= <-]. apply sem_forget in H2 as [? ->]; [|done]. by rewrite E.
Qed.

Lemma sem_drop_future fut s :
  sem_good s -> sem_good (drop_future fut s) /\ supply (drop_future fut s) = supply s.
Proof.
  intros Hs. unfold drop_future. destruct (exec (Drop fut) s) as [| |s1] eqn:H1; try done.
  by apply sem_same in H1.
Qed.

Lemma sem_ticks i s s' : sem_good s -> sem_tick i s = Some s' -> sem_good s' /\ supply s' = supply s.
Proof.
  intros Hs. unfold sem_tick. destruct (exec (Enqueue i) s) as [| |s1] eqn:H1; try done.
  - destruct (exec (Run i) s) as [| |s2] eqn:H2; try done. intros [= <-]. by apply sem_same in H2.
  - intros [= <-]. by apply sem_same in H1.
Qed.

Lemma sem_release s s' :
  sem_good s -> supply s + 1 <= usize_max -> exec (ReleaseCall 1) s = Step s' ->
  sem_good s' /\ supply s' = supply s + 1.
Proof. intros Hs Hv He. split; [by apply (sem_exec (ReleaseCall 1) s)|]. by injection He as <-. Qed.

Lemma sem_new n : 0 <= n <= usize_max -> sem_good (Semaphore.new n).
Proof. intros Hn. split; [by apply new_inv|constructor]. Qed.

(** ** The invariant of the channel *)

Section spsc.
  Context {T : Type}.
  Local Notation Channel := (Channel (T:=T)).

Definition reserving (t : Tx (T:=T)) : Z := match t with TxReserved _ => 1 | _ => 0 end.
Definition unpublished (t : Tx (T:=T)) : Z := match t with TxWritten => 1 | _ => 0 end.
Definition claiming (r : Rx) : Z := match r with RxReserved => 1 | _ => 0 end.
Definition unfreed (r : Rx) : Z := match r with RxTaken => 1 | _ => 0 end.

Definition slot (n j : Z) : nat := Z.to_nat (j mod n).

Record chan_ok (n : Z) (c : Channel) : Prop := {
  ok_size : size c = n;
  ok_buffer : length (buffer c) = Z.to_nat n;
  ok_producer : sem_good (producer c);
  ok_consumer : sem_good (consumer c);
  ok_free : supply (producer c) =
    n - (tx_index c + reserving (tx c)) + (rx_index c - unfreed (rx c));
  ok_full : supply (consumer c) =
    (tx_index c - unpublished (tx c)) - (rx_index c + claiming (rx c));
  ok_tx : tx_index c = Z.of_nat (length (sent c));
  ok_rx : rx_index c = Z.of_nat (length (received c));
  ok_prefix : received c `prefix_of` sent c;
  ok_slots j : rx_index c <= j < tx_index c ->
    buffer c !! slot n j = Some (sent c !! Z.to_nat j);
  ok_empty k : (k < Z.to_nat n)%nat -> (forall j, rx_index c <= j < tx_index c -> slot n j <> k) ->
    buffer c !! k = Some None;
}.

Lemma slot_lt n j : 0 < n -> (slot n j < Z.to_nat n)%nat.
Proof. intros Hn. unfold slot. pose proof (Z.mod_pos_bound j n Hn). lia. Qed.

(** Fewer than [n] apart, two positions use different slots. *)
Lemma slot_inj n i j : 0 < n -> 0 < i - j < n -> slot n i <> slot n j.
Proof.
  intros Hn Hij. unfold slot. pose proof (Z.mod_pos_bound i n Hn). pose proof (Z.mod_pos_bound j n Hn).
  intros E. apply Z2Nat.inj in E; [|lia..].
  assert ((i - j) mod n = 0) as Hm by (rewrite Zminus_mod, E, Z.sub_diag; apply Z.mod_0_l; lia).
  rewrite Z.mod_small in Hm by lia. lia.
Qed.

Lemma chan_bounds n c :
  chan_ok n c ->
  0 <= rx_index c + claiming (rx c) <= tx_index c - unpublished (tx c) /\
  tx_index c + reserving (tx c) <= n + rx_index c - unfreed (rx c) /\
  0 <= claiming (rx c) /\ 0 <= unfreed (rx c) /\ 0 <= reserving (tx c) /\ 0 <= unpublished (tx c).
Proof.
  intros O. pose proof (sem_supply _ (ok_producer n c O)) as Hp.
  pose proof (sem_supply _ (ok_consumer n c O)) as Hc.
  rewrite (ok_free n c O) in Hp. rewrite (ok_full n c O) in Hc.
  pose proof (ok_rx n c O). destruct (rx c), (tx c); cbn in *; lia.
Qed.

(** Steps that leave buffer and indices alone. *)
Lemma chan_keep n c c' :
  chan_ok n c -> size c' = size c -> buffer c' = buffer c ->
  tx_index c' = tx_index c -> rx_index c' = rx_index c -> sent c' = sent c -> received c' = received c ->
  sem_good (producer c') -> sem_good (consumer c') ->
  supply (producer c') = supply (producer c) + reserving (tx c) - reserving (tx c')
    + unfreed (rx c) - unfreed (rx c') ->
  supply (consumer c') = supply (consumer c) + unpublished (tx c) - unpublished (tx c')
    + claiming (rx c) - claiming (rx c') ->
  chan_ok n c'.
Proof.
  intros O Hsz Hb Ht Hr Hs Hre Hp Hc Hfree Hfull.
  split; rewrite ?Hsz, ?Hb, ?Ht, ?Hr, ?Hs, ?Hre; try apply O; try done.
  - rewrite Hfree, (ok_free n c O). lia.
  - rewrite Hfull, (ok_full n c O). lia.
Qed.

Lemma write_slot_ok n c c' : 1 <= n -> chan_ok n c -> write_slot c = Next c' -> chan_ok n c'.
Proof.
  intros Hn O Hs. pose proof (chan_bounds n c O) as Hb. unfold write_slot in Hs.
  destruct (tx c) as [| | | |d| |] eqn:Htx; try done. destruct (_ <=? _); [done|]. injection Hs as <-.
  cbn in Hb. pose proof (ok_free n c O) as Hfree. pose proof (ok_full n c O) as Hfull.
  rewrite Htx in Hfree, Hfull. cbn in Hfree, Hfull. rewrite (ok_size n c O).
  assert (Hne : forall j, rx_index c <= j < tx_index c -> slot n (tx_index c) <> slot n j).
  { intros j Hj. apply slot_inj; lia. }
  split; cbn; try apply O; try lia.
  - by rewrite length_insert, (ok_buffer n c O).
  - rewrite length_app. cbn. pose proof (ok_tx n c O). lia.
  - apply prefix_app_r, O.
  - intros j Hj. fold (slot n (tx_index c)). destruct (decide (j = tx_index c)) as [->|Hj'].
    + rewrite list_lookup_insert_eq by (rewrite (ok_buffer n c O); apply slot_lt; lia).
      rewrite (ok_tx n c O), Nat2Z.id, lookup_app_r, Nat.sub_diag by done. done.
    + rewrite list_lookup_insert_ne by (apply Hne; lia). rewrite (ok_slots n c O) by lia.
      rewrite lookup_app_l; [done|]. pose proof (ok_tx n c O). pose proof (ok_rx n c O). lia.
  - intros k Hk Hj. fold (slot n (tx_index c)). rewrite list_lookup_insert_ne by (apply Hj; lia).
    apply (ok_empty n c O); [done|]. intros j Hj'. apply Hj. lia.
Qed.

(** The slot the receiver is about to read holds the next message. *)
Lemma next_message n c :
  1 <= n -> chan_ok n c -> rx c = RxReserved ->
  exists d, sent c !! length (received c) = Some d /\ buffer c !! slot n (rx_index c) = Some (Some d).
Proof.
  intros Hn O Hrx. pose proof (chan_bounds n c O) as Hb. rewrite Hrx in Hb. cbn in Hb.
  pose proof (ok_tx n c O). pose proof (ok_rx n c O) as Hr.
  destruct (lookup_lt_is_Some_2 (sent c) (length (received c))) as [d Hd]; [lia|].
  exists d. split; [done|]. rewrite (ok_slots n c O) by lia. by rewrite Hr, Nat2Z.id, Hd.
Qed.

Lemma recv_slot_ok n c c' : 1 <= n -> chan_ok n c -> recv_slot c = Next c' -> chan_ok n c'.
Proof.
  intros Hn O Hs. pose proof (chan_bounds n c O) as Hb. unfold recv_slot in Hs.
  destruct (rx c) eqn:Hrx; try done.
  destruct (next_message n c Hn O Hrx) as (d & Hd & Hbuf).
  rewrite (ok_size n c O) in Hs. unfold slot in Hbuf. rewrite Hbuf in Hs.
  destruct (_ <=? _); [done|]. injection Hs as <-. fold (slot n (rx_index c)) in Hbuf |- *.
  cbn in Hb. pose proof (ok_free n c O) as Hfree. pose proof (ok_full n c O) as Hfull.
  rewrite Hrx in Hfree, Hfull. cbn in Hfree, Hfull.
  assert (Hne : forall j, rx_index c + 1 <= j < tx_index c -> slot n (rx_index c) <> slot n j).
  { intros j Hj. apply not_eq_sym, slot_inj; lia. }
  split; cbn; try apply O; try lia.
  - by rewrite length_insert, (ok_buffer n c O).
  - rewrite length_app. cbn. pose proof (ok_rx n c O). lia.
  - destruct (ok_prefix n c O) as [l Hl]. rewrite Hl in Hd |- *.
    rewrite lookup_app_r, Nat.sub_diag in Hd by done. destruct l as [|x l]; [done|].
    cbn in Hd. simplify_eq. exists l. by rewrite <-app_assoc.
  - intros j Hj. rewrite list_lookup_insert_ne by (by apply Hne). apply (ok_slots n c O). lia.
  - intros k Hk Hj. destruct (decide (k = slot n (rx_index c))) as [->|Hk'].
    + apply list_lookup_insert_eq. rewrite (ok_buffer n c O). apply slot_lt. lia.
    + rewrite list_lookup_insert_ne by done. apply (ok_empty n c O); [done|].
      intros j Hj'. destruct (decide (j = rx_index c)) as [->|]; [done|]. apply Hj. lia.
Qed.

Lemma channel_ok n : 1 <= n <= usize_max -> chan_ok n (channel n).
Proof.
  intros Hn. split; cbn; try done; try lia.
  - apply length_replicate.
  - apply sem_new. lia.
  - apply sem_new. lia.
  - intros k Hk _. by apply lookup_replicate_2.
Qed.

(** Steps of the machine. *)
#[local] Ltac keep n c :=
  apply (chan_keep n c); cbn; try done; try lia.

Lemma sender_step n c e c' :
  chan_ok n c ->
  match e with
  | TrySendCheck _ | TrySendAcquire | SendStart _ | SendInit | SendPoll | SendCancel
  | DropSender => True
  | _ => False
  end -> step e c = Next c' -> chan_ok n c'.
Proof.
  intros O He Hs. pose proof (ok_producer n c O) as Hp. pose proof (ok_consumer n c O) as Hc.
  destruct e as [d| |d| | | | | | | | | | | | | | | | |i|i]; try done; cbn in Hs.
  - unfold try_send_check in Hs. destruct (tx c) eqn:Htx; try done.
    destruct (_ || _); injection Hs as <-; keep n c; rewrite Htx; cbn; lia.
  - unfold try_send_acquire in Hs. destruct (tx c) eqn:Htx; try done.
    destruct (try_take _) as [s|] eqn:Ht; injection Hs as <-.
    + apply sem_try_take in Ht as [Hs Hsup]; [|done]. keep n c; rewrite Htx; cbn; lia.
    + keep n c; rewrite Htx; cbn; lia.
  - unfold send_start in Hs. destruct (tx c) eqn:Htx; try done.
    destruct (lost_receiver c); injection Hs as <-; [done|]. keep n c; rewrite Htx; cbn; lia.
  - unfold send_init in Hs. destruct (tx c) eqn:Htx; try done. case_decide.
    + destruct (exec (Acquire 1) (producer c)) as [| |s] eqn:Ha; try done. injection Hs as <-.
      apply sem_same in Ha as [Hs Hsup]; [|done..]. keep n c; rewrite Htx; cbn; lia.
    + injection Hs as <-. keep n c; rewrite Htx; cbn; lia.
  - unfold send_poll in Hs. destruct (tx c) as [| | |d fut| | |] eqn:Htx; try done.
    destruct (sem_drop_future fut (producer c) Hp) as [Hd1 Hd2]. case_decide.
    + injection Hs as <-. keep n c; rewrite Htx; cbn; lia.
    + destruct (poll_take fut (producer c)) as [[s|s]|] eqn:Hpt; [| |done];
        apply sem_poll_take in Hpt as [Hs1 Hsup]; try done; injection Hs as <-.
      * keep n c; rewrite Htx; cbn; lia.
      * destruct (sem_drop_future fut s Hs1) as [Hd3 Hd4]. keep n c; rewrite Htx; cbn; lia.
  - unfold send_cancel in Hs. destruct (tx c) as [| | |d fut| | |] eqn:Htx; try done;
      injection Hs as <-.
    + keep n c; rewrite Htx; cbn; lia.
    + destruct (sem_drop_future fut (producer c) Hp) as [Hd1 Hd2]. keep n c; rewrite Htx; cbn; lia.
  - unfold drop_sender in Hs. destruct (tx c) eqn:Htx; try done. injection Hs as <-.
    keep n c; rewrite Htx; cbn; lia.
Qed.

Lemma receiver_step n c e c' :
  chan_ok n c ->
  match e with
  | TryRecvAcquire | TryRecvCheck | RecvStart | RecvLast | RecvInit | RecvPoll | RecvCancel
  | DropReceiver => True
  | _ => False
  end -> step e c = Next c' -> chan_ok n c'.
Proof.
  intros O He Hs. pose proof (ok_producer n c O) as Hp. pose proof (ok_consumer n c O) as Hc.
  destruct e as [d| |d| | | | | | | | | | | | | | | | |i|i]; try done; cbn in Hs.
  - unfold try_recv_acquire in Hs. destruct (rx c) eqn:Hrx; try done.
    destruct (try_take _) as [s|] eqn:Ht; injection Hs as <-.
    + apply sem_try_take in Ht as [Hs Hsup]; [|done]. keep n c; rewrite Hrx; cbn; lia.
    + keep n c; rewrite Hrx; cbn; lia.
  - unfold try_recv_check in Hs. destruct (rx c) eqn:Hrx; try done. injection Hs as <-.
    keep n c; rewrite Hrx; cbn; lia.
  - unfold recv_start in Hs. destruct (rx c) eqn:Hrx; try done.
    destruct (lost_sender c); injection Hs as <-; keep n c; rewrite Hrx; cbn; lia.
  - unfold recv_last in Hs. destruct (rx c) eqn:Hrx; try done.
    destruct (try_take _) as [s|] eqn:Ht; injection Hs as <-.
    + apply sem_try_take in Ht as [Hs Hsup]; [|done]. keep n c; rewrite Hrx; cbn; lia.
    + keep n c; rewrite Hrx; cbn; lia.
  - unfold recv_init in Hs. destruct (rx c) eqn:Hrx; try done. case_decide.
    + destruct (exec (Acquire 1) (consumer c)) as [| |s] eqn:Ha; try done. injection Hs as <-.
      apply sem_same in Ha as [Hs Hsup]; [|done..]. keep n c; rewrite Hrx; cbn; lia.
    + injection Hs as <-. keep n c; rewrite Hrx; cbn; lia.
  - unfold recv_poll in Hs. destruct (rx c) as [| | | |fut| | |] eqn:Hrx; try done.
    destruct (sem_drop_future fut (consumer c) Hc) as [Hd1 Hd2]. case_decide.
    + injection Hs as <-. keep n c; rewrite Hrx; cbn; lia.
    + destruct (poll_take fut (consumer c)) as [[s|s]|] eqn:Hpt; [| |done];
        apply sem_poll_take in Hpt as [Hs1 Hsup]; try done; injection Hs as <-.
      * keep n c; rewrite Hrx; cbn; lia.
      * destruct (sem_drop_future fut s Hs1) as [Hd3 Hd4]. keep n c; rewrite Hrx; cbn; lia.
  - unfold recv_cancel in Hs. destruct (rx c) as [| | | |fut| | |] eqn:Hrx; try done;
      injection Hs as <-.
    + keep n c; rewrite Hrx; cbn; lia.
    + destruct (sem_drop_future fut (consumer c) Hc) as [Hd1 Hd2]. keep n c; rewrite Hrx; cbn; lia.
  - unfold drop_receiver in Hs. destruct (rx c) eqn:Hrx; try done. injection Hs as <-.
    keep n c; rewrite Hrx; cbn; lia.
Qed.

Lemma step_ok n c e c' : 1 <= n <= usize_max -> chan_ok n c -> step e c = Next c' -> chan_ok n c'.
Proof.
  intros Hn O Hs. pose proof (ok_producer n c O) as Hp. pose proof (ok_consumer n c O) as Hc.
  pose proof (chan_bounds n c O) as Hb. pose proof (ok_free n c O). pose proof (ok_full n c O).
  destruct e as [d| |d| | | | | | | | | | | | | | | | |i|i];
    try solve [eapply sender_step; [exact O| |exact Hs]; exact Logic.I];
    try solve [eapply receiver_step; [exact O| |exact Hs]; exact Logic.I]; cbn in Hs.
  - by apply (write_slot_ok n c); [lia|..].
  - unfold write_release in Hs. destruct (tx c) eqn:Htx; try done.
    destruct (exec (ReleaseCall 1) (consumer c)) as [| |s] eqn:Hr; try done. injection Hs as <-.
    cbn in *. apply sem_release in Hr as [Hs1 Hsup]; [|done|lia]. keep n c; rewrite Htx; cbn; lia.
  - by apply (recv_slot_ok n c); [lia|..].
  - unfold recv_release in Hs. destruct (rx c) eqn:Hrx; try done.
    destruct (exec (ReleaseCall 1) (producer c)) as [| |s] eqn:Hr; try done. injection Hs as <-.
    cbn in *. apply sem_release in Hr as [Hs1 Hsup]; [|done|lia]. keep n c; rewrite Hrx; cbn; lia.
  - destruct (sem_tick i (producer c)) as [s|] eqn:Ht; [|done]. injection Hs as <-.
    apply sem_ticks in Ht as [Hs1 Hsup]; [|done]. keep n c.
  - destruct (sem_tick i (consumer c)) as [s|] eqn:Ht; [|done]. injection Hs as <-.
    apply sem_ticks in Ht as [Hs1 Hsup]; [|done]. keep n c.
Qed.

Lemma spsc_reached_ok n c : 1 <= n <= usize_max -> reached n c -> chan_ok n c.
Proof.
  intros Hn. induction 1 as [|e c c' _ IH Hs]; [by apply channel_ok|]. by eapply step_ok.
Qed.

(** C29: the channel is a bounded queue. In every state the two ends can reach,
    what was received is what was sent first, in order, and at most [size]
    messages are under way; a receiver that has its permit finds the next
    message in its slot, so [expect] does not fail, and a sender that has its
    permit finds its slot empty, so no message is overwritten. *)
Theorem spsc_fifo n (c : Channel) :
  1 <= n <= usize_max -> reached n c ->
  received c `prefix_of` sent c /\
  (length (sent c) - length (received c) <= Z.to_nat n)%nat /\
  (rx c = RxReserved -> exists d, sent c !! length (received c) = Some d /\
     buffer c !! slot n (rx_index c) = Some (Some d)) /\
  (forall d, tx c = TxReserved d -> buffer c !! slot n (tx_index c) = Some None).
Proof.
  intros Hn Hr. pose proof (spsc_reached_ok n c Hn Hr) as O.
  pose proof (chan_bounds n c O) as Hb. split_conj.
  - apply O.
  - pose proof (ok_tx n c O). pose proof (ok_rx n c O). lia.
  - apply next_message; [lia|done].
  - intros d Htx. rewrite Htx in Hb. cbn in Hb.
    apply (ok_empty n c O); [apply slot_lt; lia|]. intros j Hj. apply not_eq_sym, slot_inj; lia.
Qed.

Fixpoint steps (es : list (Event (T:=T))) (c : Channel) : option Channel :=
  match es with
  | [] => Some c
  | e :: es => match step e c with Next c' => steps es c' | _ => None end
  end.

Lemma spsc_steps_reached n es c c' : reached n c -> steps es c = Some c' -> reached n c'.
Proof.
  revert c. induction es as [|e es IH]; intros c Hc H; cbn in H; [by simplify_eq|].
  destruct (step e c) as [| |c1] eqn:He; try done. apply (IH c1); [|done]. by eapply reached_step.
Qed.

End spsc.

(** ** A run: the receiver waits for a message and is granted its permit *)

Module Runs.

Definition events : list (Event (T:=Z)) :=
  [RecvStart; RecvInit; RecvPoll; ConsumerTick 0; ConsumerTick 0; ConsumerTick 0;
   TrySendCheck 7; TrySendAcquire; WriteSlot; WriteRelease; ConsumerTick 1; ConsumerTick 1;
   ConsumerTick 1; ConsumerTick 1; ConsumerTick 1; RecvPoll].

Definition delivered : Channel (T:=Z) := default (channel 1) (steps events (channel 1)).

Lemma delivered_reached : reached 1 delivered.
Proof.
  apply (spsc_steps_reached 1 events (channel 1)); [constructor|]. vm_compute. reflexivity.
Qed.

Lemma spsc_fifo_witness :
  rx delivered = RxReserved /\ exists d, sent delivered !! 0%nat = Some d /\ d = 7.
Proof.
  split; [vm_compute; reflexivity|].
  destruct (spsc_fifo 1 delivered) as (_ & _ & H & _);
    [vm_compute; split; discriminate|exact delivered_reached|].
  destruct H as (d & Hd & _); [vm_compute; reflexivity|].
  exists d. split; [exact Hd|]. vm_compute in Hd. congruence.
Defined.

End Runs.
