(* ===== verification/Rc.v ===== *)
(** * Reference counting (library/try_alloc/src/rc.rs)

    [TryArc] as a machine whose steps are the atomic operations of the code,
    run by any number of threads in any order; [TryRc] as a machine whose
    steps are the pieces of code between two calls of the drop of the value,
    which may itself use other handles of the same block.

    One block with all the handles that were ever made to it. The weak count
    is that of the weak handles, plus one for every strong handle, plus one for
    the strong handles together. Touching memory that was given back, or the
    value after it was dropped, is [Undefined]. *)
From S2P Require Import Prelude.

(** [RcInner], [ArcInner]: [None] is a value whose drop has run. *)
Record Inner (T : Type) : Type := mkInner { strong : Z; weak : Z; value : option T }.
Arguments mkInner {T} strong weak value.
Arguments strong {T} i.
Arguments weak {T} i.
Arguments value {T} i.

(** A handle and where it is in its operation. *)
Inductive Handle : Type :=
  | Strong
  | Weak
  | Dangling                (** [WeakLike::new] *)
  | RawStrong               (** a raw pointer made by [into_raw] *)
  | RawWeak
  | RawDangling
  | Cloning (from : nat)    (** [inc_strong] between its two counters; [from] is borrowed *)
  | DecStrong               (** [dec_strong] between its two counters *)
  | DropValue               (** [drop_slow] of the last strong handle *)
  | DropWeak                (** the drop of [_weak] in it *)
  | Dealloc                 (** [drop_slow] of the last weak handle *)
  | Gone.

#[global] Instance handle_eq_dec : EqDecision Handle.
Proof. solve_decision. Defined.

Inductive Event (T : Type) : Type :=
  | Dropped (v : T)
  | Freed.
Arguments Dropped {T} v.
Arguments Freed {T}.

(** [block] is [None] once the memory has been given back. *)
Record State (T : Type) : Type := mkState {
  block : option (Inner T);
  handles : list Handle;
  log : list (Event T)
}.
Arguments mkState {T} block handles log.
Arguments block {T} s.
Arguments handles {T} s.
Arguments log {T} s.

Inductive Result (T : Type) : Type :=
  | Step (s : State T)
  | Disabled                (** no such operation on this handle *)
  | Panicked
  | Undefined.
Arguments Step {T} s.
Arguments Disabled {T}.
Arguments Panicked {T}.
Arguments Undefined {T}.

Inductive Op : Type :=
  | Clone (i : nat)
  | Upgrade (i : nat)
  | Downgrade (i : nat)
  | CloneWeak (i : nat)
  | NewWeak
  | Drop (i : nat)
  | IntoRaw (i : nat)
  | FromRaw (i : nat)
  | AsRef (i : nat)
  | Continue (i : nat).

Section rc.
  Context {T : Type}.
  Implicit Types s : State T.
  Implicit Types b : Inner T.

Definition set_strong (n : Z) b : Inner T := mkInner n (weak b) (value b).
Definition set_weak (n : Z) b : Inner T := mkInner (strong b) n (value b).
Definition set_value (v : option T) b : Inner T := mkInner (strong b) (weak b) v.
Definition set_block (o : option (Inner T)) s : State T := mkState o (handles s) (log s).
Definition set_handle (i : nat) (h : Handle) s : State T :=
  mkState (block s) (<[i := h]> (handles s)) (log s).
Definition push (h : Handle) s : State T := mkState (block s) (handles s ++ [h]) (log s).
Definition record (e : Event T) s : State T := mkState (block s) (handles s) (log s ++ [e]).

(** Every access to the block goes through the pointer of the handle. *)
Definition inner (s : State T) (k : Inner T -> Result T) : Result T :=
  match block s with
  | Some b => k b
  | None => Undefined
  end.

(** Whether a clone is under way that borrows handle [i]: the borrow checker
    keeps such a handle from being moved or dropped. *)
Definition borrowed (i : nat) s : bool := existsb (fun h => bool_decide (h = Cloning i)) (handles s).

(** [StrongLike::try_new], when the allocation succeeds. *)
Definition try_new (v : T) : State T := mkState (Some (mkInner 1 2 (Some v))) [Strong] [].

(** [into_raw] and [from_raw] forget a handle and make it again. *)
Definition into_raw (i : nat) (h : Handle) s : Result T :=
  if borrowed i s then Disabled
  else
    match h with
    | Strong => Step (set_handle i RawStrong s)
    | Weak => Step (set_handle i RawWeak s)
    | Dangling => Step (set_handle i RawDangling s)
    | _ => Disabled
    end.

Definition from_raw (i : nat) (h : Handle) s : Result T :=
  match h with
  | RawStrong => Step (set_handle i Strong s)
  | RawWeak => Step (set_handle i Weak s)
  | RawDangling => Step (set_handle i Dangling s)
  | _ => Disabled
  end.

(** [AsRef::as_ref], [Deref::deref]. *)
Definition as_ref (h : Handle) s : Result T :=
  match h with
  | Strong => inner s (fun b => match value b with Some _ => Step s | None => Undefined end)
  | _ => Disabled
  end.

(** [drop_value_in_place] *)
Definition drop_value_in_place (i : nat) s : Result T :=
  inner s (fun b =>
    match value b with
    | Some v => Step (set_handle i DropWeak (record (Dropped v) (set_block (Some (set_value None b)) s)))
    | None => Undefined
    end).

(** [dealloc_box]: the block has two counters, so it is never empty. *)
Definition dealloc_box (i : nat) s : Result T :=
  inner s (fun _ => Step (set_handle i Gone (record Freed (set_block None s)))).

(** ** [TryArc] and [WeakArc] *)

(** [ArcInner::inc_strong], up to the second counter: [yes] when the strong
    count was not zero, [no] when it was. *)
Definition arc_inc_strong s (yes : State T -> Result T) (no : Result T) : Result T :=
  inner s (fun b =>
    if strong b =? 0 then no
    else if usize_max <=? strong b then Panicked
    else yes (set_block (Some (set_strong (strong b + 1) b)) s)).

Definition arc_inc_weak s (k : State T -> Result T) : Result T :=
  inner s (fun b => k (set_block (Some (set_weak (wrap 64 (weak b + 1)) b)) s)).

Definition arc_dec_weak (i : nat) s : Result T :=
  inner s (fun b =>
    let s := set_block (Some (set_weak (wrap 64 (weak b - 1)) b)) s in
    Step (set_handle i (if weak b =? 1 then Dealloc else Gone) s)).

(** [TryArc::clone] does not look at what [inc_strong] says. *)
Definition arc_clone (i : nat) (h : Handle) s : Result T :=
  match h with
  | Strong => arc_inc_strong s (fun s => Step (push (Cloning i) s)) (Step (push Strong s))
  | _ => Disabled
  end.

Definition arc_upgrade (i : nat) (h : Handle) s : Result T :=
  match h with
  | Weak => arc_inc_strong s (fun s => Step (push (Cloning i) s)) (Step s)
  | Dangling => Step s
  | _ => Disabled
  end.

Definition arc_downgrade (h : Handle) s : Result T :=
  match h with
  | Strong => arc_inc_weak s (fun s => Step (push Weak s))
  | _ => Disabled
  end.

Definition arc_clone_weak (h : Handle) s : Result T :=
  match h with
  | Weak => arc_inc_weak s (fun s => Step (push Weak s))
  | Dangling => Step (push Dangling s)
  | _ => Disabled
  end.

Definition arc_drop_weak (i : nat) (h : Handle) s : Result T :=
  match h with
  | Weak => arc_dec_weak i s
  | Dangling => Step (set_handle i Gone s)
  | _ => Disabled
  end.

(** [dec_strong] takes the weak count first. *)
Definition arc_dec_strong (i : nat) s : Result T :=
  inner s (fun b =>
    Step (set_handle i DecStrong (set_block (Some (set_weak (wrap 64 (weak b - 1)) b)) s))).

Definition arc_dec_strong_end (i : nat) s : Result T :=
  inner s (fun b =>
    let s := set_block (Some (set_strong (wrap 64 (strong b - 1)) b)) s in
    Step (set_handle i (if strong b =? 1 then DropValue else Gone) s)).

(** The first step of [drop]. *)
Definition arc_drop (i : nat) (h : Handle) s : Result T :=
  if borrowed i s then Disabled
  else
    match h with
    | Strong => arc_dec_strong i s
    | _ => arc_drop_weak i h s
    end.

(** The next step of the operation a handle is in. *)
Definition arc_continue (i : nat) (h : Handle) s : Result T :=
  match h with
  | Cloning _ => arc_inc_weak s (fun s => Step (set_handle i Strong s))
  | DecStrong => arc_dec_strong_end i s
  | DropValue => drop_value_in_place i s
  | DropWeak => arc_dec_weak i s
  | Dealloc => dealloc_box i s
  | _ => Disabled
  end.

Definition at_handle (i : nat) s (k : Handle -> Result T) : Result T :=
  match handles s !! i with
  | Some h => k h
  | None => Disabled
  end.

Definition arc_exec (op : Op) s : Result T :=
  match op with
  | Clone i => at_handle i s (fun h => arc_clone i h s)
  | Upgrade i => at_handle i s (fun h => arc_upgrade i h s)
  | Downgrade i => at_handle i s (fun h => arc_downgrade h s)
  | CloneWeak i => at_handle i s (fun h => arc_clone_weak h s)
  | NewWeak => Step (push Dangling s)
  | Drop i => at_handle i s (fun h => arc_drop i h s)
  | IntoRaw i => at_handle i s (fun h => into_raw i h s)
  | FromRaw i => at_handle i s (fun h => from_raw i h s)
  | AsRef i => at_handle i s (fun h => as_ref h s)
  | Continue i => at_handle i s (fun h => arc_continue i h s)
  end.

(** ** [TryRc] and [WeakRc] *)

(** An addition that overflows ends the program before the assertions do. *)
Definition rc_inc_strong s (yes : State T -> Result T) (no : Result T) : Result T :=
  inner s (fun b =>
    if 0 <? strong b then
      if (usize_max <=? strong b) || (usize_max <=? weak b) then Panicked
      else yes (set_block (Some (set_weak (weak b + 1) (set_strong (strong b + 1) b))) s)
    else no).

Definition rc_inc_weak s (k : State T -> Result T) : Result T :=
  inner s (fun b =>
    if usize_max <=? weak b then Panicked
    else k (set_block (Some (set_weak (weak b + 1) b)) s)).

Definition rc_dec_weak (i : nat) s : Result T :=
  inner s (fun b =>
    if weak b =? 0 then Panicked
    else
      let s := set_block (Some (set_weak (weak b - 1) b)) s in
      if weak b - 1 =? 0 then dealloc_box i s
      else Step (set_handle i Gone s)).

Definition rc_dec_strong s (k : bool -> State T -> Result T) : Result T :=
  inner s (fun b =>
    if (strong b =? 0) || (weak b =? 0) then Panicked
    else
      k (strong b - 1 =? 0)
        (set_block (Some (set_weak (weak b - 1) (set_strong (strong b - 1) b))) s)).

Definition rc_clone (h : Handle) s : Result T :=
  match h with
  | Strong => rc_inc_strong s (fun s => Step (push Strong s)) (Step (push Strong s))
  | _ => Disabled
  end.

Definition rc_upgrade (h : Handle) s : Result T :=
  match h with
  | Weak => rc_inc_strong s (fun s => Step (push Strong s)) (Step s)
  | Dangling => Step s
  | _ => Disabled
  end.

Definition rc_downgrade (h : Handle) s : Result T :=
  match h with
  | Strong => rc_inc_weak s (fun s => Step (push Weak s))
  | _ => Disabled
  end.

Definition rc_clone_weak (h : Handle) s : Result T :=
  match h with
  | Weak => rc_inc_weak s (fun s => Step (push Weak s))
  | Dangling => Step (push Dangling s)
  | _ => Disabled
  end.

Definition rc_drop_weak (i : nat) (h : Handle) s : Result T :=
  match h with
  | Weak => rc_dec_weak i s
  | Dangling => Step (set_handle i Gone s)
  | _ => Disabled
  end.

Definition rc_drop (i : nat) (h : Handle) s : Result T :=
  match h with
  | Strong => rc_dec_strong s (fun strong_dropped s =>
      Step (set_handle i (if strong_dropped then DropValue else Gone) s))
  | _ => rc_drop_weak i h s
  end.

Definition rc_continue (i : nat) (h : Handle) s : Result T :=
  match h with
  | DropValue => drop_value_in_place i s
  | DropWeak => rc_dec_weak i s
  | _ => Disabled
  end.

Definition rc_exec (op : Op) s : Result T :=
  match op with
  | Clone i => at_handle i s (fun h => rc_clone h s)
  | Upgrade i => at_handle i s (fun h => rc_upgrade h s)
  | Downgrade i => at_handle i s (fun h => rc_downgrade h s)
  | CloneWeak i => at_handle i s (fun h => rc_clone_weak h s)
  | NewWeak => Step (push Dangling s)
  | Drop i => at_handle i s (fun h => rc_drop i h s)
  | IntoRaw i => at_handle i s (fun h => into_raw i h s)
  | FromRaw i => at_handle i s (fun h => from_raw i h s)
  | AsRef i => at_handle i s (fun h => as_ref h s)
  | Continue i => at_handle i s (fun h => rc_continue i h s)
  end.

(** ** Runs *)

Definition step (exec : Op -> State T -> Result T) s s' : Prop := exists op, exec op s = Step s'.

Definition reachable (exec : Op -> State T -> Result T) (v : T) s : Prop :=
  rtc (step exec) (try_new v) s.

Fixpoint run (exec : Op -> State T -> Result T) (ops : list Op) s : Result T :=
  match ops with
  | [] => Step s
  | op :: ops =>
      match exec op s with
      | Step s' => run exec ops s'
      | r => r
      end
  end.

End rc.
