(* ===== verification/RcSpec.v ===== *)
(** * Correctness of reference counting

    The invariant of the machine of [TryArc]: both counters are what the
    handles say, so the value is dropped when the last strong handle goes and
    the memory is given back when the last handle goes, once each, and no
    handle ever reaches memory that is gone. [TryRc] is a restriction of that
    machine and inherits all of it. *)
From S2P Require Import Prelude Rc.

(** ** What a handle stands for *)

Definition strongs (h : Handle) : Z :=
  match h with Strong | RawStrong | Cloning _ | DecStrong => 1 | _ => 0 end.
Definition weaks (h : Handle) : Z :=
  match h with Strong | RawStrong | Weak | RawWeak | DropValue | DropWeak => 1 | _ => 0 end.
(** The last strong handle on its way out. *)
Definition dropping (h : Handle) : Z := match h with DropValue | DropWeak => 1 | _ => 0 end.
Definition with_value (h : Handle) : Z := match h with DropValue => 1 | _ => 0 end.
Definition freeing (h : Handle) : Z := match h with Dealloc => 1 | _ => 0 end.

(** One weak count for all strong handles together. *)
Definition shared (n : Z) : Z := if 0 <? n then 1 else 0.

Section spec.
  Context {T : Type}.
  Implicit Types s : State T.
  Implicit Types v : T.

Notation total f s := (zsum f (handles s)).

Record counts v s (b : Inner T) : Prop := {
  c_strong : strong b = total strongs s;
  c_weak : weak b = total weaks s + shared (total strongs s);
  c_last : total dropping s + shared (total strongs s) <= 1;
  c_free : total freeing s = shared (1 - weak b);
  c_alive : 0 < total strongs s + total with_value s -> value b = Some v /\ log s = [];
  c_dead : total strongs s + total with_value s = 0 -> value b = None /\ log s = [Dropped v]
}.

Definition inv v s : Prop :=
  (forall i j, handles s !! i = Some (Cloning j) ->
    handles s !! j = Some Strong \/ handles s !! j = Some Weak) /\
  match block s with
  | Some b => counts v s b
  | None =>
      total strongs s = 0 /\ total weaks s = 0 /\ total freeing s = 0 /\
      log s = [Dropped v; Freed]
  end.

(** Fewer handles than a counter can count. *)
Definition room s : Prop := Z.of_nat (length (handles s)) + 1 < usize_max.

Lemma weight_nonneg f s : (forall h, 0 <= f h) -> 0 <= total f s.
Proof. intros Hf. by apply zsum_nonneg, Forall_true. Qed.

Lemma weight_ge f s i h : (forall h, 0 <= f h) -> handles s !! i = Some h -> f h <= total f s.
Proof. intros Hf Hi. eapply zsum_ge; [|done]. by apply Forall_true. Qed.

Lemma weight_add (f g k : Handle -> Z) s :
  (forall h, f h + g h <= k h) -> total f s + total g s <= total k s.
Proof.
  intros H. induction (handles s) as [|h l IH]; [done|]. rewrite !zsum_cons. specialize (H h). lia.
Qed.

(** The bounds on the sums that the steps use; [h] is the handle that moves. *)
Lemma weights s i h :
  handles s !! i = Some h ->
  strongs h <= total strongs s /\ weaks h <= total weaks s /\
  dropping h <= total dropping s /\ with_value h <= total with_value s /\ freeing h <= total freeing s.
Proof. intros Hi. split_conj; (eapply weight_ge; [|done]); intros []; cbn; lia. Qed.

Lemma all_weights s :
  0 <= total strongs s /\ 0 <= total with_value s /\ total with_value s <= total dropping s /\
  total dropping s <= total weaks s /\ 0 <= total freeing s /\
  total weaks s <= Z.of_nat (length (handles s)) /\ total strongs s <= Z.of_nat (length (handles s)).
Proof.
  pose proof (weight_add with_value (fun _ => 0) dropping s ltac:(intros []; cbn; lia)).
  pose proof (weight_add dropping (fun _ => 0) weaks s ltac:(intros []; cbn; lia)).
  assert (total (fun _ : Handle => 0) s = 0) as Hz.
  { clear. induction (handles s) as [|h l IH]; [done|]. by rewrite zsum_cons, IH. }
  split_conj; try (apply weight_nonneg; intros []; cbn; lia); try lia; apply zsum_le_length; intros []; cbn; lia.
Qed.

Lemma not_borrowed s i j : borrowed i s = false -> handles s !! j <> Some (Cloning i).
Proof.
  unfold borrowed. intros Hb Hj. apply not_true_iff_false in Hb. apply Hb, existsb_exists.
  exists (Cloning i). split; [by eapply list_elem_of_In, list_elem_of_lookup_2|by apply bool_decide_eq_true].
Qed.

(** ** The steps *)

Definition no_clone (h : Handle) : Prop := match h with Cloning _ => False | _ => True end.

(** Moving a handle keeps the clones valid if it is not borrowed or stays what
    it is. *)
Lemma clones_move s i h' :
  (forall k j, handles s !! k = Some (Cloning j) -> handles s !! j = Some Strong \/ handles s !! j = Some Weak) ->
  no_clone h' -> (forall k, handles s !! k <> Some (Cloning i)) ->
  forall k j, <[i := h']> (handles s) !! k = Some (Cloning j) ->
    <[i := h']> (handles s) !! j = Some Strong \/ <[i := h']> (handles s) !! j = Some Weak.
Proof.
  intros Hc Hh Hi k j Hk. apply list_lookup_insert_Some in Hk as [(-> & -> & _)|[Hne Hk]]; [done|].
  rewrite list_lookup_insert_ne by (intros ->; by apply (Hi k)). by apply (Hc k).
Qed.

Lemma clones_push s h :
  (forall k j, handles s !! k = Some (Cloning j) -> handles s !! j = Some Strong \/ handles s !! j = Some Weak) ->
  (forall j, h = Cloning j -> handles s !! j = Some Strong \/ handles s !! j = Some Weak) ->
  forall k j, (handles s ++ [h]) !! k = Some (Cloning j) ->
    (handles s ++ [h]) !! j = Some Strong \/ (handles s ++ [h]) !! j = Some Weak.
Proof.
  intros Hc Hh k j Hk.
  assert (handles s !! j = Some Strong \/ handles s !! j = Some Weak) as [Hj|Hj].
  { apply lookup_app_Some in Hk as [Hk|[_ Hk]]; [by apply (Hc k)|].
    apply list_lookup_singleton_Some in Hk as [_ Hk]. by apply Hh. }
  - left. by apply lookup_app_l_Some.
  - right. by apply lookup_app_l_Some.
Qed.

(** A handle that is in the middle of an operation, or a raw one, is not
    borrowed. *)
Lemma busy_not_borrowed v s i h :
  inv v s -> handles s !! i = Some h -> h <> Strong -> h <> Weak ->
  forall k, handles s !! k <> Some (Cloning i).
Proof. intros [Hc _] Hi Hs Hw k Hk. destruct (Hc _ _ Hk); simplify_eq. Qed.

Lemma wrap_usize x : 0 <= x <= usize_max -> wrap 64 x = x.
Proof. intros. unfold wrap. apply Z.mod_small. unfold usize_max in *. lia. Qed.

(** The sums after a handle has moved or has been added. *)
Ltac sums :=
  cbn [handles block log set_handle set_block push record strong weak value
       set_strong set_weak set_value strongs weaks dropping with_value freeing] in *;
  repeat match goal with
  | Hi : ?l !! ?i = Some ?h |- context [zsum ?f (<[?i := _]> ?l)] => rewrite (zsum_insert f l i h) by exact Hi
  | |- context [zsum _ (_ ++ [_])] => rewrite zsum_app
  | |- context [zsum ?f [?h]] => change (zsum f [h]) with (f h + 0)
  end;
  cbn [strongs weaks dropping with_value freeing] in *.

Ltac arith := unfold shared in *; repeat case_match; bool_to_prop; try lia.

(** Changing one handle, the counters with it. *)
Lemma counts_move v s i h h' b b' :
  handles s !! i = Some h -> counts v s b ->
  let s' := mkState (Some b') (<[i := h']> (handles s)) (log s) in
  strong b' = strong b - strongs h + strongs h' ->
  weak b' = weak b - weaks h + weaks h' - shared (strong b) + shared (strong b') ->
  value b' = value b ->
  total dropping s - dropping h + dropping h' + shared (strong b') <= 1 ->
  total freeing s - freeing h + freeing h' = shared (1 - weak b') ->
  (0 < strong b' + (total with_value s - with_value h + with_value h') <->
    0 < total strongs s + total with_value s) ->
  counts v s' b'.
Proof.
  intros Hi [C1 C2 C3 C4 C5 C6] s' H1 H2 H3 H4 H5 H6. subst s'.
  pose proof (all_weights s) as W. pose proof (weights s i h Hi) as Wi.
  assert (0 <= strongs h' /\ 0 <= with_value h') by (destruct h'; cbn; lia).
  assert (strong b' = total strongs s - strongs h + strongs h') as E by lia.
  split; sums; rewrite ?H3; rewrite <- ?E; try lia.
  - rewrite C2, C1 in H2. lia.
  - intros ?. apply C5. lia.
  - intros ?. apply C6. lia.
Qed.

(** A new handle, the counters with it. *)
Lemma counts_push v s h b b' :
  counts v s b ->
  let s' := mkState (Some b') (handles s ++ [h]) (log s) in
  strong b' = strong b + strongs h ->
  weak b' = weak b + weaks h -> shared (strong b') = shared (strong b) ->
  value b' = value b ->
  dropping h = 0 -> freeing h = 0 -> 0 < weak b \/ weaks h = 0 ->
  counts v s' b'.
Proof.
  intros [C1 C2 C3 C4 C5 C6] s' H1 H2 H3 H4 H5 H6 H7. subst s'.
  pose proof (all_weights s) as W.
  assert (with_value h = 0) by (destruct h; cbn in *; lia).
  assert (0 <= strongs h /\ 0 <= weaks h) by (destruct h; cbn; lia).
  assert (strong b' = total strongs s + strongs h) as E by lia.
  split; sums; rewrite ?H4, ?Z.add_0_r; rewrite <- ?E; try lia.
  - rewrite H3, C1. lia.
  - rewrite H3, C1. lia.
  - rewrite C4, H6. arith.
  - intros ?. apply C5. arith.
  - intros ?. apply C6. lia.
Qed.

Lemma inv_block v s i h :
  inv v s -> handles s !! i = Some h -> 0 < strongs h + weaks h + freeing h ->
  exists b, block s = Some b /\ counts v s b.
Proof.
  intros [_ HI] Hi Hh. destruct (block s) as [b|]; [by exists b|].
  destruct (weights s i h Hi) as (? & ? & _ & _ & ?). lia.
Qed.

(** Handles that count the same. *)
Lemma inv_relabel v s i h h' :
  inv v s -> handles s !! i = Some h -> no_clone h' -> (forall k, handles s !! k <> Some (Cloning i)) ->
  strongs h' = strongs h -> weaks h' = weaks h -> dropping h' = dropping h ->
  with_value h' = with_value h -> freeing h' = freeing h ->
  inv v (set_handle i h' s).
Proof.
  intros [Hc HI] Hi Hn Hk ? ? ? ? ?. split; [by apply clones_move|].
  assert (forall f, f h' = f h -> zsum f (<[i := h']> (handles s)) = total f s) as E.
  { intros f Hf. rewrite (zsum_insert _ _ _ h) by done. lia. }
  cbn. destruct (block s); [destruct HI; split|]; cbn; rewrite ?E by done; done.
Qed.

Lemma inv_dangling v s : inv v s -> inv v (push Dangling s).
Proof.
  intros [Hc HI]. split; [by apply clones_push|].
  assert (forall f, f Dangling = 0 -> zsum f (handles s ++ [Dangling]) = total f s) as E.
  { intros f Hf. rewrite zsum_app, zsum_cons, Hf. change (zsum f []) with 0. lia. }
  cbn. destruct (block s); [destruct HI; split|]; cbn; rewrite ?E by done; done.
Qed.

(** What a step must be: never a panic or an access to memory that is gone. *)
Definition good v (r : Result T) : Prop :=
  match r with
  | Step s' => room s' -> inv v s'
  | Disabled => True
  | _ => False
  end.

(** [inc_strong] succeeds exactly while there are strong handles. *)
Lemma arc_inc_strong_good v s i h no :
  inv v s -> room s -> handles s !! i = Some h -> (h = Strong \/ h = Weak) ->
  (total strongs s = 0 -> good v no) ->
  good v (arc_inc_strong s (fun s => Step (push (Cloning i) s)) no).
Proof.
  intros HI Hroom Hi Hh Hno.
  destruct (inv_block v s i h HI Hi) as (b & Hb & C); [by destruct Hh as [-> | ->]|].
  unfold arc_inc_strong, inner. rewrite Hb.
  pose proof (all_weights s) as W. unfold room in Hroom. pose proof C as [C1 C2 _ _ _ _].
  destruct (Z.eqb_spec (strong b) 0); [apply Hno; lia|].
  destruct (Z.leb_spec usize_max (strong b)); [lia|].
  intros _. destruct HI as [Hc _]. split.
  - apply clones_push; [exact Hc|]. intros j [= <-]. destruct Hh as [-> | ->]; auto.
  - apply (counts_push v s (Cloning i) b); cbn; try done; try lia. arith.
Qed.

Lemma arc_inc_weak_good v s i h h' :
  inv v s -> room s -> handles s !! i = Some h -> (h = Strong \/ h = Weak) -> h' = Weak ->
  good v (arc_inc_weak s (fun s => Step (push h' s))).
Proof.
  intros HI Hroom Hi Hh ->.
  destruct (inv_block v s i h HI Hi) as (b & Hb & C); [by destruct Hh as [-> | ->]|].
  unfold arc_inc_weak, inner. rewrite Hb. intros Hroom'. destruct HI as [Hc _].
  pose proof (all_weights s) as W. pose proof C as [C1 C2 _ _ _ _]. unfold room in *. cbn in Hroom'.
  rewrite length_app in Hroom'. cbn in Hroom'.
  assert (weaks h <= total weaks s) by (eapply weights; done).
  assert (weaks h = 1) by (by destruct Hh as [-> | ->]).
  assert (shared (total strongs s) <= 1) by arith.
  assert (0 <= shared (total strongs s)) by arith.
  rewrite wrap_usize by lia.
  split; [by apply clones_push|]. apply (counts_push v s Weak b); cbn; try done; try lia.
Qed.

Lemma arc_dec_weak_good v s i h :
  inv v s -> room s -> handles s !! i = Some h -> (h = Weak \/ h = DropWeak) ->
  (forall k, handles s !! k <> Some (Cloning i)) ->
  good v (arc_dec_weak i s).
Proof.
  intros HI Hroom Hi Hh Hk.
  destruct (inv_block v s i h HI Hi) as (b & Hb & C); [by destruct Hh as [-> | ->]|].
  unfold arc_dec_weak, inner. rewrite Hb. intros _. destruct HI as [Hc _].
  pose proof (all_weights s) as W. pose proof C as [C1 C2 C3 C4 _ _]. unfold room in *.
  pose proof (weights s i h Hi).
  assert (weaks h = 1 /\ strongs h = 0 /\ with_value h = 0 /\ freeing h = 0 /\ 0 <= dropping h) by (by destruct Hh as [-> | ->]).
  assert (shared (total strongs s) <= 1) by arith.
  assert (0 <= shared (total strongs s)) by arith.
  rewrite wrap_usize by lia. cbn zeta.
  split.
  - apply clones_move; [exact Hc|by case_match|exact Hk].
  - apply (counts_move v s i h _ b); cbn; try done; destruct (Z.eqb_spec (weak b) 1); cbn; try lia; arith.
Qed.

Lemma arc_drop_good v s i h :
  inv v s -> room s -> handles s !! i = Some h -> good v (arc_drop i h s).
Proof.
  intros HI Hroom Hi. unfold arc_drop. destruct (borrowed i s) eqn:Hb; [done|].
  pose proof (fun k => not_borrowed s i k Hb) as Hk.
  destruct h; try done.
  - destruct (inv_block v s i Strong HI Hi) as (b & Hbl & C); [done|].
    unfold arc_dec_strong, inner. rewrite Hbl. intros _. destruct HI as [Hc _].
    pose proof (all_weights s) as W. pose proof C as [C1 C2 C3 C4 _ _]. unfold room in *.
    pose proof (weights s i _ Hi) as Wi. cbn in Wi.
    assert (shared (total strongs s) = 1) by arith.
    rewrite wrap_usize by lia.
    split; [by apply clones_move|].
    apply (counts_move v s i Strong _ b); cbn; try done; try lia; arith.
  - by eapply arc_dec_weak_good; eauto.
  - intros _. by eapply inv_relabel.
Qed.

Lemma arc_continue_good v s i h :
  inv v s -> room s -> handles s !! i = Some h -> good v (arc_continue i h s).
Proof.
  intros HI Hroom Hi.
  pose proof (all_weights s) as W. pose proof (weights s i _ Hi) as Wi.
  destruct h as [| | | | | |from| | | | |]; try done; cbn [strongs weaks dropping with_value freeing] in Wi;
    (destruct (inv_block v s i _ HI Hi) as (b & Hbl & C); [done|]);
    pose proof (busy_not_borrowed v s i _ HI Hi ltac:(done) ltac:(done)) as Hk;
    pose proof HI as [Hc _]; pose proof C as [C1 C2 C3 C4 C5 C6]; unfold room in Hroom;
    cbn [arc_continue]; unfold arc_inc_weak, arc_dec_strong_end, drop_value_in_place, dealloc_box, inner; try rewrite Hbl.
  - intros _. assert (shared (total strongs s) = 1) by arith.
    rewrite wrap_usize by lia. split; [by apply clones_move|].
    apply (counts_move v s i (Cloning from) _ b); cbn; try done; try lia; arith.
  - intros _. rewrite wrap_usize by lia. split; [apply clones_move; [exact Hc|by case_match|exact Hk]|].
    apply (counts_move v s i DecStrong _ b); cbn; try done; destruct (Z.eqb_spec (strong b) 1); cbn; try lia; arith.
  - destruct C5 as [-> Hlog]; [lia|]. intros _. split; [by apply clones_move|].
    assert (shared (total strongs s) = 0) by arith.
    cbn. split; sums; try lia; rewrite ?Hlog; try done.
    + rewrite !Z.sub_0_r, !Z.add_0_r. lia.
    + rewrite Z.sub_0_r, Z.add_0_r. lia.
    + arith.
  - by eapply arc_dec_weak_good; eauto.
  - intros _. assert (weak b = 0 /\ total freeing s = 1) by arith.
    assert (total strongs s = 0 /\ total weaks s = 0) by arith.
    destruct C6 as [_ Hlog]; [lia|]. split; [by apply clones_move|].
    cbn. sums. rewrite Hlog. split_conj; try lia. done.
Qed.

Lemma into_raw_good v s i h : inv v s -> handles s !! i = Some h -> good v (into_raw i h s).
Proof.
  intros HI Hi. unfold into_raw. destruct (borrowed i s) eqn:Hb; [done|].
  pose proof (fun k => not_borrowed s i k Hb) as Hk.
  destruct h; try done; intros _; by eapply inv_relabel.
Qed.

Lemma from_raw_good v s i h : inv v s -> handles s !! i = Some h -> good v (from_raw i h s).
Proof.
  intros HI Hi. destruct h; try done; intros _; eapply inv_relabel; try done.
  all: by eapply busy_not_borrowed.
Qed.

(** The invariant holds after every step, and every step is possible. *)
Lemma arc_step_good v op s : inv v s -> room s -> good v (arc_exec op s).
Proof.
  intros HI Hroom. destruct op as [i|i|i|i| |i|i|i|i|i]; cbn [arc_exec].
  all: try (unfold at_handle; destruct (handles s !! i) as [h|] eqn:Hi; [|done]).
  - destruct h; try done. apply (arc_inc_strong_good v s i Strong); auto. intros H0.
    pose proof (weights s i _ Hi) as Wi. cbn in Wi. lia.
  - destruct h; try done; [|by intros _]. apply (arc_inc_strong_good v s i Weak); auto. by intros _ _.
  - destruct h; try done. apply (arc_inc_weak_good v s i Strong); auto.
  - destruct h; try done; [apply (arc_inc_weak_good v s i Weak); auto|]. intros _. by apply inv_dangling.
  - intros _. by apply inv_dangling.
  - by apply arc_drop_good.
  - by apply into_raw_good.
  - by apply from_raw_good.
  - destruct h; try done. destruct (inv_block v s i _ HI Hi) as (b & Hb & C); [done|].
    cbn. unfold inner. rewrite Hb. pose proof (weights s i _ Hi) as Wi. pose proof (all_weights s). cbn in Wi.
    destruct C as [_ _ _ _ C5 _]. destruct C5 as [-> _]; [lia|]. by intros _.
  - by apply arc_continue_good.
Qed.

Lemma try_new_inv v : inv v (try_new v).
Proof.
  split; [by intros [|[|]] j [=]|]. cbn. by split.
Qed.

(** Handles are never taken off the list. *)
Lemma set_handle_length i h s : length (handles (set_handle i h s)) = length (handles s).
Proof. apply length_insert. Qed.

Lemma arc_exec_length op s s' : arc_exec op s = Step s' -> (length (handles s) <= length (handles s'))%nat.
Proof.
  destruct op; cbn; unfold at_handle, arc_clone, arc_upgrade, arc_downgrade, arc_clone_weak, arc_continue, arc_drop, arc_drop_weak, arc_dec_strong, arc_dec_strong_end,
    into_raw, from_raw, as_ref, arc_dec_weak, arc_inc_strong, arc_inc_weak, drop_value_in_place,
    dealloc_box, inner; intros H; repeat case_match; simplify_eq; cbn; rewrite ?length_insert, ?length_app; lia.
Qed.

Lemma arc_reachable_inv v s : reachable arc_exec v s -> room s -> inv v s.
Proof.
  revert s. refine (rtc_ind_r (fun s => room s -> inv v s) _ _ _); [intros _; apply try_new_inv|].
  intros s1 s2 _ [op Hop] IH Hroom.
  pose proof (arc_exec_length _ _ _ Hop).
  assert (room s1) as Hr1 by (unfold room in *; lia).
  pose proof (arc_step_good v op s1 (IH Hr1) Hr1) as Hg. rewrite Hop in Hg. by apply Hg.
Qed.

(** ** [TryRc] *)

(** The states between the operations of [TryArc] that [TryRc] is never in. *)
Definition whole (h : Handle) : Prop :=
  match h with Cloning _ | DecStrong | Dealloc => False | _ => True end.

Lemma whole_not_borrowed s i : Forall whole (handles s) -> borrowed i s = false.
Proof.
  intros Hw. apply not_true_iff_false. unfold borrowed. rewrite existsb_exists. intros (h & Hh & He).
  apply bool_decide_eq_true in He as ->. rewrite Forall_forall in Hw. by apply (Hw (Cloning i)), list_elem_of_In.
Qed.

Lemma run_two (exec : Op -> State T -> Result T) a c s s1 s2 :
  exec a s = Step s1 -> exec c s1 = Step s2 -> rtc (step exec) s s2.
Proof. intros H1 H2. eapply rtc_l; [by exists a|]. apply rtc_once. by exists c. Qed.

(** What a move of a whole handle does to the list. *)
Lemma at_handle_push s h (k : Handle -> Result T) :
  at_handle (length (handles s)) (push h s) k = k h.
Proof. unfold at_handle. cbn. by rewrite list_lookup_middle. Qed.

Lemma set_handle_push s o h h' :
  set_handle (length (handles s)) h' (set_block o (push h s)) = push h' (set_block o s).
Proof.
  unfold set_handle, push, set_block. cbn. f_equal. rewrite <- (Nat.add_0_r (length (handles s))).
  by rewrite insert_app_r.
Qed.

Lemma set_handle_twice s i h h' : set_handle i h' (set_handle i h s) = set_handle i h' s.
Proof. unfold set_handle. cbn. by rewrite list_insert_insert_eq. Qed.

Lemma whole_insert l i h : Forall whole l -> whole h -> Forall whole (<[i := h]> l).
Proof. intros. by apply Forall_insert. Qed.

Lemma whole_app l h : Forall whole l -> whole h -> Forall whole (l ++ [h]).
Proof. intros. apply Forall_app. split; [done|by constructor]. Qed.

Lemma weak_bounds v s i h b :
  counts v s b -> handles s !! i = Some h -> 0 < strongs h + weaks h -> room s ->
  0 < weak b < usize_max /\ strong b < usize_max /\ 0 <= strong b.
Proof.
  intros [C1 C2 _ _ _ _] Hi Hh Hr. pose proof (all_weights s). pose proof (weights s i h Hi). unfold room in Hr. arith.
Qed.

(** [inc_strong] of [TryRc] is that of [TryArc] with nothing in between. *)
Lemma rc_inc_strong_sim v s i h op no s' :
  inv v s -> room s -> handles s !! i = Some h -> (h = Strong \/ h = Weak) ->
  arc_exec op s = arc_inc_strong s (fun s => Step (push (Cloning i) s)) no ->
  rc_inc_strong s (fun s => Step (push Strong s)) no = Step s' ->
  rtc (step arc_exec) s s' /\ (no = Step s' \/ s' = push Strong (set_block (block s') s)).
Proof.
  intros HI Hr Hi Hh Hop Hrc. destruct (inv_block v s i h HI Hi) as (b & Hb & C); [by destruct Hh as [-> | ->]|].
  destruct (weak_bounds v s i h b C Hi) as (? & ? & ?); [by destruct Hh as [-> | ->]|done|].
  unfold rc_inc_strong, inner in Hrc. rewrite Hb in Hrc. unfold arc_inc_strong, inner in Hop. rewrite Hb in Hop.
  destruct (Z.ltb_spec 0 (strong b)).
  2: { rewrite (proj2 (Z.eqb_eq _ _)) in Hop by lia. rewrite Hrc in Hop. split; [|by left]. apply rtc_once. by exists op. }
  destruct (Z.leb_spec usize_max (strong b)); [lia|]. destruct (Z.leb_spec usize_max (weak b)); [lia|].
  cbn in Hrc. injection Hrc as <-. split; [|by right].
  rewrite (proj2 (Z.eqb_neq _ _)) in Hop by lia.
  eapply (run_two _ op (Continue (length (handles s)))); [exact Hop|].
  cbn [arc_exec]. rewrite (at_handle_push (set_block _ s)). cbn [arc_continue]. unfold arc_inc_weak, inner. cbn.
  rewrite wrap_usize by lia. f_equal. apply (set_handle_push (set_block _ s)).
Qed.

Lemma rc_dec_weak_sim v i h op s s' :
  inv v s -> Forall whole (handles s) -> room s -> handles s !! i = Some h -> weaks h = 1 ->
  arc_exec op s = arc_dec_weak i s -> rc_dec_weak i s = Step s' ->
  rtc (step arc_exec) s s' /\ Forall whole (handles s').
Proof.
  intros HI Hw Hr Hi Hh Hop Hrc.
  destruct (inv_block v s i h HI Hi) as (b & Hbl & C); [destruct h; cbn in *; lia|].
  destruct (weak_bounds v s i h b C Hi) as (? & ? & ?); [destruct h; cbn in *; lia|done|].
  unfold rc_dec_weak, inner in Hrc. rewrite Hbl in Hrc. unfold arc_dec_weak, inner in Hop. rewrite Hbl in Hop.
  rewrite wrap_usize in Hop by lia.
  destruct (Z.eqb_spec (weak b) 0); [lia|]. cbn zeta in *. replace (weak b - 1 =? 0) with (weak b =? 1) in Hrc by lia.
  destruct (weak b =? 1).
  - unfold dealloc_box, inner in Hrc. cbn in Hrc. injection Hrc as <-. split; [|by apply whole_insert].
    eapply (run_two _ op (Continue i)); [exact Hop|].
    cbn. unfold at_handle. cbn. rewrite list_lookup_insert_eq by (by eapply lookup_lt_Some). cbn.
    unfold set_handle, set_block, record. cbn. by rewrite list_insert_insert_eq.
  - injection Hrc as <-. split; [|by apply whole_insert]. apply rtc_once. by exists op.
Qed.

Lemma rc_inc_weak_sim v i h op s s' :
  inv v s -> Forall whole (handles s) -> room s -> handles s !! i = Some h -> weaks h = 1 ->
  arc_exec op s = arc_inc_weak s (fun s => Step (push Weak s)) ->
  rc_inc_weak s (fun s => Step (push Weak s)) = Step s' ->
  rtc (step arc_exec) s s' /\ Forall whole (handles s').
Proof.
  intros HI Hw Hr Hi Hh Hop Hrc.
  destruct (inv_block v s i h HI Hi) as (b & Hbl & C); [destruct h; cbn in *; lia|].
  destruct (weak_bounds v s i h b C Hi) as (? & ? & ?); [destruct h; cbn in *; lia|done|].
  unfold rc_inc_weak, inner in Hrc. unfold arc_inc_weak, inner in Hop. rewrite Hbl in *.
  rewrite wrap_usize in Hop by lia. destruct (usize_max <=? weak b); [done|]. injection Hrc as <-.
  split; [|by apply whole_app]. apply rtc_once. by exists op.
Qed.

(** A step of [TryRc] is one or two steps of [TryArc]. *)
Lemma rc_drop_sim v i h s s' :
  inv v s -> Forall whole (handles s) -> room s -> handles s !! i = Some h ->
  rc_drop i h s = Step s' -> rtc (step arc_exec) s s' /\ Forall whole (handles s').
Proof.
  intros HI Hw Hr Hi Hrc. pose proof (whole_not_borrowed s i Hw) as Hb.
  assert (forall op, at_handle i s op = op h) as At by (intros; unfold at_handle; by rewrite Hi).
  destruct h; try done; cbn in Hrc.
  - destruct (inv_block v s i _ HI Hi) as (b & Hbl & C); [done|].
    destruct (weak_bounds v s i _ b C Hi) as (? & ? & ?); [done|done|].
    unfold rc_dec_strong, inner in Hrc. rewrite Hbl in Hrc.
    destruct (Z.eqb_spec (strong b) 0) as [|Hs]; [done|]. destruct (Z.eqb_spec (weak b) 0) as [|Hk]; [done|].
    cbn in Hrc. injection Hrc as <-. split; [|by apply whole_insert; [|case_match]].
    eapply (run_two _ (Drop i) (Continue i)).
    + cbn. rewrite At. unfold arc_drop, arc_dec_strong, inner. by rewrite Hb, Hbl.
    + cbn. unfold at_handle. cbn. rewrite list_lookup_insert_eq by (by eapply lookup_lt_Some). cbn.
      unfold arc_dec_strong_end, inner. cbn. rewrite !wrap_usize by lia. f_equal.
      replace (strong b - 1 =? 0) with (strong b =? 1) by lia. unfold set_handle, set_block. cbn.
      by rewrite list_insert_insert_eq.
  - eapply (rc_dec_weak_sim v i Weak (Drop i)); eauto. cbn. rewrite At. unfold arc_drop. by rewrite Hb.
  - injection Hrc as <-. split; [|by apply whole_insert]. apply rtc_once. exists (Drop i). cbn. rewrite At.
    unfold arc_drop. by rewrite Hb.
Qed.

Lemma rc_sim v op s s' :
  inv v s -> Forall whole (handles s) -> room s -> rc_exec op s = Step s' ->
  rtc (step arc_exec) s s' /\ Forall whole (handles s').
Proof.
  intros HI Hw Hr Hrc.
  assert (forall i h, handles s !! i = Some h -> borrowed i s = false) as Hb.
  { intros i h Hi. by apply whole_not_borrowed. }
  destruct op as [i|i|i|i| |i|i|i|i|i]; cbn in Hrc.
  all: try (unfold at_handle in Hrc; destruct (handles s !! i) as [h|] eqn:Hi; [|done]).
  - destruct h; try done.
    eapply (rc_inc_strong_sim v s i Strong (Clone i)) in Hrc as [Hrtc Hs]; eauto.
    2: { cbn. unfold at_handle. by rewrite Hi. }
    split; [done|]. destruct Hs as [[= <-] | ->]; by apply whole_app.
  - destruct h; try done; [|injection Hrc as <-; by split].
    eapply (rc_inc_strong_sim v s i Weak (Upgrade i)) in Hrc as [Hrtc Hs]; eauto.
    2: { cbn. unfold at_handle. by rewrite Hi. }
    split; [done|]. destruct Hs as [[= <-] | ->]; [done|by apply whole_app].
  - destruct h; try done. eapply (rc_inc_weak_sim v i Strong (Downgrade i)); eauto.
    cbn. unfold at_handle. by rewrite Hi.
  - destruct h; try done.
    + eapply (rc_inc_weak_sim v i Weak (CloneWeak i)); eauto. cbn. unfold at_handle. by rewrite Hi.
    + injection Hrc as <-. split; [|by apply whole_app]. apply rtc_once. exists (CloneWeak i). cbn. unfold at_handle. by rewrite Hi.
  - injection Hrc as <-. split; [|by apply whole_app]. apply rtc_once. by exists NewWeak.
  - by eapply rc_drop_sim.
  - split; [apply rtc_once; exists (IntoRaw i); cbn; unfold at_handle; by rewrite Hi|].
    unfold into_raw in Hrc. rewrite (Hb _ _ Hi) in Hrc. destruct h; simplify_eq; by apply whole_insert.
  - split; [apply rtc_once; exists (FromRaw i); cbn; unfold at_handle; by rewrite Hi|].
    destruct h; simplify_eq/=; by apply whole_insert.
  - split; [apply rtc_once; exists (AsRef i); cbn; unfold at_handle; by rewrite Hi|].
    destruct h; try done. unfold as_ref, inner in Hrc. repeat case_match; by simplify_eq.
  - destruct h; try done; cbn in Hrc.
    + split; [apply rtc_once; exists (Continue i); cbn; unfold at_handle; by rewrite Hi|].
      unfold drop_value_in_place, inner in Hrc. repeat case_match; simplify_eq; by apply whole_insert.
    + eapply (rc_dec_weak_sim v i DropWeak (Continue i)); eauto. cbn. unfold at_handle. by rewrite Hi.
Qed.

(** The operations of [TryRc] on a good state. *)
Lemma rc_step_good v op s :
  inv v s -> Forall whole (handles s) -> room s -> rc_exec op s <> Panicked /\ rc_exec op s <> Undefined.
Proof.
  intros HI Hw Hr. destruct op as [i|i|i|i| |i|i|i|i|i]; cbn; try done; unfold at_handle;
    destruct (handles s !! i) as [h|] eqn:Hi; try done.
  all: destruct h; try done; cbn; unfold into_raw; try (by case_match).
  all: destruct (inv_block v s i _ HI Hi) as (b & Hbl & C); [done|].
  all: try (destruct (weak_bounds v s i _ b C Hi) as (? & ? & ?); [done|done|]).
  all: pose proof (weights s i _ Hi) as Wi; pose proof (all_weights s) as W; cbn in Wi.
  all: destruct C as [C1 C2 C3 C4 C5 C6].
  all: unfold rc_inc_strong, rc_inc_weak, rc_dec_strong, rc_dec_weak, dealloc_box, drop_value_in_place, inner;
    rewrite Hbl; cbn [block set_block].
  all: try (destruct C5 as [-> _]; [lia|]; done).
  all: repeat case_match; bool_to_prop; split; try done; lia.
Qed.

Lemma rc_exec_length op s s' :
  rc_exec op s = Step s' -> (length (handles s) <= length (handles s'))%nat.
Proof.
  destruct op; cbn; unfold at_handle, rc_clone, rc_upgrade, rc_downgrade, rc_clone_weak, rc_drop, rc_drop_weak,
    into_raw, from_raw, as_ref, rc_continue, rc_dec_weak, rc_inc_strong, rc_inc_weak, rc_dec_strong,
    drop_value_in_place, dealloc_box, inner; intros H; repeat case_match; simplify_eq; cbn;
    rewrite ?length_insert, ?length_app; lia.
Qed.

Lemma rc_reachable v s :
  reachable rc_exec v s -> room s -> reachable arc_exec v s /\ Forall whole (handles s).
Proof.
  revert s. refine (rtc_ind_r (fun s => room s -> reachable arc_exec v s /\ Forall whole (handles s)) _ _ _).
  { intros _. split; [apply rtc_refl|by repeat constructor]. }
  intros s1 s2 _ [op Hop] IH Hroom. pose proof (rc_exec_length _ _ _ Hop).
  assert (room s1) as Hr1 by (unfold room in *; lia). destruct (IH Hr1) as [Ha Hw].
  destruct (rc_sim v op s1 s2) as [Hs Hw2]; [by apply arc_reachable_inv|done..|].
  split; [|done]. unfold reachable in *. by etrans.
Qed.

Lemma rc_run_reachable exec ops v s : run exec ops (try_new v) = Step s -> reachable exec v s.
Proof.
  unfold reachable. generalize (try_new v). induction ops as [|op ops IH]; intros s0; cbn.
  - intros [= ->]. apply rtc_refl.
  - destruct (exec op s0) as [s1| | |] eqn:He; try done. intros Hrun. eapply rtc_l; [by exists op|by apply IH].
Qed.

(** ** What the handles rely on *)

(** A handle through which nothing of the block can be reached. *)
Definition away (h : Handle) : Prop := match h with Gone | Dangling | RawDangling => True | _ => False end.

(** C30: whatever the threads that share an Arc do, in any order of their
    atomic operations: no operation panics or touches memory that is gone; as
    long as there is a strong handle the value is there; both counters are the
    number of handles they stand for; and when all handles are gone the value
    has been dropped and the memory given back, once each and in this order. *)
Theorem arc_frees_once v s :
  reachable arc_exec v s -> room s ->
  (forall op, arc_exec op s <> Panicked /\ arc_exec op s <> Undefined) /\
  (forall b, block s = Some b ->
    strong b = total strongs s /\ weak b = total weaks s + shared (total strongs s)) /\
  (0 < total strongs s -> exists b, block s = Some b /\ value b = Some v /\ log s = []) /\
  (Forall away (handles s) -> block s = None /\ log s = [Dropped v; Freed]).
Proof.
  intros Hreach Hroom. pose proof (arc_reachable_inv v s Hreach Hroom) as HI. split_conj.
  - intros op. pose proof (arc_step_good v op s HI Hroom) as Hg. destruct (arc_exec op s); done.
  - intros b Hb. destruct HI as [_ HI]. rewrite Hb in HI. by destruct HI.
  - intros Hs. destruct (zsum_pos _ _ Hs) as (i & h & Hi & Hh).
    destruct (inv_block v s i h HI Hi) as (b & Hb & C); [destruct h; cbn in *; lia|].
    exists b. split; [done|]. apply (c_alive v s b C). pose proof (all_weights s). lia.
  - intros Ha. assert (forall f, (forall h, away h -> f h = 0) -> total f s = 0) as Z0.
    { intros f Hf. clear -Ha Hf. induction Ha as [|h l Hh Hl IH]; [done|]. rewrite zsum_cons, IH, (Hf h) by done. done. }
    destruct HI as [_ HI]. destruct (block s) as [b|].
    + destruct HI as [C1 C2 C3 C4 _ _].
      rewrite !Z0 in * by (by intros []). rewrite C2 in C4. done.
    + by destruct HI as (_ & _ & _ & ->).
Qed.

(** Every run of an Rc, with the drop of the value free to use other
    handles, is a run of an Arc whose steps are not interleaved, and no
    operation of it panics or touches memory that is gone. *)
Theorem rc_refines_arc v s :
  reachable rc_exec v s -> room s ->
  reachable arc_exec v s /\
  (forall op, rc_exec op s <> Panicked /\ rc_exec op s <> Undefined).
Proof.
  intros Hreach Hroom. destruct (rc_reachable v s Hreach Hroom) as [Ha Hw]. split; [done|].
  intros op. by apply (rc_step_good v); [apply arc_reachable_inv|..].
Qed.

(** A weak handle can be upgraded exactly as long as there is a strong
    handle, also one whose drop has begun. *)
Theorem arc_upgrade_iff v s i :
  reachable arc_exec v s -> room s -> handles s !! i = Some Weak ->
  (arc_exec (Upgrade i) s = Step s <-> total strongs s = 0) /\
  (0 < total strongs s -> exists o, arc_exec (Upgrade i) s = Step (push (Cloning i) (set_block o s))).
Proof.
  intros Hreach Hroom Hi. pose proof (arc_reachable_inv v s Hreach Hroom) as HI.
  destruct (inv_block v s i _ HI Hi) as (b & Hb & C); [done|]. destruct C as [C1 _ _ _ _ _].
  pose proof (all_weights s) as W. unfold room in Hroom.
  cbn. unfold at_handle. rewrite Hi. cbn. unfold arc_inc_strong, inner. rewrite Hb.
  destruct (Z.eqb_spec (strong b) 0).
  - split; [|lia]. split; [intros _; lia|done].
  - destruct (Z.leb_spec usize_max (strong b)); [lia|]. split; [|by eexists].
    split; [|lia]. intros [= He]. apply (f_equal (fun s => length (handles s))) in He. cbn in He.
    rewrite length_app in He. cbn in He. lia.
Qed.

End spec.

(** ** A run *)

Module Runs.

(** Two threads share an Arc, one of them downgrades it
    while the other clones; then both drop their handles at the same time. *)
Definition ops : list Op :=
  [Clone 0; Downgrade 0; Continue 1; Drop 0; Drop 1; Continue 1; Continue 0; Continue 0; Continue 0;
   Drop 2; Continue 2].
Definition prefix : list Op := take 5 ops.

Definition final (exec : Op -> State Z -> Result Z) (l : list Op) : State Z :=
  match run exec l (try_new 7) with Step s => s | _ => try_new 0 end.

Lemma arc_frees_once_witness :
  Forall away (handles (final arc_exec ops)) /\
  block (final arc_exec ops) = None /\ log (final arc_exec ops) = [Dropped 7; Freed].
Proof.
  assert (Forall away (handles (final arc_exec ops))) as Ha by (vm_compute; repeat constructor).
  split; [exact Ha|].
  refine (proj2 (proj2 (proj2 (arc_frees_once 7 (final arc_exec ops) _ _))) Ha).
  - apply (rc_run_reachable arc_exec ops). vm_compute. reflexivity.
  - vm_compute. reflexivity.
Defined.

Lemma arc_upgrade_iff_witness :
  exists o, arc_exec (Upgrade 2) (final arc_exec prefix) =
    Step (push (Cloning 2) (set_block o (final arc_exec prefix))).
Proof.
  refine (proj2 (arc_upgrade_iff 7 (final arc_exec prefix) 2 _ _ _) _).
  - apply (rc_run_reachable arc_exec prefix). vm_compute. reflexivity.
  - vm_compute. reflexivity.
  - vm_compute. reflexivity.
  - vm_compute. reflexivity.
Defined.

Definition rc_ops : list Op := [Clone 0; Downgrade 1; Drop 0; Drop 1; Continue 1; Upgrade 2; Continue 1].

Lemma rc_refines_arc_witness : reachable arc_exec 7 (final rc_exec rc_ops).
Proof.
  refine (proj1 (rc_refines_arc 7 (final rc_exec rc_ops) _ _)).
  - apply (rc_run_reachable rc_exec rc_ops). vm_compute. reflexivity.
  - vm_compute. reflexivity.
Defined.

End Runs.
