(* ===== verification/Thread.v ===== *)
(** * Threads and processes (kernel/src/multitask/thread.rs, process.rs)

    The scheduler of the one processor: the tables of threads and processes,
    the queues, the registers a switch loads. A step is a piece of code that
    runs with interrupts off; between two steps of [thread_yield_internal] the
    timer can interrupt, and its handler yields on the stack of the interrupted
    thread. The calls a thread is in are its [frames].

    A thread object is shared by the table, the queues (weakly) and the code
    that runs; it is found by its id, which is never given twice. *)
From S2P Require Import Prelude.

(** [ThreadStatus] *)
Inductive ThreadStatus : Type :=
  | Ready
  | Running
  | Suspend
  | Terminating
  | Terminated.

#[global] Instance status_eq_dec : EqDecision ThreadStatus.
Proof. solve_decision. Defined.

(** [Thread], without its saved registers; [waker] is whether a waker is
    registered, which wakes this thread. *)
Record Thread : Type := mkThread {
  process_id : option Z;
  status : ThreadStatus;
  rsp0 : option Z;
  exit_code : Z;
  waker : bool
}.

(** [Process]: the threads, the address space, the exit code. *)
Record Process : Type := mkProcess {
  thread_ids : gset Z;
  page_table : Z;
  p_exit_code : Z;
  exit_code_setted : bool
}.

(** Where a call of [thread_yield_internal] is. *)
Inductive Phase : Type :=
  | Searched          (** the queue has been searched *)
  | Chosen            (** the idle thread has been considered *)
  | Switched.         (** inside [switch_thread], another thread runs *)

Record Frame : Type := mkFrame { f_suspend : bool; f_next : option Z; f_phase : Phase }.

(** What the drop of a [Thread] leaves to an asynchronous task. *)
Record Leaving : Type := mkLeaving { l_thread : Z; l_rsp0 : option Z; l_process : option Z; l_code : Z }.

(** [PerCpuStruct], and the registers that a switch loads. *)
Record Cpu : Type := mkCpu {
  current_thread_id : Z;
  idle_thread_id : Z;
  kernel_async_thread_id : Z;
  syscall_stack : Z;
  tss_rsp0 : Z;
  cr3 : Z
}.

(** The globals of thread.rs and process.rs, the calls each thread is in, what
    dropped threads have left to do and the kernel stacks given back. *)
Record Kernel : Type := mkKernel {
  objects : gmap Z Thread;
  THREADS : gset Z;
  READY_THREADS : list Z;
  TERMINATED_THREADS : list Z;
  THREAD_ID_GENERATOR : Z;
  PROCESSES : gmap Z Process;
  PROCESS_ID_GENERATOR : Z;
  cpu : Cpu;
  frames : gmap Z (list Frame);
  leaving : list Leaving;
  freed_stacks : list Z
}.

Inductive Result : Type :=
  | Step (s : Kernel)
  | Disabled
  | Panicked.

Definition set_objects (g : gmap Z Thread -> gmap Z Thread) (s : Kernel) : Kernel :=
  mkKernel (g (objects s)) (THREADS s) (READY_THREADS s) (TERMINATED_THREADS s) (THREAD_ID_GENERATOR s) (PROCESSES s)
    (PROCESS_ID_GENERATOR s) (cpu s) (frames s) (leaving s) (freed_stacks s).
Definition set_threads (g : gset Z -> gset Z) (s : Kernel) : Kernel :=
  mkKernel (objects s) (g (THREADS s)) (READY_THREADS s) (TERMINATED_THREADS s) (THREAD_ID_GENERATOR s) (PROCESSES s)
    (PROCESS_ID_GENERATOR s) (cpu s) (frames s) (leaving s) (freed_stacks s).
Definition set_ready (g : list Z -> list Z) (s : Kernel) : Kernel :=
  mkKernel (objects s) (THREADS s) (g (READY_THREADS s)) (TERMINATED_THREADS s) (THREAD_ID_GENERATOR s) (PROCESSES s)
    (PROCESS_ID_GENERATOR s) (cpu s) (frames s) (leaving s) (freed_stacks s).
Definition set_terminated (g : list Z -> list Z) (s : Kernel) : Kernel :=
  mkKernel (objects s) (THREADS s) (READY_THREADS s) (g (TERMINATED_THREADS s)) (THREAD_ID_GENERATOR s) (PROCESSES s)
    (PROCESS_ID_GENERATOR s) (cpu s) (frames s) (leaving s) (freed_stacks s).
Definition set_processes (g : gmap Z Process -> gmap Z Process) (s : Kernel) : Kernel :=
  mkKernel (objects s) (THREADS s) (READY_THREADS s) (TERMINATED_THREADS s) (THREAD_ID_GENERATOR s) (g (PROCESSES s))
    (PROCESS_ID_GENERATOR s) (cpu s) (frames s) (leaving s) (freed_stacks s).
Definition set_cpu (g : Cpu -> Cpu) (s : Kernel) : Kernel :=
  mkKernel (objects s) (THREADS s) (READY_THREADS s) (TERMINATED_THREADS s) (THREAD_ID_GENERATOR s) (PROCESSES s)
    (PROCESS_ID_GENERATOR s) (g (cpu s)) (frames s) (leaving s) (freed_stacks s).
Definition set_frames (t : Z) (fs : list Frame) (s : Kernel) : Kernel :=
  mkKernel (objects s) (THREADS s) (READY_THREADS s) (TERMINATED_THREADS s) (THREAD_ID_GENERATOR s) (PROCESSES s)
    (PROCESS_ID_GENERATOR s) (cpu s) (<[t := fs]> (frames s)) (leaving s) (freed_stacks s).
Definition set_leaving (l : list Leaving) (z : list Z) (s : Kernel) : Kernel :=
  mkKernel (objects s) (THREADS s) (READY_THREADS s) (TERMINATED_THREADS s) (THREAD_ID_GENERATOR s) (PROCESSES s)
    (PROCESS_ID_GENERATOR s) (cpu s) (frames s) l z.
Definition next_thread_id (s : Kernel) : Kernel :=
  mkKernel (objects s) (THREADS s) (READY_THREADS s) (TERMINATED_THREADS s) (THREAD_ID_GENERATOR s + 1) (PROCESSES s)
    (PROCESS_ID_GENERATOR s) (cpu s) (frames s) (leaving s) (freed_stacks s).
Definition next_process_id (s : Kernel) : Kernel :=
  mkKernel (objects s) (THREADS s) (READY_THREADS s) (TERMINATED_THREADS s) (THREAD_ID_GENERATOR s) (PROCESSES s)
    (PROCESS_ID_GENERATOR s + 1) (cpu s) (frames s) (leaving s) (freed_stacks s).

Notation current s := (current_thread_id (cpu s)).
Notation idle s := (idle_thread_id (cpu s)).

(** What [deal_new_thread] loads. *)
Definition load_thread (t stack table : Z) : Kernel -> Kernel :=
  set_cpu (fun c => mkCpu t (idle_thread_id c) (kernel_async_thread_id c) stack stack table).

Definition set_status (st : ThreadStatus) (th : Thread) : Thread :=
  mkThread (process_id th) st (rsp0 th) (exit_code th) (waker th).
Definition set_exit (code : Z) (th : Thread) : Thread :=
  mkThread (process_id th) (status th) (rsp0 th) code (waker th).
Definition set_waker (b : bool) (th : Thread) : Thread :=
  mkThread (process_id th) (status th) (rsp0 th) (exit_code th) b.

Definition RSP0_SIZE : Z := 0x2000.

(** ** Choosing a thread *)

(** The loop over the ready queue in [thread_yield_internal] and
    [try_yield_thread]: a weak reference that cannot be upgraded and a thread
    that is no longer ready are skipped. *)
Fixpoint pick (objs : gmap Z Thread) (queue : list Z) : option Z * list Z :=
  match queue with
  | [] => (None, [])
  | t :: queue =>
      match objs !! t with
      | Some th => if decide (status th = Ready) then (Some t, queue) else pick objs queue
      | None => pick objs queue
      end
  end.

Definition frames_of (t : Z) (s : Kernel) : list Frame := default [] (frames s !! t).

(** The top call of the current thread is back from [switch_thread]. *)
Definition resuming (s : Kernel) : bool :=
  match frames_of (current s) s with
  | mkFrame _ _ Switched :: _ => true
  | _ => false
  end.

(** [thread_yield_internal] and [try_yield_thread] up to the end of the first
    section. The code that suspends its thread is not the idle thread's and
    not an interrupt handler that nests in another yield. *)
Definition thread_yield (suspend : bool) (s : Kernel) : Result :=
  let c := current s in
  if resuming s then Disabled
  else if suspend && (bool_decide (c = idle s) || negb (bool_decide (frames_of c s = [])))
  then Disabled
  else
    if decide (c ∈ THREADS s) then
      let '(next, queue) := pick (objects s) (READY_THREADS s) in
      Step (set_frames c (mkFrame suspend next Searched :: frames_of c s) (set_ready (fun _ => queue) s))
    else Panicked.

(** A thread that must stop goes to the idle thread when no other is ready. *)
Definition choose_idle (s : Kernel) : Result :=
  let c := current s in
  match frames_of c s with
  | mkFrame suspend next Searched :: fs =>
      let next :=
        if suspend && bool_decide (next = None)
        then if decide (idle s ∈ THREADS s) then Some (idle s) else None
        else next in
      Step (set_frames c (mkFrame suspend next Chosen :: fs) s)
  | _ => Disabled
  end.

(** ** Switching *)

(** [deal_old_thread]; [reserved] is whether the queue of terminated threads
    can grow. *)
Definition deal_old_thread (from : Z) (th : Thread) (suspend reserved : bool) (s : Kernel) : Kernel :=
  let new_status :=
    if decide (status th = Terminating) then Terminated
    else if suspend then Suspend else Ready in
  let s := set_objects (<[from := set_status new_status th]>) s in
  if decide (from = idle s) then s
  else
    match new_status with
    | Ready => set_ready (fun q => q ++ [from]) s
    | Terminated => if reserved then set_terminated (fun q => q ++ [from]) s else s
    | _ => s
    end.

(** [deal_new_thread], with the kernel's own table for a kernel thread and for
    a process that is gone. *)
Definition deal_new_thread (kernel_pml4 : Z) (to : Z) (th : Thread) (s : Kernel) : Kernel :=
  let s := if decide (status th = Ready) then set_objects (<[to := set_status Running th]>) s else s in
  let stack := match rsp0 th with Some a => a + RSP0_SIZE | None => 0 end in
  let table :=
    match process_id th ≫= (fun p => PROCESSES s !! p) with
    | Some p => page_table p
    | None => kernel_pml4
    end in
  load_thread to stack table s.

(** The second section: the switch, when there is a thread to switch to. *)
Definition switch_thread (kernel_pml4 : Z) (reserved : bool) (s : Kernel) : Result :=
  let c := current s in
  match frames_of c s with
  | mkFrame suspend (Some to) Chosen :: fs =>
      match objects s !! c with
      | None => Panicked
      | Some old =>
          let s := set_frames c (mkFrame suspend None Switched :: fs) s in
          let s := deal_old_thread c old suspend reserved s in
          match objects s !! to with
          | None => Panicked
          | Some new => Step (deal_new_thread kernel_pml4 to new s)
          end
      end
  | mkFrame suspend None Chosen :: fs => Step (set_frames c fs s)
  | _ => Disabled
  end.

(** The loop after the switch: [destroy_thread] of every terminated thread
    that still exists. *)
Definition destroy_terminated (s : Kernel) : Result :=
  let c := current s in
  match frames_of c s with
  | mkFrame _ _ Switched :: fs =>
      let gone := filter (fun t => is_Some (objects s !! t)) (TERMINATED_THREADS s) in
      Step (set_frames c fs (set_threads (fun T => T ∖ list_to_set gone)
        (set_terminated (fun _ => []) s)))
  | _ => Disabled
  end.

(** ** Operations on threads *)

Definition wake_thread (t : Z) (s : Kernel) : Result :=
  match objects s !! t with
  | Some th =>
      if decide (status th = Suspend) then
        Step (set_ready (fun q => q ++ [t]) (set_objects (<[t := set_status Ready th]>) s))
      else Step s
  | None => Disabled
  end.

(** The kernel thread is woken by its id. *)
Definition wake_kernel_thread (s : Kernel) : Result :=
  let t := kernel_async_thread_id (cpu s) in
  if decide (t ∈ THREADS s) then wake_thread t s else Step s.

(** The second argument of [create_thread] on is the saved context, which
    only [switch_to_context] reads. *)
Definition create_thread (process : option Z) (stack : option Z) (initial_suspend : bool) (s : Kernel) : Result :=
  let t := THREAD_ID_GENERATOR s + 1 in
  let th := mkThread process (if initial_suspend then Suspend else Ready) stack 0 false in
  let s := set_threads (fun T => {[t]} ∪ T) (set_objects (<[t := th]>) (next_thread_id s)) in
  let s := if initial_suspend then s else set_ready (fun q => q ++ [t]) s in
  match process with
  | None => Step s
  | Some p =>
      match PROCESSES s !! p with
      | Some pr => Step (set_processes (<[p := mkProcess ({[t]} ∪ thread_ids pr) (page_table pr)
          (p_exit_code pr) (exit_code_setted pr)]>) s)
      | None => Disabled
      end
  end.

(** [stop_thread]: the waker, if there is one, wakes the thread. *)
Definition stop_thread (t code : Z) (s : Kernel) : Result :=
  match objects s !! t with
  | Some th =>
      match status th with
      | Terminating | Terminated => Step s
      | _ =>
          let s := set_objects (<[t := set_exit code (set_status Terminating th)]>) s in
          if waker th then wake_thread t s else Step s
      end
  | None => Disabled
  end.

(** [register_waker], of the current thread. *)
Definition register_waker (b : bool) (s : Kernel) : Result :=
  match objects s !! current s with
  | Some th => Step (set_objects (<[current s := set_waker b th]>) s)
  | None => Panicked
  end.

(** [thread_boundry_check] *)
Definition thread_boundry_check (s : Kernel) : bool :=
  match objects s !! current s with
  | Some th => bool_decide (status th = Terminating)
  | None => false
  end.

(** [Drop for Thread]: the work is left to a task of the kernel. *)
Definition drop_thread (t : Z) (th : Thread) (s : Kernel) : Kernel :=
  set_leaving (leaving s ++ [mkLeaving t (rsp0 th) (process_id th) (exit_code th)]) (freed_stacks s)
    (set_objects (delete t) s).

(** ** Operations on processes *)

Definition create_process (table : Z) (s : Kernel) : Kernel :=
  let p := PROCESS_ID_GENERATOR s + 1 in
  set_processes (<[p := mkProcess ∅ table 0 false]>) (next_process_id s).

Definition set_exit_code_with_lock (code : Z) (p : Process) : Process :=
  if exit_code_setted p then p
  else mkProcess (thread_ids p) (page_table p) code true.

Definition stop_process (p : Z) (s : Kernel) : Kernel := set_processes (delete p) s.

(** The task of [Drop for Thread]. *)
Definition leave (s : Kernel) : Result :=
  match leaving s with
  | [] => Disabled
  | mkLeaving t stack process code :: l =>
      let s := set_leaving l (freed_stacks s ++ option_list stack) s in
      match process ≫= (fun p => pair p <$> PROCESSES s !! p) with
      | None => Step s
      | Some (p, pr) =>
          let pr := mkProcess (thread_ids pr ∖ {[t]}) (page_table pr) (p_exit_code pr) (exit_code_setted pr) in
          if decide (thread_ids pr = ∅) then
            Step (stop_process p (set_processes (<[p := set_exit_code_with_lock code pr]>) s))
          else Step (set_processes (<[p := pr]>) s)
      end
  end.

(** [stop_all_thread] over the ids of the set; a thread that is no longer in
    the table is passed over. *)
Fixpoint stop_threads (ids : list Z) (code : Z) (s : Kernel) : Result :=
  match ids with
  | [] => Step s
  | t :: ids =>
      if decide (t ∈ THREADS s) then
        match stop_thread t code s with
        | Step s => stop_threads ids code s
        | r => r
        end
      else stop_threads ids code s
  end.

Definition stop_all_thread (p code : Z) (s : Kernel) : Result :=
  match PROCESSES s !! p with
  | Some pr => stop_threads (elements (thread_ids pr)) code s
  | None => Disabled
  end.

(** ** The machine *)

Inductive Op : Type :=
  | Yield (suspend : bool)
  | ChooseIdle
  | Switch (reserved : bool)
  | Destroy
  | Wake (t : Z)
  | WakeKernel
  | CreateThread (process : option Z) (stack : option Z) (initial_suspend : bool)
  | CreateProcess (table : Z)
  | Stop (t code : Z)
  | StopAll (p code : Z)
  | SetExitCode (p code : Z)
  | RegisterWaker (b : bool)
  | DropThread (t : Z)
  | Leave.

Definition held_by (t : Z) (l : list Frame) : bool :=
  existsb (fun f => bool_decide (f_next f = Some t)) l.

(** Only threads of processes are stopped, through handles to them. A thread
    object goes when the table no longer has it and no call holds it. *)
Definition exec (kernel_pml4 : Z) (op : Op) (s : Kernel) : Result :=
  if resuming s then match op with Destroy => destroy_terminated s | _ => Disabled end
  else
    match op with
    | Yield suspend => thread_yield suspend s
    | ChooseIdle => choose_idle s
    | Switch reserved => switch_thread kernel_pml4 reserved s
    | Destroy => Disabled
    | Wake t => wake_thread t s
    | WakeKernel => wake_kernel_thread s
    | CreateThread p st i => create_thread p st i s
    | CreateProcess table => Step (create_process table s)
    | Stop t code =>
        match objects s !! t with
        | Some th => if decide (process_id th = None) then Disabled else stop_thread t code s
        | None => Disabled
        end
    | StopAll p code => stop_all_thread p code s
    | SetExitCode p code =>
        match PROCESSES s !! p with
        | Some pr => Step (set_processes (<[p := set_exit_code_with_lock code pr]>) s)
        | None => Disabled
        end
    | RegisterWaker b => register_waker b s
    | DropThread t =>
        match objects s !! t with
        | Some th =>
            if decide (t ∈ THREADS s) then Disabled
            else if decide (t = current s) then Disabled
            else if existsb (fun '(u, l) => held_by t l) (map_to_list (frames s)) then Disabled
            else Step (drop_thread t th s)
        | None => Disabled
        end
    | Leave => leave s
    end.

(** The threads the kernel starts with. *)
Definition create_kernel_async_thread (s : Kernel) : Kernel :=
  let t := THREAD_ID_GENERATOR s + 1 in
  set_cpu (fun c => mkCpu t (idle_thread_id c) t (syscall_stack c) (tss_rsp0 c) (cr3 c))
    (set_threads (fun T => {[t]} ∪ T)
      (set_objects (<[t := mkThread None Running None 0 false]>) (next_thread_id s))).

(** The idle thread is marked as running from the start. *)
Definition create_idle_thread (s : Kernel) : Kernel :=
  let t := THREAD_ID_GENERATOR s + 1 in
  set_cpu (fun c => mkCpu (current_thread_id c) t (kernel_async_thread_id c) (syscall_stack c) (tss_rsp0 c) (cr3 c))
    (set_threads (fun T => {[t]} ∪ T)
      (set_objects (<[t := mkThread None Running None 0 false]>) (next_thread_id s))).

Definition boot (kernel_pml4 : Z) : Kernel :=
  create_idle_thread (create_kernel_async_thread
    (mkKernel ∅ ∅ [] [] 0 ∅ 0 (mkCpu 0 0 0 0 0 kernel_pml4) ∅ [] [])).

Definition step (kernel_pml4 : Z) (s s' : Kernel) : Prop :=
  exists op, exec kernel_pml4 op s = Step s'.

Definition reachable (kernel_pml4 : Z) (s : Kernel) : Prop :=
  rtc (step kernel_pml4) (boot kernel_pml4) s.
