(* ===== verification/ThreadSpec.v ===== *)
(** * Correctness of the scheduler

    Where the threads of a reachable state are: a thread that can run is in
    the ready queue once, or held by one call that is about to switch to it; a
    thread that cannot is in neither place; one thread runs. The registers of
    the processor are those of that thread, and a process exists as long as it
    has threads. *)
From S2P Require Import Prelude Thread.

(** ** Counting *)

Definition is_thread (t u : Z) : Z := if decide (u = t) then 1 else 0.
Definition holds (t : Z) (f : Frame) : Z := if decide (f_next f = Some t) then 1 else 0.

(** How often [t] is in the ready queue, and in the calls of all threads. *)
Definition queued (t : Z) (s : Kernel) : Z := zsum (is_thread t) (READY_THREADS s).
Definition frames_weight (f : Frame -> Z) (m : gmap Z (list Frame)) : Z :=
  zsum (fun p => zsum f p.2) (map_to_list m).
Definition held (t : Z) (s : Kernel) : Z := frames_weight (holds t) (frames s).
Definition occurs (t : Z) (s : Kernel) : Z := queued t s + held t s.

Lemma zsum_permutation {A} (f : A -> Z) l k : l ≡ₚ k -> zsum f l = zsum f k.
Proof. induction 1; rewrite ?zsum_cons; lia. Qed.

Lemma frames_weight_insert f m t l :
  frames_weight f (<[t := l]> m) = frames_weight f m - zsum f (default [] (m !! t)) + zsum f l.
Proof.
  unfold frames_weight. destruct (m !! t) as [k|] eqn:Ht; cbn [default].
  - rewrite <- (insert_delete_id m t k Ht) at 2. rewrite <- (insert_delete_eq m t l).
    rewrite !(zsum_permutation _ _ _ (map_to_list_insert _ _ _ (lookup_delete_eq m t))), !zsum_cons. cbn. lia.
  - rewrite (zsum_permutation _ _ _ (map_to_list_insert _ _ _ Ht)), zsum_cons. cbn.
    change (zsum f []) with 0. lia.
Qed.

Lemma frames_weight_nonneg f m : (forall x, 0 <= f x) -> 0 <= frames_weight f m.
Proof. intros Hf. apply zsum_nonneg, Forall_true. intros p. by apply zsum_nonneg, Forall_true. Qed.

Lemma is_thread_nonneg t u : 0 <= is_thread t u.
Proof. unfold is_thread. case_decide; lia. Qed.
Lemma holds_nonneg t f : 0 <= holds t f.
Proof. unfold holds. case_decide; lia. Qed.
Lemma queued_nonneg t l : 0 <= zsum (is_thread t) l.
Proof. apply zsum_nonneg, Forall_true, is_thread_nonneg. Qed.
Lemma held_nonneg t s : 0 <= held t s.
Proof. apply frames_weight_nonneg, holds_nonneg. Qed.
#[export] Hint Resolve is_thread_nonneg holds_nonneg queued_nonneg held_nonneg : cos.

Lemma queued_app t l u : zsum (is_thread t) (l ++ [u]) = zsum (is_thread t) l + is_thread t u.
Proof. rewrite zsum_app, zsum_cons. change (zsum (is_thread t) []) with 0. lia. Qed.

Lemma is_thread_eq t : is_thread t t = 1.
Proof. unfold is_thread. by rewrite decide_True. Qed.
Lemma is_thread_ne t u : u <> t -> is_thread t u = 0.
Proof. intros. unfold is_thread. by rewrite decide_False. Qed.

Lemma holds_mk t b next p :
  holds t (mkFrame b next p) = match next with Some n => is_thread t n | None => 0 end.
Proof.
  unfold holds, is_thread. cbn. destruct next as [n|]; [|by rewrite decide_False].
  repeat case_decide; simplify_eq; done.
Qed.

Lemma holds_opt_nonneg t (next : option Z) : 0 <= match next with Some n => is_thread t n | None => 0 end.
Proof. destruct next; auto with cos. lia. Qed.

(** ** The search of the ready queue *)

Definition ready (objs : gmap Z Thread) (t : Z) : Prop :=
  exists th, objs !! t = Some th /\ status th = Ready.

Lemma pick_spec objs q next q' :
  pick objs q = (next, q') ->
  (forall n, next = Some n -> ready objs n) /\
  (forall t, zsum (is_thread t) q' + match next with Some n => is_thread t n | None => 0 end
    <= zsum (is_thread t) q) /\
  (forall t, ready objs t ->
    zsum (is_thread t) q' + match next with Some n => is_thread t n | None => 0 end = zsum (is_thread t) q).
Proof.
  revert next q'. induction q as [|u q IH]; intros next q'; cbn.
  - intros [= <- <-]. split_conj; [done|intros t..]; change (zsum (is_thread t) []) with 0; lia.
  - assert (forall r, pick objs q = (next, q') -> r = u -> ~ ready objs r -> 
      (forall n, next = Some n -> ready objs n) /\
      (forall t, zsum (is_thread t) q' + match next with Some n => is_thread t n | None => 0 end
        <= zsum (is_thread t) (u :: q)) /\
      (forall t, ready objs t ->
        zsum (is_thread t) q' + match next with Some n => is_thread t n | None => 0 end
        = zsum (is_thread t) (u :: q))) as Skip.
    { intros r Hp -> Hu. destruct (IH _ _ Hp) as (H1 & H2 & H3). split_conj; [done|intros t..].
      - rewrite zsum_cons. pose proof (is_thread_nonneg t u). specialize (H2 t). lia.
      - intros Ht. rewrite zsum_cons, is_thread_ne by (by intros ->). rewrite (H3 t Ht). lia. }
    destruct (objs !! u) as [th|] eqn:Hu; [case_decide as Hs|].
    + intros [= <- <-]. split_conj.
      * intros n [= <-]. by exists th.
      * intros t. rewrite zsum_cons. lia.
      * intros t _. rewrite zsum_cons. lia.
    + intros Hp. apply (Skip u); [done..|]. intros (th' & ? & ?). by simplify_eq.
    + intros Hp. apply (Skip u); [done..|]. intros (th' & ? & ?). by simplify_eq.
Qed.

(** ** Where threads are *)

(** A thread with status [st] of a processor that runs [c], found [n] times. *)
Definition placed (c t : Z) (st : ThreadStatus) (n : Z) : Prop :=
  match st with
  | Ready => n = 1
  | Running => t = c /\ n = 0
  | Suspend | Terminated => n = 0
  | Terminating => 0 <= n <= 1 /\ (t = c -> n = 0)
  end.

Definition runs (st : ThreadStatus) : Prop := st = Running \/ st = Terminating.
Definition stops (st : ThreadStatus) : Prop := st = Terminating \/ st = Terminated.

Record sched_inv (s : Kernel) : Prop := {
  s_current : exists th, objects s !! current s = Some th /\ runs (status th);
  s_idle : exists th, objects s !! idle s = Some th /\ process_id th = None /\
    (status th = Running \/ status th = Ready) /\ idle s ∈ THREADS s /\ queued (idle s) s = 0;
  s_placed t th : t <> idle s -> objects s !! t = Some th -> placed (current s) t (status th) (occurs t s);
  s_absent t : objects s !! t = None -> occurs t s = 0;
  s_known t : is_Some (objects s !! t) -> t <= THREAD_ID_GENERATOR s;
  s_kernel t th : objects s !! t = Some th -> process_id th = None -> ~ stops (status th);
  s_table t : t ∈ THREADS s -> is_Some (objects s !! t);
  s_gone t th : objects s !! t = Some th -> t ∉ THREADS s -> status th = Terminated;
  s_dead t th : t ∈ TERMINATED_THREADS s -> objects s !! t = Some th -> status th = Terminated;
  s_switched t : Forall (fun f => f_phase f = Switched -> f_next f = None) (frames_of t s);
  s_idle_calls : Forall (fun f => f_suspend f = false /\ f_next f <> Some (idle s)) (frames_of (idle s) s);
  s_dead_known t : t ∈ TERMINATED_THREADS s -> t <= THREAD_ID_GENERATOR s
}.

Ltac occ := unfold occurs, queued, held in *; cbn [READY_THREADS frames set_ready set_frames set_objects set_threads
  set_terminated set_processes set_leaving next_thread_id next_process_id load_thread set_cpu] in *;
  rewrite ?frames_weight_insert, ?queued_app, ?zsum_cons in *.

(** Nothing the scheduler looks at has changed. *)
Lemma sched_frame s s' :
  sched_inv s -> objects s' = objects s -> THREADS s' = THREADS s -> READY_THREADS s' = READY_THREADS s ->
  TERMINATED_THREADS s' = TERMINATED_THREADS s ->
  THREAD_ID_GENERATOR s' = THREAD_ID_GENERATOR s -> cpu s' = cpu s -> frames s' = frames s -> sched_inv s'.
Proof.
  intros [] E1 E2 E3 E4 E5 E6 E7.
  split; unfold occurs, queued, held, frames_of in *; by rewrite ?E1, ?E2, ?E3, ?E4, ?E5, ?E6, ?E7.
Qed.

Lemma frames_of_set t u l s :
  frames_of t (set_frames u l s) = if decide (t = u) then l else frames_of t s.
Proof.
  unfold frames_of. cbn. case_decide as H; [subst; by rewrite lookup_insert_eq|].
  by rewrite lookup_insert_ne by congruence.
Qed.

(** A change of the calls of one thread. *)
Lemma calls_switched s u l :
  (forall t, Forall (fun f => f_phase f = Switched -> f_next f = None) (frames_of t s)) ->
  Forall (fun f => f_phase f = Switched -> f_next f = None) l ->
  forall t, Forall (fun f => f_phase f = Switched -> f_next f = None) (frames_of t (set_frames u l s)).
Proof. intros I Hl t. rewrite frames_of_set. case_decide; [done|]. apply I. Qed.

Lemma calls_idle s u l :
  Forall (fun f => f_suspend f = false /\ f_next f <> Some (idle s)) (frames_of (idle s) s) ->
  (u = idle s -> Forall (fun f => f_suspend f = false /\ f_next f <> Some (idle s)) l) ->
  Forall (fun f => f_suspend f = false /\ f_next f <> Some (idle s)) (frames_of (idle s) (set_frames u l s)).
Proof. intros I Hl. rewrite frames_of_set. case_decide as E; [by apply Hl|done]. Qed.

(** What a call holds is held. *)
Lemma held_ge t u s : zsum (holds t) (frames_of u s) <= held t s.
Proof.
  pose proof (frames_weight_insert (holds t) (frames s) u []) as E. change (zsum (holds t) []) with 0 in E.
  pose proof (frames_weight_nonneg (holds t) (<[u := []]> (frames s)) (holds_nonneg t)).
  unfold held, frames_of. lia.
Qed.

(** The thread that runs is in the table. *)
Lemma current_listed s : sched_inv s -> current s ∈ THREADS s.
Proof.
  intros I. destruct (s_current s I) as (th & Hc & Hr). destruct (decide (current s ∈ THREADS s)) as [|Hn]; [done|].
  pose proof (s_gone s I _ _ Hc Hn). unfold runs in Hr. destruct Hr; congruence.
Qed.

Lemma thread_yield_sched b s s' : sched_inv s -> thread_yield b s = Step s' -> sched_inv s'.
Proof.
  intros I. unfold thread_yield. case_match; [done|]. case_match; [done|]. destruct (decide (current s ∈ THREADS s)); [|done].
  destruct (pick _ _) as [next q'] eqn:Hp. intros [= <-]. apply pick_spec in Hp as (H1 & H2 & H3).
  pose proof I as [I1 I2 I3 I4 I5 I6 I7 I8 I9 I10 I11 I12].
  assert (forall t, occurs t (set_frames (current s) (mkFrame b next Searched :: frames_of (current s) s)
    (set_ready (fun _ => q') s)) = zsum (is_thread t) q' + match next with Some n => is_thread t n | None => 0 end + held t s) as Hocc.
  { intros t. occ. rewrite holds_mk. unfold frames_of. lia. }
  split; cbn; try done.
  - destruct I2 as (thi & ? & ? & ? & ? & Hq). exists thi. split_conj; try done.
    unfold queued in *. cbn.
    pose proof (queued_nonneg (idle s) q'). specialize (H2 (idle s)).
    pose proof (holds_opt_nonneg (idle s) next). lia.
  - intros t th' Ht Ho. rewrite Hocc. specialize (I3 t th' Ht Ho). unfold occurs, queued in I3.
    pose proof (queued_nonneg t q'). pose proof (held_nonneg t s). specialize (H2 t).
    pose proof (holds_opt_nonneg t next).
    destruct (status th') eqn:Hs; cbn in *; try lia.
    rewrite H3; [done|by exists th'].
  - intros t Ho. rewrite Hocc. specialize (I4 t Ho). unfold occurs, queued in I4.
    pose proof (queued_nonneg t q'). pose proof (held_nonneg t s). specialize (H2 t).
    pose proof (holds_opt_nonneg t next). lia.
  - apply calls_switched; [exact I10|]. constructor; [done|apply I10].
  - apply (calls_idle (set_ready (fun _ => q') s)); [exact I11|]. cbn. intros E. constructor; [|by rewrite E]. cbn. split.
    + rewrite E, bool_decide_true in * by done. by destruct b.
    + intros ->. destruct (H1 _ eq_refl) as (th' & Ho & Hs). destruct I2 as (thi & Hi & _ & _ & _ & Hq).
      specialize (H2 (idle s)). rewrite is_thread_eq in H2. pose proof (queued_nonneg (idle s) q').
      unfold queued in Hq. lia.
Qed.

Lemma choose_idle_sched s s' : sched_inv s -> choose_idle s = Step s' -> sched_inv s'.
Proof.
  intros I. unfold choose_idle. destruct (frames_of (current s) s) as [|[b next []] fs] eqn:Hf; try done.
  intros [= <-]. set (next' := if _ : bool then _ else next).
  assert (forall t, t <> idle s -> match next' with Some n => is_thread t n | None => 0 end =
    match next with Some n => is_thread t n | None => 0 end) as Hn.
  { intros t Ht. subst next'. destruct b, next; cbn; try done. case_decide; [by rewrite is_thread_ne|done]. }
  pose proof I as [I1 I2 I3 I4 I5 I6 I7 I8 I9 I10 I11 I12].
  assert (forall t, t <> idle s -> occurs t (set_frames (current s) (mkFrame b next' Chosen :: fs) s) = occurs t s) as Hocc.
  { intros t Ht. occ. unfold frames_of in Hf. rewrite Hf, zsum_cons, !holds_mk, Hn by done. lia. }
  pose proof (I10 (current s)) as J. rewrite Hf in J. inversion_clear J as [|? ? J1 J2].
  split; cbn; try done.
  - intros t th Ht Ho. rewrite Hocc by done. by apply I3.
  - intros t Ho. rewrite Hocc; [by apply I4|]. intros ->. destruct I2 as (? & ? & _). congruence.
  - apply calls_switched; [exact I10|]. by constructor.
  - apply calls_idle; [exact I11|]. intros E. rewrite <- E, Hf in I11. inversion_clear I11 as [|? ? [K1 K2] K3].
    rewrite <- E. constructor; [|done]. cbn in *. subst b next'. done.
Qed.

(** The thread a call is about to switch to exists, is not the current one,
    and can run; taking it out of the call leaves no other trace of it. *)
Lemma switch_target s b to fs :
  sched_inv s -> frames_of (current s) s = mkFrame b (Some to) Chosen :: fs ->
  to <> current s /\
  exists th, objects s !! to = Some th /\
    (to = idle s /\ (status th = Running \/ status th = Ready) \/
     to <> idle s /\ (status th = Ready \/ status th = Terminating) /\ occurs to s = 1).
Proof.
  intros I Hf. pose proof I as [I1 I2 I3 I4 I5 I6 I7 I8 I9 I10 I11 I12].
  assert (1 <= held to s) as Hheld.
  { pose proof (held_ge to (current s) s) as Hg. rewrite Hf, zsum_cons, holds_mk, is_thread_eq in Hg.
    assert (0 <= zsum (holds to) fs) by (apply zsum_nonneg, Forall_true; auto with cos). lia. }
  pose proof (queued_nonneg to (READY_THREADS s)) as Hq. fold (queued to s) in Hq.
  assert (to <> current s) as Hne.
  { intros ->. destruct (decide (current s = idle s)) as [E|E].
    - rewrite <- E, Hf in I11. inversion_clear I11 as [|? ? [K1 K2] K3]. by apply K2.
    - destruct I1 as (th & Ho & Hr). specialize (I3 _ _ E Ho). unfold occurs in I3.
      destruct Hr as [Hr|Hr]; rewrite Hr in I3; cbn in I3; lia. }
  split; [done|]. destruct (objects s !! to) as [th|] eqn:Ho; [|specialize (I4 _ Ho); unfold occurs in I4; lia].
  exists th. split; [done|]. destruct (decide (to = idle s)) as [E|E].
  - left. split; [done|]. destruct I2 as (thi & Hi & _ & Hs & _). subst to. by simplify_eq.
  - right. split; [done|]. specialize (I3 _ _ E Ho). unfold occurs in *. destruct (status th); cbn in I3; try lia; auto.
    split; [by right|lia].
Qed.

(** The new status of the thread that is switched from. *)
Definition yielded (b : bool) (st : ThreadStatus) : ThreadStatus :=
  if decide (st = Terminating) then Terminated else if b then Suspend else Ready.

Lemma deal_old_thread_fields from th b r s :
  let s' := deal_old_thread from th b r s in
  objects s' = <[from := set_status (yielded b (status th)) th]> (objects s) /\
  THREADS s' = THREADS s /\ THREAD_ID_GENERATOR s' = THREAD_ID_GENERATOR s /\ PROCESSES s' = PROCESSES s /\
  cpu s' = cpu s /\ frames s' = frames s /\ leaving s' = leaving s /\
  READY_THREADS s' = READY_THREADS s ++
    (if decide (from = idle s) then [] else match yielded b (status th) with Ready => [from] | _ => [] end) /\
  (forall t, t ∈ TERMINATED_THREADS s' ->
    t ∈ TERMINATED_THREADS s \/ t = from /\ yielded b (status th) = Terminated) /\
  PROCESS_ID_GENERATOR s' = PROCESS_ID_GENERATOR s.
Proof.
  cbn zeta. unfold deal_old_thread. fold (yielded b (status th)). cbn.
  case_decide; [|destruct (yielded b (status th)), r]; cbn; rewrite ?app_nil_r; split_conj; try done; auto.
  intros t. rewrite elem_of_app, list_elem_of_singleton. naive_solver.
Qed.

Lemma deal_new_thread_fields k to th s :
  let s' := deal_new_thread k to th s in
  objects s' = (if decide (status th = Ready) then <[to := set_status Running th]> (objects s) else objects s) /\
  THREADS s' = THREADS s /\ THREAD_ID_GENERATOR s' = THREAD_ID_GENERATOR s /\ PROCESSES s' = PROCESSES s /\
  frames s' = frames s /\ leaving s' = leaving s /\
  READY_THREADS s' = READY_THREADS s /\ TERMINATED_THREADS s' = TERMINATED_THREADS s /\
  current s' = to /\ idle s' = idle s /\ PROCESS_ID_GENERATOR s' = PROCESS_ID_GENERATOR s.
Proof. cbn zeta. unfold deal_new_thread. by case_decide. Qed.

(** A call that holds nothing ends. *)
Lemma pop_call_sched s b p fs :
  sched_inv s -> frames_of (current s) s = mkFrame b None p :: fs -> sched_inv (set_frames (current s) fs s).
Proof.
  intros I Hf. pose proof I as [I1 I2 I3 I4 I5 I6 I7 I8 I9 I10 I11 I12].
  assert (forall t, occurs t (set_frames (current s) fs s) = occurs t s) as Hocc.
  { intros t. occ. unfold frames_of in Hf. rewrite Hf, zsum_cons, !holds_mk by done. lia. }
  pose proof (I10 (current s)) as J. rewrite Hf in J. inversion_clear J as [|? ? J1 J2].
  split; cbn; try done.
  - intros t th Ht Ho. rewrite Hocc. by apply I3.
  - intros t Ho. rewrite Hocc. by apply I4.
  - by apply calls_switched.
  - apply calls_idle; [exact I11|]. intros E. rewrite <- E, Hf in I11.
    inversion_clear I11 as [|? ? [K1 K2] K3]. by rewrite <- E.
Qed.

(** The switch, as a change of the maps: [to] runs, the old thread is where
    its new status says. *)
Section switching.
  Context (s s' : Kernel) (b : bool) (to : Z) (fs : list Frame) (old tht : Thread).
Let st := yielded b (status old).
Let st' := if decide (status tht = Ready) then Running else status tht.
  Hypothesis I : sched_inv s.
  Hypothesis Hf : frames_of (current s) s = mkFrame b (Some to) Chosen :: fs.
  Hypothesis Hold : objects s !! current s = Some old.
  Hypothesis Hto : objects s !! to = Some tht.
  Hypothesis Oo : forall t, t <> to -> t <> current s -> objects s' !! t = objects s !! t.
  Hypothesis Oc : objects s' !! current s = Some (set_status st old).
  Hypothesis Ot : objects s' !! to = Some (set_status st' tht).
Definition requeued : list Z :=
    if decide (current s = idle s) then [] else match yielded b (status old) with Ready => [current s] | _ => [] end.
  Hypothesis Hocc : forall t, occurs t s' = occurs t s - is_thread t to + zsum (is_thread t) requeued.
  Hypothesis Hrq : READY_THREADS s' = READY_THREADS s ++ requeued.
  Hypothesis ET : THREADS s' = THREADS s.
  Hypothesis EG : THREAD_ID_GENERATOR s' = THREAD_ID_GENERATOR s.
  Hypothesis EC : current s' = to.
  Hypothesis EI : idle s' = idle s.
  Hypothesis Hdead : forall t, t ∈ TERMINATED_THREADS s' ->
    t ∈ TERMINATED_THREADS s \/ t = current s /\ st = Terminated.
  Hypothesis Hfr : frames s' = frames (set_frames (current s) (mkFrame b None Switched :: fs) s).

Lemma sw_target : to <> current s /\
  (to = idle s /\ (status tht = Running \/ status tht = Ready) \/
   to <> idle s /\ (status tht = Ready \/ status tht = Terminating) /\ occurs to s = 1).
Proof. destruct (switch_target s b to fs I Hf) as (Hne & th & Ho & Hs). split; [done|]. by simplify_eq. Qed.

Lemma sw_runs : runs (status old) /\ runs st'.
Proof.
  split; [destruct (s_current s I) as (? & ? & ?); by simplify_eq|].
  unfold st'. destruct sw_target as [_ [[_ [E|E]]|[_ [[E|E] _]]]]; rewrite E; [by left|by left|by left|by right].
Qed.

Lemma sw_status : st = Suspend \/ st = Ready \/ st = Terminated /\ status old = Terminating.
Proof. subst st. unfold yielded. case_decide; [by right; right|]. destruct b; auto. Qed.

Lemma sw_requeued t : t <> current s \/ current s = idle s \/ st <> Ready -> zsum (is_thread t) requeued = 0.
Proof.
  intros Ht. unfold requeued. fold st. case_decide; [done|]. destruct st eqn:E; try done.
  rewrite zsum_cons, is_thread_ne; [done|]. intros <-. naive_solver.
Qed.

Lemma sw_idle : exists th, objects s' !! idle s = Some th /\ process_id th = None /\
  (status th = Running \/ status th = Ready) /\ idle s ∈ THREADS s /\ queued (idle s) s' = 0.
Proof.
  destruct (s_idle s I) as (thi & Hi & Hp & Hs & HT & Hq). destruct sw_target as [Hne _].
  assert (queued (idle s) s' = 0) as Hq'.
  { unfold queued in *. rewrite Hrq, zsum_app, Hq, sw_requeued; [done|].
    destruct (decide (current s = idle s)); [by right; left|by left]. }
  destruct (decide (to = idle s)) as [E|E].
  - rewrite <- E in Hi. rewrite Hto in Hi. injection Hi as ->. rewrite <- E. eexists. split_conj; [exact Ot|done|..].
    + left. cbn. unfold st'. case_decide; [done|]. by destruct Hs.
    + by rewrite E.
    + by rewrite E.
  - destruct (decide (current s = idle s)) as [E2|E2].
    + rewrite <- E2 in Hi. rewrite Hold in Hi. injection Hi as ->. exists (set_status st thi).
      split_conj; [by rewrite <- E2|done| |done|done].
      right. cbn. pose proof (s_idle_calls s I) as K. rewrite <- E2, Hf in K. inversion_clear K as [|? ? [K1 _] _].
      unfold st, yielded. cbn in K1. rewrite K1, decide_False; [done|]. by intros E3; rewrite E3 in Hs; destruct Hs.
    + exists thi. by rewrite Oo by congruence.
Qed.

Lemma sw_placed t th : t <> idle s -> objects s' !! t = Some th -> placed to t (status th) (occurs t s').
Proof.
  intros Ht Ho. destruct sw_target as [Hne Hstat]. destruct sw_runs as [Hr Hr']. rewrite Hocc.
  destruct (decide (t = to)) as [->|Hnt].
  - rewrite Ot in Ho. injection Ho as <-. destruct Hstat as [[E _]|[_ [_ Hone]]]; [done|].
    rewrite Hone, is_thread_eq, sw_requeued by (by left). cbn. destruct Hr' as [-> | ->]; cbn; lia.
  - rewrite (is_thread_ne t to) by done. destruct (decide (t = current s)) as [->|Hnc].
    + rewrite Oc in Ho. injection Ho as <-. cbn.
      assert (occurs (current s) s = 0) as ->.
      { pose proof (s_placed s I _ _ Ht Hold) as P. destruct Hr as [E|E]; rewrite E in P; cbn in P; [by destruct P|by apply P]. }
      unfold requeued. rewrite decide_False by done. fold st.
      destruct sw_status as [-> | [-> | [-> _]]]; cbn; try done. rewrite zsum_cons, is_thread_eq. done.
    + rewrite Oo in Ho by done. rewrite sw_requeued by (by left).
      pose proof (s_placed s I _ _ Ht Ho) as P. destruct (status th); cbn in *; lia.
Qed.

Lemma sw_kernel t th : objects s' !! t = Some th -> process_id th = None -> ~ stops (status th).
Proof.
  intros Ho Hp. destruct (decide (t = to)) as [->|Hnt].
  - rewrite Ot in Ho. injection Ho as <-. cbn in *. pose proof (s_kernel s I _ _ Hto Hp). unfold st'.
    case_decide; [by intros [|]|done].
  - destruct (decide (t = current s)) as [->|Hnc]; [|rewrite Oo in Ho by done; by apply (s_kernel s I t)].
    rewrite Oc in Ho. injection Ho as <-. cbn in *. pose proof (s_kernel s I _ _ Hold Hp) as K.
    destruct sw_status as [-> | [-> | [-> E]]]; [by intros [|]..|]. exfalso. apply K. by left.
Qed.

Lemma sw_gone t th : objects s' !! t = Some th ->
  (t ∉ THREADS s' \/ t ∈ TERMINATED_THREADS s') -> status th = Terminated.
Proof.
  intros Ho Ht. destruct sw_target as [Hne Hstat]. destruct sw_runs as [Hr Hr'].
  assert (forall th0, objects s !! t = Some th0 -> t <> current s \/ st <> Terminated -> status th0 = Terminated) as Old.
  { intros th0 H0 Hc. destruct Ht as [Ht|Ht]; [rewrite ET in Ht; by apply (s_gone s I t)|].
    destruct (Hdead t Ht) as [Hd|[-> Hd]]; [by apply (s_dead s I t)|]. naive_solver. }
  destruct (decide (t = to)) as [->|Hnt].
  - exfalso. specialize (Old _ Hto ltac:(by left)). destruct Hstat as [[_ [E|E]]|[_ [[E|E] _]]]; congruence.
  - destruct (decide (t = current s)) as [->|Hnc]; [|rewrite Oo in Ho by done; apply Old; [done|by left]].
    rewrite Oc in Ho. injection Ho as <-. cbn. destruct (decide (st = Terminated)) as [|Hn]; [done|].
    specialize (Old _ Hold ltac:(by right)). destruct Hr; congruence.
Qed.

Lemma sw_inv : sched_inv s'.
Proof.
  destruct sw_target as [Hne _].
  assert (forall t, frames_of t s' = frames_of t (set_frames (current s) (mkFrame b None Switched :: fs) s)) as Hfo.
  { intros t. unfold frames_of. by rewrite Hfr. }
  split; rewrite ?EC, ?EI.
  - exists (set_status st' tht). split; [exact Ot|]. apply sw_runs.
  - rewrite ET. apply sw_idle.
  - apply sw_placed.
  - intros t Ho. assert (t <> to) by congruence. assert (t <> current s) by congruence.
    rewrite Hocc, (is_thread_ne t to), sw_requeued by auto. rewrite Oo in Ho by done. by rewrite (s_absent s I t Ho).
  - intros t [th Ho]. rewrite EG. apply (s_known s I). destruct (decide (t = to)) as [->|]; [by eexists|].
    destruct (decide (t = current s)) as [->|]; [by eexists|]. rewrite <- Oo by done. by eexists.
  - apply sw_kernel.
  - intros t Ht. rewrite ET in Ht. pose proof (s_table s I t Ht). destruct (decide (t = to)) as [->|]; [by rewrite Ot|].
    destruct (decide (t = current s)) as [->|]; [by rewrite Oc|]. by rewrite Oo.
  - intros t th Ho Ht. apply (sw_gone t); auto.
  - intros t th Ht Ho. apply (sw_gone t); auto.
  - intros t. rewrite Hfo. apply calls_switched; [apply (s_switched s I)|].
    pose proof (s_switched s I (current s)) as J. rewrite Hf in J. inversion_clear J. by constructor.
  - rewrite Hfo. apply calls_idle; [apply (s_idle_calls s I)|]. intros E.
    pose proof (s_idle_calls s I) as J. rewrite <- E, Hf in J. inversion_clear J as [|? ? [J1 J2] J3].
    rewrite <- E. by constructor.
  - intros t Ht. rewrite EG. destruct (Hdead t Ht) as [Hd|[-> _]]; [by apply (s_dead_known s I)|].
    apply (s_known s I). by eexists.
Qed.

End switching.

Lemma switch_thread_sched k r s s' : sched_inv s -> switch_thread k r s = Step s' -> sched_inv s'.
Proof.
  intros I. unfold switch_thread. destruct (frames_of (current s) s) as [|[b [to|] []] fs] eqn:Hf; try done.
  2: { intros [= <-]. by eapply pop_call_sched. }
  destruct (switch_target s b to fs I Hf) as (Hne & tht & Hto & _).
  destruct (objects s !! current s) as [old|] eqn:Hold; [|done].
  set (s1 := set_frames _ _ s). set (s2 := deal_old_thread _ _ _ _ _).
  destruct (deal_old_thread_fields (current s) old b r s1) as (D1 & D2 & D3 & D4 & D5 & D6 & D7 & D8 & D9 & D10).
  fold s2 in D1, D2, D3, D4, D5, D6, D7, D8, D9.
  assert (objects s2 !! to = Some tht) as Ho2 by (rewrite D1; by rewrite lookup_insert_ne).
  rewrite Ho2. intros [= <-].
  destruct (deal_new_thread_fields k to tht s2) as (N1 & N2 & N3 & N4 & N5 & N6 & N7 & N8 & N9 & N10 & N11).
  apply (sw_inv s _ b to fs old tht); try done.
  - intros t H1 H2. rewrite N1. case_decide; rewrite ?lookup_insert_ne, D1, lookup_insert_ne by congruence; done.
  - rewrite N1. case_decide; rewrite ?lookup_insert_ne, D1, lookup_insert_eq by congruence; done.
  - rewrite N1. case_decide; [by rewrite lookup_insert_eq|]. rewrite Ho2. by destruct tht.
  - intros t. unfold occurs, queued, held. rewrite N7, N5, D8, D6, zsum_app. subst s1. cbn.
    rewrite frames_weight_insert, zsum_cons, holds_mk. unfold frames_of in Hf. rewrite Hf, zsum_cons, holds_mk.
    unfold requeued. lia.
  - by rewrite N7, D8.
  - by rewrite N2, D2.
  - by rewrite N3, D3.
  - by rewrite N10, D5.
  - intros t. rewrite N8. apply D9.
  - by rewrite N5, D6.
Qed.

(** ** The other operations *)

(** A change of the status of a thread that has not terminated. *)
Lemma status_sched s t th th' extra :
  sched_inv s -> objects s !! t = Some th -> t <> idle s -> status th <> Terminated ->
  process_id th' = process_id th -> (extra = [] \/ extra = [t]) ->
  placed (current s) t (status th') (occurs t s + zsum (is_thread t) extra) ->
  (t = current s -> runs (status th')) -> (process_id th = None -> ~ stops (status th')) ->
  sched_inv (set_ready (fun q => q ++ extra) (set_objects (<[t := th']>) s)).
Proof.
  intros I Ho Ht Hn Hp He Hpl Hr Hk. pose proof I as [I1 I2 I3 I4 I5 I6 I7 I8 I9 I10 I11 I12].
  assert (forall u, occurs u (set_ready (fun q => q ++ extra) (set_objects (<[t := th']>) s)) =
    occurs u s + zsum (is_thread u) extra) as Hocc.
  { intros u. unfold occurs, queued, held. cbn. rewrite zsum_app. lia. }
  assert (forall u, u <> t -> zsum (is_thread u) extra = 0) as Hex.
  { intros u Hu. destruct He as [-> | ->]; [done|]. rewrite zsum_cons, is_thread_ne by done. done. }
  split; cbn.
  - destruct I1 as (thc & Hc & Hrc). destruct (decide (t = current s)) as [->|Hnc].
    + exists th'. rewrite lookup_insert_eq. auto.
    + exists thc. by rewrite lookup_insert_ne.
  - destruct I2 as (thi & Hi & ? & ? & ? & Hq). exists thi. rewrite lookup_insert_ne by done. split_conj; try done.
    unfold queued in *. cbn. rewrite zsum_app, Hq, Hex by done. done.
  - intros u thu Hu Hou. rewrite Hocc. apply lookup_insert_Some in Hou as [[<- <-]|[Hne Hou]]; [done|].
    rewrite Hex, Z.add_0_r by done. by apply I3.
  - intros u Hou. apply lookup_insert_None in Hou as [Hou Hne]. rewrite Hocc, Hex, Z.add_0_r by done. by apply I4.
  - intros u. rewrite lookup_insert_is_Some'. intros [<-|Hu]; apply I5; [by eexists|done].
  - intros u thu Hou Hpu. apply lookup_insert_Some in Hou as [[<- <-]|[Hne Hou]]; [|by apply (I6 u)].
    apply Hk. congruence.
  - intros u Hu. apply lookup_insert_is_Some'. right. by apply I7.
  - intros u thu Hou Hu. apply lookup_insert_Some in Hou as [[<- <-]|[Hne Hou]]; [|by apply (I8 u)].
    exfalso. apply Hn. by apply (I8 t).
  - intros u thu Hu Hou. apply lookup_insert_Some in Hou as [[<- <-]|[Hne Hou]]; [|by apply (I9 u)].
    exfalso. apply Hn. by apply (I9 t).
  - exact I10.
  - exact I11.
  - exact I12.
Qed.

Lemma not_idle s t th : sched_inv s -> objects s !! t = Some th ->
  status th = Suspend \/ process_id th <> None -> t <> idle s.
Proof.
  intros I Ho Hth ->. destruct (s_idle s I) as (thi & Hi & Hp & Hs & _). rewrite Ho in Hi. injection Hi as ->.
  destruct Hth as [E|E]; [rewrite E in Hs; by destruct Hs|done].
Qed.

Lemma wake_thread_sched t s s' : sched_inv s -> wake_thread t s = Step s' -> sched_inv s'.
Proof.
  intros I. unfold wake_thread. destruct (objects s !! t) as [th|] eqn:Ho; [|done].
  case_decide as Hs; intros [= <-]; [|done].
  assert (t <> idle s) as Hi by (eapply not_idle; eauto).
  assert (occurs t s = 0) as Hz by (pose proof (s_placed s I _ _ Hi Ho) as P; by rewrite Hs in P).
  apply (status_sched s t th); try done; try (by rewrite Hs); auto.
  - cbn. rewrite Hz, zsum_cons, is_thread_eq. done.
  - intros ->. destruct (s_current s I) as (thc & Hc & [|]); simplify_eq; congruence.
  - by intros _ [|].
Qed.

(** The waker of a thread that is being stopped has no effect. *)
Lemma stop_thread_spec t code s :
  stop_thread t code s =
    match objects s !! t with
    | Some th =>
        match status th with
        | Terminating | Terminated => Step s
        | _ => Step (set_objects (<[t := set_exit code (set_status Terminating th)]>) s)
        end
    | None => Disabled
    end.
Proof.
  unfold stop_thread. destruct (objects s !! t) as [th|]; [|done].
  assert (forall th', status th' = Terminating -> (if waker th then wake_thread t (set_objects (<[t := th']>) s)
    else Step (set_objects (<[t := th']>) s)) = Step (set_objects (<[t := th']>) s)) as E.
  { intros th' Ht. destruct (waker th); [|done]. unfold wake_thread. cbn. by rewrite lookup_insert_eq, Ht. }
  destruct (status th); try done; by apply E.
Qed.

(** A thread that keeps its status. *)
Lemma relabel_sched s t th th' :
  sched_inv s -> objects s !! t = Some th -> status th' = status th -> process_id th' = process_id th ->
  sched_inv (set_objects (<[t := th']>) s).
Proof.
  intros I Ho Es Ep.
  assert (forall u thu, <[t := th']> (objects s) !! u = Some thu ->
    exists th0, objects s !! u = Some th0 /\ status thu = status th0 /\ process_id thu = process_id th0) as Hb.
  { intros u thu Hu. apply lookup_insert_Some in Hu as [[<- <-]|[_ Hu]]; [by exists th|by exists thu]. }
  assert (forall u thu, objects s !! u = Some thu ->
    exists th1, <[t := th']> (objects s) !! u = Some th1 /\ status th1 = status thu /\ process_id th1 = process_id thu) as Hf.
  { intros u thu Hu. destruct (decide (t = u)) as [<-|]; [|rewrite lookup_insert_ne by done; by exists thu].
    rewrite lookup_insert_eq. exists th'. by simplify_eq. }
  destruct I as [I1 I2 I3 I4 I5 I6 I7 I8 I9 I10 I11 I12]. split; cbn; try done.
  - destruct I1 as (thc & Hc & Hr). destruct (Hf _ _ Hc) as (th1 & ? & E & _). exists th1. by rewrite E.
  - destruct I2 as (thi & Hi & ? & Hs & ?). destruct (Hf _ _ Hi) as (th1 & ? & E & E2). exists th1. by rewrite E, E2.
  - intros u thu Hu Hou. destruct (Hb _ _ Hou) as (th0 & H0 & -> & _). by apply I3.
  - intros u Hou. apply lookup_insert_None in Hou as [Hou _]. by apply I4.
  - intros u [thu Hou]. destruct (Hb _ _ Hou) as (th0 & H0 & _). apply I5. by eexists.
  - intros u thu Hou Hp. destruct (Hb _ _ Hou) as (th0 & H0 & -> & E). apply (I6 u); congruence.
  - intros u Hu. destruct (I7 u Hu) as [thu Hou]. destruct (Hf _ _ Hou) as (th1 & -> & _). by eexists.
  - intros u thu Hou. destruct (Hb _ _ Hou) as (th0 & H0 & -> & _). by apply I8.
  - intros u thu Hu Hou. destruct (Hb _ _ Hou) as (th0 & H0 & -> & _). by apply (I9 u).
Qed.

Lemma stop_thread_sched t code s s' th :
  sched_inv s -> objects s !! t = Some th -> process_id th <> None -> stop_thread t code s = Step s' -> sched_inv s'.
Proof.
  intros I Ho Hp. rewrite stop_thread_spec, Ho.
  assert (t <> idle s) as Hi by (eapply not_idle; eauto).
  pose proof (s_placed s I _ _ Hi Ho) as P.
  assert (status th <> Terminated -> status th <> Terminating ->
    sched_inv (set_objects (<[t := set_exit code (set_status Terminating th)]>) s)) as G.
  { intros H1 H2.
    pose proof (status_sched s t th (set_exit code (set_status Terminating th)) [] I Ho Hi H1 eq_refl) as G.
    eapply sched_frame; [apply G|..]; cbn; try done; auto using app_nil_r.
    - change (zsum (is_thread t) []) with 0. rewrite Z.add_0_r. pose proof (held_nonneg t s).
      destruct (status th) eqn:E; cbn in P |- *; try done; try lia.
      split; [lia|]. intros ->. destruct (s_current s I) as (thc & Hc & [|]); simplify_eq; congruence.
    - by right. }
  destruct (status th); intros [= <-]; auto.
Qed.

Lemma create_thread_sched p st i s s' : sched_inv s -> create_thread p st i s = Step s' -> sched_inv s'.
Proof.
  intros I Hc. pose proof I as [I1 I2 I3 I4 I5 I6 I7 I8 I9 I10 I11 I12].
  set (t := THREAD_ID_GENERATOR s + 1). set (th := mkThread p (if i then Suspend else Ready) st 0 false).
  set (s1 := set_ready (fun q => q ++ (if i then [] else [t]))
    (set_threads (fun T => {[t]} ∪ T) (set_objects (<[t := th]>) (next_thread_id s)))).
  assert (objects s !! t = None) as Ho.
  { apply eq_None_not_Some. intros Hs. specialize (I5 t Hs). lia. }
  assert (forall u, occurs u s1 = occurs u s + zsum (is_thread u) (if i then [] else [t])) as Hocc.
  { intros u. subst s1. unfold occurs, queued, held. cbn. rewrite zsum_app. lia. }
  assert (forall u, u <> t -> zsum (is_thread u) (if i then [] else [t]) = 0) as Hex.
  { intros u Hu. destruct i; [done|]. rewrite zsum_cons, is_thread_ne by done. done. }
  assert (forall u, is_Some (objects s !! u) -> u <> t) as Hne by (intros u [? Hu] ->; congruence).
  assert (sched_inv s1) as G.
  { split; subst s1; cbn.
    - destruct I1 as (thc & Hcc & Hr). exists thc. rewrite lookup_insert_ne; [done|]. intros E. by eapply (Hne (current s)).
    - destruct I2 as (thi & Hi & ? & ? & ? & Hq). assert (idle s <> t) by (by apply Hne). exists thi.
      rewrite lookup_insert_ne by done. split_conj; try done; [set_solver|].
      unfold queued in *. cbn. rewrite zsum_app, Hq, Hex by done. done.
    - intros u thu Hu Hou. rewrite Hocc. apply lookup_insert_Some in Hou as [[<- <-]|[Hn Hou]].
      + rewrite (I4 t Ho). cbn. destruct i; cbn; [done|]. rewrite zsum_cons, is_thread_eq. done.
      + rewrite Hex, Z.add_0_r by done. by apply I3.
    - intros u Hou. apply lookup_insert_None in Hou as [Hou Hn]. rewrite Hocc, Hex, Z.add_0_r by done. by apply I4.
    - intros u. rewrite lookup_insert_is_Some'. intros [<-|Hu]; [subst t; lia|]. specialize (I5 _ Hu). lia.
    - intros u thu Hou Hpu. apply lookup_insert_Some in Hou as [[<- <-]|[Hn Hou]]; [|by apply (I6 u)].
      cbn. destruct i; by intros [|].
    - intros u Hu. apply lookup_insert_is_Some'. apply elem_of_union in Hu as [Hu|Hu]; [left; set_solver|right; by apply I7].
    - intros u thu Hou Hu. apply lookup_insert_Some in Hou as [[<- <-]|[Hn Hou]]; [set_solver|].
      apply (I8 u); [done|set_solver].
    - intros u thu Hu Hou. apply lookup_insert_Some in Hou as [[<- <-]|[Hn Hou]]; [|by apply (I9 u)].
      specialize (I12 _ Hu). lia.
    - exact I10.
    - exact I11.
    - intros u Hu. specialize (I12 u Hu). lia. }
  unfold create_thread in Hc. destruct p as [p|]; [destruct (_ !! p); [|done]|]; injection Hc as <-;
    (eapply sched_frame; [exact G|..]; destruct i; cbn; try done; by rewrite app_nil_r).
Qed.

Lemma stop_threads_sched ids code s s' :
  sched_inv s -> (forall t th, t ∈ ids -> objects s !! t = Some th -> process_id th <> None) ->
  stop_threads ids code s = Step s' -> sched_inv s'.
Proof.
  revert s. induction ids as [|t ids IH]; intros s I Hp; cbn; [by intros [= <-]|].
  case_decide as Ht; [|apply IH; [done|]; intros u th Hu; apply Hp; set_solver].
  destruct (s_table s I t Ht) as [th Ho]. specialize (Hp t th ltac:(set_solver) Ho) as Hpt.
  destruct (stop_thread t code s) as [s1| |] eqn:Hs; try done. apply IH.
  - by eapply stop_thread_sched.
  - intros u thu Hu Hou. rewrite stop_thread_spec, Ho in Hs.
    assert (objects s1 !! u = Some thu -> exists th0, objects s !! u = Some th0 /\ process_id thu = process_id th0) as Hb.
    { intros _. destruct (status th); injection Hs as <-; try (by exists thu);
        cbn in Hou; apply lookup_insert_Some in Hou as [[<- <-]|[_ Hou]]; (by exists th) || (by exists thu). }
    destruct (Hb Hou) as (th0 & H0 & ->). apply (Hp u); [set_solver|done].
Qed.

Lemma destroy_sched s s' : sched_inv s -> destroy_terminated s = Step s' -> sched_inv s'.
Proof.
  intros I. unfold destroy_terminated. destruct (frames_of (current s) s) as [|[b next []] fs] eqn:Hf; try done.
  intros [= <-]. pose proof (s_switched s I (current s)) as J. rewrite Hf in J. inversion_clear J as [|? ? J1 J2].
  specialize (J1 eq_refl). cbn in J1. subst next.
  pose proof (pop_call_sched s b Switched fs I Hf) as [I1 I2 I3 I4 I5 I6 I7 I8 I9 I10 I11 I12]. cbn in *.
  assert (forall t th, objects s !! t = Some th -> t ∈ filter (fun t => is_Some (objects s !! t)) (TERMINATED_THREADS s) ->
    status th = Terminated) as Hd.
  { intros t th Ho Ht. apply list_elem_of_filter in Ht as [_ Ht]. by apply (I9 t). }
  split; cbn; try done.
  - destruct I2 as (thi & Hi & Hp & Hs & HT & Hq). exists thi. split_conj; try done.
    apply elem_of_difference. split; [done|]. rewrite elem_of_list_to_set. intros Hin.
    rewrite (Hd _ _ Hi Hin) in Hs. by destruct Hs.
  - intros t Ht. apply I7. set_solver.
  - intros t th Ho Ht. rewrite elem_of_difference, elem_of_list_to_set in Ht.
    destruct (decide (t ∈ THREADS s)) as [HT|HT]; [|by apply (I8 t)].
    destruct (decide (t ∈ filter (fun t => is_Some (objects s !! t)) (TERMINATED_THREADS s))); [by apply (Hd t)|].
    exfalso. by apply Ht.
  - set_solver.
  - set_solver.
Qed.

Lemma drop_thread_sched t th s :
  sched_inv s -> objects s !! t = Some th -> t ∉ THREADS s -> t <> current s -> sched_inv (drop_thread t th s).
Proof.
  intros I Ho HT Hc. pose proof I as [I1 I2 I3 I4 I5 I6 I7 I8 I9 I10 I11 I12].
  assert (t <> idle s) as Hi by (intros ->; destruct I2 as (_ & _ & _ & _ & ? & _); done).
  assert (occurs t s = 0) as Hz.
  { pose proof (I3 _ _ Hi Ho) as P. by rewrite (I8 _ _ Ho HT) in P. }
  unfold drop_thread. split; cbn; try done.
  - destruct I1 as (thc & Hcc & Hr). exists thc. by rewrite lookup_delete_ne.
  - destruct I2 as (thi & Hii & ?). exists thi. by rewrite lookup_delete_ne.
  - intros u thu Hu Hou. apply lookup_delete_Some in Hou as [_ Hou]. by apply (I3 u).
  - intros u Hou. apply lookup_delete_None in Hou as [<-|Hou]; [done|by apply I4].
  - intros u [thu Hou]. apply lookup_delete_Some in Hou as [_ Hou]. apply I5. by eexists.
  - intros u thu Hou. apply lookup_delete_Some in Hou as [_ Hou]. by apply (I6 u).
  - intros u Hu. rewrite lookup_delete_ne by (by intros ->). by apply I7.
  - intros u thu Hou. apply lookup_delete_Some in Hou as [_ Hou]. by apply (I8 u).
  - intros u thu Hu Hou. apply lookup_delete_Some in Hou as [_ Hou]. by apply (I9 u).
Qed.

(** ** Processes and the registers of the processor *)

Definition stack_of (th : Thread) : Z := match rsp0 th with Some a => a + RSP0_SIZE | None => 0 end.
Definition table_of (k : Z) (s : Kernel) (th : Thread) : Z :=
  match process_id th ≫= (fun p => PROCESSES s !! p) with Some p => page_table p | None => k end.

Record proc_inv (k : Z) (s : Kernel) : Prop := {
  p_member t th p : objects s !! t = Some th -> process_id th = Some p ->
    exists pr, PROCESSES s !! p = Some pr /\ t ∈ thread_ids pr;
  p_ids p pr t : PROCESSES s !! p = Some pr -> t ∈ thread_ids pr ->
    t <= THREAD_ID_GENERATOR s /\ forall th, objects s !! t = Some th -> process_id th = Some p;
  p_known p : is_Some (PROCESSES s !! p) -> p <= PROCESS_ID_GENERATOR s;
  p_leaving l : l ∈ leaving s -> objects s !! l_thread l = None /\ l_thread l <= THREAD_ID_GENERATOR s;
  p_loaded th : objects s !! current s = Some th ->
    tss_rsp0 (cpu s) = stack_of th /\ syscall_stack (cpu s) = stack_of th /\ cr3 (cpu s) = table_of k s th
}.

(** Threads keep their process and their stack. *)
Definition same_thread (o o' : option Thread) : Prop :=
  match o, o' with
  | Some th, Some th' => process_id th' = process_id th /\ rsp0 th' = rsp0 th
  | None, None => True
  | _, _ => False
  end.

(** A step that changes neither processes nor which threads there are. *)
Lemma proc_frame k s s' :
  proc_inv k s -> (forall t, same_thread (objects s !! t) (objects s' !! t)) ->
  PROCESSES s' = PROCESSES s -> PROCESS_ID_GENERATOR s' = PROCESS_ID_GENERATOR s ->
  leaving s' = leaving s -> THREAD_ID_GENERATOR s' = THREAD_ID_GENERATOR s ->
  (cpu s' = cpu s \/ forall th, objects s' !! current s' = Some th ->
    tss_rsp0 (cpu s') = stack_of th /\ syscall_stack (cpu s') = stack_of th /\ cr3 (cpu s') = table_of k s' th) ->
  proc_inv k s'.
Proof.
  intros [P1 P2 P3 P4 P5] Ho E1 E2 E3 E4 Hc.
  assert (forall t th', objects s' !! t = Some th' ->
    exists th, objects s !! t = Some th /\ process_id th' = process_id th /\ rsp0 th' = rsp0 th) as Hb.
  { intros t th' Ht. specialize (Ho t). rewrite Ht in Ho. destruct (objects s !! t) as [th|]; [|done]. by exists th. }
  split; rewrite ?E1, ?E2, ?E3, ?E4; try done.
  - intros t th p Ht Hp. destruct (Hb _ _ Ht) as (th0 & H0 & Hq & _). apply (P1 t th0); congruence.
  - intros p pr t Hp Ht. destruct (P2 p pr t Hp Ht) as [? H0]. split; [done|]. intros th Hth.
    destruct (Hb _ _ Hth) as (th0 & Ho0 & -> & _). by apply H0.
  - intros l Hl. destruct (P4 l Hl) as [H0 ?]. split; [|done]. specialize (Ho (l_thread l)). rewrite H0 in Ho.
    by destruct (objects s' !! l_thread l).
  - destruct Hc as [Hc|Hc]; [|exact Hc]. intros th Hth. rewrite Hc in *. destruct (Hb _ _ Hth) as (th0 & Ho0 & Hp & Hr).
    destruct (P5 _ Ho0) as (A & B & C). unfold stack_of, table_of in *. rewrite Hr, Hp, E1. done.
Qed.

Lemma same_thread_refl o : same_thread o o.
Proof. by destruct o. Qed.

Lemma same_thread_insert (m : gmap Z Thread) t th th' u :
  m !! t = Some th -> process_id th' = process_id th -> rsp0 th' = rsp0 th ->
  same_thread (m !! u) (<[t := th']> m !! u).
Proof.
  intros Hm Hp Hr. destruct (decide (t = u)) as [<-|]; [by rewrite Hm, lookup_insert_eq|].
  rewrite lookup_insert_ne by done. apply same_thread_refl.
Qed.

Lemma same_thread_trans o1 o2 o3 : same_thread o1 o2 -> same_thread o2 o3 -> same_thread o1 o3.
Proof. destruct o1, o2, o3; cbn; try done. intros [] []. split; congruence. Qed.

Lemma stop_thread_proc k t code s s' : proc_inv k s -> stop_thread t code s = Step s' ->
  proc_inv k s' /\ PROCESSES s' = PROCESSES s.
Proof.
  intros P. rewrite stop_thread_spec. destruct (objects s !! t) as [th|] eqn:Ho; [|done].
  destruct (status th); intros [= <-]; try done; (split; [|done]); eapply proc_frame; try done; auto;
    intros u; by eapply same_thread_insert.
Qed.

Lemma stop_threads_proc k ids code s s' : proc_inv k s -> stop_threads ids code s = Step s' -> proc_inv k s'.
Proof.
  revert s. induction ids as [|t ids IH]; intros s P; cbn; [by intros [= <-]|].
  case_decide; [|by apply IH]. destruct (stop_thread t code s) as [s1| |] eqn:Hs; try done.
  apply IH. by eapply stop_thread_proc.
Qed.

Lemma wake_thread_proc k t s s' : proc_inv k s -> wake_thread t s = Step s' -> proc_inv k s'.
Proof.
  intros P. unfold wake_thread. destruct (objects s !! t) as [th|] eqn:Ho; [|done].
  case_decide; intros [= <-]; [|done]. eapply proc_frame; try done; auto. intros u. by eapply same_thread_insert.
Qed.

Lemma switch_thread_proc k r s s' : sched_inv s -> proc_inv k s -> switch_thread k r s = Step s' -> proc_inv k s'.
Proof.
  intros I P. unfold switch_thread. destruct (frames_of (current s) s) as [|[b [to|] []] fs] eqn:Hf; try done.
  2: { intros [= <-]. eapply proc_frame; try done; auto. intros u. apply same_thread_refl. }
  destruct (objects s !! current s) as [old|] eqn:Hold; [|done].
  set (s1 := set_frames _ _ s).
  destruct (deal_old_thread_fields (current s) old b r s1) as (D1 & D2 & D3 & D4 & D5 & D6 & D7 & D8 & D9 & D10).
  set (s2 := deal_old_thread _ _ _ _ _) in *. destruct (objects s2 !! to) as [tht|] eqn:Hto; [|done].
  intros [= <-]. destruct (deal_new_thread_fields k to tht s2) as (N1 & N2 & N3 & N4 & N5 & N6 & N7 & N8 & N9 & N10 & N11).
  eapply proc_frame; [exact P|..].
  - intros u. apply (same_thread_trans _ (objects s2 !! u)).
    + rewrite D1. by eapply same_thread_insert.
    + rewrite N1. case_decide; [by eapply same_thread_insert|apply same_thread_refl].
  - by rewrite N4, D4.
  - by rewrite N11, D10.
  - by rewrite N6, D7.
  - by rewrite N3, D3.
  - right. rewrite N9. intros th Ho. unfold table_of. rewrite N4.
    assert (process_id th = process_id tht /\ rsp0 th = rsp0 tht) as [-> E].
    { rewrite N1 in Ho. case_decide; [rewrite lookup_insert_eq in Ho|]; by simplify_eq. }
    unfold stack_of. rewrite E. unfold deal_new_thread. by case_decide.
Qed.

Lemma create_thread_proc k p st i s s' :
  sched_inv s -> proc_inv k s -> create_thread p st i s = Step s' -> proc_inv k s'.
Proof.
  intros I P. pose proof P as [P1 P2 P3 P4 P5]. unfold create_thread.
  set (t := THREAD_ID_GENERATOR s + 1). set (th := mkThread p _ st 0 false).
  assert (forall u, is_Some (objects s !! u) -> u <> t) as Hne by (intros u Hu ->; pose proof (s_known s I t Hu); lia).
  set (s1 := if i then _ else _).
  assert (objects s1 = <[t := th]> (objects s) /\ PROCESSES s1 = PROCESSES s /\ leaving s1 = leaving s /\
    cpu s1 = cpu s /\ THREAD_ID_GENERATOR s1 = t /\ PROCESS_ID_GENERATOR s1 = PROCESS_ID_GENERATOR s)
    as (E1 & E2 & E3 & E4 & E5 & E6) by (by destruct i).
  assert (forall p' pr u, PROCESSES s !! p' = Some pr -> u ∈ thread_ids pr -> u <> t) as Hids.
  { intros p' pr u H1 H2 ->. destruct (P2 _ _ _ H1 H2) as [? _]. lia. }
  assert (forall l, l ∈ leaving s1 -> objects s1 !! l_thread l = None /\ l_thread l <= THREAD_ID_GENERATOR s1) as Hl.
  { intros l Hl. rewrite E3 in Hl. destruct (P4 l Hl). rewrite E1, E5, lookup_insert_ne by lia. split; [done|lia]. }
  assert (forall f, (forall p', default k (page_table <$> f (PROCESSES s) !! p') = default k (page_table <$> PROCESSES s !! p')) ->
    forall thc, objects s1 !! current s1 = Some thc ->
    tss_rsp0 (cpu s1) = stack_of thc /\ syscall_stack (cpu s1) = stack_of thc /\
    cr3 (cpu s1) = table_of k (set_processes f s1) thc) as Hload.
  { intros f Hf thc. rewrite E1, E4, lookup_insert_ne.
    2: { destruct (s_current s I) as (? & Hcu & _). apply not_eq_sym, Hne. by eexists. }
    intros Hc. destruct (P5 _ Hc) as (-> & -> & ->). split_conj; try done. unfold table_of. cbn. rewrite E2.
    destruct (process_id thc) as [pc|]; [|done]. cbn. specialize (Hf pc).
    destruct (f _ !! pc), (PROCESSES s !! pc); cbn in *; congruence. }
  destruct p as [p|].
  - rewrite E2. destruct (PROCESSES s !! p) as [pr|] eqn:Hp; [|done]. intros [= <-]. split; cbn; rewrite ?E1, ?E2, ?E5, ?E6.
    + intros u thu q Hu Hq. apply lookup_insert_Some in Hu as [[<- <-]|[Hn Hu]].
      * cbn in Hq. injection Hq as <-. rewrite lookup_insert_eq. eexists. split; [done|set_solver].
      * destruct (P1 _ _ _ Hu Hq) as (pru & Hpu & Hin). destruct (decide (p = q)) as [<-|].
        -- rewrite lookup_insert_eq. eexists. split; [done|]. cbn. set_solver.
        -- rewrite lookup_insert_ne by done. by exists pru.
    + intros q prq u Hq Hu. apply lookup_insert_Some in Hq as [[<- <-]|[Hn Hq]].
      * cbn in Hu. apply elem_of_union in Hu as [->%elem_of_singleton|Hu].
        -- split; [lia|]. intros thu. rewrite lookup_insert_eq. by intros [= <-].
        -- destruct (P2 _ _ _ Hp Hu) as [? Hth]. split; [lia|]. intros thu. rewrite lookup_insert_ne by (by apply not_eq_sym, (Hids p pr)). apply Hth.
      * destruct (P2 _ _ _ Hq Hu) as [? Hth]. split; [lia|]. intros thu. rewrite lookup_insert_ne by (by apply not_eq_sym, (Hids q prq)). apply Hth.
    + intros q. rewrite lookup_insert_is_Some'. intros [<-|Hq]; apply P3; [by eexists|done].
    + intros l Hin. apply Hl in Hin. by rewrite E1, E5 in Hin.
    + rewrite <- E1. apply Hload. intros q. destruct (decide (p = q)) as [<-|]; [by rewrite lookup_insert_eq, Hp|by rewrite lookup_insert_ne].
  - intros [= <-]. split; rewrite ?E1, ?E2, ?E5, ?E6; try done.
    + intros u thu q Hu Hq. apply lookup_insert_Some in Hu as [[<- <-]|[Hn Hu]]; [done|by eapply P1].
    + intros q prq u Hq Hu. destruct (P2 _ _ _ Hq Hu) as [? Hth]. split; [lia|]. intros thu.
      rewrite lookup_insert_ne by (by apply not_eq_sym, (Hids q prq)). apply Hth.
    + intros l Hin. apply Hl in Hin. by rewrite E1, E5 in Hin.
    + rewrite <- E1. intros thc Hc. apply (Hload id) in Hc; [|done]. exact Hc.
Qed.

Lemma drop_thread_proc k t th s :
  sched_inv s -> proc_inv k s -> objects s !! t = Some th -> t <> current s -> proc_inv k (drop_thread t th s).
Proof.
  intros I [P1 P2 P3 P4 P5] Ho Hc. split; cbn; try done.
  - intros u thu p Hu. apply lookup_delete_Some in Hu as [_ Hu]. by apply (P1 u).
  - intros p pr u Hp Hu. destruct (P2 _ _ _ Hp Hu) as [? Hth]. split; [done|]. intros thu Hou.
    apply lookup_delete_Some in Hou as [_ Hou]. by apply Hth.
  - intros l. rewrite elem_of_app, list_elem_of_singleton. intros [Hl| ->]; cbn.
    + destruct (P4 l Hl). by rewrite lookup_delete_None; auto.
    + rewrite lookup_delete_eq. split; [done|]. apply (s_known s I). by eexists.
  - intros thc. rewrite lookup_delete_ne by done. apply P5.
Qed.

Lemma leave_proc k s s' : proc_inv k s -> leave s = Step s' -> proc_inv k s'.
Proof.
  intros P. unfold leave. destruct (leaving s) as [|[t st po code] l] eqn:Hl; [done|].
  pose proof P as [P1 P2 P3 P4 P5].
  destruct (P4 (mkLeaving t st po code)) as [Hgone Hknown]; [rewrite Hl; set_solver|]. cbn in Hgone, Hknown.
  assert (forall z, proc_inv k (set_leaving l z s)) as G0.
  { intros z. split; cbn; try done. intros l' Hl'. apply P4. rewrite Hl. set_solver. }
  destruct (po ≫= _) as [[p pr]|] eqn:Hpo; [|intros [= <-]; apply G0].
  apply bind_Some in Hpo as (p' & -> & Hpo). cbn in Hpo. apply fmap_Some in Hpo as (pr' & Hpr & [= <- <-]).
  pose proof (G0 (freed_stacks s ++ option_list st)) as [Q1 Q2 Q3 Q4 Q5].
  assert (forall u thu, objects s !! u = Some thu -> u <> t) as Hne by (intros u thu Hu ->; congruence).
  case_decide as Hempty; intros [= <-]; cbn in *.
  - assert (forall u thu q, objects s !! u = Some thu -> process_id thu = Some q -> q <> p) as Hnot.
    { intros u thu q Hu Hq ->. destruct (P1 _ _ _ Hu Hq) as (pru & Hpu & Hin). rewrite Hpr in Hpu. injection Hpu as <-.
      pose proof (Hne _ _ Hu). set_solver. }
    split; cbn; try done.
    + intros u thu q Hu Hq. rewrite lookup_delete_ne, lookup_insert_ne by (by apply not_eq_sym, (Hnot u thu)). by eapply P1.
    + intros q prq u Hq. apply lookup_delete_Some in Hq as [Hn Hq]. rewrite lookup_insert_ne in Hq by done. by apply P2.
    + intros q [prq Hq]. apply lookup_delete_Some in Hq as [Hn Hq]. rewrite lookup_insert_ne in Hq by done. apply P3. by eexists.
    + intros thc Hc. destruct (P5 _ Hc) as (-> & -> & ->). split_conj; try done. unfold table_of. cbn.
      destruct (process_id thc) as [q|] eqn:Hq; [|done]. cbn. specialize (Hnot _ _ _ Hc Hq).
      by rewrite lookup_delete_ne, lookup_insert_ne.
  - split; cbn; try done.
    + intros u thu q Hu Hq. destruct (P1 _ _ _ Hu Hq) as (pru & Hpu & Hin). destruct (decide (p = q)) as [<-|].
      * rewrite lookup_insert_eq. eexists. split; [done|]. cbn. pose proof (Hne _ _ Hu).
        rewrite Hpr in Hpu. injection Hpu as <-. set_solver.
      * rewrite lookup_insert_ne by done. by exists pru.
    + intros q prq u Hq Hu. apply lookup_insert_Some in Hq as [[<- <-]|[Hn Hq]]; [|by apply (P2 q prq)].
      apply (P2 p pr); [done|]. cbn in Hu. set_solver.
    + intros q. rewrite lookup_insert_is_Some'. intros [<-|Hq]; apply P3; [by eexists|done].
    + intros thc Hc. destruct (P5 _ Hc) as (-> & -> & ->). split_conj; try done. unfold table_of. cbn.
      destruct (process_id thc) as [q|] eqn:Hq; [|done]. cbn. destruct (decide (p = q)) as [<-|].
      * by rewrite lookup_insert_eq, Hpr.
      * by rewrite lookup_insert_ne.
Qed.

(** A process that keeps its threads and its address space. *)
Lemma set_process_proc k p pr pr' s :
  proc_inv k s -> PROCESSES s !! p = Some pr ->
  thread_ids pr' = thread_ids pr -> page_table pr' = page_table pr ->
  proc_inv k (set_processes (<[p := pr']>) s).
Proof.
  intros [P1 P2 P3 P4 P5] Hp Et Ep. split; cbn; try done.
  - intros u thu q Hu Hq. destruct (P1 _ _ _ Hu Hq) as (pru & Hpu & Hin). destruct (decide (p = q)) as [<-|].
    + rewrite lookup_insert_eq. eexists. split; [done|]. rewrite Et. by simplify_eq.
    + rewrite lookup_insert_ne by done. by exists pru.
  - intros q prq u Hq Hu. apply lookup_insert_Some in Hq as [[<- <-]|[Hn Hq]]; [|by apply (P2 q prq)].
    apply (P2 p pr); [done|]. by rewrite <- Et.
  - intros q. rewrite lookup_insert_is_Some'. intros [<-|Hq]; apply P3; [by eexists|done].
  - intros thc Hc. destruct (P5 _ Hc) as (-> & -> & ->). split_conj; try done. unfold table_of. cbn.
    destruct (process_id thc) as [q|] eqn:Hq; [|done]. cbn. destruct (decide (p = q)) as [<-|].
    + by rewrite lookup_insert_eq, Hp, Ep.
    + by rewrite lookup_insert_ne.
Qed.

Lemma create_process_proc k table s : proc_inv k s -> proc_inv k (create_process table s).
Proof.
  intros [P1 P2 P3 P4 P5]. unfold create_process. set (p := PROCESS_ID_GENERATOR s + 1).
  assert (PROCESSES s !! p = None) as Hp by (apply eq_None_not_Some; intros H; specialize (P3 _ H); lia).
  split; cbn; try done.
  - intros u thu q Hu Hq. destruct (P1 _ _ _ Hu Hq) as (pru & Hpu & Hin). exists pru.
    by rewrite lookup_insert_ne by congruence.
  - intros q prq u Hq Hu. apply lookup_insert_Some in Hq as [[<- <-]|[Hn Hq]]; [set_solver|by apply (P2 q prq)].
  - intros q. rewrite lookup_insert_is_Some'. intros [<-|Hq]; [subst p; lia|]. specialize (P3 _ Hq). lia.
  - intros thc Hc. destruct (P5 _ Hc) as (-> & -> & ->). split_conj; try done. unfold table_of. cbn.
    destruct (process_id thc) as [q|] eqn:Hq; [|done]. cbn.
    destruct (P1 _ _ _ Hc Hq) as (prq & Hpq & _). by rewrite lookup_insert_ne by congruence.
Qed.

(** ** All reachable states *)

Lemma boot_inv k : sched_inv (boot k) /\ proc_inv k (boot k).
Proof.
  assert (forall t, occurs t (boot k) = 0) as Z0 by (intros t; done).
  assert (forall t th, objects (boot k) !! t = Some th -> (t = 1 \/ t = 2) /\ th = mkThread None Running None 0 false) as Ho.
  { intros t th. cbn. rewrite !lookup_insert_Some, lookup_empty. naive_solver. }
  split; split; try done.
  - exists (mkThread None Running None 0 false). split; [done|by left].
  - exists (mkThread None Running None 0 false). split_conj; try done; by left.
  - intros t th Ht Hth. destruct (Ho _ _ Hth) as [[-> | ->] ->]; [|done]. split; [done|apply Z0].
  - intros t [th Hth]. destruct (Ho _ _ Hth) as [[-> | ->] _]; cbn; lia.
  - intros t th Hth _. destruct (Ho _ _ Hth) as [_ ->]. by intros [|].
  - intros t. cbn [THREADS boot create_idle_thread create_kernel_async_thread set_cpu set_threads set_objects next_thread_id].
    rewrite !elem_of_union, !elem_of_singleton. intros [-> | [-> | Ht]]; [by eexists..|set_solver].
  - intros t th Hth Ht. destruct (Ho _ _ Hth) as [[-> | ->] _]; exfalso; apply Ht; cbn; set_solver.
  - intros t th Ht. by apply elem_of_nil in Ht.
  - intros t Ht. by apply elem_of_nil in Ht.
  - intros t th p Hth Hp. destruct (Ho _ _ Hth) as [_ ->]. done.
  - intros p [? Hp]. cbn in Hp. by rewrite lookup_empty in Hp.
  - intros l Hl. by apply elem_of_nil in Hl.
  - intros th Hth. destruct (Ho _ _ Hth) as [_ ->]. done.
Qed.

Lemma kernel_exec_inv k op s s' :
  sched_inv s -> proc_inv k s -> exec k op s = Step s' -> sched_inv s' /\ proc_inv k s'.
Proof.
  intros I P. unfold exec. destruct (resuming s).
  { destruct op; try done. intros Hd. split; [by eapply destroy_sched|]. unfold destroy_terminated in Hd.
    repeat case_match; simplify_eq. eapply proc_frame; try done; auto. intros u. apply same_thread_refl. }
  destruct op as [b| |r| |t| |p st i|table|t code|p code|p code|b|t| ]; try done.
  - intros Hy. split; [by eapply thread_yield_sched|]. unfold thread_yield in Hy. repeat case_match; simplify_eq.
    eapply proc_frame; try done; auto. intros u. apply same_thread_refl.
  - intros Hy. split; [by eapply choose_idle_sched|]. unfold choose_idle in Hy.
    destruct (frames_of _ _) as [|[? ? []] ?]; simplify_eq. eapply proc_frame; try done; auto. intros u. apply same_thread_refl.
  - intros Hs. split; [by eapply switch_thread_sched|by eapply switch_thread_proc].
  - intros Hw. split; [by eapply wake_thread_sched|by eapply wake_thread_proc].
  - unfold wake_kernel_thread. case_decide; [|by intros [= <-]].
    intros Hw. split; [by eapply wake_thread_sched|by eapply wake_thread_proc].
  - intros Hc. split; [by eapply create_thread_sched|by eapply create_thread_proc].
  - intros [= <-]. split; [by eapply sched_frame|by apply create_process_proc].
  - destruct (objects s !! t) as [th|] eqn:Ho; [|done]. case_decide; [done|].
    intros Hs. split; [by eapply stop_thread_sched|by eapply stop_thread_proc].
  - unfold stop_all_thread. destruct (PROCESSES s !! p) as [pr|] eqn:Hp; [|done].
    intros Hs. split; [|by eapply stop_threads_proc]. eapply stop_threads_sched; [done| |exact Hs].
    intros t th Ht Ho. apply elem_of_elements in Ht. destruct (p_ids k s P _ _ _ Hp Ht) as [_ Hth]. by rewrite (Hth th Ho).
  - destruct (PROCESSES s !! p) as [pr|] eqn:Hp; [|done]. intros [= <-]. split; [by eapply sched_frame|].
    eapply set_process_proc; try done; unfold set_exit_code_with_lock; by case_match.
  - unfold register_waker. destruct (objects s !! current s) as [thc|] eqn:Hc; [|done]. intros [= <-].
    split; [by eapply relabel_sched|]. eapply proc_frame; try done; auto. intros u. by eapply same_thread_insert.
  - destruct (objects s !! t) as [th|] eqn:Ho; [|done]. case_decide; [done|]. case_decide; [done|]. case_match; [done|].
    intros [= <-]. split; [by apply drop_thread_sched|by apply drop_thread_proc].
  - intros Hl. split; [|by eapply leave_proc]. unfold leave in Hl. repeat case_match; simplify_eq; by eapply sched_frame.
Qed.

Lemma kernel_reachable_inv k s : reachable k s -> sched_inv s /\ proc_inv k s.
Proof.
  revert s. refine (rtc_ind_r (fun s => sched_inv s /\ proc_inv k s) _ _ _); [apply boot_inv|].
  intros s s' _ [op Hop] [I P]. by eapply kernel_exec_inv.
Qed.

Lemma exec_no_panic k op s : reachable k s -> exec k op s <> Panicked.
Proof.
  intros Hr. destruct (kernel_reachable_inv k s Hr) as [I P]. destruct (s_current s I) as (thc & Hc & _).
  unfold exec. destruct (resuming s) eqn:Hres; [destruct op; try done; unfold destroy_terminated; by repeat case_match|].
  destruct op as [b| |r| |t| |p st i|table|t code|p code|p code|b|t| ]; try done.
  - unfold thread_yield. rewrite Hres, decide_True by by apply current_listed. repeat case_match; done.
  - unfold choose_idle. destruct (frames_of _ _) as [|[? ? []] ?]; done.
  - unfold switch_thread. destruct (frames_of (current s) s) as [|[b [to|] []] fs] eqn:Hf; try done.
    destruct (switch_target s b to fs I Hf) as (Hne & tht & Hto & _). rewrite Hc.
    destruct (deal_old_thread_fields (current s) thc b r (set_frames (current s) (mkFrame b None Switched :: fs) s))
      as (D1 & _). rewrite D1, lookup_insert_ne by done. cbn. by rewrite Hto.
  - unfold wake_thread. repeat case_match; done.
  - unfold wake_kernel_thread, wake_thread. repeat case_match; done.
  - unfold create_thread. repeat case_match; done.
  - rewrite stop_thread_spec. repeat case_match; done.
  - unfold stop_all_thread. destruct (PROCESSES s !! p) as [pr|]; [|done]. generalize (elements (thread_ids pr)).
    intros ids. clear. revert s. induction ids as [|t ids IH]; intros s; cbn; [done|]. case_decide; [|apply IH].
    rewrite stop_thread_spec. repeat case_match; done || apply IH.
  - repeat case_match; done.
  - unfold register_waker. by rewrite Hc.
  - repeat case_match; done.
  - unfold leave. repeat case_match; done.
Qed.

(** C13: in every reachable state one thread runs on the processor and no other
    is marked as running (but for the idle thread); a ready thread is in the
    ready queue or held by a call about to switch to it, exactly once; a
    suspended or terminated thread is in neither place; and no operation of
    the scheduler panics. *)
Theorem scheduler_places_threads k s :
  reachable k s ->
  (exists th, objects s !! current s = Some th /\ (status th = Running \/ status th = Terminating)) /\
  (forall t th, t <> idle s -> objects s !! t = Some th ->
    match status th with
    | Ready => queued t s + held t s = 1
    | Running => t = current s /\ queued t s + held t s = 0
    | Suspend | Terminated => queued t s + held t s = 0
    | Terminating => queued t s + held t s <= 1 /\ (t = current s -> queued t s + held t s = 0)
    end) /\
  (forall op, exec k op s <> Panicked).
Proof.
  intros Hr. destruct (kernel_reachable_inv k s Hr) as [I P]. split_conj.
  - apply (s_current s I).
  - intros t th Ht Ho. pose proof (s_placed s I t th Ht Ho) as Hp. unfold placed, occurs in Hp.
    destruct (status th); try done. split; [lia|apply Hp].
  - intros op. by apply exec_no_panic.
Qed.

(** C14: the stacks for traps and system calls and the page table that the
    processor has loaded are those of the thread that runs; a thread of a
    process belongs to a process that exists and lists it, so that its address
    space is there as long as it is. *)
Theorem current_thread_loaded k s th :
  reachable k s -> objects s !! current s = Some th ->
  tss_rsp0 (cpu s) = stack_of th /\ syscall_stack (cpu s) = stack_of th /\
  match process_id th with
  | None => cr3 (cpu s) = k
  | Some p => exists pr, PROCESSES s !! p = Some pr /\ current s ∈ thread_ids pr /\ cr3 (cpu s) = page_table pr
  end.
Proof.
  intros Hr Ho. destruct (kernel_reachable_inv k s Hr) as [I P]. destruct (p_loaded k s P th Ho) as (A & B & C).
  split_conj; try done. unfold table_of in C. destruct (process_id th) as [p|] eqn:Hp; [|done].
  destruct (p_member k s P _ _ _ Ho Hp) as (pr & Hpr & Hin). exists pr. cbn in C. by rewrite Hpr in C.
Qed.

(** ** Threads that never run again *)

(** A thread that will not make another step. *)
Definition dead (u : Z) (s : Kernel) : Prop :=
  u <> current s /\ u <> idle s /\ u <= THREAD_ID_GENERATOR s /\
  forall th, objects s !! u = Some th -> status th = Terminated.

(** A thread that is ready or being stopped and that nobody is about to switch
    to: the ready queue does not have it, or passes over it, and no call that
    will go on holds it. *)
Record stranded (t : Z) (s : Kernel) : Prop := {
  st_current : t <> current s;
  st_idle : t <> idle s;
  st_status : exists th, objects s !! t = Some th /\
    (status th = Terminating \/ status th = Ready /\ queued t s = 0);
  st_held u : 0 < zsum (holds t) (frames_of u s) -> dead u s
}.

Lemma calls_nonneg t l : 0 <= zsum (holds t) l.
Proof. apply zsum_nonneg, Forall_true. auto with cos. Qed.

Lemma stranded_frame t s s' :
  stranded t s -> objects s' = objects s -> READY_THREADS s' = READY_THREADS s -> cpu s' = cpu s ->
  frames s' = frames s -> THREAD_ID_GENERATOR s' = THREAD_ID_GENERATOR s -> stranded t s'.
Proof.
  intros [S1 S2 S3 S4] E1 E2 E3 E4 E5.
  split; unfold dead, queued, frames_of in *; by rewrite ?E1, ?E2, ?E3, ?E4, ?E5.
Qed.

(** Another thread changes, and the queue does not grow by [t]. *)
Lemma stranded_other t u th' extra s :
  stranded t s -> (forall th, objects s !! u = Some th -> status th <> Terminated) -> is_Some (objects s !! u) ->
  (u = t -> status th' = Terminating) -> t ∉ extra ->
  stranded t (set_ready (fun q => q ++ extra) (set_objects (<[u := th']>) s)).
Proof.
  intros [S1 S2 (th & Ho & Hs) S4] Hu [thu Hou] Ht Hex. split; try done; cbn.
  - destruct (decide (u = t)) as [->|Hne].
    + exists th'. rewrite lookup_insert_eq. auto.
    + exists th. rewrite lookup_insert_ne by done. split; [done|]. destruct Hs as [|[? Hq]]; [by left|right].
      split; [done|]. unfold queued in *. cbn. rewrite zsum_app, Hq. clear -Hex.
      induction extra as [|x l IH]; [done|]. rewrite zsum_cons, is_thread_ne by set_solver. apply IH. set_solver.
  - intros w Hw. destruct (S4 w Hw) as (? & ? & ? & Hd). unfold dead. cbn. split_conj; try done.
    intros thw. destruct (decide (u = w)) as [->|]; [|rewrite lookup_insert_ne by done; apply Hd].
    exfalso. by apply (Hu thu), Hd.
Qed.

Lemma stranded_other_nil t u th' s :
  stranded t s -> (forall th, objects s !! u = Some th -> status th <> Terminated) -> is_Some (objects s !! u) ->
  (u = t -> status th' = Terminating) -> stranded t (set_objects (<[u := th']>) s).
Proof.
  intros S Hu Hsome Ht. eapply stranded_frame; [apply (stranded_other t u th' [] s); try done; set_solver|..]; try done.
  cbn. by rewrite app_nil_r.
Qed.

Lemma stranded_stop t u code s s' : stranded t s -> stop_thread u code s = Step s' -> stranded t s'.
Proof.
  intros S. rewrite stop_thread_spec. destruct (objects s !! u) as [thu|] eqn:Hu; [|done].
  destruct (status thu) eqn:Hst; intros [= <-]; try done;
    (apply stranded_other_nil; [done|intros th; rewrite Hu; congruence|by rewrite Hu|done]).
Qed.

Lemma stranded_wake t u s s' : stranded t s -> wake_thread u s = Step s' -> stranded t s'.
Proof.
  intros S. unfold wake_thread. destruct (objects s !! u) as [thu|] eqn:Hu; [|done].
  case_decide as Hs; intros [= <-]; [|done].
  assert (u <> t).
  { intros ->. destruct (st_status t s S) as (th & ? & [|[? _]]); simplify_eq; congruence. }
  apply stranded_other; [done|intros th; rewrite Hu; congruence|by rewrite Hu|done|set_solver].
Qed.

(** A new set of calls of the current thread that holds no more of [t]. *)
Lemma stranded_calls t l s :
  stranded t s -> zsum (holds t) l <= zsum (holds t) (frames_of (current s) s) ->
  stranded t (set_frames (current s) l s).
Proof.
  intros [S1 S2 S3 S4] Hl. split; try done. intros u. rewrite frames_of_set. case_decide as E; [|apply S4].
  intros Hp. subst u. apply (S4 (current s)). lia.
Qed.

Lemma stranded_switch k r t s s' : sched_inv s -> stranded t s -> switch_thread k r s = Step s' -> stranded t s'.
Proof.
  intros I S. unfold switch_thread.
  destruct (frames_of (current s) s) as [|[b [to|] []] fs] eqn:Hf; try done.
  2: { intros [= <-]. apply stranded_calls; [done|]. rewrite Hf, zsum_cons, holds_mk. lia. }
  destruct (switch_target s b to fs I Hf) as (Hne & tht & Hto & Hstat).
  assert (to <> t) as Htt.
  { intros ->. destruct (st_held t s S (current s)) as [? _]; [|done].
    rewrite Hf, zsum_cons, holds_mk, is_thread_eq. pose proof (calls_nonneg t fs). lia. }
  destruct (objects s !! current s) as [old|] eqn:Hold; [|done].
  set (s1 := set_frames _ _ s).
  assert (stranded t s1) as [S1 S2 (th & Ho & Hs) S4].
  { apply stranded_calls; [done|]. rewrite Hf, !zsum_cons, !holds_mk, is_thread_ne by done. lia. }
  destruct (deal_old_thread_fields (current s) old b r s1) as (D1 & D2 & D3 & D4 & D5 & D6 & D7 & D8 & D9 & D10).
  set (s2 := deal_old_thread _ _ _ _ _) in *. destruct (objects s2 !! to) as [tht2|] eqn:Hto2; [|done].
  assert (tht2 = tht) as -> by (rewrite D1, lookup_insert_ne in Hto2 by done; cbn in Hto2; congruence).
  intros [= <-]. destruct (deal_new_thread_fields k to tht s2) as (N1 & N2 & N3 & N4 & N5 & N6 & N7 & N8 & N9 & N10 & N11).
  assert (current s <> t) as Hct by (apply not_eq_sym; exact S1).
  split; rewrite ?N9, ?N10, ?D5; try done.
  - exists th. rewrite N1, D1. split; [destruct (decide (status tht = Ready)); rewrite ?lookup_insert_ne by congruence; done|].
    destruct Hs as [|[? Hq]]; [by left|right]. split; [done|]. unfold queued in *. rewrite N7, D8, zsum_app, Hq.
    destruct (decide (current s = idle s1)); [done|]. destruct (yielded b (status old)); try done.
    rewrite zsum_cons, is_thread_ne by congruence. done.
  - intros u Hu. assert (frames_of u (deal_new_thread k to tht s2) = frames_of u s1) as E by (unfold frames_of; by rewrite N5, D6).
    rewrite E in Hu. destruct (S4 u Hu) as (U1 & U2 & U3 & U4). unfold dead. rewrite N9, N10, D5, N3, D3.
    assert (current s <> u) as Hcu by (apply not_eq_sym; exact U1).
    assert (u <> to) as Hut.
    { intros ->. specialize (U4 _ Hto). destruct Hstat as [[? _]|[_ [[E2|E2] _]]]; [done|congruence..]. }
    split_conj; try done. intros thu. rewrite N1, D1.
    destruct (decide (status tht = Ready)); rewrite ?lookup_insert_ne by congruence; apply U4.
Qed.

Lemma stranded_create t p st i s s' : sched_inv s -> stranded t s -> create_thread p st i s = Step s' -> stranded t s'.
Proof.
  intros I S Hcr. set (n := THREAD_ID_GENERATOR s + 1).
  set (s1 := set_ready (fun q => q ++ (if i then [] else [n]))
    (set_objects (<[n := mkThread p (if i then Suspend else Ready) st 0 false]>) (next_thread_id s))).
  assert (t <> n) as Hn.
  { destruct (st_status t s S) as (th & Ho & _). pose proof (s_known s I t ltac:(by eexists)). subst n. lia. }
  assert (stranded t s1) as G.
  { destruct S as [S1 S2 (th & Ho & Hs) S4]. subst s1. split; try done; cbn.
    - exists th. rewrite lookup_insert_ne by done. split; [done|]. destruct Hs as [|[? Hq]]; [by left|right].
      split; [done|]. unfold queued in *. cbn. rewrite zsum_app, Hq. destruct i; [done|]. by rewrite zsum_cons, is_thread_ne.
    - intros u Hu. destruct (S4 u Hu) as (U1 & U2 & U3 & U4). unfold dead. cbn. split_conj; try done; [lia|].
      rewrite lookup_insert_ne by (subst n; lia). exact U4. }
  unfold create_thread in Hcr.
  destruct i, p; cbn in Hcr; try (destruct (PROCESSES s !! _); [|done]); injection Hcr as <-;
    (eapply stranded_frame; [exact G|..]); try done; cbn; by rewrite app_nil_r.
Qed.

Lemma stranded_yield t b s s' : stranded t s -> thread_yield b s = Step s' -> stranded t s'.
Proof.
  intros S. unfold thread_yield. case_match; [done|]. case_match; [done|]. case_match; [|done].
  destruct (pick _ _) as [next q] eqn:Hp. apply pick_spec in Hp as (Hn & Hle & _). intros [= <-].
  destruct (st_status t s S) as (th & Ho & Hs).
  assert (match next with Some n => is_thread t n | None => 0 end = 0) as Hz.
  { destruct next as [n|]; [|done]. apply is_thread_ne. intros ->. destruct (Hn _ eq_refl) as (th' & Ho' & Hr).
    destruct Hs as [|[_ Hq]]; [congruence|]. specialize (Hle t). rewrite is_thread_eq in Hle.
    pose proof (queued_nonneg t q). unfold queued in Hq. lia. }
  apply (stranded_calls t _ (set_ready _ s)).
  - destruct S as [S1 S2 _ S4]. split; try done. exists th. split; [done|]. destruct Hs as [|[? Hq]]; [by left|right].
    split; [done|]. unfold queued in *. cbn. specialize (Hle t). rewrite Hz in Hle. pose proof (queued_nonneg t q). lia.
  - cbn. change (frames_of _ (set_ready _ s)) with (frames_of (current s) s). rewrite zsum_cons, holds_mk, Hz. lia.
Qed.

Lemma stranded_exec k op t s s' :
  sched_inv s -> stranded t s -> exec k op s = Step s' -> stranded t s'.
Proof.
  intros I S. unfold exec. destruct (resuming s) eqn:Hres.
  { destruct op; try done. unfold destroy_terminated. destruct (frames_of (current s) s) as [|[b n []] fs] eqn:Hf; try done.
    intros [= <-]. apply (stranded_calls t fs (set_threads _ (set_terminated _ s))).
    - by apply (stranded_frame t s).
    - cbn. change (frames_of _ _) with (frames_of (current s) s). rewrite Hf, zsum_cons.
      pose proof (holds_nonneg t (mkFrame b n Switched)). lia. }
  destruct op as [b| |r| |u| |p st i|table|u code|p code|p code|b|u| ]; try done.
  - by apply stranded_yield.
  - unfold choose_idle. destruct (frames_of (current s) s) as [|[b next []] fs] eqn:Hf; try done. intros [= <-].
    apply stranded_calls; [done|]. rewrite Hf, !zsum_cons, !holds_mk. pose proof (st_idle t s S).
    destruct b, next; cbn; try lia. case_decide; [rewrite is_thread_ne by done|]; lia.
  - by apply stranded_switch.
  - by apply stranded_wake.
  - unfold wake_kernel_thread. case_decide; [by apply stranded_wake|by intros [= <-]].
  - by apply stranded_create.
  - intros [= <-]. by apply (stranded_frame t s).
  - destruct (objects s !! u) as [thu|] eqn:Hu; [|done]. case_decide; [done|]. by apply stranded_stop.
  - unfold stop_all_thread. destruct (PROCESSES s !! p) as [pr|]; [|done]. generalize (elements (thread_ids pr)). intros ids.
    clear -S. revert s S. induction ids as [|u ids IH]; intros s S; cbn; [by intros [= <-]|]. case_decide; [|by apply IH].
    destruct (stop_thread u code s) as [s1| |] eqn:He; try done. apply IH. by eapply stranded_stop.
  - case_match; [|done]. intros [= <-]. by apply (stranded_frame t s).
  - unfold register_waker. destruct (s_current s I) as (thc & Hc & Hrc). rewrite Hc. intros [= <-].
    apply stranded_other_nil; [done|..|by rewrite Hc|intros E; by destruct (st_current t s S)].
    intros th. rewrite Hc. intros [= <-] E. rewrite E in Hrc. by destruct Hrc.
  - destruct (objects s !! u) as [thu|] eqn:Hu; [|done]. case_decide as HT; [done|]. case_decide; [done|]. case_match; [done|].
    intros [= <-]. pose proof (s_gone s I _ _ Hu HT). destruct S as [S1 S2 (th & Ho & Hs) S4]. split; try done; cbn.
    + exists th. rewrite lookup_delete_ne; [done|]. intros ->. destruct Hs as [|[? _]]; congruence.
    + intros w Hw. destruct (S4 w Hw) as (U1 & U2 & U3 & U4). unfold dead. cbn. split_conj; try done.
      intros thw Hw'. apply lookup_delete_Some in Hw' as [_ Hw']. by apply U4.
  - unfold leave. intros Hl. repeat case_match; simplify_eq; by apply (stranded_frame t s).
Qed.

Lemma stranded_forever k t s s' :
  reachable k s -> stranded t s -> rtc (step k) s s' -> reachable k s' /\ stranded t s'.
Proof.
  intros Hr S. revert s'. refine (rtc_ind_r (fun s' => reachable k s' /\ stranded t s') _ _ _); [done|].
  intros s1 s2 _ [op Hop] [Hr1 Hs1]. split; [eapply rtc_r; [exact Hr1|by exists op]|].
  destruct (kernel_reachable_inv k s1 Hr1) as [I P]. by eapply stranded_exec.
Qed.

(** A thread that is stopped while it does not run, and that no call is
    about to switch to, never runs again and never terminates: it stays in the
    table, not terminated, whatever happens later. On one processor this is
    the fate of every thread that another thread kills. *)
Theorem stopped_thread_never_terminates k s s' t th :
  reachable k s -> objects s !! t = Some th -> status th = Terminating -> t <> current s -> held t s = 0 ->
  rtc (step k) s s' ->
  t <> current s' /\ t ∈ THREADS s' /\ exists th', objects s' !! t = Some th' /\ status th' <> Terminated.
Proof.
  intros Hr Ho Ht Hc Hh Hrun. destruct (kernel_reachable_inv k s Hr) as [I _].
  assert (stranded t s) as S.
  { split; [done| |by eauto|].
    - intros ->. destruct (s_idle s I) as (thi & ? & _ & [|] & _); simplify_eq; congruence.
    - intros u Hu. pose proof (held_ge t u s). lia. }
  destruct (stranded_forever k t s s' Hr S Hrun) as [Hr' [S1 _ (th' & Ho' & Hs') _]].
  assert (status th' <> Terminated) as Hn by (destruct Hs' as [E|[E _]]; congruence).
  split_conj; [done| |by eauto]. destruct (kernel_reachable_inv k s' Hr') as [I' _].
  destruct (decide (t ∈ THREADS s')) as [|Hn']; [done|]. by pose proof (s_gone s' I' _ _ Ho' Hn').
Qed.

Lemma held_ge_two t u w s : u <> w -> zsum (holds t) (frames_of u s) + zsum (holds t) (frames_of w s) <= held t s.
Proof.
  intros Hne. pose proof (frames_weight_insert (holds t) (frames s) w []) as E1.
  pose proof (frames_weight_insert (holds t) (<[w := []]> (frames s)) u []) as E2.
  rewrite lookup_insert_ne in E2 by done. change (zsum (holds t) []) with 0 in *.
  pose proof (frames_weight_nonneg (holds t) (<[u := []]> (<[w := []]> (frames s))) (holds_nonneg t)).
  unfold held, frames_of. lia.
Qed.

(** When the timer interrupts the last yield of a thread [u] that is being
    stopped, the thread [t] that this yield has taken off the ready queue is
    lost: it is in no queue and never runs again, whatever happens later. *)
Theorem interrupted_exit_loses_thread k s s' t u th thu :
  reachable k s ->
  objects s !! u = Some thu -> status thu = Terminated -> 0 < zsum (holds t) (frames_of u s) ->
  t <> idle s -> objects s !! t = Some th -> status th = Ready ->
  rtc (step k) s s' ->
  t <> current s' /\
  exists th', objects s' !! t = Some th' /\
    (status th' = Ready /\ queued t s' = 0 \/ status th' = Terminating).
Proof.
  intros Hr Hu Htu Hh Hi Ho Hs Hrun. destruct (kernel_reachable_inv k s Hr) as [I _].
  pose proof (s_placed s I _ _ Hi Ho) as Hp. rewrite Hs in Hp. cbn in Hp. unfold occurs in Hp.
  pose proof (held_ge t u s) as Hg. pose proof (queued_nonneg t (READY_THREADS s)) as Hq. fold (queued t s) in Hq.
  assert (stranded t s) as S.
  { split; [|done|exists th; split; [done|right; split; [done|lia]]|].
    - intros ->. destruct (s_current s I) as (thc & Hc & [|]); simplify_eq; congruence.
    - intros w Hw. destruct (decide (u = w)) as [<-|Hne]; [|pose proof (held_ge_two t u w s Hne); lia].
      unfold dead. split_conj.
      + intros ->. destruct (s_current s I) as (thc & Hc & [|]); simplify_eq; congruence.
      + intros ->. destruct (s_idle s I) as (thi & ? & _ & [|] & _); simplify_eq; congruence.
      + apply (s_known s I). by eexists.
      + intros thw Hw'. congruence. }
  destruct (stranded_forever k t s s' Hr S Hrun) as [_ [S1 _ (th' & Ho' & Hs') _]].
  split; [done|]. exists th'. naive_solver.
Qed.

(** A yield that does not suspend goes round the ready queue: the first
    thread of the queue runs next, if it is ready, and the thread that yields
    is the last of the queue. *)
Theorem yield_round_robin k r s t q th thc :
  reachable k s -> frames_of (current s) s = [] -> current s <> idle s ->
  objects s !! current s = Some thc -> status thc = Running ->
  READY_THREADS s = t :: q -> objects s !! t = Some th -> status th = Ready ->
  exists s1 s2 s3,
    exec k (Yield false) s = Step s1 /\ exec k ChooseIdle s1 = Step s2 /\ exec k (Switch r) s2 = Step s3 /\
    current s3 = t /\ READY_THREADS s3 = q ++ [current s] /\
    objects s3 !! t = Some (set_status Running th) /\
    objects s3 !! current s = Some (set_status Ready thc).
Proof.
  intros Hr Hf Hi Hc Hrun Hq Ht Hready. destruct (kernel_reachable_inv k s Hr) as [I _].
  assert (t <> current s) as Hne by (intros ->; congruence).
  set (s1 := set_frames (current s) [mkFrame false (Some t) Searched] (set_ready (fun _ => q) s)).
  set (s2 := set_frames (current s) [mkFrame false (Some t) Chosen] s1).
  assert (frames_of (current s) s1 = [mkFrame false (Some t) Searched]) as F1.
  { subst s1. rewrite frames_of_set. by rewrite decide_True. }
  assert (frames_of (current s) s2 = [mkFrame false (Some t) Chosen]) as F2.
  { subst s2. rewrite frames_of_set. by rewrite decide_True. }
  assert (exec k (Yield false) s = Step s1) as E1.
  { unfold exec, resuming. rewrite Hf. unfold thread_yield, resuming.
    rewrite Hf, (decide_True (P := current s ∈ _)), Hq by by apply current_listed. cbn. by rewrite Ht, decide_True. }
  assert (exec k ChooseIdle s1 = Step s2) as E2.
  { unfold exec, resuming. change (current s1) with (current s). rewrite F1. unfold choose_idle.
    change (current s1) with (current s). by rewrite F1. }
  set (s3 := deal_new_thread k t th (deal_old_thread (current s) thc false r (set_frames (current s) [mkFrame false None Switched] s2))).
  assert (exec k (Switch r) s2 = Step s3) as E3.
  { unfold exec, resuming. change (current s2) with (current s). rewrite F2. unfold switch_thread.
    change (current s2) with (current s). rewrite F2. change (objects s2) with (objects s). rewrite Hc.
    destruct (deal_old_thread_fields (current s) thc false r (set_frames (current s) [mkFrame false None Switched] s2)) as (D1 & _).
    rewrite D1, lookup_insert_ne by done. cbn. by rewrite Ht. }
  destruct (deal_old_thread_fields (current s) thc false r (set_frames (current s) [mkFrame false None Switched] s2))
    as (D1 & _ & _ & _ & _ & _ & _ & D8 & _).
  destruct (deal_new_thread_fields k t th (deal_old_thread (current s) thc false r (set_frames (current s) [mkFrame false None Switched] s2)))
    as (N1 & _ & _ & _ & _ & _ & N7 & _ & N9 & _).
  fold s3 in N1, N7, N9. rewrite decide_True in N1 by done. cbn [set_frames cpu] in D8. rewrite decide_False in D8 by done.
  assert (yielded false (status thc) = Ready) as Ey by (rewrite Hrun; done). rewrite Ey in *.
  exists s1, s2, s3. split_conj; try done.
  - by rewrite N7, D8.
  - by rewrite N1, lookup_insert_eq.
  - by rewrite N1, lookup_insert_ne, D1, lookup_insert_eq.
Qed.

(** ** Runs *)

Module Runs.

Fixpoint run (k : Z) (ops : list Op) (s : Kernel) : option Kernel :=
  match ops with
  | [] => Some s
  | op :: ops => match exec k op s with Step s' => run k ops s' | _ => None end
  end.

Lemma run_steps k ops s s' : run k ops s = Some s' -> rtc (step k) s s'.
Proof.
  revert s. induction ops as [|op ops IH]; intros s; cbn; [by intros [= ->]|].
  destruct (exec k op s) as [s1| |] eqn:He; try done. intros Hr. eapply rtc_l; [by exists op|by apply IH].
Qed.

Definition state (ops : list Op) : Kernel := default (boot 0x1000) (run 0x1000 ops (boot 0x1000)).

Lemma state_reachable ops : run 0x1000 ops (boot 0x1000) <> None -> reachable 0x1000 (state ops).
Proof.
  intros H. unfold state. destruct (run 0x1000 ops (boot 0x1000)) as [s|] eqn:E; [|done]. by apply (run_steps _ ops).
Qed.

(** A process with three threads, 3, 4 and 5; thread 3 runs. *)
Definition three : list Op :=
  [CreateProcess 0x5000; CreateThread (Some 1) (Some 0x70000) false; CreateThread (Some 1) (Some 0x80000) false;
   CreateThread (Some 1) (Some 0x90000) false; Yield true; ChooseIdle; Switch true].

Lemma scheduler_places_threads_witness : queued 4 (state three) + held 4 (state three) = 1.
Proof.
  refine (proj1 (proj2 (scheduler_places_threads 0x1000 (state three) _)) 4 (mkThread (Some 1) Ready (Some 0x80000) 0 false) _ _).
  - apply state_reachable. by vm_compute.
  - by vm_compute.
  - by vm_compute.
Defined.

Lemma current_thread_loaded_witness :
  tss_rsp0 (cpu (state three)) = 0x72000 /\ syscall_stack (cpu (state three)) = 0x72000 /\
  exists pr, PROCESSES (state three) !! 1 = Some pr /\ 3 ∈ thread_ids pr /\ cr3 (cpu (state three)) = page_table pr.
Proof.
  refine (current_thread_loaded 0x1000 (state three) (mkThread (Some 1) Running (Some 0x70000) 0 false) _ _).
  - apply state_reachable. by vm_compute.
  - by vm_compute.
Defined.

(** Thread 3 kills thread 4 and exits; thread 4 is passed over for ever. *)
Definition killed : list Op := three ++ [Stop 4 9].
Definition later : list Op :=
  [Stop 3 0; Yield true; ChooseIdle; Switch true; Yield true; ChooseIdle; Switch true].

Lemma stopped_thread_never_terminates_witness :
  let s := state (killed ++ later) in
  4 <> current s /\ 4 ∈ THREADS s /\ exists th', objects s !! 4 = Some th' /\ status th' <> Terminated.
Proof.
  refine (stopped_thread_never_terminates 0x1000 (state killed) (state (killed ++ later)) 4
    (mkThread (Some 1) Terminating (Some 0x80000) 9 false) _ _ _ _ _ _).
  - apply state_reachable. by vm_compute.
  - by vm_compute.
  - reflexivity.
  - by vm_compute.
  - by vm_compute.
  - apply (run_steps _ later). by vm_compute.
Defined.

(** Thread 3 exits; the timer interrupts its yield after thread 4 has been
    taken off the queue. *)
Definition interrupted : list Op :=
  three ++ [Stop 3 0; Yield true; Yield false; ChooseIdle; Switch true].
Definition after_interrupted : list Op := [WakeKernel; Yield false; ChooseIdle; Switch true; Destroy; DropThread 3; Leave].

Lemma interrupted_exit_loses_thread_witness :
  let s := state (interrupted ++ after_interrupted) in
  4 <> current s /\
  exists th', objects s !! 4 = Some th' /\ (status th' = Ready /\ queued 4 s = 0 \/ status th' = Terminating).
Proof.
  refine (interrupted_exit_loses_thread 0x1000 (state interrupted) (state (interrupted ++ after_interrupted)) 4 3
    (mkThread (Some 1) Ready (Some 0x80000) 0 false) (mkThread (Some 1) Terminated (Some 0x70000) 0 false) _ _ _ _ _ _ _ _).
  - apply state_reachable. by vm_compute.
  - by vm_compute.
  - reflexivity.
  - by vm_compute.
  - by vm_compute.
  - by vm_compute.
  - reflexivity.
  - apply (run_steps _ after_interrupted). by vm_compute.
Defined.

Lemma yield_round_robin_witness :
  exists s1 s2 s3,
    exec 0x1000 (Yield false) (state three) = Step s1 /\ exec 0x1000 ChooseIdle s1 = Step s2 /\
    exec 0x1000 (Switch true) s2 = Step s3 /\ current s3 = 4 /\ READY_THREADS s3 = [5] ++ [3] /\
    objects s3 !! 4 = Some (mkThread (Some 1) Running (Some 0x80000) 0 false) /\
    objects s3 !! 3 = Some (mkThread (Some 1) Ready (Some 0x70000) 0 false).
Proof.
  refine (yield_round_robin 0x1000 true (state three) 4 [5] (mkThread (Some 1) Ready (Some 0x80000) 0 false)
    (mkThread (Some 1) Running (Some 0x70000) 0 false) _ _ _ _ _ _ _ _).
  - apply state_reachable. by vm_compute.
  - by vm_compute.
  - by vm_compute.
  - by vm_compute.
  - reflexivity.
  - by vm_compute.
  - by vm_compute.
  - reflexivity.
Defined.

End Runs.
