(* ===== verification/AsyncRt.v ===== *)
(** * The asynchronous runtime of the kernel (kernel/src/multitask/async_rt.rs, async_task.rs)

    Three machines. [Runtime]: the tasks of the kernel, the thread that polls
    them and the wakers, which run on other threads and in interrupt handlers
    at any time. [BlockOn]: a thread that runs one future and suspends itself
    in between. [Sleep]: the timers and the clock interrupt.

    A step is what runs under the lock of the runtime, or one access to the
    status of a task. A thread that suspends itself gives its lock back only
    when it is suspended ([Yield]), so that checking and suspending are one
    step. *)
From Stdlib Require Import Sorted.
From S2P Require Import Prelude.

Module Runtime.

(** The thread in [run]: between two tasks, with a task from the queue, in the
    [poll] of a task, suspended. *)
Inductive Runner : Type :=
  | Looping
  | Popped (t : Z)
  | Polling (t : Z)
  | Sleeping.

(** [status] is that of the tasks that exist; [wakes] counts the calls of
    [wake_kernel_thread] on their way; [signalled] are the tasks woken since
    their last poll began. *)
Record State : Type := mkState {
  ready : list Z;
  suspend : gset Z;
  TASK_ID_GENERATOR : Z;
  status : gmap Z bool;
  runner : Runner;
  wakes : nat;
  signalled : gset Z
}.

Definition init : State := mkState [] ∅ 0 ∅ Looping 0 ∅.

Inductive Op : Type :=
  | Spawn
  | WakeTask (t : Z)
  | WakeKernel              (** [wake_kernel_thread] *)
  | Pop                     (** [run]: take a task, or suspend the thread *)
  | Clear                   (** [run]: mark the task as not woken *)
  | Done (pending : bool).  (** [run]: the poll has returned *)

(** [spawn] *)
Definition spawn (s : State) : State :=
  let t := TASK_ID_GENERATOR s in
  mkState (ready s ++ [t]) (suspend s) (t + 1) (<[t := true]> (status s)) (runner s)
    (S (wakes s)) (signalled s ∪ {[t]}).

(** [WakerInner::wake_by_ref] up to the end of the lock; the reference to a
    task that is done cannot be upgraded. *)
Definition wake_by_ref (t : Z) (s : State) : State :=
  match status s !! t with
  | None => s
  | Some _ =>
      let st := <[t := true]> (status s) in
      let sig := signalled s ∪ {[t]} in
      if decide (t ∈ suspend s) then
        mkState (ready s ++ [t]) (suspend s ∖ {[t]}) (TASK_ID_GENERATOR s) st (runner s) (S (wakes s)) sig
      else mkState (ready s) (suspend s) (TASK_ID_GENERATOR s) st (runner s) (wakes s) sig
  end.

(** [wake_kernel_thread], as far as the thread of the runtime goes. *)
Definition wake_kernel (s : State) : option State :=
  match wakes s with
  | O => None
  | S n => Some (mkState (ready s) (suspend s) (TASK_ID_GENERATOR s) (status s)
      (match runner s with Sleeping => Looping | r => r end) n (signalled s))
  end.

(** When there is no task, the lock of the runtime is kept until [switch_thread]
    has marked the thread as suspended, and its callback drops it: finding the
    queue empty and sleeping are one section for all who take that lock. *)
Definition pop (s : State) : option State :=
  match runner s with
  | Looping =>
      match ready s with
      | t :: q => Some (mkState q (suspend s) (TASK_ID_GENERATOR s) (status s) (Popped t) (wakes s) (signalled s))
      | [] => Some (mkState [] (suspend s) (TASK_ID_GENERATOR s) (status s) Sleeping (wakes s) (signalled s))
      end
  | _ => None
  end.

Definition clear (s : State) : option State :=
  match runner s with
  | Popped t => Some (mkState (ready s) (suspend s) (TASK_ID_GENERATOR s) (<[t := false]> (status s))
      (Polling t) (wakes s) (signalled s ∖ {[t]}))
  | _ => None
  end.

(** What [run] does with a task after its poll. *)
Definition poll_done (pending : bool) (s : State) : option State :=
  match runner s with
  | Polling t =>
      if pending then
        if default false (status s !! t) then
          Some (mkState (ready s ++ [t]) (suspend s) (TASK_ID_GENERATOR s) (status s) Looping (wakes s) (signalled s))
        else
          Some (mkState (ready s) ({[t]} ∪ suspend s) (TASK_ID_GENERATOR s) (status s) Looping (wakes s) (signalled s))
      else
        Some (mkState (ready s) (suspend s) (TASK_ID_GENERATOR s) (delete t (status s)) Looping (wakes s)
          (signalled s ∖ {[t]}))
  | _ => None
  end.

Definition exec (op : Op) (s : State) : option State :=
  match op with
  | Spawn => Some (spawn s)
  | WakeTask t => Some (wake_by_ref t s)
  | WakeKernel => wake_kernel s
  | Pop => pop s
  | Clear => clear s
  | Done pending => poll_done pending s
  end.

Definition step (s s' : State) : Prop := exists op, exec op s = Some s'.
Definition reachable (s : State) : Prop := rtc step init s.

(** ** Correctness *)

Definition in_hand (s : State) : list Z :=
  match runner s with Popped t | Polling t => [t] | _ => [] end.

Record inv (s : State) : Prop := {
  i_nodup : NoDup (ready s ++ in_hand s);
  i_apart t : t ∈ ready s ++ in_hand s -> t ∉ suspend s;
  i_place t : is_Some (status s !! t) <-> t ∈ ready s ++ in_hand s \/ t ∈ suspend s;
  i_known t : is_Some (status s !! t) -> t < TASK_ID_GENERATOR s;
  i_signal t : t ∈ signalled s ->
    t ∈ ready s \/ runner s = Popped t \/ runner s = Polling t /\ status s !! t = Some true;
  i_suspend t : t ∈ suspend s -> t ∉ signalled s;
  i_sleep : runner s = Sleeping -> ready s <> [] -> (0 < wakes s)%nat
}.

Lemma init_inv : inv init.
Proof.
  split; cbn; try done; try set_solver.
  - constructor.
  - intros t. rewrite lookup_empty. split; [by intros [? ?]|set_solver].
  - intros t [? Ht]. by rewrite lookup_empty in Ht.
Qed.

Lemma in_ready_hand s t : t ∈ ready s ++ in_hand s <->
  t ∈ ready s \/ runner s = Popped t \/ runner s = Polling t.
Proof.
  rewrite elem_of_app. unfold in_hand. destruct (runner s); rewrite ?list_elem_of_singleton, ?elem_of_nil; naive_solver.
Qed.

Ltac hand := cbn [ready suspend TASK_ID_GENERATOR status runner wakes signalled in_hand] in *.

Lemma spawn_inv s : inv s -> inv (spawn s).
Proof.
  intros [I1 I2 I3 I4 I5 I6 I7]. unfold spawn. set (t := TASK_ID_GENERATOR s).
  assert (status s !! t = None) as Hn by (apply eq_None_not_Some; intros H; specialize (I4 _ H); lia).
  assert (t ∉ ready s ++ in_hand s /\ t ∉ suspend s) as [Hr Hs].
  { split; intros H; apply eq_None_not_Some in Hn; apply Hn, I3; auto. }
  split; unfold in_hand in *; hand.
  - apply (NoDup_Permutation_proper _ (t :: ready s ++ match runner s with Popped t | Polling t => [t] | _ => [] end)); [|by constructor].
    solve_Permutation.
  - intros u Hu. apply elem_of_app in Hu as [[Hu|Hu%list_elem_of_singleton]%elem_of_app|Hu]; [|by subst|];
      apply I2, elem_of_app; auto.
  - intros u. rewrite lookup_insert_is_Some'. specialize (I3 u). set_solver.
  - intros u. rewrite lookup_insert_is_Some'. intros [<-|Hu]; [lia|]. specialize (I4 _ Hu). lia.
  - intros u. rewrite elem_of_union, elem_of_singleton. intros [Hu| ->]; [|left; set_solver].
    destruct (I5 _ Hu) as [|[|[? Hst]]]; [left; set_solver|by auto|]. right; right. split; [done|].
    rewrite lookup_insert_ne; [done|]. intros <-. congruence.
  - intros u Hu. specialize (I6 _ Hu). set_solver.
  - lia.
Qed.

Lemma wake_inv t s : inv s -> inv (wake_by_ref t s).
Proof.
  intros [I1 I2 I3 I4 I5 I6 I7]. unfold wake_by_ref. destruct (status s !! t) as [b|] eqn:Ht; [|done].
  assert (forall u, is_Some (<[t := true]> (status s) !! u) <-> is_Some (status s !! u)) as Hst.
  { intros u. rewrite lookup_insert_is_Some'. split; [intros [<-|]; [by eexists|done]|by right]. }
  case_decide as Hs.
  - assert (t ∉ ready s ++ in_hand s) as Hr by (intros H; by apply (I2 t)).
    split; unfold in_hand in *; hand.
    + apply (NoDup_Permutation_proper _ (t :: ready s ++ match runner s with Popped t | Polling t => [t] | _ => [] end)); [|by constructor].
      solve_Permutation.
    + intros u Hu. apply elem_of_app in Hu as [[Hu|Hu%list_elem_of_singleton]%elem_of_app|Hu]; [|subst; set_solver|];
        (assert (u ∉ suspend s) by (apply I2, elem_of_app; auto)); set_solver.
    + intros u. rewrite Hst, (I3 u). destruct (decide (u = t)); set_solver.
    + intros u Hu. apply I4, Hst, Hu.
    + intros u. rewrite elem_of_union, elem_of_singleton. intros [Hu| ->]; [|left; set_solver].
      destruct (I5 _ Hu) as [|[|[? ?]]]; [left; set_solver|by auto|]. right; right. split; [done|].
      destruct (decide (t = u)) as [<-|]; [by rewrite lookup_insert_eq|by rewrite lookup_insert_ne].
    + intros u Hu. assert (u ∈ suspend s) as Hu' by set_solver. specialize (I6 _ Hu'). set_solver.
    + lia.
  - split; hand; try done.
    + intros u. by rewrite Hst, (I3 u).
    + intros u Hu. apply I4, Hst, Hu.
    + intros u. rewrite elem_of_union, elem_of_singleton. intros [Hu| ->].
      * destruct (I5 _ Hu) as [|[|[? ?]]]; [by auto..|]. right; right. split; [done|].
        destruct (decide (t = u)) as [<-|]; [by rewrite lookup_insert_eq|by rewrite lookup_insert_ne].
      * assert (t ∈ ready s ++ in_hand s) as Hin.
        { destruct (proj1 (I3 t)) as [|]; [by eexists|done|done]. }
        apply in_ready_hand in Hin as [|[|]]; [by auto..|]. right; right. by rewrite lookup_insert_eq.
    + intros u Hu. specialize (I6 _ Hu). set_solver.
Qed.

Lemma exec_inv_rt op s s' : inv s -> exec op s = Some s' -> inv s'.
Proof.
  intros I. pose proof I as [I1 I2 I3 I4 I5 I6 I7]. destruct op as [|t| | | |pending]; cbn.
  - intros [= <-]. by apply spawn_inv.
  - intros [= <-]. by apply wake_inv.
  - unfold wake_kernel. destruct (wakes s) eqn:Hw; [done|]. intros [= <-].
    destruct (runner s) eqn:Hr; (split; unfold in_hand in *; rewrite ?Hr in *; hand; try done; naive_solver).
  - unfold pop. destruct (runner s) eqn:Hr; try done.
    destruct (ready s) as [|t q] eqn:Hq; intros [= <-]; unfold in_hand in *; rewrite ?Hr, ?Hq in *.
    + split; hand; try done; naive_solver.
    + split; hand; try done.
      * rewrite app_nil_r in I1. apply (NoDup_Permutation_proper _ (t :: q)); [|done]. solve_Permutation.
      * intros u Hu. apply I2. set_solver.
      * intros u. rewrite (I3 u). set_solver.
      * intros u Hu. destruct (I5 _ Hu) as [Hin|[?|[? _]]]; [|done..]. apply elem_of_cons in Hin as [-> |]; auto.
  - unfold clear. destruct (runner s) as [|t|t|] eqn:Hr; try done. intros [= <-]. unfold in_hand in *. rewrite ?Hr in *.
    assert (is_Some (status s !! t)) as Ht by (apply I3; set_solver).
    assert (forall u, is_Some (<[t := false]> (status s) !! u) <-> is_Some (status s !! u)) as Hst.
    { intros u. rewrite lookup_insert_is_Some'. split; [intros [<-|]; done|by right]. }
    split; hand; try done.
    + intros u. by rewrite Hst, (I3 u).
    + intros u Hu. apply I4, Hst, Hu.
    + intros u. rewrite elem_of_difference, elem_of_singleton. intros [Hu Hne]. destruct (I5 _ Hu) as [|[|[? _]]]; naive_solver.
    + intros u Hu. specialize (I6 _ Hu). set_solver.
  - unfold poll_done. destruct (runner s) as [|t|t|] eqn:Hr; try done. unfold in_hand in *. rewrite ?Hr in *.
    apply NoDup_app in I1 as (N1 & N2 & _).
    assert (t ∉ ready s) as Hnr by (intros H; apply (N2 t H); set_solver).
    assert (t ∉ suspend s) as Hns by (apply I2; set_solver).
    assert (is_Some (status s !! t)) as [b Ht] by (apply I3; set_solver).
    destruct pending; [rewrite Ht; cbn; destruct b|]; intros [= <-]; split; hand; rewrite ?app_nil_r; try done.
    + apply NoDup_app. split_conj; [done|set_solver|apply NoDup_singleton].
    + intros u Hu. destruct (I5 _ Hu) as [|[|[[= <-] _]]]; [left; set_solver|done|left; set_solver].
    + intros u Hu. assert (u <> t) by (by intros ->). assert (u ∉ suspend s) by (apply I2; set_solver). set_solver.
    + intros u. rewrite (I3 u). set_solver.
    + intros u Hu. destruct (I5 _ Hu) as [|[|[[= <-] ?]]]; [by auto|done|congruence].
    + intros u. rewrite elem_of_union, elem_of_singleton. intros [-> |Hu]; [|by apply I6].
      intros Hin. destruct (I5 _ Hin) as [|[|[_ ?]]]; [done..|congruence].
    + intros u Hu. apply I2. set_solver.
    + intros u. destruct (decide (u = t)) as [-> |].
      * rewrite lookup_delete_eq. split; [by intros [? ?]|]. intros [?|?]; done.
      * rewrite lookup_delete_ne, (I3 u) by done. set_solver.
    + intros u [? Hu]. apply lookup_delete_Some in Hu as [_ Hu]. apply I4. by eexists.
    + intros u. rewrite elem_of_difference, elem_of_singleton. intros [Hu Hne].
      destruct (I5 _ Hu) as [|[|[? _]]]; [by auto|done|naive_solver].
    + intros u Hu. specialize (I6 _ Hu). set_solver.
Qed.

Lemma reachable_inv_rt s : reachable s -> inv s.
Proof.
  revert s. refine (rtc_ind_r inv _ init_inv _). intros s s' _ [op Hop] I. by eapply exec_inv_rt.
Qed.

(** C24: no wake of a task is lost: after a task has been woken, and until its
    next poll begins, it is in the ready queue, or taken from it, or in its
    current poll with a mark that sends it back to the queue; a task that
    waits has not been woken since its poll; every task is in one place; and
    the thread of the runtime does not sleep while a task is ready, unless a
    call that wakes it is on its way. *)
Theorem runtime_no_lost_wakeup s :
  reachable s ->
  (forall t, t ∈ signalled s ->
    t ∈ ready s \/ runner s = Popped t \/ runner s = Polling t /\ status s !! t = Some true) /\
  (forall t, t ∈ suspend s -> t ∉ signalled s /\ t ∉ ready s) /\
  NoDup (ready s ++ in_hand s) /\
  (forall t, is_Some (status s !! t) <-> t ∈ ready s ++ in_hand s \/ t ∈ suspend s) /\
  (runner s = Sleeping -> ready s <> [] -> (0 < wakes s)%nat).
Proof.
  intros Hr. destruct (reachable_inv_rt s Hr) as [I1 I2 I3 I4 I5 I6 I7]. split_conj; try done.
  intros t Ht. split; [by apply I6|]. intros Hin. apply (I2 t); [|done]. apply elem_of_app. by left.
Qed.

(** A task that is woken while it is polled. *)
Definition woken_while_polled : State :=
  mkState [] ∅ 1 {[0 := true]} (Polling 0) 1 {[0]}.

Lemma runtime_no_lost_wakeup_witness :
  0 ∈ ready woken_while_polled \/ runner woken_while_polled = Popped 0 \/
  runner woken_while_polled = Polling 0 /\ status woken_while_polled !! 0 = Some true.
Proof.
  refine (proj1 (runtime_no_lost_wakeup woken_while_polled _) 0 _); [|set_solver].
  unfold reachable. eapply rtc_l; [exists Spawn; reflexivity|]. eapply rtc_l; [exists Pop; reflexivity|].
  eapply rtc_l; [exists Clear; reflexivity|]. eapply rtc_l; [exists (WakeTask 0); reflexivity|].
  apply rtc_refl.
Defined.

End Runtime.

Module BlockOn.

(** The thread in [block_on]. *)
Inductive Phase : Type :=
  | Start                   (** at the head of the loop *)
  | Armed                   (** [pending] is set *)
  | Polling
  | Returned                (** the poll has returned [Pending] *)
  | Suspended
  | Finished (terminated : bool).

(** [wakes] counts the wakers that have cleared [pending] and not yet called
    [wake_thread]; [signalled]: woken since the last poll began;
    [terminating]: the status of the thread, set by [stop_thread]. *)
Record State : Type := mkState {
  phase : Phase;
  pending : bool;
  terminating : bool;
  wakes : nat;
  signalled : bool
}.

Definition init : State := mkState Start false false 0 false.

Inductive Op : Type :=
  | Arm                     (** [pending = true] *)
  | Check                   (** [thread_boundry_check], and the poll begins *)
  | Poll (ready : bool)     (** the poll returns *)
  | Decide                  (** look at [pending], and suspend the thread *)
  | Wake                    (** [wake_by_ref]: [pending = false] *)
  | WakeThread              (** [wake_by_ref]: [wake_thread] *)
  | Stop.                   (** [stop_thread], whose waker is this one *)

(** [BlockOnWakerInner::wake_by_ref], its first half; nothing is left to wake
    once [block_on] has returned. *)
Definition wake_by_ref (s : State) : State :=
  match phase s with
  | Finished _ => s
  | _ => mkState (phase s) false (terminating s) (S (wakes s)) true
  end.

(** [wake_thread]: only a suspended thread is made ready. *)
Definition wake_thread (s : State) : option State :=
  match wakes s with
  | O => None
  | S n => Some (mkState (match phase s with
        | Suspended => if terminating s then Suspended else Start
        | p => p
        end) (pending s) (terminating s) n (signalled s))
  end.

(** The loop of [block_on]. *)
Definition block_on (op : Op) (s : State) : option State :=
  match op, phase s with
  | Arm, Start => Some (mkState Armed true (terminating s) (wakes s) (signalled s))
  | Check, Armed =>
      if terminating s then Some (mkState (Finished true) (pending s) true (wakes s) (signalled s))
      else Some (mkState Polling (pending s) false (wakes s) false)
  | Poll true, Polling => Some (mkState (Finished false) (pending s) (terminating s) (wakes s) (signalled s))
  | Poll false, Polling => Some (mkState Returned (pending s) (terminating s) (wakes s) (signalled s))
  | Decide, Returned =>
      Some (mkState (if pending s then Suspended else Start) (pending s) (terminating s) (wakes s) (signalled s))
  | _, _ => None
  end.

Definition exec (op : Op) (s : State) : option State :=
  match op with
  | Wake => Some (wake_by_ref s)
  | WakeThread => wake_thread s
  | Stop => if terminating s then Some s
      else Some (wake_by_ref (mkState (phase s) (pending s) true (wakes s) (signalled s)))
  | _ => block_on op s
  end.

Definition step (s s' : State) : Prop := exists op, exec op s = Some s'.
Definition reachable (s : State) : Prop := rtc step init s.

(** A wake reaches the thread: one that comes during the poll keeps the thread
    from suspending itself, and while the thread is suspended a wake that it
    has not seen is on its way to it, unless the thread is being stopped. *)
Definition seen (s : State) : Prop :=
  signalled s = true ->
  match phase s with
  | Polling | Returned => pending s = false
  | Suspended => terminating s = true \/ (0 < wakes s)%nat
  | _ => True
  end.

(** Besides, a check of the thread after it has been woken. *)
Lemma exec_seen op s s' : seen s -> exec op s = Some s' -> seen s'.
Proof.
  unfold seen. intros I Hop. destruct s as [p pe te w sg].
  destruct op as [| |r| | | |]; cbn in Hop; unfold wake_by_ref, wake_thread in Hop; cbn in *.
  all: repeat case_match; simplify_eq; cbn in *; try done; auto with lia.
  all: try (intros Hs; specialize (I Hs); subst; cbn in *; try done; auto).
  all: try (right; lia).
Qed.

Theorem block_on_no_lost_wakeup s :
  reachable s -> phase s = Suspended -> signalled s = true -> terminating s = true \/ (0 < wakes s)%nat.
Proof.
  intros Hr Hp Hs. assert (seen s) as I; [|unfold seen in I; rewrite Hp in I; by apply I].
  revert s Hr Hp Hs. refine (fun s Hr _ _ => rtc_ind_r seen _ _ _ s Hr); [done|].
  intros s1 s2 _ [op Hop] I. by eapply exec_seen.
Qed.

End BlockOn.

Module Sleep.

(** [FLAG_INIT], [FLAG_SLEEP], [FLAG_WAKE] *)
Inductive Flag : Type := FLAG_INIT | FLAG_SLEEP | FLAG_WAKE.

(** [WakeQueue]: the future it belongs to stands for its flag and its waker. *)
Record WakeQueue : Type := mkWake { wake_time : Z; sleeper : nat }.

(** The futures by number: [duration] in microseconds, and their flag. *)
Record State : Type := mkState {
  SYSTEM_INSTANT : Z;
  SLEEP_WAKE_QUEUE : list WakeQueue;
  flags : gmap nat (Z * Flag);
  woken : list nat
}.

(** [BinaryHeap::peek] and [pop] with the order of [WakeQueue] reversed: an
    entry with the smallest time. *)
Fixpoint peek (q : list WakeQueue) : option WakeQueue :=
  match q with
  | [] => None
  | w :: q =>
      match peek q with
      | Some v => if wake_time v <? wake_time w then Some v else Some w
      | None => Some w
      end
  end.

Fixpoint pop (q : list WakeQueue) : list WakeQueue :=
  match q with
  | [] => []
  | w :: q =>
      match peek q with
      | Some v => if wake_time v <? wake_time w then w :: pop q else q
      | None => q
      end
  end.

(** [sleep] *)
Definition sleep (i : nat) (as_micros : Z) (s : State) : State :=
  mkState (SYSTEM_INSTANT s) (SLEEP_WAKE_QUEUE s) (<[i := (wrap 64 as_micros, FLAG_INIT)]> (flags s)) (woken s).

(** [Sleep::poll]; [Some true] is [Ready]. *)
Definition poll (i : nat) : M State Empty_set (option bool) := fun s =>
  match flags s !! i with
  | Some (duration, FLAG_INIT) =>
      let t := SYSTEM_INSTANT s + duration in
      if fits 64 t then
        (Ok (Some false), mkState (SYSTEM_INSTANT s) (SLEEP_WAKE_QUEUE s ++ [mkWake t i])
          (<[i := (duration, FLAG_SLEEP)]> (flags s)) (woken s))
      else (Panic, mkState (SYSTEM_INSTANT s) (SLEEP_WAKE_QUEUE s) (<[i := (duration, FLAG_SLEEP)]> (flags s)) (woken s))
  | Some (_, FLAG_SLEEP) => (Ok (Some false), s)
  | Some (_, FLAG_WAKE) => (Ok (Some true), s)
  | None => (Ok None, s)
  end.

(** The loop of [tick]; a future that is gone is only woken. *)
Fixpoint wake_due (fuel : nat) (now : Z) (s : State) : outcome Empty_set unit * State :=
  match fuel with
  | O => (Diverge, s)
  | S fuel =>
      match peek (SLEEP_WAKE_QUEUE s) with
      | None => (Ok tt, s)
      | Some wake =>
          if now <? wake_time wake then (Ok tt, s)
          else
            wake_due fuel now (mkState (SYSTEM_INSTANT s) (pop (SLEEP_WAKE_QUEUE s))
              (alter (fun f => (f.1, FLAG_WAKE)) (sleeper wake) (flags s)) (woken s ++ [sleeper wake]))
      end
  end.

Definition tick (elapsed : Z) (s : State) : outcome Empty_set unit * State :=
  let now := wrap 64 (SYSTEM_INSTANT s + elapsed) in
  wake_due (S (length (SLEEP_WAKE_QUEUE s))) now
    (mkState now (SLEEP_WAKE_QUEUE s) (flags s) (woken s)).

(** ** Correctness *)

Lemma peek_spec q :
  match peek q with
  | None => q = []
  | Some w => q ≡ₚ w :: pop q /\ forall v, v ∈ q -> wake_time w <= wake_time v
  end.
Proof.
  induction q as [|w q IH]; cbn; [done|]. destruct (peek q) as [v|].
  - destruct IH as [Hp Hm]. destruct (Z.ltb_spec (wake_time v) (wake_time w)).
    + split; [rewrite Hp at 1; constructor|]. intros u Hu. apply elem_of_cons in Hu as [-> |Hu]; [lia|by apply Hm].
    + split; [done|]. intros u Hu. apply elem_of_cons in Hu as [-> |Hu]; [lia|]. specialize (Hm _ Hu). lia.
  - subst q. split; [done|]. intros u Hu. by apply list_elem_of_singleton in Hu as ->.
Qed.

Definition due (now : Z) (q : list WakeQueue) : list WakeQueue := filter (fun w => wake_time w <= now) q.
Definition later (now : Z) (q : list WakeQueue) : list WakeQueue := filter (fun w => now < wake_time w) q.

Definition set_woken (f : gmap nat (Z * Flag)) (l : list nat) : gmap nat (Z * Flag) :=
  foldl (fun f i => alter (fun f => (f.1, FLAG_WAKE)) i f) f l.

Lemma due_none now q : (forall v, v ∈ q -> now < wake_time v) -> due now q = [] /\ later now q = q.
Proof.
  intros H. induction q as [|w q IH]; [done|]. unfold due, later in *. rewrite !filter_cons.
  assert (now < wake_time w) by (apply H; set_solver). rewrite decide_False, decide_True by lia.
  destruct IH as [-> ->]; [|done]. intros v Hv. apply H. set_solver.
Qed.

(** The loop wakes what is due, the earliest first. *)
Lemma wake_due_spec now fuel s :
  (length (SLEEP_WAKE_QUEUE s) < fuel)%nat ->
  exists l, l ≡ₚ due now (SLEEP_WAKE_QUEUE s) /\ StronglySorted (fun v w => wake_time v <= wake_time w) l /\
    exists q, q ≡ₚ later now (SLEEP_WAKE_QUEUE s) /\
    wake_due fuel now s = (Ok tt, mkState (SYSTEM_INSTANT s) q
      (set_woken (flags s) (sleeper <$> l)) (woken s ++ (sleeper <$> l))).
Proof.
  revert s. induction fuel as [|fuel IH]; intros s Hf; [lia|]. cbn.
  pose proof (peek_spec (SLEEP_WAKE_QUEUE s)) as Hp. destruct (peek (SLEEP_WAKE_QUEUE s)) as [w|].
  2: { exists []. rewrite Hp. split_conj; [done|constructor|]. exists []. split; [done|]. destruct s; cbn in *. subst. by rewrite app_nil_r. }
  destruct Hp as [Hp Hm]. destruct (Z.ltb_spec now (wake_time w)) as [Hlt|Hle].
  - destruct (due_none now (SLEEP_WAKE_QUEUE s)) as [E1 E2]; [intros v Hv; specialize (Hm _ Hv); lia|].
    exists []. rewrite E1, E2. split_conj; [done|constructor|]. exists (SLEEP_WAKE_QUEUE s). split; [done|].
    cbn. rewrite app_nil_r. by destruct s.
  - assert (length (pop (SLEEP_WAKE_QUEUE s)) < fuel)%nat as Hlen by (rewrite Hp in Hf; cbn in Hf; lia).
    set (s1 := mkState _ _ _ _). destruct (IH s1 Hlen) as (l & Hl & Hs & q & Hq & ->). subst s1. cbn in *.
    exists (w :: l). unfold due, later in *. split_conj.
    + rewrite Hp. rewrite filter_cons_True by done. by constructor.
    + constructor; [done|]. apply Forall_forall. intros v Hv. apply Hm. rewrite Hp. right.
      rewrite Hl, list_elem_of_filter in Hv. by destruct Hv.
    + exists q. split; [rewrite Hp, filter_cons_False by lia; done|]. by rewrite <- app_assoc.
Qed.

(** The clock interrupt advances the time and wakes exactly the sleepers
    whose time has come, each once and the earliest first, marks their futures
    as ready and keeps the others; it always comes to its end. *)
Theorem tick_wakes_due elapsed s :
  let now := wrap 64 (SYSTEM_INSTANT s + elapsed) in
  exists l q,
    l ≡ₚ due now (SLEEP_WAKE_QUEUE s) /\ q ≡ₚ later now (SLEEP_WAKE_QUEUE s) /\
    StronglySorted (fun v w => wake_time v <= wake_time w) l /\
    tick elapsed s = (Ok tt, mkState now q (set_woken (flags s) (sleeper <$> l)) (woken s ++ (sleeper <$> l))).
Proof.
  intros now. unfold tick. fold now.
  destruct (wake_due_spec now (S (length (SLEEP_WAKE_QUEUE s))) (mkState now (SLEEP_WAKE_QUEUE s) (flags s) (woken s)))
    as (l & Hl & Hs & q & Hq & ->); [cbn; lia|].
  exists l, q. done.
Qed.

End Sleep.
