(* ===== verification/Idt.v ===== *)
(** * Descriptor tables and the table of system calls (kernel/src/trap/idt.rs, trap/tss.rs, trap/soft.rs, trap/hard.rs, syscall/mod.rs)

    The entries of the interrupt descriptor table and the functions that build
    them, the table that [init] leaves, the descriptor of the task segment, the
    search in the sorted table of system calls. What the processor reads out of
    a descriptor is written beside it ([gate_*], [descriptor_*]). *)
From stdpp Require Import sorting.
From S2P Require Import Prelude.

(** ** Entries *)

Record IDTEntry : Type := mkIDTEntry {
  function_pointer_lower : Z;
  gdt_selector : Z;
  options : Z;
  function_pointer_middle : Z;
  function_pointer_high : Z;
  reserved : Z
}.

(** [IDTEntry::new] *)
Definition entry_new : IDTEntry := mkIDTEntry 0 0x18 0xF00 0 0 0.

Definition set_function_pointer (fp : Z) (e : IDTEntry) : IDTEntry :=
  mkIDTEntry (Z.land fp 0xffff) (gdt_selector e) (options e)
    (Z.land (Z.shiftr fp 16) 0xffff) (Z.land (Z.shiftr fp 32) 0xffff_ffff) (reserved e).

Definition set_options (o : Z) (e : IDTEntry) : IDTEntry :=
  mkIDTEntry (function_pointer_lower e) (gdt_selector e) o
    (function_pointer_middle e) (function_pointer_high e) (reserved e).

Definition disable_interrupt (e : IDTEntry) : IDTEntry := set_options (Z.lor (options e) 0x0100) e.
Definition enable (e : IDTEntry) : IDTEntry := set_options (Z.lor (options e) 0x8000) e.
Definition enable_user_trigger (e : IDTEntry) : IDTEntry := set_options (Z.lor (options e) 0x6000) e.

(** The assertion fails with [None]. *)
Definition set_stack_index (index : Z) (e : IDTEntry) : option IDTEntry :=
  if index <? 8 then Some (set_options (Z.lor (Z.land (options e) 0xFFF8) index) e) else None.

(** What the processor makes of an entry. *)
Definition gate_offset (e : IDTEntry) : Z :=
  Z.lor (function_pointer_lower e)
    (Z.lor (Z.shiftl (function_pointer_middle e) 16) (Z.shiftl (function_pointer_high e) 32)).
Definition gate_present (e : IDTEntry) : bool := Z.testbit (options e) 15.
Definition gate_dpl (e : IDTEntry) : Z := Z.land (Z.shiftr (options e) 13) 3.
Definition gate_ist (e : IDTEntry) : Z := Z.land (options e) 7.
(** An interrupt gate (type 14) clears the interrupt flag, a trap gate (type
    15) leaves it. *)
Definition gate_type (e : IDTEntry) : Z := Z.land (Z.shiftr (options e) 8) 31.
Definition gate_clears_if (e : IDTEntry) : bool := negb (Z.testbit (options e) 8).

(** ** The table *)

(** The functions of soft.rs and hard.rs. *)
Inductive Handler : Type :=
  | divide_by_zero | breakpoint | invalid_opcode | double_fault | invalid_tss
  | segment_not_present | stack_segment_fault | general_protection | page_fault
  | alignment_check | timer_irq | keyboard_irq | primary_ide_irq.

(** Those declared [with_error_code]. *)
Definition with_error_code (h : Handler) : bool :=
  match h with
  | double_fault | invalid_tss | segment_not_present | stack_segment_fault
  | general_protection | page_fault | alignment_check => true
  | _ => false
  end.

Definition INDEX_DIVIDE_ERROR : nat := 0x00.
Definition INDEX_BREAKPOINT : nat := 0x03.
Definition INDEX_INVALID_OPCODE : nat := 0x06.
Definition INDEX_DOUBLE_FAULT : nat := 0x08.
Definition INDEX_INVALID_TSS : nat := 0x0A.
Definition INDEX_SEGMENT_NOT_PRESENT : nat := 0x0B.
Definition INDEX_STACK_SEGMENT_FAULT : nat := 0x0C.
Definition INDEX_GENERAL_PROTECTION : nat := 0x0D.
Definition INDEX_PAGE_FAULT : nat := 0x0E.
Definition INDEX_ALIGNMENT_CHECK : nat := 0x11.
Definition INDEX_USER_DEFINED : nat := 0x20.
Definition INDEX_TIMER : nat := INDEX_USER_DEFINED.
Definition INDEX_KEYBOARD : nat := INDEX_USER_DEFINED + 1.
Definition INDEX_IDE1 : nat := INDEX_USER_DEFINED + 14.

Definition DF_IST : Z := 1.

(** [Idt::new] *)
Definition Idt_new : list IDTEntry := replicate 256 entry_new.

(** The stack index of the double fault is below eight, so its assertion holds. *)
Definition set_df_stack (e : IDTEntry) : IDTEntry := default e (set_stack_index DF_IST e).

(** [init], [addr] being the addresses of the functions. *)
Definition init (addr : Handler -> Z) : list IDTEntry :=
  let set (i : nat) (h : Handler) (more : IDTEntry -> IDTEntry) (t : list IDTEntry) :=
    alter (fun e => enable (more (disable_interrupt (set_function_pointer (addr h) e)))) i t in
  let t := Idt_new in
  let t := set INDEX_DIVIDE_ERROR divide_by_zero id t in
  let t := set INDEX_BREAKPOINT breakpoint enable_user_trigger t in
  let t := set INDEX_INVALID_OPCODE invalid_opcode id t in
  let t := set INDEX_DOUBLE_FAULT double_fault set_df_stack t in
  let t := set INDEX_INVALID_TSS invalid_tss id t in
  let t := set INDEX_SEGMENT_NOT_PRESENT segment_not_present id t in
  let t := set INDEX_STACK_SEGMENT_FAULT stack_segment_fault id t in
  let t := set INDEX_GENERAL_PROTECTION general_protection id t in
  let t := set INDEX_PAGE_FAULT page_fault id t in
  let t := set INDEX_ALIGNMENT_CHECK alignment_check id t in
  let t := set INDEX_TIMER timer_irq id t in
  let t := set INDEX_KEYBOARD keyboard_irq id t in
  let t := set INDEX_IDE1 primary_ide_irq id t in
  t.

(** ** The task segment *)

Record TaskStateSegment : Type := mkTss { rsp0 : Z; ist : list Z; iopb : Z }.

Definition TSS_SIZE : Z := 0x68.

(** [TaskStateSegment::null] *)
Definition tss_null : TaskStateSegment := mkTss 0 (replicate 7 0) 0.

(** [tss::init]: the segment and the two words of its descriptor. *)
Definition tss_init (ist_stack : Z) (t : TaskStateSegment) : TaskStateSegment :=
  mkTss (rsp0 t) (<[Z.to_nat (DF_IST - 1) := ist_stack + 4096]> (ist t)) TSS_SIZE.

Definition gdt5 (tss_addr : Z) : Z :=
  let tss_limit := TSS_SIZE - 1 in
  Z.lor (Z.lor (Z.lor (Z.lor (Z.land tss_limit 0xFFFF)
    (Z.shiftl (Z.land tss_addr 0xFFFFFF) 16))
    (Z.shiftl 0x89 40))
    (Z.shiftl (Z.land tss_limit 0xF0000) 32))
    (Z.shiftl (Z.land (Z.shiftr tss_addr 24) 0xFF) 56).
Definition gdt6 (tss_addr : Z) : Z := Z.shiftr tss_addr 32.

Definition set_rsp0 (rsp : Z) (t : TaskStateSegment) : TaskStateSegment := mkTss rsp (ist t) (iopb t).

(** What the processor reads out of the two words of a system descriptor. *)
Definition bits (lo n x : Z) : Z := Z.land (Z.shiftr x lo) (Z.ones n).
Definition descriptor_base (lo hi : Z) : Z :=
  Z.lor (bits 16 24 lo) (Z.lor (Z.shiftl (bits 56 8 lo) 24) (Z.shiftl (bits 0 32 hi) 32)).
Definition descriptor_limit (lo : Z) : Z := Z.lor (bits 0 16 lo) (Z.shiftl (bits 48 4 lo) 16).
Definition descriptor_access (lo : Z) : Z := bits 40 8 lo.

(** ** System calls *)

(** The functions of syscall/multitask.rs, memory.rs, file.rs and debug.rs. *)
Inductive Syscall : Type :=
  | exit_process | exit_thread | current_thread | wait_thread | wake_thread | kill_thread
  | create_thread | join_thread | sleep_thread | alloc_page | free_page | current_process
  | create_process | kill_process | wait_process | file_create | file_open | file_read
  | file_write | file_get_pos | file_set_pos | file_close | syscall_test | get_char | put_char.

Definition SYSCALL_HANDLER : list (Z * Syscall) :=
  [(0x100001, exit_process); (0x100002, exit_thread);
   (0x200001, current_thread); (0x200002, wait_thread); (0x200003, wake_thread);
   (0x200004, kill_thread); (0x200005, create_thread); (0x200006, join_thread); (0x200007, sleep_thread);
   (0x300001, alloc_page); (0x300002, free_page);
   (0x400001, current_process); (0x400002, create_process); (0x400003, kill_process); (0x400004, wait_process);
   (0x500001, file_create); (0x500002, file_open); (0x500003, file_read); (0x500004, file_write);
   (0x500005, file_get_pos); (0x500006, file_set_pos); (0x500007, file_close);
   (0x1F00001, syscall_test); (0x1F00002, get_char); (0x1F00003, put_char)].

(** The loop of [<[T]>::binary_search_by]; the length is enough fuel, since
    [size] falls in every round. *)
Fixpoint binary_search_loop {A} (fuel : nat) (key : A -> Z) (l : list A) (id : Z) (base size : nat) : nat :=
  match fuel with
  | O => base
  | S fuel =>
      if decide (size <= 1)%nat then base
      else
        let half := (size / 2)%nat in
        let mid := (base + half)%nat in
        let base :=
          match l !! mid with
          | Some x => if id <? key x then base else mid
          | None => base
          end in
        binary_search_loop fuel key l id base (size - half)
  end.

Definition binary_search {A} (key : A -> Z) (l : list A) (id : Z) : option nat :=
  match l with
  | [] => None
  | _ =>
      let i := binary_search_loop (length l) key l id 0 (length l) in
      x ← l !! i;
      if key x =? id then Some i else None
  end.

(** [query_syscall_handler] *)
Definition query_syscall_handler (addr : Syscall -> Z) (id : Z) : Z :=
  match binary_search fst SYSCALL_HANDLER id with
  | Some i => match SYSCALL_HANDLER !! i with Some (_, h) => addr h | None => 0 end
  | None => 0
  end.

(** ** Lemmas and theorems *)

Lemma lor_shiftl_add x y n : 0 <= x < 2 ^ n -> 0 <= n -> Z.lor x (Z.shiftl y n) = x + y * 2 ^ n.
Proof.
  intros Hx Hn. rewrite <- Z.shiftl_mul_pow2, <- Z.add_lor_land by lia.
  enough (Z.land x (Z.shiftl y n) = 0) by lia. apply Z.bits_inj'. intros k Hk.
  rewrite Z.land_spec, Z.bits_0, Z.shiftl_spec by lia.
  destruct (decide (k < n)) as [Hlt|Hge].
  - rewrite (Z.testbit_neg_r y) by lia. apply andb_false_r.
  - rewrite (testbit_above x n k) by lia. done.
Qed.

Lemma set_function_pointer_offset fp e :
  0 <= fp < 2 ^ 64 -> gate_offset (set_function_pointer fp e) = fp.
Proof.
  intros Hfp. unfold gate_offset, set_function_pointer.
  cbn [function_pointer_lower function_pointer_middle function_pointer_high].
  change 0xffff with (Z.ones 16). change 0xffff_ffff with (Z.ones 32).
  rewrite !Z.land_ones, !Z.shiftr_div_pow2 by lia.
  rewrite Z.lor_assoc, (lor_shiftl_add _ _ 16), (lor_shiftl_add _ _ 32) by lia. lia.
Qed.

Lemma gdt5_value a :
  gdt5 a = 0x67 + (a `mod` 2 ^ 24) * 2 ^ 16 + 0x89 * 2 ^ 40 + ((a / 2 ^ 24) `mod` 2 ^ 8) * 2 ^ 56.
Proof.
  unfold gdt5. change 0xFFFFFF with (Z.ones 24). change 0xFF with (Z.ones 8).
  rewrite !Z.land_ones, Z.shiftr_div_pow2 by lia.
  change (Z.land (TSS_SIZE - 1) 0xFFFF) with 0x67. change (Z.shiftl (Z.land (TSS_SIZE - 1) 0xF0000) 32) with 0.
  rewrite Z.lor_0_r. rewrite (lor_shiftl_add 0x67 _ 16), (lor_shiftl_add _ 0x89 40), (lor_shiftl_add _ _ 56) by lia.
  done.
Qed.

(** The descriptor that [tss::init] writes is read back by the processor as a
    present, available task segment at the address of the segment, of its
    size. *)
Theorem tss_descriptor_roundtrip a :
  0 <= a < 2 ^ 64 ->
  descriptor_base (gdt5 a) (gdt6 a) = a /\
  descriptor_limit (gdt5 a) = TSS_SIZE - 1 /\
  descriptor_access (gdt5 a) = 0x89.
Proof.
  intros Ha. rewrite gdt5_value. unfold descriptor_base, descriptor_limit, descriptor_access, gdt6, bits.
  rewrite !Z.land_ones, !Z.shiftr_div_pow2 by lia.
  rewrite Z.lor_assoc, (lor_shiftl_add _ _ 24), (lor_shiftl_add _ _ 32), (lor_shiftl_add _ _ 16) by lia.
  unfold TSS_SIZE. split_and!; lia.
Qed.

(** *** The table *)

Definition installed : list (nat * Handler) :=
  [(INDEX_DIVIDE_ERROR, divide_by_zero); (INDEX_BREAKPOINT, breakpoint); (INDEX_INVALID_OPCODE, invalid_opcode);
   (INDEX_DOUBLE_FAULT, double_fault); (INDEX_INVALID_TSS, invalid_tss);
   (INDEX_SEGMENT_NOT_PRESENT, segment_not_present); (INDEX_STACK_SEGMENT_FAULT, stack_segment_fault);
   (INDEX_GENERAL_PROTECTION, general_protection); (INDEX_PAGE_FAULT, page_fault);
   (INDEX_ALIGNMENT_CHECK, alignment_check); (INDEX_TIMER, timer_irq); (INDEX_KEYBOARD, keyboard_irq);
   (INDEX_IDE1, primary_ide_irq)].

(** The exceptions for which the processor pushes an error code. *)
Definition pushes_error_code (v : nat) : bool := bool_decide (v ∈ [8; 10; 11; 12; 13; 14; 17; 21; 29; 30]%nat).

Lemma init_installed addr :
  Forall (fun '(v, h) => exists e, init addr !! v = Some e /\ gate_present e = true /\ gdt_selector e = 0x18 /\
    e = set_options (options e) (set_function_pointer (addr h) entry_new) /\
    gate_dpl e = (if decide (v = INDEX_BREAKPOINT) then 3 else 0) /\
    gate_ist e = (if decide (v = INDEX_DOUBLE_FAULT) then DF_IST else 0) /\
    gate_type e = 15 /\ with_error_code h = pushes_error_code v) installed.
Proof. unfold installed. repeat constructor; eexists; split_and!; reflexivity. Qed.

Lemma init_other addr v :
  (v < 256)%nat -> v ∉ installed.*1 -> init addr !! v = Some entry_new.
Proof.
  intros Hv Hn. unfold init. cbn zeta.
  rewrite !list_lookup_alter_ne by (intros <-; apply Hn; repeat constructor).
  unfold Idt_new. by apply lookup_replicate_2.
Qed.

(** [init] installs the handlers at their vectors and nothing else: every
    installed gate is present, leads to its handler in the kernel's code
    segment, can be raised by a program only for the breakpoint and switches to
    the interrupt stack only for the double fault. *)
Theorem idt_init_gates addr v e :
  (forall h, 0 <= addr h < 2 ^ 64) ->
  init addr !! v = Some e -> gate_present e = true ->
  exists h, (v, h) ∈ installed /\ gate_offset e = addr h /\ gdt_selector e = 0x18 /\
    gate_dpl e = (if decide (v = INDEX_BREAKPOINT) then 3 else 0) /\
    gate_ist e = (if decide (v = INDEX_DOUBLE_FAULT) then DF_IST else 0).
Proof.
  intros Haddr He Hp. destruct (decide (v ∈ installed.*1)) as [Hin|Hn].
  - apply list_elem_of_fmap in Hin as ([v' h] & -> & Hin). exists h. cbn [fst] in *.
    pose proof (proj1 (Forall_forall _ _) (init_installed addr) _ Hin) as (e' & He' & _ & Hs & Ho & Hd & Hi & _).
    assert (e' = e) as -> by congruence. split_and!; [done| |done..].
    rewrite Ho. apply (set_function_pointer_offset (addr h) entry_new), Haddr.
  - rewrite init_other in He; [by simplify_eq| |done].
    apply lookup_lt_Some in He. unfold init in He. cbn zeta in He.
    rewrite !length_alter in He. exact He.
Qed.

Section entries.

Inductive built : IDTEntry -> Prop :=
  | built_new : built entry_new
  | built_pointer fp e : built e -> built (set_function_pointer fp e)
  | built_disable e : built e -> built (disable_interrupt e)
  | built_enable e : built e -> built (enable e)
  | built_user e : built e -> built (enable_user_trigger e)
  | built_stack i e e' : 0 <= i -> built e -> set_stack_index i e = Some e' -> built e'.

(** However an entry is built, and whether or not [disable_interrupt] is
    called, interrupts stay enabled in its handler. *)
Lemma built_gate e : built e -> gate_clears_if e = false /\ gdt_selector e = 0x18.
Proof.
  induction 1 as [|fp e H [IH Hs]|e H [IH Hs]|e H [IH Hs]|e H [IH Hs]|i e e' Hi H [IH Hs] He];
    unfold gate_clears_if in *; cbn -[Z.testbit] in *; try done; rewrite ?Z.lor_spec;
    try (destruct (Z.testbit (options e) 8); done).
  unfold set_stack_index in He. case_match; simplify_eq. cbn -[Z.testbit].
  rewrite Z.lor_spec, Z.land_spec. destruct (Z.testbit (options e) 8); done.
Qed.

End entries.

(** *** The search *)

Section search.
  Context {A : Type} (key : A -> Z) (l : list A) (id : Z).
  Hypothesis Hsorted : forall i j x y, (i < j)%nat -> l !! i = Some x -> l !! j = Some y -> key x < key y.

Lemma binary_search_loop_spec fuel base size :
  (size <= fuel)%nat -> (1 <= size)%nat -> (base + size <= length l)%nat ->
  (forall j y, (base + size <= j)%nat -> l !! j = Some y -> id < key y) ->
  (base = 0%nat \/ exists x, l !! base = Some x /\ key x <= id) ->
  let i := binary_search_loop fuel key l id base size in
  (i < length l)%nat /\ (forall j y, (i < j)%nat -> l !! j = Some y -> id < key y) /\
  (i = 0%nat \/ exists x, l !! i = Some x /\ key x <= id).
Proof.
  revert base size. induction fuel as [|fuel IH]; intros base size Hf Hs Hlen Hhi Hlo; cbn -[Nat.div]; [lia|].
  destruct (decide (size <= 1)%nat) as [Hle|Hgt].
  { split; [lia|]. split; [|done]. intros j y Hj. apply Hhi. lia. }
  pose proof (Nat.div_lt size 2 ltac:(lia) ltac:(lia)). pose proof (Nat.Div0.mul_div_le size 2).
  assert (1 <= size / 2)%nat by (apply Nat.div_le_lower_bound; lia).
  destruct (lookup_lt_is_Some_2 l (base + size / 2)) as [m Hm]; [lia|]. rewrite Hm.
  destruct (Z.ltb_spec id (key m)) as [Hlt|Hge].
  - apply IH; [lia..| |done]. intros j y Hj Hy. destruct (decide (base + size / 2 = j)%nat) as [Hjm|Hne]; [congruence|].
    assert (key m < key y) by (eapply (Hsorted (base + size / 2) j); [|done..]; lia). lia.
  - apply IH; [lia..| |right; eauto]. intros j y Hj. apply Hhi. lia.
Qed.

Lemma binary_search_spec :
  match binary_search key l id with
  | Some i => exists x, l !! i = Some x /\ key x = id
  | None => forall i x, l !! i = Some x -> key x <> id
  end.
Proof.
  unfold binary_search. destruct (decide (length l = 0)%nat) as [Hnil|Hne].
  { destruct l; [|done]. intros i x. by rewrite lookup_nil. }
  pose proof (binary_search_loop_spec (length l) 0 (length l) ltac:(lia) ltac:(lia) ltac:(lia)) as Hloop.
  destruct Hloop as (Hlt & Hhi & Hlo); [intros j y Hj Hy%lookup_lt_Some; lia|by left|].
  set (i := binary_search_loop _ _ _ _ _ _) in *. clearbody i.
  destruct (lookup_lt_is_Some_2 l i Hlt) as [x Hx].
  destruct l as [|a l'] eqn:El; [done|]. rewrite <- El in *. clear El. rewrite Hx. cbn.
  destruct (Z.eqb_spec (key x) id) as [He|He]; [eauto|]. intros j y Hy Heq.
  destruct (Nat.lt_total i j) as [Hij|[->|Hij]].
  - specialize (Hhi _ _ Hij Hy). lia.
  - by simplify_eq.
  - pose proof (Hsorted _ _ _ _ Hij Hy Hx). destruct Hlo as [->|(x' & Hx' & Hle)]; [lia|].
    simplify_eq. lia.
Qed.

End search.

Lemma SYSCALL_HANDLER_sorted i j x y :
  (i < j)%nat -> SYSCALL_HANDLER !! i = Some x -> SYSCALL_HANDLER !! j = Some y -> x.1 < y.1.
Proof.
  intros Hij Hx Hy. assert (StronglySorted Z.lt SYSCALL_HANDLER.*1) as Hs.
  { unfold SYSCALL_HANDLER. cbn. repeat constructor. }
  rewrite <- (take_drop j SYSCALL_HANDLER), fmap_app in Hs.
  refine (StronglySorted_app_1_elem_of _ _ _ _ _ Hs _ _).
  - apply list_elem_of_fmap. exists x. split; [done|]. apply (list_elem_of_lookup_2 _ i).
    by rewrite lookup_take_lt.
  - apply list_elem_of_fmap. exists y. split; [done|]. apply (list_elem_of_lookup_2 _ 0).
    by rewrite lookup_drop, Nat.add_0_r.
Qed.

(** The search for the handler of a system call finds it exactly for the
    numbers of the table. *)
Theorem query_syscall_handler_correct addr id :
  (forall h, (id, h) ∈ SYSCALL_HANDLER -> query_syscall_handler addr id = addr h) /\
  (id ∉ SYSCALL_HANDLER.*1 -> query_syscall_handler addr id = 0).
Proof.
  pose proof (binary_search_spec fst SYSCALL_HANDLER id SYSCALL_HANDLER_sorted) as Hs.
  unfold query_syscall_handler. destruct (binary_search _ _ _) as [i|].
  - destruct Hs as ([k h] & Hi & Hk). cbn in Hk. subst k. rewrite Hi. split.
    + intros h' [j Hj]%list_elem_of_lookup.
      destruct (Nat.lt_total i j) as [Hij|[->|Hij]]; [|congruence|].
      all: eapply SYSCALL_HANDLER_sorted in Hij; [|eassumption..]; cbn in Hij; lia.
    + intros Hn. destruct Hn. apply list_elem_of_fmap. exists (id, h). split; [done|].
      by eapply list_elem_of_lookup_2.
  - split; [|done]. intros h [j Hj]%list_elem_of_lookup. by destruct (Hs _ _ Hj).
Qed.
