(* ===== verification/Irq.v ===== *)
(** * Interrupt controllers and handlers (kernel/src/trap/hard.rs, trap/soft.rs)

    The programming of the two 8259 controllers, the end of an interrupt, and
    what the handlers of exceptions do with the program that raised one. The
    controllers are a machine that takes the bytes the kernel writes to their
    ports. *)
From S2P Require Import Prelude Idt.

(** ** The controllers *)

(** An 8259: the command words still expected, and what they have set. The bits
    of [imr] mask lines, those of [isr] are the lines in service. *)
Record Pic : Type := mkPic {
  icw : nat;
  vector_offset : Z;
  cascade : Z;
  mode : Z;
  imr : Z;
  isr : Z
}.

Record Pics : Type := mkPics { master : Pic; slave : Pic }.

Definition PIC1_COMMAND : Z := 0x20.
Definition PIC2_COMMAND : Z := 0xA0.
Definition PIC1_DATA : Z := 0x21.
Definition PIC2_DATA : Z := 0xA1.

(** The lowest line in service has the highest priority. *)
Fixpoint lowest_from (n : nat) (i x : Z) : option Z :=
  match n with
  | O => None
  | S n => if Z.testbit x i then Some i else lowest_from n (i + 1) x
  end.
Definition lowest (x : Z) : option Z := lowest_from 8 0 x.

(** A byte to the command port: the first initialisation word, or the end of
    the interrupt of highest priority. *)
Definition pic_command (x : Z) (p : Pic) : Pic :=
  if Z.testbit x 4 then mkPic 1 (vector_offset p) (cascade p) (mode p) 0 0
  else if Z.land x 0xE0 =? 0x20 then
    mkPic (icw p) (vector_offset p) (cascade p) (mode p) (imr p)
      (match lowest (isr p) with Some i => Z.clearbit (isr p) i | None => isr p end)
  else p.

(** A byte to the data port: the next initialisation word, or the mask. *)
Definition pic_data (x : Z) (p : Pic) : Pic :=
  match icw p with
  | 1%nat => mkPic 2 (Z.land x 0xF8) (cascade p) (mode p) (imr p) (isr p)
  | 2%nat => mkPic 3 (vector_offset p) x (mode p) (imr p) (isr p)
  | 3%nat => mkPic 0 (vector_offset p) (cascade p) x (imr p) (isr p)
  | _ => mkPic (icw p) (vector_offset p) (cascade p) (mode p) x (isr p)
  end.

(** [out dx, al] *)
Definition outb (port x : Z) (s : Pics) : Pics :=
  if port =? PIC1_COMMAND then mkPics (pic_command x (master s)) (slave s)
  else if port =? PIC2_COMMAND then mkPics (master s) (pic_command x (slave s))
  else if port =? PIC1_DATA then mkPics (pic_data x (master s)) (slave s)
  else if port =? PIC2_DATA then mkPics (master s) (pic_data x (slave s))
  else s.

(** [hard::init] *)
Definition pic_init (s : Pics) : Pics :=
  let s := outb PIC1_COMMAND 0x11 s in
  let s := outb PIC2_COMMAND 0x11 s in
  let s := outb PIC1_DATA 32 s in
  let s := outb PIC2_DATA 40 s in
  let s := outb PIC1_DATA 0x04 s in
  let s := outb PIC2_DATA 0x02 s in
  let s := outb PIC1_DATA 0x01 s in
  let s := outb PIC2_DATA 0x01 s in
  let s := outb PIC1_DATA 0xF8 s in
  outb PIC2_DATA 0xBF s.

Definition send_eoi (irq : Z) (s : Pics) : Pics :=
  let s := if 8 <=? irq then outb PIC2_COMMAND 0x20 s else s in
  outb PIC1_COMMAND 0x20 s.

(** The vector the processor gets for a line. *)
Definition irq_vector (irq : Z) (s : Pics) : Z :=
  if irq <? 8 then vector_offset (master s) + irq else vector_offset (slave s) + (irq - 8).

Definition irq_enabled (irq : Z) (s : Pics) : bool :=
  if irq <? 8 then negb (Z.testbit (imr (master s)) irq)
  else negb (Z.testbit (imr (slave s)) (irq - 8)) && negb (Z.testbit (imr (master s)) 2).

(** Taking a line into service marks it, and the line of the cascade with it. *)
Definition acknowledge (irq : Z) (s : Pics) : Pics :=
  let set i p := mkPic (icw p) (vector_offset p) (cascade p) (mode p) (imr p) (Z.setbit (isr p) i) in
  if irq <? 8 then mkPics (set irq (master s)) (slave s)
  else mkPics (set 2 (master s)) (set (irq - 8) (slave s)).

(** ** Exceptions *)

(** How the body of a handler ends: the thread is killed and yields for good,
    the kernel panics, or the handler returns. *)
Inductive Action : Type := KillThread | KernelPanic | Return.

Definition user_kill_self (cs : Z) : option Action :=
  if Z.land cs 3 =? 3 then Some KillThread else None.

(** The bodies of soft.rs; those of hard.rs return. *)
Definition soft_body (h : Handler) (cs : Z) : Action :=
  match h with
  | divide_by_zero | invalid_opcode | general_protection | page_fault | alignment_check =>
      default KernelPanic (user_kill_self cs)
  | breakpoint => Return
  | double_fault | invalid_tss | segment_not_present | stack_segment_fault => KernelPanic
  | timer_irq | keyboard_irq | primary_ide_irq => Return
  end.

(** The handler that [idt::init] installs for a vector. *)
Definition handler_at (v : nat) : option Handler :=
  snd <$> head (filter (fun p => p.1 = v) installed).

(** The processor raises an exception; an absent gate raises the exception for
    that. *)
Definition raise (v : nat) (cs : Z) : Action :=
  match handler_at v with
  | Some h => soft_body h cs
  | None => soft_body segment_not_present cs
  end.

(** ** Theorems *)

Lemma handler_at_installed v h : handler_at v = Some h -> (v, h) ∈ installed.
Proof.
  unfold handler_at. destruct (head _) as [[v' h']|] eqn:E; cbn; [|done]. intros [= ->].
  apply head_Some_elem_of in E. apply list_elem_of_filter in E as [<- Hin]. done.
Qed.

(** What becomes of a program that raises an exception: the thread is killed
    for five of them, the breakpoint returns, and for every other one the kernel
    panics. A stack fault, or a single step, which has no gate, is raised by a
    program at will. *)
Theorem user_exception_actions v :
  (v < 32)%nat ->
  raise v 0x43 =
    if decide (v ∈ [INDEX_DIVIDE_ERROR; INDEX_INVALID_OPCODE; INDEX_GENERAL_PROTECTION; INDEX_PAGE_FAULT;
      INDEX_ALIGNMENT_CHECK]) then KillThread
    else if decide (v = INDEX_BREAKPOINT) then Return else KernelPanic.
Proof. intros Hv. do 32 (destruct v as [|v]; [reflexivity|]). lia. Qed.

(** The controllers after [hard::init], whatever state they were in: the lines
    of both have the vectors from 32 on, and of those enabled each but that of
    the cascade has its handler in the table. *)
Theorem pic_init_vectors s irq :
  0 <= irq < 16 ->
  irq_vector irq (pic_init s) = 32 + irq /\
  irq_enabled irq (pic_init s) = bool_decide (irq ∈ [0; 1; 2; 14]) /\
  (irq_enabled irq (pic_init s) = true -> irq <> 2 -> is_Some (handler_at (Z.to_nat (irq_vector irq (pic_init s))))).
Proof.
  intros Hirq. assert (irq_vector irq (pic_init s) = 32 + irq) as Hv.
  { unfold irq_vector. change (vector_offset (master (pic_init s))) with 32.
    change (vector_offset (slave (pic_init s))) with 40. destruct (Z.ltb_spec irq 8); lia. }
  assert (irq ∈ [0; 1; 2; 3; 4; 5; 6; 7; 8; 9; 10; 11; 12; 13; 14; 15]) as Hin.
  { assert (irq = 0 \/ irq = 1 \/ irq = 2 \/ irq = 3 \/ irq = 4 \/ irq = 5 \/ irq = 6 \/ irq = 7 \/ irq = 8 \/
      irq = 9 \/ irq = 10 \/ irq = 11 \/ irq = 12 \/ irq = 13 \/ irq = 14 \/ irq = 15) as H by lia.
    rewrite !elem_of_cons. tauto. }
  rewrite Hv. split; [done|]. clear Hv Hirq. revert irq Hin. apply Forall_forall.
  repeat constructor; intros; try done; eexists; reflexivity.
Qed.

Lemma lowest_from_spec n i x k :
  i <= k < i + Z.of_nat n -> (forall j, i <= j < k -> Z.testbit x j = false) -> Z.testbit x k = true ->
  lowest_from n i x = Some k.
Proof.
  revert i. induction n as [|n IH]; intros i Hk Hlow Hx; cbn; [lia|].
  destruct (decide (i = k)) as [->|Hne]; [by rewrite Hx|].
  rewrite Hlow by lia. apply IH; [lia| |done]. intros j Hj. apply Hlow. lia.
Qed.

Lemma end_of_interrupt i p :
  0 <= i < 8 -> (forall j, 0 <= j <= i -> Z.testbit (isr p) j = false) ->
  pic_command 0x20 (mkPic (icw p) (vector_offset p) (cascade p) (mode p) (imr p) (Z.setbit (isr p) i)) = p.
Proof.
  intros Hi Hlow. unfold pic_command. cbn -[Z.clearbit Z.setbit lowest]. unfold lowest.
  rewrite (lowest_from_spec 8 0 _ i); [|lia| |by apply Z.setbit_eq; lia].
  - assert (Z.clearbit (Z.setbit (isr p) i) i = isr p) as ->; [|by destruct p].
    apply Z.bits_inj'. intros n Hn. rewrite Z.clearbit_eqb. destruct (Z.eqb_spec i n) as [<-|Hne]; cbn.
    + rewrite andb_false_r. symmetry. apply Hlow. lia.
    + rewrite Z.setbit_neq by lia. by rewrite andb_true_r.
  - intros j Hj. rewrite Z.setbit_neq by lia. apply Hlow. lia.
Qed.

(** The end of an interrupt undoes its acknowledgement, on both controllers for
    a line of the second, when no line of at least its priority was in service. *)
Theorem send_eoi_acknowledge irq s :
  0 <= irq < 16 ->
  (forall j, 0 <= j <= (if irq <? 8 then irq else 2) -> Z.testbit (isr (master s)) j = false) ->
  (forall j, 0 <= j <= irq - 8 -> Z.testbit (isr (slave s)) j = false) ->
  send_eoi irq (acknowledge irq s) = s.
Proof.
  intros Hirq Hm Hs. unfold send_eoi, acknowledge, outb. cbn -[pic_command Z.setbit].
  destruct (Z.ltb_spec irq 8) as [Hlt|Hge].
  - rewrite (proj2 (Z.leb_gt 8 irq)) by lia. cbn -[pic_command Z.setbit].
    rewrite end_of_interrupt by (lia || done). by destruct s.
  - rewrite (proj2 (Z.leb_le 8 irq)) by lia. cbn -[pic_command Z.setbit].
    rewrite !end_of_interrupt by (lia || done). by destruct s.
Qed.
