(* ===== verification/Asm.v ===== *)
(** * Entering and leaving the kernel (kernel/src/trap/idt.rs, trap/syscall.rs, multitask/thread.rs, multitask/process.rs)

    The assembly of the kernel as lists of instructions with a small semantics:
    the stub around interrupt handlers, the entry of system calls, the switch
    of contexts, the first entry into user mode. Memory is words of eight bytes
    at addresses that are multiples of eight; every stack pointer here is one.
    Rust functions that the assembly calls are functions on the machine of
    which the calling convention is assumed. *)
From S2P Require Import Prelude Idt.

Inductive reg : Type :=
  | RAX | RBX | RCX | RDX | RSI | RDI | RBP | RSP
  | R8 | R9 | R10 | R11 | R12 | R13 | R14 | R15.

#[global] Instance reg_eq_dec : EqDecision reg.
Proof. solve_decision. Defined.

Definition reg_number (r : reg) : nat :=
  match r with
  | RAX => 0 | RCX => 1 | RDX => 2 | RBX => 3 | RSP => 4 | RBP => 5 | RSI => 6 | RDI => 7
  | R8 => 8 | R9 => 9 | R10 => 10 | R11 => 11 | R12 => 12 | R13 => 13 | R14 => 14 | R15 => 15
  end.
Definition reg_eqb (q r : reg) : bool := Nat.eqb (reg_number q) (reg_number r).
#[global] Arguments reg_eqb !q !r /.

Lemma reg_eqb_ne q r : q <> r -> reg_eqb q r = false.
Proof. intros Hne. destruct q, r; done. Qed.

Lemma reg_eqb_refl r : reg_eqb r r = true.
Proof. by destruct r. Qed.

(** [gs] is the base in use, [other_gs] the one that [swapgs] brings. *)
Record Cpu : Type := mkCpu {
  regs : reg -> Z;
  mem : Z -> Z;
  rip : Z;
  rflags : Z;
  cs : Z;
  ss : Z;
  gs : Z;
  other_gs : Z
}.

Definition set_reg (r : reg) (x : Z) (s : Cpu) : Cpu :=
  mkCpu (fun q => if reg_eqb q r then x else regs s q) (mem s) (rip s) (rflags s) (cs s) (ss s) (gs s) (other_gs s).
Definition set_mem (a x : Z) (s : Cpu) : Cpu :=
  mkCpu (regs s) (fun b => if decide (b = a) then x else mem s b) (rip s) (rflags s) (cs s) (ss s) (gs s) (other_gs s).
(** The interrupt flag. *)
Definition set_if (b : bool) (s : Cpu) : Cpu :=
  mkCpu (regs s) (mem s) (rip s) (if b then Z.lor (rflags s) 0x200 else Z.land (rflags s) (Z.lnot 0x200))
    (cs s) (ss s) (gs s) (other_gs s).
Definition swapgs (s : Cpu) : Cpu :=
  mkCpu (regs s) (mem s) (rip s) (rflags s) (cs s) (ss s) (other_gs s) (gs s).

Inductive instr : Type :=
  | Push (r : reg)
  | PushI (x : Z)
  | PushGs (off : Z)
  | Pop (r : reg)
  | PopGs (off : Z)
  | Mov (d r : reg)
  | MovI (d : reg) (x : Z)
  | Load (d base : reg) (off : Z)
  | LoadGs (d : reg) (off : Z)
  | StoreGs (off : Z) (r : reg)
  | Add (d : reg) (x : Z)
  | And (d : reg) (mask : Z)
  | Zero (d : reg)                      (** [xor d, d] *)
  | Swapgs
  | Cli
  | Sti
  | Call (f : Cpu -> Cpu)
  | Jmp (r : reg)
  | Iretq
  | Sysretq.

Definition push (x : Z) (s : Cpu) : Cpu :=
  set_mem (regs s RSP - 8) x (set_reg RSP (regs s RSP - 8) s).
Definition top (s : Cpu) : Z := mem s (regs s RSP).
Definition discard (s : Cpu) : Cpu := set_reg RSP (regs s RSP + 8) s.

(** The flags [sysretq] loads: reserved bits and those of virtual mode are fixed. *)
Definition sysret_flags (x : Z) : Z := Z.lor (Z.land x 0x3C7FD7) 2.

(** Flags other than those of control are not kept track of. *)
Definition exec1 (i : instr) (s : Cpu) : Cpu :=
  match i with
  | Push r => push (regs s r) s
  | PushI x => push x s
  | PushGs off => push (mem s (gs s + off)) s
  | Pop r => set_reg r (top s) (discard s)
  | PopGs off => set_mem (gs s + off) (top s) (discard s)
  | Mov d r => set_reg d (regs s r) s
  | MovI d x => set_reg d x s
  | Load d base off => set_reg d (mem s (regs s base + off)) s
  | LoadGs d off => set_reg d (mem s (gs s + off)) s
  | StoreGs off r => set_mem (gs s + off) (regs s r) s
  | Add d x => set_reg d (regs s d + x) s
  | And d mask => set_reg d (Z.land (regs s d) mask) s
  | Zero d => set_reg d 0 s
  | Swapgs => swapgs s
  | Cli => set_if false s
  | Sti => set_if true s
  | Call f => f s
  | Jmp r => mkCpu (regs s) (mem s) (regs s r) (rflags s) (cs s) (ss s) (gs s) (other_gs s)
  | Iretq =>
      let a := regs s RSP in
      mkCpu (fun q => if reg_eqb q RSP then mem s (a + 24) else regs s q) (mem s)
        (mem s a) (mem s (a + 16)) (mem s (a + 8)) (mem s (a + 32)) (gs s) (other_gs s)
  | Sysretq =>
      mkCpu (regs s) (mem s) (regs s RCX) (sysret_flags (regs s R11)) 0x43 0x3B (gs s) (other_gs s)
  end.

Fixpoint exec (l : list instr) (s : Cpu) : Cpu :=
  match l with
  | [] => s
  | i :: l => exec l (exec1 i s)
  end.

Lemma exec_app l k s : exec (l ++ k) s = exec k (exec l s).
Proof. revert s. induction l as [|i l IH]; intros s; cbn; [done|apply IH]. Qed.

(** ** Interrupts *)

(** The fields of [StackFrame], all of eight bytes. *)
Inductive field : Type :=
  | FReg (r : reg)
  | FErrorCode
  | FRip | FCs | FRflags | FRsp | FSs.

#[global] Instance field_eq_dec : EqDecision field.
Proof. solve_decision. Defined.

Definition general : list reg :=
  [R15; R14; R13; R12; R11; R10; R9; R8; RBP; RDI; RSI; RDX; RCX; RBX; RAX].

Definition StackFrame : list field := (FReg <$> general) ++ [FRip; FCs; FRflags; FRsp; FSs].
Definition StackFrameWithErrorCode : list field :=
  (FReg <$> general) ++ [FErrorCode; FRip; FCs; FRflags; FRsp; FSs].

(** A field of a [repr(C)] structure at an address. *)
Fixpoint field_at (layout : list field) (f : field) (a : Z) (m : Z -> Z) : Z :=
  match layout with
  | [] => 0
  | g :: layout => if decide (g = f) then m a else field_at layout f (a + 8) m
  end.

(** The processor takes an interrupt through a gate: on the stack that the gate
    names, else on that of the task segment when it comes from user mode. *)
Definition deliver (t : TaskStateSegment) (e : IDTEntry) (error : option Z) (s : Cpu) : Cpu :=
  let a :=
    if gate_ist e =? 0 then (if Z.land (cs s) 3 =? 3 then rsp0 t else regs s RSP)
    else ist t !!! Z.to_nat (gate_ist e - 1) in
  let s' := set_reg RSP (a - a `mod` 16) s in
  let s' := push (rip s) (push (cs s) (push (rflags s) (push (regs s RSP) (push (ss s) s')))) in
  let s' := match error with Some x => push x s' | None => s' end in
  let s' := if gate_clears_if e then set_if false s' else s' in
  mkCpu (regs s') (mem s') (gate_offset e) (rflags s') (gdt_selector e) 0 (gs s') (other_gs s').

Section interrupt.
  (** The body of a handler, given the address of the frame, and the call of
      [thread_boundry_check], which returns when the thread goes on. *)
  Context (body : Z -> Cpu -> Cpu) (thread_boundry_check : Cpu -> Cpu).

(** The function that [interrupt_handler!] wraps around the body. *)
Definition handler (layout : list field) (s : Cpu) : Cpu :=
  let stack := regs s RDI in
  let kernel_gs := field_at layout FCs stack (mem s) =? 0x18 in
  if kernel_gs then body stack s
  else swapgs (thread_boundry_check (body stack (swapgs s))).

(** The code of [interrupt_handler!]. *)
Definition save : list instr :=
  [Push RAX; Push RBX; Push RCX; Push RDX; Push RSI; Push RDI; Push RBP;
   Push R8; Push R9; Push R10; Push R11; Push R12; Push R13; Push R14; Push R15].
Definition restore : list instr :=
  [Pop R15; Pop R14; Pop R13; Pop R12; Pop R11; Pop R10; Pop R9;
   Pop R8; Pop RBP; Pop RDI; Pop RSI; Pop RDX; Pop RCX; Pop RBX; Pop RAX].

(** Up to the call of the handler. *)
Definition enter : list instr := save ++ [Mov RBP RSP; Mov RDI RSP; And RSP (Z.lnot 0xF)].

Definition interrupt_handler : list instr :=
  enter ++ [Call (handler StackFrame); Mov RSP RBP] ++ restore ++ [Iretq].

Definition interrupt_handler_with_error_code : list instr :=
  enter ++ [Call (handler StackFrameWithErrorCode); Mov RSP RBP] ++ restore ++ [Add RSP 8; Iretq].

End interrupt.

(** ** System calls *)

(** The instruction [syscall], with the registers that [syscall::init] sets:
    the segments of [IA32_STAR], interrupts masked by [IA32_FMASK]. *)
Definition syscall (next : Z) (s : Cpu) : Cpu :=
  let s' := set_if false (set_reg R11 (rflags s) (set_reg RCX next s)) in
  mkCpu (regs s') (mem s') (rip s') (rflags s') 0x18 0x20 (gs s') (other_gs s').

(** The offsets in [PerCpuStruct]. *)
Definition OFFSET_SYSCALL_STACK : Z := 8.
Definition OFFSET_SYSCALL_USER_STACK : Z := 16.

(** [ErrorKind::BadArgument] *)
Definition BAD_ARGUMENT : Z := 4.

Definition syscall_save : list instr :=
  [Swapgs; StoreGs OFFSET_SYSCALL_USER_STACK RSP; LoadGs RSP OFFSET_SYSCALL_STACK;
   Push RCX; Push R11; PushGs OFFSET_SYSCALL_USER_STACK; Push RBP; Mov RBP RSP; And RSP (Z.lnot 0xF); Sti].

Section syscall.
  (** The calls of [query_syscall_handler] and [boundry_check], and the
      functions at the addresses of the table. *)
  Context (query boundry_check : Cpu -> Cpu) (code : Z -> Cpu -> Cpu).

(** The arguments are kept on the stack while the table is searched. *)
Definition syscall_query : list instr :=
  [Push RDI; Push RSI; Push RDX; Push R10; Push R8; Push R9;
   Mov RDI RAX; Add RSP (-8); Mov RSI RSP; Call query;
   Pop RAX; Pop R9; Pop R8; Pop RCX; Pop RDX; Pop RSI; Pop RDI; Add RSP (-8)].

(** [cmp rax, 0], the two branches *)
Definition syscall_call (s : Cpu) : Cpu :=
  if regs s RAX =? 0 then exec1 (MovI RAX BAD_ARGUMENT) s else code (regs s RAX) s.

Definition syscall_check : list instr :=
  [Push RAX; Push RDI; Push RSI; Push RDX; Push RCX; Push R8; Push R9; Push R10; Push R11;
   Call boundry_check;
   Pop R11; Pop R10; Pop R9; Pop R8; Pop RCX; Pop RDX; Pop RSI; Pop RDI; Pop RAX].

Definition syscall_return : list instr :=
  [Cli; Mov RSP RBP; Pop RBP; PopGs OFFSET_SYSCALL_USER_STACK; Pop R11; Pop RCX;
   LoadGs RSP OFFSET_SYSCALL_USER_STACK; Swapgs; Sysretq].

Definition syscall_entry : list instr :=
  syscall_save ++ syscall_query ++ [Call syscall_call] ++ syscall_check ++ syscall_return.

End syscall.

(** ** Contexts *)

(** [Context], a [repr(C)] structure. *)
Record Context : Type := mkContext {
  c_r15 : Z; c_r14 : Z; c_r13 : Z; c_r12 : Z; c_rbp : Z; c_rbx : Z; c_rip : Z; c_rsp : Z
}.

Definition read_context (a : Z) (m : Z -> Z) : Context :=
  mkContext (m a) (m (a + 8)) (m (a + 16)) (m (a + 24)) (m (a + 32)) (m (a + 40)) (m (a + 48)) (m (a + 56)).

(** [call switch_thread_internal] up to the call of [deal_old_thread]. *)
Definition switch_thread_internal : list instr :=
  [Load RAX RSP 0; Push RSP; Push RDI; Push RSI; Load R11 RSP 16; Add R11 8; Push R11; Push RAX;
   Push RBX; Push RBP; Push R12; Push R13; Push R14; Push R15;
   Mov RDI RSP; Load RSI RSP 72; Mov RBP RSP; And RSP (Z.lnot 0xF)].

(** What follows that call, before the jump to [deal_new_thread]. *)
Definition switch_thread_internal_tail : list instr := [Load RDI RBP 64; Add RSP (-8)].

(** [switch_to_context]: the operands are in registers before the code. *)
Definition switch_to_context (c : Context) (s : Cpu) : Cpu :=
  exec [MovI R15 (c_r15 c); MovI R14 (c_r14 c); MovI R13 (c_r13 c); MovI R12 (c_r12 c);
    MovI R8 (c_rbp c); MovI R9 (c_rbx c); MovI R10 (c_rsp c); MovI R11 (c_rip c);
    Mov RBP R8; Mov RBX R9; Mov RSP R10; Jmp R11] s.

(** ** User mode *)

(** [enter_user_mode] *)
Definition enter_user_mode (entry stack rdi : Z) (s : Cpu) : Cpu :=
  exec [MovI RDI rdi; PushI 0x3b; PushI stack; PushI 0x202; PushI 0x43; PushI entry;
    Zero RAX; Zero RBX; Zero RCX; Zero RDX; Zero RSI; Zero RBP; Zero R8; Zero R9; Zero R10; Zero R11;
    Zero R12; Zero R13; Zero R14; Zero R15; Swapgs; Iretq] s.

(** [user_thread_entry]: the arguments are on the stack of the new thread. *)
Definition user_thread_entry (s : Cpu) : Cpu :=
  let s := exec [Load RDI RSP 16; Load RSI RSP 8; Load RDX RSP 0] s in
  enter_user_mode (regs s RDI) (regs s RSI) (regs s RDX) s.

(** The words [create_user_process] and [create_user_thread] write on the new
    kernel stack, and the stack pointer the thread starts with. *)
Definition thread_stack (rsp0 size entry stack params : Z) (m : Z -> Z) : Z -> Z :=
  fun a =>
    if decide (a = rsp0 + size - 8) then entry
    else if decide (a = rsp0 + size - 8 - 8) then stack
    else if decide (a = rsp0 + size - 8 - 16) then params
    else m a.
Definition thread_rsp (rsp0 size : Z) : Z := rsp0 + size - 8 - 16.
