(* ===== verification/AsmSpec.v ===== *)
(** * The assembly keeps contexts (theorems about Asm.v)

    Interrupts are transparent, the frames have the types the handlers declare,
    system calls return to their caller with the registers of the calling
    convention, a context that is switched away comes back as a return. *)
From S2P Require Import Prelude Idt Asm.

(** ** Stacks *)

(** The words of a list lie at an address and above. *)
Definition holds (a : Z) (vs : list Z) (m : Z -> Z) : Prop :=
  forall i v, vs !! i = Some v -> m (a + 8 * Z.of_nat i) = v.

Definition control (s : Cpu) : Z * Z * Z * Z * Z * Z := (rip s, rflags s, cs s, ss s, gs s, other_gs s).

Lemma holds_ext a vs m m' :
  holds a vs m ->
  (forall b, a <= b < a + 8 * Z.of_nat (length vs) -> m' b = m b) ->
  holds a vs m'.
Proof.
  intros Hh Hm i v Hi. pose proof (lookup_lt_Some _ _ _ Hi). rewrite Hm by lia. by apply Hh.
Qed.

Lemma holds_push x s vs :
  holds (regs s RSP) vs (mem s) -> holds (regs (push x s) RSP) (x :: vs) (mem (push x s)).
Proof.
  change (regs (push x s) RSP) with (regs s RSP - 8). intros Hh [|i] v Hi; cbn in *.
  - simplify_eq. apply decide_True. lia.
  - rewrite decide_False by lia. rewrite <- (Hh _ _ Hi). f_equal. lia.
Qed.

Lemma holds_app a vs ws m :
  holds a (vs ++ ws) m <-> holds a vs m /\ holds (a + 8 * Z.of_nat (length vs)) ws m.
Proof.
  split.
  - intros Hh. split; intros i v Hi.
    + apply Hh. by apply lookup_app_l_Some.
    + rewrite <- (Hh (length vs + i)%nat v); [f_equal; lia|].
      rewrite lookup_app_r by lia. rewrite <- Hi. f_equal. lia.
  - intros [H1 H2] i v [Hi|[Hle Hi]]%lookup_app_Some; [by apply H1|].
    rewrite <- (H2 _ _ Hi). f_equal. lia.
Qed.

Lemma exec_pushes rs s :
  RSP ∉ rs ->
  let s' := exec (Push <$> rs) s in
  regs s' RSP = regs s RSP - 8 * Z.of_nat (length rs) /\
  (forall r, r <> RSP -> regs s' r = regs s r) /\
  (forall vs, holds (regs s RSP) vs (mem s) -> holds (regs s' RSP) (reverse (regs s <$> rs) ++ vs) (mem s')) /\
  (forall b, b < regs s' RSP \/ regs s RSP <= b -> mem s' b = mem s b) /\
  control s' = control s.
Proof.
  revert s. induction rs as [|r rs IH]; intros s Hn.
  { cbn. split_and!; [lia|done..]. }
  apply not_elem_of_cons in Hn as [Hr Hn]. cbn [fmap list_fmap exec exec1].
  destruct (IH (push (regs s r) s) Hn) as (H1 & H2 & H3 & H4 & H5).
  change (regs (push (regs s r) s) RSP) with (regs s RSP - 8) in *.
  assert (forall q, q <> RSP -> regs (push (regs s r) s) q = regs s q) as Hq
    by (intros q Hq; cbn; by rewrite reg_eqb_ne).
  cbn [length]. split_and!.
  - rewrite H1. lia.
  - intros q Hq'. rewrite H2 by done. by apply Hq.
  - intros vs Hvs. cbn [fmap list_fmap]. rewrite reverse_cons, <- (assoc_L (++)). cbn.
    replace (regs s <$> rs) with (regs (push (regs s r) s) <$> rs).
    + apply H3. by apply holds_push.
    + apply list_fmap_ext. intros i q Hi. apply Hq. intros ->. apply Hn. by eapply list_elem_of_lookup_2.
  - intros b Hb. rewrite H4 by lia. cbn. rewrite decide_False; [done|]. rewrite H1 in Hb. lia.
  - by rewrite H5.
Qed.

Lemma exec_pops rs s :
  RSP ∉ rs -> NoDup rs ->
  let s' := exec (Pop <$> rs) s in
  regs s' RSP = regs s RSP + 8 * Z.of_nat (length rs) /\
  (forall i r, rs !! i = Some r -> regs s' r = mem s (regs s RSP + 8 * Z.of_nat i)) /\
  (forall r, r ∉ rs -> r <> RSP -> regs s' r = regs s r) /\
  mem s' = mem s /\ control s' = control s.
Proof.
  revert s. induction rs as [|r rs IH]; intros s Hn Hd.
  { cbn. split_and!; [lia|intros i r; by rewrite lookup_nil|done..]. }
  apply not_elem_of_cons in Hn as [Hr Hn]. apply NoDup_cons in Hd as [Hrs Hd]. cbn [fmap list_fmap exec exec1].
  set (s1 := set_reg r (top s) (discard s)).
  assert (regs s1 RSP = regs s RSP + 8) as Hsp by (cbn; by rewrite reg_eqb_ne).
  destruct (IH s1 Hn Hd) as (H1 & H2 & H3 & H4 & H5). rewrite Hsp in *.
  cbn [length]. split_and!; [lia| | |by rewrite H4|by rewrite H5].
  - intros [|i] q Hi; cbn in Hi.
    + simplify_eq. rewrite H3 by done. cbn. rewrite reg_eqb_refl. unfold top. f_equal. lia.
    + rewrite (H2 _ _ Hi). cbn [mem s1 set_reg discard]. f_equal. lia.
  - intros q [Hqr Hq]%not_elem_of_cons Hsq. rewrite H3 by done. cbn. by rewrite !reg_eqb_ne by done.
Qed.

Lemma align16 x : x - 16 < Z.land x (Z.lnot 0xF) <= x /\ Z.land x (Z.lnot 0xF) `mod` 16 = 0.
Proof.
  assert (Z.land x (Z.lnot 0xF) = x - x `mod` 16) as ->; [|lia].
  change 0xF with (Z.ones 4). rewrite <- Z.ldiff_land, Z.ldiff_ones_r, Z.shiftr_div_pow2, Z.shiftl_mul_pow2 by lia.
  lia.
Qed.

(** ** Interrupts *)

(** The convention of calls: registers kept for the caller, and the bases. *)
Definition callee_saved : list reg := [RBX; RBP; RSP; R12; R13; R14; R15].

Definition returns (f : Cpu -> Cpu) : Prop :=
  forall s, (forall r, r ∈ callee_saved -> regs (f s) r = regs s r) /\
    gs (f s) = gs s /\ other_gs (f s) = other_gs s.

Definition layout (error : bool) : list field := if error then StackFrameWithErrorCode else StackFrame.

Definition option_word (error : option Z) : list Z := match error with Some x => [x] | None => [] end.

Definition frame_values (error : option Z) (s : Cpu) : list Z :=
  (regs s <$> general) ++ option_word error ++ [rip s; cs s; rflags s; regs s RSP; ss s].

(** What a field stands for in the interrupted context. *)
Definition context_value (error : option Z) (s : Cpu) (f : field) : option Z :=
  match f with
  | FReg r => Some (regs s r)
  | FErrorCode => error
  | FRip => Some (rip s)
  | FCs => Some (cs s)
  | FRflags => Some (rflags s)
  | FRsp => Some (regs s RSP)
  | FSs => Some (ss s)
  end.

Lemma field_at_lookup l i f a m :
  NoDup l -> l !! i = Some f -> field_at l f a m = m (a + 8 * Z.of_nat i).
Proof.
  revert a i. induction l as [|g l IH]; intros a i Hd Hi; [by rewrite lookup_nil in Hi|].
  apply NoDup_cons in Hd as [Hg Hd]. destruct i as [|i]; cbn in *.
  - simplify_eq. rewrite decide_True by done. f_equal. lia.
  - rewrite decide_False by (intros ->; apply Hg; by eapply list_elem_of_lookup_2).
    rewrite (IH _ _ Hd Hi). f_equal. lia.
Qed.

Lemma layout_NoDup error : NoDup (layout error).
Proof. apply (bool_decide_unpack _). destruct error; vm_compute; exact I. Qed.

Lemma layout_context error s :
  Some <$> frame_values error s = context_value error s <$> layout (bool_decide (is_Some error)).
Proof. destruct error; reflexivity. Qed.

Lemma holds_fields error a s m f :
  holds a (frame_values error s) m -> f ∈ layout (bool_decide (is_Some error)) ->
  context_value error s f = Some (field_at (layout (bool_decide (is_Some error))) f a m).
Proof.
  intros Hh [i Hi]%list_elem_of_lookup. rewrite (field_at_lookup _ i) by (apply layout_NoDup || done).
  assert ((context_value error s <$> layout (bool_decide (is_Some error))) !! i = Some (context_value error s f)) as Hv
    by (by rewrite list_lookup_fmap, Hi).
  rewrite <- layout_context, list_lookup_fmap in Hv.
  destruct (frame_values error s !! i) as [v|] eqn:Ev; cbn in Hv; simplify_eq.
  by rewrite (Hh _ _ Ev).
Qed.

Lemma holds_context error a s m :
  holds a (frame_values error s) m ->
  let value f := field_at (layout (bool_decide (is_Some error))) f a m in
  (forall r, r ∈ general -> value (FReg r) = regs s r) /\ value FRsp = regs s RSP /\
  value FRip = rip s /\ value FCs = cs s /\ value FRflags = rflags s /\ value FSs = ss s.
Proof.
  intros Hh value. pose proof (fun f => holds_fields error a s m f Hh) as Hf.
  assert (forall r, r ∈ general -> value (FReg r) = regs s r) as Hg.
  { intros r Hr. specialize (Hf (FReg r)). cbn in Hf. enough (Some (regs s r) = Some (value (FReg r))) by congruence.
    apply Hf. destruct error; cbn [is_Some layout bool_decide]; apply elem_of_app; left; by apply list_elem_of_fmap_2. }
  split; [done|]. assert (forall f x, f ∈ layout (bool_decide (is_Some error)) ->
    context_value error s f = Some x -> value f = x) as Hx.
  { intros f x Hin Hx. apply Hf in Hin. fold (value f) in Hin. congruence. }
  split_and!; apply Hx; try done; apply (bool_decide_unpack _); destruct error; exact I.
Qed.

Lemma holds_nil a m : holds a [] m.
Proof. intros i v. by rewrite lookup_nil. Qed.

Lemma deliver_spec t e error s :
  let s1 := deliver t e error s in
  holds (regs s1 RSP) (option_word error ++ [rip s; cs s; rflags s; regs s RSP; ss s]) (mem s1) /\
  (forall r, r <> RSP -> regs s1 r = regs s r) /\
  cs s1 = gdt_selector e /\ gs s1 = gs s /\ other_gs s1 = other_gs s.
Proof.
  unfold deliver. set (a := if gate_ist e =? 0 then _ else _). clearbody a.
  set (s0 := set_reg RSP _ s). pose proof (holds_nil (regs s0 RSP) (mem s0)) as Hh.
  set (s5 := push (rip s) _). assert (holds (regs s5 RSP) [rip s; cs s; rflags s; regs s RSP; ss s] (mem s5)) as H5
    by (repeat apply holds_push; done).
  assert (forall r, r <> RSP -> regs s5 r = regs s r) as Hr by (intros r Hr; cbn; by rewrite !reg_eqb_ne by done).
  assert (gs s5 = gs s /\ other_gs s5 = other_gs s) as [Hg Ho] by done. clearbody s5. clear s0 Hh.
  set (s6 := match error with Some x => push x s5 | None => s5 end).
  assert (holds (regs s6 RSP) (option_word error ++ [rip s; cs s; rflags s; regs s RSP; ss s]) (mem s6)) as H6
    by (destruct error; [by apply holds_push|done]).
  assert (forall r, r <> RSP -> regs s6 r = regs s r) as Hr6.
  { intros r Hne. destruct error; cbn; rewrite ?reg_eqb_ne by done; by apply Hr. }
  assert (gs s6 = gs s /\ other_gs s6 = other_gs s) as [Hg6 Ho6] by (destruct error; done).
  clearbody s6. destruct (gate_clears_if e); done.
Qed.

Lemma save_general : save = Push <$> reverse general.
Proof. reflexivity. Qed.

Lemma restore_general : restore = Pop <$> general.
Proof. reflexivity. Qed.

Lemma general_not_RSP r : r ∈ general -> r <> RSP.
Proof. intros Hr ->. revert Hr. apply (bool_decide_unpack _). exact I. Qed.

Lemma exec_enter s1 vs :
  holds (regs s1 RSP) vs (mem s1) ->
  holds (regs (exec enter s1) RDI) ((regs s1 <$> general) ++ vs) (mem (exec enter s1)) /\
  regs (exec enter s1) RBP = regs (exec enter s1) RDI /\ (regs (exec enter s1) RSP) `mod` 16 = 0 /\
  regs (exec enter s1) RDI - 16 < regs (exec enter s1) RSP <= regs (exec enter s1) RDI /\
  control (exec enter s1) = control s1.
Proof.
  intros Hh. unfold enter. rewrite exec_app, save_general.
  destruct (exec_pushes (reverse general) s1) as (_ & _ & H3 & _ & H5); [apply (bool_decide_unpack _); exact I|].
  apply H3 in Hh. rewrite <- fmap_reverse, reverse_involutive in Hh.
  revert Hh H5. generalize (exec (Push <$> reverse general) s1). clear H3. intros sp Hh H5.
  pose proof (align16 (regs sp RSP)) as [Hal Hmod].
  cbn -[holds Z.lnot Z.land general]. done.
Qed.

(** The state at the call of the handler. *)
Lemma enter_spec t e error s :
  let s2 := exec enter (deliver t e error s) in
  holds (regs s2 RDI) (frame_values error s) (mem s2) /\
  regs s2 RBP = regs s2 RDI /\ (regs s2 RSP) `mod` 16 = 0 /\
  cs s2 = gdt_selector e /\ gs s2 = gs s /\ other_gs s2 = other_gs s.
Proof.
  cbn zeta. destruct (deliver_spec t e error s) as (Hh & Hr & Hc & Hg & Ho).
  revert Hh Hr Hc Hg Ho. generalize (deliver t e error s). intros s1 Hh Hr Hc Hg Ho.
  destruct (exec_enter s1 _ Hh) as (H1 & H2 & H3 & _ & H5). unfold control in H5. simplify_eq.
  split_and!; [|congruence..].
  unfold frame_values. replace (regs s <$> general) with (regs s1 <$> general); [done|].
  apply list_fmap_ext. intros i r Hi. apply Hr. by eapply general_not_RSP, list_elem_of_lookup_2.
Qed.

(** The frames have the types that the handlers declare. For every gate that
    [init] installs, when the processor takes the interrupt, with an error code
    exactly for the exceptions that have one, the stub calls the handler of the
    gate with a pointer to a structure of the handler's type, [StackFrame] or
    [StackFrameWithErrorCode], in which every field is the register or the word
    of its name of the interrupted context, and with an aligned stack. *)
Theorem handler_frame_types addr t v h e error s :
  (v, h) ∈ installed -> init addr !! v = Some e ->
  bool_decide (is_Some error) = pushes_error_code v ->
  let s2 := exec enter (deliver t e error s) in
  (forall f, f ∈ layout (with_error_code h) ->
     Some (field_at (layout (with_error_code h)) f (regs s2 RDI) (mem s2)) = context_value error s f) /\
  (regs s2 RSP) `mod` 16 = 0.
Proof.
  intros Hin He Herr.
  pose proof (proj1 (Forall_forall _ _) (init_installed addr) _ Hin) as (e' & He' & _ & _ & _ & _ & _ & _ & Hw).
  destruct (enter_spec t e error s) as (Hh & _ & Hmod & _). split; [|done].
  intros f Hf. rewrite Hw, <- Herr in *. symmetry. by apply holds_fields.
Qed.

(** The stub of an interrupt. *)
Definition stub (body : Z -> Cpu -> Cpu) (check : Cpu -> Cpu) (error : bool) : list instr :=
  if error then interrupt_handler_with_error_code body check else interrupt_handler body check.

Section transparent.
  Context (body : Z -> Cpu -> Cpu) (check : Cpu -> Cpu).
  Hypothesis body_returns : forall a, returns (body a).
  Hypothesis check_returns : returns check.

Lemma handler_returns l : returns (handler body check l).
Proof.
  intros s. unfold handler. case_match; [apply body_returns|].
  destruct (body_returns (regs s RDI) (swapgs s)) as (Hb & Hbg & Hbo).
  destruct (check_returns (body (regs s RDI) (swapgs s))) as (Hc & Hcg & Hco). cbn.
  split_and!; [|rewrite Hco, Hbo; done|rewrite Hcg, Hbg; done].
  intros r Hr. rewrite Hc, Hb by done. done.
Qed.

Lemma exec_call f s : exec [Call f; Mov RSP RBP] s = set_reg RSP (regs (f s) RBP) (f s).
Proof. reflexivity. Qed.

Lemma exec_stub (error : bool) s :
  exec (stub body check error) s =
    exec (if error then [Add RSP 8; Iretq] else [Iretq])
      (exec (Pop <$> general)
        (exec [Call (handler body check (layout error)); Mov RSP RBP] (exec enter s))).
Proof.
  rewrite <- restore_general, <- !exec_app. f_equal. destruct error; unfold stub, interrupt_handler,
    interrupt_handler_with_error_code; by rewrite !(assoc_L (++)).
Qed.

Lemma stub_spec (error : bool) s2 s :
  regs s2 RBP = regs s2 RDI -> exec enter s = s2 ->
  let s3 := handler body check (layout error) s2 in
  let s' := exec (stub body check error) s in
  let value f := field_at (layout error) f (regs s2 RDI) (mem s3) in
  (forall r, r ∈ general -> regs s' r = value (FReg r)) /\
  regs s' RSP = value FRsp /\ rip s' = value FRip /\ cs s' = value FCs /\
  rflags s' = value FRflags /\ ss s' = value FSs /\
  gs s' = gs s2 /\ other_gs s' = other_gs s2.
Proof.
  intros Hbp Hs2 s3 s' value. subst value. cbv beta. destruct (handler_returns (layout error) s2) as (Hr & Hg & Ho).
  fold s3 in Hr, Hg, Ho.
  assert (regs s3 RBP = regs s2 RDI) as Hsp by (rewrite Hr by (repeat constructor); done).
  destruct (exec_pops general (set_reg RSP (regs s3 RBP) s3)) as (H1 & H2 & _ & Hm & H5);
    [apply (bool_decide_unpack _); exact I..|].
  assert (s' = exec (if error then [Add RSP 8; Iretq] else [Iretq])
    (exec (Pop <$> general) (set_reg RSP (regs s3 RBP) s3))) as ->.
  { unfold s', s3. by rewrite exec_stub, Hs2, exec_call. }
  revert H1 H2 Hm H5. generalize (exec (Pop <$> general) (set_reg RSP (regs s3 RBP) s3)). intros s5.
  unfold control. cbn [regs mem rip rflags cs ss gs other_gs set_reg reg_eqb reg_number Nat.eqb].
  rewrite Hsp. intros H1 H2 Hm H5. simplify_eq H5. intros. change (Z.of_nat (length general)) with 15 in H1.
  assert (forall i f, layout error !! i = Some f ->
    field_at (layout error) f (regs s2 RDI) (mem s3) = mem s3 (regs s2 RDI + 8 * Z.of_nat i)) as Hf
    by (intros i f; apply field_at_lookup, layout_NoDup).
  split_and!.
  - intros r [i Hi]%list_elem_of_lookup. rewrite (Hf i).
    + assert (r <> RSP) by (by eapply general_not_RSP, list_elem_of_lookup_2).
      destruct error; cbn; rewrite !reg_eqb_ne by done; by apply H2.
    + pose proof (lookup_lt_Some _ _ _ Hi). destruct error; cbn [layout]; apply lookup_app_l_Some; by rewrite list_lookup_fmap, Hi.
  - destruct error; [rewrite (Hf 19%nat)|rewrite (Hf 18%nat)]; try done; cbn; rewrite Hm, H1; f_equal; lia.
  - destruct error; [rewrite (Hf 16%nat)|rewrite (Hf 15%nat)]; try done; cbn; rewrite Hm, H1; f_equal; lia.
  - destruct error; [rewrite (Hf 17%nat)|rewrite (Hf 16%nat)]; try done; cbn; rewrite Hm, H1; f_equal; lia.
  - destruct error; [rewrite (Hf 18%nat)|rewrite (Hf 17%nat)]; try done; cbn; rewrite Hm, H1; f_equal; lia.
  - destruct error; [rewrite (Hf 20%nat)|rewrite (Hf 19%nat)]; try done; cbn; rewrite Hm, H1; f_equal; lia.
  - destruct error; cbn; congruence.
  - destruct error; cbn; congruence.
Qed.

(** C22: An interrupt returns what the handler leaves in its frame. Whatever a
    handler that obeys the calling convention does, after [iretq] every general
    register, the instruction pointer, the flags, the stack pointer and the
    segments are the fields of the frame as the handler left them, and both
    bases of the gs segment are those of the interrupted context. *)
Theorem interrupt_returns_frame t e error s :
  let err := bool_decide (is_Some error) in
  let s2 := exec enter (deliver t e error s) in
  let s3 := handler body check (layout err) s2 in
  let s' := exec (stub body check err) (deliver t e error s) in
  let value f := field_at (layout err) f (regs s2 RDI) (mem s3) in
  (forall r, r ∈ general -> regs s' r = value (FReg r)) /\
  regs s' RSP = value FRsp /\ rip s' = value FRip /\ cs s' = value FCs /\
  rflags s' = value FRflags /\ ss s' = value FSs /\
  gs s' = gs s /\ other_gs s' = other_gs s.
Proof.
  cbn zeta. destruct (enter_spec t e error s) as (_ & Hbp & _ & _ & Hg & Ho).
  rewrite <- Hg, <- Ho. by apply stub_spec.
Qed.

(** A handler that leaves its frame alone is not seen by the context it
    interrupts. *)
Theorem interrupt_transparent t e error s :
  let s2 := exec enter (deliver t e error s) in
  (forall b, 0 <= b - regs s2 RDI < 168 ->
     mem (handler body check (layout (bool_decide (is_Some error))) s2) b = mem s2 b) ->
  let s' := exec (stub body check (bool_decide (is_Some error))) (deliver t e error s) in
  (forall r, regs s' r = regs s r) /\ control s' = control s.
Proof.
  intros s2 Hm s'. destruct (enter_spec t e error s) as (Hh & Hbp & _ & _ & Hg & Ho).
  fold s2 in Hh, Hbp, Hg, Ho.
  destruct (stub_spec (bool_decide (is_Some error)) s2 (deliver t e error s) Hbp eq_refl)
    as (H1 & H2 & H3 & H4 & H5 & H6 & H7 & H8). fold s' in H1, H2, H3, H4, H5, H6, H7, H8.
  eapply (holds_ext _ _ _ (mem (handler body check (layout (bool_decide (is_Some error))) s2))) in Hh;
    [|intros b Hb; apply Hm; assert (length (frame_values error s) <= 21)%nat by (destruct error; cbn; lia); lia].
  destruct (holds_context _ _ _ _ Hh) as (F1 & F2 & F3 & F4 & F5 & F6).
  split; [|unfold control; congruence].
  intros r. destruct (decide (r = RSP)) as [->|Hr]; [congruence|].
  assert (r ∈ general) as Hin by (apply (bool_decide_unpack _); by destruct r).
  rewrite H1, F1 by done. done.
Qed.

End transparent.

(** *** A second interrupt *)

Lemma control_enter n s : control (exec (take n enter) s) = control s.
Proof.
  assert (forall l, Forall (fun i => match i with Push _ | Mov _ _ | And _ _ => True | _ => False end) l ->
    forall s, control (exec l s) = control s) as Hl.
  { induction 1 as [|i l Hi Hl IH]; intros s'; [done|]. cbn [exec]. rewrite IH. by destruct i. }
  apply Hl, Forall_take. by repeat constructor.
Qed.

(** [disable_interrupt] does not keep interrupts out of the entry of a
    handler. When user code with interrupts enabled is interrupted, they are
    still enabled throughout the code before the handler changes the base of gs.
    A second interrupt taken there finds the kernel's code segment in its frame
    and runs its body with the base that belongs to the user program. *)
Theorem nested_interrupt_user_gs body check t e1 e2 error1 error2 n s :
  built e1 -> Z.testbit (rflags s) 9 = true ->
  let s1 := exec (take n enter) (deliver t e1 error1 s) in
  let s2 := exec enter (deliver t e2 error2 s1) in
  Z.testbit (rflags s1) 9 = true /\
  handler body check (layout (bool_decide (is_Some error2))) s2 = body (regs s2 RDI) s2 /\
  gs s2 = gs s.
Proof.
  intros Hb Hif s1 s2. destruct (built_gate _ Hb) as [Hclr Hsel]. pose proof (control_enter n (deliver t e1 error1 s)) as Hc. fold s1 in Hc.
  destruct (deliver_spec t e1 error1 s) as (_ & _ & Hcs & Hg & _).
  assert (cs s1 = 0x18 /\ gs s1 = gs s /\ rflags s1 = rflags (deliver t e1 error1 s)) as (Hcs1 & Hg1 & Hf1)
    by (unfold control in Hc; split_and!; congruence).
  destruct (enter_spec t e2 error2 s1) as (Hh & _ & _ & _ & Hg2 & _). fold s2 in Hh, Hg2.
  destruct (holds_context _ _ _ _ Hh) as (_ & _ & _ & Hfc & _).
  split_and!; [| |congruence].
  - rewrite Hf1. unfold deliver. rewrite Hclr. by destruct error1.
  - unfold handler. by rewrite Hfc, Hcs1.
Qed.

(** ** System calls *)

(** A call leaves alone the words of the caller's stack. *)
Definition keeps (hi : Z) (f : Cpu -> Cpu) : Prop :=
  forall s b, regs s RSP <= b < hi -> mem (f s) b = mem s b.

Section syscalls.
  Context (query boundry_check : Cpu -> Cpu) (code : Z -> Cpu -> Cpu) (addr : Syscall -> Z) (hi : Z).
  Notation table := (query_syscall_handler addr).
  Hypothesis query_returns : returns query.
  Hypothesis query_writes : forall s b, regs s RSP <= b < hi ->
    mem (query s) b = if decide (b = regs s RSI) then table (regs s RDI) else mem s b.
  Hypothesis check_call : returns boundry_check /\ keeps hi boundry_check.
  Hypothesis code_call : forall a, returns (code a) /\ keeps hi (code a).

(** Inside a system call: the registers to return with lie under [rbp]. *)
Definition in_syscall (u : Cpu) (next : Z) (s : Cpu) : Prop :=
  regs s RBP = hi - 32 /\ regs s RSP <= hi - 32 /\
  holds (hi - 32) [regs u RBP; regs u RSP; rflags u; next] (mem s) /\
  gs s = other_gs u /\ other_gs s = gs u /\
  (forall r, r ∈ [RBX; R12; R13; R14; R15] -> regs s r = regs u r).

Lemma in_syscall_call u next f s :
  returns f -> keeps hi f -> in_syscall u next s -> in_syscall u next (f s).
Proof.
  intros Hf Hk (H1 & H2 & H3 & H4 & H5 & H6). destruct (Hf s) as (Hr & Hg & Ho).
  assert (forall r, r ∈ callee_saved -> regs (f s) r = regs s r) as Hr' by done.
  split_and!; try congruence.
  - rewrite Hr by (repeat constructor). done.
  - rewrite Hr by (repeat constructor). done.
  - eapply holds_ext; [done|]. intros b Hb. apply Hk. cbn in Hb. lia.
  - intros r Hin. rewrite <- H6 by done. apply Hr.
    revert Hin. rewrite !elem_of_cons. unfold callee_saved. rewrite !elem_of_cons. tauto.
Qed.

Lemma syscall_save_spec u next :
  mem u (other_gs u + OFFSET_SYSCALL_STACK) = hi ->
  (forall k, k ∈ [OFFSET_SYSCALL_STACK; OFFSET_SYSCALL_USER_STACK] -> ~ hi - 32 <= other_gs u + k < hi) ->
  let s := exec syscall_save (syscall next u) in
  in_syscall u next s /\ (regs s RSP) `mod` 16 = 0 /\
  (forall r, r ∈ [RAX; RDI; RSI; RDX; R10; R8; R9] -> regs s r = regs u r).
Proof.
  intros Hhi Hdis. pose proof (Hdis OFFSET_SYSCALL_USER_STACK ltac:(repeat constructor)) as Hd.
  pose proof (align16 (hi - 32)) as [Hal Hmod].
  assert (hi - 8 - 8 - 8 - 8 = hi - 32) as E by lia.
  unfold syscall_save, OFFSET_SYSCALL_STACK, OFFSET_SYSCALL_USER_STACK in *.
  cbn -[Z.land Z.lnot Z.lor holds Z.sub] in *.
  rewrite !(decide_False (P := _ + 8 = _ + 16)) by lia. rewrite !Hhi, ?E.
  rewrite (decide_False (P := _ = hi - 8 - 8)), (decide_False (P := _ = hi - 8)), decide_True by lia.
  split_and!; [|done|apply Forall_forall; by repeat constructor].
  set (s0 := set_reg RSP hi _). set (s4 := push (regs u RBP) _).
  assert (holds (regs s4 RSP) [regs u RBP; regs u RSP; rflags u; next] (mem s4)) as Hh
    by (repeat apply holds_push; apply holds_nil).
  change (regs s4 RSP) with (hi - 8 - 8 - 8 - 8) in Hh. rewrite E in Hh.
  unfold in_syscall. split_and!; [done|apply Hal|exact Hh|done..|].
  apply Forall_forall. by repeat constructor.
Qed.

Lemma in_syscall_pushes u next rs s :
  RSP ∉ rs -> in_syscall u next s -> in_syscall u next (exec (Push <$> rs) s).
Proof.
  intros Hn (I1 & I2 & I3 & I4 & I5 & I6). destruct (exec_pushes rs s Hn) as (P1 & P2 & _ & P4 & P5).
  unfold control in P5. simplify_eq P5. intros. unfold in_syscall. rewrite P1, P2 by done.
  split_and!; [done|lia| |congruence..|].
  - eapply holds_ext; [exact I3|]. intros b Hb. cbn in Hb. apply P4. lia.
  - intros r Hr. rewrite P2; [by apply I6|]. intros ->. revert Hr. apply (bool_decide_unpack _). exact I.
Qed.

Lemma in_syscall_pops u next rs s :
  RSP ∉ rs -> NoDup rs -> Forall (fun r => r ∉ rs) [RBP; RBX; R12; R13; R14; R15] ->
  regs s RSP + 8 * Z.of_nat (length rs) <= hi - 32 ->
  in_syscall u next s -> in_syscall u next (exec (Pop <$> rs) s).
Proof.
  intros Hn Hd Hrs Hle (I1 & I2 & I3 & I4 & I5 & I6). destruct (exec_pops rs s Hn Hd) as (P1 & _ & P3 & P4 & P5).
  unfold control in P5. simplify_eq P5. intros. apply Forall_cons in Hrs as [Hbp Hrs].
  unfold in_syscall. rewrite P1, P3, P4 by done. split_and!; [done|lia|done|congruence..|].
  intros r Hr. rewrite P3; [by apply I6|by apply (proj1 (Forall_forall _ _) Hrs)|].
  intros ->. revert Hr. apply (bool_decide_unpack _). exact I.
Qed.

(** The words that hold the six arguments lie above that of the address. *)
Lemma syscall_query_call u next s :
  in_syscall u next s ->
  let s3 := query (exec [Mov RDI RAX; Add RSP (-8); Mov RSI RSP] (exec (Push <$> [RDI; RSI; RDX; R10; R8; R9]) s)) in
  in_syscall u next s3 /\ regs s3 RSP = regs s RSP - 56 /\
  holds (regs s3 RSP) [table (regs s RAX); regs s R9; regs s R8; regs s R10; regs s RDX; regs s RSI; regs s RDI] (mem s3).
Proof.
  intros Hin. cbn zeta.
  assert (RSP ∉ [RDI; RSI; RDX; R10; R8; R9]) as Hn by (apply (bool_decide_unpack _); exact I).
  destruct (exec_pushes _ s Hn) as (P1 & P2 & P3 & _ & _). pose proof (proj1 (proj2 Hin)) as Hle. apply (in_syscall_pushes u next _ _ Hn) in Hin.
  revert Hin P1 P2 P3. generalize (exec (Push <$> [RDI; RSI; RDX; R10; R8; R9]) s). intros s1 Hin P1 P2 P3.
  pose proof (P3 [] (holds_nil _ _)) as Hargs. cbn in Hargs. change (Z.of_nat (length _)) with 6 in P1.
  set (s2 := exec [Mov RDI RAX; Add RSP (-8); Mov RSI RSP] s1).
  assert (regs s2 RSP = regs s1 RSP - 8) as Hsp by done. assert (regs s2 RSI = regs s2 RSP) as Hsi by done.
  destruct Hin as (I1 & I2 & I3 & I4 & I5 & I6). destruct (query_returns s2) as (Q1 & Q2 & Q3).
  unfold in_syscall. rewrite (Q1 RBP), (Q1 RSP), Hsp, Q2, Q3 by (repeat constructor). split_and!; [done|lia| |done..| |lia|].
  - eapply holds_ext; [exact I3|]. intros b Hb. cbn in Hb. rewrite query_writes, decide_False by lia. done.
  - apply Forall_forall. repeat constructor; rewrite Q1 by (repeat constructor); cbn; rewrite I6 by (repeat constructor); done.
  - intros i v Hi. rewrite <- Hsp. pose proof (lookup_lt_Some _ _ _ Hi) as Hlt. cbn in Hlt.
    rewrite query_writes by lia. rewrite Hsi. destruct i as [|i].
    + rewrite decide_True by lia. cbn in Hi. simplify_eq. change (regs s2 RDI) with (regs s1 RAX). by rewrite P2.
    + rewrite decide_False by lia. rewrite <- (Hargs i v Hi), Hsp. change (mem s2) with (mem s1). f_equal. lia.
Qed.

Lemma syscall_query_spec u next s :
  in_syscall u next s ->
  (forall r, r ∈ [RAX; RDI; RSI; RDX; R10; R8; R9] -> regs s r = regs u r) ->
  let s' := exec (syscall_query query) s in
  in_syscall u next s' /\ regs s' RSP = regs s RSP - 8 /\ regs s' RAX = table (regs u RAX) /\
  (forall r, r ∈ [RDI; RSI; RDX; R8; R9] -> regs s' r = regs u r) /\ regs s' RCX = regs u R10.
Proof.
  intros Hin Hargs. unfold syscall_query.
  change (exec _ s) with (exec [Add RSP (-8)] (exec (Pop <$> [RAX; R9; R8; RCX; RDX; RSI; RDI])
    (query (exec [Mov RDI RAX; Add RSP (-8); Mov RSI RSP] (exec (Push <$> [RDI; RSI; RDX; R10; R8; R9]) s))))).
  pose proof (syscall_query_call u next s Hin) as Hq. revert Hq.
  generalize (query (exec [Mov RDI RAX; Add RSP (-8); Mov RSI RSP] (exec (Push <$> [RDI; RSI; RDX; R10; R8; R9]) s))).
  intros s3. cbn zeta. intros (Hin3 & Hsp3 & Hq). destruct Hin as (_ & I2 & _).
  destruct (exec_pops [RAX; R9; R8; RCX; RDX; RSI; RDI] s3) as (R1 & R2 & _); [apply (bool_decide_unpack _); exact I..|].
  apply (in_syscall_pops u next [RAX; R9; R8; RCX; RDX; RSI; RDI]) in Hin3;
    [|apply (bool_decide_unpack _); exact I..|cbn; lia].
  revert Hin3 R1 R2. generalize (exec (Pop <$> [RAX; R9; R8; RCX; RDX; RSI; RDI]) s3). intros s4 Hin4 R1 R2.
  change (Z.of_nat (length _)) with 7 in R1.
  assert (forall i r v, [RAX; R9; R8; RCX; RDX; RSI; RDI] !! i = Some r ->
    [table (regs s RAX); regs s R9; regs s R8; regs s R10; regs s RDX; regs s RSI; regs s RDI] !! i = Some v ->
    regs s4 r = v) as Hv.
  { intros i r v Hi Hiv. rewrite (R2 i r Hi). by apply Hq. }
  cbn [exec exec1]. split_and!.
  - destruct Hin4 as (J1 & J2 & J3 & J4 & J5 & J6). unfold in_syscall. split_and!; [done|cbn; lia|done..|].
    apply Forall_forall. repeat constructor; cbn; apply J6; repeat constructor.
  - cbn. lia.
  - cbn. rewrite (Hv 0%nat RAX _ eq_refl eq_refl). rewrite Hargs by (repeat constructor). done.
  - apply Forall_forall. repeat constructor; cbn.
    1: rewrite (Hv 6%nat RDI _ eq_refl eq_refl). 2: rewrite (Hv 5%nat RSI _ eq_refl eq_refl).
    3: rewrite (Hv 4%nat RDX _ eq_refl eq_refl). 4: rewrite (Hv 2%nat R8 _ eq_refl eq_refl).
    5: rewrite (Hv 1%nat R9 _ eq_refl eq_refl). all: apply Hargs; repeat constructor.
  - cbn. rewrite (Hv 3%nat RCX _ eq_refl eq_refl). apply Hargs. repeat constructor.
Qed.

Lemma syscall_check_spec u next s :
  in_syscall u next s ->
  let s' := exec (syscall_check boundry_check) s in
  in_syscall u next s' /\ regs s' RAX = regs s RAX.
Proof.
  intros Hin. unfold syscall_check.
  change (exec _ s) with (exec (Pop <$> [R11; R10; R9; R8; RCX; RDX; RSI; RDI; RAX])
    (boundry_check (exec (Push <$> [RAX; RDI; RSI; RDX; RCX; R8; R9; R10; R11]) s))).
  assert (RSP ∉ [RAX; RDI; RSI; RDX; RCX; R8; R9; R10; R11]) as Hn by (apply (bool_decide_unpack _); exact I).
  destruct (exec_pushes _ s Hn) as (P1 & _ & P3 & _). pose proof (P3 [] (holds_nil _ _)) as Hh. clear P3.
  pose proof (proj1 (proj2 Hin)) as Hle. apply (in_syscall_pushes u next _ _ Hn) in Hin.
  revert Hin P1 Hh. generalize (exec (Push <$> [RAX; RDI; RSI; RDX; RCX; R8; R9; R10; R11]) s). intros s1 Hin P1 Hh.
  change (Z.of_nat (length _)) with 9 in P1. destruct check_call as [Hret Hkeep].
  apply (in_syscall_call u next _ _ Hret Hkeep) in Hin.
  assert (mem (boundry_check s1) (regs s1 RSP + 64) = regs s RAX) as Hax.
  { rewrite Hkeep by lia. by apply (Hh 8%nat). }
  assert (regs (boundry_check s1) RSP = regs s1 RSP) as Hsp by (apply Hret; repeat constructor).
  revert Hin Hax Hsp. generalize (boundry_check s1). intros s2 Hin Hax Hsp.
  destruct (exec_pops [R11; R10; R9; R8; RCX; RDX; RSI; RDI; RAX] s2) as (_ & R2 & _);
    [apply (bool_decide_unpack _); exact I..|].
  cbn zeta. split.
  - apply in_syscall_pops; [apply (bool_decide_unpack _); exact I..|cbn; lia|done].
  - rewrite (R2 8%nat RAX eq_refl), Hsp. done.
Qed.

Lemma syscall_return_spec u next s :
  ~ hi - 32 <= other_gs u + OFFSET_SYSCALL_USER_STACK < hi ->
  in_syscall u next s ->
  let s' := exec syscall_return s in
  rip s' = next /\ rflags s' = sysret_flags (rflags u) /\ cs s' = 0x43 /\ ss s' = 0x3B /\
  gs s' = gs u /\ other_gs s' = other_gs u /\
  (forall r, r ∈ callee_saved -> regs s' r = regs u r) /\ regs s' RAX = regs s RAX.
Proof.
  intros Hd (I1 & I2 & I3 & I4 & I5 & I6). unfold OFFSET_SYSCALL_USER_STACK in *.
  pose proof (I3 0%nat _ eq_refl) as M0. pose proof (I3 1%nat _ eq_refl) as M1.
  pose proof (I3 2%nat _ eq_refl) as M2. pose proof (I3 3%nat _ eq_refl) as M3.
  change (8 * Z.of_nat 0) with 0 in M0. change (8 * Z.of_nat 1) with 8 in M1.
  change (8 * Z.of_nat 2) with 16 in M2. change (8 * Z.of_nat 3) with 24 in M3.
  cbn -[Z.land Z.lnot Z.lor sysret_flags Z.sub] in *. unfold top. cbn -[Z.land Z.lnot Z.lor sysret_flags Z.sub].
  rewrite I1, I4. rewrite !(decide_False (P := _ = other_gs u + 16)) by lia.
  replace (hi - 32 + 8 + 8 + 8) with (hi - 32 + 24) by lia. replace (hi - 32 + 8 + 8) with (hi - 32 + 16) by lia.
  split_and!; [done|by rewrite M2|done..| |done].
  apply Forall_forall. rewrite Z.add_0_r in M0.
  repeat constructor; cbn; try (apply I6; repeat constructor); [done|by rewrite decide_True].
Qed.

(** C23: A system call returns to its caller. On a kernel stack apart from the
    words that the entry keeps per processor, whatever the handler does within
    the calling convention: the handler found in the table for the number in rax
    is called with the six arguments of the caller, the fourth taken from r10,
    on the kernel's gs; then control is back at the next instruction, in user
    mode with the caller's gs, stack pointer and callee-saved registers, with
    the handler's result in rax or [BadArgument] when the table has none. *)
Theorem syscall_returns u next :
  mem u (other_gs u + OFFSET_SYSCALL_STACK) = hi ->
  (forall k, k ∈ [OFFSET_SYSCALL_STACK; OFFSET_SYSCALL_USER_STACK] -> ~ hi - 32 <= other_gs u + k < hi) ->
  let s' := exec (syscall_entry query boundry_check code) (syscall next u) in
  rip s' = next /\ rflags s' = sysret_flags (rflags u) /\ cs s' = 0x43 /\ ss s' = 0x3B /\
  gs s' = gs u /\ other_gs s' = other_gs u /\
  (forall r, r ∈ callee_saved -> regs s' r = regs u r) /\
  exists sc : Cpu,
    (forall r, r ∈ [RDI; RSI; RDX; R8; R9] -> regs sc r = regs u r) /\ regs sc RCX = regs u R10 /\
    gs sc = other_gs u /\
    regs s' RAX = if table (regs u RAX) =? 0 then BAD_ARGUMENT else regs (code (table (regs u RAX)) sc) RAX.
Proof.
  intros Hhi Hdis. unfold syscall_entry. rewrite !exec_app.
  destruct (syscall_save_spec u next Hhi Hdis) as (Hin & _ & Hargs).
  revert Hin Hargs. generalize (exec syscall_save (syscall next u)). intros s1 Hin Hargs.
  destruct (syscall_query_spec u next s1 Hin Hargs) as (Hin2 & _ & Hax & Hargs2 & Hcx).
  revert Hin2 Hax Hargs2 Hcx. generalize (exec (syscall_query query) s1). intros sc Hin2 Hax Hargs2 Hcx.
  assert (in_syscall u next (syscall_call code sc)) as Hin3.
  { unfold syscall_call. case_match; [|by apply in_syscall_call; try apply code_call].
    destruct Hin2 as (J1 & J2 & J3 & J4 & J5 & J6). unfold in_syscall. split_and!; try done.
    apply Forall_forall. repeat constructor; cbn; apply J6; repeat constructor. }
  destruct (syscall_check_spec u next _ Hin3) as (Hin4 & Hax4). cbn [exec exec1].
  revert Hin4 Hax4. generalize (exec (syscall_check boundry_check) (syscall_call code sc)). intros s4 Hin4 Hax4.
  destruct (syscall_return_spec u next s4) as (? & ? & ? & ? & ? & ? & ? & Hax5);
    [by apply Hdis; repeat constructor|done|]. cbn zeta.
  split_and!; try done. exists sc. split_and!; [done|done|apply Hin2|].
  rewrite Hax5, Hax4. unfold syscall_call. rewrite Hax. by case_match.
Qed.

(** The handler of a system call is entered with a stack that the convention
    does not allow: eight bytes off the multiple of sixteen. *)
Theorem syscall_handler_misaligned u next :
  mem u (other_gs u + OFFSET_SYSCALL_STACK) = hi ->
  (forall k, k ∈ [OFFSET_SYSCALL_STACK; OFFSET_SYSCALL_USER_STACK] -> ~ hi - 32 <= other_gs u + k < hi) ->
  (regs (exec (syscall_save ++ syscall_query query) (syscall next u)) RSP) `mod` 16 = 8.
Proof.
  intros Hhi Hdis. rewrite exec_app. destruct (syscall_save_spec u next Hhi Hdis) as (Hin & Hmod & Hargs).
  destruct (syscall_query_spec u next _ Hin Hargs) as (_ & Hsp & _). rewrite Hsp. lia.
Qed.

End syscalls.

(** ** Contexts *)

Lemma switch_saves s :
  let s1 := exec switch_thread_internal s in
  regs s1 RDI = regs s RSP - 88 /\ regs s1 RBP = regs s1 RDI /\
  (regs s1 RSP) `mod` 16 = 0 /\ regs s1 RDI - 16 < regs s1 RSP <= regs s1 RDI /\
  regs s1 RSI = regs s RDI /\ regs s1 RDX = regs s RDX /\ regs s1 RCX = regs s RCX /\
  holds (regs s RSP - 88) [regs s R15; regs s R14; regs s R13; regs s R12; regs s RBP; regs s RBX;
    mem s (regs s RSP); regs s RSP + 8; regs s RSI; regs s RDI; regs s RSP] (mem s1).
Proof.
  cbn zeta. set (a := regs s RSP).
  set (s0 := exec [Load RAX RSP 0; Push RSP; Push RDI; Push RSI; Load R11 RSP 16; Add R11 8] s).
  change (exec switch_thread_internal s) with
    (exec [Mov RDI RSP; Load RSI RSP 72; Mov RBP RSP; And RSP (Z.lnot 0xF)]
      (exec (Push <$> [R11; RAX; RBX; RBP; R12; R13; R14; R15]) s0)).
  assert (holds (regs s0 RSP) [regs s RSI; regs s RDI; a] (mem s0)) as Hh
    by (refine (holds_push _ _ _ (holds_push _ _ _ (holds_push _ _ _ (holds_nil _ _))))).
  assert (regs s0 RSP = a - 24) as Hsp by (cbn; lia).
  assert (regs s0 R11 = a + 8) as H11.
  { change (regs s0 R11) with (mem s0 (regs s0 RSP + 8 * Z.of_nat 2) + 8). rewrite (Hh 2%nat a eq_refl). done. }
  assert (regs s0 RAX = mem s a) as Hax by (cbn; f_equal; lia).
  assert (forall r, r ∈ [RBX; RBP; R12; R13; R14; R15; RDX; RCX] -> regs s0 r = regs s r) as Hr
    by (apply Forall_forall; by repeat constructor).
  clearbody s0.
  destruct (exec_pushes [R11; RAX; RBX; RBP; R12; R13; R14; R15] s0) as (P1 & P2 & P3 & _);
    [apply (bool_decide_unpack _); exact I|].
  apply P3 in Hh. clear P3. revert P1 P2 Hh.
  generalize (exec (Push <$> [R11; RAX; RBX; RBP; R12; R13; R14; R15]) s0). intros s1 P1 P2 Hh.
  change (Z.of_nat (length _)) with 8 in P1. assert (regs s1 RSP = a - 88) as P1' by lia. rewrite P1' in Hh.
  cbn -[holds] in Hh. rewrite H11, Hax, !Hr in Hh by (apply (bool_decide_unpack _); exact I).
  pose proof (align16 (a - 88)) as [Hal Hmod]. cbn -[holds Z.land Z.lnot]. rewrite P1'.
  split_and!; try done; try lia; try (rewrite P2, Hr by (done || (apply (bool_decide_unpack _); exact I)); done).
  rewrite <- (Hh 9%nat (regs s RDI) eq_refl). done.
Qed.

Section switch.
  (** [deal_old_thread] *)
  Context (deal_old_thread : Cpu -> Cpu).

(** A thread that is switched away from resumes as if the call had returned.
    The code saves in the context exactly the callee-saved registers, the return
    address and the stack pointer after the return, and hands [deal_old_thread]
    the context, the old thread and the arguments of the caller; loading that
    context in any later state of the processor gives them back. The new thread
    is what the tail of the code passes on. *)
Theorem switch_context_roundtrip s :
  returns deal_old_thread -> keeps (regs s RSP) deal_old_thread ->
  let s1 := exec switch_thread_internal s in
  let s2 := exec switch_thread_internal_tail (deal_old_thread s1) in
  let c := read_context (regs s1 RDI) (mem s1) in
  (regs s1 RSI = regs s RDI /\ regs s1 RDX = regs s RDX /\ regs s1 RCX = regs s RCX /\ (regs s1 RSP) `mod` 16 = 0) /\
  (regs s2 RDI = regs s RSI /\ (regs s2 RSP) `mod` 16 = 8) /\
  (forall t, let t' := switch_to_context c t in
    rip t' = mem s (regs s RSP) /\ regs t' RSP = regs s RSP + 8 /\
    (forall r, r ∈ [RBX; RBP; R12; R13; R14; R15] -> regs t' r = regs s r)).
Proof.
  intros Hret Hkeep. cbn zeta. destruct (switch_saves s) as (H1 & H2 & H3 & H4 & H5 & H6 & H7 & Hh).
  revert H1 H2 H3 H4 H5 H6 H7 Hh. generalize (exec switch_thread_internal s). intros s1 H1 H2 H3 H4 H5 H6 H7 Hh.
  destruct (Hret s1) as (Hr & _ & _). split_and!; try done.
  - cbn. rewrite Hr by (repeat constructor). rewrite Hkeep, H2, H1 by lia. by apply (Hh 8%nat).
  - cbn. rewrite Hr by (repeat constructor). lia.
  - intros t. cbn zeta. rewrite H1. cbn. split_and!.
    + by apply (Hh 6%nat).
    + by apply (Hh 7%nat).
    + apply Forall_forall. repeat constructor; cbn.
      * by apply (Hh 5%nat).
      * by apply (Hh 4%nat).
      * by apply (Hh 3%nat).
      * by apply (Hh 2%nat).
      * by apply (Hh 1%nat).
      * rewrite <- (Hh 0%nat _ eq_refl). f_equal. lia.
Qed.

End switch.

(** ** User mode *)

Lemma enter_user_mode_spec entry stack rdi s :
  let s' := enter_user_mode entry stack rdi s in
  rip s' = entry /\ regs s' RSP = stack /\ regs s' RDI = rdi /\
  (forall r, r <> RSP -> r <> RDI -> regs s' r = 0) /\
  cs s' = 0x43 /\ ss s' = 0x3B /\ rflags s' = 0x202 /\ gs s' = other_gs s /\ other_gs s' = gs s.
Proof.
  unfold enter_user_mode.
  set (zeros := [Zero RAX; Zero RBX; Zero RCX; Zero RDX; Zero RSI; Zero RBP; Zero R8; Zero R9; Zero R10; Zero R11;
    Zero R12; Zero R13; Zero R14; Zero R15; Swapgs]).
  set (s1 := exec [MovI RDI rdi; PushI 0x3b; PushI stack; PushI 0x202; PushI 0x43; PushI entry] s).
  change (exec _ s) with (exec1 Iretq (exec zeros s1)).
  assert (holds (regs s1 RSP) [entry; 0x43; 0x202; stack; 0x3b] (mem s1)) as Hh
    by (refine (holds_push _ _ _ (holds_push _ _ _ (holds_push _ _ _ (holds_push _ _ _ (holds_push _ _ _ (holds_nil _ _))))))).
  assert (regs s1 RDI = rdi /\ gs s1 = gs s /\ other_gs s1 = other_gs s) as (Hdi & Hg & Ho) by done. clearbody s1.
  pose proof (Hh 0%nat _ eq_refl) as M0. change (8 * Z.of_nat 0) with 0 in M0. rewrite Z.add_0_r in M0.
  cbn -[Z.of_nat]. split_and!; try done.
  - by apply (Hh 3%nat).
  - intros r H1 H2. by destruct r.
  - by apply (Hh 1%nat).
  - by apply (Hh 4%nat).
  - by apply (Hh 2%nat).
Qed.

(** A new user thread starts clean. Entered on the kernel stack that
    [create_user_process] and [create_user_thread] prepare, the processor is
    in user mode at the entry point with the given stack and argument, with
    interrupts enabled and the gs bases exchanged, and every other register is
    zero: nothing of the kernel is left in them. *)
Theorem user_thread_starts rsp0 size entry stack params m s :
  regs s RSP = thread_rsp rsp0 size -> mem s = thread_stack rsp0 size entry stack params m ->
  let s' := user_thread_entry s in
  rip s' = entry /\ regs s' RSP = stack /\ regs s' RDI = params /\
  (forall r, r <> RSP -> r <> RDI -> regs s' r = 0) /\
  cs s' = 0x43 /\ ss s' = 0x3B /\ rflags s' = 0x202 /\ gs s' = other_gs s /\ other_gs s' = gs s.
Proof.
  intros Hsp Hm. assert (mem s (regs s RSP + 16) = entry /\ mem s (regs s RSP + 8) = stack /\ mem s (regs s RSP + 0) = params)
    as (M1 & M2 & M3).
  { rewrite Hsp, Hm. unfold thread_rsp, thread_stack. split_and!; by repeat case_decide; try lia. }
  unfold user_thread_entry. cbn [exec exec1 regs set_reg reg_eqb reg_number Nat.eqb].
  destruct (enter_user_mode_spec entry stack params
    (set_reg RDX params (set_reg RSI stack (set_reg RDI entry s)))) as (? & ? & ? & ? & ? & ? & ? & ? & ?).
  cbn [mem set_reg]. rewrite M1, M2, M3. cbn zeta. split_and!; done.
Qed.

(** ** Runs *)

Module Runs.

(** A processor in user mode with interrupts enabled, the kernel's per-processor
    words at 0x4000 and a kernel stack that ends at 0x9000. *)
Definition user : Cpu :=
  mkCpu (fun r => 0x100 + Z.of_nat (reg_number r)) (fun a => if a =? 0x4008 then 0x9000 else 7) 0x401000 0x202 0x43 0x3B
    0x1000 0x4000.
Definition addr (h : Handler) : Z := 0x8000_0000.
Definition kernel_tss : TaskStateSegment := tss_init 0xA000 (set_rsp0 0x9000 tss_null).

(** A breakpoint handler that moves the instruction pointer on by one. *)
Definition skip (a : Z) (s : Cpu) : Cpu := set_mem (a + 8 * 15) (mem s (a + 8 * 15) + 1) s.

Lemma handler_frame_types_witness :
  exists e, init addr !! INDEX_PAGE_FAULT = Some e /\
    let s2 := exec enter (deliver kernel_tss e (Some 6) user) in
    Some (field_at StackFrameWithErrorCode FErrorCode (regs s2 RDI) (mem s2)) = Some 6 /\
    Some (field_at StackFrameWithErrorCode (FReg RSI) (regs s2 RDI) (mem s2)) = Some 0x106.
Proof.
  eexists. split; [reflexivity|].
  destruct (handler_frame_types addr kernel_tss INDEX_PAGE_FAULT page_fault
    (enable (disable_interrupt (set_function_pointer (addr page_fault) entry_new))) (Some 6) user) as [H _].
  - by apply (list_elem_of_lookup_2 _ 8).
  - reflexivity.
  - vm_compute. reflexivity.
  - split.
    + apply (H FErrorCode). apply (bool_decide_unpack _). vm_compute. exact I.
    + apply (H (FReg RSI)). apply (bool_decide_unpack _). vm_compute. exact I.
Defined.

Lemma id_returns : returns (fun s => s).
Proof. by intros s. Qed.

Lemma skip_returns a : returns (skip a).
Proof. by intros s. Qed.

Lemma interrupt_returns_frame_witness :
  let s' := exec (interrupt_handler skip (fun s => s)) (deliver kernel_tss (enable entry_new) None user) in
  rip s' = 0x401001 /\ regs s' RAX = 0x100 /\ gs s' = 0x1000.
Proof.
  destruct (interrupt_returns_frame skip (fun s => s) skip_returns id_returns kernel_tss (enable entry_new) None user)
    as (H1 & H2 & H3 & H4 & H5 & H6 & H7 & H8).
  split_and!; [etrans; [exact H3|]|etrans; [apply (H1 RAX); apply (bool_decide_unpack _); vm_compute; exact I|]|exact H7];
    vm_compute; reflexivity.
Defined.

Lemma nested_interrupt_user_gs_witness :
  let s1 := exec (take 3 enter) (deliver kernel_tss (enable (disable_interrupt entry_new)) None user) in
  gs (exec enter (deliver kernel_tss (enable entry_new) None s1)) = 0x1000.
Proof.
  destruct (nested_interrupt_user_gs skip (fun s => s) kernel_tss (enable (disable_interrupt entry_new)) (enable entry_new)
    None None 3 user) as (_ & _ & H); [repeat constructor|reflexivity|exact H].
Defined.

Definition code_addr (h : Syscall) : Z := match h with current_thread => 0x77 | _ => 0x88 end.
Definition query (s : Cpu) : Cpu := set_mem (regs s RSI) (query_syscall_handler code_addr (regs s RDI)) s.
(** The code at an address leaves the sum of two arguments and the address. *)
Definition code (a : Z) (s : Cpu) : Cpu := set_reg RAX (regs s RSI + regs s RCX + a) s.

Definition caller : Cpu := set_reg RAX 0x200001 user.

Lemma syscall_returns_witness :
  let s' := exec (syscall_entry query (fun s => s) code) (syscall 0x401002 caller) in
  rip s' = 0x401002 /\ regs s' RSP = 0x104 /\ gs s' = 0x1000.
Proof.
  destruct (syscall_returns query (fun s => s) code code_addr 0x9000) with (u := caller) (next := 0x401002)
    as (H1 & _ & _ & _ & H5 & _ & H7 & _).
  - by intros s.
  - intros s b _. reflexivity.
  - by split.
  - intros a. split; [|by intros s b]. intros s. split; [|done].
    apply Forall_forall. by repeat constructor.
  - reflexivity.
  - apply Forall_forall. rewrite !Forall_cons, Forall_nil. split_and!; [unfold OFFSET_SYSCALL_STACK, OFFSET_SYSCALL_USER_STACK; change (other_gs caller) with 0x4000; lia..|done].
  - split_and!; [exact H1|etrans; [apply H7; apply (bool_decide_unpack _); vm_compute; exact I|reflexivity]|exact H5].
Defined.

Lemma switch_context_roundtrip_witness :
  let s1 := exec switch_thread_internal caller in
  let t' := switch_to_context (read_context (regs s1 RDI) (mem s1)) user in
  rip t' = 7 /\ regs t' RSP = 0x104 + 8.
Proof.
  destruct (switch_context_roundtrip (fun s => s) caller) as (_ & _ & H); [by intros s|by intros s|].
  destruct (H user) as (H1 & H2 & _). split; [exact H1|exact H2].
Defined.

Definition fresh : Cpu :=
  mkCpu (fun r => if reg_eqb r RSP then thread_rsp 0x8000 0x1000 else 0xDEAD)
    (thread_stack 0x8000 0x1000 0x401000 0x7FF8 42 (fun _ => 0)) 0 0 0x18 0 0x4000 0.

Lemma user_thread_starts_witness :
  rip (user_thread_entry fresh) = 0x401000 /\ regs (user_thread_entry fresh) RDI = 42 /\
  regs (user_thread_entry fresh) RBX = 0.
Proof.
  destruct (user_thread_starts 0x8000 0x1000 0x401000 0x7FF8 42 (fun _ => 0) fresh eq_refl eq_refl)
    as (H1 & _ & H3 & H4 & _).
  split_and!; [exact H1|exact H3|by apply H4].
Defined.

End Runs.
