(* ===== verification/Physics.v ===== *)
(** * Physical memory and its frames (kernel/src/memory/physics.rs)

    The memory of the machine as bytes, the window through which the kernel
    reaches a physical address (entry 3 of [LOADER_PT], mapped at 0x3000), and
    the allocator of 4K frames. The frames given back form a list whose links
    are in the frames themselves.

    The entry of the window is a field of its own: the boot loader's table is
    in the memory of the loader, which the allocator never hands out. *)
From S2P Require Import Prelude.

(** [bootloader::MemoryRegion] *)
Record MemoryRegion : Type := mkMemoryRegion {
  base_addr : Z;
  region_length : Z;
  region_type : Z;
}.

(** [PageEntry::P_*] *)
Definition P_PRESENT : Z := Z.shiftl 1 0.
Definition P_RW : Z := Z.shiftl 1 1.
Definition P_US : Z := Z.shiftl 1 2.
Definition P_PS : Z := Z.shiftl 1 7.
Definition P_NX : Z := Z.shiftl 1 62.

Record Machine : Type := mkMachine {
  ram : Z -> Z;                        (* the byte at a physical address *)
  temp : Z;                            (* LOADER_PT[3] *)
  PML4 : option Z;
  LOADER_PT : option Z;
  KERNEL_PD : option Z;
  MEMORY_REGION : list MemoryRegion;
  first_alloc_address : option Z;      (* FRAME_ALLOCATOR *)
  linked_free_address : option Z;
}.

Definition set_ram (m : Z -> Z) (s : Machine) : Machine :=
  mkMachine m (temp s) (PML4 s) (LOADER_PT s) (KERNEL_PD s) (MEMORY_REGION s)
    (first_alloc_address s) (linked_free_address s).
Definition set_temp (e : Z) (s : Machine) : Machine :=
  mkMachine (ram s) e (PML4 s) (LOADER_PT s) (KERNEL_PD s) (MEMORY_REGION s)
    (first_alloc_address s) (linked_free_address s).
Definition set_first (a : option Z) (s : Machine) : Machine :=
  mkMachine (ram s) (temp s) (PML4 s) (LOADER_PT s) (KERNEL_PD s) (MEMORY_REGION s)
    a (linked_free_address s).
Definition set_linked (a : option Z) (s : Machine) : Machine :=
  mkMachine (ram s) (temp s) (PML4 s) (LOADER_PT s) (KERNEL_PD s) (MEMORY_REGION s)
    (first_alloc_address s) a.
Definition set_region (rs : list MemoryRegion) (s : Machine) : Machine :=
  mkMachine (ram s) (temp s) (PML4 s) (LOADER_PT s) (KERNEL_PD s) rs
    (first_alloc_address s) (linked_free_address s).

(** ** Bytes of memory *)

Definition load (m : Z -> Z) (a n : Z) : list Z := m <$> seqZ a n.

Definition store (m : Z -> Z) (a : Z) (bs : list Z) : Z -> Z := fun x =>
  if (a <=? x) && (x <? a + Z.of_nat (length bs)) then default 0 (bs !! Z.to_nat (x - a)) else m x.

Definition fill (m : Z -> Z) (a n b : Z) : Z -> Z := fun x =>
  if (a <=? x) && (x <? a + n) then b else m x.

(** [NonZeroUsize::new], and [Option<NonZeroUsize>] in memory. *)
Definition nonzero (x : Z) : option Z := if x =? 0 then None else Some x.
Definition encode_option (a : option Z) : list Z := to_le 8 (default 0 a).

Section physics.
  Context {E : Type}.

(** ** The window *)

Definition insert_temp_page_table (address : Z) : M Machine E (Z * Z) :=
  let aligned := Z.land address 0xFFFFFFFFFFFFF000 in
  let virtual_start := address - aligned + 0x3000 in
  top ← checked 64 (aligned + 0x1000);
  let virtual_len := top - address in
  pt ← gets LOADER_PT;
  match pt with
  | None => panic
  | Some _ =>
      modify (set_temp (Z.lor (Z.lor aligned P_PRESENT) P_RW));;
      mret (virtual_start, virtual_len)
  end.

(** The physical address behind a virtual address of the window. *)
Definition window_address (s : Machine) (start : Z) : Z :=
  Z.land (temp s) 0x000FFFFFFFFFF000 + Z.land start 0xFFF.

(** Enough rounds for [size] bytes: one for each page the range touches. *)
Definition rounds (size : Z) : nat := Z.to_nat (size / 0x1000 + 3).

Fixpoint read_loop (fuel : nat) (src_start src_end : Z) (dst : list Z) : M Machine E (list Z) :=
  match fuel with
  | O => diverge
  | S fuel =>
      if src_start <? src_end then
        '(start, len) ← insert_temp_page_table src_start;
        let len := Z.min len (src_end - src_start) in
        bs ← gets (fun s => load (ram s) (window_address s start) len);
        read_loop fuel (src_start + len) src_end (dst ++ bs)
      else mret dst
  end.

Definition read_memory (address size : Z) : M Machine E (list Z) :=
  src_end ← checked 64 (address + size);
  read_loop (rounds size) address src_end [].

Fixpoint write_loop (fuel : nat) (dst_start dst_end : Z) (src : list Z) : M Machine E unit :=
  match fuel with
  | O => diverge
  | S fuel =>
      if dst_start <? dst_end then
        '(start, len) ← insert_temp_page_table dst_start;
        let len := Z.min len (dst_end - dst_start) in
        modify (fun s =>
          set_ram (store (ram s) (window_address s start) (take (Z.to_nat len) src)) s);;
        write_loop fuel (dst_start + len) dst_end (drop (Z.to_nat len) src)
      else mret tt
  end.

Definition write_memory (address : Z) (src : list Z) : M Machine E unit :=
  let size := Z.of_nat (length src) in
  dst_end ← checked 64 (address + size);
  write_loop (rounds size) address dst_end src.

Fixpoint zero_loop (fuel : nat) (dst_start dst_end : Z) : M Machine E unit :=
  match fuel with
  | O => diverge
  | S fuel =>
      if dst_start <? dst_end then
        '(start, len) ← insert_temp_page_table dst_start;
        let len := Z.min len (dst_end - dst_start) in
        modify (fun s => set_ram (fill (ram s) (window_address s start) len 0) s);;
        zero_loop fuel (dst_start + len) dst_end
      else mret tt
  end.

Definition zero_memory (address size : Z) : M Machine E unit :=
  dst_end ← checked 64 (address + size);
  zero_loop (rounds size) address dst_end.

(** ** The frame allocator *)

(** The loop over the regions: the first and the last address of the frame. *)
Fixpoint scan_regions (first : Z) (rs : list MemoryRegion) : M Machine E (option (Z * Z)) :=
  match rs with
  | [] => mret None
  | r :: rs =>
      let region_start := base_addr r in
      region_end ← checked 64 (region_start + region_length r);
      if region_end <=? first then scan_regions first rs
      else
        let alloc_start := Z.max region_start first in
        let alloc_start :=
          if Z.land alloc_start 0xFFF =? 0 then alloc_start
          else Z.land alloc_start 0x1000 + 0x1000 in
        alloc_end ← checked 64 (alloc_start + 0x1000);
        if region_end <? alloc_end then scan_regions first rs
        else mret (Some (alloc_start, alloc_end))
  end.

Definition alloc_frame : M Machine E (option Z) :=
  linked ← gets linked_free_address;
  match linked with
  | Some address =>
      next ← read_memory address 8;
      modify (set_linked (nonzero (from_le next)));;
      mret (Some address)
  | None =>
      first ← gets first_alloc_address;
      match first with
      | Some first =>
          rs ← gets MEMORY_REGION;
          found ← scan_regions first rs;
          match found with
          | Some (alloc_start, alloc_end) =>
              modify (set_first (nonzero alloc_end));;
              mret (nonzero alloc_start)
          | None => modify (set_first None);; mret None
          end
      | None => modify (set_first None);; mret None
      end
  end.

Definition delloc_frame (address : Z) : M Machine E unit :=
  linked ← gets linked_free_address;
  write_memory address (encode_option linked);;
  modify (set_linked (Some address)).

End physics.
