(* ===== verification/PhysicsSpec.v ===== *)
(** * Properties of physical memory and the frame allocator

    Access through the window is access to the physical address, for every
    length; the allocator never hands out a frame that is in use, whatever the
    holders of frames write into them. *)
From S2P Require Import Prelude Physics.
From Stdlib Require Import Morphisms Sorted.

(** ** Alignment *)

Lemma land_high x k n :
  0 <= k <= n -> 0 <= x < 2 ^ n -> Z.land x (2 ^ n - 2 ^ k) = x - x `mod` 2 ^ k.
Proof.
  intros Hk Hx.
  assert (2 ^ n - 2 ^ k = Z.ldiff (Z.ones n) (Z.ones k)) as ->.
  { rewrite Z.ldiff_ones_r by lia. rewrite Z.shiftr_div_pow2, Z.shiftl_mul_pow2 by lia.
    rewrite Z.ones_equiv. assert (2 ^ n = 2 ^ (n - k) * 2 ^ k) as Hn by (rewrite <-Z.pow_add_r; f_equal; lia).
    assert (0 < 2 ^ k) by (apply Z.pow_pos_nonneg; lia).
    replace (Z.pred (2 ^ n)) with ((2 ^ (n - k) - 1) * 2 ^ k + (2 ^ k - 1)) by lia.
    rewrite Z.div_add_l, (Z.div_small (2 ^ k - 1)) by lia. lia. }
  assert (Z.land x (Z.ldiff (Z.ones n) (Z.ones k)) = Z.ldiff x (Z.ones k)) as ->.
  { apply Z.bits_inj'. intros i Hi. rewrite Z.land_spec, !Z.ldiff_spec.
    destruct (decide (i < n)).
    - rewrite Z.ones_spec_low by lia. by destruct (Z.testbit x i).
    - rewrite (testbit_above x n i) by lia. done. }
  rewrite Z.ldiff_ones_r, Z.shiftr_div_pow2, Z.shiftl_mul_pow2 by lia.
  pose proof (Z.div_mod x (2 ^ k)). lia.
Qed.

Lemma align_down x : 0 <= x < 2 ^ 64 -> Z.land x 0xFFFFFFFFFFFFF000 = x - x `mod` 0x1000.
Proof. apply (land_high x 12 64). lia. Qed.

Lemma address_mask x : 0 <= x < 2 ^ 52 -> Z.land x 0x000FFFFFFFFFF000 = x - x `mod` 0x1000.
Proof. apply (land_high x 12 52). lia. Qed.

(** Flags in the low bits of an aligned address. *)
Lemma lor_low x f k : 0 <= k -> x `mod` 2 ^ k = 0 -> 0 <= f < 2 ^ k -> Z.lor x f = x + f.
Proof.
  intros Hk Hx Hf.
  assert (0 < 2 ^ k) by (apply Z.pow_pos_nonneg; lia).
  assert (x = Z.shiftl (x / 2 ^ k) k) as ->.
  { rewrite Z.shiftl_mul_pow2 by lia. pose proof (Z.div_mod x (2 ^ k)). lia. }
  symmetry. apply Z.add_nocarry_lor. apply Z.bits_inj'. intros i Hi.
  rewrite Z.land_spec, Z.bits_0. destruct (decide (i < k)).
  - by rewrite Z.shiftl_spec_low by lia.
  - rewrite (testbit_above f k i) by lia. apply andb_false_r.
Qed.

(** ** Bytes of memory *)

Definition meq : relation (Z -> Z) := pointwise_relation Z eq.

#[global] Instance meq_equiv : Equivalence meq.
Proof. apply _. Qed.

Definition word (m : Z -> Z) (a : Z) : Z := from_le (load m a 8).

#[global] Instance load_proper : Proper (meq ==> eq ==> eq ==> eq) load.
Proof. intros m m' Hm a ? <- n ? <-. unfold load. apply list_fmap_ext. intros. apply Hm. Qed.

#[global] Instance word_proper : Proper (meq ==> eq ==> eq) word.
Proof. intros m m' Hm a ? <-. unfold word. by rewrite Hm. Qed.

#[global] Instance store_proper : Proper (meq ==> eq ==> eq ==> meq) store.
Proof. intros m m' Hm a ? <- bs ? <- x. unfold store. by destruct (_ && _). Qed.

#[global] Instance fill_proper : Proper (meq ==> eq ==> eq ==> eq ==> meq) fill.
Proof. intros m m' Hm a ? <- n ? <- b ? <- x. unfold fill. by destruct (_ && _). Qed.

Lemma load_ext m m' a n : (forall x, a <= x < a + n -> m x = m' x) -> load m a n = load m' a n.
Proof.
  intros H. unfold load. apply list_fmap_ext. intros i x Hx.
  apply lookup_seqZ in Hx. apply H. lia.
Qed.

Lemma length_load m a n : length (load m a n) = Z.to_nat n.
Proof. unfold load. by rewrite length_fmap, length_seqZ. Qed.

Lemma load_app m a n k : 0 <= n -> 0 <= k -> load m a (n + k) = load m a n ++ load m (a + n) k.
Proof. intros. unfold load. by rewrite seqZ_app, fmap_app by lia. Qed.

Lemma store_in m a bs x :
  a <= x < a + Z.of_nat (length bs) -> store m a bs x = default 0 (bs !! Z.to_nat (x - a)).
Proof. intros. unfold store. by rewrite (proj2 (Z.leb_le _ _)), (proj2 (Z.ltb_lt _ _)) by lia. Qed.

Lemma store_out m a bs x :
  x < a \/ a + Z.of_nat (length bs) <= x -> store m a bs x = m x.
Proof.
  intros H. unfold store. destruct (a <=? x) eqn:?, (x <? _) eqn:?; bool_to_prop; done || lia.
Qed.

Lemma fill_in m a n b x : a <= x < a + n -> fill m a n b x = b.
Proof. intros. unfold fill. by rewrite (proj2 (Z.leb_le _ _)), (proj2 (Z.ltb_lt _ _)) by lia. Qed.

Lemma fill_out m a n b x : x < a \/ a + n <= x -> fill m a n b x = m x.
Proof.
  intros H. unfold fill. destruct (a <=? x) eqn:?, (x <? _) eqn:?; bool_to_prop; done || lia.
Qed.

Lemma load_store m a bs : load (store m a bs) a (Z.of_nat (length bs)) = bs.
Proof.
  apply list_eq. intros i. unfold load. rewrite list_lookup_fmap.
  destruct (decide (i < length bs)%nat) as [Hi|Hi].
  - rewrite lookup_seqZ_lt by lia. cbn. rewrite store_in by lia.
    replace (Z.to_nat (a + Z.of_nat i - a)) with i by lia.
    by destruct (lookup_lt_is_Some_2 bs i Hi) as [b ->].
  - rewrite lookup_seqZ_ge, lookup_ge_None_2 by lia. done.
Qed.

Lemma store_app m a bs bs' :
  meq (store (store m a bs) (a + Z.of_nat (length bs)) bs') (store m a (bs ++ bs')).
Proof.
  intros x. destruct (decide (a + Z.of_nat (length bs) <= x < a + Z.of_nat (length bs + length bs'))).
  - rewrite store_in, store_in by (rewrite ?length_app; lia).
    rewrite lookup_app_r by lia. do 2 f_equal. lia.
  - rewrite store_out by lia. destruct (decide (a <= x < a + Z.of_nat (length bs))).
    + rewrite !store_in by (rewrite ?length_app; lia). by rewrite lookup_app_l by lia.
    + by rewrite !store_out by (rewrite ?length_app; lia).
Qed.

Lemma store_nil m a : meq (store m a []) m.
Proof. intros x. apply store_out. cbn. lia. Qed.

Lemma fill_app m a n k b :
  0 <= n -> 0 <= k -> meq (fill (fill m a n b) (a + n) k b) (fill m a (n + k) b).
Proof.
  intros ?? x. destruct (decide (a + n <= x < a + n + k)); [by rewrite !fill_in by lia|].
  rewrite fill_out by lia. destruct (decide (a <= x < a + n)); [by rewrite !fill_in by lia|].
  by rewrite !fill_out by lia.
Qed.

Lemma fill_0 m a b : meq (fill m a 0 b) m.
Proof. intros x. apply fill_out. lia. Qed.

(** Words *)

Definition put (m : Z -> Z) (a v : Z) : Z -> Z := store m a (to_le 8 v).

Lemma word_put m a v : 0 <= v < 2 ^ 64 -> word (put m a v) a = v.
Proof.
  intros Hv. unfold word, put. pose proof (load_store m a (to_le 8 v)) as H.
  rewrite length_to_le in H. change (Z.of_nat 8) with 8 in H. rewrite H. by apply from_to_le.
Qed.

Lemma word_put_ne m a b v : b + 8 <= a \/ a + 8 <= b -> word (put m a v) b = word m b.
Proof.
  intros. unfold word, put. f_equal. apply load_ext. intros x Hx.
  apply store_out. rewrite length_to_le. lia.
Qed.

Lemma word_fill m a n b : a <= b -> b + 8 <= a + n -> word (fill m a n 0) b = 0.
Proof.
  intros. unfold word. rewrite (load_ext _ (fun _ => 0)); [done|].
  intros x Hx. apply fill_in. lia.
Qed.

Lemma word_fill_ne m a n b c : b + 8 <= a \/ a + n <= b -> word (fill m a n c) b = word m b.
Proof. intros. unfold word. f_equal. apply load_ext. intros x Hx. apply fill_out. lia. Qed.

(** ** The window *)

(** [s'] is [s] with memory [m], but for the entry of the window. *)
Definition after (s : Machine) (m : Z -> Z) (s' : Machine) : Prop :=
  meq (ram s') m /\ s' = set_temp (temp s') (set_ram (ram s') s).

Definition is_init (s : Machine) : Prop := is_Some (LOADER_PT s).

Lemma after_refl s : after s (ram s) s.
Proof. split; [done|]. by destruct s. Qed.

Lemma after_trans s m s' m' s'' : after s m s' -> after s' m' s'' -> after s m' s''.
Proof. intros [H1 H2] [H3 H4]. split; [done|]. rewrite H4, H2. by destruct s, s', s''. Qed.

Lemma after_meq s m m' s' : meq m m' -> after s m s' -> after s m' s'.
Proof. intros Hm [H1 H2]. split; [|done]. by rewrite H1. Qed.

Lemma after_init s m s' : after s m s' -> is_init s -> is_init s'.
Proof. intros [_ ->]. done. Qed.

Section window.
  Context {E : Type}.
  Implicit Types Q : Z * Z -> Machine -> Prop.

Lemma insert_temp_spec a s Q :
  is_init s -> 0 <= a < 2 ^ 52 ->
  (forall start s', after s (ram s) s' -> ram s' = ram s -> window_address s' start = a ->
     Q (start, 0x1000 - a `mod` 0x1000) s') ->
  wp (insert_temp_page_table (E:=E) a) s Q.
Proof.
  intros [pt Hpt] Ha HQ. unfold insert_temp_page_table. rewrite align_down by lia.
  wp_step. wp_step; [lia|]. wp_step. wp_step. rewrite Hpt. wp_step. wp_step. wp_step.
  assert (a - a `mod` 4096 + 4096 - a = 4096 - a `mod` 4096) as -> by lia.
  apply HQ; [split; [done|by destruct s]|done|].
  unfold window_address. cbn [temp set_temp]. rewrite land_low.
  rewrite <-Z.lor_assoc. change (Z.lor P_PRESENT P_RW) with 3.
  rewrite (lor_low _ 3 12) by lia. rewrite address_mask by lia. lia.
Qed.

(** Rounds a range needs. *)
Definition enough (fuel : nat) (a b : Z) : Prop :=
  (1 <= fuel)%nat /\ (a < b -> b / 0x1000 - a / 0x1000 + 2 <= Z.of_nat fuel).

Lemma rounds_enough a n : 0 <= a -> 0 <= n -> enough (rounds n) a (a + n).
Proof. intros. unfold enough, rounds. lia. Qed.

Lemma read_loop_spec fuel a b dst s (Q : list Z -> Machine -> Prop) :
  is_init s -> 0 <= a <= b -> b <= 2 ^ 52 -> enough fuel a b ->
  (forall s', after s (ram s) s' -> Q (dst ++ load (ram s) a (b - a)) s') ->
  wp (read_loop (E:=E) fuel a b dst) s Q.
Proof.
  unfold enough.
  revert a dst s. induction fuel as [|fuel IH]; intros a dst s Hi Ha Hb Hf HQ; [lia|].
  cbn [read_loop]. destruct (a <? b) eqn:Hab; bool_to_prop.
  - wp_step. apply insert_temp_spec; [done|lia|]. intros start s' Hs Hram Hw. wp_step. wp_step.
    rewrite Hw, Hram. set (len := Z.min _ _).
    apply IH; [by eapply after_init|lia|lia|subst len; lia|].
    intros s'' Hs'. rewrite Hram, <-app_assoc, <-load_app by lia.
    replace (len + (b - (a + len))) with (b - a) by lia. apply HQ.
    rewrite Hram in Hs'. by eapply after_trans.
  - wp_step. replace (b - a) with 0 in HQ by lia. unfold load in HQ.
    rewrite seqZ_nil, app_nil_r in HQ by lia. apply HQ, after_refl.
Qed.

Lemma write_loop_spec fuel a b src s (Q : unit -> Machine -> Prop) :
  is_init s -> 0 <= a -> b = a + Z.of_nat (length src) -> b <= 2 ^ 52 -> enough fuel a b ->
  (forall s', after s (store (ram s) a src) s' -> Q tt s') ->
  wp (write_loop (E:=E) fuel a b src) s Q.
Proof.
  unfold enough.
  revert a src s. induction fuel as [|fuel IH]; intros a src s Hi Ha Hb Hb' Hf HQ; [lia|].
  cbn [write_loop]. destruct (a <? b) eqn:Hab; bool_to_prop.
  - wp_step. apply insert_temp_spec; [done|lia|]. intros start s' Hs Hram Hw. wp_step. wp_step.
    rewrite Hw, Hram. set (len := Z.min _ _). set (m1 := store _ _ _).
    assert (Hl : Z.of_nat (length (take (Z.to_nat len) src)) = len) by (rewrite length_take; lia).
    apply IH; [by eapply after_init in Hs|lia|rewrite length_drop; lia|done|subst len; lia|].
    intros s'' Hs'. apply HQ. apply (after_meq _ (store m1 (a + len) (drop (Z.to_nat len) src))).
    + replace (a + len) with (a + Z.of_nat (length (take (Z.to_nat len) src))) by lia.
      subst m1. etrans; [apply store_app|]. by rewrite take_drop.
    + cbn in Hs'. destruct Hs' as [H1 H2], Hs as [H3 H4]. split; [done|]. rewrite H2, H4.
      by destruct s, s', s''.
  - wp_step. destruct src; [|cbn in Hb; lia]. apply HQ.
    eapply after_meq; [|apply after_refl]. symmetry. apply store_nil.
Qed.

Lemma zero_loop_spec fuel a b s (Q : unit -> Machine -> Prop) :
  is_init s -> 0 <= a <= b -> b <= 2 ^ 52 -> enough fuel a b ->
  (forall s', after s (fill (ram s) a (b - a) 0) s' -> Q tt s') ->
  wp (zero_loop (E:=E) fuel a b) s Q.
Proof.
  unfold enough.
  revert a s. induction fuel as [|fuel IH]; intros a s Hi Ha Hb Hf HQ; [lia|].
  cbn [zero_loop]. destruct (a <? b) eqn:Hab; bool_to_prop.
  - wp_step. apply insert_temp_spec; [done|lia|]. intros start s' Hs Hram Hw. wp_step. wp_step.
    rewrite Hw, Hram. set (len := Z.min _ _).
    apply IH; [by eapply after_init in Hs|lia|done|subst len; lia|].
    intros s'' Hs'. apply HQ.
    apply (after_meq _ (fill (fill (ram s) a len 0) (a + len) (b - (a + len)) 0)).
    + etrans; [apply fill_app; lia|]. by replace (len + (b - (a + len))) with (b - a) by lia.
    + cbn in Hs'. destruct Hs' as [H1 H2], Hs as [H3 H4]. split; [done|]. rewrite H2, H4.
      by destruct s, s', s''.
  - wp_step. replace (b - a) with 0 in HQ by lia. apply HQ.
    eapply after_meq; [|apply after_refl]. symmetry. apply fill_0.
Qed.

Lemma read_memory_spec a n s (Q : list Z -> Machine -> Prop) :
  is_init s -> 0 <= a -> 0 <= n -> a + n <= 2 ^ 52 ->
  (forall s', after s (ram s) s' -> Q (load (ram s) a n) s') ->
  wp (read_memory (E:=E) a n) s Q.
Proof.
  intros Hi Ha Hn Hb HQ. unfold read_memory. wp_step. wp_step; [lia|].
  apply read_loop_spec; [done|lia|done|by apply rounds_enough|].
  replace (a + n - a) with n by lia. done.
Qed.

Lemma write_memory_spec a bs s (Q : unit -> Machine -> Prop) :
  is_init s -> 0 <= a -> a + Z.of_nat (length bs) <= 2 ^ 52 ->
  (forall s', after s (store (ram s) a bs) s' -> Q tt s') ->
  wp (write_memory (E:=E) a bs) s Q.
Proof.
  intros Hi Ha Hb HQ. unfold write_memory. wp_step. wp_step; [lia|].
  apply write_loop_spec; try done. apply rounds_enough; lia.
Qed.

Lemma zero_memory_spec a n s (Q : unit -> Machine -> Prop) :
  is_init s -> 0 <= a -> 0 <= n -> a + n <= 2 ^ 52 ->
  (forall s', after s (fill (ram s) a n 0) s' -> Q tt s') ->
  wp (zero_memory (E:=E) a n) s Q.
Proof.
  intros Hi Ha Hn Hb HQ. unfold zero_memory. wp_step. wp_step; [lia|].
  apply zero_loop_spec; [done|lia|done|by apply rounds_enough|].
  replace (a + n - a) with n by lia. done.
Qed.

End window.

(** ** The frame allocator *)

Definition region_end (r : MemoryRegion) : Z := base_addr r + region_length r.

(** Regions that end below the limit of physical addresses. A region that
    starts above [lo], the first address handed out, starts on a page boundary:
    the code that rounds the start of any other is wrong, see
    [alloc_frame_unaligned_region]. *)
Definition region_ok (lo : Z) (r : MemoryRegion) : Prop :=
  0 <= base_addr r /\ (lo < base_addr r -> base_addr r `mod` 0x1000 = 0) /\ 0 <= region_length r /\
  region_end r <= 2 ^ 52.

(** In ascending order without overlap, as the boot loader leaves them. *)
Definition regions_ok (lo : Z) (rs : list MemoryRegion) : Prop :=
  Forall (region_ok lo) rs /\ StronglySorted (fun r r' => region_end r <= base_addr r') rs.

(** [a] is a frame of the regions. *)
Definition in_region (rs : list MemoryRegion) (a : Z) : Prop :=
  a `mod` 0x1000 = 0 /\ exists r, r ∈ rs /\ base_addr r <= a /\ a + 0x1000 <= region_end r.

Definition frame_ok (rs : list MemoryRegion) (a : Z) : Prop := 0 < a /\ in_region rs a.

Lemma frame_bounds lo rs a : regions_ok lo rs -> frame_ok rs a -> 0 < a /\ a `mod` 0x1000 = 0 /\ a + 0x1000 <= 2 ^ 52.
Proof.
  intros [Hr _] (Ha & Hm & r & Hin & _ & Hend). rewrite Forall_forall in Hr.
  apply Hr in Hin as (_ & _ & _ & Hlim). lia.
Qed.

(** The list of free frames in memory. *)
Fixpoint chain (m : Z -> Z) (head : option Z) (l : list Z) : Prop :=
  match l with
  | [] => head = None
  | a :: l => head = Some a /\ chain m (nonzero (word m a)) l
  end.

Lemma chain_agree m m' head l :
  (forall a, a ∈ l -> word m' a = word m a) -> chain m head l -> chain m' head l.
Proof.
  revert head. induction l as [|a l IH]; intros head H; cbn; [done|]. intros [-> Hc].
  rewrite H by apply list_elem_of_here. split; [done|].
  apply IH; [|done]. intros. apply H. by apply list_elem_of_further.
Qed.

(** [used] are the frames handed out, [free] those given back; the frames of
    the regions from [lo] on are in one of them or have not been handed out. *)
Record alloc_inv (lo : Z) (s : Machine) (used : gset Z) (free : list Z) : Prop := {
  ai_init : is_init s;
  ai_regions : regions_ok lo (MEMORY_REGION s);
  ai_chain : chain (ram s) (linked_free_address s) free;
  ai_nodup : NoDup free;
  ai_disjoint : forall a, a ∈ free -> a ∉ used;
  ai_frames : forall a, a ∈ free \/ a ∈ used -> frame_ok (MEMORY_REGION s) a;
  ai_first : forall f, first_alloc_address s = Some f -> 0 < f /\ lo <= f /\ f `mod` 0x1000 = 0;
  ai_low : forall a, a ∈ free \/ a ∈ used -> lo <= a;
  ai_below : forall f a, first_alloc_address s = Some f -> a ∈ free \/ a ∈ used -> a < f;
  ai_complete : forall a, in_region (MEMORY_REGION s) a -> lo <= a ->
    a ∈ used \/ a ∈ free \/ exists f, first_alloc_address s = Some f /\ f <= a;
}.

(** The allocator looks at memory only through the links of free frames. *)
Lemma alloc_inv_ram lo s used free m s' :
  alloc_inv lo s used free -> after s m s' -> (forall a, a ∈ free -> word m a = word (ram s) a) ->
  alloc_inv lo s' used free.
Proof.
  intros [] [Hm Hs] Hw. rewrite Hs. split; try done.
  cbn. eapply chain_agree; [|done]. intros a Ha. rewrite (word_proper _ _ Hm a a eq_refl). by apply Hw.
Qed.

Lemma nonzero_Some a : a <> 0 -> nonzero a = Some a.
Proof. intros. unfold nonzero. by destruct (a =? 0) eqn:?; bool_to_prop. Qed.

Section allocator.
  Context {E : Type}.

Lemma in_region_cons r rs a :
  in_region (r :: rs) a <->
  (a `mod` 0x1000 = 0 /\ base_addr r <= a /\ a + 0x1000 <= region_end r) \/ in_region rs a.
Proof.
  unfold in_region. split.
  - intros (Hm & r' & Hin & H). apply elem_of_cons in Hin as [->|Hin]; [by left|right; eauto].
  - intros [(Hm & H)|(Hm & r' & Hin & H)].
    + split; [done|]. exists r. split; [apply list_elem_of_here|done].
    + split; [done|]. exists r'. split; [by apply list_elem_of_further|done].
Qed.

Lemma scan_regions_spec lo first rs s (Q : option (Z * Z) -> Machine -> Prop) :
  regions_ok lo rs -> 0 < first -> lo <= first -> first `mod` 0x1000 = 0 ->
  ((forall a, in_region rs a -> a < first) -> Q None s) ->
  (forall a, in_region rs a -> first <= a -> (forall b, in_region rs b -> b < first \/ a <= b) ->
     Q (Some (a, a + 0x1000)) s) ->
  wp (scan_regions (E:=E) first rs) s Q.
Proof.
  intros Hrs Hf Hlof Hfm. revert Q. induction rs as [|r rs IH]; intros Q HN HS; cbn [scan_regions].
  - wp_step. apply HN. intros a (_ & r & Hin & _). by apply elem_of_nil in Hin.
  - destruct Hrs as [HF HSo]. inversion HF as [|? ? Hr HF']; subst.
    inversion HSo as [|? ? HSo' Hlt]; subst. destruct Hr as (Hb & Hbm & Hl & Hlim).
    assert (Hlater : forall a, in_region rs a -> region_end r <= a).
    { intros a (_ & r' & Hin & Ha & _). rewrite Forall_forall in Hlt. apply Hlt in Hin. lia. }
    assert (Hskip : (forall a, a `mod` 0x1000 = 0 -> base_addr r <= a ->
        a + 0x1000 <= region_end r -> a < first) -> wp (scan_regions (E:=E) first rs) s Q).
    { intros Hno. apply IH; [by split| |].
      - intros H. apply HN. intros a [(?&?&?)|?]%in_region_cons; [by apply Hno|auto].
      - intros a Ha Hfa Hmin. apply HS; [apply in_region_cons; by right|done|].
        intros b [(?&?&?)|?]%in_region_cons; [left; by apply Hno|auto]. }
    wp_step. wp_step; [unfold region_end in *; lia|]. fold (region_end r).
    destruct (_ <=? _) eqn:Hend; bool_to_prop; [apply Hskip; lia|].
    rewrite land_low.
    assert (Z.max (base_addr r) first `mod` 4096 = 0) as Hmod
      by (destruct (decide (lo < base_addr r)); [specialize (Hbm ltac:(lia))|]; lia).
    rewrite Hmod. cbn [Z.eqb]. wp_step. wp_step; [unfold region_end in *; lia|].
    destruct (_ <? _) eqn:Hroom; bool_to_prop; [apply Hskip; lia|]. wp_step.
    apply HS; [apply in_region_cons; left; lia|lia|].
    intros b [(?&?&?)|Hb']%in_region_cons; [lia|]. apply Hlater in Hb'. right.
    destruct (Z.max_spec (base_addr r) first) as [[_ Hmax]|[_ Hmax]]; lia.
Qed.

Lemma alloc_frame_spec lo used free s (Q : option Z -> Machine -> Prop) :
  alloc_inv lo s used free ->
  (forall a free' s', a ∉ used -> frame_ok (MEMORY_REGION s) a -> alloc_inv lo s' ({[a]} ∪ used) free' ->
     meq (ram s') (ram s) -> PML4 s' = PML4 s -> MEMORY_REGION s' = MEMORY_REGION s ->
     Q (Some a) s') ->
  (forall s', (forall a, in_region (MEMORY_REGION s) a -> lo <= a -> a ∈ used) ->
     alloc_inv lo s' used [] -> meq (ram s') (ram s) -> PML4 s' = PML4 s ->
     MEMORY_REGION s' = MEMORY_REGION s -> Q None s') ->
  wp (alloc_frame (E:=E)) s Q.
Proof.
  intros I HS HN. pose proof (ai_chain _ _ _ _ I) as Hc. pose proof (ai_regions _ _ _ _ I) as Hreg.
  unfold alloc_frame. wp_step. wp_step.
  destruct free as [|a free]; cbn in Hc.
  - rewrite Hc. wp_step. wp_step.
    assert (Hnone : (forall a, in_region (MEMORY_REGION s) a -> lo <= a -> a ∈ used) ->
      Q None (set_first None s)).
    { intros Hall. apply HN; try done. destruct I. split; try done.
      cbn. intros a Ha Hlo. left. by apply Hall. }
    destruct (first_alloc_address s) as [f|] eqn:Hf.
    + destruct (ai_first _ _ _ _ I f Hf) as (Hpos & Hlof & Hmod). wp_step. wp_step. wp_step.
      apply (scan_regions_spec lo); [done..| |].
      * intros Hno. wp_step. wp_step. wp_step. apply Hnone. intros a Ha Hlo.
        destruct (ai_complete _ _ _ _ I a Ha Hlo) as [?|[Hn|(f' & Hf' & Hle)]]; [done| |].
        { by apply elem_of_nil in Hn. }
        rewrite Hf in Hf'. injection Hf' as <-. apply Hno in Ha. lia.
      * intros a Ha Hfa Hmin. wp_step. wp_step. wp_step. rewrite !nonzero_Some by lia.
        apply (HS a []); try done.
        { intros Hin. pose proof (ai_below _ _ _ _ I f a Hf (or_intror Hin)). lia. }
        { split; [lia|done]. }
        destruct I. split; try done; cbn.
        { intros b Hb. by apply elem_of_nil in Hb. }
        { intros b [Hb|Hb]; [by apply elem_of_nil in Hb|].
          apply elem_of_union in Hb as [->%elem_of_singleton|Hb]; [split; [lia|done]|auto]. }
        { intros f' [= <-]. pose proof (proj1 Ha). lia. }
        { intros b [Hb|Hb]; [by apply elem_of_nil in Hb|].
          apply elem_of_union in Hb as [->%elem_of_singleton|Hb]; [lia|auto]. }
        { intros f' b [= <-] [Hb|Hb]; [by apply elem_of_nil in Hb|].
          apply elem_of_union in Hb as [->%elem_of_singleton|Hb]; [lia|].
          pose proof (ai_below0 f b Hf (or_intror Hb)). lia. }
        { intros b Hb Hlo. destruct (ai_complete0 b Hb Hlo) as [?|[?|(f' & Hf' & Hle)]].
          - left. set_solver.
          - by right; left.
          - rewrite Hf in Hf'. injection Hf' as <-. destruct (Hmin b Hb) as [?|Hab]; [lia|].
            destruct (decide (b = a)) as [->|]; [left; set_solver|]. right; right.
            exists (a + 4096). split; [done|]. pose proof (proj1 Ha). pose proof (proj1 Hb). lia. }
    + wp_step. wp_step. wp_step. apply Hnone. intros a Ha Hlo.
      destruct (ai_complete _ _ _ _ I a Ha Hlo) as [?|[Hn|(f' & Hf' & Hle)]]; [done| |].
      * by apply elem_of_nil in Hn.
      * by rewrite Hf in Hf'.
  - destruct Hc as [Hl Hc]. rewrite Hl.
    assert (Hfr : frame_ok (MEMORY_REGION s) a) by (apply I; left; apply list_elem_of_here).
    pose proof (frame_bounds _ _ _ Hreg Hfr) as Hb.
    wp_step. apply read_memory_spec; [apply I|lia..|]. intros s' Hs'. wp_step. wp_step. wp_step.
    fold (word (ram s) a). apply (HS a free); try done; try (destruct Hs' as [? ->]; done).
    + apply I. apply list_elem_of_here.
    + pose proof (ai_nodup _ _ _ _ I) as Hnd. apply NoDup_cons in Hnd as [Hna Hnd].
      assert (alloc_inv lo s' used (a :: free)) as I' by (by eapply alloc_inv_ram).
      destruct Hs' as [Hm Hs']. destruct I'. split; try done; cbn.
      * eapply chain_agree; [|done]. intros b Hb'. by apply word_proper.
      * intros b Hb' [->%elem_of_singleton|Hu]%elem_of_union; [done|].
        eapply ai_disjoint0; [by apply list_elem_of_further|done].
      * intros b [Hb'|[->%elem_of_singleton|Hu]%elem_of_union]; apply ai_frames0;
          [left; by apply list_elem_of_further|left; apply list_elem_of_here|by right].
      * intros b [Hb'|[->%elem_of_singleton|Hu]%elem_of_union]; apply ai_low0;
          [left; by apply list_elem_of_further|left; apply list_elem_of_here|by right].
      * intros f b Hf [Hb'|[->%elem_of_singleton|Hu]%elem_of_union]; apply (ai_below0 f _ Hf);
          [left; by apply list_elem_of_further|left; apply list_elem_of_here|by right].
      * intros b Hin Hlo. destruct (ai_complete0 b Hin Hlo) as [?|[[->|Hb']%elem_of_cons|?]];
          [left; set_solver|left; set_solver|by right; left|by right; right].
Qed.

Lemma delloc_frame_spec lo used free a s (Q : unit -> Machine -> Prop) :
  alloc_inv lo s used free -> a ∈ used ->
  (forall s', alloc_inv lo s' (used ∖ {[a]}) (a :: free) ->
     meq (ram s') (store (ram s) a (encode_option (linked_free_address s))) ->
     PML4 s' = PML4 s -> MEMORY_REGION s' = MEMORY_REGION s -> Q tt s') ->
  wp (delloc_frame (E:=E) a) s Q.
Proof.
  intros I Ha HQ. unfold delloc_frame. wp_step. wp_step. wp_step.
  pose proof (frame_bounds _ _ _ (ai_regions _ _ _ _ I) (ai_frames _ _ _ _ I a (or_intror Ha))) as Hb.
  apply write_memory_spec; [apply I|lia|unfold encode_option; rewrite length_to_le; lia|].
  intros s' Hs'. wp_step. pose proof Hs' as [Hm Hs].
  apply HQ; [|done|by rewrite Hs..].
  assert (Hfree : forall b, b ∈ free -> b <> a) by (intros b Hin ->; by eapply ai_disjoint).
  assert (alloc_inv lo s' used free) as I'.
  { eapply alloc_inv_ram; [done..|]. intros b Hin. apply word_put_ne.
    pose proof (frame_bounds _ _ _ (ai_regions _ _ _ _ I) (ai_frames _ _ _ _ I b (or_introl Hin))).
    specialize (Hfree b Hin). lia. }
  assert (word (ram s') a = default 0 (linked_free_address s)) as Hw.
  { rewrite (word_proper _ _ Hm a a eq_refl). apply (word_put (ram s) a).
    destruct (linked_free_address s) as [b|] eqn:Hl; cbn; [|lia].
    assert (b ∈ free) as Hin.
    { pose proof (ai_chain _ _ _ _ I) as Hc. destruct free; cbn in Hc; [by rewrite Hl in Hc|].
      destruct Hc as [Hc _]. rewrite Hl in Hc. injection Hc as ->. apply list_elem_of_here. }
    pose proof (frame_bounds _ _ _ (ai_regions _ _ _ _ I) (ai_frames _ _ _ _ I b (or_introl Hin))). lia. }
  destruct I'. split; try done; cbn.
  - split; [done|]. rewrite Hw. replace (nonzero _) with (linked_free_address s'); [done|].
    rewrite Hs. cbn. destruct free as [|b free]; cbn in ai_chain0.
    { rewrite Hs in ai_chain0. cbn in ai_chain0. by rewrite ai_chain0. }
    destruct ai_chain0 as [Hl _]. rewrite Hs in Hl. cbn in Hl. rewrite Hl. cbn.
    symmetry. apply nonzero_Some.
    pose proof (frame_bounds _ _ _ (ai_regions _ _ _ _ I)
      (ai_frames _ _ _ _ I b (or_introl (list_elem_of_here _ _)))). lia.
  - apply NoDup_cons. split; [|done]. intros Hin. by apply (Hfree a).
  - intros b [->|Hin]%elem_of_cons; [set_solver|]. specialize (ai_disjoint0 b Hin). set_solver.
  - intros b [[->|Hin]%elem_of_cons|Hin]; apply ai_frames0; [by right|by left|right; set_solver].
  - intros b [[->|Hin]%elem_of_cons|Hin]; apply ai_low0; [by right|by left|right; set_solver].
  - intros f b Hf [[->|Hin]%elem_of_cons|Hin]; apply (ai_below0 f _ Hf);
      [by right|by left|right; set_solver].
  - intros b Hin Hlo. destruct (decide (b = a)) as [->|]; [right; left; apply list_elem_of_here|].
    destruct (ai_complete0 b Hin Hlo) as [?|[?|?]];
      [left; set_solver|right; left; by apply list_elem_of_further|by right; right].
Qed.

End allocator.

(** C27: access to physical memory through the window is access to the
    address: [read_memory], [write_memory] and [zero_memory] move through a
    range page by page, end, and have the effect of one load, one store or one
    fill of the range; nothing but the entry of the window changes besides. *)
Theorem physical_access_direct {E} s a bs :
  is_init s -> 0 <= a -> a + Z.of_nat (length bs) <= 2 ^ 52 ->
  let n := Z.of_nat (length bs) in
  wp (read_memory (E:=E) a n) s (fun r s' => r = load (ram s) a n /\ after s (ram s) s') /\
  wp (write_memory (E:=E) a bs) s (fun _ s' => after s (store (ram s) a bs) s') /\
  wp (zero_memory (E:=E) a n) s (fun _ s' => after s (fill (ram s) a n 0) s').
Proof.
  intros Hi Ha Hb. cbv zeta. split_conj.
  - apply read_memory_spec; auto with lia.
  - apply write_memory_spec; auto.
  - apply zero_memory_spec; auto with lia.
Qed.

(** ** Any use of the allocator *)

(** The machine and the frames in use, after any calls of the allocator by
    holders that write what they like into the frames they hold. *)
Inductive frames_reached (s0 : Machine) : Machine -> gset Z -> Prop :=
  | fr_boot : frames_reached s0 s0 ∅
  | fr_alloc s used a s' :
      frames_reached s0 s used -> alloc_frame (E:=Empty_set) s = (Ok (Some a), s') ->
      frames_reached s0 s' ({[a]} ∪ used)
  | fr_fail s used s' :
      frames_reached s0 s used -> alloc_frame (E:=Empty_set) s = (Ok None, s') ->
      frames_reached s0 s' used
  | fr_free s used a s' :
      frames_reached s0 s used -> a ∈ used -> delloc_frame (E:=Empty_set) a s = (Ok tt, s') ->
      frames_reached s0 s' (used ∖ {[a]})
  | fr_write s used m :
      frames_reached s0 s used ->
      (forall x, (forall a, a ∈ used -> ~ a <= x < a + 0x1000) -> m x = ram s x) ->
      frames_reached s0 (set_ram m s) used.

(** The machine after [init]: nothing is free, and the first frame to hand
    out is above the memory of the kernel. *)
Definition booted (s : Machine) (lo : Z) : Prop :=
  is_init s /\ regions_ok lo (MEMORY_REGION s) /\ linked_free_address s = None /\
  first_alloc_address s = Some lo /\ 0 < lo /\ lo `mod` 0x1000 = 0.

Lemma booted_inv s lo : booted s lo -> alloc_inv lo s ∅ [].
Proof.
  intros (Hi & Hr & Hl & Hf & Hpos & Hmod). split; try done.
  - apply NoDup_nil_2.
  - intros a [Ha|Ha]; [by apply elem_of_nil in Ha|set_solver].
  - intros f. rewrite Hf. by intros [= <-].
  - intros a [Ha|Ha]; [by apply elem_of_nil in Ha|set_solver].
  - intros f a _ [Ha|Ha]; [by apply elem_of_nil in Ha|set_solver].
  - intros a Ha Hlo. right; right. by exists lo.
Qed.

Lemma frames_inv s0 lo s used :
  booted s0 lo -> frames_reached s0 s used -> exists free, alloc_inv lo s used free.
Proof.
  intros Hb Hr. induction Hr as [|s used a s' _ [free I] He|s used s' _ [free I] He
    |s used a s' _ [free I] Ha He|s used m _ [free I] Hm].
  - exists []. by apply booted_inv.
  - pose proof (alloc_frame_spec (E:=Empty_set) lo used free s
      (fun r s' => forall a, r = Some a -> exists free', alloc_inv lo s' ({[a]} ∪ used) free')) as H.
    unfold wp in H. rewrite He in H. apply H; [done| |done|done].
    intros b free' s1 _ _ I' _ _ _ ? [= <-]. by exists free'.
  - pose proof (alloc_frame_spec (E:=Empty_set) lo used free s
      (fun r s' => r = None -> exists free', alloc_inv lo s' used free')) as H.
    unfold wp in H. rewrite He in H. apply H; [done|done| |done]. intros s1 _ I' _ _ _ _. by exists [].
  - pose proof (delloc_frame_spec (E:=Empty_set) lo used free a s
      (fun _ s' => exists free', alloc_inv lo s' (used ∖ {[a]}) free')) as H.
    unfold wp in H. rewrite He in H. apply H; [done..|]. intros s1 I' _ _ _. by exists (a :: free).
  - exists free. eapply alloc_inv_ram; [done| |].
    + split; [|by destruct s]. cbn. reflexivity.
    + intros a Ha. unfold word. f_equal. apply load_ext. intros x Hx. apply Hm. intros b Hb' Hxb.
      pose proof (frame_bounds _ _ _ (ai_regions _ _ _ _ I) (ai_frames _ _ _ _ I a (or_introl Ha))).
      pose proof (frame_bounds _ _ _ (ai_regions _ _ _ _ I) (ai_frames _ _ _ _ I b (or_intror Hb'))).
      assert (a <> b) by (intros ->; by apply (ai_disjoint _ _ _ _ I b)). lia.
Qed.

Lemma alloc_frame_reached s0 lo s used :
  booted s0 lo -> frames_reached s0 s used ->
  wp (alloc_frame (E:=Empty_set)) s (fun r _ =>
    match r with
    | Some a => a ∉ used /\ a `mod` 0x1000 = 0 /\ lo <= a /\ in_region (MEMORY_REGION s) a
    | None => forall a, in_region (MEMORY_REGION s) a -> lo <= a -> a ∈ used
    end).
Proof.
  intros Hb Hr. destruct (frames_inv s0 lo s used Hb Hr) as [free I].
  eapply alloc_frame_spec; [exact I| |done].
  intros a free' s' Ha [Hpos Hreg] I' _ _ _. split_conj; [done|apply Hreg| |done].
  apply (ai_low _ _ _ _ I'). right. set_solver.
Qed.

(** C25: no frame is handed out twice and none is lost, on a machine every
    region of which that starts above the first address to hand out starts on a
    page boundary. After any sequence of allocations, releases and writes into
    frames in use, [alloc_frame] ends; a frame it returns is aligned, at or above
    that first address, inside a region of memory and not in use; and it only
    fails when every frame of memory from that address on is in use. *)
Theorem frames_exclusive s0 lo s used :
  booted s0 lo -> frames_reached s0 s used ->
  wp (alloc_frame (E:=Empty_set)) s (fun r _ =>
    match r with
    | Some a => a ∉ used /\ a `mod` 0x1000 = 0 /\ lo <= a /\ in_region (MEMORY_REGION s) a
    | None => forall a, in_region (MEMORY_REGION s) a -> lo <= a -> a ∈ used
    end).
Proof. apply alloc_frame_reached. Qed.


Module Boot.

(** Two megabytes of memory for frames, eight of them handed out already. *)
Definition machine : Machine :=
  mkMachine (fun _ => 0) 0 None (Some 0) None
    [mkMemoryRegion 0 0x9f000 1; mkMemoryRegion 0x100000 0x700000 1] (Some 0x408000) None.

Lemma machine_booted : booted machine 0x408000.
Proof.
  unfold booted. split_conj; [by eexists| |done..].
  split; [repeat constructor; vm_compute; try done; discriminate|].
  repeat constructor. vm_compute. discriminate.
Qed.

(** A frame is allocated, released and allocated again. *)
Definition one_frame : Machine := snd (alloc_frame (E:=Empty_set) machine).
Definition recycled : Machine := snd (delloc_frame (E:=Empty_set) 0x408000 one_frame).

Lemma run_state {S E A} (m : M S E A) s r : fst (m s) = r -> m s = (r, snd (m s)).
Proof. intros <-. by destruct (m s). Qed.

Lemma recycled_reached : frames_reached machine recycled (({[0x408000]} ∪ ∅) ∖ {[0x408000]}).
Proof.
  apply (fr_free machine one_frame _ 0x408000).
  - apply (fr_alloc machine machine); [constructor|]. apply run_state. vm_compute. reflexivity.
  - set_solver.
  - apply run_state. vm_compute. reflexivity.
Qed.

Lemma physical_access_direct_witness :
  wp (write_memory (E:=Empty_set) 0x1ffe [1; 2; 3; 4]) machine
    (fun _ s' => after machine (store (ram machine) 0x1ffe [1; 2; 3; 4]) s').
Proof.
  refine (proj1 (proj2 (physical_access_direct (E:=Empty_set) machine 0x1ffe [1; 2; 3; 4] _ _ _)));
    [by eexists|vm_compute; discriminate..].
Defined.

Lemma frames_exclusive_witness :
  wp (alloc_frame (E:=Empty_set)) recycled (fun r _ =>
    match r with
    | Some a => a ∉ (({[0x408000]} ∪ ∅) ∖ {[0x408000]} : gset Z) /\ a `mod` 0x1000 = 0 /\
        0x408000 <= a /\ in_region (MEMORY_REGION recycled) a
    | None => forall a, in_region (MEMORY_REGION recycled) a -> 0x408000 <= a ->
        a ∈ (({[0x408000]} ∪ ∅) ∖ {[0x408000]} : gset Z)
    end).
Proof.
  apply (frames_exclusive machine 0x408000 recycled _ machine_booted recycled_reached).
Defined.

Definition unaligned : Machine :=
  mkMachine (fun _ => 0) 0 None (Some 0) None [mkMemoryRegion 0x400400 0x10000 1] (Some 0x400000) None.


End Boot.
