(* ===== verification/Page.v ===== *)
(** * Page tables (kernel/src/memory/page.rs)

    Four levels of tables of 512 entries in physical memory. The code that
    maps and unmaps a page, allocates runs of pages, makes and releases the
    table of a process, and copies between kernel memory and an address space.
    The translation cache of the processor ([invlpg]) is not modelled: memory
    is what the tables say. *)
From S2P Require Import Prelude Physics.

(** ** Entries *)

Definition address (e : Z) : Z := Z.land e 0x000FFFFFFFFFF000.
Definition ps (e : Z) : bool := negb (Z.land e P_PS =? 0).
Definition user (e : Z) : bool := negb (Z.land e P_US =? 0).
Definition present (e : Z) : bool := negb (Z.land e P_PRESENT =? 0).

(** Entry [i] of the table at [p]. *)
Definition entry (m : Z -> Z) (p i : Z) : Z := from_le (load m (p + i * 8) 8).

Inductive WritePageError : Type := WritePageFailed.
Inductive AllocMappedFrameError : Type := OutOfPhysicalMemory | OutOfVirtualSpace | ReservedVaddr.
Inductive AccessMemoryError : Type := PageFault.

(** [AllocateFrameOptions] *)
Record AllocateFrameOptions : Type := mkOptions {
  opt_user : bool;
  opt_writable : bool;
  opt_executable : bool;
  opt_static_vaddr : option Z;
}.

Definition KERNEL_DATA : AllocateFrameOptions := mkOptions false true false None.
Definition USER_DATA : AllocateFrameOptions := mkOptions true true false None.
Definition USER_CODE : AllocateFrameOptions := mkOptions true false true None.
Definition with_static_vaddr (o : AllocateFrameOptions) (v : Z) : AllocateFrameOptions :=
  mkOptions (opt_user o) (opt_writable o) (opt_executable o) (Some v).

(** The place of a virtual address in the four tables. *)
Definition pml4_index (v : Z) : Z := Z.land (Z.shiftr v 39) 0x1FF.
Definition pdpt_index (v : Z) : Z := Z.land (Z.shiftr v 30) 0x1FF.
Definition pd_index (v : Z) : Z := Z.land (Z.shiftr v 21) 0x1FF.
Definition pt_index (v : Z) : Z := Z.land (Z.shiftr v 12) 0x1FF.

Section page.
  Context {E : Type}.

Definition get_entry (s index : Z) : M Machine E Z :=
  rust_assert (negb (s =? 0));;
  rust_assert (Z.land s 0xFFF =? 0);;
  rust_assert (index <? 512);;
  bs ← read_memory (s + index * 8) 8;
  mret (from_le bs).

Definition write_entry (s index e : Z) : M Machine E unit :=
  rust_assert (negb (s =? 0));;
  rust_assert (Z.land s 0xFFF =? 0);;
  rust_assert (index <? 512);;
  write_memory (s + index * 8) (to_le 8 e).

Fixpoint all_empty_from (s : Z) (idx : list Z) : M Machine E bool :=
  match idx with
  | [] => mret true
  | i :: idx =>
      e ← get_entry s i;
      if present e then mret false else all_empty_from s idx
  end.

Definition is_all_emptry (s : Z) : M Machine E bool := all_empty_from s (seqZ 0 512).

(** ** Start *)

(** [page::init]: the tables the boot loader has set up. The other statics it
    fills are not read anywhere. *)
Definition page_init (cr3 : Z) (s : Machine) : Machine :=
  let m := ram s in
  let loader_pdpt := address (entry m cr3 0) in
  let loader_pd := address (entry m loader_pdpt 0) in
  let loader_pt := address (entry m loader_pd 0) in
  let kernel_pdpt := address (entry m cr3 511) in
  let kernel_pd := address (entry m kernel_pdpt 511) in
  mkMachine (ram s) (temp s) (Some cr3) (Some loader_pt) (Some kernel_pd) (MEMORY_REGION s)
    (first_alloc_address s) (linked_free_address s).

Definition get_kernel_used_memory (s : Machine) : Z :=
  match KERNEL_PD s with
  | Some pd => 0x200000 * Z.of_nat (length (filter (fun i => present (entry (ram s) pd i) = true) (seqZ 0 512)))
  | None => 0
  end.

(** [FrameAllocator::init] and [physics::init]. *)
Definition frames_init (s : Machine) : Machine :=
  set_first (nonzero (get_kernel_used_memory s + 0x200000)) s.

Definition memory_init (cr3 : Z) (rs : list MemoryRegion) (s : Machine) : Machine :=
  frames_init (set_region rs (page_init cr3 s)).

Definition kernel_pml4 : M Machine E Z :=
  p ← gets PML4;
  match p with
  | Some p => mret p
  | None => panic
  end.

(** ** Translation *)

Definition get_page_table_mapped_physical (page_table virtual_memory : Z) : M Machine E (option Z) :=
  let offset := Z.land virtual_memory 0xFFF in
  pml4_entry ← read_memory (page_table + pml4_index virtual_memory * 8) 8;
  let pml4_entry := from_le pml4_entry in
  if negb (present pml4_entry) then mret None
  else
    pdpt_entry ← read_memory (address pml4_entry + pdpt_index virtual_memory * 8) 8;
    let pdpt_entry := from_le pdpt_entry in
    if negb (present pdpt_entry) then mret None
    else
      pd_entry ← read_memory (address pdpt_entry + pd_index virtual_memory * 8) 8;
      let pd_entry := from_le pd_entry in
      if negb (present pd_entry) then mret None
      else
        pt_entry ← read_memory (address pd_entry + pt_index virtual_memory * 8) 8;
        let pt_entry := from_le pt_entry in
        if negb (present pt_entry) then mret None
        else mret (nonzero (address pt_entry + offset)).

Definition is_page_free (virtual_memory pml4 : Z) : M Machine E bool :=
  p ← get_page_table_mapped_physical pml4 virtual_memory;
  mret (match p with None => true | Some _ => false end).

(** ** Mapping a page *)

(** The next table, and the frame when it is a new one. *)
Definition get_or_alloc (page_entry : Z) : M Machine E (option (Z * option Z)) :=
  if present page_entry then mret (Some (address page_entry, None))
  else
    physics ← alloc_frame;
    match physics with
    | None => mret None
    | Some p => zero_memory p 0x1000;; mret (Some (p, Some p))
    end.

Definition free_opt (p : option Z) : M Machine E unit :=
  match p with
  | Some p => delloc_frame p
  | None => mret tt
  end.

Definition table_flags (userusable : bool) (p : Z) : Z :=
  let e := Z.lor (Z.lor p P_PRESENT) P_RW in
  if userusable then Z.lor e P_US else e.

Definition page_flags (writable executable userusable : bool) (p : Z) : Z :=
  let e := Z.lor p P_PRESENT in
  let e := if writable then Z.lor e P_RW else e in
  let e := if negb executable then Z.lor e P_NX else e in
  if userusable then Z.lor e P_US else e.

(** Link a new table into its parent. *)
Definition link_table (userusable : bool) (table index : Z) (new : option Z) : M Machine E unit :=
  match new with
  | Some p => write_entry table index (table_flags userusable p)
  | None => mret tt
  end.

End page.

Definition write_memory_page (virtual_memory physics_memory pml4 : Z)
    (writable executable userusable : bool) : M Machine WritePageError unit :=
  let v := virtual_memory in
  pml4_entry ← get_entry pml4 (pml4_index v);
  r ← get_or_alloc pml4_entry;
  match r with
  | None => throw WritePageFailed
  | Some (pdpt_address, pdpt_alloc) =>
      pdpt_entry ← get_entry pdpt_address (pdpt_index v);
      r ← get_or_alloc pdpt_entry;
      match r with
      | None => free_opt pdpt_alloc;; throw WritePageFailed
      | Some (pd_address, pd_alloc) =>
          pd_entry ← get_entry pd_address (pd_index v);
          r ← get_or_alloc pd_entry;
          match r with
          | None => free_opt pdpt_alloc;; free_opt pd_alloc;; throw WritePageFailed
          | Some (pt_address, pt_alloc) =>
              write_entry pt_address (pt_index v)
                (page_flags writable executable userusable physics_memory);;
              link_table userusable pd_address (pd_index v) pt_alloc;;
              link_table userusable pdpt_address (pdpt_index v) pd_alloc;;
              link_table userusable pml4 (pml4_index v) pdpt_alloc
          end
      end
  end.

Section unmap.
  Context {E : Type}.

(** [NonZero::new(x).unwrap()] *)
Definition unwrap_nonzero (x : Z) : M Machine E Z :=
  rust_assert (negb (x =? 0));; mret x.

(** ** Unmapping a page *)

Definition remove_memory_page (pml4 virtual_memory : Z) : M Machine E unit :=
  let v := virtual_memory in
  rust_assert (Z.land pml4 0xFFF =? 0);;
  rust_assert (Z.land v 0xFFF =? 0);;
  pml4_entry ← get_entry pml4 (pml4_index v);
  rust_assert (present pml4_entry);;
  let pdpt_address := address pml4_entry in
  pdpt_entry ← get_entry pdpt_address (pdpt_index v);
  rust_assert (present pdpt_entry);;
  let pd_address := address pdpt_entry in
  pd_entry ← get_entry pd_address (pd_index v);
  rust_assert (present pd_entry);;
  let pt_address := address pd_entry in
  pt_entry ← get_entry pt_address (pt_index v);
  rust_assert (present pt_entry);;
  frame ← unwrap_nonzero (address pt_entry);
  delloc_frame frame;;
  write_entry pt_address (pt_index v) 0;;
  pt_empty ← is_all_emptry pt_address;
  if negb pt_empty then mret tt
  else
    frame ← unwrap_nonzero pt_address;
    delloc_frame frame;;
    write_entry pd_address (pd_index v) 0;;
    pd_empty ← is_all_emptry pd_address;
    if negb pd_empty then mret tt
    else
      frame ← unwrap_nonzero pd_address;
      delloc_frame frame;;
      write_entry pdpt_address (pdpt_index v) 0;;
      pdpt_empty ← is_all_emptry pdpt_address;
      if negb pdpt_empty then mret tt
      else
        frame ← unwrap_nonzero pdpt_address;
        delloc_frame frame;;
        write_entry pml4 (pml4_index v) 0.

Definition free_mapped_frame (pml4 address size : Z) : M Machine E unit :=
  let frame_count := size / 0x1000 in
  for_each (seqZ 0 frame_count) (fun i _ => remove_memory_page pml4 (address + i * 0x1000)) tt.

(** ** Looking for free addresses *)

Definition KERNEL_SEARCH_START : Z := 0xFFFFFF8000000000.
Definition KERNEL_SEARCH_END : Z := 0xFFFFFFFFC0000000.
Definition USER_SEARCH_START : Z := 0x0000008000000000.
Definition USER_SEARCH_END : Z := 0xFFFFFF8000000000.

Definition is_user_space_virtual_memory (ptr : Z) : bool :=
  (USER_SEARCH_START <=? ptr) && (ptr <? USER_SEARCH_END).

Fixpoint find_free_loop (fuel : nat) (search_end pml4 block start i remain : Z) : M Machine E (option Z) :=
  match fuel with
  | O => diverge
  | S fuel =>
      if i <? search_end then
        v ← unwrap_nonzero i;
        page_free ← is_page_free v pml4;
        i ← checked 64 (i + 0x1000);
        if (page_free : bool) then
          remain ← checked 64 (remain - 1);
          if remain =? 0 then mret (nonzero start)
          else find_free_loop fuel search_end pml4 block start i remain
        else find_free_loop fuel search_end pml4 block i i block
      else mret None
  end.

(** [fuel]: the number of pages the search may look at. *)
Definition find_free_virtual_memory (fuel : nat) (search_start search_end pml4 block : Z)
    : M Machine E (option Z) :=
  find_free_loop fuel search_end pml4 block search_start search_start block.

Definition find_kernel_free_virtual_memory (fuel : nat) (block : Z) : M Machine E (option Z) :=
  pml4 ← kernel_pml4;
  find_free_virtual_memory fuel KERNEL_SEARCH_START KERNEL_SEARCH_END pml4 block.

Definition find_user_free_virtual_memory (fuel : nat) (block pml4 : Z) : M Machine E (option Z) :=
  find_free_virtual_memory fuel USER_SEARCH_START USER_SEARCH_END pml4 block.

Fixpoint all_free (page_start pml4 : Z) (idx : list Z) : M Machine E bool :=
  match idx with
  | [] => mret true
  | i :: idx =>
      v ← checked 64 (page_start + i * 0x1000);
      match nonzero v with
      | None => mret false
      | Some v =>
          page_free ← is_page_free v pml4;
          if (page_free : bool) then all_free page_start pml4 idx else mret false
      end
  end.

Definition find_user_free_virtual_memory_static (block pml4 vaddr : Z) : M Machine E (option Z) :=
  let page_start := Z.land vaddr 0xFFFFFFFFFFFFF000 in
  free ← all_free page_start pml4 (seqZ 0 block);
  mret (if (free : bool) then nonzero page_start else None).

End unmap.

(** ** Allocating mapped pages *)

(** The loop of [alloc_mapped_frame]: page [i] of [frame_count]. *)
Fixpoint map_frames (pml4 v : Z) (o : AllocateFrameOptions) (idx : list Z)
    : M Machine AllocMappedFrameError unit :=
  match idx with
  | [] => mret tt
  | i :: idx =>
      frame ← alloc_frame;
      match frame with
      | None =>
          free_mapped_frame pml4 v (i * 0x1000);;
          throw OutOfPhysicalMemory
      | Some physics_memory =>
          r ← attempt (map_err (fun _ => OutOfPhysicalMemory)
            (write_memory_page (v + i * 0x1000) physics_memory pml4
              (opt_writable o) (opt_executable o) (opt_user o)));
          match r with
          | inr _ =>
              delloc_frame physics_memory;;
              free_mapped_frame pml4 v (i * 0x1000);;
              throw OutOfPhysicalMemory
          | inl _ => map_frames pml4 v o idx
          end
      end
  end.

Definition alloc_mapped_frame (fuel : nat) (pml4 size : Z) (options : AllocateFrameOptions)
    : M Machine AllocMappedFrameError Z :=
  rust_assert (Z.land pml4 0xFFF =? 0);;
  rust_assert (Z.land size 0xFFF =? 0);;
  let frame_count := size / 0x1000 in
  found ←
    match opt_static_vaddr options with
    | Some v => find_user_free_virtual_memory_static frame_count pml4 v
    | None =>
        if opt_user options then find_user_free_virtual_memory fuel frame_count pml4
        else find_kernel_free_virtual_memory fuel frame_count
    end;
  match found with
  | None => throw OutOfVirtualSpace
  | Some v =>
      map_frames pml4 v options (seqZ 0 frame_count);;
      mret v
  end.

(** ** Tables of processes *)

Section process_table.
  Context {E : Type}.

Definition alloc_user_page_table : M Machine E (option Z) :=
  addr ← alloc_frame;
  match addr with
  | None => mret None
  | Some addr =>
      zero_memory addr 4096;;
      pml4 ← kernel_pml4;
      e ← gets (fun s => entry (ram s) pml4 0);
      write_memory addr (to_le 8 e);;
      pml4 ← kernel_pml4;
      e ← gets (fun s => entry (ram s) pml4 511);
      write_memory (addr + 511 * 8) (to_le 8 e);;
      mret (Some addr)
  end.

(** The 512 entries of a table read as a whole. *)
Definition read_table (a : Z) : M Machine E (list Z) :=
  bs ← read_memory a 4096;
  mret ((fun i => from_le (slice (Z.to_nat i * 8) 8 bs)) <$> seqZ 0 512).

Fixpoint walk_free_page (deep : nat) (page_entry : Z) : M Machine E unit :=
  if negb (present page_entry) || negb (user page_entry) then mret tt
  else
    rust_assert (negb (ps page_entry));;
    match deep with
    | S (S _ as deep') =>
        page_table ← read_table (address page_entry);
        for_each page_table (fun e _ => walk_free_page deep' e) tt;;
        frame ← unwrap_nonzero (address page_entry);
        delloc_frame frame
    | _ =>
        frame ← unwrap_nonzero (address page_entry);
        delloc_frame frame
    end.

Definition release_user_page_table (addr : Z) : M Machine E unit :=
  pml4 ← read_table addr;
  for_each pml4 (fun e _ => walk_free_page 3 e) tt;;
  delloc_frame addr.

End process_table.

(** ** Access to the memory of an address space *)

Fixpoint write_page_loop (fuel : nat) (page_table dst_start : Z) (src : list Z)
    : M Machine AccessMemoryError unit :=
  match fuel with
  | O => diverge
  | S fuel =>
      match src with
      | [] => mret tt
      | _ =>
          p ← get_page_table_mapped_physical page_table dst_start;
          match p with
          | None => throw PageFault
          | Some p =>
              '(start, len) ← insert_temp_page_table p;
              let len := Z.min len (Z.of_nat (length src)) in
              modify (fun s =>
                set_ram (store (ram s) (window_address s start) (take (Z.to_nat len) src)) s);;
              dst_start ← checked 64 (dst_start + len);
              write_page_loop fuel page_table dst_start (drop (Z.to_nat len) src)
          end
      end
  end.

Definition write_page_table_memory (page_table addr : Z) (src : list Z)
    : M Machine AccessMemoryError unit :=
  write_page_loop (rounds (Z.of_nat (length src))) page_table addr src.

Fixpoint fill_page_loop (fuel : nat) (page_table dst_start dst_end byte : Z)
    : M Machine AccessMemoryError unit :=
  match fuel with
  | O => diverge
  | S fuel =>
      if dst_start <? dst_end then
        p ← get_page_table_mapped_physical page_table dst_start;
        match p with
        | None => throw PageFault
        | Some p =>
            '(start, len) ← insert_temp_page_table p;
            let len := Z.min len (dst_end - dst_start) in
            modify (fun s => set_ram (fill (ram s) (window_address s start) len byte) s);;
            fill_page_loop fuel page_table (dst_start + len) dst_end byte
        end
      else mret tt
  end.

Definition write_page_table_memory_bytes (page_table addr byte len : Z)
    : M Machine AccessMemoryError unit :=
  dst_end ← checked 64 (addr + len);
  fill_page_loop (rounds len) page_table addr dst_end byte.

Fixpoint read_page_loop (fuel : nat) (page_table src_start len : Z) (dst : list Z)
    : M Machine AccessMemoryError (list Z) :=
  match fuel with
  | O => diverge
  | S fuel =>
      if 0 <? len then
        p ← get_page_table_mapped_physical page_table src_start;
        match p with
        | None => throw PageFault
        | Some p =>
            '(start, n) ← insert_temp_page_table p;
            let n := Z.min n len in
            bs ← gets (fun s => load (ram s) (window_address s start) n);
            src_start ← checked 64 (src_start + n);
            read_page_loop fuel page_table src_start (len - n) (dst ++ bs)
        end
      else mret dst
  end.

(** The [len] bytes at [addr]. *)
Definition read_page_table_memory (page_table addr len : Z) : M Machine AccessMemoryError (list Z) :=
  read_page_loop (rounds len) page_table addr len [].
