(* ===== verification/PageForest.v ===== *)
(** * Page tables as a forest

    What the page tables of all address spaces have in common: every frame
    has one use (a table of one of the four levels, or a page) and is pointed
    at by at most one entry. Entries outside this discipline, the halves of
    the kernel that every process shares and the large pages of the kernel
    image, are listed in [X] and never touched.

    A change of one entry moves the forest from one such state to another:
    [link] and [unlink], and what they do to every translation. *)
From S2P Require Import Prelude Physics PhysicsSpec Page.

(** ** Entries of tables *)

Lemma entry_word m p i : entry m p i = word m (p + i * 8).
Proof. done. Qed.

#[global] Instance entry_proper : Proper (meq ==> eq ==> eq ==> eq) entry.
Proof. intros m m' Hm p ? <- i ? <-. rewrite !entry_word. by apply word_proper. Qed.

Definition idx_ok (i : Z) : Prop := 0 <= i < 512.

Definition table_ok (p : Z) : Prop := 0 < p /\ p `mod` 0x1000 = 0 /\ p + 0x1000 <= 2 ^ 52.

Lemma entry_put m p i e :
  0 <= e < 2 ^ 64 -> entry (put m (p + i * 8) e) p i = e.
Proof. intros. rewrite entry_word. by apply word_put. Qed.

Lemma entry_put_ne m p i q j e :
  table_ok p -> table_ok q -> idx_ok i -> idx_ok j -> (q, j) <> (p, i) ->
  entry (put m (p + i * 8) e) q j = entry m q j.
Proof.
  intros (?&?&?) (?&?&?) ?? Hne. unfold idx_ok in *. rewrite !entry_word. apply word_put_ne.
  destruct (decide (p = q)) as [->|]; [|lia]. assert (i <> j) by congruence. lia.
Qed.

(** A change inside one frame leaves the entries of the other tables alone. *)
Lemma entry_frame m m' a q j :
  table_ok a -> table_ok q -> idx_ok j -> q <> a ->
  (forall x, ~ a <= x < a + 0x1000 -> m' x = m x) -> entry m' q j = entry m q j.
Proof.
  intros (?&?&?) (?&?&?) ? Hne Hm. unfold idx_ok in *. rewrite !entry_word. unfold word. f_equal.
  apply load_ext. intros x Hx. apply Hm. lia.
Qed.

Lemma address_bounds e : 0 <= address e /\ address e `mod` 0x1000 = 0 /\ address e + 0x1000 <= 2 ^ 52.
Proof.
  unfold address.
  assert (Hm : Z.land e 0x000FFFFFFFFFF000 `mod` 0x1000 = 0).
  { rewrite <-land_low, <-Z.land_assoc. change (Z.land 0xFFFFFFFFFF000 0xFFF) with 0. apply Z.land_0_r. }
  pose proof (land_bound e 0x000FFFFFFFFFF000 ltac:(done)) as [H1 H2].
  split_conj; [done|done|]. lia.
Qed.

(** The path of a virtual address. *)
Definition indices (v : Z) : list Z := [pml4_index v; pdpt_index v; pd_index v; pt_index v].

Lemma land_index x : idx_ok (Z.land x 0x1FF).
Proof. unfold idx_ok. pose proof (land_bound x 0x1FF). lia. Qed.

Lemma indices_ok v : Forall idx_ok (indices v).
Proof. repeat constructor; apply land_index. Qed.

(** ** Flags *)

Lemma address_lor p f :
  table_ok p -> Z.land f 0x000FFFFFFFFFF000 = 0 -> address (Z.lor p f) = p.
Proof.
  intros (?&?&?) Hf. unfold address. rewrite Z.land_lor_distr_l, Hf, Z.lor_0_r, address_mask by lia. lia.
Qed.

Lemma land_lor_bit x f b : Z.land f b = b -> Z.land (Z.lor x f) b = b.
Proof.
  intros Hf. rewrite Z.land_lor_distr_l, Hf. apply Z.bits_inj'. intros n _.
  rewrite Z.lor_spec, Z.land_spec. destruct (Z.testbit b n); [apply orb_true_r|by rewrite andb_false_r].
Qed.

Definition page_bits (w x u : bool) : Z :=
  Z.lor (Z.lor (Z.lor P_PRESENT (if w then P_RW else 0)) (if x then 0 else P_NX)) (if u then P_US else 0).

Lemma page_flags_bits w x u p : page_flags w x u p = Z.lor p (page_bits w x u).
Proof.
  unfold page_flags, page_bits.
  destruct w, x, u; cbn [negb]; rewrite ?Z.lor_0_r, ?Z.lor_assoc; done.
Qed.

Lemma table_flags_bits u p : table_flags u p = Z.lor p (page_bits true true u).
Proof.
  unfold table_flags, page_bits. destruct u; rewrite ?Z.lor_0_r, ?Z.lor_assoc; done.
Qed.

Lemma page_bits_ok p w x u :
  table_ok p ->
  address (Z.lor p (page_bits w x u)) = p /\ present (Z.lor p (page_bits w x u)) = true /\
  0 <= Z.lor p (page_bits w x u) < 2 ^ 64.
Proof.
  intros Hp. split_conj.
  - apply address_lor; [done|]. by destruct w, x, u.
  - unfold present. rewrite land_lor_bit; [done|]. by destruct w, x, u.
  - apply (lor_bound p _ 64); [done|destruct Hp as (?&?&?); lia|].
    by destruct w, x, u.
  - apply (lor_bound p _ 64); [done|destruct Hp as (?&?&?); lia|].
    by destruct w, x, u.
Qed.

(** ** The forest *)

Section forest.
  Context (X : Z -> Z -> bool).
  Implicit Types (m : Z -> Z) (T : gmap Z nat) (js pre suf : list Z).

Definition linked m (p i : Z) : bool := present (entry m p i) && negb (X p i).

(** The frame that a list of indices leads to. *)
Fixpoint trans m (p : Z) js : option Z :=
  match js with
  | [] => Some p
  | i :: js => if linked m p i then trans m (address (entry m p i)) js else None
  end.

(** [T]: the level of every frame of the page tables, 4 for a PML4, 0 for a page. *)
Record forest m T : Prop := {
  f_frame : forall p l, T !! p = Some l -> table_ok p;
  f_level : forall p l, T !! p = Some l -> (l <= 4)%nat;
  f_down : forall p l i, T !! p = Some (S l) -> idx_ok i -> linked m p i = true ->
    T !! address (entry m p i) = Some l;
  f_inj : forall p l i q l' j, T !! p = Some (S l) -> T !! q = Some (S l') -> idx_ok i -> idx_ok j ->
    linked m p i = true -> linked m q j = true -> address (entry m p i) = address (entry m q j) ->
    p = q /\ i = j;
  f_excl : forall p i, X p i = true ->
    idx_ok i /\ (exists l, T !! p = Some (S l)) /\ present (entry m p i) = true;
}.

(** No entry points at [a]. *)
Definition unref m T (a : Z) : Prop :=
  forall p l i, T !! p = Some (S l) -> idx_ok i -> linked m p i = true -> address (entry m p i) <> a.

Definition empty m (p : Z) : Prop := forall i, idx_ok i -> present (entry m p i) = false.

Lemma unlinked m p i : present (entry m p i) = false -> linked m p i = false.
Proof. unfold linked. by intros ->. Qed.

(** *** Translations *)

Lemma trans_app m p js ks : trans m p (js ++ ks) = trans m p js ≫= fun q => trans m q ks.
Proof.
  revert p. induction js as [|i js IH]; intros p; cbn; [done|]. by destruct (linked m p i).
Qed.

Lemma trans_level m T p l js q :
  forest m T -> T !! p = Some (length js + l)%nat -> Forall idx_ok js ->
  trans m p js = Some q -> T !! q = Some l.
Proof.
  intros F. revert p. induction js as [|i js IH]; intros p Hp Hjs Ht; cbn in *; [by simplify_eq|].
  inversion Hjs; subst. destruct (linked m p i) eqn:Hl; [|done].
  eapply IH; [|done..]. by eapply f_down.
Qed.

Lemma trans_unique m T r l r' l' js js' q :
  forest m T -> T !! r = Some (length js + l)%nat -> T !! r' = Some (length js' + l')%nat ->
  Forall idx_ok js -> Forall idx_ok js' -> unref m T r -> unref m T r' ->
  trans m r js = Some q -> trans m r' js' = Some q -> r = r' /\ js = js'.
Proof.
  intros F Hr Hr' Hjs Hjs' Hu Hu'. revert l l' js' q Hr Hr' Hjs'.
  induction js as [|i js IH] using rev_ind; intros l l' js' q Hr Hr' Hjs' Ht Ht'.
  - cbn in Ht. injection Ht as <-. destruct js' as [|j js' _] using rev_ind; cbn in Ht'; [by simplify_eq|].
    rewrite trans_app in Ht'. destruct (trans m r' js') as [p|] eqn:Hp; [|done]. cbn in Ht'.
    apply Forall_app in Hjs' as [Hjs' Hj]. rewrite length_app in Hr'.
    apply (trans_level m T _ (S l')) in Hp; [|done| |done]; [|rewrite Hr'; f_equal; cbn; lia].
    destruct (linked m p j) eqn:Hl; [|done]. injection Ht' as Ht'.
    exfalso. inversion Hj; subst. by eapply Hu.
  - rewrite trans_app in Ht. destruct (trans m r js) as [p|] eqn:Hp; [|done]. cbn in Ht.
    apply Forall_app in Hjs as [Hjs Hi]. inversion Hi; subst. rewrite length_app in Hr. cbn in Hr.
    assert (Hp' : T !! p = Some (S l)).
    { apply (trans_level m T r _ js); [done| |done|done]. rewrite Hr. f_equal. lia. }
    destruct (linked m p i) eqn:Hl; [|done]. injection Ht as Ht.
    destruct js' as [|j js' _] using rev_ind; cbn in Ht'.
    { injection Ht' as <-. exfalso. by eapply Hu'. }
    rewrite trans_app in Ht'. destruct (trans m r' js') as [p'|] eqn:Hq; [|done]. cbn in Ht'.
    apply Forall_app in Hjs' as [Hjs' Hj]. inversion Hj; subst. rewrite length_app in Hr'. cbn in Hr'.
    assert (Hq' : T !! p' = Some (S l')).
    { apply (trans_level m T r' _ js'); [done| |done|done]. rewrite Hr'. f_equal. lia. }
    destruct (linked m p' j) eqn:Hl'; [|done]. injection Ht' as Ht'.
    destruct (f_inj _ _ F p l i p' l' j) as [-> ->]; [done..|by rewrite Ht'|].
    destruct (IH Hjs (S l) (S l') js' p') as [-> ->]; try done.
    + rewrite Hr. f_equal. lia.
    + rewrite Hr'. f_equal. lia.
Qed.

(** A path goes through entry [i] of table [p], or it does not. *)
Lemma through_dec m r p i js :
  (exists pre suf, js = pre ++ i :: suf /\ trans m r pre = Some p) \/
  (forall pre suf, js = pre ++ i :: suf -> trans m r pre <> Some p).
Proof.
  destruct (decide (Exists (fun n => js !! n = Some i /\ trans m r (take n js) = Some p)
    (seq 0 (length js)))) as [Hex|Hno].
  - left. apply Exists_exists in Hex as (n & _ & Hn & Ht).
    exists (take n js), (drop (S n) js). by rewrite (take_drop_middle js n i Hn).
  - right. intros pre suf -> Ht. apply Hno, Exists_exists. exists (length pre). split_conj.
    + apply elem_of_seq. rewrite length_app. cbn. lia.
    + by rewrite list_lookup_middle.
    + by rewrite take_app_length.
Qed.

(** *** Changes of memory *)

(** The entries of the tables up to level [k] are the same. *)
Definition agree_below (k : nat) T m m' : Prop :=
  forall q l i, (l < k)%nat -> T !! q = Some (S l) -> idx_ok i -> entry m' q i = entry m q i.

Definition agree T m m' : Prop :=
  forall q l i, T !! q = Some (S l) -> idx_ok i -> entry m' q i = entry m q i.

(** Entry [i] of table [p] becomes [e], nothing else in the tables changes. *)
Definition updates T (p i e : Z) m m' : Prop :=
  entry m' p i = e /\
  forall q l j, T !! q = Some (S l) -> idx_ok j -> (q, j) <> (p, i) -> entry m' q j = entry m q j.

Lemma linked_agree m m' p i : entry m' p i = entry m p i -> linked m' p i = linked m p i.
Proof. unfold linked. by intros ->. Qed.

Lemma trans_agree_below k T m m' p js :
  forest m T -> agree_below k T m m' -> Forall idx_ok js -> (length js <= k)%nat ->
  T !! p = Some (length js)%nat -> trans m' p js = trans m p js.
Proof.
  intros F Ha. revert p k Ha. induction js as [|i js IH]; intros p k Ha Hjs Hk Hp; [done|].
  cbn in *. inversion Hjs; subst. assert (entry m' p i = entry m p i) as He by (eapply Ha; [|done..]; lia).
  rewrite (linked_agree _ _ _ _ He), He. destruct (linked m p i) eqn:Hl; [|done].
  apply (IH _ k); [done|done|lia|]. by eapply f_down.
Qed.

Lemma trans_agree T m m' p js l :
  forest m T -> agree T m m' -> Forall idx_ok js -> (length js <= l)%nat ->
  T !! p = Some l -> trans m' p js = trans m p js.
Proof.
  intros F Ha. revert p l. induction js as [|i js IH]; intros p l Hjs Hk Hp; [done|].
  cbn in *. inversion Hjs; subst. destruct l as [|l]; [lia|].
  assert (entry m' p i = entry m p i) as He by (by eapply Ha).
  rewrite (linked_agree _ _ _ _ He), He. destruct (linked m p i) eqn:Hl; [|done].
  apply (IH _ l); [done|lia|]. by eapply f_down.
Qed.

Lemma agree_forest T m m' :
  forest m T -> agree T m m' -> forest m' T.
Proof.
  intros F Ha. destruct F. split; [done|done|..].
  - intros p l i Hp Hi. rewrite (linked_agree m), (Ha p l i) by eauto. eauto.
  - intros p l i q l' j Hp Hq Hi Hj.
    rewrite (linked_agree m m' p i), (linked_agree m m' q j), (Ha p l i), (Ha q l' j) by eauto.
    by apply (f_inj0 p l i q l' j).
  - intros p i Hxi. destruct (f_excl0 p i Hxi) as (Hi & [l Hp] & Hpr).
    rewrite (Ha p l i) by done. eauto.
Qed.

Lemma agree_unref T m m' a : agree T m m' -> unref m T a -> unref m' T a.
Proof.
  intros Ha Hu p l i Hp Hi. rewrite (linked_agree m), (Ha p l i) by eauto. eauto.
Qed.

(** *** Linking a frame into a table *)

Section link.
  Context m m' T (p0 i0 e : Z) (l0 : nat).
  Context (F : forest m T) (Hp0 : T !! p0 = Some (S l0)) (Hi0 : idx_ok i0) (Hx0 : X p0 i0 = false)
    (Hold : present (entry m p0 i0) = false) (He : present e = true)
    (Hlev : T !! address e = Some l0) (Hun : unref m T (address e)) (Hup : updates T p0 i0 e m m').

Lemma link_at : linked m' p0 i0 = true /\ address (entry m' p0 i0) = address e.
Proof. unfold linked. destruct Hup as [-> _]. by rewrite He, Hx0. Qed.

Lemma link_other q l j :
  T !! q = Some (S l) -> idx_ok j -> linked m q j = true ->
  linked m' q j = true /\ entry m' q j = entry m q j.
Proof.
  intros Hq Hj Hl. assert ((q, j) <> (p0, i0)) as Hne.
  { intros [= -> ->]. rewrite unlinked in Hl; done. }
  destruct Hup as [_ Ho]. specialize (Ho q l j Hq Hj Hne). split; [|done]. by rewrite (linked_agree m).
Qed.

Lemma link_inv q l j :
  T !! q = Some (S l) -> idx_ok j -> linked m' q j = true ->
  (q = p0 /\ j = i0 /\ address (entry m' q j) = address e) \/
  (linked m q j = true /\ entry m' q j = entry m q j).
Proof.
  intros Hq Hj Hl. destruct (decide ((q, j) = (p0, i0))) as [[= -> ->]|Hne].
  - left. split_conj; [done|done|apply link_at].
  - right. destruct Hup as [_ Ho]. specialize (Ho q l j Hq Hj Hne). split; [|done].
    by rewrite (linked_agree m) in Hl.
Qed.

Lemma link_forest : forest m' T.
Proof.
  split; [apply F|apply F|..].
  - intros p l i Hp Hi Hl.
    destruct (link_inv p l i Hp Hi Hl) as [(-> & -> & ->)|[Hl' ->]]; [by simplify_eq|by eapply f_down].
  - intros p l i q l' j Hp Hq Hi Hj Hl Hl' Heq.
    destruct (link_inv p l i Hp Hi Hl) as [(-> & -> & Ha)|[Hm Ha]],
      (link_inv q l' j Hq Hj Hl') as [(-> & -> & Hb)|[Hm' Hb]].
    + done.
    + exfalso. rewrite Ha, Hb in Heq. by apply (Hun q l' j).
    + exfalso. rewrite Ha, Hb in Heq. by apply (Hun p l i).
    + rewrite Ha, Hb in Heq. by apply (f_inj _ _ F p l i q l' j).
  - intros p i Hxi. destruct (f_excl _ _ F p i Hxi) as (Hi & [l Hp] & Hpr).
    destruct Hup as [_ Ho]. rewrite (Ho p l i Hp Hi); [eauto|]. intros [= -> ->]. congruence.
Qed.

Lemma link_unref a : unref m T a -> a <> address e -> unref m' T a.
Proof.
  intros Hu Hne p l i Hp Hi Hl.
  destruct (link_inv p l i Hp Hi Hl) as [(-> & -> & ->)|[Hl' ->]]; [by apply not_eq_sym|by eapply Hu].
Qed.

(** What leads somewhere still leads there. *)
Lemma link_mono p l js q :
  T !! p = Some l -> (length js <= l)%nat -> Forall idx_ok js ->
  trans m p js = Some q -> trans m' p js = Some q.
Proof.
  revert p l. induction js as [|i js IH]; intros p l Hp Hlen Hjs Ht; [done|].
  cbn in *. inversion Hjs; subst. destruct l as [|l]; [lia|].
  destruct (linked m p i) eqn:Hl; [|done].
  destruct (link_other p l i Hp) as [-> ->]; [done..|].
  apply (IH _ l); [by eapply f_down|lia|done|done].
Qed.

(** Through the new entry: on into what was linked. *)
Lemma link_through p pre suf :
  T !! p = Some (length pre + S l0)%nat -> Forall idx_ok pre -> Forall idx_ok suf -> (length suf <= l0)%nat ->
  trans m p pre = Some p0 -> trans m' p (pre ++ i0 :: suf) = trans m (address e) suf.
Proof.
  intros Hp Hpre Hsuf Hlen Ht. rewrite trans_app.
  rewrite (link_mono p _ pre p0 Hp) by (done || lia). cbn.
  destruct link_at as [-> ->]. clear Ht Hp Hpre p pre.
  enough (Hgo : forall l q, (l <= l0)%nat -> T !! q = Some l -> (length suf <= l)%nat ->
    trans m' q suf = trans m q suf) by (by apply (Hgo l0)).
  induction suf as [|i suf IH]; intros l q Hl Hq Hs; [done|]. cbn in *. inversion Hsuf; subst.
  destruct l as [|l]; [lia|].
  assert (entry m' q i = entry m q i) as Heq.
  { destruct Hup as [_ Ho]. apply (Ho q l); [done..|]. intros [= -> ->]. rewrite Hp0 in Hq.
    simplify_eq. lia. }
  rewrite (linked_agree _ _ _ _ Heq), Heq. destruct (linked m q i) eqn:Hli; [|done].
  apply (IH ltac:(done) ltac:(lia) l); [lia| |lia]. by eapply f_down.
Qed.

(** Past the new entry: nothing has changed. *)
Lemma link_past p l js :
  T !! p = Some l -> (length js <= l)%nat -> Forall idx_ok js ->
  (forall pre suf, js = pre ++ i0 :: suf -> trans m p pre <> Some p0) -> trans m' p js = trans m p js.
Proof.
  revert p l. induction js as [|i js IH]; intros p l Hp Hlen Hjs Hno; [done|].
  cbn in *. inversion Hjs; subst. destruct l as [|l]; [lia|].
  destruct (linked m p i) eqn:Hl.
  - destruct (link_other p l i Hp) as [-> ->]; [done..|].
    apply (IH _ l); [by eapply f_down|lia|done|].
    intros pre suf -> Ht. apply (Hno (i :: pre) suf); [done|]. cbn. by rewrite Hl.
  - destruct (linked m' p i) eqn:Hl'; [|done].
    destruct (link_inv p l i Hp) as [(-> & -> & _)|[? _]]; [done..| |congruence].
    exfalso. by apply (Hno [] js).
Qed.

End link.

(** *** Clearing an entry *)

Section unlink.
  Context m m' T (p0 i0 : Z) (l0 : nat).
  Context (F : forest m T) (Hp0 : T !! p0 = Some (S l0)) (Hi0 : idx_ok i0)
    (Hold : linked m p0 i0 = true) (Hup : updates T p0 i0 0 m m').

Lemma unlink_inv q l j :
  T !! q = Some (S l) -> idx_ok j -> linked m' q j = true ->
  (q, j) <> (p0, i0) /\ linked m q j = true /\ entry m' q j = entry m q j.
Proof.
  intros Hq Hj Hl. destruct Hup as [H0 Ho]. assert ((q, j) <> (p0, i0)) as Hne.
  { intros [= -> ->]. unfold linked in Hl. by rewrite H0 in Hl. }
  specialize (Ho q l j Hq Hj Hne). by rewrite (linked_agree m) in Hl.
Qed.

Lemma unlink_forest : forest m' T.
Proof.
  split; [apply F|apply F|..].
  - intros p l i Hp Hi Hl. destruct (unlink_inv p l i Hp Hi Hl) as (_ & Hl' & ->). by eapply f_down.
  - intros p l i q l' j Hp Hq Hi Hj Hl Hl'.
    destruct (unlink_inv p l i Hp Hi Hl) as (_ & Hm & ->).
    destruct (unlink_inv q l' j Hq Hj Hl') as (_ & Hm' & ->). by eapply f_inj.
  - intros p i Hxi. destruct (f_excl _ _ F p i Hxi) as (Hi & [l Hp] & Hpr).
    destruct Hup as [_ Ho]. rewrite (Ho p l i Hp Hi); [eauto|]. intros [= -> ->].
    unfold linked in Hold. by rewrite Hxi, andb_false_r in Hold.
Qed.

Lemma unlink_unref a : unref m T a -> unref m' T a.
Proof.
  intros Hu p l i Hp Hi Hl. destruct (unlink_inv p l i Hp Hi Hl) as (_ & Hl' & ->). by eapply Hu.
Qed.

Lemma unlink_child : unref m' T (address (entry m p0 i0)).
Proof.
  intros p l i Hp Hi Hl Heq. destruct (unlink_inv p l i Hp Hi Hl) as (Hne & Hl' & He).
  rewrite He in Heq. apply Hne.
  destruct (f_inj _ _ F p l i p0 l0 i0) as [-> ->]; done.
Qed.

Lemma unlink_through p pre suf :
  T !! p = Some (length pre + S l0)%nat -> Forall idx_ok pre ->
  trans m p pre = Some p0 -> trans m' p (pre ++ i0 :: suf) = None.
Proof.
  intros Hp Hpre Ht. rewrite trans_app. destruct (trans m' p pre) as [q|] eqn:Hq; [|done]. cbn.
  assert (q = p0) as ->.
  { revert p Hp Ht Hq. induction pre as [|i pre IH]; intros p Hp Ht Hq; cbn in *; [by simplify_eq|].
    inversion Hpre; subst. destruct (linked m' p i) eqn:Hl; [|done].
    destruct (unlink_inv p _ i Hp) as (_ & Hl' & He); [done..|]. rewrite He in Hq. rewrite Hl' in Ht.
    eapply IH; [done| |done|done]. by eapply f_down. }
  unfold linked. destruct Hup as [-> _]. done.
Qed.

Lemma unlink_past p l js :
  T !! p = Some l -> (length js <= l)%nat -> Forall idx_ok js ->
  (forall pre suf, js = pre ++ i0 :: suf -> trans m p pre <> Some p0) -> trans m' p js = trans m p js.
Proof.
  revert p l. induction js as [|i js IH]; intros p l Hp Hlen Hjs Hno; [done|].
  cbn in *. inversion Hjs; subst. destruct l as [|l]; [lia|].
  assert ((p, i) <> (p0, i0)) as Hne.
  { intros [= -> ->]. by apply (Hno [] js). }
  destruct Hup as [_ Ho]. pose proof (Ho p l i Hp ltac:(done) Hne) as He.
  rewrite (linked_agree _ _ _ _ He), He. destruct (linked m p i) eqn:Hl; [|done].
  apply (IH _ l); [by eapply f_down|lia|done|].
  intros pre suf -> Ht. apply (Hno (i :: pre) suf); [done|]. cbn. by rewrite Hl.
Qed.

End unlink.

(** *** Frames that come and go *)

(** A new frame: a page, or a table without entries. *)
Lemma grow_forest m m' T a l :
  forest m T -> T !! a = None -> table_ok a -> (l <= 4)%nat -> agree T m m' -> (l <> 0%nat -> empty m' a) ->
  forest m' (<[a := l]> T) /\ unref m' (<[a := l]> T) a /\
  forall b, unref m T b -> unref m' (<[a := l]> T) b.
Proof.
  intros F Ha Hok Hl Hag Hem.
  pose proof (agree_forest _ _ _ F Hag) as F'.
  assert (Hinv : forall p k i, <[a := l]> T !! p = Some (S k) -> idx_ok i -> linked m' p i = true ->
    T !! p = Some (S k) /\ p <> a).
  { intros p k i Hp Hi Hli. destruct (decide (p = a)) as [->|Hne].
    - rewrite lookup_insert_eq in Hp. injection Hp as ->. unfold linked in Hli.
      rewrite (Hem ltac:(done) i Hi) in Hli. done.
    - by rewrite lookup_insert_ne in Hp by done. }
  split_conj.
  - split.
    + intros p k Hp. destruct (decide (p = a)) as [->|Hne]; [done|].
      rewrite lookup_insert_ne in Hp by done. by eapply f_frame.
    + intros p k Hp. destruct (decide (p = a)) as [->|Hne].
      * rewrite lookup_insert_eq in Hp. injection Hp as <-. lia.
      * rewrite lookup_insert_ne in Hp by done. by eapply f_level.
    + intros p k i Hp Hi Hli. destruct (Hinv p k i Hp Hi Hli) as [Hp' Hne].
      pose proof (f_down _ _ F' p k i Hp' Hi Hli) as Hd.
      rewrite lookup_insert_ne; [done|]. intros Heq. rewrite <-Heq, Ha in Hd. done.
    + intros p k i q k' j Hp Hq Hi Hj Hli Hlj.
      destruct (Hinv p k i Hp Hi Hli) as [Hp' _], (Hinv q k' j Hq Hj Hlj) as [Hq' _].
      by eapply f_inj.
    + intros p i Hxi. destruct (f_excl _ _ F' p i Hxi) as (Hi & [k Hp] & Hpr). split_conj; [done| |done].
      exists k. rewrite lookup_insert_ne; [done|]. intros <-. by rewrite Ha in Hp.
  - intros p k i Hp Hi Hli. destruct (Hinv p k i Hp Hi Hli) as [Hp' _].
    pose proof (f_down _ _ F' p k i Hp' Hi Hli) as Hd. intros Heq. rewrite Heq, Ha in Hd. done.
  - intros b Hb p k i Hp Hi Hli. destruct (Hinv p k i Hp Hi Hli) as [Hp' _].
    by apply (agree_unref T m m' b Hag Hb p k i).
Qed.

(** A frame nothing points at goes. *)
Lemma shrink_forest m m' T a :
  forest m T -> unref m T a -> (forall i, X a i = false) -> agree (delete a T) m m' ->
  forest m' (delete a T) /\ forall b, unref m T b -> unref m' (delete a T) b.
Proof.
  intros F Hu Hxa Hag.
  assert (F' : forest m (delete a T)).
  { destruct F. split.
    - intros p l [_ Hp]%lookup_delete_Some. eauto.
    - intros p l [_ Hp]%lookup_delete_Some. eauto.
    - intros p l i [_ Hp]%lookup_delete_Some Hi Hl. apply lookup_delete_Some. split; [|eauto].
      intros Heq. by apply (Hu p l i).
    - intros p l i q l' j [_ Hp]%lookup_delete_Some [_ Hq]%lookup_delete_Some. by apply (f_inj0 p l i q l' j).
    - intros p i Hxi. destruct (f_excl0 p i Hxi) as (Hi & [l Hp] & Hpr). split_conj; [done| |done].
      exists l. rewrite lookup_delete_ne; [done|]. intros <-. by rewrite Hxa in Hxi. }
  split; [by apply (agree_forest _ m)|]. intros b Hb. apply (agree_unref _ m); [done|].
  intros p l i [_ Hp]%lookup_delete_Some. by apply (Hb p l i).
Qed.

End forest.
