(* ===== verification/PageSpec.v ===== *)
(** * Mapping and unmapping pages

    What [write_memory_page], [remove_memory_page] and the code built on them
    do to the translations of every address space, to the memory behind them
    and to the frames in use. *)
From S2P Require Import Prelude Physics PhysicsSpec Page PageForest.

(** ** The machine behind the tables

    [ainv]: the frames [used] belong to someone, and memory is [m]. *)

Section ainv.
  Context (lo : Z) (K : option Z).

Definition ainv (s : Machine) (m : Z -> Z) (used : gset Z) : Prop :=
  (exists free, alloc_inv lo s used free) /\ meq (ram s) m /\ PML4 s = K.

Lemma ainv_frame s m used a : ainv s m used -> a ∈ used -> table_ok a.
Proof.
  intros [[free I] _] Ha. exact (frame_bounds _ _ _ (ai_regions _ _ _ _ I) (ai_frames _ _ _ _ I a (or_intror Ha))).
Qed.

Lemma ainv_init s m used : ainv s m used -> is_init s.
Proof. intros [[free I] _]. apply I. Qed.

Lemma ainv_read s m used s' : ainv s m used -> after s (ram s) s' -> ainv s' m used.
Proof.
  intros ([free I] & Hm & HK) Hs. split; [exists free; by eapply alloc_inv_ram|].
  destruct Hs as [Hm' Hs]. split; [by rewrite Hm'|]. by rewrite Hs.
Qed.

(** A change of memory inside frames in use. *)
Lemma ainv_write s m used s' m1 m' :
  ainv s m used -> after s m1 s' -> meq m1 m' ->
  (forall x, (forall a, a ∈ used -> ~ a <= x < a + 0x1000) -> m' x = m x) -> ainv s' m' used.
Proof.
  intros ([free I] & Hm & HK) Hs Hm1 Hout. split.
  - exists free. eapply alloc_inv_ram; [done..|]. intros a Ha. unfold word. f_equal. apply load_ext.
    intros x Hx. rewrite (Hm1 x), (Hm x). apply Hout. intros b Hb Hxb.
    pose proof (frame_bounds _ _ _ (ai_regions _ _ _ _ I) (ai_frames _ _ _ _ I a (or_introl Ha))).
    pose proof (frame_bounds _ _ _ (ai_regions _ _ _ _ I) (ai_frames _ _ _ _ I b (or_intror Hb))).
    assert (a <> b) by (intros ->; by apply (ai_disjoint _ _ _ _ I b)). lia.
  - destruct Hs as [Hm' Hs]. split; [by rewrite Hm', Hm1|]. by rewrite Hs.
Qed.

Section specs.
  Context {E : Type}.
  Implicit Types Q : unit -> Machine -> Prop.

Lemma get_entry_spec p i s m used (Q : Z -> Machine -> Prop) :
  ainv s m used -> table_ok p -> idx_ok i ->
  (forall s', ainv s' m used -> Q (entry m p i) s') -> wp (get_entry (E:=E) p i) s Q.
Proof.
  intros I (Hp & Hm & Hb) Hi HQ. unfold idx_ok in Hi. unfold get_entry. rewrite land_low.
  wp_step. wp_step; [apply negb_true_iff, Z.eqb_neq; lia|].
  wp_step. wp_step; [by apply Z.eqb_eq|]. wp_step. wp_step; [apply Z.ltb_lt; lia|]. wp_step.
  apply read_memory_spec; [by eapply ainv_init|lia..|]. intros s' Hs. wp_step.
  destruct I as (I & Hram & HK). rewrite (load_proper _ _ Hram _ _ eq_refl _ _ eq_refl).
  apply HQ. by apply (ainv_read s).
Qed.

Lemma put_frame m p i e x (used : gset Z) :
  p ∈ used -> idx_ok i -> (forall a, a ∈ used -> ~ a <= x < a + 0x1000) -> put m (p + i * 8) e x = m x.
Proof.
  intros Hp Hi Hx. unfold idx_ok in Hi. unfold put. apply store_out. rewrite length_to_le.
  specialize (Hx p Hp). lia.
Qed.

Lemma write_entry_spec p i e s m used Q :
  ainv s m used -> p ∈ used -> idx_ok i ->
  (forall s', ainv s' (put m (p + i * 8) e) used -> Q tt s') -> wp (write_entry (E:=E) p i e) s Q.
Proof.
  intros I Hp Hi HQ. destruct (ainv_frame _ _ _ _ I Hp) as (H0 & Hm & Hb). unfold write_entry. rewrite land_low.
  pose proof Hi as Hi'. unfold idx_ok in Hi'.
  wp_step. wp_step; [apply negb_true_iff, Z.eqb_neq; lia|].
  wp_step. wp_step; [by apply Z.eqb_eq|]. wp_step. wp_step; [apply Z.ltb_lt; lia|].
  apply write_memory_spec; [by eapply ainv_init|lia|rewrite length_to_le; lia|].
  intros s' Hs. apply HQ. eapply ainv_write; [done..| |].
  - apply store_proper; [apply I|done|done].
  - intros x Hx. by eapply put_frame.
Qed.

Lemma zero_table_spec p s m used Q :
  ainv s m used -> p ∈ used -> (forall s', ainv s' (fill m p 0x1000 0) used -> Q tt s') ->
  wp (zero_memory (E:=E) p 0x1000) s Q.
Proof.
  intros I Hp HQ. destruct (ainv_frame _ _ _ _ I Hp) as (H0 & Hm & Hb).
  apply zero_memory_spec; [by eapply ainv_init|lia..|].
  intros s' Hs. apply HQ. eapply ainv_write; [done..| |].
  - apply fill_proper; [apply I|done..].
  - intros x Hx. apply fill_out. specialize (Hx p Hp). lia.
Qed.

Lemma alloc_spec s m used (Q : option Z -> Machine -> Prop) :
  ainv s m used ->
  (forall a s', a ∉ used -> table_ok a -> ainv s' m ({[a]} ∪ used) -> Q (Some a) s') ->
  (forall s', ainv s' m used -> Q None s') -> wp (alloc_frame (E:=E)) s Q.
Proof.
  intros ([free I] & Hm & HK) HS HN. eapply alloc_frame_spec; [done| |].
  - intros a free' s' Ha Hf I' Hm' HP HR. apply (HS a s' Ha (frame_bounds _ _ _ (ai_regions _ _ _ _ I) Hf)).
    split; [by exists free'|split; [by rewrite Hm'|congruence]].
  - intros s' _ I' Hm' HP HR. apply HN. split; [by exists []|split; [by rewrite Hm'|congruence]].
Qed.

Lemma dealloc_spec a s m used Q :
  ainv s m used -> a ∈ used ->
  (forall s' m', ainv s' m' (used ∖ {[a]}) -> (forall x, ~ a <= x < a + 0x1000 -> m' x = m x) -> Q tt s') ->
  wp (delloc_frame (E:=E) a) s Q.
Proof.
  intros I Ha HQ. pose proof (ainv_frame _ _ _ _ I Ha) as (H0 & Hmod & Hb). destruct I as ([free I] & Hm & HK).
  eapply delloc_frame_spec; [done..|]. intros s' I' Hm' HP HR.
  apply (HQ s' (store m a (encode_option (linked_free_address s)))).
  - split; [by exists (a :: free)|split; [|congruence]]. rewrite Hm'. by apply store_proper.
  - intros x Hx. apply store_out. unfold encode_option. rewrite length_to_le. lia.
Qed.

End specs.
End ainv.

(** ** One path *)

(** The frames of others, and what the operations must not touch: the frames
    [o_pages], pages of address spaces or frames of others, hold the bytes
    [o_bytes]. *)
Record others : Type := mkOthers {
  o_frames : gset Z;
  o_pages : gset Z;
  o_bytes : Z -> Z;
}.

Section paths.
  Context (X : Z -> Z -> bool) (lo : Z) (K : option Z) (O : others).
  Implicit Types (m : Z -> Z) (T : gmap Z nat) (js ks : list Z).
  Notation forest := (forest X).
  Notation trans := (trans X).
  Notation unref := (unref X).
  Notation linked := (linked X).

(** The translations of every address space are the same. *)
Definition same_roots T m m' : Prop :=
  forall r ks, T !! r = Some 4%nat -> (length ks <= 4)%nat -> Forall idx_ok ks ->
    trans m' r ks = trans m r ks.

Lemma agree_roots T m m' : forest m T -> agree T m m' -> same_roots T m m'.
Proof. intros F Ha r ks Hr Hl Hks. by eapply trans_agree. Qed.

Lemma same_roots_trans T T' m m' m'' :
  T ⊆ T' -> same_roots T m m' -> same_roots T' m' m'' -> same_roots T m m''.
Proof.
  intros Hsub H1 H2 r ks Hr Hl Hks. rewrite H2; [by apply H1| |done..]. by eapply lookup_weaken.
Qed.

Lemma root_unref m T r : forest m T -> T !! r = Some 4%nat -> unref m T r.
Proof.
  intros F Hr p l i Hp Hi Hl Heq. pose proof (f_down _ _ _ F p l i Hp Hi Hl) as Hd.
  rewrite Heq, Hr in Hd. injection Hd as <-. apply (f_level _ _ _ F) in Hp. lia.
Qed.

(** A branch not yet linked into an address space: the only way through it
    is [suf0], and leads to [pa]. *)
Definition branch m T (q : Z) suf0 (pa : Z) : Prop :=
  unref m T q /\ T !! q = Some (length suf0) /\
  forall suf, length suf = length suf0 -> Forall idx_ok suf ->
    trans m q suf = if decide (suf = suf0) then Some pa else None.

Lemma branch_page m T pa : unref m T pa -> T !! pa = Some 0%nat -> branch m T pa [] pa.
Proof. intros Hu Hp. unfold branch. split_conj; [done|done|]. intros [|? ?]; [done|done]. Qed.

Lemma branch_grow m m' T p i e suf0 pa :
  forest m T -> branch m T (address e) suf0 pa -> (length suf0 < 3)%nat ->
  T !! p = Some (S (length suf0)) -> unref m T p -> empty m p -> X p i = false -> idx_ok i -> present e = true -> updates T p i e m m' ->
  forest m' T /\ branch m' T p (i :: suf0) pa /\ same_roots T m m'.
Proof.
  intros F (Hu & Hq & Hb) Hs3 Hp Hup Hem Hx Hi He Hupd.
  assert (Hold : present (entry m p i) = false) by (by apply Hem).
  assert (Hne : p <> address e) by (intros ->; rewrite Hq in Hp; injection Hp; lia).
  split_conj.
  - by eapply (link_forest X m m' T p i e).
  - unfold branch. split_conj; [by eapply (link_unref X m m' T p i e)|done|].
    intros [|k suf] Hlen Hsuf; [done|]. inversion Hsuf; subst. cbn in Hlen. injection Hlen as Hlen.
    destruct (decide (k = i)) as [->|Hk].
    + pose proof (link_through X m m' T p i e _ F Hp Hx Hold He Hq Hupd p [] suf) as Ht.
      cbn [app] in Ht. rewrite Ht; try done; [|lia]. rewrite Hb by done.
      destruct (decide (suf = suf0)) as [->|Hns]; [by rewrite decide_True|].
      rewrite decide_False; [done|]. congruence.
    + rewrite decide_False by congruence. cbn.
      destruct Hupd as [_ Ho]. rewrite (linked_agree X m m' p k); [by rewrite unlinked; [|apply Hem]|].
      eapply Ho; [done|done|congruence].
  - intros r ks Hr Hl Hks. eapply (link_past X m m' T p i e); try done.
    intros pre suf -> Ht. apply Forall_app in Hks as [Hpre Hsuf]. rewrite length_app in Hl.
    destruct (trans_unique X m T r (4 - length pre) p (S (length suf0)) pre [] p) as [-> ->]; try done.
    + rewrite Hr. f_equal. lia.
    + by eapply root_unref.
    + rewrite Hr in Hp. injection Hp as Hp. lia.
Qed.

(** The branch is linked into an address space: one translation is new. *)
Lemma branch_join m m' T R pre p i e suf0 pa :
  forest m T -> branch m T (address e) suf0 pa ->
  (length pre + S (length suf0) = 4)%nat -> Forall idx_ok pre -> Forall idx_ok suf0 ->
  T !! R = Some 4%nat -> trans m R pre = Some p ->
  present (entry m p i) = false -> X p i = false -> idx_ok i -> present e = true -> updates T p i e m m' ->
  forest m' T /\ trans m' R (pre ++ i :: suf0) = Some pa /\
  forall r ks, T !! r = Some 4%nat -> length ks = 4%nat -> Forall idx_ok ks ->
    (r, ks) <> (R, pre ++ i :: suf0) -> trans m' r ks = trans m r ks.
Proof.
  intros F (Hu & Hq & Hb) Hlen Hpre Hsuf0 HR Hp Hold Hx Hi He Hupd.
  assert (Hlp : T !! p = Some (S (length suf0))).
  { apply (trans_level X m T R _ pre); [done| |done|done]. by rewrite HR, Hlen. }
  assert (HR' : T !! R = Some (length pre + S (length suf0))%nat) by (by rewrite HR, Hlen).
  split_conj.
  - by eapply (link_forest X m m' T p i e).
  - rewrite (link_through X m m' T p i e _ F Hlp Hx Hold He Hq Hupd R) by done.
    rewrite Hb by done. by rewrite decide_True.
  - intros r ks Hr Hks Hok Hne.
    destruct (through_dec X m r p i ks) as [(pre' & suf' & -> & Ht)|Hno].
    + apply Forall_app in Hok as [Hpre' Hsuf']. inversion Hsuf'; subst.
      rewrite length_app in Hks. cbn in Hks.
      destruct (trans_unique X m T R (S (length suf0)) r (S (length suf')) pre pre' p) as [<- <-]; try done.
      { rewrite Hr. f_equal. lia. }
      { by eapply root_unref. }
      { by eapply root_unref. }
      rewrite (link_through X m m' T p i e _ F Hlp Hx Hold He Hq Hupd R) by (done || lia).
      rewrite Hb by (done || lia). rewrite decide_False by congruence.
      rewrite trans_app, Hp. cbn. by rewrite unlinked.
    + eapply (link_past X m m' T p i e); try done. lia.
Qed.

(** The path of an address does not meet an entry outside the discipline. *)
Definition clear_path m (R : Z) js : Prop :=
  forall pre i suf p, js = pre ++ i :: suf -> trans m R pre = Some p -> X p i = false.

(** ** Getting or making a table *)

(** The frames of others are apart from the tables, and the bytes of the
    protected frames are as they were. *)
Definition separate m T : Prop :=
  (forall a, is_Some (T !! a) -> a ∉ o_frames O) /\
  forall a, a ∈ o_pages O -> (T !! a = Some 0%nat \/ a ∈ o_frames O) /\
    forall x, a <= x < a + 0x1000 -> m x = o_bytes O x.

(** [s] and its memory, with the tables [T] and the frames [O] of others. *)
Definition pinv (s : Machine) m T : Prop :=
  ainv lo K s m (dom T ∪ o_frames O) /\ forest m T /\ separate m T.

Lemma pinv_used s m T p l : pinv s m T -> T !! p = Some l -> p ∈ dom T ∪ o_frames O.
Proof. intros _ Hp. apply elem_of_union_l, elem_of_dom. by exists l. Qed.

Lemma pinv_table s m T p l : pinv s m T -> T !! p = Some l -> table_ok p.
Proof. intros (_ & F & _) Hp. by eapply f_frame. Qed.

Lemma table_unprotected s m T p l : pinv s m T -> T !! p = Some (S l) -> p ∉ o_pages O.
Proof.
  intros (_ & _ & Hd & Hg) Hp Hin. destruct (Hg p Hin) as [[Hp0|HO] _]; [congruence|].
  by apply (Hd p); [by exists (S l)|].
Qed.

Lemma new_unprotected s m T a : pinv s m T -> T !! a = None -> a ∉ o_frames O -> a ∉ o_pages O.
Proof. intros (_ & _ & _ & Hg) HT HO Hin. destruct (Hg a Hin) as [[Hp0|?] _]; [congruence|done]. Qed.

(** Bytes of a protected frame are in no other frame. *)
Lemma guard_out s m T a x p :
  pinv s m T -> a ∈ o_pages O -> table_ok p -> p ∉ o_pages O -> a <= x < a + 0x1000 -> ~ p <= x < p + 0x1000.
Proof.
  intros (Ia & F & _ & Hg) Ha (_ & Hpm & _) Hp Hx Hin. assert (table_ok a) as (_ & Ham & _).
  { destruct (Hg a Ha) as [[HT|HO] _]; [by eapply f_frame|]. eapply ainv_frame; [done|]. by apply elem_of_union_r. }
  assert (a <> p) by congruence. lia.
Qed.

Lemma separate_next s m T m' T' :
  pinv s m T -> (forall a x, a ∈ o_pages O -> a <= x < a + 0x1000 -> m' x = m x) ->
  (forall a, is_Some (T' !! a) -> a ∉ o_frames O) ->
  (forall a, a ∈ o_pages O -> T !! a = Some 0%nat -> T' !! a = Some 0%nat) -> separate m' T'.
Proof.
  intros (_ & _ & _ & Hg) Hm Hd HT. split; [done|]. intros a Ha. destruct (Hg a Ha) as [Hor Hb]. split.
  - destruct Hor as [H0|HO]; [left; auto|by right].
  - intros x Hx. rewrite (Hm a) by done. auto.
Qed.

Lemma separate_put s m T p l i e :
  pinv s m T -> T !! p = Some (S l) -> idx_ok i -> separate (put m (p + i * 8) e) T.
Proof.
  intros I Hp Hi. eapply separate_next; [done| |apply I|done]. intros a x Ha Hx. unfold put, idx_ok in *.
  apply store_out. rewrite length_to_le.
  assert (table_ok p) by (destruct I as (_ & F & _); by eapply f_frame).
  pose proof (guard_out _ _ _ _ _ p I Ha ltac:(done) (table_unprotected _ _ _ _ _ I Hp) Hx). lia.
Qed.

Lemma dom_insert_used T a l : dom (<[a := l]> T) ∪ o_frames O = {[a]} ∪ (dom T ∪ o_frames O).
Proof. rewrite dom_insert_L. set_solver. Qed.

Lemma put_updates s m T p l i e :
  pinv s m T -> T !! p = Some (S l) -> idx_ok i -> 0 <= e < 2 ^ 64 ->
  updates T p i e m (put m (p + i * 8) e).
Proof.
  intros I Hp Hi He. split; [by apply entry_put|]. intros q l' j Hq Hj Hne.
  apply entry_put_ne; try done; by eapply pinv_table.
Qed.

Section table_specs.
  Context {E : Type}.

Lemma table_entry_spec p l i s m T (Q : Z -> Machine -> Prop) :
  pinv s m T -> T !! p = Some l -> idx_ok i ->
  (forall s', pinv s' m T -> Q (entry m p i) s') -> wp (get_entry (E:=E) p i) s Q.
Proof.
  intros I Hp Hi HQ. eapply get_entry_spec; [apply I|by eapply pinv_table|done|].
  intros s' I'. apply HQ. split; [done|apply I].
Qed.

Lemma get_or_alloc_spec e s m T l (Q : option (Z * option Z) -> Machine -> Prop) :
  pinv s m T -> (l <= 2)%nat ->
  (present e = true -> Q (Some (address e, None)) s) ->
  (forall a s' m', present e = false -> T !! a = None -> pinv s' m' (<[a := S l]> T) -> agree T m m' ->
     unref m' (<[a := S l]> T) a -> empty m' a -> (forall b, unref m T b -> unref m' (<[a := S l]> T) b) ->
     Q (Some (a, Some a)) s') ->
  (forall s', present e = false -> pinv s' m T -> Q None s') ->
  wp (get_or_alloc (E:=E) e) s Q.
Proof.
  intros I Hl HP HA HN. unfold get_or_alloc. destruct (present e); [wp_step; auto|].
  wp_step. pose proof I as I0. destruct I as (I & F & Hd & Hg). eapply alloc_spec; [done| |].
  - intros a s1 Ha Hok I1. assert (HTa : T !! a = None).
    { apply not_elem_of_dom. set_solver. }
    wp_step. eapply zero_table_spec; [done|set_solver|]. intros s2 I2. wp_step.
    set (m' := fill m a 4096 0) in *.
    assert (Hag : agree T m m').
    { intros q k i Hq Hi. apply (entry_frame m m' a); [done|by eapply f_frame|done|congruence|].
      intros x Hx. apply fill_out. lia. }
    assert (Hem : empty m' a).
    { intros i Hi. unfold idx_ok in Hi. rewrite entry_word.
      subst m'. rewrite word_fill by (destruct Hok as (?&?&?); lia). done. }
    destruct (grow_forest X m m' T a (S l) F HTa Hok ltac:(lia) Hag) as (F' & Hu & Hu'); [done|].
    assert (HaO : a ∉ o_frames O) by set_solver.
    apply (HA a s2 m'); try done. split; [by rewrite dom_insert_used|split; [done|]].
    eapply separate_next; [exact I0| | |].
    + intros b x Hb Hx. apply fill_out.
      pose proof (guard_out _ _ _ _ _ a I0 Hb Hok (new_unprotected _ _ _ _ I0 HTa HaO) Hx). lia.
    + intros b Hb. destruct (decide (b = a)) as [->|]; [done|]. rewrite lookup_insert_ne in Hb by done. auto.
    + intros b _ Hb. rewrite lookup_insert_ne; [done|congruence].
  - intros s' I'. wp_step. apply HN; [done|]. by split.
Qed.

(** A frame nothing points at is given back. *)
Lemma drop_frame_spec a l s m T (Q : unit -> Machine -> Prop) :
  pinv s m T -> T !! a = Some l -> a ∉ o_pages O -> unref m T a -> (forall i, X a i = false) ->
  (forall s' m', pinv s' m' (delete a T) -> agree (delete a T) m m' ->
     (forall b, unref m T b -> unref m' (delete a T) b) -> Q tt s') ->
  wp (delloc_frame (E:=E) a) s Q.
Proof.
  intros I Ha Hna Hu Hx HQ. pose proof (pinv_table _ _ _ _ _ I Ha) as Hok.
  pose proof I as I0. destruct I as (I & F & Hd & Hg). eapply dealloc_spec; [done|by eapply pinv_used|].
  intros s' m' I' Hm.
  assert (Hag : agree (delete a T) m m').
  { intros q k i [Hne Hq]%lookup_delete_Some Hi.
    apply (entry_frame m m' a); [done|by eapply f_frame|done|congruence|done]. }
  destruct (shrink_forest X m m' T a F Hu Hx Hag) as [F' Hu'].
  apply (HQ s' m'); try done. assert (a ∉ o_frames O) by (apply Hd; by exists l).
  split; [|split; [done|]].
  - replace (dom (delete a T) ∪ o_frames O) with ((dom T ∪ o_frames O) ∖ {[a]}); [done|]. rewrite dom_delete_L. set_solver.
  - eapply separate_next; [exact I0| | |].
    + intros b x Hb Hxb. apply Hm. by eapply guard_out.
    + intros b [k [Hne Hb]%lookup_delete_Some]. apply Hd. by exists k.
    + intros b Hb HT. rewrite lookup_delete_ne; [done|congruence].
Qed.

(** A table that nothing points at and that has no entries. *)
Definition fresh m T (p : Z) : Prop := unref m T p /\ empty m p.

Lemma fresh_clear m T p i : forest m T -> fresh m T p -> X p i = false.
Proof.
  intros F [_ He]. destruct (X p i) eqn:Hx; [|done]. exfalso.
  destruct (f_excl _ _ _ F p i Hx) as (Hi & _ & Hp). by rewrite He in Hp.
Qed.

Lemma write_fresh_spec p i e suf0 pa s m T (Q : unit -> Machine -> Prop) :
  pinv s m T -> branch m T (address e) suf0 pa -> (length suf0 < 3)%nat ->
  T !! p = Some (S (length suf0)) -> fresh m T p -> idx_ok i -> present e = true -> 0 <= e < 2 ^ 64 ->
  (forall s' m', pinv s' m' T -> branch m' T p (i :: suf0) pa -> same_roots T m m' ->
     updates T p i e m m' ->
     (forall p' l, T !! p' = Some (S l) -> p' <> p -> p' <> address e -> fresh m T p' -> fresh m' T p') ->
     Q tt s') ->
  wp (write_entry (E:=E) p i e) s Q.
Proof.
  intros I Hb Hlen Hp Hf Hi He Hrange HQ. pose proof I as (Ia & F & Hd).
  pose proof (fresh_clear _ _ _ i F Hf) as Hx. destruct Hf as [Hu Hem].
  eapply write_entry_spec; [exact Ia|by eapply pinv_used|done|]. intros s' Ia'.
  pose proof (put_updates s m T p _ i e I Hp Hi Hrange) as Hupd.
  destruct (branch_grow m _ T p i e suf0 pa F Hb Hlen Hp Hu Hem Hx Hi He Hupd) as (F' & Hb' & Hr).
  apply (HQ s' (put m (p + i * 8) e)); try done.
  { split; [done|split; [done|by eapply separate_put]]. }
  intros p' l Hp' Hne Hne' [Hu' Hem']. split; [by eapply (link_unref X m _ T p i e)|].
  intros j Hj. destruct Hupd as [_ Ho]. rewrite (Ho p' l j) by congruence. by apply Hem'.
Qed.

Lemma write_join_spec R pre p i e suf0 pa s m T (Q : unit -> Machine -> Prop) :
  pinv s m T -> branch m T (address e) suf0 pa -> (length pre + S (length suf0) = 4)%nat ->
  Forall idx_ok pre -> Forall idx_ok suf0 -> T !! R = Some 4%nat -> trans m R pre = Some p ->
  present (entry m p i) = false -> X p i = false -> idx_ok i -> present e = true -> 0 <= e < 2 ^ 64 ->
  (forall s' m', pinv s' m' T -> trans m' R (pre ++ i :: suf0) = Some pa ->
     (forall r ks, T !! r = Some 4%nat -> length ks = 4%nat -> Forall idx_ok ks ->
       (r, ks) <> (R, pre ++ i :: suf0) -> trans m' r ks = trans m r ks) ->
     updates T p i e m m' -> Q tt s') ->
  wp (write_entry (E:=E) p i e) s Q.
Proof.
  intros I Hb Hlen Hpre Hsuf HR Hp Hold Hx Hi He Hrange HQ. pose proof I as (Ia & F & Hd).
  assert (Hlp : T !! p = Some (S (length suf0))).
  { apply (trans_level X m T R _ pre); [done| |done|done]. by rewrite HR, Hlen. }
  eapply write_entry_spec; [exact Ia|by eapply pinv_used|done|]. intros s' Ia'.
  pose proof (put_updates s m T p _ i e I Hlp Hi Hrange) as Hupd.
  destruct (branch_join m _ T R pre p i e suf0 pa F Hb Hlen Hpre Hsuf HR Hp Hold Hx Hi He Hupd)
    as (F' & Ht & Ho).
  apply (HQ s' (put m (p + i * 8) e)); try done. split; [done|split; [done|by eapply separate_put]].
Qed.

End table_specs.

(** ** [write_memory_page] *)

(** A table with an entry in use. *)
Definition nonempty m (p : Z) : Prop := exists i, idx_ok i /\ present (entry m p i) = true.

(** One page of one address space is mapped to [pa], every other translation
    is the same. The frames that are new are tables in use, below which there
    is nothing that was there before. *)
Record mapped R js pa m T m' T' : Prop := {
  mp_sub : T ⊆ T';
  mp_page : forall q, T' !! q = Some 0%nat -> T !! q = Some 0%nat;
  mp_root : forall r, T' !! r = Some 4%nat -> T !! r = Some 4%nat;
  mp_new : trans m' R js = Some pa;
  mp_same : forall r ks, T !! r = Some 4%nat -> length ks = 4%nat -> Forall idx_ok ks ->
    (r, ks) <> (R, js) -> trans m' r ks = trans m r ks;
  mp_keep : forall p l i, T !! p = Some (S l) -> idx_ok i -> present (entry m p i) = true ->
    entry m' p i = entry m p i;
  mp_child : forall p l i, T' !! p = Some (S l) -> idx_ok i -> present (entry m' p i) = true ->
    (T !! p = Some (S l) /\ entry m' p i = entry m p i) \/
    address (entry m' p i) = pa \/ T !! address (entry m' p i) = None;
  mp_live : forall p l, T' !! p = Some (S l) -> T !! p = None -> nonempty m' p;
}.

(** Before the new branch is linked in: [L] are the new tables still empty. *)
Record grown pa m T m1 T1 (L : list Z) : Prop := {
  gr_agree : agree T m m1;
  gr_child : forall p l i, T1 !! p = Some (S l) -> T !! p = None -> idx_ok i ->
    present (entry m1 p i) = true -> address (entry m1 p i) = pa \/ T !! address (entry m1 p i) = None;
  gr_live : forall p l, T1 !! p = Some (S l) -> T !! p = None -> p ∈ L \/ nonempty m1 p;
}.

Lemma grown_refl pa m T : grown pa m T m T [].
Proof. split; [done| |]; congruence. Qed.

Lemma grown_table pa m T m1 T1 m2 a l L :
  grown pa m T m1 T1 L -> T ⊆ T1 -> agree T1 m1 m2 -> empty m2 a -> T1 !! a = None ->
  grown pa m T m2 (<[a := S l]> T1) (a :: L).
Proof.
  intros [Ha Hc Hl] Hsub Hag Hem HTa. split.
  - intros q k i Hq Hi. rewrite (Hag q k i); [by eapply Ha|by eapply lookup_weaken|done].
  - intros p k i Hp HTp Hi Hpr. destruct (decide (p = a)) as [->|Hne]; [by rewrite Hem in Hpr|].
    rewrite lookup_insert_ne in Hp by done. rewrite (Hag p k i) in * by done. by eapply Hc.
  - intros p k Hp HTp. destruct (decide (p = a)) as [->|Hne]; [left; apply list_elem_of_here|].
    rewrite lookup_insert_ne in Hp by done. destruct (Hl p k Hp HTp) as [Hin|(i & Hi & Hpr)].
    + left. by apply list_elem_of_further.
    + right. exists i. by rewrite (Hag p k i).
Qed.

Lemma grown_write pa m T m1 T1 m2 p i e L :
  grown pa m T m1 T1 (p :: L) -> T ⊆ T1 -> T !! p = None -> updates T1 p i e m1 m2 -> idx_ok i ->
  present e = true -> address e = pa \/ T !! address e = None -> grown pa m T m2 T1 L.
Proof.
  intros [Ha Hc Hl] Hsub HTp [He Ho] Hi Hpr Hch. split.
  - intros q k j Hq Hj. rewrite (Ho q k j); [by eapply Ha|by eapply lookup_weaken|done|congruence].
  - intros q k j Hq HTq Hj Hpq. destruct (decide ((q, j) = (p, i))) as [[= -> ->]|Hne].
    + by rewrite He.
    + rewrite (Ho q k j) in * by done. by eapply Hc.
  - intros q k Hq HTq. destruct (decide (q = p)) as [->|Hne].
    + right. exists i. by rewrite He.
    + destruct (Hl q k Hq HTq) as [[->|Hin]%elem_of_cons|(j & Hj & Hpq)]; [done|by left|].
      right. exists j. rewrite (Ho q k j); [done|done|done|congruence].
Qed.

Lemma mapped_after R js pa m T m1 T1 m' p i e l :
  T ⊆ T1 -> (forall q l, T1 !! q = Some l -> l = 0%nat \/ l = 4%nat -> T !! q = Some l) ->
  same_roots T m m1 -> trans m' R js = Some pa ->
  (forall r ks, T1 !! r = Some 4%nat -> length ks = 4%nat -> Forall idx_ok ks ->
    (r, ks) <> (R, js) -> trans m' r ks = trans m1 r ks) ->
  grown pa m T m1 T1 [] -> updates T1 p i e m1 m' -> T !! p = Some (S l) -> idx_ok i ->
  present (entry m1 p i) = false -> address e = pa \/ T !! address e = None ->
  mapped R js pa m T m' T1.
Proof.
  intros Hsub Hnew Hsame Ht Ho [Ha Hc Hl] [He Hu] Hp Hi Hold Hch.
  split; [done|intros; apply Hnew; auto..|done| | | |].
  - intros r ks Hr Hlen Hok Hne. rewrite Ho; try done; [|by eapply lookup_weaken].
    apply Hsame; [done|lia|done].
  - intros q k j Hq Hj Hpr. rewrite (Hu q k j); [by eapply Ha|by eapply lookup_weaken|done|].
    intros [= -> ->]. by rewrite (Ha p k i), Hpr in Hold by done.
  - intros q k j Hq Hj Hpr. destruct (decide ((q, j) = (p, i))) as [[= -> ->]|Hne].
    + right. by rewrite He.
    + rewrite (Hu q k j) in * by done. destruct (T !! q) as [k'|] eqn:HTq.
      * left. assert (T1 !! q = Some k') by (by eapply lookup_weaken). simplify_eq.
        split; [done|]. by eapply Ha.
      * right. by eapply Hc.
  - intros q k Hq HTq. destruct (Hl q k Hq HTq) as [Hin|(j & Hj & Hpr)]; [by apply elem_of_nil in Hin|].
    exists j. rewrite (Hu q k j); [done|done|done|]. intros [= -> ->]. congruence.
Qed.

Section map_page.
  Context (v pa R : Z) (w x u : bool).
  Notation i4 := (pml4_index v).
  Notation i3 := (pdpt_index v).
  Notation i2 := (pd_index v).
  Notation i1 := (pt_index v).
  Notation flags := (page_flags w x u pa).

Definition map_post m T (s' : Machine) : Prop :=
  exists m' T', pinv s' m' T' /\ mapped R (indices v) pa m T m' T' /\
    exists pt, trans m' R [i4; i3; i2] = Some pt /\ entry m' pt i1 = flags.

Lemma flags_ok : table_ok pa -> address flags = pa /\ present flags = true /\ 0 <= flags < 2 ^ 64.
Proof. rewrite page_flags_bits. apply page_bits_ok. Qed.

Lemma table_flags_ok p :
  table_ok p -> address (table_flags u p) = p /\ present (table_flags u p) = true /\ 0 <= table_flags u p < 2 ^ 64.
Proof. rewrite table_flags_bits. apply page_bits_ok. Qed.

Lemma join_post s' m T m1 m' T1 pt p i e l :
  pinv s' m' T1 -> table_ok pa -> T ⊆ T1 ->
  (forall q l, T1 !! q = Some l -> l = 0%nat \/ l = 4%nat -> T !! q = Some l) ->
  same_roots T m m1 -> T !! R = Some 4%nat -> trans m' R (indices v) = Some pa ->
  (forall r ks, T1 !! r = Some 4%nat -> length ks = 4%nat -> Forall idx_ok ks ->
    (r, ks) <> (R, indices v) -> trans m' r ks = trans m1 r ks) ->
  T1 !! pt = Some 1%nat -> X pt i1 = false -> entry m' pt i1 = flags ->
  grown pa m T m1 T1 [] -> updates T1 p i e m1 m' -> T !! p = Some (S l) -> idx_ok i ->
  present (entry m1 p i) = false -> address e = pa \/ T !! address e = None -> map_post m T s'.
Proof.
  intros I Hpa Hsub Hnew Hsame HR Ht Ho Hpt Hx He G Hupd HTp Hi Hold Hch. exists m', T1. split; [done|].
  split; [by eapply (mapped_after R (indices v) pa m T m1 T1 m' p i e l)|]. change (indices v) with ([i4; i3; i2] ++ [i1]) in Ht.
  rewrite trans_app in Ht. destruct (trans m' R [i4; i3; i2]) as [pt'|] eqn:Hpt'; [|done]. cbn in Ht.
  destruct (linked m' pt' i1) eqn:Hl; [|done]. injection Ht as Ht.
  destruct (flags_ok Hpa) as (Ha & Hp & _). destruct I as (_ & F & _).
  assert (HR1 : T1 !! R = Some 4%nat) by (by eapply lookup_weaken).
  assert (T1 !! pt' = Some 1%nat) as Hlp.
  { apply (trans_level X m' T1 R _ [i4; i3; i2]); [done|done| |done].
    repeat constructor; apply land_index. }
  destruct (f_inj _ _ _ F pt' 0%nat i1 pt 0%nat i1) as [-> _]; try done.
  - apply land_index.
  - apply land_index.
  - unfold linked. by rewrite He, Hp, Hx.
  - by rewrite Ht, He, Ha.
  - by exists pt.
Qed.

(** All tables are there. *)
Lemma writes_0 pt s m T :
  pinv s m T -> T !! R = Some 4%nat -> T !! pa = Some 0%nat -> unref m T pa ->
  trans m R [i4; i3; i2] = Some pt -> present (entry m pt i1) = false -> X pt i1 = false ->
  wp (write_entry (E:=WritePageError) pt i1 flags) s (fun _ => map_post m T).
Proof.
  intros I HR Hpa Hu Hpt Hold Hx. pose proof (pinv_table _ _ _ _ _ I Hpa) as Hok.
  destruct (flags_ok Hok) as (Ha & Hp & Hrange).
  assert (Hidx : Forall idx_ok [i4; i3; i2]) by (repeat constructor; apply land_index).
  assert (HT : T !! pt = Some 1%nat).
  { apply (trans_level X m T R _ [i4; i3; i2]); [apply I|done|done|done]. }
  eapply (write_join_spec R [i4; i3; i2] pt i1 flags [] pa); try done.
  - rewrite Ha. by apply branch_page.
  - apply land_index.
  - intros s' m' I' Ht Ho Hupd. eapply (join_post s' m T m m' T pt pt i1); try done.
    + apply Hupd.
    + apply grown_refl.
    + apply land_index.
    + by left.
Qed.

(** New tables: [T] and [m] have become [T1] and [m1]. *)
Record extended m T (s : Machine) m1 T1 (L : list Z) : Prop := {
  x_pinv : pinv s m1 T1;
  x_sub : T ⊆ T1;
  x_new : forall q l, T1 !! q = Some l -> l = 0%nat \/ l = 4%nat -> T !! q = Some l;
  x_same : same_roots T m m1;
  x_grown : grown pa m T m1 T1 L;
}.

Lemma extended_refl s m T : pinv s m T -> extended m T s m T [].
Proof. intros. split; try done. apply grown_refl. Qed.

(** The branch above the page has grown up to table [q]. *)
Record growing m T (s : Machine) m1 T1 L (q : Z) suf (pt : Z) : Prop := {
  g_ext : extended m T s m1 T1 L;
  g_top : T !! q = None;
  g_branch : branch m1 T1 q suf pa;
  g_pt : T1 !! pt = Some 1%nat;
  g_clear : X pt i1 = false;
  g_entry : entry m1 pt i1 = flags;
}.

Lemma grow_start pt s m T m1 T1 L (Q : unit -> Machine -> Prop) :
  extended m T s m1 T1 (pt :: L) -> T !! pt = None -> T1 !! pa = Some 0%nat -> unref m1 T1 pa -> T1 !! pt = Some 1%nat -> fresh m1 T1 pt ->
  (forall s' m2, growing m T s' m2 T1 L pt [i1] pt -> same_roots T1 m1 m2 -> updates T1 pt i1 flags m1 m2 ->
     (forall p l, T1 !! p = Some (S (S l)) -> fresh m1 T1 p -> fresh m2 T1 p) -> Q tt s') ->
  wp (write_entry (E:=WritePageError) pt i1 flags) s Q.
Proof.
  intros X1 HTpt Hpa Hu Hpt Hf HQ. pose proof X1 as [I Hsub Hnew Hsame Hgr].
  pose proof (pinv_table _ _ _ _ _ I Hpa) as Hok. destruct (flags_ok Hok) as (Ha & Hp & Hrange).
  pose proof (fresh_clear _ _ _ i1 (proj1 (proj2 I)) Hf) as Hx1.
  eapply (write_fresh_spec pt i1 flags [] pa); try done; [|cbn; lia|apply land_index|].
  { rewrite Ha. by apply branch_page. }
  intros s2 m2 I2 Hb Hs2 Hupd Hfr. apply (HQ s2 m2); [|done|done|].
  - split; [|done..|apply Hupd]. split; [done..| |].
    + by eapply same_roots_trans.
    + eapply grown_write; try done; [apply land_index|by left].
  - intros p l Hp' Hf'. eapply Hfr; [done| | |done]; [congruence|]. rewrite Ha. congruence.
Qed.

Lemma grow_link p i q suf pt s m T m1 T1 L (Q : unit -> Machine -> Prop) :
  growing m T s m1 T1 (p :: L) q suf pt -> T !! p = None -> (1 <= length suf < 3)%nat ->
  T1 !! p = Some (S (length suf)) -> fresh m1 T1 p -> idx_ok i ->
  (forall s' m2, growing m T s' m2 T1 L p (i :: suf) pt -> same_roots T1 m1 m2 ->
     updates T1 p i (table_flags u q) m1 m2 ->
     (forall p' l, T1 !! p' = Some (S l) -> (S (length suf) <= l)%nat -> fresh m1 T1 p' -> fresh m2 T1 p') ->
     Q tt s') ->
  wp (link_table (E:=WritePageError) u p i (Some q)) s Q.
Proof.
  intros G HTp Hlen Hp Hf Hi HQ. pose proof G as [[I Hsub Hnew Hsame Hgr] Htop Hb Hpt Hx He]. cbn [link_table].
  pose proof (proj1 (proj2 Hb)) as Hq.
  destruct (table_flags_ok q) as (Ha & Hpr & Hrange); [by eapply pinv_table|].
  eapply (write_fresh_spec p i _ suf pa); try done; [by rewrite Ha|lia|].
  intros s2 m2 I2 Hb2 Hs2 Hupd Hfr. apply (HQ s2 m2); [|done|done|].
  - split; [|done..|].
    + split; [done..| |].
      * by eapply same_roots_trans.
      * eapply grown_write; try done. right. by rewrite Ha.
    + destruct Hupd as [_ Ho]. rewrite (Ho pt 0%nat i1); [done|done|apply land_index|].
      intros [= Hpp _]. rewrite Hpp, Hp in Hpt. injection Hpt as Hpt. lia.
  - intros p' l Hp' Hl Hf'. eapply Hfr; [done| | |done].
    + intros ->. rewrite Hp in Hp'. injection Hp' as Hp'. lia.
    + rewrite Ha. intros ->. rewrite Hq in Hp'. injection Hp' as Hp'. lia.
Qed.

Lemma grow_join pre p i q suf pt s m T m1 T1 :
  growing m T s m1 T1 [] q suf pt -> is_Some (T !! p) -> (1 <= length suf)%nat -> indices v = pre ++ i :: suf ->
  T !! R = Some 4%nat -> table_ok pa -> trans m1 R pre = Some p -> present (entry m1 p i) = false -> X p i = false ->
  wp (link_table (E:=WritePageError) u p i (Some q)) s (fun _ => map_post m T).
Proof.
  intros G [lp HTp0] Hlen Heq HR Hok Hp Hold Hxp. pose proof G as [[I Hsub Hnew Hsame Hgr] Htop Hb Hpt Hx He]. cbn [link_table].
  pose proof (proj1 (proj2 Hb)) as Hq.
  destruct (table_flags_ok q) as (Ha & Hpr & Hrange); [by eapply pinv_table|].
  assert (HR1 : T1 !! R = Some 4%nat) by (by eapply lookup_weaken).
  pose proof (indices_ok v) as Hidx. rewrite Heq in Hidx.
  apply Forall_app in Hidx as [Hpre Hsuf]. inversion Hsuf; subst.
  assert (Hl4 : (length pre + S (length suf))%nat = 4%nat).
  { assert (length (indices v) = 4%nat) as H4 by done. rewrite Heq, length_app in H4. done. }
  assert (HTp : T1 !! p = Some (S (length suf))).
  { apply (trans_level X m1 T1 R _ pre); [apply I|by rewrite Hl4|done|done]. }
  eapply (write_join_spec R pre p i _ suf pa); try done; [by rewrite Ha|].
  intros s3 m3 I3 Ht Ho Hupd3. rewrite <-Heq in Ht, Ho.
  assert (T !! p = Some (S (length suf))) as HTp1.
  { rewrite HTp0. assert (T1 !! p = Some lp) as Hl by (by eapply lookup_weaken). congruence. }
  eapply (join_post s3 m T m1 m3 T1 pt p i); try done; [|right; by rewrite Ha].
  destruct Hupd3 as [_ Ho3]. rewrite (Ho3 pt 0%nat i1); [done|done|apply land_index|].
  intros [= Hpp _]. rewrite Hpp, HTp in Hpt. injection Hpt as Hpt. lia.
Qed.

(** Tables made on the way are given back when one cannot be made. *)
Definition err_post m T (s' : Machine) : Prop := exists m', pinv s' m' T /\ agree T m m'.

Lemma agree_sub T T' m m' : T ⊆ T' -> agree T' m m' -> agree T m m'.
Proof. intros Hs Ha q l i Hq Hi. eapply Ha; [|done]. by eapply lookup_weaken. Qed.

Lemma agree_trans T m m' m'' : agree T m m' -> agree T m' m'' -> agree T m m''.
Proof. intros H1 H2 q l i Hq Hi. rewrite (H2 q l i), (H1 q l i); done. Qed.

Lemma fresh_other m m' T T' p l :
  T !! p = Some (S l) -> agree T m m' -> (forall b, unref m T b -> unref m' T' b) ->
  fresh m T p -> fresh m' T' p.
Proof.
  intros Hp Ha Hu [H1 H2]. split; [auto|]. intros i Hi. rewrite (Ha p l i) by done. auto.
Qed.

Lemma drop_new a l s m m1 T (Q : unit -> Machine -> Prop) :
  pinv s m1 (<[a := S l]> T) -> T !! a = None -> fresh m1 (<[a := S l]> T) a -> agree T m m1 ->
  (forall s' m2, pinv s' m2 T -> agree T m m2 -> agree T m1 m2 ->
     (forall b, unref m1 (<[a := S l]> T) b -> unref m2 T b) -> Q tt s') ->
  wp (free_opt (E:=WritePageError) (Some a)) s Q.
Proof.
  intros I Ha Hf Hag HQ. cbn [free_opt].
  eapply drop_frame_spec; [exact I|by rewrite lookup_insert_eq|eapply table_unprotected, lookup_insert_eq; exact I|apply Hf| |].
  { intros i. eapply fresh_clear; [apply I|done]. }
  rewrite delete_insert_id by done. intros s' m2 I2 Hag2 Hu2.
  apply (HQ s' m2); [done|by eapply agree_trans|done|done].
Qed.

Lemma make_table l e s m T m1 T1 L (Q : option (Z * option Z) -> Machine -> Prop) :
  extended m T s m1 T1 L -> (l <= 2)%nat -> present e = false ->
  (forall a s' m2, T1 !! a = None -> extended m T s' m2 (<[a := S l]> T1) (a :: L) -> agree T1 m1 m2 ->
     fresh m2 (<[a := S l]> T1) a -> (forall b, unref m1 T1 b -> unref m2 (<[a := S l]> T1) b) ->
     Q (Some (a, Some a)) s') ->
  (forall s', pinv s' m1 T1 -> Q None s') ->
  wp (get_or_alloc (E:=WritePageError) e) s Q.
Proof.
  intros [I Hsub Hnew Hsame Hgr] Hl He HA HN. eapply (get_or_alloc_spec e _ _ _ l); [done|done|congruence| |auto].
  intros a s' m2 _ Ha I2 Hag Hu Hem Hu2. apply (HA a s' m2); try done. split; [done| | | |].
  - etrans; [done|]. by apply insert_subseteq.
  - intros q k Hq Hk. destruct (decide (q = a)) as [->|Hne].
    + rewrite lookup_insert_eq in Hq. injection Hq as <-. lia.
    + rewrite lookup_insert_ne in Hq by done. auto.
  - eapply same_roots_trans; [done..|]. apply agree_roots; [apply I|done].
  - by eapply grown_table.
Qed.

(** The code from the lookup of the third and of the second table on. *)
Definition third (pdpt : Z) (pdpt_alloc : option Z) (pd : Z) (pd_alloc : option Z)
    : M Machine WritePageError unit :=
  pd_entry ← get_entry pd i2;
  r ← get_or_alloc pd_entry;
  match r with
  | None => free_opt pdpt_alloc;; free_opt pd_alloc;; throw WritePageFailed
  | Some (pt, pt_alloc) =>
      write_entry pt i1 flags;;
      link_table u pd i2 pt_alloc;;
      link_table u pdpt i3 pd_alloc;;
      link_table u R i4 pdpt_alloc
  end.

Definition second (pdpt : Z) (pdpt_alloc : option Z) : M Machine WritePageError unit :=
  pdpt_entry ← get_entry pdpt i3;
  r ← get_or_alloc pdpt_entry;
  match r with
  | None => free_opt pdpt_alloc;; throw WritePageFailed
  | Some (pd, pd_alloc) => third pdpt pdpt_alloc pd pd_alloc
  end.

Lemma write_memory_page_second :
  write_memory_page v pa R w x u =
  (pml4_entry ← get_entry R i4;
   r ← get_or_alloc pml4_entry;
   match r with
   | None => throw WritePageFailed
   | Some (pdpt, pdpt_alloc) => second pdpt pdpt_alloc
   end).
Proof. done. Qed.

Section run.
  Context m T (F0 : forest m T) (HR : T !! R = Some 4%nat) (Hpa : T !! pa = Some 0%nat) (Hu : unref m T pa)
    (Hclear : clear_path m R (indices v)) (Hfree : trans m R (indices v) = None).
  Notation good := (fun (_ : unit) => map_post m T).
  Notation bad := (fun (_ : WritePageError) => err_post m T).

Lemma idx4 : idx_ok i4. Proof. apply land_index. Qed.
Lemma idx3 : idx_ok i3. Proof. apply land_index. Qed.
Lemma idx2 : idx_ok i2. Proof. apply land_index. Qed.
Lemma idx1 : idx_ok i1. Proof. apply land_index. Qed.

Lemma descend_ok pre p i suf :
  indices v = pre ++ i :: suf -> trans m R pre = Some p ->
  present (entry m p i) = true ->
  trans m R (pre ++ [i]) = Some (address (entry m p i)) /\
  T !! address (entry m p i) = Some (length suf) /\ X p i = false.
Proof.
  intros Heq Hp Hpr. pose proof (Hclear pre i suf p Heq Hp) as Hx.
  assert (Ht : trans m R (pre ++ [i]) = Some (address (entry m p i))).
  { rewrite trans_app, Hp. cbn. unfold linked. by rewrite Hpr, Hx. }
  split_conj; [done| |done]. pose proof (indices_ok v) as Hidx. rewrite Heq in Hidx.
  apply (trans_level X m T R _ (pre ++ [i])); [done| | |done].
  - rewrite HR, length_app. cbn. f_equal.
    assert (length (indices v) = 4%nat) as H4 by done. rewrite Heq, length_app in H4. cbn in H4. lia.
  - apply Forall_app in Hidx as [? Hs]. inversion Hs; subst. apply Forall_app_2; [done|by apply Forall_singleton].
Qed.

(** The first two tables below the root are there. *)
Lemma third_old s pdpt pd :
  pinv s m T -> trans m R [i4; i3] = Some pd ->
  wpe (third pdpt None pd None) s good bad.
Proof.
  intros I Hpd. assert (HTpd : T !! pd = Some 2%nat).
  { apply (trans_level X m T R _ [i4; i3]); [apply I|done|repeat constructor; apply land_index|done]. }
  pose proof (pinv_table _ _ _ _ _ I Hpa) as Hok. unfold third. apply wpe_bind.
  eapply table_entry_spec; [done..|apply idx2|]. intros s1 I1. apply wpe_bind.
  destruct (present (entry m pd i2)) eqn:Hp2.
  - eapply (get_or_alloc_spec _ _ _ _ 0); [done|lia| |congruence|congruence].
    intros _. destruct (descend_ok [i4; i3] pd i2 [i1] ltac:(done) Hpd Hp2) as (Hpt & HTpt & _).
    set (pt := address (entry m pd i2)) in *. cbn [app] in Hpt.
    pose proof (Hclear [i4; i3; i2] i1 [] pt ltac:(done) Hpt) as Hx1. apply wpe_wp.
    wp_step. eapply wp_mono; [apply (writes_0 pt); try done|].
    + destruct (present (entry m pt i1)) eqn:Hp1; [|done]. exfalso.
      change (indices v) with ([i4; i3; i2] ++ [i1]) in Hfree. rewrite trans_app, Hpt in Hfree. cbn in Hfree.
      unfold linked in Hfree. by rewrite Hp1, Hx1 in Hfree.
    + intros ? s2 Hpost. cbn [link_table]. by wp_pure.
  - eapply (make_table 0); [by apply extended_refl|lia|done| |].
    + intros pt s2 m2 HTpt X2 Hag Hf Hu2. apply wpe_wp. wp_step.
      assert (HTpa : <[pt := 1%nat]> T !! pa = Some 0%nat) by (rewrite lookup_insert_ne; [done|congruence]).
      eapply (grow_start pt); [done|done|done|by apply Hu2|by rewrite lookup_insert_eq|done|].
      intros s3 m3 G Hs3 Hupd _. wp_step.
      eapply wp_mono; [eapply (grow_join [i4; i3] pd i2 pt [i1] pt); try done|].
      * rewrite Hs3; [|by eapply lookup_weaken, X2|cbn; lia|repeat constructor; apply land_index].
        rewrite (x_same _ _ _ _ _ _ X2); [done|done|cbn; lia|repeat constructor; apply land_index].
      * destruct Hupd as [_ Ho]. rewrite (Ho pd 1%nat i2).
        -- by rewrite (Hag pd 1%nat i2) by (done || apply idx2).
        -- rewrite lookup_insert_ne; [done|congruence].
        -- apply idx2.
        -- congruence.
      * by apply (Hclear [i4; i3] i2 [i1] pd).
      * intros ? s4 Hpost. cbn [link_table]. by wp_pure.
    + intros s2 I2. apply wpe_bind. cbn [free_opt]. wp_step. apply wpe_bind. wp_step. apply wpe_throw.
      by exists m.
Qed.

(** An entry of an old table that a path has met is as it was. *)
Lemma old_entry p l i m1 T1 m2 :
  T !! p = Some (S l) -> idx_ok i -> agree T m m1 -> T ⊆ T1 -> agree T1 m1 m2 ->
  present (entry m p i) = false -> present (entry m2 p i) = false.
Proof.
  intros Hp Hi Ha Hsub Ha' He. rewrite (Ha' p l i), (Ha p l i); try done. by eapply lookup_weaken.
Qed.

Lemma updates_other T1 p i e m1 m2 q l j :
  updates T1 p i e m1 m2 -> T1 !! q = Some (S l) -> idx_ok j -> q <> p -> entry m2 q j = entry m1 q j.
Proof. intros [_ Ho] Hq Hj Hne. apply (Ho q l j); congruence. Qed.

(** Only the first table below the root is there. *)
Lemma third_new s pdpt pd m1 :
  extended m T s m1 (<[pd := 2%nat]> T) [pd] -> T !! pd = None -> agree T m m1 -> fresh m1 (<[pd := 2%nat]> T) pd ->
  unref m1 (<[pd := 2%nat]> T) pa -> trans m R [i4] = Some pdpt -> present (entry m pdpt i3) = false ->
  wpe (third pdpt None pd (Some pd)) s good bad.
Proof.
  intros X1 HTpd Hag Hf Hu1 Hpdpt Hold. set (T1 := <[pd := 2%nat]> T) in *.
  assert (HT : T !! pdpt = Some 3%nat).
  { apply (trans_level X m T R _ [i4]); try done. repeat constructor; apply land_index. }
  assert (HT1 : T1 !! pd = Some 2%nat) by (by apply lookup_insert_eq).
  pose proof (pinv_table _ _ _ _ _ (x_pinv _ _ _ _ _ _ X1) HT1) as Hokpd.
  assert (Hok : table_ok pa) by (by eapply f_frame).
  unfold third. apply wpe_bind. eapply table_entry_spec; [apply X1|done|apply idx2|]. intros s1 I1. apply wpe_bind.
  assert (extended m T s1 m1 T1 [pd]) as X1' by (destruct X1; by split).
  eapply (make_table 0); [done|lia|apply Hf, idx2| |].
  - intros pt s2 m2 HTpt X2 Hag2 Hf2 Hu2. set (T2 := <[pt := 1%nat]> T1) in *.
    assert (Hsub : T1 ⊆ T2) by (by apply insert_subseteq).
    assert (HT2pd : T2 !! pd = Some 2%nat) by (by eapply lookup_weaken).
    pose proof (fresh_other _ _ _ T2 _ _ HT1 Hag2 Hu2 Hf) as Hfpd.
    apply wpe_wp. wp_step.
    eapply (grow_start pt); [done|eapply lookup_weaken_None; [done|apply X1]|eapply lookup_weaken; [|apply X2]; done|by apply Hu2|by apply lookup_insert_eq|done|].
    intros s3 m3 G Hs3 Hupd Hfr. wp_step.
    eapply (grow_link pd i2 pt [i1] pt); [done|done|cbn; lia|done|by eapply Hfr|apply idx2|].
    intros s4 m4 G4 Hs4 Hupd4 _. wp_step.
    eapply wp_mono; [eapply (grow_join [i4] pdpt i3 pd [i2; i1] pt); try done|].
    + cbn; lia.
    + assert (T2 !! R = Some 4%nat) by (eapply lookup_weaken; [|apply X2]; done).
      assert (Forall idx_ok [i4]) by (repeat constructor; apply land_index).
      rewrite Hs4, Hs3, (x_same _ _ _ _ _ _ X2) by (done || (cbn; lia)). done.
    + assert (HT2 : T2 !! pdpt = Some 3%nat) by (eapply lookup_weaken; [|apply X2]; done).
      rewrite (updates_other _ _ _ _ _ _ pdpt 2%nat i3 Hupd4); [|done|apply idx3|congruence].
      rewrite (updates_other _ _ _ _ _ _ pdpt 2%nat i3 Hupd); [|done|apply idx3|].
      * eapply (old_entry pdpt 2%nat i3 m1 T1); [done|apply idx3|done|apply X1|done|done].
      * intros ->. subst T2. rewrite lookup_insert_eq in HT2. done.
    + by apply (Hclear [i4] i3 [i2; i1] pdpt).
    + intros ? s5 Hpost. cbn [link_table]. by wp_pure.
  - intros s2 I2. apply wpe_bind. cbn [free_opt]. wp_step. apply wpe_bind.
    eapply (drop_new pd 1%nat); [done..|]. intros s3 m3 I3 Hag3 _ _. apply wpe_throw. by exists m3.
Qed.

(** No table below the root is there. *)
Lemma third_all s pdpt pd m1 :
  extended m T s m1 (<[pd := 2%nat]> (<[pdpt := 3%nat]> T)) [pd; pdpt] -> T !! pdpt = None ->
  <[pdpt := 3%nat]> T !! pd = None -> agree T m m1 ->
  fresh m1 (<[pd := 2%nat]> (<[pdpt := 3%nat]> T)) pd -> fresh m1 (<[pd := 2%nat]> (<[pdpt := 3%nat]> T)) pdpt ->
  unref m1 (<[pd := 2%nat]> (<[pdpt := 3%nat]> T)) pa -> present (entry m R i4) = false ->
  wpe (third pdpt (Some pdpt) pd (Some pd)) s good bad.
Proof.
  intros X1 HTpdpt HTpd Hag Hf Hf' Hu1 Hold. set (T1 := <[pd := 2%nat]> (<[pdpt := 3%nat]> T)) in *.
  assert (Hne : pd <> pdpt) by (intros ->; by rewrite lookup_insert_eq in HTpd).
  assert (HTpd0 : T !! pd = None) by (by rewrite lookup_insert_ne in HTpd by done).
  assert (HT1 : T1 !! pd = Some 2%nat) by (by apply lookup_insert_eq).
  assert (HT1' : T1 !! pdpt = Some 3%nat).
  { subst T1. rewrite lookup_insert_ne by done. by apply lookup_insert_eq. }
  assert (Hok : table_ok pa) by (by eapply f_frame).
  unfold third. apply wpe_bind. eapply table_entry_spec; [apply X1|done|apply idx2|]. intros s1 I1. apply wpe_bind.
  assert (extended m T s1 m1 T1 [pd; pdpt]) as X1' by (destruct X1; by split).
  eapply (make_table 0); [done|lia|apply Hf, idx2| |].
  - intros pt s2 m2 HTpt X2 Hag2 Hf2 Hu2. set (T2 := <[pt := 1%nat]> T1) in *.
    assert (Hsub : T1 ⊆ T2) by (by apply insert_subseteq).
    assert (HT2pd : T2 !! pd = Some 2%nat) by (by eapply lookup_weaken).
    assert (HT2pdpt : T2 !! pdpt = Some 3%nat) by (by eapply lookup_weaken).
    assert (HT2R : T2 !! R = Some 4%nat) by (eapply lookup_weaken; [|apply X2]; done).
    pose proof (fresh_other _ _ _ T2 _ _ HT1 Hag2 Hu2 Hf) as Hfpd.
    pose proof (fresh_other _ _ _ T2 _ _ HT1' Hag2 Hu2 Hf') as Hfpdpt.
    apply wpe_wp. wp_step.
    eapply (grow_start pt); [done|eapply lookup_weaken_None; [done|apply X1]|eapply lookup_weaken; [|apply X2]; done|by apply Hu2|by apply lookup_insert_eq|done|].
    intros s3 m3 G Hs3 Hupd Hfr. wp_step.
    eapply (grow_link pd i2 pt [i1] pt); [done|done|cbn; lia|done|by eapply Hfr|apply idx2|].
    intros s4 m4 G4 Hs4 Hupd4 Hfr4. wp_step.
    eapply (grow_link pdpt i3 pd [i2; i1] pt); [done|done|cbn; lia|done| |apply idx3|].
    { eapply (Hfr4 pdpt 2%nat); [done|cbn; lia|by eapply Hfr]. }
    intros s5 m5 G5 Hs5 Hupd5 _.
    eapply (grow_join [] R i4 pdpt [i3; i2; i1] pt); try done; [cbn; lia| |by apply (Hclear [] i4 [i3; i2; i1] R)].
    rewrite (updates_other _ _ _ _ _ _ R 3%nat i4 Hupd5); [|done|apply idx4|congruence].
    rewrite (updates_other _ _ _ _ _ _ R 3%nat i4 Hupd4); [|done|apply idx4|congruence].
    rewrite (updates_other _ _ _ _ _ _ R 3%nat i4 Hupd); [|done|apply idx4|].
    + eapply (old_entry R 3%nat i4 m1 T1); [done|apply idx4|done|apply X1|done|done].
    + intros ->. subst T2. rewrite lookup_insert_eq in HT2R. done.
  - intros s2 I2. apply wpe_bind.
    assert (Hcomm : T1 = <[pdpt := 3%nat]> (<[pd := 2%nat]> T)) by (by apply insert_insert_ne).
    rewrite Hcomm in *. rewrite lookup_insert_ne in HTpd by done.
    eapply (drop_new pdpt 2%nat s2 m1 m1); [done|by rewrite lookup_insert_ne|done|by intros ?|].
    intros s3 m3 I3 _ Hag3 Hu3. apply wpe_bind.
    eapply (drop_new pd 1%nat); [done|done| | |].
    + destruct Hf as [Hf1 Hf2]. split; [by apply Hu3|].
      intros i Hi. rewrite (Hag3 pd 1%nat i); [by apply Hf2|by apply lookup_insert_eq|done].
    + eapply agree_trans; [done|]. eapply agree_sub; [|done]. by apply insert_subseteq.
    + intros s4 m4 I4 Hag4 _ _. apply wpe_throw. by exists m4.
Qed.

Lemma second_old s pdpt :
  pinv s m T -> trans m R [i4] = Some pdpt -> wpe (second pdpt None) s good bad.
Proof.
  intros I Hpdpt. assert (HT : T !! pdpt = Some 3%nat).
  { apply (trans_level X m T R _ [i4]); try done. repeat constructor; apply land_index. }
  unfold second. apply wpe_bind. eapply table_entry_spec; [done..|apply idx3|]. intros s1 I1. apply wpe_bind.
  destruct (present (entry m pdpt i3)) eqn:Hp3.
  - eapply (get_or_alloc_spec _ _ _ _ 1); [done|lia| |congruence|congruence]. intros _.
    destruct (descend_ok [i4] pdpt i3 [i2; i1] ltac:(done) Hpdpt Hp3) as (Hpd & _ & _). by apply third_old.
  - eapply (make_table 1); [by apply extended_refl|lia|done| |].
    + intros pd s2 m2 HTpd X2 Hag Hf Hu2. eapply third_new; try done. by apply Hu2.
    + intros s2 I2. apply wpe_bind. cbn [free_opt]. wp_step. apply wpe_throw. by exists m.
Qed.

Lemma second_new s pdpt m1 :
  extended m T s m1 (<[pdpt := 3%nat]> T) [pdpt] -> T !! pdpt = None -> agree T m m1 ->
  fresh m1 (<[pdpt := 3%nat]> T) pdpt -> unref m1 (<[pdpt := 3%nat]> T) pa ->
  present (entry m R i4) = false -> wpe (second pdpt (Some pdpt)) s good bad.
Proof.
  intros X1 HTpdpt Hag Hf Hu1 Hold. set (T1 := <[pdpt := 3%nat]> T) in *.
  assert (HT1 : T1 !! pdpt = Some 3%nat) by (by apply lookup_insert_eq).
  unfold second. apply wpe_bind. eapply table_entry_spec; [apply X1|done|apply idx3|]. intros s1 I1. apply wpe_bind.
  assert (extended m T s1 m1 T1 [pdpt]) as X1' by (destruct X1; by split).
  eapply (make_table 1); [done|lia|apply Hf, idx3| |].
  - intros pd s2 m2 HTpd X2 Hag2 Hf2 Hu2.
    eapply third_all; try done; [|by eapply fresh_other|by apply Hu2].
    eapply agree_trans; [done|]. eapply agree_sub; [apply X1|done].
  - intros s2 I2. apply wpe_bind. eapply (drop_new pdpt 2%nat); [done..|].
    intros s3 m3 I3 Hag3 _ _. apply wpe_throw. by exists m3.
Qed.

Lemma write_memory_page_spec s :
  pinv s m T -> wpe (write_memory_page v pa R w x u) s good bad.
Proof.
  intros I. rewrite write_memory_page_second. apply wpe_bind.
  eapply table_entry_spec; [done..|apply idx4|]. intros s1 I1. apply wpe_bind.
  destruct (present (entry m R i4)) eqn:Hp4.
  - eapply (get_or_alloc_spec _ _ _ _ 2); [done|lia| |congruence|congruence]. intros _.
    destruct (descend_ok [] R i4 [i3; i2; i1] ltac:(done) ltac:(done) Hp4) as (Hpd & _ & _).
    by apply second_old.
  - eapply (make_table 2); [by apply extended_refl|lia|done| |].
    + intros pdpt s2 m2 HTp X2 Hag Hf Hu2. eapply second_new; try done. by apply Hu2.
    + intros s2 I2. apply wpe_throw. by exists m.
Qed.

End run.

End map_page.

End paths.
