(* ===== verification/PageUnmap.v ===== *)
(** * Unmapping a page

    [remove_memory_page] takes back the frame of the page and the tables that
    become empty, and changes no other translation. *)
From S2P Require Import Prelude Physics PhysicsSpec Page PageForest PageSpec.

Lemma unwrap_spec {E} x s (Q : Z -> Machine -> Prop) : 0 < x -> Q x s -> wp (unwrap_nonzero (E:=E) x) s Q.
Proof.
  intros Hx HQ. unfold unwrap_nonzero. wp_step. wp_step; [apply negb_true_iff, Z.eqb_neq; lia|]. by wp_step.
Qed.

Section unmap.
  Context (X : Z -> Z -> bool) (lo : Z) (K : option Z) (O : others).
  Implicit Types (m : Z -> Z) (T : gmap Z nat) (js ks : list Z).
  Notation forest := (forest X).
  Notation trans := (trans X).
  Notation unref := (unref X).
  Notation linked := (linked X).
  Notation pinv := (pinv X lo K O).

(** One page of one address space is gone, with its frame; no other page and
    no other translation. *)
Definition unmapped R js pa m T m' T' : Prop :=
  T' ⊆ T /\ T' !! pa = None /\ (forall q, T !! q = Some 0%nat -> q <> pa -> T' !! q = Some 0%nat) /\
  (forall r, T !! r = Some 4%nat -> T' !! r = Some 4%nat) /\
  trans m' R js = None /\
  forall r ks, T !! r = Some 4%nat -> length ks = 4%nat -> Forall idx_ok ks ->
    (r, ks) <> (R, js) -> trans m' r ks = trans m r ks.

(** No entry is new, and of the tables that are left none has become empty,
    but for [x]. *)
Definition lively (x : Z) m m' T' : Prop :=
  (forall p l i, T' !! p = Some (S l) -> idx_ok i -> present (entry m' p i) = true ->
     entry m' p i = entry m p i) /\
  (forall p l, T' !! p = Some (S l) -> p <> x -> nonempty m p -> nonempty m' p).

Lemma updates_lively T p i m m' : updates T p i 0 m m' -> lively p m m' T.
Proof.
  intros [H0 Ho]. split.
  - intros q l j Hq Hj Hpr. apply (Ho q l j); [done..|]. intros [= -> ->]. by rewrite H0 in Hpr.
  - intros q l Hq Hne (j & Hj & Hpr). exists j. rewrite (Ho q l j); [done|done|done|congruence].
Qed.

Lemma lively_next x y m m1 m2 T1 T2 :
  lively x m m1 T1 -> lively y m1 m2 T2 -> T2 ⊆ T1 -> T2 !! x = None -> lively y m m2 T2.
Proof.
  intros [Hk1 Hl1] [Hk2 Hl2] Hsub Hx. split.
  - intros p l i Hp Hi Hpr. pose proof (Hk2 p l i Hp Hi Hpr) as He. rewrite He.
    apply (Hk1 p l); [by eapply lookup_weaken|done|]. by rewrite <-He.
  - intros p l Hp Hne Hn. apply (Hl2 p l); [done..|]. apply (Hl1 p l); [by eapply lookup_weaken| |done].
    intros ->. congruence.
Qed.

(** What [remove_memory_page] does. *)
Record removed R js pa m T m' T' : Prop := {
  rm_unmapped : unmapped R js pa m T m' T';
  rm_keep : forall p l i, T' !! p = Some (S l) -> idx_ok i -> present (entry m' p i) = true ->
    entry m' p i = entry m p i;
  rm_live : forall p l, T' !! p = Some (S l) -> (l < 3)%nat -> nonempty m p -> nonempty m' p;
}.

Lemma removed_all R js pa m T m' T' x :
  unmapped R js pa m T m' T' -> lively x m m' T' -> nonempty m' x -> removed R js pa m T m' T'.
Proof.
  intros U [Hk Hl] Hx. split; [done|done|]. intros p l Hp _ Hn.
  destruct (decide (p = x)) as [->|]; [done|]. by apply (Hl p l).
Qed.

Lemma unmapped_table R js pa m T m1 T1 m2 a l :
  unmapped R js pa m T m1 T1 -> T1 !! a = Some (S l) -> (l < 3)%nat -> T !! R = Some 4%nat ->
  length js = 4%nat -> Forall idx_ok js ->
  (forall r ks, T1 !! r = Some 4%nat -> length ks = 4%nat -> Forall idx_ok ks ->
     trans m2 r ks = trans m1 r ks) ->
  unmapped R js pa m T m2 (delete a T1).
Proof.
  intros (Hsub & Hpa & Hpg & Hrt & Ht & Ho) Ha Hl HR Hlen Hjs Hsame. unfold unmapped. split_conj.
  - etrans; [apply delete_subseteq|done].
  - destruct (decide (pa = a)) as [->|]; [congruence|by rewrite lookup_delete_ne].
  - intros q Hq Hne. rewrite lookup_delete_ne; [auto|]. intros <-. rewrite (Hpg a Hq Hne) in Ha. done.
  - intros r Hr. rewrite lookup_delete_ne; [auto|]. intros <-. rewrite (Hrt a Hr) in Ha. injection Ha. lia.
  - rewrite Hsame; auto.
  - intros r ks Hr Hlk Hks Hne. rewrite Hsame; auto.
Qed.

(** A path that ends at the level of [p] or above does not go through [p]. *)
Lemma short_path m T r p l pre i suf :
  forest m T -> T !! p = Some (S l) -> T !! r = Some 4%nat -> Forall idx_ok (pre ++ i :: suf) ->
  (length (pre ++ i :: suf) + S l <= 4)%nat -> trans m r pre <> Some p.
Proof.
  intros F Hp Hr Hks Hlen Ht. apply Forall_app in Hks as [Hpre _]. rewrite length_app in Hlen. cbn in Hlen.
  assert (T !! p = Some (4 - length pre)%nat) as Hp'.
  { apply (trans_level X m T r _ pre); [done| |done|done]. rewrite Hr. f_equal. lia. }
  rewrite Hp in Hp'. injection Hp' as Hp'. lia.
Qed.

Section specs.
  Context {E : Type}.

(** The frame behind an entry is given back and the entry cleared. *)
Lemma drop_linked_spec p l i s m T (Q : unit -> Machine -> Prop) :
  pinv s m T -> T !! p = Some (S l) -> idx_ok i -> linked m p i = true ->
  (forall j, X (address (entry m p i)) j = false) -> address (entry m p i) ∉ o_pages O ->
  (forall s' m' m2, pinv s' m' (delete (address (entry m p i)) T) ->
     updates T p i 0 m m2 -> forest m2 T ->
     updates (delete (address (entry m p i)) T) p i 0 m m' ->
     (forall r k ks, delete (address (entry m p i)) T !! r = Some k -> (length ks <= k)%nat -> Forall idx_ok ks ->
        trans m' r ks = trans m2 r ks) -> Q tt s') ->
  wp (delloc_frame (E:=E) (address (entry m p i));; write_entry p i 0) s Q.
Proof.
  intros I Hp Hi Hl Hxa Hna HQ. set (a := address (entry m p i)) in *. pose proof I as (Ia & F & Hd & Hg).
  pose proof (f_down _ _ _ F p l i Hp Hi Hl) as Ha. fold a in Ha.
  assert (Hne : p <> a) by (intros Heq; rewrite <-Heq, Hp in Ha; injection Ha; lia).
  assert (Hoka : table_ok a) by (by eapply f_frame). assert (Hokp : table_ok p) by (by eapply f_frame).
  wp_step. eapply dealloc_spec; [exact Ia|by eapply pinv_used|]. intros s1 m1 I1 Hm1.
  eapply write_entry_spec; [exact I1| |done|].
  { apply elem_of_difference. split; [by eapply (pinv_used X lo K O)|]. by rewrite elem_of_singleton. }
  intros s2 I2. set (m2 := put m (p + i * 8) 0).
  assert (Hupd : updates T p i 0 m m2) by (by eapply (put_updates X lo K O)).
  pose proof (unlink_forest X m m2 T p i F Hl Hupd) as F2.
  pose proof (unlink_child X m m2 T p i l F Hp Hi Hl Hupd) as Hun. fold a in Hun.
  assert (Hag : agree (delete a T) m2 (put m1 (p + i * 8) 0)).
  { intros q k j [Hqa Hq]%lookup_delete_Some Hj. assert (Hokq : table_ok q) by (by eapply f_frame).
    destruct (decide ((q, j) = (p, i))) as [[= -> ->]|Hqp].
    - unfold m2. by rewrite !entry_put.
    - unfold m2. rewrite !entry_put_ne by done. apply (entry_frame m m1 a); done || congruence. }
  destruct (shrink_forest X m2 m2 T a F2 Hun Hxa ltac:(done)) as [F3 _].
  destruct (shrink_forest X m2 _ T a F2 Hun Hxa Hag) as [F4 _].
  assert (Hupd' : updates (delete a T) p i 0 m (put m1 (p + i * 8) 0)).
  { split; [by apply entry_put|]. intros q k j Hq Hj Hqp. rewrite (Hag q k j Hq Hj).
    apply lookup_delete_Some in Hq as [_ Hq]. destruct Hupd as [_ Ho]. by apply (Ho q k j). }
  apply (HQ s2 (put m1 (p + i * 8) 0) m2); [|done|done|done|].
  - assert (a ∉ o_frames O) by (apply Hd; by exists l). split; [|split; [done|]].
    + replace (dom (delete a T) ∪ o_frames O) with ((dom T ∪ o_frames O) ∖ {[a]}); [done|]. rewrite dom_delete_L. set_solver.
    + eapply separate_next; [exact I| | |].
      * intros b x Hb Hx. pose proof (guard_out _ _ _ _ _ _ _ _ _ a I Hb Hoka Hna Hx).
        pose proof (guard_out _ _ _ _ _ _ _ _ _ p I Hb Hokp (table_unprotected _ _ _ _ _ _ _ _ _ I Hp) Hx).
        unfold put, idx_ok in *. rewrite store_out by (rewrite length_to_le; lia). by apply Hm1.
      * intros b [k [Hneb Hb]%lookup_delete_Some]. apply Hd. by exists k.
      * intros b Hb HT. rewrite lookup_delete_ne; [done|congruence].
  - intros r k ks Hr Hlen Hks. by eapply (trans_agree X (delete a T)).
Qed.

Lemma all_empty_spec p l s m T (Q : bool -> Machine -> Prop) :
  pinv s m T -> T !! p = Some l ->
  (forall s', pinv s' m T -> empty m p -> Q true s') ->
  (forall s', pinv s' m T -> nonempty m p -> Q false s') ->
  wp (is_all_emptry (E:=E) p) s Q.
Proof.
  intros I Hp HT HF. unfold is_all_emptry.
  assert (Hgo : forall idx s, pinv s m T -> Forall idx_ok idx ->
    (forall i, idx_ok i -> i ∈ idx \/ present (entry m p i) = false) ->
    wp (all_empty_from (E:=E) p idx) s Q).
  { clear s I. intros idx. induction idx as [|i idx IH]; intros s I Hidx Hno; cbn [all_empty_from].
    - wp_step. apply HT; [done|]. intros i Hi. destruct (Hno i Hi) as [Hin|]; [|done].
      by apply elem_of_nil in Hin.
    - inversion Hidx; subst. wp_step. eapply (table_entry_spec X lo K O); [done..|]. intros s' I'.
      destruct (present (entry m p i)) eqn:Hp'; [wp_step; apply HF; [done|by exists i]|].
      apply IH; [done|done|]. intros j Hj. destruct (Hno j Hj) as [[->|?]%elem_of_cons|]; auto. }
  apply Hgo; [done| |].
  - apply Forall_forall. intros i Hi%elem_of_seqZ. unfold idx_ok. lia.
  - intros i Hi. left. apply elem_of_seqZ. unfold idx_ok in Hi. lia.
Qed.

(** An empty table goes: no page was reached through it. *)
Lemma drop_empty_spec p l i s m T (Q : unit -> Machine -> Prop) :
  pinv s m T -> T !! p = Some (S (S l)) -> idx_ok i -> linked m p i = true ->
  empty m (address (entry m p i)) ->
  (forall s' m', pinv s' m' (delete (address (entry m p i)) T) ->
     (forall r ks, T !! r = Some 4%nat -> length ks = 4%nat -> Forall idx_ok ks ->
        trans m' r ks = trans m r ks) ->
     (forall r ks, T !! r = Some 4%nat -> (length ks + S (S l) <= 4)%nat -> Forall idx_ok ks ->
        trans m' r ks = trans m r ks) ->
     lively p m m' (delete (address (entry m p i)) T) ->
     Q tt s') ->
  wp (delloc_frame (E:=E) (address (entry m p i));; write_entry p i 0) s Q.
Proof.
  intros I Hp Hi Hl He HQ. pose proof I as (Ia & F & Hd). set (a := address (entry m p i)) in *.
  pose proof (f_down _ _ _ F p _ i Hp Hi Hl) as Ha. fold a in Ha.
  assert (Hxa : forall j, X a j = false).
  { intros j. destruct (X a j) eqn:Hx; [|done]. exfalso.
    destruct (f_excl _ _ _ F a j Hx) as (Hj & _ & Hpr). by rewrite He in Hpr. }
  eapply drop_linked_spec; [done..|by eapply (table_unprotected X lo K O)|]. fold a. intros s' m' m2 I' Hupd F2 Hag Htr.
  assert (Hroot : forall r, T !! r = Some 4%nat -> delete a T !! r = Some 4%nat).
  { intros r Hr. rewrite lookup_delete_ne; [done|]. intros <-. rewrite Hr in Ha. injection Ha as <-.
    apply (f_level _ _ _ F) in Hp. lia. }
  apply (HQ s' m'); [done| | |by eapply updates_lively].
  - intros r ks Hr Hlen Hks. rewrite (Htr r 4%nat) by (done || lia || auto).
    destruct (through_dec X m r p i ks) as [(pre & suf & -> & Ht)|Hno].
    + apply Forall_app in Hks as [Hpre Hsuf]. rewrite length_app in Hlen. cbn in Hlen.
      assert (HTp : T !! p = Some (4 - length pre)%nat).
      { apply (trans_level X m T r _ pre); [done| |done|done]. rewrite Hr. f_equal. lia. }
      rewrite Hp in HTp. injection HTp as HTp.
      rewrite (unlink_through X m m2 T p i (S l)); try done; [|rewrite Hr; f_equal; lia].
      rewrite trans_app, Ht. cbn. rewrite Hl. fold a.
      destruct suf as [|k rest]; [cbn in Hlen; lia|]. inversion Hsuf as [|? ? _ Hsuf']; subst.
      inversion Hsuf'; subst. cbn. rewrite unlinked; [done|]. by apply He.
    + eapply (unlink_past X m m2 T p i); try done. lia.
  - intros r ks Hr Hlen Hks. rewrite (Htr r 4%nat) by (done || lia || auto).
    eapply (unlink_past X m m2 T p i F Hupd); [done|lia|done|]. intros pre suf -> Ht.
    eapply (short_path m T r p (S l)); done.
Qed.

(** The frame of a page goes. *)
Lemma drop_page_spec R pre p i s m T (Q : unit -> Machine -> Prop) :
  pinv s m T -> T !! R = Some 4%nat -> Forall idx_ok pre -> length pre = 3%nat -> trans m R pre = Some p ->
  idx_ok i -> linked m p i = true -> address (entry m p i) ∉ o_pages O ->
  (forall s' m', pinv s' m' (delete (address (entry m p i)) T) ->
     unmapped R (pre ++ [i]) (address (entry m p i)) m T m' (delete (address (entry m p i)) T) ->
     (forall r ks, T !! r = Some 4%nat -> (length ks <= 3)%nat -> Forall idx_ok ks ->
        trans m' r ks = trans m r ks) ->
     lively p m m' (delete (address (entry m p i)) T) ->
     Q tt s') ->
  wp (delloc_frame (E:=E) (address (entry m p i));; write_entry p i 0) s Q.
Proof.
  intros I HR Hpre Hlen Ht Hi Hl Hna HQ. pose proof I as (Ia & F & Hd). set (a := address (entry m p i)) in *.
  assert (Hp : T !! p = Some 1%nat).
  { apply (trans_level X m T R _ pre); [done|by rewrite HR, Hlen|done|done]. }
  pose proof (f_down _ _ _ F p _ i Hp Hi Hl) as Ha. fold a in Ha.
  eapply drop_linked_spec; [done..| |done|]; fold a.
  { intros j. destruct (X a j) eqn:Hx; [|done]. exfalso.
    destruct (f_excl _ _ _ F a j Hx) as (_ & [k Hk] & _). congruence. }
  intros s' m' m2 I' Hupd F2 Hag Htr.
  assert (Hroot : forall r, T !! r = Some 4%nat -> delete a T !! r = Some 4%nat).
  { intros r Hr. rewrite lookup_delete_ne; congruence. }
  apply (HQ s' m'); [done| | |by eapply updates_lively].
  - unfold unmapped. split_conj.
    + apply delete_subseteq.
    + apply lookup_delete_eq.
    + intros q Hq Hne. by rewrite lookup_delete_ne.
    + done.
    + rewrite (Htr R 4%nat); [|auto|rewrite length_app, Hlen; cbn; lia|].
      * rewrite (unlink_through X m m2 T p i 0%nat); try done. by rewrite HR, Hlen.
      * apply Forall_app_2; [done|by apply Forall_singleton].
    + intros r ks Hr Hlk Hks Hne. rewrite (Htr r 4%nat) by (done || lia || auto).
      eapply (unlink_past X m m2 T p i F Hupd); [done|lia|done|]. intros pre' suf -> Ht'. apply Hne.
      apply Forall_app in Hks as [Hpre' _]. rewrite length_app in Hlk. cbn in Hlk.
      destruct (trans_unique X m T R 1%nat r (S (length suf)) pre pre' p) as [<- <-]; try done.
      * by rewrite HR, Hlen.
      * rewrite Hr. f_equal. lia.
      * by eapply root_unref.
      * by eapply root_unref.
      * destruct suf; [done|cbn in Hlk; lia].
  - intros r ks Hr Hlk Hks. rewrite (Htr r 4%nat) by (done || lia || auto).
    eapply (unlink_past X m m2 T p i F Hupd); [done|lia|done|]. intros pre' suf -> Ht'.
    eapply (short_path m T r p 0%nat); try done. cbn. lia.
Qed.

(** The steps of a path. *)
Lemma trans_step m R pre i q p :
  trans m R pre = Some p -> trans m R (pre ++ [i]) = Some q ->
  linked m p i = true /\ address (entry m p i) = q.
Proof.
  intros Hp Hq. rewrite trans_app, Hp in Hq. cbn in Hq. destruct (linked m p i); [|done]. by injection Hq.
Qed.

Lemma linked_present m p i : linked m p i = true -> present (entry m p i) = true.
Proof. unfold linked. by intros [? _]%andb_prop. Qed.

(** [delloc_frame] and [write_entry], then the rest. *)
Lemma wp_pair {A B C} (m : M Machine E A) (k : M Machine E B) (f : B -> M Machine E C) s Q :
  wp (m;; k) s (fun b s' => wp (f b) s' Q) -> wp (m;; (k ≫= f)) s Q.
Proof.
  intros H. apply wp_bind_inv in H. apply wp_bind. eapply wp_mono; [exact H|].
  intros a s' H'. by apply wp_bind.
Qed.

Section remove.
  Context (R v : Z).
  Notation i4 := (pml4_index v).
  Notation i3 := (pdpt_index v).
  Notation i2 := (pd_index v).
  Notation i1 := (pt_index v).

(** Taking back tables, from the third level up. *)
Lemma reclaim_spec pa pt pd pdpt s m T m1 T1 :
  pinv s m1 T1 -> unmapped R (indices v) pa m T m1 T1 -> lively pt m m1 T1 -> T !! R = Some 4%nat ->
  trans m1 R [i4; i3; i2] = Some pt -> trans m1 R [i4; i3] = Some pd -> trans m1 R [i4] = Some pdpt ->
  wp (E:=E)
    (pt_empty ← is_all_emptry pt;
     if negb pt_empty then mret tt
     else
       frame ← unwrap_nonzero pt;
       delloc_frame frame;;
       write_entry pd i2 0;;
       pd_empty ← is_all_emptry pd;
       if negb pd_empty then mret tt
       else
         frame ← unwrap_nonzero pd;
         delloc_frame frame;;
         write_entry pdpt i3 0;;
         pdpt_empty ← is_all_emptry pdpt;
         if negb pdpt_empty then mret tt
         else
           frame ← unwrap_nonzero pdpt;
           delloc_frame frame;;
           write_entry R i4 0) s
    (fun _ s' => exists m' T', pinv s' m' T' /\ removed R (indices v) pa m T m' T').
Proof.
  intros I1 U1 L1 HR Hpt Hpd Hpdpt.
  assert (HR1 : T1 !! R = Some 4%nat) by (by apply U1).
  assert (Hix : Forall idx_ok [i4; i3; i2; i1]) by apply (indices_ok v).
  assert (Hix2 : Forall idx_ok [i4; i3]) by (repeat constructor; apply land_index).
  assert (Hix1 : Forall idx_ok [i4]) by (repeat constructor; apply land_index).
  assert (Hdone : forall s m2 T2 x, pinv s m2 T2 -> unmapped R (indices v) pa m T m2 T2 ->
    lively x m m2 T2 -> nonempty m2 x ->
    wp (E:=E) (mret tt) s (fun _ s' => exists m' T', pinv s' m' T' /\ removed R (indices v) pa m T m' T')).
  { intros s2 m2 T2 y I2 U2 L2 Hy. wp_step. exists m2, T2. split; [done|]. by eapply removed_all. }
  destruct (trans_step m1 R [i4; i3] i2 pt pd Hpd Hpt) as [Hl2 <-].
  assert (HTpd : T1 !! pd = Some 2%nat).
  { apply (trans_level X m1 T1 R _ [i4; i3]); [apply I1|done|done|done]. }
  pose proof (f_down _ _ _ (proj1 (proj2 I1)) pd 1%nat i2 HTpd (land_index _) Hl2) as HTpt.
  set (pt := address (entry m1 pd i2)) in *.
  pose proof (pinv_table _ _ _ _ _ _ _ _ _ I1 HTpt) as (Hpos & _).
  wp_step. eapply all_empty_spec; [done|done| |]; [|intros s2 I2 Hn; by eapply Hdone].
  intros s2 I2 He. cbn [negb]. wp_step. apply unwrap_spec; [done|]. apply wp_pair.
  eapply drop_empty_spec; [done|done|apply land_index|done|done|]. fold pt.
  intros s3 m3 I3 Hfull Hshort L3'.
  assert (L3 : lively pd m m3 (delete pt T1)).
  { eapply lively_next; [exact L1|done|apply delete_subseteq|apply lookup_delete_eq]. }
  assert (U3 : unmapped R (indices v) pa m T m3 (delete pt T1)) by (eapply unmapped_table; done || lia).
  assert (HR3 : delete pt T1 !! R = Some 4%nat) by (by apply U3).
  assert (Hpd3 : trans m3 R [i4; i3] = Some pd) by (rewrite Hshort; done || (cbn; lia)).
  assert (Hpdpt3 : trans m3 R [i4] = Some pdpt) by (rewrite Hshort; done || (cbn; lia)).
  destruct (trans_step m3 R [i4] i3 pd pdpt Hpdpt3 Hpd3) as [Hl3 Hpd'].
  assert (HTpdpt : delete pt T1 !! pdpt = Some 3%nat).
  { apply (trans_level X m3 _ R _ [i4]); [apply I3|done|done|done]. }
  pose proof (f_down _ _ _ (proj1 (proj2 I3)) pdpt 2%nat i3 HTpdpt (land_index _) Hl3) as HTpd3.
  rewrite Hpd' in HTpd3. pose proof (pinv_table _ _ _ _ _ _ _ _ _ I3 HTpd3) as (Hpos3 & _).
  wp_step. eapply all_empty_spec; [done|done| |]; [|intros s4 I4 Hn; by eapply Hdone].
  intros s4 I4 He4. cbn [negb]. wp_step. apply unwrap_spec; [done|]. apply wp_pair.
  rewrite <-Hpd' in He4 |- *. eapply drop_empty_spec; [done|done|apply land_index|done|done|].
  rewrite Hpd'. intros s5 m5 I5 Hfull5 Hshort5 L5'.
  assert (L5 : lively pdpt m m5 (delete pd (delete pt T1))).
  { eapply lively_next; [exact L3|done|apply delete_subseteq|apply lookup_delete_eq]. }
  assert (U5 : unmapped R (indices v) pa m T m5 (delete pd (delete pt T1))) by (eapply unmapped_table; done || lia).
  assert (HR5 : delete pd (delete pt T1) !! R = Some 4%nat) by (by apply U5).
  assert (Hpdpt5 : trans m5 R [i4] = Some pdpt) by (rewrite Hshort5; done || (cbn; lia)).
  destruct (trans_step m5 R [] i4 pdpt R eq_refl Hpdpt5) as [Hl4 Hpdpt'].
  pose proof (f_down _ _ _ (proj1 (proj2 I5)) R 3%nat i4 HR5 (land_index _) Hl4) as HTpdpt5.
  rewrite Hpdpt' in HTpdpt5. pose proof (pinv_table _ _ _ _ _ _ _ _ _ I5 HTpdpt5) as (Hpos5 & _).
  wp_step. eapply all_empty_spec; [done|done| |]; [|intros s6 I6 Hn; by eapply Hdone].
  intros s6 I6 He6. cbn [negb]. wp_step. apply unwrap_spec; [done|].
  rewrite <-Hpdpt' in He6 |- *. eapply drop_empty_spec; [done|done|apply land_index|done|done|].
  rewrite Hpdpt'. intros s7 m7 I7 Hfull7 _ L7'.
  assert (L7 : lively R m m7 (delete pdpt (delete pd (delete pt T1)))).
  { eapply lively_next; [exact L5|done|apply delete_subseteq|apply lookup_delete_eq]. }
  assert (U7 : unmapped R (indices v) pa m T m7 (delete pdpt (delete pd (delete pt T1))))
    by (eapply unmapped_table; done || lia).
  exists m7, (delete pdpt (delete pd (delete pt T1))). split; [done|]. split; [done|apply L7|].
  intros p l Hp Hl Hn. apply (proj2 L7 p l); [done| |done]. intros ->.
  assert (delete pdpt (delete pd (delete pt T1)) !! R = Some 4%nat) as HR7 by (by apply U7).
  rewrite Hp in HR7. injection HR7 as HR7. lia.
Qed.

Lemma remove_memory_page_spec pa s m T :
  pinv s m T -> T !! R = Some 4%nat -> v `mod` 0x1000 = 0 -> trans m R (indices v) = Some pa -> pa ∉ o_pages O ->
  wp (remove_memory_page (E:=E) R v) s
    (fun _ s' => exists m' T', pinv s' m' T' /\ removed R (indices v) pa m T m' T').
Proof.
  intros I HR Hv Ht Hna. pose proof I as (_ & F & _). pose proof (indices_ok v) as Hidx.
  pose proof (pinv_table _ _ _ _ _ _ _ _ _ I HR) as (_ & HRm & _).
  assert (Hix3 : Forall idx_ok [i4; i3; i2]) by (repeat constructor; apply land_index).
  change (indices v) with ([i4; i3; i2] ++ [i1]) in Ht.
  destruct (trans m R [i4; i3; i2]) as [pt|] eqn:Hpt; [|by rewrite trans_app, Hpt in Ht].
  pose proof Hpt as Hpt'. change [i4; i3; i2] with ([i4; i3] ++ [i2]) in Hpt'.
  destruct (trans m R [i4; i3]) as [pd|] eqn:Hpd; [|by rewrite trans_app, Hpd in Hpt'].
  pose proof Hpd as Hpd'. change [i4; i3] with ([i4] ++ [i3]) in Hpd'.
  destruct (trans m R [i4]) as [pdpt|] eqn:Hpdpt; [|by rewrite trans_app, Hpdpt in Hpd'].
  destruct (trans_step m R [] i4 pdpt R eq_refl Hpdpt) as [Hl4 E4].
  destruct (trans_step m R [i4] i3 pd pdpt Hpdpt Hpd') as [Hl3 E3].
  destruct (trans_step m R [i4; i3] i2 pt pd Hpd Hpt') as [Hl2 E2].
  destruct (trans_step m R [i4; i3; i2] i1 pa pt Hpt Ht) as [Hl1 E1].
  pose proof (f_down _ _ _ F R 3%nat i4 HR (land_index _) Hl4) as T3. rewrite E4 in T3.
  pose proof (f_down _ _ _ F pdpt 2%nat i3 T3 (land_index _) Hl3) as T2. rewrite E3 in T2.
  pose proof (f_down _ _ _ F pd 1%nat i2 T2 (land_index _) Hl2) as T1. rewrite E2 in T1.
  pose proof (f_down _ _ _ F pt 0%nat i1 T1 (land_index _) Hl1) as T0. rewrite E1 in T0.
  pose proof (pinv_table _ _ _ _ _ _ _ _ _ I T0) as (Hpos & _).
  unfold remove_memory_page. rewrite !land_low.
  wp_step. wp_step; [by apply Z.eqb_eq|]. wp_step. wp_step; [by apply Z.eqb_eq|].
  wp_step. eapply table_entry_spec; [done..|apply land_index|]. intros s1 I1.
  wp_step. wp_step; [by apply linked_present|]. rewrite E4.
  wp_step. eapply table_entry_spec; [done..|apply land_index|]. intros s2 I2.
  wp_step. wp_step; [by apply linked_present|]. rewrite E3.
  wp_step. eapply table_entry_spec; [done..|apply land_index|]. intros s3 I3.
  wp_step. wp_step; [by apply linked_present|]. rewrite E2.
  wp_step. eapply table_entry_spec; [done..|apply land_index|]. intros s4 I4.
  wp_step. wp_step; [by apply linked_present|].
  wp_step. apply unwrap_spec; [by rewrite E1|]. apply wp_pair.
  eapply drop_page_spec; [done|done|exact Hix3|done|done|apply land_index|done|by rewrite E1|]. rewrite E1.
  intros s5 m5 I5 U5 Hshort L5.
  eapply reclaim_spec; [done|done|done|done|..]; rewrite Hshort; done || (cbn; lia) || (repeat constructor; apply land_index).
Qed.

End remove.

End specs.

End unmap.
