(* ===== verification/PageAlloc.v ===== *)
(** * Allocating mapped pages

    The search for free addresses, [alloc_mapped_frame] and
    [free_mapped_frame] over the mapping of single pages. *)
From S2P Require Import Prelude Physics PhysicsSpec Page PageForest PageSpec PageUnmap.

(** ** Addresses and their paths *)

Lemma index_bits v k : 0 <= k -> Z.land (Z.shiftr v k) 0x1FF = (v / 2 ^ k) `mod` 512.
Proof. intros. rewrite Z.shiftr_div_pow2 by done. exact (Z.land_ones _ 9 ltac:(lia)). Qed.

(** A path is the number of the page within 48 bits of address. *)
Lemma indices_page v :
  pml4_index v * 2 ^ 27 + pdpt_index v * 2 ^ 18 + pd_index v * 2 ^ 9 + pt_index v = (v / 0x1000) `mod` 2 ^ 36.
Proof.
  unfold pml4_index, pdpt_index, pd_index, pt_index. rewrite !index_bits by lia.
  change (2 ^ 39) with (0x1000 * 2 ^ 27). change (2 ^ 30) with (0x1000 * 2 ^ 18).
  change (2 ^ 21) with (0x1000 * 2 ^ 9). change (2 ^ 12) with 0x1000.
  rewrite <-!Z.div_div by lia. generalize (v / 4096). intros n. lia.
Qed.

Lemma indices_inj v v' : indices v = indices v' -> (v / 0x1000) `mod` 2 ^ 36 = (v' / 0x1000) `mod` 2 ^ 36.
Proof. intros [= H1 H2 H3 H4]. rewrite <-!indices_page. congruence. Qed.

Lemma page_inj v i j :
  v `mod` 0x1000 = 0 -> 0 <= i < 2 ^ 36 -> 0 <= j < 2 ^ 36 ->
  indices (v + i * 0x1000) = indices (v + j * 0x1000) -> i = j.
Proof. intros Hv Hi Hj Heq. apply indices_inj in Heq. lia. Qed.

Section alloc.
  Context (X : Z -> Z -> bool) (lo : Z) (K : option Z) (O : others).
  Implicit Types (m : Z -> Z) (T : gmap Z nat) (js ks : list Z).
  Notation forest := (forest X).
  Notation trans := (trans X).
  Notation unref := (unref X).
  Notation linked := (linked X).
  Notation pinv := (pinv X lo K O).
  Notation clear_path := (clear_path X).

(** ** Translation *)

(** The physical address behind [v] in the address space [R]. *)
Definition phys m (R v : Z) : option Z := (fun p => p + v `mod` 0x1000) <$> trans m R (indices v).

Section translation.
  Context {E : Type}.

Lemma table_read_spec p l i s m T (Q : list Z -> Machine -> Prop) :
  pinv s m T -> T !! p = Some l -> idx_ok i ->
  (forall s' bs, pinv s' m T -> from_le bs = entry m p i -> Q bs s') ->
  wp (read_memory (E:=E) (p + i * 8) 8) s Q.
Proof.
  intros I Hp Hi HQ. pose proof (pinv_table _ _ _ _ _ _ _ _ _ I Hp) as (Hpos & Hm & Hb).
  unfold idx_ok in Hi. pose proof I as (Ia & F & Hd).
  apply read_memory_spec; [by eapply ainv_init|lia..|]. intros s' Hs. apply HQ.
  - split; [by eapply ainv_read|done].
  - destruct Ia as (_ & Hram & _). unfold entry. f_equal. by apply load_proper.
Qed.

Lemma mapped_physical_spec R v s m T (Q : option Z -> Machine -> Prop) :
  pinv s m T -> T !! R = Some 4%nat -> clear_path m R (indices v) ->
  (forall s', pinv s' m T -> Q (phys m R v) s') ->
  wp (get_page_table_mapped_physical (E:=E) R v) s Q.
Proof.
  intros I HR Hclear HQ. pose proof I as (_ & F & _). unfold get_page_table_mapped_physical.
  rewrite land_low. unfold phys in HQ. cbn [indices PageForest.trans] in HQ.
  pose proof (Hclear [] _ _ R eq_refl eq_refl) as X4.
  wp_step. eapply table_read_spec; [done|done|apply land_index|]. intros s1 bs I1 ->.
  destruct (present (entry m R (pml4_index v))) eqn:P4; cbn [negb];
    [|rewrite unlinked in HQ by done; wp_step; by apply HQ].
  assert (L4 : linked m R (pml4_index v) = true) by (unfold linked; by rewrite P4, X4). rewrite L4 in HQ.
  pose proof (f_down _ _ _ F _ _ (pml4_index v) HR (land_index _) L4) as T3.
  set (pdpt := address (entry m R (pml4_index v))) in *.
  assert (D3 : trans m R [pml4_index v] = Some pdpt) by (cbn; by rewrite L4).
  pose proof (Hclear [_] _ _ pdpt eq_refl D3) as X3.
  wp_step. eapply table_read_spec; [done|done|apply land_index|]. intros s2 bs2 I2 ->.
  destruct (present (entry m pdpt (pdpt_index v))) eqn:P3; cbn [negb];
    [|rewrite unlinked in HQ by done; wp_step; by apply HQ].
  assert (L3 : linked m pdpt (pdpt_index v) = true) by (unfold linked; by rewrite P3, X3). rewrite L3 in HQ.
  pose proof (f_down _ _ _ F _ _ (pdpt_index v) T3 (land_index _) L3) as T2.
  set (pd := address (entry m pdpt (pdpt_index v))) in *.
  assert (D2 : trans m R [pml4_index v; pdpt_index v] = Some pd) by (cbn; rewrite L4; fold pdpt; by rewrite L3).
  pose proof (Hclear [_; _] _ _ pd eq_refl D2) as X2.
  wp_step. eapply table_read_spec; [done|done|apply land_index|]. intros s3 bs3 I3 ->.
  destruct (present (entry m pd (pd_index v))) eqn:P2; cbn [negb];
    [|rewrite unlinked in HQ by done; wp_step; by apply HQ].
  assert (L2 : linked m pd (pd_index v) = true) by (unfold linked; by rewrite P2, X2). rewrite L2 in HQ.
  pose proof (f_down _ _ _ F _ _ (pd_index v) T2 (land_index _) L2) as T1.
  set (pt := address (entry m pd (pd_index v))) in *.
  assert (D1 : trans m R [pml4_index v; pdpt_index v; pd_index v] = Some pt).
  { cbn. rewrite L4. fold pdpt. rewrite L3. fold pd. by rewrite L2. }
  pose proof (Hclear [_; _; _] _ _ pt eq_refl D1) as X1.
  wp_step. eapply table_read_spec; [done|done|apply land_index|]. intros s4 bs4 I4 ->.
  destruct (present (entry m pt (pt_index v))) eqn:P1; cbn [negb];
    [|rewrite unlinked in HQ by done; wp_step; by apply HQ].
  assert (L1 : linked m pt (pt_index v) = true) by (unfold linked; by rewrite P1, X1). rewrite L1 in HQ.
  pose proof (f_down _ _ _ F _ _ (pt_index v) T1 (land_index _) L1) as T0.
  pose proof (pinv_table _ _ _ _ _ _ _ _ _ I T0) as (Hpos & _).
  wp_step. rewrite nonzero_Some by lia. by apply HQ.
Qed.

Lemma is_page_free_spec R v s m T (Q : bool -> Machine -> Prop) :
  pinv s m T -> T !! R = Some 4%nat -> clear_path m R (indices v) ->
  (forall s', pinv s' m T -> Q (bool_decide (trans m R (indices v) = None)) s') ->
  wp (is_page_free (E:=E) v R) s Q.
Proof.
  intros I HR Hclear HQ. unfold is_page_free. wp_step. eapply mapped_physical_spec; [done..|].
  intros s' I'. wp_step. unfold phys. specialize (HQ s' I').
  destruct (trans m R (indices v)); cbn; [by rewrite bool_decide_false in HQ|by rewrite bool_decide_true in HQ].
Qed.

(** ** The search *)

Definition free_run m R (v n : Z) : Prop :=
  forall k, 0 <= k < n -> trans m R (indices (v + k * 0x1000)) = None.

Section search.
  Context (R : Z) m T (first hi block : Z) (Q : option Z -> Machine -> Prop).
  Context (HR : T !! R = Some 4%nat) (Hfirst : 0 < first) (Hfm : first `mod` 0x1000 = 0)
    (Hhm : hi `mod` 0x1000 = 0) (Hhi : hi <= 2 ^ 64 - 0x1000) (Hblock : 0 < block < 2 ^ 52)
    (Hclear : forall v, first <= v < hi -> clear_path m R (indices v)).
  Context (HS : forall v s', pinv s' m T -> first <= v -> v + block * 0x1000 <= hi -> v `mod` 0x1000 = 0 ->
      free_run m R v block -> Q (Some v) s')
    (HN : forall s', pinv s' m T -> (forall v, first <= v -> v + block * 0x1000 <= hi -> v `mod` 0x1000 = 0 ->
      ~ free_run m R v block) -> Q None s').

Lemma find_free_loop_spec fuel start i remain s :
  pinv s m T -> first <= start -> start `mod` 0x1000 = 0 -> i = start + (block - remain) * 0x1000 ->
  0 < remain <= block -> i <= hi -> free_run m R start (block - remain) ->
  (forall v, first <= v < start -> v + block * 0x1000 <= hi -> v `mod` 0x1000 = 0 -> ~ free_run m R v block) ->
  hi - i <= (Z.of_nat fuel - 1) * 0x1000 ->
  wp (find_free_loop (E:=E) fuel hi R block start i remain) s Q.
Proof.
  revert start i remain s. induction fuel as [|fuel IH];
    intros start i remain s I Hst Hstm Hi Hrem Hile Hrun Hno Hfuel; [lia|]. cbn [find_free_loop].
  destruct (i <? hi) eqn:Hlt; bool_to_prop.
  - wp_step. apply unwrap_spec; [lia|]. wp_step. eapply is_page_free_spec; [done..|apply Hclear; lia|].
    intros s1 I1. wp_step. wp_step; [lia|]. case_bool_decide as Hfree.
    + wp_step. wp_step; [lia|].
      assert (Hrun' : free_run m R start (block - (remain - 1))).
      { intros k Hk. destruct (decide (k < block - remain)); [apply Hrun; lia|].
        replace (start + k * 4096) with i by lia. done. }
      destruct (remain - 1 =? 0) eqn:Hz; bool_to_prop.
      * wp_step. rewrite nonzero_Some by lia. apply HS; [done|lia|lia|done|].
        replace block with (block - (remain - 1)) at 1 by lia. done.
      * apply IH; [done|lia|done|lia|lia|lia|done|done|lia].
    + apply IH; [done|lia|lia|lia|lia|lia|intros k Hk; lia| |lia].
      intros v Hv Hvb Hvm Hfr. destruct (decide (v < start)); [by apply (Hno v); [lia|..]|].
      apply Hfree. replace i with (v + ((i - v) / 4096) * 4096) by lia. apply Hfr. lia.
  - wp_step. apply HN; [done|]. intros v Hv Hvb Hvm. destruct (decide (v < start)); [apply Hno; lia|lia].
Qed.

Lemma find_free_virtual_memory_spec fuel s :
  pinv s m T -> first <= hi -> hi - first <= (Z.of_nat fuel - 1) * 0x1000 ->
  wp (find_free_virtual_memory (E:=E) fuel first hi R block) s Q.
Proof.
  intros I Hle Hfuel. unfold find_free_virtual_memory.
  apply find_free_loop_spec; [done|lia|done|lia|lia|lia|intros k Hk; lia|intros; lia|lia].
Qed.

End search.

(** The search does not go past a run that is free. *)
Section known.
  Context (R : Z) m T (first hi block v0 : Z) (Q : option Z -> Machine -> Prop).
  Context (HR : T !! R = Some 4%nat) (Hfirst : 0 < first) (Hfm : first `mod` 0x1000 = 0)
    (Hv0 : first <= v0) (Hvm0 : v0 `mod` 0x1000 = 0) (Hhi : v0 + block * 0x1000 <= hi) (Hhi' : hi < 2 ^ 64) (Hblock : 0 < block < 2 ^ 52)
    (Hclear : forall v, first <= v < v0 + block * 0x1000 -> clear_path m R (indices v)) (Hrun0 : free_run m R v0 block).
  Context (HS : forall v s', pinv s' m T -> first <= v <= v0 -> v `mod` 0x1000 = 0 ->
      free_run m R v block -> Q (Some v) s').

Lemma find_free_known fuel start i remain s :
  pinv s m T -> first <= start <= v0 -> start `mod` 0x1000 = 0 -> i = start + (block - remain) * 0x1000 ->
  0 < remain <= block -> free_run m R start (block - remain) ->
  v0 + block * 0x1000 - i <= (Z.of_nat fuel - 1) * 0x1000 ->
  wp (find_free_loop (E:=E) fuel hi R block start i remain) s Q.
Proof.
  revert start i remain s. induction fuel as [|fuel IH];
    intros start i remain s I Hst Hstm Hi Hrem Hrun Hfuel; [lia|]. cbn [find_free_loop].
  rewrite (proj2 (Z.ltb_lt i hi)) by lia. wp_step. apply unwrap_spec; [lia|].
  wp_step. eapply is_page_free_spec; [done..|apply Hclear; lia|].
  intros s1 I1. wp_step. wp_step; [lia|]. case_bool_decide as Hfree.
  - wp_step. wp_step; [lia|].
    assert (Hrun' : free_run m R start (block - (remain - 1))).
    { intros k Hk. destruct (decide (k < block - remain)); [apply Hrun; lia|].
      replace (start + k * 4096) with i by lia. done. }
    destruct (remain - 1 =? 0) eqn:Hz; bool_to_prop.
    + wp_step. rewrite nonzero_Some by lia. apply HS; [done|lia|done|].
      replace block with (block - (remain - 1)) at 1 by lia. done.
    + apply IH; [done|lia|done|lia|lia|done|lia].
  - assert (i < v0).
    { destruct (decide (i < v0)); [done|]. exfalso. apply Hfree.
      replace i with (v0 + ((i - v0) / 4096) * 4096) by lia. apply Hrun0. lia. }
    apply IH; [done|lia|lia|lia|lia|intros k Hk; lia|lia].
Qed.

End known.

End translation.

(** ** Runs of pages *)

Section run.
  Context (R v : Z) (Hv : v `mod` 0x1000 = 0) m T (F0 : forest m T) (HR : T !! R = Some 4%nat).
  Notation P k := (indices (v + k * 0x1000)).

(** Some pages of a run are mapped: page [k] to frame [q] for [(k, q)] in
    [fr]. Apart from them nothing has changed: what is new below the tables
    is new as a whole. *)
Record partial (s : Machine) m1 T1 (fr : list (Z * Z)) : Prop := {
  pt_inv : pinv s m1 T1;
  pt_root : forall r, T1 !! r = Some 4%nat <-> T !! r = Some 4%nat;
  pt_page : forall q, T1 !! q = Some 0%nat <-> T !! q = Some 0%nat \/ q ∈ fr.*2;
  pt_fresh : forall q, q ∈ fr.*2 -> T !! q = None /\ q ∉ o_frames O /\ q ∉ o_pages O;
  pt_nodup : NoDup fr.*2;
  pt_map : forall k q, (k, q) ∈ fr -> trans m1 R (P k) = Some q /\ trans m R (P k) = None;
  pt_same : forall r ks, T !! r = Some 4%nat -> length ks = 4%nat -> Forall idx_ok ks ->
    (r = R -> forall k q, (k, q) ∈ fr -> ks <> P k) -> trans m1 r ks = trans m r ks;
  pt_link : forall p l i, T1 !! p = Some (S l) -> idx_ok i -> present (entry m1 p i) = true ->
    is_Some (T !! address (entry m1 p i)) -> T !! p = Some (S l) /\ entry m1 p i = entry m p i;
  pt_live : forall p l, T1 !! p = Some (S l) -> T !! p = None -> nonempty m1 p;
}.

Lemma partial_start s : pinv s m T -> partial s m T [].
Proof.
  intros I. split; try done.
  - intros q. split; [by left|]. intros [?|Hn]; [done|by apply elem_of_nil in Hn].
  - intros q Hn. by apply elem_of_nil in Hn.
  - apply NoDup_nil_2.
  - intros k q Hn. by apply elem_of_nil in Hn.
  - congruence.
Qed.

Lemma partial_agree s m1 T1 fr s' m2 :
  partial s m1 T1 fr -> pinv s' m2 T1 -> agree T1 m1 m2 -> partial s' m2 T1 fr.
Proof.
  intros [I Hr Hp Hf Hn Hm Hs Hl Hlv] I2 Ha. pose proof I as (_ & F & _).
  assert (Ht : forall r ks, T1 !! r = Some 4%nat -> length ks = 4%nat -> Forall idx_ok ks ->
    trans m2 r ks = trans m1 r ks).
  { intros r ks Hr1 Hlen Hks. apply (trans_agree X T1 m1 m2 r ks 4%nat); try done. lia. }
  split; try done.
  - intros k q Hin. rewrite Ht; [auto|by apply Hr|done|apply indices_ok].
  - intros r ks Hr1 Hlen Hks Hne. rewrite Ht; [auto|by apply Hr|done|done].
  - intros p l i Hpl Hi Hpr. rewrite (Ha p l i) in * by done. auto.
  - intros p l Hpl HT. destruct (Hlv p l Hpl HT) as (i & Hi & Hpr). exists i. by rewrite (Ha p l i).
Qed.

(** A path to a frame that was there before is a path from before. *)
Lemma partial_old_path r s m1 T1 fr pre p :
  partial s m1 T1 fr -> T !! r = Some 4%nat -> Forall idx_ok pre -> (length pre <= 4)%nat -> is_Some (T !! p) ->
  trans m1 r pre = Some p -> trans m r pre = Some p.
Proof.
  intros Hpt Hr0. pose proof (pt_inv _ _ _ _ Hpt) as (_ & F & _). revert p.
  induction pre as [|i pre IH] using rev_ind; intros p Hpre Hlen Hp Ht; [done|].
  apply Forall_app in Hpre as [Hpre Hi]. rewrite length_app in Hlen. cbn in Hlen.
  rewrite Forall_singleton in Hi. rewrite trans_app in Ht |- *.
  destruct (trans m1 r pre) as [q|] eqn:Hq; [|done]. cbn in Ht.
  destruct (linked m1 q i) eqn:Hl; [|done]. injection Ht as <-.
  assert (HTq : T1 !! q = Some (S (3 - length pre))%nat).
  { apply (trans_level X m1 T1 r _ pre); try done.
    rewrite (proj2 (pt_root _ _ _ _ Hpt r)) by done. f_equal. lia. }
  destruct (pt_link _ _ _ _ Hpt q _ i HTq Hi (linked_present _ _ _ _ Hl) Hp) as [HTq0 He].
  rewrite (IH q); [|done|lia|by eexists|done]. cbn.
  by rewrite <-(linked_agree X m m1 q i He), Hl, He.
Qed.

Lemma partial_clear r s m1 T1 fr js :
  partial s m1 T1 fr -> T !! r = Some 4%nat -> Forall idx_ok js -> (length js <= 4)%nat ->
  clear_path m r js -> clear_path m1 r js.
Proof.
  intros Hpt Hr0 Hjs Hlen Hc pre i suf p -> Ht. apply Forall_app in Hjs as [Hpre _]. rewrite length_app in Hlen.
  destruct (T !! p) as [l|] eqn:Hp.
  - apply (Hc pre i suf p eq_refl). eapply partial_old_path; [done|done|done|lia|by eexists|done].
  - destruct (X p i) eqn:Hx; [|done]. destruct (f_excl _ _ _ F0 p i Hx) as (_ & [k Hk] & _). congruence.
Qed.

(** One more page. *)
Lemma map_step w x u k s0 s m1 T1 fr pa :
  partial s0 m1 T1 fr -> T ⊆ T1 -> pinv s m1 (<[pa := 0%nat]> T1) -> T1 !! pa = None -> pa ∉ o_frames O ->
  unref m1 (<[pa := 0%nat]> T1) pa -> clear_path m R (P k) -> trans m R (P k) = None ->
  (forall k' q, (k', q) ∈ fr -> P k <> P k') ->
  wpe (write_memory_page (v + k * 0x1000) pa R w x u) s
    (fun _ s' => exists m' T', partial s' m' T' (fr ++ [(k, pa)]) /\ T ⊆ T')
    (fun _ s' => exists m2, pinv s' m2 (<[pa := 0%nat]> T1) /\ agree (<[pa := 0%nat]> T1) m1 m2).
Proof.
  intros Hpt Hsub I Hpa HO Hu Hc Hfree Hne. set (T2 := <[pa := 0%nat]> T1) in *.
  pose proof Hpt as [I0 Hr Hp Hf Hn Hm Hs Hl Hlv]. pose proof I as (_ & F & _).
  pose proof (new_unprotected _ _ _ _ _ _ _ _ I0 Hpa HO) as Hna.
  assert (HTpa : T !! pa = None) by (by eapply lookup_weaken_None).
  assert (Hother : forall p l, T2 !! p = Some l -> l <> 0%nat -> T1 !! p = Some l).
  { intros p l Hpl Hl0. subst T2. destruct (decide (p = pa)) as [->|].
    - rewrite lookup_insert_eq in Hpl. congruence.
    - by rewrite lookup_insert_ne in Hpl. }
  assert (Hold : forall p l, T1 !! p = Some l -> T2 !! p = Some l).
  { intros p l Hpl. subst T2. rewrite lookup_insert_ne; congruence. }
  assert (HR2 : T2 !! R = Some 4%nat) by (by apply Hold, Hr).
  eapply wpe_mono; [apply (write_memory_page_spec X lo K O (v + k * 4096) pa R w x u m1 T2 F HR2)| |].
  - apply lookup_insert_eq.
  - done.
  - eapply partial_clear; [done|done|apply indices_ok|done|done].
  - rewrite Hs; [done|done|done|apply indices_ok|]. intros _. apply Hne.
  - done.
  - intros _ s' (m' & T' & I' & M & _). exists m', T'.
    assert (HTT' : T ⊆ T').
    { etrans; [done|]. etrans; [by apply insert_subseteq|apply M]. }
    split; [|done]. destruct M as [Msub Mpg Mrt Mnew Msame Mkeep Mchild Mlive]. split; [done|..].
    + intros r. split; [intros H%Mrt; by apply Hr, (Hother r 4%nat H)|].
      intros H%Hr. by eapply lookup_weaken, Msub; apply Hold.
    + intros q. rewrite fmap_app, elem_of_app. cbn. rewrite list_elem_of_singleton. split.
      * intros Hq%Mpg. destruct (decide (q = pa)) as [->|Hqa]; [by right; right|].
        subst T2. rewrite lookup_insert_ne in Hq by done. apply Hp in Hq as [?|?]; auto.
      * intros [Hq|[Hq| ->]]; (eapply lookup_weaken; [|exact Msub]).
        -- apply Hold, Hp. by left.
        -- apply Hold, Hp. by right.
        -- apply lookup_insert_eq.
    + intros q. rewrite fmap_app, elem_of_app. cbn. rewrite list_elem_of_singleton.
      intros [Hq| ->]; [auto|done].
    + rewrite fmap_app. apply NoDup_app. split_conj; [done| |apply NoDup_singleton].
      cbn. intros q Hq ->%list_elem_of_singleton. assert (T1 !! pa = Some 0%nat) as Hq1 by (apply Hp; by right). congruence.
    + intros k' q [Hin|[= -> ->]%list_elem_of_singleton]%elem_of_app.
      * destruct (Hm k' q Hin) as [Hm1 Hm2]. split; [|done]. rewrite Msame; try done; [apply indices_ok|].
        intros Heq. apply (Hne k' q Hin). congruence.
      * done.
    + intros r ks Hr0 Hlen Hks Hno. rewrite Msame; [|by apply Hold, Hr|done|done|].
      * apply Hs; try done. intros -> k' q Hin. apply (Hno eq_refl k' q). apply elem_of_app. by left.
      * intros [= -> ->]. apply (Hno eq_refl k pa); [|done]. apply elem_of_app. right. by apply list_elem_of_singleton.
    + intros p l i Hpl Hi Hpr Hold'. destruct (Mchild p l i Hpl Hi Hpr) as [[Hp1 He]|[He|He]].
      * rewrite He in *. apply (Hl p l i); [by apply Hother|done..].
      * rewrite He, HTpa in Hold'. by destruct Hold'.
      * destruct Hold' as [l' Hl']. assert (T2 !! address (entry m' p i) = Some l') as H2.
        { apply Hold. by eapply lookup_weaken. }
        congruence.
    + intros p l Hpl HTp. destruct (T1 !! p) as [l1|] eqn:Hp1.
      * assert (T' !! p = Some l1) as Hp2 by (eapply lookup_weaken, Msub; by apply Hold). simplify_eq.
        destruct (Hlv p l Hp1 HTp) as (i & Hi & Hpr). exists i. split; [done|].
        rewrite (Mkeep p l i); [done|by apply Hold|done|done].
      * apply (Mlive p l Hpl). subst T2. rewrite lookup_insert_ne; [done|]. intros <-.
        assert (T' !! pa = Some 0%nat) by (eapply lookup_weaken; [apply lookup_insert_eq|exact Msub]). congruence.
  - intros _ s' (m2 & I2 & Ha). by exists m2.
Qed.

(** One page less. *)
Lemma unmap_step {E} k q s m1 T1 fr :
  partial s m1 T1 ((k, q) :: fr) ->
  wp (remove_memory_page (E:=E) R (v + k * 0x1000)) s
    (fun _ s' => exists m' T', partial s' m' T' fr /\ T' ⊆ T1).
Proof.
  intros Hpt. pose proof Hpt as [I Hr Hp Hf Hn Hm Hs Hl Hlv].
  destruct (Hm k q ltac:(apply list_elem_of_here)) as [Ht Hfree].
  destruct (Hf q) as (HTq & _ & Hna); [apply list_elem_of_here|].
  cbn [fmap list_fmap] in Hn. apply NoDup_cons in Hn as [Hq Hn].
  assert (Hne : forall k' q', (k', q') ∈ fr -> P k' <> P k).
  { intros k' q' Hin Heq. destruct (Hm k' q') as [Ht' _]; [by apply list_elem_of_further|].
    rewrite Heq, Ht in Ht'. injection Ht' as <-. apply Hq. apply list_elem_of_fmap_2 with (f := snd) in Hin. done. }
  eapply wp_mono; [apply (remove_memory_page_spec X lo K O R (v + k * 4096) q s m1 T1 I)|].
  - by apply Hr.
  - lia.
  - done.
  - done.
  - intros _ s' (m' & T' & I' & [(Usub & Upa & Upg & Urt & Unone & Usame) Ukeep Ulive]).
    exists m', T'. split; [|done]. split; [done|..].
    + intros r. split; [intros H; apply Hr; by eapply lookup_weaken|]. intros H. by apply Urt, Hr.
    + intros x. split.
      * intros Hx. assert (T1 !! x = Some 0%nat) as Hx1 by (by eapply lookup_weaken).
        apply Hp in Hx1 as [?|[->|Hin]%elem_of_cons]; [by left|cbn in Hx; congruence|by right].
      * intros Hx. apply Upg.
        -- apply Hp. destruct Hx as [?|?]; [by left|right; by apply list_elem_of_further].
        -- intros ->. destruct Hx as [?|?]; [congruence|done].
    + intros x Hx. apply Hf. by apply list_elem_of_further.
    + done.
    + intros k' q' Hin. destruct (Hm k' q') as [Ht' Hfr']; [by apply list_elem_of_further|]. split; [|done].
      rewrite Usame; [done|by apply Hr|done|apply indices_ok|]. intros Heq. apply (Hne k' q' Hin). congruence.
    + intros r ks Hr0 Hlen Hks Hno. destruct (decide ((r, ks) = (R, P k))) as [[= -> ->]|Hrk].
      * by rewrite Unone, Hfree.
      * rewrite Usame; [|by apply Hr|done|done|done]. apply Hs; [done..|].
        intros -> k' q' [[= -> ->]|Hin]%elem_of_cons; [congruence|by eapply Hno].
    + intros p l i Hpl Hi Hpr. pose proof (Ukeep p l i Hpl Hi Hpr) as He. rewrite He in Hpr |- *.
      apply (Hl p l i); [|done..]. by eapply lookup_weaken.
    + intros p l Hpl HTp. assert (T1 !! p = Some (S l)) as Hp1 by (by eapply lookup_weaken).
      apply (Ulive p l Hpl).
      * destruct (decide (l < 3)%nat); [done|]. exfalso. pose proof I as (_ & F & _).
        pose proof (f_level _ _ _ F p _ Hp1). assert (l = 3%nat) as -> by lia. apply Hr in Hp1. congruence.
      * by eapply Hlv.
Qed.

(** All pages of the run are gone again. *)
Lemma partial_end s m' T' Tmax :
  partial s m' T' [] -> T ⊆ Tmax -> T' ⊆ Tmax -> T' ⊆ T.
Proof.
  intros [I Hr Hp Hf Hn Hm Hs Hl Hlv] Hsub Hsub'. pose proof I as (_ & F & _).
  assert (Hno : forall l p, T' !! p = Some l -> is_Some (T !! p)).
  { intros l. induction l as [|l IH]; intros p Hpl.
    - apply Hp in Hpl as [?|Hn']; [by eexists|by apply elem_of_nil in Hn'].
    - destruct (T !! p) eqn:HTp; [by eexists|]. exfalso.
      destruct (Hlv p l Hpl HTp) as (i & Hi & Hpr).
      assert (Hx : X p i = false).
      { destruct (X p i) eqn:Hx; [|done]. destruct (f_excl _ _ _ F0 p i Hx) as (_ & [k Hk] & _). congruence. }
      assert (Hli : linked m' p i = true) by (unfold linked; by rewrite Hpr, Hx).
      destruct (IH _ (f_down _ _ _ F p l i Hpl Hi Hli)) as [k Hk].
      destruct (Hl p l i Hpl Hi Hpr) as [? _]; [by eexists|congruence]. }
  apply map_subseteq_spec. intros p l Hpl. destruct (Hno l p Hpl) as [l' Hl'].
  assert (Tmax !! p = Some l) by (by eapply lookup_weaken).
  assert (Tmax !! p = Some l') by (by eapply lookup_weaken). congruence.
Qed.

Lemma unmap_all {E} fr s m1 T1 :
  partial s m1 T1 fr ->
  wp (for_each (E:=E) fr.*1 (fun i _ => remove_memory_page R (v + i * 0x1000)) tt) s
    (fun _ s' => exists m' T', partial s' m' T' [] /\ T' ⊆ T1).
Proof.
  revert s m1 T1. induction fr as [|[k q] fr IH]; intros s m1 T1 Hpt; cbn [fmap list_fmap for_each].
  - wp_step. by exists m1, T1.
  - wp_step. eapply wp_mono; [by eapply (unmap_step k q)|]. intros [] s' (m' & T' & Hpt' & Hsub).
    eapply wp_mono; [by eapply IH|]. intros _ s'' (m2 & T2 & Hpt2 & Hsub2).
    exists m2, T2. split; [done|]. by etrans.
Qed.

(** A failed allocation leaves nothing behind. *)
Lemma rollback {E} k fr s m1 T1 :
  partial s m1 T1 fr -> T ⊆ T1 -> fr.*1 = seqZ 0 k -> 0 <= k ->
  wp (free_mapped_frame (E:=E) R v (k * 0x1000)) s
    (fun _ s' => exists m' T', partial s' m' T' [] /\ T' ⊆ T).
Proof.
  intros Hpt Hsub Hk Hk0. unfold free_mapped_frame. rewrite Z.div_mul by done. rewrite <-Hk.
  eapply wp_mono; [by eapply unmap_all|]. intros _ s' (m' & T' & Hpt' & Hsub').
  exists m', T'. split; [done|]. by eapply partial_end.
Qed.

Lemma alloc_page_spec {E} s m1 T1 (Q : option Z -> Machine -> Prop) :
  pinv s m1 T1 ->
  (forall a s', T1 !! a = None -> a ∉ o_frames O -> pinv s' m1 (<[a := 0%nat]> T1) ->
     unref m1 (<[a := 0%nat]> T1) a -> Q (Some a) s') ->
  (forall s', pinv s' m1 T1 -> Q None s') -> wp (alloc_frame (E:=E)) s Q.
Proof.
  intros I HS HN. pose proof I as (Ia & F & Hd & _). eapply alloc_spec; [done| |].
  - intros a s' Ha Hok I'. assert (HTa : T1 !! a = None) by (apply not_elem_of_dom; set_solver).
    destruct (grow_forest X m1 m1 T1 a 0 F HTa Hok ltac:(lia) ltac:(done)) as (F' & Hu & _); [done|].
    apply HS; [done|set_solver| |done]. split; [by rewrite dom_insert_used|split; [done|]].
    eapply separate_next; [exact I|done| |].
    + intros b Hb. destruct (decide (b = a)) as [->|]; [set_solver|].
      rewrite lookup_insert_ne in Hb by done. auto.
    + intros b _ Hb. rewrite lookup_insert_ne; [done|congruence].
  - intros s' I'. apply HN. split; [done|apply I].
Qed.

Lemma map_frames_spec o n k fr s m1 T1 :
  partial s m1 T1 fr -> T ⊆ T1 -> fr.*1 = seqZ 0 k -> 0 <= k ->
  (forall j, 0 <= j < k + Z.of_nat n -> clear_path m R (P j) /\ trans m R (P j) = None) ->
  (forall i j, 0 <= i < k + Z.of_nat n -> 0 <= j < k + Z.of_nat n -> P i = P j -> i = j) ->
  wpe (map_frames R v o (seqZ k (Z.of_nat n))) s
    (fun _ s' => exists m' T' fr', partial s' m' T' fr' /\ T ⊆ T' /\ fr'.*1 = seqZ 0 (k + Z.of_nat n))
    (fun e s' => e = OutOfPhysicalMemory /\ exists m' T', partial s' m' T' [] /\ T' ⊆ T).
Proof.
  revert k fr s m1 T1. induction n as [|n IH]; intros k fr s m1 T1 Hpt Hsub Hk Hk0 Hpages Hinj.
  { rewrite Z.add_0_r. cbn. apply wpe_ret. by exists m1, T1, fr. }
  rewrite seqZ_cons by lia. replace (Z.pred (Z.of_nat (S n))) with (Z.of_nat n) by lia. cbn [map_frames].
  apply wpe_bind. eapply alloc_page_spec; [apply Hpt| |].
  - intros pa s1 Hpa HO I1 Hu. apply wpe_bind. apply wpe_attempt, wpe_map_err.
    destruct (Hpages k ltac:(lia)) as [Hc Hfree].
    eapply wpe_mono; [eapply (map_step _ _ _ k s s1 m1 T1 fr pa); try done| |].
    + intros k' q Hin Heq. apply list_elem_of_fmap_2 with (f := fst) in Hin. cbn in Hin. rewrite Hk in Hin.
      apply elem_of_seqZ in Hin. apply Hinj in Heq; lia.
    + intros _ s2 (m2 & T2 & Hpt2 & Hsub2). replace (Z.succ k) with (k + 1) by lia.
      replace (k + Z.of_nat (S n)) with (k + 1 + Z.of_nat n) by lia.
      apply (IH (k + 1) (fr ++ [(k, pa)]) s2 m2 T2 Hpt2 Hsub2); [|lia|..].
      * rewrite fmap_app, Hk. cbn. rewrite seqZ_app by lia. done.
      * intros j Hj. apply Hpages. lia.
      * intros i j Hi Hj. apply Hinj; lia.
    + intros _ s2 (m2 & I2 & Hag). apply wpe_bind.
      eapply (drop_frame_spec X lo K O pa 0%nat); [done|apply lookup_insert_eq|by eapply (new_unprotected X lo K O); [apply Hpt|..]|by eapply agree_unref| |].
      { intros i. destruct (X pa i) eqn:Hx; [|done]. pose proof I2 as (_ & F2 & _).
        destruct (f_excl _ _ _ F2 pa i Hx) as (_ & [l Hl] & _). by rewrite lookup_insert_eq in Hl. }
      rewrite delete_insert_id by done. intros s3 m3 I3 Hag3 _. apply wpe_bind.
      assert (agree T1 m1 m3) as Hag'.
      { eapply agree_trans; [|done]. eapply agree_sub; [|done]. by apply insert_subseteq. }
      eapply wp_mono; [eapply (rollback k fr s3 m3 T1); try done; by eapply partial_agree|].
      intros ? s4 Hend. by apply wpe_throw.
  - intros s1 I1. apply wpe_bind.
    eapply wp_mono; [eapply (rollback k fr s1 m1 T1); try done; by eapply partial_agree|].
    intros ? s4 Hend. by apply wpe_throw.
Qed.

End run.

End alloc.

(** ** The allocator of mapped pages *)

(** The addresses searched for an allocation without a fixed place. *)
Definition search_start (o : AllocateFrameOptions) : Z :=
  if opt_user o then USER_SEARCH_START else KERNEL_SEARCH_START.
Definition search_end (o : AllocateFrameOptions) : Z :=
  if opt_user o then USER_SEARCH_END else KERNEL_SEARCH_END.

(** Every address of address space [r] that is not in the pages
    [v .. v + n * 4096] of [R] translates as before. *)
Definition same_elsewhere X (T : gmap Z nat) (R v n : Z) m m' : Prop :=
  forall r a, T !! r = Some 4%nat ->
    (r = R -> forall k, 0 <= k < n -> indices a <> indices (v + k * 0x1000)) ->
    phys X m' r a = phys X m r a.

Section theorems.
  Context (X : Z -> Z -> bool) (lo : Z) (K : option Z) (O : others).

Lemma search_bounds o :
  0 < search_start o /\ search_start o `mod` 0x1000 = 0 /\ search_end o `mod` 0x1000 = 0 /\
  search_end o <= 2 ^ 64 - 0x1000 /\ search_start o <= search_end o.
Proof. unfold search_start, search_end. destruct (opt_user o); vm_compute; intuition congruence. Qed.

Lemma find_spec {E} fuel R n o s m T (Q : option Z -> Machine -> Prop) :
  pinv X lo K O s m T -> T !! R = Some 4%nat -> 0 < n < 2 ^ 52 -> (opt_user o = false -> K = Some R) ->
  (forall v, search_start o <= v < search_end o -> clear_path X m R (indices v)) ->
  search_end o - search_start o <= (Z.of_nat fuel - 1) * 0x1000 ->
  (forall v s', pinv X lo K O s' m T -> search_start o <= v -> v + n * 0x1000 <= search_end o ->
     v `mod` 0x1000 = 0 -> free_run X m R v n -> Q (Some v) s') ->
  (forall s', pinv X lo K O s' m T -> (forall v, search_start o <= v -> v + n * 0x1000 <= search_end o ->
     v `mod` 0x1000 = 0 -> ~ free_run X m R v n) -> Q None s') ->
  wp (E:=E) (if opt_user o then find_user_free_virtual_memory fuel n R
             else find_kernel_free_virtual_memory fuel n) s Q.
Proof.
  intros I HR Hn HK Hclear Hfuel HS HN. destruct (search_bounds o) as (H1 & H2 & H3 & H4 & H5).
  assert (Hfind : forall s', pinv X lo K O s' m T ->
    wp (find_free_virtual_memory (E:=E) fuel (search_start o) (search_end o) R n) s' Q).
  { intros s' I'. by eapply (find_free_virtual_memory_spec X lo K O). }
  unfold search_start, search_end in *.
  destruct (opt_user o); [by apply Hfind|].
  unfold find_kernel_free_virtual_memory, kernel_pml4. wp_step. wp_step. wp_step.
  replace (PML4 s) with (Some R); [wp_step; by apply Hfind|].
  rewrite <-HK by done. symmetry. apply I.
Qed.

(** Paths that met no entry outside the discipline still meet none. *)
Definition clear_kept (T : gmap Z nat) m m' : Prop :=
  forall r js, T !! r = Some 4%nat -> Forall idx_ok js -> (length js <= 4)%nat ->
    clear_path X m r js -> clear_path X m' r js.

(** The [n] pages from [v] on are mapped to fresh frames, and when memory runs
    out everything is given back. *)
Definition run_mapped R v n m T (s' : Machine) : Prop :=
  exists m' T' frames, pinv X lo K O s' m' T' /\ T ⊆ T' /\
    Z.of_nat (length frames) = n /\ NoDup frames /\
    (forall q, q ∈ frames -> q ∉ dom T ∪ o_frames O) /\
    (forall k q, frames !! k = Some q ->
       phys X m R (v + Z.of_nat k * 0x1000) = None /\ phys X m' R (v + Z.of_nat k * 0x1000) = Some q) /\
    same_elsewhere X T R v n m m' /\ clear_kept T m m'.

Definition run_given_back R m T (s' : Machine) : Prop :=
  exists m' T', pinv X lo K O s' m' T' /\ T' ⊆ T /\ (forall r, T !! r = Some 4%nat -> T' !! r = Some 4%nat) /\
    same_elsewhere X T R 0 0 m m' /\ clear_kept T m m'.

Lemma map_run_spec R v n o s m T :
  pinv X lo K O s m T -> T !! R = Some 4%nat -> v `mod` 0x1000 = 0 -> 0 <= n <= 2 ^ 36 ->
  (forall j, 0 <= j < n -> clear_path X m R (indices (v + j * 0x1000))) -> free_run X m R v n ->
  wpe (map_frames R v o (seqZ 0 n)) s (fun _ => run_mapped R v n m T)
    (fun e s' => e = OutOfPhysicalMemory /\ run_given_back R m T s').
Proof.
  intros I HR Hvm Hn Hclear Hrun. pose proof I as (_ & F & _).
  replace (seqZ 0 n) with (seqZ 0 (Z.of_nat (Z.to_nat n))) by (f_equal; lia).
  eapply wpe_mono; [apply (map_frames_spec X lo K O R v Hvm m T F HR o (Z.to_nat n) 0 [] s m T)| |].
  - by apply partial_start.
  - done.
  - done.
  - done.
  - intros j Hj. split; [apply Hclear; lia|apply Hrun; lia].
  - intros i j Hi Hj. apply page_inj; [done|lia..].
  - intros _ s2 (m' & T' & fr & Hpt & Hsub & Hfst). pose proof Hpt as [I' Hr Hp Hf Hnd Hm Hs _ _].
    exists m', T', fr.*2.
    assert (Hlen : length fr = Z.to_nat n).
    { apply (f_equal length) in Hfst. rewrite length_fmap, length_seqZ in Hfst. lia. }
    split_conj; [done|done|rewrite length_fmap; lia|done| | | |].
    + intros q Hq. destruct (Hf q Hq) as (HTq & HO & _). apply not_elem_of_union.
      split; [by apply not_elem_of_dom|done].
    + intros k q Hk. rewrite list_lookup_fmap in Hk. destruct (fr !! k) as [[k' q']|] eqn:Hfr; [|done].
      cbn in Hk. injection Hk as ->.
      assert (k' = Z.of_nat k) as ->.
      { assert (fr.*1 !! k = Some k') as Hk' by (by rewrite list_lookup_fmap, Hfr).
        rewrite Hfst in Hk'. apply lookup_seqZ in Hk'. lia. }
      destruct (Hm (Z.of_nat k) q) as [Ht Hfree]; [by eapply list_elem_of_lookup_2|].
      unfold phys. rewrite Ht, Hfree. cbn. split; [done|]. f_equal. lia.
    + intros r a Hr0 Hne. unfold phys. rewrite Hs; [done|done|done|apply indices_ok|].
      intros -> k q Hin. apply Hne; [done|]. apply list_elem_of_fmap_2 with (f := fst) in Hin. cbn in Hin.
      rewrite Hfst in Hin. apply elem_of_seqZ in Hin. lia.
    + intros r js Hr0 Hjs Hl. by eapply (partial_clear X lo K O R v m T F).
  - intros e s2 (-> & m' & T' & Hpt & Hsub). split; [done|]. exists m', T'.
    pose proof Hpt as [I' Hr _ _ _ _ Hs _ _]. split_conj; [done|done|intros r; apply Hr| |].
    + intros r a Hr0 _. unfold phys. rewrite Hs; [done|done|done|apply indices_ok|].
      intros _ k q Hn'. by apply elem_of_nil in Hn'.
    + intros r js Hr0 Hjs Hl. by eapply (partial_clear X lo K O R v m T F).
Qed.

(** What [alloc_mapped_frame] has done when it returns [v], and when it
    fails with [e]. *)
Definition allocated R size o m T (v : Z) (s' : Machine) : Prop :=
  search_start o <= v /\ v + size <= search_end o /\ v `mod` 0x1000 = 0 /\ run_mapped R v (size / 0x1000) m T s'.

Definition not_allocated R size o m T (e : AllocMappedFrameError) (s' : Machine) : Prop :=
  (e = OutOfVirtualSpace /\ pinv X lo K O s' m T /\
     forall v, search_start o <= v -> v + size <= search_end o -> v `mod` 0x1000 = 0 ->
       ~ free_run X m R v (size / 0x1000)) \/
  (e = OutOfPhysicalMemory /\ run_given_back R m T s').

Lemma alloc_mapped_frame_spec fuel R size o s m T :
  pinv X lo K O s m T -> T !! R = Some 4%nat -> 0 < size <= 2 ^ 47 -> size `mod` 0x1000 = 0 ->
  opt_static_vaddr o = None -> (opt_user o = false -> K = Some R) ->
  (forall v, search_start o <= v < search_end o -> clear_path X m R (indices v)) ->
  search_end o - search_start o <= (Z.of_nat fuel - 1) * 0x1000 ->
  wpe (alloc_mapped_frame fuel R size o) s (allocated R size o m T) (not_allocated R size o m T).
Proof.
  intros I HR Hsize Hmod Hstatic HK Hclear Hfuel.
  pose proof (pinv_table _ _ _ _ _ _ _ _ _ I HR) as (_ & HRm & _).
  unfold alloc_mapped_frame. rewrite !land_low, Hstatic.
  apply wpe_bind, wp_assert; [by apply Z.eqb_eq|]. apply wpe_bind, wp_assert; [by apply Z.eqb_eq|].
  apply wpe_bind. eapply (find_spec fuel R (size / 4096)); [done|done|lia|done|done|done| |].
  - intros v s1 I1 Hlo Hhi Hvm Hrun. apply wpe_try.
    eapply wpe_mono; [apply (map_run_spec R v); [done|done|done|lia| |done]| |].
    + intros j Hj. apply Hclear. lia.
    + intros [] s2 Hm. apply wpe_ret. unfold allocated. split_conj; [done|lia|done|done].
    + intros e s2 [-> Hb]. right. done.
  - intros s1 I1 Hno. apply wpe_throw. left. split_conj; [done|done|].
    intros v Hv Hvs Hvm. apply Hno; [done|lia|done].
Qed.

Lemma all_free_spec {E} R v n i s m T (Q : bool -> Machine -> Prop) :
  pinv X lo K O s m T -> T !! R = Some 4%nat ->
  (forall j, i <= j < i + Z.of_nat n -> clear_path X m R (indices (v + j * 0x1000)) /\ 0 < v + j * 0x1000 < 2 ^ 64) ->
  (forall b s', pinv X lo K O s' m T ->
     (b = true <-> forall j, i <= j < i + Z.of_nat n -> trans X m R (indices (v + j * 0x1000)) = None) -> Q b s') ->
  wp (all_free (E := E) v R (seqZ i (Z.of_nat n))) s Q.
Proof.
  revert i s. induction n as [|n IH]; intros i s I HR Hp HQ.
  { rewrite seqZ_nil by lia. cbn [all_free]. wp_step. apply HQ; [done|]. split; [lia|done]. }
  rewrite seqZ_cons by lia. replace (Z.pred (Z.of_nat (S n))) with (Z.of_nat n) by lia.
  replace (Z.succ i) with (i + 1) by lia. cbn [all_free]. destruct (Hp i ltac:(lia)) as [Hc Hb].
  apply wp_bind, wp_checked; [lia|]. unfold nonzero. rewrite (proj2 (Z.eqb_neq _ _)) by lia.
  apply wp_bind. eapply (is_page_free_spec X lo K O); [done|done|done|]. intros s' I'. case_bool_decide as Hf.
  - apply IH; [done|done|intros j Hj; apply Hp; lia|]. intros b s2 I2 Hb2. apply HQ; [done|]. rewrite Hb2. split.
    + intros Hall j Hj. destruct (decide (j = i)) as [->|]; [done|]. apply Hall. lia.
    + intros Hall j Hj. apply Hall. lia.
  - wp_step. apply HQ; [done|]. split; [done|]. intros Hall. destruct Hf. apply Hall. lia.
Qed.

(** Pages at an address that is asked for. *)
Lemma alloc_static_frame_spec fuel R v size o s m T :
  pinv X lo K O s m T -> T !! R = Some 4%nat -> 0 <= size <= 2 ^ 48 -> size `mod` 0x1000 = 0 ->
  opt_static_vaddr o = Some v -> v `mod` 0x1000 = 0 -> 0 < v -> v + size < 2 ^ 64 ->
  (forall j, 0 <= j < size / 0x1000 -> clear_path X m R (indices (v + j * 0x1000))) ->
  wpe (alloc_mapped_frame fuel R size o) s
    (fun v' s' => v' = v /\ run_mapped R v (size / 0x1000) m T s')
    (fun e s' => (e = OutOfVirtualSpace /\ pinv X lo K O s' m T /\ ~ free_run X m R v (size / 0x1000)) \/
       (e = OutOfPhysicalMemory /\ run_given_back R m T s')).
Proof.
  intros I HR Hsize Hmod Hstatic Hvm Hv Hvs Hclear.
  pose proof (pinv_table _ _ _ _ _ _ _ _ _ I HR) as (_ & HRm & _).
  unfold alloc_mapped_frame. rewrite !land_low, Hstatic.
  apply wpe_bind, wp_assert; [by apply Z.eqb_eq|]. apply wpe_bind, wp_assert; [by apply Z.eqb_eq|].
  apply wpe_bind. unfold find_user_free_virtual_memory_static.
  assert (Z.land v 0xFFFFFFFFFFFFF000 = v) as -> by (rewrite align_down by lia; lia).
  apply wp_bind. replace (seqZ 0 (size / 4096)) with (seqZ 0 (Z.of_nat (Z.to_nat (size / 4096)))) by (f_equal; lia).
  eapply all_free_spec; [done|done| |].
  { intros j Hj. split; [apply Hclear; lia|lia]. }
  rewrite Z.add_0_l, Z2Nat.id by lia. intros b s1 I1 Hb. apply wp_ret. destruct b.
  - unfold nonzero. rewrite (proj2 (Z.eqb_neq _ _)) by lia.
    apply wpe_try. eapply wpe_mono; [apply (map_run_spec R v); [done|done|done|lia|done|exact (proj1 Hb eq_refl)]| |].
    + intros [] s2 Hm. by apply wpe_ret.
    + intros e s2 He. by right.
  - apply wpe_throw. left. split_conj; [done|done|]. intros Hr. by pose proof (proj2 Hb Hr).
Qed.

(** Pages of user space, when there is a run of free addresses at [v0]. *)
Lemma alloc_user_frame_spec fuel R size o v0 s m T :
  pinv X lo K O s m T -> T !! R = Some 4%nat -> 0 < size <= 2 ^ 47 -> size `mod` 0x1000 = 0 ->
  opt_static_vaddr o = None -> opt_user o = true ->
  USER_SEARCH_START <= v0 -> v0 + size <= USER_SEARCH_END -> v0 `mod` 0x1000 = 0 -> free_run X m R v0 (size / 0x1000) ->
  (forall v, USER_SEARCH_START <= v < v0 + size -> clear_path X m R (indices v)) ->
  v0 + size - USER_SEARCH_START <= (Z.of_nat fuel - 1) * 0x1000 ->
  wpe (alloc_mapped_frame fuel R size o) s
    (fun v s' => USER_SEARCH_START <= v <= v0 /\ v `mod` 0x1000 = 0 /\ run_mapped R v (size / 0x1000) m T s')
    (fun e s' => e = OutOfPhysicalMemory /\ run_given_back R m T s').
Proof.
  intros I HR Hsize Hmod Hstatic Huser Hlo Hhi Hvm Hrun Hclear Hfuel.
  pose proof (pinv_table _ _ _ _ _ _ _ _ _ I HR) as (_ & HRm & _).
  assert (USER_SEARCH_START = 0x8000000000 /\ USER_SEARCH_END = 0xFFFFFF8000000000) as [E1 E2] by done.
  unfold alloc_mapped_frame. rewrite !land_low, Hstatic, Huser.
  apply wpe_bind, wp_assert; [by apply Z.eqb_eq|]. apply wpe_bind, wp_assert; [by apply Z.eqb_eq|].
  apply wpe_bind. unfold find_user_free_virtual_memory, find_free_virtual_memory.
  eapply (find_free_known X lo K O R m T USER_SEARCH_START USER_SEARCH_END (size / 4096) v0); try done; try lia.
  - intros v Hv. apply Hclear. lia.
  - intros v s1 I1 Hv Hvm1 Hrun1. apply wpe_try.
    eapply wpe_mono; [apply (map_run_spec R v); [done|done|done|lia| |done]| |].
    + intros j Hj. apply Hclear. lia.
    + intros [] s2 Hm. by apply wpe_ret.
    + done.
  - intros k Hk. lia.
Qed.

(** What is left when the [n] pages from [v] on are freed. *)
Definition unmaps R v n m T (s' : Machine) : Prop :=
  exists m' T', pinv X lo K O s' m' T' /\ T' ⊆ T /\ (forall r, T !! r = Some 4%nat -> T' !! r = Some 4%nat) /\
    (forall k q, 0 <= k < n -> phys X m R (v + k * 0x1000) = Some q ->
       phys X m' R (v + k * 0x1000) = None /\ T' !! q = None) /\
    same_elsewhere X T R v n m m' /\ clear_kept T m m'.

(** Where no entry is new, no path is. *)
Lemma removed_path R js pa m T m' T' r pre p :
  forest X m' T' -> removed X R js pa m T m' T' -> T' !! r = Some 4%nat -> Forall idx_ok pre -> (length pre <= 4)%nat ->
  trans X m' r pre = Some p -> trans X m r pre = Some p.
Proof.
  intros F' Hrm Hr. revert p. induction pre as [|i pre IH] using rev_ind; intros p Hpre Hlen Ht; [done|].
  apply Forall_app in Hpre as [Hpre Hi]. rewrite length_app in Hlen. cbn in Hlen. rewrite Forall_singleton in Hi.
  rewrite trans_app in Ht |- *. destruct (trans X m' r pre) as [q|] eqn:Hq; [|done]. cbn in Ht.
  destruct (linked X m' q i) eqn:Hl; [|done]. injection Ht as <-.
  assert (HTq : T' !! q = Some (S (3 - length pre))%nat).
  { apply (trans_level X m' T' r _ pre); try done. rewrite Hr. f_equal. lia. }
  pose proof (rm_keep _ _ _ _ _ _ _ _ Hrm q _ i HTq Hi (linked_present _ _ _ _ Hl)) as He.
  rewrite (IH q) by (done || lia). cbn. by rewrite <-(linked_agree X m m' q i He), Hl, He.
Qed.

Lemma removed_clear R js pa m T m' T' :
  forest X m' T' -> removed X R js pa m T m' T' -> clear_kept T m m'.
Proof.
  intros F' Hrm r ks Hr Hks Hl Hc pre i suf p -> Ht. apply (Hc pre i suf p eq_refl).
  apply Forall_app in Hks as [Hpre _]. rewrite length_app in Hl.
  eapply removed_path; [done|done|by apply Hrm|done|lia|done].
Qed.

Section free.
  Context (R v n : Z) (m : Z -> Z) (T : gmap Z nat) (HR : T !! R = Some 4%nat) (Hv : v `mod` 0x1000 = 0)
    (Hn : 0 <= n <= 2 ^ 36)
    (Hmapped : forall k, 0 <= k < n -> exists q, phys X m R (v + k * 0x1000) = Some q /\ q ∉ o_pages O).

Lemma free_pages_spec {E} len i s m1 T1 :
  Z.of_nat len = n - i -> 0 <= i -> pinv X lo K O s m1 T1 -> T1 ⊆ T ->
  (forall r, T !! r = Some 4%nat -> T1 !! r = Some 4%nat) ->
  (forall k q, 0 <= k < i -> phys X m R (v + k * 4096) = Some q ->
     phys X m1 R (v + k * 4096) = None /\ T1 !! q = None) ->
  same_elsewhere X T R v i m m1 -> clear_kept T m m1 ->
  wp (for_each (E:=E) (seqZ i (n - i)) (fun i _ => remove_memory_page R (v + i * 4096)) tt) s
    (fun _ => unmaps R v n m T).
Proof.
  revert i s m1 T1. induction len as [|len IH]; intros i s1 m1 T1 Hlen Hi I1 Hsub Hroots Hgone Hsame Hck.
  { rewrite seqZ_nil by lia. cbn [for_each]. wp_step. exists m1, T1. by replace n with i by lia. }
  rewrite seqZ_cons by lia. replace (Z.pred (n - i)) with (n - (i + 1)) by lia.
  replace (Z.succ i) with (i + 1) by lia. cbn [for_each]. wp_step.
  destruct (Hmapped i ltac:(lia)) as (qa & Hqa & Hna).
  assert (Hph : phys X m1 R (v + i * 4096) = Some qa).
  { rewrite Hsame; [done|done|]. intros _ k Hk Heq. apply page_inj in Heq; lia. }
  unfold phys in Hph. destruct (trans X m1 R (indices (v + i * 4096))) as [pa|] eqn:Ht; [|done].
  cbn in Hph. assert (qa = pa) as -> by (injection Hph; lia).
  eapply wp_mono; [apply (remove_memory_page_spec X lo K O R (v + i * 4096) pa s1 m1 T1); auto; lia|].
  intros [] s2 (m2 & T2 & I2 & Hrm). pose proof Hrm as [(Usub & Upa & _ & Urt & Unone & Usame) _ _].
  assert (Hsame2 : forall r a, T !! r = Some 4%nat ->
    (r = R -> indices a <> indices (v + i * 4096)) -> phys X m2 r a = phys X m1 r a).
  { intros r a Hr Hne. unfold phys. rewrite Usame; [done|auto|done|apply indices_ok|].
    intros Heq. apply Hne; congruence. }
  eapply (IH (i + 1)); [lia|lia|done|by etrans|auto| | |].
  - intros k q Hk Hq. destruct (decide (k = i)) as [->|].
    + rewrite Hqa in Hq. injection Hq as <-. split; [unfold phys; by rewrite Unone|done].
    + destruct (Hgone k q ltac:(lia) Hq) as [Hg1 Hg2]. split; [|by eapply lookup_weaken_None].
      rewrite Hsame2; [done|done|]. intros _ Heq. apply page_inj in Heq; lia.
  - intros r a Hr Hne. rewrite Hsame2; [|done|intros ->; apply Hne; done || lia].
    apply Hsame; [done|]. intros -> k Hk. apply Hne; done || lia.
  - intros r ks Hr Hks Hl Hc. pose proof I2 as (_ & F2 & _). apply (removed_clear R _ pa m1 T1 m2 T2 F2 Hrm r ks); [by apply Hroots|done|done|by apply Hck].
Qed.

Lemma free_mapped_frame_spec {E} s :
  pinv X lo K O s m T -> wp (free_mapped_frame (E:=E) R v (n * 0x1000)) s (fun _ => unmaps R v n m T).
Proof.
  intros I. unfold free_mapped_frame. rewrite Z.div_mul by done.
  replace (seqZ 0 n) with (seqZ 0 (n - 0)) by (f_equal; lia).
  eapply (free_pages_spec (Z.to_nat n) 0); [lia|done|done|done|done| | |].
  - intros k q Hk. lia.
  - by intros r a.
  - by intros r ks.
Qed.
End free.

(** C10: allocating mapped pages. [alloc_mapped_frame] ends. When it succeeds,
    the pages are free addresses of the searched range, and each is mapped to
    a frame of its own that nobody was using; no other translation of any
    address space has changed. When no run of free addresses is long enough
    it says so and changes nothing; when memory runs out, every page and
    every table made on the way is given back: no frame is used that was not
    used before and all translations are as they were. In every case the
    bytes of the protected pages stay (in [pinv]). *)
Theorem alloc_mapped_frame_maps fuel R size o s m T :
  pinv X lo K O s m T -> T !! R = Some 4%nat -> 0 < size <= 2 ^ 47 -> size `mod` 0x1000 = 0 ->
  opt_static_vaddr o = None -> (opt_user o = false -> K = Some R) ->
  (forall v, search_start o <= v < search_end o -> clear_path X m R (indices v)) ->
  search_end o - search_start o <= (Z.of_nat fuel - 1) * 0x1000 ->
  wpe (alloc_mapped_frame fuel R size o) s (allocated R size o m T) (not_allocated R size o m T).
Proof. apply alloc_mapped_frame_spec. Qed.

(** C11: freeing mapped pages. [free_mapped_frame] on pages that are mapped
    ends, takes away their translations and no other, and their frames are
    free again; no frame is used that was not used before, and the bytes of
    every protected page stay. *)
Theorem free_mapped_frame_unmaps {E} R v n s m T :
  pinv X lo K O s m T -> T !! R = Some 4%nat -> v `mod` 0x1000 = 0 -> 0 <= n <= 2 ^ 36 ->
  (forall k, 0 <= k < n -> exists q, phys X m R (v + k * 0x1000) = Some q /\ q ∉ o_pages O) ->
  wp (free_mapped_frame (E:=E) R v (n * 0x1000)) s (fun _ => unmaps R v n m T).
Proof. intros. by apply free_mapped_frame_spec. Qed.

End theorems.
