(* ===== verification/PageAccess.v ===== *)
(** * Access to the memory of an address space

    [write_page_table_memory], [write_page_table_memory_bytes] and
    [read_page_table_memory] work through a range of virtual addresses page by
    page: they write and read exactly the bytes the range translates to. *)
From S2P Require Import Prelude Physics PhysicsSpec Page PageForest PageSpec PageUnmap PageAlloc.

Lemma same_page a b : a / 0x1000 = b / 0x1000 -> indices a = indices b.
Proof.
  intros H. unfold indices, pml4_index, pdpt_index, pd_index, pt_index. rewrite !index_bits by lia.
  change (2 ^ 39) with (0x1000 * 2 ^ 27). change (2 ^ 30) with (0x1000 * 2 ^ 18).
  change (2 ^ 21) with (0x1000 * 2 ^ 9). change (2 ^ 12) with 0x1000.
  by rewrite <-!Z.div_div, H by lia.
Qed.

Section access.
  Context (X : Z -> Z -> bool) (lo : Z) (K : option Z) (O : others).
  Implicit Types (m : Z -> Z) (T : gmap Z nat).
  Notation forest := (forest X).
  Notation trans := (trans X).
  Notation pinv := (pinv X lo K O).
  Notation clear_path := (clear_path X).
  Notation phys := (phys X).

Section space.
  Context (R : Z) T (HR : T !! R = Some 4%nat).

Lemma phys_agree m m' r a :
  forest m T -> T !! r = Some 4%nat -> agree T m m' -> phys m' r a = phys m r a.
Proof.
  intros F Hr Ha. unfold PageAlloc.phys. f_equal.
  apply (trans_agree X T m m' r _ 4%nat); try done. apply indices_ok.
Qed.

Lemma clear_agree m m' a :
  forest m T -> agree T m m' -> clear_path m R (indices a) -> clear_path m' R (indices a).
Proof.
  intros F Ha Hc pre i suf p Heq Ht. apply (Hc pre i suf p Heq). rewrite <-Ht. symmetry.
  pose proof (indices_ok a) as Hix. assert (length (indices a) = 4%nat) as Hlen by done.
  rewrite Heq in Hix, Hlen. apply Forall_app in Hix as [Hpre _]. rewrite length_app in Hlen.
  apply (trans_agree X T m m' R _ 4%nat); try done. lia.
Qed.

(** Two addresses with the same physical address are the same address. *)
Lemma phys_inj m a b x :
  forest m T -> phys m R a = Some x -> phys m R b = Some x -> Z.abs (a - b) < 2 ^ 48 -> a = b.
Proof.
  intros F Ha Hb Hab. unfold PageAlloc.phys in Ha, Hb.
  destruct (trans m R (indices a)) as [p|] eqn:Hp; [|done].
  destruct (trans m R (indices b)) as [q|] eqn:Hq; [|done]. cbn in Ha, Hb.
  assert (T !! p = Some 0%nat) as HTp.
  { apply (trans_level X m T R _ (indices a)); [done|done|apply indices_ok|done]. }
  assert (T !! q = Some 0%nat) as HTq.
  { apply (trans_level X m T R _ (indices b)); [done|done|apply indices_ok|done]. }
  pose proof (f_frame _ _ _ F p _ HTp) as (_ & Hpm & _). pose proof (f_frame _ _ _ F q _ HTq) as (_ & Hqm & _).
  assert (p = q) as <- by (injection Ha; injection Hb; lia).
  destruct (trans_unique X m T R 0 R 0 (indices a) (indices b) p) as [_ Heq]; try done.
  - apply indices_ok.
  - apply indices_ok.
  - by eapply root_unref.
  - by eapply root_unref.
  - apply indices_inj in Heq. injection Ha as Ha. injection Hb as Hb. lia.
Qed.

(** The rest of a page behind an address. *)
Lemma phys_next m a x k :
  phys m R a = Some x -> 0 <= k -> a `mod` 0x1000 + k < 0x1000 -> phys m R (a + k) = Some (x + k).
Proof.
  unfold PageAlloc.phys. intros Ha Hk Hoff. rewrite (same_page (a + k) a) by lia.
  destruct (trans m R (indices a)) as [p|]; [|done]. cbn in *. injection Ha as <-. f_equal. lia.
Qed.

Lemma phys_page m a x :
  forest m T -> phys m R a = Some x ->
  exists q, T !! q = Some 0%nat /\ q `mod` 0x1000 = 0 /\ x = q + a `mod` 0x1000 /\ q <= x < 2 ^ 52.
Proof.
  intros F Ha. unfold PageAlloc.phys in Ha. destruct (trans m R (indices a)) as [q|] eqn:Hq; [|done].
  cbn in Ha. assert (T !! q = Some 0%nat) as HTq.
  { apply (trans_level X m T R _ (indices a)); [done|done|apply indices_ok|done]. }
  pose proof (f_frame _ _ _ F q _ HTq) as (Hpos & Hqm & Hb). exists q. split_conj; try done; injection Ha; lia.
Qed.

(** A change inside a page is no change of the tables. *)
Lemma page_write s s1 m q m' :
  pinv s m T -> after s (ram s) s1 -> T !! q = Some 0%nat -> q ∉ o_pages O ->
  (forall x, ~ q <= x < q + 0x1000 -> m' x = m x) ->
  forall r, meq r m' -> pinv (set_ram r s1) m' T /\ agree T m m'.
Proof.
  intros I Hs Hq Hna Hout r Hr. pose proof I as (Ia & F & Hd). pose proof (f_frame _ _ _ F q _ Hq) as Hok.
  assert (Ha : agree T m m').
  { intros p l i Hp Hi. apply (entry_frame m m' q); try done; [by eapply f_frame|congruence]. }
  split; [|done]. split; [|split; [by eapply agree_forest|]].
  2: { eapply separate_next; [exact I| |apply Hd|done]. intros b x Hb Hx. apply Hout. by eapply guard_out. }
  eapply (ainv_write lo K s m _ _ m'); [done| |done|].
  - split; [done|]. destruct Hs as [_ ->]. by destruct s.
  - intros x Hx. apply Hout. apply Hx. apply elem_of_union_l, elem_of_dom. by exists 0%nat.
Qed.

(** Rounds for the pages of a range. *)
Definition enough_for (fuel : nat) (a n : Z) : Prop :=
  (1 <= fuel)%nat /\ (0 < n -> (a + n) / 0x1000 - a / 0x1000 + 2 <= Z.of_nat fuel).

Lemma rounds_enough_for a n : 0 <= a -> 0 <= n -> enough_for (rounds n) a n.
Proof. intros. unfold enough_for, rounds. lia. Qed.

(** What a write of [n] bytes from [a] on does: byte [k] becomes [b k]. *)
Definition wrote m (a n : Z) (b : Z -> Z) m' : Prop :=
  agree T m m' /\
  (forall k, 0 <= k < n -> exists x, phys m R (a + k) = Some x /\ m' x = b k) /\
  (forall x, (forall k, 0 <= k < n -> phys m R (a + k) <> Some x) -> m' x = m x).

Lemma wrote_nil m a b : wrote m a 0 b m.
Proof. split; [done|]. split; [intros; lia|done]. Qed.

(** A first part within a page, then the rest. *)
Lemma wrote_app m a n n' b m1 m' :
  forest m T -> 0 <= n -> 0 <= n' -> n + n' <= 2 ^ 48 ->
  wrote m a n b m1 -> wrote m1 (a + n) n' (fun k => b (n + k)) m' -> wrote m a (n + n') b m'.
Proof.
  intros F Hn Hn' Hlen (A1 & W1 & O1) (A2 & W2 & O2).
  assert (Hph : forall c, phys m1 R c = phys m R c) by (intros; by apply phys_agree).
  split; [by eapply agree_trans|]. split.
  - intros k Hk. destruct (decide (k < n)).
    + destruct (W1 k ltac:(lia)) as (x & Hx & Hb). exists x. split; [done|]. rewrite O2; [done|].
      intros k' Hk' Hx'. rewrite Hph in Hx'. assert (a + k = a + n + k') by (eapply phys_inj; done || lia). lia.
    + destruct (W2 (k - n) ltac:(lia)) as (x & Hx & Hb). rewrite Hph in Hx. exists x.
      replace (a + k) with (a + n + (k - n)) by lia. split; [done|]. rewrite Hb. f_equal. lia.
  - intros x Hx. rewrite O2, O1; [done| |].
    + intros k Hk. apply Hx. lia.
    + intros k Hk. rewrite Hph. replace (a + n + k) with (a + (n + k)) by lia. apply Hx. lia.
Qed.

(** One round: a stretch of a page. *)
Lemma wrote_page m a x n b m' :
  forest m T -> phys m R a = Some x -> 0 <= n <= 0x1000 - a `mod` 0x1000 ->
  agree T m m' -> (forall k, 0 <= k < n -> m' (x + k) = b k) -> (forall y, ~ x <= y < x + n -> m' y = m y) ->
  wrote m a n b m'.
Proof.
  intros F Hx Hn Ha Hb Ho. split; [done|]. split.
  - intros k Hk. exists (x + k). split; [apply phys_next; done || lia|auto].
  - intros y Hy. apply Ho. intros Hin. apply (Hy (y - x) ltac:(lia)).
    rewrite (phys_next m a x) by (done || lia). f_equal. lia.
Qed.

Lemma wrote_ext m a n b b' m' :
  wrote m a n b m' -> (forall k, 0 <= k < n -> b k = b' k) -> wrote m a n b' m'.
Proof.
  intros (H1 & H2 & H3) Hb. split; [done|]. split; [|done].
  intros k Hk. destruct (H2 k Hk) as (x & Hx & Hm). exists x. by rewrite <-Hb.
Qed.

(** Byte [k] of a list. *)
Definition nth_byte (bs : list Z) (k : Z) : Z := default 0 (bs !! Z.to_nat k).

(** Two parts of a range, of which the second may fail. *)
Definition write_good m a n b (s' : Machine) : Prop := exists m', pinv s' m' T /\ wrote m a n b m'.
Definition write_bad m a n b (s' : Machine) : Prop :=
  exists m' j, 0 <= j < n /\ phys m R (a + j) = None /\ pinv s' m' T /\ wrote m a j b m'.

Lemma write_continue {A} (prog : M Machine AccessMemoryError A) s m a n len b b1 m1 :
  forest m T -> 0 <= len <= n -> n <= 2 ^ 48 -> wrote m a len b m1 ->
  (forall k, 0 <= k < n - len -> b1 k = b (len + k)) ->
  wpe prog s (fun _ => write_good m1 (a + len) (n - len) b1) (fun _ => write_bad m1 (a + len) (n - len) b1) ->
  wpe prog s (fun _ => write_good m a n b) (fun _ => write_bad m a n b).
Proof.
  intros F Hlen Hn W Hb1 H. eapply wpe_mono; [exact H| |].
  - intros _ s' (m' & I & W'). exists m'. split; [done|].
    replace n with (len + (n - len)) by lia. eapply wrote_app; [done|lia|lia|lia|done|by eapply wrote_ext].
  - intros _ s' (m' & j & Hj & Hph & I & W'). exists m', (len + j). split_conj; [lia|lia| |done|].
    + rewrite <-(phys_agree m m1); [|done|done|apply W]. by rewrite Z.add_assoc.
    + eapply wrote_app; [done|lia|lia|lia|done|]. eapply wrote_ext; [done|]. intros k Hk. apply Hb1. lia.
Qed.

(** The window on one page. *)
Lemma window_page a x s m (Q : Z * Z -> Machine -> Prop) :
  pinv s m T -> phys m R a = Some x ->
  (forall start s', pinv s' m T -> window_address s' start = x -> Q (start, 0x1000 - a `mod` 0x1000) s') ->
  wp (insert_temp_page_table (E:=AccessMemoryError) x) s Q.
Proof.
  intros I Hx HQ. pose proof I as (Ia & F & Hd). pose proof (phys_page m a x F Hx) as (q & HTq & Hqm & Hxq & Hb).
  pose proof (f_frame _ _ _ F q _ HTq) as (Hpos & _ & _).
  apply insert_temp_spec; [by eapply ainv_init|lia|]. intros start s1 Hs Hram Hw.
  assert (x `mod` 4096 = a `mod` 4096) as -> by lia. apply HQ; [|done].
  split; [by eapply ainv_read|done].
Qed.

(** A stretch of the page behind [a] replaced. *)
Lemma write_round s m a x len b r m1 :
  pinv s m T -> phys m R a = Some x -> x - x `mod` 0x1000 ∉ o_pages O ->
  0 <= len <= 0x1000 - a `mod` 0x1000 -> meq r m1 ->
  (forall k, 0 <= k < len -> m1 (x + k) = b k) -> (forall y, ~ x <= y < x + len -> m1 y = m y) ->
  pinv (set_ram r s) m1 T /\ wrote m a len b m1.
Proof.
  intros I Hx Hna Hlen Hr Hin Hout. pose proof I as (_ & F & _).
  destruct (phys_page m a x F Hx) as (q & HTq & Hqm & Hxq & Hb).
  assert (x - x `mod` 0x1000 = q) as Hq by lia. rewrite Hq in Hna.
  destruct (page_write s s m q m1 I (after_refl s) HTq Hna) with (r := r) as [I' Hag]; [|done|].
  - intros y Hy. apply Hout. lia.
  - split; [done|]. by eapply wrote_page.
Qed.

(** The rounds that remain. *)
Lemma enough_next fuel a n len :
  enough_for (S fuel) a n -> 0 <= a -> 0 < n -> len = Z.min (0x1000 - a `mod` 0x1000) n ->
  enough_for fuel (a + len) (n - len).
Proof. unfold enough_for. lia. Qed.

Lemma clear_next m m1 a n len :
  forest m T -> agree T m m1 -> (forall k, 0 <= k < n -> clear_path m R (indices (a + k))) -> 0 <= len ->
  forall k, 0 <= k < n - len -> clear_path m1 R (indices (a + len + k)).
Proof.
  intros F Ha Hc Hlen k Hk. eapply clear_agree; [done|done|].
  replace (a + len + k) with (a + (len + k)) by lia. apply Hc. lia.
Qed.

(** No page of the range is protected. *)
Definition unprotected m (a n : Z) : Prop :=
  forall k x, 0 <= k < n -> phys m R (a + k) = Some x -> x - x `mod` 0x1000 ∉ o_pages O.

Lemma unprotected_next m m1 a n len :
  forest m T -> agree T m m1 -> unprotected m a n -> 0 <= len -> unprotected m1 (a + len) (n - len).
Proof.
  intros F Ha Hu Hlen k x Hk Hx. rewrite (phys_agree m) in Hx by done.
  apply (Hu (len + k)); [lia|]. by rewrite Z.add_assoc.
Qed.

Lemma nth_byte_drop bs len k :
  0 <= len -> 0 <= k -> nth_byte (drop (Z.to_nat len) bs) k = nth_byte bs (len + k).
Proof. intros. unfold nth_byte. rewrite lookup_drop. do 2 f_equal. lia. Qed.

Lemma write_page_loop_spec fuel a src s m :
  let n := Z.of_nat (length src) in
  pinv s m T -> 0 <= a -> a + n < 2 ^ 64 -> n <= 2 ^ 48 ->
  (forall k, 0 <= k < n -> clear_path m R (indices (a + k))) -> unprotected m a n -> enough_for fuel a n ->
  wpe (write_page_loop fuel R a src) s
    (fun _ => write_good m a n (nth_byte src)) (fun _ => write_bad m a n (nth_byte src)).
Proof.
  cbv zeta. revert a src s m.
  induction fuel as [|fuel IH]; intros a src s m I Ha Hlim Hlen Hclear Hna Hfuel; [destruct Hfuel; lia|].
  cbn [write_page_loop]. destruct src as [|b0 src0] eqn:Hsrc.
  { apply wpe_ret. exists m. split; [done|apply wrote_nil]. }
  rewrite <-Hsrc in *. assert (0 < Z.of_nat (length src)) as Hpos by (rewrite Hsrc; cbn; lia).
  clear b0 src0 Hsrc. pose proof I as (_ & F & _).
  apply wpe_bind. eapply mapped_physical_spec; [done|done| |].
  { specialize (Hclear 0 ltac:(lia)). by rewrite Z.add_0_r in Hclear. }
  intros s1 I1. destruct (phys m R a) as [x|] eqn:Hx.
  2: { apply wpe_throw. exists m, 0. rewrite Z.add_0_r. split_conj; [done|lia|done|done|apply wrote_nil]. }
  apply wpe_bind, (window_page a x s1 m); [done|done|].
  intros start s2 I2 Hw. remember (Z.min _ _) as len eqn:Hl.
  apply wpe_bind, wp_modify, wpe_bind, wp_checked; [lia|]. rewrite Hw.
  destruct (write_round s2 m a x len (nth_byte src) (store (ram s2) x (take (Z.to_nat len) src))
    (store m x (take (Z.to_nat len) src))) as [I3 W]; try done.
  { apply (Hna 0); [lia|]. by rewrite Z.add_0_r. }
  { lia. }
  { destruct I2 as ((_ & -> & _) & _). done. }
  { intros k Hk. rewrite store_in by (rewrite length_take; lia). unfold nth_byte.
    replace (x + k - x) with k by lia. by rewrite lookup_take_lt by lia. }
  { intros y Hy. apply store_out. rewrite length_take. lia. }
  eapply (write_continue _ _ m a _ len _ (nth_byte (drop (Z.to_nat len) src))); [done|lia|lia|done| |].
  { intros k Hk. apply nth_byte_drop; lia. }
  assert (Z.of_nat (length src) - len = Z.of_nat (length (drop (Z.to_nat len) src))) as Hrest
    by (rewrite length_drop; lia).
  rewrite Hrest. apply IH; try done; [lia|lia|lia| | |]; rewrite <-Hrest.
  - apply (clear_next m); [done|apply W|done|lia].
  - apply (unprotected_next m); [done|apply W|done|lia].
  - eapply enough_next; [done|lia|lia|done].
Qed.

Lemma fill_page_loop_spec fuel a e byte s m :
  pinv s m T -> 0 <= a <= e -> e < 2 ^ 64 -> e - a <= 2 ^ 48 ->
  (forall k, 0 <= k < e - a -> clear_path m R (indices (a + k))) -> unprotected m a (e - a) ->
  enough_for fuel a (e - a) ->
  wpe (fill_page_loop fuel R a e byte) s
    (fun _ => write_good m a (e - a) (fun _ => byte)) (fun _ => write_bad m a (e - a) (fun _ => byte)).
Proof.
  revert a s m.
  induction fuel as [|fuel IH]; intros a s m I Ha Hlim Hlen Hclear Hna Hfuel; [destruct Hfuel; lia|].
  cbn [fill_page_loop]. destruct (a <? e) eqn:Hae; bool_to_prop.
  2: { apply wpe_ret. exists m. split; [done|]. replace (e - a) with 0 by lia. apply wrote_nil. }
  pose proof I as (_ & F & _). apply wpe_bind. eapply mapped_physical_spec; [done|done| |].
  { specialize (Hclear 0 ltac:(lia)). by rewrite Z.add_0_r in Hclear. }
  intros s1 I1. destruct (phys m R a) as [x|] eqn:Hx.
  2: { apply wpe_throw. exists m, 0. rewrite Z.add_0_r. split_conj; [done|lia|done|done|apply wrote_nil]. }
  apply wpe_bind, (window_page a x s1 m); [done|done|].
  intros start s2 I2 Hw. remember (Z.min _ _) as len eqn:Hl. apply wpe_bind, wp_modify. rewrite Hw.
  destruct (write_round s2 m a x len (fun _ => byte) (fill (ram s2) x len byte) (fill m x len byte))
    as [I3 W]; try done.
  { apply (Hna 0); [lia|]. by rewrite Z.add_0_r. }
  { lia. }
  { destruct I2 as ((_ & -> & _) & _). done. }
  { intros k Hk. apply fill_in. lia. }
  { intros y Hy. apply fill_out. lia. }
  eapply (write_continue _ _ m a _ len _ (fun _ => byte)); [done|lia|lia|done|done|].
  replace (e - a - len) with (e - (a + len)) by lia. apply IH; try done; [lia|lia| | |];
    replace (e - (a + len)) with (e - a - len) by lia.
  - apply (clear_next m); [done|apply W|done|lia].
  - apply (unprotected_next m); [done|apply W|done|lia].
  - eapply enough_next; [done|lia|lia|done].
Qed.

(** The bytes a range translates to. *)
Definition bytes_at m (a n : Z) (bs : list Z) : Prop :=
  Z.of_nat (length bs) = n /\ forall k, 0 <= k < n -> exists x, phys m R (a + k) = Some x /\ m x = nth_byte bs k.

Lemma bytes_at_app m a n n' bs bs' :
  bytes_at m a n bs -> bytes_at m (a + n) n' bs' -> bytes_at m a (n + n') (bs ++ bs').
Proof.
  intros [Hl H] [Hl' H']. split; [rewrite length_app; lia|]. intros k Hk. destruct (decide (k < n)).
  - destruct (H k ltac:(lia)) as (x & Hx & Hm). exists x. split; [done|]. unfold nth_byte in *.
    by rewrite lookup_app_l by lia.
  - destruct (H' (k - n) ltac:(lia)) as (x & Hx & Hm). exists x.
    replace (a + k) with (a + n + (k - n)) by lia. split; [done|]. rewrite Hm. unfold nth_byte.
    rewrite lookup_app_r by lia. do 2 f_equal. lia.
Qed.

Lemma bytes_at_page m a x n :
  phys m R a = Some x -> 0 <= n <= 0x1000 - a `mod` 0x1000 -> bytes_at m a n (load m x n).
Proof.
  intros Hx Hn. split; [unfold load; rewrite length_fmap, length_seqZ; lia|].
  intros k Hk. exists (x + k). split; [apply phys_next; done || lia|].
  unfold nth_byte, load. rewrite list_lookup_fmap, lookup_seqZ_lt by lia. cbn. f_equal. lia.
Qed.

Lemma bytes_at_wrote m a src m' :
  forest m T -> wrote m a (Z.of_nat (length src)) (nth_byte src) m' -> bytes_at m' a (Z.of_nat (length src)) src.
Proof.
  intros F (Hag & Hin & _). split; [done|]. intros k Hk. destruct (Hin k Hk) as (x & Hx & Hm). exists x.
  split; [|done]. by rewrite (phys_agree m).
Qed.

Lemma bytes_at_unique m a n bs bs' : bytes_at m a n bs -> bytes_at m a n bs' -> bs = bs'.
Proof.
  intros [Hl H] [Hl' H']. apply list_eq. intros i. destruct (decide (Z.of_nat i < n)) as [Hi|Hi].
  - destruct (H (Z.of_nat i) ltac:(lia)) as (x & Hx & Hm), (H' (Z.of_nat i) ltac:(lia)) as (x' & Hx' & Hm').
    unfold nth_byte in *. rewrite Nat2Z.id in *.
    destruct (lookup_lt_is_Some_2 bs i) as [u Hu]; [lia|]. destruct (lookup_lt_is_Some_2 bs' i) as [u' Hu']; [lia|].
    rewrite Hu, Hu' in *. cbn in *. congruence.
  - rewrite !lookup_ge_None_2 by lia. done.
Qed.

Lemma read_page_loop_spec fuel a n acc s m :
  pinv s m T -> 0 <= a -> 0 <= n -> a + n < 2 ^ 64 ->
  (forall k, 0 <= k < n -> clear_path m R (indices (a + k))) -> enough_for fuel a n ->
  wpe (read_page_loop fuel R a n acc) s
    (fun bs s' => pinv s' m T /\ exists new, bs = acc ++ new /\ bytes_at m a n new)
    (fun _ s' => pinv s' m T /\ exists k, 0 <= k < n /\ phys m R (a + k) = None).
Proof.
  revert a n acc s.
  induction fuel as [|fuel IH]; intros a n acc s I Ha Hn Hlim Hclear Hfuel; [destruct Hfuel; lia|].
  cbn [read_page_loop]. destruct (0 <? n) eqn:Hpos; bool_to_prop.
  2: { apply wpe_ret. split; [done|]. exists []. rewrite app_nil_r. split; [done|]. split; [cbn; lia|lia]. }
  pose proof I as (_ & F & _). apply wpe_bind. eapply mapped_physical_spec; [done|done| |].
  { specialize (Hclear 0 ltac:(lia)). by rewrite Z.add_0_r in Hclear. }
  intros s1 I1. destruct (phys m R a) as [x|] eqn:Hx.
  2: { apply wpe_throw. split; [done|]. exists 0. rewrite Z.add_0_r. split; [lia|done]. }
  apply wpe_bind, (window_page a x s1 m); [done|done|].
  intros start s2 I2 Hw. remember (Z.min _ _) as len eqn:Hl.
  apply wpe_bind, wp_gets, wpe_bind, wp_checked; [lia|]. rewrite Hw.
  assert (load (ram s2) x len = load m x len) as -> by (destruct I2 as ((_ & -> & _) & _); done).
  eapply wpe_mono; [apply IH; [done|lia|lia|lia| |]| |].
  - apply (clear_next m); [done|done|done|lia].
  - eapply enough_next; [done|lia|lia|done].
  - intros bs s' (I' & new & -> & Hnew). split; [done|]. exists (load m x len ++ new).
    rewrite app_assoc. split; [done|]. replace n with (len + (n - len)) by lia.
    apply bytes_at_app; [|done]. apply bytes_at_page; [done|lia].
  - intros _ s' (I' & k & Hk & Hno). split; [done|]. exists (len + k). rewrite Z.add_assoc. split; [lia|done].
Qed.

(** The memory after a write to the range: nothing but its bytes changed, in
    any address space. *)
Definition only_range m (a n : Z) (s' : Machine) : Prop :=
  exists m', pinv s' m' T /\
    (forall r b, T !! r = Some 4%nat -> phys m' r b = phys m r b) /\
    (forall x, (forall k, 0 <= k < n -> phys m R (a + k) <> Some x) -> m' x = m x).

Lemma wrote_only m a n n' b m' s' :
  forest m T -> pinv s' m' T -> wrote m a n b m' -> n <= n' -> only_range m a n' s'.
Proof.
  intros F I (Hag & _ & Hout) Hn. exists m'. split; [done|]. split.
  - intros r c Hr. by apply phys_agree.
  - intros x Hx. apply Hout. intros k Hk. apply Hx. lia.
Qed.

(** C12: Writing a byte string to a range of an address space with
    [write_page_table_memory] and reading the range back with
    [read_page_table_memory] gives the string, whatever pages the range spans
    and however they lie in physical memory.  It succeeds exactly when every
    address of the range is mapped, and otherwise fails with a page fault.  In
    either case every translation of every address space stays as it was and
    no byte of physical memory outside the range's own is changed. *)
Theorem address_space_write_read a src s m :
  let n := Z.of_nat (length src) in
  pinv s m T -> 0 <= a -> a + n < 2 ^ 64 -> n <= 2 ^ 48 ->
  (forall k, 0 <= k < n -> clear_path m R (indices (a + k))) -> unprotected m a n ->
  wpe (write_page_table_memory R a src;; read_page_table_memory R a n) s
    (fun bs s' => bs = src /\ (forall k, 0 <= k < n -> phys m R (a + k) <> None) /\ only_range m a n s')
    (fun e s' => e = PageFault /\ (exists k, 0 <= k < n /\ phys m R (a + k) = None) /\ only_range m a n s').
Proof.
  cbv zeta. intros I Ha Hlim Hlen Hclear Hna. pose proof I as (_ & F & _).
  apply wpe_try. eapply wpe_mono;
    [apply write_page_loop_spec; try done; apply rounds_enough_for; lia| |].
  - intros _ s1 (m' & I1 & W). pose proof I1 as (_ & F1 & _). pose proof W as (Hag & Hin & _).
    eapply wpe_mono; [apply (read_page_loop_spec _ _ _ _ _ m'); [done|lia|lia|lia| |apply rounds_enough_for; lia]| |].
    + intros k Hk. apply (clear_agree m); [done|done|]. by apply Hclear.
    + intros bs s2 (I2 & new & -> & Hnew). split_conj.
      * eapply bytes_at_unique; [done|]. by apply (bytes_at_wrote m).
      * intros k Hk. destruct (Hin k Hk) as (x & -> & _). done.
      * by eapply wrote_only.
    + intros e s2 (_ & k & Hk & Hno). rewrite (phys_agree m) in Hno by done.
      destruct (Hin k Hk) as (x & Hx & _). congruence.
  - intros e s1 (m' & j & Hj & Hno & I1 & W). split_conj.
    + by destruct e.
    + by exists j.
    + eapply wrote_only; [done|done|done|lia].
Qed.

End space.
End access.
