(* ===== verification/PageDemo.v ===== *)
(** * Concrete address spaces

    A machine of two megabytes on which the theorems on page tables are run:
    one with an empty address space, and one with a page mapped in it. *)
From S2P Require Import Prelude Physics PhysicsSpec Page PageForest PageSpec PageUnmap PageAlloc PageAccess.

Module PageDemo.

Definition none (_ _ : Z) : bool := false.
(** No other frames, and no page that must not be written. *)
Definition free : others := mkOthers ∅ ∅ (fun _ => 0).
Definition root : Z := 0x408000.
Definition page : Z := 0x409000.

(** Two frames: a root table without entries, and a page. *)
Definition spaces : gmap Z nat := {[root := 4%nat; page := 0%nat]}.
Definition two_frames : Machine := snd (alloc_frame (E:=Empty_set) Boot.one_frame).

Lemma two_frames_reached : frames_reached Boot.machine two_frames ({[page]} ∪ ({[root]} ∪ ∅)).
Proof.
  apply (fr_alloc Boot.machine Boot.one_frame).
  - apply (fr_alloc Boot.machine Boot.machine); [constructor|]. apply Boot.run_state. vm_compute. reflexivity.
  - apply Boot.run_state. vm_compute. reflexivity.
Qed.

Lemma zero_entry p i : entry (fun _ => 0) p i = 0.
Proof. done. Qed.

Lemma spaces_inv p l : spaces !! p = Some l -> p = root /\ l = 4%nat \/ p = page /\ l = 0%nat.
Proof.
  unfold spaces. intros [[<- <-]|[_ [<- <-]%lookup_singleton_Some]]%lookup_insert_Some; auto.
Qed.

Lemma two_frames_pinv K : PML4 two_frames = K -> pinv none 0x408000 K free two_frames (fun _ => 0) spaces.
Proof.
  intros HK. destruct (frames_inv _ _ _ _ Boot.machine_booted two_frames_reached) as [fl I].
  split; [|split].
  - split; [|done]. exists fl. cbn [o_frames free].
    replace (dom spaces ∪ ∅) with ({[page]} ∪ ({[root]} ∪ ∅) : gset Z); [done|].
    unfold spaces. rewrite dom_insert_L, dom_singleton_L. set_solver.
  - split.
    + intros p l [[-> _]|[-> _]]%spaces_inv; vm_compute; split_conj; done || discriminate.
    + intros p l [[_ ->]|[_ ->]]%spaces_inv; lia.
    + intros p l i _ _. done.
    + intros p l i q l' j _ _ _ _. done.
    + done.
  - split; [intros a _; apply not_elem_of_empty|]. intros a Ha. by apply elem_of_empty in Ha.
Qed.

Lemma spaces_unref : unref none (fun _ => 0) spaces page.
Proof. intros p l i _ _. done. Qed.

Lemma none_clear m R js : clear_path none m R js.
Proof. done. Qed.

(** The page mapped as the first one of user space. *)
Definition first_page : Z := 0x8000000000.
Definition one_page : Machine := snd (write_memory_page first_page page root true false true two_frames).

Lemma run_wpe {S E A} (prog : M S E A) s Q R a : wpe prog s Q R -> fst (prog s) = Ok a -> Q a (snd (prog s)).
Proof. unfold wpe. destruct (prog s) as [r s']. cbn. by intros H ->. Qed.

Lemma one_page_run : fst (write_memory_page first_page page root true false true two_frames) = Ok tt.
Proof. vm_compute. reflexivity. Qed.

Lemma one_page_pinv :
  exists m T, pinv none 0x408000 (PML4 two_frames) free one_page m T /\ T !! root = Some 4%nat /\
    phys none m root first_page = Some page.
Proof.
  pose proof (two_frames_pinv _ eq_refl) as I.
  pose proof (write_memory_page_spec none 0x408000 (PML4 two_frames) free first_page page root true false true
    (fun _ => 0) spaces (proj1 (proj2 I)) eq_refl eq_refl spaces_unref (none_clear _ _ _) eq_refl two_frames I) as H.
  destruct (run_wpe _ _ _ _ tt H one_page_run) as (m & T & I' & Hm & _). exists m, T. split; [exact I'|].
  split; [eapply lookup_weaken; [|apply Hm]; done|].
  unfold phys. by rewrite (mp_new _ _ _ _ _ _ _ _ Hm).
Qed.

Lemma alloc_mapped_frame_maps_witness :
  wpe (alloc_mapped_frame (Z.to_nat (2 ^ 52)) root 0x3000 USER_DATA) two_frames
    (fun v s' => exists m' frames, Z.of_nat (length frames) = 3 /\ NoDup frames /\
       forall k q, frames !! k = Some q -> phys none m' root (v + Z.of_nat k * 0x1000) = Some q)
    (fun _ _ => True).
Proof.
  eapply wpe_mono; [eapply (alloc_mapped_frame_maps none 0x408000 _ free (Z.to_nat (2 ^ 52)) root 0x3000 USER_DATA)| |].
  - by apply two_frames_pinv.
  - done.
  - done.
  - done.
  - done.
  - done.
  - intros v _. apply none_clear.
  - rewrite Z2Nat.id by done. vm_compute. discriminate.
  - intros v s' (_ & _ & _ & m' & T' & fr & _ & _ & Hl & Hnd & _ & Hm & _). exists m', fr.
    split_conj; [done|done|]. intros k q Hk. by apply (Hm k q).
  - done.
Defined.

Lemma free_mapped_frame_unmaps_witness :
  wp (free_mapped_frame (E:=Empty_set) root first_page (1 * 0x1000)) one_page (fun _ s' =>
    exists m' T', pinv none 0x408000 (PML4 two_frames) free s' m' T' /\
      phys none m' root first_page = None /\ T' !! page = None).
Proof.
  destruct one_page_pinv as (m & T & I & HR & Hph).
  eapply wp_mono; [apply (free_mapped_frame_unmaps none 0x408000 _ free root first_page 1 one_page m T I HR)|].
  - done.
  - done.
  - intros k Hk. replace k with 0 by lia. exists page. split; [exact Hph|apply not_elem_of_empty].
  - intros _ s' (m' & T' & I' & _ & _ & Hgone & _). exists m', T'. split; [exact I'|]. exact (Hgone 0 page ltac:(lia) Hph).
Defined.

Lemma address_space_write_read_witness :
  wpe (write_page_table_memory root first_page [1; 2; 3];; read_page_table_memory root first_page 3) one_page
    (fun bs _ => bs = [1; 2; 3]) (fun _ _ => False).
Proof.
  destruct one_page_pinv as (m & T & I & HR & Hph).
  eapply wpe_mono; [apply (address_space_write_read none 0x408000 _ free root T HR first_page [1; 2; 3] one_page m I)| |].
  - done.
  - done.
  - done.
  - intros k _. apply none_clear.
  - intros k x _ _. apply not_elem_of_empty.
  - intros bs s' [Hbs _]. exact Hbs.
  - intros e s' (_ & (k & Hk & Hno) & _). cbn [length Z.of_nat Pos.of_succ_nat Pos.succ] in Hk.
    rewrite (phys_next none root m first_page page k) in Hno; [done|done|lia|].
    change (first_page `mod` 0x1000) with 0. lia.
Defined.

(** The next [n] frames. *)
Fixpoint next_frames (n : nat) : M Machine Empty_set (list (option Z)) :=
  match n with
  | O => mret []
  | S n => a ← alloc_frame; l ← next_frames n; mret (a :: l)
  end.

(** [release_user_page_table] on an address space with one page mapped
    gives back the root and the three tables under it and not the page: the
    walk starts one level too low and takes the page table for the page. The
    next four frames are those tables, then the allocator goes on to memory
    that was never used; the page's frame is lost. *)
Theorem release_user_page_table_leaks :
  let after_release := snd (release_user_page_table (E:=Empty_set) root one_page) in
  phys none (ram one_page) root first_page = Some page /\
  fst (release_user_page_table (E:=Empty_set) root one_page) = Ok tt /\
  fst (next_frames 5 after_release) =
    Ok [Some root; Some 0x40a000; Some 0x40b000; Some 0x40c000; Some 0x40d000] /\
  first_alloc_address one_page = Some 0x40d000.
Proof. cbv zeta. split_conj; vm_compute; reflexivity. Qed.

End PageDemo.
