(* ===== verification/Heap.v ===== *)
(** * The heap (library/heap/src/lib.rs)

    [RustHeap] takes pages from a [MemoryPageProvider] and cuts them into
    blocks of nine sizes. A page starts with a [HeapNodeHead]; its free blocks
    form a list whose links are in the blocks themselves, and the pages of one
    size that have a free block form a doubly linked list whose head is in the
    bucket of the size. A request too large for any size gets pages of its own.

    Memory is accessed in words of eight bytes. It belongs to the state of the
    provider, which decides what memory there is: an access to an address
    without memory ends the program. *)
From S2P Require Import Prelude.

(** [unsafe trait MemoryPageProvider], with the memory behind it. *)
Class MemoryPageProvider (P : Type) : Type := {
  allocate_pages : Z -> M P Empty_set (option Z);
  deallocate_pages : Z -> Z -> M P Empty_set unit;
  peek : Z -> P -> option Z;
  poke : Z -> Z -> P -> option P;
}.

(** [core::alloc::Layout] *)
Record Layout : Type := mkLayout { layout_size : Z; layout_align : Z }.

Definition HEAP_SIZE_CLASSES : list Z := [8; 16; 32; 64; 128; 256; 512; 1024; 2048].

(** [size_of::<HeapNodeHead>()] *)
Definition HEAD_SIZE : Z := 32.

Definition free_count (size : Z) : Z := (0x1000 - HEAD_SIZE) / size.

Definition HEAP_FREE_COUNT : list Z := free_count <$> HEAP_SIZE_CLASSES.

(** The fields of [HeapNodeHead], and [next] of [NodeFreeBody]. *)
Definition head_prev (p : Z) : Z := p.
Definition head_next (p : Z) : Z := p + 8.
Definition head_free_ptr (p : Z) : Z := p + 16.
Definition head_free_count (p : Z) : Z := p + 24.
Definition body_next (b : Z) : Z := b.

Record RustHeap (P : Type) : Type := mkHeap { bucket : list Z; provider : P }.
Arguments mkHeap {P} _ _.
Arguments bucket {P} _.
Arguments provider {P} _.

(** [slice::binary_search] on a slice without duplicates: the index of the
    value, or the index where it would go. *)
Definition binary_search (l : list Z) (x : Z) : nat + nat :=
  let i := length (filter (fun c => c < x) l) in
  if decide (l !! i = Some x) then inl i else inr i.

Definition effective (layout : Layout) : Z := Z.max (layout_align layout) (layout_size layout).

Definition get_bucket_index_by_layout (layout : Layout) : nat :=
  match binary_search HEAP_SIZE_CLASSES (effective layout) with
  | inl bucket => bucket
  | inr bucket => bucket
  end.

Section heap.
  Context {P : Type} {HP : MemoryPageProvider P}.
  Notation H := (M (RustHeap P) Empty_set).

Definition set_bucket (b : list Z) (h : RustHeap P) : RustHeap P := mkHeap b (provider h).
Definition set_provider (p : P) (h : RustHeap P) : RustHeap P := mkHeap (bucket h) p.

(** [self.provider.f(..)] *)
Definition with_provider {A} (m : M P Empty_set A) : H A := zoom provider set_provider m.

(** Access to a word of memory. *)
Definition read_word (a : Z) : H Z :=
  v ← gets (fun h => peek a (provider h));
  match v with Some v => mret v | None => panic end.

Definition write_word (a v : Z) : H unit :=
  p ← gets (fun h => poke a v (provider h));
  match p with Some p => modify (set_provider p) | None => panic end.

(** [self.bucket[index]], an access beyond the array panics. *)
Definition get_bucket (index : nat) : H Z :=
  b ← gets (fun h => bucket h !! index);
  match b with Some b => mret b | None => panic end.

Definition put_bucket (index : nat) (v : Z) : H unit :=
  modify (fun h => set_bucket (<[index := v]> (bucket h)) h).

Definition new (provider : P) : RustHeap P := mkHeap (replicate 9 0) provider.

(** The bytes of pages for a layout that has pages of its own. *)
Definition pages_size (layout : Layout) : H Z :=
  let size := effective layout in
  if negb (Z.land size 0xFFF =? 0) then checked 64 (Z.land size (Z.lnot 0xFFF) + 0x1000)
  else mret size.

(** The [while] loop that puts the blocks of a new page on its free list. *)
Fixpoint fill_page (fuel : nat) (new_page size free_ptr : Z) : H unit :=
  match fuel with
  | O => diverge
  | S fuel =>
      if free_ptr <? new_page + 0x1000 then
        f ← read_word (head_free_ptr new_page);
        write_word (body_next free_ptr) f;;
        write_word (head_free_ptr new_page) free_ptr;;
        free_ptr ← checked 64 (free_ptr + size);
        fill_page fuel new_page size free_ptr
      else mret tt
  end.

(** A page for a bucket that is empty; false when there is none. *)
Definition refill (index : nat) (size count : Z) : H bool :=
  b ← get_bucket index;
  if b =? 0 then
    page ← with_provider (allocate_pages 0x1000);
    match page with
    | None => mret false
    | Some new_page =>
        write_word (head_prev new_page) 0;;
        next ← get_bucket index;
        write_word (head_next new_page) next;;
        put_bucket index new_page;;
        write_word (head_free_ptr new_page) 0;;
        write_word (head_free_count new_page) count;;
        free_ptr ← checked 64 (new_page + Z.max size HEAD_SIZE);
        fill_page 513 new_page size free_ptr;;
        mret true
    end
  else mret true.

(** The first free block of the first page of the bucket. *)
Definition take_block (index : nat) : H Z :=
  page ← get_bucket index;
  ptr ← read_word (head_free_ptr page);
  next ← read_word (body_next ptr);
  write_word (head_free_ptr page) next;;
  count ← read_word (head_free_count page);
  count ← checked 64 (count - 1);
  write_word (head_free_count page) count;;
  count ← read_word (head_free_count page);
  (if count =? 0 then
     next ← read_word (head_next page);
     put_bucket index next;;
     b ← get_bucket index;
     if negb (b =? 0) then write_word (head_prev b) 0 else mret tt
   else mret tt);;
  mret ptr.

(** The null pointer is 0. *)
Definition allocate (layout : Layout) : H Z :=
  let index := get_bucket_index_by_layout layout in
  match HEAP_SIZE_CLASSES !! index, HEAP_FREE_COUNT !! index with
  | Some size, Some count =>
      ok ← refill index size count;
      if (ok : bool) then take_block index else mret 0
  | _, _ =>
      size ← pages_size layout;
      p ← with_provider (allocate_pages size);
      mret (default 0 p)
  end.

(** A block goes to the front of its page's free list; a page that had none
    goes to the front of the bucket. *)
Definition give_block (index : nat) (head ptr : Z) : H unit :=
  f ← read_word (head_free_ptr head);
  write_word (body_next ptr) f;;
  write_word (head_free_ptr head) ptr;;
  count ← read_word (head_free_count head);
  count ← checked 64 (count + 1);
  write_word (head_free_count head) count;;
  count ← read_word (head_free_count head);
  if count =? 1 then
    b ← get_bucket index;
    (if negb (b =? 0) then write_word (head_prev b) head else mret tt);;
    b ← get_bucket index;
    write_word (head_next head) b;;
    write_word (head_prev head) 0;;
    put_bucket index head
  else mret tt.

(** A page whose blocks are all free leaves the bucket and goes back. *)
Definition give_page (index : nat) (head full : Z) : H unit :=
  count ← read_word (head_free_count head);
  if count =? full then
    prev ← read_word (head_prev head);
    (if prev =? 0 then
       next ← read_word (head_next head);
       put_bucket index next;;
       b ← get_bucket index;
       if negb (b =? 0) then
         next ← read_word (head_next head);
         write_word (head_prev next) 0
       else mret tt
     else
       prev ← read_word (head_prev head);
       next ← read_word (head_next head);
       write_word (head_next prev) next;;
       next ← read_word (head_next head);
       if negb (next =? 0) then
         next ← read_word (head_next head);
         prev ← read_word (head_prev head);
         write_word (head_prev next) prev
       else mret tt);;
    with_provider (deallocate_pages head 0x1000)
  else mret tt.

Definition deallocate (ptr : Z) (layout : Layout) : H unit :=
  if Z.land ptr 0xFFF =? 0 then
    size ← pages_size layout;
    with_provider (deallocate_pages ptr size)
  else
    let head := Z.land ptr (Z.lnot 0xFFF) in
    let index := get_bucket_index_by_layout layout in
    give_block index head ptr;;
    match HEAP_FREE_COUNT !! index with
    | Some full => give_page index head full
    | None => panic
    end.

End heap.
