(* ===== verification/HeapSpec.v ===== *)
(** * The heap: blocks and pages

    What the heap promises to its clients, on top of what a provider of pages
    promises to the heap ([ProviderLaws]): blocks are aligned and disjoint,
    no operation changes what another block holds, the memory accessed is that
    of the pages in use, and a page goes back when its last block is freed. *)
From stdpp Require Import functions.
From S2P Require Import Prelude Heap.

(** ** The interface of a provider

    [out]: the ranges of pages handed out, by their start. *)
Definition inside (out : gmap Z Z) (x : Z) : Prop := exists a n, out !! a = Some n /\ a <= x < a + n.

(** The words of the ranges are the same. *)
Definition same_words {P} {HP : MemoryPageProvider P} (out : gmap Z Z) (s s' : P) : Prop :=
  forall x, inside out x -> x `mod` 8 = 0 -> peek x s' = peek x s.

Class ProviderLaws (P : Type) {HP : MemoryPageProvider P} : Type := {
  p_inv : P -> gmap Z Z -> Prop;
  p_max : Z;
  p_max_ok : 0x1000 <= p_max <= 2 ^ 63 /\ p_max `mod` 0x1000 = 0;
  p_range : forall s out a n, p_inv s out -> out !! a = Some n ->
    0 < a /\ a `mod` 0x1000 = 0 /\ 0 < n /\ n `mod` 0x1000 = 0 /\ a + n < 2 ^ 64;
  p_disjoint : forall s out a n b k, p_inv s out -> out !! a = Some n -> out !! b = Some k -> a <> b ->
    a + n <= b \/ b + k <= a;
  p_peek : forall s out x, p_inv s out -> inside out x -> x `mod` 8 = 0 -> is_Some (peek x s);
  p_poke : forall s out x v, p_inv s out -> inside out x -> x `mod` 8 = 0 -> 0 <= v < 2 ^ 64 ->
    exists s', poke x v s = Some s' /\ p_inv s' out /\
      forall y, inside out y -> y `mod` 8 = 0 -> peek y s' = if decide (y = x) then Some v else peek y s;
  p_allocate : forall s out size, p_inv s out -> 0 < size <= p_max -> size `mod` 0x1000 = 0 ->
    wp (allocate_pages size) s (fun r s' => same_words out s s' /\
      match r with
      | Some a => out !! a = None /\ p_inv s' (<[a := size]> out)
      | None => p_inv s' out
      end);
  p_deallocate : forall s out a n, p_inv s out -> out !! a = Some n ->
    wp (deallocate_pages a n) s (fun _ s' => same_words (delete a out) s s' /\ p_inv s' (delete a out));
}.

Lemma wp_bind_assoc {S E A B C} (m : M S E A) (k : A -> M S E B) (g : B -> M S E C) s Q :
  wp ((m ≫= k) ≫= g) s Q -> wp (m ≫= fun a => k a ≫= g) s Q.
Proof. unfold wp, mbind, M_bind. by destruct (m s) as [[]]. Qed.

(** ** Classes and slots *)

Definition class (layout : Layout) : nat := get_bucket_index_by_layout layout.
Definition c_size (i : nat) : Z := HEAP_SIZE_CLASSES !!! i.
Definition c_count (i : nat) : Z := HEAP_FREE_COUNT !!! i.
Definition c_start (i : nat) : Z := Z.max (c_size i) HEAD_SIZE.
Definition round_up (n : Z) : Z := (n + 0xFFF) / 0x1000 * 0x1000.

(** The bytes a block of the layout takes. *)
Definition span (layout : Layout) : Z :=
  if decide (class layout < 9)%nat then c_size (class layout) else round_up (effective layout).

Lemma class_cases (Q : nat -> Prop) :
  Q 0%nat -> Q 1%nat -> Q 2%nat -> Q 3%nat -> Q 4%nat -> Q 5%nat -> Q 6%nat -> Q 7%nat -> Q 8%nat ->
  forall i, (i < 9)%nat -> Q i.
Proof. intros. do 9 (destruct i as [|i]; [done|]). lia. Qed.

Lemma class_facts i :
  (i < 9)%nat ->
  HEAP_SIZE_CLASSES !! i = Some (c_size i) /\ HEAP_FREE_COUNT !! i = Some (c_count i) /\
  8 <= c_size i <= 2048 /\ c_size i `mod` 8 = 0 /\ 1 <= c_count i <= 508 /\
  32 <= c_start i /\ c_start i `mod` c_size i = 0 /\ c_start i + c_count i * c_size i = 0x1000.
Proof. revert i. apply class_cases; vm_compute; split_conj; done || discriminate. Qed.

Definition slots (p : Z) (i : nat) : list Z :=
  (fun k => p + c_start i + k * c_size i) <$> seqZ 0 (c_count i).

Lemma elem_of_slots p i b :
  b ∈ slots p i <-> exists k, 0 <= k < c_count i /\ b = p + c_start i + k * c_size i.
Proof.
  unfold slots. rewrite list_elem_of_fmap. split.
  - intros (k & -> & Hk%elem_of_seqZ). exists k. split; [lia|done].
  - intros (k & Hk & ->). exists k. split; [done|]. apply elem_of_seqZ. lia.
Qed.

Lemma slot_bounds p i b :
  (i < 9)%nat -> p `mod` 0x1000 = 0 -> b ∈ slots p i ->
  p + 32 <= b /\ b + c_size i <= p + 0x1000 /\ b `mod` c_size i = 0 /\ b `mod` 8 = 0.
Proof.
  intros Hi Hp (k & Hk & ->)%elem_of_slots.
  destruct (class_facts i Hi) as (_ & _ & Hc & H8 & _ & H32 & Hm & Hsum).
  assert ((k + 1) * c_size i <= c_count i * c_size i) by (apply Z.mul_le_mono_nonneg_r; lia).
  assert (0 <= k * c_size i) by (apply Z.mul_nonneg_nonneg; lia).
  split_conj; [lia|lia| |].
  - rewrite Z.add_comm, Z.add_comm, Z.mod_add by lia.
    assert (c_size i | 0x1000) as Hd.
    { clear -Hi. revert i Hi. apply class_cases; apply Z.mod_divide; done. }
    apply Z.mod_divide; [lia|]. apply Z.divide_add_r; [|by apply Z.mod_divide; [lia|]].
    etrans; [done|]. by apply Z.mod_divide.
  - assert (8 | k * c_size i) as Hd by (apply Z.divide_mul_r; by apply Z.mod_divide).
    assert (8 | c_start i) as Hs.
    { clear -Hi. revert i Hi. apply class_cases; apply Z.mod_divide; done. }
    apply Z.mod_divide in Hd, Hs; lia.
Qed.

(** Slots of a page do not overlap. *)
Lemma slot_apart p i b b' :
  (i < 9)%nat -> b ∈ slots p i -> b' ∈ slots p i -> b <> b' -> b + c_size i <= b' \/ b' + c_size i <= b.
Proof.
  intros Hi (k & Hk & ->)%elem_of_slots (j & Hj & ->)%elem_of_slots Hne.
  destruct (class_facts i Hi) as (_ & _ & Hc & _).
  destruct (Z.lt_trichotomy k j) as [Hkj|[->|Hkj]]; [|lia|].
  - assert ((k + 1) * c_size i <= j * c_size i) by (apply Z.mul_le_mono_nonneg_r; lia). lia.
  - assert ((j + 1) * c_size i <= k * c_size i) by (apply Z.mul_le_mono_nonneg_r; lia). lia.
Qed.

Lemma heap_slot_inj p i k j :
  (i < 9)%nat -> p + c_start i + k * c_size i = p + c_start i + j * c_size i -> k = j.
Proof. intros Hi H. destruct (class_facts i Hi) as (_ & _ & Hc & _). apply (Z.mul_reg_r _ _ (c_size i)); lia. Qed.

Lemma NoDup_slots p i : (i < 9)%nat -> NoDup (slots p i).
Proof.
  intros Hi. unfold slots. apply NoDup_fmap_2_strong; [|apply NoDup_seqZ].
  intros k j _ _ H. by eapply heap_slot_inj.
Qed.

Lemma length_slots p i : (i < 9)%nat -> Z.of_nat (length (slots p i)) = c_count i.
Proof. intros Hi. destruct (class_facts i Hi) as (_ & _ & _ & _ & Hn & _). unfold slots. rewrite length_fmap, length_seqZ. lia. Qed.

(** As many free slots as there are slots: all are free. *)
Lemma slots_full p i l :
  (i < 9)%nat -> NoDup l -> l ⊆ slots p i ->
  Z.of_nat (length l) <= c_count i /\ (Z.of_nat (length l) = c_count i -> slots p i ⊆ l).
Proof.
  intros Hi Hnd Hsub. rewrite <-(length_slots p i) by done.
  pose proof (NoDup_submseteq l (slots p i) Hnd Hsub) as Hs.
  split; [apply submseteq_length in Hs; lia|]. intros Hlen b Hb.
  assert (l ≡ₚ slots p i) as Hp by (apply submseteq_length_Permutation; [done|lia]).
  by rewrite Hp.
Qed.

(** The page of a slot. *)
Lemma slot_page p i b :
  (i < 9)%nat -> p `mod` 0x1000 = 0 -> b ∈ slots p i -> b - b `mod` 0x1000 = p /\ b `mod` 0x1000 <> 0.
Proof.
  intros Hi Hp Hb. destruct (slot_bounds p i b Hi Hp Hb) as (H1 & H2 & _).
  destruct (class_facts i Hi) as (_ & _ & Hc & _).
  lia.
Qed.

(** ** Layouts *)

Lemma class_size layout :
  0 < effective layout ->
  if decide (class layout < 9)%nat then effective layout <= c_size (class layout)
  else 2048 < effective layout.
Proof.
  intros H. unfold class, get_bucket_index_by_layout, binary_search. set (e := effective layout) in *.
  set (i := length _). replace (match _ with inl b => b | inr b => b end) with i by (by destruct (decide _)).
  assert (Hi : length (filter (fun c => c < e) HEAP_SIZE_CLASSES) = i) by done.
  unfold HEAP_SIZE_CLASSES in Hi. rewrite !filter_cons, filter_nil in Hi. clearbody i.
  repeat match type of Hi with context [decide (?x < e)] => destruct (decide (x < e)); try lia end;
    cbn in Hi; subst i; case_decide; try lia;
    match goal with |- context [c_size ?k] => let v := eval vm_compute in (c_size k) in change (c_size k) with v end;
    lia.
Qed.

(** ** Memory *)

Section heap.
  Context {P : Type} {HP : MemoryPageProvider P} {HL : ProviderLaws P}.
  Notation heap := (RustHeap P).
  Implicit Types (h : heap) (out large : gmap Z Z) (f : Z -> Z) (blocks : gmap Z Layout)
    (pages : gmap Z (nat * list Z)) (lists : list (list Z)).

(** The heap has the pages [out], and [f] is the content of their words. *)
Definition owns h out f : Prop :=
  p_inv (provider h) out /\ forall x, inside out x -> x `mod` 8 = 0 -> peek x (provider h) = Some (f x).

Lemma read_word_spec a h out f (Q : Z -> heap -> Prop) :
  owns h out f -> inside out a -> a `mod` 8 = 0 -> Q (f a) h -> wp (read_word a) h Q.
Proof. intros [_ Hf] Ha H8 HQ. unfold read_word. wp_step. wp_step. rewrite Hf by done. by wp_step. Qed.

Lemma write_word_spec a v h out f (Q : unit -> heap -> Prop) :
  owns h out f -> inside out a -> a `mod` 8 = 0 -> 0 <= v < 2 ^ 64 ->
  (forall h', owns h' out (<[a := v]> f) -> bucket h' = bucket h -> Q tt h') -> wp (write_word a v) h Q.
Proof.
  intros [HI Hf] Ha H8 Hv HQ. unfold write_word. wp_step. wp_step.
  destruct (p_poke _ _ a v HI Ha H8 Hv) as (s' & -> & HI' & Hf'). wp_step. apply HQ; [|done].
  split; [done|]. intros x Hx Hx8. cbn [provider set_provider]. rewrite Hf' by done.
  destruct (decide (x = a)) as [->|Hne]; [by rewrite fn_lookup_insert|].
  rewrite fn_lookup_insert_ne by done. by apply Hf.
Qed.

Lemma get_bucket_spec i b h (Q : Z -> heap -> Prop) : bucket h !! i = Some b -> Q b h -> wp (get_bucket i) h Q.
Proof. intros Hb HQ. unfold get_bucket. wp_step. wp_step. rewrite Hb. by wp_step. Qed.

Lemma put_bucket_spec i b h out f (Q : unit -> heap -> Prop) :
  owns h out f -> (forall h', owns h' out f -> bucket h' = <[i := b]> (bucket h) -> Q tt h') -> wp (put_bucket i b) h Q.
Proof. intros HO HQ. unfold put_bucket. wp_step. by apply HQ. Qed.

Lemma allocate_pages_spec size h out f (Q : option Z -> heap -> Prop) :
  owns h out f -> 0 < size <= p_max -> size `mod` 0x1000 = 0 ->
  (forall a h' f', out !! a = None -> owns h' (<[a := size]> out) f' -> bucket h' = bucket h ->
     (forall x, inside out x -> x `mod` 8 = 0 -> f' x = f x) -> Q (Some a) h') ->
  (forall h', owns h' out f -> bucket h' = bucket h -> Q None h') ->
  wp (with_provider (allocate_pages size)) h Q.
Proof.
  intros [HI Hf] Hs Hm HS HN. unfold with_provider. wp_step. eapply wp_mono; [by apply p_allocate|].
  intros [a|] s' [Hsame Hr].
  - destruct Hr as [Hnew HI']. apply (HS a _ (fun x => default 0 (peek x s'))); [done| |done|].
    + split; [done|]. intros x Hx H8. cbn. destruct (p_peek _ _ x HI' Hx H8) as [v ->]. done.
    + intros x Hx H8. rewrite Hsame, Hf by done. done.
  - apply HN; [|done]. split; [done|]. intros x Hx H8. cbn. rewrite Hsame by done. by apply Hf.
Qed.

Lemma inside_delete out a x : inside (delete a out) x -> inside out x.
Proof. intros (b & n & [_ Hb]%lookup_delete_Some & Hx). by exists b, n. Qed.

Lemma deallocate_pages_spec a n h out f (Q : unit -> heap -> Prop) :
  owns h out f -> out !! a = Some n ->
  (forall h', owns h' (delete a out) f -> bucket h' = bucket h -> Q tt h') ->
  wp (with_provider (deallocate_pages a n)) h Q.
Proof.
  intros [HI Hf] Ha HQ. unfold with_provider. wp_step. eapply wp_mono; [by eapply p_deallocate|].
  intros [] s' [Hsame HI']. apply HQ; [|done]. split; [done|]. intros x Hx H8. cbn.
  rewrite Hsame by done. apply Hf; [by eapply inside_delete|done].
Qed.

(** ** Lists in memory *)

(** A free list, linked through its slots. *)
Fixpoint linked f (l : list Z) : Prop :=
  match l with
  | [] => True
  | b :: l' => f b = hd 0 l' /\ linked f l'
  end.

Lemma linked_ext f f' l : (forall b, b ∈ l -> f' b = f b) -> linked f l -> linked f' l.
Proof.
  induction l as [|b l IH]; [done|]. intros H [Hb Hl]. split.
  - rewrite H by apply list_elem_of_here. done.
  - apply IH; [|done]. intros b' Hb'. apply H. by apply list_elem_of_further.
Qed.

(** A list of pages, linked in both directions. *)
Fixpoint dll f (prev : Z) (l : list Z) : Prop :=
  match l with
  | [] => True
  | p :: l' => f (head_prev p) = prev /\ f (head_next p) = hd 0 l' /\ dll f p l'
  end.

Lemma dll_ext f f' prev l :
  (forall p, p ∈ l -> f' (head_prev p) = f (head_prev p) /\ f' (head_next p) = f (head_next p)) ->
  dll f prev l -> dll f' prev l.
Proof.
  revert prev. induction l as [|p l IH]; intros prev; [done|]. intros H (H1 & H2 & Hl).
  destruct (H p (list_elem_of_here _ _)) as [Hp Hn]. cbn [dll]. rewrite Hp, Hn. split_conj; [done|done|].
  apply IH; [|done]. intros q Hq. apply H. by apply list_elem_of_further.
Qed.

(** ** The invariant *)

Definition ranges pages large : gmap Z Z := ((fun _ => 0x1000) <$> pages) ∪ large.

(** The words of a page behind its links: its free list and its count. *)
Definition page_ok f (p : Z) (free : list Z) : Prop :=
  f (head_free_ptr p) = hd 0 free /\ f (head_free_count p) = Z.of_nat (length free) /\ linked f free.

(** Which slots are free, which are blocks, and what blocks have pages of
    their own. *)
Record shape pages large blocks : Prop := {
  sh_disjoint : forall p, is_Some (pages !! p) -> large !! p = None;
  sh_page : forall p i free, pages !! p = Some (i, free) -> (i < 9)%nat /\ NoDup free /\ free ⊆ slots p i;
  sh_block : forall b lay, blocks !! b = Some lay ->
    if decide (class lay < 9)%nat then
      exists p free, pages !! p = Some (class lay, free) /\ b ∈ slots p (class lay) /\ b ∉ free
    else large !! b = Some (round_up (effective lay));
  sh_slot : forall p i free b, pages !! p = Some (i, free) -> b ∈ slots p i -> b ∈ free \/ is_Some (blocks !! b);
  sh_large : forall b n, large !! b = Some n ->
    exists lay, blocks !! b = Some lay /\ (9 <= class lay)%nat /\ n = round_up (effective lay);
}.

Definition lists_ok f pages lists : Prop :=
  length lists = 9%nat /\
  forall i l, lists !! i = Some l -> NoDup l /\ dll f 0 l /\ forall p, p ∈ l -> exists free, pages !! p = Some (i, free).

(** Every page with a free slot is in the list of its class, no other is. *)
Definition listed pages lists : Prop :=
  forall p i free l, pages !! p = Some (i, free) -> lists !! i = Some l -> (p ∈ l <-> free <> []).

(** Every page has a block in use. *)
Definition in_use pages : Prop :=
  forall p i free, pages !! p = Some (i, free) -> Z.of_nat (length free) < c_count i.

Record core h f pages large blocks lists : Prop := {
  co_mem : owns h (ranges pages large) f;
  co_shape : shape pages large blocks;
  co_pages : forall p i free, pages !! p = Some (i, free) -> page_ok f p free;
  co_lists : lists_ok f pages lists;
  co_bucket : bucket h = hd 0 <$> lists;
}.

(** The invariant between two operations, for the blocks in use. *)
Definition heap_inv h f blocks : Prop :=
  exists pages large lists, core h f pages large blocks lists /\ listed pages lists /\ in_use pages.

(** The words of the blocks are the same. *)
Definition keeps blocks f f' : Prop :=
  forall b lay x, blocks !! b = Some lay -> b <= x < b + span lay -> x `mod` 8 = 0 -> f' x = f x.

(** ** Where things are *)

Lemma ranges_page pages large p pg : pages !! p = Some pg -> ranges pages large !! p = Some 0x1000.
Proof. intros Hp. apply lookup_union_Some_l. by rewrite lookup_fmap, Hp. Qed.

Lemma ranges_large pages large blocks b n :
  shape pages large blocks -> large !! b = Some n -> ranges pages large !! b = Some n /\ pages !! b = None.
Proof.
  intros Hs Hb. assert (pages !! b = None) as Hp.
  { destruct (pages !! b) eqn:He; [|done]. rewrite (sh_disjoint _ _ _ Hs) in Hb; [done|by eexists]. }
  split; [|done]. unfold ranges. rewrite lookup_union_r; [done|]. by rewrite lookup_fmap, Hp.
Qed.

Lemma ranges_update pages large p pg pg' :
  pages !! p = Some pg -> ranges (<[p := pg']> pages) large = ranges pages large.
Proof.
  intros Hp. unfold ranges. rewrite fmap_insert. f_equal. apply insert_id. by rewrite lookup_fmap, Hp.
Qed.

Definition aligned pages : Prop :=
  forall p, is_Some (pages !! p) -> 0 < p /\ p `mod` 0x1000 = 0 /\ p + 0x1000 < 2 ^ 64.

Lemma owns_aligned h f pages large : owns h (ranges pages large) f -> aligned pages.
Proof.
  intros [HI _] p [pg Hp]. pose proof (p_range _ _ p 0x1000 HI (ranges_page _ _ _ _ Hp)). lia.
Qed.

Lemma inside_page pages large p x : is_Some (pages !! p) -> p <= x < p + 0x1000 -> inside (ranges pages large) x.
Proof. intros [pg Hp] Hx. exists p, 0x1000. split; [by eapply ranges_page|done]. Qed.

(** The words of links: none of them is in the rest of a page. *)
Lemma page_ok_ext f f' p i free :
  (i < 9)%nat -> p `mod` 0x1000 = 0 -> free ⊆ slots p i ->
  (forall x, p + 16 <= x < p + 0x1000 -> x `mod` 8 = 0 -> f' x = f x) -> page_ok f p free -> page_ok f' p free.
Proof.
  intros Hi Hp Hsub Hf (H1 & H2 & H3). unfold page_ok, head_free_ptr, head_free_count in *.
  rewrite !Hf by lia. split_conj; [done|done|]. eapply linked_ext; [|done].
  intros b Hb. destruct (slot_bounds p i b Hi Hp (Hsub b Hb)) as (? & ? & _ & ?).
  destruct (class_facts i Hi) as (_ & _ & Hc & _). apply Hf; [lia|done].
Qed.

(** A block is away from the free slots and the heads of pages. *)
Lemma block_avoids pages large blocks h f p i free x b lay :
  shape pages large blocks -> owns h (ranges pages large) f ->
  pages !! p = Some (i, free) -> p <= x < p + 0x1000 ->
  (forall b', b' ∈ slots p i -> b' <= x < b' + c_size i -> b' ∈ free) ->
  blocks !! b = Some lay -> ~ b <= x < b + span lay.
Proof.
  intros Hs HO Hp Hx Hfree Hb Hin. pose proof (owns_aligned _ _ _ _ HO) as Hal.
  pose proof (Hal p ltac:(by eexists)) as (Hp0 & Hpm & _).
  pose proof (sh_block _ _ _ Hs b lay Hb) as H. unfold span in Hin. case_decide as Hc.
  - destruct H as (q & fr & Hq & Hbq & Hnf). pose proof (Hal q ltac:(by eexists)) as (Hq0 & Hqm & _).
    destruct (slot_bounds q _ b Hc Hqm Hbq) as (H1 & H2 & _).
    assert (p = q) as -> by lia. rewrite Hp in Hq. injection Hq as -> ->. by apply Hnf, Hfree.
  - destruct HO as [HI _]. destruct (ranges_large _ _ _ _ _ Hs H) as [Hr Hn].
    destruct (p_disjoint _ _ p 0x1000 b _ HI (ranges_page _ _ _ _ Hp) Hr); [congruence|lia|lia].
Qed.

Lemma keeps_trans blocks f f' f'' : keeps blocks f f' -> keeps blocks f' f'' -> keeps blocks f f''.
Proof. intros H1 H2 b lay x Hb Hx H8. rewrite (H2 b lay), (H1 b lay); done. Qed.

Lemma keeps_head h f f0 pages large blocks p x v :
  shape pages large blocks -> owns h (ranges pages large) f -> is_Some (pages !! p) -> p <= x < p + 32 ->
  keeps blocks f0 (<[x := v]> f0).
Proof.
  intros Hs HO [[i free] Hp] Hx b lay y Hb Hy _. apply fn_lookup_insert_ne. intros ->.
  pose proof (owns_aligned _ _ _ _ HO p ltac:(by eexists)) as (Hp0 & Hpm & _).
  destruct (sh_page _ _ _ Hs p i free Hp) as (Hi & _ & _).
  revert Hy. eapply (block_avoids pages large blocks h f p i free); try done; [lia|].
  intros b' Hb' Hin. destruct (slot_bounds p i b' Hi Hpm Hb') as (? & ? & _). lia.
Qed.

Lemma keeps_free h f f0 pages large blocks p i free x v :
  shape pages large blocks -> owns h (ranges pages large) f -> pages !! p = Some (i, free) -> x ∈ free ->
  keeps blocks f0 (<[x := v]> f0).
Proof.
  intros Hs HO Hp Hx b lay y Hb Hy _. apply fn_lookup_insert_ne. intros ->.
  pose proof (owns_aligned _ _ _ _ HO p ltac:(by eexists)) as (Hp0 & Hpm & _).
  destruct (sh_page _ _ _ Hs p i free Hp) as (Hi & _ & Hsub).
  destruct (slot_bounds p i y Hi Hpm (Hsub y Hx)) as (? & ? & _). destruct (class_facts i Hi) as (_ & _ & Hc & _).
  revert Hy. eapply (block_avoids pages large blocks h f p i free); try done; [lia|].
  intros b' Hb' Hin. destruct (decide (b' = y)) as [->|Hne]; [done|].
  destruct (slot_apart p i b' y Hi Hb' (Hsub y Hx) Hne); lia.
Qed.

(** Words written behind the links of pages, and among the links of one. *)
Lemma dll_body f pages i l p x v prev :
  aligned pages -> (forall q, q ∈ l -> exists free, pages !! q = Some (i, free)) -> is_Some (pages !! p) ->
  p + 16 <= x < p + 0x1000 -> dll f prev l -> dll (<[x := v]> f) prev l.
Proof.
  intros Hal Hl Hp Hx. apply dll_ext. intros q Hq. destruct (Hl q Hq) as [free Hfree].
  pose proof (Hal p Hp). pose proof (Hal q ltac:(by eexists)). unfold head_prev, head_next.
  rewrite !fn_lookup_insert_ne by lia. done.
Qed.

Lemma dll_link f pages i l p x v prev :
  aligned pages -> (forall q, q ∈ l -> exists free, pages !! q = Some (i, free)) -> is_Some (pages !! p) ->
  p ∉ l -> p <= x < p + 16 -> dll f prev l -> dll (<[x := v]> f) prev l.
Proof.
  intros Hal Hl Hp Hnot Hx. apply dll_ext. intros q Hq. destruct (Hl q Hq) as [free Hfree].
  pose proof (Hal p Hp). pose proof (Hal q ltac:(by eexists)). unfold head_prev, head_next.
  assert (q <> p) by congruence. rewrite !fn_lookup_insert_ne by lia. done.
Qed.

(** ** Changes of one page *)

(** The free list of a page becomes another one. *)
Lemma core_page h h' f f' pages large blocks blocks' lists p i free free' :
  core h f pages large blocks lists -> pages !! p = Some (i, free) ->
  owns h' (ranges pages large) f' -> bucket h' = bucket h ->
  (forall x, ~ p + 16 <= x < p + 0x1000 -> f' x = f x) -> page_ok f' p free' ->
  shape (<[p := (i, free')]> pages) large blocks' ->
  core h' f' (<[p := (i, free')]> pages) large blocks' lists.
Proof.
  intros [HO Hs Hp [Hlen Hl] Hb] Hpi HO' Hbu Hf Hok Hs'. pose proof (owns_aligned _ _ _ _ HO) as Hal.
  pose proof (Hal p ltac:(by eexists)) as Hpa. split.
  - by erewrite ranges_update.
  - done.
  - intros q j fr [[<- [= <- <-]]|[Hne Hq]]%lookup_insert_Some; [done|].
    pose proof (Hal q ltac:(by eexists)) as Hqa. destruct (sh_page _ _ _ Hs q j fr Hq) as (Hj & _ & Hsub).
    eapply page_ok_ext; [done|lia|done| |by apply (Hp q j)]. intros x Hx _. apply Hf. lia.
  - split; [done|]. intros j l Hj. destruct (Hl j l Hj) as (Hnd & Hd & Hin). split_conj; [done| |].
    + eapply dll_ext; [|done]. intros q Hq. destruct (Hin q Hq) as [fr Hfr].
      pose proof (Hal q ltac:(by eexists)) as Hqa. unfold head_prev, head_next. rewrite !Hf by lia. done.
    + intros q Hq. destruct (Hin q Hq) as [fr Hfr]. destruct (decide (q = p)) as [->|Hne].
      * rewrite Hpi in Hfr. injection Hfr as <- <-. exists free'. by rewrite lookup_insert_eq.
      * exists fr. by rewrite lookup_insert_ne.
  - congruence.
Qed.

(** The lists of pages become others. *)
Lemma core_links h h' f f' pages large blocks lists lists' :
  core h f pages large blocks lists -> owns h' (ranges pages large) f' ->
  (forall x, (forall p, is_Some (pages !! p) -> ~ p <= x < p + 16) -> f' x = f x) ->
  lists_ok f' pages lists' -> bucket h' = hd 0 <$> lists' -> core h' f' pages large blocks lists'.
Proof.
  intros [HO Hs Hp Hl Hb] HO' Hf Hl' Hb'. pose proof (owns_aligned _ _ _ _ HO) as Hal. split; try done.
  intros p i free Hpi. destruct (sh_page _ _ _ Hs p i free Hpi) as (Hi & _ & Hsub).
  pose proof (Hal p ltac:(by eexists)) as Hpa. eapply page_ok_ext; [done|lia|done| |by apply (Hp p i)].
  intros x Hx _. apply Hf. intros q Hq Hin. pose proof (Hal q Hq). assert (p = q) by lia. lia.
Qed.

(** A slot leaves the free list and becomes a block. *)
Lemma shape_take pages large blocks p i b free lay :
  shape pages large blocks -> aligned pages -> pages !! p = Some (i, b :: free) -> class lay = i ->
  blocks !! b = None -> shape (<[p := (i, free)]> pages) large (<[b := lay]> blocks).
Proof.
  intros Hs Hal Hp Hc Hnb. destruct (sh_page _ _ _ Hs p i _ Hp) as (Hi & [Hbf Hnd]%NoDup_cons & Hsub).
  assert (Hsub' : free ⊆ slots p i) by (intros x Hx; apply Hsub; by apply list_elem_of_further).
  assert (Hbs : b ∈ slots p i) by (apply Hsub, list_elem_of_here).
  split.
  - intros q Hq. apply (sh_disjoint _ _ _ Hs). destruct (decide (p = q)) as [->|Hne]; [by eexists|].
    by rewrite lookup_insert_ne in Hq.
  - intros q j fr [[<- [= <- <-]]|[Hne Hq]]%lookup_insert_Some; [done|by apply (sh_page _ _ _ Hs)].
  - intros b' lay' [[<- <-]|[Hne Hb']]%lookup_insert_Some.
    + rewrite Hc, decide_True by done. exists p, free. by rewrite lookup_insert_eq.
    + pose proof (sh_block _ _ _ Hs b' lay' Hb') as H. case_decide as Hlt; [|done].
      destruct H as (q & fr & Hq & Hbq & Hnf). destruct (decide (p = q)) as [->|Hpq].
      * rewrite Hp in Hq. injection Hq as Hci <-. exists q, free. rewrite lookup_insert_eq, Hci.
        split_conj; [done|done|]. intros Hin. by apply Hnf, list_elem_of_further.
      * exists q, fr. by rewrite lookup_insert_ne.
  - intros q j fr b' [[<- [= <- <-]]|[Hne Hq]]%lookup_insert_Some Hb'.
    + destruct (sh_slot _ _ _ Hs p i _ b' Hp Hb') as [[->|Hin]%elem_of_cons|Hblk].
      * right. by rewrite lookup_insert_eq.
      * by left.
      * right. rewrite lookup_insert_is_Some'. by right.
    + destruct (sh_slot _ _ _ Hs q j fr b' Hq Hb') as [Hin|Hblk]; [by left|].
      right. rewrite lookup_insert_is_Some'. by right.
  - intros b' n Hb'. destruct (sh_large _ _ _ Hs b' n Hb') as (lay' & Hl & H9 & Hn).
    exists lay'. split_conj; [|done|done]. rewrite lookup_insert_ne; [done|]. congruence.
Qed.

(** A block in a page of its own is aligned to pages, a slot is not. *)
Lemma large_aligned h f pages large blocks b n :
  shape pages large blocks -> owns h (ranges pages large) f -> large !! b = Some n ->
  0 < b /\ b `mod` 0x1000 = 0 /\ 0 < n /\ n `mod` 0x1000 = 0 /\ b + n < 2 ^ 64.
Proof. intros Hs [HI _] Hb. eapply p_range; [done|]. by eapply ranges_large. Qed.

Lemma free_not_block h f pages large blocks p i free b :
  shape pages large blocks -> owns h (ranges pages large) f -> pages !! p = Some (i, free) -> b ∈ free ->
  blocks !! b = None.
Proof.
  intros Hs HO Hp Hb. destruct (blocks !! b) as [lay|] eqn:Hlay; [|done]. exfalso.
  pose proof (owns_aligned _ _ _ _ HO) as Hal.
  destruct (sh_page _ _ _ Hs p i _ Hp) as (Hi & _ & Hsub).
  pose proof (Hal p ltac:(by eexists)) as (_ & Hpm & _).
  destruct (slot_page p i b Hi Hpm (Hsub b Hb)) as [Hpage Hoff].
  pose proof (sh_block _ _ _ Hs b lay Hlay) as H. case_decide as Hlt.
  - destruct H as (q & fr & Hq & Hbq & Hnf). pose proof (Hal q ltac:(by eexists)) as (_ & Hqm & _).
    destruct (slot_page q _ b Hlt Hqm Hbq) as [Hpage' _].
    assert (p = q) as -> by lia. rewrite Hp in Hq. injection Hq as _ ->. done.
  - apply (large_aligned h f pages large blocks) in H; [lia|done|done].
Qed.

(** ** Changes of a list of pages *)

Definition paged (l : list Z) : Prop := NoDup l /\ forall p, p ∈ l -> p `mod` 0x1000 = 0.

Lemma paged_cons p l : paged (p :: l) <-> p ∉ l /\ p `mod` 0x1000 = 0 /\ paged l.
Proof.
  unfold paged. rewrite NoDup_cons. split.
  - intros ([H1 H2] & H3). split_conj; [done|apply H3, list_elem_of_here|done|].
    intros q Hq. apply H3. by apply list_elem_of_further.
  - intros (H1 & H2 & H3 & H4). split; [done|]. intros q [->|Hq]%elem_of_cons; auto.
Qed.

Lemma list_paged f pages lists i l :
  aligned pages -> lists_ok f pages lists -> lists !! i = Some l -> paged l.
Proof.
  intros Hal [_ Hl] Hi. destruct (Hl i l Hi) as (Hnd & _ & Hin). split; [done|].
  intros p Hp. destruct (Hin p Hp) as [free Hfree]. apply (Hal p). by eexists.
Qed.

(** A word of a page that is not in the list. *)
Lemma dll_other f prev l p x v :
  paged l -> p ∉ l -> p `mod` 0x1000 = 0 -> p <= x < p + 16 -> dll f prev l -> dll (<[x := v]> f) prev l.
Proof.
  intros [_ Hl] Hp Hpm Hx. apply dll_ext. intros q Hq. pose proof (Hl q Hq). assert (q <> p) by congruence.
  unfold head_prev, head_next. rewrite !fn_lookup_insert_ne by lia. done.
Qed.

(** The link back of the first page of a list. *)
Definition set_back (v : Z) (l : list Z) f : Z -> Z :=
  match l with [] => f | q :: _ => <[head_prev q := v]> f end.

Lemma dll_set_back f prev v l : paged l -> dll f prev l -> dll (set_back v l f) v l.
Proof.
  destruct l as [|q l]; [done|]. intros (Hq & Hqm & Hl)%paged_cons (_ & Hn & Hd). cbn [set_back dll].
  split_conj.
  - apply fn_lookup_insert.
  - rewrite fn_lookup_insert_ne; [done|]. unfold head_prev, head_next. lia.
  - apply (dll_other _ _ _ q); try done. unfold head_prev. lia.
Qed.

Lemma dll_unlink f prev l1 a p l2 :
  paged (l1 ++ a :: p :: l2) -> dll f prev (l1 ++ a :: p :: l2) ->
  dll (set_back a l2 (<[head_next a := hd 0 l2]> f)) prev (l1 ++ a :: l2).
Proof.
  revert prev. induction l1 as [|b l1 IH]; intros prev; cbn [app].
  - intros (Ha & Ham & (Hp & Hpm & Hl2)%paged_cons)%paged_cons (H1 & H2 & H3 & H4 & H5).
    assert (Ha2 : a ∉ l2) by (intros H; apply Ha; by apply list_elem_of_further). cbn [dll].
    assert (Hsb : forall x, a <= x < a + 16 -> set_back a l2 (<[head_next a := hd 0 l2]> f) x =
      <[head_next a := hd 0 l2]> f x).
    { intros x Hx. destruct l2 as [|q l2]; [done|]. cbn [set_back]. apply fn_lookup_insert_ne.
      apply paged_cons in Hl2 as (_ & Hqm & _). assert (q <> a) by (intros ->; apply Ha2, list_elem_of_here).
      unfold head_prev. lia. }
    unfold head_prev at 1. rewrite !Hsb by (unfold head_next; lia). split_conj.
    + rewrite fn_lookup_insert_ne; [done|]. unfold head_next. lia.
    + apply fn_lookup_insert.
    + eapply (dll_set_back _ p); [done|]. apply (dll_other _ _ _ a); try done. unfold head_next. lia.
  - intros (Hb & Hbm & Hl)%paged_cons (H1 & H2 & H3). cbn [dll].
    assert (Hsb : forall x, b <= x < b + 16 -> set_back a l2 (<[head_next a := hd 0 l2]> f) x = f x).
    { intros x Hx. assert (Hq : forall q, q ∈ l1 ++ a :: p :: l2 -> q <> b /\ q `mod` 0x1000 = 0).
      { intros q Hq. split; [congruence|by apply Hl]. }
      assert (<[head_next a := hd 0 l2]> f x = f x) as Hx'.
      { apply fn_lookup_insert_ne. destruct (Hq a) as [? ?]; [set_solver|]. unfold head_next. lia. }
      destruct l2 as [|q l2]; [done|]. cbn [set_back]. rewrite fn_lookup_insert_ne; [done|].
      destruct (Hq q) as [? ?]; [set_solver|]. unfold head_prev. lia. }
    rewrite !Hsb by (unfold head_prev, head_next; lia). split_conj; [done| |by apply IH].
    rewrite H2. by destruct l1.
Qed.

(** Words that are no links of a page of the list. *)
Lemma leave_words f l1 p l2 x :
  (forall q, q ∈ l1 ++ p :: l2 -> ~ q <= x < q + 16) ->
  match last l1 with
  | None => set_back 0 l2 f
  | Some a => set_back a l2 (<[head_next a := hd 0 l2]> f)
  end x = f x.
Proof.
  intros H. assert (Hb : forall v g, set_back v l2 g x = g x).
  { intros v g. destruct l2 as [|q l2]; [done|]. apply fn_lookup_insert_ne.
    specialize (H q ltac:(set_solver)). unfold head_prev. lia. }
  destruct (last l1) as [a|] eqn:Ha; rewrite Hb; [|done]. apply fn_lookup_insert_ne.
  apply last_Some in Ha as [l1' ->]. specialize (H a ltac:(set_solver)). unfold head_next. lia.
Qed.

Lemma keeps_links h f f' pages large blocks :
  shape pages large blocks -> owns h (ranges pages large) f ->
  (forall x, (forall p, is_Some (pages !! p) -> ~ p <= x < p + 16) -> f' x = f x) -> keeps blocks f f'.
Proof.
  intros Hs HO Hf b lay x Hb Hx _. apply Hf. intros p [[i free] Hp] Hin. revert Hx.
  pose proof (owns_aligned _ _ _ _ HO p ltac:(by eexists)) as (Hp0 & Hpm & _).
  destruct (sh_page _ _ _ Hs p i free Hp) as (Hi & _ & _).
  eapply (block_avoids pages large blocks h f p i free); try done; [lia|].
  intros b' Hb' Hin'. destruct (slot_bounds p i b' Hi Hpm Hb') as (? & ? & _). lia.
Qed.

(** The lists of the other classes. *)
Lemma lists_other f f' pages lists i l j l' :
  aligned pages -> lists_ok f pages lists -> lists !! i = Some l -> lists !! j = Some l' -> i <> j ->
  (forall x, (forall q, q ∈ l -> ~ q <= x < q + 16) -> f' x = f x) -> dll f' 0 l'.
Proof.
  intros Hal [_ Hl] Hi Hj Hne Hf. destruct (Hl i l Hi) as (_ & _ & Hin), (Hl j l' Hj) as (_ & Hd & Hin').
  eapply dll_ext; [|done]. intros p Hp. destruct (Hin' p Hp) as [free Hfree].
  pose proof (Hal p ltac:(by eexists)) as Hpa.
  assert (Hq : forall q, q ∈ l -> q <> p /\ q `mod` 0x1000 = 0).
  { intros q Hq. destruct (Hin q Hq) as [fr Hfr]. pose proof (Hal q ltac:(by eexists)). split; [congruence|lia]. }
  unfold head_prev, head_next. rewrite !Hf; [done| |]; intros q Hql; destruct (Hq q Hql); lia.
Qed.

(** A page leaves its list. *)
Lemma core_leave h h' f f' pages large blocks lists i l1 p l2 :
  core h f pages large blocks lists -> lists !! i = Some (l1 ++ p :: l2) -> owns h' (ranges pages large) f' ->
  f' = match last l1 with
       | None => set_back 0 l2 f
       | Some a => set_back a l2 (<[head_next a := hd 0 l2]> f)
       end ->
  bucket h' = match l1 with [] => <[i := hd 0 l2]> (bucket h) | _ => bucket h end ->
  core h' f' pages large blocks (<[i := l1 ++ l2]> lists) /\ keeps blocks f f'.
Proof.
  intros C Hi HO' Hf' Hb'. pose proof C as [HO Hs Hp Hls Hb]. pose proof (owns_aligned _ _ _ _ HO) as Hal.
  pose proof (list_paged _ _ _ _ _ Hal Hls Hi) as Hpg. pose proof Hls as [Hlen Hl].
  destruct (Hl i _ Hi) as (Hnd & Hd & Hin).
  assert (Hw : forall x, (forall q, q ∈ l1 ++ p :: l2 -> ~ q <= x < q + 16) -> f' x = f x).
  { intros x Hx. rewrite Hf'. by eapply leave_words. }
  assert (Hw' : forall x, (forall q, is_Some (pages !! q) -> ~ q <= x < q + 16) -> f' x = f x).
  { intros x Hx. apply Hw. intros q Hq. apply Hx. destruct (Hin q Hq) as [fr Hfr]. by eexists. }
  split; [|by eapply keeps_links]. eapply core_links; [done|done|done| |].
  - split; [by rewrite length_insert|]. intros j l'.
    intros [(-> & <- & Hlt)|[Hne Hj]]%list_lookup_insert_Some.
    + split_conj.
      * apply NoDup_app in Hnd as (H1 & H2 & [_ H3]%NoDup_cons). apply NoDup_app. split_conj; try done. set_solver.
      * rewrite Hf'. destruct (last l1) as [a|] eqn:Ha.
        -- apply last_Some in Ha as [l1' ->]. rewrite <-!app_assoc in *. cbn [app] in *. by apply (dll_unlink _ _ _ _ p).
        -- apply last_None in Ha as ->. cbn [app] in *. apply paged_cons in Hpg as (_ & _ & Hpg).
           destruct Hd as (_ & _ & Hd). by eapply dll_set_back.
      * intros q Hq. apply Hin. set_solver.
    + split_conj.
      * by apply (Hl j).
      * by eapply (lists_other f f' pages lists i).
      * by apply (Hl j).
  - rewrite list_fmap_insert, Hb', Hb. destruct l1 as [|a l1]; [done|]. cbn [app hd].
    symmetry. apply list_insert_id. by rewrite list_lookup_fmap, Hi.
Qed.

(** The words of a page, where the operations access it. *)
Lemma page_facts h f pages large blocks lists p i free :
  core h f pages large blocks lists -> pages !! p = Some (i, free) ->
  0 < p /\ p `mod` 0x1000 = 0 /\ p + 0x1000 < 2 ^ 64 /\
  (forall x, p <= x < p + 0x1000 -> inside (ranges pages large) x) /\
  (i < 9)%nat /\ Z.of_nat (length free) <= c_count i <= 508 /\ 0 <= hd 0 free < 2 ^ 64 /\
  (forall b, b ∈ slots p i -> p + 32 <= b < p + 0x1000 /\ b `mod` 8 = 0).
Proof.
  intros [HO Hs _ _ _] Hp. pose proof (owns_aligned _ _ _ _ HO p ltac:(by eexists)) as (Hp0 & Hpm & Hp64).
  destruct (sh_page _ _ _ Hs p i _ Hp) as (Hi & Hnd & Hsub).
  destruct (class_facts i Hi) as (_ & _ & Hcs & _ & Hcn & _).
  destruct (slots_full p i _ Hi Hnd Hsub) as [Hfull _].
  assert (Hsl : forall b, b ∈ slots p i -> p + 32 <= b < p + 0x1000 /\ b `mod` 8 = 0).
  { intros b Hb. destruct (slot_bounds p i b Hi Hpm Hb) as (? & ? & ? & ?). lia. }
  split_conj; try done; try lia.
  - intros x Hx. eapply inside_page; [by eexists|done].
  - destruct free as [|b free]; [done|]. cbn. destruct (Hsl b); [apply Hsub, list_elem_of_here|lia].
  - destruct free as [|b free]; [done|]. cbn. destruct (Hsl b); [apply Hsub, list_elem_of_here|lia].
Qed.

(** ** Taking a block *)

Lemma bucket_list h f pages large blocks lists i l :
  core h f pages large blocks lists -> lists !! i = Some l -> bucket h !! i = Some (hd 0 l).
Proof. intros C Hl. by rewrite (co_bucket _ _ _ _ _ _ C), list_lookup_fmap, Hl. Qed.

(** The pages of a list exist. *)
Lemma list_page h f pages large blocks lists i l p :
  core h f pages large blocks lists -> lists !! i = Some l -> p ∈ l ->
  exists free, pages !! p = Some (i, free) /\ 0 < p /\ p `mod` 0x1000 = 0 /\ p + 0x1000 < 2 ^ 64 /\
    forall x, p <= x < p + 0x1000 -> inside (ranges pages large) x.
Proof.
  intros C Hl Hp. destruct (co_lists _ _ _ _ _ _ C) as [_ Hls]. destruct (Hls i l Hl) as (_ & _ & Hin).
  destruct (Hin p Hp) as [free Hfree]. exists free.
  destruct (page_facts _ _ _ _ _ _ _ _ _ C Hfree) as (? & ? & ? & ? & _). done.
Qed.

Lemma list_head h f pages large blocks lists i p l :
  core h f pages large blocks lists -> lists !! i = Some (p :: l) ->
  f (head_prev p) = 0 /\ f (head_next p) = hd 0 l /\ 0 <= hd 0 l < 2 ^ 64 /\ (hd 0 l = 0 <-> l = []).
Proof.
  intros C Hl. destruct (co_lists _ _ _ _ _ _ C) as [_ Hls]. destruct (Hls i _ Hl) as (_ & (H1 & H2 & _) & _).
  split_conj; try done; destruct l as [|q l]; try done; cbn [hd];
    destruct (list_page _ _ _ _ _ _ _ _ q C Hl ltac:(set_solver)) as (fr & _ & ? & ? & ? & _); try lia.
  split; [lia|done].
Qed.

(** The first page of a list leaves it; [again] is the code's second read of
    the link. *)
Lemma leave_first_spec h f pages large blocks lists i p l (Q : unit -> heap -> Prop) :
  core h f pages large blocks lists -> lists !! i = Some (p :: l) ->
  (forall h' f', core h' f' pages large blocks (<[i := l]> lists) -> keeps blocks f f' -> Q tt h') ->
  wp (next ← read_word (head_next p);
      put_bucket i next;;
      b ← get_bucket i;
      if negb (b =? 0) then write_word (head_prev b) 0 else mret tt) h Q.
Proof.
  intros C Hl HQ. pose proof (co_mem _ _ _ _ _ _ C) as HO.
  destruct (list_page _ _ _ _ _ _ _ _ p C Hl (list_elem_of_here _ _)) as (fr & Hp & Hp0 & Hpm & Hp64 & Hin).
  destruct (list_head _ _ _ _ _ _ _ _ _ C Hl) as (_ & Hn & Hb & H0).
  wp_step. eapply read_word_spec; [done|apply Hin; unfold head_next; lia|unfold head_next; lia|]. rewrite Hn.
  wp_step. eapply put_bucket_spec; [done|]. intros h1 HO1 Hb1. wp_step.
  pose proof (bucket_list _ _ _ _ _ _ _ _ C Hl) as Hbi. apply lookup_lt_Some in Hbi.
  eapply get_bucket_spec; [rewrite Hb1; by apply list_lookup_insert_eq|].
  destruct l as [|q l].
  - cbn [hd negb Z.eqb]. wp_step. apply (HQ _ f); [|done].
    eapply (core_leave h _ f f pages large blocks lists i [] p []); done.
  - cbn [hd] in *. rewrite (proj2 (Z.eqb_neq _ _)) by (intros Hq; by apply H0 in Hq). cbn [negb].
    destruct (list_page _ _ _ _ _ _ _ _ q C Hl ltac:(set_solver)) as (fr' & Hq & Hq0 & Hqm & Hq64 & Hqin).
    eapply write_word_spec; [done|apply Hqin; unfold head_prev; lia|unfold head_prev; lia|lia|].
    intros h2 HO2 Hb2.
    destruct (core_leave h h2 f (<[head_prev q := 0]> f) pages large blocks lists i [] p (q :: l)) as [C' K]; try done.
    + by rewrite Hb2, Hb1.
    + by eapply HQ.
Qed.

(** A page that has no free slot left is not listed any more. *)
Lemma listed_leave pages lists i p l :
  listed pages lists -> lists !! i = Some (p :: l) -> NoDup (p :: l) ->
  is_Some (pages !! p) -> (forall j free, pages !! p = Some (j, free) -> j = i) ->
  listed (<[p := (i, [])]> pages) (<[i := l]> lists).
Proof.
  intros Hli Hl [Hp Hnd]%NoDup_cons Hpp Hpi q j fr l' Hq Hl'.
  apply list_lookup_insert_Some in Hl' as [(<- & <- & _)|[Hij Hl']];
    apply lookup_insert_Some in Hq as [[<- Hq]|[Hne Hq]].
  - injection Hq as <-. split; [done|done].
  - rewrite <-(Hli q i fr _ Hq Hl). set_solver.
  - congruence.
  - by apply (Hli q j).
Qed.

Lemma listed_stay pages lists i p free free' :
  listed pages lists -> pages !! p = Some (i, free) -> (free = [] <-> free' = []) ->
  listed (<[p := (i, free')]> pages) lists.
Proof.
  intros Hli Hp Hiff q j fr l' [[<- [= <- <-]]|[Hne Hq]]%lookup_insert_Some Hl'; [|by apply (Hli q j)].
  rewrite (Hli p i free l' Hp Hl'). by rewrite Hiff.
Qed.

(** The words of the free list and of the count change together. *)
Definition set_free (p : Z) (free : list Z) f : Z -> Z :=
  <[head_free_count p := Z.of_nat (length free)]> (<[head_free_ptr p := hd 0 free]> f).

Lemma page_ok_set f p i free :
  (i < 9)%nat -> p `mod` 0x1000 = 0 -> free ⊆ slots p i -> linked f free -> page_ok (set_free p free f) p free.
Proof.
  intros Hi Hpm Hsub Hlk. unfold page_ok, set_free. split_conj.
  - rewrite fn_lookup_insert_ne; [apply fn_lookup_insert|]. unfold head_free_ptr, head_free_count. lia.
  - apply fn_lookup_insert.
  - eapply linked_ext; [|done]. intros b Hb. destruct (slot_bounds p i b Hi Hpm (Hsub b Hb)) as (? & ? & _).
    unfold head_free_ptr, head_free_count. rewrite !fn_lookup_insert_ne by lia. done.
Qed.

Lemma set_free_out p free f x : ~ p + 16 <= x < p + 0x1000 -> set_free p free f x = f x.
Proof. intros Hx. unfold set_free, head_free_ptr, head_free_count. by rewrite !fn_lookup_insert_ne by lia. Qed.

Lemma keeps_set_free h f f0 pages large blocks p free :
  shape pages large blocks -> owns h (ranges pages large) f -> is_Some (pages !! p) ->
  keeps blocks f0 (set_free p free f0).
Proof.
  intros Hs HO Hp. unfold set_free. eapply keeps_trans; eapply (keeps_head h f _ pages large blocks p); try done;
    unfold head_free_ptr, head_free_count; lia.
Qed.

Lemma core_take h h' f pages large blocks lists p i b free lay :
  core h f pages large blocks lists -> pages !! p = Some (i, b :: free) -> class lay = i ->
  owns h' (ranges pages large) (set_free p free f) -> bucket h' = bucket h ->
  blocks !! b = None /\
  core h' (set_free p free f) (<[p := (i, free)]> pages) large (<[b := lay]> blocks) lists /\
  keeps blocks f (set_free p free f).
Proof.
  intros C Hpi Hc HO' Hb'. pose proof C as [HO Hs Hpg Hls _].
  destruct (page_facts _ _ _ _ _ _ _ _ _ C Hpi) as (Hp0 & Hpm & Hp64 & Hin & Hi & _ & _ & Hslot).
  destruct (sh_page _ _ _ Hs p i _ Hpi) as (_ & _ & Hsub). destruct (Hpg p i _ Hpi) as (_ & _ & _ & Hlk).
  assert (Hnb : blocks !! b = None) by (eapply free_not_block; [done|done|done|apply list_elem_of_here]).
  split_conj; [done| |].
  - eapply core_page; [done|done|done|congruence| | |].
    + intros x Hx. by apply set_free_out.
    + eapply page_ok_set; try done. intros x Hx. apply Hsub. by apply list_elem_of_further.
    + by eapply shape_take, Hnb; [done|eapply owns_aligned|..].
  - eapply keeps_set_free; [done|done|by eexists].
Qed.

Lemma take_block_spec h f pages large blocks lists i p l lay (Q : Z -> heap -> Prop) :
  core h f pages large blocks lists -> listed pages lists -> lists !! i = Some (p :: l) -> class lay = i ->
  (forall q j free, pages !! q = Some (j, free) -> q <> p -> Z.of_nat (length free) < c_count j) ->
  (forall b h' f', blocks !! b = None -> heap_inv h' f' (<[b := lay]> blocks) -> keeps blocks f f' -> Q b h') ->
  wp (take_block i) h Q.
Proof.
  intros C Hli Hl Hc Hroom HQ. pose proof C as [HO Hs Hpg Hls _].
  destruct (list_page _ _ _ _ _ _ _ _ p C Hl (list_elem_of_here _ _)) as (free0 & Hpi & _).
  assert (Hne : free0 <> []) by (apply (Hli p i free0 _ Hpi Hl), list_elem_of_here).
  destruct free0 as [|b free]; [done|]. clear Hne.
  destruct (page_facts _ _ _ _ _ _ _ _ _ C Hpi) as (Hp0 & Hpm & Hp64 & Hin & Hi & Hcount & _ & Hslot).
  destruct (sh_page _ _ _ Hs p i _ Hpi) as (_ & Hfnd & Hsub).
  destruct (Hpg p i _ Hpi) as (Hfp & Hfc & Hfb & Hlk). cbn [hd length] in Hfp, Hfc, Hcount.
  destruct (Hslot b) as [Hb1 Hb8]; [apply Hsub, list_elem_of_here|].
  assert (Hhd : 0 <= hd 0 free < 2 ^ 64).
  { destruct free as [|b' free]; [done|]. destruct (Hslot b') as [? _]; [apply Hsub; set_solver|cbn; lia]. }
  unfold take_block. wp_step. eapply get_bucket_spec; [by eapply bucket_list|]. cbn [hd].
  wp_step. eapply read_word_spec; [done|apply Hin; unfold head_free_ptr; lia|unfold head_free_ptr; lia|]. rewrite Hfp.
  wp_step. eapply read_word_spec; [done|apply Hin; unfold body_next; lia|done|]. unfold body_next. rewrite Hfb.
  wp_step. eapply write_word_spec; [done|apply Hin; unfold head_free_ptr; lia|unfold head_free_ptr; lia|done|].
  intros h1 HO1 Hb1'.
  wp_step. eapply read_word_spec; [done|apply Hin; unfold head_free_count; lia|unfold head_free_count; lia|].
  rewrite fn_lookup_insert_ne, Hfc by (unfold head_free_ptr, head_free_count; lia).
  replace (Z.of_nat (S (length free)) - 1) with (Z.of_nat (length free)) by lia. wp_step. wp_step; [lia|].
  wp_step. eapply write_word_spec; [done|apply Hin; unfold head_free_count; lia|unfold head_free_count; lia|lia|].
  intros h2 HO2 Hb2'.
  wp_step. eapply read_word_spec; [done|apply Hin; unfold head_free_count; lia|unfold head_free_count; lia|].
  rewrite fn_lookup_insert. fold (set_free p free f) in HO2.
  destruct (core_take h h2 f pages large blocks lists p i b free lay C Hpi Hc HO2) as (Hnb & C2 & K2); [congruence|].
  assert (Hu : in_use (<[p := (i, free)]> pages)).
  { intros q j fr [[<- [= <- <-]]|[Hne Hq]]%lookup_insert_Some; [lia|by eapply Hroom]. }
  destruct (Z.eqb_spec (Z.of_nat (length free)) 0) as [Hz|Hz].
  - destruct free; [|cbn in Hz; lia].
    wp_step. eapply leave_first_spec; [done|done|]. intros h3 f3 C3 K3. wp_step.
    apply (HQ b h3 f3); [done| |].
    + exists (<[p := (i, [])]> pages), large, (<[i := l]> lists). split_conj; [done| |done].
      eapply listed_leave; [done|done| |by eexists|intros j fr Hj; congruence].
      apply (list_paged f pages lists i); [by eapply owns_aligned|done|done].
    + eapply keeps_trans; [done|]. intros b' lay' x Hb' Hx H8. apply (K3 b' lay'); [|done|done].
      rewrite lookup_insert_ne; [done|congruence].
  - wp_step. wp_step. wp_step. apply (HQ b h2 (set_free p free f)); [done| |done].
    exists (<[p := (i, free)]> pages), large, lists. split_conj; [done| |done].
    eapply listed_stay; [done|done|]. split; [done|]. intros ->. cbn in Hz. lia.
Qed.

(** ** A page for a class *)

Lemma ranges_new pages large p pg : ranges (<[p := pg]> pages) large = <[p := 0x1000]> (ranges pages large).
Proof. unfold ranges. by rewrite fmap_insert, insert_union_l. Qed.

Lemma ranges_none pages large p : ranges pages large !! p = None -> pages !! p = None /\ large !! p = None.
Proof.
  unfold ranges. rewrite lookup_union_None, lookup_fmap, fmap_None. done.
Qed.

Lemma block_inside h f pages large blocks lists b lay x :
  core h f pages large blocks lists -> blocks !! b = Some lay -> b <= x < b + span lay -> inside (ranges pages large) x.
Proof.
  intros C Hb Hx. pose proof C as [HO Hs _ _ _]. pose proof (sh_block _ _ _ Hs b lay Hb) as H.
  unfold span in Hx. case_decide as Hc.
  - destruct H as (p & free & Hp & Hbs & _).
    destruct (page_facts _ _ _ _ _ _ _ _ _ C Hp) as (Hp0 & Hpm & _ & Hin & _).
    destruct (slot_bounds p _ b Hc Hpm Hbs) as (? & ? & _). apply Hin. lia.
  - exists b, (round_up (effective lay)). split; [by eapply ranges_large|done].
Qed.

Lemma shape_new pages large blocks p i free :
  shape pages large blocks -> pages !! p = None -> large !! p = None -> (i < 9)%nat ->
  free ≡ₚ slots p i -> shape (<[p := (i, free)]> pages) large blocks.
Proof.
  intros Hs Hp Hlp Hi Hfree. split.
  - intros q Hq. destruct (decide (p = q)) as [<-|Hne]; [done|]. rewrite lookup_insert_ne in Hq by done.
    by apply (sh_disjoint _ _ _ Hs).
  - intros q j fr [[<- [= <- <-]]|[Hne Hq]]%lookup_insert_Some; [|by apply (sh_page _ _ _ Hs)].
    split_conj; [done| |by rewrite Hfree]. rewrite Hfree. by apply NoDup_slots.
  - intros b lay Hb. pose proof (sh_block _ _ _ Hs b lay Hb) as H. case_decide; [|done].
    destruct H as (q & fr & Hq & Hbs & Hnf). exists q, fr. rewrite lookup_insert_ne; [done|congruence].
  - intros q j fr b [[<- [= <- <-]]|[Hne Hq]]%lookup_insert_Some Hb; [|by eapply (sh_slot _ _ _ Hs)].
    left. by rewrite Hfree.
  - apply (sh_large _ _ _ Hs).
Qed.

Lemma core_new h h' f f' pages large blocks lists p i free :
  core h f pages large blocks lists -> ranges pages large !! p = None -> (i < 9)%nat ->
  lists !! i = Some [] -> free ≡ₚ slots p i -> owns h' (<[p := 0x1000]> (ranges pages large)) f' ->
  page_ok f' p free -> f' (head_prev p) = 0 -> f' (head_next p) = 0 ->
  (forall x, inside (ranges pages large) x -> x `mod` 8 = 0 -> f' x = f x) ->
  bucket h' = <[i := p]> (bucket h) ->
  core h' f' (<[p := (i, free)]> pages) large blocks (<[i := [p]]> lists) /\ keeps blocks f f'.
Proof.
  intros C [Hp Hlp]%ranges_none Hi Hl Hfree HO' Hok Hprev Hnext Hf Hb'.
  pose proof C as [HO Hs Hpg [Hlen Hls] Hb]. split.
  2: { intros b lay x Hb1 Hx H8. apply Hf; [by eapply block_inside|done]. }
  rewrite <-(ranges_new pages large p (i, free)) in HO'. split; [done|by apply shape_new| | |].
  - intros q j fr [[<- [= <- <-]]|[Hne Hq]]%lookup_insert_Some; [done|].
    destruct (page_facts _ _ _ _ _ _ _ _ _ C Hq) as (Hq0 & Hqm & _ & Hin & Hj & _).
    destruct (sh_page _ _ _ Hs q j fr Hq) as (_ & _ & Hsub).
    eapply page_ok_ext; [done|done|done| |by apply (Hpg q j)]. intros x Hx H8. apply Hf; [apply Hin; lia|done].
  - split; [by rewrite length_insert|]. intros j l'.
    intros [(<- & <- & Hlt)|[Hne Hj]]%list_lookup_insert_Some.
    + split_conj; [apply NoDup_singleton|done|]. intros q ->%list_elem_of_singleton.
      exists free. by rewrite lookup_insert_eq.
    + destruct (Hls j l' Hj) as (Hnd & Hd & Hin). split_conj; [done| |].
      * eapply dll_ext; [|done]. intros q Hq.
        destruct (list_page _ _ _ _ _ _ _ _ q C Hj Hq) as (fr & Hfr & Hq0 & Hqm & _ & Hqin).
        unfold head_prev, head_next. rewrite !Hf; [done|apply Hqin; lia|lia|apply Hqin; lia|lia].
      * intros q Hq. destruct (Hin q Hq) as [fr Hfr]. exists fr. rewrite lookup_insert_ne; [done|congruence].
  - rewrite list_fmap_insert, Hb', Hb. done.
Qed.

Lemma slots_lookup p i k :
  0 <= k < c_count i -> slots p i !! Z.to_nat k = Some (p + c_start i + k * c_size i).
Proof. intros Hk. unfold slots. rewrite list_lookup_fmap, lookup_seqZ_lt, Z2Nat.id by lia. done. Qed.

(** After [k] rounds the first [k] slots are on the free list, the last one
    first. *)
Definition filled (p : Z) (i : nat) (k : Z) : list Z := reverse (take (Z.to_nat k) (slots p i)).

Lemma filled_next p i k :
  0 <= k < c_count i -> filled p i (k + 1) = (p + c_start i + k * c_size i) :: filled p i k.
Proof.
  intros Hk. unfold filled. replace (Z.to_nat (k + 1)) with (S (Z.to_nat k)) by lia.
  erewrite take_S_r by (by apply slots_lookup). by rewrite reverse_snoc.
Qed.

Lemma filled_all p i : (i < 9)%nat -> filled p i (c_count i) ≡ₚ slots p i.
Proof.
  intros Hi. unfold filled. rewrite <-(length_slots p i), Nat2Z.id by done. rewrite firstn_all. apply reverse_Permutation.
Qed.

Lemma fill_page_spec fuel p i k h out f (Q : unit -> heap -> Prop) :
  (i < 9)%nat -> owns h out f -> 0 < p -> p `mod` 0x1000 = 0 -> p + 0x1000 < 2 ^ 64 ->
  (forall x, p <= x < p + 0x1000 -> inside out x) ->
  0 <= k <= c_count i -> f (head_free_ptr p) = hd 0 (filled p i k) -> linked f (filled p i k) ->
  c_count i - k < Z.of_nat fuel ->
  (forall h' f', owns h' out f' -> bucket h' = bucket h -> f' (head_free_ptr p) = hd 0 (filled p i (c_count i)) ->
     linked f' (filled p i (c_count i)) ->
     (forall x, x <> head_free_ptr p -> ~ p + 32 <= x < p + 0x1000 -> f' x = f x) -> Q tt h') ->
  wp (fill_page fuel p (c_size i) (p + c_start i + k * c_size i)) h Q.
Proof.
  intros Hi. revert k h f. induction fuel as [|fuel IH]; intros k h f HO Hp0 Hpm Hp64 Hin Hk Hfp Hlk Hfuel HQ; [lia|].
  destruct (class_facts i Hi) as (_ & _ & Hc & Hc8 & Hn & H32 & _ & Hsum). cbn [fill_page].
  destruct (decide (k = c_count i)) as [->|Hne].
  { rewrite (proj2 (Z.ltb_ge _ _)) by lia. wp_step. by apply (HQ h f). }
  assert (Hsl : p + c_start i + k * c_size i ∈ slots p i) by (apply elem_of_slots; exists k; split; [lia|done]).
  destruct (slot_bounds p i _ Hi Hpm Hsl) as (Hb1 & Hb2 & _ & Hb8). pose proof (filled_next p i k ltac:(lia)) as Hnext.
  assert (Hfree : forall b, b ∈ filled p i k -> b ∈ slots p i /\ b <> p + c_start i + k * c_size i).
  { intros b Hb. assert (Hnd : NoDup (filled p i (k + 1))).
    { unfold filled. rewrite reverse_Permutation. 
      apply (sublist_NoDup _ (slots p i)); [by apply NoDup_slots|apply sublist_take]. }
    rewrite Hnext in Hnd. apply NoDup_cons in Hnd as [Hnin _]. split; [|congruence].
    unfold filled in Hb. rewrite elem_of_reverse in Hb. by eapply subseteq_take. }
  revert Hsl Hb1 Hb2 Hb8 Hnext Hfree. set (b := p + c_start i + k * c_size i). intros.
  assert (Hhd : 0 <= hd 0 (filled p i k) < 2 ^ 64).
  { destruct (filled p i k) as [|b' l]; [done|]. cbn. destruct (Hfree b' (list_elem_of_here _ _)) as [Hb' _].
    destruct (slot_bounds p i _ Hi Hpm Hb') as (? & ? & _). lia. }
  rewrite (proj2 (Z.ltb_lt _ _)) by lia.
  wp_step. eapply read_word_spec; [done|apply Hin; unfold head_free_ptr; lia|unfold head_free_ptr; lia|]. rewrite Hfp.
  wp_step. eapply write_word_spec; [done|apply Hin; unfold body_next; lia|done|done|]. intros h1 HO1 Hbu1. unfold body_next in *.
  wp_step. eapply write_word_spec; [done|apply Hin; unfold head_free_ptr; lia|unfold head_free_ptr; lia|lia|].
  intros h2 HO2 Hbu2. wp_step. wp_step; [lia|].
  replace (b + c_size i) with (p + c_start i + (k + 1) * c_size i) by (subst b; lia).
  assert (Hw : forall x, x <> head_free_ptr p -> x <> b ->
    (<[head_free_ptr p := b]> (<[b := hd 0 (filled p i k)]> f)) x = f x).
  { intros x H1 H2. rewrite !fn_lookup_insert_ne by done. done. }
  eapply (IH (k + 1)); [exact HO2|done..|lia| | |lia|].
  - rewrite Hnext. apply fn_lookup_insert.
  - rewrite Hnext. split.
    + rewrite fn_lookup_insert_ne by (unfold head_free_ptr; lia). apply fn_lookup_insert.
    + eapply linked_ext; [|done]. intros b' Hb'. destruct (Hfree b' Hb') as [Hs Hd].
      destruct (slot_bounds p i _ Hi Hpm Hs) as (? & ? & _). apply Hw; [unfold head_free_ptr; lia|done].
  - intros h' f' HO' Hbu' Hfp' Hlk' Hout. apply (HQ h' f'); [done|congruence|done|done|].
    intros x Hx1 Hx2. rewrite Hout by done. apply Hw; [done|lia].
Qed.

Lemma listed_new pages lists p i free :
  listed pages lists -> lists !! i = Some [] -> free <> [] ->
  listed (<[p := (i, free)]> pages) (<[i := [p]]> lists).
Proof.
  intros Hli Hl Hne q j fr l' Hq Hl'.
  apply list_lookup_insert_Some in Hl' as [(<- & <- & _)|[Hij Hl']];
    apply lookup_insert_Some in Hq as [[<- Hq]|[Hpq Hq]].
  - injection Hq as <-. split; [done|]. intros _. apply list_elem_of_here.
  - rewrite list_elem_of_singleton. split; [congruence|]. intros Hfr.
    apply (Hli q i fr [] Hq Hl) in Hfr. by apply elem_of_nil in Hfr.
  - congruence.
  - by apply (Hli q j).
Qed.

(** What holds before a block is taken: the list of the class has a page, and
    only that page may be unused. *)
Definition ready h f blocks (i : nat) : Prop :=
  exists pages large lists p l, core h f pages large blocks lists /\ listed pages lists /\
    lists !! i = Some (p :: l) /\
    forall q j free, pages !! q = Some (j, free) -> q <> p -> Z.of_nat (length free) < c_count j.

(** A new page is given its head and its free list. *)
Lemma new_page_spec h out f p i (Q : bool -> heap -> Prop) :
  (i < 9)%nat -> owns h out f -> 0 < p -> p `mod` 0x1000 = 0 -> p + 0x1000 < 2 ^ 64 ->
  (forall x, p <= x < p + 0x1000 -> inside out x) -> bucket h !! i = Some 0 ->
  (forall h' f', owns h' out f' -> bucket h' = <[i := p]> (bucket h) ->
     page_ok f' p (filled p i (c_count i)) -> f' (head_prev p) = 0 -> f' (head_next p) = 0 ->
     (forall x, ~ p <= x < p + 0x1000 -> f' x = f x) -> Q true h') ->
  wp (write_word (head_prev p) 0;;
      next ← get_bucket i;
      write_word (head_next p) next;;
      put_bucket i p;;
      write_word (head_free_ptr p) 0;;
      write_word (head_free_count p) (c_count i);;
      free_ptr ← checked 64 (p + Z.max (c_size i) HEAD_SIZE);
      fill_page 513 p (c_size i) free_ptr;;
      mret true) h Q.
Proof.
  intros Hi HO Hp0 Hpm Hp64 Hin Hb HQ. destruct (class_facts i Hi) as (_ & _ & Hc & _ & Hn & H32 & _ & Hsum).
  wp_step. eapply write_word_spec; [done|apply Hin; unfold head_prev; lia|unfold head_prev; lia|lia|]. intros h1 HO1 Hb1.
  wp_step. eapply get_bucket_spec; [by rewrite Hb1|].
  wp_step. eapply write_word_spec; [done|apply Hin; unfold head_next; lia|unfold head_next; lia|lia|]. intros h2 HO2 Hb2.
  wp_step. eapply put_bucket_spec; [done|]. intros h3 HO3 Hb3.
  wp_step. eapply write_word_spec; [done|apply Hin; unfold head_free_ptr; lia|unfold head_free_ptr; lia|lia|]. intros h4 HO4 Hb4.
  wp_step. eapply write_word_spec; [done|apply Hin; unfold head_free_count; lia|unfold head_free_count; lia|lia|]. intros h5 HO5 Hb5.
  fold (c_start i). wp_step. wp_step; [lia|]. wp_step.
  replace (p + c_start i) with (p + c_start i + 0 * c_size i) by lia.
  eapply (fill_page_spec _ p i 0); [done|exact HO5|done..|lia| |done|lia|].
  { rewrite fn_lookup_insert_ne by (unfold head_free_ptr, head_free_count; lia). apply fn_lookup_insert. }
  intros h6 f6 HO6 Hb6 Hfp Hlk Hout. wp_step. unfold head_prev, head_next, head_free_ptr, head_free_count in *.
  apply (HQ h6 f6); [done|congruence| | | |].
  - unfold page_ok, head_free_ptr, head_free_count. split_conj; [done| |done].
    rewrite Hout, fn_lookup_insert by lia. unfold filled.
    rewrite length_reverse, length_take, Nat.min_l; [lia|]. pose proof (length_slots p i Hi). lia.
  - rewrite Hout, !fn_lookup_insert_ne by lia. apply fn_lookup_insert.
  - rewrite Hout, !fn_lookup_insert_ne by lia. apply fn_lookup_insert.
  - intros x Hx. rewrite Hout, !fn_lookup_insert_ne by lia. done.
Qed.

Lemma refill_spec h f blocks i (Q : bool -> heap -> Prop) :
  heap_inv h f blocks -> (i < 9)%nat ->
  (forall h' f', ready h' f' blocks i -> keeps blocks f f' -> Q true h') ->
  (forall h' f', heap_inv h' f' blocks -> keeps blocks f f' -> Q false h') ->
  wp (refill i (c_size i) (c_count i)) h Q.
Proof.
  intros (pages & large & lists & C & Hli & Hu) Hi HT HF. pose proof (co_mem _ _ _ _ _ _ C) as HO.
  pose proof (co_lists _ _ _ _ _ _ C) as [Hlen Hls].
  destruct (lookup_lt_is_Some_2 lists i) as [l Hl]; [lia|].
  destruct (class_facts i Hi) as (_ & _ & Hc & _ & Hn & H32 & _ & Hsum).
  unfold refill. wp_step. eapply get_bucket_spec; [by eapply bucket_list|].
  destruct l as [|p l].
  2: { cbn [hd]. destruct (list_page _ _ _ _ _ _ _ _ p C Hl (list_elem_of_here _ _)) as (fr & Hp & Hp0 & _).
       rewrite (proj2 (Z.eqb_neq _ _)) by lia. wp_step. apply (HT h f); [|done].
       exists pages, large, lists, p, l. split_conj; try done. intros q j free Hq _. by apply (Hu q). }
  cbn [hd Z.eqb]. wp_step. eapply allocate_pages_spec; [done|pose proof p_max_ok; lia|done| |].
  2: { intros h1 HO1 Hb1. wp_step. apply (HF h1 f); [|done]. exists pages, large, lists. split_conj; try done.
       destruct C as [? ? ? ? Hb]. split; try done. congruence. }
  intros p h1 f1 Hnew HO1 Hb1 Hf1. pose proof HO1 as [HI1 _].
  destruct (p_range _ _ p 0x1000 HI1) as (Hp0 & Hpm & _ & _ & Hp64); [by rewrite lookup_insert_eq|].
  set (out := <[p := 0x1000]> (ranges pages large)) in *.
  assert (Hin : forall x, p <= x < p + 0x1000 -> inside out x).
  { intros x Hx. exists p, 0x1000. split; [apply lookup_insert_eq|done]. }
  eapply new_page_spec; try done.
  { rewrite Hb1. by apply (bucket_list _ _ _ _ _ _ _ _ C Hl). }
  intros h2 f2 HO2 Hb2 Hok Hprev Hnext Hout.
  destruct (core_new h h2 f f2 pages large blocks lists p i (filled p i (c_count i))) as [C2 K2]; try done.
  - by apply filled_all.
  - intros x Hx H8. rewrite Hout; [by apply Hf1|]. intros Hpx. destruct Hx as (a & n & Ha & Hx).
    destruct (p_disjoint _ _ p 0x1000 a n HI1); [apply lookup_insert_eq| |congruence|lia|lia].
    unfold out. rewrite lookup_insert_ne; [done|congruence].
  - congruence.
  - assert (Hfull : Z.of_nat (length (filled p i (c_count i))) = c_count i).
    { rewrite (filled_all p i Hi). by apply length_slots. }
    apply (HT h2 f2); [|done]. exists (<[p := (i, filled p i (c_count i))]> pages), large, (<[i := [p]]> lists), p, [].
    split_conj; [done| | |].
    + apply listed_new; [done|done|]. intros Hnil. rewrite Hnil in Hfull. cbn in Hfull. lia.
    + apply list_lookup_insert_eq. by apply lookup_lt_Some in Hl.
    + intros q j fr Hq Hne. rewrite lookup_insert_ne in Hq by done. by apply (Hu q).
Qed.

(** ** Blocks with pages of their own *)

Lemma round_up_ok n : 0 < n -> n <= round_up n < n + 0x1000 /\ round_up n `mod` 0x1000 = 0.
Proof. unfold round_up. lia. Qed.

Lemma pages_size_spec lay h (Q : Z -> heap -> Prop) :
  0 < effective lay <= 2 ^ 63 -> Q (round_up (effective lay)) h -> wp (pages_size lay) h Q.
Proof.
  intros He HQ. unfold pages_size. rewrite land_low, land_page. unfold round_up in HQ.
  destruct (Z.eqb_spec (effective lay `mod` 0x1000) 0) as [H0|H0]; cbn [negb].
  - wp_step. by replace (effective lay) with ((effective lay + 4095) / 4096 * 4096) by lia.
  - wp_step; [lia|]. by replace (effective lay - effective lay `mod` 4096 + 4096) with
      ((effective lay + 4095) / 4096 * 4096) by lia.
Qed.

Lemma ranges_insert_large pages large b n :
  pages !! b = None -> ranges pages (<[b := n]> large) = <[b := n]> (ranges pages large).
Proof. intros Hb. unfold ranges. rewrite insert_union_r; [done|]. by rewrite lookup_fmap, Hb. Qed.

Lemma ranges_delete_large pages large b :
  pages !! b = None -> ranges pages (delete b large) = delete b (ranges pages large).
Proof.
  intros Hb. unfold ranges. rewrite delete_union. f_equal. symmetry. apply delete_id. by rewrite lookup_fmap, Hb.
Qed.

Lemma ranges_delete_page pages large p :
  large !! p = None -> ranges (delete p pages) large = delete p (ranges pages large).
Proof.
  intros Hp. unfold ranges. rewrite delete_union, fmap_delete. f_equal. symmetry. by apply delete_id.
Qed.

(** A change of the large blocks alone. *)
Lemma core_large h h' f f' pages large large' blocks blocks' lists :
  core h f pages large blocks lists -> shape pages large' blocks' -> owns h' (ranges pages large') f' ->
  (forall p x, is_Some (pages !! p) -> p <= x < p + 0x1000 -> x `mod` 8 = 0 -> f' x = f x) -> bucket h' = bucket h ->
  core h' f' pages large' blocks' lists.
Proof.
  intros C Hs' HO' Hf Hb'. pose proof C as [HO Hs Hpg [Hlen Hls] Hb]. split; [done|done| | |congruence].
  - intros p i free Hp. destruct (page_facts _ _ _ _ _ _ _ _ _ C Hp) as (_ & Hpm & _ & _ & Hi & _).
    destruct (sh_page _ _ _ Hs p i free Hp) as (_ & _ & Hsub).
    eapply page_ok_ext; [done|done|done| |by apply (Hpg p i)]. intros x Hx H8. eapply (Hf p); [by eexists|lia|done].
  - split; [done|]. intros i l Hl. destruct (Hls i l Hl) as (Hnd & Hd & Hin). split_conj; [done| |done].
    eapply dll_ext; [|done]. intros p Hp.
    destruct (list_page _ _ _ _ _ _ _ _ p C Hl Hp) as (fr & Hfr & Hp0 & Hpm & _).
    unfold head_prev, head_next. rewrite !(Hf p); [done|by eexists|lia|lia|by eexists|lia|lia].
Qed.

Lemma shape_large pages large blocks b lay :
  shape pages large blocks -> pages !! b = None -> large !! b = None -> blocks !! b = None ->
  (9 <= class lay)%nat -> shape pages (<[b := round_up (effective lay)]> large) (<[b := lay]> blocks).
Proof.
  intros Hs Hp Hl Hb Hc. split.
  - intros q Hq. rewrite lookup_insert_ne; [by apply (sh_disjoint _ _ _ Hs)|]. intros ->. rewrite Hp in Hq. by destruct Hq.
  - apply (sh_page _ _ _ Hs).
  - intros b' lay' [[<- <-]|[Hne Hb']]%lookup_insert_Some.
    + rewrite decide_False by lia. apply lookup_insert_eq.
    + pose proof (sh_block _ _ _ Hs b' lay' Hb') as H. case_decide; [done|]. by rewrite lookup_insert_ne.
  - intros p i free b' Hp' Hb'. destruct (sh_slot _ _ _ Hs p i free b' Hp' Hb') as [?|?]; [by left|].
    right. rewrite lookup_insert_is_Some'. by right.
  - intros b' n [[<- <-]|[Hne Hb']]%lookup_insert_Some.
    + exists lay. by rewrite lookup_insert_eq.
    + destruct (sh_large _ _ _ Hs b' n Hb') as (lay' & Hlay & H9 & Hn). exists lay'. by rewrite lookup_insert_ne.
Qed.

Lemma shape_unlarge pages large blocks b lay n :
  shape pages large blocks -> blocks !! b = Some lay -> large !! b = Some n ->
  (forall p i free, pages !! p = Some (i, free) -> b ∉ slots p i) ->
  shape pages (delete b large) (delete b blocks).
Proof.
  intros Hs Hb Hl Hno. split.
  - intros q Hq. apply lookup_delete_None. right. by apply (sh_disjoint _ _ _ Hs).
  - apply (sh_page _ _ _ Hs).
  - intros b' lay' [Hne Hb']%lookup_delete_Some. pose proof (sh_block _ _ _ Hs b' lay' Hb') as H.
    case_decide; [done|]. by rewrite lookup_delete_ne.
  - intros p i free b' Hp' Hb'. destruct (sh_slot _ _ _ Hs p i free b' Hp' Hb') as [?|?]; [by left|].
    right. rewrite lookup_delete_ne; [done|]. intros ->. by eapply Hno.
  - intros b' m [Hne Hb']%lookup_delete_Some.
    destruct (sh_large _ _ _ Hs b' m Hb') as (lay' & Hlay & H9 & Hn). exists lay'. by rewrite lookup_delete_ne.
Qed.

(** ** Blocks *)

(** [Layout]: the alignment is a power of two; a request the provider can
    answer. *)
Definition layout_ok (lay : Layout) : Prop :=
  0 <= layout_size lay /\ (exists k, 0 <= k /\ layout_align lay = 2 ^ k) /\ effective lay <= p_max.

Lemma layout_effective lay : layout_ok lay -> 0 < effective lay <= 2 ^ 63.
Proof.
  intros (Hs & (k & Hk & Ha) & He). pose proof p_max_ok. assert (0 < layout_align lay) by (rewrite Ha; by apply Z.pow_pos_nonneg).
  unfold effective in *. lia.
Qed.

Lemma span_size lay : layout_ok lay -> layout_size lay <= span lay.
Proof.
  intros H. apply layout_effective in H as [H _]. pose proof (class_size lay H) as Hc. unfold span.
  pose proof (round_up_ok _ H). unfold effective in *. case_decide; lia.
Qed.

Lemma small_aligned lay : layout_ok lay -> (class lay < 9)%nat -> (layout_align lay | c_size (class lay)).
Proof.
  intros H Hc. pose proof H as (_ & (k & Hk & Ha) & _). apply layout_effective in H as [H _].
  pose proof (class_size lay H) as Hs. rewrite decide_True in Hs by done.
  assert (Hle : 2 ^ k <= c_size (class lay)) by (unfold effective in Hs; lia). rewrite Ha.
  assert (Hpow : exists e, 0 <= e /\ c_size (class lay) = 2 ^ e).
  { clear -Hc. revert Hc. generalize (class lay).
    apply class_cases; [exists 3|exists 4|exists 5|exists 6|exists 7|exists 8|exists 9|exists 10|exists 11]; done. }
  destruct Hpow as (e & He & Hce). rewrite Hce in Hle |- *. apply Z.pow_le_mono_r_iff in Hle; [|lia|done].
  exists (2 ^ (e - k)). rewrite <-Z.pow_add_r by lia. f_equal. lia.
Qed.

Lemma block_place h f pages large blocks lists b lay :
  core h f pages large blocks lists -> blocks !! b = Some lay -> layout_ok lay ->
  0 < b /\ b `mod` 8 = 0 /\ b + span lay < 2 ^ 64 /\ (layout_align lay <= 0x1000 -> b `mod` layout_align lay = 0).
Proof.
  intros C Hb Hlay. pose proof C as [HO Hs _ _ _]. pose proof (sh_block _ _ _ Hs b lay Hb) as H. unfold span.
  pose proof Hlay as (_ & (k & Hk & Ha) & _). assert (0 < 2 ^ k) by (by apply Z.pow_pos_nonneg).
  case_decide as Hc.
  - destruct H as (p & free & Hp & Hbs & _).
    destruct (page_facts _ _ _ _ _ _ _ _ _ C Hp) as (Hp0 & Hpm & Hp64 & _).
    destruct (slot_bounds p _ b Hc Hpm Hbs) as (? & ? & Hm & ?). split_conj; [lia|done|lia|].
    intros _. destruct (class_facts _ Hc) as (_ & _ & Hcs & _).
    apply Z.mod_divide; [lia|]. etrans; [by apply small_aligned|]. apply Z.mod_divide; [lia|done].
  - destruct (large_aligned _ _ _ _ _ _ _ Hs HO H) as (? & Hm & ? & ? & ?). split_conj; [lia|lia|lia|].
    intros Hle. rewrite Ha in *. apply Z.mod_divide; [lia|]. change 0x1000 with (2 ^ 12) in Hle, Hm.
    apply Z.pow_le_mono_r_iff in Hle; [|lia|lia]. apply Z.mod_divide in Hm; [|done]. etrans; [|done].
    exists (2 ^ (12 - k)). rewrite <-Z.pow_add_r by lia. f_equal. lia.
Qed.

Lemma blocks_disjoint h f pages large blocks lists b lay b' lay' :
  core h f pages large blocks lists -> blocks !! b = Some lay -> blocks !! b' = Some lay' -> b <> b' ->
  b + span lay <= b' \/ b' + span lay' <= b.
Proof.
  intros C Hb Hb' Hne. pose proof C as [HO Hs _ _ _]. pose proof HO as [HI _].
  assert (Hmix : forall c l c' l', blocks !! c = Some l -> blocks !! c' = Some l' ->
    (class l < 9)%nat -> (9 <= class l')%nat -> c + span l <= c' \/ c' + span l' <= c).
  { intros c l c' l' Hc Hc' Hlt Hge. pose proof (sh_block _ _ _ Hs c l Hc) as H1. pose proof (sh_block _ _ _ Hs c' l' Hc') as H2.
    unfold span. rewrite decide_True in H1 by done. rewrite decide_True by done. rewrite decide_False in H2 by lia. rewrite decide_False by lia.
    destruct H1 as (p & free & Hp & Hs1 & _). destruct (page_facts _ _ _ _ _ _ _ _ _ C Hp) as (Hp0 & Hpm & _).
    destruct (slot_bounds p _ c Hlt Hpm Hs1) as (? & ? & _). destruct (ranges_large _ _ _ _ _ Hs H2) as [Hr Hn].
    destruct (p_disjoint _ _ p 0x1000 c' _ HI (ranges_page _ _ _ _ Hp) Hr); [congruence|lia|lia]. }
  destruct (decide (class lay < 9)%nat) as [Hc|Hc], (decide (class lay' < 9)%nat) as [Hc'|Hc'].
  - pose proof (sh_block _ _ _ Hs b lay Hb) as H1. pose proof (sh_block _ _ _ Hs b' lay' Hb') as H2.
    unfold span. rewrite decide_True in H1 by done. rewrite decide_True by done. rewrite decide_True in H2 by done. rewrite decide_True by done.
    destruct H1 as (p & fr & Hp & Hs1 & _), H2 as (p' & fr' & Hp' & Hs2 & _).
    destruct (decide (p = p')) as [<-|Hpp].
    + rewrite Hp in Hp'. injection Hp' as Hcc _. rewrite <-Hcc in Hs2 |- *. by apply (slot_apart p).
    + destruct (page_facts _ _ _ _ _ _ _ _ _ C Hp) as (_ & Hpm & _).
      destruct (page_facts _ _ _ _ _ _ _ _ _ C Hp') as (_ & Hpm' & _).
      destruct (slot_bounds p _ b Hc Hpm Hs1) as (? & ? & _). destruct (slot_bounds p' _ b' Hc' Hpm' Hs2) as (? & ? & _). lia.
  - apply (Hmix b lay b' lay'); done || lia.
  - destruct (Hmix b' lay' b lay); (done || lia || tauto).
  - pose proof (sh_block _ _ _ Hs b lay Hb) as H1. pose proof (sh_block _ _ _ Hs b' lay' Hb') as H2.
    unfold span. rewrite decide_False in H1 by done. rewrite decide_False by done. rewrite decide_False in H2 by done. rewrite decide_False by done.
    eapply p_disjoint; [done| | |done]; by eapply ranges_large.
Qed.

Lemma heap_allocate_spec lay h f blocks (Q : Z -> heap -> Prop) :
  heap_inv h f blocks -> layout_ok lay ->
  (forall h' f', heap_inv h' f' blocks -> keeps blocks f f' -> Q 0 h') ->
  (forall b h' f', blocks !! b = None -> heap_inv h' f' (<[b := lay]> blocks) -> keeps blocks f f' -> Q b h') ->
  wp (allocate lay) h Q.
Proof.
  intros HI Hlay H0 HQ. pose proof (layout_effective lay Hlay) as He. pose proof (class_size lay (proj1 He)) as Hcs.
  unfold allocate. fold (class lay). destruct (decide (class lay < 9)%nat) as [Hc|Hc].
  - destruct (class_facts _ Hc) as (-> & -> & _). wp_step.
    eapply refill_spec; [done|done| |].
    + intros h1 f1 (pages & large & lists & p & l & C & Hli & Hl & Hroom) K1.
      eapply take_block_spec; try done. intros b h2 f2 Hb HI2 K2. eapply (HQ b h2 f2); [done|done|]. by eapply keeps_trans.
    + intros h1 f1 HI1 K1. wp_step. by eapply H0.
  - destruct HI as (pages & large & lists & C & Hli & Hu). pose proof C as [HO Hs _ _ _].
    rewrite (lookup_ge_None_2 HEAP_SIZE_CLASSES) by (cbn; lia).
    wp_step. apply pages_size_spec; [done|]. pose proof (round_up_ok _ (proj1 He)) as Hr. pose proof p_max_ok.
    destruct Hlay as (_ & _ & Hmax). wp_step. eapply allocate_pages_spec; [done|lia|lia| |].
    + intros b h1 f1 Hnew HO1 Hb1 Hf1. wp_step. cbn [default]. destruct (ranges_none _ _ _ Hnew) as [Hp Hl].
      pose proof HO1 as [HI1 _]. destruct (p_range _ _ b _ HI1 (lookup_insert_eq _ _ _)) as (_ & Hbm & _).
      assert (Hb : blocks !! b = None).
      { destruct (blocks !! b) as [lay'|] eqn:Hlay'; [|done]. pose proof (sh_block _ _ _ Hs b lay' Hlay') as H'.
        case_decide as Hc'; [|congruence]. destruct H' as (p & fr & Hp' & Hbs & _).
        destruct (page_facts _ _ _ _ _ _ _ _ _ C Hp') as (_ & Hpm & _).
        destruct (slot_page p _ b Hc' Hpm Hbs). lia. }
      apply (HQ b h1 f1); [done| |].
      * exists pages, (<[b := round_up (effective lay)]> large), lists. split_conj; [|done|done].
        eapply core_large; [done|apply shape_large; done || lia|by rewrite ranges_insert_large| |done].
        intros p x Hpp Hx H8. apply Hf1; [by eapply inside_page|done].
      * intros b' lay' x Hb' Hx H8. apply Hf1; [by eapply block_inside|done].
    + intros h1 HO1 Hb1. wp_step. apply (H0 h1 f); [|done]. exists pages, large, lists. split_conj; [|done|done].
      destruct C as [? ? ? ? ?]. split; try done. congruence.
Qed.

(** ** Giving a block back *)

Lemma shape_give pages large blocks p i b free lay :
  shape pages large blocks -> aligned pages -> pages !! p = Some (i, free) -> blocks !! b = Some lay -> class lay = i ->
  b ∈ slots p i -> b ∉ free -> shape (<[p := (i, b :: free)]> pages) large (delete b blocks).
Proof.
  intros Hs Hal Hp Hb Hc Hbs Hnf. destruct (sh_page _ _ _ Hs p i _ Hp) as (Hi & Hnd & Hsub). split.
  - intros q Hq. apply (sh_disjoint _ _ _ Hs). destruct (decide (p = q)) as [->|Hne]; [by eexists|].
    by rewrite lookup_insert_ne in Hq.
  - intros q j fr [[<- [= <- <-]]|[Hne Hq]]%lookup_insert_Some; [|by apply (sh_page _ _ _ Hs)].
    split_conj; [done|by apply NoDup_cons|]. intros x [->|Hx]%elem_of_cons; auto.
  - intros b' lay' [Hne Hb']%lookup_delete_Some. pose proof (sh_block _ _ _ Hs b' lay' Hb') as H.
    case_decide as Hlt; [|done]. destruct H as (q & fr & Hq & Hbq & Hnq). destruct (decide (p = q)) as [->|Hpq].
    + rewrite Hp in Hq. injection Hq as -> <-. exists q, (b :: free). rewrite lookup_insert_eq.
      split_conj; [done|done|]. by intros [->|Hin]%elem_of_cons.
    + exists q, fr. by rewrite lookup_insert_ne.
  - intros q j fr b' [[<- [= <- <-]]|[Hne Hq]]%lookup_insert_Some Hb'.
    + destruct (decide (b' = b)) as [->|Hne]; [left; apply list_elem_of_here|].
      destruct (sh_slot _ _ _ Hs p i _ b' Hp Hb') as [Hin|Hblk]; [left; by apply list_elem_of_further|].
      right. by rewrite lookup_delete_ne.
    + destruct (sh_slot _ _ _ Hs q j fr b' Hq Hb') as [Hin|Hblk]; [by left|].
      destruct (decide (b' = b)) as [->|Hbb]; [|right; by rewrite lookup_delete_ne].
      destruct (sh_page _ _ _ Hs q j fr Hq) as (Hj & _ & _).
      pose proof (Hal p ltac:(by eexists)) as (_ & Hpm & _). pose proof (Hal q ltac:(by eexists)) as (_ & Hqm & _).
      destruct (slot_page p i b Hi Hpm Hbs) as [? _], (slot_page q j b Hj Hqm Hb') as [? _]. lia.
  - intros b' n Hb'. destruct (sh_large _ _ _ Hs b' n Hb') as (lay' & Hl & H9 & Hn).
    exists lay'. split_conj; [|done|done]. rewrite lookup_delete_ne; [done|]. intros ->. rewrite Hb in Hl.
    injection Hl as <-. lia.
Qed.

Lemma core_give h h' f pages large blocks lists p i b free lay :
  core h f pages large blocks lists -> pages !! p = Some (i, free) -> blocks !! b = Some lay -> class lay = i ->
  b ∈ slots p i -> b ∉ free ->
  owns h' (ranges pages large) (set_free p (b :: free) (<[b := hd 0 free]> f)) -> bucket h' = bucket h ->
  let f' := set_free p (b :: free) (<[b := hd 0 free]> f) in
  core h' f' (<[p := (i, b :: free)]> pages) large (delete b blocks) lists /\ keeps (delete b blocks) f f'.
Proof.
  intros C Hp Hb Hc Hbs Hnf HO' Hb'. cbv zeta. pose proof C as [HO Hs Hpg Hls _].
  pose proof (owns_aligned _ _ _ _ HO) as Hal.
  destruct (page_facts _ _ _ _ _ _ _ _ _ C Hp) as (Hp0 & Hpm & Hp64 & Hin & Hi & _ & _ & Hslot).
  destruct (Hslot b Hbs) as [Hbb _]. destruct (Hpg p i free Hp) as (_ & _ & Hlk).
  pose proof (shape_give _ _ _ _ _ _ _ _ Hs Hal Hp Hb Hc Hbs Hnf) as Hs'.
  assert (Hp' : <[p := (i, b :: free)]> pages !! p = Some (i, b :: free)) by apply lookup_insert_eq.
  assert (HO2 : owns h (ranges (<[p := (i, b :: free)]> pages) large) f) by (by erewrite ranges_update).
  split.
  - eapply core_page; [done|done|done|done| | |done].
    + intros x Hx. rewrite set_free_out by done. apply fn_lookup_insert_ne. lia.
    + eapply page_ok_set; [done|done|by apply (sh_page _ _ _ Hs' p)|]. split; [apply fn_lookup_insert|].
      eapply linked_ext; [|done]. intros b' Hb1. apply fn_lookup_insert_ne. congruence.
  - eapply keeps_trans; [eapply (keeps_free h f _ _ _ _ p); [done|done|done|apply list_elem_of_here]|].
    eapply keeps_set_free; [done|done|by eexists].
Qed.

(** A page joins its list at the front. *)
Lemma core_join h h' f pages large blocks lists i p l free :
  core h f pages large blocks lists -> lists !! i = Some l -> pages !! p = Some (i, free) -> p ∉ l ->
  let f' := <[head_prev p := 0]> (<[head_next p := hd 0 l]> (set_back p l f)) in
  owns h' (ranges pages large) f' -> bucket h' = <[i := p]> (bucket h) ->
  core h' f' pages large blocks (<[i := p :: l]> lists) /\ keeps blocks f f'.
Proof.
  intros C Hl Hp Hnin f' HO' Hb'. pose proof C as [HO Hs Hpg Hls Hb]. pose proof (owns_aligned _ _ _ _ HO) as Hal.
  pose proof (list_paged _ _ _ _ _ Hal Hls Hl) as Hpd. pose proof Hls as [Hlen Hl0].
  destruct (Hl0 i l Hl) as (Hnd & Hd & Hin). pose proof (Hal p ltac:(by eexists)) as (_ & Hpm & _).
  assert (Hw : forall x, (forall q, q ∈ p :: l -> ~ q <= x < q + 16) -> f' x = f x).
  { intros x Hx. pose proof (Hx p (list_elem_of_here _ _)). unfold f', head_prev, head_next.
    rewrite !fn_lookup_insert_ne by lia. destruct l as [|q l]; [done|]. cbn [set_back]. apply fn_lookup_insert_ne.
    specialize (Hx q ltac:(set_solver)). unfold head_prev. lia. }
  assert (Hpages : forall q, q ∈ p :: l -> exists fr, pages !! q = Some (i, fr)).
  { intros q [->|Hq]%elem_of_cons; [by eexists|by apply Hin]. }
  assert (Hw' : forall x, (forall q, is_Some (pages !! q) -> ~ q <= x < q + 16) -> f' x = f x).
  { intros x Hx. apply Hw. intros q Hq. apply Hx. destruct (Hpages q Hq) as [fr Hfr]. by eexists. }
  split; [|by eapply keeps_links]. eapply core_links; [done|done|done| |].
  - split; [by rewrite length_insert|]. intros j l'.
    intros [(<- & <- & Hlt)|[Hne Hj]]%list_lookup_insert_Some.
    + split_conj; [by apply NoDup_cons| |done]. cbn [dll]. split_conj.
      * apply fn_lookup_insert.
      * unfold f'. rewrite fn_lookup_insert_ne by (unfold head_prev, head_next; lia). apply fn_lookup_insert.
      * unfold f'. apply (dll_other _ _ _ p); [done|done|done|unfold head_prev; lia|].
        apply (dll_other _ _ _ p); [done|done|done|unfold head_next; lia|]. by eapply dll_set_back.
    + destruct (Hl0 j l' Hj) as (Hnd' & Hd' & Hin'). split_conj; [done| |done].
      eapply dll_ext; [|done]. intros q Hq. destruct (Hin' q Hq) as [fr Hfr].
      pose proof (Hal q ltac:(by eexists)) as (_ & Hqm & _).
      unfold head_prev, head_next. rewrite !Hw; [done| |]; intros r Hr; destruct (Hpages r Hr) as [fr' Hfr'];
        pose proof (Hal r ltac:(by eexists)) as (_ & Hrm & _); assert (r <> q) by congruence; lia.
  - by rewrite list_fmap_insert, Hb', Hb.
Qed.

Lemma listed_join pages lists p i l free :
  listed pages lists -> pages !! p = Some (i, []) -> lists !! i = Some l -> free <> [] ->
  listed (<[p := (i, free)]> pages) (<[i := p :: l]> lists).
Proof.
  intros Hli Hp Hl Hne q j fr l' Hq Hl'.
  apply list_lookup_insert_Some in Hl' as [(<- & <- & _)|[Hij Hl']];
    apply lookup_insert_Some in Hq as [[<- Hq]|[Hpq Hq]].
  - injection Hq as <-. split; [done|]. intros _. apply list_elem_of_here.
  - rewrite <-(Hli q i fr l Hq Hl), elem_of_cons. split; [intros [?|?]; [congruence|done]|by right].
  - congruence.
  - by apply (Hli q j).
Qed.

(** The list of pages gets the page whose first slot was freed. *)
Lemma join_spec h f pages large blocks lists i p l free (Q : unit -> heap -> Prop) :
  core h f pages large blocks lists -> lists !! i = Some l -> pages !! p = Some (i, free) -> p ∉ l ->
  (forall h' f', core h' f' pages large blocks (<[i := p :: l]> lists) -> keeps blocks f f' -> Q tt h') ->
  wp (b ← get_bucket i;
      (if negb (b =? 0) then write_word (head_prev b) p else mret tt);;
      b ← get_bucket i;
      write_word (head_next p) b;;
      write_word (head_prev p) 0;;
      put_bucket i p) h Q.
Proof.
  intros C Hl Hp Hnin HQ. pose proof (bucket_list _ _ _ _ _ _ _ _ C Hl) as Hb.
  destruct (page_facts _ _ _ _ _ _ _ _ _ C Hp) as (Hp0 & Hpm & Hp64 & Hin & _).
  assert (Hhd : 0 <= hd 0 l < 2 ^ 64).
  { destruct l as [|q l]; [done|]. destruct (list_page _ _ _ _ _ _ _ _ q C Hl (list_elem_of_here _ _)) as (? & _ & ? & ? & ? & _).
    cbn. lia. }
  wp_step. eapply get_bucket_spec; [done|]. wp_step.
  assert (Hgo : forall h1, owns h1 (ranges pages large) (set_back p l f) -> bucket h1 = bucket h ->
    wp (b ← get_bucket i; write_word (head_next p) b;; write_word (head_prev p) 0;; put_bucket i p) h1 Q).
  { intros h1 HO1 Hb1. wp_step. eapply get_bucket_spec; [by rewrite Hb1|].
    wp_step. eapply write_word_spec; [done|apply Hin; unfold head_next; lia|unfold head_next; lia|done|]. intros h2 HO2 Hb2.
    wp_step. eapply write_word_spec; [done|apply Hin; unfold head_prev; lia|unfold head_prev; lia|lia|]. intros h3 HO3 Hb3.
    eapply put_bucket_spec; [done|]. intros h4 HO4 Hb4.
    destruct (core_join h h4 f pages large blocks lists i p l free C Hl Hp Hnin HO4) as [C4 K4]; [congruence|].
    by eapply HQ. }
  destruct l as [|q l].
  - cbn [hd negb Z.eqb]. wp_step. apply Hgo; [apply C|done].
  - destruct (list_page _ _ _ _ _ _ _ _ q C Hl (list_elem_of_here _ _)) as (? & _ & Hq0 & Hqm & Hq64 & Hqin).
    cbn [hd]. rewrite (proj2 (Z.eqb_neq _ _)) by lia. cbn [negb].
    eapply write_word_spec; [apply C|apply Hqin; unfold head_prev; lia|unfold head_prev; lia|lia|].
    intros h1 HO1 Hb1. by apply Hgo.
Qed.

Lemma give_block_spec h f pages large blocks lists i p b free lay (Q : unit -> heap -> Prop) :
  core h f pages large blocks lists -> listed pages lists -> pages !! p = Some (i, free) ->
  blocks !! b = Some lay -> class lay = i -> b ∈ slots p i -> b ∉ free ->
  (forall h' f' lists', core h' f' (<[p := (i, b :: free)]> pages) large (delete b blocks) lists' ->
     listed (<[p := (i, b :: free)]> pages) lists' -> keeps (delete b blocks) f f' -> Q tt h') ->
  wp (give_block i p b) h Q.
Proof.
  intros C Hli Hp Hb Hc Hbs Hnf HQ. pose proof C as [HO Hs Hpg [Hlen Hls] _].
  destruct (page_facts _ _ _ _ _ _ _ _ _ C Hp) as (Hp0 & Hpm & Hp64 & Hin & Hi & Hcount & Hhd & Hslot).
  destruct (Hslot b Hbs) as [Hbb Hb8]. destruct (Hpg p i free Hp) as (Hfp & Hfc & Hlk).
  destruct (lookup_lt_is_Some_2 lists i) as [l Hl]; [lia|].
  unfold give_block. unfold body_next.
  wp_step. eapply read_word_spec; [done|apply Hin; unfold head_free_ptr; lia|unfold head_free_ptr; lia|]. rewrite Hfp.
  wp_step. eapply write_word_spec; [done|apply Hin; lia|done|done|]. intros h1 HO1 Hb1.
  wp_step. eapply write_word_spec; [done|apply Hin; unfold head_free_ptr; lia|unfold head_free_ptr; lia|lia|]. intros h2 HO2 Hb2.
  wp_step. eapply read_word_spec; [done|apply Hin; unfold head_free_count; lia|unfold head_free_count; lia|].
  rewrite !fn_lookup_insert_ne, Hfc by (unfold head_free_ptr, head_free_count; lia).
  wp_step. wp_step; [lia|].
  wp_step. eapply write_word_spec; [done|apply Hin; unfold head_free_count; lia|unfold head_free_count; lia|lia|]. intros h3 HO3 Hb3.
  wp_step. eapply read_word_spec; [done|apply Hin; unfold head_free_count; lia|unfold head_free_count; lia|].
  rewrite fn_lookup_insert.
  replace (Z.of_nat (length free) + 1) with (Z.of_nat (length (b :: free))) in HO3 |- * by (cbn; lia).
  change (owns h3 (ranges pages large) (set_free p (b :: free) (<[b := hd 0 free]> f))) in HO3.
  destruct (core_give h h3 f pages large blocks lists p i b free lay) as [C3 K3]; try done; [congruence|].
  destruct (Z.eqb_spec (Z.of_nat (length (b :: free))) 1) as [H1|H1].
  - destruct free as [|? ?]; [|cbn in H1; lia].
    eapply (join_spec h3 _ _ _ _ lists i p l [b]); [done|done|apply lookup_insert_eq| |].
    { intros Hpl. by apply (Hli p i [] l Hp Hl). }
    intros h4 f4 C4 K4. eapply HQ; [done| |by eapply keeps_trans]. by apply listed_join.
  - wp_step. eapply HQ; [done| |done]. eapply listed_stay; [done|done|]. split; [|done]. intros ->. cbn in H1. lia.
Qed.

(** ** Giving a page back *)

Lemma shape_drop pages large blocks p i free :
  shape pages large blocks -> pages !! p = Some (i, free) -> slots p i ⊆ free -> shape (delete p pages) large blocks.
Proof.
  intros Hs Hp Hall. split.
  - intros q [pg [_ Hq]%lookup_delete_Some]. apply (sh_disjoint _ _ _ Hs). by eexists.
  - intros q j fr [_ Hq]%lookup_delete_Some. by apply (sh_page _ _ _ Hs).
  - intros b lay Hb. pose proof (sh_block _ _ _ Hs b lay Hb) as H. case_decide; [|done].
    destruct H as (q & fr & Hq & Hbs & Hnf). exists q, fr. rewrite lookup_delete_ne; [done|].
    intros ->. rewrite Hp in Hq. injection Hq as -> ->. by apply Hnf, Hall.
  - intros q j fr b [_ Hq]%lookup_delete_Some. by apply (sh_slot _ _ _ Hs).
  - apply (sh_large _ _ _ Hs).
Qed.

Lemma core_drop h h' f pages large blocks lists p i free :
  core h f pages large blocks lists -> pages !! p = Some (i, free) -> slots p i ⊆ free ->
  (forall j l, lists !! j = Some l -> p ∉ l) -> owns h' (delete p (ranges pages large)) f -> bucket h' = bucket h ->
  core h' f (delete p pages) large blocks lists.
Proof.
  intros [HO Hs Hpg [Hlen Hls] Hb] Hp Hall Hnin HO' Hb'. split.
  - rewrite ranges_delete_page; [done|]. apply (sh_disjoint _ _ _ Hs). by eexists.
  - by eapply shape_drop.
  - intros q j fr [_ Hq]%lookup_delete_Some. by apply (Hpg q j).
  - split; [done|]. intros j l Hl. destruct (Hls j l Hl) as (Hnd & Hd & Hin). split_conj; [done|done|].
    intros q Hq. destruct (Hin q Hq) as [fr Hfr]. exists fr. rewrite lookup_delete_ne; [done|]. intros ->. by eapply Hnin.
  - congruence.
Qed.

Lemma dll_mid f prev l1 p l2 :
  dll f prev (l1 ++ p :: l2) -> f (head_prev p) = default prev (last l1) /\ f (head_next p) = hd 0 l2.
Proof.
  revert prev. induction l1 as [|a l1 IH]; intros prev; cbn [app dll].
  - by intros (H1 & H2 & _).
  - intros (_ & _ & H). apply IH in H as [H1 H2]. split; [|done]. rewrite H1, last_cons. by destruct (last l1).
Qed.

(** The page between [l1] and [l2] leaves the list. *)
Lemma unlink_spec h f pages large blocks lists i p l1 l2 (Q : unit -> heap -> Prop) :
  core h f pages large blocks lists -> lists !! i = Some (l1 ++ p :: l2) ->
  (forall h' f', core h' f' pages large blocks (<[i := l1 ++ l2]> lists) -> keeps blocks f f' -> Q tt h') ->
  wp (prev ← read_word (head_prev p);
      if prev =? 0 then
        next ← read_word (head_next p);
        put_bucket i next;;
        b ← get_bucket i;
        if negb (b =? 0) then
          next ← read_word (head_next p);
          write_word (head_prev next) 0
        else mret tt
      else
        prev ← read_word (head_prev p);
        next ← read_word (head_next p);
        write_word (head_next prev) next;;
        next ← read_word (head_next p);
        if negb (next =? 0) then
          next ← read_word (head_next p);
          prev ← read_word (head_prev p);
          write_word (head_prev next) prev
        else mret tt) h Q.
Proof.
  intros C Hl HQ. pose proof C as [HO Hs _ Hls _]. pose proof (owns_aligned _ _ _ _ HO) as Hal.
  pose proof (list_paged _ _ _ _ _ Hal Hls Hl) as [Hnd _]. destruct Hls as [_ Hls].
  destruct (Hls i _ Hl) as (_ & Hd & _). destruct (dll_mid _ _ _ _ _ Hd) as [Hprev Hnext].
  assert (Hat : forall q, q ∈ l1 ++ p :: l2 -> 0 < q /\ q `mod` 0x1000 = 0 /\ q + 0x1000 < 2 ^ 64 /\
    forall x, q <= x < q + 0x1000 -> inside (ranges pages large) x).
  { intros q Hq. destruct (list_page _ _ _ _ _ _ _ _ q C Hl Hq) as (? & _ & ? & ? & ? & ?). done. }
  destruct (Hat p ltac:(set_solver)) as (Hp0 & Hpm & Hp64 & Hin).
  assert (Hnb : 0 <= hd 0 l2 < 2 ^ 64).
  { destruct l2 as [|q l2]; [done|]. destruct (Hat q ltac:(set_solver)) as (? & ? & ? & _). cbn. lia. }
  assert (Hr : forall h0 f0 (x : Z) (Q0 : Z -> heap -> Prop), owns h0 (ranges pages large) f0 -> p <= x < p + 32 ->
    x `mod` 8 = 0 -> Q0 (f0 x) h0 -> wp (read_word x) h0 Q0).
  { intros h0 f0 x Q0 HO0 Hx H8 HQ0. eapply read_word_spec; [done|apply Hin; lia|done|done]. }
  unfold head_prev, head_next in *.
  wp_step. eapply Hr; [done|lia|lia|]. rewrite Hprev. destruct (last l1) as [a|] eqn:Ha; cbn [from_option id] in Hprev |- *.
  - pose proof Ha as [l1' ->]%last_Some. destruct (Hat a ltac:(set_solver)) as (Ha0 & Ham & Ha64 & Hain).
    assert (Hap : a <> p).
    { intros ->. apply NoDup_app in Hnd as (_ & Hd' & _). apply (Hd' p); set_solver. }
    rewrite (proj2 (Z.eqb_neq _ _)) by lia.
    wp_step. eapply Hr; [done|lia|lia|]. rewrite Hprev. wp_step. eapply Hr; [done|lia|lia|]. rewrite Hnext.
    wp_step. eapply write_word_spec; [done|apply Hain; lia|lia|done|]. intros h1 HO1 Hb1.
    assert (Hn1 : (<[a + 8 := hd 0 l2]> f) (p + 8) = hd 0 l2) by (rewrite fn_lookup_insert_ne by lia; done).
    wp_step. eapply Hr; [done|lia|lia|]. rewrite Hn1.
    destruct l2 as [|q l2].
    + cbn [hd negb Z.eqb] in *. wp_step.
      destruct (core_leave h h1 f (<[a + 8 := 0]> f) pages large blocks lists i (l1' ++ [a]) p []) as [C1 K1]; try done.
      * by rewrite Ha.
      * rewrite Hb1. by destruct l1'.
      * by eapply HQ.
    + cbn [hd] in *. destruct (Hat q ltac:(set_solver)) as (Hq0 & Hqm & Hq64 & Hqin).
      rewrite (proj2 (Z.eqb_neq _ _)) by lia. cbn [negb].
      wp_step. eapply Hr; [done|lia|lia|]. rewrite Hn1. wp_step. eapply Hr; [done|lia|lia|].
      rewrite fn_lookup_insert_ne, Hprev by lia.
      eapply write_word_spec; [done|apply Hqin; lia|lia|lia|]. intros h2 HO2 Hb2.
      destruct (core_leave h h2 f (<[q := a]> (<[a + 8 := q]> f)) pages large blocks lists i (l1' ++ [a]) p (q :: l2))
        as [C2 K2]; try done.
      * by rewrite Ha.
      * rewrite Hb2, Hb1. by destruct l1'.
      * by eapply HQ.
  - apply last_None in Ha as ->. cbn [Z.eqb]. wp_step. eapply Hr; [done|lia|lia|]. rewrite Hnext.
    wp_step. eapply put_bucket_spec; [done|]. intros h1 HO1 Hb1.
    pose proof (bucket_list _ _ _ _ _ _ _ _ C Hl) as Hbi. apply lookup_lt_Some in Hbi.
    wp_step. eapply get_bucket_spec; [rewrite Hb1; by apply list_lookup_insert_eq|].
    destruct l2 as [|q l2].
    + cbn [hd negb Z.eqb]. wp_step. apply (HQ _ f); [|done].
      by eapply (core_leave h h1 f f pages large blocks lists i [] p []).
    + cbn [hd] in *. destruct (Hat q ltac:(set_solver)) as (Hq0 & Hqm & Hq64 & Hqin).
      rewrite (proj2 (Z.eqb_neq _ _)) by lia. cbn [negb]. wp_step. eapply Hr; [done|lia|lia|]. rewrite Hnext.
      eapply write_word_spec; [done|apply Hqin; lia|lia|lia|]. intros h2 HO2 Hb2.
      destruct (core_leave h h2 f (<[q := 0]> f) pages large blocks lists i [] p (q :: l2)) as [C2 K2]; try done.
      * by rewrite Hb2, Hb1.
      * by eapply HQ.
Qed.

Lemma give_page_spec h f pages large blocks lists i p free (Q : unit -> heap -> Prop) :
  core h f pages large blocks lists -> listed pages lists -> pages !! p = Some (i, free) -> free <> [] ->
  (forall q j fr, pages !! q = Some (j, fr) -> q <> p -> Z.of_nat (length fr) < c_count j) ->
  (forall h' f', heap_inv h' f' blocks -> keeps blocks f f' -> Q tt h') ->
  wp (give_page i p (c_count i)) h Q.
Proof.
  intros C Hli Hp Hne Hroom HQ. pose proof C as [HO Hs Hpg [Hlen Hls] _].
  destruct (page_facts _ _ _ _ _ _ _ _ _ C Hp) as (Hp0 & Hpm & Hp64 & Hin & Hi & Hcount & _).
  destruct (Hpg p i free Hp) as (_ & Hfc & _). destruct (sh_page _ _ _ Hs p i free Hp) as (_ & Hnd & Hsub).
  unfold give_page.
  wp_step. eapply read_word_spec; [done|apply Hin; unfold head_free_count; lia|unfold head_free_count; lia|]. rewrite Hfc.
  destruct (Z.eqb_spec (Z.of_nat (length free)) (c_count i)) as [Hfull|Hpart].
  - destruct (lookup_lt_is_Some_2 lists i) as [l Hl]; [lia|].
    pose proof (proj2 (Hli p i free l Hp Hl) Hne) as Hpl. apply list_elem_of_split in Hpl as (l1 & l2 & ->).
    apply wp_bind_assoc. wp_step. eapply unlink_spec; [done|done|]. intros h1 f1 C1 K1.
    eapply deallocate_pages_spec; [apply C1|by eapply ranges_page|]. intros h2 HO2 Hb2.
    apply (HQ h2 f1); [|done]. exists (delete p pages), large, (<[i := l1 ++ l2]> lists). split_conj.
    + eapply (core_drop h1 h2 f1); try done; [by apply (slots_full p i)|]. intros j l' Hj Hpl.
      apply list_lookup_insert_Some in Hj as [(<- & <- & _)|[Hij Hj]].
      * destruct (Hls i _ Hl) as (Hnd' & _). apply NoDup_app in Hnd' as (_ & H1 & [H2 _]%NoDup_cons).
        apply elem_of_app in Hpl as [Hpl|Hpl]; [|done]. apply (H1 p Hpl). set_solver.
      * destruct (Hls j l' Hj) as (_ & _ & Hin'). destruct (Hin' p Hpl) as [fr Hfr]. congruence.
    + intros q j fr l' [Hq1 Hq]%lookup_delete_Some [(<- & <- & _)|[Hij Hj]]%list_lookup_insert_Some;
        [|by apply (Hli q j)].
      rewrite <-(Hli q i fr _ Hq Hl). set_solver.
    + intros q j fr [Hq1 Hq]%lookup_delete_Some. by eapply Hroom.
  - wp_step. apply (HQ h f); [|done]. exists pages, large, lists. split_conj; [done|done|].
    intros q j fr Hq. destruct (decide (q = p)) as [->|Hqp]; [|by eapply Hroom]. rewrite Hp in Hq.
    injection Hq as <- <-. lia.
Qed.

Lemma heap_deallocate_spec lay h f blocks b (Q : unit -> heap -> Prop) :
  heap_inv h f blocks -> blocks !! b = Some lay -> layout_ok lay ->
  (forall h' f', heap_inv h' f' (delete b blocks) -> keeps (delete b blocks) f f' -> Q tt h') ->
  wp (deallocate b lay) h Q.
Proof.
  intros (pages & large & lists & C & Hli & Hu) Hb Hlay HQ. pose proof C as [HO Hs _ _ _].
  pose proof (sh_block _ _ _ Hs b lay Hb) as Hblk. unfold deallocate. rewrite land_low, land_page. fold (class lay).
  case_decide as Hc.
  - destruct Hblk as (p & free & Hp & Hbs & Hnf).
    destruct (page_facts _ _ _ _ _ _ _ _ _ C Hp) as (_ & Hpm & _ & _ & _ & _).
    destruct (slot_page p _ b Hc Hpm Hbs) as [-> Hoff]. rewrite (proj2 (Z.eqb_neq _ _)) by done.
    destruct (class_facts _ Hc) as (_ & -> & _).
    wp_step. eapply give_block_spec; try done. intros h1 f1 lists1 C1 Hli1 K1.
    eapply give_page_spec; [done|done|apply lookup_insert_eq|done| |].
    + intros q j fr Hq Hne. rewrite lookup_insert_ne in Hq by done. by apply (Hu q).
    + intros h2 f2 HI2 K2. apply (HQ h2 f2); [done|by eapply keeps_trans].
  - destruct (large_aligned _ _ _ _ _ _ _ Hs HO Hblk) as (_ & Hbm & _). rewrite Hbm. cbn [Z.eqb].
    wp_step. apply pages_size_spec; [by apply layout_effective|].
    destruct (ranges_large _ _ _ _ _ Hs Hblk) as [Hr Hnp].
    eapply deallocate_pages_spec; [done|done|]. intros h1 HO1 Hb1. apply (HQ h1 f); [|done].
    exists pages, (delete b large), lists. split_conj; [|done|done].
    eapply core_large; [done| |by rewrite ranges_delete_large|done|done].
    eapply shape_unlarge; [done|done|done|]. intros p i free Hp Hin.
    destruct (page_facts _ _ _ _ _ _ _ _ _ C Hp) as (_ & Hpm & _ & _ & Hi & _).
    destruct (slot_page p i b Hi Hpm Hin). lia.
Qed.

(** Clients write to their blocks. *)
Lemma client_write h f blocks b lay x v (Q : unit -> heap -> Prop) :
  heap_inv h f blocks -> blocks !! b = Some lay -> b <= x < b + span lay -> x `mod` 8 = 0 -> 0 <= v < 2 ^ 64 ->
  (forall h', heap_inv h' (<[x := v]> f) blocks -> Q tt h') -> wp (write_word x v) h Q.
Proof.
  intros (pages & large & lists & C & Hli & Hu) Hb Hx H8 Hv HQ. pose proof C as [HO Hs Hpg [Hlen Hls] Hbu].
  eapply write_word_spec; [done|by eapply block_inside|done|done|]. intros h1 HO1 Hb1. apply HQ.
  exists pages, large, lists. split_conj; [|done|done].
  assert (Hout : forall p i free y, pages !! p = Some (i, free) -> p <= y < p + 0x1000 ->
    (forall b', b' ∈ slots p i -> b' <= y < b' + c_size i -> b' ∈ free) -> <[x := v]> f y = f y).
  { intros p i free y Hp Hy Hfree. apply fn_lookup_insert_ne. intros <-.
    by eapply (block_avoids pages large blocks h f p i free x b lay). }
  assert (Hhead : forall p i free y, pages !! p = Some (i, free) -> p <= y < p + 32 -> <[x := v]> f y = f y).
  { intros p i free y Hp Hy. destruct (page_facts _ _ _ _ _ _ _ _ _ C Hp) as (_ & _ & _ & _ & Hi & _ & _ & Hsl).
    eapply Hout; [done|lia|]. intros b' Hb' Hin. destruct (Hsl b' Hb'). lia. }
  split; [done|done| | |congruence].
  - intros p i free Hp. destruct (Hpg p i free Hp) as (H1 & H2 & H3).
    destruct (page_facts _ _ _ _ _ _ _ _ _ C Hp) as (_ & _ & _ & _ & Hi & _ & _ & Hsl).
    destruct (sh_page _ _ _ Hs p i free Hp) as (_ & _ & Hsub). destruct (class_facts i Hi) as (_ & _ & Hc & _).
    unfold page_ok. rewrite !(Hhead p i free) by (done || (unfold head_free_ptr, head_free_count; lia)).
    split_conj; [done|done|]. eapply linked_ext; [|done]. intros c Hcf. destruct (Hsl c (Hsub c Hcf)) as [? _].
    eapply Hout; [done|lia|]. intros b' Hb' Hin. destruct (decide (b' = c)) as [->|Hne]; [done|].
    destruct (slot_apart p i b' c Hi Hb' (Hsub c Hcf) Hne); lia.
  - split; [done|]. intros i l Hl. destruct (Hls i l Hl) as (Hnd & Hd & Hin). split_conj; [done| |done].
    eapply dll_ext; [|done]. intros p Hp. destruct (Hin p Hp) as [fr Hfr]. unfold head_prev, head_next.
    rewrite !(Hhead p i fr) by (done || lia). done.
Qed.

Lemma client_read h f blocks b lay x (Q : Z -> heap -> Prop) :
  heap_inv h f blocks -> blocks !! b = Some lay -> b <= x < b + span lay -> x `mod` 8 = 0 ->
  Q (f x) h -> wp (read_word x) h Q.
Proof.
  intros (pages & large & lists & C & _ & _) Hb Hx H8 HQ.
  eapply read_word_spec; [apply C|by eapply block_inside|done|done].
Qed.

Lemma heap_new_inv s : p_inv s ∅ -> heap_inv (new s) (fun x => default 0 (peek x s)) ∅.
Proof.
  intros HI. exists ∅, ∅, (replicate 9 []). split_conj.
  - split.
    + split; [done|]. intros x (a & n & Ha & _). done.
    + split; done.
    + done.
    + split; [done|]. intros i l [-> _]%lookup_replicate. split_conj; [apply NoDup_nil_2|done|].
      intros p Hp. by apply elem_of_nil in Hp.
    + done.
  - done.
  - done.
Qed.

(** Without blocks there are no pages. *)
Lemma empty_pages h f : heap_inv h f ∅ -> p_inv (provider h) ∅.
Proof.
  intros (pages & large & lists & C & Hli & Hu). pose proof C as [[HI _] Hs _ _ _].
  assert (pages = ∅) as ->.
  { apply map_eq. intros p. rewrite lookup_empty. destruct (pages !! p) as [[i free]|] eqn:Hp; [|done]. exfalso.
    pose proof (Hu p i free Hp) as Hlt. destruct (sh_page _ _ _ Hs p i free Hp) as (Hi & _ & _).
    assert (slots p i ⊆ free) as Hsub.
    { intros b Hb. destruct (sh_slot _ _ _ Hs p i free b Hp Hb) as [?|[lay Hlay]]; [done|]. by rewrite lookup_empty in Hlay. }
    pose proof (submseteq_length _ _ (NoDup_submseteq _ _ (NoDup_slots p i Hi) Hsub)).
    pose proof (length_slots p i Hi). lia. }
  assert (large = ∅) as ->; [|by unfold ranges in HI; rewrite fmap_empty, map_empty_union in HI].
  apply map_eq. intros b. rewrite lookup_empty. destruct (large !! b) as [n|] eqn:Hb; [|done].
  destruct (sh_large _ _ _ Hs b n Hb) as (lay & Hlay & _). by rewrite lookup_empty in Hlay.
Qed.
End heap.
