(* ===== verification/HeapRefine.v ===== *)
(** * The heap as a store of blocks

    To a client the heap is a set of blocks with their contents. Every
    operation on the words of pages does what the store does; a heap whose
    blocks have all been freed holds no page. *)
From stdpp Require Import functions.
From S2P Require Import Prelude Heap HeapSpec.

(** ** The store *)

Record Store : Type := mkStore { st_blocks : gmap Z Layout; st_mem : Z -> Z }.

(** What a client does. *)
Inductive Op : Type :=
| OAlloc (layout : Layout)
| OFree (ptr : Z) (layout : Layout)
| OLoad (x : Z)
| OStore (x v : Z).

(** A word of a block. *)
Definition in_block (blocks : gmap Z Layout) (x : Z) : Prop :=
  exists b lay, blocks !! b = Some lay /\ b <= x < b + layout_size lay /\ x `mod` 8 = 0.

Definition same_contents (blocks : gmap Z Layout) (mem mem' : Z -> Z) : Prop :=
  forall x, in_block blocks x -> mem' x = mem x.

(** A block for [lay] at [b], apart from the others. *)
Definition fits_at (blocks : gmap Z Layout) (b : Z) (lay : Layout) : Prop :=
  0 < b /\ b + layout_size lay < 2 ^ 64 /\ blocks !! b = None /\
  (layout_align lay <= 0x1000 -> b `mod` layout_align lay = 0) /\
  forall b' lay', blocks !! b' = Some lay' -> b + layout_size lay <= b' \/ b' + layout_size lay' <= b.

Section heap.
  Context {P : Type} {HP : MemoryPageProvider P} {HL : ProviderLaws P}.
  Notation heap := (RustHeap P).

(** What the client may do. *)
Definition allowed (st : Store) (op : Op) : Prop :=
  match op with
  | OAlloc lay => layout_ok lay
  | OFree b lay => st_blocks st !! b = Some lay
  | OLoad x => in_block (st_blocks st) x
  | OStore x v => in_block (st_blocks st) x /\ 0 <= v < 2 ^ 64
  end.

(** What it gets, the null pointer when there is no memory. *)
Definition answers (st : Store) (op : Op) (r : Z) (st' : Store) : Prop :=
  match op with
  | OAlloc lay =>
      same_contents (st_blocks st) (st_mem st) (st_mem st') /\
      if r =? 0 then st_blocks st' = st_blocks st
      else fits_at (st_blocks st) r lay /\ st_blocks st' = <[r := lay]> (st_blocks st)
  | OFree b _ =>
      st_blocks st' = delete b (st_blocks st) /\ same_contents (st_blocks st') (st_mem st) (st_mem st')
  | OLoad x => r = st_mem st x /\ st' = st
  | OStore x v => st' = mkStore (st_blocks st) (<[x := v]> (st_mem st))
  end.

Definition run (op : Op) : M heap Empty_set Z :=
  match op with
  | OAlloc lay => allocate lay
  | OFree b lay => deallocate b lay;; mret 0
  | OLoad x => read_word x
  | OStore x v => write_word x v;; mret 0
  end.

(** The heap holds the store. *)
Definition holds (h : heap) (st : Store) : Prop :=
  exists f, heap_inv h f (st_blocks st) /\
    (forall b lay, st_blocks st !! b = Some lay -> layout_ok lay) /\
    forall x, in_block (st_blocks st) x -> st_mem st x = f x.

Lemma in_block_span blocks x :
  (forall b lay, blocks !! b = Some lay -> layout_ok lay) -> in_block blocks x ->
  exists b lay, blocks !! b = Some lay /\ b <= x < b + span lay /\ x `mod` 8 = 0.
Proof.
  intros Hok (b & lay & Hb & Hx & H8). exists b, lay. pose proof (span_size lay (Hok b lay Hb)). split_conj; [done|lia|lia|done].
Qed.

Lemma keeps_contents blocks f f' mem :
  (forall b lay, blocks !! b = Some lay -> layout_ok lay) -> keeps blocks f f' ->
  (forall x, in_block blocks x -> mem x = f x) -> same_contents blocks mem f'.
Proof.
  intros Hok K Hm x Hx. destruct (in_block_span _ _ Hok Hx) as (b & lay & Hb & Hxb & H8).
  rewrite (K b lay) by done. symmetry. auto.
Qed.

Lemma in_block_delete blocks b x : in_block (delete b blocks) x -> in_block blocks x.
Proof. intros (c & lay & [_ Hc]%lookup_delete_Some & Hx). by exists c, lay. Qed.

Lemma block_fits h f blocks b lay :
  heap_inv h f (<[b := lay]> blocks) -> blocks !! b = None -> layout_ok lay ->
  (forall b' lay', blocks !! b' = Some lay' -> layout_ok lay') -> fits_at blocks b lay.
Proof.
  intros (pages & large & lists & C & _ & _) Hb Hlay Hok.
  destruct (block_place _ _ _ _ _ _ b lay C (lookup_insert_eq _ _ _) Hlay) as (H0 & _ & H64 & Ha).
  pose proof (span_size lay Hlay). unfold fits_at. split_conj; [done|lia|done|done|]. intros b' lay' Hb'.
  assert (b <> b') as Hne by congruence.
  pose proof (blocks_disjoint _ _ _ _ _ _ b lay b' lay' C (lookup_insert_eq _ _ _)
    ltac:(by rewrite lookup_insert_ne) Hne). pose proof (span_size lay' (Hok b' lay' Hb')). lia.
Qed.

(** C7: The heap refines the store of blocks. Whatever a client that follows
    the rules does next, the operation ends without a panic and without
    touching an address that is not mapped, answers as the store does, and
    the heap holds the store that results. A new block is not null, aligned
    as asked (to at most a page) and apart from every block in use; an
    allocation without memory answers null; neither allocating nor freeing
    changes a word of another block; and a block keeps what was stored. *)
Theorem heap_refines (op : Op) (h : heap) (st : Store) :
  holds h st -> allowed st op ->
  wp (run op) h (fun r h' => exists st', answers st op r st' /\ holds h' st').
Proof.
  intros (f & HI & Hok & Hm) Ha. destruct op as [lay|b lay|x|x v]; cbn [run allowed answers] in *.
  - eapply heap_allocate_spec; [done|done| |].
    + intros h' f' HI' K. exists (mkStore (st_blocks st) f'). cbn. split; [split; [by eapply keeps_contents|done]|].
      by exists f'.
    + intros b h' f' Hb HI' K. pose proof (block_fits _ _ _ _ _ HI' Hb Ha Hok) as Hfit.
      exists (mkStore (<[b := lay]> (st_blocks st)) f'). cbn. split.
      * split; [by eapply keeps_contents|]. by rewrite (proj2 (Z.eqb_neq _ _)) by (destruct Hfit; lia).
      * exists f'. cbn. split_conj; [done| |done].
        intros b' lay' [[<- <-]|[_ Hb']]%lookup_insert_Some; [done|by eapply Hok].
  - wp_step. eapply heap_deallocate_spec; [done|done|by eapply Hok|]. intros h' f' HI' K. wp_step.
    assert (Hok' : forall b' lay', delete b (st_blocks st) !! b' = Some lay' -> layout_ok lay').
    { intros b' lay' [_ Hb']%lookup_delete_Some. by eapply Hok. }
    exists (mkStore (delete b (st_blocks st)) f'). cbn. split; [split; [done|]|by exists f'].
    eapply keeps_contents; [done|done|]. intros x Hx. apply Hm. by eapply in_block_delete.
  - destruct (in_block_span _ _ Hok Ha) as (b & lay & Hb & Hx & H8).
    eapply client_read; [done|done|done|done|]. exists st. split; [split; [symmetry; by apply Hm|done]|by exists f].
  - destruct Ha as [Hin Hv]. destruct (in_block_span _ _ Hok Hin) as (b & lay & Hb & Hx & H8).
    wp_step. eapply client_write; [done|done|done|done|done|]. intros h' HI'. wp_step.
    exists (mkStore (st_blocks st) (<[x := v]> (st_mem st))). split; [done|]. exists (<[x := v]> f). cbn.
    split_conj; [done|done|]. intros y Hy. destruct (decide (x = y)) as [<-|Hne].
    + by rewrite !fn_lookup_insert.
    + rewrite !fn_lookup_insert_ne by done. auto.
Qed.

(** ** Histories *)

Definition blocks_after (blocks : gmap Z Layout) (op : Op) (r : Z) : gmap Z Layout :=
  match op with
  | OAlloc lay => if r =? 0 then blocks else <[r := lay]> blocks
  | OFree b _ => delete b blocks
  | _ => blocks
  end.

(** The heaps a client reaches, with the blocks it has. *)
Inductive reached (s0 : P) : heap -> gmap Z Layout -> Prop :=
| reached_new : reached s0 (new s0) ∅
| reached_step h blocks mem op r h' :
    reached s0 h blocks -> allowed (mkStore blocks mem) op -> run op h = (Ok r, h') ->
    reached s0 h' (blocks_after blocks op r).

Lemma reached_inv s0 h blocks :
  p_inv s0 ∅ -> reached s0 h blocks ->
  (exists f, heap_inv h f blocks) /\ forall b lay, blocks !! b = Some lay -> layout_ok lay.
Proof.
  intros H0 Hr. induction Hr as [|h blocks mem op r h' _ [[f HI] Hok] Ha He].
  { split; [eexists; by apply heap_new_inv|]. intros b lay Hb. by rewrite lookup_empty in Hb. }
  assert (Hrun : forall Q, wp (run op) h Q -> Q r h') by (intros Q HQ; unfold wp in HQ; by rewrite He in HQ).
  destruct op as [lay|b lay|x|x v]; cbn [run allowed blocks_after] in *; apply (Hrun (fun r h' => _)).
  - eapply heap_allocate_spec; [done|done| |].
    + intros h1 f1 HI1 _. split; [by eexists|done].
    + intros b h1 f1 Hb HI1 _. destruct (block_fits _ _ _ _ _ HI1 Hb Ha Hok) as (Hpos & _).
      rewrite (proj2 (Z.eqb_neq _ _)) by lia. split; [by eexists|].
      intros b' lay' [[<- <-]|[_ Hb']]%lookup_insert_Some; [done|by eapply Hok].
  - wp_step. eapply heap_deallocate_spec; [done|done|by eapply Hok|]. intros h1 f1 HI1 _. wp_step. split; [by eexists|].
    intros b' lay' [_ Hb']%lookup_delete_Some. by eapply Hok.
  - destruct (in_block_span _ _ Hok Ha) as (b & lay & Hb & Hx & H8).
    eapply client_read; [done|done|done|done|]. split; [by eexists|done].
  - destruct Ha as [Hin Hv]. destruct (in_block_span _ _ Hok Hin) as (b & lay & Hb & Hx & H8).
    wp_step. eapply client_write; [done|done|done|done|done|]. intros h1 HI1. wp_step. split; [by eexists|done].
Qed.

(** A history: a block is allocated, and freed when there was memory for it. *)
Lemma alloc_free_history s0 lay :
  p_inv s0 ∅ -> layout_ok lay ->
  exists r h1 h2, run (OAlloc lay) (new s0) = (Ok r, h1) /\
    (if r =? 0 then h2 = h1 else run (OFree r lay) h1 = (Ok 0, h2)) /\ reached s0 h2 ∅.
Proof.
  intros H0 Hlay. pose proof (heap_new_inv s0 H0) as Hi.
  assert (Ha : wp (run (OAlloc lay)) (new s0) (fun r h1 =>
    exists f1, heap_inv h1 f1 (blocks_after ∅ (OAlloc lay) r) /\
      (r <> 0 -> blocks_after ∅ (OAlloc lay) r = <[r := lay]> ∅))).
  { apply (heap_allocate_spec lay _ _ ∅ _ Hi Hlay).
    - intros h' f' HI _. by exists f'.
    - intros b h' f' _ HI _. pose proof (block_fits h' f' ∅ b lay HI (lookup_empty _) Hlay ltac:(done)) as (Hb & _).
      exists f'. cbn [blocks_after]. rewrite (proj2 (Z.eqb_neq _ _)) by lia. done. }
  apply wp_run in Ha as (r & h1 & Hr & f1 & HI1 & Hblk). exists r, h1.
  assert (R1 : reached s0 h1 (blocks_after ∅ (OAlloc lay) r)).
  { eapply (reached_step s0 (new s0) ∅ (fun _ => 0) (OAlloc lay)); [constructor|exact Hlay|done]. }
  destruct (Z.eqb_spec r 0) as [->|Hne]; [by exists h1|]. rewrite (Hblk Hne) in HI1, R1.
  assert (Hf : wp (run (OFree r lay)) h1 (fun x _ => x = 0)).
  { cbn [run]. apply wp_bind, (heap_deallocate_spec lay h1 f1 _ r _ HI1 (lookup_insert_eq _ _ _) Hlay). by intros. }
  apply wp_run in Hf as (x & h2 & Hh2 & ->). exists h2. split_conj; [done|done|].
  replace (∅ : gmap Z Layout) with (blocks_after (<[r := lay]> ∅) (OFree r lay) 0) by (by apply delete_insert_id).
  eapply (reached_step s0 h1 _ (fun _ => 0)); [done|apply lookup_insert_eq|done].
Qed.

(** C9: The heap does not leak pages. Whatever a client that follows the
    rules has done, once it has freed all its blocks the provider has all its
    pages back: the ranges of pages handed out are none. *)
Theorem heap_no_leak (s0 : P) (h : heap) :
  p_inv s0 ∅ -> reached s0 h ∅ -> p_inv (provider h) ∅.
Proof. intros H0 Hr. destruct (reached_inv _ _ _ H0 Hr) as [[f HI] _]. by eapply empty_pages. Qed.

End heap.
