(* ===== verification/KernelHeap.v ===== *)
(** * The heap of the kernel (kernel/src/memory/heap.rs)

    [PhysicalMemoryPageProvider] takes pages with [alloc_mapped_frame] and
    gives them back with [free_mapped_frame]. It is a provider in the sense of
    the heap: the heap's blocks are words of frames, found through the page
    tables of the kernel, and the tables and the free frames change under it
    without a word of a block being lost. *)
From stdpp Require Import functions.
From S2P Require Import Prelude Physics PhysicsSpec Page PageForest PageSpec PageUnmap PageAlloc PageAccess Heap HeapSpec HeapRefine.

(** [Result::ok] *)
Definition ok {S E E' A} (m : M S E A) : M S E' (option A) := fun s =>
  match m s with
  | (Ok a, s') => (Ok (Some a), s')
  | (Err _, s') => (Ok None, s')
  | (Panic, s') => (Panic, s')
  | (Diverge, s') => (Diverge, s')
  end.

Lemma wpe_ok {S E E' A} (m : M S E A) s (Q : option A -> S -> Prop) :
  wpe m s (fun a => Q (Some a)) (fun _ => Q None) -> wp (ok (E':=E') m) s Q.
Proof. unfold wp, wpe, ok. by destruct (m s) as [[]]. Qed.

(** Rounds for the search through all addresses of the kernel's heap. *)
Definition kernel_rounds : nat := Z.to_nat ((KERNEL_SEARCH_END - KERNEL_SEARCH_START) / 0x1000 + 1).

Definition kernel_allocate_pages (size : Z) : M Machine Empty_set (option Z) :=
  pml4 ← kernel_pml4;
  ok (alloc_mapped_frame kernel_rounds pml4 size KERNEL_DATA).

Definition kernel_deallocate_pages (address size : Z) : M Machine Empty_set unit :=
  pml4 ← kernel_pml4;
  free_mapped_frame pml4 address size.

Section kernel.
  (** Slots of tables the boot loader made and the kernel leaves alone: the
      loader's memory, and the kernel's image in its own table [D]. *)
  Context (X : Z -> Z -> bool) (lo R D : Z) (frames : gset Z).
  Context (HX : forall p i, X p i = true -> (p = R /\ i = 0) \/ (p = D /\ i = 511)).

(** A word of virtual memory, through the tables of the kernel. *)
Definition kernel_peek (x : Z) (s : Machine) : option Z :=
  match PML4 s with
  | Some pml4 => word (ram s) <$> phys X (ram s) pml4 x
  | None => None
  end.

Definition kernel_poke (x v : Z) (s : Machine) : option Machine :=
  match PML4 s with
  | Some pml4 => (fun a => set_ram (put (ram s) a v) s) <$> phys X (ram s) pml4 x
  | None => None
  end.

#[local] Instance kernel_provider : MemoryPageProvider Machine := {
  allocate_pages := kernel_allocate_pages;
  deallocate_pages := kernel_deallocate_pages;
  peek := kernel_peek;
  poke := kernel_poke;
}.

(** ** The invariant *)

Definition with_pages (G : gset Z) (B : Z -> Z) : others := mkOthers frames G B.

Definition kinv (G : gset Z) (B : Z -> Z) (s : Machine) (m : Z -> Z) (T : gmap Z nat) : Prop :=
  pinv X lo (Some R) (with_pages G B) s m T /\ T !! R = Some 4%nat /\ (X D 511 = true -> T !! D = Some 3%nat).

(** A range of pages of the kernel's heap, all mapped. *)
Definition range_ok (m : Z -> Z) (a n : Z) : Prop :=
  KERNEL_SEARCH_START <= a /\ a + n <= KERNEL_SEARCH_END /\ a `mod` 0x1000 = 0 /\ 0 < n /\ n `mod` 0x1000 = 0 /\
  forall x, a <= x < a + n -> is_Some (phys X m R x).

Definition ranges_ok (m : Z -> Z) (out : gmap Z Z) : Prop :=
  (forall a n, out !! a = Some n -> range_ok m a n) /\
  forall a n b k, out !! a = Some n -> out !! b = Some k -> a <> b -> a + n <= b \/ b + k <= a.

Definition kernel_inv (s : Machine) (out : gmap Z Z) : Prop :=
  exists m T, kinv ∅ (fun _ => 0) s m T /\ ranges_ok m out.

(** Pages become protected, and are protected no more. *)
Definition pages_of (T : gmap Z nat) : gset Z := dom (filter (fun pl => pl.2 = 0%nat) T).

Lemma elem_of_pages T a : a ∈ pages_of T <-> T !! a = Some 0%nat.
Proof.
  unfold pages_of. rewrite elem_of_dom. split.
  - intros [l [Hl H0]%map_lookup_filter_Some]. cbn in H0. by subst.
  - intros Ha. exists 0%nat. by apply map_lookup_filter_Some.
Qed.

Lemma kinv_protect G B s m T G' :
  kinv G B s m T -> G' ⊆ pages_of T -> kinv G' m s m T.
Proof.
  intros ((Ia & F & Hd & _) & HR & HD) HG. split; [|done]. split; [done|split; [done|split; [done|]]].
  intros a Ha. split; [left; by apply elem_of_pages, HG|done].
Qed.

Lemma kinv_forget G B s m T B' : kinv G B s m T -> kinv ∅ B' s m T.
Proof.
  intros ((Ia & F & Hd & _) & HR & HD). split; [|done]. split; [done|split; [done|split; [done|]]].
  intros a Ha. by apply elem_of_empty in Ha.
Qed.

(** ** Addresses of the kernel's heap *)

Lemma kernel_indices v :
  KERNEL_SEARCH_START <= v < KERNEL_SEARCH_END -> pml4_index v = 511 /\ pdpt_index v <> 511.
Proof.
  unfold KERNEL_SEARCH_START, KERNEL_SEARCH_END. intros Hv. unfold pml4_index, pdpt_index.
  rewrite !index_bits by lia. change (2 ^ 39) with 0x8000000000. change (2 ^ 30) with 0x40000000. lia.
Qed.

Lemma kernel_clear G B s m T v :
  kinv G B s m T -> KERNEL_SEARCH_START <= v < KERNEL_SEARCH_END -> clear_path X m R (indices v).
Proof.
  intros ((_ & F & _) & HR & HD) Hv pre i suf p Heq Ht. destruct (X p i) eqn:Hx; [|done]. exfalso.
  destruct (kernel_indices v Hv) as [H4 H3]. pose proof (indices_ok v) as Hix.
  assert (length (indices v) = 4%nat) as Hlen by done. rewrite Heq, length_app in Hlen. cbn in Hlen.
  rewrite Heq in Hix. apply Forall_app in Hix as [Hpre _].
  assert (HTp : T !! p = Some (4 - length pre)%nat).
  { apply (trans_level X m T R _ pre); [done| |done|done]. rewrite HR. f_equal. lia. }
  unfold indices in Heq. destruct (HX p i Hx) as [[-> ->]|[-> ->]].
  - rewrite HR in HTp. injection HTp as HTp. destruct pre; [|cbn in *; lia]. cbn in Heq. injection Heq. congruence.
  - rewrite (HD Hx) in HTp. injection HTp as HTp. destruct pre as [|? [|? pre]]; cbn in *; try lia.
    injection Heq. congruence.
Qed.

Lemma trans_meq m m' p js : meq m m' -> trans X m p js = trans X m' p js.
Proof.
  intros Hm. revert p. induction js as [|i js IH]; intros p; [done|]. cbn. unfold PageForest.linked.
  by rewrite (entry_proper _ _ Hm _ _ eq_refl _ _ eq_refl), IH.
Qed.

Lemma phys_meq m m' r v : meq m m' -> phys X m r v = phys X m' r v.
Proof. intros Hm. unfold phys. by rewrite (trans_meq m m'). Qed.

Lemma kernel_peek_spec G B s m T x :
  kinv G B s m T -> kernel_peek x s = (fun a => word m a) <$> phys X m R x.
Proof.
  intros (((_ & Hm & HK) & _) & _). unfold kernel_peek. rewrite HK, (phys_meq _ _ _ _ Hm).
  destruct (phys X m R x); [|done]. cbn. f_equal. by apply word_proper.
Qed.

(** The addresses of the ranges. *)
Lemma inside_kernel m out x :
  ranges_ok m out -> inside out x ->
  KERNEL_SEARCH_START <= x < KERNEL_SEARCH_END /\ exists a, phys X m R x = Some a.
Proof. intros [Hr _] (b & n & Hb & Hx). destruct (Hr b n Hb) as (? & ? & _ & _ & _ & Hp). split; [lia|]. by apply Hp. Qed.

Lemma kernel_near x y :
  KERNEL_SEARCH_START <= x < KERNEL_SEARCH_END -> KERNEL_SEARCH_START <= y < KERNEL_SEARCH_END -> Z.abs (x - y) < 2 ^ 48.
Proof. unfold KERNEL_SEARCH_START, KERNEL_SEARCH_END. lia. Qed.

(** The ranges after a change that keeps their translations. *)
Lemma ranges_ok_next m m' out :
  ranges_ok m out -> (forall x, inside out x -> phys X m' R x = phys X m R x) -> ranges_ok m' out.
Proof.
  intros [Hr Hd] Hp. split; [|done]. intros a n Ha. destruct (Hr a n Ha) as (H1 & H2 & H3 & H4 & H5 & H6).
  unfold range_ok. split_conj; try done. intros x Hx. rewrite Hp; [auto|]. by exists a, n.
Qed.

Lemma kernel_word m T x a :
  forest X m T -> T !! R = Some 4%nat -> phys X m R x = Some a -> x `mod` 8 = 0 ->
  exists q, T !! q = Some 0%nat /\ q <= a /\ a + 8 <= q + 0x1000 /\ a `mod` 8 = 0.
Proof.
  intros F HR Ha H8. destruct (phys_page X R T HR m x a F Ha) as (q & HTq & Hqm & Haq & _).
  exists q. split; [done|]. lia.
Qed.

Lemma kernel_poke_law s out x v :
  kernel_inv s out -> inside out x -> x `mod` 8 = 0 -> 0 <= v < 2 ^ 64 ->
  exists s', kernel_poke x v s = Some s' /\ kernel_inv s' out /\
    forall y, inside out y -> y `mod` 8 = 0 -> kernel_peek y s' = if decide (y = x) then Some v else kernel_peek y s.
Proof.
  intros (m & T & I & Hr) Hx Hx8 Hv. pose proof I as (Ip & HR & HD). pose proof Ip as ((_ & Hm & HK) & F & _).
  destruct (inside_kernel m out x Hr Hx) as [Hxk [a Ha]].
  destruct (kernel_word m T x a F HR Ha Hx8) as (q & HTq & Hq1 & Hq2 & Ha8).
  exists (set_ram (put (ram s) a v) s). split.
  { unfold kernel_poke. rewrite HK, (phys_meq _ _ _ _ Hm), Ha. done. }
  destruct (page_write X lo (Some R) _ T s s m q (put m a v) Ip (after_refl s) HTq (not_elem_of_empty q)) with
    (r := put (ram s) a v) as [Ip' Hag].
  { intros y Hy. apply store_out. rewrite length_to_le. lia. }
  { unfold put. by apply store_proper. }
  assert (Hph : forall y, phys X (put m a v) R y = phys X m R y).
  { intros y. by apply (phys_agree X T). }
  assert (I' : kinv ∅ (fun _ => 0) (set_ram (put (ram s) a v) s) (put m a v) T) by done.
  split; [exists (put m a v), T; split; [done|by eapply ranges_ok_next]|].
  intros y Hy Hy8. rewrite (kernel_peek_spec _ _ _ _ _ y I'), (kernel_peek_spec _ _ _ _ _ y I), Hph.
  destruct (decide (y = x)) as [->|Hne].
  - rewrite Ha. cbn. by rewrite word_put.
  - destruct (inside_kernel m out y Hr Hy) as [Hyk [b Hb]]. rewrite Hb. cbn. f_equal. apply word_put_ne.
    destruct (kernel_word m T y b F HR Hb Hy8) as (_ & _ & _ & _ & Hb8).
    assert (a <> b); [|lia]. intros <-. apply Hne. symmetry.
    eapply (phys_inj X R T HR m x y a); try done. by apply kernel_near.
Qed.

(** ** Words that stay *)

(** What is protected is still there, and found at the same addresses. *)
Lemma same_words_guard out G B s m T s' m' T' :
  kinv ∅ B s m T -> kinv G m s' m' T' -> ranges_ok m out ->
  (forall x, inside out x -> phys X m' R x = phys X m R x) ->
  (forall x a, inside out x -> phys X m R x = Some a -> a - a `mod` 0x1000 ∈ G) ->
  same_words (HP:=kernel_provider) out s s'.
Proof.
  intros I I' Hr Hph HG x Hx H8. change (kernel_peek x s' = kernel_peek x s).
  rewrite (kernel_peek_spec _ _ _ _ _ x I'), (kernel_peek_spec _ _ _ _ _ x I), Hph by done.
  destruct (inside_kernel m out x Hr Hx) as [_ [a Ha]]. rewrite Ha. cbn. f_equal. unfold word. f_equal.
  pose proof I as ((_ & F & _) & HR & _). destruct (phys_page X R T HR m x a F Ha) as (q & _ & Hqm & Haq & _).
  destruct I' as ((_ & _ & _ & Hg) & _). destruct (Hg _ (HG x a Hx Ha)) as [_ Hb]. apply load_ext.
  intros y Hy. apply Hb. lia.
Qed.

Lemma kernel_pml4_spec {E} G B s m T (Q : Z -> Machine -> Prop) : kinv G B s m T -> Q R s -> wp (kernel_pml4 (E:=E)) s Q.
Proof.
  intros (((_ & _ & HK) & _) & _) HQ. unfold kernel_pml4. wp_step. wp_step. rewrite HK. by wp_step.
Qed.

Lemma kinv_next G B s m T s' m' T' :
  kinv G B s m T -> pinv X lo (Some R) (with_pages G B) s' m' T' -> (T ⊆ T' \/ T' ⊆ T) ->
  (forall r, T !! r = Some 4%nat -> T' !! r = Some 4%nat) -> kinv G B s' m' T'.
Proof.
  intros (_ & HR & HD) I' Hsub Hroot. split; [done|split; [auto|]]. intros Hx. specialize (HD Hx).
  destruct Hsub as [Hsub|Hsub]; [by eapply lookup_weaken|]. pose proof I' as (_ & F & _).
  destruct (f_excl _ _ _ F D 511 Hx) as (_ & [l Hl] & _).
  pose proof (lookup_weaken _ _ _ _ Hl Hsub). congruence.
Qed.

(** The page behind an address is a page of the tables. *)
Lemma phys_frame m T x a :
  forest X m T -> T !! R = Some 4%nat -> phys X m R x = Some a -> a - a `mod` 0x1000 ∈ pages_of T.
Proof.
  intros F HR Ha. destruct (phys_page X R T HR m x a F Ha) as (q & HTq & Hqm & Haq & _).
  apply elem_of_pages. by replace (a - a `mod` 0x1000) with q by lia.
Qed.

Lemma phys_same_page m x y : indices x = indices y -> is_Some (phys X m R x) -> is_Some (phys X m R y).
Proof. unfold phys. intros ->. destruct (trans X m R (indices y)); [by eexists|]. by intros []. Qed.

(** A run of pages that was free does not meet the ranges. *)
Lemma ranges_ok_insert m m' out v size :
  ranges_ok m out -> (forall x, inside out x -> phys X m' R x = phys X m R x) ->
  KERNEL_SEARCH_START <= v -> v + size <= KERNEL_SEARCH_END -> v `mod` 0x1000 = 0 -> 0 < size -> size `mod` 0x1000 = 0 ->
  (forall k, 0 <= k < size / 0x1000 -> phys X m R (v + k * 0x1000) = None /\ is_Some (phys X m' R (v + k * 0x1000))) ->
  out !! v = None /\ ranges_ok m' (<[v := size]> out).
Proof.
  intros Hr Hph Hlo Hhi Hvm Hs Hsm Hrun. pose proof Hr as [Hr1 Hr2].
  assert (Hapart : forall a n, out !! a = Some n -> v + size <= a \/ a + n <= v).
  { intros a n Ha. destruct (decide (v + size <= a \/ a + n <= v)) as [?|Hov]; [done|]. exfalso.
    destruct (Hr1 a n Ha) as (_ & _ & Ham & Hn & _ & Hmap).
    destruct (Hmap (Z.max a v)) as [y Hy]; [lia|].
    destruct (Hrun ((Z.max a v - v) / 0x1000)) as [Hnone _]; [lia|].
    replace (v + (Z.max a v - v) / 0x1000 * 0x1000) with (Z.max a v) in Hnone by lia. congruence. }
  split.
  { destruct (out !! v) as [n|] eqn:Hv; [|done]. destruct (Hr1 v n Hv) as (_ & _ & _ & Hn & _). destruct (Hapart v n Hv); lia. }
  destruct (ranges_ok_next m m' out Hr Hph) as [Hr1' _]. split.
  - intros a n [[<- <-]|[Hne Ha]]%lookup_insert_Some; [|by apply Hr1'].
    unfold range_ok. split_conj; try done. intros x Hx.
    destruct (Hrun ((x - v) / 0x1000)) as [_ [b Hb]]; [lia|].
    exists (b + x `mod` 0x1000). replace x with (v + (x - v) / 0x1000 * 0x1000 + x `mod` 0x1000) at 1 by lia.
    apply phys_next; [done|lia|lia].
  - intros a n b k [[<- <-]|[Hne Ha]]%lookup_insert_Some [[<- <-]|[Hne' Hb]]%lookup_insert_Some Hab; [done| | |].
    + destruct (Hapart b k Hb); lia.
    + destruct (Hapart a n Ha); lia.
    + by eapply Hr2.
Qed.

Lemma kernel_rounds_enough :
  search_end KERNEL_DATA - search_start KERNEL_DATA <= (Z.of_nat kernel_rounds - 1) * 0x1000.
Proof. unfold kernel_rounds. rewrite Z2Nat.id by (vm_compute; discriminate). vm_compute. discriminate. Qed.

Lemma kernel_allocate_law s out size :
  kernel_inv s out -> 0 < size <= 2 ^ 47 -> size `mod` 0x1000 = 0 ->
  wp (kernel_allocate_pages size) s (fun r s' => same_words (HP:=kernel_provider) out s s' /\
    match r with
    | Some a => out !! a = None /\ kernel_inv s' (<[a := size]> out)
    | None => kernel_inv s' out
    end).
Proof.
  intros (m & T & I0 & Hr) Hs Hsm. pose proof (kinv_protect _ _ _ _ _ (pages_of T) I0 ltac:(done)) as I.
  pose proof I as (Ip & HR & HD). pose proof Ip as (_ & F & _).
  assert (HG : forall x a, inside out x -> phys X m R x = Some a -> a - a `mod` 0x1000 ∈ pages_of T).
  { intros x a _. by apply phys_frame. }
  unfold kernel_allocate_pages. wp_step. eapply kernel_pml4_spec; [done|]. apply wpe_ok.
  eapply wpe_mono; [apply (alloc_mapped_frame_spec X lo (Some R) _ kernel_rounds R size KERNEL_DATA s m T Ip)| |];
    [done|done|done|done|done|intros v; by eapply kernel_clear|apply kernel_rounds_enough| |].
  - intros v s' (Hlo & Hhi & Hvm & m' & T' & fr & I' & Hsub & Hlen & _ & _ & Hmap & Hsame & _).
    assert (Hrun : forall k, 0 <= k < size / 0x1000 ->
      phys X m R (v + k * 0x1000) = None /\ is_Some (phys X m' R (v + k * 0x1000))).
    { intros k Hk. destruct (lookup_lt_is_Some_2 fr (Z.to_nat k)) as [q Hq]; [lia|].
      destruct (Hmap _ q Hq) as [H1 H2]. rewrite Z2Nat.id in H1, H2 by lia. split; [done|by exists q]. }
    assert (Hph : forall x, inside out x -> phys X m' R x = phys X m R x).
    { intros x Hx. apply Hsame; [done|]. intros _ k Hk Heq. destruct (inside_kernel m out x Hr Hx) as [_ Hsome].
      destruct (Hrun k Hk) as [Hnone _]. destruct (phys_same_page m _ _ Heq Hsome) as [? ?]. congruence. }
    assert (K' : kinv (pages_of T) m s' m' T') by (eapply kinv_next; [done|done|by left|intros; by eapply lookup_weaken]).
    split; [by eapply (same_words_guard out _ _ s m T)|].
    destruct (ranges_ok_insert m m' out v size Hr Hph Hlo Hhi Hvm (proj1 Hs) Hsm Hrun) as [Hnew Hr']. split; [done|].
    exists m', T'. split; [by eapply kinv_forget|done].
  - intros e s' [(_ & I' & _)|(_ & m' & T' & I' & Hsub & Hroot & Hsame & _)].
    + split; [eapply (same_words_guard out _ _ s m T); try done; by split|].
      exists m, T. split; [|done]. eapply kinv_forget. by split.
    + assert (Hph : forall x, inside out x -> phys X m' R x = phys X m R x) by (intros x _; apply Hsame; [done|lia]).
      assert (K' : kinv (pages_of T) m s' m' T') by (eapply kinv_next; [done|done|by right|done]).
      split; [by eapply (same_words_guard out _ _ s m T)|].
      exists m', T'. split; [by eapply kinv_forget|by eapply ranges_ok_next].
Qed.

(** The frames of a run of pages. *)
Definition run_frames m (v n : Z) : gset Z := list_to_set ((fun k => default 0 (phys X m R (v + k * 0x1000))) <$> seqZ 0 n).

Lemma elem_of_run_frames m v n k q :
  0 <= k < n -> phys X m R (v + k * 0x1000) = Some q -> q ∈ run_frames m v n.
Proof.
  intros Hk Hq. unfold run_frames. rewrite elem_of_list_to_set, list_elem_of_fmap. exists k. rewrite Hq.
  split; [done|]. apply elem_of_seqZ. lia.
Qed.

(** An address of another range is on another page. *)
Lemma other_page m out a n x k :
  ranges_ok m out -> out !! a = Some n -> inside (delete a out) x -> 0 <= k < n / 0x1000 ->
  indices x <> indices (a + k * 0x1000).
Proof.
  intros Hr Ha Hx Hk Heq. pose proof (inside_kernel m out x Hr (inside_delete _ _ _ Hx)) as [Hxk _].
  destruct Hx as (b & c & [Hne Hb]%lookup_delete_Some & Hx). destruct Hr as [Hr1 Hr2].
  destruct (Hr1 a n Ha) as (H1 & H2 & H3 & H4 & H5 & _), (Hr1 b c Hb) as (H1' & H2' & H3' & _ & H5' & _).
  apply indices_inj in Heq. assert (x / 0x1000 = (a + k * 0x1000) / 0x1000) as Hp.
  { assert (Hy : KERNEL_SEARCH_START <= a + k * 0x1000 < KERNEL_SEARCH_END) by lia.
    revert Heq Hxk Hy. generalize (a + k * 0x1000). unfold KERNEL_SEARCH_START, KERNEL_SEARCH_END. clear. intros y. lia. }
  rewrite Z.div_add in Hp by done. destruct (Hr2 a n b c Ha Hb Hne); lia.
Qed.

Lemma kernel_deallocate_law s out a n :
  kernel_inv s out -> out !! a = Some n ->
  wp (kernel_deallocate_pages a n) s (fun _ s' =>
    same_words (HP:=kernel_provider) (delete a out) s s' /\ kernel_inv s' (delete a out)).
Proof.
  intros (m & T & I0 & Hr) Ha. pose proof Hr as [Hr1 Hr2].
  destruct (Hr1 a n Ha) as (Hlo & Hhi & Ham & Hn & Hnm & Hmap).
  set (freed := run_frames m a (n / 0x1000)).
  pose proof (kinv_protect _ _ _ _ _ (pages_of T ∖ freed) I0 ltac:(set_solver)) as I.
  pose proof I as (Ip & HR & HD). pose proof Ip as (_ & F & _).
  unfold kernel_deallocate_pages. wp_step. eapply kernel_pml4_spec; [done|].
  replace n with (n / 0x1000 * 0x1000) at 1 by lia.
  eapply wp_mono; [apply (free_mapped_frame_spec X lo (Some R) (with_pages (pages_of T ∖ freed) m) R a (n / 0x1000) m T HR Ham)|].
  - unfold KERNEL_SEARCH_START, KERNEL_SEARCH_END in *. lia.
  - intros k Hk. destruct (Hmap (a + k * 0x1000)) as [q Hq]; [lia|]. exists q. split; [done|].
    cbn. intros [_ Hnf]%elem_of_difference. apply Hnf. by eapply elem_of_run_frames.
  - exact Ip.
  - intros [] s' (m' & T' & I' & Hsub & Hroot & _ & Hsame & _).
    assert (Hph : forall x, inside (delete a out) x -> phys X m' R x = phys X m R x).
    { intros x Hx. apply Hsame; [done|]. intros _ k Hk. by eapply other_page. }
    assert (Hrd : ranges_ok m (delete a out)).
    { split; [intros b c [_ Hb]%lookup_delete_Some; auto|].
      intros b c b' c' [_ Hb]%lookup_delete_Some [_ Hb']%lookup_delete_Some. by apply Hr2. }
    assert (K' : kinv (pages_of T ∖ freed) m s' m' T') by (eapply kinv_next; [done|done|by right|done]).
    split; [|exists m', T'; split; [by eapply kinv_forget|by eapply ranges_ok_next]].
    eapply (same_words_guard _ _ _ s m T); try done. intros x y Hx Hy.
    apply elem_of_difference. split; [by eapply phys_frame|]. intros Hin.
    unfold freed, run_frames in Hin. apply elem_of_list_to_set, list_elem_of_fmap in Hin as (k & Heq & Hk%elem_of_seqZ).
    destruct (Hmap (a + k * 0x1000)) as [q Hq]; [lia|]. rewrite Hq in Heq. cbn in Heq.
    destruct (phys_page X R T HR m x y F Hy) as (p & _ & Hpm & Hyp & _).
    pose proof (inside_kernel m out x Hr (inside_delete _ _ _ Hx)) as [Hxk _].
    assert (x - x `mod` 0x1000 = a + k * 0x1000) as Hpage.
    { eapply (phys_inj X R T HR m _ _ q F); [|done|].
      - rewrite <-Heq. replace (y - y `mod` 0x1000) with p by lia. unfold phys in Hy |- *.
        rewrite (same_page (x - x `mod` 0x1000) x) by lia. destruct (trans X m R (indices x)); [|done]. cbn in *.
        injection Hy as Hy. f_equal. lia.
      - unfold KERNEL_SEARCH_START, KERNEL_SEARCH_END in *. lia. }
    apply (other_page m out a n x k Hr Ha Hx); [lia|]. rewrite <-Hpage. apply same_page. lia.
Qed.

#[local] Instance kernel_laws : ProviderLaws Machine.
Proof.
  refine {| p_inv := kernel_inv; p_max := 2 ^ 47 |}.
  - done.
  - intros s out a n (m & T & _ & Hr & _) Ha. destruct (Hr a n Ha) as (? & ? & ? & ? & ? & _).
    unfold KERNEL_SEARCH_START, KERNEL_SEARCH_END in *. lia.
  - intros s out a n b k (m & T & _ & _ & Hr) Ha Hb. by apply Hr.
  - intros s out x (m & T & I & Hr) Hx _. destruct (inside_kernel m out x Hr Hx) as [_ [a Ha]].
    change (is_Some (kernel_peek x s)). rewrite (kernel_peek_spec _ _ _ _ _ x I), Ha. by eexists.
  - exact kernel_poke_law.
  - exact kernel_allocate_law.
  - exact kernel_deallocate_law.
Defined.
End kernel.

(** [GlobalAlloc] for the kernel. *)
Section global.
  Context (X : Z -> Z -> bool).

Definition alloc (layout : Layout) : M (RustHeap Machine) Empty_set Z :=
  allocate (HP:=kernel_provider X) layout.

Definition dealloc (ptr : Z) (layout : Layout) : M (RustHeap Machine) Empty_set unit :=
  rust_assert (negb (ptr =? 0));;
  deallocate (HP:=kernel_provider X) ptr layout.
End global.

(** C8: The kernel's page provider keeps the promises the heap relies on.
    [alloc_mapped_frame] and [free_mapped_frame] on the kernel's tables, with
    access to virtual memory through these tables, satisfy every law of the
    interface: the ranges handed out are aligned, disjoint and mapped, a word
    written is the word read, and neither allocating nor freeing pages changes
    a word of another range, although the page tables and the list of free
    frames live in the same memory. [X] are the slots of the boot loader's
    tables, which only the loader's slot 0 and the kernel image's slot 511
    may be. *)
Theorem kernel_provider_lawful (X : Z -> Z -> bool) (lo R D : Z) (frames : gset Z) :
  (forall p i, X p i = true -> (p = R /\ i = 0) \/ (p = D /\ i = 511)) ->
  exists L : ProviderLaws Machine (HP:=kernel_provider X),
    forall s out, p_inv (ProviderLaws:=L) s out <-> kernel_inv X lo R D frames s out.
Proof. intros HX. by exists (kernel_laws X lo R D frames HX). Qed.
