(* ===== verification/HeapDemo.v ===== *)
(** * The kernel's heap on a concrete machine

    A machine of a few megabytes whose kernel has an empty address space: the
    theorems on heaps applied to it, and an allocation that is not aligned. *)
From S2P Require Import Prelude Physics PhysicsSpec Page PageForest PageSpec PageUnmap PageAlloc PageAccess Heap HeapSpec HeapRefine KernelHeap.

Module HeapDemo.

Definition root : Z := 0x408000.

Definition machine : Machine :=
  mkMachine (fun _ => 0) 0 (Some root) (Some 0) None
    [mkMemoryRegion 0 0x9f000 1; mkMemoryRegion 0x100000 0x700000 1] (Some root) None.

(** The root table is allocated and empty. *)
Definition kernel : Machine := snd (alloc_frame (E:=Empty_set) machine).
Definition none (_ _ : Z) : bool := false.
Definition tables : gmap Z nat := {[root := 4%nat]}.

Lemma kernel_booted : booted machine root.
Proof.
  unfold booted. split_conj; [by eexists| |done..].
  split; [repeat constructor; vm_compute; try done; discriminate|].
  repeat constructor. vm_compute. discriminate.
Qed.

Lemma kernel_reached : frames_reached machine kernel ({[root]} ∪ ∅).
Proof. apply (fr_alloc machine machine); [constructor|]. apply Boot.run_state. vm_compute. reflexivity. Qed.

Lemma tables_inv p l : tables !! p = Some l -> p = root /\ l = 4%nat.
Proof. unfold tables. by intros [<- <-]%lookup_singleton_Some. Qed.

Lemma kernel_ready : kernel_inv none root root 0 ∅ kernel ∅.
Proof.
  destruct (frames_inv _ _ _ _ kernel_booted kernel_reached) as [free I].
  exists (fun _ => 0), tables. split; [|by split]. split; [|done]. split; [|split].
  - split; [|done]. exists free. cbn [o_frames with_pages].
    replace (dom tables ∪ ∅) with ({[root]} ∪ ∅ : gset Z); [done|]. unfold tables. by rewrite dom_singleton_L.
  - split.
    + intros p l [-> _]%tables_inv. vm_compute. split_conj; done || discriminate.
    + intros p l [_ ->]%tables_inv. lia.
    + intros p l i _ _. done.
    + intros p l i q l' j _ _ _ _. done.
    + done.
  - split; [intros a _; apply not_elem_of_empty|]. intros a Ha. by apply elem_of_empty in Ha.
Qed.

Lemma none_slots p i : none p i = true -> (p = root /\ i = 0) \/ (p = 0 /\ i = 511).
Proof. done. Qed.

Definition laws : ProviderLaws Machine (HP:=kernel_provider none) := kernel_laws none root root 0 ∅ none_slots.

Lemma kernel_provider_lawful_witness :
  exists L : ProviderLaws Machine (HP:=kernel_provider none), p_inv (ProviderLaws:=L) kernel ∅.
Proof.
  destruct (kernel_provider_lawful none root root 0 ∅ none_slots) as [L HL]. exists L. apply HL. exact kernel_ready.
Defined.

Definition node : Layout := mkLayout 24 8.

Lemma node_ok : layout_ok (HL:=laws) node.
Proof. split; [done|split; [by exists 3|vm_compute; discriminate]]. Qed.

Lemma empty_holds : holds (HL:=laws) (new kernel) (mkStore ∅ (fun _ => 0)).
Proof.
  eexists. split_conj; [apply (heap_new_inv (HL:=laws)), kernel_ready|done|]. intros x (b & lay & Hb & _). done.
Qed.

Lemma heap_refines_witness :
  wp (run (HP:=kernel_provider none) (OAlloc node)) (new kernel) (fun r h' =>
    exists st', answers (mkStore ∅ (fun _ => 0)) (OAlloc node) r st' /\ holds (HL:=laws) h' st').
Proof. apply (heap_refines (HL:=laws) (OAlloc node) (new kernel) (mkStore ∅ (fun _ => 0)) empty_holds node_ok). Defined.

Lemma heap_no_leak_witness :
  exists h, reached (HL:=laws) kernel h ∅ /\ p_inv (ProviderLaws:=laws) (provider h) ∅.
Proof.
  destruct (alloc_free_history (HL:=laws) kernel node kernel_ready node_ok) as (r & h1 & h2 & _ & _ & Hr).
  exists h2. split; [exact Hr|].
  exact (heap_no_leak (HL:=laws) kernel h2 kernel_ready Hr).
Defined.

(** An alignment of more than a page is not kept. After one page the
    kernel's allocator answers a request for 8192 bytes aligned to 8192 with
    an address that is only aligned to 4096. *)
Theorem alloc_overaligned :
  fst ((a ← alloc none (mkLayout 0x1000 8);
        b ← alloc none (mkLayout 0x2000 0x2000);
        mret (a, b, b `mod` 0x2000)) (new kernel)) =
    Ok (KERNEL_SEARCH_START, KERNEL_SEARCH_START + 0x1000, 0x1000).
Proof. lazy. reflexivity. Qed.

End HeapDemo.
