(* ===== verification/UserTable.v ===== *)
(** * The page table of a new process (alloc_user_page_table)

    The top table of a process has the first and the last entry of the kernel's
    and is empty otherwise. These two entries are shared, so they join the
    entries outside the discipline of PageForest.v. *)
From S2P Require Import Prelude Physics PhysicsSpec Page PageForest PageSpec PageUnmap PageAlloc PageAccess.

(** [X] with the entries of [R] that it shares with the kernel. *)
Definition with_shared (X : Z -> Z -> bool) (R p i : Z) : bool :=
  X p i || ((p =? R) && ((i =? 0) || (i =? 511))).

Lemma with_shared_other X R p i : p <> R -> with_shared X R p i = X p i.
Proof. intros Hp. unfold with_shared. rewrite (proj2 (Z.eqb_neq p R)) by done. apply orb_false_r. Qed.

Section table.
  Context (X : Z -> Z -> bool) (lo Kr : Z) (O : others).
  Implicit Types (s : Machine) (m : Z -> Z) (T : gmap Z nat).

(** The memory [m'] with the new table [R]. *)
Record new_table m T (R : Z) m' : Prop := {
  nt_fresh : T !! R = None;
  nt_others : R ∉ o_frames O;
  nt_out : forall x, ~ R <= x < R + 0x1000 -> m' x = m x;
  nt_first : entry m' R 0 = entry m Kr 0;
  nt_last : entry m' R 511 = entry m Kr 511;
  nt_empty : forall i, idx_ok i -> i <> 0 -> i <> 511 -> present (entry m' R i) = false
}.

Section made.
  Context m T R m' (N : new_table m T R m') (F : forest X m T) (Hok : table_ok R) (HKr : T !! Kr = Some 4%nat)
    (H0 : present (entry m Kr 0) = true) (H511 : present (entry m Kr 511) = true).
  Notation X' := (with_shared X R).

Lemma made_agree : agree T m m'.
Proof.
  intros q l i Hq Hi. apply (entry_frame m m' R); [done|by eapply f_frame|done| |apply N].
  intros ->. by rewrite (nt_fresh _ _ _ _ N) in Hq.
Qed.

Lemma fresh_not_excluded i : X R i = false.
Proof.
  destruct (X R i) eqn:Hx; [|done]. destruct (f_excl _ _ _ F R i Hx) as (_ & (l & Hl) & _).
  by rewrite (nt_fresh _ _ _ _ N) in Hl.
Qed.

Lemma made_linked p i : idx_ok i -> linked X' m' p i = true -> p <> R /\ linked X m' p i = true.
Proof.
  intros Hi Hl. destruct (decide (p = R)) as [->|Hne].
  - exfalso. unfold linked, with_shared in Hl. rewrite Z.eqb_refl, fresh_not_excluded in Hl. cbn in Hl.
    destruct (Z.eqb_spec i 0), (Z.eqb_spec i 511); cbn in Hl; rewrite ?andb_false_r in Hl; try done.
    by rewrite (nt_empty _ _ _ _ N i) in Hl.
  - split; [done|]. unfold linked in *. by rewrite with_shared_other in Hl by done.
Qed.

Lemma made_forest : forest X' m' (<[R := 4%nat]> T).
Proof.
  pose proof (agree_forest X T m m' F made_agree) as F'. pose proof (nt_fresh _ _ _ _ N) as HR.
  assert (Hin : forall p l i, <[R := 4%nat]> T !! p = Some (S l) -> idx_ok i -> linked X' m' p i = true ->
    T !! p = Some (S l) /\ linked X m' p i = true).
  { intros p l i Hp Hi Hl. destruct (made_linked p i Hi Hl) as [Hne Hl']. by rewrite lookup_insert_ne in Hp by done. }
  split.
  - intros p l Hp. destruct (decide (p = R)) as [->|Hne]; [done|]. rewrite lookup_insert_ne in Hp by done. by eapply f_frame.
  - intros p l Hp. destruct (decide (p = R)) as [->|Hne].
    + rewrite lookup_insert_eq in Hp. injection Hp as <-. lia.
    + rewrite lookup_insert_ne in Hp by done. by eapply f_level.
  - intros p l i Hp Hi Hl. destruct (Hin p l i Hp Hi Hl) as [Hp' Hl'].
    pose proof (f_down _ _ _ F' p l i Hp' Hi Hl') as Hd. rewrite lookup_insert_ne; [done|]. congruence.
  - intros p l i q k j Hp Hq Hi Hj Hl Hk. destruct (Hin p l i Hp Hi Hl), (Hin q k j Hq Hj Hk). by eapply (f_inj _ _ _ F').
  - intros p i Hx. unfold with_shared in Hx. apply orb_true_iff in Hx as [Hx|Hx].
    + destruct (f_excl _ _ _ F' p i Hx) as (Hi & (l & Hl) & Hp). split_and!; [done|exists l|done].
      rewrite lookup_insert_ne; [done|]. congruence.
    + apply andb_true_iff in Hx as [->%Z.eqb_eq Hi]. apply orb_true_iff in Hi.
      split_and!; [unfold idx_ok; destruct Hi as [Hi|Hi]; apply Z.eqb_eq in Hi; lia|exists 3%nat; by rewrite lookup_insert_eq|].
      destruct Hi as [->%Z.eqb_eq| ->%Z.eqb_eq]; [by rewrite (nt_first _ _ _ _ N)|by rewrite (nt_last _ _ _ _ N)].
Qed.

(** Paths from other tables. *)
Lemma made_trans l p js : Forall idx_ok js -> (length js <= l)%nat -> T !! p = Some l -> trans X' m' p js = trans X m p js.
Proof.
  revert p l. induction js as [|i js IH]; intros p l Hjs Hl Hp; [done|]. cbn in *. inversion Hjs; subst.
  destruct l as [|l]; [lia|]. assert (p <> R) as Hne by (intros ->; by rewrite (nt_fresh _ _ _ _ N) in Hp).
  assert (linked X' m' p i = linked X m p i) as ->.
  { unfold linked. by rewrite with_shared_other, (made_agree p l i) by done. }
  rewrite (made_agree p l i) by done. destruct (linked X m p i) eqn:Hli; [|done].
  apply (IH _ l); [done|lia|]. by eapply f_down.
Qed.

Lemma made_phys r a : T !! r = Some 4%nat -> phys X' m' r a = phys X m r a.
Proof. intros Hr. unfold phys. f_equal. apply (made_trans 4); [apply indices_ok|done|done]. Qed.

Lemma made_clear r js :
  T !! r = Some 4%nat -> Forall idx_ok js -> (length js <= 4)%nat -> clear_path X m r js -> clear_path X' m' r js.
Proof.
  intros Hr Hjs Hl Hc pre i suf p -> Ht. apply Forall_app in Hjs as [Hpre Hsuf]. rewrite length_app in Hl.
  rewrite (made_trans 4) in Ht; [|done|lia|done]. rewrite with_shared_other; [by apply (Hc pre i suf p)|].
  intros ->. assert (T !! R = Some (4 - length pre)%nat) as HR.
  { apply (trans_level X m T r _ pre); [done| |done|done]. rewrite Hr. f_equal. lia. }
  by rewrite (nt_fresh _ _ _ _ N) in HR.
Qed.

(** User addresses of the new table. *)
Lemma made_user y :
  pml4_index y <> 0 -> pml4_index y <> 511 -> phys X' m' R y = None /\ clear_path X' m' R (indices y).
Proof.
  intros Hy0 Hy511. assert (idx_ok (pml4_index y)) as Hi by apply land_index.
  assert (linked X' m' R (pml4_index y) = false) as Hl by (apply unlinked, N; done).
  split; [unfold phys, indices; cbn; by rewrite Hl|].
  intros pre i suf p Heq Ht. unfold indices in Heq. destruct pre as [|j pre]; cbn in Heq; injection Heq as <- _.
  - cbn in Ht. injection Ht as <-. unfold with_shared. rewrite fresh_not_excluded, Z.eqb_refl. cbn.
    by rewrite !(proj2 (Z.eqb_neq _ _)).
  - cbn in Ht. by rewrite Hl in Ht.
Qed.

End made.

Lemma kernel_pml4_wp {E} s m used (Q : Z -> Machine -> Prop) :
  ainv lo (Some Kr) s m used -> Q Kr s -> wp (kernel_pml4 (E := E)) s Q.
Proof. intros (_ & _ & HK) HQ. unfold kernel_pml4. wp_step. wp_step. rewrite HK. by wp_step. Qed.

(** An entry written with [write_memory]. *)
Lemma write_slot_spec {E} p i e s m used (Q : unit -> Machine -> Prop) :
  ainv lo (Some Kr) s m used -> p ∈ used -> idx_ok i ->
  (forall s', ainv lo (Some Kr) s' (put m (p + i * 8) e) used -> Q tt s') ->
  wp (write_memory (E := E) (p + i * 8) (to_le 8 e)) s Q.
Proof.
  intros I Hp Hi HQ. destruct (ainv_frame _ _ _ _ _ _ I Hp) as (H0 & Hm & Hb). pose proof Hi as Hi'. unfold idx_ok in Hi'.
  apply write_memory_spec; [by eapply ainv_init|lia|rewrite length_to_le; lia|].
  intros s' Hs. apply HQ. eapply ainv_write; [done..| |].
  - apply store_proper; [apply I|done|done].
  - intros x Hx. by eapply put_frame.
Qed.

Lemma alloc_user_page_table_spec {E} s m T (Q : option Z -> Machine -> Prop) :
  pinv X lo (Some Kr) O s m T -> T !! Kr = Some 4%nat ->
  present (entry m Kr 0) = true -> present (entry m Kr 511) = true ->
  0 <= entry m Kr 0 < 2 ^ 64 -> 0 <= entry m Kr 511 < 2 ^ 64 ->
  (forall s', pinv X lo (Some Kr) O s' m T -> Q None s') ->
  (forall R s' m', new_table m T R m' -> table_ok R -> pinv (with_shared X R) lo (Some Kr) O s' m' (<[R := 4%nat]> T) ->
     Q (Some R) s') ->
  wp (alloc_user_page_table (E := E)) s Q.
Proof.
  intros I HKr P0 P511 B0 B511 HN HS. pose proof I as (Ia & F & Hd & Hg). unfold alloc_user_page_table.
  wp_step. eapply alloc_spec; [done| |intros s' I'; wp_step; apply HN; by split].
  intros R s1 HR Hok I1. wp_step. eapply zero_table_spec; [done|set_solver|]. intros s2 I2.
  assert (HTR : T !! R = None) by (apply not_elem_of_dom; set_solver). assert (HRO : R ∉ o_frames O) by set_solver.
  assert (Kr <> R) as Hne by congruence. pose proof (f_frame _ _ _ F Kr _ HKr) as HokK.
  set (m1 := fill m R 0x1000 0) in *.
  assert (forall i, idx_ok i -> entry m1 Kr i = entry m Kr i) as HK1.
  { intros i Hi. apply (entry_frame m m1 R); try done. intros x Hx. apply fill_out. lia. }
  assert (idx_ok 0 /\ idx_ok 511) as [Hi0 Hi511] by (unfold idx_ok; lia).
  wp_step. eapply kernel_pml4_wp; [done|]. wp_step. wp_step.
  assert (entry (ram s2) Kr 0 = entry m Kr 0) as -> by (rewrite <-HK1 by done; apply entry_proper; [apply I2|done|done]).
  wp_step. rewrite <-(Z.add_0_r R) at 1. change 0 with (0 * 8) at 1. eapply write_slot_spec; [done|set_solver|done|]. intros s3 I3.
  set (m2 := put m1 (R + 0 * 8) (entry m Kr 0)) in *.
  assert (forall i, idx_ok i -> entry m2 Kr i = entry m Kr i) as HK2.
  { intros i Hi. subst m2. rewrite entry_put_ne by (done || congruence). auto. }
  wp_step. eapply kernel_pml4_wp; [done|]. wp_step. wp_step.
  assert (entry (ram s3) Kr 511 = entry m Kr 511) as -> by (rewrite <-HK2 by done; apply entry_proper; [apply I3|done|done]).
  wp_step. eapply write_slot_spec; [done|set_solver|done|]. intros s4 I4. wp_step.
  set (m3 := put m2 (R + 511 * 8) (entry m Kr 511)) in *.
  assert (N : new_table m T R m3).
  { split; try done.
    - intros x Hx. subst m3 m2 m1. unfold put. rewrite !store_out by (rewrite length_to_le; lia). apply fill_out. lia.
    - subst m3. rewrite entry_put_ne by (done || congruence). subst m2. by rewrite entry_put.
    - subst m3. by rewrite entry_put.
    - intros i Hi Hn0 Hn511. subst m3 m2. rewrite !entry_put_ne by (done || congruence).
      rewrite entry_word. subst m1. unfold idx_ok in Hi. rewrite word_fill by lia. done. }
  apply (HS R s4 m3 N Hok). split; [by rewrite dom_insert_used|]. split; [by apply (made_forest m T)|].
  eapply (separate_next X lo (Some Kr) O s m T); [done| | |].
  - intros a x Ha Hx. apply N. eapply (guard_out X lo (Some Kr) O s m T a x R); try done. by eapply (new_unprotected X lo (Some Kr) O s m T).
  - intros a Ha. destruct (decide (a = R)) as [->|Hn]; [done|]. rewrite lookup_insert_ne in Ha by done. auto.
  - intros a _ Ha. rewrite lookup_insert_ne; [done|congruence].
Qed.

End table.
