(* ===== verification/UserSpace.v ===== *)
(** * The address space of a process

    What the operations of kernel/src/memory/page.rs do to one address space,
    seen as a memory of bytes: pages can be added at free addresses, bytes can be
    written where pages are, and each of these leaves every other byte of this
    and every other address space alone. *)
From S2P Require Import Prelude Physics PhysicsSpec Page PageForest PageSpec PageUnmap PageAlloc PageAccess KernelHeap.

(** Addresses of user space: the first and the last entry of the top table are
    those of the kernel. *)
Definition user_address (y : Z) : Prop := 0x8000000000 <= y < 0xFF8000000000.

#[global] Instance user_address_dec y : Decision (user_address y).
Proof. unfold user_address. apply _. Defined.

(** [*(a as *mut u64) = v] in the kernel: a store through the tables of the
    kernel, which faults when the address is not mapped. *)
Definition store_u64 {E} (a v : Z) : M Machine E unit := fun s =>
  match PML4 s with
  | Some pml4 =>
      match phys (fun _ _ => false) (ram s) pml4 a with
      | Some x => (Ok tt, set_ram (put (ram s) x v) s)
      | None => (Panic, s)
      end
  | None => (Panic, s)
  end.

Lemma phys_all X m r a x : phys X m r a = Some x -> phys (fun _ _ => false) m r a = Some x.
Proof.
  unfold phys. assert (forall js p q, trans X m p js = Some q -> trans (fun _ _ => false) m p js = Some q) as Ht.
  { induction js as [|i js IH]; intros p q; cbn; [done|]. unfold PageForest.linked.
    destruct (present (entry m p i)); cbn; [|done]. destruct (X p i); cbn; [done|]. apply IH. }
  destruct (trans X m r (indices a)) as [q|] eqn:Hq; [|done]. by rewrite (Ht _ _ _ Hq).
Qed.

Section space.
  (** The address space [R] and that of the kernel [Kr], among the address
      spaces of [T0] with their translations in [m0]. *)
  Context (X : Z -> Z -> bool) (lo : Z) (O : others) (Kr R : Z) (m0 : Z -> Z) (T0 : gmap Z nat).
  Context (HR0 : T0 !! R = Some 4%nat) (HK0 : T0 !! Kr = Some 4%nat) (HRK : R <> Kr).
  Context (Hclear : forall y, user_address y -> clear_path X m0 R (indices y)).
  Context (HclearK : forall y, KERNEL_SEARCH_START <= y < KERNEL_SEARCH_END -> clear_path X m0 Kr (indices y)).
  Implicit Types (s : Machine) (m : Z -> Z) (T : gmap Z nat).
  Notation phys := (phys X).
  Notation pinv := (pinv X lo (Some Kr) O).
  Notation PINV := (PageSpec.pinv X lo (Some Kr)).

Record user_space s m T : Prop := mkUserSpace {
  us_inv : pinv s m T;
  us_own : forall y x, user_address y -> phys m R y = Some x -> x - x `mod` 0x1000 ∉ o_pages O;
  us_roots : forall r, T0 !! r = Some 4%nat -> T !! r = Some 4%nat;
  us_clears : clear_kept X T0 m0 m;
  us_others : forall r a, T0 !! r = Some 4%nat -> r <> R -> r <> Kr -> phys m r a = phys m0 r a;
  us_kernel : forall a x, phys m0 Kr a = Some x -> phys m Kr a = Some x
}.

Lemma us_clear s m T y : user_space s m T -> user_address y -> clear_path X m R (indices y).
Proof. intros U Hy. apply (us_clears _ _ _ U); [done|apply indices_ok|done|auto]. Qed.

(** The byte at an address. *)
Definition byte_at m (y : Z) : option Z := if decide (user_address y) then m <$> phys m R y else None.

Lemma byte_at_meq m m' y : meq m m' -> byte_at m y = byte_at m' y.
Proof.
  intros Hm. unfold byte_at. rewrite (phys_meq X m m') by done. case_decide; [|done].
  destruct (phys m' R y); cbn; [|done]. by rewrite (Hm _).
Qed.

(** Bytes that were mapped are mapped and as they were. *)
Definition bytes_kept m m' : Prop := forall y b, byte_at m y = Some b -> byte_at m' y = Some b.

(** ** Pages are added *)

(** The pages of all address spaces become protected, and are so no more. *)
Definition protect_pages m T : others := mkOthers (o_frames O) (o_pages O ∪ pages_of T) m.

Lemma pinv_protect s m T : pinv s m T -> PINV (protect_pages m T) s m T.
Proof.
  intros (Ia & F & Hd & Hg). split; [done|split; [done|split; [done|]]].
  intros a [Ha|Ha]%elem_of_union; [split; [by apply Hg|done]|]. split; [left; by apply elem_of_pages|done].
Qed.

Lemma pinv_unprotect s m T s' m' T' :
  pinv s m T -> PINV (protect_pages m T) s' m' T' ->
  pinv s' m' T' /\ forall a x, T !! a = Some 0%nat -> a <= x < a + 0x1000 -> m' x = m x.
Proof.
  intros (_ & _ & _ & Hg) (Ia & F & Hd & Hg'). split.
  - split; [done|split; [done|split; [done|]]]. intros a Ha.
    destruct (Hg' a) as [H1 H2]; [by apply elem_of_union_l|]. split; [done|].
    intros x Hx. rewrite H2 by done. by apply (proj2 (Hg a Ha)).
  - intros a x Ha. apply Hg'. apply elem_of_union_r. by apply elem_of_pages.
Qed.

Lemma bytes_kept_intro s m T m' :
  pinv s m T -> T !! R = Some 4%nat ->
  (forall a x, T !! a = Some 0%nat -> a <= x < a + 0x1000 -> m' x = m x) ->
  (forall y x, phys m R y = Some x -> phys m' R y = Some x) -> bytes_kept m m'.
Proof.
  intros (_ & F & _) HR Hb Hph y b. unfold byte_at. case_decide as Hu; [|done].
  destruct (phys m R y) as [x|] eqn:Hx; [|done]. rewrite (Hph y x) by done. cbn.
  destruct (phys_page X R T HR m y x F Hx) as (q & Hq & Hqm & Hxq & _). rewrite (Hb q) by (done || lia). done.
Qed.

(** Everything has been given back. *)
Lemma space_given_back Q s m T s' :
  pinv s m T ->
  user_space s m T -> run_given_back X lo (Some Kr) (protect_pages m T) Q m T s' ->
  exists m' T', user_space s' m' T' /\ bytes_kept m m' /\ forall r a, T !! r = Some 4%nat -> phys m' r a = phys m r a.
Proof.
  intros I [_ Ho Hr Hc Hs Hk] (m' & T' & I' & Hsub & Hroots & Hsame & Hck).
  destruct (pinv_unprotect _ _ _ _ _ _ I I') as [J Hbytes].
  assert (Hold : forall r a, T !! r = Some 4%nat -> phys m' r a = phys m r a) by (intros; apply Hsame; [done|lia]).
  exists m', T'. split_and!.
  - split; [done| |auto| | |].
    + intros y x Hy. rewrite Hold by auto. by apply Ho.
    + intros r js Hr0 Hjs Hl Hcp. apply Hck; [auto|done|done|]. by apply Hc.
    + intros r a Hr0 Hne1 Hne2. rewrite Hold by auto. auto.
    + intros a x Ha. rewrite Hold by auto. auto.
  - eapply bytes_kept_intro; [done|auto|done|]. intros y x Hx. by rewrite Hold by auto.
  - done.
Qed.

(** The pages of the run from [v] on in the address space [Q]. *)
Definition fresh_pages (Q v n : Z) m : Prop :=
  forall y, v <= y < v + n -> exists x, phys m Q y = Some x /\ x - x `mod` 0x1000 ∉ o_pages O.

Section run.
  Context (Q v n : Z) s m T (Hvm : v `mod` 0x1000 = 0) (I : pinv s m T) (HQ : T !! Q = Some 4%nat).

(** An address of the run, and one that is not. *)
Lemma run_page m' (frames : list Z) y k :
  Z.of_nat (length frames) = n -> 0 <= k < n -> indices y = indices (v + k * 0x1000) ->
  (forall k q, frames !! k = Some q ->
     phys m Q (v + Z.of_nat k * 0x1000) = None /\ phys m' Q (v + Z.of_nat k * 0x1000) = Some q) ->
  exists q, q ∈ frames /\ phys m Q y = None /\ phys m' Q y = Some (q + y `mod` 0x1000).
Proof.
  intros Hlen Hk Hy Hmap. destruct (lookup_lt_is_Some_2 frames (Z.to_nat k)) as [q Hq]; [lia|]. exists q.
  destruct (Hmap _ q Hq) as [H1 H2]. rewrite Z2Nat.id in H1, H2 by lia. unfold PageAlloc.phys in *. rewrite Hy.
  split; [by eapply list_elem_of_lookup_2|]. destruct (trans X m Q _); [done|]. split; [done|].
  destruct (trans X m' Q _); [|done]. cbn in *. injection H2 as <-. f_equal. lia.
Qed.

Lemma run_dec y : (exists k, 0 <= k < n /\ indices y = indices (v + k * 0x1000)) \/
  (forall k, 0 <= k < n -> indices y <> indices (v + k * 0x1000)).
Proof.
  destruct (decide (Exists (fun k => indices y = indices (v + k * 0x1000)) (seqZ 0 n))) as [He|He].
  - left. apply Exists_exists in He as (k & Hk%elem_of_seqZ & He). exists k. split; [lia|done].
  - right. intros k Hk Heq. apply He, Exists_exists. exists k. split; [apply elem_of_seqZ; lia|done].
Qed.

(** What mapping a run does to every address space. *)
Lemma run_effect s' :
  run_mapped X lo (Some Kr) (protect_pages m T) Q v n m T s' ->
  exists m' T', pinv s' m' T' /\ T ⊆ T' /\ clear_kept X T m m' /\ fresh_pages Q v (n * 0x1000) m' /\
    (forall a x, T !! a = Some 0%nat -> a <= x < a + 0x1000 -> m' x = m x) /\
    (forall r y x, T !! r = Some 4%nat -> phys m r y = Some x -> phys m' r y = Some x) /\
    (forall r y, T !! r = Some 4%nat -> r <> Q -> phys m' r y = phys m r y) /\
    (forall y x, phys m' Q y = Some x -> phys m Q y = Some x \/ x - x `mod` 0x1000 ∉ o_pages O) /\
    (forall y, (forall k, 0 <= k < n -> indices y <> indices (v + k * 0x1000)) -> phys m' Q y = phys m Q y) /\
    (forall y, v <= y < v + n * 0x1000 -> phys m Q y = None).
Proof.
  intros (m' & T' & frames & I' & Hsub & Hlen & Hnd & Hfresh & Hmap & Hsame & Hck).
  destruct (pinv_unprotect _ _ _ _ _ _ I I') as [J Hbytes]. pose proof J as (_ & F' & _).
  assert (HQ' : T' !! Q = Some 4%nat) by (by eapply lookup_weaken).
  assert (Hpage : forall y k, 0 <= k < n -> indices y = indices (v + k * 0x1000) ->
    exists x, phys m Q y = None /\ phys m' Q y = Some x /\ x - x `mod` 0x1000 ∉ o_pages O).
  { intros y k Hk Hy. destruct (run_page m' frames y k Hlen Hk Hy Hmap) as (q & Hq & H1 & H2).
    exists (q + y `mod` 0x1000). split_and!; [done|done|].
    destruct (proj1 (not_elem_of_union q _ _) (Hfresh q Hq)) as [HT%not_elem_of_dom HO].
    destruct (phys_page X Q T' HQ' m' y _ F' H2) as (p & _ & Hpm & Hxp & _).
    replace (q + y `mod` 0x1000 - (q + y `mod` 0x1000) `mod` 0x1000) with q by lia.
    by eapply (new_unprotected X lo (Some Kr) O s m T). }
  exists m', T'. split_and!; try done.
  - intros y Hy. destruct (Hpage y ((y - v) / 0x1000)) as (x & _ & Hx & Hn); [lia|apply same_page; lia|]. by exists x.
  - intros r y x Hr Hx. rewrite Hsame; [done|done|]. intros -> k Hk Heq. destruct (Hpage y k Hk Heq) as (? & ? & _). congruence.
  - intros r y Hr Hne. by apply Hsame.
  - intros y x Hx. destruct (run_dec y) as [(k & Hk & Heq)|Hno].
    + destruct (Hpage y k Hk Heq) as (x' & _ & Hx' & Hn). right. rewrite Hx in Hx'. by injection Hx' as ->.
    + left. by rewrite <-(Hsame Q y).
  - intros y Hno. by apply Hsame.
  - intros y Hy. destruct (Hpage y ((y - v) / 0x1000)) as (x & Hx & _); [lia|apply same_page; lia|done].
Qed.

(** A run mapped in this address space or in that of the kernel. *)
Lemma space_mapped s' :
  user_space s m T -> Q = R \/ Q = Kr -> run_mapped X lo (Some Kr) (protect_pages m T) Q v n m T s' ->
  exists m' T', user_space s' m' T' /\ bytes_kept m m' /\ fresh_pages Q v (n * 0x1000) m' /\
    (forall r y, T !! r = Some 4%nat -> r <> Q \/ (forall k, 0 <= k < n -> indices y <> indices (v + k * 0x1000)) ->
      phys m' r y = phys m r y) /\
    forall y, v <= y < v + n * 0x1000 -> phys m Q y = None.
Proof.
  intros U Hor Hm. destruct (run_effect s' Hm) as (m' & T' & J & Hsub & Hck & Hfp & Hb & Hmono & Hoth & Hown & Hnot & Hwas).
  destruct U as [_ Ho Hr Hc Hs Hk]. exists m', T'. split_and!.
  - split; [done| | | | |].
    + intros y x Hy Hx. destruct (decide (Q = R)) as [->|Hne].
      * destruct (Hown y x Hx); [by eapply Ho|done].
      * rewrite Hoth in Hx by auto. by eapply Ho.
    + intros r Hr0. eapply lookup_weaken; [|done]. auto.
    + intros r js Hr0 Hjs Hl Hcp. apply Hck; [auto|done|done|]. by apply Hc.
    + intros r a Hr0 Hne1 Hne2. rewrite Hoth; [auto|auto|]. by destruct Hor as [-> | ->].
    + intros a x Ha. apply Hmono; auto.
  - eapply bytes_kept_intro; [done|auto|done|]. intros y x Hx. apply Hmono; auto.
  - done.
  - intros r y Hr0 Hne. destruct (decide (r = Q)) as [->|]; [|by apply Hoth]. destruct Hne; [done|]. by apply Hnot.
  - done.
Qed.

End run.
Lemma pinv_space s m T s' :
  user_space s m T -> PINV (protect_pages m T) s' m T -> user_space s' m T.
Proof. intros U I. destruct (pinv_unprotect _ _ _ _ _ _ (us_inv _ _ _ U) I) as [J _]. by destruct U; split. Qed.

Lemma fresh_bytes v n m :
  0x8000000000 <= v -> v + n <= 0xFF8000000000 -> fresh_pages R v n m -> forall y, v <= y < v + n -> is_Some (byte_at m y).
Proof.
  intros Hlo Hhi Hf y Hy. unfold byte_at. rewrite decide_True by (unfold user_address; lia).
  destruct (Hf y Hy) as (x & -> & _). by eexists.
Qed.

(** User addresses are apart when their pages are. *)
Lemma user_apart v n y k :
  v `mod` 0x1000 = 0 -> n `mod` 0x1000 = 0 -> 0x8000000000 <= v -> v + n <= 0xFF8000000000 -> user_address y -> ~ v <= y < v + n ->
  0 <= k < n / 0x1000 -> indices y <> indices (v + k * 0x1000).
Proof. unfold user_address. intros H1 H1' H2 H3 Hy Hno Hk Heq. apply indices_inj in Heq. lia. Qed.

Lemma alloc_user_static fuel v size o s m T :
  user_space s m T -> opt_static_vaddr o = Some v -> v `mod` 0x1000 = 0 -> size `mod` 0x1000 = 0 -> 0 <= size ->
  0x8000000000 <= v -> v + size <= 0xFF8000000000 ->
  wpe (alloc_mapped_frame fuel R size o) s
    (fun v' s' => v' = v /\ exists m' T', user_space s' m' T' /\ bytes_kept m m' /\
       (forall y, v <= y < v + size -> is_Some (byte_at m' y)) /\
       forall y, user_address y -> ~ v <= y < v + size -> phys m' R y = phys m R y)
    (fun _ s' => exists m' T', user_space s' m' T' /\ bytes_kept m m' /\ forall y, phys m' R y = phys m R y).
Proof.
  intros U Ho Hvm Hsm Hs Hlo Hhi. pose proof (us_inv _ _ _ U) as I. pose proof (us_roots _ _ _ U R HR0) as HR.
  eapply wpe_mono; [apply (alloc_static_frame_spec X lo (Some Kr) (protect_pages m T) fuel R v size o s m T); try done; try lia| |].
  - by apply pinv_protect.
  - intros j Hj. eapply us_clear; [done|]. unfold user_address. lia.
  - intros v' s' [-> Hm]. split; [done|].
    destruct (space_mapped R v _ s m T Hvm I HR s' U (or_introl eq_refl) Hm) as (m' & T' & U' & Hk & Hf & Ho' & Hwas).
    exists m', T'. replace (size / 0x1000 * 0x1000) with size in Hf by lia. split_and!; [done|done|by apply fresh_bytes|].
    intros y Hy Hno. apply Ho'; [done|]. right. intros k Hk'. by apply (user_apart _ size).
  - intros e s' [(_ & I' & _)|[_ Hb]].
    + exists m, T. split_and!; [by eapply pinv_space|by intros y b|done].
    + destruct (space_given_back R s m T s' I U Hb) as (m' & T' & U' & Hk & Hp). exists m', T'. auto.
Qed.

(** A page of user space, when there is a free one at [v0]. *)
Lemma alloc_user_page fuel v0 s m T :
  user_space s m T -> v0 `mod` 0x1000 = 0 -> 0x8000000000 <= v0 -> v0 + 0x1000 <= 0xFF8000000000 -> phys m R v0 = None ->
  v0 + 0x1000 - USER_SEARCH_START <= (Z.of_nat fuel - 1) * 0x1000 ->
  wpe (alloc_mapped_frame fuel R 0x1000 USER_DATA) s
    (fun v s' => 0x8000000000 <= v /\ v + 0x1000 <= 0xFF8000000000 /\ v `mod` 0x1000 = 0 /\
       (forall y, v <= y < v + 0x1000 -> byte_at m y = None) /\
       exists m' T', user_space s' m' T' /\ bytes_kept m m' /\ forall y, v <= y < v + 0x1000 -> is_Some (byte_at m' y))
    (fun _ s' => exists m' T', user_space s' m' T' /\ bytes_kept m m').
Proof.
  intros U Hvm Hlo Hhi Hfree Hfuel. pose proof (us_inv _ _ _ U) as I. pose proof (us_roots _ _ _ U R HR0) as HR.
  assert (USER_SEARCH_START = 0x8000000000 /\ USER_SEARCH_END = 0xFFFFFF8000000000) as [E1 E2] by done.
  eapply wpe_mono; [apply (alloc_user_frame_spec X lo (Some Kr) (protect_pages m T) fuel R 0x1000 USER_DATA v0 s m T); try done; try lia| |].
  - by apply pinv_protect.
  - intros k Hk. replace (v0 + k * 0x1000) with v0 by lia. unfold PageAlloc.phys in Hfree. by destruct (trans X m R (indices v0)).
  - intros v Hv. eapply us_clear; [done|]. unfold user_address. lia.
  - intros v s' (Hv & Hv' & Hm).
    destruct (space_mapped R v _ s m T Hv' I HR s' U (or_introl eq_refl) Hm) as (m' & T' & U' & Hk & Hf & Ho' & Hwas).
    split_and!; [lia|lia|done| |].
    + intros y Hy. unfold byte_at. by rewrite Hwas, decide_True by (unfold user_address; lia).
    + exists m', T'. split_and!; [done|done|]. apply fresh_bytes; [lia|lia|done].
  - intros e s' [_ Hb]. destruct (space_given_back R s m T s' I U Hb) as (m' & T' & U' & Hk & Hp). by exists m', T'.
Qed.

(** Pages for a stack of the kernel. *)
Lemma alloc_kernel_pages fuel size s m T :
  user_space s m T -> 0 < size <= 2 ^ 47 -> size `mod` 0x1000 = 0 ->
  KERNEL_SEARCH_END - KERNEL_SEARCH_START <= (Z.of_nat fuel - 1) * 0x1000 ->
  wpe (alloc_mapped_frame fuel Kr size KERNEL_DATA) s
    (fun v s' => KERNEL_SEARCH_START <= v /\ v + size <= KERNEL_SEARCH_END /\ v `mod` 0x1000 = 0 /\
       exists m' T', user_space s' m' T' /\ bytes_kept m m' /\ fresh_pages Kr v size m')
    (fun _ s' => exists m' T', user_space s' m' T' /\ bytes_kept m m').
Proof.
  intros U Hs Hsm Hfuel. pose proof (us_inv _ _ _ U) as I. pose proof (us_roots _ _ _ U Kr HK0) as HK.
  eapply wpe_mono; [apply (alloc_mapped_frame_spec X lo (Some Kr) (protect_pages m T) fuel Kr size KERNEL_DATA s m T); try done| |].
  - by apply pinv_protect.
  - intros y Hy. apply (us_clears _ _ _ U); [done|apply indices_ok|done|by apply HclearK].
  - intros v s' (Hlo & Hhi & Hvm & Hm).
    destruct (space_mapped Kr v _ s m T Hvm I HK s' U (or_intror eq_refl) Hm) as (m' & T' & U' & Hk & Hf & _).
    split_and!; [done|done|done|]. exists m', T'. by replace (size / 0x1000 * 0x1000) with size in Hf by lia.
  - intros e s' [(_ & I' & _)|[_ Hb]].
    + exists m, T. split; [by eapply pinv_space|by intros y b].
    + destruct (space_given_back Kr s m T s' I U Hb) as (m' & T' & U' & Hk & Hp). by exists m', T'.
Qed.

(** ** Bytes are written *)

Lemma space_agree s m T s' m' :
  user_space s m T -> pinv s' m' T -> agree T m m' ->
  user_space s' m' T /\ forall r y, T !! r = Some 4%nat -> phys m' r y = phys m r y.
Proof.
  intros [I Ho Hr Hc Hs Hk] I' Hag. pose proof I as (_ & F & _).
  assert (Hph : forall r y, T !! r = Some 4%nat -> phys m' r y = phys m r y) by (intros; by apply (phys_agree X T)).
  split; [|done]. split; [done| |done| | |].
  - intros y x Hy. rewrite Hph by auto. by apply Ho.
  - intros r js Hr0 Hjs Hl Hcp pre i suf p -> Ht. apply (Hc r _ Hr0 Hjs Hl Hcp pre i suf p eq_refl).
    apply Forall_app in Hjs as [Hpre _]. rewrite length_app in Hl. rewrite <-Ht. symmetry.
    apply (trans_agree X T m m' r _ 4%nat); try done; [lia|auto].
  - intros r y Hr0 Hne1 Hne2. rewrite Hph by auto. auto.
  - intros a x Ha. rewrite Hph by auto. auto.
Qed.

Lemma space_wrote s m T s' m' a n b :
  user_space s m T -> pinv s' m' T -> wrote X R T m a n b m' ->
  0 <= n -> 0x8000000000 <= a -> a + n <= 0xFF8000000000 ->
  user_space s' m' T /\ (forall k, 0 <= k < n -> byte_at m' (a + k) = Some (b k)) /\
  (forall y, ~ a <= y < a + n -> byte_at m' y = byte_at m y) /\ forall y, phys m' R y = phys m R y.
Proof.
  intros U I' (Hag & Hin & Hout) Hn Hlo Hhi. destruct (space_agree s m T s' m' U I' Hag) as [U' Hph].
  pose proof (us_roots _ _ _ U R HR0) as HR. pose proof (us_inv _ _ _ U) as (_ & F & _).
  split_and!; [done| | |auto].
  - intros k Hk. unfold byte_at. rewrite decide_True by (unfold user_address; lia). rewrite Hph by done.
    destruct (Hin k Hk) as (x & -> & Hb). cbn. by rewrite Hb.
  - intros y Hy. unfold byte_at. case_decide as Hu; [|done]. rewrite Hph by done.
    destruct (phys m R y) as [x|] eqn:Hx; [|done]. cbn. f_equal. apply Hout. intros k Hk Hx'.
    assert (y = a + k) by (eapply (phys_inj X R T HR m); [done|done|done|unfold user_address in Hu; lia]). lia.
Qed.

Lemma mapped_phys m y : is_Some (byte_at m y) -> phys m R y <> None.
Proof. unfold byte_at. case_decide; [|by intros []]. destruct (phys m R y); [done|by intros []]. Qed.

(** The conditions of the loops that write. *)
Lemma space_writable s m T a n :
  user_space s m T -> 0x8000000000 <= a -> a + n <= 0xFF8000000000 ->
  (forall k, 0 <= k < n -> clear_path X m R (indices (a + k))) /\ unprotected X O R m a n.
Proof.
  intros U Hlo Hhi. split.
  - intros k Hk. eapply us_clear; [done|]. unfold user_address. lia.
  - intros k x Hk Hx. eapply us_own; [done| |done]. unfold user_address. lia.
Qed.

Lemma write_user_bytes a src s m T :
  let n := Z.of_nat (length src) in
  user_space s m T -> 0x8000000000 <= a -> a + n <= 0xFF8000000000 ->
  (forall y, a <= y < a + n -> is_Some (byte_at m y)) ->
  wp (write_page_table_memory R a src) s (fun _ s' => exists m', user_space s' m' T /\
    (forall k b, src !! k = Some b -> byte_at m' (a + Z.of_nat k) = Some b) /\
    (forall y, ~ a <= y < a + n -> byte_at m' y = byte_at m y) /\ forall y, phys m' R y = phys m R y).
Proof.
  intros n U Hlo Hhi Hmap. unfold write_page_table_memory. destruct (space_writable s m T a n U Hlo Hhi) as [C1 C2].
  pose proof (write_page_loop_spec X lo (Some Kr) O R T (us_roots _ _ _ U R HR0) (rounds n) a src s m (us_inv _ _ _ U)
    ltac:(lia) ltac:(lia) ltac:(lia) C1 C2 (rounds_enough_for X a n ltac:(lia) ltac:(lia))) as Hw.
  unfold wpe in Hw. unfold wp. fold n in Hw. subst n. set (n := Z.of_nat (length src)) in *.
  destruct (write_page_loop _ _ _ _ _) as [[[]|e| |] s']; try done.
  - destruct Hw as (m' & I' & W). exists m'.
    destruct (space_wrote s m T s' m' a n (nth_byte src) U I' W) as (U' & H1 & H2 & H3); [lia..|].
    split_and!; [done| |done|done]. intros k b Hk. rewrite H1; [|apply lookup_lt_Some in Hk; lia].
    unfold nth_byte. by rewrite Nat2Z.id, Hk.
  - destruct Hw as (m' & j & Hj & Hno & _). exfalso. by apply (mapped_phys m (a + j)); [apply Hmap; lia|].
Qed.

Lemma fill_user_bytes a n s m T :
  user_space s m T -> 0 <= n -> 0x8000000000 <= a -> a + n <= 0xFF8000000000 ->
  (forall y, a <= y < a + n -> is_Some (byte_at m y)) ->
  wp (write_page_table_memory_bytes R a 0 n) s (fun _ s' => exists m', user_space s' m' T /\
    (forall y, a <= y < a + n -> byte_at m' y = Some 0) /\
    (forall y, ~ a <= y < a + n -> byte_at m' y = byte_at m y) /\ forall y, phys m' R y = phys m R y).
Proof.
  intros U Hn Hlo Hhi Hmap. unfold write_page_table_memory_bytes. destruct (space_writable s m T a n U Hlo Hhi) as [C1 C2].
  apply wp_bind, wp_checked; [lia|]. replace n with (a + n - a) in C1, C2 by lia.
  pose proof (fill_page_loop_spec X lo (Some Kr) O R T (us_roots _ _ _ U R HR0) (rounds n) a (a + n) 0 s m (us_inv _ _ _ U)
    ltac:(lia) ltac:(lia) ltac:(lia) C1 C2) as Hw.
  replace (a + n - a) with n in Hw by lia. specialize (Hw (rounds_enough_for X a n ltac:(lia) ltac:(lia))).
  unfold wpe in Hw. unfold wp. destruct (fill_page_loop _ _ _ _ _ _) as [[[]|e| |] s']; try done.
  - destruct Hw as (m' & I' & W). exists m'.
    destruct (space_wrote s m T s' m' a n _ U I' W) as (U' & H1 & H2 & H3); [lia..|].
    split_and!; [done| |done|done]. intros y Hy. replace y with (a + (y - a)) by lia. apply H1. lia.
  - destruct Hw as (m' & j & Hj & Hno & _). exfalso. by apply (mapped_phys m (a + j)); [apply Hmap; lia|].
Qed.

(** Pages of the kernel are not pages of the process. *)
Lemma kernel_page_apart s m T y a x x' :
  user_space s m T -> phys m R y = Some x -> phys m Kr a = Some x' -> x - x `mod` 0x1000 <> x' - x' `mod` 0x1000.
Proof.
  intros U Hx Hx' Heq. pose proof (us_inv _ _ _ U) as (_ & F & _).
  pose proof (us_roots _ _ _ U R HR0) as HR. pose proof (us_roots _ _ _ U Kr HK0) as HK.
  unfold PageAlloc.phys in Hx, Hx'. destruct (trans X m R (indices y)) as [p|] eqn:Hp; [|done].
  destruct (trans X m Kr (indices a)) as [q|] eqn:Hq; [|done]. cbn in Hx, Hx'. injection Hx as <-. injection Hx' as <-.
  assert (T !! p = Some 0%nat) as HTp by (apply (trans_level X m T R _ (indices y)); [done|done|apply indices_ok|done]).
  assert (T !! q = Some 0%nat) as HTq by (apply (trans_level X m T Kr _ (indices a)); [done|done|apply indices_ok|done]).
  pose proof (f_frame _ _ _ F p _ HTp) as (_ & Hpm & _). pose proof (f_frame _ _ _ F q _ HTq) as (_ & Hqm & _).
  assert (p = q) as <- by lia.
  destruct (trans_unique X m T R 0 Kr 0 (indices y) (indices a) p) as [HRK' _]; try done;
    try apply indices_ok; by eapply root_unref.
Qed.

(** A word on a stack of the kernel. *)
Lemma store_u64_spec {E} a v x s m T :
  user_space s m T -> a `mod` 8 = 0 -> phys m Kr a = Some x -> x - x `mod` 0x1000 ∉ o_pages O ->
  wp (store_u64 (E := E) a v) s (fun _ s' => user_space s' (put m x v) T /\ bytes_kept m (put m x v) /\
    forall r y, T !! r = Some 4%nat -> phys (put m x v) r y = phys m r y).
Proof.
  intros U Ha Hx Hn. pose proof (us_inv _ _ _ U) as I. pose proof I as ((_ & Hm & HK) & F & _).
  pose proof (us_roots _ _ _ U Kr HK0) as HKr.
  destruct (phys_page X Kr T HKr m a x F Hx) as (q & HTq & Hqm & Hxq & _).
  assert (x - x `mod` 0x1000 = q) as Hq by lia. rewrite Hq in Hn.
  assert (forall z, ~ q <= z < q + 0x1000 -> put m x v z = m z) as Hput.
  { intros z Hz. unfold put. apply store_out. rewrite length_to_le. lia. }
  destruct (page_write X lo (Some Kr) O T s s m q (put m x v) I (after_refl s) HTq Hn Hput (put (ram s) x v)) as [J Hag].
  { unfold put. by apply store_proper. }
  unfold store_u64, wp. rewrite HK, (phys_all X _ _ _ x); [|by rewrite (phys_meq X _ m)].
  destruct (space_agree s m T _ _ U J Hag) as [U' Hph]. split_and!; [done| |done].
  intros y b. unfold byte_at. case_decide as Hu; [|done]. rewrite Hph by (by apply (us_roots _ _ _ U)).
  destruct (phys m R y) as [x'|] eqn:Hx'; [|done]. cbn. intros <-. f_equal. apply Hput.
  pose proof (kernel_page_apart s m T y a x' x U Hx' Hx). lia.
Qed.

End space.
