(* ===== verification/Elf.v ===== *)
(** * Executable files (library/elf/src/lib.rs, library/async_io/src/lib.rs)

    Reading the header and the segments of an ELF file through the traits
    [AsyncRead] and [Seekable], and loading the segments through the trait
    [Loader]. The traits are type classes; what an implementation promises is a
    class of laws, and the theorems are proved against the laws: a header that
    was written is read back, and loading leaves the image that the segments
    describe in memory. *)
From S2P Require Import Prelude.

(** ** Input (async_io) *)

(** [AsyncRead] and [Seekable]: [read] returns the number of bytes and the
    buffer. *)
Class Io (S RE SE : Type) := {
  io_read : list Z -> M S RE (Z * list Z);
  io_seek : Z -> M S SE unit
}.

Inductive ReadExactError (E : Type) : Type :=
  | InnerError (e : E)
  | EOF.
Arguments InnerError {E} _.
Arguments EOF {E}.

(** The buffer [buf] shrinks to the part not yet filled; [got] is the filled part. *)
Fixpoint read_exact_loop {S RE SE} `{!Io S RE SE} (fuel : nat) (got buf : list Z)
    : M S (ReadExactError RE) (list Z) :=
  match fuel with
  | O => diverge
  | Datatypes.S fuel =>
      match buf with
      | [] => mret got
      | _ =>
          '(c, buf) ← map_err InnerError (io_read buf);
          if c =? 0 then throw EOF
          else if Z.of_nat (length buf) <? c then panic
          else read_exact_loop fuel (got ++ take (Z.to_nat c) buf) (drop (Z.to_nat c) buf)
      end
  end.

Definition read_exact {S RE SE} `{!Io S RE SE} (buf : list Z) : M S (ReadExactError RE) (list Z) :=
  read_exact_loop (Datatypes.S (length buf)) [] buf.

(** ** Files *)

Record ElfHeader : Type := mkElfHeader {
  bits : Z;
  endian : Z;
  abi : Z;
  elf_type : Z;
  instruction : Z;
  entry_point : Z
}.

Record ElfProgram : Type := mkElfProgram {
  program_type : Z;
  flag : Z;
  p_offset : Z;
  p_vaddr : Z;
  p_filesz : Z;
  p_memsz : Z
}.

(** [ElfFile], without its [io], which is the state of the operations. *)
Record ElfFile : Type := mkElfFile {
  header : ElfHeader;
  program : list ElfProgram
}.

Inductive ElfReadError (RE SE : Type) : Type :=
  | ReadFailed (e : ReadExactError RE)
  | SeekFailed (e : SE)
  | Format
  | Unsupport.
Arguments ReadFailed {RE SE} _.
Arguments SeekFailed {RE SE} _.
Arguments Format {RE SE}.
Arguments Unsupport {RE SE}.

Inductive ElfLoadError (RE SE LE : Type) : Type :=
  | LoadReadFailed (e : ReadExactError RE)
  | LoadSeekFailed (e : SE)
  | LoadFailed (e : LE).
Arguments LoadReadFailed {RE SE LE} _.
Arguments LoadSeekFailed {RE SE LE} _.
Arguments LoadFailed {RE SE LE} _.

Class Loader (L LE : Type) := {
  alloc_static : Z -> Z -> bool -> bool -> bool -> M L LE unit;
  write_to_memory : Z -> list Z -> M L LE unit;
  clear_memory : Z -> Z -> M L LE unit
}.

(** [u16::from_le_bytes(buffer[off..off + n].try_into().unwrap())] and wider. *)
Definition field (off n : nat) (buffer : list Z) : Z := from_le (slice off n buffer).

(** The checks of [from_io] on the header: the error it returns. *)
Definition header_error {RE SE} (h : list Z) : option (ElfReadError RE SE) :=
  if negb (bool_decide (slice 0 4 h = [0x7f; 0x45; 0x4c; 0x46])) then Some Format
  else if negb (field 4 1 h =? 2) then (if field 4 1 h =? 1 then Some Unsupport else Some Format)
  else if negb (field 5 1 h =? 1) then (if field 5 1 h =? 2 then Some Unsupport else Some Format)
  else if negb (field 6 1 h =? 1) then Some Unsupport
  else if negb (field 7 1 h =? 0) then Some Unsupport
  else if negb (field 16 2 h =? 2) then Some Unsupport
  else if negb (field 18 2 h =? 0x3e) then Some Unsupport
  else if negb (field 20 4 h =? 1) then Some Unsupport
  else if negb (field 54 2 h =? 56) then Some Unsupport
  else None.

Definition parse_program {S RE SE} (h : list Z) : M S (ElfReadError RE SE) ElfProgram :=
  let p := mkElfProgram (field 0 4 h) (field 4 4 h) (field 8 8 h) (field 16 8 h) (field 32 8 h) (field 40 8 h) in
  if p_memsz p <? p_filesz p then throw Format
  else if 0x1000 <? field 48 8 h then throw Unsupport
  else mret p.

Section file.
  Context {S RE SE : Type} `{!Io S RE SE}.

Fixpoint read_programs (n : nat) (buffer : list Z) (acc : list ElfProgram)
    : M S (ElfReadError RE SE) (list ElfProgram) :=
  match n with
  | O => mret acc
  | Datatypes.S n =>
      buffer ← map_err ReadFailed (read_exact buffer);
      p ← parse_program buffer;
      read_programs n buffer (acc ++ [p])
  end.

Definition from_io : M S (ElfReadError RE SE) ElfFile :=
  map_err SeekFailed (io_seek 0);;
  h ← map_err ReadFailed (read_exact (replicate 64 0));
  match header_error h with
  | Some e => throw e
  | None =>
      map_err SeekFailed (io_seek (field 32 8 h));;
      program ← read_programs (Z.to_nat (field 56 2 h)) (replicate 56 0) [];
      mret (mkElfFile
        (mkElfHeader (field 4 1 h) (field 5 1 h) (field 7 1 h) (field 16 2 h) (field 18 2 h) (field 24 8 h)) program)
  end.

Section load.
  Context {L LE : Type} `{!Loader L LE}.

Definition on_io {E A} (m : M S E A) : M (S * L) E A := zoom fst (fun i s => (i, snd s)) m.
Definition on_loader {E A} (m : M L E A) : M (S * L) E A := zoom snd (fun l s => (fst s, l)) m.

(** The bytes of a segment, at most 512 in a round. *)
Fixpoint load_bytes (fuel : nat) (buf : list Z) (addr remain : Z)
    : M (S * L) (ElfLoadError RE SE LE) (list Z) :=
  match fuel with
  | O => diverge
  | Datatypes.S fuel =>
      if 0 <? remain then
        let step := Z.of_nat (length buf) `min` remain in
        bs ← map_err LoadReadFailed (on_io (read_exact (take (Z.to_nat step) buf)));
        map_err LoadFailed (on_loader (write_to_memory addr bs));;
        addr ← checked 64 (addr + step);
        load_bytes fuel (bs ++ drop (Z.to_nat step) buf) addr (remain - step)
      else mret buf
  end.

Definition load_program (p : ElfProgram) (buf : list Z) : M (S * L) (ElfLoadError RE SE LE) (list Z) :=
  if negb (program_type p =? 1) then mret buf
  else
    let readable := negb (Z.land (flag p) 4 =? 0) in
    let writable := negb (Z.land (flag p) 2 =? 0) in
    let executable := negb (Z.land (flag p) 1 =? 0) in
    map_err LoadFailed (on_loader (alloc_static (p_vaddr p) (p_memsz p) readable writable executable));;
    map_err LoadSeekFailed (on_io (io_seek (p_offset p)));;
    buf ← load_bytes (Datatypes.S (Z.to_nat (p_filesz p))) buf (p_vaddr p) (p_filesz p);
    (if p_filesz p <? p_memsz p then
       a ← checked 64 (p_vaddr p + p_filesz p);
       map_err LoadFailed (on_loader (clear_memory a (p_memsz p - p_filesz p)))
     else mret tt);;
    mret buf.

Definition load (e : ElfFile) : M (S * L) (ElfLoadError RE SE LE) unit :=
  for_each (program e) load_program (replicate 512 0);;
  mret tt.

End load.
End file.

(** ** What the theorems rely on *)

(** A file of bytes [c], open at position [p]: [seek] goes to a position but
    not behind the end, [read] returns bytes from the position on, and none
    only when the file is at its end or the buffer is empty. *)
Class IoSpec (S RE SE : Type) `{!Io S RE SE} := {
  io_at : S -> list Z -> Z -> Prop;
  io_at_pos : forall s c p, io_at s c p -> 0 <= p <= Z.of_nat (length c);
  io_seek_spec : forall s c p q, io_at s c p -> 0 <= q ->
    wp (io_seek q) s (fun _ s' => io_at s' c (q `min` Z.of_nat (length c)));
  io_read_spec : forall s c p buf, io_at s c p ->
    wp (io_read buf) s (fun r s' =>
      io_at s' c (p + r.1) /\ 0 <= r.1 <= Z.of_nat (length buf) /\
      r.2 = slice (Z.to_nat p) (Z.to_nat r.1) c ++ drop (Z.to_nat r.1) buf /\
      (r.1 = 0 -> buf = [] \/ p = Z.of_nat (length c)))
}.

(** A memory [mem], of which [alloc_static] makes a range part, and which the
    other operations write, in the ranges that are [valid]. *)
Class LoaderSpec (L LE : Type) `{!Loader L LE} := {
  loader_ok : L -> Prop;
  mem : L -> Z -> option Z;
  valid : Z -> Z -> Prop;
  valid_bounds : forall a n, valid a n -> 0 <= a /\ 0 <= n /\ a + n < 2 ^ 64;
  valid_part : forall a n k j, valid a n -> 0 <= k -> 0 <= j -> k + j <= n -> valid (a + k) j;
  alloc_static_spec : forall s a n r w x, loader_ok s -> valid a n ->
    wpe (alloc_static a n r w x) s
      (fun _ s' => loader_ok s' /\ (forall y, a <= y < a + n -> is_Some (mem s' y)) /\
         forall y b, mem s y = Some b -> mem s' y = Some b)
      (fun _ => loader_ok);
  write_to_memory_spec : forall s a bs, loader_ok s -> valid a (Z.of_nat (length bs)) ->
    (forall y, a <= y < a + Z.of_nat (length bs) -> is_Some (mem s y)) ->
    wp (write_to_memory a bs) s (fun _ s' => loader_ok s' /\
      (forall k b, bs !! k = Some b -> mem s' (a + Z.of_nat k) = Some b) /\
      forall y, ~ a <= y < a + Z.of_nat (length bs) -> mem s' y = mem s y);
  clear_memory_spec : forall s a n, loader_ok s -> valid a n ->
    (forall y, a <= y < a + n -> is_Some (mem s y)) ->
    wp (clear_memory a n) s (fun _ s' => loader_ok s' /\
      (forall y, a <= y < a + n -> mem s' y = Some 0) /\
      forall y, ~ a <= y < a + n -> mem s' y = mem s y)
}.

(** ** Reading *)

Section reading.
  Context {S RE SE : Type} `{!Io S RE SE, !IoSpec S RE SE}.

Lemma slice_split (c : list Z) (p n k : Z) :
  0 <= p -> 0 <= n -> 0 <= k ->
  slice (Z.to_nat p) (Z.to_nat n) c ++ slice (Z.to_nat (p + n)) (Z.to_nat k) c = slice (Z.to_nat p) (Z.to_nat (n + k)) c.
Proof. intros. rewrite !Z2Nat.inj_add, slice_add by lia. done. Qed.

Lemma read_exact_loop_spec fuel got buf s c p :
  io_at s c p -> (length buf < fuel)%nat ->
  wpe (read_exact_loop fuel got buf) s
    (fun bs s' => p + Z.of_nat (length buf) <= Z.of_nat (length c) /\ io_at s' c (p + Z.of_nat (length buf)) /\
       bs = got ++ slice (Z.to_nat p) (length buf) c)
    (fun e _ => e = EOF /\ Z.of_nat (length c) < p + Z.of_nat (length buf)).
Proof.
  revert got buf s p. induction fuel as [|fuel IH]; intros got buf s p Hat Hf; [lia|].
  pose proof (io_at_pos _ _ _ Hat) as Hp. cbn [read_exact_loop]. destruct buf as [|x buf].
  { apply wpe_ret. rewrite slice_0, app_nil_r. cbn. rewrite Z.add_0_r. split_and!; [lia|done|done]. }
  set (b := x :: buf) in *. assert (b <> []) as Hb by done. clearbody b.
  apply wpe_bind, wp_map_err. eapply wp_mono; [by apply io_read_spec|].
  intros [n b'] s' (Hat' & Hn & Hb' & Hz). cbn [fst snd] in *. pose proof (io_at_pos _ _ _ Hat') as Hp'.
  destruct (Z.eqb_spec n 0) as [->|Hne].
  { apply wpe_throw. split; [done|]. destruct (Hz eq_refl) as [|Hend]; [done|]. destruct b; [done|]. cbn. lia. }
  assert (length (slice (Z.to_nat p) (Z.to_nat n) c) = Z.to_nat n) as Hsl by (apply length_slice; lia).
  assert (length b' = length b) as Hl by (subst b'; rewrite length_app, length_drop, Hsl; lia).
  rewrite Hl. destruct (Z.ltb_spec (Z.of_nat (length b)) n); [lia|].
  rewrite Hb', take_app_length', drop_app_length' by done.
  eapply wpe_mono; [apply (IH _ _ s' (p + n) Hat'); rewrite length_drop; lia| |]; cbn beta; rewrite length_drop.
  - intros bs s2 (H1 & H2 & ->). split; [lia|]. split.
    + by replace (p + Z.of_nat (length b)) with (p + n + Z.of_nat (length b - Z.to_nat n)) by lia.
    + rewrite <-app_assoc. f_equal. rewrite <-(Nat2Z.id (length b - Z.to_nat n)), slice_split by lia.
      f_equal. lia.
  - intros e _ [-> He]. split; [done|]. lia.
Qed.

(** The buffer is filled with the bytes from the position on, or the file is
    too short. *)
Lemma read_exact_spec buf s c p :
  io_at s c p ->
  wpe (read_exact buf) s
    (fun bs s' => p + Z.of_nat (length buf) <= Z.of_nat (length c) /\ io_at s' c (p + Z.of_nat (length buf)) /\
       bs = slice (Z.to_nat p) (length buf) c)
    (fun e _ => e = EOF /\ Z.of_nat (length c) < p + Z.of_nat (length buf)).
Proof. intros Hat. apply (read_exact_loop_spec _ []); [done|lia]. Qed.

End reading.

(** ** Writing a header *)

(** The bytes of a header for a file whose segments are described from
    [offset] on; [pad] are the fields the kernel does not look at. *)
Definition encode_header (entry offset count : Z) (pad pad' pad'' : list Z) : list Z :=
  mjoin [[0x7f; 0x45; 0x4c; 0x46]; [2]; [1]; [1]; [0]; pad; to_le 2 2; to_le 2 0x3e; to_le 4 1;
    to_le 8 entry; to_le 8 offset; pad'; to_le 2 56; to_le 2 count; pad''].

Definition encode_program (align : Z) (pad : list Z) (p : ElfProgram) : list Z :=
  mjoin [to_le 4 (program_type p); to_le 4 (flag p); to_le 8 (p_offset p); to_le 8 (p_vaddr p); pad;
    to_le 8 (p_filesz p); to_le 8 (p_memsz p); to_le 8 align].

(** What a segment can be that the kernel accepts. *)
Record program_fits (p : ElfProgram) : Prop := {
  fits_type : 0 <= program_type p < 2 ^ 32;
  fits_flag : 0 <= flag p < 2 ^ 32;
  fits_offset : 0 <= p_offset p < 2 ^ 64;
  fits_vaddr : 0 <= p_vaddr p < 2 ^ 64;
  fits_size : 0 <= p_filesz p <= p_memsz p;
  fits_memsz : p_memsz p < 2 ^ 64
}.

(** A field in a list of fields. *)
Lemma slice_join (fs : list (list Z)) i x off n :
  fs !! i = Some x -> off = sum_list (length <$> take i fs) -> n = length x -> slice off n (mjoin fs) = x.
Proof.
  revert i off. induction fs as [|f fs IH]; intros [|i] off Hi Hoff Hn; try done; cbn in *.
  - injection Hi as ->. subst. unfold slice. by rewrite drop_0, take_app_length.
  - subst off. rewrite slice_app_r by lia. rewrite Nat.add_comm, Nat.add_sub. by apply (IH i).
Qed.

Ltac take_field i :=
  match goal with
  | |- context [slice ?off ?n (mjoin ?fs)] =>
      rewrite (slice_join fs i _ off n eq_refl) by (cbn; rewrite ?length_to_le; cbn; lia)
  end;
  rewrite ?from_to_le by lia.

Lemma parse_encode_program {S RE SE} align pad p :
  program_fits p -> length pad = 8%nat -> 0 <= align <= 0x1000 ->
  parse_program (S := S) (RE := RE) (SE := SE) (encode_program align pad p) = mret p.
Proof.
  intros [H1 H2 H3 H4 H5 H6] Hpad Ha. unfold parse_program, field, encode_program.
  take_field 0%nat. take_field 1%nat. take_field 2%nat. take_field 3%nat. take_field 5%nat.
  take_field 6%nat. take_field 7%nat. cbn.
  destruct (Z.ltb_spec (p_memsz p) (p_filesz p)); [lia|]. destruct (Z.ltb_spec 4096 align); [lia|].
  by destruct p.
Qed.

(** The file [c] has a header with [entry] and the segments [ps]. *)
Record elf_bytes (c : list Z) (entry offset : Z) (ps : list ElfProgram) : Prop := {
  elf_entry : 0 <= entry < 2 ^ 64;
  elf_offset : 0 <= offset < 2 ^ 64;
  elf_count : Z.of_nat (length ps) < 2 ^ 16;
  elf_header : exists pad pad' pad'', length pad = 8%nat /\ length pad' = 14%nat /\ length pad'' = 6%nat /\
    slice 0 64 c = encode_header entry offset (Z.of_nat (length ps)) pad pad' pad'';
  elf_programs : forall i p, ps !! i = Some p -> program_fits p /\ exists align pad,
    0 <= align <= 0x1000 /\ length pad = 8%nat /\
    slice (Z.to_nat offset + 56 * i) 56 c = encode_program align pad p;
  elf_length : 64 <= Z.of_nat (length c) /\ offset + 56 * Z.of_nat (length ps) <= Z.of_nat (length c)
}.

Definition elf_of (entry : Z) (ps : list ElfProgram) : ElfFile :=
  mkElfFile (mkElfHeader 2 1 0 2 0x3e entry) ps.

Lemma header_fields {RE SE} entry offset count pad pad' pad'' :
  0 <= entry < 2 ^ 64 -> 0 <= offset < 2 ^ 64 -> 0 <= count < 2 ^ 16 ->
  length pad = 8%nat -> length pad' = 14%nat -> length pad'' = 6%nat ->
  let h := encode_header entry offset count pad pad' pad'' in
  header_error (RE := RE) (SE := SE) h = None /\ field 32 8 h = offset /\ field 56 2 h = count /\
  field 4 1 h = 2 /\ field 5 1 h = 1 /\ field 7 1 h = 0 /\ field 16 2 h = 2 /\ field 18 2 h = 0x3e /\ field 24 8 h = entry.
Proof.
  intros H1 H2 H3 P1 P2 P3. cbv zeta. unfold header_error, field, encode_header.
  take_field 0%nat. take_field 1%nat. take_field 2%nat. take_field 3%nat. take_field 4%nat. take_field 6%nat.
  take_field 7%nat. take_field 8%nat. take_field 12%nat. take_field 10%nat. take_field 13%nat. take_field 9%nat.
  rewrite bool_decide_eq_true_2 by done. done.
Qed.

Section parsing.
  Context {S RE SE : Type} `{!Io S RE SE, !IoSpec S RE SE}.

Lemma wp_read_exact buf s c p (Q : list Z -> S -> Prop) :
  io_at s c p -> p + Z.of_nat (length buf) <= Z.of_nat (length c) ->
  (forall s', io_at s' c (p + Z.of_nat (length buf)) -> Q (slice (Z.to_nat p) (length buf) c) s') ->
  wp (read_exact buf) s Q.
Proof.
  intros Hat Hlen HQ. pose proof (read_exact_spec buf s c p Hat) as Hr. unfold wpe in Hr. unfold wp.
  destruct (read_exact buf s) as [[bs|e| |] s']; try done.
  - destruct Hr as (_ & H1 & ->). auto.
  - destruct Hr as [_ Hr]. lia.
Qed.

Lemma read_programs_spec n acc buf s c entry offset ps :
  elf_bytes c entry offset ps -> length buf = 56%nat -> (length acc + n = length ps)%nat ->
  acc = take (length acc) ps -> io_at s c (offset + 56 * Z.of_nat (length acc)) ->
  wp (read_programs n buf acc) s (fun ps' s' => ps' = ps /\ exists p', io_at s' c p').
Proof.
  intros [_ Ho _ _ Hps [_ Hl]]. revert acc buf s. induction n as [|n IH]; intros acc buf s Hb Hn Hacc Hat; cbn [read_programs].
  { apply wp_ret. split; [rewrite Hacc; apply take_ge; lia|by eexists]. }
  destruct (lookup_lt_is_Some_2 ps (length acc)) as [p Hp]; [lia|].
  destruct (Hps _ _ Hp) as (Hfit & align & pad & Ha & Hpad & Hsl).
  apply wp_bind, wp_map_err. apply (wp_read_exact _ _ _ _ _ Hat); [lia|]. intros s' Hat'.
  rewrite Hb, Z2Nat.inj_add, (Z2Nat.inj_mul 56), Nat2Z.id in * by lia.
  change (Z.to_nat 56) with 56%nat. rewrite Hsl.
  apply wp_bind. rewrite parse_encode_program by done. apply wp_ret. apply IH.
  - rewrite <-Hsl. rewrite length_slice; lia.
  - rewrite length_app. cbn. lia.
  - rewrite length_app. cbn. rewrite Nat.add_1_r, (take_S_r _ _ p) by done. by rewrite <-Hacc.
  - rewrite length_app. cbn. by replace (offset + 56 * Z.of_nat (length acc + 1)) with (offset + 56 * Z.of_nat (length acc) + Z.of_nat 56) by lia.
Qed.

Lemma from_io_run s c p entry offset ps :
  io_at s c p -> elf_bytes c entry offset ps ->
  wp from_io s (fun e s' => e = elf_of entry ps /\ exists p', io_at s' c p').
Proof.
  intros Hat He. pose proof He as [H1 H2 H3 (pad & pad' & pad'' & P1 & P2 & P3 & Hh) _ [H4 H5]].
  unfold from_io. apply wp_bind, wp_map_err. eapply wp_mono; [by apply (io_seek_spec _ _ _ _ Hat)|].
  intros [] s1 Hat1. rewrite Z.min_l in Hat1 by lia.
  apply wp_bind, wp_map_err, (wp_read_exact _ _ _ _ _ Hat1); [done|]. intros s2 Hat2. cbn [length replicate] in *.
  change (Z.to_nat 0) with 0%nat. rewrite Hh.
  destruct (header_fields (RE := RE) (SE := SE) entry offset (Z.of_nat (length ps)) pad pad' pad'')
    as (-> & F1 & F2 & F3 & F4 & F5 & F6 & F7 & F8); [lia..|done|done|done|].
  rewrite F1, F2, F3, F4, F5, F6, F7, F8.
  apply wp_bind, wp_map_err. eapply wp_mono; [by apply (io_seek_spec _ _ _ _ Hat2); lia|].
  intros [] s3 Hat3. rewrite Z.min_l in Hat3 by lia. rewrite Nat2Z.id.
  apply wp_bind. eapply wp_mono; [apply (read_programs_spec _ _ _ s3 c entry offset ps); try done|].
  - cbn. by rewrite Z.add_0_r.
  - intros ps' s4 [-> Hp]. apply wp_ret. done.
Qed.

(** Reading back what was written. On a file that holds the header and the
    table of segments of an executable, [from_io] returns its entry point and
    its segments, whatever stands in the fields that the kernel does not look
    at, wherever the table lies, and in however many pieces the file system
    delivers the bytes. *)
Theorem from_io_roundtrip s c p entry offset ps :
  io_at s c p -> elf_bytes c entry offset ps ->
  wp from_io s (fun e s' => e = elf_of entry ps /\ exists p', io_at s' c p').
Proof. apply from_io_run. Qed.

End parsing.

(** ** Any file *)

Lemma field_bound off n h : Forall is_byte h -> 0 <= field off n h < 256 ^ Z.of_nat n.
Proof.
  intros Hh. unfold field. pose proof (from_le_bound (slice off n h) (Forall_slice _ _ _ _ Hh)) as Hb.
  assert (length (slice off n h) <= n)%nat as Hl by (unfold slice; rewrite length_take; lia).
  split; [lia|]. eapply Z.lt_le_trans; [apply Hb|]. apply Z.pow_le_mono_r; lia.
Qed.

(** The errors that the contents of a file can cause. *)
Definition content_error {RE SE} (e : ElfReadError RE SE) : Prop := e = ReadFailed EOF \/ e = Format \/ e = Unsupport.

Section any.
  Context {S RE SE : Type} `{!Io S RE SE, !IoSpec S RE SE}.

Lemma parse_program_any h s (Q : ElfProgram -> S -> Prop) (R : ElfReadError RE SE -> S -> Prop) :
  Forall is_byte h -> (forall p, program_fits p -> Q p s) -> (forall e, content_error e -> R e s) ->
  wpe (parse_program h) s Q R.
Proof.
  intros Hh HQ HR. unfold parse_program. set (p := mkElfProgram _ _ _ _ _ _).
  destruct (Z.ltb_spec (p_memsz p) (p_filesz p)) as [|Hle]; [apply wpe_throw, HR; right; by left|].
  case_match; [apply wpe_throw, HR; right; by right|]. apply wpe_ret, HQ.
  split; try exact (field_bound _ _ h Hh); [split; [apply (field_bound 32 8 h Hh)|done]|apply (field_bound 40 8 h Hh)].
Qed.

Lemma read_programs_any n acc buf s c p :
  io_at s c p -> Forall is_byte c -> Forall program_fits acc ->
  wpe (read_programs n buf acc) s
    (fun ps s' => Forall program_fits ps /\ exists p', io_at s' c p') (fun e _ => content_error e).
Proof.
  intros Hat Hc. revert acc buf s p Hat. induction n as [|n IH]; intros acc buf s p Hat Hacc; cbn [read_programs].
  { apply wpe_ret. split; [done|]. by exists p. }
  apply wpe_try, wpe_map_err. eapply wpe_mono; [by apply read_exact_spec| |].
  - intros bs s' (_ & Hat' & ->). apply wpe_try. apply parse_program_any; [by apply Forall_slice| |].
    + intros q Hq. eapply IH; [done|]. apply Forall_app. by split; [|constructor].
    + done.
  - intros e s' [-> _]. by left.
Qed.

(** On any file [from_io] comes to an end without a panic: the segments it
    returns are not longer in the file than in memory, and it fails only for
    what the file holds. *)
Theorem from_io_total s c p :
  io_at s c p -> Forall is_byte c ->
  wpe from_io s (fun e s' => Forall program_fits (program e) /\ exists p', io_at s' c p') (fun e _ => content_error e).
Proof.
  intros Hat Hc. unfold from_io.
  apply wpe_bind, wp_map_err. eapply wp_mono; [by apply (io_seek_spec _ _ _ _ Hat)|]. intros [] s1 Hat1.
  apply wpe_try, wpe_map_err. eapply wpe_mono; [by apply read_exact_spec| |].
  2: { intros e s' [-> _]. by left. }
  intros h s2 (_ & Hat2 & Hh). assert (Forall is_byte h) as Hhb by (subst h; by apply Forall_slice).
  destruct (header_error h) as [e|] eqn:He.
  { apply wpe_throw. unfold header_error in He. unfold content_error. repeat case_match; simplify_eq; auto. }
  apply wpe_bind, wp_map_err. eapply wp_mono; [apply (io_seek_spec _ _ _ _ Hat2); apply (field_bound _ _ h Hhb)|].
  intros [] s3 Hat3. apply wpe_try. eapply wpe_mono; [by apply (read_programs_any _ [] _ _ c _ Hat3)| |done].
  intros ps s4 Hps. by apply wpe_ret.
Qed.

End any.

(** ** Loading *)

(** The memory [mu] with the segment: the bytes of the file, then zeros. *)
Definition overlay (c : list Z) (p : ElfProgram) (mu : Z -> option Z) (y : Z) : option Z :=
  if program_type p =? 1 then
    if (p_vaddr p <=? y) && (y <? p_vaddr p + p_filesz p) then c !! Z.to_nat (p_offset p + (y - p_vaddr p))
    else if (p_vaddr p <=? y) && (y <? p_vaddr p + p_memsz p) then Some 0
    else mu y
  else mu y.

(** The image of an executable: its segments one after the other. *)
Definition image (c : list Z) (ps : list ElfProgram) (mu : Z -> option Z) : Z -> option Z :=
  foldl (fun mu p => overlay c p mu) mu ps.

Lemma image_mono c ps mu mu' :
  (forall y b, mu y = Some b -> mu' y = Some b) -> forall y b, image c ps mu y = Some b -> image c ps mu' y = Some b.
Proof.
  revert mu mu'. induction ps as [|p ps IH]; intros mu mu' Hm; cbn; [done|].
  apply IH. intros y b. unfold overlay. repeat case_match; auto.
Qed.

Section loading.
  Context {S RE SE L LE : Type} `{!Io S RE SE, !IoSpec S RE SE, !Loader L LE, !LoaderSpec L LE}.
  Context (c : list Z).

(** A segment that the laws of the file and the memory cover. *)
Definition segment_ok (p : ElfProgram) : Prop :=
  program_type p = 1 -> program_fits p /\ valid p.(p_vaddr) p.(p_memsz) /\
    p_offset p + p_filesz p <= Z.of_nat (length c).

Definition load_failed (e : ElfLoadError RE SE LE) (sl : S * L) : Prop :=
  exists e', e = LoadFailed e' /\ loader_ok sl.2 /\ exists pos, io_at sl.1 c pos.

Lemma load_bytes_spec fuel buf addr remain s l pos (lo := addr) :
  io_at s c pos -> loader_ok l -> length buf = 512%nat -> 0 <= remain < Z.of_nat fuel ->
  valid addr remain -> pos + remain <= Z.of_nat (length c) ->
  (forall y, addr <= y < addr + remain -> is_Some (mem l y)) ->
  wp (load_bytes fuel buf addr remain) (s, l) (fun buf' sl' =>
    length buf' = 512%nat /\ loader_ok sl'.2 /\ (exists pos', io_at sl'.1 c pos') /\
    (forall y, addr <= y < addr + remain -> mem sl'.2 y = c !! Z.to_nat (pos + (y - addr))) /\
    forall y, ~ addr <= y < addr + remain -> mem sl'.2 y = mem l y).
Proof.
  subst lo. revert buf addr remain s l pos.
  induction fuel as [|fuel IH]; intros buf addr remain s l pos Hat Hok Hbuf Hf Hv Hc Hmem; [lia|].
  cbn [load_bytes]. destruct (Z.ltb_spec 0 remain).
  2: { apply wp_ret. cbn. split_and!; [done|done|by exists pos|lia|done]. }
  rewrite Hbuf. set (step := _ `min` _). assert (0 < step <= remain /\ step <= 512) as Hs by lia. clearbody step.
  assert (length (take (Z.to_nat step) buf) = Z.to_nat step) as Ht by (rewrite length_take; lia).
  pose proof (io_at_pos _ _ _ Hat) as Hp.
  apply wp_bind, wp_map_err, wp_zoom, (wp_read_exact _ _ _ _ _ Hat); [lia|]. rewrite Ht. intros s1 Hat1. cbn [fst snd].
  assert (length (slice (Z.to_nat pos) (Z.to_nat step) c) = Z.to_nat step) as Hsl by (apply length_slice; lia).
  apply wp_bind, wp_map_err, wp_zoom. cbn [snd].
  eapply wp_mono; [apply write_to_memory_spec; [done| |]; rewrite Hsl, Z2Nat.id by lia|].
  { rewrite <-(Z.add_0_r addr). apply (valid_part _ remain); done || lia. }
  { intros y Hy. apply Hmem. lia. }
  rewrite Hsl, Z2Nat.id by lia. intros [] l1 (Hok1 & Hin & Hout). cbn [fst].
  pose proof (valid_bounds _ _ Hv). apply wp_bind, wp_checked; [lia|].
  assert (forall y, addr <= y < addr + step -> mem l1 y = c !! Z.to_nat (pos + (y - addr))) as Hin'.
  { intros y Hy. replace y with (addr + Z.of_nat (Z.to_nat (y - addr))) at 1 by lia.
    destruct (lookup_lt_is_Some_2 c (Z.to_nat (pos + (y - addr)))) as [b Hb]; [lia|]. rewrite Hb. apply Hin.
    rewrite lookup_slice by lia. rewrite <-Hb. f_equal. lia. }
  eapply wp_mono; [eapply (IH _ (addr + step) (remain - step) s1 l1 (pos + step)); try done|].
  - by rewrite Z2Nat.id in Hat1 by lia.
  - rewrite length_app, length_drop. lia.
  - lia.
  - apply (valid_part _ remain); done || lia.
  - lia.
  - intros y Hy. rewrite Hout by lia. apply Hmem. lia.
  - intros buf' sl' (H1 & H2 & H3 & H4 & H5). split_and!; try done.
    + intros y Hy. destruct (decide (y < addr + step)).
      * rewrite H5 by lia. apply Hin'. lia.
      * rewrite H4 by lia. f_equal. lia.
    + intros y Hy. rewrite H5 by lia. apply Hout. lia.
Qed.

(** The rest of a segment is cleared. *)
Lemma clear_rest_spec p s l :
  loader_ok l -> valid (p_vaddr p) (p_memsz p) -> 0 <= p_filesz p <= p_memsz p ->
  (forall y, p_vaddr p <= y < p_vaddr p + p_memsz p -> is_Some (mem l y)) ->
  wp (E := ElfLoadError RE SE LE) (if p_filesz p <? p_memsz p then
        a ← checked 64 (p_vaddr p + p_filesz p);
        map_err LoadFailed (on_loader (clear_memory a (p_memsz p - p_filesz p)))
      else mret tt) (s, l) (fun _ (sl' : S * L) => sl'.1 = s /\ loader_ok sl'.2 /\
    (forall y, p_vaddr p + p_filesz p <= y < p_vaddr p + p_memsz p -> mem sl'.2 y = Some 0) /\
    forall y, ~ p_vaddr p + p_filesz p <= y < p_vaddr p + p_memsz p -> mem sl'.2 y = mem l y).
Proof.
  intros Hok Hv H3 Hall. pose proof (valid_bounds _ _ Hv) as Hb.
  destruct (Z.ltb_spec (p_filesz p) (p_memsz p)).
  2: { apply wp_ret. cbn. split_and!; [done|done|lia|done]. }
  apply wp_bind, wp_checked; [lia|]. apply wp_map_err, wp_zoom. cbn [snd fst].
  eapply wp_mono; [apply clear_memory_spec; [done| |]|].
  - apply (valid_part _ (p_memsz p)); done || lia.
  - intros y Hy. apply Hall. lia.
  - intros [] l3 (Hok3 & Hin3 & Hout3). cbn [snd fst]. split_and!; [done|done| |]; intros y Hy; [apply Hin3|apply Hout3]; lia.
Qed.

Definition loaded_after (mu : Z -> option Z) (buf : list Z) (sl : S * L) : Prop :=
  length buf = 512%nat /\ loader_ok sl.2 /\ (exists pos, io_at sl.1 c pos) /\
  forall y b, mu y = Some b -> mem sl.2 y = Some b.

Lemma load_program_spec p buf s l mu :
  segment_ok p -> loaded_after mu buf (s, l) ->
  wpe (load_program p buf) (s, l) (loaded_after (overlay c p mu)) load_failed.
Proof.
  intros Hseg (Hbuf & Hok & [pos Hat] & Hmu). unfold load_program.
  destruct (Z.eqb_spec (program_type p) 1) as [Ht|Ht]; cbn [negb].
  2: { apply wpe_ret. split_and!; [done|done|by exists pos|]. intros y b. unfold overlay.
       destruct (Z.eqb_spec (program_type p) 1); [done|]. apply Hmu. }
  destruct (Hseg Ht) as ([_ _ H1 H2 H3 H4] & Hv & Hc). cbn [fst snd] in *.
  apply wpe_try, wpe_map_err, wpe_zoom. cbn [snd fst].
  eapply wpe_mono; [by apply alloc_static_spec| |].
  2: { intros e l' Hl. exists e. split_and!; [done|done|by exists pos]. }
  intros [] l1 (Hok1 & Hin1 & Hold1).
  apply wpe_bind, wp_map_err, wp_zoom. cbn [fst snd]. eapply wp_mono; [apply (io_seek_spec _ _ _ _ Hat); lia|].
  intros [] s1 Hat1. rewrite Z.min_l in Hat1 by lia. cbn [snd fst].
  pose proof (valid_bounds _ _ Hv) as Hb.
  apply wpe_bind. eapply wp_mono; [apply (load_bytes_spec _ _ _ _ _ _ _ Hat1 Hok1 Hbuf); try done|].
  { lia. }
  { rewrite <-(Z.add_0_r (p_vaddr p)). apply (valid_part _ (p_memsz p)); done || lia. }
  { intros y Hy. apply Hin1. lia. }
  intros buf2 [s2 l2] (Hbuf2 & Hok2 & [pos2 Hat2] & Hin2 & Hout2). cbn [fst snd] in *.
  assert (forall y, p_vaddr p <= y < p_vaddr p + p_memsz p -> is_Some (mem l2 y)) as Hall.
  { intros y Hy. destruct (decide (y < p_vaddr p + p_filesz p)).
    - rewrite Hin2 by lia. apply lookup_lt_is_Some_2. lia.
    - rewrite Hout2 by lia. by apply Hin1. }
  apply wpe_bind. eapply wp_mono; [by apply clear_rest_spec|].
  intros [] [s3 l3] (Hs3 & Hok3 & Hin3 & Hout3). cbn [fst snd] in *. subst s3.
  apply wpe_ret. split_and!; [done|done|by exists pos2|]. cbn [snd]. intros y b. unfold overlay. rewrite Ht. cbn.
  destruct (decide (p_vaddr p <= y < p_vaddr p + p_filesz p)) as [Hy|Hy].
  { rewrite (proj2 (Z.leb_le _ _)), (proj2 (Z.ltb_lt _ _)) by lia. cbn. by rewrite Hout3, Hin2 by lia. }
  rewrite (proj2 (andb_false_iff _ _)) by (rewrite Z.leb_gt, Z.ltb_ge; lia).
  destruct (decide (p_vaddr p <= y < p_vaddr p + p_memsz p)) as [Hy'|Hy'].
  { rewrite (proj2 (Z.leb_le _ _)), (proj2 (Z.ltb_lt _ _)) by lia. cbn. by rewrite Hin3 by lia. }
  rewrite (proj2 (andb_false_iff _ _)) by (rewrite Z.leb_gt, Z.ltb_ge; lia).
  rewrite Hout3, Hout2 by lia. auto.
Qed.

Lemma load_programs_spec ps buf sl mu :
  Forall segment_ok ps -> loaded_after mu buf sl ->
  wpe (for_each ps load_program buf) sl (loaded_after (image c ps mu)) load_failed.
Proof.
  revert buf sl mu. induction ps as [|p ps IH]; intros buf [s l] mu Hps Hl; cbn [for_each].
  { by apply wpe_ret. }
  apply Forall_cons in Hps as [Hp Hps]. apply wpe_try. eapply wpe_mono; [by apply load_program_spec| |done].
  intros buf' sl' Hl'. by apply IH.
Qed.

Lemma load_run e s l pos :
  io_at s c pos -> loader_ok l -> Forall segment_ok (program e) ->
  wpe (load e) (s, l)
    (fun _ sl' => loader_ok sl'.2 /\ (exists pos', io_at sl'.1 c pos') /\
       forall y b, image c (program e) (mem l) y = Some b -> mem sl'.2 y = Some b)
    load_failed.
Proof.
  intros Hat Hok Hps. unfold load. apply wpe_try. eapply wpe_mono; [apply (load_programs_spec _ _ _ (mem l) Hps)| |done].
  - split_and!; [done|done|by exists pos|done].
  - intros buf sl' (_ & H1 & H2 & H3). by apply wpe_ret.
Qed.

(** Loading an executable. When every segment to be loaded lies in the
    file and in addresses the memory covers, [load] comes to an end; it fails
    only when the memory refuses a segment, and otherwise memory holds the
    image of the file: in each segment its bytes of the file and then zeros,
    a later segment over an earlier one, and every byte that was mapped before
    and is in no segment as it was. *)
Theorem load_image e s l pos :
  io_at s c pos -> loader_ok l -> Forall segment_ok (program e) ->
  wpe (load e) (s, l)
    (fun _ sl' => loader_ok sl'.2 /\ (exists pos', io_at sl'.1 c pos') /\
       forall y b, image c (program e) (mem l) y = Some b -> mem sl'.2 y = Some b)
    load_failed.
Proof. apply load_run. Qed.

End loading.

(** ** Runs *)

Module Runs.

(** A file in memory: its position and its bytes. *)
#[local] Instance memory_io : Io (Z * list Z) unit unit := {
  io_read buf := fun st =>
    let n := Z.of_nat (length buf) `min` (Z.of_nat (length st.2) - st.1) in
    (Ok (n, slice (Z.to_nat st.1) (Z.to_nat n) st.2 ++ drop (Z.to_nat n) buf), (st.1 + n, st.2));
  io_seek q := modify (fun st => (q `min` Z.of_nat (length st.2), st.2))
}.

#[local] Instance memory_io_laws : IoSpec (Z * list Z) unit unit.
Proof.
  refine {| io_at st c p := st.2 = c /\ st.1 = p /\ 0 <= p <= Z.of_nat (length c) |}.
  - by intros s c p (_ & _ & H).
  - intros [i d] c p q (<- & <- & H) Hq. unfold wp. cbn in *. split_and!; [done|done|lia|lia].
  - intros [i d] c p buf (<- & <- & H). unfold wp. cbn in *. split_and!; try done; [lia..|]. intros Hz.
    destruct buf; [by left|]. right. cbn in Hz. lia.
Defined.

(** A memory whose new bytes are 0xCC. *)
#[local] Instance flat : Loader (Z -> option Z) unit := {
  alloc_static a n _ _ _ := modify (fun mu y => if decide (a <= y < a + n) then Some (default 0xCC (mu y)) else mu y);
  write_to_memory a bs := modify (fun mu y => if decide (a <= y < a + Z.of_nat (length bs)) then bs !! Z.to_nat (y - a) else mu y);
  clear_memory a n := modify (fun mu y => if decide (a <= y < a + n) then Some 0 else mu y)
}.

#[local] Instance flat_laws : LoaderSpec (Z -> option Z) unit.
Proof.
  refine {| loader_ok _ := True; mem mu y := mu y; valid a n := 0 <= a /\ 0 <= n /\ a + n < 2 ^ 64 |}.
  - lia.
  - lia.
  - intros mu a n r w x _ _. apply wpe_wp, wp_modify. split_and!; [done| |].
    + intros y Hy. by rewrite decide_True.
    + intros y b Hy. rewrite Hy. by case_decide.
  - intros mu a bs _ _ _. apply wp_modify. split_and!; [done| |].
    + intros k b Hk. rewrite decide_True; [|apply lookup_lt_Some in Hk; lia]. rewrite <-Hk. f_equal. lia.
    + intros y Hy. by rewrite decide_False.
  - intros mu a n _ _ _. apply wp_modify. split_and!; [done| |]; intros y Hy; [by rewrite decide_True|by rewrite decide_False].
Defined.

(** One segment of 0x1800 bytes, of which the file has 16. *)
Definition code : ElfProgram := mkElfProgram 1 5 120 0x8000001010 16 0x1800.

Definition elf : list Z :=
  encode_header 0x8000001010 64 1 (replicate 8 0) (replicate 14 0) (replicate 6 0) ++
  encode_program 0x1000 (replicate 8 0) code ++ replicate 16 0x90.

Lemma elf_file : elf_bytes elf 0x8000001010 64 [code].
Proof.
  split; try done.
  - eexists (replicate 8 0), (replicate 14 0), (replicate 6 0). split_and!; reflexivity.
  - intros [|i] p; [|done]. intros [= <-]. split; [split; done|]. exists 0x1000, (replicate 8 0). split_and!; done.
Qed.

Lemma from_io_roundtrip_witness : wp from_io (7, elf) (fun e _ => e = elf_of 0x8000001010 [code]).
Proof.
  eapply wp_mono; [apply (from_io_roundtrip (7, elf) elf 7 0x8000001010 64 [code])|].
  - cbn. split_and!; [reflexivity|reflexivity|lia|lia].
  - exact elf_file.
  - intros e s' [He _]. exact He.
Defined.

Lemma load_image_witness :
  wp (load (elf_of 0x8000001010 [code])) ((0, elf), fun _ => None) (fun _ sl =>
    sl.2 0x8000001011 = Some 0x90 /\ sl.2 0x8000001020 = Some 0).
Proof.
  pose proof (load_image elf (elf_of 0x8000001010 [code]) (0, elf) (fun _ => None) 0) as H. unfold wpe in H. unfold wp.
  assert (H' := H ltac:(cbn; split_and!; [reflexivity|reflexivity|lia|lia]) ltac:(exact Logic.I)
    ltac:(constructor; [|constructor]; intros _; split; [split; done|]; split; [cbn; lia|done])).
  destruct (load _ _) as [[[]|e| |] [i mu]] eqn:Hl; try done.
  - destruct H' as (_ & _ & Him). split; apply Him; reflexivity.
Defined.

End Runs.
