(* ===== verification/Process.v ===== *)
(** * Resources of processes (kernel/src/multitask/process.rs, kernel/src/user/handle.rs)

    The memory of the current process through its page table, the table of its
    handles and its wait queues ("futex"). The threads and the processes
    themselves are those of Thread.v, the page tables those of Page.v. *)
From S2P Require Import Prelude Path Device Fat32Types Physics Page UserSpace Thread.

(** ** The interface of file systems *)

(** What the kernel uses of the traits [FileSystem] and [FileHandle]: the
    operations of a handle work on the handle and the file system. *)
Class FileSystem (FS F : Type) := {
  fs_create_file : PathBuf -> M FS FileSystemError unit;
  fs_open_file : PathBuf -> M FS FileSystemError F;
  fh_read : list Z -> M (F * FS) FileSystemError (Z * list Z);
  fh_write : list Z -> M (F * FS) FileSystemError unit;
  fh_get_pointer : M (F * FS) FileSystemError Z;
  fh_move_pointer : Z -> M (F * FS) FileSystemError unit;
  fh_close : M (F * FS) FileSystemError unit
}.

(** ** State *)

(** [HandleObject]: a file is named by the object that holds it. *)
Inductive HandleObject : Type :=
  | HProcess (process : Z)
  | HThread (thread : Z)
  | HFile (file : Z).

#[global] Instance handle_eq_dec : EqDecision HandleObject.
Proof. solve_decision. Defined.

(** What [Process] owns beside its threads and its page table: the senders in
    the queues are named by the threads that wait. *)
Record Resources : Type := mkResources {
  handles : list (option HandleObject);
  futex : gmap Z (list Z)
}.

(** The kernel as the handlers of system calls see it. The [keys] wait to be
    read from the keyboard, [screen] is what has been printed. *)
Record Sys (FS F : Type) : Type := mkSys {
  machine : Machine;
  kernel : Kernel;
  resources : gmap Z Resources;
  files : gmap Z F;
  file_system : FS;
  keys : list Z;
  screen : list Z
}.
Arguments mkSys {FS F} _ _ _ _ _ _ _.
Arguments machine {FS F} _.
Arguments kernel {FS F} _.
Arguments resources {FS F} _.
Arguments files {FS F} _.
Arguments file_system {FS F} _.
Arguments keys {FS F} _.
Arguments screen {FS F} _.

(** [ProcessMemoryError] *)
Inductive ProcessMemoryError : Type := ProcessNotFound | ProcessPageFault.

(** [ProcessPageType] *)
Inductive ProcessPageType : Type :=
  | Code
  | Stack
  | Data
  | StaticCode (vaddr : Z)
  | StaticData (vaddr : Z)
  | StaticConst (vaddr : Z).

(** ** The table of handles *)

(** The first free slot, or a new one. *)
Fixpoint insert_slot (h : HandleObject) (l : list (option HandleObject)) (i : Z)
    : Z * list (option HandleObject) :=
  match l with
  | [] => (i, [Some h])
  | None :: l => (i, Some h :: l)
  | Some x :: l => let '(k, l) := insert_slot h l (i + 1) in (k, Some x :: l)
  end.

Definition insert_process_handle (h : HandleObject) (r : Resources) : Z * Resources :=
  let '(k, l) := insert_slot h (handles r) 0 in (k, mkResources l (futex r)).

Definition get_process_handle (index : Z) (r : Resources) : option HandleObject :=
  mjoin (handles r !! Z.to_nat index).

(** An index past the end does nothing. *)
Definition remove_process_handle (index : Z) (r : Resources) : Resources :=
  mkResources (<[Z.to_nat index := None]> (handles r)) (futex r).

(** ** Wait queues *)

(** [process.futex.entry(addr).or_default().push_back(sender)] *)
Definition futex_push (addr t : Z) (r : Resources) : Resources :=
  mkResources (handles r) (<[addr := default [] (futex r !! addr) ++ [t]]> (futex r)).

(** The senders dropped, oldest first, and what is left. *)
Definition wake_futex (addr count : Z) (r : Resources) : list Z * Resources :=
  match futex r !! addr with
  | None => ([], r)
  | Some queue =>
      let n := Z.to_nat count in
      let rest := drop n queue in
      (take n queue,
       mkResources (handles r) (if decide (rest = []) then delete addr (futex r) else <[addr := rest]> (futex r)))
  end.

Section process.
  Context {FS F : Type}.
  Implicit Types (s : Sys FS F).

Definition set_machine (m : Machine) s : Sys FS F :=
  mkSys m (kernel s) (resources s) (files s) (file_system s) (keys s) (screen s).
Definition set_kernel (k : Kernel) s : Sys FS F :=
  mkSys (machine s) k (resources s) (files s) (file_system s) (keys s) (screen s).
Definition set_resources (r : gmap Z Resources) s : Sys FS F :=
  mkSys (machine s) (kernel s) r (files s) (file_system s) (keys s) (screen s).
Definition set_files (f : gmap Z F) (x : FS) s : Sys FS F :=
  mkSys (machine s) (kernel s) (resources s) f x (keys s) (screen s).
Definition set_keys (l : list Z) s : Sys FS F :=
  mkSys (machine s) (kernel s) (resources s) (files s) (file_system s) l (screen s).
Definition set_screen (l : list Z) s : Sys FS F :=
  mkSys (machine s) (kernel s) (resources s) (files s) (file_system s) (keys s) l.

(** [current_process], with the number of the process. *)
Definition current_process s : option (Z * Process) :=
  th ← objects (kernel s) !! current (kernel s);
  p ← process_id th;
  pr ← PROCESSES (kernel s) !! p;
  Some (p, pr).

(** [current_process().unwrap()] *)
Definition unwrap_current {E} : M (Sys FS F) E (Z * Process) := fun s =>
  match current_process s with
  | Some p => (Ok p, s)
  | None => (Panic, s)
  end.

Definition resources_of (p : Z) s : Resources := default (mkResources [] ∅) (resources s !! p).
Definition update_resources (p : Z) (r : Resources) s : Sys FS F := set_resources (<[p := r]> (resources s)) s.

Section access.
  Context {E : Type}.

Definition on_machine {A} (m : M Machine E A) : M (Sys FS F) E A := zoom machine set_machine m.

End access.

Definition process_fault (e : AccessMemoryError) : ProcessMemoryError := match e with PageFault => ProcessPageFault end.

Definition write_user_process_memory (pr : Process) (addr : Z) (src : list Z)
    : M (Sys FS F) ProcessMemoryError unit :=
  map_err process_fault (on_machine (write_page_table_memory (page_table pr) addr src)).

(** A structure is written as its bytes. *)
Definition write_user_process_memory_struct (pr : Process) (addr : Z) (src : list Z)
    : M (Sys FS F) ProcessMemoryError unit := write_user_process_memory pr addr src.

Definition write_user_process_memory_bytes (pr : Process) (addr byte len : Z)
    : M (Sys FS F) ProcessMemoryError unit :=
  map_err process_fault (on_machine (write_page_table_memory_bytes (page_table pr) addr byte len)).

Definition read_user_process_memory (pr : Process) (addr len : Z)
    : M (Sys FS F) ProcessMemoryError (list Z) :=
  map_err process_fault (on_machine (read_page_table_memory (page_table pr) addr len)).

Definition read_user_process_memory_struct (pr : Process) (addr size : Z)
    : M (Sys FS F) ProcessMemoryError (list Z) := read_user_process_memory pr addr size.

Definition page_options (t : ProcessPageType) : AllocateFrameOptions :=
  match t with
  | Code => USER_CODE
  | Stack => USER_DATA
  | Data => USER_DATA
  | StaticCode vaddr => with_static_vaddr USER_CODE vaddr
  | StaticData vaddr => with_static_vaddr USER_DATA vaddr
  | StaticConst vaddr => with_static_vaddr USER_DATA vaddr
  end.

(** [fuel]: the pages that the search for free addresses may look at. *)
Definition create_process_page {E} (fuel : nat) (pr : Process) (size : Z) (t : ProcessPageType)
    : M (Sys FS F) E (option Z) := fun s =>
  match on_machine (alloc_mapped_frame fuel (page_table pr) size (page_options t)) s with
  | (Ok a, s) => (Ok (nonzero a), s)
  | (Err _, s) => (Ok None, s)
  | (Panic, s) => (Panic, s)
  | (Diverge, s) => (Diverge, s)
  end.

Definition free_process_page {E} (pr : Process) (addr size : Z) : M (Sys FS F) E unit :=
  on_machine (free_mapped_frame (page_table pr) addr size).

(** The stack for traps of a new thread, with the words its entry point takes
    from it. *)
Definition prepare_stack (fuel : nat) (rip rsp params : Z) : M Machine AllocMappedFrameError Z :=
  k ← kernel_pml4;
  rsp0 ← alloc_mapped_frame fuel k RSP0_SIZE KERNEL_DATA;
  store_u64 (rsp0 + RSP0_SIZE - 8) rip;;
  store_u64 (rsp0 + RSP0_SIZE - 8 - 8) rsp;;
  store_u64 (rsp0 + RSP0_SIZE - 8 - 16) params;;
  mret rsp0.

(** The word is compared and the sender queued under the lock of the process. *)
Definition register_futex_if_match (p : Z) (pr : Process) (addr expected t : Z)
    : M (Sys FS F) ProcessMemoryError bool :=
  bs ← read_user_process_memory_struct pr addr 8;
  if from_le bs =? expected then
    modify (fun s => update_resources p (futex_push addr t (resources_of p s)) s);;
    mret true
  else mret false.

End process.
