(* ===== verification/ElfLoader.v ===== *)
(** * Loading programs (kernel/src/multitask/elf_loader.rs, create_user_process)

    [ElfLoader] puts the segments of an executable into the address space of a
    process. It keeps the laws of the interface in Elf.v, so that what is
    proved there of [load] holds of the page tables of the process. *)
From S2P Require Import Prelude Path Device Fat32Types Physics PhysicsSpec Page PageForest PageSpec PageUnmap PageAlloc PageAccess KernelHeap UserTable UserSpace Thread Elf Process.

(** ** Model *)

Inductive ElfLoaderError : Type :=
  | PageReserved
  | PageProtection
  | ProcessMemory (e : ProcessMemoryError)
  | AllocFail.

Section loader.
  Context {FS F : Type} `{!FileSystem FS F}.

(** [impl AsyncRead for &mut dyn FileHandle], [impl Seekable for &mut dyn FileHandle] *)
Definition file_io : Io (F * FS) FileSystemError FileSystemError := {|
  io_read := fh_read;
  io_seek := fh_move_pointer
|}.

(** [ElfLoader]: the pages it has allocated, with the kernel it works on. The
    [process] is an argument of the operations. *)
Definition ElfLoader : Type := list (Z * Z) * Sys FS F.

Definition LoaderM : Type -> Type := M ElfLoader ElfLoaderError.

Definition on_sys {E A} (m : M (Sys FS F) E A) : M ElfLoader E A := zoom snd (fun s l => (fst l, s)) m.

(** The first and the last entry of the top table are the kernel's. *)
Definition reserved (addr len : Z) : bool :=
  (addr <? 0x0000008000000000) || (0xFFFFFF8000000000 <=? (addr + len) `min` U64_MAX).

Definition page_type (writable executable : bool) (vaddr : Z) : ProcessPageType :=
  if writable then StaticData vaddr else if executable then StaticCode vaddr else StaticConst vaddr.

Definition elf_alloc_static (fuel : nat) (process : Process) (addr size : Z) (readable writable executable : bool)
    : LoaderM unit :=
  if negb readable then throw PageProtection
  else if writable && executable then throw PageProtection
  else if reserved addr size then throw PageReserved
  else
    let new_addr := Z.land addr 0xFFFFFFFFFFFFF000 in
    size ← checked 64 (size + addr);
    size ← checked 64 (size - new_addr);
    allocated_page ← gets fst;
    let shared := existsb (fun p => (p.1 <=? new_addr) && (new_addr <? p.1 + p.2)) allocated_page in
    let '(new_addr, size) := if shared : bool then (new_addr + 0x1000, 0 `max` (size - 0x1000)) else (new_addr, size) in
    if size =? 0 then mret tt
    else
      match nonzero new_addr with
      | None => panic
      | Some vaddr =>
          size ← checked 64 (size + 0xfff);
          let size := Z.land size 0xFFFFFFFFFFFFF000 in
          page ← on_sys (create_process_page fuel process size (page_type writable executable vaddr));
          match page with
          | None => throw AllocFail
          | Some _ => modify (fun l => (fst l ++ [(new_addr, size)], snd l))
          end
      end.

Definition elf_clear_memory (process : Process) (addr len : Z) : LoaderM unit :=
  if reserved addr len then throw PageReserved
  else map_err ProcessMemory (on_sys (write_user_process_memory_bytes process addr 0 len)).

Definition elf_write_to_memory (process : Process) (addr : Z) (data : list Z) : LoaderM unit :=
  if reserved addr (Z.of_nat (length data)) then throw PageReserved
  else map_err ProcessMemory (on_sys (write_user_process_memory process addr data)).

Definition elf_loader (fuel : nat) (process : Process) : Loader ElfLoader ElfLoaderError := {|
  alloc_static := elf_alloc_static fuel process;
  write_to_memory := elf_write_to_memory process;
  clear_memory := elf_clear_memory process
|}.

End loader.

(** ** The laws *)

Section laws.
  Context {FS F : Type} `{!FileSystem FS F}.
  Context (X : Z -> Z -> bool) (lo : Z) (O : others) (Kr : Z) (m0 : Z -> Z) (T0 : gmap Z nat).
  Context (fuel : nat) (process : Process) (s0 : Sys FS F).
  Notation R := (page_table process).
  Context (HR0 : T0 !! R = Some 4%nat) (HK0 : T0 !! Kr = Some 4%nat)
    (Hclear : forall y, user_address y -> clear_path X m0 R (indices y)).
  (** A page that no segment touches. *)
  Context (v0 : Z) (Hv0 : v0 `mod` 0x1000 = 0) (Hv0u : user_address v0).
  Notation user_space := (user_space X lo O Kr R m0 T0).
  Notation byte_at := (byte_at X R).

#[local] Instance loader : Loader (@ElfLoader FS F) ElfLoaderError := elf_loader fuel process.

(** Runs of pages that are mapped. *)
Definition pages_mapped (m : Z -> Z) (ps : list (Z * Z)) : Prop :=
  forall a n, (a, n) ∈ ps -> a `mod` 0x1000 = 0 /\ n `mod` 0x1000 = 0 /\ forall y, a <= y < a + n -> is_Some (byte_at m y).

Lemma pages_mapped_mono m m' ps :
  (forall y, is_Some (byte_at m y) -> is_Some (byte_at m' y)) -> pages_mapped m ps -> pages_mapped m' ps.
Proof. intros Hm Hp a n Hin. destruct (Hp a n Hin) as (H1 & H2 & H3). split_and!; [done|done|]. auto. Qed.

(** Nothing but the machine has changed, the address space is in order, the
    pages the loader remembers are mapped and the page [v0] is free. *)
Definition elf_loader_ok (l : @ElfLoader FS F) : Prop :=
  l.2 = set_machine (machine l.2) s0 /\ exists m T, user_space (machine l.2) m T /\
  pages_mapped m l.1 /\ phys X m R v0 = None.

Definition elf_mem (l : @ElfLoader FS F) (y : Z) : option Z := byte_at (ram (machine l.2)) y.

(** The range and the rest of its first page. *)
Definition elf_valid (a n : Z) : Prop :=
  0 <= n /\ 0x8000000000 <= a /\ a + n <= 0xFF8000000000 /\
  forall y, a - a `mod` 0x1000 <= y < a + n -> y / 0x1000 <> v0 / 0x1000.

Lemma elf_mem_model l m T y : user_space (machine l.2) m T -> elf_mem l y = byte_at m y.
Proof. intros [((_ & Hm & _) & _) _ _ _ _ _]. by apply byte_at_meq. Qed.

Lemma elf_not_reserved a n : elf_valid a n -> reserved a n = false.
Proof.
  intros (H1 & H2 & H3 & _). unfold reserved, U64_MAX. apply orb_false_iff. rewrite Z.ltb_ge, Z.leb_gt. lia.
Qed.

Lemma elf_next ps (l : @ElfLoader FS F) x m' T' :
  l.2 = set_machine (machine l.2) s0 -> user_space x m' T' -> pages_mapped m' ps -> phys X m' R v0 = None ->
  elf_loader_ok (ps, set_machine x l.2) /\ forall y, elf_mem (ps, set_machine x l.2) y = byte_at m' y.
Proof.
  intros Hs U Hp Hv. split; [|intros y; by apply (elf_mem_model _ m' T')]. split; [cbn; by rewrite Hs|]. by exists m', T'.
Qed.

Lemma elf_write_spec l a bs :
  elf_loader_ok l -> elf_valid a (Z.of_nat (length bs)) ->
  (forall y, a <= y < a + Z.of_nat (length bs) -> is_Some (elf_mem l y)) ->
  wp (write_to_memory a bs) l (fun _ l' => elf_loader_ok l' /\
    (forall k b, bs !! k = Some b -> elf_mem l' (a + Z.of_nat k) = Some b) /\
    forall y, ~ a <= y < a + Z.of_nat (length bs) -> elf_mem l' y = elf_mem l y).
Proof.
  intros (Hs & m & T & U & Hp & Hf) Hv Hmap. cbn [write_to_memory loader elf_loader]. unfold elf_write_to_memory.
  rewrite elf_not_reserved by done. unfold write_user_process_memory, on_machine, on_sys.
  apply wp_map_err, wp_zoom, wp_map_err, wp_zoom. destruct Hv as (H1 & H2 & H3 & _).
  eapply wp_mono; [apply (write_user_bytes X lo O Kr R m0 T0 HR0 HK0 Hclear a bs _ m T U); [lia|lia|]|].
  { intros y Hy. rewrite <-(elf_mem_model l m T y U). auto. }
  intros [] x (m' & U' & Hin & Hout & Hph).
  destruct (elf_next l.1 l x m' T Hs U') as [Hok Hmem].
  { eapply pages_mapped_mono; [|done]. intros y Hy. destruct (decide (a <= y < a + Z.of_nat (length bs))) as [Hy'|Hy'].
    - destruct (lookup_lt_is_Some_2 bs (Z.to_nat (y - a))) as [c Hc]; [lia|].
      exists c. rewrite <-(Hin _ c Hc). f_equal. lia.
    - by rewrite Hout. }
  { by rewrite Hph. }
  split_and!; [done| |]; intros; rewrite Hmem; [auto|]. rewrite Hout by done. symmetry. by eapply elf_mem_model.
Qed.

Lemma elf_clear_spec l a n :
  elf_loader_ok l -> elf_valid a n -> (forall y, a <= y < a + n -> is_Some (elf_mem l y)) ->
  wp (clear_memory a n) l (fun _ l' => elf_loader_ok l' /\
    (forall y, a <= y < a + n -> elf_mem l' y = Some 0) /\ forall y, ~ a <= y < a + n -> elf_mem l' y = elf_mem l y).
Proof.
  intros (Hs & m & T & U & Hp & Hf) Hv Hmap. cbn [clear_memory loader elf_loader]. unfold elf_clear_memory.
  rewrite elf_not_reserved by done. unfold write_user_process_memory_bytes, on_machine, on_sys.
  apply wp_map_err, wp_zoom, wp_map_err, wp_zoom. destruct Hv as (H1 & H2 & H3 & _).
  eapply wp_mono; [apply (fill_user_bytes X lo O Kr R m0 T0 HR0 HK0 Hclear a n _ m T U); [lia|lia|lia|]|].
  { intros y Hy. rewrite <-(elf_mem_model l m T y U). auto. }
  intros [] x (m' & U' & Hin & Hout & Hph).
  destruct (elf_next l.1 l x m' T Hs U') as [Hok Hmem].
  { eapply pages_mapped_mono; [|done]. intros y Hy. destruct (decide (a <= y < a + n)); [by rewrite Hin|by rewrite Hout]. }
  { by rewrite Hph. }
  split_and!; [done| |]; intros; rewrite Hmem; [auto|]. rewrite Hout by done. symmetry. by eapply elf_mem_model.
Qed.

(** Pages at a fixed address of user space. *)
Lemma create_static_page (l : @ElfLoader FS F) m T v size w x :
  user_space (machine l.2) m T -> phys X m R v0 = None ->
  v `mod` 0x1000 = 0 -> size `mod` 0x1000 = 0 -> 0 <= size -> 0x8000000000 <= v -> v + size <= 0xFF8000000000 ->
  ~ v <= v0 < v + size ->
  wp (E := ElfLoaderError) (on_sys (create_process_page fuel process size (page_type w x v))) l (fun r l' =>
    exists y m' T', l' = (l.1, set_machine y l.2) /\ user_space y m' T' /\ bytes_kept X R m m' /\ phys X m' R v0 = None /\
    (r <> None -> forall a, v <= a < v + size -> is_Some (byte_at m' a))).
Proof.
  intros U Hf H1 H2 H3 H4 H5 H6. unfold on_sys, create_process_page. apply wp_zoom. unfold wp, on_machine, zoom.
  pose proof (alloc_user_static X lo O Kr R m0 T0 HR0 HK0 Hclear fuel v size (page_options (page_type w x v)) (machine l.2) m T U) as Ha.
  unfold wpe in Ha. specialize (Ha ltac:(by destruct w, x) H1 H2 H3 H4 H5).
  destruct (alloc_mapped_frame _ _ _ _ _) as [[a|e| |] y]; try done.
  - destruct Ha as (-> & m' & T' & U' & Hk & Hnew & Hold). exists y, m', T'. split_and!; try done.
    by rewrite Hold.
  - destruct Ha as (m' & T' & U' & Hk & Hold). exists y, m', T'. by rewrite Hold.
Qed.

Lemma elf_alloc_spec l a n r w x :
  elf_loader_ok l -> elf_valid a n ->
  wpe (alloc_static a n r w x) l
    (fun _ l' => elf_loader_ok l' /\ (forall y, a <= y < a + n -> is_Some (elf_mem l' y)) /\
       forall y b, elf_mem l y = Some b -> elf_mem l' y = Some b)
    (fun _ => elf_loader_ok).
Proof.
  intros Hok Hv. pose proof Hok as (Hs & m & T & U & Hp & Hf). cbn [alloc_static loader elf_loader]. unfold elf_alloc_static.
  destruct r; [|by apply wpe_throw]. destruct (w && x); [by apply wpe_throw|]. cbn [negb].
  rewrite elf_not_reserved by done. destruct Hv as (H1 & H2 & H3 & H4). rewrite align_down by lia.
  set (v := a - a `mod` 0x1000) in *. apply wpe_bind, wp_checked; [lia|]. apply wpe_bind, wp_checked; [lia|].
  apply wpe_bind, wp_gets. set (shared := existsb _ _).
  assert (Hshared : shared = true -> forall y, v <= y < v + 0x1000 -> is_Some (byte_at m y)).
  { intros ([b k] & Hin & Hb)%existsb_exists y Hy. cbn in Hb. apply andb_true_iff in Hb as [Hb1 Hb2].
    apply Z.leb_le in Hb1. apply Z.ltb_lt in Hb2. apply list_elem_of_In in Hin.
    destruct (Hp b k Hin) as (Hb & Hk & Hm). apply Hm. lia. }
  remember (if shared then _ else _) as r eqn:Hr. destruct r as [v' size].
  assert (Hvs : v' `mod` 0x1000 = 0 /\ v <= v' /\ 0 <= size /\ (0 < size -> v' + size = a + n) /\ (size = 0 -> a + n <= v') /\
    (forall y, v <= y < v' -> is_Some (byte_at m y))).
  { destruct shared; injection Hr as -> ->; split_and!; try lia. intros y Hy. apply Hshared; [done|lia]. }
  clear Hr Hshared. clearbody shared. destruct Hvs as (G1 & G2 & G3 & G4 & G5 & G6).
  destruct (Z.eqb_spec size 0) as [->|Hne].
  { apply wpe_ret. split_and!; [done| |done]. intros y Hy. rewrite (elf_mem_model l m T) by done. apply G6. lia. }
  unfold nonzero. rewrite (proj2 (Z.eqb_neq _ _)) by lia. apply wpe_bind, wp_checked; [lia|]. rewrite align_down by lia.
  set (size' := size + 0xfff - _). assert (size <= size' < size + 0x1000 /\ size' `mod` 0x1000 = 0 /\ v' + size' <= 0xFF8000000000) as (S1 & S2 & S3) by lia.
  assert (Hapart : ~ v' <= v0 < v' + size').
  { intros Hin. apply (H4 (v0 `max` v `min` (a + n - 1))); lia. }
  apply wpe_bind. eapply wp_mono; [apply (create_static_page l m T v' size'); done || lia|].
  intros [q|] l' (y & m' & T' & -> & U' & Hk & Hf' & Hnew).
  - apply wpe_wp, wp_modify. cbn [fst snd].
    destruct (elf_next (l.1 ++ [(v', size')]) l y m' T' Hs U') as [Hok' Hmem]; [|done|].
    { intros b k [Hb|Hb]%elem_of_app.
      - apply (pages_mapped_mono m m' l.1); [|done|done]. intros z [c Hc]. exists c. by apply Hk.
      - apply list_elem_of_singleton in Hb. injection Hb as -> ->. split_and!; [done|done|]. by apply Hnew. }
    split_and!; [done| |].
    + intros z Hz. rewrite Hmem. destruct (decide (z < v')) as [Hlt|Hge]; [|apply Hnew; done || lia].
      destruct (G6 z) as [c Hc]; [lia|]. exists c. by apply Hk.
    + intros z b. rewrite Hmem, (elf_mem_model l m T) by done. apply Hk.
  - apply wpe_throw. apply (elf_next l.1 l y m' T' Hs U'); [|done]. eapply pages_mapped_mono; [|done].
    intros z [c Hc]. exists c. by apply Hk.
Qed.

Definition elf_loader_laws : LoaderSpec (@ElfLoader FS F) ElfLoaderError.
Proof.
  refine {| loader_ok := elf_loader_ok; mem := elf_mem; valid := elf_valid;
    alloc_static_spec := elf_alloc_spec; write_to_memory_spec := elf_write_spec; clear_memory_spec := elf_clear_spec |}.
  - unfold elf_valid. lia.
  - intros a n k j (H1 & H2 & H3 & H4) Hk Hj Hkj. unfold elf_valid. split_and!; [lia|lia|lia|].
    intros y Hy. apply H4. lia.
Defined.

End laws.
