(* ===== verification/Syscall.v ===== *)
(** * Handlers of system calls (kernel/src/syscall/)

    One definition per handler: what it checks, what it does to the memory and
    the resources of the calling process, to the threads and to the file
    system, and the code it returns in rax. A handler that waits for something
    that has not happened ends with [Blocked], with the state it waits in. A
    file operation is spawned as a task; it has run by the time the handler
    looks at the result. *)
From S2P Require Import Prelude Path Device Fat32Types Physics Page Thread Process.

(** [ErrorKind] *)
Definition Success : Z := 0.
Definition OutOfMemory : Z := 2.
Definition BadPointer : Z := 3.
Definition BadArgument : Z := 4.
Definition Unknown : Z := U64_MAX.
Definition EXIT_KILL : Z := 1.

Inductive Blocked : Type := StillBlocked.

Section syscall.
  Context {FS F : Type} `{FileSystem FS F} {build : Build}.
  (** The most bytes the kernel's heap gives to one vector, and the pages a
      search for free addresses looks at. *)
  Context (room : Z) (fuel : nat).
  Notation SysM := (M (Sys FS F) Blocked).
  Implicit Types (s : Sys FS F).

(** [if call.is_err() { return code }] *)
Definition or_return {E A} (code : Z) (m : M (Sys FS F) E A) (k : A -> SysM Z) : SysM Z := fun s =>
  match m s with
  | (Ok a, s) => k a s
  | (Err _, s) => (Ok code, s)
  | (Panic, s) => (Panic, s)
  | (Diverge, s) => (Diverge, s)
  end.

Definition is_user (ptr : Z) : bool := is_user_space_virtual_memory ptr.

(** [!is_user_space(ptr) || !is_user_space(ptr + len)]: the second is computed
    only when the first holds. *)
Definition check_range (ptr len : Z) : SysM bool :=
  if is_user ptr then e ← arith 64 (ptr + len); mret (is_user e) else mret false.

(** [alloc::vec![0u8; len]] *)
Definition alloc_vec (len : Z) : SysM (list Z) :=
  if len <=? room then mret (replicate (Z.to_nat len) 0) else panic.

(** The thread is being stopped: [block_on] looks at this before it polls. *)
Definition terminating s : bool := thread_boundry_check (kernel s).

(** [block_on] of something that is there or not. *)
Definition block_on {A} (ready : Sys FS F -> option A) (k : A -> SysM Z) : SysM Z := fun s =>
  if terminating s then (Ok Unknown, s)
  else
    match ready s with
    | Some a => k a s
    | None => (Err StillBlocked, s)
    end.

(** [write_user_process_memory_struct] of a word, then success. *)
Definition give_word (pr : Process) (ptr x : Z) : SysM Z :=
  or_return BadPointer (write_user_process_memory_struct pr ptr (to_le 8 x)) (fun _ => mret Success).

Definition run_kernel (f : Kernel -> Result) : SysM unit := fun s =>
  match f (kernel s) with
  | Step k => (Ok tt, set_kernel k s)
  | Disabled => (Ok tt, s)
  | Panicked => (Panic, s)
  end.

(** *** Memory *)

Definition alloc_page (count addr_ptr : Z) : SysM Z :=
  if negb (is_user addr_ptr) then mret BadPointer
  else if count =? 0 then mret Success
  else
    '(_, pr) ← unwrap_current;
    size ← arith 64 (count * 0x1000);
    addr ← create_process_page fuel pr size Data;
    match addr with
    | None => mret OutOfMemory
    | Some addr => give_word pr addr_ptr addr
    end.

Definition free_page (addr count : Z) : SysM Z :=
  ok ←
    (if is_user addr then
       size ← arith 64 (count * 0x1000);
       e ← arith 64 (addr + size);
       mret (is_user e)
     else mret false);
  if negb ok then mret BadPointer
  else if count =? 0 then mret Success
  else
    '(_, pr) ← unwrap_current;
    size ← arith 64 (count * 0x1000);
    free_process_page pr addr size;;
    mret Success.

(** *** Debug *)

Definition get_char (char_ptr : Z) : SysM Z :=
  if negb (is_user char_ptr) then mret BadPointer
  else
    '(_, pr) ← unwrap_current;
    block_on (fun s => head (keys s)) (fun char =>
      modify (fun s => set_keys (tail (keys s)) s);;
      or_return BadPointer (write_user_process_memory_struct pr char_ptr [char]) (fun _ => mret Success)).

Definition put_char (char_ptr : Z) : SysM Z :=
  if negb (is_user char_ptr) then mret BadPointer
  else
    '(_, pr) ← unwrap_current;
    or_return BadPointer (read_user_process_memory_struct pr char_ptr 1) (fun bs =>
      modify (fun s => set_screen (screen s ++ bs) s);;
      mret Success).

(** *** Files *)

(** The task of an operation on a file handle. The object lives as long as a
    reference to it; its mutex makes the operations on it one after another. *)
Definition file_task {A} (h : HandleObject) (op : M (F * FS) FileSystemError A) : SysM (A + Z) := fun s =>
  match h with
  | HFile i =>
      match files s !! i with
      | Some f =>
          match op (f, file_system s) with
          | (Ok a, (f, x)) => (Ok (inl a), set_files (<[i := f]> (files s)) x s)
          | (Err _, (f, x)) => (Ok (inr Unknown), set_files (<[i := f]> (files s)) x s)
          | (Panic, (f, x)) => (Panic, set_files (<[i := f]> (files s)) x s)
          | (Diverge, (f, x)) => (Diverge, set_files (<[i := f]> (files s)) x s)
          end
      | None => (Ok (inr Unknown), s)
      end
  | _ => (Ok (inr BadArgument), s)
  end.

(** The task of an operation on the file system, given the bytes of a path. *)
Definition path_task {A} (path : list Z) (op : PathBuf -> M FS FileSystemError A) : SysM (A + Z) := fun s =>
  match PathImpl.from_bytes path with
  | Ok path =>
      match op path (file_system s) with
      | (Ok a, x) => (Ok (inl a), set_files (files s) x s)
      | (Err _, x) => (Ok (inr Unknown), set_files (files s) x s)
      | (Panic, x) => (Panic, set_files (files s) x s)
      | (Diverge, x) => (Diverge, set_files (files s) x s)
      end
  | _ => (Ok (inr BadArgument), s)
  end.

(** [block_on(receiver.recv())]: the task runs in any case, its result is
    taken unless the thread is being stopped. *)
Definition await_task {A} (task : SysM (A + Z)) (k : A -> SysM Z) : SysM Z :=
  r ← task;
  stop ← gets terminating;
  if (stop : bool) then mret Unknown
  else
    match r with
    | inl a => k a
    | inr e => mret e
    end.
Definition create (path_ptr path_len : Z) : SysM Z :=
  ok ← check_range path_ptr path_len;
  if negb ok then mret BadPointer
  else
    '(_, pr) ← unwrap_current;
    alloc_vec path_len;;
    or_return BadPointer (read_user_process_memory pr path_ptr path_len) (fun path =>
      await_task (path_task path fs_create_file) (fun _ => mret Success)).

(** A new object for an open file. *)
Definition new_file (f : F) : SysM Z := fun s =>
  let i := fresh (dom (files s)) in
  (Ok i, set_files (<[i := f]> (files s)) (file_system s) s).

Definition insert_handle (p : Z) (h : HandleObject) : SysM Z := fun s =>
  let '(i, r) := insert_process_handle h (resources_of p s) in
  (Ok i, update_resources p r s).

(** The pointer for the handle is not checked. *)
Definition open (path_ptr path_len handle_ptr : Z) : SysM Z :=
  ok ← check_range path_ptr path_len;
  if negb ok then mret BadPointer
  else
    '(p, pr) ← unwrap_current;
    alloc_vec path_len;;
    or_return BadPointer (read_user_process_memory pr path_ptr path_len) (fun path =>
      await_task (path_task path fs_open_file) (fun f =>
        i ← new_file f;
        handle ← insert_handle p (HFile i);
        give_word pr handle_ptr handle)).

(** [get_process_handle(..) else return BadArgument] *)
Definition with_handle (p : Z) (handle : Z) (k : HandleObject -> SysM Z) : SysM Z :=
  h ← gets (fun s => get_process_handle handle (resources_of p s));
  match h with
  | None => mret BadArgument
  | Some h => k h
  end.

Definition read (handle buffer_ptr buffer_len read_count_ptr : Z) : SysM Z :=
  ok ← check_range buffer_ptr buffer_len;
  if negb (ok && is_user read_count_ptr) then mret BadPointer
  else
    '(p, pr) ← unwrap_current;
    with_handle p handle (fun h =>
      buffer ← alloc_vec buffer_len;
      await_task (file_task h (fh_read buffer)) (fun '(read_count, buffer) =>
        or_return BadPointer (write_user_process_memory pr buffer_ptr (take (Z.to_nat read_count) buffer)) (fun _ =>
          give_word pr read_count_ptr read_count))).

(** [FileHandle::write] returns the unit: the value written to
    [write_count_ptr] has no bytes. *)
Definition write (handle buffer_ptr buffer_len write_count_ptr : Z) : SysM Z :=
  ok ← check_range buffer_ptr buffer_len;
  if negb (ok && is_user write_count_ptr) then mret BadPointer
  else
    '(p, pr) ← unwrap_current;
    with_handle p handle (fun h =>
      alloc_vec buffer_len;;
      or_return BadPointer (read_user_process_memory pr buffer_ptr buffer_len) (fun buffer =>
        await_task (file_task h (fh_write buffer)) (fun _ =>
          or_return BadPointer (write_user_process_memory_struct pr write_count_ptr []) (fun _ => mret Success)))).

(** The drop of the handle in a slot: that of a file spawns a task that closes
    it and ignores an error. *)
Definition drop_handle (p index : Z) : SysM unit := fun s =>
  let r := resources_of p s in
  let s' := update_resources p (remove_process_handle index r) s in
  match get_process_handle index r with
  | Some (HFile i) =>
      match files s' !! i with
      | Some f =>
          match fh_close (f, file_system s') with
          | (Panic, (f, x)) => (Panic, set_files (delete i (files s')) x s')
          | (Diverge, (f, x)) => (Diverge, set_files (delete i (files s')) x s')
          | (_, (f, x)) => (Ok tt, set_files (delete i (files s')) x s')
          end
      | None => (Ok tt, s')
      end
  | _ => (Ok tt, s')
  end.

Definition close (handle : Z) : SysM Z :=
  '(p, _) ← unwrap_current;
  drop_handle p handle;;
  mret Success.

Definition get_pos (handle pos_ptr : Z) : SysM Z :=
  if negb (is_user pos_ptr) then mret BadPointer
  else
    '(p, pr) ← unwrap_current;
    with_handle p handle (fun h =>
      await_task (file_task h fh_get_pointer) (fun pos => give_word pr pos_ptr pos)).

Definition set_pos (handle pos : Z) : SysM Z :=
  '(p, _) ← unwrap_current;
  with_handle p handle (fun h =>
    await_task (file_task h (fh_move_pointer pos)) (fun _ => mret Success)).

(** *** Threads and processes *)

(** The handlers that end the calling thread do not return: the state is that
    before the thread yields for good. *)
Definition exit_process (code : Z) : SysM unit :=
  '(p, _) ← unwrap_current;
  run_kernel (fun k => Step (set_processes (alter (set_exit_code_with_lock code) p) k));;
  run_kernel (stop_all_thread p code).

Definition exit_thread (code : Z) : SysM unit :=
  t ← gets (fun s => current (kernel s));
  run_kernel (stop_thread t code).

Definition current_thread (thread_handle_ptr : Z) : SysM Z :=
  if negb (is_user thread_handle_ptr) then mret BadPointer
  else
    '(p, pr) ← unwrap_current;
    t ← gets (fun s => current (kernel s));
    handle ← insert_handle p (HThread t);
    give_word pr thread_handle_ptr handle.

Definition current_process_handle (process_handle_ptr : Z) : SysM Z :=
  if negb (is_user process_handle_ptr) then mret BadPointer
  else
    '(p, pr) ← unwrap_current;
    handle ← insert_handle p (HProcess p);
    give_word pr process_handle_ptr handle.

(** A sender that is not queued is dropped: the receiver goes on at once. *)
Definition futex_wait (p : Z) (pr : Process) (addr expected t : Z) : SysM (option Z) := fun s =>
  match register_futex_if_match p pr addr expected t s with
  | (Ok true, s) => (Ok None, s)
  | (Ok false, s) => (Ok (Some (if terminating s then Unknown else Success)), s)
  | (Err _, s) => (Ok (Some BadPointer), s)
  | (Panic, s) => (Panic, s)
  | (Diverge, s) => (Diverge, s)
  end.

(** The part of [wait_thread] before it waits: [None] when the thread waits,
    with its sender in the queue. *)
Definition wait_thread (addr expected : Z) : SysM (option Z) :=
  if negb (is_user addr) then mret (Some BadPointer)
  else
    '(p, pr) ← unwrap_current;
    t ← gets (fun s => current (kernel s));
    futex_wait p pr addr expected t.

Definition futex_wake (p addr count : Z) : SysM (list Z) := fun s =>
  let '(woken, r) := wake_futex addr count (resources_of p s) in
  (Ok woken, update_resources p r s).

(** The threads whose senders are dropped go on; the code is success. *)
Definition wake_thread (addr count : Z) : SysM (list Z) :=
  '(p, _) ← unwrap_current;
  futex_wake p addr count.

Definition kill_thread (thread_handle : Z) : SysM Z :=
  '(p, _) ← unwrap_current;
  with_handle p thread_handle (fun h =>
    match h with
    | HThread t => run_kernel (stop_thread t EXIT_KILL);; mret Success
    | _ => mret BadArgument
    end).

Definition kill_process (process_handle : Z) : SysM Z :=
  '(p, _) ← unwrap_current;
  with_handle p process_handle (fun h =>
    match h with
    | HProcess q =>
        run_kernel (fun k => Step (set_processes (alter (set_exit_code_with_lock EXIT_KILL) q) k));;
        run_kernel (stop_all_thread q EXIT_KILL);;
        mret Success
    | _ => mret BadArgument
    end).

(** [create_user_thread]: the stack for traps is mapped, the thread is created,
    and nothing is returned. *)
Definition create_user_thread (p rip rsp params : Z) : SysM (option Z) := fun s =>
  match on_machine (prepare_stack fuel rip rsp params) s with
  | (Ok a, s) =>
      match create_thread (Some p) (Some a) false (kernel s) with
      | Step k => (Ok None, set_kernel k s)
      | Disabled => (Ok None, s)
      | Panicked => (Panic, s)
      end
  | (Err _, s) => (Ok None, s)
  | (Panic, s) => (Panic, s)
  | (Diverge, s) => (Diverge, s)
  end.

Definition create_thread_handle (rip rsp params thread_handle_ptr : Z) : SysM Z :=
  if negb (is_user thread_handle_ptr) then mret BadPointer
  else
    '(p, pr) ← unwrap_current;
    thread ← create_user_thread p rip rsp params;
    match thread with
    | None => mret OutOfMemory
    | Some t =>
        handle ← insert_handle p (HThread t);
        give_word pr thread_handle_ptr handle
    end.

(** [join_thread] and [wait_process]: [exit] is the last value of a watch once
    its publisher is gone. *)
Definition wait_exit (exit : option Z) (p : Z) (pr : Process) (handle exit_code_ptr : Z) : SysM Z :=
  block_on (fun _ => exit) (fun code =>
    drop_handle p handle;;
    give_word pr exit_code_ptr code).

Definition join_thread (exit : Z -> option Z) (thread_handle exit_code_ptr : Z) : SysM Z :=
  if negb (is_user exit_code_ptr) then mret BadPointer
  else
    '(p, pr) ← unwrap_current;
    with_handle p thread_handle (fun h =>
      match h with
      | HThread t => wait_exit (exit t) p pr thread_handle exit_code_ptr
      | _ => mret BadArgument
      end).

Definition wait_process (exit : Z -> option Z) (process_handle exit_code_ptr : Z) : SysM Z :=
  if negb (is_user exit_code_ptr) then mret BadPointer
  else
    '(p, pr) ← unwrap_current;
    with_handle p process_handle (fun h =>
      match h with
      | HProcess q => wait_exit (exit q) p pr process_handle exit_code_ptr
      | _ => mret BadArgument
      end).

(** The microseconds that [sleep_thread] waits; [Duration::new] panics when the
    nanoseconds carry over the largest number of seconds. *)
Definition sleep_thread_micros (time_in_seconds time_in_ns : Z) : SysM Z :=
  let '(secs, ns) :=
    if 1000000000 <? time_in_ns
    then (Z.min U64_MAX (time_in_seconds + time_in_ns / 1000000000), time_in_ns `mod` 1000000000)
    else (time_in_seconds, time_in_ns) in
  let ns := wrap 32 ns in
  secs ← checked 64 (secs + ns / 1000000000);
  mret (wrap 64 (secs * 1000000 + ns `mod` 1000000000 / 1000)).

End syscall.
