(* ===== verification/SyscallSpec.v ===== *)
(** * What system calls do to memory and handles (theorems about Syscall.v)

    The table of handles is a finite map with the smallest free number for a
    new handle. A system call that hands a word to the program writes that word
    and nothing else, [read] delivers the bytes of the file; the check of user
    pointers lets aliases of kernel addresses through, and [write] never writes
    its count. *)
From S2P Require Import Prelude Path Device Fat32Types Physics PhysicsSpec Page PageForest PageSpec PageUnmap PageAlloc PageAccess PageDemo Thread Process Syscall.

(** ** Handles *)

Lemma insert_slot_spec h l i :
  let '(k, l') := insert_slot h l i in
  i <= k /\ mjoin (l !! Z.to_nat (k - i)) = None /\
  (forall j, i <= j < k -> mjoin (l !! Z.to_nat (j - i)) <> None) /\
  l' !! Z.to_nat (k - i) = Some (Some h) /\
  (forall j, i <= j -> j <> k -> mjoin (l' !! Z.to_nat (j - i)) = mjoin (l !! Z.to_nat (j - i))).
Proof.
  revert i. induction l as [|[x|] l IH]; intros i; cbn [insert_slot].
  - rewrite Z.sub_diag. split_and!; [lia|done|lia|done|]. intros j Hj Hne.
    destruct (Z.to_nat (j - i)) as [|n] eqn:E; [lia|done].
  - specialize (IH (i + 1)). destruct (insert_slot h l (i + 1)) as [k l']. destruct IH as (H1 & H2 & H3 & H4 & H5).
    assert (forall j, i + 1 <= j -> Z.to_nat (j - i) = S (Z.to_nat (j - (i + 1)))) as Hs by (intros; lia).
    rewrite !Hs by lia. split_and!; [lia|done| |done|].
    + intros j Hj. destruct (decide (j = i)) as [->|Hne]; [by rewrite Z.sub_diag|].
      rewrite Hs by lia. apply H3. lia.
    + intros j Hj Hne. destruct (decide (j = i)) as [->|Hne']; [by rewrite Z.sub_diag|].
      rewrite Hs by lia. apply H5; lia.
  - rewrite Z.sub_diag. split_and!; [lia|done|lia|done|]. intros j Hj Hne.
    destruct (Z.to_nat (j - i)) as [|n] eqn:E; [lia|done].
Qed.

(** The table of handles is a map: a new handle gets the smallest number that
    is free, is found under it, and goes with its removal; the handles under
    other numbers are not touched. *)
Theorem process_handles_map h r :
  let '(k, r') := insert_process_handle h r in
  0 <= k /\ get_process_handle k r = None /\ (forall j, 0 <= j < k -> get_process_handle j r <> None) /\
  get_process_handle k r' = Some h /\
  (forall j, 0 <= j -> j <> k -> get_process_handle j r' = get_process_handle j r) /\
  (forall i j, 0 <= i -> 0 <= j ->
     get_process_handle j (remove_process_handle i r) = if decide (j = i) then None else get_process_handle j r).
Proof.
  unfold insert_process_handle. pose proof (insert_slot_spec h (handles r) 0) as Hs.
  destruct (insert_slot h (handles r) 0) as [k l]. destruct Hs as (H1 & H2 & H3 & H4 & H5).
  unfold get_process_handle. cbn [handles].
  setoid_rewrite Z.sub_0_r in H3. setoid_rewrite Z.sub_0_r in H5. rewrite Z.sub_0_r in H2, H4.
  split_and!; try done.
  - by rewrite H4.
  - intros i j Hi Hj. cbn [remove_process_handle handles]. destruct (decide (j = i)) as [->|Hne].
    + destruct (decide (Z.to_nat i < length (handles r))%nat) as [Hlt|Hge].
      * by rewrite list_lookup_insert_eq.
      * rewrite list_insert_ge by lia. by rewrite lookup_ge_None_2 by lia.
    + rewrite list_lookup_insert_ne by lia. done.
Qed.

(** ** Pointers *)

Lemma alias_index v k : 12 <= k <= 39 -> Z.land (Z.shiftr (v `mod` 2 ^ 48) k) 0x1FF = Z.land (Z.shiftr v k) 0x1FF.
Proof.
  intros Hk. apply Z.bits_inj'. intros n Hn. rewrite !Z.land_spec, !Z.shiftr_spec by lia.
  destruct (decide (n < 9)) as [Hlt|Hge].
  - by rewrite Z.mod_pow2_bits_low by lia.
  - rewrite (testbit_above 0x1FF 9 n) by lia. by rewrite !andb_false_r.
Qed.

Section alias.
  Context {E : Type}.

Lemma mapped_alias pml4 v :
  get_page_table_mapped_physical (E := E) pml4 (v `mod` 2 ^ 48) = get_page_table_mapped_physical pml4 v.
Proof.
  unfold get_page_table_mapped_physical, pml4_index, pdpt_index, pd_index, pt_index.
  rewrite !alias_index by lia.
  assert (Z.land (v `mod` 2 ^ 48) 0xFFF = Z.land v 0xFFF) as -> by (rewrite !land_low; lia). done.
Qed.

Lemma mapped_bound pml4 v s q s' :
  get_page_table_mapped_physical (E := E) pml4 v s = (Ok (Some q), s') -> 0 < q < 2 ^ 53.
Proof.
  assert (0 <= Z.land v 0xFFF < 0x1000) by (rewrite land_low; lia).
  unfold get_page_table_mapped_physical, mbind, M_bind.
  repeat (first [destruct (read_memory _ _ _) as [[]]|case_match]; try done).
  unfold mret, M_ret. intros [= Hq _]. unfold nonzero in Hq. case_match; [done|]. bool_to_prop.
  injection Hq as <-. match goal with |- context [address ?e] => pose proof (address_bounds e) end. lia.
Qed.

Lemma window_len q s start len s' :
  0 < q < 2 ^ 53 -> insert_temp_page_table (E := E) q s = (Ok (start, len), s') -> 0 < len <= 0x1000.
Proof.
  intros Hq. unfold insert_temp_page_table, mbind, M_bind, checked. rewrite align_down by lia.
  unfold fits. rewrite (proj2 (Z.leb_le 0 _)), (proj2 (Z.ltb_lt _ _)) by lia. cbn.
  destruct (LOADER_PT s); [|done]. cbn. intros [= _ <- _]. lia.
Qed.

End alias.

(** Writing through an alias is writing to the address itself. *)
Lemma write_alias fuel pml4 src a b s :
  b = a `mod` 2 ^ 48 -> 0 <= a -> a + Z.of_nat (length src) < 2 ^ 64 -> b + Z.of_nat (length src) < 2 ^ 48 ->
  write_page_loop fuel pml4 b src s = write_page_loop fuel pml4 a src s.
Proof.
  revert src a b s. induction fuel as [|fuel IH]; intros src a b s Hb Ha Hlen Hlen'; [done|].
  cbn [write_page_loop]. destruct src as [|x src]; [done|]. set (src0 := x :: src) in *. clearbody src0.
  unfold mbind, M_bind. rewrite Hb, mapped_alias, <- Hb.
  destruct (get_page_table_mapped_physical pml4 a s) as [[[q|]| | |] s1] eqn:Hq; try done. apply mapped_bound in Hq.
  destruct (insert_temp_page_table q s1) as [[[start len]| | |] s2] eqn:Hw; try done. apply window_len in Hw; [|done].
  cbn. unfold checked, fits. set (n := Z.min _ _).
  rewrite !(proj2 (Z.leb_le 0 _)), !(proj2 (Z.ltb_lt _ (2 ^ 64))) by lia. cbn.
  apply IH; [|lia|rewrite length_drop; lia|rewrite length_drop; lia].
  rewrite Hb. rewrite <- (Z.add_mod_idemp_l a n) by lia. symmetry. apply Z.mod_small. lia.
Qed.

Lemma read_alias fuel pml4 a b len acc s :
  b = a `mod` 2 ^ 48 -> 0 <= a -> 0 <= len -> a + len < 2 ^ 64 -> b + len < 2 ^ 48 ->
  read_page_loop fuel pml4 b len acc s = read_page_loop fuel pml4 a len acc s.
Proof.
  revert a b len acc s. induction fuel as [|fuel IH]; intros a b len acc s Hb Ha Hl Hlen Hlen'; [done|].
  cbn [read_page_loop]. destruct (Z.ltb_spec 0 len); [|done].
  unfold mbind, M_bind. rewrite Hb, mapped_alias, <- Hb.
  destruct (get_page_table_mapped_physical pml4 a s) as [[[q|]| | |] s1] eqn:Hq; try done. apply mapped_bound in Hq.
  destruct (insert_temp_page_table q s1) as [[[start n]| | |] s2] eqn:Hw; try done. apply window_len in Hw; [|done].
  cbn. unfold checked, fits. set (k := Z.min _ _).
  rewrite !(proj2 (Z.leb_le 0 _)), !(proj2 (Z.ltb_lt _ (2 ^ 64))) by lia. cbn.
  apply IH; [|lia..]. rewrite Hb. rewrite <- (Z.add_mod_idemp_l a k) by lia. symmetry. apply Z.mod_small. lia.
Qed.

(** The check of user pointers does not keep programs out of the kernel. For
    every address [v] of the kernel's half the same address with its upper
    sixteen bits cleared passes [is_user_space_virtual_memory], which [v] does
    not, and every access through it to the memory of a process is the access to
    [v] itself: what a system call writes or reads there is memory of the
    kernel. *)
Theorem user_check_kernel_alias {FS F : Type} v :
  KERNEL_SEARCH_START <= v < 2 ^ 64 ->
  is_user v = false /\ is_user (v `mod` 2 ^ 48) = true /\
  (forall pr src (s : Sys FS F), v + Z.of_nat (length src) < 2 ^ 64 ->
     write_user_process_memory pr (v `mod` 2 ^ 48) src s = write_user_process_memory pr v src s) /\
  (forall pr len (s : Sys FS F), 0 <= len -> v + len < 2 ^ 64 ->
     read_user_process_memory pr (v `mod` 2 ^ 48) len s = read_user_process_memory pr v len s).
Proof.
  intros Hv. unfold KERNEL_SEARCH_START in Hv.
  assert (v `mod` 2 ^ 48 = v - 0xFFFF000000000000) as Ha.
  { symmetry. apply (Z.mod_unique_pos v (2 ^ 48) 0xFFFF); lia. }
  unfold is_user, is_user_space_virtual_memory, USER_SEARCH_START, USER_SEARCH_END. split_and!.
  - apply andb_false_iff. right. apply Z.ltb_ge. lia.
  - rewrite Ha. apply andb_true_iff. split; [apply Z.leb_le|apply Z.ltb_lt]; lia.
  - intros pr src s Hlen. unfold write_user_process_memory, map_err, on_machine, zoom, write_page_table_memory.
    rewrite (write_alias _ _ _ v) by (done || lia). done.
  - intros pr len s Hl Hlen. unfold read_user_process_memory, map_err, on_machine, zoom, read_page_table_memory.
    rewrite (read_alias _ _ v) by (done || lia). done.
Qed.

(** ** Words and files *)

Lemma arith_overflows `{Build} {S E} x (s : S) :
  2 ^ 64 <= x -> arith (E := E) 64 x s = if overflow_checks then (Panic, s) else (Ok (x `mod` 2 ^ 64), s).
Proof.
  intros Hx. unfold arith, fits. rewrite (proj2 (Z.ltb_ge x _)), andb_false_r by lia.
  by destruct overflow_checks.
Qed.

Lemma arith_fits `{Build} {S E} x (s : S) : 0 <= x < 2 ^ 64 -> arith (E := E) 64 x s = (Ok x, s).
Proof. intros Hx. unfold arith, fits. by rewrite (proj2 (Z.leb_le 0 x)), (proj2 (Z.ltb_lt x _)) by lia. Qed.

Lemma is_user_bounds x : is_user x = true -> 0 <= x < 2 ^ 64.
Proof.
  unfold is_user, is_user_space_virtual_memory, USER_SEARCH_START, USER_SEARCH_END. intros Hx. bool_to_prop. lia.
Qed.

Lemma check_range_ok `{Build} {FS F} ptr len (s : Sys FS F) :
  is_user ptr = true -> is_user (ptr + len) = true -> 0 <= ptr + len < 2 ^ 64 ->
  check_range ptr len s = (Ok true, s).
Proof.
  intros H1 H2 Hb. unfold check_range. rewrite H1. unfold mbind, M_bind. rewrite arith_fits by lia.
  unfold mret, M_ret. by rewrite H2.
Qed.


Section delivery.
  Context (X : Z -> Z -> bool) (lo : Z) (K : option Z) (O : others) (R : Z) (T : gmap Z nat).
  Context (HR : T !! R = Some 4%nat).
  Context {FS F : Type} `{FileSystem FS F} {build : Build} (room : Z) (fuel : nat).
  Notation pinv := (pinv X lo K O).
  Notation phys := (phys X).

(** A range of a program that its own tables translate. *)
Record good_range (m : Z -> Z) (a n : Z) : Prop := mkGoodRange {
  gr_low : 0 <= a;
  gr_high : a + n < 2 ^ 64;
  gr_len : 0 <= n <= 2 ^ 48;
  gr_clear : forall k, 0 <= k < n -> clear_path X m R (indices (a + k));
  gr_open : unprotected X O R m a n;
  gr_mapped : forall k, 0 <= k < n -> phys m R (a + k) <> None
}.

Lemma good_range_agree m m' a n : forest X m T -> agree T m m' -> good_range m a n -> good_range m' a n.
Proof.
  intros Hf Ha [G1 G2 G3 G4 G5 G6]. split; try done.
  - intros k Hk. eapply clear_agree; try done. by apply G4.
  - intros k x Hk Hx. rewrite (phys_agree X T m) in Hx by done. by apply (G5 k).
  - intros k Hk. rewrite (phys_agree X T m) by done. by apply G6.
Qed.

Lemma good_range_prefix m a n n' : 0 <= n' <= n -> good_range m a n -> good_range m a n'.
Proof.
  intros Hn [G1 G2 G3 G4 G5 G6]. split; try lia.
  - intros k Hk. apply G4. lia.
  - intros k x Hk Hx. apply (G5 k x); [lia|done].
  - intros k Hk. apply G6. lia.
Qed.

(** Bytes written to a mapped range, and nothing else. *)
Lemma write_user_spec pr a src (s : Sys FS F) m :
  page_table pr = R -> pinv (machine s) m T -> good_range m a (Z.of_nat (length src)) ->
  wp (write_user_process_memory pr a src) s (fun _ s' =>
    exists x m', s' = set_machine x s /\ pinv x m' T /\ wrote X R T m a (Z.of_nat (length src)) (nth_byte src) m').
Proof.
  intros Hpt I [G1 G2 G3 G4 G5 G6]. unfold write_user_process_memory, on_machine. rewrite Hpt.
  apply wp_map_err, wp_zoom. unfold write_page_table_memory.
  pose proof (write_page_loop_spec X lo K O R T HR (rounds (Z.of_nat (length src))) a src (machine s) m I G1 G2
    (proj2 G3) G4 G5 (rounds_enough_for X a _ G1 (proj1 G3))) as Hw.
  unfold wpe in Hw. unfold wp.
  destruct (write_page_loop _ _ _ _ _) as [[[]|e| |] x]; try done.
  - destruct Hw as (m' & I' & W). exists x, m'. done.
  - destruct Hw as (m' & k & Hk & Hno & _). exfalso. by apply (G6 k).
Qed.

Lemma give_word_spec pr a w (s : Sys FS F) m :
  page_table pr = R -> pinv (machine s) m T -> good_range m a 8 ->
  wp (give_word pr a w) s (fun code s' => code = Success /\
    exists x m', s' = set_machine x s /\ pinv x m' T /\ wrote X R T m a 8 (nth_byte (to_le 8 w)) m').
Proof.
  intros Hpt I G. unfold give_word, or_return, write_user_process_memory_struct.
  assert (Z.of_nat (length (to_le 8 w)) = 8) as Hl by done.
  pose proof (write_user_spec pr a (to_le 8 w) s m Hpt I ltac:(by rewrite Hl)) as Hw. rewrite Hl in Hw.
  unfold wp in *. destruct (write_user_process_memory pr a (to_le 8 w) s) as [[[]|e| |] s']; done.
Qed.

Lemma bytes_at_later m m' a n bs :
  forest X m T -> agree T m m' -> bytes_at X R m a n bs ->
  (forall k x, 0 <= k < n -> phys m R (a + k) = Some x -> m' x = m x) -> bytes_at X R m' a n bs.
Proof.
  intros Hf Ha [Hl Hb] Hsame. split; [done|]. intros k Hk. destruct (Hb k Hk) as (x & Hx & Hm). exists x.
  rewrite (phys_agree X T m) by done. split; [done|]. rewrite (Hsame k x) by done. done.
Qed.

(** Two writes to ranges apart from each other. *)
Lemma two_writes m m1 m2 a src b w :
  forest X m T -> wrote X R T m a (Z.of_nat (length src)) (nth_byte src) m1 ->
  wrote X R T m1 b 8 (nth_byte (to_le 8 w)) m2 ->
  (forall j k, 0 <= j < Z.of_nat (length src) -> 0 <= k < 8 -> a + j <> b + k) ->
  0 <= a -> a + Z.of_nat (length src) <= 2 ^ 47 -> 0 <= b -> b + 8 <= 2 ^ 47 ->
  bytes_at X R m2 a (Z.of_nat (length src)) src /\ bytes_at X R m2 b 8 (to_le 8 w) /\
  (forall y, (forall k, 0 <= k < Z.of_nat (length src) -> phys m R (a + k) <> Some y) ->
     (forall k, 0 <= k < 8 -> phys m R (b + k) <> Some y) -> m2 y = m y).
Proof.
  intros Hf W1 W2 Hdis Ha1 Ha2 Hb1 Hb2. pose proof W1 as (A1 & _ & O1). pose proof W2 as (A2 & _ & O2).
  assert (forest X m1 T) as Hf1 by exact (agree_forest X T m m1 Hf A1).
  assert (forall r, phys m1 R r = phys m R r) as Hph by (intros r; by apply (phys_agree X T)).
  split_and!.
  - eapply (bytes_at_later m1); [done|done|exact (bytes_at_wrote X R T HR m a src m1 Hf W1)|].
    intros k x Hk Hx. apply O2. intros j Hj Hx'. apply (Hdis k j Hk Hj).
    eapply (phys_inj X R T HR m1); [done|done|done|lia].
  - exact (bytes_at_wrote X R T HR m1 b (to_le 8 w) m2 Hf1 W2).
  - intros y Hy1 Hy2. rewrite O2; [by apply O1|]. intros k Hk. rewrite Hph. by apply Hy2.
Qed.

(** Reading a file through a system call delivers its bytes. For a program
    whose buffer and count are mapped, apart from each other and in user space,
    and a handle of an open file, [read] succeeds, the buffer holds the bytes
    that the file handle gave, the count the number of them, the handle has
    moved on, and nothing else of memory has changed. *)
Theorem read_delivers p pr h i f f' x' len count bs bp cp (s : Sys FS F) m :
  current_process s = Some (p, pr) -> page_table pr = R -> terminating s = false -> pinv (machine s) m T ->
  get_process_handle h (resources_of p s) = Some (HFile i) -> files s !! i = Some f ->
  fh_read (replicate (Z.to_nat len) 0) (f, file_system s) = (Ok (count, bs), (f', x')) ->
  0 <= count <= len -> Z.of_nat (length bs) = len -> len <= room ->
  is_user bp = true -> is_user (bp + len) = true -> is_user cp = true ->
  good_range m bp len -> good_range m cp 8 -> bp + len <= 2 ^ 47 -> cp + 8 <= 2 ^ 47 ->
  (forall j k, 0 <= j < count -> 0 <= k < 8 -> bp + j <> cp + k) ->
  wp (read room h bp len cp) s (fun code s' =>
    code = Success /\ files s' = <[i := f']> (files s) /\ file_system s' = x' /\
    kernel s' = kernel s /\ resources s' = resources s /\
    exists m', pinv (machine s') m' T /\ bytes_at X R m' bp count (take (Z.to_nat count) bs) /\
      bytes_at X R m' cp 8 (to_le 8 count) /\
      (forall y, (forall k, 0 <= k < count -> phys m R (bp + k) <> Some y) ->
         (forall k, 0 <= k < 8 -> phys m R (cp + k) <> Some y) -> m' y = m y)).
Proof.
  intros Hcur Hpt Hterm I Hget Hfile Hread Hc Hbs Hroom U1 U2 U3 G1 G2 L1 L2 Hdis.
  unfold wp, read, await_task, with_handle, or_return, mbind, M_bind.
  rewrite check_range_ok by (done || (destruct G1; lia)). cbn [andb]. rewrite U3. cbn [negb].
  unfold unwrap_current, gets, alloc_vec, mret, M_ret. rewrite Hcur, Hget, (proj2 (Z.leb_le _ _) Hroom).
  unfold file_task. rewrite Hfile, Hread. set (s1 := set_files _ _ s).
  change (terminating s1) with (terminating s). rewrite Hterm.
  set (src := take (Z.to_nat count) bs). assert (Z.of_nat (length src) = count) as Hsrc by (subst src; rewrite length_take; lia).
  pose proof I as (_ & Hf & _).
  pose proof (write_user_spec pr bp src s1 m Hpt I) as Hw. rewrite Hsrc in Hw.
  specialize (Hw (good_range_prefix _ _ _ _ Hc G1)). unfold wp in Hw.
  destruct (write_user_process_memory pr bp src s1) as [[[]|e| |] s2]; try done.
  destruct Hw as (x2 & m2 & -> & I2 & W2). pose proof W2 as (A2 & _ & _).
  pose proof (give_word_spec pr cp count (set_machine x2 s1) m2 Hpt I2 (good_range_agree _ _ _ _ Hf A2 G2)) as Hg.
  unfold wp in Hg. destruct (give_word pr cp count (set_machine x2 s1)) as [[code|e| |] s3]; try done.
  destruct Hg as (-> & x3 & m3 & -> & I3 & W3). split_and!; try done. exists m3.
  rewrite <- Hsrc in W2. destruct (two_writes m m2 m3 bp src cp count Hf W2 W3) as (B1 & B2 & B3);
    [rewrite Hsrc; done|destruct G1; lia|destruct G1; lia|destruct G2; lia|lia|].
  rewrite Hsrc in B1, B3. done.
Qed.

Lemma read_user_spec pr a n (s : Sys FS F) m :
  page_table pr = R -> pinv (machine s) m T -> good_range m a n ->
  wp (read_user_process_memory pr a n) s (fun bs s' =>
    exists x, s' = set_machine x s /\ pinv x m T /\ bytes_at X R m a n bs).
Proof.
  intros Hpt I [G1 G2 G3 G4 G5 G6]. unfold read_user_process_memory, on_machine. rewrite Hpt.
  apply wp_map_err, wp_zoom. unfold read_page_table_memory.
  pose proof (read_page_loop_spec X lo K O R T HR (rounds n) a n [] (machine s) m I G1 (proj1 G3) G2 G4
    (rounds_enough_for X a n G1 (proj1 G3))) as Hw.
  unfold wpe in Hw. unfold wp. destruct (read_page_loop _ _ _ _ _ _) as [[bs|e| |] x]; try done.
  - destruct Hw as (I' & new & -> & Hb). exists x. done.
  - destruct Hw as (_ & k & Hk & Hno). exfalso. by apply (G6 k).
Qed.

(** Writing a file through a system call never tells the count. For a program
    whose buffer is mapped in user space and a handle of an open file, [write]
    gives the file handle exactly the bytes of the buffer and succeeds; the
    memory of every process is as it was, so that the word the caller passed
    for the number of bytes still holds what it held before. *)
Theorem write_keeps_count p pr h i f f' x' len bs bp cp (s : Sys FS F) m :
  current_process s = Some (p, pr) -> page_table pr = R -> terminating s = false -> pinv (machine s) m T ->
  get_process_handle h (resources_of p s) = Some (HFile i) -> files s !! i = Some f ->
  bytes_at X R m bp len bs -> fh_write bs (f, file_system s) = (Ok tt, (f', x')) -> len <= room ->
  is_user bp = true -> is_user (bp + len) = true -> is_user cp = true -> good_range m bp len ->
  wp (write room h bp len cp) s (fun code s' =>
    code = Success /\ files s' = <[i := f']> (files s) /\ file_system s' = x' /\
    kernel s' = kernel s /\ resources s' = resources s /\ pinv (machine s') m T).
Proof.
  intros Hcur Hpt Hterm I Hget Hfile Hbs Hwrite Hroom U1 U2 U3 G1.
  unfold wp, write, await_task, with_handle, or_return, mbind, M_bind.
  rewrite check_range_ok by (done || (destruct G1; lia)). cbn [andb]. rewrite U3. cbn [negb].
  unfold unwrap_current, gets, alloc_vec, mret, M_ret. rewrite Hcur, Hget, (proj2 (Z.leb_le _ _) Hroom).
  pose proof (read_user_spec pr bp len s m Hpt I G1) as Hr. unfold wp in Hr.
  destruct (read_user_process_memory pr bp len s) as [[bs'|e| |] s1]; try done.
  destruct Hr as (x & -> & I1 & Hbs'). assert (bs' = bs) as -> by (by eapply bytes_at_unique).
  unfold file_task. change (files (set_machine x s)) with (files s).
  change (file_system (set_machine x s)) with (file_system s). rewrite Hfile, Hwrite.
  set (s2 := set_files _ _ _). change (terminating s2) with (terminating s). rewrite Hterm.
  cbn. split_and!; done.
Qed.

End delivery.

(** ** Panics *)

Section panics.
  Context {FS F : Type} `{FileSystem FS F} {build : Build} (room : Z) (fuel : nat).
  Implicit Types (s : Sys FS F).

(** A program can make the kernel panic with the arguments of a system call: a
    length that exceeds what the heap of the kernel can give, a page to free
    that is not aligned, a time to sleep that overflows the duration. A number
    of pages whose size overflows panics in a build with overflow checks; in
    one without the size wraps around, and the call allocates and reports as
    done what it would for a smaller number: of 2^52 + 1 pages the program gets
    one. *)
Theorem syscall_limits s :
  is_Some (current_process s) ->
  (forall ptr len, is_user ptr = true -> is_user (ptr + len) = true -> room < len ->
     fst (create room ptr len s) = Panic) /\
  (forall addr, is_user addr = true -> is_user (addr + 0x1000) = true -> addr `mod` 0x1000 <> 0 ->
     fst (free_page addr 1 s) = Panic) /\
  fst (sleep_thread_micros (FS := FS) (F := F) U64_MAX 1000000000 s) = Panic /\
  (forall ptr count, is_user ptr = true -> 1 <= count < 2 ^ 52 ->
     alloc_page fuel (2 ^ 52 + count) ptr s = if overflow_checks then (Panic, s) else alloc_page fuel count ptr s).
Proof.
  intros [[p pr] Hcur]. split_and!.
  - intros ptr len Hu Hu' Hroom. unfold create, mbind, M_bind. pose proof (is_user_bounds _ Hu').
    rewrite check_range_ok by (done || lia).
    cbn [negb]. unfold unwrap_current, alloc_vec. rewrite Hcur, (proj2 (Z.leb_gt len room)) by lia. done.
  - intros addr Hu Hu' Hmod. unfold free_page, mbind, M_bind. rewrite Hu.
    pose proof (is_user_bounds _ Hu'). change (1 * 0x1000) with 0x1000.
    rewrite (arith_fits 0x1000), (arith_fits (addr + 0x1000)) by lia. unfold mret, M_ret. rewrite Hu'.
    cbn [negb Z.eqb]. unfold unwrap_current. rewrite Hcur, (arith_fits 0x1000) by lia.
    unfold free_process_page, on_machine, zoom, free_mapped_frame. change (0x1000 / 0x1000) with 1.
    change (seqZ 0 1) with [0]. cbn [for_each]. unfold mbind, M_bind, remove_memory_page, rust_assert.
    unfold mbind, M_bind. rewrite Z.add_0_r. destruct (Z.land (page_table pr) 0xFFF =? 0); [|done].
    unfold mret, M_ret. rewrite land_low, (proj2 (Z.eqb_neq _ 0) Hmod). done.
  - done.
  - intros ptr count Hu Hc. unfold alloc_page. rewrite Hu. cbn [negb].
    rewrite (proj2 (Z.eqb_neq (2 ^ 52 + count) 0)), (proj2 (Z.eqb_neq count 0)) by lia.
    unfold mbind, M_bind, unwrap_current. rewrite Hcur, arith_overflows, arith_fits by lia.
    destruct overflow_checks; [done|]. by replace (((2 ^ 52 + count) * 0x1000) `mod` 2 ^ 64) with (count * 0x1000) by lia.
Qed.

End panics.

(** ** Threads *)

Section threads.
  Context {FS F : Type} `{FileSystem FS F} {build : Build} (fuel : nat).
  Implicit Types (s : Sys FS F).

Lemma on_machine_resources {E A} (m : M Machine E A) s r s1 :
  on_machine m s = (r, s1) -> resources s1 = resources s.
Proof. unfold on_machine, zoom. destruct (m (machine s)) as [r' x]. by intros [= _ <-]. Qed.

(** [create_thread] never reports success: when the thread has been created it
    returns [OutOfMemory] all the same, without a handle. *)
Theorem create_thread_no_handle rip rsp params ptr s code s' :
  create_thread_handle fuel rip rsp params ptr s = (Ok code, s') ->
  (code = BadPointer \/ code = OutOfMemory) /\ resources s' = resources s.
Proof.
  unfold create_thread_handle. destruct (is_user ptr); cbn; [|by intros [= <- <-]; auto].
  unfold mbind, M_bind, unwrap_current. destruct (current_process s) as [[p pr]|]; [|done].
  unfold create_user_thread. destruct (on_machine _ s) as [[a|e| |] s1] eqn:Hm; try done.
  - apply on_machine_resources in Hm. destruct (create_thread _ _ _ _); cbn; intros [= <- <-]; auto.
  - apply on_machine_resources in Hm. cbn. intros [= <- <-]. auto.
Qed.

End threads.

(** The queue of an address. *)
Definition waiting (addr : Z) (r : Resources) : list Z := default [] (futex r !! addr).

(** The queues of addresses are first in, first out: a thread that waits is put
    at the end, a wake takes up to [count] from the front, and the queues of
    other addresses stay. *)
Theorem futex_fifo addr t count r :
  waiting addr (futex_push addr t r) = waiting addr r ++ [t] /\
  fst (wake_futex addr count r) = take (Z.to_nat count) (waiting addr r) /\
  waiting addr (snd (wake_futex addr count r)) = drop (Z.to_nat count) (waiting addr r) /\
  (forall a, a <> addr ->
     waiting a (futex_push addr t r) = waiting a r /\ waiting a (snd (wake_futex addr count r)) = waiting a r).
Proof.
  unfold waiting, futex_push, wake_futex. cbn. split_and!.
  - by rewrite lookup_insert_eq.
  - destruct (futex r !! addr); cbn; [done|by rewrite take_nil].
  - destruct (futex r !! addr) as [q|] eqn:Hq; cbn; [|by rewrite Hq, drop_nil].
    case_decide as Hd; cbn; [by rewrite lookup_delete_eq, Hd|by rewrite lookup_insert_eq].
  - intros a Ha. rewrite lookup_insert_ne by done. split; [done|].
    destruct (futex r !! addr); cbn; [|done]. case_decide; cbn.
    + by rewrite lookup_delete_ne.
    + by rewrite lookup_insert_ne.
Qed.

(** The sender of a thread that is killed while it waits stays in the queue: a
    wake of one thread is spent on it, and the thread behind it goes on
    waiting. *)
Theorem killed_waiter_takes_wake addr killed other r :
  waiting addr r = [] ->
  let r' := futex_push addr other (futex_push addr killed r) in
  fst (wake_futex addr 1 r') = [killed] /\ waiting addr (snd (wake_futex addr 1 r')) = [other].
Proof.
  intros Hr r'.
  assert (waiting addr r' = [killed; other]) as Hw.
  { subst r'. rewrite (proj1 (futex_fifo addr other 1 _)), (proj1 (futex_fifo addr killed 1 _)), Hr. done. }
  destruct (futex_fifo addr 0 1 r') as (_ & -> & -> & _). by rewrite Hw.
Qed.

(** ** Runs *)

Module Runs.

(** Built for release. *)
#[local] Instance release : Build := false.

(** A file system with one file: its bytes, and a handle that is the position. *)
#[local] Instance one_file : FileSystem (list Z) Z := {|
  fs_create_file _ := throw FileExists;
  fs_open_file _ := mret 0;
  fh_read buf := fun '(pos, fs) =>
    let bs := take (length buf) (drop (Z.to_nat pos) fs) in
    let n := Z.of_nat (length bs) in
    (Ok (n, bs ++ drop (length bs) buf), (pos + n, fs));
  fh_write bs := fun '(pos, fs) => (Ok tt, (pos + Z.of_nat (length bs), take (Z.to_nat pos) fs ++ bs));
  fh_get_pointer := fun '(pos, fs) => (Ok pos, (pos, fs));
  fh_move_pointer p := fun '(pos, fs) => (Ok tt, (p, fs));
  fh_close := mret tt
|}.

(** Thread 3 of process 1 runs, in the address space with one page. *)
Definition kernel0 : Kernel :=
  mkKernel {[3 := mkThread (Some 1) Running None 0 false]} {[3]} [] [] 3
    {[1 := mkProcess {[3]} PageDemo.root 0 false]} 1 (mkCpu 3 2 1 0 0 PageDemo.root) ∅ [] [].
Definition sys0 : Sys (list Z) Z :=
  mkSys PageDemo.one_page kernel0 {[1 := mkResources [Some (HFile 0)] ∅]} {[0 := 1]} [10; 11; 12; 13] [] [].

Lemma first_page_range m a n :
  phys PageDemo.none m PageDemo.root PageDemo.first_page = Some PageDemo.page ->
  PageDemo.first_page <= a -> 0 <= n -> a + n < PageDemo.first_page + 0x1000 ->
  good_range PageDemo.none PageDemo.free PageDemo.root m a n.
Proof.
  intros Hph Ha Hn Hb. unfold PageDemo.first_page in *. split; try lia.
  - intros k Hk. apply PageDemo.none_clear.
  - intros k x _ _. apply not_elem_of_empty.
  - intros k Hk. replace (a + k) with (0x8000000000 + (a + k - 0x8000000000)) by lia.
    erewrite phys_next; [done|exact Hph|lia|]. change (0x8000000000 `mod` 0x1000) with 0. lia.
Qed.

Lemma user_check_kernel_alias_witness :
  is_user 0xFFFFFF8000001000 = false /\ is_user 0x0000FF8000001000 = true.
Proof.
  destruct (user_check_kernel_alias (FS := list Z) (F := Z) 0xFFFFFF8000001000) as (H1 & H2 & _).
  - unfold KERNEL_SEARCH_START. lia.
  - split; [exact H1|exact H2].
Defined.

Lemma write_keeps_count_witness :
  exists bs, wp (write 100 0 PageDemo.first_page 2 (PageDemo.first_page + 0x800)) sys0 (fun code s' =>
    code = Success /\ file_system s' = 10 :: bs).
Proof.
  destruct PageDemo.one_page_pinv as (m & T & I & HR & Hph).
  assert (bytes_at PageDemo.none PageDemo.root m PageDemo.first_page 2 (load m PageDemo.page 2)) as Hb.
  { apply bytes_at_page; [exact Hph|]. change (PageDemo.first_page `mod` 0x1000) with 0. lia. }
  exists (load m PageDemo.page 2).
  eapply wp_mono; [apply (write_keeps_count PageDemo.none 0x408000 (PML4 PageDemo.two_frames) PageDemo.free PageDemo.root T HR
    100 1 (mkProcess {[3]} PageDemo.root 0 false) 0 0 1 3 ([10] ++ load m PageDemo.page 2) 2 (load m PageDemo.page 2)
    PageDemo.first_page (PageDemo.first_page + 0x800) sys0 m)|].
  - reflexivity.
  - reflexivity.
  - reflexivity.
  - exact I.
  - reflexivity.
  - reflexivity.
  - exact Hb.
  - reflexivity.
  - lia.
  - reflexivity.
  - reflexivity.
  - reflexivity.
  - apply (first_page_range m); [exact Hph|lia|lia|lia].
  - intros code s' (H1 & _ & H3 & _). split; [exact H1|exact H3].
Defined.

Lemma syscall_limits_witness :
  fst (free_page (FS := list Z) (F := Z) (PageDemo.first_page + 8) 1 sys0) = Panic.
Proof.
  destruct (syscall_limits (FS := list Z) (F := Z) 100 10 sys0) as (_ & H2 & _).
  - eexists. reflexivity.
  - apply H2; [reflexivity|reflexivity|]. by vm_compute.
Defined.

End Runs.
