(* ===== verification/SyscallFat32.v ===== *)
(** * System calls on a FAT32 volume

    The FAT32 file system as the file system of the kernel, and reading a file
    from a program's point of view: from the clusters on the disk through the
    file handle, the handler of the system call and the page table into the
    memory of the program. *)
From S2P Require Import Prelude Path Device Fat32Types Fat32Name Fat32Format Fat32Table Fat32Dir Fat32Fs Fat32Handle Physics PhysicsSpec Page PageForest PageSpec PageUnmap PageAlloc PageAccess PageDemo Thread Process Syscall SyscallSpec.

Section fat32.
  Context {D : Type} `{!BlockDevice D} (fuel : nat).

Definition fat32_files : FileSystem (Fat32Inner D) Fat32FileHandle := {|
  fs_create_file := Fat32Fs.create_file fuel;
  fs_open_file := Fat32Fs.open_file fuel;
  fh_read := Fat32Handle.read fuel;
  fh_write := Fat32Handle.write fuel;
  fh_get_pointer := Fat32Handle.get_pointer;
  fh_move_pointer := Fat32Handle.move_pointer;
  fh_close := Fat32Handle.close
|}.

End fat32.

Section delivery.
  Context {D : Type} `{BlockDevice D, !BlockDeviceSpec D} {build : Build} (fuel : nat).
  Context (X : Z -> Z -> bool) (lo : Z) (K : option Z) (O : others) (R : Z) (T : gmap Z nat).
  Context (HR : T !! R = Some 4%nat) (room : Z).

#[local] Instance volume : FileSystem (Fat32Inner D) Fat32FileHandle := fat32_files fuel.

(** A program reads a file of the disk. When a thread with an open handle of a
    file on a sound FAT32 volume calls [read] with a buffer and a count that are
    mapped in user space and apart, the call succeeds; its buffer then holds the
    bytes of the file from the position of the handle on, as far as the buffer
    and the file reach, the count is their number, the handle has moved behind
    them, and no other byte of memory, no handle and no sector of the volume has
    changed. *)
Theorem fat32_read_delivers p pr h i f l len bp cp (s : Sys (Fat32Inner D) Fat32FileHandle) m :
  let n := len `min` (file_size (short (metadata f)) - pointer f) in
  current_process s = Some (p, pr) -> page_table pr = R -> terminating s = false ->
  pinv X lo K O (machine s) m T ->
  get_process_handle h (resources_of p s) = Some (HFile i) -> files s !! i = Some f ->
  fat_ok (file_system s) -> open_on (file_system s) f l -> (length l < fuel)%nat ->
  0 <= len <= room -> is_user bp = true -> is_user (bp + len) = true -> is_user cp = true ->
  good_range X O R m bp len -> good_range X O R m cp 8 -> bp + len <= 2 ^ 47 -> cp + 8 <= 2 ^ 47 ->
  (forall j k, 0 <= j < n -> 0 <= k < 8 -> bp + j <> cp + k) ->
  wp (Syscall.read room h bp len cp) s (fun code s' =>
    code = Success /\ files s' = <[i := set_pointer (pointer f + n) f]> (files s) /\
    file_system s' = file_system s /\ kernel s' = kernel s /\ resources s' = resources s /\
    exists m', pinv X lo K O (machine s') m' T /\
      bytes_at X R m' bp n (slice (Z.to_nat (pointer f)) (Z.to_nat n) (file_data (file_system s) l)) /\
      bytes_at X R m' cp 8 (to_le 8 n) /\
      (forall y, (forall k, 0 <= k < n -> phys X m R (bp + k) <> Some y) ->
         (forall k, 0 <= k < 8 -> phys X m R (cp + k) <> Some y) -> m' y = m y)).
Proof.
  intros n Hcur Hpt Hterm I Hget Hfile Hok Hopen Hfuel Hlen U1 U2 U3 G1 G2 L1 L2 Hdis.
  pose proof (read_run fuel (file_system s) f l (replicate (Z.to_nat len) 0) Hok Hopen Hfuel) as Hrun. cbn zeta in Hrun.
  rewrite length_replicate, Z2Nat.id in Hrun by lia. fold n in Hrun.
  pose proof Hopen as [_ _ Hch _ Hp _ Hroom].
  assert (0 <= n <= len) as Hn by (subst n; lia).
  set (bs := slice (Z.to_nat (pointer f)) (Z.to_nat n) (file_data (file_system s) l)) in *.
  assert (length bs = Z.to_nat n) as Hbs.
  { subst bs. pose proof (length_file_data (file_system s) l Hok (chain_clusters _ _ _ Hch)). apply length_slice. lia. }
  eapply wp_mono; [eapply (read_delivers X lo K O R T HR room p pr h i f); try done|].
  - rewrite length_app, length_drop, length_replicate, Hbs. lia.
  - lia.
  - intros code s' (-> & Hf & Hfs & Hk & Hres & m' & I' & B1 & B2 & Hout). split_and!; try done.
    exists m'. rewrite take_app_length' in B1 by done. done.
Qed.

End delivery.

(** ** A run *)

Module Run.

(** Built for release. *)
#[local] Instance release : Build := false.

#[local] Opaque demo_fs.

(** Thread 3 of process 1 with the file of [demo_handle] open. *)
Definition sys : Sys (Fat32Inner MemoryDevice.MemoryDevice) Fat32FileHandle :=
  mkSys PageDemo.one_page Runs.kernel0 {[1 := mkResources [Some (HFile 0)] ∅]} {[0 := demo_handle]} demo_fs [] [].

Lemma fat32_read_delivers_witness :
  wp (Syscall.read (H := fat32_files 2) 1000 0 PageDemo.first_page 600 (PageDemo.first_page + 0x800)) sys (fun code s' =>
    code = Success /\ files s' = {[0 := set_pointer 700 demo_handle]}).
Proof.
  destruct PageDemo.one_page_pinv as (m & T & I & HR & Hph).
  eapply wp_mono; [apply (fat32_read_delivers 2 PageDemo.none 0x408000 (PML4 PageDemo.two_frames) PageDemo.free PageDemo.root T HR
    1000 1 (mkProcess {[3]} PageDemo.root 0 false) 0 0 demo_handle [2] 600
    PageDemo.first_page (PageDemo.first_page + 0x800) sys m)|].
  - reflexivity.
  - reflexivity.
  - reflexivity.
  - exact I.
  - reflexivity.
  - reflexivity.
  - apply demo_fs_run.
  - exact demo_open_on.
  - cbn. lia.
  - lia.
  - reflexivity.
  - reflexivity.
  - reflexivity.
  - apply (Runs.first_page_range m); [exact Hph|lia|lia|lia].
  - apply (Runs.first_page_range m); [exact Hph|lia|lia|lia].
  - vm_compute. discriminate.
  - vm_compute. discriminate.
  - intros j k Hj Hk. cbn in Hj. lia.
  - intros code s' (H1 & H2 & _). split; [exact H1|]. rewrite H2. reflexivity.
Defined.

End Run.
