(* ===== verification/CreateProcess.v ===== *)
(** * New processes (create_user_process, the system call create_process)

    From an executable in a file system to a process with a thread that is
    ready to run. *)
From S2P Require Import Prelude Text Path Device Fat32Types Physics PhysicsSpec Page PageForest PageSpec PageUnmap PageAlloc PageAccess KernelHeap UserTable UserSpace Thread Elf Process ElfLoader Syscall.

(** ** Model *)

Section model.
  Context {FS F : Type} `{!FileSystem FS F} {build : Build}.
  Context (room : Z) (fuel : nat).
  Notation SysM := (M (Sys FS F) Blocked).

#[local] Instance handle_io : Io (F * FS) FileSystemError FileSystemError := file_io.

(** The open file beside the kernel, as long as the function holds it. *)
Notation Opened := (F * Sys FS F)%type.
Notation OpenM := (M Opened Blocked).

Definition on_file {E A} (m : M (F * FS) E A) : M Opened E A :=
  zoom (fun o => (o.1, file_system o.2)) (fun x o => (x.1, set_files (files o.2) x.2 o.2)) m.

Definition on_rest {E A} (m : M (Sys FS F) E A) : M Opened E A := zoom snd (fun s o => (o.1, s)) m.

(** [create_process] of the process module, with the number and the process. *)
Definition new_process (table : Z) : SysM (Z * Process) := fun s =>
  let k := create_process table (kernel s) in
  (Ok (PROCESS_ID_GENERATOR k, mkProcess ∅ table 0 false), set_kernel k s).

(** [elf.load(&mut ElfLoader::new(&process))] *)
Definition load_into (pr : Process) (e : ElfFile)
    : M Opened (ElfLoadError FileSystemError FileSystemError ElfLoaderError) unit :=
  zoom (fun o => ((o.1, file_system o.2), ([], o.2)))
    (fun x _ => (x.1.1, set_files (files x.2.2) x.1.2 x.2.2))
    (load (Loader0 := elf_loader fuel pr) e).

(** [file.close().await.ok()?; return None] *)
Definition close_and_fail : OpenM (option Z) := ok (on_file fh_close);; mret None.

(** The stack of the program, the stack for traps, and the main thread. *)
Definition start_main_thread (p : Z) (pr : Process) (entry_point : Z) : SysM (option Z) :=
  stack_page ← create_process_page fuel pr 0x1000 Stack;
  match stack_page with
  | None => mret None
  | Some stack_page =>
      rsp0 ← ok (on_machine (prepare_stack fuel entry_point (stack_page + 0x1000 - 8) 0));
      match rsp0 with
      | None => mret None
      | Some rsp0 => run_kernel (create_thread (Some p) (Some rsp0) false);; mret (Some p)
      end
  end.

(** [create_user_process] from the open file on. *)
Definition create_from_file : OpenM (option Z) :=
  page_table ← on_rest (on_machine alloc_user_page_table);
  match page_table with
  | None => close_and_fail
  | Some page_table =>
      '(p, pr) ← on_rest (new_process page_table);
      elf ← ok (on_file from_io);
      match elf with
      | None => close_and_fail
      | Some elf =>
          loaded ← ok (load_into pr elf);
          match loaded with
          | None => close_and_fail
          | Some _ =>
              closed ← ok (on_file fh_close);
              match closed with
              | None => mret None
              | Some _ => on_rest (start_main_thread p pr (entry_point (header elf)))
              end
          end
      end
  end.

(** The [str] is given by its bytes. [file_system] is the entry 0 of
    [FILE_SYSTEMS], which [init_disk] has made; without one nothing is done. *)
Definition create_user_process (exe : list Z) : SysM (option Z) := fun s =>
  match PathImpl.from_bytes exe with
  | Ok path =>
      match fs_open_file path (file_system s) with
      | (Ok f, x) => let '(r, (_, s)) := create_from_file (f, set_files (files s) x s) in (r, s)
      | (Err _, x) => (Ok None, set_files (files s) x s)
      | (Panic, x) => (Panic, set_files (files s) x s)
      | (Diverge, x) => (Diverge, set_files (files s) x s)
      end
  | _ => (Ok None, s)
  end.

(** The task that the system call spawns. *)
Definition create_task (exe : list Z) : SysM (Z + Z) :=
  match from_utf8 exe with
  | None => mret (inr BadArgument)
  | Some _ =>
      process ← create_user_process exe;
      mret (match process with Some p => inl p | None => inr Unknown end)
  end.

Definition create_process_handle (exe_ptr exe_len process_handle_ptr : Z) : SysM Z :=
  ok ← check_range exe_ptr exe_len;
  if negb ok || negb (is_user process_handle_ptr) then mret BadPointer
  else
    '(p, pr) ← unwrap_current;
    alloc_vec room exe_len;;
    or_return BadPointer (read_user_process_memory pr exe_ptr exe_len) (fun exe =>
      await_task (create_task exe) (fun q =>
        handle ← insert_handle p (HProcess q);
        give_word pr process_handle_ptr handle)).

End model.

(** ** The stack of a new thread *)

(** The words that [user_thread_entry] takes from the stack for traps. *)
Definition stack_words X (Kr : Z) (m : Z -> Z) (rsp0 rip rsp params : Z) : Prop :=
  exists x, phys X m Kr (rsp0 + RSP0_SIZE - 24) = Some x /\ word m x = params /\ word m (x + 8) = rsp /\ word m (x + 16) = rip.

Section stack.
  Context (X : Z -> Z -> bool) (lo : Z) (O : others) (Kr R : Z) (m0 : Z -> Z) (T0 : gmap Z nat).
  Context (HR0 : T0 !! R = Some 4%nat) (HK0 : T0 !! Kr = Some 4%nat) (HRK : R <> Kr).
  Context (HclearK : forall y, KERNEL_SEARCH_START <= y < KERNEL_SEARCH_END -> clear_path X m0 Kr (indices y)).
  Notation user_space := (user_space X lo O Kr R m0 T0).
  Notation phys := (phys X).

Lemma prepare_stack_spec fuel rip rsp params s m T :
  user_space s m T -> 0 <= rip < 2 ^ 64 -> 0 <= rsp < 2 ^ 64 -> 0 <= params < 2 ^ 64 ->
  KERNEL_SEARCH_END - KERNEL_SEARCH_START <= (Z.of_nat fuel - 1) * 0x1000 ->
  wpe (prepare_stack fuel rip rsp params) s
    (fun rsp0 s' => exists m' T', user_space s' m' T' /\ bytes_kept X R m m' /\ stack_words X Kr m' rsp0 rip rsp params)
    (fun _ s' => exists m' T', user_space s' m' T' /\ bytes_kept X R m m').
Proof.
  intros U B1 B2 B3 Hfuel. unfold prepare_stack.
  apply wpe_bind. eapply kernel_pml4_wp; [apply U|]. apply wpe_try.
  eapply wpe_mono; [apply (alloc_kernel_pages X lo O Kr R m0 T0 HR0 HK0 HclearK fuel RSP0_SIZE s m T U); done| |done].
  unfold RSP0_SIZE. intros v s1 (Hlo & Hhi & Hvm & m1 & T1 & U1 & Hk1 & Hf).
  pose proof (us_roots _ _ _ _ _ _ _ _ _ _ U1 Kr HK0) as HK1.
  destruct (Hf (v + 0x2000 - 24)) as (x & Hx & Hn); [lia|].
  assert (Hx8 : phys m1 Kr (v + 0x2000 - 8 - 8) = Some (x + 8)).
  { replace (v + 0x2000 - 8 - 8) with (v + 0x2000 - 24 + 8) by lia. apply phys_next; [done|lia|lia]. }
  assert (Hx16 : phys m1 Kr (v + 0x2000 - 8) = Some (x + 16)).
  { replace (v + 0x2000 - 8) with (v + 0x2000 - 24 + 16) by lia. apply phys_next; [done|lia|lia]. }
  destruct (phys_page X Kr T1 HK1 m1 _ x ltac:(apply U1) Hx) as (q & _ & Hqm & Hxq & _).
  assert (x - x `mod` 0x1000 = q /\ (x + 8) - (x + 8) `mod` 0x1000 = q /\ (x + 16) - (x + 16) `mod` 0x1000 = q) as (Q0 & Q8 & Q16) by lia.
  rewrite Q0 in Hn.
  apply wpe_bind. eapply wp_mono; [apply (store_u64_spec X lo O Kr R m0 T0 HR0 HK0 HRK _ _ (x + 16) s1 m1 T1 U1); [lia|done|by rewrite Q16]|].
  intros [] s2 (U2 & Hk2 & Hp2).
  apply wpe_bind. eapply wp_mono; [apply (store_u64_spec X lo O Kr R m0 T0 HR0 HK0 HRK _ _ (x + 8) s2 _ T1 U2); [lia|by rewrite Hp2|by rewrite Q8]|].
  intros [] s3 (U3 & Hk3 & Hp3).
  replace (v + 0x2000 - 8 - 16) with (v + 0x2000 - 24) by lia.
  apply wpe_bind. eapply wp_mono; [apply (store_u64_spec X lo O Kr R m0 T0 HR0 HK0 HRK _ _ x s3 _ T1 U3); [lia|by rewrite Hp3, Hp2|by rewrite Q0]|].
  intros [] s4 (U4 & Hk4 & Hp4). apply wpe_ret. eexists _, T1. split_and!; [exact U4|by intros y b Hb; apply Hk4, Hk3, Hk2, Hk1|].
  exists x. rewrite Hp4, Hp3, Hp2 by done. unfold RSP0_SIZE. split_and!; [done|by rewrite word_put| |].
  - rewrite word_put_ne by lia. by rewrite word_put.
  - rewrite !word_put_ne by lia. by rewrite word_put.
Qed.

End stack.

(** ** The main thread *)

Section main_thread.
  Context {FS F : Type} `{!FileSystem FS F} {build : Build}.
  Context (X : Z -> Z -> bool) (lo : Z) (O : others) (Kr : Z) (m0 : Z -> Z) (T0 : gmap Z nat) (fuel : nat) (pr : Process).
  Notation R := (page_table pr).
  Context (HR0 : T0 !! R = Some 4%nat) (HK0 : T0 !! Kr = Some 4%nat) (HRK : R <> Kr).
  Context (Hclear : forall y, user_address y -> clear_path X m0 R (indices y)).
  Context (HclearK : forall y, KERNEL_SEARCH_START <= y < KERNEL_SEARCH_END -> clear_path X m0 Kr (indices y)).
  Context (HfuelK : KERNEL_SEARCH_END - KERNEL_SEARCH_START <= (Z.of_nat fuel - 1) * 0x1000).
  Context (v0 : Z) (Hv0 : v0 `mod` 0x1000 = 0) (Hv0u : 0x8000000000 <= v0 /\ v0 + 0x1000 <= 0xFF8000000000).
  Context (Hfuel0 : v0 + 0x1000 - USER_SEARCH_START <= (Z.of_nat fuel - 1) * 0x1000).
  Notation user_space := (user_space X lo O Kr R m0 T0).

Definition main_thread_started (p entry : Z) (s : Sys FS F) (m : Z -> Z) (s' : Sys FS F) : Prop :=
  exists rsp0 stack m' T', create_thread (Some p) (Some rsp0) false (kernel s) = Step (kernel s') /\
    user_space (machine s') m' T' /\ bytes_kept X R m m' /\
    (forall y, stack <= y < stack + 0x1000 -> byte_at X R m y = None /\ is_Some (byte_at X R m' y)) /\
    stack_words X Kr m' rsp0 entry (stack + 0x1000 - 8) 0.

Lemma start_main_thread_spec p entry (s : Sys FS F) m T :
  user_space (machine s) m T -> phys X m R v0 = None -> is_Some (PROCESSES (kernel s) !! p) -> 0 <= entry < 2 ^ 64 ->
  wp (start_main_thread fuel p pr entry) s (fun r s' =>
    match r with
    | None => kernel s' = kernel s /\ exists m' T', user_space (machine s') m' T'
    | Some q => q = p /\ main_thread_started p entry s m s'
    end).
Proof.
  intros U Hfree [pr' Hp] He. unfold start_main_thread, create_process_page, on_machine, zoom, wp, mbind, M_bind.
  pose proof (alloc_user_page X lo O Kr R m0 T0 HR0 HK0 Hclear fuel v0 (machine s) m T U Hv0 (proj1 Hv0u) (proj2 Hv0u)
    Hfree Hfuel0) as Ha. unfold wpe in Ha. cbn [page_options].
  destruct (alloc_mapped_frame _ _ _ _ _) as [[stack|e| |] x1]; try done.
  2: { destruct Ha as (m1 & T1 & U1 & _). split; [done|]. by exists m1, T1. }
  destruct Ha as (Hlo & Hhi & Hsm & Hwas & m1 & T1 & U1 & Hk1 & Hnew).
  unfold nonzero. rewrite (proj2 (Z.eqb_neq _ _)) by lia. cbn [machine set_machine].
  pose proof (prepare_stack_spec X lo O Kr R m0 T0 HR0 HK0 HRK HclearK fuel entry (stack + 0x1000 - 8) 0 x1 m1 T1 U1 He
    ltac:(lia) ltac:(lia) HfuelK) as Hs. unfold wpe in Hs. unfold ok. cbn [machine set_machine].
  destruct (prepare_stack fuel entry (stack + 0x1000 - 8) 0 x1) as [[rsp0|e| |] x2]; try done.
  2: { destruct Hs as (m2 & T2 & U2 & _). split; [done|]. by exists m2, T2. }
  destruct Hs as (m2 & T2 & U2 & Hk2 & Hw). unfold run_kernel. cbn [kernel set_machine].
  destruct (create_thread (Some p) (Some rsp0) false (kernel s)) as [k| |] eqn:Hc.
  - split; [done|]. exists rsp0, stack, m2, T2. split_and!; [done|done| | |done].
    + intros y b Hb. by apply Hk2, Hk1.
    + intros y Hy. split; [auto|]. destruct (Hnew y Hy) as [b Hb]. exists b. by apply Hk2.
  - unfold create_thread in Hc. cbn in Hc. by rewrite Hp in Hc.
  - unfold create_thread in Hc. cbn in Hc. by rewrite Hp in Hc.
Qed.

End main_thread.

(** ** The program *)

Lemma user_index y : user_address y -> pml4_index y <> 0 /\ pml4_index y <> 511.
Proof.
  unfold user_address, pml4_index. intros Hy. rewrite index_bits by lia. change (2 ^ 39) with 0x8000000000. lia.
Qed.

Section program.
  Context {FS F : Type} `{!FileSystem FS F} {build : Build}.
  Context {Hio : IoSpec (F * FS) FileSystemError FileSystemError (Io0 := file_io)}.
  Context (X : Z -> Z -> bool) (lo : Z) (O : others) (Kr : Z) (fuel : nat).
  Context (v0 : Z) (Hv0 : v0 `mod` 0x1000 = 0) (Hv0u : 0x8000000000 <= v0 /\ v0 + 0x1000 <= 0xFF8000000000).
  Context (Hfuel0 : v0 + 0x1000 - USER_SEARCH_START <= (Z.of_nat fuel - 1) * 0x1000).
  Context (HfuelK : KERNEL_SEARCH_END - KERNEL_SEARCH_START <= (Z.of_nat fuel - 1) * 0x1000).
  Context (Hclose : forall (h : F * FS) c p, io_at (IoSpec := Hio) h c p -> wp fh_close h (fun _ _ => True)).

(** Memory as it is when a process can be made: the shared entries of the
    kernel are there, and its addresses for data are its own. *)
Record kernel_memory (s : Machine) (m : Z -> Z) (T : gmap Z nat) : Prop := {
  km_inv : pinv X lo (Some Kr) O s m T;
  km_root : T !! Kr = Some 4%nat;
  km_first : present (entry m Kr 0) = true /\ 0 <= entry m Kr 0 < 2 ^ 64;
  km_last : present (entry m Kr 511) = true /\ 0 <= entry m Kr 511 < 2 ^ 64;
  km_clear : forall y, KERNEL_SEARCH_START <= y < KERNEL_SEARCH_END -> clear_path X m Kr (indices y)
}.

(** A segment of the file [c] in user space and not on the page [v0]. *)
Definition loadable (c : list Z) (p : ElfProgram) : Prop :=
  program_type p = 1 -> program_fits p /\ elf_valid v0 (p_vaddr p) (p_memsz p) /\
    p_offset p + p_filesz p <= Z.of_nat (length c).

Definition program_started (c : list Z) (entry : Z) (ps : list ElfProgram) (s : Sys FS F) m (T : gmap Z nat) (p : Z)
    (s' : Sys FS F) : Prop :=
  p = PROCESS_ID_GENERATOR (kernel s) + 1 /\
  exists R rsp0 stack m' T', let X' := with_shared X R in
    create_thread (Some p) (Some rsp0) false (create_process R (kernel s)) = Step (kernel s') /\
    pinv X' lo (Some Kr) O (machine s') m' T' /\
    (forall y b, image c ps (fun _ => None) y = Some b -> byte_at X' R m' y = Some b) /\
    (forall y, stack <= y < stack + 0x1000 -> image c ps (fun _ => None) y = None /\ is_Some (byte_at X' R m' y)) /\
    stack_words X' Kr m' rsp0 entry (stack + 0x1000 - 8) 0 /\
    (forall r a, T !! r = Some 4%nat -> r <> Kr -> phys X' m' r a = phys X m r a).

Definition not_started (s s' : Sys FS F) : Prop :=
  (kernel s' = kernel s \/ exists R, kernel s' = create_process R (kernel s)) /\
  exists X' m' T', pinv X' lo (Some Kr) O (machine s') m' T'.

(** The address space of a new process. *)
Lemma new_space s m T R m1 (s1 : Machine) :
  kernel_memory s m T -> new_table Kr O m T R m1 -> table_ok R -> pinv (with_shared X R) lo (Some Kr) O s1 m1 (<[R := 4%nat]> T) ->
  let T0 := <[R := 4%nat]> T in
  R <> Kr /\ T0 !! R = Some 4%nat /\ T0 !! Kr = Some 4%nat /\
  (forall y, user_address y -> clear_path (with_shared X R) m1 R (indices y)) /\
  (forall y, KERNEL_SEARCH_START <= y < KERNEL_SEARCH_END -> clear_path (with_shared X R) m1 Kr (indices y)) /\
  (forall y, user_address y -> phys (with_shared X R) m1 R y = None) /\
  user_space (with_shared X R) lo O Kr R m1 T0 s1 m1 T0 /\
  forall r a, T !! r = Some 4%nat -> phys (with_shared X R) m1 r a = phys X m r a.
Proof.
  intros [(_ & F0 & _) HKr [P0 _] [P511 _] Hck] N Hok I. cbv zeta. pose proof (nt_fresh _ _ _ _ _ _ N) as HR.
  assert (R <> Kr) as Hne by congruence.
  assert (forall y, user_address y -> phys (with_shared X R) m1 R y = None /\ clear_path (with_shared X R) m1 R (indices y)) as Hu.
  { intros y Hy. destruct (user_index y Hy). by eapply (made_user X Kr O m T R m1). }
  split_and!; [done|by rewrite lookup_insert_eq|by rewrite lookup_insert_ne|by apply Hu| |by apply Hu| |].
  - intros y Hy. eapply (made_clear X Kr O m T R m1); try done; [apply indices_ok|by apply Hck].
  - split; try done; [|by intros r js]. intros y x Hy Hx. destruct (Hu y Hy). congruence.
  - intros r a Hr. by eapply (made_phys X Kr O m T R m1).
Qed.

Lemma close_spec {E} f (s : Sys FS F) c pos (Q : option unit -> F * Sys FS F -> Prop) :
  io_at (IoSpec := Hio) (f, file_system s) c pos ->
  (forall f' x, Q (Some tt) (f', set_files (files s) x s)) -> wp (E := E) (ok (on_file fh_close)) (f, s) Q.
Proof.
  intros Hat HQ. apply wpe_ok, wpe_wp. unfold on_file. apply wp_zoom. cbn [fst snd].
  eapply wp_mono; [by eapply Hclose|]. intros [] [f' x] _. apply HQ.
Qed.

Lemma close_and_fail_spec f (s : Sys FS F) c pos (Q : option Z -> F * Sys FS F -> Prop) :
  io_at (IoSpec := Hio) (f, file_system s) c pos ->
  (forall f' x, Q None (f', set_files (files s) x s)) -> wp close_and_fail (f, s) Q.
Proof.
  intros Hat HQ. unfold close_and_fail. apply wp_bind. eapply close_spec; [done|]. intros f' x. by apply wp_ret.
Qed.

Lemma image_none c ps (mu : Z -> option Z) y b : image c ps (fun _ => None) y = Some b -> image c ps mu y = Some b.
Proof. by apply image_mono. Qed.

(** The segments are in the address space of the process. *)
Lemma load_into_spec (pr : Process) m0 T0 f (s : Sys FS F) c pos entry ps m T
    (X' := with_shared X (page_table pr)) (space := user_space X' lo O Kr (page_table pr) m0 T0) :
  T0 !! page_table pr = Some 4%nat -> T0 !! Kr = Some 4%nat ->
  (forall y, user_address y -> clear_path X' m0 (page_table pr) (indices y)) ->
  io_at (IoSpec := Hio) (f, file_system s) c pos -> Forall (loadable c) ps ->
  space (machine s) m T -> phys X' m (page_table pr) v0 = None ->
  wpe (load_into fuel pr (elf_of entry ps)) (f, s)
    (fun _ o => kernel o.2 = kernel s /\ (exists pos', io_at (IoSpec := Hio) (o.1, file_system o.2) c pos') /\
       exists m' T', space (machine o.2) m' T' /\ phys X' m' (page_table pr) v0 = None /\
       forall y b, image c ps (fun _ => None) y = Some b -> byte_at X' (page_table pr) m' y = Some b)
    (fun _ o => kernel o.2 = kernel s /\ (exists pos', io_at (IoSpec := Hio) (o.1, file_system o.2) c pos') /\
       exists m' T', space (machine o.2) m' T').
Proof.
  intros HR0 HK0 Hc Hat Hps U Hf. assert (user_address v0) as Hu by (unfold user_address; lia).
  unfold load_into. apply wpe_zoom. cbn [fst snd].
  pose (laws := elf_loader_laws X' lo O Kr m0 T0 fuel pr s HR0 HK0 Hc v0 Hv0 Hu).
  eapply wpe_mono; [apply (load_run (LoaderSpec0 := laws) (IoSpec0 := Hio) c (elf_of entry ps) (f, file_system s) ([], s) pos Hat)| |].
  - split; [by destruct s|]. exists m, T. split_and!; [done| |done]. intros a n Hin. by apply elem_of_nil in Hin.
  - eapply Forall_impl; [done|]. intros p Hp. exact Hp.
  - intros [] [[f' x'] [pages s']] ((Hs & m' & T' & U' & _ & Hf') & [pos' Hat'] & Him). cbn [fst snd] in *.
    split_and!; [by rewrite Hs|by exists pos'|]. exists m', T'. split_and!; [done|done|].
    intros y b Hy. rewrite <-(elf_mem_model X' lo O Kr m0 T0 pr (pages, s') m' T' y U').
    apply Him. eapply image_none. done.
  - intros e [[f' x'] [pages s']] (e' & -> & (Hs & m' & T' & U' & _) & [pos' Hat']). cbn [fst snd] in *.
    split_and!; [by rewrite Hs|by exists pos'|]. by exists m', T'.
Qed.

Lemma create_from_file_spec f (s : Sys FS F) c pos entry offset ps m T :
  io_at (IoSpec := Hio) (f, file_system s) c pos -> elf_bytes c entry offset ps -> Forall (loadable c) ps ->
  kernel_memory (machine s) m T ->
  wp (create_from_file fuel) (f, s) (fun r o =>
    match r with
    | Some p => program_started c entry ps s m T p o.2
    | None => not_started s o.2
    end).
Proof.
  intros Hat He Hps HM. pose proof HM as [I HKr [P0 B0] [P511 B511] Hck]. unfold create_from_file.
  apply wp_bind. unfold on_rest, on_machine. apply wp_zoom, wp_zoom. cbn [snd fst].
  eapply (alloc_user_page_table_spec X lo Kr O _ m T); try done.
  { intros s1 I1. eapply close_and_fail_spec; [done|]. intros f' x. split; [by left|]. by exists X, m, T. }
  intros R s1 m1 N Hok I1.
  destruct (new_space (machine s) m T R m1 s1 HM N Hok I1) as (HRK & HR0 & HK0 & Hc & HcK & Hnone & U1 & Hph).
  set (T0 := <[R := 4%nat]> T) in *. set (X' := with_shared X R) in *.
  set (pr := mkProcess ∅ R 0 false). set (p := PROCESS_ID_GENERATOR (kernel s) + 1).
  set (s2 := set_kernel (create_process R (kernel s)) (set_machine s1 s)).
  apply wp_bind, wp_zoom. cbn [snd fst]. apply (wp_intro _ _ (p, pr) s2); [done|].
  apply wp_bind, wpe_ok, wpe_wp. unfold on_file. apply wp_zoom. cbn [fst snd].
  eapply wp_mono; [by eapply from_io_run|]. intros e [f1 x1] [-> [pos1 Hat1]]. cbn [fst snd].
  set (s3 := set_files (files s2) x1 s2).
  assert (user_address v0) as Hu by (unfold user_address; lia).
  apply wp_bind, wpe_ok.
  eapply wpe_mono; [apply (load_into_spec pr m1 T0 f1 s3 c pos1 entry ps m1 T0 HR0 HK0 Hc Hat1 Hps U1 (Hnone v0 Hu))| |].
  2: { intros _ [f2 s4] (Hk & [pos2 Hat2] & m2 & T2 & U2). cbn [fst snd] in *. eapply close_and_fail_spec; [done|].
       intros f3 x3. split; [right; by exists R|]. exists X', m2, T2. apply U2. }
  intros [] [f2 s4] (Hk & [pos2 Hat2] & m2 & T2 & U2 & Hf2 & Him). cbn [fst snd] in *.
  apply wp_bind. eapply close_spec; [done|]. intros f3 x3. apply wp_zoom. cbn [snd fst].
  eapply wp_mono; [apply (start_main_thread_spec X' lo O Kr m1 T0 fuel pr HR0 HK0 HRK Hc HcK HfuelK v0 Hv0 Hv0u Hfuel0 p entry _ m2 T2); try done|].
  { change (is_Some (PROCESSES (kernel s4) !! p)). rewrite Hk. cbn. rewrite lookup_insert_eq. by eexists. }
  { apply He. }
  intros [q|] s5.
  - intros (-> & rsp0 & stack & m5 & T5 & Hc5 & U5 & Hk5 & Hst & Hw). cbn [kernel set_files] in Hc5. rewrite Hk in Hc5.
    split; [done|]. exists R, rsp0, stack, m5, T5. cbv zeta. split_and!; [done|apply U5|auto| |done|].
    + intros y Hy. destruct (Hst y Hy) as [Hn Hs]. split; [|done].
      destruct (image c ps (fun _ => None) y) as [b|] eqn:Hb; [|done]. apply Him in Hb. discriminate (eq_trans (eq_sym Hn) Hb).
    + intros r a Hr Hne. rewrite (us_others _ _ _ _ _ _ _ _ _ _ U5); [by apply Hph| | |done].
      * unfold T0. rewrite lookup_insert_ne; [done|]. intros ->. by rewrite (nt_fresh _ _ _ _ _ _ N) in Hr.
      * intros ->. change (T !! R = Some 4%nat) in Hr. by rewrite (nt_fresh _ _ _ _ _ _ N) in Hr.
  - intros (Hk5 & m5 & T5 & U5). split; [right; exists R; by rewrite Hk5|]. exists X', m5, T5. apply U5.
Qed.

Lemma create_user_process_run exe path f x (s : Sys FS F) c pos entry offset ps m T :
  PathImpl.from_bytes exe = Ok path -> fs_open_file path (file_system s) = (Ok f, x) ->
  io_at (IoSpec := Hio) (f, x) c pos -> elf_bytes c entry offset ps -> Forall (loadable c) ps ->
  kernel_memory (machine s) m T ->
  wp (create_user_process fuel exe) s (fun r s' =>
    match r with
    | Some p => program_started c entry ps s m T p s'
    | None => not_started s s'
    end).
Proof.
  intros Hpath Hopen Hat He Hps HM. unfold create_user_process, wp. rewrite Hpath, Hopen.
  pose proof (create_from_file_spec f (set_files (files s) x s) c pos entry offset ps m T Hat He Hps HM) as Hc.
  unfold wp in Hc. destruct (create_from_file fuel _) as [[[p|]| | |] [f' s']]; done.
Qed.

(** C15: From a file to a running program. On a file that holds an executable
    whose segments lie in the file and in user space and leave the page [v0]
    alone, [create_user_process] comes to an end. When it returns a process,
    this is the next process, with a page table of its own in which the image
    of the file is mapped, with a stack of a page that is not part of the image,
    and with a ready thread on whose stack for traps the entry point, the stack
    and the argument 0 are, as [user_thread_entry] takes them; the translations
    of every other process and all protected memory are as before. When it
    returns nothing, no thread has been made, and the memory is in order. *)
Theorem create_user_process_starts exe path f x (s : Sys FS F) c pos entry offset ps m T :
  PathImpl.from_bytes exe = Ok path -> fs_open_file path (file_system s) = (Ok f, x) ->
  io_at (IoSpec := Hio) (f, x) c pos -> elf_bytes c entry offset ps -> Forall (loadable c) ps ->
  kernel_memory (machine s) m T ->
  wp (create_user_process fuel exe) s (fun r s' =>
    match r with
    | Some p => program_started c entry ps s m T p s'
    | None => not_started s s'
    end).
Proof. apply create_user_process_run. Qed.

End program.

(** ** A run *)

Module Runs.

(** A file system with one file: its bytes, and the position of a handle. *)
Definition one_file : FileSystem (list Z) Z := {|
  fs_create_file _ := throw FileExists;
  fs_open_file _ := mret 0;
  fh_read buf := fun st =>
    let n := Z.of_nat (length buf) `min` (Z.of_nat (length st.2) - st.1) in
    (Ok (n, slice (Z.to_nat st.1) (Z.to_nat n) st.2 ++ drop (Z.to_nat n) buf), (st.1 + n, st.2));
  fh_write _ := throw OperationNotSupport;
  fh_get_pointer := gets fst;
  fh_move_pointer q := modify (fun st => (q `min` Z.of_nat (length st.2), st.2));
  fh_close := mret tt
|}.

Definition one_file_laws : IoSpec (Z * list Z) FileSystemError FileSystemError (Io0 := file_io (FileSystem0 := one_file)).
Proof.
  refine {| io_at st c p := st.2 = c /\ st.1 = p /\ 0 <= p <= Z.of_nat (length c) |}.
  - by intros s c p (_ & _ & H).
  - intros [i d] c p q (<- & <- & H) Hq. cbn in *. unfold wp. cbn. split_and!; [done|done|lia|lia].
  - intros [i d] c p buf (<- & <- & H). unfold wp. cbn in *. split_and!; try done; [lia..|]. intros Hz.
    destruct buf; [by left|]. right. cbn in Hz. lia.
Defined.

(** The kernel's top table and a table for its addresses. *)
Definition Kr : Z := 0x408000.
Definition D : Z := 0x409000.
Definition X (p i : Z) : bool := (p =? Kr) && (i =? 0).
Definition ram0 : Z -> Z := put (put (fun _ => 0) (Kr + 0 * 8) 0x1003) (Kr + 511 * 8) 0x409003.
Definition booting : Machine :=
  mkMachine ram0 0 (Some Kr) (Some 0) None
    [mkMemoryRegion 0 0x9f000 1; mkMemoryRegion 0x100000 0x700000 1] (Some Kr) None.
Definition machine1 : Machine := snd (alloc_frame (E := Empty_set) booting).
Definition machine2 : Machine := snd (alloc_frame (E := Empty_set) machine1).
Definition tables : gmap Z nat := {[Kr := 4%nat; D := 3%nat]}.

Lemma booting_booted : booted booting Kr.
Proof.
  unfold booted. split_conj; [by eexists| |done..].
  split; [repeat constructor; vm_compute; try done; discriminate|].
  repeat constructor. vm_compute. discriminate.
Qed.

Lemma machine2_reached : frames_reached booting machine2 ({[D]} ∪ ({[Kr]} ∪ ∅)).
Proof.
  apply (fr_alloc booting machine1).
  - apply (fr_alloc booting booting); [constructor|]. apply Boot.run_state. vm_compute. reflexivity.
  - apply Boot.run_state. vm_compute. reflexivity.
Qed.

Lemma table_frames : table_ok Kr /\ table_ok D.
Proof. split; vm_compute; split_conj; done || discriminate. Qed.

Lemma entries p i : (p = Kr \/ p = D) -> idx_ok i ->
  entry ram0 p i = if decide (p = Kr /\ i = 511) then 0x409003 else if decide (p = Kr /\ i = 0) then 0x1003 else 0.
Proof.
  intros Hp Hi. assert (table_ok p) as Hok by (destruct Hp as [-> | ->]; apply table_frames).
  assert (idx_ok 0 /\ idx_ok 511) as [H0 H511] by (unfold idx_ok; lia). unfold ram0.
  case_decide as H1.
  { destruct H1 as [-> ->]. apply entry_put. lia. }
  rewrite entry_put_ne; [|apply table_frames|done|done|done|intros [= -> ->]; by apply H1].
  case_decide as H2.
  { destruct H2 as [-> ->]. apply entry_put. lia. }
  rewrite entry_put_ne; [|apply table_frames|done|done|done|intros [= -> ->]; by apply H2]. done.
Qed.

Lemma two_tables_inv p l : tables !! p = Some l -> p = Kr /\ l = 4%nat \/ p = D /\ l = 3%nat.
Proof. unfold tables. intros [[<- <-]|[_ [<- <-]%lookup_singleton_Some]]%lookup_insert_Some; auto. Qed.

Lemma only_link p l i : tables !! p = Some (S l) -> idx_ok i -> linked X ram0 p i = true -> p = Kr /\ i = 511.
Proof.
  intros Hp Hi Hl. unfold linked in Hl. rewrite entries in Hl; [|destruct (two_tables_inv _ _ Hp) as [[-> _]|[-> _]]; auto|done].
  case_decide as H1; [done|]. exfalso. case_decide as H2; [by destruct H2 as [-> ->]|done].
Qed.

Definition nobody : others := mkOthers ∅ ∅ (fun _ => 0).

Lemma machine2_pinv : pinv X Kr (Some Kr) nobody machine2 ram0 tables.
Proof.
  destruct (frames_inv _ _ _ _ booting_booted machine2_reached) as [fl I].
  assert (entry ram0 Kr 511 = 0x409003) as E511 by (vm_compute; reflexivity).
  split; [|split].
  - split; [|split; [|by vm_compute]].
    + exists fl. cbn [o_frames nobody]. replace (dom tables ∪ ∅) with ({[D]} ∪ ({[Kr]} ∪ ∅) : gset Z); [done|].
      unfold tables. rewrite dom_insert_L, dom_singleton_L. set_solver.
    + done.
  - split.
    + intros p l [[-> _]|[-> _]]%two_tables_inv; apply table_frames.
    + intros p l [[_ ->]|[_ ->]]%two_tables_inv; lia.
    + intros p l i Hp Hi Hl. destruct (only_link p l i Hp Hi Hl) as [-> ->]. rewrite E511.
      destruct (two_tables_inv _ _ Hp) as [[_ [= ->]]|[? _]]; [reflexivity|done].
    + intros p l i q k j Hp Hq Hi Hj Hl Hk _. destruct (only_link p l i Hp Hi Hl), (only_link q k j Hq Hj Hk). by subst.
    + intros p i Hx. apply andb_true_iff in Hx as [->%Z.eqb_eq ->%Z.eqb_eq].
      split_and!; [unfold idx_ok; lia|by exists 3%nat|by vm_compute].
  - split; [intros a _; apply not_elem_of_empty|]. intros a Ha. by apply elem_of_empty in Ha.
Qed.

Lemma machine2_memory : kernel_memory X Kr nobody Kr machine2 ram0 tables.
Proof.
  split; [exact machine2_pinv|done|by vm_compute|by vm_compute|].
  intros y Hy pre i suf p Heq Ht. unfold X. destruct (Z.eqb_spec p Kr) as [->|]; [|done]. cbn.
  destruct (kernel_indices y Hy) as [H4 _].
  assert (length (indices y) = 4%nat) as Hlen by done. pose proof (indices_ok y) as Hok. rewrite Heq in Hlen, Hok.
  rewrite length_app in Hlen. cbn in Hlen. apply Forall_app in Hok as [Hpre _].
  pose proof (trans_level X ram0 tables Kr (4 - length pre) pre Kr (proj1 (proj2 machine2_pinv))) as Hl.
  assert (tables !! Kr = Some (length pre + (4 - length pre))%nat) as Hk by (replace (length pre + (4 - length pre))%nat with 4%nat by lia; done).
  specialize (Hl Hk Hpre Ht). destruct pre as [|j pre].
  - cbn in Heq. injection Heq as Hi _. rewrite <-Hi, H4. done.
  - rewrite Hk in Hl. injection Hl. cbn in *. lia.
Qed.

(** No process yet, and the file is the only one. *)
Definition sys : Sys (list Z) Z :=
  mkSys machine2 (mkKernel ∅ ∅ [] [] 3 ∅ 1 (mkCpu 3 2 1 0 0 Kr) ∅ [] []) ∅ ∅ Elf.Runs.elf [] [].

Lemma create_user_process_starts_witness :
  wp (create_user_process (FileSystem0 := one_file) (Z.to_nat (2 ^ 40)) [0x2f; 0x61]) sys (fun r s' =>
    match r with
    | Some p => p = 2 /\ exists R m', byte_at (with_shared X R) R m' 0x8000001010 = Some 0x90
    | None => True
    end).
Proof.
  eapply wp_mono; [eapply (create_user_process_starts (Hio := one_file_laws) X Kr nobody Kr (Z.to_nat (2 ^ 40)) 0x8000000000)
    with (f := 0) (x := Elf.Runs.elf) (c := Elf.Runs.elf) (pos := 0) (offset := 64) (ps := [Elf.Runs.code])|].
  - reflexivity.
  - vm_compute. split; discriminate.
  - rewrite Z2Nat.id by discriminate. vm_compute. discriminate.
  - rewrite Z2Nat.id by discriminate. vm_compute. discriminate.
  - intros h c p _. unfold wp. cbn. exact Logic.I.
  - reflexivity.
  - reflexivity.
  - cbn. split_and!; done.
  - exact Elf.Runs.elf_file.
  - constructor; [|constructor]. intros _. split; [split; done|]. split; [|done].
    split_and!; [done|done|done|]. intros y Hy. cbn in Hy. lia.
  - exact machine2_memory.
  - intros [p|] s' Hr; [|exact Logic.I]. destruct Hr as (Hp & R & rsp0 & stack & m' & T' & _ & _ & Him & _).
    split; [exact Hp|]. exists R, m'. apply Him. reflexivity.
Defined.

End Runs.
