(* ===== verification/CreateFat32.v ===== *)
(** * Programs on a FAT32 volume

    The file handles of a FAT32 volume keep the laws of files that loading a
    program relies on, so that a program on the disk is started as
    CreateProcess.v says. *)
From S2P Require Import Prelude Path Device Fat32Types Fat32Name Fat32Format Fat32Table Fat32Dir Fat32Fs Fat32Handle Physics PhysicsSpec Page PageForest PageSpec PageUnmap PageAlloc PageAccess KernelHeap UserTable UserSpace Thread Elf Process ElfLoader Syscall SyscallFat32 CreateProcess.

Section fat32.
  Context {D : Type} `{BlockDevice D, !BlockDeviceSpec D} (fuel : nat).

#[local] Instance disk : FileSystem (Fat32Inner D) Fat32FileHandle := fat32_files fuel.

(** An open handle on a chain of clusters: the file is as many of their bytes
    as its size says. *)
Definition fat32_at (hs : Fat32FileHandle * Fat32Inner D) (c : list Z) (p : Z) : Prop :=
  exists l, fat_ok hs.2 /\ open_on hs.2 hs.1 l /\ (length l < fuel)%nat /\
    c = take (Z.to_nat (file_size (short (metadata hs.1)))) (file_data hs.2 l) /\ p = pointer hs.1.

Lemma fat32_at_length hs c p : fat32_at hs c p -> Z.of_nat (length c) = file_size (short (metadata hs.1)).
Proof.
  intros (l & Hok & Hopen & _ & -> & _). destruct Hopen as [_ _ Hch _ Hp Hu Hroom].
  rewrite length_take, (length_file_data hs.2 l Hok (chain_clusters _ _ _ Hch)). lia.
Qed.

Lemma open_on_pointer s h l q :
  open_on s h l -> 0 <= q <= file_size (short (metadata h)) -> open_on s (set_pointer q h) l.
Proof. intros [H1 H2 H3 H4 H5 H6 H7] Hq. by split. Qed.

Lemma fat32_seek hs c p q :
  fat32_at hs c p -> 0 <= q ->
  wp (fh_move_pointer q) hs (fun _ hs' => fat32_at hs' c (q `min` Z.of_nat (length c))).
Proof.
  intros Hat Hq. rewrite (fat32_at_length _ _ _ Hat). destruct hs as [h s].
  destruct Hat as (l & Hok & Hopen & Hf & -> & ->). cbn [fst snd] in *. pose proof Hopen as [Hc _ _ _ Hp _ _].
  unfold fh_move_pointer, disk, fat32_files, move_pointer, check_open, wp, mbind, M_bind, gets. cbn [fst]. rewrite Hc.
  exists l. cbn [fst snd]. split_and!; [done| |done|done|done]. apply open_on_pointer; [done|lia].
Qed.

Lemma fat32_read hs c p buf :
  fat32_at hs c p ->
  wp (fh_read buf) hs (fun r hs' =>
    fat32_at hs' c (p + r.1) /\ 0 <= r.1 <= Z.of_nat (length buf) /\
    r.2 = slice (Z.to_nat p) (Z.to_nat r.1) c ++ drop (Z.to_nat r.1) buf /\
    (r.1 = 0 -> buf = [] \/ p = Z.of_nat (length c))).
Proof.
  intros Hat. rewrite (fat32_at_length _ _ _ Hat). destruct hs as [h s].
  destruct Hat as (l & Hok & Hopen & Hf & -> & ->). cbn [fst snd] in *. pose proof Hopen as [_ _ Hch _ Hp _ Hroom].
  unfold wp, fh_read, disk, fat32_files. rewrite (read_run fuel s h l buf Hok Hopen Hf). cbn [fst snd].
  set (n := _ `min` _). assert (0 <= n <= Z.of_nat (length buf) /\ n <= file_size (short (metadata h)) - pointer h) as [Hn Hn'] by lia.
  split_and!; [|lia|lia| |].
  - exists l. cbn [fst snd]. split_and!; [done| |done|done|done]. apply open_on_pointer; [done|lia].
  - f_equal. unfold slice. rewrite skipn_firstn_comm, firstn_firstn. f_equal. lia.
  - intros Hz. destruct buf; [by left|]. right. subst n. cbn [length] in Hz. lia.
Qed.

Definition fat32_io : IoSpec (Fat32FileHandle * Fat32Inner D) FileSystemError FileSystemError (Io0 := file_io).
Proof.
  unshelve econstructor; [exact fat32_at| |exact fat32_seek|exact fat32_read].
  intros hs c p Hat. rewrite (fat32_at_length _ _ _ Hat). destruct Hat as (l & _ & [_ _ _ _ Hp _ _] & _ & _ & ->). exact Hp.
Defined.

Lemma fat32_close hs c p : fat32_at hs c p -> wp fh_close hs (fun _ _ => True).
Proof.
  destruct hs as [h s]. intros (l & _ & [Hc Hi _ _ _ _ _] & _). cbn [fst] in *.
  unfold wp, fh_close, disk, fat32_files, Fat32Handle.close, check_open, upgrade, on_fs, modify_handle, mbind, M_bind, gets. cbn [fst].
  rewrite Hc. cbn. rewrite Hi. done.
Qed.

End fat32.

(** A program on a FAT32 volume. Let the path of the program lead to a handle
    of a file that holds an executable; then [create_user_process] maps the
    bytes that the clusters of the file hold. *)
Theorem fat32_program_starts {D} `{BlockDevice D, !BlockDeviceSpec D} (dfuel : nat) X lo O Kr fuel v0
    exe path f x (s : Sys (Fat32Inner D) Fat32FileHandle) c entry offset ps m T :
  v0 `mod` 0x1000 = 0 -> 0x8000000000 <= v0 /\ v0 + 0x1000 <= 0xFF8000000000 ->
  v0 + 0x1000 - USER_SEARCH_START <= (Z.of_nat fuel - 1) * 0x1000 ->
  KERNEL_SEARCH_END - KERNEL_SEARCH_START <= (Z.of_nat fuel - 1) * 0x1000 ->
  PathImpl.from_bytes exe = Ok path -> Fat32Fs.open_file dfuel path (file_system s) = (Ok f, x) ->
  fat32_at dfuel (f, x) c 0 -> elf_bytes c entry offset ps -> Forall (loadable v0 c) ps ->
  kernel_memory X lo O Kr (machine s) m T ->
  wp (create_user_process (FileSystem0 := fat32_files dfuel) fuel exe) s (fun r s' =>
    match r with
    | Some p => program_started X lo O Kr c entry ps s m T p s'
    | None => not_started lo O Kr s s'
    end).
Proof.
  intros Hv0 Hv0u Hf1 Hf2 Hpath Hopen Hat He Hps HM.
  apply (create_user_process_run (FileSystem0 := fat32_files dfuel) (Hio := fat32_io dfuel) X lo O Kr fuel v0 Hv0 Hv0u Hf1 Hf2
    (fat32_close dfuel) exe path f x s c 0 entry offset ps m T); done.
Qed.
