(* ===== verification/CosSys.v ===== *)
(** * The system call library (user/library/cos-sys)

    The functions through which programs call the kernel, joined with the
    kernel's table of handlers: a wrapper puts the number and the arguments into
    registers, the kernel looks the number up and runs the handler, and the
    wrapper turns the code into a result and takes the value from its own
    variable. The variable of a wrapper that returns a value is on the stack of
    the program, at an address that is a parameter here. A program that touches
    an address that is not mapped does not go on ([Panic]). *)
From S2P Require Import Prelude Path Device Fat32Types Idt Physics Page PageForest PageAlloc Thread Process Syscall CreateProcess.

(** ** Errors (error.rs) *)

Inductive ErrorKind : Type :=
  KSuccess | KPermissionDenied | KOutOfMemory | KBadPointer | KBadArgument | KUnknown.

(** [kind as u64] *)
Definition error_code (k : ErrorKind) : Z :=
  match k with
  | KSuccess => 0
  | KPermissionDenied => 1
  | KOutOfMemory => 2
  | KBadPointer => 3
  | KBadArgument => 4
  | KUnknown => U64_MAX
  end.

Definition from_error_code (code : Z) : ErrorKind :=
  if code =? error_code KSuccess then KSuccess
  else if code =? error_code KPermissionDenied then KPermissionDenied
  else if code =? error_code KOutOfMemory then KOutOfMemory
  else if code =? error_code KBadPointer then KBadPointer
  else if code =? error_code KBadArgument then KBadArgument
  else KUnknown.

(** [SyscallError::to_result]: the error is the number. *)
Definition to_result (error : Z) : unit + Z := if error =? 0 then inl tt else inr error.

(** ** Numbers (idx.rs) *)

Definition IDX_DEBUG_INFO : Z := 0x1F00001.
Definition IDX_DEBUG_GET_CHAR : Z := 0x1F00002.
Definition IDX_DEBUG_PUT_CHAR : Z := 0x1F00003.
Definition IDX_EXIT_PROCESS : Z := 0x100001.
Definition IDX_EXIT_THREAD : Z := 0x100002.
Definition IDX_THREAD_CURRENT : Z := 0x200001.
Definition IDX_THREAD_WAIT : Z := 0x200002.
Definition IDX_THREAD_WAKE : Z := 0x200003.
Definition IDX_THREAD_KILL : Z := 0x200004.
Definition IDX_THREAD_CREATE : Z := 0x200005.
Definition IDX_THREAD_JOIN : Z := 0x200006.
Definition IDX_THREAD_SLEEP : Z := 0x200007.
Definition IDX_MEMORY_ALLOC : Z := 0x300001.
Definition IDX_MEMORY_FREE : Z := 0x300002.
Definition IDX_PROCESS_CURRENT : Z := 0x400001.
Definition IDX_PROCESS_CREATE : Z := 0x400002.
Definition IDX_PROCESS_KILL : Z := 0x400003.
Definition IDX_PROCESS_WAIT : Z := 0x400004.
Definition IDX_FILE_CREATE : Z := 0x500001.
Definition IDX_FILE_OPEN : Z := 0x500002.
Definition IDX_FILE_READ : Z := 0x500003.
Definition IDX_FILE_WRITE : Z := 0x500004.
Definition IDX_FILE_GET_POS : Z := 0x500005.
Definition IDX_FILE_SET_POS : Z := 0x500006.
Definition IDX_FILE_CLOSE : Z := 0x500007.

Section cos_sys.
  Context {FS F : Type} `{!FileSystem FS F} {build : Build}.
  (** The bounds of the handlers, the exit codes and the sleeps that are over,
      as the handlers that wait take them. *)
  Context (room : Z) (fuel : nat) (thread_exit process_exit : Z -> option Z) (slept : Z -> bool).
  Notation SysM := (M (Sys FS F) Blocked).
  Implicit Types (s : Sys FS F).

(** ** The kernel behind a call *)

Definition never {A} : SysM A := fun s => (Err StillBlocked, s).

Definition sleep_thread_code (secs ns : Z) : SysM Z :=
  micros ← sleep_thread_micros secs ns;
  stop ← gets terminating;
  if (stop : bool) || slept micros then mret Success else never.

(** The handlers with their six arguments. *)
Definition run_handler (h : Idt.Syscall) (p1 p2 p3 p4 p5 p6 : Z) : SysM Z :=
  match h with
  | Idt.exit_process => Syscall.exit_process p1;; never
  | Idt.exit_thread => Syscall.exit_thread p1;; never
  | Idt.current_thread => Syscall.current_thread p1
  | Idt.wait_thread => o ← Syscall.wait_thread p1 p2; match o with Some code => mret code | None => never end
  | Idt.wake_thread => Syscall.wake_thread p1 p2;; mret Success
  | Idt.kill_thread => Syscall.kill_thread p1
  | Idt.create_thread => create_thread_handle fuel p1 p2 p3 p4
  | Idt.join_thread => Syscall.join_thread thread_exit p1 p2
  | Idt.sleep_thread => sleep_thread_code p1 p2
  | Idt.alloc_page => Syscall.alloc_page fuel p1 p2
  | Idt.free_page => Syscall.free_page p1 p2
  | Idt.current_process => current_process_handle p1
  | Idt.create_process => create_process_handle room fuel p1 p2 p3
  | Idt.kill_process => Syscall.kill_process p1
  | Idt.wait_process => Syscall.wait_process process_exit p1 p2
  | Idt.file_create => Syscall.create room p1 p2
  | Idt.file_open => Syscall.open room p1 p2 p3
  | Idt.file_read => Syscall.read room p1 p2 p3 p4
  | Idt.file_write => Syscall.write room p1 p2 p3 p4
  | Idt.file_get_pos => Syscall.get_pos p1 p2
  | Idt.file_set_pos => Syscall.set_pos p1 p2
  | Idt.file_close => Syscall.close p1
  | Idt.syscall_test => mret Success
  | Idt.get_char => Syscall.get_char p1
  | Idt.put_char => Syscall.put_char p1
  end.

Definition lookup_handler (id : Z) : option Idt.Syscall :=
  match Idt.binary_search fst SYSCALL_HANDLER id with
  | Some i => snd <$> SYSCALL_HANDLER !! i
  | None => None
  end.

(** What [syscall] does between its registers: a number that is not in the
    table gives [BadArgument], and a thread that has been stopped meanwhile
    does not return. *)
Definition syscall (id p1 p2 p3 p4 p5 p6 : Z) : SysM Z :=
  code ←
    match lookup_handler id with
    | Some h => run_handler h p1 p2 p3 p4 p5 p6
    | None => mret BadArgument
    end;
  stop ← gets terminating;
  if (stop : bool) then never else mret code.

(** ** The memory of the program *)

Definition at_user s (x : Z) : option Z :=
  match current_process s with
  | Some (_, pr) => phys (fun _ _ => false) (ram (machine s)) (page_table pr) x
  | None => None
  end.

Definition user_bytes s (a n : Z) : option (list Z) :=
  mapM (fun x => ram (machine s) <$> at_user s x) (seqZ a n).

(** [assume_init] of a variable of [n] bytes at [ptr]. *)
Definition take_var (ptr n : Z) : SysM Z := fun s =>
  match user_bytes s ptr n with
  | Some bs => (Ok (from_le bs), s)
  | None => (Panic, s)
  end.

Definition put_byte (ptr b : Z) : SysM unit := fun s =>
  match at_user s ptr with
  | Some x => (Ok tt, set_machine (set_ram (store (ram (machine s)) x [b]) (machine s)) s)
  | None => (Panic, s)
  end.

(** [to_result(error).map(|_| var.assume_init())] *)
Definition value_of (error ptr n : Z) : SysM (Z + Z) :=
  match to_result error with
  | inl _ => v ← take_var ptr n; mret (inl v)
  | inr e => mret (inr e)
  end.

Definition unit_of (error : Z) : SysM (unit + Z) := mret (to_result error).

(** ** Files (file.rs) *)

Definition create (path_ptr path_len : Z) : SysM (unit + Z) :=
  error ← syscall IDX_FILE_CREATE path_ptr path_len 0 0 0 0;
  unit_of error.

Definition open (path_ptr path_len handle_ptr : Z) : SysM (Z + Z) :=
  error ← syscall IDX_FILE_OPEN path_ptr path_len handle_ptr 0 0 0;
  value_of error handle_ptr 8.

Definition read (handle buffer_ptr buffer_len read_count_ptr : Z) : SysM (Z + Z) :=
  error ← syscall IDX_FILE_READ handle buffer_ptr buffer_len read_count_ptr 0 0;
  value_of error read_count_ptr 8.

Definition write (handle buffer_ptr buffer_len write_count_ptr : Z) : SysM (Z + Z) :=
  error ← syscall IDX_FILE_WRITE handle buffer_ptr buffer_len write_count_ptr 0 0;
  value_of error write_count_ptr 8.

Definition get_pos (handle pos_ptr : Z) : SysM (Z + Z) :=
  error ← syscall IDX_FILE_GET_POS handle pos_ptr 0 0 0 0;
  value_of error pos_ptr 8.

Definition set_pos (handle pos : Z) : SysM (unit + Z) :=
  error ← syscall IDX_FILE_SET_POS handle pos 0 0 0 0;
  unit_of error.

Definition close (handle : Z) : SysM (unit + Z) :=
  error ← syscall IDX_FILE_CLOSE handle 0 0 0 0 0;
  unit_of error.

(** ** Memory (memory.rs) *)

Definition alloc_page (count addr_ptr : Z) : SysM (Z + Z) :=
  error ← syscall IDX_MEMORY_ALLOC count addr_ptr 0 0 0 0;
  value_of error addr_ptr 8.

Definition free_page (ptr count : Z) : SysM (unit + Z) :=
  error ← syscall IDX_MEMORY_FREE ptr count 0 0 0 0;
  unit_of error.

(** ** Debugging (debug.rs) *)

Definition info : SysM unit := syscall IDX_DEBUG_INFO 0 0 0 0 0 0;; mret tt.

Definition get_char (char_ptr : Z) : SysM (Z + Z) :=
  error ← syscall IDX_DEBUG_GET_CHAR char_ptr 0 0 0 0 0;
  value_of error char_ptr 1.

Definition put_char (char_ptr char : Z) : SysM (unit + Z) :=
  put_byte char_ptr char;;
  error ← syscall IDX_DEBUG_PUT_CHAR char_ptr 0 0 0 0 0;
  unit_of error.

(** ** Threads and processes (multitask.rs) *)

(** [unreachable!()] follows the call. *)
Definition exit (code : Z) : SysM Empty_set := syscall IDX_EXIT_PROCESS code 0 0 0 0 0;; panic.
Definition exit_thread (code : Z) : SysM Empty_set := syscall IDX_EXIT_THREAD code 0 0 0 0 0;; panic.

Definition current_thread (thread_handle_ptr : Z) : SysM (Z + Z) :=
  error ← syscall IDX_THREAD_CURRENT thread_handle_ptr 0 0 0 0 0;
  value_of error thread_handle_ptr 8.

Definition wait_thread (addr expected : Z) : SysM (unit + Z) :=
  error ← syscall IDX_THREAD_WAIT addr expected 0 0 0 0;
  unit_of error.

Definition wake_thread (addr count : Z) : SysM (unit + Z) :=
  error ← syscall IDX_THREAD_WAKE addr count 0 0 0 0;
  unit_of error.

Definition kill_thread (thread_handle : Z) : SysM (unit + Z) :=
  error ← syscall IDX_THREAD_KILL thread_handle 0 0 0 0 0;
  unit_of error.

Definition create_thread (entry_point : Z) (stack : option Z) (params new_thread_handle_ptr : Z) : SysM (Z + Z) :=
  error ← syscall IDX_THREAD_CREATE entry_point (default 0 stack) params new_thread_handle_ptr 0 0;
  value_of error new_thread_handle_ptr 8.

Definition current_process (process_id_ptr : Z) : SysM (Z + Z) :=
  error ← syscall IDX_PROCESS_CURRENT process_id_ptr 0 0 0 0 0;
  value_of error process_id_ptr 8.

Definition create_process (exe_ptr exe_len process_id_ptr : Z) : SysM (Z + Z) :=
  error ← syscall IDX_PROCESS_CREATE exe_ptr exe_len process_id_ptr 0 0 0;
  value_of error process_id_ptr 8.

Definition kill_process (process_handle : Z) : SysM (unit + Z) :=
  error ← syscall IDX_PROCESS_KILL process_handle 0 0 0 0 0;
  unit_of error.

Definition wait_process (process_handle exit_code_ptr : Z) : SysM (Z + Z) :=
  error ← syscall IDX_PROCESS_WAIT process_handle exit_code_ptr 0 0 0 0;
  value_of error exit_code_ptr 8.

Definition join_thread (thread_handle exit_code_ptr : Z) : SysM (Z + Z) :=
  error ← syscall IDX_THREAD_JOIN thread_handle exit_code_ptr 0 0 0 0;
  value_of error exit_code_ptr 8.

Definition sleep_thread (time_in_seconds time_in_ns : Z) : SysM (unit + Z) :=
  error ← syscall IDX_THREAD_SLEEP time_in_seconds time_in_ns 0 0 0 0;
  unit_of error.

(** ** The codes *)

(** Whatever [m] returns satisfies [P]. *)
Definition returns {A} (P : A -> Prop) (m : SysM A) : Prop := forall s a s', m s = (Ok a, s') -> P a.

Definition code_ok (code : Z) : Prop := exists k, code = error_code k.

Lemma returns_bind {A B} (P : B -> Prop) (m : SysM A) (k : A -> SysM B) :
  (forall a, returns P (k a)) -> returns P (m ≫= k).
Proof.
  intros Hk s b s'. unfold mbind, M_bind. destruct (m s) as [[a| | |] s1]; try done. apply Hk.
Qed.

Lemma returns_ret {A} (P : A -> Prop) (a : A) : P a -> returns P (mret a).
Proof. by intros H s b s' [= <- _]. Qed.

Lemma returns_never {A} (P : A -> Prop) : returns P never.
Proof. by intros s a s'. Qed.

Lemma returns_or {E A} (P : Z -> Prop) code (m : M (Sys FS F) E A) (k : A -> SysM Z) :
  P code -> (forall a, returns P (k a)) -> returns P (or_return code m k).
Proof.
  intros Hc Hk s b s'. unfold or_return. destruct (m s) as [[a| | |] s1]; try done; [apply Hk|].
  by intros [= <- _].
Qed.

Lemma returns_block {A} (P : Z -> Prop) (ready : Sys FS F -> option A) (k : A -> SysM Z) :
  P Unknown -> (forall a, returns P (k a)) -> returns P (block_on ready k).
Proof.
  intros Hu Hk s b s'. unfold block_on. destruct (terminating s); [by intros [= <- _]|].
  destruct (ready s); [apply Hk|done].
Qed.

Lemma returns_with_handle (P : Z -> Prop) p handle (k : HandleObject -> SysM Z) :
  P BadArgument -> (forall h, returns P (k h)) -> returns P (with_handle p handle k).
Proof.
  intros Hb Hk. unfold with_handle. apply returns_bind. intros [h|]; [apply Hk|by apply returns_ret].
Qed.

(** A task answers with a value or a code. *)
Definition task_ok {A} : A + Z -> Prop := fun r => match r with inl _ => True | inr e => code_ok e end.

Lemma returns_task {A} (task : SysM (A + Z)) (k : A -> SysM Z) :
  returns task_ok task -> (forall a, returns code_ok (k a)) -> returns code_ok (await_task task k).
Proof.
  intros Ht Hk s b s'. unfold await_task, mbind, M_bind. destruct (task s) as [[r| | |] s1] eqn:Hr; try done.
  apply Ht in Hr. cbn. destruct (terminating s1); [intros [= <- _]; by exists KUnknown|].
  destruct r; [apply Hk|]. by intros [= <- _].
Qed.

Lemma code_success : code_ok Success.
Proof. by exists KSuccess. Qed.
Lemma code_pointer : code_ok BadPointer.
Proof. by exists KBadPointer. Qed.
Lemma code_argument : code_ok BadArgument.
Proof. by exists KBadArgument. Qed.
Lemma code_memory : code_ok OutOfMemory.
Proof. by exists KOutOfMemory. Qed.
Lemma code_unknown : code_ok Unknown.
Proof. by exists KUnknown. Qed.

#[local] Hint Resolve code_success code_pointer code_argument code_memory code_unknown returns_never : code.

(** One step into the code of a handler. *)
Ltac returns_step :=
  match goal with
  | |- returns _ (if _ then _ else _) => case_match
  | |- returns _ (match _ with _ => _ end) => case_match
  | |- returns _ (let '(_, _) := ?p in _) => destruct p
  | |- returns _ (mret _) => apply returns_ret
  | |- returns _ (with_handle _ _ _) => apply returns_with_handle; [|intros]
  | |- returns _ (or_return _ _ _) => apply returns_or; [|intros]
  | |- returns _ (block_on _ _) => apply returns_block; [|intros]
  | |- returns _ (await_task _ _) => apply returns_task; [|intros]
  | |- returns _ (_ ≫= _) => apply returns_bind; intros
  end.
Ltac returns_auto := repeat returns_step; eauto with code.

Lemma returns_file {A} h (op : M (F * FS) FileSystemError A) : returns task_ok (file_task h op).
Proof.
  intros s r s'. unfold file_task. destruct h; try (intros [= <- _]; exact code_argument).
  destruct (files s !! _); [|intros [= <- _]; exact code_unknown].
  destruct (op _) as [[a|e| |] [f1 x]]; try done; intros [= <- _]; [done|exact code_unknown].
Qed.

Lemma returns_path {A} path (op : PathBuf -> M FS FileSystemError A) : returns task_ok (path_task path op).
Proof.
  intros s r s'. unfold path_task. destruct (PathImpl.from_bytes path) as [q|e| |];
    try (intros [= <- _]; exact code_argument).
  destruct (op q _) as [[a|e| |] x]; try done; intros [= <- _]; [done|exact code_unknown].
Qed.

Lemma returns_create exe : returns task_ok (create_task fuel exe).
Proof.
  unfold create_task. case_match; [|by apply returns_ret, code_argument].
  apply returns_bind. intros [q|]; apply returns_ret; [done|exact code_unknown].
Qed.

Lemma returns_word pr ptr x : returns code_ok (give_word pr ptr x).
Proof. unfold give_word. returns_auto. Qed.

#[local] Hint Resolve returns_file returns_path returns_create returns_word : code.

Lemma returns_wait addr expected :
  returns (fun o => match o with Some code => code_ok code | None => True end) (Syscall.wait_thread (FS:=FS) (F:=F) addr expected).
Proof.
  unfold Syscall.wait_thread. case_match; [apply returns_ret, code_pointer|]. apply returns_bind. intros [p pr].
  apply returns_bind. intros t s o s'. unfold futex_wait.
  destruct (register_futex_if_match _ _ _ _ _ _) as [[[]|e| |] s1]; try done; intros [= <- _]; try done.
  - destruct (terminating s1); [exact code_unknown|exact code_success].
  - exact code_pointer.
Qed.

Lemma handler_codes h p1 p2 p3 p4 p5 p6 : returns code_ok (run_handler h p1 p2 p3 p4 p5 p6).
Proof.
  destruct h; cbn [run_handler].
  4:{ intros s code s'. unfold mbind, M_bind. destruct (Syscall.wait_thread p1 p2 s) as [[o|e| |] s1] eqn:Ho; try done.
      apply returns_wait in Ho. destruct o; [by intros [= <- _]|done]. }
  all: unfold Syscall.current_thread, Syscall.kill_thread, create_thread_handle, Syscall.join_thread, sleep_thread_code,
    Syscall.alloc_page, Syscall.free_page, current_process_handle, create_process_handle, Syscall.kill_process,
    Syscall.wait_process, Syscall.create, Syscall.open, Syscall.read, Syscall.write, Syscall.get_pos, Syscall.set_pos,
    Syscall.close, Syscall.get_char, Syscall.put_char, wait_exit; returns_auto.
Qed.
End cos_sys.
