(* ===== verification/CosSpec.v ===== *)
(** * System calls from the program's side

    What the wrappers of [CosSys.v] return: the codes, reading a file, and
    pages of memory. *)
From S2P Require Import Prelude Path Device Fat32Types Fat32Name Fat32Format Fat32Table Fat32Dir Fat32Fs Fat32Handle Idt Physics PhysicsSpec Page PageForest PageSpec PageUnmap PageAlloc PageAccess PageDemo KernelHeap UserSpace Thread Process Syscall SyscallSpec SyscallFat32 CosSys.

(** ** Numbers and codes *)

(** The number of every function of the library is that of its handler, and a
    number that is not in the kernel's table has none. *)
Theorem numbers_agree :
  lookup_handler <$> [IDX_EXIT_PROCESS; IDX_EXIT_THREAD; IDX_THREAD_CURRENT; IDX_THREAD_WAIT; IDX_THREAD_WAKE;
     IDX_THREAD_KILL; IDX_THREAD_CREATE; IDX_THREAD_JOIN; IDX_THREAD_SLEEP; IDX_MEMORY_ALLOC; IDX_MEMORY_FREE;
     IDX_PROCESS_CURRENT; IDX_PROCESS_CREATE; IDX_PROCESS_KILL; IDX_PROCESS_WAIT; IDX_FILE_CREATE; IDX_FILE_OPEN;
     IDX_FILE_READ; IDX_FILE_WRITE; IDX_FILE_GET_POS; IDX_FILE_SET_POS; IDX_FILE_CLOSE; IDX_DEBUG_INFO; IDX_DEBUG_GET_CHAR; IDX_DEBUG_PUT_CHAR] =
    Some <$> [Idt.exit_process; Idt.exit_thread; Idt.current_thread; Idt.wait_thread; Idt.wake_thread;
     Idt.kill_thread; Idt.create_thread; Idt.join_thread; Idt.sleep_thread; Idt.alloc_page; Idt.free_page;
     Idt.current_process; Idt.create_process; Idt.kill_process; Idt.wait_process; file_create; file_open;
     file_read; file_write; file_get_pos; file_set_pos; file_close; syscall_test; Idt.get_char; Idt.put_char] /\
  forall id, id ∉ SYSCALL_HANDLER.*1 -> lookup_handler id = None.
Proof.
  split; [by vm_compute|]. intros id Hid. unfold lookup_handler.
  pose proof (binary_search_spec fst SYSCALL_HANDLER id SYSCALL_HANDLER_sorted) as Hs.
  destruct (Idt.binary_search fst SYSCALL_HANDLER id) as [i|]; [|done].
  destruct Hs as (x & Hx & Hk). exfalso. apply Hid. apply list_elem_of_fmap. exists x. split; [done|].
  by eapply list_elem_of_lookup_2.
Qed.

Section codes.
  Context {FS F : Type} `{!FileSystem FS F} {build : Build}.
  Context (room : Z) (fuel : nat) (thread_exit process_exit : Z -> option Z) (slept : Z -> bool).
  Notation syscall := (syscall room fuel thread_exit process_exit slept).
  Implicit Types (s : Sys FS F).

(** C36: every code that a system call returns, whatever its number and
    arguments, is that of an [ErrorKind], which the library recovers from it;
    and a call that returns leaves a thread that may go on. *)
Theorem syscall_codes id p1 p2 p3 p4 p5 p6 s code s' :
  syscall id p1 p2 p3 p4 p5 p6 s = (Ok code, s') ->
  error_code (from_error_code code) = code /\ terminating s' = false.
Proof.
  unfold CosSys.syscall, mbind, M_bind.
  set (body := match lookup_handler id with Some h => _ | None => _ end).
  assert (returns code_ok body) as Hret.
  { subst body. destruct (lookup_handler id); [apply handler_codes|apply returns_ret, code_argument]. }
  destruct (body s) as [[c|e| |] s1] eqn:Hb; try done. apply Hret in Hb as [k ->].
  cbn. destruct (terminating s1) eqn:Ht; [done|]. intros [= <- <-]. split; [by destruct k|done].
Qed.

Lemma wp_syscall id h p1 p2 p3 p4 p5 p6 s (Q : Z -> Sys FS F -> Prop) :
  lookup_handler id = Some h ->
  wp (run_handler room fuel thread_exit process_exit slept h p1 p2 p3 p4 p5 p6) s (fun code s' => terminating s' = false /\ Q code s') ->
  wp (syscall id p1 p2 p3 p4 p5 p6) s Q.
Proof.
  intros Hh Hrun. unfold CosSys.syscall. rewrite Hh. wp_step. eapply wp_mono; [exact Hrun|].
  intros code s' [Ht HQ]. wp_step. wp_step. rewrite Ht. by wp_step.
Qed.
End codes.

(** A variable of the program, as its tables translate it. *)
Lemma take_var_ok {FS F} X lo K O R T p pr a n bs (s : Sys FS F) m :
  pinv X lo K O (machine s) m T -> Process.current_process s = Some (p, pr) -> page_table pr = R ->
  bytes_at X R m a n bs -> take_var a n s = (Ok (from_le bs), s).
Proof.
  intros ((_ & Hm & _) & _) Hcur Hpt [Hl Hb]. unfold take_var.
  assert (user_bytes s a n = Some bs) as ->; [|done].
  unfold user_bytes. apply mapM_Some_2. rewrite <-Hl. apply Forall2_lookup. intros k.
  destruct (decide (k < length bs)%nat) as [Hk|Hk].
  - rewrite lookup_seqZ_lt by lia. destruct (lookup_lt_is_Some_2 bs k Hk) as [b Hbk]. rewrite Hbk. constructor.
    destruct (Hb (Z.of_nat k) ltac:(lia)) as (x & Hx & Hmx). unfold at_user. rewrite Hcur, Hpt.
    rewrite (phys_meq _ _ _ _ _ Hm), (phys_all X _ _ _ _ Hx). cbn. rewrite (Hm x), Hmx.
    unfold nth_byte. by rewrite Nat2Z.id, Hbk.
  - rewrite lookup_seqZ_ge by lia. rewrite lookup_ge_None_2 by lia. constructor.
Qed.

(** ** Reading a file *)

Section reading.
  Context {D : Type} `{BlockDevice D, !BlockDeviceSpec D} {build : Build} (fuel : nat).
  Context (X : Z -> Z -> bool) (lo : Z) (K : option Z) (O : others) (R : Z) (T : gmap Z nat).
  Context (HR : T !! R = Some 4%nat) (room : Z) (thread_exit process_exit : Z -> option Z) (slept : Z -> bool).

#[local] Instance program_volume : FileSystem (Fat32Inner D) Fat32FileHandle := fat32_files fuel.

(** C16: A program reads a file of the disk. When a thread with an open handle
    of a file on a sound FAT32 volume calls the library's [read] with a buffer
    that is mapped in user space and apart from the variable for the count,
    the call returns the number of bytes of the file from the position of the
    handle on, as far as the buffer and the file reach; the buffer then holds
    these bytes, the handle has moved behind them, and no other byte of memory,
    no handle, no thread and no sector of the volume has changed. *)
Theorem program_reads_file p pr h i f l len bp cp (s : Sys (Fat32Inner D) Fat32FileHandle) m :
  let n := len `min` (file_size (short (metadata f)) - pointer f) in
  Process.current_process s = Some (p, pr) -> page_table pr = R -> terminating s = false ->
  pinv X lo K O (machine s) m T ->
  get_process_handle h (resources_of p s) = Some (HFile i) -> files s !! i = Some f ->
  fat_ok (file_system s) -> open_on (file_system s) f l -> (length l < fuel)%nat ->
  0 <= len <= room -> is_user bp = true -> is_user (bp + len) = true -> is_user cp = true ->
  good_range X O R m bp len -> good_range X O R m cp 8 -> bp + len <= 2 ^ 47 -> cp + 8 <= 2 ^ 47 ->
  (forall j k, 0 <= j < n -> 0 <= k < 8 -> bp + j <> cp + k) ->
  wp (CosSys.read room fuel thread_exit process_exit slept h bp len cp) s (fun r s' =>
    r = inl n /\ files s' = <[i := set_pointer (pointer f + n) f]> (files s) /\
    file_system s' = file_system s /\ kernel s' = kernel s /\ resources s' = resources s /\
    exists m', pinv X lo K O (machine s') m' T /\
      bytes_at X R m' bp n (slice (Z.to_nat (pointer f)) (Z.to_nat n) (file_data (file_system s) l)) /\
      (forall y, (forall k, 0 <= k < n -> phys X m R (bp + k) <> Some y) ->
         (forall k, 0 <= k < 8 -> phys X m R (cp + k) <> Some y) -> m' y = m y)).
Proof.
  intros n Hcur Hpt Hterm I Hget Hfile Hok Hopen Hfuel Hlen U1 U2 U3 G1 G2 L1 L2 Hdis.
  unfold CosSys.read. wp_step. apply (wp_syscall _ _ _ _ _ _ file_read); [by vm_compute|].
  eapply wp_mono; [exact (fat32_read_delivers fuel X lo K O R T HR room p pr h i f l len bp cp s m Hcur Hpt Hterm I Hget Hfile
    Hok Hopen Hfuel Hlen U1 U2 U3 G1 G2 L1 L2 Hdis)|].
  fold n. intros code s' (-> & Hf & Hfs & Hk & Hres & m' & I' & B1 & B2 & Hout).
  assert (Process.current_process s' = Some (p, pr)) as Hcur' by (unfold Process.current_process; by rewrite Hk).
  split; [unfold terminating; by rewrite Hk|]. unfold value_of. cbn [to_result Success Z.eqb]. wp_step.
  eapply wp_intro; [exact (take_var_ok X lo K O R T p pr cp 8 _ s' m' I' Hcur' Hpt B2)|]. wp_step.
  assert (0 <= n < 2 ^ 64) as Hn by (pose proof Hopen as [_ _ _ _ Hp _ _]; destruct G1; subst n; lia).
  rewrite from_to_le by (cbn; lia). split_and!; try done. exists m'. done.
Qed.
End reading.

(** A call for no pages succeeds without writing the variable, so the address
    that the library returns is whatever the stack holds there. *)
Theorem alloc_no_pages {FS F} `{!FileSystem FS F} {build : Build} room fuel thread_exit process_exit slept var bs (s : Sys FS F) :
  is_user var = true -> terminating s = false -> user_bytes s var 8 = Some bs ->
  CosSys.alloc_page room fuel thread_exit process_exit slept 0 var s = (Ok (inl (from_le bs)), s).
Proof.
  intros Hu Ht Hb. unfold CosSys.alloc_page, CosSys.syscall.
  assert (lookup_handler IDX_MEMORY_ALLOC = Some Idt.alloc_page) as -> by (vm_compute; reflexivity).
  unfold run_handler, Syscall.alloc_page. rewrite Hu.
  cbn [negb Z.eqb]. unfold mbind, M_bind, mret, M_ret, gets. rewrite Ht. cbn [value_of to_result Success Z.eqb].
  unfold mbind, M_bind, take_var. by rewrite Hb.
Qed.

Module CosRun.

(** Built for release. *)
#[local] Instance release : Build := false.

#[local] Opaque demo_fs.
#[local] Instance volume : FileSystem (Fat32Inner MemoryDevice.MemoryDevice) Fat32FileHandle := fat32_files 2.

(** A number that is not in the table. *)
Lemma syscall_codes_witness : error_code (from_error_code BadArgument) = BadArgument /\ terminating Run.sys = false.
Proof.
  apply (syscall_codes 1000 2 (fun _ => None) (fun _ => None) (fun _ => true) 7 0 0 0 0 0 0 Run.sys BadArgument Run.sys).
  reflexivity.
Defined.

Lemma program_reads_file_witness :
  wp (CosSys.read 1000 2 (fun _ => None) (fun _ => None) (fun _ => true) 0 PageDemo.first_page 600 (PageDemo.first_page + 0x800)) Run.sys
    (fun r s' => r = inl 190 /\ files s' = {[0 := set_pointer 700 demo_handle]}).
Proof.
  destruct PageDemo.one_page_pinv as (m & T & I & HR & Hph).
  eapply wp_mono; [apply (program_reads_file 2 PageDemo.none 0x408000 (PML4 PageDemo.two_frames) PageDemo.free PageDemo.root T HR
    1000 (fun _ => None) (fun _ => None) (fun _ => true) 1 (mkProcess {[3]} PageDemo.root 0 false) 0 0 demo_handle [2] 600
    PageDemo.first_page (PageDemo.first_page + 0x800) Run.sys m)|].
  - reflexivity.
  - reflexivity.
  - reflexivity.
  - exact I.
  - reflexivity.
  - reflexivity.
  - apply demo_fs_run.
  - exact demo_open_on.
  - cbn. lia.
  - lia.
  - reflexivity.
  - reflexivity.
  - reflexivity.
  - apply (Runs.first_page_range m); [exact Hph|lia|lia|lia].
  - apply (Runs.first_page_range m); [exact Hph|lia|lia|lia].
  - vm_compute. discriminate.
  - vm_compute. discriminate.
  - intros j k Hj Hk. cbn in Hj. lia.
  - intros r s' (H1 & H2 & _). split; [rewrite H1; reflexivity|]. rewrite H2. reflexivity.
Defined.

End CosRun.
