(* ===== verification/UserHeap.v ===== *)
(** * The heap of a program (user/library/cos-heap)

    [SyscallMemoryProvider] takes pages with the system call for pages and
    gives them back with the other. Below it are the wrappers of the system
    call library, the kernel's table of handlers, the handlers, the page table
    of the process and the frames of memory. Together they are a provider in
    the sense of the heap, so what is proved of [RustHeap] holds for programs
    as it does for the kernel. *)
From S2P Require Import Prelude Physics PhysicsSpec Page PageForest PageSpec PageUnmap PageAlloc PageAccess Heap HeapSpec HeapRefine KernelHeap PageDemo UserTable UserSpace Thread Process Syscall SyscallSpec CreateProcess CosSys CosSpec.

(** ** The map of memory stays *)

Create HintDb keeps discriminated.

Section keeps.
  Context {E : Type}.

Definition keeps {E A} (m : M Machine E A) : Prop := forall s, MEMORY_REGION (m s).2 = MEMORY_REGION s.

Lemma keeps_bind {E' A B} (m : M Machine E' A) (k : A -> M Machine E' B) :
  keeps m -> (forall a, keeps (k a)) -> keeps (m ≫= k).
Proof.
  intros Hm Hk s. unfold mbind, M_bind. specialize (Hm s). destruct (m s) as [[a|e| |] s1]; cbn in *; try done.
  by rewrite Hk.
Qed.

Lemma keeps_err {E1 E2 A} (f : E1 -> E2) (m : M Machine E1 A) : keeps m -> keeps (map_err f m).
Proof. intros Hm s. specialize (Hm s). unfold map_err. by destruct (m s) as [[]]. Qed.

Lemma keeps_attempt {E' A} (m : M Machine E' A) : keeps m -> keeps (attempt m).
Proof. intros Hm s. specialize (Hm s). unfold attempt. by destruct (m s) as [[]]. Qed.

Lemma keeps_each {E' A B} (l : list B) (f : B -> A -> M Machine E' A) acc :
  (forall x a, keeps (f x a)) -> keeps (for_each l f acc).
Proof. intros Hf. revert acc. induction l as [|x l IH]; intros acc; [done|]. cbn. apply keeps_bind; [apply Hf|done]. Qed.

Lemma keeps_checked {E'} w x : keeps (E:=E') (checked w x).
Proof. intros s. unfold checked. by destruct (fits w x). Qed.

Lemma keeps_assert {E'} b : keeps (E:=E') (rust_assert b).
Proof. intros s. by destruct b. Qed.
End keeps.

#[local] Hint Resolve keeps_bind keeps_err keeps_attempt keeps_each keeps_checked keeps_assert : keeps.

Ltac keeps_step :=
  match goal with
  | |- keeps (_ ≫= _) => apply keeps_bind; [|intros]
  | |- keeps (if _ then _ else _) => case_match
  | |- keeps (match _ with _ => _ end) => case_match
  | |- keeps (map_err _ _) => apply keeps_err
  | |- keeps (attempt _) => apply keeps_attempt
  | |- keeps (for_each _ _ _) => apply keeps_each; intros
  | |- keeps (checked _ _) => apply keeps_checked
  | |- keeps (rust_assert _) => apply keeps_assert
  | |- keeps (mret _) => by intros ?
  | |- keeps (gets _) => by intros ?
  | |- keeps (modify _) => intros ?; reflexivity
  | |- keeps (throw _) => by intros ?
  | |- keeps diverge => by intros ?
  | |- keeps panic => by intros ?
  end.
Ltac keeps_auto := repeat keeps_step; eauto with keeps.

Section kept.
  Context {E : Type}.

Lemma keeps_window a : keeps (E:=E) (insert_temp_page_table a).
Proof. unfold insert_temp_page_table. keeps_auto. Qed.
Hint Resolve keeps_window : keeps.

Lemma keeps_read a n : keeps (E:=E) (read_memory a n).
Proof.
  assert (Hl : forall fuel a b dst, keeps (E:=E) (read_loop fuel a b dst)).
  { induction fuel as [|fuel IH]; intros; cbn [read_loop]; keeps_auto. }
  unfold read_memory. keeps_auto.
Qed.
Hint Resolve keeps_read : keeps.

Lemma keeps_write a bs : keeps (E:=E) (write_memory a bs).
Proof.
  assert (Hl : forall fuel a b src, keeps (E:=E) (write_loop fuel a b src)).
  { induction fuel as [|fuel IH]; intros; cbn [write_loop]; keeps_auto. }
  unfold write_memory. keeps_auto.
Qed.
Hint Resolve keeps_write : keeps.

Lemma keeps_zero a n : keeps (E:=E) (zero_memory a n).
Proof.
  assert (Hl : forall fuel a b, keeps (E:=E) (zero_loop fuel a b)).
  { induction fuel as [|fuel IH]; intros; cbn [zero_loop]; keeps_auto. }
  unfold zero_memory. keeps_auto.
Qed.
Hint Resolve keeps_zero : keeps.

Lemma keeps_scan first rs : keeps (E:=E) (scan_regions first rs).
Proof. induction rs as [|r rs IH]; cbn [scan_regions]; keeps_auto. Qed.
Hint Resolve keeps_scan : keeps.

Lemma keeps_alloc : keeps (E:=E) alloc_frame.
Proof. unfold alloc_frame. keeps_auto. Qed.

Lemma keeps_delloc a : keeps (E:=E) (delloc_frame a).
Proof. unfold delloc_frame. keeps_auto. Qed.
Hint Resolve keeps_alloc keeps_delloc : keeps.

Lemma keeps_entry t i : keeps (E:=E) (get_entry t i).
Proof. unfold get_entry. keeps_auto. Qed.

Lemma keeps_write_entry t i e : keeps (E:=E) (write_entry t i e).
Proof. unfold write_entry. keeps_auto. Qed.
Hint Resolve keeps_entry keeps_write_entry : keeps.

Lemma keeps_empty t : keeps (E:=E) (is_all_emptry t).
Proof. unfold is_all_emptry. induction (seqZ 0 512) as [|i l IH]; cbn [all_empty_from]; keeps_auto. Qed.
Hint Resolve keeps_empty : keeps.

Lemma keeps_mapped t v : keeps (E:=E) (get_page_table_mapped_physical t v).
Proof. unfold get_page_table_mapped_physical. keeps_auto. Qed.
Hint Resolve keeps_mapped : keeps.

Lemma keeps_table e : keeps (E:=E) (get_or_alloc e).
Proof. unfold get_or_alloc. keeps_auto. Qed.

Lemma keeps_free_opt p : keeps (E:=E) (free_opt p).
Proof. unfold free_opt. keeps_auto. Qed.

Lemma keeps_link u t i p : keeps (E:=E) (link_table u t i p).
Proof. unfold link_table. keeps_auto. Qed.

Lemma keeps_remove t v : keeps (E:=E) (remove_memory_page t v).
Proof. unfold remove_memory_page, unwrap_nonzero. keeps_auto. Qed.

Lemma keeps_find fuel hi t block start i remain : keeps (E:=E) (find_free_loop fuel hi t block start i remain).
Proof.
  revert start i remain. induction fuel as [|fuel IH]; intros; cbn [find_free_loop]; unfold unwrap_nonzero, is_page_free; keeps_auto.
Qed.
End kept.

#[local] Hint Resolve keeps_table keeps_free_opt keeps_link keeps_remove keeps_find keeps_alloc keeps_delloc
  keeps_entry keeps_write_entry keeps_mapped keeps_window : keeps.

Lemma region_free {E} t a n : keeps (E:=E) (free_mapped_frame t a n).
Proof. unfold free_mapped_frame. keeps_auto. Qed.
#[local] Hint Resolve region_free : keeps.

Lemma keeps_map v p t w x u : keeps (write_memory_page v p t w x u).
Proof. unfold write_memory_page. keeps_auto. Qed.
#[local] Hint Resolve keeps_map : keeps.

Lemma keeps_frames t v o idx : keeps (map_frames t v o idx).
Proof. induction idx as [|i idx IH]; cbn [map_frames]; keeps_auto. Qed.
#[local] Hint Resolve keeps_frames : keeps.

Lemma keeps_alloc_user fuel t size o :
  opt_user o = true -> opt_static_vaddr o = None -> keeps (alloc_mapped_frame fuel t size o).
Proof.
  intros Hu Hs. unfold alloc_mapped_frame, find_user_free_virtual_memory, find_free_virtual_memory. rewrite Hs, Hu. keeps_auto.
Qed.

Lemma keeps_write_page t a src : keeps (write_page_table_memory t a src).
Proof.
  unfold write_page_table_memory. generalize (rounds (Z.of_nat (length src))). intros fuel.
  revert a src. induction fuel as [|fuel IH]; intros; cbn [write_page_loop]; keeps_auto.
Qed.

(** ** Room in the address space *)

(** More windows than frames: one window is free. *)
Lemma pigeonhole (n : Z) (q : Z -> Z) :
  0 <= n -> (forall j, 0 <= j <= n -> 1 <= q j <= n) ->
  (forall i j, 0 <= i <= n -> 0 <= j <= n -> q i = q j -> i = j) -> False.
Proof.
  intros Hn Hr Hinj. assert (Hsub : (q <$> seqZ 0 (n + 1)) ⊆+ seqZ 1 n).
  { apply NoDup_submseteq.
    - apply NoDup_fmap_2_strong; [|apply NoDup_seqZ]. intros i j Hi%elem_of_seqZ Hj%elem_of_seqZ. apply Hinj; lia.
    - intros x (j & -> & Hj%elem_of_seqZ)%list_elem_of_fmap. apply elem_of_seqZ. specialize (Hr j). lia. }
  apply submseteq_length in Hsub. rewrite length_fmap, !length_seqZ in Hsub. lia.
Qed.

Section window.
  Context (X : Z -> Z -> bool) (m : Z -> Z) (T : gmap Z nat) (R : Z).
  Context (F : forest X m T) (HR : T !! R = Some 4%nat).

Definition window_frames (v n : Z) : list Z := omap (fun k => trans X m R (indices (v + k * 0x1000))) (seqZ 0 n).

Lemma window_free v n : window_frames v n = [] -> free_run X m R v n.
Proof.
  intros Hw k Hk. destruct (trans X m R (indices (v + k * 0x1000))) as [q|] eqn:Hq; [|done]. exfalso.
  assert (q ∈ window_frames v n) as Hin.
  { apply list_elem_of_omap. exists k. split; [apply elem_of_seqZ; lia|done]. }
  rewrite Hw in Hin. by apply elem_of_nil in Hin.
Qed.

(** When every frame of the tables is below [n] frames from the bottom of
    memory, one of [n + 1] windows from [v0] on is free. *)
Lemma free_window v0 size n :
  0 <= n -> 0 < size -> (forall p l, T !! p = Some l -> p / 0x1000 <= n) ->
  v0 `mod` 0x1000 = 0 -> (n + 1) * (size * 0x1000) <= 2 ^ 47 ->
  exists j, 0 <= j <= n /\ free_run X m R (v0 + j * (size * 0x1000)) size.
Proof.
  intros Hn Hs Hb Hv0 Hroom. set (w := fun j => v0 + j * (size * 0x1000)).
  destruct (decide (Exists (fun j => window_frames (w j) size = []) (seqZ 0 (n + 1)))) as [He|He].
  { apply Exists_exists in He as (j & Hj%elem_of_seqZ & Hw). exists j. split; [lia|]. by apply window_free. }
  exfalso. set (q := fun j => default 0 (head (window_frames (w j) size)) / 0x1000).
  assert (Hq : forall j, 0 <= j <= n -> exists k p, 0 <= k < size /\ trans X m R (indices (w j + k * 0x1000)) = Some p /\
    q j = p / 0x1000).
  { intros j Hj. destruct (window_frames (w j) size) as [|p l] eqn:Hw.
    - exfalso. apply He, Exists_exists. exists j. split; [apply elem_of_seqZ; lia|done].
    - assert (p ∈ window_frames (w j) size) as Hp by (rewrite Hw; left).
      apply list_elem_of_omap in Hp as (k & Hk%elem_of_seqZ & Ht). exists k, p. split_and!; [lia|lia|done|].
      unfold q. by rewrite Hw. }
  assert (Hlev : forall y p, trans X m R (indices y) = Some p -> T !! p = Some 0%nat).
  { intros y p Ht. apply (trans_level X m T R 0%nat (indices y)); [done|done|apply indices_ok|done]. }
  apply (pigeonhole n q Hn).
  - intros j Hj. destruct (Hq j Hj) as (k & p & Hk & Ht & ->). apply Hlev in Ht.
    pose proof (f_frame _ _ _ F p _ Ht) as (H1 & H2 & _). specialize (Hb p _ Ht). lia.
  - intros i j Hi Hj Heq. destruct (Hq i Hi) as (k & p & Hk & Ht & Hp), (Hq j Hj) as (k' & p' & Hk' & Ht' & Hp').
    pose proof (f_frame _ _ _ F p _ (Hlev _ _ Ht)) as (_ & M1 & _).
    pose proof (f_frame _ _ _ F p' _ (Hlev _ _ Ht')) as (_ & M2 & _).
    assert (p = p') as <- by lia.
    assert (w i + k * 0x1000 = w j + k' * 0x1000) as Hw.
    { eapply (phys_inj X R T HR m _ _ p F); [unfold phys; rewrite Ht; cbn; f_equal; subst w; cbn; lia
        |unfold phys; rewrite Ht'; cbn; f_equal; subst w; cbn; lia|]. subst w. cbn. nia. }
    subst w. cbn in Hw. nia.
Qed.
End window.

(** ** The provider *)

Section provider.
  Context {FS F : Type} `{!FileSystem FS F} {build : Build}.
  Context (room : Z) (fuel : nat) (thread_exit process_exit : Z -> option Z) (slept : Z -> bool).
  (** Where the stack of the program has the variable of [alloc_page]. *)
  Context (var : Z).
  Notation PM := (M (Sys FS F) Empty_set).
  Implicit Types (s : Sys FS F).

(** A call that never returns. *)
Definition running {A} (m : M (Sys FS F) Blocked A) : PM A := fun s =>
  match m s with
  | (Ok a, s) => (Ok a, s)
  | (Err _, s) => (Diverge, s)
  | (Panic, s) => (Panic, s)
  | (Diverge, s) => (Diverge, s)
  end.

Definition syscall_allocate_pages (size : Z) : PM (option Z) :=
  r ← running (CosSys.alloc_page room fuel thread_exit process_exit slept (size / 0x1000) var);
  mret (match r with inl a => Some a | inr _ => None end).

Definition syscall_deallocate_pages (address size : Z) : PM unit :=
  r ← running (CosSys.free_page room fuel thread_exit process_exit slept address (size / 0x1000));
  match r with inl _ => mret tt | inr _ => panic end.

(** A word of the program's memory; addresses from 2^47 on are not canonical. *)
Definition program_peek (x : Z) s : option Z := if x <? 2 ^ 47 then from_le <$> user_bytes s x 8 else None.

Definition program_poke (x v : Z) s : option (Sys FS F) :=
  if x <? 2 ^ 47
  then (fun a => set_machine (set_ram (put (ram (machine s)) a v) (machine s)) s) <$> at_user s x
  else None.

#[local] Instance program_provider : MemoryPageProvider (Sys FS F) := {
  allocate_pages := syscall_allocate_pages;
  deallocate_pages := syscall_deallocate_pages;
  peek := program_peek;
  poke := program_poke;
}.

(** ** The invariant *)

Section laws.
  Context (X : Z -> Z -> bool) (lo : Z) (O : others) (Kr R : Z) (m0 : Z -> Z) (T0 : gmap Z nat) (p : Z) (pr : Process).
  Context (HR0 : T0 !! R = Some 4%nat) (HK0 : T0 !! Kr = Some 4%nat) (HRK : R <> Kr).
  Context (Hclear : forall y, user_address y -> clear_path X m0 R (indices y)).
  Context (Hvar : 0x8000000000 <= var /\ var + 8 <= 2 ^ 47) (Hfuel : 2 ^ 35 < Z.of_nat fuel).
  Notation user_space := (user_space X lo O Kr R m0 T0).
  Notation byte_at := (byte_at X R).
  Notation phys := (phys X).
  Implicit Types (m : Z -> Z) (T : gmap Z nat) (out : gmap Z Z).

(** The program runs in the address space [R], on a machine with less than 4G
    of memory, and its variable is mapped. *)
Record program_ok s m T : Prop := {
  po_space : user_space (machine s) m T;
  po_current : Process.current_process s = Some (p, pr);
  po_table : page_table pr = R;
  po_running : terminating s = false;
  po_memory : Forall (fun r => region_end r <= 2 ^ 32) (MEMORY_REGION (machine s));
  po_var : forall y, var <= y < var + 8 -> is_Some (byte_at m y);
}.

Definition program_range m (a n : Z) : Prop :=
  0x8000000000 <= a /\ a + n <= 2 ^ 47 /\ a `mod` 0x1000 = 0 /\ 0 < n /\ n `mod` 0x1000 = 0 /\
  (var + 8 <= a \/ a + n <= var) /\ forall y, a <= y < a + n -> is_Some (byte_at m y).

Definition program_ranges m out : Prop :=
  (forall a n, out !! a = Some n -> program_range m a n) /\
  forall a n b k, out !! a = Some n -> out !! b = Some k -> a <> b -> a + n <= b \/ b + k <= a.

Definition program_inv s out : Prop := exists m T, program_ok s m T /\ program_ranges m out.

(** ** Words *)

Lemma at_byte s m T y b : program_ok s m T -> byte_at m y = Some b -> ram (machine s) <$> at_user s y = Some b.
Proof.
  intros [U Hcur Hpt _ _ _]. pose proof (us_inv _ _ _ _ _ _ _ _ _ _ U) as ((_ & Hm & _) & _).
  unfold UserSpace.byte_at. case_decide; [|done]. destruct (phys m R y) as [x|] eqn:Hx; [|done]. cbn. intros [= <-].
  unfold at_user. rewrite Hcur, Hpt, (phys_meq _ _ _ _ _ Hm), (phys_all X _ _ _ _ Hx). cbn. by rewrite (Hm x).
Qed.

Lemma peek_bytes s m T x :
  program_ok s m T -> x < 2 ^ 47 -> (forall y, x <= y < x + 8 -> is_Some (byte_at m y)) ->
  program_peek x s = from_le <$> mapM (byte_at m) (seqZ x 8).
Proof.
  intros P Hx Hb. unfold program_peek. rewrite (proj2 (Z.ltb_lt x _)) by lia. f_equal. unfold user_bytes.
  apply Forall_mapM_ext, Forall_forall. intros y Hy%elem_of_seqZ. destruct (Hb y ltac:(lia)) as [b Hby].
  rewrite Hby. by eapply at_byte.
Qed.

Lemma inside_bytes m out x :
  program_ranges m out -> inside out x -> x `mod` 8 = 0 ->
  0x8000000000 <= x /\ x + 8 <= 2 ^ 47 /\ (forall y, x <= y < x + 8 -> is_Some (byte_at m y) /\ ~ var <= y < var + 8).
Proof.
  intros [Hr _] (a & n & Ha & Hx) H8. destruct (Hr a n Ha) as (H1 & H2 & H3 & H4 & H5 & H6 & H7).
  split_and!; [lia..|]. intros y Hy. split; [apply H7; lia|lia].
Qed.

Lemma same_bytes out s s' m T m' T' :
  program_ok s m T -> program_ok s' m' T' -> program_ranges m out ->
  (forall x y, inside out x -> x `mod` 8 = 0 -> x <= y < x + 8 -> byte_at m' y = byte_at m y) ->
  same_words (HP:=program_provider) out s s'.
Proof.
  intros P P' Hr Hb x Hx H8. change (program_peek x s' = program_peek x s).
  destruct (inside_bytes m out x Hr Hx H8) as (H1 & H2 & H3).
  rewrite (peek_bytes s m T x P), (peek_bytes s' m' T' x P') by (lia || (intros y Hy; rewrite ?(Hb x y) by done; by apply H3)).
  f_equal. apply Forall_mapM_ext, Forall_forall. intros y Hy%elem_of_seqZ. by apply (Hb x).
Qed.

Lemma program_ok_machine s x m T m' T' :
  program_ok s m T -> user_space x m' T' -> MEMORY_REGION x = MEMORY_REGION (machine s) ->
  (forall y, var <= y < var + 8 -> is_Some (byte_at m' y)) -> program_ok (set_machine x s) m' T'.
Proof. intros [U Hcur Hpt Ht Hm _] U' Hreg Hv. by split; cbn; rewrite ?Hreg. Qed.

Lemma mapM_bytes m a bs :
  (forall k b, bs !! k = Some b -> byte_at m (a + Z.of_nat k) = Some b) -> mapM (byte_at m) (seqZ a (Z.of_nat (length bs))) = Some bs.
Proof.
  intros Hb. apply mapM_Some_2, Forall2_lookup. intros k. destruct (decide (k < length bs)%nat) as [Hk|Hk].
  - rewrite lookup_seqZ_lt by lia. destruct (lookup_lt_is_Some_2 bs k Hk) as [b Hbk]. rewrite Hbk. constructor. by apply Hb.
  - rewrite lookup_seqZ_ge by lia. rewrite lookup_ge_None_2 by lia. constructor.
Qed.

Lemma ranges_next m m' out :
  program_ranges m out -> (forall y, is_Some (byte_at m y) -> is_Some (byte_at m' y)) -> program_ranges m' out.
Proof.
  intros [Hr Hd] Hb. split; [|done]. intros a n Ha. destruct (Hr a n Ha) as (H1 & H2 & H3 & H4 & H5 & H6 & H7).
  unfold program_range. split_conj; auto.
Qed.

Lemma poke_wrote s m T x a v :
  program_ok s m T -> phys m R x = Some a -> x `mod` 8 = 0 -> 0x8000000000 <= x -> x + 8 <= 2 ^ 47 ->
  user_space (set_ram (put (ram (machine s)) a v) (machine s)) (put m a v) T /\
  (forall k b, to_le 8 v !! k = Some b -> byte_at (put m a v) (x + Z.of_nat k) = Some b) /\
  (forall y, ~ x <= y < x + 8 -> byte_at (put m a v) y = byte_at m y).
Proof.
  intros [U _ _ _ _ _] Ha H8 H1 H2. pose proof (us_inv _ _ _ _ _ _ _ _ _ _ U) as I. pose proof I as ((_ & Hm & _) & Fo & _).
  pose proof (us_roots _ _ _ _ _ _ _ _ _ _ U R HR0) as HR.
  destruct (phys_page X R T HR m x a Fo Ha) as (q & HTq & Hqm & Haq & _).
  assert (q ∉ o_pages O) as Hq.
  { pose proof (us_own _ _ _ _ _ _ _ _ _ _ U x a ltac:(unfold user_address; lia) Ha) as Hn.
    by replace (a - a `mod` 0x1000) with q in Hn by lia. }
  destruct (page_write X lo (Some Kr) O T (machine s) (machine s) m q (put m a v) I (after_refl _) HTq Hq) with
    (r := put (ram (machine s)) a v) as [I' Hag].
  { intros y Hy. apply store_out. rewrite length_to_le. lia. }
  { unfold put. by apply store_proper. }
  assert (Hk : forall k, 0 <= k < 8 -> phys m R (x + k) = Some (a + k)) by (intros k Hk; apply phys_next; [done|lia|lia]).
  assert (W : wrote X R T m x 8 (nth_byte (to_le 8 v)) (put m a v)).
  { split; [done|]. split.
    - intros k Hk'. exists (a + k). split; [by apply Hk|]. unfold put. rewrite store_in by (rewrite length_to_le; lia).
      unfold nth_byte. by replace (a + k - a) with k by lia.
    - intros y Hy. apply store_out. rewrite length_to_le. destruct (decide (a <= y < a + 8)); [|lia]. exfalso.
      apply (Hy (y - a)); [lia|]. rewrite Hk by lia. f_equal. lia. }
  destruct (space_wrote X lo O Kr R m0 T0 HR0 HK0 _ m T _ (put m a v) x 8 _ U I' W) as (U' & B1 & B2 & _); [lia..|].
  split_and!; [done| |done]. intros k b Hkb. assert (k < 8)%nat by (by apply lookup_lt_Some in Hkb).
  rewrite B1 by lia. unfold nth_byte. by rewrite Nat2Z.id, Hkb.
Qed.

Lemma program_poke_law s out x v :
  program_inv s out -> inside out x -> x `mod` 8 = 0 -> 0 <= v < 2 ^ 64 ->
  exists s', program_poke x v s = Some s' /\ program_inv s' out /\
    forall y, inside out y -> y `mod` 8 = 0 -> program_peek y s' = if decide (y = x) then Some v else program_peek y s.
Proof.
  intros (m & T & P & Hr) Hx Hx8 Hv. destruct (inside_bytes m out x Hr Hx Hx8) as (H1 & H2 & H3).
  destruct (H3 x ltac:(lia)) as [[b Hb] _]. unfold UserSpace.byte_at in Hb. case_decide; [|done].
  destruct (phys m R x) as [a|] eqn:Ha; [|done].
  destruct (poke_wrote s m T x a v P Ha Hx8 H1 H2) as (U' & B1 & B2).
  set (s' := set_machine (set_ram (put (ram (machine s)) a v) (machine s)) s).
  assert (Hkeep : forall y, is_Some (byte_at m y) -> is_Some (byte_at (put m a v) y)).
  { intros y Hy. destruct (decide (x <= y < x + 8)); [|by rewrite B2].
    destruct (lookup_lt_is_Some_2 (to_le 8 v) (Z.to_nat (y - x))) as [c Hc]; [rewrite length_to_le; lia|].
    exists c. specialize (B1 _ _ Hc). by replace (x + Z.of_nat (Z.to_nat (y - x))) with y in B1 by lia. }
  assert (P' : program_ok s' (put m a v) T).
  { eapply program_ok_machine; [done|exact U'|done|]. intros y Hy. apply Hkeep. by apply (po_var _ _ _ P). }
  exists s'. split; [|split].
  - unfold program_poke. rewrite (proj2 (Z.ltb_lt x _)) by lia. destruct P as [U Hcur Hpt _ _ _].
    pose proof (us_inv _ _ _ _ _ _ _ _ _ _ U) as ((_ & Hm & _) & _).
    unfold at_user. rewrite Hcur, Hpt, (phys_meq _ _ _ _ _ Hm), (phys_all X _ _ _ _ Ha). done.
  - exists (put m a v), T. split; [done|by eapply ranges_next].
  - intros y Hy Hy8. destruct (inside_bytes m out y Hr Hy Hy8) as (G1 & G2 & G3).
    rewrite (peek_bytes s' _ T y P'), (peek_bytes s m T y P) by (lia || (intros z Hz; first [by apply G3|by apply Hkeep, G3])).
    destruct (decide (y = x)) as [->|Hne].
    + change 8 with (Z.of_nat (length (to_le 8 v))). rewrite mapM_bytes by done. cbn. f_equal. by apply from_to_le.
    + f_equal. apply Forall_mapM_ext, Forall_forall. intros z Hz%elem_of_seqZ. apply B2. lia.
Qed.

(** ** Taking pages *)

Lemma frames_below s m T : program_ok s m T -> forall q l, T !! q = Some l -> q / 0x1000 <= 2 ^ 20 - 1.
Proof.
  intros [U _ _ _ Hm _] q l Hq. pose proof (us_inv _ _ _ _ _ _ _ _ _ _ U) as (([free I] & _) & _).
  assert (q ∈ dom T ∪ o_frames O) as Hin by (apply elem_of_union_l, elem_of_dom; by exists l).
  destruct (ai_frames _ _ _ _ I q (or_intror Hin)) as [_ [_ (r & Hr & Hb)]].
  rewrite Forall_forall in Hm. specialize (Hm r Hr). lia.
Qed.

Lemma run_kept s (x : Machine) {E A} (m : M Machine E A) r : keeps m -> m (machine s) = (r, x) -> MEMORY_REGION x = MEMORY_REGION (machine s).
Proof. intros Hk Hm. specialize (Hk (machine s)). by rewrite Hm in Hk. Qed.

(** The pages behind the handler. *)
Lemma alloc_pages_ok s m T size :
  program_ok s m T -> 0 < size <= 2 ^ 26 -> size `mod` 0x1000 = 0 ->
  wpe (alloc_mapped_frame fuel R size USER_DATA) (machine s)
    (fun v x => 0x8000000000 <= v /\ v + size <= 2 ^ 47 /\ v `mod` 0x1000 = 0 /\
       (forall y, v <= y < v + size -> byte_at m y = None) /\
       exists m' T', user_space x m' T' /\ bytes_kept X R m m' /\ forall y, v <= y < v + size -> is_Some (byte_at m' y))
    (fun _ x => exists m' T', user_space x m' T' /\ bytes_kept X R m m').
Proof.
  intros P Hs Hsm. pose proof (po_space _ _ _ P) as U. pose proof (us_inv _ _ _ _ _ _ _ _ _ _ U) as I.
  pose proof (us_roots _ _ _ _ _ _ _ _ _ _ U R HR0) as HR. pose proof I as (_ & Fo & _).
  destruct (free_window X m T R Fo HR 0x8000000000 (size / 0x1000) (2 ^ 20 - 1)) as (j & Hj & Hfree);
    [lia|lia|by eapply frames_below|done|lia|]. replace (size / 0x1000 * 0x1000) with size in Hfree by lia.
  set (v0 := 0x8000000000 + j * size) in *. assert (0x8000000000 <= v0 /\ v0 + size <= 0x8000000000 + 2 ^ 46) as Hv0 by (subst v0; nia).
  assert (v0 `mod` 0x1000 = 0) as Hvm.
  { subst v0. replace (j * size) with (j * (size / 0x1000) * 0x1000) by lia. by rewrite Z.mod_add. }
  assert (USER_SEARCH_START = 0x8000000000 /\ USER_SEARCH_END = 0xFFFFFF8000000000) as [E1 E2] by done.
  eapply wpe_mono; [apply (alloc_user_frame_spec X lo (Some Kr) (protect_pages O m T) fuel R size USER_DATA v0 (machine s) m T); try done; try lia| |].
  - by apply pinv_protect.
  - intros v Hv. eapply us_clear; [exact HR0|done|done|]. unfold user_address. lia.
  - intros v x (Hv & Hv' & Hm).
    destruct (space_mapped X lo O Kr R m0 T0 HR0 HK0 R v _ (machine s) m T Hv' I HR x U (or_introl eq_refl) Hm)
      as (m' & T' & U' & Hk & Hf & Ho' & Hwas).
    replace (size / 0x1000 * 0x1000) with size in Hf, Hwas by lia. split_and!; [lia|lia|done| |].
    + intros y Hy. unfold UserSpace.byte_at. by rewrite Hwas, decide_True by (unfold user_address; lia).
    + exists m', T'. split_and!; [done|done|]. eapply fresh_bytes; [lia|lia|done].
  - intros e x [_ Hb]. destruct (space_given_back X lo O Kr R m0 T0 HR0 HK0 R (machine s) m T x I U Hb) as (m' & T' & U' & Hk & _). by exists m', T'.
Qed.

(** The address is stored in the variable. *)
Lemma give_var_ok s m T w :
  program_ok s m T ->
  wp (give_word pr var w) s (fun code s' => code = Success /\ exists m', program_ok s' m' T /\
    (forall k b, to_le 8 w !! k = Some b -> byte_at m' (var + Z.of_nat k) = Some b) /\
    forall y, ~ var <= y < var + 8 -> byte_at m' y = byte_at m y).
Proof.
  intros P. pose proof (po_space _ _ _ P) as U. pose proof (keeps_write_page R var (to_le 8 w) (machine s)) as Hk.
  pose proof (write_user_bytes X lo O Kr R m0 T0 HR0 HK0 Hclear var (to_le 8 w) (machine s) m T U
    ltac:(lia) ltac:(rewrite length_to_le; lia) (po_var _ _ _ P)) as Hw.
  unfold wp in *. unfold give_word, or_return, write_user_process_memory_struct, write_user_process_memory, map_err, on_machine, zoom.
  rewrite (po_table _ _ _ P). rewrite length_to_le in Hw.
  destruct (write_page_table_memory R var (to_le 8 w) (machine s)) as [[[]|e| |] x]; try done. destruct Hw as (m' & U' & B1 & B2 & B3).
  split; [done|]. exists m'. split_and!; [|done|done].
  eapply program_ok_machine; [done|done|exact Hk|]. intros y Hy. assert (is_Some (to_le 8 w !! Z.to_nat (y - var))) as [b Hb].
  { apply lookup_lt_is_Some. rewrite length_to_le. lia. }
  exists b. specialize (B1 _ _ Hb). by replace (var + Z.of_nat (Z.to_nat (y - var))) with y in B1 by lia.
Qed.

Definition pages_taken m (size : Z) (r : Z + Z) s' : Prop :=
  exists m' T', program_ok s' m' T' /\ (forall y b, ~ var <= y < var + 8 -> byte_at m y = Some b -> byte_at m' y = Some b) /\
    match r with
    | inl v => program_range m' v size /\ forall y, v <= y < v + size -> byte_at m y = None
    | inr _ => True
    end.

Lemma user_true y : 0x8000000000 <= y <= 2 ^ 47 -> is_user y = true.
Proof.
  intros Hy. unfold is_user, is_user_space_virtual_memory, USER_SEARCH_START, USER_SEARCH_END.
  apply andb_true_iff. split; [apply Z.leb_le|apply Z.ltb_lt]; lia.
Qed.

Lemma wp_current s m T (Q : Z * Process -> Sys FS F -> Prop) : program_ok s m T -> Q (p, pr) s -> wp (E:=Blocked) unwrap_current s Q.
Proof. intros P HQ. unfold unwrap_current, wp. cbn. by rewrite (po_current _ _ _ P). Qed.

(** The call of the program, down to the frames. *)
Lemma alloc_page_ok s m T size :
  program_ok s m T -> 0 < size <= 2 ^ 26 -> size `mod` 0x1000 = 0 ->
  wp (CosSys.alloc_page room fuel thread_exit process_exit slept (size / 0x1000) var) s (pages_taken m size).
Proof.
  intros P Hs Hsm. pose proof (alloc_pages_ok s m T size P Hs Hsm) as Ha.
  pose proof (keeps_alloc_user fuel R size USER_DATA eq_refl eq_refl (machine s)) as Hk.
  unfold CosSys.alloc_page. wp_step. apply (wp_syscall _ _ _ _ _ _ Idt.alloc_page); [by vm_compute|]. unfold run_handler, Syscall.alloc_page.
  rewrite user_true by lia. cbn [negb]. rewrite (proj2 (Z.eqb_neq (size / 0x1000) 0)) by lia.
  wp_step. eapply wp_current; [done|]. wp_step. replace (size / 0x1000 * 0x1000) with size by lia. apply wp_arith; [lia|].
  wp_step. unfold wpe in Ha. unfold create_process_page, on_machine, zoom, page_options. unfold wp at 1. rewrite (po_table _ _ _ P).
  destruct (alloc_mapped_frame fuel R size USER_DATA (machine s)) as [[v|e| |] x]; try done; cbn in Hk.
  - destruct Ha as (H1 & H2 & H3 & Hwas & m1 & T1 & U1 & Hkept & Hnew).
    unfold nonzero. rewrite (proj2 (Z.eqb_neq v 0)) by lia.
    assert (P1 : program_ok (set_machine x s) m1 T1).
    { eapply program_ok_machine; [done|done|done|]. intros y Hy. destruct (po_var _ _ _ P y Hy) as [b Hb]. exists b. auto. }
    eapply wp_mono; [exact (give_var_ok _ _ _ v P1)|]. intros code s' (-> & m2 & P2 & B1 & B2).
    split; [exact (po_running _ _ _ P2)|]. unfold value_of. cbn [to_result Success Z.eqb]. wp_step.
    assert (Hvar8 : user_bytes s' var 8 = Some (to_le 8 v)).
    { unfold user_bytes. erewrite Forall_mapM_ext; [exact (mapM_bytes m2 var (to_le 8 v) B1)|].
      apply Forall_forall. intros y Hy%elem_of_seqZ. destruct (po_var _ _ _ P2 y ltac:(lia)) as [b Hb].
      rewrite Hb. by eapply at_byte. }
    unfold take_var at 1, wp at 1. rewrite Hvar8. rewrite from_to_le by (cbn; lia). wp_step. exists m2, T1. split; [done|split].
    + intros y b Hy Hb. rewrite B2 by done. auto.
    + split; [|done]. unfold program_range. assert (var + 8 <= v \/ v + size <= var) as Hap.
      { destruct (decide (var + 8 <= v \/ v + size <= var)); [done|]. exfalso.
        destruct (po_var _ _ _ P (Z.max var v) ltac:(lia)) as [b Hb]. by rewrite Hwas in Hb by lia. }
      split_conj; try done; try lia. intros y Hy. rewrite B2 by lia. auto.
  - destruct Ha as (m1 & T1 & U1 & Hkept). 
    assert (P1 : program_ok (set_machine x s) m1 T1).
    { eapply program_ok_machine; [done|done|done|]. intros y Hy. destruct (po_var _ _ _ P y Hy) as [b Hb]. exists b. auto. }
    wp_step. split; [exact (po_running _ _ _ P1)|]. unfold value_of, to_result, OutOfMemory. cbn [Z.eqb]. wp_step.
    exists m1, T1. auto.
Qed.

Lemma range_fresh m m' out v size :
  program_ranges m out -> (forall y, v <= y < v + size -> byte_at m y = None) ->
  (forall y b, ~ var <= y < var + 8 -> byte_at m y = Some b -> byte_at m' y = Some b) ->
  program_range m' v size -> out !! v = None /\ program_ranges m' (<[v := size]> out).
Proof.
  intros [Hr Hd] Hwas Hkeep Hnew. pose proof Hnew as (N1 & N2 & N3 & N4 & N5 & N6 & N7).
  assert (Hap : forall a n, out !! a = Some n -> a + n <= v \/ v + size <= a).
  { intros a n Ha. destruct (Hr a n Ha) as (H1 & H2 & H3 & H4 & H5 & H6 & H7).
    destruct (decide (a + n <= v \/ v + size <= a)); [done|]. exfalso.
    destruct (H7 (Z.max a v) ltac:(lia)) as [b Hb]. by rewrite Hwas in Hb by lia. }
  assert (out !! v = None) as Hv.
  { destruct (out !! v) as [n|] eqn:Hv; [|done]. destruct (Hr v n Hv) as (_ & _ & _ & Hn & _). destruct (Hap v n Hv); lia. }
  split; [done|]. split.
  - intros a n [[<- <-]|[Hne Ha]]%lookup_insert_Some; [done|]. destruct (Hr a n Ha) as (H1 & H2 & H3 & H4 & H5 & H6 & H7).
    unfold program_range. split_conj; try done. intros y Hy. destruct (H7 y Hy) as [b Hb]. exists b. apply Hkeep; [lia|done].
  - intros a n b k [[<- <-]|[Hne Ha]]%lookup_insert_Some [[<- <-]|[Hne' Hb]]%lookup_insert_Some Hab; [done| | |by apply (Hd a n b k)].
    + destruct (Hap b k Hb); lia.
    + destruct (Hap a n Ha); lia.
Qed.

Lemma program_allocate_law s out size :
  program_inv s out -> 0 < size <= 2 ^ 26 -> size `mod` 0x1000 = 0 ->
  wp (syscall_allocate_pages size) s (fun r s' => same_words (HP:=program_provider) out s s' /\
    match r with
    | Some a => out !! a = None /\ program_inv s' (<[a := size]> out)
    | None => program_inv s' out
    end).
Proof.
  intros (m & T & P & Hr) Hs Hsm. pose proof (alloc_page_ok s m T size P Hs Hsm) as Ha.
  unfold syscall_allocate_pages, running. unfold wp, mbind, M_bind in *.
  destruct (CosSys.alloc_page _ _ _ _ _ _ _ s) as [[r|e| |] s']; try done. cbn. destruct Ha as (m' & T' & P' & Hkeep & Hres).
  assert (Hw : same_words (HP:=program_provider) out s s').
  { eapply same_bytes; [exact P|exact P'|done|]. intros x y Hx Hx8 Hy.
    destruct (inside_bytes m out x Hr Hx Hx8) as (_ & _ & H3). destruct (H3 y Hy) as [[b Hb] Hn]. rewrite Hb. by apply Hkeep. }
  split; [done|]. destruct r as [v|e].
  - destruct Hres as [Hnew Hwas]. destruct (range_fresh m m' out v size Hr Hwas Hkeep Hnew) as [Hv Hr']. split; [done|]. by exists m', T'.
  - exists m', T'. split; [done|]. destruct Hr as [Hr Hd]. split; [|done]. intros a n Ha.
    destruct (Hr a n Ha) as (H1 & H2 & H3 & H4 & H5 & H6 & H7).
    unfold program_range. split_conj; try done. intros y Hy. destruct (H7 y Hy) as [b Hb]. exists b. apply Hkeep; [lia|done].
Qed.

(** ** Giving pages back *)

(** Frames of the run that is unmapped. *)
Lemma freed_page m T v x a k :
  forest X m T -> T !! R = Some 4%nat -> user_address x -> phys m R x = Some a -> v `mod` 0x1000 = 0 ->
  user_address (v + k * 0x1000) -> phys m R (v + k * 0x1000) = Some (a - a `mod` 0x1000) -> x / 0x1000 = v / 0x1000 + k.
Proof.
  intros Fo HR Hx Ha Hv Hk Hq. destruct (phys_page X R T HR m x a Fo Ha) as (q & _ & Hqm & Haq & _).
  assert (x - x `mod` 0x1000 = v + k * 0x1000) as Hpage; [|lia].
  eapply (phys_inj X R T HR m _ _ (a - a `mod` 0x1000) Fo); [|done|unfold user_address in *; lia].
  unfold PageAlloc.phys in Ha |- *. rewrite (same_page (x - x `mod` 0x1000) x) by lia.
  destruct (trans X m R (indices x)); [|done]. cbn in *. injection Ha as Ha. f_equal. lia.
Qed.

Lemma user_page v y k :
  v `mod` 0x1000 = 0 -> user_address y -> user_address (v + k * 0x1000) -> indices y = indices (v + k * 0x1000) ->
  y / 0x1000 = v / 0x1000 + k.
Proof.
  unfold user_address. intros Hv Hy Hk Hi%indices_inj. rewrite Z.div_add in Hi by done.
  rewrite !Z.mod_small in Hi by lia. done.
Qed.

Lemma kept_frame m T v n y x q :
  forest X m T -> T !! R = Some 4%nat -> v `mod` 0x1000 = 0 -> 0x8000000000 <= v -> v + n * 0x1000 <= 2 ^ 47 ->
  (forall y, v <= y < v + n * 0x1000 -> is_Some (byte_at m y)) ->
  user_address y -> ~ v <= y < v + n * 0x1000 -> phys m R y = Some x -> q `mod` 0x1000 = 0 -> x = q + y `mod` 0x1000 ->
  q ∉ run_frames X R m v n.
Proof.
  intros Fo HR Hvm Hlo Hhi Hmap Hy Hno Hx Hqm Hxq Hin. unfold run_frames in Hin.
  apply elem_of_list_to_set, list_elem_of_fmap in Hin as (k & Heq & Hk%elem_of_seqZ).
  destruct (Hmap (v + k * 0x1000)) as [b Hb]; [lia|]. unfold UserSpace.byte_at in Hb. case_decide as Hu; [|done].
  destruct (phys m R (v + k * 0x1000)) as [q'|] eqn:Hq; [|done]. cbn in Heq. subst q'.
  replace q with (x - x `mod` 0x1000) in Hq by lia.
  pose proof (freed_page m T v y x k Fo HR Hy Hx Hvm Hu Hq). lia.
Qed.

Lemma space_unmapped {E} (s : Machine) m T v n :
  user_space s m T -> v `mod` 0x1000 = 0 -> 0 < n -> 0x8000000000 <= v -> v + n * 0x1000 <= 2 ^ 47 ->
  (forall y, v <= y < v + n * 0x1000 -> is_Some (byte_at m y)) ->
  wp (E:=E) (free_mapped_frame R v (n * 0x1000)) s (fun _ (s' : Machine) => exists m' T', user_space s' m' T' /\
    forall y, ~ v <= y < v + n * 0x1000 -> byte_at m' y = byte_at m y).
Proof.
  intros U Hvm Hn Hlo Hhi Hmap. pose proof (us_inv _ _ _ _ _ _ _ _ _ _ U) as I. pose proof I as (Ia & Fo & Hd & Hg).
  pose proof (us_roots _ _ _ _ _ _ _ _ _ _ U R HR0) as HR.
  set (freed := run_frames X R m v n). set (O' := mkOthers (o_frames O) (o_pages O ∪ (pages_of T ∖ freed)) m).
  assert (I' : pinv X lo (Some Kr) O' s m T).
  { split; [done|split; [done|split; [done|]]]. intros a [Ha|Ha]%elem_of_union; [split; [by apply Hg|done]|].
    split; [left; apply elem_of_pages; set_solver|done]. }
  eapply wp_mono; [apply (free_mapped_frame_spec X lo (Some Kr) O' R v n m T HR Hvm); [lia| |exact I']|].
  - intros k Hk. destruct (Hmap (v + k * 0x1000)) as [b Hb]; [lia|]. unfold UserSpace.byte_at in Hb. case_decide as Hu; [|done].
    destruct (phys m R (v + k * 0x1000)) as [q|] eqn:Hq; [|done]. exists q. split; [done|]. cbn.
    pose proof (us_own _ _ _ _ _ _ _ _ _ _ U _ q Hu Hq) as Ho. pose proof (elem_of_run_frames X R m v n k q Hk Hq) as Hf. fold freed in Hf.
    destruct (phys_page X R T HR m _ q Fo Hq) as (q' & _ & Hqm & Haq & _).
    replace (q - q `mod` 0x1000) with q in Ho by lia. set_solver.
  - intros [] s' (m' & T' & J & Hsub & Hroots & Hgone & Hsame & Hck). pose proof J as (Ja & Jf & Jd & Jg).
    assert (Hup : forall k, 0 <= k < n -> user_address (v + k * 0x1000)) by (unfold user_address; lia).
    assert (Hout : forall y, user_address y -> ~ v <= y < v + n * 0x1000 -> phys m' R y = phys m R y).
    { intros y Hy Hno. apply Hsame; [done|]. intros _ k Hk Hi. apply user_page in Hi; [lia|done|done|auto]. }
    assert (Hmono : forall y x, user_address y -> phys m' R y = Some x -> phys m R y = Some x).
    { intros y x Hy Hx. destruct (decide (v <= y < v + n * 0x1000)) as [Hin|]; [|by rewrite <-Hout].
      exfalso. set (k := (y - v) / 0x1000). assert (indices y = indices (v + k * 0x1000)) as Hi by (apply same_page; subst k; lia).
      destruct (Hmap (v + k * 0x1000)) as [b Hb]; [subst k; lia|]. unfold UserSpace.byte_at in Hb. case_decide; [|done].
      destruct (phys m R (v + k * 0x1000)) as [q|] eqn:Hq; [|done].
      destruct (Hgone k q) as [Hnone _]; [subst k; lia|done|]. unfold PageAlloc.phys in Hx, Hnone. rewrite Hi in Hx.
      by destruct (trans X m' R (indices (v + k * 0x1000))). }
    destruct U as [_ Uo Ur Uc Us Uk]. exists m', T'. split.
    + split; [|by eauto|by eauto| | |].
      * split; [done|split; [done|split; [done|]]]. intros a Ha. destruct (Jg a) as [J1 J2]; [cbn; set_solver|]. split; [done|].
        intros x Hx. rewrite J2 by done. by apply (proj2 (Hg a Ha)).
      * intros r js Hr0 Hjs Hl Hcp. apply Hck; [auto|done|done|]. by apply Uc.
      * intros r a Hr0 Hne1 Hne2. rewrite Hsame; [auto|auto|done].
      * intros a x Ha. rewrite Hsame; [auto|auto|]. by intros ->.
    + intros y Hno. unfold UserSpace.byte_at. case_decide as Hy; [|done]. rewrite Hout by done.
      destruct (phys m R y) as [x|] eqn:Hx; [|done]. cbn. f_equal. destruct (phys_page X R T HR m y x Fo Hx) as (q & HTq & Hqm & Hxq & _).
      apply (proj2 (Jg q ltac:(cbn; apply elem_of_union_r, elem_of_difference; split; [by apply elem_of_pages|];
        eapply kept_frame; eauto; lia))). lia.
Qed.

(** The call of the program, down to the frames. *)
Lemma free_page_ok s m T v size :
  program_ok s m T -> program_range m v size ->
  wp (CosSys.free_page room fuel thread_exit process_exit slept v (size / 0x1000)) s (fun r s' => r = inl tt /\
    exists m' T', program_ok s' m' T' /\ forall y, ~ v <= y < v + size -> byte_at m' y = byte_at m y).
Proof.
  intros P (H1 & H2 & H3 & H4 & H5 & H6 & H7). set (n := size / 0x1000) in *. assert (size = n * 0x1000) as Hn by lia.
  unfold CosSys.free_page. wp_step. apply (wp_syscall _ _ _ _ _ _ Idt.free_page); [by vm_compute|].
  unfold run_handler, Syscall.free_page. rewrite (user_true v) by lia. wp_step. wp_step. apply wp_arith; [lia|]. wp_step.
  apply wp_arith; [lia|]. rewrite <-Hn. wp_step. rewrite user_true by lia. cbn [negb]. rewrite (proj2 (Z.eqb_neq n 0)) by lia.
  wp_step. eapply wp_current; [done|]. wp_step. apply wp_arith; [lia|]. wp_step. unfold free_process_page, on_machine, zoom.
  rewrite (po_table _ _ _ P). unfold wp at 1. rewrite Hn in H7.
  pose proof (space_unmapped (E:=Blocked) (machine s) m T v n (po_space _ _ _ P) H3 ltac:(lia) H1 ltac:(lia) H7) as Hf.
  pose proof (region_free (E:=Blocked) R v size (machine s)) as Hk. rewrite <-Hn in Hf. unfold wp in Hf.
  destruct (free_mapped_frame R v size (machine s)) as [[[]|e| |] x]; try done. destruct Hf as (m' & T' & U' & Hb).
  assert (P' : program_ok (set_machine x s) m' T').
  { eapply program_ok_machine; [done|done|exact Hk|]. intros y Hy. rewrite Hb by lia. by apply (po_var _ _ _ P). }
  wp_step. split; [exact (po_running _ _ _ P')|]. unfold unit_of. cbn [to_result Success Z.eqb]. wp_step. split; [done|]. by exists m', T'.
Qed.

Lemma program_deallocate_law s out a n :
  program_inv s out -> out !! a = Some n ->
  wp (syscall_deallocate_pages a n) s (fun _ s' =>
    same_words (HP:=program_provider) (delete a out) s s' /\ program_inv s' (delete a out)).
Proof.
  intros (m & T & P & Hr) Ha. pose proof Hr as [Hr1 Hr2]. pose proof (free_page_ok s m T a n P (Hr1 a n Ha)) as Hf.
  unfold syscall_deallocate_pages, running. unfold wp, mbind, M_bind in *.
  destruct (CosSys.free_page _ _ _ _ _ _ _ s) as [[r|e| |] s']; try done. cbn. destruct Hf as (-> & m' & T' & P' & Hb). cbn.
  assert (Hrd : program_ranges m (delete a out)).
  { split; [intros b c [_ Hb']%lookup_delete_Some; auto|].
    intros b c b' c' [_ Hb1]%lookup_delete_Some [_ Hb2]%lookup_delete_Some. by apply Hr2. }
  assert (Hap : forall b c, delete a out !! b = Some c -> a + n <= b \/ b + c <= a).
  { intros b c [Hne Hb']%lookup_delete_Some. by apply (Hr2 a n b c). }
  split.
  - eapply same_bytes; [exact P|exact P'|done|]. intros x y (b & c & Hbc & Hx) Hx8 Hy. apply Hb.
    destruct Hrd as [Hrd _]. destruct (Hrd b c Hbc) as (H1 & H2 & H3 & H4 & H5 & _). destruct (Hap b c Hbc); lia.
  - exists m', T'. split; [done|]. destruct Hrd as [Hrd Hdd]. split; [|done]. intros b c Hbc.
    destruct (Hrd b c Hbc) as (H1 & H2 & H3 & H4 & H5 & H6 & H7). unfold program_range. split_conj; try done.
    intros y Hy. rewrite Hb; [auto|]. destruct (Hap b c Hbc); lia.
Qed.

#[local] Instance program_laws : ProviderLaws (Sys FS F).
Proof.
  refine {| p_inv := program_inv; p_max := 2 ^ 26 |}.
  - done.
  - intros s out a n (m & T & _ & Hr & _) Ha. destruct (Hr a n Ha) as (? & ? & ? & ? & ? & _). lia.
  - intros s out a n b k (m & T & _ & _ & Hr) Ha Hb. by apply Hr.
  - intros s out x (m & T & P & Hr) Hx Hx8. change (is_Some (program_peek x s)).
    destruct (inside_bytes m out x Hr Hx Hx8) as (H1 & H2 & H3).
    rewrite (peek_bytes s m T x P ltac:(lia)) by (intros y Hy; by apply H3). apply fmap_is_Some, mapM_is_Some_2, Forall_forall.
    intros y Hy%elem_of_seqZ. apply H3. lia.
  - exact program_poke_law.
  - exact program_allocate_law.
  - exact program_deallocate_law.
Defined.
End laws.

(** [GlobalAlloc] for programs. *)
Definition alloc (layout : Layout) : M (RustHeap (Sys FS F)) Empty_set Z :=
  allocate (HP:=program_provider) layout.

Definition dealloc (ptr : Z) (layout : Layout) : M (RustHeap (Sys FS F)) Empty_set unit :=
  rust_assert (negb (ptr =? 0));;
  deallocate (HP:=program_provider) ptr layout.
End provider.

(** C17: The page provider of programs keeps the promises the heap relies on.
    [cos_sys::memory::alloc_page] and [free_page], through the table of system
    calls, the handlers of the kernel, the tables of the process and the list
    of free frames, with the program's own access to its memory, satisfy every
    law of the interface for requests up to 64 MiB on a machine with at most
    4 GiB: the calls return; the ranges handed out are aligned, disjoint from
    each other and from the stack's variable, and mapped; a word written is the
    word read; and neither call changes a word of another range. *)
Theorem program_provider_lawful {FS F} `{!FileSystem FS F} {build : Build} (room : Z) (fuel : nat) (thread_exit process_exit : Z -> option Z)
    (slept : Z -> bool) (var : Z) (X : Z -> Z -> bool) (lo : Z) (O : others) (Kr R : Z) (m0 : Z -> Z) (T0 : gmap Z nat)
    (p : Z) (pr : Process) :
  T0 !! R = Some 4%nat -> T0 !! Kr = Some 4%nat -> R <> Kr ->
  (forall y, user_address y -> clear_path X m0 R (indices y)) ->
  0x8000000000 <= var /\ var + 8 <= 2 ^ 47 -> 2 ^ 35 < Z.of_nat fuel ->
  exists L : ProviderLaws (Sys FS F) (HP:=program_provider room fuel thread_exit process_exit slept var),
    p_max (ProviderLaws:=L) = 2 ^ 26 /\
    forall s out, p_inv (ProviderLaws:=L) s out <-> program_inv var X lo O Kr R m0 T0 p pr s out.
Proof.
  intros HR0 HK0 HRK Hclear Hvar Hfuel.
  by exists (program_laws room fuel thread_exit process_exit slept var X lo O Kr R m0 T0 p pr HR0 HK0 HRK Hclear Hvar Hfuel).
Qed.

(** ** A process with one page *)

Module ProgramDemo.

(** Built for release. *)
#[local] Instance release : Build := false.

Definition R : Z := 0x40a000.
Definition with_table : Machine := snd (alloc_user_page_table (E:=Empty_set) CreateProcess.Runs.machine2).
Definition with_page : Machine := snd (alloc_mapped_frame 3 R 0x1000 USER_DATA with_table).
Definition process : Process := mkProcess {[3]} R 0 false.

(** Thread 3 of process 1 runs, and the page is its stack. *)
Definition program : Sys (list Z) Z :=
  mkSys with_page (mkKernel {[3 := mkThread (Some 1) Running None 0 false]} {[3]} [] [] 3 {[1 := process]} 1 (mkCpu 3 2 1 0 0 R) ∅ [] [])
    ∅ ∅ [] [] [].

Definition var : Z := 0x8000000FF0.

Lemma table_run : fst (alloc_user_page_table (E:=Empty_set) CreateProcess.Runs.machine2) = Ok (Some R).
Proof. vm_compute. reflexivity. Qed.

Lemma page_run : alloc_mapped_frame 3 R 0x1000 USER_DATA with_table = (Ok 0x8000000000, with_page).
Proof.
  assert (fst (alloc_mapped_frame 3 R 0x1000 USER_DATA with_table) = Ok 0x8000000000) as H by (vm_compute; reflexivity).
  unfold with_page. destruct (alloc_mapped_frame 3 R 0x1000 USER_DATA with_table). cbn in *. by rewrite H.
Qed.

Lemma page_regions : MEMORY_REGION with_page = MEMORY_REGION CreateProcess.Runs.booting.
Proof. vm_compute. reflexivity. Qed.

#[local] Opaque with_page with_table.

Lemma run_wp {S E A} (prog : M S E A) s Q a : wp prog s Q -> fst (prog s) = Ok a -> Q a (snd (prog s)).
Proof. unfold wp. destruct (prog s) as [r s']. cbn. by intros H ->. Qed.

Import CreateProcess.Runs.

Lemma process_space : exists X m0 T0, T0 !! R = Some 4%nat /\ T0 !! Kr = Some 4%nat /\ R <> Kr /\
  (forall y, user_address y -> clear_path X m0 R (indices y)) /\
  program_inv var X Kr nobody Kr R m0 T0 1 process program ∅.
Proof.
  destruct machine2_memory as [I HKr [P0 B0] [P511 B511] Hck].
  pose (Q := fun (r : option Z) (s1 : Machine) => forall R', r = Some R' -> exists m1, new_table Kr nobody ram0 tables R' m1 /\
    table_ok R' /\ pinv (with_shared X R') Kr (Some Kr) nobody s1 m1 (<[R' := 4%nat]> tables)).
  assert (Hq : wp (E:=Empty_set) alloc_user_page_table machine2 Q).
  { apply (alloc_user_page_table_spec X Kr Kr nobody machine2 ram0 tables Q I HKr P0 P511 B0 B511); [by intros s' _ R'|].
    intros R' s' m' N Hok I' R2 [= <-]. by exists m'. }
  destruct (run_wp _ _ _ _ Hq table_run R eq_refl) as (m1 & N & Hok & I1).
  destruct (new_space X Kr nobody Kr machine2 ram0 tables R m1 with_table machine2_memory N Hok I1)
    as (HRK & HR0 & HK0 & Hc & _ & Hnone & U1 & _).
  exists (with_shared X R), m1, (<[R := 4%nat]> tables).
  split; [exact HR0|split; [exact HK0|split; [exact HRK|split; [exact Hc|]]]].
  pose proof (alloc_user_page (with_shared X R) Kr nobody Kr R m1 (<[R := 4%nat]> tables) HR0 HK0 Hc 3 0x8000000000 with_table m1
    (<[R := 4%nat]> tables) U1 eq_refl ltac:(lia) ltac:(lia) (Hnone 0x8000000000 ltac:(unfold user_address; lia)) ltac:(unfold USER_SEARCH_START; lia)) as Ha.
  unfold wpe in Ha. rewrite page_run in Ha. destruct Ha as (_ & _ & _ & _ & m2 & T2 & U2 & _ & Hb). exists m2, T2. split.
  2: { split; [intros a n Hn|intros a n b k Hn]; rewrite lookup_empty in Hn; discriminate. }
  split; [change (machine program) with with_page; exact U2|reflexivity|reflexivity|reflexivity| |].
  - change (MEMORY_REGION (machine program)) with (MEMORY_REGION with_page).
    rewrite page_regions.
    unfold booting. cbn [MEMORY_REGION].
    repeat constructor; vm_compute; discriminate.
  - intros y Hy. apply Hb. unfold var in Hy. lia.
Qed.

#[local] Instance files : FileSystem (list Z) Z := CreateProcess.Runs.one_file.

Lemma program_provider_lawful_witness :
  exists L : ProviderLaws (Sys (list Z) Z)
    (HP:=program_provider 1000 (Z.to_nat (2 ^ 36)) (fun _ => None) (fun _ => None) (fun _ => true) var),
    p_inv (ProviderLaws:=L) program ∅.
Proof.
  destruct process_space as (X & m0 & T0 & HR & HK & Hne & Hc & Hinv).
  destruct (program_provider_lawful 1000 (Z.to_nat (2 ^ 36)) (fun _ => None) (fun _ => None) (fun _ => true) var X Kr nobody Kr R m0 T0
    1 process HR HK Hne Hc) as (L & _ & HL).
  - vm_compute. split; discriminate.
  - rewrite Z2Nat.id by discriminate. reflexivity.
  - exists L. apply HL. exact Hinv.
Defined.

End ProgramDemo.
