(* ===== verification/Ata.v ===== *)
(** * The ATA disk driver (kernel/src/io/disk/ata_lba.rs, kernel/src/io/disk/mod.rs)

    The queue of requests, the three futures of the driver, the commands sent
    through the ports of the controller and the interrupt handler. [Drive] is
    the hardware behind the ports: two drives on a channel that follow the
    PIO protocol of the ATA standard. An access for which the standard
    defines no meaning (a register written while the drive is busy, data read
    when there is none, a software reset) is undefined and modelled as
    [Panic], so that a run without [Panic] uses the hardware as documented.

    The sections of the driver run with interrupts disabled on the only
    processor, under the lock of the queue, and are single steps. The handler
    of the interrupt reads the status before its section, with interrupts on.
    A future that waits is polled again when the executor likes to. *)
From S2P Require Import Prelude Device.

(** ** The drives on the channel *)
Module Drive.

(** What a drive works on. [Store] is the second half of a write, after the
    data has arrived. *)
Inductive Command : Type :=
  | Identity (disk : Z)
  | ReadSector (disk lba : Z)
  | WriteSector (disk lba : Z)
  | Store (disk lba : Z) (words : list Z).

(** How it ends: a write that fails leaves some other words in its sector. *)
Inductive Fate : Type :=
  | Fine
  | Fault (words : list Z).

(** [Working] is BSY = 1, with the time that is left; [DataIn] and [DataOut]
    are DRQ = 1, with the words not read yet or received so far. *)
Inductive Phase : Type :=
  | Resting (failed : bool)
  | Working (left : nat) (f : Fate) (c : Command)
  | DataIn (words : list Z)
  | DataOut (disk lba : Z) (words : list Z).

(** [plan] decides time and end of each piece of work; [served] counts them.
    [mark] is bit 1 of the status, the index mark of old drives. *)
Record Drive : Type := mkDrive {
  sector_count : Z;
  lba_low : Z;
  lba_mid : Z;
  lba_high : Z;
  device : Z;
  no_interrupts : bool;
  phase : Phase;
  intrq : bool;
  media : Z -> Z -> list Z;
  capacity : Z -> Z;
  identity : Z -> list Z;
  plan : nat -> nat * Fate;
  served : nat;
  mark : bool;
}.

Definition set_phase (p : Phase) (q : bool) (d : Drive) : Drive :=
  mkDrive (sector_count d) (lba_low d) (lba_mid d) (lba_high d) (device d) (no_interrupts d)
    p q (media d) (capacity d) (identity d) (plan d) (served d) (mark d).

Definition set_registers (n a b c h : Z) (d : Drive) : Drive :=
  mkDrive n a b c h (no_interrupts d) (phase d) (intrq d) (media d) (capacity d) (identity d)
    (plan d) (served d) (mark d).

Definition set_control (b : bool) (d : Drive) : Drive :=
  mkDrive (sector_count d) (lba_low d) (lba_mid d) (lba_high d) (device d) b
    (phase d) (intrq d) (media d) (capacity d) (identity d) (plan d) (served d) (mark d).

Definition sector_set (m : Z -> Z -> list Z) (k l : Z) (ws : list Z) : Z -> Z -> list Z :=
  fun k' l' => if (k' =? k) && (l' =? l) then ws else m k' l'.

Definition set_media (m : Z -> Z -> list Z) (d : Drive) : Drive :=
  mkDrive (sector_count d) (lba_low d) (lba_mid d) (lba_high d) (device d) (no_interrupts d)
    (phase d) (intrq d) m (capacity d) (identity d) (plan d) (served d) (mark d).

Definition set_served (n : nat) (d : Drive) : Drive :=
  mkDrive (sector_count d) (lba_low d) (lba_mid d) (lba_high d) (device d) (no_interrupts d)
    (phase d) (intrq d) (media d) (capacity d) (identity d) (plan d) n (mark d).

(** The drive starts to work on a command. *)
Definition launch (c : Command) (d : Drive) : Drive :=
  let '(t, f) := plan d (served d) in
  set_phase (Working t f c) false (set_served (S (served d)) d).

Definition in_range (d : Drive) (k l : Z) : bool := (0 <=? l) && (l <? capacity d k).

(** The end of the work: data is ready, data is wanted, or the command is
    done. All but the request for data raise the interrupt line. *)
Definition finish (f : Fate) (c : Command) (d : Drive) : Drive :=
  match c, f with
  | Identity k, Fine => set_phase (DataIn (identity d k)) true d
  | Identity _, Fault _ => set_phase (Resting true) true d
  | ReadSector k l, Fine =>
      if in_range d k l then set_phase (DataIn (media d k l)) true d
      else set_phase (Resting true) true d
  | ReadSector _ _, Fault _ => set_phase (Resting true) true d
  | WriteSector k l, Fine =>
      if in_range d k l then set_phase (DataOut k l []) (intrq d) d
      else set_phase (Resting true) true d
  | WriteSector _ _, Fault _ => set_phase (Resting true) true d
  | Store k l ws, Fine => set_phase (Resting false) true (set_media (sector_set (media d) k l ws) d)
  | Store k l _, Fault ws => set_phase (Resting true) true (set_media (sector_set (media d) k l ws) d)
  end.

(** Time passes. *)
Definition tick (d : Drive) : Drive :=
  match phase d with
  | Working (S n) f c => set_phase (Working n f c) (intrq d) d
  | Working O f c => finish f c d
  | _ => d
  end.

Definition status (d : Drive) : Z :=
  match phase d with
  | Working _ _ _ => 0x80
  | DataIn _ | DataOut _ _ _ => 0x58
  | Resting false => 0x50
  | Resting true => 0x51
  end + (if mark d then 2 else 0).

Definition selected (d : Drive) : Z := if Z.testbit (device d) 4 then 1 else 0.

(** The sector the registers name, in LBA mode. *)
Definition address (d : Drive) : Z :=
  lba_low d + 2 ^ 8 * lba_mid d + 2 ^ 16 * lba_high d + 2 ^ 24 * Z.land (device d) 0x0F.

Definition is_resting (d : Drive) : bool := match phase d with Resting _ => true | _ => false end.

Definition port_in8 (port : Z) (d : Drive) : option (Z * Drive) :=
  if port =? 0x1F7 then Some (status d, set_phase (phase d) false d)
  else if port =? 0x3F6 then Some (status d, d)
  else None.

Definition port_in16 (port : Z) (d : Drive) : option (Z * Drive) :=
  match phase d with
  | DataIn [w] => if port =? 0x1F0 then Some (w, set_phase (Resting false) (intrq d) d) else None
  | DataIn (w :: ws) => if port =? 0x1F0 then Some (w, set_phase (DataIn ws) (intrq d) d) else None
  | _ => None
  end.

(** A command for one sector in LBA mode, or the identification. *)
Definition command (v : Z) (d : Drive) : option Drive :=
  if v =? 0xEC then Some (launch (Identity (selected d)) d)
  else if negb (Z.testbit (device d) 6 && (sector_count d =? 1)) then None
  else if v =? 0x20 then Some (launch (ReadSector (selected d) (address d)) d)
  else if v =? 0x30 then Some (launch (WriteSector (selected d) (address d)) d)
  else None.

Definition port_out8 (port v : Z) (d : Drive) : option Drive :=
  if port =? 0x3F6 then if Z.testbit v 2 then None else Some (set_control (Z.testbit v 1) d)
  else if negb (is_resting d) then None
  else if port =? 0x1F2 then Some (set_registers v (lba_low d) (lba_mid d) (lba_high d) (device d) d)
  else if port =? 0x1F3 then Some (set_registers (sector_count d) v (lba_mid d) (lba_high d) (device d) d)
  else if port =? 0x1F4 then Some (set_registers (sector_count d) (lba_low d) v (lba_high d) (device d) d)
  else if port =? 0x1F5 then Some (set_registers (sector_count d) (lba_low d) (lba_mid d) v (device d) d)
  else if port =? 0x1F6 then Some (set_registers (sector_count d) (lba_low d) (lba_mid d) (lba_high d) v d)
  else if port =? 0x1F7 then command v d
  else None.

Definition port_out16 (port v : Z) (d : Drive) : option Drive :=
  match phase d with
  | DataOut k l ws =>
      if port =? 0x1F0 then
        let ws' := ws ++ [v] in
        Some (if (length ws' =? 256)%nat then launch (Store k l ws') d
              else set_phase (DataOut k l ws') (intrq d) d)
      else None
  | _ => None
  end.

(** The interrupt line, as the controller of interrupts sees it. *)
Definition line (d : Drive) : bool := intrq d && negb (no_interrupts d).

End Drive.
Import Drive.

(** ** The driver *)

Definition ATA_DATA : Z := 0x1F0.
Definition ATA_SECTOR_COUNT : Z := 0x1F2.
Definition ATA_SECTOR : Z := 0x1F3.
Definition ATA_CYL_LO : Z := 0x1F4.
Definition ATA_CYL_HI : Z := 0x1F5.
Definition ATA_HEAD : Z := 0x1F6.
Definition ATA_STATUS : Z := 0x1F7.
Definition ATA_COMMAND : Z := 0x1F7.
Definition ATA_INTERRUPT_ENABLE : Z := 0x3F6.

Record AtaLbaDriver : Type := mkDriver {
  disk : Z;
  size : Z;
}.

Inductive Operation : Type :=
  | Identify
  | Read
  | Write.

Definition STATUS_PENDING : Z := 1.
Definition STATUS_OK : Z := 2.

(** The waker is the task it wakes. *)
Record Request : Type := mkRequest {
  rq_disk : Z;
  rq_lba : Z;
  rq_waker : Z;
  rq_status : Z;
  rq_operate : Operation;
  rq_buffer : list Z;
  rq_error : bool;
}.

(** [ATA_QUEUE] with the requests behind its [Arc]s, the hardware, and the
    tasks woken so far. *)
Record Ata : Type := mkAta {
  inflight : option Z;
  queue : list Z;
  requests : gmap Z Request;
  allocated : Z;
  drive : Drive;
  woken : list Z;
}.

Definition set_inflight (o : option Z) (s : Ata) : Ata :=
  mkAta o (queue s) (requests s) (allocated s) (drive s) (woken s).
Definition set_queue (q : list Z) (s : Ata) : Ata :=
  mkAta (inflight s) q (requests s) (allocated s) (drive s) (woken s).
Definition set_drive (d : Drive) (s : Ata) : Ata :=
  mkAta (inflight s) (queue s) (requests s) (allocated s) d (woken s).
Definition set_request (r : Z) (rq : Request) (s : Ata) : Ata :=
  mkAta (inflight s) (queue s) (<[r := rq]> (requests s)) (allocated s) (drive s) (woken s).
Definition wake (t : Z) (s : Ata) : Ata :=
  mkAta (inflight s) (queue s) (requests s) (allocated s) (drive s) (t :: woken s).

Local Notation IO := (M Ata BlockDeviceError).

(** The four instructions. *)
Definition access {A} (f : Drive -> option (A * Drive)) : IO A := fun s =>
  match f (drive s) with
  | Some (a, d) => (Ok a, set_drive d s)
  | None => (Panic, s)
  end.
Definition in8 (port : Z) : IO Z := access (port_in8 port).
Definition in16 (port : Z) : IO Z := access (port_in16 port).
Definition out8 (port v : Z) : IO unit := access (fun d => (fun d' => (tt, d')) <$> port_out8 port v d).
Definition out16 (port v : Z) : IO unit := access (fun d => (fun d' => (tt, d')) <$> port_out16 port v d).

Definition lock_request (r : Z) : IO Request := fun s =>
  match requests s !! r with
  | Some rq => (Ok rq, s)
  | None => (Panic, s)
  end.

(** Words of a sector from its bytes, and back: [copy_nonoverlapping] between
    a buffer of [u8] and one of [u16]. *)
Fixpoint words_of_bytes (l : list Z) : list Z :=
  match l with
  | a :: b :: l' => from_le [a; b] :: words_of_bytes l'
  | _ => []
  end.

Definition bytes_of_words (l : list Z) : list Z := concat (to_le 2 <$> l).

Definition head_byte (disk lba : Z) : Z :=
  Z.lor (Z.lor 0xE0 (wrap 8 (Z.shiftl (Z.land disk 1) 4)))
    (wrap 8 (Z.land (Z.shiftr lba 24) 0x0F)).

Definition send_lba (disk lba : Z) : IO unit :=
  out8 ATA_SECTOR_COUNT 1;;
  out8 ATA_SECTOR (wrap 8 (Z.land lba 0xff));;
  out8 ATA_CYL_LO (wrap 8 (Z.land (Z.shiftr lba 8) 0xff));;
  out8 ATA_CYL_HI (wrap 8 (Z.land (Z.shiftr lba 16) 0xff));;
  out8 ATA_HEAD (head_byte disk lba).

Definition send_identify_command (request : Request) : IO unit :=
  rust_assert (rq_lba request =? 0);;
  send_lba (rq_disk request) (rq_lba request);;
  out8 ATA_COMMAND 0xEC.

Definition send_read_command (request : Request) : IO unit :=
  send_lba (rq_disk request) (rq_lba request);;
  out8 ATA_COMMAND 0x20.

(** The loop reads the status until data is wanted; the drive goes on between
    two readings. *)
Fixpoint wait_drq (fuel : nat) : IO unit :=
  match fuel with
  | O => diverge
  | S fuel =>
      modify (fun s => set_drive (tick (drive s)) s);;
      status ← in8 ATA_STATUS;
      if negb (Z.land status 0x80 =? 0) then wait_drq fuel
      else if negb (Z.land status 0x08 =? 0) then mret tt
      else wait_drq fuel
  end.

Definition send_write_command (fuel : nat) (request : Request) : IO unit :=
  send_lba (rq_disk request) (rq_lba request);;
  out8 ATA_COMMAND 0x30;;
  wait_drq fuel;;
  for_range 0 256 (fun i _ =>
    match rq_buffer request !! i with
    | Some w => out16 ATA_DATA w
    | None => panic
    end) tt.

Definition send_io_command (fuel : nat) (r : Z) : IO unit :=
  interrupt_enable ← in8 ATA_INTERRUPT_ENABLE;
  out8 ATA_INTERRUPT_ENABLE (Z.land interrupt_enable 0xfe);;
  request ← lock_request r;
  match rq_operate request with
  | Identify => send_identify_command request
  | Read => send_read_command request
  | Write => send_write_command fuel request
  end.

(** [for i in 0..256 { request.buffer[i] = in(ATA_DATA) }]. *)
Definition read_data (buffer : list Z) : IO (list Z) :=
  for_range 0 256 (fun i buffer =>
    w ← in16 ATA_DATA;
    if (i <? length buffer)%nat then mret (<[i := w]> buffer) else panic) buffer.

Definition complete (request : Request) (err : bool) (buffer : list Z) : Request :=
  mkRequest (rq_disk request) (rq_lba request) (rq_waker request) STATUS_OK
    (rq_operate request) buffer err.

(** The end of [ata_irq]: the next request of the queue. *)
Definition start_next (fuel : nat) : IO unit :=
  q ← gets queue;
  match q with
  | next :: q' =>
      modify (set_queue q');;
      send_io_command fuel next;;
      modify (set_inflight (Some next))
  | [] => mret tt
  end.

(** The request in flight is done: its data is taken, its task woken. *)
Definition finish_request (r : Z) (request : Request) (err_reg : bool) : IO unit :=
  buffer ← match rq_operate request with
           | Identify | Read =>
               if err_reg then mret (rq_buffer request) else read_data (rq_buffer request)
           | Write => mret (rq_buffer request)
           end;
  modify (set_request r (complete request err_reg buffer));;
  modify (wake (rq_waker request)).

(** [ata_irq] after the reading of the status. From [IrqGuard::cli] on it runs
    with interrupts off, so it is a step of its own; before, the handler can be
    interrupted and other tasks run. *)
Definition ata_irq_section (fuel : nat) (status : Z) : IO unit :=
  if negb (Z.land status 0x80 =? 0) then mret tt
  else
    let err_reg := negb (Z.land status 1 =? 0) in
    let drq_reg := negb (Z.land status 0x08 =? 0) in
    flying ← gets inflight;
    modify (set_inflight None);;
    match flying with
    | Some r =>
        request ← lock_request r;
        if (match rq_operate request with Read => true | _ => false end)
             && negb err_reg && negb drq_reg
        then modify (set_inflight (Some r))
        else finish_request r request err_reg;; start_next fuel
    | None => start_next fuel
    end.

Definition ata_irq (fuel : nat) : IO unit :=
  status ← in8 ATA_STATUS;
  ata_irq_section fuel status.

(** ** The futures *)

Inductive Poll (A : Type) : Type :=
  | Ready (a : A)
  | Pending.
Arguments Ready {A} a.
Arguments Pending {A}.

Inductive IdentifyDeviceFuture : Type :=
  | IdentifyInit (disk : Z)
  | IdentifyWait (r : Z)
  | IdentifyDone.

Inductive WriteBlockFuture : Type :=
  | WriteInit (driver : AtaLbaDriver) (block_index : Z) (buf : list Z)
  | WriteWait (r : Z)
  | WriteDone.

Inductive ReadBlockFuture : Type :=
  | ReadInit (driver : AtaLbaDriver) (block_index : Z) (buf : list Z)
  | ReadWait (buf : list Z) (r : Z)
  | ReadDone.

(** A request is sent when nothing is in flight and queued otherwise. *)
Definition submit (fuel : nat) (request : Request) : IO Z :=
  r ← gets allocated;
  modify (fun s => mkAta (inflight s) (queue s) (<[r := request]> (requests s)) (r + 1)
                     (drive s) (woken s));;
  flying ← gets inflight;
  match flying with
  | Some _ => modify (fun s => set_queue (queue s ++ [r]) s);; mret r
  | None => send_io_command fuel r;; modify (set_inflight (Some r));; mret r
  end.

Definition new_request (disk lba waker : Z) (operate : Operation) (buffer : list Z) : Request :=
  mkRequest disk lba waker STATUS_PENDING operate buffer false.

Definition poll_write_wait (r : Z) : IO (WriteBlockFuture * Poll (unit + BlockDeviceError)) :=
  request ← lock_request r;
  if negb (rq_status request =? STATUS_OK) then mret (WriteWait r, Pending)
  else mret (WriteDone, Ready (if rq_error request then inr IoError else inl tt)).

Definition poll_write (fuel : nat) (cx : Z) (self : WriteBlockFuture)
    : IO (WriteBlockFuture * Poll (unit + BlockDeviceError)) :=
  match self with
  | WriteInit driver block_index buf =>
      rust_assert (length buf =? 512)%nat;;
      r ← submit fuel (new_request (disk driver) block_index cx Write (words_of_bytes buf));
      poll_write_wait r
  | WriteWait r => poll_write_wait r
  | WriteDone => panic
  end.

Definition poll_read_wait (buf : list Z) (r : Z)
    : IO (ReadBlockFuture * Poll (list Z + BlockDeviceError)) :=
  request ← lock_request r;
  if negb (rq_status request =? STATUS_OK) then mret (ReadWait buf r, Pending)
  else mret (ReadDone, Ready (if rq_error request then inr IoError
                              else inl (splice 0 (bytes_of_words (rq_buffer request)) buf))).

Definition poll_read (fuel : nat) (cx : Z) (self : ReadBlockFuture)
    : IO (ReadBlockFuture * Poll (list Z + BlockDeviceError)) :=
  match self with
  | ReadInit driver block_index buf =>
      rust_assert (length buf =? 512)%nat;;
      r ← submit fuel (new_request (disk driver) block_index cx Read (replicate 256 0));
      poll_read_wait buf r
  | ReadWait buf r => poll_read_wait buf r
  | ReadDone => panic
  end.

Definition take_buffer (rq : Request) : Request :=
  mkRequest (rq_disk rq) (rq_lba rq) (rq_waker rq) (rq_status rq) (rq_operate rq) [] (rq_error rq).

Definition poll_identify_wait (r : Z)
    : IO (IdentifyDeviceFuture * Poll (list Z + BlockDeviceError)) :=
  request ← lock_request r;
  if negb (rq_status request =? STATUS_OK) then mret (IdentifyWait r, Pending)
  else if rq_error request then mret (IdentifyDone, Ready (inr IoError))
  else
    modify (set_request r (take_buffer request));;
    mret (IdentifyDone, Ready (inl (rq_buffer request))).

Definition poll_identify (fuel : nat) (cx : Z) (self : IdentifyDeviceFuture)
    : IO (IdentifyDeviceFuture * Poll (list Z + BlockDeviceError)) :=
  match self with
  | IdentifyInit disk =>
      r ← submit fuel (new_request disk 0 cx Identify (replicate 256 0));
      poll_identify_wait r
  | IdentifyWait r => poll_identify_wait r
  | IdentifyDone => panic
  end.

(** ** Waiting for a future

    Between two polls the drive goes on, and the processor takes the
    interrupt when the drive asks for it. *)
Definition advance (patience : nat) : IO unit :=
  modify (fun s => set_drive (tick (drive s)) s);;
  up ← gets (fun s => line (drive s));
  if up : bool then ata_irq patience else mret tt.

Fixpoint await {F A} (poll : F -> IO (F * Poll (A + BlockDeviceError))) (patience fuel : nat)
    (fut : F) : IO A :=
  match fuel with
  | O => diverge
  | S fuel =>
      p ← poll fut;
      match p with
      | (_, Ready (inl a)) => mret a
      | (_, Ready (inr e)) => throw e
      | (fut, Pending) => advance patience;; await poll patience fuel fut
      end
  end.

(** [AtaLbaDriver::new]. *)
Definition new (patience fuel : nat) (cx disk : Z) : IO AtaLbaDriver :=
  identity_information ← await (poll_identify patience cx) patience fuel (IdentifyInit disk);
  match identity_information !! 60%nat, identity_information !! 61%nat with
  | Some low, Some high => mret (mkDriver disk (Z.lor low (wrap 32 (Z.shiftl high 16))))
  | _, _ => panic
  end.
