(* ===== verification/AtaSpec.v ===== *)
(** * The queue of the ATA driver

    What the commands of [Ata.v] make the drive do, and the invariant of the
    queue of requests: the requests are served one after the other, in the
    order in which they were submitted. [perform] and [serve_all] are the
    specification of the disks; [queue_ok] relates the state of the driver and
    of the drive to it, and every operation of the driver keeps it. *)
From S2P Require Import Prelude Device Ata.
Import Drive.

(** ** Words and bytes *)

Definition is_word (w : Z) : Prop := 0 <= w < 2 ^ 16.

Lemma length_bytes_of_words l : length (bytes_of_words l) = (2 * length l)%nat.
Proof.
  induction l as [|w l IH]; [done|]. unfold bytes_of_words in *. cbn [fmap list_fmap concat length].
  rewrite length_app, IH, length_to_le. lia.
Qed.

Lemma bytes_of_words_bytes l : Forall is_byte (bytes_of_words l).
Proof.
  induction l as [|w l IH]; [constructor|]. unfold bytes_of_words in *. cbn.
  apply Forall_app; auto with cos.
Qed.

(** Two at a time. *)
Lemma pairs_ind (P : list Z -> Prop) :
  P [] -> (forall a, P [a]) -> (forall a b l, P l -> P (a :: b :: l)) -> forall l, P l.
Proof.
  intros H0 H1 H2 l. enough (P l /\ forall a, P (a :: l)) by naive_solver.
  induction l as [|x l [IH1 IH2]]; auto.
Qed.

Lemma bytes_of_words_of_bytes l n :
  length l = (2 * n)%nat -> Forall is_byte l -> bytes_of_words (words_of_bytes l) = l.
Proof.
  revert n. induction l as [|a|a b l IH] using pairs_ind; intros n Hl Hb; [done|cbn in Hl; lia|].
  rewrite !Forall_cons in Hb. destruct Hb as (Ha & Hb & Hl').
  unfold bytes_of_words in *. cbn [words_of_bytes fmap list_fmap concat].
  rewrite (IH (n - 1)%nat); [|cbn in Hl; lia|done].
  change (to_le 2 _) with (to_le (length [a; b]) (from_le [a; b])).
  by rewrite to_from_le by auto.
Qed.

Lemma length_words_of_bytes l n : length l = (2 * n)%nat -> length (words_of_bytes l) = n.
Proof.
  revert n. induction l as [|a|a b l IH] using pairs_ind; intros n Hl; cbn in *; [lia..|].
  rewrite (IH (n - 1)%nat) by lia. lia.
Qed.

Lemma words_of_bytes_words l : Forall is_byte l -> Forall is_word (words_of_bytes l).
Proof.
  induction l as [|a|a b l IH] using pairs_ind; intros Hb; [constructor..|].
  rewrite !Forall_cons in Hb. destruct Hb as (Ha & Hb & Hl'). constructor; [|auto].
  unfold is_word, is_byte in *. cbn. lia.
Qed.

(** ** The registers *)

Lemma wrap_low8 x : wrap 8 (Z.land x 0xff) = x `mod` 256.
Proof.
  unfold wrap. change 0xff with (Z.ones 8). rewrite Z.land_ones by lia. change (2 ^ 8) with 256. lia.
Qed.

(** The head register holds the drive and the top four bits of the address. *)
Lemma head_byte_spec k l :
  Z.testbit (head_byte k l) 6 = true /\
  (if Z.testbit (head_byte k l) 4 then 1 else 0) = k `mod` 2 /\
  Z.land (head_byte k l) 0x0F = (l / 2 ^ 24) `mod` 16.
Proof.
  unfold head_byte. rewrite Z.shiftr_div_pow2 by lia.
  assert (Z.land k 1 = k `mod` 2) as -> by exact (Z.land_ones k 1 ltac:(lia)).
  assert (Z.land (l / 2 ^ 24) 0x0F = (l / 2 ^ 24) `mod` 16) as -> by exact (Z.land_ones _ 4 ltac:(lia)).
  pose proof (Z.mod_pos_bound k 2 ltac:(lia)). pose proof (Z.mod_pos_bound (l / 2 ^ 24) 16 ltac:(lia)) as H'.
  generalize dependent ((l / 2 ^ 24) `mod` 16). intros h Hh.
  assert (Hk : k `mod` 2 = 0 \/ k `mod` 2 = 1) by lia.
  assert (Hc : In h (seqZ 0 16)) by (apply list_elem_of_In, elem_of_seqZ; lia). cbn in Hc.
  destruct Hk as [-> | ->]; repeat (destruct Hc as [<-|Hc]; [vm_compute; done|]); destruct Hc.
Qed.

Definition programmed (k l : Z) (d : Drive) : Drive :=
  set_registers 1 (l `mod` 256) ((l / 2 ^ 8) `mod` 256) ((l / 2 ^ 16) `mod` 256) (head_byte k l) d.

Lemma send_lba_run k l s :
  is_resting (drive s) = true -> send_lba k l s = (Ok tt, set_drive (programmed k l (drive s)) s).
Proof.
  intros Hr. unfold send_lba. rewrite !wrap_low8, !Z.shiftr_div_pow2 by lia.
  destruct s as [a b c e d w]. destruct d as [r1 r2 r3 r4 r5 r6 ph q m cp id pl sv mk]. cbn in Hr.
  by destruct ph.
Qed.

Lemma programmed_selected k l d : selected (programmed k l d) = k `mod` 2.
Proof. apply head_byte_spec. Qed.

Lemma programmed_address k l d : address (programmed k l d) = l `mod` 2 ^ 28.
Proof.
  unfold address, programmed. cbn [device lba_low lba_mid lba_high set_registers].
  rewrite (proj2 (proj2 (head_byte_spec k l))). lia.
Qed.

(** ** Running the code *)

Lemma bind_ok {S E A B} (m : M S E A) (f : A -> M S E B) s a s' :
  m s = (Ok a, s') -> (m ≫= f) s = f a s'.
Proof. unfold mbind, M_bind. by intros ->. Qed.

Lemma bind_diverge {S E A B} (m : M S E A) (f : A -> M S E B) s s' :
  m s = (Diverge, s') -> (m ≫= f) s = (Diverge, s').
Proof. unfold mbind, M_bind. by intros ->. Qed.

(** The command register, after the address. *)
Lemma out_command_run v k l s :
  is_resting (drive s) = true ->
  out8 ATA_COMMAND v (set_drive (programmed k l (drive s)) s) =
    match command v (programmed k l (drive s)) with
    | Some d => (Ok tt, set_drive d s)
    | None => (Panic, set_drive (programmed k l (drive s)) s)
    end.
Proof.
  intros Hr. unfold out8, access, port_out8. cbn [drive set_drive].
  unfold is_resting in *. cbn in Hr |- *. rewrite Hr. cbn. by destruct (command _ _).
Qed.

(** What the drive does not change by itself or through its ports. *)
Definition fixed (d : Drive) : (Z -> Z) * (Z -> list Z) * (nat -> nat * Fate) * bool :=
  (capacity d, identity d, plan d, mark d).

Lemma launch_fields c d t f :
  plan d (served d) = (t, f) ->
  launch c d = set_phase (Working t f c) false (set_served (S (served d)) d).
Proof. unfold launch. by intros ->. Qed.

Lemma launch_phase c p q d : launch c (set_phase p q d) = launch c d.
Proof. unfold launch. cbn. by destruct (plan d (served d)). Qed.

(** The drive asks for the data of a write, or never does. *)
Definition accepts (F t : nat) (f : Fate) (d : Drive) (k l : Z) : bool :=
  (t <? F)%nat && in_range d k l && match f with Fine => true | Fault _ => false end.

Lemma wait_drq_resting F s b :
  phase (drive s) = Resting b -> mark (drive s) = false -> exists s', wait_drq F s = (Diverge, s').
Proof.
  revert s. induction F as [|F IH]; intros s Hp Hm; [by eexists|].
  cbn [wait_drq]. unfold in8, access, modify, mbind, M_bind. cbn.
  unfold tick. rewrite Hp. cbn. unfold status. rewrite Hp, Hm.
  destruct b; cbn; apply IH; done.
Qed.

Lemma wait_drq_run F t f k l s :
  phase (drive s) = Working t f (WriteSector k l) -> mark (drive s) = false ->
  if accepts F t f (drive s) k l
  then wait_drq F s = (Ok tt, set_drive (set_phase (DataOut k l []) false (drive s)) s)
  else exists s', wait_drq F s = (Diverge, s').
Proof.
  revert t s. induction F as [|F IH]; intros t s Hp Hm; [by eexists|].
  destruct s as [s1 s2 s3 s4 d s6]. cbn in *. cbn [wait_drq].
  unfold in8, access, modify. unfold mbind, M_bind. cbn. unfold tick. rewrite Hp.
  destruct t as [|t].
  - unfold accepts. cbn. destruct f as [|ws]; cbn.
    + destruct (in_range d k l) eqn:Hr; cbn; unfold status; cbn; rewrite Hm; cbn; [done|].
      by eapply wait_drq_resting.
    + rewrite andb_false_r. unfold status; cbn; rewrite Hm; cbn. by eapply wait_drq_resting.
  - unfold status. cbn. rewrite Hm. cbn.
    specialize (IH t (mkAta s1 s2 s3 s4 (set_phase (Working t f (WriteSector k l)) false d) s6) eq_refl Hm).
    unfold accepts in *. cbn in *. change (S t <? S F)%nat with (t <? F)%nat. exact IH.
Qed.

Lemma out_data_run (buf : list Z) k l n i s :
  length buf = 256%nat -> (i + S n = 256)%nat -> phase (drive s) = DataOut k l (take i buf) ->
  for_range i (S n) (fun i _ =>
    match buf !! i with Some w => out16 ATA_DATA w | None => panic end) tt s =
  (Ok tt, set_drive (launch (Store k l buf) (drive s)) s).
Proof.
  intros Hl. revert i s. induction n as [|n IH]; intros i s Hi Hp.
  - destruct (lookup_lt_is_Some_2 buf i) as [w Hw]; [lia|].
    cbn [for_range]. rewrite Hw. unfold out16, access, mbind, M_bind. unfold port_out16. rewrite Hp.
    rewrite <-(take_S_r _ _ _ Hw), length_take_le by lia.
    replace (S i) with 256%nat by lia. cbn. by rewrite take_ge by lia.
  - destruct (lookup_lt_is_Some_2 buf i) as [w Hw]; [lia|].
    cbn [for_range]. erewrite bind_ok.
    2:{ rewrite Hw. unfold out16, access, port_out16. rewrite Hp, <-(take_S_r _ _ _ Hw), length_take_le by lia.
        rewrite (proj2 (Nat.eqb_neq (S i) 256)) by lia. reflexivity. }
    etrans; [apply IH; [lia|done]|]. cbn. by rewrite launch_phase.
Qed.

Lemma read_data_run (ws buf : list Z) n i s :
  length buf = 256%nat -> length ws = S n -> (i + S n = 256)%nat -> phase (drive s) = DataIn ws ->
  for_range i (S n) (fun i buffer =>
    w ← in16 ATA_DATA;
    if (i <? length buffer)%nat then mret (<[i := w]> buffer) else panic) buf s =
  (Ok (take i buf ++ ws), set_drive (set_phase (Resting false) (intrq (drive s)) (drive s)) s).
Proof.
  revert ws buf i s. induction n as [|n IH]; intros ws buf i s Hl Hw Hi Hp.
  - destruct ws as [|w [|]]; try done. cbn [for_range]. unfold in16, access, mbind, M_bind. unfold port_in16.
    rewrite Hp. cbn. rewrite Hl, (proj2 (Nat.leb_le _ _)) by lia. cbn. do 2 f_equal.
    replace buf with (take i buf ++ drop i buf) at 1 by apply take_drop.
    rewrite insert_app_r_alt by (rewrite length_take; lia). f_equal.
    rewrite length_take_le, Nat.sub_diag by lia.
    destruct (drop i buf) as [|y [|]] eqn:E; [|done|];
      apply (f_equal length) in E; rewrite length_drop in E; cbn in E; lia.
  - destruct ws as [|w [|w' ws]]; try done. cbn [for_range]. erewrite bind_ok.
    2:{ unfold in16, access, mbind, M_bind. unfold port_in16. rewrite Hp. cbn.
        rewrite Hl, (proj2 (Nat.leb_le _ _)) by lia. reflexivity. }
    etrans; [apply (IH (w' :: ws)); [by rewrite length_insert|cbn in *; lia|lia|done]|]. cbn.
    do 2 f_equal. rewrite (take_S_r _ _ w) by (apply list_lookup_insert_eq; lia).
    by rewrite take_insert_ge, <-app_assoc by lia.
Qed.

(** What the drive is to do for a request, and whether it takes a request at
    all: the first half of a write must succeed. *)
Definition job_of (rq : Request) : Command :=
  let k := rq_disk rq `mod` 2 in
  let l := rq_lba rq `mod` 2 ^ 28 in
  match rq_operate rq with
  | Identify => Identity k
  | Read => ReadSector k l
  | Write => Store k l (rq_buffer rq)
  end.

Definition accepted (F : nat) (rq : Request) (d : Drive) : bool :=
  match rq_operate rq with
  | Write =>
      let '(t, f) := plan d (served d) in
      accepts F t f d (rq_disk rq `mod` 2) (rq_lba rq `mod` 2 ^ 28)
  | _ => true
  end.

Definition rq_good (rq : Request) : Prop :=
  length (rq_buffer rq) = 256%nat /\ match rq_operate rq with Identify => rq_lba rq = 0 | _ => True end.

Record started (rq : Request) (d d' : Drive) : Prop := {
  st_fixed : fixed d' = fixed d;
  st_media : media d' = media d;
  st_line : no_interrupts d' = false;
  st_intrq : intrq d' = false;
  st_phase : exists n t f, plan d n = (t, f) /\ phase d' = Working t f (job_of rq);
}.

Lemma send_io_command_run F r rq s :
  is_resting (drive s) = true -> mark (drive s) = false -> requests s !! r = Some rq -> rq_good rq ->
  if accepted F rq (drive s)
  then exists d', send_io_command F r s = (Ok tt, set_drive d' s) /\ started rq (drive s) d'
  else exists s', send_io_command F r s = (Diverge, s').
Proof.
  intros Hr Hm Hrq [Hl Hi]. unfold send_io_command.
  assert (Hs : port_out8 ATA_INTERRUPT_ENABLE (Z.land (status (drive s)) 0xfe) (drive s) =
    Some (set_control false (drive s))).
  { unfold port_out8, status. rewrite Hm. unfold is_resting in Hr. by destruct (phase (drive s)) as [[]| | |]. }
  erewrite bind_ok by reflexivity. cbn beta.
  erewrite bind_ok by (unfold out8, access; cbn [drive set_drive]; rewrite Hs; reflexivity).
  erewrite bind_ok by (unfold lock_request; cbn [requests set_drive]; rewrite Hrq; reflexivity).
  clear Hs. set (s1 := set_drive _ _).
  assert (Hr1 : is_resting (drive s1) = true) by done.
  destruct (head_byte_spec (rq_disk rq) (rq_lba rq)) as (H6 & _).
  set (k := rq_disk rq) in *. set (l := rq_lba rq) in *.
  pose proof (fun v => out_command_run v k l s1 Hr1) as Hc.
  destruct (plan (drive s) (served (drive s))) as [t f] eqn:Hpl.
  assert (Hpl1 : plan (programmed k l (drive s1)) (served (programmed k l (drive s1))) = (t, f)) by done.
  unfold accepted. rewrite Hpl. fold k l. destruct (rq_operate rq) eqn:Ho.
  - unfold send_identify_command. fold k l. rewrite (proj2 (Z.eqb_eq l 0) Hi). erewrite bind_ok by reflexivity.
    erewrite bind_ok by (by apply send_lba_run). rewrite Hc. cbn.
    erewrite launch_fields by done. eexists. split; [reflexivity|]. split; try done.
    eexists _, t, f. split; [exact Hpl|]. unfold job_of. rewrite Ho. cbn.
    fold k. by rewrite programmed_selected.
  - unfold send_read_command. fold k l. erewrite bind_ok by (by apply send_lba_run). rewrite Hc.
    unfold command. cbn [device sector_count programmed set_registers]. rewrite H6. cbn.
    erewrite launch_fields by done. eexists. split; [reflexivity|]. split; try done.
    eexists _, t, f. split; [exact Hpl|]. unfold job_of. rewrite Ho. cbn.
    fold k l. by rewrite programmed_selected, programmed_address.
  - unfold send_write_command. fold k l. erewrite bind_ok by (by apply send_lba_run).
    assert (Hcw : command 0x30 (programmed k l (drive s1)) =
      Some (launch (WriteSector (k `mod` 2) (l `mod` 2 ^ 28)) (programmed k l (drive s1)))).
    { unfold command. cbn [device sector_count programmed set_registers]. rewrite H6. cbn.
      by rewrite programmed_selected, programmed_address. }
    erewrite bind_ok by (rewrite Hc, Hcw; reflexivity). erewrite launch_fields by done. set (s2 := set_drive _ s1).
    pose proof (wait_drq_run F t f (k `mod` 2) (l `mod` 2 ^ 28) s2 eq_refl Hm) as Hw.
    change (accepts F t f (drive s2) _ _) with (accepts F t f (drive s) (k `mod` 2) (l `mod` 2 ^ 28)) in Hw.
    destruct (accepts _ _ _ _ _ _).
    + erewrite bind_ok by exact Hw. erewrite (out_data_run _ (k `mod` 2) (l `mod` 2 ^ 28)); [|done..].
      cbn. rewrite launch_phase.
      destruct (plan (drive s) (S (served (drive s)))) as [t' f'] eqn:Hpl'.
      erewrite launch_fields by exact Hpl'. eexists. split; [reflexivity|]. split; try done.
      eexists _, t', f'. split; [exact Hpl'|]. unfold job_of. by rewrite Ho.
    + destruct Hw as [s' Hw]. exists s'. by erewrite bind_diverge by exact Hw.
Qed.

(** ** Requests served one after the other

    The specification: the jobs of the futures, in the order of their first
    polls, performed one at a time. *)
Inductive Result : Type :=
  | Failed
  | Done (data : list Z).

Definition perform (d : Drive) (f : Fate) (c : Command) (m : Z -> Z -> list Z)
    : (Z -> Z -> list Z) * Result :=
  match c, f with
  | Identity k, Fine => (m, Done (identity d k))
  | ReadSector k l, Fine => if in_range d k l then (m, Done (m k l)) else (m, Failed)
  | Store k l ws, Fine => (sector_set m k l ws, Done [])
  | Store k l _, Fault ws => (sector_set m k l ws, Failed)
  | _, _ => (m, Failed)
  end.

Fixpoint serve_all (d : Drive) (l : list (Z * Command * Fate)) (m : Z -> Z -> list Z)
    (res : gmap Z Result) : (Z -> Z -> list Z) * gmap Z Result :=
  match l with
  | [] => (m, res)
  | (t, c, f) :: l' => let '(m', x) := perform d f c m in serve_all d l' m' (<[t := x]> res)
  end.

Lemma serve_all_snoc d l t c f m res m1 res1 :
  serve_all d l m res = (m1, res1) ->
  serve_all d (l ++ [(t, c, f)]) m res =
    let '(m2, x) := perform d f c m1 in (m2, <[t := x]> res1).
Proof.
  revert m res. induction l as [|[[t' c'] f'] l IH]; intros m res; cbn.
  - by intros [= -> ->].
  - destruct (perform d f' c' m) as [m' x]. apply IH.
Qed.

Lemma serve_all_dom d l m res m' res' t x :
  serve_all d l m res = (m', res') -> res' !! t = Some x -> res !! t = Some x \/ t ∈ l.*1.*1.
Proof.
  revert m res. induction l as [|[[t' c'] f'] l IH]; intros m res; cbn.
  - intros [= <- <-]. auto.
  - destruct (perform d f' c' m) as [m1 x1]. intros H Hx. rewrite elem_of_cons.
    destruct (IH _ _ H Hx) as [Hi|]; [|by auto].
    destruct (decide (t = t')) as [->|]; [by auto|]. rewrite lookup_insert_ne in Hi by done. auto.
Qed.

Lemma perform_finish f c d :
  match c with WriteSector _ _ => False | _ => True end ->
  let '(m, x) := perform d f c (media d) in
  media (finish f c d) = m /\ intrq (finish f c d) = true /\ fixed (finish f c d) = fixed d /\
  no_interrupts (finish f c d) = no_interrupts d /\
  phase (finish f c d) =
    match x, c with
    | Failed, _ => Resting true
    | Done ws, Store _ _ _ => Resting false
    | Done ws, _ => DataIn ws
    end.
Proof. destruct c, f; cbn; try done; by destruct (in_range _ _ _). Qed.

(** ** The invariant of the queue *)

Definition waits (s : Ata) (q : list Z) (js : list (Z * Command)) : Prop :=
  Forall2 (fun r tc => exists rq, requests s !! r = Some rq /\ rq_status rq = STATUS_PENDING /\
    tc = (rq_waker rq, job_of rq)) q js.

Definition delivers (o : Operation) (x : Result) (p : Phase) : Prop :=
  match x with
  | Failed => p = Resting true
  | Done ws => match o with Write => p = Resting false | _ => p = DataIn ws /\ length ws = 256%nat end
  end.

Definition flight (s : Ata) (waiting : list (Z * Command)) (res : gmap Z Result) : Prop :=
  match inflight s with
  | None => waits s (queue s) waiting /\ is_resting (drive s) = true
  | Some r => exists rq, requests s !! r = Some rq /\ rq_status rq = STATUS_PENDING /\
      no_interrupts (drive s) = false /\
      ((exists t f n t0, phase (drive s) = Working t f (job_of rq) /\ plan (drive s) n = (t0, f) /\
          (t <= t0)%nat /\ waits s (r :: queue s) waiting) \/
       (exists x, res !! rq_waker rq = Some x /\ intrq (drive s) = true /\
          delivers (rq_operate rq) x (phase (drive s)) /\ waits s (queue s) waiting))
  end.

(** The result of a request that is done. *)
Definition outcome_is (rq : Request) (x : Result) : Prop :=
  match x with
  | Failed => rq_error rq = true
  | Done ws => rq_error rq = false /\
      match rq_operate rq with
      | Read => rq_buffer rq = ws
      | Identify => rq_buffer rq = ws \/ rq_buffer rq = []
      | Write => True
      end
  end.

Definition request_ok (s : Ata) (res : gmap Z Result) (r : Z) (rq : Request) : Prop :=
  rq_status rq = STATUS_PENDING /\ rq_good rq /\ (inflight s = Some r \/ r ∈ queue s) \/
  rq_status rq = STATUS_OK /\ rq_waker rq ∈ woken s /\
    exists x, res !! rq_waker rq = Some x /\ outcome_is rq x.

Definition flying (s : Ata) : list Z :=
  match inflight s with Some r => r :: queue s | None => queue s end.

Record drive_ok (d : Drive) : Prop := {
  dr_media k l : length (media d k l) = 256%nat;
  dr_identity k : length (identity d k) = 256%nat;
  dr_plan n t ws : plan d n = (t, Fault ws) -> length ws = 256%nat;
  dr_mark : mark d = false;
}.

Definition is_working (d : Drive) : bool := match phase d with Working _ _ _ => true | _ => false end.

(** The drive asks for an interrupt only when it is done with the request in
    flight, if it did not ask for one before there were any. *)
Definition quiet (d0 : Drive) (s : Ata) : Prop :=
  intrq d0 = false -> intrq (drive s) = true -> is_Some (inflight s) /\ is_working (drive s) = false.

Record queue_ok (d0 : Drive) (s : Ata) (served waiting : list (Z * Command)) (fates : list Fate)
    (res : gmap Z Result) : Prop := {
  qo_fates : length fates = length served;
  qo_plan : Forall (fun f => exists n t, plan d0 n = (t, f)) fates;
  qo_run : serve_all d0 (zip served fates) (media d0) ∅ = (media (drive s), res);
  qo_distinct : NoDup (served ++ waiting).*1;
  qo_fixed : fixed (drive s) = fixed d0;
  qo_drive : drive_ok (drive s);
  qo_flight : flight s waiting res;
  qo_flying : NoDup (flying s);
  qo_requests r rq : requests s !! r = Some rq -> r < allocated s /\ request_ok s res r rq;
  qo_quiet : quiet d0 s;
}.

Lemma zip_keys {A B} (l : list (Z * A)) (k : list B) :
  length k = length l -> (zip l k).*1.*1 = l.*1.
Proof.
  revert k. induction l as [|x l IH]; intros [|y k] H; cbn in *; try lia; [done|].
  f_equal. apply IH. lia.
Qed.

(** Results of others stay. *)
Lemma result_fresh d0 s served waiting fates res t c x y t' :
  queue_ok d0 s served ((t, c) :: waiting) fates res ->
  res !! t' = Some x -> <[t := y]> res !! t' = Some x.
Proof.
  intros Q Hx. rewrite lookup_insert_ne; [done|]. intros ->.
  pose proof (qo_distinct _ _ _ _ _ _ Q) as Hn. rewrite fmap_app, NoDup_app in Hn.
  destruct (serve_all_dom _ _ _ _ _ _ _ _ (qo_run _ _ _ _ _ _ Q) Hx) as [He|He].
  - by rewrite lookup_empty in He.
  - rewrite zip_keys in He by apply Q. destruct Hn as (_ & Hn & _). apply (Hn _ He). cbn. left.
Qed.

Lemma fixed_eqs d d' : fixed d' = fixed d ->
  capacity d' = capacity d /\ identity d' = identity d /\ plan d' = plan d /\ mark d' = mark d.
Proof. unfold fixed. by intros [= -> -> -> ->]. Qed.

Lemma perform_fixed d d' f c m : fixed d' = fixed d -> perform d' f c m = perform d f c m.
Proof. intros (E1 & E2 & _)%fixed_eqs. unfold perform, in_range. by rewrite E1, E2. Qed.

(** The requests do not change: what is said of them stays. *)
Lemma queue_ok_drive d0 s served waiting fates res d' :
  queue_ok d0 s served waiting fates res ->
  fixed d' = fixed (drive s) -> media d' = media (drive s) ->
  flight (set_drive d' s) waiting res -> quiet d0 (set_drive d' s) ->
  queue_ok d0 (set_drive d' s) served waiting fates res.
Proof.
  intros [Q1 Qp Q2 Q3 Q4 Q5 Q6 Q7 Q8 Q9] Hf Hm Hfl Hqt. pose proof (fixed_eqs _ _ Hf) as (E1 & E2 & E3 & E4).
  split; cbn; try done.
  - by rewrite Hm.
  - by rewrite Hf.
  - split; rewrite ?Hm, ?E2, ?E3, ?E4; apply Q5.
Qed.

Lemma waits_drive d s q js : waits (set_drive d s) q js <-> waits s q js.
Proof. done. Qed.

Lemma sector_set_length m k l ws :
  (forall k l, length (m k l) = 256%nat) -> length ws = 256%nat ->
  forall k' l', length (sector_set m k l ws k' l') = 256%nat.
Proof. intros Hm Hw k' l'. unfold sector_set. by destruct (_ && _). Qed.

Lemma job_not_writing rq : match job_of rq with WriteSector _ _ => False | _ => True end.
Proof. unfold job_of. by destruct (rq_operate rq). Qed.

Lemma finish_drive_ok d0 s served waiting fates res f rq n t0 r :
  queue_ok d0 s served waiting fates res -> requests s !! r = Some rq -> rq_status rq = STATUS_PENDING ->
  plan (drive s) n = (t0, f) -> drive_ok (finish f (job_of rq) (drive s)).
Proof.
  intros Q Hrq Hp Hpl. destruct (qo_drive _ _ _ _ _ _ Q) as [D1 D2 D3 D4].
  destruct (qo_requests _ _ _ _ _ _ Q _ _ Hrq) as [_ [(_ & [Hg _] & _)|(Hs & _)]];
    [|rewrite Hp in Hs; done].
  unfold job_of. destruct (rq_operate rq), f; cbn; try (by split);
    try (by destruct (in_range _ _ _); split).
  - split; cbn; try done. by apply sector_set_length.
  - split; cbn; try done. apply sector_set_length; [done|]. by eapply D3.
Qed.

Lemma tick_ok d0 s served waiting fates res :
  queue_ok d0 s served waiting fates res ->
  queue_ok d0 (set_drive (tick (drive s)) s) served waiting fates res \/
  exists t c waiting' f x, waiting = (t, c) :: waiting' /\
    queue_ok d0 (set_drive (tick (drive s)) s) (served ++ [(t, c)]) waiting' (fates ++ [f]) (<[t := x]> res).
Proof.
  intros Q. pose proof (qo_flight _ _ _ _ _ _ Q) as Hfl. unfold flight in Hfl.
  assert (Hsame : tick (drive s) = drive s ->
    queue_ok d0 (set_drive (tick (drive s)) s) served waiting fates res).
  { intros ->. by destruct s. }
  destruct (inflight s) as [r|] eqn:Hin.
  2:{ left. apply Hsame. destruct Hfl as (_ & Hr). unfold is_resting in Hr. unfold tick.
      by destruct (phase (drive s)). }
  destruct Hfl as (rq & Hrq & Hp & Hni & [(t & f & n & t0 & Hph & Hpl & Ht & Hw)|(x & Hx & Hq & Hd & Hw)]).
  2:{ left. apply Hsame. unfold tick. unfold delivers in Hd.
      destruct x, (rq_operate rq); try (by rewrite Hd); by rewrite (proj1 Hd). }
  unfold tick. rewrite Hph. destruct t as [|t].
  2:{ left. apply queue_ok_drive; try done.
      - unfold flight. cbn. rewrite Hin. exists rq. split_and!; try done. left. exists t, f, n, t0. split_and!; [done..|lia|done].
      - intros H0 H1. destruct (qo_quiet _ _ _ _ _ _ Q H0 H1) as [_ Hw0]. unfold is_working in Hw0. by rewrite Hph in Hw0. }
  right. unfold waits in Hw. apply Forall2_cons_inv_l in Hw as ([t' c] & waiting' & (rq' & Hrq' & _ & Htc) & Hw & ->).
  assert (rq' = rq) as -> by congruence. injection Htc as -> ->.
  pose proof (perform_finish f (job_of rq) (drive s) (job_not_writing rq)) as Hpf.
  pose proof (finish_drive_ok _ _ _ _ _ _ _ _ _ _ _ Q Hrq Hp Hpl) as Hok.
  destruct (perform (drive s) f (job_of rq) (media (drive s))) as [m x] eqn:Hpe.
  destruct Hpf as (Hm & Hq & Hfx & Hni' & Hph'). exists (rq_waker rq), (job_of rq), waiting', f, x. split; [done|].
  pose proof Q as [Q1 Qp Q2 Q3 Q4 Q5 Q6 Q7 Q8 Q9]. split; cbn; try done.
  - rewrite !length_app, Q1. done.
  - apply Forall_app. split; [done|]. constructor; [|constructor]. exists n, t0.
    by destruct (fixed_eqs _ _ Q4) as (_ & _ & <- & _).
  - rewrite zip_with_app by done. cbn [zip_with]. rewrite (serve_all_snoc _ _ _ _ _ _ _ _ _ Q2).
    rewrite (perform_fixed (drive s) d0), Hpe by done. by rewrite Hm.
  - by rewrite <-app_assoc.
  - by rewrite Hfx.
  - unfold flight. cbn. rewrite Hin. exists rq. split_and!; try done; [by rewrite Hni'|].
    right. exists x. rewrite lookup_insert_eq, Hph'. split_and!; try done.
    assert (Hi : forall k, length (identity (drive s) k) = 256%nat) by apply Q5.
    assert (Hme : forall k l, length (media (drive s) k l) = 256%nat) by apply Q5.
    clear -Hpe Hi Hme. unfold job_of in *.
    destruct (rq_operate rq), f; cbn in Hpe; try (destruct (in_range _ _ _)); by simplify_eq.
  - intros r' rq' Hr'. destruct (Q8 _ _ Hr') as [Hlt [Hpend|(Hs & Hwk & y & Hy & Ho)]]; split; [done| |done|].
    + by left.
    + right. split_and!; try done. exists y. split; [|done]. by eapply result_fresh.
  - intros _ _. cbn. rewrite Hin. split; [done|]. unfold is_working. clear -Hph'. by destruct (phase (finish f (job_of rq) (drive s))), x, (job_of rq).
Qed.

(** What of the requests the handler does not change. *)
Definition key (rq : Request) : Z * Command * nat := (rq_waker rq, job_of rq, length (rq_buffer rq)).

Definition keys (s : Ata) : gmap Z (Z * Command * nat) := key <$> requests s.

(** A write the drive may refuse, or is too slow to accept. *)
Definition refusable (F : nat) (d : Drive) (s : Ata) : Prop :=
  exists r t k l ws n, keys s !! r = Some (t, Store k l ws, n) /\
    (in_range d k l = false \/ exists n t f, plan d n = (t, f) /\ ((F <= t)%nat \/ f <> Fine)).

Lemma accepted_refusable F d0 s r rq :
  fixed (drive s) = fixed d0 -> requests s !! r = Some rq -> accepted F rq (drive s) = false -> refusable F d0 s.
Proof.
  intros (E1 & E2 & E3 & E4)%fixed_eqs Hrq. unfold accepted.
  destruct (rq_operate rq) eqn:Ho; try done. destruct (plan _ _) as [t f] eqn:Hp. unfold accepts, in_range.
  rewrite E1, E3 in *. intros Ha.
  exists r, (rq_waker rq), (rq_disk rq `mod` 2), (rq_lba rq `mod` 2 ^ 28), (rq_buffer rq), (length (rq_buffer rq)). split.
  { unfold keys. rewrite lookup_fmap, Hrq. cbn. unfold key, job_of. by rewrite Ho. }
  fold (in_range d0 (rq_disk rq `mod` 2) (rq_lba rq `mod` 2 ^ 28)) in Ha.
  destruct (in_range d0 _ _); [|by left]. right. exists (served (drive s)), t, f. split; [done|].
  destruct (t <? F)%nat eqn:Hlt; [|left; by apply Nat.ltb_ge]. right. by destruct f.
Qed.

Definition idle (s : Ata) : Prop := inflight s = None -> queue s = [].

Lemma waits_requests s s' q js :
  (forall r, r ∈ q -> requests s' !! r = requests s !! r) -> waits s q js -> waits s' q js.
Proof.
  intros Hr. unfold waits. induction 1 as [|r tc q js (rq & H1 & H2 & H3) Hw IH]; [constructor|].
  constructor; [|apply IH; intros; apply Hr; by right].
  exists rq. rewrite Hr by left. done.
Qed.

(** A request that has been sent is in flight. *)
Lemma queue_ok_sent d0 s served waiting fates res r rq d' q :
  queue_ok d0 s served waiting fates res -> inflight s = None -> queue s = r :: q ->
  requests s !! r = Some rq -> rq_status rq = STATUS_PENDING -> started rq (drive s) d' ->
  queue_ok d0 (set_inflight (Some r) (set_drive d' (set_queue q s))) served waiting fates res.
Proof.
  intros [Q1 Qp Q2 Q3 Q4 Q5 Q6 Q7 Q8 Q9] Hin Hq Hrq Hp [S1 S2 S3 S4 (n & t & f & S5 & S6)].
  pose proof (fixed_eqs _ _ S1) as (E1 & E2 & E3 & E4).
  unfold flight in Q6. rewrite Hin, Hq in Q6. unfold flying in Q7. rewrite Hin, Hq in Q7.
  split; cbn; try done.
  - by rewrite S2.
  - by rewrite S1.
  - split; rewrite ?S2, ?E2, ?E3, ?E4; apply Q5.
  - exists rq. split_and!; try done. left. exists t, f, n, t. rewrite E3. split_and!; try done.
    eapply waits_requests; [|exact (proj1 Q6)]. done.
  - intros r' rq' Hr'. destruct (Q8 _ _ Hr') as [Hlt [(H1 & H2 & H3)|H]]; (split; [done|]); [left|right; done].
    split_and!; try done. cbn. rewrite Hin, Hq in H3. destruct H3 as [|[->|]%elem_of_cons]; auto; done.
  - intros _. cbn. by rewrite S4.
Qed.

Lemma pending_good d0 s served waiting fates res r rq :
  queue_ok d0 s served waiting fates res -> requests s !! r = Some rq -> rq_status rq = STATUS_PENDING ->
  rq_good rq.
Proof.
  intros Q Hr Hp. destruct (qo_requests _ _ _ _ _ _ Q _ _ Hr) as [_ [(_ & ? & _)|(Hs & _)]]; [done|].
  by rewrite Hp in Hs.
Qed.

Lemma start_next_ok F d0 s served waiting fates res :
  queue_ok d0 s served waiting fates res -> inflight s = None ->
  (exists s', start_next F s = (Ok tt, s') /\ queue_ok d0 s' served waiting fates res /\ idle s' /\
     flying s' = flying s /\ keys s' = keys s) \/
  (exists s', start_next F s = (Diverge, s') /\ refusable F d0 s).
Proof.
  intros Q Hin. unfold start_next. erewrite bind_ok by reflexivity.
  destruct (queue s) as [|r q] eqn:Hq; [left; exists s; split_and!; [done|done|by intros _|done|done]|].
  pose proof (qo_flight _ _ _ _ _ _ Q) as Hfl. unfold flight in Hfl. rewrite Hin, Hq in Hfl.
  destruct Hfl as [Hw Hr]. apply Forall2_cons_inv_l in Hw as ([t c] & w' & (rq & Hrq & Hp & _) & _ & _).
  pose proof (pending_good _ _ _ _ _ _ _ _ Q Hrq Hp) as Hg.
  erewrite bind_ok by reflexivity.
  pose proof (send_io_command_run F r rq (set_queue q s) Hr (dr_mark _ (qo_drive _ _ _ _ _ _ Q)) Hrq Hg) as Hs.
  destruct (accepted F rq _) eqn:Ha.
  - destruct Hs as (d' & Hs & Hst). left. erewrite bind_ok by exact Hs.
    eexists. split; [reflexivity|]. split_and!; [|by unfold idle|unfold flying; cbn; by rewrite Hin, Hq|done].
    by eapply queue_ok_sent.
  - destruct Hs as [s' Hs]. right. erewrite bind_diverge by exact Hs. exists s'. split; [done|].
    eapply accepted_refusable; [apply Q|exact Hrq|exact Ha].
Qed.

(** Reading the status takes the interrupt back. *)
Definition acked (s : Ata) : Ata :=
  set_inflight None (set_drive (set_phase (phase (drive s)) false (drive s)) s).

(** The handler takes what the drive delivers. *)
Lemma finish_request_ok d0 s served waiting fates res r rq x :
  queue_ok d0 s served waiting fates res ->
  inflight s = Some r -> requests s !! r = Some rq -> rq_status rq = STATUS_PENDING ->
  res !! rq_waker rq = Some x -> delivers (rq_operate rq) x (phase (drive s)) -> waits s (queue s) waiting ->
  exists s', finish_request r rq (match x with Failed => true | _ => false end) (acked s) = (Ok tt, s') /\
    queue_ok d0 s' served waiting fates res /\ inflight s' = None /\ flying s' = queue s /\ keys s' = keys s.
Proof.
  intros Q Hin Hrq Hp Hx Hd Hw. pose proof (pending_good _ _ _ _ _ _ _ _ Q Hrq Hp) as [Hl _].
  assert (Hb : exists buf d', (match rq_operate rq with
      | Identify | Read => if match x with Failed => true | _ => false end
                           then mret (rq_buffer rq) else read_data (rq_buffer rq)
      | Write => mret (rq_buffer rq) end : M Ata BlockDeviceError (list Z)) (acked s) =
      (Ok buf, set_drive d' (acked s)) /\ is_resting d' = true /\ fixed d' = fixed (drive s) /\
      media d' = media (drive s) /\ intrq d' = false /\ outcome_is (complete rq (match x with Failed => true | _ => false end) buf) x /\
      key (complete rq (match x with Failed => true | _ => false end) buf) = key rq).
  { destruct x as [|ws]; cbn in Hd.
    - exists (rq_buffer rq), (drive (acked s)). unfold is_resting, acked. cbn [drive set_inflight set_drive phase set_phase]. rewrite Hd. split_and!; try done. by destruct (rq_operate rq).
    - destruct (rq_operate rq) eqn:Ho; cbv iota.
      1,2: destruct Hd as [Hd Hlw]; unfold read_data;
        erewrite (read_data_run ws _ 255 0 (acked s)) by done;
        eexists _, _; split_and!; [reflexivity|done..|cbn; rewrite Ho; by auto|];
        unfold key, job_of; cbn; by rewrite Ho, take_0, app_nil_l, Hlw, Hl.
      exists (rq_buffer rq), (drive (acked s)). unfold is_resting, acked. cbn [drive set_inflight set_drive phase set_phase]. rewrite Hd. cbn. by rewrite Ho. }
  destruct Hb as (buf & d' & Hb & Hr & Hf & Hm & Hi' & Ho & Hk). unfold finish_request. erewrite bind_ok by exact Hb.
  erewrite bind_ok by reflexivity. eexists. split; [reflexivity|].
  set (rq' := complete _ _ _) in *.
  pose proof Q as [Q1 Qp Q2 Q3 Q4 Q5 Q6 Q7 Q8 Q9]. pose proof (fixed_eqs _ _ Hf) as (E1 & E2 & E3 & E4).
  unfold flying in Q7. rewrite Hin in Q7. apply NoDup_cons in Q7 as [Hnr Hnd].
  split_and!; [|done|done|].
  - split; cbn; try done.
    + by rewrite Hm.
    + by rewrite Hf.
    + split; rewrite ?Hm, ?E2, ?E3, ?E4; apply Q5.
    + split; [|done]. eapply waits_requests; [|exact Hw]. intros r' Hr'. cbn.
      rewrite lookup_insert_ne; [done|]. by intros ->.
    + intros r2 rq2. rewrite lookup_insert_Some. intros [[<- <-]|[Hne Hr2]].
      * split; [by apply (Q8 r rq)|]. right. split_and!; [done|cbn; left|]. by exists x.
      * destruct (Q8 _ _ Hr2) as [Hlt [(H1 & H2 & H3)|(H1 & H2 & H3)]]; (split; [done|]).
        -- left. split_and!; try done. cbn. right. destruct H3 as [H3|]; [|done]. congruence.
        -- right. split_and!; try done. cbn. by right.
    + intros _. cbn. by rewrite Hi'.
  - unfold keys. cbn. rewrite fmap_insert. apply insert_id.
    rewrite lookup_fmap, Hrq. cbn. by rewrite Hk.
Qed.

(** The status register, by the phase of the drive. *)
Lemma status_bits d :
  mark d = false ->
  negb (Z.land (status d) 0x80 =? 0) = match phase d with Working _ _ _ => true | _ => false end /\
  negb (Z.land (status d) 1 =? 0) = match phase d with Resting true => true | _ => false end /\
  negb (Z.land (status d) 0x08 =? 0) = match phase d with DataIn _ | DataOut _ _ _ => true | _ => false end.
Proof. unfold status. intros ->. by destruct (phase d) as [[]| | |]. Qed.


Lemma ata_irq_ok F d0 s served waiting fates res :
  queue_ok d0 s served waiting fates res -> idle s ->
  (exists s', ata_irq F s = (Ok tt, s') /\ queue_ok d0 s' served waiting fates res /\ idle s' /\
     keys s' = keys s /\
     if is_working (drive s) then flying s' = flying s /\ phase (drive s') = phase (drive s)
     else flying s' = tail (flying s)) \/
  (exists s', ata_irq F s = (Diverge, s') /\ refusable F d0 s).
Proof.
  intros Q Hid. unfold ata_irq. erewrite bind_ok by reflexivity. unfold ata_irq_section. cbn [set_drive drive].
  set (s1 := set_drive _ s).
  pose proof (status_bits (drive s) (dr_mark _ (qo_drive _ _ _ _ _ _ Q))) as (B1 & B2 & B3).
  rewrite B1, B2, B3. clear B1 B2 B3. unfold is_working.
  pose proof (qo_flight _ _ _ _ _ _ Q) as Hfl. unfold flight in Hfl.
  destruct (inflight s) as [r|] eqn:Hin.
  - destruct Hfl as (rq & Hrq & Hp & Hni & [(t & f & n & t0 & Hph & Hpl & Ht & Hw)|(x & Hx & Hq & Hd & Hw)]).
    + rewrite Hph. left. exists s1. split; [done|]. split_and!; try done.
      * apply queue_ok_drive; try done. unfold flight. cbn. rewrite Hin. exists rq. split_and!; try done.
        left. by exists t, f, n, t0.
    + assert (Hnw : match phase (drive s) with Working _ _ _ => true | _ => false end = false /\
        match phase (drive s) with Resting true => true | _ => false end =
          match x with Failed => true | _ => false end /\
        (match rq_operate rq with Read => true | _ => false end
          && negb (match x with Failed => true | _ => false end)
          && negb (match phase (drive s) with DataIn _ | DataOut _ _ _ => true | _ => false end)) = false).
      { unfold delivers in Hd. destruct x, (rq_operate rq); try (by rewrite Hd); by rewrite (proj1 Hd). }
      destruct Hnw as (-> & -> & Hb).
      destruct (finish_request_ok _ _ _ _ _ _ _ _ _ Q Hin Hrq Hp Hx Hd Hw) as (s2 & H2 & Q2 & Hin2 & Hf2 & Hk2).
      erewrite bind_ok by reflexivity. erewrite bind_ok by reflexivity. cbn [inflight s1 set_drive]. rewrite Hin.
      erewrite bind_ok by (unfold lock_request; cbn; rewrite Hrq; reflexivity).
      rewrite Hb. change (set_inflight None s1) with (acked s). erewrite bind_ok by exact H2.
      assert (Ht : tail (flying s) = flying s2) by (unfold flying in *; by rewrite Hf2, Hin). rewrite Ht.
      destruct (start_next_ok F _ _ _ _ _ _ Q2 Hin2) as [(s3 & H3 & Q3 & Hi3 & Hf3 & Hk3)|(s3 & H3 & Hr)].
      * left. exists s3. split_and!; try done. by rewrite Hk3.
      * right. exists s3. split; [done|]. unfold refusable in *. by rewrite <-Hk2.
  - destruct Hfl as [Hw Hr]. specialize (Hid Hin).
    assert (Hb : match phase (drive s) with Working _ _ _ => true | _ => false end = false).
    { unfold is_resting in Hr. by destruct (phase (drive s)). }
    rewrite Hb. erewrite bind_ok by reflexivity. erewrite bind_ok by reflexivity.
    cbn [inflight s1 set_drive]. rewrite Hin. unfold start_next. erewrite bind_ok by reflexivity. cbn. rewrite Hid.
    left. eexists. split; [reflexivity|]. change (set_inflight None s1) with (acked s).
    assert (acked s = s1) as -> by (unfold acked, set_inflight; cbn; by rewrite <-Hin).
    split_and!; try done.
    + apply queue_ok_drive; try done. unfold flight. cbn. by rewrite Hin.
    + by intros _.
    + unfold flying. cbn. by rewrite Hin, Hid.
Qed.

Lemma waits_known s q js r : waits s q js -> r ∈ q -> is_Some (requests s !! r).
Proof.
  intros Hw [i Hi]%list_elem_of_lookup_1. unfold waits in Hw.
  eapply Forall2_lookup_l in Hw as (tc & _ & rq & E & _); [|done]. by exists rq.
Qed.

Lemma flying_known s waiting res r : flight s waiting res -> r ∈ flying s -> is_Some (requests s !! r).
Proof.
  unfold flight, flying. destruct (inflight s) as [r'|].
  - intros (rq & E & _ & _ & [(? & ? & ? & ? & _ & _ & _ & H)|(? & _ & _ & _ & H)]) Hr.
    + by eapply waits_known.
    + apply elem_of_cons in Hr as [->|Hr]; [by exists rq|by eapply waits_known].
  - intros [H _]. by apply waits_known with waiting.
Qed.

(** A new request is sent or queued. *)
Lemma submit_ok F d0 s served waiting fates res rq :
  queue_ok d0 s served waiting fates res -> idle s ->
  rq_status rq = STATUS_PENDING -> rq_good rq -> rq_waker rq ∉ (served ++ waiting).*1 ->
  (exists s', submit F rq s = (Ok (allocated s), s') /\
     queue_ok d0 s' served (waiting ++ [(rq_waker rq, job_of rq)]) fates res /\ idle s' /\
     keys s' = <[allocated s := key rq]> (keys s) /\ requests s' = <[allocated s := rq]> (requests s) /\
     flying s' = flying s ++ [allocated s]) \/
  (exists s', submit F rq s = (Diverge, s') /\ accepted F rq (drive s) = false).
Proof.
  intros Q Hid Hp Hg Hfr. unfold submit. erewrite bind_ok by reflexivity. erewrite bind_ok by reflexivity.
  erewrite bind_ok by reflexivity. cbn [inflight]. set (s1 := mkAta _ _ _ _ _ _).
  pose proof Q as [Q1 Qp Q2 Q3 Q4 Q5 Q6 Q7 Q8 Q9].
  assert (Hnew : requests s !! allocated s = None).
  { destruct (requests s !! allocated s) eqn:E; [|done]. apply Q8 in E as [? _]. lia. }
  assert (Hother : forall r, r ∈ flying s -> requests s1 !! r = requests s !! r).
  { intros r [rq' Hr]%(flying_known _ _ _ _ Q6). cbn. rewrite lookup_insert_ne; [done|]. intros <-. congruence. }
  assert (Hw1 : waits s1 [allocated s] [(rq_waker rq, job_of rq)]).
  { constructor; [|constructor]. exists rq. cbn. by rewrite lookup_insert_eq. }
  assert (Hwq : forall q js, (forall r, r ∈ q -> r ∈ flying s) -> waits s q js ->
    waits s1 (q ++ [allocated s]) (js ++ [(rq_waker rq, job_of rq)])).
  { intros q js Hq Hw. apply Forall2_app; [|done]. eapply waits_requests; [|done]. auto. }
  assert (Q' : queue_ok d0 (set_queue (queue s ++ [allocated s]) s1) served
    (waiting ++ [(rq_waker rq, job_of rq)]) fates res).
  { split; cbn; try done.
    - rewrite app_assoc, fmap_app. cbn. apply NoDup_app. split_and!; [done| |apply NoDup_singleton].
      by intros t Ht ->%list_elem_of_singleton.
    - unfold flight, flying in *. cbn. destruct (inflight s) as [r|].
      + destruct Q6 as (rq' & E & P1 & P2 & H). exists rq'. split_and!; try done.
        { cbn. rewrite lookup_insert_ne; [done|]. intros <-. congruence. }
        destruct H as [(t & f & n & t0 & H1 & H2 & H3 & H4)|(x & H1 & H2 & H3 & H4)].
        * left. exists t, f, n, t0. split_and!; try done. apply (Hwq (r :: queue s)); [done|exact H4].
        * right. exists x. split_and!; try done. apply Hwq; [|exact H4]. intros. by right.
      + split; [|apply Q6]. apply Hwq; [done|apply Q6].
    - enough (NoDup (flying s ++ [allocated s])) by (unfold flying in *; by destruct (inflight s)).
      apply NoDup_app. split_and!; [done| |apply NoDup_singleton].
      intros r [rq' Hr]%(flying_known _ _ _ _ Q6) ->%list_elem_of_singleton. congruence.
    - intros r rq'. rewrite lookup_insert_Some. intros [[<- <-]|[Hne Hr]].
      + split; [lia|]. left. split_and!; try done. cbn. right. apply elem_of_app. right. by apply list_elem_of_singleton.
      + destruct (Q8 _ _ Hr) as [Hlt [(H1 & H2 & H3)|H]]; (split; [lia|]); [left|right; done].
        split_and!; try done. cbn. rewrite elem_of_app. naive_solver. }
  assert (Hk : keys s1 = <[allocated s:=key rq]> (keys s)) by (unfold keys; cbn; by rewrite fmap_insert).
  destruct (inflight s) as [r0|] eqn:Hin.
  - left. eexists. split; [reflexivity|]. cbn [mret M_ret]. split_and!; try done.
    unfold flying. cbn. by rewrite Hin.
  - specialize (Hid Hin). rewrite Hid in *.
    assert (Hrest : is_resting (drive s1) = true) by (unfold flight in Q6; rewrite Hin in Q6; apply Q6).
    pose proof (send_io_command_run F (allocated s) rq s1 Hrest (dr_mark _ Q5)
      ltac:(cbn; by rewrite lookup_insert_eq) Hg) as Hs.
    change (accepted F rq (drive s1)) with (accepted F rq (drive s)) in Hs.
    destruct (accepted F rq (drive s)) eqn:Ha.
    + destruct Hs as (d' & Hs & Hst). left. erewrite bind_ok by exact Hs. erewrite bind_ok by reflexivity.
      eexists. split; [reflexivity|]. split_and!; try done.
      * assert (E : set_queue [] (set_queue ([] ++ [allocated s]) s1) = s1)
          by (unfold s1, set_queue; cbn; by rewrite Hid).
        rewrite <-E at 1. eapply queue_ok_sent; try done. cbn. by rewrite lookup_insert_eq.
      * unfold flying. cbn. by rewrite Hin, Hid.
    + destruct Hs as [s' Hs]. right. erewrite bind_diverge by exact Hs. by exists s'.
Qed.

(** ** Time until the queue is empty *)

(** Rounds left until nothing is in flight. *)
Definition remaining (F : nat) (s : Ata) : nat :=
  match inflight s with
  | None => 0
  | Some _ => match phase (drive s) with Working t _ _ => t + 2 | _ => 1 end + length (queue s) * S F
  end.

(** A drive that never fails and is never slower than the loop waits. *)
Definition quick (F : nat) (d : Drive) : Prop :=
  forall n, exists t, plan d n = (t, Fine) /\ (t < F)%nat.

Lemma flight_quick F d0 s served waiting fates res r :
  queue_ok d0 s served waiting fates res -> quick F d0 -> inflight s = Some r ->
  (remaining F s <= S F + length (queue s) * S F)%nat /\
  (is_working (drive s) = false -> line (drive s) = true).
Proof.
  intros Q Hq Hin. pose proof (qo_flight _ _ _ _ _ _ Q) as Hf. unfold flight, remaining, line in *. rewrite Hin in *.
  destruct (fixed_eqs _ _ (qo_fixed _ _ _ _ _ _ Q)) as (_ & _ & Ep & _). unfold is_working.
  destruct Hf as (rq & _ & _ & Hni & [(t & f & n & t0 & Hp & Hpl & Ht & _)|(x & _ & Hi & Hd & _)]).
  - rewrite Hp. rewrite Ep in Hpl. destruct (Hq n) as (t1 & E & Hlt). rewrite E in Hpl. injection Hpl as <- <-.
    split; [lia|done].
  - rewrite Hi, Hni. split; [|done]. unfold delivers in Hd.
    destruct x, (rq_operate rq); try (rewrite Hd; lia); rewrite (proj1 Hd); lia.
Qed.

Lemma tick_working d : is_working d = true ->
  is_working (tick d) = false \/
  exists t f c, phase d = Working (S t) f c /\ phase (tick d) = Working t f c.
Proof.
  unfold is_working, tick. destruct (phase d) as [|[|t] f c| |] eqn:Hp; try done; intros _.
  - left. destruct c, f; cbn; try done; by destruct (in_range _ _ _).
  - right. by exists t, f, c.
Qed.

(** An interrupt takes the first request out, unless the drive works on it. *)
Lemma irq_remaining F d0 s served waiting fates res :
  queue_ok d0 s served waiting fates res -> idle s -> quick F d0 -> ~ refusable F d0 s ->
  exists s', ata_irq F s = (Ok tt, s') /\ queue_ok d0 s' served waiting fates res /\ idle s' /\ keys s' = keys s /\
    (remaining F s' <= if is_working (drive s) then remaining F s else length (queue s) * S F)%nat /\
    (forall r, r ∈ flying s' -> r ∈ flying s).
Proof.
  intros Q Hi Hq Hr. destruct (ata_irq_ok F _ _ _ _ _ _ Q Hi) as [(s' & Hs & Q' & Hi' & Hk & Hfl)|(s' & _ & ?)]; [|done].
  exists s'. split_and!; try done.
  2:{ intros r Hr'. destruct (is_working (drive s)); [by rewrite (proj1 Hfl) in Hr'|]. rewrite Hfl in Hr'.
      destruct (flying s); [done|by right]. }
  unfold flying in Hfl. destruct (inflight s') as [r'|] eqn:Hin'.
  2:{ unfold remaining. rewrite Hin'. destruct (is_working _); lia. }
  destruct (flight_quick F _ _ _ _ _ _ _ Q' Hq Hin') as [Hb _]. destruct (is_working (drive s)).
  - destruct Hfl as [Hfl Hp]. unfold remaining. rewrite Hin', Hp.
    destruct (inflight s) as [r|] eqn:Hin; [by injection Hfl as -> ->|].
    by rewrite (Hi Hin) in Hfl.
  - etrans; [exact Hb|]. destruct (inflight s) as [r|] eqn:Hin; cbn in Hfl; [|by rewrite (Hi Hin) in Hfl].
    rewrite <-Hfl. cbn. lia.
Qed.

Lemma advance_ok F d0 s served waiting fates res :
  queue_ok d0 s served waiting fates res -> idle s -> quick F d0 -> ~ refusable F d0 s ->
  exists s' served' waiting' fates' res', advance F s = (Ok tt, s') /\
    queue_ok d0 s' served' waiting' fates' res' /\ idle s' /\ keys s' = keys s /\
    served' ++ waiting' = served ++ waiting /\ (forall t x, res !! t = Some x -> res' !! t = Some x) /\
    (remaining F s' <= remaining F s - 1)%nat /\ (forall r, r ∈ flying s' -> r ∈ flying s).
Proof.
  intros Q Hi Hq Hnr. unfold advance. erewrite bind_ok by reflexivity. erewrite bind_ok by reflexivity. cbv beta.
  set (s1 := set_drive _ s).
  assert (Q1 : exists served' waiting' fates' res', queue_ok d0 s1 served' waiting' fates' res' /\
    served' ++ waiting' = served ++ waiting /\ forall t x, res !! t = Some x -> res' !! t = Some x).
  { destruct (tick_ok _ _ _ _ _ _ Q) as [Q1|(t & c & wt & f & x & -> & Q1)].
    - by exists served, waiting, fates, res.
    - do 4 eexists. split_and!; [exact Q1|by rewrite <-app_assoc|]. intros. by eapply result_fresh. }
  destruct Q1 as (sv & wt & fs & rs & Q1 & Hb & Hres).
  assert (Hrem : (remaining F s1 <= remaining F s - 1 \/
    is_working (drive s1) = false /\ length (queue s) * S F <= remaining F s - 1)%nat).
  { unfold remaining. cbn [s1 inflight set_drive queue drive].
    destruct (inflight s) as [r|] eqn:Hin; [|by left]. destruct (is_working (drive s)) eqn:Hw.
    - destruct (tick_working _ Hw) as [H|(t & f & c & H1 & H2)].
      + right. split; [done|]. destruct (phase (drive s)); lia.
      + left. rewrite H1, H2. lia.
    - right. split; [|destruct (phase (drive s)); lia]. unfold is_working, tick in *.
      by destruct (phase (drive s)) eqn:E; rewrite ?E. }
  destruct (line (drive s1)) eqn:Hl.
  - destruct (irq_remaining F _ _ _ _ _ _ Q1 Hi Hq Hnr) as (s' & Hs & Q' & Hi' & Hk' & Hr' & Hsub).
    exists s', sv, wt, fs, rs. split_and!; try done. destruct Hrem as [Hrem|[Hw Hrem]].
    + destruct (is_working _) eqn:Hw; [lia|]. etrans; [exact Hr'|]. etrans; [|exact Hrem].
      unfold remaining. cbn [s1 inflight set_drive queue drive].
      destruct (inflight s) eqn:Hin; [lia|]. rewrite (Hi Hin). cbn. lia.
    + rewrite Hw in Hr'. exact (Nat.le_trans _ _ _ Hr' Hrem).
  - exists s1, sv, wt, fs, rs. split_and!; try done. destruct Hrem as [|[Hw Hrem]]; [done|].
    destruct (inflight s1) as [r|] eqn:Hin.
    + destruct (flight_quick F _ _ _ _ _ _ _ Q1 Hq Hin) as [_ Hline]. rewrite (Hline Hw) in Hl. done.
    + unfold remaining at 1. rewrite Hin. lia.
Qed.
