(* ===== verification/AtaTasks.v ===== *)
(** * Tasks that read and write through the ATA driver

    Futures of the driver polled by any number of tasks, in any order with the
    work of the drive and the interrupts: the futures answer as if the jobs
    were performed one after the other, the ports are used as the standard
    allows, and every request is answered. *)
From S2P Require Import Prelude Device Ata AtaSpec.
Import Drive.

(** ** Tasks that use the disks

    Any number of futures, each polled by a task of its own, cancelled or not;
    the drive works and interrupts come at any time. In [exec] the handler of an
    interrupt is one step; the machine of the tasks, [step_tasks] below, lets
    them run between its reading of the status and its section, and is proved to
    do nothing that [exec] does not do. *)
Inductive Fut : Type :=
  | FIdentify (f : IdentifyDeviceFuture)
  | FRead (f : ReadBlockFuture)
  | FWrite (f : WriteBlockFuture)
  | FDropped.

Inductive Answer : Type :=
  | Words (l : list Z)
  | Bytes (l : list Z)
  | Written
  | Error (e : BlockDeviceError).

(** [begun]: the futures that have been polled, in the order of their first
    polls, with what they want of the drive. *)
Record World : Type := mkWorld {
  ata : Ata;
  futures : gmap Z Fut;
  answers : gmap Z Answer;
  begun : list (Z * Command);
}.

Inductive Event : Type :=
  | Spawn (t : Z) (f : Fut)
  | PollTask (t : Z)
  | Cancel (t : Z)
  | Work
  | Interrupt.

(** A future at its start, with a buffer of the size of a block. *)
Definition spawnable (f : Fut) : bool :=
  match f with
  | FIdentify (IdentifyInit _) => true
  | FRead (ReadInit _ _ buf) => (length buf =? 512)%nat
  | FWrite (WriteInit _ _ buf) => (length buf =? 512)%nat
  | _ => false
  end.

Definition first_job (t : Z) (f : Fut) : list (Z * Command) :=
  match f with
  | FIdentify (IdentifyInit k) => [(t, job_of (new_request k 0 t Identify (replicate 256 0)))]
  | FRead (ReadInit dr i _) => [(t, job_of (new_request (disk dr) i t Read (replicate 256 0)))]
  | FWrite (WriteInit dr i buf) => [(t, job_of (new_request (disk dr) i t Write (words_of_bytes buf)))]
  | _ => []
  end.

Definition polled {Ft A} (fut : Ft -> Fut) (ans : A -> Answer) (t : Z) (f : Ft) (w : World)
    (r : outcome BlockDeviceError (Ft * Poll (A + BlockDeviceError)) * Ata) : outcome unit World :=
  match r with
  | (Ok (f', p), s') =>
      Ok (mkWorld s' (<[t := fut f']> (futures w))
           (match p with
            | Ready (inl a) => <[t := ans a]> (answers w)
            | Ready (inr e) => <[t := Error e]> (answers w)
            | Pending => answers w
            end)
           (begun w ++ first_job t (fut f)))
  | (Diverge, _) => Diverge
  | _ => Panic
  end.

(** [Err] is an event that cannot happen now. *)
Definition exec (F : nat) (ev : Event) (w : World) : outcome unit World :=
  match ev with
  | Spawn t f =>
      if spawnable f && bool_decide (futures w !! t = None)
      then Ok (mkWorld (ata w) (<[t := f]> (futures w)) (answers w) (begun w))
      else Err tt
  | PollTask t =>
      match answers w !! t, futures w !! t with
      | None, Some (FIdentify f) => polled FIdentify Words t f w (poll_identify F t f (ata w))
      | None, Some (FRead f) => polled FRead Bytes t f w (poll_read F t f (ata w))
      | None, Some (FWrite f) => polled FWrite (fun _ => Written) t f w (poll_write F t f (ata w))
      | _, _ => Err tt
      end
  | Cancel t =>
      match futures w !! t with
      | Some _ => Ok (mkWorld (ata w) (<[t := FDropped]> (futures w)) (answers w) (begun w))
      | None => Err tt
      end
  | Work =>
      Ok (mkWorld (set_drive (tick (drive (ata w))) (ata w)) (futures w) (answers w) (begun w))
  | Interrupt =>
      match ata_irq F (ata w) with
      | (Ok _, s') => Ok (mkWorld s' (futures w) (answers w) (begun w))
      | (Diverge, _) => Diverge
      | _ => Panic
      end
  end.

Definition world_step (F : nat) (w w' : World) : Prop := exists ev, exec F ev w = Ok w'.

Definition boot (d : Drive) : World := mkWorld (mkAta None [] ∅ 0 d []) ∅ ∅ [].

Definition world_reachable (F : nat) (d : Drive) : World -> Prop := rtc (world_step F) (boot d).

(** ** The invariant of the tasks *)

Definition answer_of (c : Command) (x : Result) : Answer :=
  match x, c with
  | Failed, _ => Error IoError
  | Done ws, Identity _ => Words ws
  | Done ws, ReadSector _ _ => Bytes (bytes_of_words ws)
  | Done _, _ => Written
  end.

Definition future_ok (w : World) (t : Z) (f : Fut) : Prop :=
  match f with
  | FIdentify (IdentifyWait r) => exists k, keys (ata w) !! r = Some (t, Identity k, 256%nat)
  | FRead (ReadWait buf r) => length buf = 512%nat /\
      exists k l, keys (ata w) !! r = Some (t, ReadSector k l, 256%nat)
  | FWrite (WriteWait r) => exists k l ws, keys (ata w) !! r = Some (t, Store k l ws, 256%nat)
  | FIdentify IdentifyDone | FRead ReadDone | FWrite WriteDone => is_Some (answers w !! t)
  | FDropped => True
  | _ => spawnable f = true /\ t ∉ (begun w).*1
  end.

Record world_inv (d0 : Drive) (w : World) (served waiting : list (Z * Command)) (fates : list Fate)
    (res : gmap Z Result) : Prop := {
  wi_begun : begun w = served ++ waiting;
  wi_queue : queue_ok d0 (ata w) served waiting fates res;
  wi_idle : idle (ata w);
  wi_keys r t c n : keys (ata w) !! r = Some (t, c, n) -> (t, c) ∈ begun w;
  wi_futures t f : futures w !! t = Some f -> future_ok w t f;
  wi_known t : t ∈ (begun w).*1 -> is_Some (futures w !! t);
  wi_answers t a : answers w !! t = Some a ->
    exists c x, (t, c) ∈ begun w /\ res !! t = Some x /\ a = answer_of c x;
}.

Definition world_ok (d0 : Drive) (w : World) : Prop :=
  exists served waiting fates res, world_inv d0 w served waiting fates res.

(** The request behind a key. *)
Lemma keys_lookup s r t c n :
  keys s !! r = Some (t, c, n) ->
  exists rq, requests s !! r = Some rq /\ rq_waker rq = t /\ job_of rq = c /\ length (rq_buffer rq) = n.
Proof.
  unfold keys. rewrite lookup_fmap. destruct (requests s !! r) as [rq|]; [|done].
  cbn. unfold key. intros [= <- <- <-]. by exists rq.
Qed.

(** A request that is done tells the result of its job. *)
Lemma request_done d0 s served waiting fates res r rq :
  queue_ok d0 s served waiting fates res -> requests s !! r = Some rq ->
  if negb (rq_status rq =? STATUS_OK) then r ∈ flying s
  else exists x, res !! rq_waker rq = Some x /\ outcome_is rq x.
Proof.
  intros Q Hr. destruct (qo_requests _ _ _ _ _ _ Q _ _ Hr) as [_ [(-> & _ & H)|(-> & _ & H)]]; [|done].
  cbn. unfold flying. destruct H as [->|H]; [by left|]. destruct (inflight s); [by right|done].
Qed.

Lemma job_operate rq :
  match job_of rq with
  | Identity _ => rq_operate rq = Identify
  | ReadSector _ _ => rq_operate rq = Read
  | _ => rq_operate rq = Write
  end.
Proof. unfold job_of. by destruct (rq_operate rq). Qed.

Lemma poll_read_wait_ok d0 s served waiting fates res buf r t k l :
  queue_ok d0 s served waiting fates res -> keys s !! r = Some (t, ReadSector k l, 256%nat) ->
  length buf = 512%nat ->
  r ∈ flying s /\ poll_read_wait buf r s = (Ok (ReadWait buf r, Pending), s) \/
  exists x y, res !! t = Some x /\ poll_read_wait buf r s = (Ok (ReadDone, Ready y), s) /\
    match y with inl b => Bytes b | inr e => Error e end = answer_of (ReadSector k l) x.
Proof.
  intros Q (rq & Hr & <- & Hj & Hl)%keys_lookup Hb. pose proof (request_done _ _ _ _ _ _ _ _ Q Hr) as Hd.
  pose proof (job_operate rq) as Ho. rewrite Hj in Ho.
  unfold poll_read_wait. erewrite bind_ok by (unfold lock_request; rewrite Hr; reflexivity).
  destruct (negb _); [by left|]. right. destruct Hd as (x & Hx & Hout). exists x. eexists. split_and!; [done|reflexivity|].
  unfold outcome_is in Hout. rewrite Ho in Hout. destruct x as [|ws]; [by rewrite Hout|].
  destruct Hout as [-> <-]. cbn. by rewrite splice_full by (rewrite length_bytes_of_words; lia).
Qed.

Lemma poll_write_wait_ok d0 s served waiting fates res r t k l ws n :
  queue_ok d0 s served waiting fates res -> keys s !! r = Some (t, Store k l ws, n) ->
  r ∈ flying s /\ poll_write_wait r s = (Ok (WriteWait r, Pending), s) \/
  exists x y, res !! t = Some x /\ poll_write_wait r s = (Ok (WriteDone, Ready y), s) /\
    match y with inl _ => Written | inr e => Error e end = answer_of (Store k l ws) x.
Proof.
  intros Q (rq & Hr & <- & Hj & Hl)%keys_lookup. pose proof (request_done _ _ _ _ _ _ _ _ Q Hr) as Hd.
  unfold poll_write_wait. erewrite bind_ok by (unfold lock_request; rewrite Hr; reflexivity).
  destruct (negb _); [by left|]. right. destruct Hd as (x & Hx & Hout). exists x. eexists. split_and!; [done|reflexivity|].
  unfold outcome_is in Hout. destruct x as [|ws']; [by rewrite Hout|]. by destruct Hout as [-> _].
Qed.

(** The identification takes the words away from the request. *)
Lemma take_buffer_ok d0 s served waiting fates res r rq k :
  queue_ok d0 s served waiting fates res -> requests s !! r = Some rq -> rq_status rq = STATUS_OK ->
  job_of rq = Identity k -> queue_ok d0 (set_request r (take_buffer rq) s) served waiting fates res.
Proof.
  intros [Q1 Qp Q2 Q3 Q4 Q5 Q6 Q7 Q8 Q9] Hr Hs Hj. assert (Hn : STATUS_PENDING <> STATUS_OK) by done. split; try done.
  - assert (Hw : forall q js, waits s q js -> waits (set_request r (take_buffer rq) s) q js).
    { intros q js H. eapply Forall2_impl; [exact H|]. intros r' tc (rq' & E & P & J). exists rq'.
      split; [|done]. cbn. rewrite lookup_insert_ne; [done|]. intros <-. congruence. }
    unfold flight in *. cbn. destruct (inflight s) as [r0|]; [|naive_solver].
    destruct Q6 as (rq0 & E & P & N & H). exists rq0. split_and!; try done.
    { cbn. rewrite lookup_insert_ne; [done|]. intros <-. congruence. }
    destruct H as [(t & f & n & t0 & ? & ? & ? & ?)|(x & ? & ? & ? & ?)]; [left|right].
    + exists t, f, n, t0. split_and!; try done. by apply Hw.
    + exists x. split_and!; try done. by apply Hw.
  - cbn. intros r' rq'. rewrite lookup_insert_Some. intros [[<- <-]|[Hne Hr']]; [|by apply Q8].
    destruct (Q8 _ _ Hr) as [Hlt [(H & _)|(_ & Hw & x & Hx & Ho)]]; [congruence|].
    split; [done|]. right. split_and!; try done. exists x. split; [done|].
    pose proof (job_operate rq) as Hop. rewrite Hj in Hop. unfold outcome_is in *. cbn.
    destruct x; [done|]. rewrite Hop in *. naive_solver.
Qed.

Lemma poll_identify_wait_ok d0 s served waiting fates res r t k :
  queue_ok d0 s served waiting fates res -> keys s !! r = Some (t, Identity k, 256%nat) ->
  r ∈ flying s /\ poll_identify_wait r s = (Ok (IdentifyWait r, Pending), s) \/
  exists x y s', res !! t = Some x /\ poll_identify_wait r s = (Ok (IdentifyDone, Ready y), s') /\
    match y with inl ws => Words ws | inr e => Error e end = answer_of (Identity k) x /\
    queue_ok d0 s' served waiting fates res /\ inflight s' = inflight s /\ queue s' = queue s /\
    allocated s' = allocated s /\ exists n, keys s' = <[r := (t, Identity k, n)]> (keys s).
Proof.
  intros Q Hk. pose proof Hk as (rq & Hr & <- & Hj & Hl)%keys_lookup.
  pose proof (request_done _ _ _ _ _ _ _ _ Q Hr) as Hd. pose proof (job_operate rq) as Ho. rewrite Hj in Ho.
  unfold poll_identify_wait. erewrite bind_ok by (unfold lock_request; rewrite Hr; reflexivity).
  destruct (negb (rq_status rq =? STATUS_OK)) eqn:Hs; [by left|]. right. destruct Hd as (x & Hx & Hout). exists x.
  unfold outcome_is in Hout. rewrite Ho in Hout. bool_to_prop. destruct x as [|ws].
  - rewrite Hout. exists (inr IoError), s. split_and!; try done. exists 256%nat. by rewrite insert_id.
  - destruct Hout as [-> [Hb|Hb]]; [|by rewrite Hb in Hl]. eexists _, _. split_and!; [done|reflexivity|by rewrite Hb|..|]; try done.
    + by eapply take_buffer_ok.
    + exists 0%nat. unfold keys. cbn. rewrite fmap_insert. f_equal. unfold key, job_of in *. cbn. rewrite Ho in *. by rewrite Hj.
Qed.

Lemma future_ok_mono w w' t f :
  (forall r c, keys (ata w) !! r = Some (t, c, 256%nat) -> keys (ata w') !! r = Some (t, c, 256%nat)) ->
  (is_Some (answers w !! t) -> is_Some (answers w' !! t)) ->
  (t ∉ (begun w).*1 -> t ∉ (begun w').*1) ->
  future_ok w t f -> future_ok w' t f.
Proof.
  intros Hk Ha Hb. destruct f as [[]|[]|[]|]; cbn; naive_solver.
Qed.

(** The ground of every step of a task: [t0] is polled, and [js] is its job
    if that is the first time. *)
Section poll.
  Context (F : nat) (d0 : Drive) (w : World) (served waiting : list (Z * Command)) (fates : list Fate)
    (res : gmap Z Result) (t0 : Z) (f0 : Fut) (s' : Ata).
Let js := first_job t0 f0.
  Hypothesis W : world_inv d0 w served waiting fates res.
  Hypothesis Hf0 : futures w !! t0 = Some f0.
  Hypothesis Ha0 : answers w !! t0 = None.
  Hypothesis Hq : queue_ok d0 s' served (waiting ++ js) fates res.
  Hypothesis Hid : idle s'.
  Hypothesis Hkeys : forall t r c, t <> t0 ->
    keys (ata w) !! r = Some (t, c, 256%nat) -> keys s' !! r = Some (t, c, 256%nat).
  Hypothesis Hnew : forall r t c n, keys s' !! r = Some (t, c, n) -> (t, c) ∈ begun w ++ js.

Lemma first_job_task j : j ∈ js -> j.1 = t0.
Proof. unfold js. destruct f0 as [[]|[]|[]|]; cbn; rewrite ?list_elem_of_singleton; try set_solver; by intros ->. Qed.

Lemma world_poll f' ans' :
  (ans' = answers w \/ exists c x, (t0, c) ∈ begun w ++ js /\ res !! t0 = Some x /\
     ans' = <[t0 := answer_of c x]> (answers w)) ->
  future_ok (mkWorld s' (<[t0 := f']> (futures w)) ans' (begun w ++ js)) t0 f' ->
  world_inv d0 (mkWorld s' (<[t0 := f']> (futures w)) ans' (begun w ++ js)) served (waiting ++ js) fates res.
Proof.
  intros Hans Hf'. destruct W as [W1 W2 W3 W4 W5 W6 W7]. split; cbn; try done.
  - by rewrite W1, app_assoc.
  - intros t f. rewrite lookup_insert_Some. intros [[<- <-]|[Hne Hf]]; [done|].
    eapply future_ok_mono; [..|by apply W5]; cbn.
    + intros r c. by apply Hkeys.
    + destruct Hans as [->|(c & x & _ & _ & ->)]; [done|]. by rewrite lookup_insert_ne.
    + intros Hn. rewrite fmap_app, elem_of_app. intros [?|(j & -> & Hj)%list_elem_of_fmap]; [done|].
      by apply first_job_task in Hj.
  - intros t. rewrite fmap_app, elem_of_app. destruct (decide (t = t0)) as [->|Hne].
    { by rewrite lookup_insert_eq. }
    rewrite lookup_insert_ne by done. intros [?|(j & -> & Hj)%list_elem_of_fmap]; [by apply W6|].
    by apply first_job_task in Hj.
  - intros t a Ht. assert (Hold : forall a, answers w !! t = Some a -> exists c x,
      (t, c) ∈ begun w ++ js /\ res !! t = Some x /\ a = answer_of c x).
    { intros a' (c & x & H1 & H2 & H3)%W7. exists c, x. rewrite elem_of_app. auto. }
    destruct Hans as [->|(c & x & Hc & Hx & ->)]; [by apply Hold|].
    rewrite lookup_insert_Some in Ht. destruct Ht as [[<- <-]|[_ Ht]]; [|by apply Hold]. by exists c, x.
Qed.

Definition good (o : outcome unit World) : Prop :=
  match o with Ok w' => world_inv d0 w' served (waiting ++ js) fates res | _ => False end.

Lemma read_wait_world f buf r k l :
  f0 = FRead f -> keys s' !! r = Some (t0, ReadSector k l, 256%nat) -> length buf = 512%nat ->
  good (polled FRead Bytes t0 f w (poll_read_wait buf r s')).
Proof.
  intros E Hk Hb. pose proof (Hnew _ _ _ _ Hk) as Hin. unfold good, polled. rewrite <-E. fold js.
  destruct (poll_read_wait_ok _ _ _ _ _ _ buf _ _ _ _ Hq Hk Hb) as [[_ ->]|(x & y & Hx & -> & Hy)].
  - apply world_poll; [by left|]. cbn. eauto.
  - destruct y; apply world_poll; cbn; try (rewrite lookup_insert_eq; by eauto);
      right; exists (ReadSector k l), x; by rewrite <-Hy.
Qed.

Lemma write_wait_world f r k l ws :
  f0 = FWrite f -> keys s' !! r = Some (t0, Store k l ws, 256%nat) ->
  good (polled FWrite (fun _ => Written) t0 f w (poll_write_wait r s')).
Proof.
  intros E Hk. pose proof (Hnew _ _ _ _ Hk) as Hin. unfold good, polled. rewrite <-E. fold js.
  destruct (poll_write_wait_ok _ _ _ _ _ _ _ _ _ _ _ _ Hq Hk) as [[_ ->]|(x & y & Hx & -> & Hy)].
  - apply world_poll; [by left|]. cbn. eauto.
  - destruct y; apply world_poll; cbn; try (rewrite lookup_insert_eq; by eauto);
      right; exists (Store k l ws), x; by rewrite <-Hy.
Qed.
End poll.

Lemma identify_wait_world d0 w served waiting fates res t0 f s' r k :
  let js := first_job t0 (FIdentify f) in
  world_inv d0 w served waiting fates res -> futures w !! t0 = Some (FIdentify f) -> answers w !! t0 = None ->
  queue_ok d0 s' served (waiting ++ js) fates res -> idle s' ->
  (forall t r c, t <> t0 ->
    keys (ata w) !! r = Some (t, c, 256%nat) -> keys s' !! r = Some (t, c, 256%nat)) ->
  (forall r t c n, keys s' !! r = Some (t, c, n) -> (t, c) ∈ begun w ++ js) ->
  keys s' !! r = Some (t0, Identity k, 256%nat) ->
  good d0 served waiting fates res t0 (FIdentify f) (polled FIdentify Words t0 f w (poll_identify_wait r s')).
Proof.
  intros js W Hf Ha Hq Hid Hkeys Hnew Hk. pose proof (Hnew _ _ _ _ Hk) as Hin. unfold good, polled.
  destruct (poll_identify_wait_ok _ _ _ _ _ _ _ _ _ Hq Hk)
    as [[_ ->]|(x & y & s'' & Hx & -> & Hy & Hq'' & Hi & Hqq & _ & n & Hk'')].
  - eapply world_poll; [done..|by left|]. cbn. eauto.
  - assert (Hid'' : idle s'') by (unfold idle; by rewrite Hi, Hqq).
    assert (Hkeys'' : forall t r c, t <> t0 ->
      keys (ata w) !! r = Some (t, c, 256%nat) -> keys s'' !! r = Some (t, c, 256%nat)).
    { intros t r' c Hne Hkr. rewrite Hk''. apply (Hkeys _ _ _ Hne) in Hkr. rewrite lookup_insert_ne; [done|].
      intros ->. congruence. }
    assert (Hnew'' : forall r t c n, keys s'' !! r = Some (t, c, n) -> (t, c) ∈ begun w ++ js).
    { intros r' t c n'. rewrite Hk'', lookup_insert_Some. intros [[<- [= <- <- <-]]|[_ H]]; eauto. }
    destruct y; eapply world_poll; cbn; try done; try (rewrite lookup_insert_eq; by eauto);
      right; exists (Identity k), x; by rewrite <-Hy.
Qed.

(** A write that is wanted, now or before. *)
Definition wants_write (w : World) (k l : Z) : Prop :=
  exists t ws, (t, Store k l ws) ∈ begun w \/
    exists f, futures w !! t = Some f /\ (t, Store k l ws) ∈ first_job t f.

(** The drive refuses one of the writes, or needs longer than the loop waits. *)
Definition write_trouble (F : nat) (d : Drive) (w : World) : Prop :=
  exists k l, wants_write w k l /\
    (in_range d k l = false \/ exists n t f, plan d n = (t, f) /\ ((F <= t)%nat \/ f <> Fine)).

Lemma refusable_trouble F d0 w served waiting fates res :
  world_inv d0 w served waiting fates res -> refusable F d0 (ata w) -> write_trouble F d0 w.
Proof.
  intros W (r & t & k & l & ws & n & Hk & H). exists k, l. split; [|done]. exists t, ws. left. by eapply W.
Qed.

Lemma accepted_trouble F d0 w served waiting fates res t f rq :
  world_inv d0 w served waiting fates res -> futures w !! t = Some f -> first_job t f = [(t, job_of rq)] ->
  accepted F rq (drive (ata w)) = false -> write_trouble F d0 w.
Proof.
  intros W Hf Hj Ha.
  assert (E := qo_fixed _ _ _ _ _ _ (wi_queue _ _ _ _ _ _ W)).
  destruct (accepted_refusable F d0 (set_request 0 rq (ata w)) 0 rq) as (r & t' & k & l & ws & n & Hk & H);
    [done|cbn; by rewrite lookup_insert_eq|done|].
  unfold keys in Hk. cbn in Hk. rewrite fmap_insert, lookup_insert_Some in Hk.
  exists k, l. split; [|done]. destruct Hk as [[_ [= _ Hjob _]]|[_ Hk]].
  - exists t, ws. right. exists f. split; [done|]. rewrite Hj, <-Hjob. left.
  - exists t', ws. left. by eapply W.
Qed.

(** The first poll of a future submits its request. *)
Lemma submit_world F d0 w served waiting fates res t f rq :
  world_inv d0 w served waiting fates res -> futures w !! t = Some f -> t ∉ (begun w).*1 ->
  first_job t f = [(t, job_of rq)] -> rq_waker rq = t -> rq_status rq = STATUS_PENDING -> rq_good rq ->
  (exists s' r, submit F rq (ata w) = (Ok r, s') /\
     queue_ok d0 s' served (waiting ++ first_job t f) fates res /\ idle s' /\
     (forall t' r c, t' <> t ->
       keys (ata w) !! r = Some (t', c, 256%nat) -> keys s' !! r = Some (t', c, 256%nat)) /\
     (forall r t' c n, keys s' !! r = Some (t', c, n) -> (t', c) ∈ begun w ++ first_job t f) /\
     keys s' !! r = Some (t, job_of rq, 256%nat)) \/
  (exists s', submit F rq (ata w) = (Diverge, s') /\ write_trouble F d0 w).
Proof.
  intros W Hf Hn Hj <- Hp Hg. pose proof W as [W1 W2 W3 W4 W5 W6 W7]. rewrite W1 in Hn.
  destruct (submit_ok F _ _ _ _ _ _ _ W2 W3 Hp Hg Hn) as [(s' & Hs & Q & Hi & Hk & Hr & _)|(s' & Hs & Ha)].
  - left. exists s', (allocated (ata w)). rewrite Hj. split_and!; try done.
    + intros t' r c Hne Hkr. rewrite Hk, lookup_insert_ne; [done|]. intros <-.
      apply keys_lookup in Hkr as (rq' & Hr' & _). apply W2 in Hr' as [? _]. lia.
    + intros r t' c n. rewrite Hk, lookup_insert_Some, elem_of_app. intros [[_ [= <- <- _]]|[_ H]]; [right; left|].
      left. by eapply W4.
    + rewrite Hk, lookup_insert_eq. unfold key. by rewrite (proj1 Hg).
  - right. exists s'. split; [done|]. by eapply accepted_trouble.
Qed.

Definition safe (F : nat) (d0 : Drive) (w : World) (o : outcome unit World) : Prop :=
  match o with
  | Ok w' => world_ok d0 w'
  | Err _ => True
  | Panic => False
  | Diverge => write_trouble F d0 w
  end.

Lemma good_safe F d0 w served waiting fates res t f o :
  good d0 served waiting fates res t f o -> safe F d0 w o.
Proof. unfold good, safe. destruct o; try done. intros H. by do 4 eexists. Qed.

(** A future that waits has no job to submit. *)
Lemma keys_kept d0 w served waiting fates res :
  world_inv d0 w served waiting fates res ->
  queue_ok d0 (ata w) served (waiting ++ []) fates res /\
  (forall r t c n, keys (ata w) !! r = Some (t, c, n) -> (t, c) ∈ begun w ++ []).
Proof. intros W. rewrite !app_nil_r. split; [apply W|]. intros. by eapply W. Qed.

Lemma exec_poll_ok F d0 t w : world_ok d0 w -> safe F d0 w (exec F (PollTask t) w).
Proof.
  intros (sv & wt & fs & res & W). cbn [exec]. destruct (answers w !! t) eqn:Ha; [done|].
  destruct (futures w !! t) as [f0|] eqn:Hf; [|done]. pose proof (wi_futures _ _ _ _ _ _ W _ _ Hf) as Hok.
  pose proof (keys_kept _ _ _ _ _ _ W) as [Hq0 Hk0]. pose proof (wi_idle _ _ _ _ _ _ W) as Hi0.
  destruct f0 as [f|f|f|]; [..|done].
  - destruct f as [k|r|]; cbn in Hok.
    + cbn [poll_identify]. destruct Hok as [_ Hn].
      destruct (submit_world F d0 w sv wt fs res t _ (new_request k 0 t Identify (replicate 256 0)) W Hf Hn)
        as [(s' & r & Hs & Hq & Hi & H1 & H2 & H3)|(s' & Hs & Ht)]; try done.
      * erewrite bind_ok by exact Hs. eapply good_safe. eapply identify_wait_world; eauto; exact H3.
      * by erewrite bind_diverge by exact Hs.
    + destruct Hok as [k Hk]. eapply good_safe. eapply identify_wait_world; eauto.
    + rewrite Ha in Hok. by destruct Hok.
  - destruct f as [dr i buf|buf r|]; cbn in Hok.
    + cbn [poll_read]. destruct Hok as [Hl Hn]. rewrite Hl. apply Nat.eqb_eq in Hl. erewrite bind_ok by reflexivity.
      destruct (submit_world F d0 w sv wt fs res t _ (new_request (disk dr) i t Read (replicate 256 0)) W Hf Hn)
        as [(s' & r & Hs & Hq & Hi & H1 & H2 & H3)|(s' & Hs & Ht)]; try done.
      * erewrite bind_ok by exact Hs. eapply good_safe. eapply read_wait_world; eauto; exact H3.
      * by erewrite bind_diverge by exact Hs.
    + destruct Hok as (Hl & k & l & Hk). eapply good_safe. eapply read_wait_world; eauto.
    + rewrite Ha in Hok. by destruct Hok.
  - destruct f as [dr i buf|r|]; cbn in Hok.
    + cbn [poll_write]. destruct Hok as [Hl Hn]. rewrite Hl. apply Nat.eqb_eq in Hl. erewrite bind_ok by reflexivity.
      destruct (submit_world F d0 w sv wt fs res t _ (new_request (disk dr) i t Write (words_of_bytes buf)) W Hf Hn)
        as [(s' & r & Hs & Hq & Hi & H1 & H2 & H3)|(s' & Hs & Ht)]; try done.
      * split; [|done]. cbn. by apply length_words_of_bytes.
      * erewrite bind_ok by exact Hs. eapply good_safe. eapply write_wait_world; eauto; exact H3.
      * by erewrite bind_diverge by exact Hs.
    + destruct Hok as (k & l & ws & Hk). eapply good_safe. eapply write_wait_world; eauto.
    + rewrite Ha in Hok. by destruct Hok.
Qed.

(** Steps of the drive and of the handler. *)
Lemma world_ata d0 w served waiting fates res s' served' waiting' fates' res' :
  world_inv d0 w served waiting fates res ->
  queue_ok d0 s' served' waiting' fates' res' -> idle s' -> keys s' = keys (ata w) ->
  served' ++ waiting' = served ++ waiting ->
  (forall t x, res !! t = Some x -> res' !! t = Some x) ->
  world_inv d0 (mkWorld s' (futures w) (answers w) (begun w)) served' waiting' fates' res'.
Proof.
  intros [W1 W2 W3 W4 W5 W6 W7] Q Hi Hk Hb Hr. split; cbn; try done.
  - by rewrite Hb.
  - by rewrite Hk.
  - intros t f Hf. eapply future_ok_mono; [..|by apply W5]; cbn; [|done..]. by rewrite Hk.
  - intros t a (c & x & H1 & H2 & H3)%W7. exists c, x. auto.
Qed.

Lemma exec_work_ok F d0 w : world_ok d0 w -> safe F d0 w (exec F Work w).
Proof.
  intros (sv & wt & fs & res & W). cbn. pose proof W as [W1 W2 W3 W4 W5 W6 W7].
  destruct (tick_ok _ _ _ _ _ _ W2) as [Q|(t & c & wt' & f & x & -> & Q)].
  - exists sv, wt, fs, res. by eapply world_ata.
  - do 4 eexists. eapply world_ata; try done; [by rewrite <-app_assoc|].
    intros t' x' Hx. by eapply result_fresh.
Qed.

Lemma exec_interrupt_ok F d0 w : world_ok d0 w -> safe F d0 w (exec F Interrupt w).
Proof.
  intros (sv & wt & fs & res & W). cbn. pose proof W as [W1 W2 W3 W4 W5 W6 W7].
  destruct (ata_irq_ok F _ _ _ _ _ _ W2 W3) as [(s' & -> & Q & Hi & Hk & _)|(s' & -> & Hr)].
  - exists sv, wt, fs, res. by eapply world_ata.
  - by eapply refusable_trouble.
Qed.

Lemma exec_ok F d0 ev w : world_ok d0 w -> safe F d0 w (exec F ev w).
Proof.
  intros H. destruct ev as [t f|t|t| |].
  - destruct H as (sv & wt & fs & res & W). pose proof W as [W1 W2 W3 W4 W5 W6 W7]. cbn.
    destruct (spawnable f) eqn:Hs; [|done]. cbn. destruct (decide (futures w !! t = None)) as [Hn|Hn].
    2:{ by rewrite bool_decide_false. }
    rewrite bool_decide_true by done. exists sv, wt, fs, res. split; cbn; try done.
    + intros t' f'. rewrite lookup_insert_Some. intros [[<- <-]|[_ Hf]]; [|by apply W5].
      assert (t ∉ (begun w).*1) by (intros [? ?]%W6; congruence).
      unfold future_ok. cbn. by destruct f as [[]|[]|[]|].
    + intros t' [f' Hf']%W6. destruct (decide (t' = t)) as [->|]; [by rewrite lookup_insert_eq|].
      by rewrite lookup_insert_ne.
  - by apply exec_poll_ok.
  - destruct H as (sv & wt & fs & res & W). pose proof W as [W1 W2 W3 W4 W5 W6 W7]. cbn.
    destruct (futures w !! t) as [f|] eqn:Hf; [|done]. exists sv, wt, fs, res. split; cbn; try done.
    + intros t' f'. rewrite lookup_insert_Some. intros [[<- <-]|[_ Hf']]; [done|by apply W5].
    + intros t' [f' Hf']%W6. destruct (decide (t' = t)) as [->|]; [by rewrite lookup_insert_eq|].
      by rewrite lookup_insert_ne.
  - by apply exec_work_ok.
  - by apply exec_interrupt_ok.
Qed.

Lemma boot_ok d : drive_ok d -> is_resting d = true -> world_ok d (boot d).
Proof.
  intros Hd Hr. exists [], [], [], ∅. split; cbn; try done; try set_solver.
  split; cbn; try done; try apply NoDup_nil; try done.
  - by split; [constructor|].
  - intros H0 H1. cbn in H1. congruence.
Qed.

Lemma world_reachable_ok F d w : drive_ok d -> is_resting d = true -> world_reachable F d w -> world_ok d w.
Proof.
  intros Hd Hr. revert w. refine (rtc_ind_r (world_ok d) _ (boot_ok d Hd Hr) _). intros w1 w2 _ [ev He] IH.
  pose proof (exec_ok F d ev w1 IH) as Hs. by rewrite He in Hs.
Qed.

Lemma world_in_order F d w :
  drive_ok d -> is_resting d = true -> world_reachable F d w ->
  exists served waiting fates res,
    begun w = served ++ waiting /\ length fates = length served /\
    serve_all d (zip served fates) (media d) ∅ = (media (drive (ata w)), res) /\
    forall t a, answers w !! t = Some a ->
      exists c x, (t, c) ∈ served /\ res !! t = Some x /\ a = answer_of c x.
Proof.
  intros Hd Hr H. destruct (world_reachable_ok F d w Hd Hr H) as (sv & wt & fs & res & W).
  exists sv, wt, fs, res. pose proof W as [W1 [Q1 Qp Q2 Q3 _ _ _ _ _ _] _ _ _ _ W7]. split_and!; try done.
  intros t a (c & x & H1 & H2 & H3)%W7. exists c, x. split_and!; try done.
  rewrite W1, elem_of_app in H1. destruct H1 as [|H1]; [done|]. exfalso.
  rewrite fmap_app, NoDup_app in Q3. destruct Q3 as (_ & Hn & _). apply (Hn t).
  - destruct (serve_all_dom _ _ _ _ _ _ _ _ Q2 H2) as [He|He]; [by rewrite lookup_empty in He|].
    by rewrite zip_keys in He.
  - change t with ((t, c).1). by apply list_elem_of_fmap_2.
Qed.

(** ** The handler in two steps *)

(** [irq]: the handler has begun and read this status. *)
Record Tasks : Type := mkTasks { world : World; irq : option Z }.

Inductive Happening : Type :=
  | Task (ev : Event)
  | IrqBegin
  | IrqSection.

Definition set_ata (w : World) (s : Ata) : World := mkWorld s (futures w) (answers w) (begun w).

(** The handler begins when the drive asks for it; the interrupt controller
    holds the next one back until it has ended. Tasks run whether it is under
    way or not: a timer interrupt in the handler switches to their thread. *)
Definition step_tasks (F : nat) (h : Happening) (m : Tasks) : outcome unit Tasks :=
  match h, irq m with
  | Task Interrupt, _ => Err tt
  | Task ev, _ => w ← exec F ev (world m); Ok (mkTasks w (irq m))
  | IrqBegin, None =>
      if line (drive (ata (world m))) then
        match in8 ATA_STATUS (ata (world m)) with
        | (Ok status, s) => Ok (mkTasks (set_ata (world m) s) (Some status))
        | _ => Panic
        end
      else Err tt
  | IrqSection, Some status =>
      match ata_irq_section F status (ata (world m)) with
      | (Ok _, s) => Ok (mkTasks (set_ata (world m) s) None)
      | (Diverge, _) => Diverge
      | _ => Panic
      end
  | _, _ => Err tt
  end.

Definition tasks_reachable (F : nat) (d : Drive) : Tasks -> Prop :=
  rtc (fun m m' => exists h, step_tasks F h m = Ok m') (mkTasks (boot d) None).

(** The status has been read. *)
Definition unread (w : World) : World :=
  set_ata w (set_drive (set_phase (phase (drive (ata w))) false (drive (ata w))) (ata w)).

Definition shows (m : Tasks) (w : World) : Prop :=
  match irq m with
  | None => world m = w
  | Some st => world m = unread w /\ st = status (drive (ata w)) /\ intrq (drive (ata w)) = true /\
      is_Some (inflight (ata w)) /\ is_working (drive (ata w)) = false
  end.

(** With a request in flight a poll leaves the drive alone. *)
Definition calm {A} (p : M Ata BlockDeviceError A) : Prop :=
  forall s d, is_Some (inflight s) ->
    p (set_drive d s) = ((p s).1, set_drive d (p s).2) /\ drive (p s).2 = drive s /\ inflight (p s).2 = inflight s.

Lemma calm_bind {A B} (p : M Ata BlockDeviceError A) (f : A -> M Ata BlockDeviceError B) :
  calm p -> (forall a, calm (f a)) -> calm (p ≫= f).
Proof.
  intros Hp Hf s d Hi. destruct (Hp s d Hi) as (H1 & H2 & H3). unfold mbind, M_bind. rewrite H1.
  destruct (p s) as [[a|e| |] s'] eqn:E; cbn in *; try done.
  destruct (Hf a s' d ltac:(by rewrite H3)) as (H4 & H5 & H6). rewrite H4, H5, H6. done.
Qed.

Lemma calm_ret {A} (a : A) : calm (mret a).
Proof. by intros s d Hi. Qed.

Lemma calm_lock r : calm (lock_request r).
Proof. intros s d Hi. unfold lock_request. cbn. by destruct (requests s !! r). Qed.

Lemma calm_set_request r rq : calm (modify (set_request r rq)).
Proof. by intros s d Hi. Qed.

Lemma calm_submit F rq : calm (submit F rq).
Proof. intros s d [r Hi]. unfold submit, mbind, M_bind. cbn. by rewrite Hi. Qed.

Lemma calm_panic {A} : calm (A:=A) panic.
Proof. by intros s d Hi. Qed.

Lemma calm_assert b : calm (rust_assert b).
Proof. intros s d Hi. by destruct b. Qed.

Ltac calm :=
  repeat first
    [ apply calm_submit | apply calm_ret | apply calm_lock | apply calm_set_request | apply calm_panic | apply calm_assert
    | apply calm_bind; [|intros ?] | case_match ].

Lemma calm_poll_read F cx f : calm (poll_read F cx f).
Proof. destruct f; cbn [poll_read]; unfold poll_read_wait; calm. Qed.
Lemma calm_poll_write F cx f : calm (poll_write F cx f).
Proof. destruct f; cbn [poll_write]; unfold poll_write_wait; calm. Qed.
Lemma calm_poll_identify F cx f : calm (poll_identify F cx f).
Proof. destruct f; cbn [poll_identify]; unfold poll_identify_wait; calm. Qed.

Lemma polled_unread {Ft A} (fut : Ft -> Fut) (ans : A -> Answer) t f w
    (p : M Ata BlockDeviceError (Ft * Poll (A + BlockDeviceError))) :
  calm p -> is_Some (inflight (ata w)) ->
  match polled fut ans t f w (p (ata w)) with
  | Ok w' => polled fut ans t f (unread w) (p (ata (unread w))) = Ok (unread w') /\
      drive (ata w') = drive (ata w) /\ inflight (ata w') = inflight (ata w)
  | o => polled fut ans t f (unread w) (p (ata (unread w))) = o
  end.
Proof.
  intros Hp Hi. destruct (Hp (ata w) (set_phase (phase (drive (ata w))) false (drive (ata w))) Hi) as (H1 & H2 & H3).
  change (set_drive _ (ata w)) with (ata (unread w)) in H1. rewrite H1. unfold polled.
  destruct (p (ata w)) as [[[f' q]|e| |] s']; cbn in *; [|done..].
  unfold unread, set_ata. cbn. by rewrite H2.
Qed.

(** A task does not notice that the status has been read. *)
Lemma exec_unread F ev w :
  ev <> Interrupt -> is_Some (inflight (ata w)) -> is_working (drive (ata w)) = false ->
  match exec F ev w with
  | Ok w' => exec F ev (unread w) = Ok (unread w') /\
      drive (ata w') = drive (ata w) /\ inflight (ata w') = inflight (ata w)
  | o => exec F ev (unread w) = o
  end.
Proof.
  intros Hne Hi Hw. destruct ev as [t f|t|t| |]; [| | | |done].
  - cbn. by destruct (spawnable f && _).
  - cbn [exec]. change (answers (unread w)) with (answers w). change (futures (unread w)) with (futures w).
    destruct (answers w !! t); [done|]. destruct (futures w !! t) as [[f|f|f|]|]; [| | |done|done].
    + apply polled_unread; [apply calm_poll_identify|done].
    + apply polled_unread; [apply calm_poll_read|done].
    + apply polled_unread; [apply calm_poll_write|done].
  - cbn. by destruct (futures w !! t).
  - cbn. assert (Ht : forall d, phase d = phase (drive (ata w)) -> tick d = d).
    { intros d E. unfold tick. rewrite E. unfold is_working in Hw. by destruct (phase (drive (ata w))). }
    rewrite !Ht by done. unfold unread, set_ata. cbn. split; [|done]. by destruct w as [[]].
Qed.

(** The section of the handler is the handler as one step. *)
Lemma section_unread F w :
  exec F Interrupt w =
    match ata_irq_section F (status (drive (ata w))) (ata (unread w)) with
    | (Ok _, s) => Ok (set_ata w s)
    | (Diverge, _) => Diverge
    | _ => Panic
    end.
Proof. cbn [exec]. unfold ata_irq. by erewrite bind_ok by reflexivity. Qed.

(** What a step of the tasks is to the machine in which the handler is one. *)
Lemma step_tasks_shows F d h m w :
  drive_ok d -> is_resting d = true -> intrq d = false -> world_reachable F d w -> shows m w ->
  match step_tasks F h m with
  | Ok m' => exists w', rtc (world_step F) w w' /\ shows m' w'
  | Err _ => True
  | Panic => exists ev, exec F ev w = Panic
  | Diverge => exists ev, exec F ev w = Diverge
  end.
Proof.
  intros Hd Hr Hq Hw Hs. unfold shows in Hs. destruct m as [wm i]. cbn in Hs. destruct h as [ev| |].
  - assert (ev = Interrupt \/ ev <> Interrupt) as [->|Hne] by (destruct ev; by auto); [done|].
    assert (step_tasks F (Task ev) (mkTasks wm i) = (w ← exec F ev wm; Ok (mkTasks w i))) as -> by (by destruct ev).
    destruct i as [st|].
    + destruct Hs as (-> & -> & Hi & Hfl & Hwk). pose proof (exec_unread F ev w Hne Hfl Hwk) as He.
      destruct (exec F ev w) as [w'|e| |] eqn:E; [|by rewrite He|rewrite He; by exists ev|rewrite He; by exists ev].
      destruct He as (-> & H1 & H2). exists w'. split; [apply rtc_once; by exists ev|]. unfold shows. cbn. by rewrite H1, H2.
    + subst wm. destruct (exec F ev w) as [w'|e| |] eqn:E; cbn; [|done|by exists ev|by exists ev].
      exists w'. split; [apply rtc_once; by exists ev|done].
  - destruct i as [st|]; [done|]. subst wm. cbn. destruct (line (drive (ata w))) eqn:Hl; [|done]. exists w. split; [done|].
    destruct (world_reachable_ok F d w Hd Hr Hw) as (sv & wt & fs & res & W). unfold line in Hl. apply andb_true_iff in Hl as [Hl _].
    unfold shows. cbn. split_and!; [done..| |]; by apply (qo_quiet _ _ _ _ _ _ (wi_queue _ _ _ _ _ _ W)).
  - destruct i as [st|]; [|done]. destruct Hs as (-> & -> & _). cbn [step_tasks irq world]. pose proof (section_unread F w) as He.
    destruct (ata_irq_section _ _ _) as [[u|e| |] s]; [|by exists Interrupt..].
    eexists. split; [apply rtc_once; by exists Interrupt|]. done.
Qed.

Lemma tasks_shows F d m :
  drive_ok d -> is_resting d = true -> intrq d = false -> tasks_reachable F d m ->
  exists w, world_reachable F d w /\ shows m w.
Proof.
  intros Hd Hr Hq. revert m. refine (rtc_ind_r (fun m => exists w, world_reachable F d w /\ shows m w) _ _ _).
  - exists (boot d). by split; [apply rtc_refl|].
  - intros m m' _ [h Hh] (w & Hw & Hs). pose proof (step_tasks_shows F d h m w Hd Hr Hq Hw Hs) as H. rewrite Hh in H.
    destruct H as (w' & H1 & H2). exists w'. split; [unfold world_reachable in *; by etrans|done].
Qed.

Lemma shows_same m w :
  shows m w -> begun (world m) = begun w /\ futures (world m) = futures w /\ answers (world m) = answers w /\
    media (drive (ata (world m))) = media (drive (ata w)) /\ forall F, remaining F (ata (world m)) = remaining F (ata w).
Proof. unfold shows. destruct (irq m); [intros (-> & _)|intros ->]; done. Qed.

(** C19: for every interleaving of polls, cancellations, work of the drive and
    interrupts, with polls also between the reading of the status in the
    handler and its section, the disks hold what performing the jobs of the
    futures one after the other, in the order of their first polls, leaves on
    them, up to a point of that order; and every future that has answered has
    the answer of its own job in that sequence. *)
Theorem ata_serves_in_order F d m :
  drive_ok d -> is_resting d = true -> intrq d = false -> tasks_reachable F d m ->
  exists served waiting fates res,
    begun (world m) = served ++ waiting /\ length fates = length served /\
    serve_all d (zip served fates) (media d) ∅ = (media (drive (ata (world m))), res) /\
    forall t a, answers (world m) !! t = Some a ->
      exists c x, (t, c) ∈ served /\ res !! t = Some x /\ a = answer_of c x.
Proof.
  intros Hd Hr Hq H. destruct (tasks_shows F d m Hd Hr Hq H) as (w & Hw & Hs).
  destruct (shows_same m w Hs) as (-> & _ & -> & -> & _). by eapply world_in_order.
Qed.

(** No poll and no interrupt uses the ports of the drive in a way the
    standard does not define, fails an assertion or misses a request; only a
    write that the drive refuses, or accepts too late for the number of
    readings of the status that are counted, keeps the loop that waits for it
    from ending. *)
Theorem ata_access_defined F d m h :
  drive_ok d -> is_resting d = true -> intrq d = false -> tasks_reachable F d m ->
  match step_tasks F h m with
  | Ok _ | Err _ => True
  | Panic => False
  | Diverge => write_trouble F d (world m)
  end.
Proof.
  intros Hd Hr Hq H. destruct (tasks_shows F d m Hd Hr Hq H) as (w & Hw & Hs).
  pose proof (step_tasks_shows F d h m w Hd Hr Hq Hw Hs) as Hh. pose proof (world_reachable_ok F d w Hd Hr Hw) as Hok.
  destruct (step_tasks F h m); try done; destruct Hh as [ev He]; pose proof (exec_ok F d ev w Hok) as Hx; rewrite He in Hx; [done|].
  destruct Hx as (k & l & Hk & Hx). exists k, l. split; [|done]. destruct (shows_same m w Hs) as (E1 & E2 & _).
  unfold wants_write. by rewrite E1, E2.
Qed.

(** ** Every request is answered *)

(** The drive works, and the processor takes the interrupt it asks for. *)
Definition round (F : nat) (w : World) : outcome unit World :=
  w1 ← exec F Work w;
  if line (drive (ata w1)) then exec F Interrupt w1 else Ok w1.

Fixpoint rounds (F n : nat) (w : World) : outcome unit World :=
  match n with
  | O => Ok w
  | S n => w1 ← round F w; rounds F n w1
  end.

Lemma round_advance F w :
  round F w = match advance F (ata w) with
              | (Ok _, s') => Ok (mkWorld s' (futures w) (answers w) (begun w))
              | (Diverge, _) => Diverge
              | _ => Panic
              end.
Proof.
  unfold round, advance. cbn [exec mbind outcome_bind ata].
  erewrite (bind_ok _ _ (ata w)) by reflexivity. erewrite bind_ok by reflexivity. cbv beta.
  destruct (line _); [|done]. cbn. by destruct (ata_irq _ _) as [[]].
Qed.

Lemma round_ok F d0 w :
  world_ok d0 w -> quick F d0 -> ~ write_trouble F d0 w ->
  exists w', round F w = Ok w' /\ world_ok d0 w' /\ futures w' = futures w /\ answers w' = answers w /\
    begun w' = begun w /\ (remaining F (ata w') <= remaining F (ata w) - 1)%nat.
Proof.
  intros (sv & wt & fs & res & W) Hq Ht. pose proof W as [W1 W2 W3 W4 W5 W6 W7].
  destruct (advance_ok F _ _ _ _ _ _ W2 W3 Hq) as (s' & sv' & wt' & fs' & res' & Hs & Q & Hi & Hk & Hb & Hres & Hr & _).
  { intros H. apply Ht. by eapply refusable_trouble. }
  rewrite round_advance, Hs. eexists. split; [reflexivity|]. split_and!; try done.
  exists sv', wt', fs', res'. by eapply world_ata.
Qed.

Lemma rounds_ok F d0 n w :
  world_ok d0 w -> quick F d0 -> ~ write_trouble F d0 w -> (remaining F (ata w) <= n)%nat ->
  exists w', rounds F n w = Ok w' /\ world_ok d0 w' /\ futures w' = futures w /\ answers w' = answers w /\
    begun w' = begun w /\ inflight (ata w') = None.
Proof.
  revert w. induction n as [|n IH]; intros w W Hq Ht Hn.
  - exists w. split_and!; try done. unfold remaining in Hn. destruct (inflight (ata w)); [|done].
    destruct (phase (drive (ata w))); lia.
  - destruct (round_ok F d0 w W Hq Ht) as (w1 & H1 & W1 & E1 & E2 & E3 & Hr).
    destruct (IH w1) as (w' & H' & W' & E1' & E2' & E3' & Hi); try done.
    + intros (k & l & (t & ws & Hk) & H). apply Ht. exists k, l. split; [|done]. exists t, ws. by rewrite <-E1, <-E3.
    + lia.
    + exists w'. cbn [rounds]. unfold mbind, outcome_bind. rewrite H1. split_and!; congruence.
Qed.

(** With nothing in flight every future that has begun is ready. *)
Lemma poll_answers F d0 w t f :
  world_ok d0 w -> inflight (ata w) = None -> futures w !! t = Some f -> f <> FDropped ->
  t ∈ (begun w).*1 -> answers w !! t = None ->
  exists w', exec F (PollTask t) w = Ok w' /\ is_Some (answers w' !! t).
Proof.
  intros (sv & wt & fs & res & W) Hin Hf Hd Hb Ha. pose proof W as [W1 W2 W3 W4 W5 W6 W7].
  assert (Hfl : flying (ata w) = []) by (unfold flying; rewrite Hin; by apply W3).
  pose proof (W5 _ _ Hf) as Hok. cbn [exec]. rewrite Ha, Hf.
  destruct f as [[k|r|]|[dr i buf|buf r|]|[dr i buf|r|]|]; cbn in Hok;
    try (by destruct Hok); try (rewrite Ha in Hok; by destruct Hok).
  - destruct Hok as [k Hk]. cbn [poll_identify].
    destruct (poll_identify_wait_ok _ _ _ _ _ _ _ _ _ W2 Hk) as [[H _]|(x & y & s'' & _ & -> & _)].
    { rewrite Hfl in H. by apply elem_of_nil in H. }
    destruct y; eexists; (split; [reflexivity|]); cbn; by rewrite lookup_insert_eq.
  - destruct Hok as (Hl & k & l & Hk). cbn [poll_read].
    destruct (poll_read_wait_ok _ _ _ _ _ _ buf _ _ _ _ W2 Hk Hl) as [[H _]|(x & y & _ & -> & _)].
    { rewrite Hfl in H. by apply elem_of_nil in H. }
    destruct y; eexists; (split; [reflexivity|]); cbn; by rewrite lookup_insert_eq.
  - destruct Hok as (k & l & ws & Hk). cbn [poll_write].
    destruct (poll_write_wait_ok _ _ _ _ _ _ _ _ _ _ _ _ W2 Hk) as [[H _]|(x & y & _ & -> & _)].
    { rewrite Hfl in H. by apply elem_of_nil in H. }
    destruct y; eexists; (split; [reflexivity|]); cbn; by rewrite lookup_insert_eq.
Qed.

(** The same with the handler in two steps: what is under way ends first. *)
Definition settle (F : nat) (m : Tasks) : outcome unit Tasks :=
  match irq m with Some _ => step_tasks F IrqSection m | None => Ok m end.

Definition turn (F : nat) (m : Tasks) : outcome unit Tasks :=
  m ← step_tasks F (Task Work) m;
  if line (drive (ata (world m))) then m ← step_tasks F IrqBegin m; step_tasks F IrqSection m else Ok m.

Fixpoint turns (F n : nat) (m : Tasks) : outcome unit Tasks :=
  match n with
  | O => Ok m
  | S n => m ← turn F m; turns F n m
  end.

Lemma turn_round F w : turn F (mkTasks w None) = (w ← round F w; Ok (mkTasks w None)).
Proof.
  unfold turn, round. cbn [step_tasks irq world]. set (e := exec F Work w). destruct e as [w1| | |]; try done.
  cbn [mbind outcome_bind world]. destruct (line (drive (ata w1))) eqn:Hl; [|done].
  rewrite section_unread. cbn [irq].
  change (in8 ATA_STATUS (ata w1)) with (Ok (E:=BlockDeviceError) (status (drive (ata w1))), ata (unread w1)).
  cbn [mbind outcome_bind irq world set_ata ata]. by destruct (ata_irq_section _ _ _) as [[]].
Qed.

Lemma turns_rounds F n w : turns F n (mkTasks w None) = (w ← rounds F n w; Ok (mkTasks w None)).
Proof.
  revert w. induction n as [|n IH]; intros w; [done|]. cbn [turns rounds]. rewrite turn_round.
  destruct (round F w) as [w1| | |]; try done. cbn [mbind outcome_bind]. apply IH.
Qed.

Lemma settle_ok F d0 m w :
  world_ok d0 w -> shows m w -> quick F d0 -> ~ write_trouble F d0 w ->
  exists w', settle F m = Ok (mkTasks w' None) /\ world_ok d0 w' /\ futures w' = futures w /\ answers w' = answers w /\
    begun w' = begun w /\ (remaining F (ata w') <= remaining F (ata w))%nat.
Proof.
  intros (sv & wt & fs & res & W) Hs Hq Ht. unfold settle. destruct m as [wm i]. unfold shows in Hs. cbn in *. destruct i as [st|].
  2:{ subst wm. exists w. split_and!; try done. by do 4 eexists. }
  destruct Hs as (-> & -> & _ & _ & _). pose proof W as [W1 W2 W3 W4 W5 W6 W7].
  destruct (irq_remaining F _ _ _ _ _ _ W2 W3 Hq) as (s' & Hi & Q & Hid & Hk & Hrem & _).
  { intros H. apply Ht. by eapply refusable_trouble. }
  unfold ata_irq in Hi. erewrite bind_ok in Hi by reflexivity. unfold unread. cbn [ata set_ata]. rewrite Hi.
  eexists. split; [reflexivity|]. split_and!; try done.
  - exists sv, wt, fs, res. exact (world_ata d0 w sv wt fs res s' sv wt fs res W Q Hid Hk eq_refl (fun t x H => H)).
  - cbn. etrans; [exact Hrem|]. destruct (is_working _); [done|]. unfold remaining.
    destruct (inflight (ata w)) eqn:Hin; [lia|]. by rewrite (W3 Hin).
Qed.

(** C20: on a drive that does not fail and accepts every write that is wanted,
    from every point that the tasks and the handler can come to, the requests
    under way are all served, once the handler has ended, within a number of
    rounds that the queue gives, and then every future that has begun answers
    its next poll. *)
Theorem ata_answers F d m n :
  drive_ok d -> is_resting d = true -> intrq d = false -> tasks_reachable F d m -> quick F d ->
  (forall k l, wants_write (world m) k l -> in_range d k l = true) ->
  (remaining F (ata (world m)) <= n)%nat ->
  exists m', (m1 ← settle F m; turns F n m1) = Ok m' /\ irq m' = None /\ inflight (ata (world m')) = None /\
    begun (world m') = begun (world m) /\
    forall t f, futures (world m) !! t = Some f -> f <> FDropped -> t ∈ (begun (world m)).*1 -> answers (world m) !! t = None ->
      exists m'', step_tasks F (Task (PollTask t)) m' = Ok m'' /\ is_Some (answers (world m'') !! t).
Proof.
  intros Hd Hr Hi H Hq Hw Hn. destruct (tasks_shows F d m Hd Hr Hi H) as (w & Hww & Hs).
  destruct (shows_same m w Hs) as (E1 & E2 & E3 & _ & E5). rewrite E1, E2, E3. rewrite E5 in Hn. unfold wants_write in Hw. rewrite E1, E2 in Hw.
  pose proof (world_reachable_ok F d w Hd Hr Hww) as W.
  assert (Ht : forall w1, futures w1 = futures w -> begun w1 = begun w -> ~ write_trouble F d w1).
  { intros w1 F1 F2 (k & l & Hk & [Hf|(j & t & f & Hp & Hx)]).
    { unfold wants_write in Hk. rewrite F1, F2 in Hk. by rewrite (Hw _ _ Hk) in Hf. }
    destruct (Hq j) as (t' & E & Hlt). rewrite E in Hp. injection Hp as <- <-. destruct Hx; [lia|done]. }
  destruct (settle_ok F d m w W Hs Hq ltac:(by apply Ht)) as (w1 & Hs1 & W1 & F1 & F2 & F3 & Hrem).
  destruct (rounds_ok F d n w1 W1 Hq ltac:(by apply Ht) ltac:(lia)) as (w' & Hrun & W' & G1 & G2 & G3 & Hin).
  exists (mkTasks w' None). rewrite Hs1. cbn [mbind outcome_bind]. rewrite turns_rounds, Hrun. split_and!; [done..|cbn; congruence|].
  intros t f Hf Hne Hb Ha. destruct (poll_answers F d w' t f) as (w'' & Hp & Ha''); try done; [congruence..|].
  exists (mkTasks w'' None). cbn [step_tasks irq world]. rewrite Hp. done.
Qed.

(** ** A run

    Two tasks write and read the same block; a third identifies the drive. *)
Module AtaRun.

Fixpoint play (F : nat) (hs : list Happening) (m : Tasks) : Tasks :=
  match hs with
  | [] => m
  | h :: hs => play F hs (match step_tasks F h m with Ok m' => m' | _ => m end)
  end.

Lemma play_reachable F d hs m : tasks_reachable F d m -> tasks_reachable F d (play F hs m).
Proof.
  revert m. induction hs as [|h hs IH]; intros m H; [done|]. cbn [play]. apply IH.
  destruct (step_tasks F h m) as [m'| | |] eqn:He; try done. eapply rtc_r; [exact H|]. by exists h.
Qed.

Definition drives : Drive :=
  mkDrive 0 0 0 0 0 false (Resting false) false (fun _ _ => replicate 256 0) (fun _ => 16)
    (fun _ => replicate 60 7 ++ 16 :: replicate 195 0) (fun n => (n mod 3, Fine)%nat) 0 false.

Lemma drives_ok : drive_ok drives.
Proof. split; intros; done. Qed.

Lemma drives_quick : quick 4 drives.
Proof. intros n. exists (n mod 3)%nat. split; [done|]. pose proof (Nat.mod_upper_bound n 3). lia. Qed.

Definition block : list Z := replicate 512 9.

(** The third future begins between the two steps of the handler. *)
Definition begin_all : list Happening :=
  [Task (Spawn 1 (FWrite (WriteInit (mkDriver 0x80 16) 5 block)));
   Task (Spawn 2 (FRead (ReadInit (mkDriver 0x80 16) 5 (replicate 512 0))));
   Task (Spawn 3 (FIdentify (IdentifyInit 0x80))); Task (PollTask 1); Task (PollTask 2)] ++
  replicate 4 (Task Work) ++ [IrqBegin; Task (PollTask 3)].

Definition busy : Tasks := play 4 begin_all (mkTasks (boot drives) None).

Definition finished : Tasks :=
  play 4 (IrqSection :: concat (replicate 12 [Task Work; IrqBegin; IrqSection]) ++
    [Task (PollTask 1); Task (PollTask 2); Task (PollTask 3)]) busy.

Lemma busy_reachable : tasks_reachable 4 drives busy.
Proof. apply play_reachable, rtc_refl. Qed.

Lemma busy_irq : irq busy = Some 0x50.
Proof. by vm_compute. Qed.

Lemma finished_answers :
  answers (world finished) !! 1 = Some Written /\ answers (world finished) !! 2 = Some (Bytes block).
Proof. by vm_compute. Qed.

Lemma ata_serves_in_order_witness :
  answers (world finished) !! 2 = Some (Bytes block) /\
  exists served waiting fates res,
    begun (world finished) = served ++ waiting /\ length fates = length served /\
    serve_all drives (zip served fates) (media drives) ∅ = (media (drive (ata (world finished))), res) /\
    forall t a, answers (world finished) !! t = Some a ->
      exists c x, (t, c) ∈ served /\ res !! t = Some x /\ a = answer_of c x.
Proof.
  split; [apply finished_answers|].
  apply (ata_serves_in_order 4 drives finished drives_ok eq_refl eq_refl (play_reachable _ _ _ _ busy_reachable)).
Defined.

Lemma busy_begun :
  begun (world busy) = [(1, Store 0 5 (words_of_bytes block)); (2, ReadSector 0 5); (3, Identity 0)].
Proof. by vm_compute. Qed.

Lemma busy_futures :
  futures (world busy) = <[3 := FIdentify (IdentifyWait 2)]>
    (<[2 := FRead (ReadWait (replicate 512 0) 1)]> (<[1 := FWrite (WriteWait 0)]> ∅)).
Proof. by vm_compute. Qed.

Lemma busy_wants k l : wants_write (world busy) k l -> in_range drives k l = true.
Proof.
  intros (t & ws & [Hin|(f & Hl & Hin)]).
  - rewrite busy_begun, !elem_of_cons, elem_of_nil in Hin. generalize dependent (words_of_bytes block). intros ws' Hin.
    destruct Hin as [[= _ -> -> _]|[[=]|[[=]|[]]]]. done.
  - rewrite busy_futures, !lookup_insert_Some, lookup_empty in Hl.
    destruct Hl as [[_ <-]|(_ & [[_ <-]|(_ & [[_ <-]|(_ & [=])])])]; by apply elem_of_nil in Hin.
Qed.

Lemma ata_answers_witness :
  exists m', (m1 ← settle 4 busy; turns 4 13 m1) = Ok m' /\ irq m' = None /\ inflight (ata (world m')) = None /\
    begun (world m') = begun (world busy) /\
    forall t f, futures (world busy) !! t = Some f -> f <> FDropped -> t ∈ (begun (world busy)).*1 ->
      answers (world busy) !! t = None ->
      exists m'', step_tasks 4 (Task (PollTask t)) m' = Ok m'' /\ is_Some (answers (world m'') !! t).
Proof.
  apply (ata_answers 4 drives busy 13 drives_ok eq_refl eq_refl busy_reachable drives_quick busy_wants).
  vm_compute. lia.
Defined.

End AtaRun.
