(* ===== verification/Simulation.v ===== *)
(** * Devices that behave alike

    [sim R Q m m']: run from states that [R] relates, the computations [m] and
    [m'] end the same way, with results that [Q] relates and in states that [R]
    relates again. [DeviceSim R] says so of the methods of two block devices.
    What the file system code does through the methods is then the same on
    both: shown here for partitions and for the reading of partition tables
    and volumes. *)
From S2P Require Import Prelude Device Mbr Fat32Types Fat32Format.
Import Mbr.

Section sim.
  Context {S T : Type}.
  Implicit Types R : S -> T -> Prop.

Definition sim {E A B} R (Q : A -> B -> Prop) (m : M S E A) (m' : M T E B) : Prop :=
  forall s t, R s t ->
    match m s, m' t with
    | (Ok a, s'), (Ok b, t') => Q a b /\ R s' t'
    | (Err e, s'), (Err e', t') => e = e' /\ R s' t'
    | (Panic, _), (Panic, _) => True
    | (Diverge, _), (Diverge, _) => True
    | _, _ => False
    end.

Lemma sim_ret {E A B} R (Q : A -> B -> Prop) a b : Q a b -> sim (E:=E) R Q (mret a) (mret b).
Proof. intros H s t Hr. by split. Qed.

Lemma sim_bind {E A B A' B'} R (Q : A -> B -> Prop) (Q' : A' -> B' -> Prop)
    (m : M S E A) (m' : M T E B) (f : A -> M S E A') (f' : B -> M T E B') :
  sim R Q m m' -> (forall a b, Q a b -> sim R Q' (f a) (f' b)) -> sim R Q' (m ≫= f) (m' ≫= f').
Proof.
  intros Hm Hf s t Hr. specialize (Hm s t Hr). unfold mbind, M_bind.
  destruct (m s) as [[a|e| |] s1], (m' t) as [[b|e'| |] t1]; try done.
  destruct Hm as [Hq Hr1]. by apply Hf.
Qed.

Lemma sim_throw {E A B} R (Q : A -> B -> Prop) (e : E) : sim R Q (throw e) (throw e).
Proof. intros s t Hr. by split. Qed.

Lemma sim_panic {E A B} R (Q : A -> B -> Prop) : sim (E:=E) R Q panic panic.
Proof. by intros s t Hr. Qed.

Lemma sim_diverge {E A B} R (Q : A -> B -> Prop) : sim (E:=E) R Q diverge diverge.
Proof. by intros s t Hr. Qed.

Lemma sim_gets {E A B} R (Q : A -> B -> Prop) f g :
  (forall s t, R s t -> Q (f s) (g t)) -> sim (E:=E) R Q (gets f) (gets g).
Proof. intros H s t Hr. split; [by apply H|done]. Qed.

Lemma sim_lift {E A} R (o : outcome E A) : sim R eq (lift o) (lift o).
Proof. intros s t Hr. unfold lift. by destruct o. Qed.

Lemma sim_checked {E} R w x : sim (E:=E) R eq (checked w x) (checked w x).
Proof. unfold checked. destruct (fits w x); [by apply sim_ret|apply sim_panic]. Qed.

Lemma sim_map_err {E E' A B} R (Q : A -> B -> Prop) (f : E -> E') m m' :
  sim R Q m m' -> sim R Q (map_err f m) (map_err f m').
Proof.
  intros H s t Hr. specialize (H s t Hr). unfold map_err.
  destruct (m s) as [[] ?], (m' t) as [[] ?]; try done. by destruct H as [-> ?].
Qed.

Lemma sim_for_range {E A} R (f : nat -> A -> M S E A) f' lo n acc :
  (forall i a, sim R eq (f i a) (f' i a)) -> sim R eq (for_range lo n f acc) (for_range lo n f' acc).
Proof.
  intros H. revert lo acc. induction n as [|n IH]; intros lo acc; [by apply sim_ret|].
  cbn. eapply sim_bind; [apply H|]. intros a _ <-. apply IH.
Qed.
End sim.

(** One step on both sides. *)
Ltac sim_step :=
  match goal with
  | |- sim _ _ (mret _) (mret _) => apply sim_ret
  | |- sim _ _ (mbind _ _) (mbind _ _) => eapply (sim_bind _ eq); [|intros ? ? <-]
  | |- sim _ _ (throw _) (throw _) => apply sim_throw
  | |- sim _ _ panic panic => apply sim_panic
  | |- sim _ _ diverge diverge => apply sim_diverge
  | |- sim _ _ (lift _) (lift _) => apply sim_lift
  | |- sim _ _ (checked _ _) (checked _ _) => apply sim_checked
  | |- sim _ _ (map_err _ _) (map_err _ _) => apply sim_map_err
  | |- sim _ _ (if _ then _ else _) _ => case_match
  | |- sim _ _ (match _ with _ => _ end) _ => case_match
  end.

(** ** Devices *)

Class DeviceSim {D D'} `{!BlockDevice D, !BlockDevice D'} (R : D -> D' -> Prop) : Prop := {
  sim_block_size d d' : R d d' -> block_size d = block_size d';
  sim_block_count d d' : R d d' -> block_count d = block_count d';
  sim_read_block i buf : sim R eq (read_block i buf) (read_block i buf);
  sim_write_block i buf : sim R eq (write_block i buf) (write_block i buf);
  sim_read_blocks i n buf : sim R eq (read_blocks i n buf) (read_blocks i n buf);
  sim_write_blocks i n buf : sim R eq (write_blocks i n buf) (write_blocks i n buf);
  sim_write_zeros i n : sim R eq (write_zeros i n) (write_zeros i n);
  sim_clear_blocks i n : sim R eq (clear_blocks i n) (clear_blocks i n);
}.

(** The provided methods. *)
Section provided.
  Context {D D' : Type} (R : D -> D' -> Prop) (size : D -> Z) (size' : D' -> Z).
  Context (write_one : Z -> list Z -> M D BlockDeviceError unit) (write_one' : Z -> list Z -> M D' BlockDeviceError unit).
  Context (read_one : Z -> list Z -> M D BlockDeviceError (list Z)) (read_one' : Z -> list Z -> M D' BlockDeviceError (list Z)).
  Hypothesis Hsize : forall d d', R d d' -> size d = size' d'.
  Hypothesis Hwrite : forall i buf, sim R eq (write_one i buf) (write_one' i buf).
  Hypothesis Hread : forall i buf, sim R eq (read_one i buf) (read_one' i buf).

Lemma provided_write_blocks_sim i n buf :
  sim R eq (provided_write_blocks size write_one i n buf) (provided_write_blocks size' write_one' i n buf).
Proof.
  unfold provided_write_blocks. sim_step; [by apply sim_gets|]. apply sim_for_range. intros j [].
  sim_step; [sim_step|]. sim_step; [sim_step|apply Hwrite].
Qed.

Lemma provided_read_blocks_sim i n buf :
  sim R eq (provided_read_blocks size read_one i n buf) (provided_read_blocks size' read_one' i n buf).
Proof.
  unfold provided_read_blocks. sim_step; [by apply sim_gets|]. apply sim_for_range. intros j b.
  sim_step; [sim_step|]. sim_step; [sim_step|]. sim_step; [apply Hread|by sim_step].
Qed.

Lemma provided_write_zeros_sim i n :
  sim R eq (provided_write_zeros size (provided_write_blocks size write_one) i n)
    (provided_write_zeros size' (provided_write_blocks size' write_one') i n).
Proof.
  unfold provided_write_zeros. sim_step; [by apply sim_gets|]. sim_step; [sim_step|apply provided_write_blocks_sim].
Qed.
End provided.

(** The same partition of two devices. *)
Definition same_partition {D D'} (R : D -> D' -> Prop) (p : PartitionDevice D) (p' : PartitionDevice D') : Prop :=
  R (inner p) (inner p') /\ part p = part p'.

Section devices.
  Context {D D' : Type} `{!BlockDevice D, !BlockDevice D'} (R : D -> D' -> Prop) `{!DeviceSim R}.

Lemma sim_on_inner {E A} (f : MbrPartition -> M D E A) (f' : MbrPartition -> M D' E A) :
  (forall p, sim R eq (f p) (f' p)) -> sim (same_partition R) eq (on_inner f) (on_inner f').
Proof.
  intros H [d p] [d' p'] [Hr Hp]. cbn in Hr, Hp. subst p'. specialize (H p d d' Hr). unfold on_inner. cbn.
  destruct (f p d) as [[] ?], (f' p d') as [[] ?]; try done; destruct H; by split_and!.
Qed.

#[global] Instance partition_sim : DeviceSim (same_partition R).
Proof.
  split.
  - intros d d' [Hr _]. exact (sim_block_size (R := R) _ _ Hr).
  - intros d d' [_ Hp]. cbn. by rewrite Hp.
  - intros i buf. apply sim_on_inner. intros p. unfold part_read_block. repeat sim_step. apply sim_read_block.
  - intros i buf. apply sim_on_inner. intros p. unfold part_write_block. repeat sim_step. apply sim_write_block.
  - intros i n buf. apply sim_on_inner. intros p. unfold part_read_blocks. repeat sim_step. apply sim_read_blocks.
  - intros i n buf. apply sim_on_inner. intros p. unfold part_write_blocks. repeat sim_step. apply sim_write_blocks.
  - intros i n. apply sim_on_inner. intros p. unfold part_write_zeros. repeat sim_step. apply sim_write_zeros.
  - intros i n. apply sim_on_inner. intros p. unfold part_clear_blocks. repeat sim_step. apply sim_clear_blocks.
Qed.

(** The table of partitions. *)
Lemma mbr_mount_sim : sim R eq Mbr.mount Mbr.mount.
Proof.
  unfold Mbr.mount. sim_step; [apply sim_gets, sim_block_count|]. sim_step; [apply sim_gets, sim_block_size|].
  sim_step; [sim_step|]. sim_step; [sim_step; apply sim_read_block|by sim_step].
Qed.

(** A volume, mounted: all but the device is the same. *)
Record same_volume (s : Fat32Inner D) (s' : Fat32Inner D') : Prop := {
  sv_device : R (device s) (device s');
  sv_bpb : bpb s = bpb s';
  sv_fs_info : fs_info s = fs_info s';
  sv_max : max_cluster s = max_cluster s';
  sv_occupied : occupied_file s = occupied_file s';
}.

Lemma fat_mount_sim : sim R same_volume Fat32Format.mount Fat32Format.mount.
Proof.
  unfold Fat32Format.mount. sim_step; [apply sim_gets, sim_block_size|]. sim_step; [apply sim_gets, sim_block_count|].
  sim_step; [sim_step|]. sim_step; [sim_step|]. sim_step; [sim_step; apply sim_read_block|].
  sim_step; [sim_step|].
  sim_step; [sim_step; [sim_step; [sim_step; apply sim_read_block|by sim_step]|by sim_step]|].
  sim_step; [sim_step; [sim_step|by sim_step]|].
  do 3 (sim_step; [sim_step|]).
  eapply (sim_bind _ R); [by apply sim_gets|]. intros x y Hxy. by apply sim_ret.
Qed.
End devices.
