(* ===== verification/AtaDevice.v ===== *)
(** * An ATA disk as a block device

    [AtaLbaDriver] implements the [BlockDevice] trait: [AtaDev] is the driver
    with its queue, its requests and the drive behind it, which live from one
    operation to the next. An operation of a task that waits for its future,
    begun when nothing else is in the queue, gives what it gives on [AtaDisk],
    the plain content of the disk, and leaves driver and drive so that the next
    one can begin: the driver refines the plain disk, in any sequence of
    operations. The plain disk keeps the contract of the trait. *)
From S2P Require Import Prelude Device Mbr Fat32Types Fat32Format Ata AtaSpec AtaTasks Simulation.
Import Drive.

(** ** Waiting *)

(** A request that is queued or in flight is not done. *)
Lemma flying_pending d0 s served waiting fates res r :
  queue_ok d0 s served waiting fates res -> r ∈ flying s ->
  exists rq, requests s !! r = Some rq /\ rq_status rq = STATUS_PENDING.
Proof.
  intros Q Hr. pose proof (qo_flight _ _ _ _ _ _ Q) as Hf. unfold flight, flying in *.
  assert (Hw : forall q js, waits s q js -> r ∈ q -> exists rq, requests s !! r = Some rq /\ rq_status rq = STATUS_PENDING).
  { intros q js H Hin. induction H as [|r' tc q js (rq & H1 & H2 & _) _ IH]; [by apply elem_of_nil in Hin|].
    apply elem_of_cons in Hin as [->|Hin]; [by exists rq|by apply IH]. }
  destruct (inflight s) as [r0|]; [|by eapply Hw; [apply Hf|]].
  destruct Hf as (rq & H1 & H2 & _ & [(t & f & n & t0 & _ & _ & _ & H)|(x & _ & _ & _ & H)]).
  - by eapply Hw.
  - apply elem_of_cons in Hr as [->|Hr]; [by exists rq|by eapply Hw].
Qed.

(** No write that is known is beyond the end of the disk. *)
Definition stores_fit (d0 : Drive) (s : Ata) : Prop :=
  forall r t k l ws n, keys s !! r = Some (t, Store k l ws, n) -> in_range d0 k l = true.

Lemma fit_not_refusable F d0 s : quick F d0 -> stores_fit d0 s -> ~ refusable F d0 s.
Proof.
  intros Hq Hs (r & t & k & l & ws & n & Hr & [H|(m & t' & f & Hm & H)]).
  - by rewrite (Hs _ _ _ _ _ _ Hr) in H.
  - destruct (Hq m) as (t'' & E & Hlt). rewrite E in Hm. injection Hm as <- <-. destruct H; [lia|done].
Qed.

Section waiting.
  Context {Ft A : Type} (F : nat) (d0 : Drive).
  Context (poll : Ft -> M Ata BlockDeviceError (Ft * Poll (A + BlockDeviceError))) (fut : Ft).
  Context (r t : Z) (c : Command) (reply : Result -> A + BlockDeviceError).

(** The poll of a future that waits for request [r]. *)
Definition polls : Prop := forall s served waiting fates res,
  queue_ok d0 s served waiting fates res -> keys s !! r = Some (t, c, 256%nat) ->
  r ∈ flying s /\ poll fut s = (Ok (fut, Pending), s) \/
  r ∉ flying s /\ exists x s' fut', res !! t = Some x /\ poll fut s = (Ok (fut', Ready (reply x)), s') /\
    queue_ok d0 s' served waiting fates res /\ flying s' = flying s /\ allocated s' = allocated s /\
    (stores_fit d0 s -> stores_fit d0 s').

(** What the wait ends with. *)
Definition answered (m : M Ata BlockDeviceError A) (jobs : list (Z * Command)) (s : Ata) : Prop :=
  exists s' served' waiting' fates' res' x,
    m s = (match reply x with inl a => Ok a | inr e => Err e end, s') /\
    queue_ok d0 s' served' waiting' fates' res' /\ flying s' = [] /\ stores_fit d0 s' /\
    served' ++ waiting' = jobs /\ res' !! t = Some x /\ r < allocated s'.

(** A future that waits alone is answered, and then the queue is empty. *)
Lemma await_ok n s served waiting fates res :
  polls -> queue_ok d0 s served waiting fates res -> idle s -> quick F d0 -> stores_fit d0 s ->
  keys s !! r = Some (t, c, 256%nat) -> (forall r', r' ∈ flying s -> r' = r) -> (remaining F s <= n)%nat ->
  answered (await poll F (S n) fut) (served ++ waiting) s.
Proof.
  intros Hpoll. revert s served waiting fates res. induction n as [|n IH]; intros s sv wt fs res Q Hi Hq Hst Hk Hfl Hn;
    destruct (Hpoll _ _ _ _ _ Q Hk) as [[Hf Hp]|(Hnf & x & s' & fut' & Hx & Hp & Q' & Hf' & Ha' & Hst')];
    unfold answered; cbn [await]; erewrite bind_ok by exact Hp.
  1:{ exfalso. unfold remaining, flying in *. destruct (inflight s) eqn:Hin; [destruct (phase (drive s)); lia|].
      rewrite (Hi Hin) in Hf. by apply elem_of_nil in Hf. }
  2:{ destruct (advance_ok F _ _ _ _ _ _ Q Hi Hq (fit_not_refusable F _ _ Hq Hst))
        as (s1 & sv1 & wt1 & fs1 & res1 & Hs & Q1 & Hi1 & Hk1 & Hb & _ & Hr1 & Hsub).
      erewrite bind_ok by exact Hs. rewrite <-Hb.
      apply (IH s1 sv1 wt1 fs1 res1 Q1 Hi1 Hq); [by unfold stores_fit; rewrite Hk1|by rewrite Hk1|auto|lia]. }
  all: exists s', sv, wt, fs, res, x; (split; [by destruct (reply x)|]); (split_and!; try done; [|by auto|]).
  all: try (rewrite Hf'; destruct (flying s) as [|r' l] eqn:E; [done|]; exfalso; apply Hnf; rewrite <-(Hfl r'); left).
  all: rewrite Ha'; unfold keys in Hk; rewrite lookup_fmap in Hk; destruct (requests s !! r) as [rq|] eqn:Hrq; [|done];
    by destruct (qo_requests _ _ _ _ _ _ Q r rq Hrq).
Qed.
End waiting.

(** A first poll that only submits. *)
Lemma await_first {Ft A} (poll : Ft -> M Ata BlockDeviceError (Ft * Poll (A + BlockDeviceError))) F n a b s s' :
  poll a s = poll b s' -> await poll F (S n) a s = await poll F (S n) b s'.
Proof. intros H. cbn [await]. unfold mbind, M_bind. by rewrite H. Qed.

(** ** A driver at rest *)

(** After any history nothing is in flight or queued, and the drive does not
    fail. Every request had a waker of its own, here its number. *)
Definition at_rest (P : nat) (s : Ata) : Prop :=
  exists d0 served fates res, queue_ok d0 s served [] fates res /\ quick P d0 /\
    flying s = [] /\ stores_fit d0 s /\ forall t, t ∈ served.*1 -> t < allocated s.

(** What a request does to a driver at rest. *)
Definition does (P : nat) (c : Command) (x : Result) (s s' : Ata) : Prop :=
  at_rest P s' /\ perform (drive s) Fine c (media (drive s)) = (media (drive s'), x) /\ fixed (drive s') = fixed (drive s).

Lemma all_fine P d0 (fates : list Fate) :
  quick P d0 -> Forall (fun f => exists n t, plan d0 n = (t, f)) fates -> fates = replicate (length fates) Fine.
Proof.
  intros Hq. induction 1 as [|f fates (n & t & Hn) _ IH]; [done|]. cbn. rewrite <-IH.
  destruct (Hq n) as (t' & E & _). rewrite E in Hn. by injection Hn as _ <-.
Qed.

(** The last of the jobs has been performed after the others. *)
Lemma last_job P d0 s sv fs res s' sv' wt' fs' res' t c x :
  queue_ok d0 s sv [] fs res -> quick P d0 -> t ∉ sv.*1 ->
  queue_ok d0 s' sv' wt' fs' res' -> sv' ++ wt' = sv ++ [(t, c)] -> res' !! t = Some x ->
  wt' = [] /\ perform d0 Fine c (media (drive s)) = (media (drive s'), x).
Proof.
  intros [Q1 Qp Q2 _ _ _ _ _ _ _] Hq Hfr [Q1' Qp' Q2' _ _ _ _ _ _ _] Hb Hx.
  assert (wt' = []) as ->.
  { destruct wt' as [|j wt' _] using rev_ind; [done|]. exfalso. rewrite app_assoc in Hb. apply app_inj_tail in Hb as [Hb _].
    destruct (serve_all_dom _ _ _ _ _ _ _ _ Q2' Hx) as [He|He]; [by rewrite lookup_empty in He|].
    rewrite zip_keys in He by done. apply Hfr. rewrite <-Hb, fmap_app. apply elem_of_app. by left. }
  split; [done|]. rewrite app_nil_r in Hb. subst sv'.
  assert (fs' = fs ++ [Fine]) as ->.
  { rewrite (all_fine P d0 fs'), (all_fine P d0 fs), Q1', Q1 by done. rewrite length_app. cbn. by rewrite replicate_add. }
  rewrite zip_with_app in Q2' by done. cbn in Q2'. rewrite (serve_all_snoc _ _ _ _ _ _ _ _ _ Q2) in Q2'.
  destruct (perform d0 Fine c (media (drive s))) as [m y]. injection Q2' as <- <-.
  rewrite lookup_insert_eq in Hx. by injection Hx as ->.
Qed.

(** A request of a driver at rest, and the wait for it. *)
Lemma request_runs {Ft A} P (poll : Ft -> M Ata BlockDeviceError (Ft * Poll (A + BlockDeviceError))) init fut reply rq s :
  at_rest P s -> rq_waker rq = allocated s -> rq_status rq = STATUS_PENDING -> rq_good rq ->
  (match job_of rq with Store k l _ => in_range (drive s) k l = true | _ => True end) ->
  (forall s', submit P rq s = (Ok (allocated s), s') -> poll init s = poll fut s') ->
  (forall d0, polls d0 poll fut (allocated s) (allocated s) (job_of rq) reply) ->
  exists x s', await poll P (S (S P)) init s = (match reply x with inl a => Ok a | inr e => Err e end, s') /\
    does P (job_of rq) x s s'.
Proof.
  intros (d0 & sv & fs & res & Q & Hq & Hfl & Hst & Hold) Hw Hp Hg Hfit Hfirst Hpoll.
  assert (Hid : idle s) by (intros H; unfold flying in Hfl; by rewrite H in Hfl).
  assert (Hfr : allocated s ∉ sv.*1) by (intros H%Hold; lia).
  pose proof (fixed_eqs _ _ (qo_fixed _ _ _ _ _ _ Q)) as (E1 & _ & E3 & _).
  destruct (submit_ok P _ _ _ _ _ _ rq Q Hid Hp Hg) as [(s1 & Hs & Q1 & Hi1 & Hk1 & _ & Hf1)|(s1 & _ & Ha)].
  { by rewrite app_nil_r, Hw. }
  2:{ exfalso. unfold accepted in Ha. unfold job_of in Hfit. destruct (rq_operate rq); try done.
      destruct (Hq (served (drive s))) as (t & E & Hlt). rewrite E3, E in Ha. unfold accepts in Ha.
      rewrite Hfit, (proj2 (Nat.ltb_lt _ _)) in Ha by done. done. }
  rewrite Hfl in Hf1. cbn in Hf1. rewrite app_nil_l, Hw in Q1.
  assert (Hk : keys s1 !! allocated s = Some (allocated s, job_of rq, 256%nat)).
  { rewrite Hk1, lookup_insert_eq. unfold key. by rewrite Hw, (proj1 Hg). }
  assert (Hst1 : stores_fit d0 s1).
  { intros r t k l ws n. rewrite Hk1. intros [[<- [= _ Hj _]]|[_ H]]%lookup_insert_Some; [|by eapply Hst].
    rewrite Hj in Hfit. unfold in_range in *. by rewrite E1 in Hfit. }
  assert (Hrem : (remaining P s1 <= S P)%nat).
  { unfold flying in Hf1. destruct (inflight s1) as [r|] eqn:Hn; [|by rewrite (Hi1 Hn) in Hf1].
    destruct (flight_quick P _ _ _ _ _ _ _ Q1 Hq Hn) as [H _]. injection Hf1 as _ E. rewrite E in H. cbn in H. lia. }
  destruct (await_ok P d0 poll fut _ _ _ reply (S P) s1 _ _ _ _ (Hpoll d0) Q1 Hi1 Hq Hst1 Hk)
    as (s' & sv' & wt' & fs' & res' & x & Haw & Q' & Hfl' & Hst' & Hb & Hx & Hlt); [|done|].
  { intros r' Hr'. rewrite Hf1 in Hr'. by apply list_elem_of_singleton in Hr'. }
  destruct (last_job P _ _ _ _ _ _ _ _ _ _ _ _ _ Q Hq Hfr Q' Hb Hx) as [-> Hperf]. rewrite app_nil_r in Hb. subst sv'.
  exists x, s'. split; [by rewrite (await_first _ _ _ _ fut _ s1) by auto|]. split_and!.
  - exists d0, (sv ++ [(allocated s, job_of rq)]), fs', res'. split_and!; try done. intros t.
    rewrite fmap_app, elem_of_app. intros [H%Hold|H%list_elem_of_singleton]; cbn in *; lia.
  - by rewrite (perform_fixed d0) by apply Q.
  - rewrite (qo_fixed _ _ _ _ _ _ Q'). symmetry. apply Q.
Qed.

(** ** The futures of the driver *)

Definition read_reply (x : Result) : list Z + BlockDeviceError :=
  match x with Done ws => inl (bytes_of_words ws) | Failed => inr IoError end.

Definition write_reply (x : Result) : unit + BlockDeviceError :=
  match x with Done _ => inl tt | Failed => inr IoError end.

Definition identify_reply (x : Result) : list Z + BlockDeviceError :=
  match x with Done ws => inl ws | Failed => inr IoError end.

Lemma read_polls d0 P cx buf r t k l :
  length buf = 512%nat -> polls d0 (poll_read P cx) (ReadWait buf r) r t (ReadSector k l) read_reply.
Proof.
  intros Hl s sv wt fs res Q Hk. cbn [poll_read]. destruct (decide (r ∈ flying s)) as [Hf|Hf].
  - left. split; [done|]. destruct (flying_pending _ _ _ _ _ _ _ Q Hf) as (rq & Hr & Hs). unfold poll_read_wait.
    erewrite bind_ok by (unfold lock_request; rewrite Hr; reflexivity). by rewrite Hs.
  - right. split; [done|]. destruct (poll_read_wait_ok _ _ _ _ _ _ buf _ _ _ _ Q Hk Hl) as [[? _]|(x & y & Hx & Hp & Hy)]; [done|].
    exists x, s, ReadDone. split_and!; try done. rewrite Hp. do 4 f_equal. destruct x, y; cbn in *; congruence.
Qed.

Lemma write_polls d0 P cx r t k l ws : polls d0 (poll_write P cx) (WriteWait r) r t (Store k l ws) write_reply.
Proof.
  intros s sv wt fs res Q Hk. cbn [poll_write]. destruct (decide (r ∈ flying s)) as [Hf|Hf].
  - left. split; [done|]. destruct (flying_pending _ _ _ _ _ _ _ Q Hf) as (rq & Hr & Hs). unfold poll_write_wait.
    erewrite bind_ok by (unfold lock_request; rewrite Hr; reflexivity). by rewrite Hs.
  - right. split; [done|]. destruct (poll_write_wait_ok _ _ _ _ _ _ _ _ _ _ _ _ Q Hk) as [[? _]|(x & y & Hx & Hp & Hy)]; [done|].
    exists x, s, WriteDone. split_and!; try done. rewrite Hp. do 4 f_equal. destruct x, y as [[]|]; cbn in *; congruence.
Qed.

Lemma identify_polls d0 P cx r t k : polls d0 (poll_identify P cx) (IdentifyWait r) r t (Identity k) identify_reply.
Proof.
  intros s sv wt fs res Q Hk. cbn [poll_identify]. destruct (decide (r ∈ flying s)) as [Hf|Hf].
  - left. split; [done|]. destruct (flying_pending _ _ _ _ _ _ _ Q Hf) as (rq & Hr & Hs). unfold poll_identify_wait.
    erewrite bind_ok by (unfold lock_request; rewrite Hr; reflexivity). by rewrite Hs.
  - right. split; [done|].
    destruct (poll_identify_wait_ok _ _ _ _ _ _ _ _ _ Q Hk) as [[? _]|(x & y & s' & Hx & Hp & Hy & Q' & Hi & Hqu & Ha & n & Hk')]; [done|].
    exists x, s', IdentifyDone. split_and!; try done.
    + rewrite Hp. do 4 f_equal. destruct x, y; cbn in *; congruence.
    + unfold flying. by rewrite Hi, Hqu.
    + intros Hst r' t' k' l' ws' n'. rewrite Hk'. intros [[_ [=]]|[_ H]]%lookup_insert_Some. by eapply Hst.
Qed.

(** ** The driver as a block device

    [AtaLbaDriver] with the queue, the requests and the drive it works with. *)
Record AtaDev : Type := mkDev {
  dv_driver : AtaLbaDriver;
  dv_ata : Ata;
}.

Definition on_ata {A} (m : AtaLbaDriver -> M Ata BlockDeviceError A) : M AtaDev BlockDeviceError A := fun v =>
  zoom dv_ata (fun s v => mkDev (dv_driver v) s) (m (dv_driver v)) v.

(** The number of the request that comes next stands for the waker of the
    task that waits for it. *)
Definition waker_for (s : Ata) : Z := allocated s.

Section device.
  (* how many readings of the status a write waits for *)
  Variable P : nat.

Definition ata_read_block (block_index : Z) (buf : list Z) : M AtaDev BlockDeviceError (list Z) :=
  on_ata (fun driver => cx ← gets waker_for;
    await (poll_read P cx) P (S (S P)) (ReadInit driver block_index buf)).

Definition ata_write_block (block_index : Z) (buf : list Z) : M AtaDev BlockDeviceError unit :=
  on_ata (fun driver => cx ← gets waker_for;
    await (poll_write P cx) P (S (S P)) (WriteInit driver block_index buf)).

Definition ata_block_size (v : AtaDev) : Z := 512.

Definition ata_block_count (v : AtaDev) : Z := size (dv_driver v).

Definition ata_device : BlockDevice AtaDev := {|
  block_size := ata_block_size;
  block_count := ata_block_count;
  write_block := ata_write_block;
  read_block := ata_read_block;
  write_blocks := provided_write_blocks ata_block_size ata_write_block;
  read_blocks := provided_read_blocks ata_block_size ata_read_block;
  write_zeros := provided_write_zeros ata_block_size (provided_write_blocks ata_block_size ata_write_block);
  clear_blocks := provided_clear_blocks
    (provided_write_zeros ata_block_size (provided_write_blocks ata_block_size ata_write_block));
|}.
End device.

(** ** The plain disk

    What is on the disks, and the size the driver has found. *)
Record AtaDisk : Type := mkDisk {
  ad_driver : AtaLbaDriver;
  ad_media : Z -> Z -> list Z;
  ad_capacity : Z -> Z;
}.

Definition unit_of (d : AtaDisk) : Z := disk (ad_driver d) `mod` 2.

Definition sector_exists (d : AtaDisk) (l : Z) : bool := (0 <=? l) && (l <? ad_capacity d (unit_of d)).

Definition plain_size (d : AtaDisk) : Z := 512.

(** Addresses have 28 bits. A sector that does not exist cannot be read; the
    driver waits without end for the drive to take the data for one. *)
Definition plain_read_block (i : Z) (buf : list Z) : M AtaDisk BlockDeviceError (list Z) :=
  rust_assert (length buf =? 512)%nat;;
  d ← gets id;
  if sector_exists d (i `mod` 2 ^ 28) then mret (bytes_of_words (ad_media d (unit_of d) (i `mod` 2 ^ 28)))
  else throw IoError.

Definition plain_write_block (i : Z) (buf : list Z) : M AtaDisk BlockDeviceError unit :=
  rust_assert (length buf =? 512)%nat;;
  d ← gets id;
  if sector_exists d (i `mod` 2 ^ 28)
  then modify (fun d => mkDisk (ad_driver d)
         (sector_set (ad_media d) (unit_of d) (i `mod` 2 ^ 28) (words_of_bytes buf)) (ad_capacity d))
  else diverge.

#[global] Instance plain_device : BlockDevice AtaDisk := {|
  block_size := plain_size;
  block_count d := size (ad_driver d);
  write_block := plain_write_block;
  read_block := plain_read_block;
  write_blocks := provided_write_blocks plain_size plain_write_block;
  read_blocks := provided_read_blocks plain_size plain_read_block;
  write_zeros := provided_write_zeros plain_size (provided_write_blocks plain_size plain_write_block);
  clear_blocks := provided_clear_blocks
    (provided_write_zeros plain_size (provided_write_blocks plain_size plain_write_block));
|}.

(** The driver knows the size of its drive, which 28 bits can address. *)
Record disk_ok (d : AtaDisk) : Prop := {
  do_size : 0 <= size (ad_driver d) <= 2 ^ 28;
  do_capacity : ad_capacity d (unit_of d) = size (ad_driver d);
  do_media k l : length (ad_media d k l) = 256%nat;
}.

Definition disk_blk (d : AtaDisk) (i : Z) : list Z := bytes_of_words (ad_media d (unit_of d) i).

Lemma sector_in_range d i :
  disk_ok d -> 0 <= i < size (ad_driver d) -> i `mod` 2 ^ 28 = i /\ sector_exists d (i `mod` 2 ^ 28) = true.
Proof.
  intros [D1 D2 _] Hi. rewrite Z.mod_small by lia. split; [done|]. unfold sector_exists. rewrite D2.
  by rewrite (proj2 (Z.leb_le _ _)), (proj2 (Z.ltb_lt _ _)) by lia.
Qed.

Lemma disk_geometry (d : AtaDisk) : disk_ok d ->
  0 < block_size d /\ 0 <= block_count d /\ block_size d * block_count d < 2 ^ 64.
Proof. intros [D _ _]. cbn. unfold plain_size. lia. Qed.

Lemma disk_blk_length (d : AtaDisk) i :
  disk_ok d -> 0 <= i < block_count d -> length (disk_blk d i) = Z.to_nat (block_size d).
Proof. intros D _. unfold disk_blk. by rewrite length_bytes_of_words, (do_media d D). Qed.

Lemma disk_blk_bytes (d : AtaDisk) i :
  disk_ok d -> 0 <= i < block_count d -> Forall is_byte (disk_blk d i).
Proof. intros _ _. apply bytes_of_words_bytes. Qed.

Lemma disk_read_spec (d : AtaDisk) i buf :
  disk_ok d -> io_args d i 1 buf -> read_block i buf d = (Ok (disk_blk d i), d).
Proof.
  intros D (H1 & _ & H2 & H3). cbn in H2. destruct (sector_in_range d i D) as [Hm He]; [lia|].
  unfold read_block, plain_device, plain_read_block. rewrite (proj2 (Nat.eqb_eq _ 512)) by exact H3.
  erewrite bind_ok by reflexivity. erewrite bind_ok by reflexivity. cbn [id]. by rewrite He, Hm.
Qed.

Lemma disk_write_spec (d : AtaDisk) i buf :
  disk_ok d -> io_args d i 1 buf -> Forall is_byte buf ->
  wp (write_block i buf) d (fun _ d' => written_as disk_ok disk_blk d i 1 buf d').
Proof.
  intros D (H1 & _ & H2 & H3) Hb. cbn in H2. destruct (sector_in_range d i D) as [Hm He]; [lia|].
  eapply wp_intro.
  { unfold write_block, plain_device, plain_write_block. rewrite (proj2 (Nat.eqb_eq _ 512)) by exact H3.
    erewrite bind_ok by reflexivity. erewrite bind_ok by reflexivity. cbn [id]. rewrite He, Hm. reflexivity. }
  assert (Hw : length (words_of_bytes buf) = 256%nat) by by apply length_words_of_bytes.
  split_and!; [|done|done|].
  - destruct D as [D1 D2 D3]. split; cbn; try done. by apply sector_set_length.
  - intros j Hj. unfold disk_blk, sector_set, unit_of. cbn. rewrite Z.eqb_refl. cbn. case_decide.
    + replace j with i by lia. rewrite Z.eqb_refl, Z.sub_diag. cbv iota.
      fold (bytes_of_words (words_of_bytes buf)). rewrite (bytes_of_words_of_bytes buf 256) by done. symmetry. by apply slice_full.
    + by rewrite (proj2 (Z.eqb_neq j i)) by lia.
Qed.

#[global] Instance plain_laws : BlockDeviceSpec AtaDisk := {|
  dev_ok := disk_ok;
  blk := disk_blk;
  dev_geometry := disk_geometry;
  blk_length := disk_blk_length;
  blk_bytes := disk_blk_bytes;
  read_block_spec := disk_read_spec;
  write_block_spec := disk_write_spec;
  read_blocks_spec := provided_read_blocks_spec disk_ok disk_blk disk_geometry disk_blk_length disk_read_spec;
  write_blocks_spec := provided_write_blocks_spec disk_ok disk_blk disk_geometry disk_write_spec;
  write_zeros_spec := provided_write_zeros_spec disk_ok disk_blk disk_geometry disk_write_spec;
|}.

(** ** The driver does what the plain disk does *)

(** The driver [dr] at rest, and what is on its disks. *)
Definition rests (P : nat) (dr : AtaLbaDriver) (v : AtaDev) (d : AtaDisk) : Prop :=
  at_rest P (dv_ata v) /\ dv_driver v = dr /\ ad_driver d = dr /\
  media (drive (dv_ata v)) = ad_media d /\ capacity (drive (dv_ata v)) = ad_capacity d.

Lemma range_exists P dr v d l : rests P dr v d -> in_range (drive (dv_ata v)) (unit_of d) l = sector_exists d l.
Proof. intros (_ & _ & _ & _ & Hc). unfold in_range, sector_exists. by rewrite Hc. Qed.

(** Waiting for a request, as the driver's methods do. *)
Lemma read_block_sim P dr i buf : sim (rests P dr) eq (ata_read_block P i buf) (plain_read_block i buf).
Proof.
  intros v d Hr. pose proof (range_exists P dr v d (i `mod` 2 ^ 28) Hr) as Hin. destruct v as [dv s].
  destruct Hr as (Hrest & E0 & E1 & E2 & E3). cbn in *. subst dv dr. unfold ata_read_block, on_ata, plain_read_block, zoom. cbn [dv_driver dv_ata].
  destruct (length buf =? 512)%nat eqn:Hl; [|cbn; unfold mbind, M_bind; cbn; by rewrite Hl].
  erewrite bind_ok by reflexivity. erewrite (bind_ok (rust_assert true)) by reflexivity. erewrite bind_ok by reflexivity.
  set (rq := new_request (disk (ad_driver d)) i (waker_for s) Read (replicate 256 0)).
  destruct (request_runs P (poll_read P (waker_for s)) (ReadInit (ad_driver d) i buf) (ReadWait buf (allocated s)) read_reply rq s)
    as (x & s' & -> & Hrest' & Hperf & Hfix); try done.
  - intros s' Hs. cbn [poll_read]. rewrite Hl. erewrite bind_ok by reflexivity. by erewrite bind_ok by exact Hs.
  - intros d0. apply read_polls. by apply Nat.eqb_eq.
  - pose proof (fixed_eqs _ _ Hfix) as (F1 & _). unfold job_of, rq in Hperf. cbn in Hperf.
    fold (unit_of d) in Hperf. cbn [id]. rewrite Hin in Hperf. rewrite E2 in Hperf.
    destruct (sector_exists d _); injection Hperf as Hm <-; cbn; (split; [done|]); unfold rests; cbn; by rewrite F1, <-Hm.
Qed.

(** A drive that refuses a write is waited for without end. *)
Lemma submit_refused P F rq s :
  at_rest P s -> rq_good rq -> rq_operate rq = Write ->
  in_range (drive s) (rq_disk rq `mod` 2) (rq_lba rq `mod` 2 ^ 28) = false ->
  exists s', submit F rq s = (Diverge, s').
Proof.
  intros (d0 & sv & fs & res & Q & _ & Hfl & _) Hg Ho Hr. unfold flying in Hfl.
  destruct (inflight s) as [|] eqn:Hin; [done|]. pose proof (qo_flight _ _ _ _ _ _ Q) as Hf. unfold flight in Hf. rewrite Hin in Hf.
  unfold submit. do 3 erewrite bind_ok by reflexivity. cbn [inflight]. rewrite Hin.
  set (s1 := mkAta _ _ _ _ _ _).
  pose proof (send_io_command_run F (allocated s) rq s1 (proj2 Hf) (dr_mark _ (qo_drive _ _ _ _ _ _ Q)) (lookup_insert_eq _ _ _) Hg) as Hs.
  unfold accepted in Hs. rewrite Ho in Hs. cbn [drive s1] in Hs. destruct (plan (drive s) (served (drive s))) as [t f].
  unfold accepts in Hs. rewrite Hr, andb_false_r in Hs. destruct Hs as [s' Hs]. exists s'. apply bind_diverge. exact Hs.
Qed.

Lemma write_block_sim P dr i buf : sim (rests P dr) eq (ata_write_block P i buf) (plain_write_block i buf).
Proof.
  intros v d Hr. pose proof (range_exists P dr v d (i `mod` 2 ^ 28) Hr) as Hin. destruct v as [dv s].
  destruct Hr as (Hrest & E0 & E1 & E2 & E3). cbn in *. subst dv dr. unfold ata_write_block, on_ata, plain_write_block, zoom. cbn [dv_driver dv_ata].
  destruct (length buf =? 512)%nat eqn:Hl; [|cbn; unfold mbind, M_bind; cbn; by rewrite Hl].
  erewrite bind_ok by reflexivity. erewrite (bind_ok (rust_assert true)) by reflexivity. erewrite bind_ok by reflexivity.
  set (rq := new_request (disk (ad_driver d)) i (waker_for s) Write (words_of_bytes buf)).
  assert (Hg : rq_good rq) by (split; [by apply length_words_of_bytes, Nat.eqb_eq|done]).
  cbn [id]. destruct (sector_exists d _) eqn:He.
  - destruct (request_runs P (poll_write P (waker_for s)) (WriteInit (ad_driver d) i buf) (WriteWait (allocated s)) write_reply rq s)
      as (x & s' & -> & Hrest' & Hperf & Hfix); try done.
    + intros s' Hs. cbn [poll_write]. rewrite Hl. erewrite bind_ok by reflexivity. by erewrite bind_ok by exact Hs.
    + intros d0. apply write_polls.
    + pose proof (fixed_eqs _ _ Hfix) as (F1 & _). cbn in Hperf. fold (unit_of d) in Hperf. rewrite E2 in Hperf.
      injection Hperf as Hm <-. cbn. split; [done|]. unfold rests. cbn. by rewrite F1, <-Hm.
  - destruct (submit_refused P P rq s Hrest Hg eq_refl Hin) as [s' Hs].
    cbn [await]. erewrite bind_diverge; [done|]. cbn [poll_write]. rewrite Hl. erewrite bind_ok by reflexivity.
    apply bind_diverge. exact Hs.
Qed.

#[global] Instance ata_sim P dr : DeviceSim (BlockDevice0 := ata_device P) (rests P dr).
Proof.
  assert (Hs : forall v d, rests P dr v d -> ata_block_size v = plain_size d) by done.
  pose proof (provided_write_zeros_sim (rests P dr) _ _ _ _ Hs (write_block_sim P dr)) as Hz. split.
  - done.
  - intros v d (_ & E & E' & _). cbn. unfold ata_block_count. congruence.
  - apply read_block_sim.
  - apply write_block_sim.
  - exact (provided_read_blocks_sim (rests P dr) _ _ _ _ Hs (read_block_sim P dr)).
  - exact (provided_write_blocks_sim (rests P dr) _ _ _ _ Hs (write_block_sim P dr)).
  - exact Hz.
  - exact Hz.
Qed.

(** ** Any sequence of transfers *)

Inductive Transfer : Type :=
  | ReadBlock (i : Z) (buf : list Z)
  | WriteBlock (i : Z) (buf : list Z)
  | ReadBlocks (i n : Z) (buf : list Z)
  | WriteBlocks (i n : Z) (buf : list Z)
  | WriteZeros (i n : Z).

(** The methods of the device, one after the other; what was read is kept. *)
Section transfers.
  Context {D : Type} `{!BlockDevice D}.

Definition transfer (t : Transfer) : M D BlockDeviceError (list Z) :=
  match t with
  | ReadBlock i buf => read_block i buf
  | WriteBlock i buf => write_block i buf;; mret []
  | ReadBlocks i n buf => read_blocks i n buf
  | WriteBlocks i n buf => write_blocks i n buf;; mret []
  | WriteZeros i n => write_zeros i n;; mret []
  end.

Fixpoint transfers (ts : list Transfer) : M D BlockDeviceError (list (list Z)) :=
  match ts with
  | [] => mret []
  | t :: ts => x ← transfer t; xs ← transfers ts; mret (x :: xs)
  end.
End transfers.

(** The specification: blocks with numbers, without a driver or a queue. *)
Definition shown (f : Z -> list Z) (t : Transfer) : list Z :=
  match t with
  | ReadBlock i _ => f i
  | ReadBlocks i n _ => concat (f <$> seqZ i n)
  | _ => []
  end.

Definition stored (f : Z -> list Z) (t : Transfer) : Z -> list Z := fun j =>
  match t with
  | WriteBlock i buf => if decide (j = i) then buf else f j
  | WriteBlocks i n buf => if decide (i <= j < i + n) then slice (Z.to_nat ((j - i) * 512)) 512 buf else f j
  | WriteZeros i n => if decide (i <= j < i + n) then replicate 512 0 else f j
  | _ => f j
  end.

Fixpoint shown_all (f : Z -> list Z) (ts : list Transfer) : list (list Z) :=
  match ts with
  | [] => []
  | t :: ts => shown f t :: shown_all (stored f t) ts
  end.

(** Blocks that exist, and buffers of bytes that fit them. *)
Definition sound_range (size i n : Z) : Prop := 0 <= i /\ 0 <= n /\ i + n <= size.

Definition sound_transfer (size : Z) (t : Transfer) : Prop :=
  match t with
  | ReadBlock i buf => sound_range size i 1 /\ length buf = 512%nat
  | WriteBlock i buf => sound_range size i 1 /\ length buf = 512%nat /\ Forall is_byte buf
  | ReadBlocks i n buf => sound_range size i n /\ length buf = Z.to_nat (n * 512)
  | WriteBlocks i n buf => sound_range size i n /\ length buf = Z.to_nat (n * 512) /\ Forall is_byte buf
  | WriteZeros i n => sound_range size i n
  end.

Lemma transfers_sim {D D'} `{!BlockDevice D, !BlockDevice D'} (R : D -> D' -> Prop) `{!DeviceSim R} ts :
  sim R eq (transfers ts) (transfers ts).
Proof.
  induction ts as [|t ts IH]; cbn; [by sim_step|]. sim_step.
  - destruct t; cbn; [apply sim_read_block| |apply sim_read_blocks|..]; (sim_step; [|by sim_step]);
      [apply sim_write_block|apply sim_write_blocks|apply sim_write_zeros].
  - sim_step; [apply IH|by sim_step].
Qed.

(** The content of the plain disk, as the specification has it. *)
Definition holds (f : Z -> list Z) (n : Z) (d : AtaDisk) : Prop :=
  disk_ok d /\ size (ad_driver d) = n /\ forall j, 0 <= j < n -> disk_blk d j = f j.

Lemma holds_written f g n d i k buf d' :
  holds f n d -> written_as disk_ok disk_blk d i k buf d' ->
  (forall j, g j = if decide (i <= j < i + k) then slice (Z.to_nat ((j - i) * 512)) 512 buf else f j) ->
  holds g n d'.
Proof.
  intros (D & Hn & Hf) (D' & _ & Hc & Hw) Hg. cbn in Hc, Hw. split_and!; [done|congruence|]. intros j Hj.
  rewrite Hw, Hg by lia. case_decide; [done|by apply Hf].
Qed.

Lemma sound_args f n d i k buf :
  holds f n d -> sound_range n i k -> length buf = Z.to_nat (k * 512) -> io_args d i k buf.
Proof. intros (_ & <- & _) (H1 & H2 & H3) Hl. by split_and!. Qed.

Lemma transfer_plain f n d t :
  holds f n d -> sound_transfer n t -> wp (transfer t) d (fun x d' => x = shown f t /\ holds (stored f t) n d').
Proof.
  intros Hd Ht. pose proof Hd as (D & Hn & Hf). destruct t as [i buf|i buf|i k buf|i k buf|i k]; cbn in Ht; cbn [transfer].
  - destruct Ht as [Hi Hl]. eapply wp_intro; [by eapply disk_read_spec, sound_args|].
    split; [|done]. unfold sound_range in Hi. apply Hf. lia.
  - destruct Ht as (Hi & Hl & Hb). apply wp_bind. eapply wp_mono; [by eapply disk_write_spec; [|eapply sound_args|]|].
    intros [] d' Hw. apply wp_ret. split; [done|]. eapply holds_written; [done..|]. intros j. cbn.
    repeat case_decide; try lia; [|done]. replace (j - i) with 0 by lia. symmetry. by apply slice_full.
  - destruct Ht as [Hi Hl]. eapply wp_intro; [by eapply (read_blocks_spec (BlockDeviceSpec := plain_laws) d i k buf D), sound_args|].
    split; [|done]. cbn. f_equal. apply list_fmap_ext. intros m j [-> Hm]%lookup_seqZ. unfold sound_range in Hi. apply Hf. lia.
  - destruct Ht as (Hi & Hl & Hb). apply wp_bind.
    eapply wp_mono; [by eapply (write_blocks_spec (BlockDeviceSpec := plain_laws) d i k buf D); [eapply sound_args|]|].
    intros [] d' Hw. apply wp_ret. split; [done|]. by eapply holds_written.
  - destruct Ht as (H1 & H2 & H3). rewrite <-Hn in H3. apply wp_bind.
    eapply wp_mono; [exact (write_zeros_spec (BlockDeviceSpec := plain_laws) d i k D H1 H2 H3)|].
    intros [] d' Hw. apply wp_ret. split; [done|]. eapply holds_written; [done..|]. intros j. cbn [stored].
    case_decide; [|done]. change (block_size d) with 512. unfold slice. rewrite drop_replicate, take_replicate. f_equal. lia.
Qed.

Lemma transfers_plain ts f n d :
  holds f n d -> Forall (sound_transfer n) ts ->
  wp (transfers ts) d (fun xs d' => xs = shown_all f ts /\ holds (foldl stored f ts) n d').
Proof.
  intros Hd Hts. revert f d Hd. induction Hts as [|t ts Ht _ IH]; intros f d Hd; [by apply wp_ret|].
  cbn [transfers shown_all foldl]. apply wp_bind. eapply wp_mono; [by apply transfer_plain|]. intros x d1 [-> Hd1].
  apply wp_bind. eapply wp_mono; [by apply IH|]. intros xs d2 [-> Hd2]. by apply wp_ret.
Qed.

Lemma read_beyond d i buf :
  disk_ok d -> size (ad_driver d) <= i < 2 ^ 28 -> length buf = 512%nat -> read_block i buf d = (Err IoError, d).
Proof.
  intros [D1 D2 _] Hi Hl. unfold read_block, plain_device, plain_read_block. rewrite (proj2 (Nat.eqb_eq _ 512)) by exact Hl.
  erewrite bind_ok by reflexivity. erewrite bind_ok by reflexivity. cbn [id]. rewrite Z.mod_small by lia.
  unfold sector_exists. by rewrite D2, (proj2 (Z.ltb_ge i _)), andb_false_r by lia.
Qed.


(** ** Drives that have just been switched on *)

Definition power_on (d0 : Drive) : Ata := mkAta None [] ∅ 0 d0 [].

Lemma power_on_rests P d0 : drive_ok d0 -> quick P d0 -> is_resting d0 = true -> at_rest P (power_on d0).
Proof.
  intros D Hq Hr. exists d0, [], [], ∅. split_and!; try done.
  - split; cbn; try done; try constructor; cbn; try done; [constructor|cbn in *; congruence..].
  - intros t Ht. by apply elem_of_nil in Ht.
Qed.

(** Drives of 16 blocks that take their time. *)
Definition small_drive : Drive :=
  mkDrive 0 0 0 0 0 false (Resting false) false (fun _ _ => replicate 256 0) (fun _ => 16)
    (fun _ => replicate 60 7 ++ 16 :: replicate 195 0) (fun n => (n mod 3, Fine)%nat) 0 false.

Definition small_driver : AtaLbaDriver := mkDriver 0x80 16.

Definition small_disk : AtaDisk := mkDisk small_driver (media small_drive) (capacity small_drive).

Lemma small_drive_quick : quick 3 small_drive.
Proof. intros n. exists (n mod 3)%nat. split; [done|]. apply Nat.mod_upper_bound. lia. Qed.

Lemma small_rests : rests 3 small_driver (mkDev small_driver (power_on small_drive)) small_disk.
Proof. split_and!; try done. by apply power_on_rests; [split|apply small_drive_quick|]. Qed.

Lemma small_disk_ok : disk_ok small_disk.
Proof. by split. Qed.


(** ** The size of the disk *)

(** The identification of a drive holds the number of its sectors in words 60
    and 61 (the standard), and [new] takes it from there. *)
Definition identity_ok (d : Drive) (k : Z) : Prop :=
  exists low high, identity d k !! 60%nat = Some low /\ identity d k !! 61%nat = Some high /\
    is_word low /\ is_word high /\ capacity d k = low + 2 ^ 16 * high.

Lemma lor_words low high :
  is_word low -> is_word high -> Z.lor low (wrap 32 (Z.shiftl high 16)) = low + 2 ^ 16 * high.
Proof.
  unfold is_word, wrap. intros Hl Hh. rewrite Z.shiftl_mul_pow2 by lia. rewrite Z.mod_small by lia.
  rewrite <-Z.shiftl_mul_pow2 by lia.
  assert (Hd : Z.land low (Z.shiftl high 16) = 0).
  { apply Z.bits_inj'. intros n Hn. rewrite Z.land_spec, Z.bits_0, Z.shiftl_spec by lia.
    destruct (decide (n < 16)); [rewrite (Z.testbit_neg_r high) by lia; apply andb_false_r|].
    rewrite (Z.bits_above_log2 low n); [done|lia|].
    destruct (decide (low = 0)) as [->|]; [cbn; lia|]. apply Z.log2_lt_pow2; [lia|].
    assert (2 ^ 16 <= 2 ^ n) by (apply Z.pow_le_mono_r; lia). lia. }
  rewrite <-Z.lxor_lor, <-Z.add_nocarry_lxor by done. rewrite Z.shiftl_mul_pow2 by lia. lia.
Qed.

(** Identifying a disk leaves the driver at rest. *)
Lemma new_run P k s :
  at_rest P s -> identity_ok (drive s) (k `mod` 2) ->
  exists s', new P (S (S P)) (waker_for s) k s = (Ok (mkDriver k (capacity (drive s) (k `mod` 2))), s') /\
    at_rest P s' /\ media (drive s') = media (drive s) /\ fixed (drive s') = fixed (drive s).
Proof.
  intros Hrest (low & high & H60 & H61 & Hlow & Hhigh & Hcap).
  set (rq := new_request k 0 (waker_for s) Identify (replicate 256 0)).
  destruct (request_runs P (poll_identify P (waker_for s)) (IdentifyInit k) (IdentifyWait (allocated s)) identify_reply rq s)
    as (x & s' & Ha & Hrest' & Hperf & Hfix); try done.
  - intros s' Hs. cbn [poll_identify]. by erewrite bind_ok by exact Hs.
  - intros d0. apply identify_polls.
  - cbn in Hperf. injection Hperf as Hm <-. exists s'. split_and!; try done.
    unfold new. erewrite bind_ok by exact Ha. by rewrite H60, H61, lor_words, Hcap by done.
Qed.

(** ** A write the drive refuses

    The loop that waits for the drive looks for its request of data only: a
    write the drive refuses, such as one beyond the end of the disk, is
    waited for without end, with interrupts disabled. *)
Theorem refused_write_hangs F P dr v d i buf cx :
  rests P dr v d -> disk_ok d -> length buf = 512%nat -> size dr <= i < 2 ^ 28 ->
  exists s, poll_write F cx (WriteInit dr i buf) (dv_ata v) = (Diverge, s).
Proof.
  intros Hr D Hl Hi. pose proof Hr as (Hrest & _ & <- & _). cbn [poll_write]. rewrite (proj2 (Nat.eqb_eq _ _) Hl).
  erewrite bind_ok by reflexivity. set (rq := new_request _ _ _ _ _).
  destruct (submit_refused P F rq (dv_ata v)) as [s' Hs]; [done|by split; [apply length_words_of_bytes|]|done| |].
  - cbn. fold (unit_of d). rewrite (range_exists _ _ _ _ _ Hr). destruct D as [D1 D2 _]. rewrite Z.mod_small by lia.
    unfold sector_exists. by rewrite D2, (proj2 (Z.ltb_ge i _)), andb_false_r by lia.
  - exists s'. apply bind_diverge. exact Hs.
Qed.

Lemma refused_write_hangs_witness :
  exists s, poll_write 1000 0 (WriteInit small_driver 16 (replicate 512 0)) (power_on small_drive) = (Diverge, s).
Proof.
  apply (refused_write_hangs 1000 3 small_driver _ small_disk 16 (replicate 512 0) 0 small_rests small_disk_ok); [done|cbn; lia].
Defined.

(** [send_io_command] means to enable the interrupts of the drive, but it
    clears bit 0 of what it reads, where the standard has the bit that
    disables them at bit 1, and what it reads is the status: on a drive that
    shows its index mark there, the interrupt of the request never comes. *)
Theorem index_mark_disables_interrupts F r rq s :
  is_resting (drive s) = true -> mark (drive s) = true -> requests s !! r = Some rq -> rq_operate rq = Read ->
  exists d, send_io_command F r s = (Ok tt, set_drive d s) /\
    forall n, line (Nat.iter n tick d) = false.
Proof.
  intros Hr Hm Hrq Ho. unfold send_io_command.
  assert (Hs : port_out8 ATA_INTERRUPT_ENABLE (Z.land (status (drive s)) 0xfe) (drive s) =
    Some (set_control true (drive s))).
  { unfold port_out8, status. rewrite Hm. unfold is_resting in Hr. by destruct (phase (drive s)) as [[]| | |]. }
  erewrite bind_ok by reflexivity. cbn beta.
  erewrite bind_ok by (unfold out8, access; cbn [drive set_drive]; rewrite Hs; reflexivity).
  erewrite bind_ok by (unfold lock_request; cbn [requests set_drive]; rewrite Hrq; reflexivity).
  rewrite Ho. unfold send_read_command. erewrite bind_ok by (by apply send_lba_run).
  destruct (head_byte_spec (rq_disk rq) (rq_lba rq)) as (H6 & _).
  rewrite out_command_run by done. unfold command. cbn [device sector_count programmed set_registers]. rewrite H6. cbn.
  eexists. split; [reflexivity|]. intros n. unfold line.
  enough (no_interrupts (Nat.iter n tick (launch (ReadSector
    (selected (programmed (rq_disk rq) (rq_lba rq) (set_control true (drive s))))
    (address (programmed (rq_disk rq) (rq_lba rq) (set_control true (drive s)))))
    (programmed (rq_disk rq) (rq_lba rq) (set_control true (drive s))))) = true) as ->; [apply andb_false_r|].
  assert (Ht : forall d, no_interrupts (tick d) = no_interrupts d).
  { intros d. unfold tick. destruct (phase d) as [|[|] f c| |]; try done.
    destruct c, f; cbn; try done; by destruct (in_range _ _ _). }
  induction n as [|n IH]; [|cbn; by rewrite Ht].
  cbn. unfold launch. by destruct (plan _ _).
Qed.
