(* ===== verification/DiskInit.v ===== *)
(** * Mounting the disks at boot (kernel/src/io/disk/mod.rs)

    [init_disk] identifies the disk the system was started from, reads its
    partition table and mounts the FAT32 partitions, all through the one driver
    and its queue. The file systems are entered in [FILE_SYSTEMS] under the
    number 0: the last one stays. *)
From S2P Require Import Prelude Device Mbr Fat32Types Fat32Format Ata AtaSpec AtaDevice Simulation.
Import Mbr.

Definition PARTITION_TYPE_FAT32 : Z := 0x0C.

Inductive InitDiskError : Type := mkInitDiskError.

(** A mounted volume: it holds its partition and, with the others, the driver. *)
Definition FileSystem : Type := Fat32Inner (PartitionDevice AtaLbaDriver).

Definition file_system {D} (driver : AtaLbaDriver) (p : MbrPartition) (fs : Fat32Inner D) : FileSystem :=
  mkInner (mkPartitionDevice driver p) (bpb fs) (fs_info fs) (max_cluster fs) (occupied_file fs).

(** The disks and the static [FILE_SYSTEMS]. *)
Record Disks : Type := mkDisks {
  ata_state : Ata;
  FILE_SYSTEMS : gmap Z FileSystem;
}.

Definition on_ata_state {E A} (m : M Ata E A) : M Disks E A :=
  zoom ata_state (fun s x => mkDisks s (FILE_SYSTEMS x)) m.

Definition on_disk {E A} (driver : AtaLbaDriver) (m : M AtaDev E A) : M Disks E A :=
  on_ata_state (zoom (mkDev driver) (fun v _ => dv_ata v) m).

Definition on_partition {D E A} (p : MbrPartition) (m : M (PartitionDevice D) E A) : M D E A :=
  zoom (fun d => mkPartitionDevice d p) (fun pd _ => inner pd) m.

Section init_disk.
  (* how many readings of the status a write waits for *)
  Variable P : nat.
#[local] Existing Instance ata_device.

(** [Fat32FileSystem::mount(Arc::new(disk))] and its entry. *)
Definition mount_partition (driver : AtaLbaDriver) (disk : MbrPartition) : M Disks InitDiskError unit :=
  fs ← map_err (fun _ => mkInitDiskError)
         (on_disk driver (on_partition disk (Fat32Format.mount (BlockDevice0 := partition_device (BlockDevice0 := ata_device P)))));
  modify (fun x => mkDisks (ata_state x) (<[0 := file_system driver disk fs]> (FILE_SYSTEMS x))).

Definition init_disk (startup_disk : Z) : M Disks InitDiskError unit :=
  driver ← map_err (fun _ => mkInitDiskError)
             (on_ata_state (cx ← gets waker_for; new P (S (S P)) cx startup_disk));
  mbr_disk ← map_err (fun _ => mkInitDiskError) (on_disk driver (Mbr.mount (BlockDevice0 := ata_device P)));
  for_each mbr_disk (fun disk _ =>
    match disk with
    | None => mret tt
    | Some disk =>
        if negb (partition_type disk =? PARTITION_TYPE_FAT32) then mret tt
        else mount_partition driver disk
    end) tt.
End init_disk.

(** ** Mounting only reads *)

Definition only_reads {S E A} (m : M S E A) : Prop := forall s, (m s).2 = s.

Lemma only_reads_bind {S E A B} (m : M S E A) (f : A -> M S E B) : only_reads m -> (forall a, only_reads (f a)) -> only_reads (m ≫= f).
Proof. intros Hm Hf s. specialize (Hm s). unfold mbind, M_bind. destruct (m s) as [[a|e| |] s']; cbn in Hm; subst s'; try done. apply Hf. Qed.

Lemma only_reads_map_err {S E E' A} (f : E -> E') (m : M S E A) : only_reads m -> only_reads (map_err f m).
Proof. intros Hm s. specialize (Hm s). unfold map_err. by destruct (m s) as [[a|e| |] s']. Qed.

Lemma only_reads_checked {S E} w x : only_reads (S := S) (E := E) (checked w x).
Proof. intros s. unfold checked. by destruct (fits w x). Qed.

Lemma fat_mount_only_reads {D} `{!BlockDevice D} : (forall i buf, only_reads (read_block i buf)) -> only_reads (Fat32Format.mount (D := D)).
Proof.
  intros Hr. unfold Fat32Format.mount. do 2 (apply only_reads_bind; [done|intros ?]). do 2 (case_match; [done|]).
  apply only_reads_bind; [apply only_reads_map_err, Hr|intros]. apply only_reads_bind; [done|intros]. apply only_reads_bind.
  { case_match; [|done]. by apply only_reads_bind; [apply only_reads_map_err, Hr|]. }
  intros. apply only_reads_bind; [by case_match|intros]. do 3 (apply only_reads_bind; [apply only_reads_checked|intros]).
  by apply only_reads_bind.
Qed.

Lemma part_only_reads {D} `{!BlockDevice D} i buf :
  (forall i buf, only_reads (read_block (D := D) i buf)) -> only_reads (read_block (D := PartitionDevice D) i buf).
Proof.
  intros Hr [d p]. cbn. unfold on_inner. cbn.
  assert (Hk : only_reads (part_read_block p i buf)).
  { unfold part_read_block. case_match; [done|]. by apply only_reads_bind; [apply only_reads_checked|]. }
  specialize (Hk d). by destruct (part_read_block p i buf d) as [r d']; cbn in *; subst.
Qed.

Lemma plain_only_reads i buf : only_reads (plain_read_block i buf).
Proof. unfold plain_read_block. apply only_reads_bind; [by destruct (_ =? _)%nat|]. intros _. apply only_reads_bind; [done|]. intros d. by case_match. Qed.

(** ** What is mounted *)

(** What the mount of a partition gives on the plain disk. *)
Definition mount_of (d : AtaDisk) (p : MbrPartition) : outcome Fat32Types.MountError (Fat32Inner (PartitionDevice AtaDisk)) :=
  (Fat32Format.mount (mkPartitionDevice d p)).1.

Definition mounts_as (d : AtaDisk) (p : MbrPartition) (f : FileSystem) : Prop :=
  exists fs, mount_of d p = Ok fs /\ f = file_system (ad_driver d) p fs.

Definition is_fat32 (o : option MbrPartition) : option MbrPartition :=
  p ← o; if partition_type p =? PARTITION_TYPE_FAT32 then Some p else None.

(** The number 0 is that of the last one. *)
Definition entered (vs : list FileSystem) (fss : gmap Z FileSystem) : gmap Z FileSystem :=
  match last vs with Some f => <[0 := f]> fss | None => fss end.

(** The driver can be used as before, and nothing was written. *)
Definition undisturbed (P : nat) (s s' : Ata) : Prop :=
  at_rest P s' /\ Drive.media (drive s') = Drive.media (drive s) /\ Drive.capacity (drive s') = Drive.capacity (drive s).

Lemma mount_of_keeps d p : Fat32Format.mount (mkPartitionDevice d p) = (mount_of d p, mkPartitionDevice d p).
Proof.
  unfold mount_of. pose proof (fat_mount_only_reads (D := PartitionDevice AtaDisk) (fun i buf => part_only_reads i buf plain_only_reads) (mkPartitionDevice d p)) as H.
  by destruct (Fat32Format.mount (mkPartitionDevice d p)); cbn in *; subst.
Qed.

(** One partition. *)
Lemma mount_partition_run P dr s fss d p :
  rests P dr (mkDev dr s) d ->
  match mount_of d p with
  | Ok fs => exists s', mount_partition P dr p (mkDisks s fss) = (Ok tt, mkDisks s' (<[0 := file_system dr p fs]> fss)) /\
      rests P dr (mkDev dr s') d
  | Err _ => exists s', mount_partition P dr p (mkDisks s fss) = (Err mkInitDiskError, mkDisks s' fss) /\
      rests P dr (mkDev dr s') d
  | Panic => (mount_partition P dr p (mkDisks s fss)).1 = Panic
  | Diverge => True
  end.
Proof.
  intros Hr. set (bd := ata_device P).
  pose proof (fat_mount_sim (BlockDevice0 := partition_device (BlockDevice0 := ata_device P)) (same_partition (rests P dr))
    (mkPartitionDevice (mkDev dr s) p) (mkPartitionDevice d p) (conj Hr eq_refl)) as Hs.
  rewrite mount_of_keeps in Hs. unfold mount_partition, on_disk, on_partition, on_ata_state, map_err, zoom, mbind, M_bind.
  cbn [ata_state FILE_SYSTEMS].
  destruct (Fat32Format.mount (mkPartitionDevice (mkDev dr s) p)) as [[fs1|e| |] [v p1]], (mount_of d p) as [fs|e'| |]; try done;
    destruct Hs as [Hs [Hv _]]; cbn in Hv; exists (dv_ata v); cbn; pose proof Hv as (_ & Hd & _); destruct v as [dv s']; cbn in *; subst dv.
  - destruct Hs as [_ E1 E2 E3 E4]. unfold file_system. by rewrite E1, E2, E3, E4.
  - done.
Qed.

(** The loop over the partitions. *)
Definition mount_all (P : nat) (dr : AtaLbaDriver) (ps : list (option MbrPartition)) : M Disks InitDiskError unit :=
  for_each ps (fun disk _ =>
    match disk with
    | None => mret tt
    | Some disk =>
        if negb (partition_type disk =? PARTITION_TYPE_FAT32) then mret tt
        else mount_partition P dr disk
    end) tt.

Lemma mount_all_skip P dr o ps x : is_fat32 o = None -> mount_all P dr (o :: ps) x = mount_all P dr ps x.
Proof. unfold mount_all. cbn [for_each]. destruct o as [p|]; cbn; [|done]. by destruct (_ =? _). Qed.

Lemma mount_all_cons P dr o p ps x :
  is_fat32 o = Some p -> mount_all P dr (o :: ps) x = (mount_partition P dr p;; mount_all P dr ps) x.
Proof.
  unfold mount_all. cbn [for_each]. destruct o as [p'|]; cbn; [|done]. destruct (_ =? _); [|done]. intros [= ->]. cbn.
  unfold mbind, M_bind. by destruct (mount_partition P dr p x) as [[[]| | |] ?].
Qed.

Lemma entered_cons f vs fss : entered (f :: vs) fss = entered vs (<[0 := f]> fss).
Proof. unfold entered. rewrite last_cons. destruct (last vs); [by rewrite insert_insert_eq|done]. Qed.

(** The partitions that mount, and then the rest. *)
Lemma mount_all_prefix P dr d ps vs rest s fss :
  rests P dr (mkDev dr s) d -> omap is_fat32 ps = vs.*1 ++ rest -> Forall (fun pf => mounts_as d pf.1 pf.2) vs ->
  exists s' ps', rests P dr (mkDev dr s') d /\ omap is_fat32 ps' = rest /\
    mount_all P dr ps (mkDisks s fss) = mount_all P dr ps' (mkDisks s' (entered vs.*2 fss)).
Proof.
  intros Hr Hps Hv. revert ps s fss Hr Hps. induction Hv as [|[p f] vs (fs & Hfs & Hf) _ IH]; intros ps s fss Hr Hps.
  { by exists s, ps. }
  cbn in Hfs, Hf, Hps. subst f. induction ps as [|o ps IHps]; cbn in Hps; [done|].
  destruct (is_fat32 o) as [p'|] eqn:Ho; [|rewrite mount_all_skip by done; by apply IHps].
  injection Hps as -> Hps. pose proof (mount_partition_run P dr s fss d p Hr) as Hm. rewrite Hfs in Hm.
  destruct Hm as (s1 & Hm & Hr1). erewrite mount_all_cons, bind_ok by done.
  pose proof Hr as (_ & _ & E & _). cbn. rewrite entered_cons, E. by apply IH.
Qed.

(** Up to the loop. *)
Section boot.
  Context (P : nat) (s : Ata) (fss : gmap Z FileSystem) (k : Z).
Let dr := mkDriver k (Drive.capacity (drive s) (k `mod` 2)).
Let disk := mkDisk dr (Drive.media (drive s)) (Drive.capacity (drive s)).
  Hypothesis Hrest : at_rest P s.
  Hypothesis Hid : identity_ok (drive s) (k `mod` 2).
  Hypothesis Hsize : 0 <= size dr <= 2 ^ 28.

Lemma found_ok : disk_ok disk.
Proof.
  destruct Hrest as (d0 & sv & fs & res & Q & _). split; [done|done|]. apply (qo_drive _ _ _ _ _ _ Q).
Qed.

Lemma rests_undisturbed s' : rests P dr (mkDev dr s') disk -> undisturbed P s s'.
Proof. intros (H1 & _ & _ & H2 & H3). done. Qed.

Lemma new_found :
  exists s1, rests P dr (mkDev dr s1) disk /\
    init_disk P k (mkDisks s fss) =
      (mbr_disk ← map_err (fun _ => mkInitDiskError) (on_disk dr (Mbr.mount (BlockDevice0 := ata_device P)));
       mount_all P dr mbr_disk) (mkDisks s1 fss).
Proof.
  destruct (new_run P k s Hrest Hid) as (s1 & Hnew & Hrest1 & Hm & Hf). exists s1. split.
  - pose proof (fixed_eqs _ _ Hf) as (Hc & _). by split_and!.
  - unfold init_disk. erewrite bind_ok; [reflexivity|]. unfold map_err, on_ata_state, zoom. cbn [ata_state].
    erewrite bind_ok by reflexivity. by rewrite Hnew.
Qed.

(** The first block, read through the driver. *)
Lemma table_read :
  0 < size dr ->
  exists s1, rests P dr (mkDev dr s1) disk /\
    init_disk P k (mkDisks s fss) = mount_all P dr ((fun i => parse_entry (size dr)
      (slice (entry_offset i) MBR_PARTITION_ENTRY_SIZE (disk_blk disk 0))) <$> seq 0 4) (mkDisks s1 fss).
Proof.
  intros Hpos. destruct new_found as (s1 & Hr & ->). set (bd := ata_device P).
  pose proof (mbr_mount_sim (rests P dr) _ _ Hr) as Hs.
  rewrite (mount_run (BlockDeviceSpec0 := plain_laws) disk found_ok Hpos) in Hs by (cbn; unfold plain_size; lia).
  unfold map_err, on_disk, on_ata_state, zoom. unfold mbind at 1, M_bind at 1. cbn [ata_state].
  destruct (Mbr.mount (mkDev dr s1)) as [[t| | |] v]; try done. destruct Hs as [-> Hv].
  exists (dv_ata v). pose proof Hv as (_ & E & _). destruct v as [dv s']. cbn in E. subst dv. by split.
Qed.

Lemma table_missing :
  size dr = 0 -> exists s1, rests P dr (mkDev dr s1) disk /\
    init_disk P k (mkDisks s fss) = (Err mkInitDiskError, mkDisks s1 fss).
Proof.
  intros Hz. destruct new_found as (s1 & Hr & ->). set (bd := ata_device P).
  pose proof (mbr_mount_sim (rests P dr) _ _ Hr) as Hs.
  assert (Hm : Mbr.mount disk = (Err (MountIoError IoError), disk)).
  { unfold Mbr.mount. erewrite bind_ok by reflexivity. erewrite bind_ok by reflexivity. change (block_size disk) with 512.
    cbn [Z.ltb Z.compare Pos.compare Pos.compare_cont]. unfold mbind, M_bind, map_err.
    rewrite (read_beyond disk 0 _ found_ok); [done|change (ad_driver disk) with dr; lia|done]. }
  rewrite Hm in Hs. unfold map_err, on_disk, on_ata_state, zoom. unfold mbind at 1, M_bind at 1. cbn [ata_state].
  destruct (Mbr.mount (mkDev dr s1)) as [[t| | |] v]; try done. destruct Hs as [-> Hv].
  exists (dv_ata v). pose proof Hv as (_ & E & _). destruct v as [dv s']. cbn in E. subst dv. by split.
Qed.
End boot.

Lemma mount_all_done P dr ps x : omap is_fat32 ps = [] -> mount_all P dr ps x = (Ok tt, x).
Proof.
  induction ps as [|o ps IH]; [done|]. cbn [omap list_omap]. destruct (is_fat32 o) eqn:Ho; [done|]. intros H. rewrite mount_all_skip by done. by apply IH.
Qed.

(** The first that is left is mounted next. *)
Lemma mount_all_next P dr ps p rest x :
  omap is_fat32 ps = p :: rest -> exists ps', mount_all P dr ps x = (mount_partition P dr p;; mount_all P dr ps') x.
Proof.
  induction ps as [|o ps IH]; [done|]. cbn [omap list_omap]. destruct (is_fat32 o) eqn:Ho.
  - intros [= -> _]. exists ps. by apply mount_all_cons.
  - intros H. rewrite mount_all_skip by done. by apply IH.
Qed.

(** C33: at boot the disk the system was started from is identified through
    the driver, its table of partitions is read and its FAT32 partitions are
    mounted in the order of the table. When all of them can be mounted, the
    file system with the number 0 is that of the last one. The first that
    cannot be mounted ends [init_disk] with an error, and so does a disk
    without blocks; the ones before it stay entered. A mount that panics is
    not hidden either. Nothing is written, and the driver is ready for use. *)
Theorem init_disk_mounts (P : nat) (s : Ata) (fss : gmap Z FileSystem) (k : Z) :
  let size := Drive.capacity (drive s) (k `mod` 2) in
  let disk := mkDisk (mkDriver k size) (Drive.media (drive s)) (Drive.capacity (drive s)) in
  let table := (fun i => parse_entry size (slice (entry_offset i) MBR_PARTITION_ENTRY_SIZE (disk_blk disk 0)))
                 <$> seq 0 4 in
  at_rest P s -> identity_ok (drive s) (k `mod` 2) -> 0 <= size <= 2 ^ 28 ->
  (size = 0 ->
     exists s', init_disk P k (mkDisks s fss) = (Err mkInitDiskError, mkDisks s' fss) /\ undisturbed P s s') /\
  (0 < size -> forall vs, Forall (fun pf => mounts_as disk pf.1 pf.2) vs ->
     (omap is_fat32 table = vs.*1 ->
        exists s', init_disk P k (mkDisks s fss) = (Ok tt, mkDisks s' (entered vs.*2 fss)) /\ undisturbed P s s') /\
     (forall p rest e, omap is_fat32 table = vs.*1 ++ p :: rest -> mount_of disk p = Err e ->
        exists s', init_disk P k (mkDisks s fss) = (Err mkInitDiskError, mkDisks s' (entered vs.*2 fss)) /\
          undisturbed P s s') /\
     (forall p rest, omap is_fat32 table = vs.*1 ++ p :: rest -> mount_of disk p = Panic ->
        (init_disk P k (mkDisks s fss)).1 = Panic)).
Proof.
  intros size disk table Hrest Hid Hsz. split.
  { intros Hz. destruct (table_missing P s fss k Hrest Hid Hsz Hz) as (s1 & Hr & ->). exists s1. split; [done|]. by eapply rests_undisturbed. }
  intros Hpos vs Hvs. destruct (table_read P s fss k Hrest Hid Hsz Hpos) as (s1 & Hr & Hrun).
  change (rests P (mkDriver k size) (mkDev (mkDriver k size) s1) disk) in Hr.
  change (init_disk P k (mkDisks s fss) = mount_all P (mkDriver k size) table (mkDisks s1 fss)) in Hrun. rewrite Hrun.
  split_and!.
  - intros Ht. rewrite <-(app_nil_r vs.*1) in Ht. destruct (mount_all_prefix _ _ _ _ _ _ _ fss Hr Ht Hvs) as (s2 & ps & Hr2 & Hps & ->).
    exists s2. split; [by apply mount_all_done|by eapply rests_undisturbed].
  - intros p rest e Ht He. destruct (mount_all_prefix _ _ _ _ _ _ _ fss Hr Ht Hvs) as (s2 & ps & Hr2 & Hps & ->).
    destruct (mount_all_next P (mkDriver k size) ps p rest (mkDisks s2 (entered vs.*2 fss)) Hps) as [ps' ->].
    pose proof (mount_partition_run P _ s2 (entered vs.*2 fss) disk p Hr2) as Hm. rewrite He in Hm. destruct Hm as (s3 & Hm & Hr3).
    exists s3. split; [|by eapply rests_undisturbed]. unfold mbind, M_bind. by rewrite Hm.
  - intros p rest Ht He. destruct (mount_all_prefix _ _ _ _ _ _ _ fss Hr Ht Hvs) as (s2 & ps & Hr2 & Hps & ->).
    destruct (mount_all_next P (mkDriver k size) ps p rest (mkDisks s2 (entered vs.*2 fss)) Hps) as [ps' ->].
    pose proof (mount_partition_run P _ s2 (entered vs.*2 fss) disk p Hr2) as Hm. rewrite He in Hm.
    unfold mbind, M_bind. by destruct (mount_partition _ _ _ _) as [[] ?].
Qed.

(** ** A formatted disk

    A blank disk of 32 blocks gets a partition table and, in its only
    partition, a FAT32 volume; the system is started from it. *)
Module DiskRun.

Definition P : nat := 3.

Definition blank : AtaDisk := mkDisk (mkDriver 0x80 32) (fun _ _ => replicate 256 0) (fun _ => 32).

Definition entries : list (option MbrPartitionEntry) := [Some (mkMbrPartitionEntry false 4 32 0x0C); None; None; None].

Definition system : MbrPartition := mkMbrPartition 0x0C 4 32.

Definition partitioned : AtaDisk := (Mbr.format entries blank).2.

Definition formatted_disk : AtaDisk := inner (with_format (mkPartitionDevice partitioned system)).2.

Lemma blank_ok : dev_ok blank.
Proof. by split. Qed.

Lemma partitioned_ok : dev_ok partitioned /\ block_count partitioned = 32.
Proof.
  destruct (wp_run _ _ _ (format_run entries blank blank_ok ltac:(done) ltac:(done) ltac:(done)
    ltac:(repeat constructor; done))) as (ps & d & Hrun & _ & buf & (Hok & _ & Hc & _) & _).
  unfold partitioned. rewrite Hrun. cbn [snd]. split; [exact Hok|exact Hc].
Qed.

Lemma system_formattable : formattable (mkPartitionDevice partitioned system) 3 0.
Proof.
  destruct partitioned_ok as [Hok Hc]. split; [|split_conj; vm_compute; done].
  split; [exact Hok|]. cbn [inner part]. rewrite Hc. unfold part_ok. cbn. lia.
Qed.

Lemma system_kept : part (with_format (mkPartitionDevice partitioned system)).2 = system.
Proof. by vm_compute. Qed.

Lemma formatted_disk_mounts :
  partition_ok (mkPartitionDevice formatted_disk system) /\ exists fs, mount_of formatted_disk system = Ok fs /\ fat_ok fs.
Proof.
  destruct (with_format_mount _ _ _ system_formattable) as (fs & H1 & H2 & _ & _ & _ & _ & H3).
  assert (Hd : mkPartitionDevice formatted_disk system = device fs).
  { rewrite <-system_kept. unfold formatted_disk. rewrite H1. by destruct (device fs). }
  unfold mount_of. rewrite Hd. split; [exact (ok_dev _ H2)|]. exists fs. rewrite H3. split; [reflexivity|exact H2].
Qed.

(** The drives with this disk in them. *)
Definition formatted_drive : Drive.Drive :=
  Drive.mkDrive 0 0 0 0 0 false (Drive.Resting false) false (ad_media formatted_disk) (fun _ => 32)
    (fun _ => replicate 60 7 ++ 32 :: replicate 195 0) (fun n => (n mod 3, Drive.Fine)%nat) 0 false.

#[local] Opaque formatted_disk.

Lemma formatted_ok : disk_ok formatted_disk.
Proof. destruct formatted_disk_mounts as [[H _] _]. cbn [inner] in H. exact H. Qed.

Lemma formatted_rests : at_rest P (power_on formatted_drive).
Proof.
  apply power_on_rests; [|intros n; exists (n mod 3)%nat; split; [done|by apply (Nat.mod_upper_bound n 3)]|done].
  split; try done. apply (do_media _ formatted_ok).
Qed.

Lemma found_again : mkDisk (mkDriver 0x80 32) (ad_media formatted_disk) (fun _ => 32) = formatted_disk.
Proof.
  assert (mkDriver 0x80 32 = ad_driver formatted_disk) as -> by by vm_compute.
  assert ((fun _ => 32) = ad_capacity formatted_disk) as -> by by vm_compute. by destruct formatted_disk.
Qed.

Lemma found_table :
  (fun i => parse_entry 32 (slice (entry_offset i) MBR_PARTITION_ENTRY_SIZE (disk_blk formatted_disk 0))) <$> seq 0 4 =
  [Some system; None; None; None].
Proof. by vm_compute. Qed.

Lemma init_disk_mounts_witness :
  exists fs s', mount_of formatted_disk system = Ok fs /\ fat_ok fs /\
    init_disk P 0x80 (mkDisks (power_on formatted_drive) ∅) =
      (Ok tt, mkDisks s' {[0 := file_system (mkDriver 0x80 32) system fs]}) /\
    undisturbed P (power_on formatted_drive) s'.
Proof.
  destruct (proj2 formatted_disk_mounts) as (fs & Hfs & Hok). exists fs.
  pose proof (init_disk_mounts P (power_on formatted_drive) ∅ 0x80 formatted_rests) as H. cbv zeta in H.
  change (Drive.capacity (drive (power_on formatted_drive)) (0x80 `mod` 2)) with 32 in H.
  change (Drive.capacity (drive (power_on formatted_drive))) with (fun _ : Z => 32) in H.
  change (Drive.media (drive (power_on formatted_drive))) with (ad_media formatted_disk) in H.
  rewrite found_again, found_table in H. destruct H as [_ H].
  - exists 32, 0. clear. split_conj; [by vm_compute|by vm_compute|unfold is_word; lia|unfold is_word; lia|by vm_compute].
  - clear. lia.
  - destruct (H ltac:(lia) [(system, file_system (mkDriver 0x80 32) system fs)]) as (H1 & _).
    { constructor; [|constructor]. exists fs. split; [exact Hfs|]. cbn [snd fst]. rewrite <-found_again. reflexivity. }
    destruct (H1 eq_refl) as (s' & Hrun & Hu). exists s'. split_and!; [exact Hfs|exact Hok|exact Hrun|exact Hu..].
Defined.

End DiskRun.
