(* ===== verification/BootMemory.v ===== *)
(** * The memory map (bootloader/src/memory.rs)

    [normalize_memory_region]: the map of the BIOS, sorted, without overlaps,
    empty regions and unknown types, and with neighbours merged. The sort of
    the standard library is a parameter: it permutes its argument and sorts it
    by base address, and promises nothing about regions with the same one.
    [MemoryRegion] is the struct of [Physics.v], which the kernel reads from
    the same memory. *)
From Stdlib Require Import Sorted.
From S2P Require Import Prelude Physics.

Definition TYPE_USABLE : Z := 1.
Definition TYPE_RESERVED : Z := 2.

Definition set_type (t : Z) (r : MemoryRegion) : MemoryRegion :=
  mkMemoryRegion (base_addr r) (region_length r) t.

Definition set_base (b : Z) (r : MemoryRegion) : MemoryRegion :=
  mkMemoryRegion b (region_length r) (region_type r).

Definition set_length (n : Z) (r : MemoryRegion) : MemoryRegion :=
  mkMemoryRegion (base_addr r) n (region_type r).

(** Step 2: whatever is not usable is reserved. *)
Definition restrict_type (r : MemoryRegion) : MemoryRegion :=
  if negb (region_type r =? TYPE_USABLE) then set_type TYPE_RESERVED r else r.

Definition saturating_sub (a b : Z) : Z := Z.max 0 (a - b).

Definition checked_add (a b : Z) : outcome unit Z := if fits 64 (a + b) then Ok (a + b) else Panic.

(** Step 3: one pass over neighbours, [prev] the one before [rest]; the flag
    says that a base address has changed. *)
Fixpoint resolve (prev : MemoryRegion) (rest : list MemoryRegion) : outcome unit (list MemoryRegion * bool) :=
  match rest with
  | [] => Ok ([prev], false)
  | cur :: rest =>
      prev_end_addr ← checked_add (base_addr prev) (region_length prev);
      if prev_end_addr <=? base_addr cur then
        '(l, change_base_addr) ← resolve cur rest; Ok (prev :: l, change_base_addr)
      else
        let overlap := prev_end_addr - base_addr cur in
        if region_type prev =? TYPE_RESERVED then
          base ← checked_add (base_addr cur) overlap;
          '(l, _) ← resolve (set_length (saturating_sub (region_length cur) overlap) (set_base base cur)) rest;
          Ok (prev :: l, true)
        else
          '(l, change_base_addr) ← resolve cur rest;
          Ok (set_length (saturating_sub (region_length prev) overlap) prev :: l, change_base_addr)
  end.

Definition resolve_all (l : list MemoryRegion) : outcome unit (list MemoryRegion * bool) :=
  match l with
  | [] => Ok ([], false)
  | prev :: rest => resolve prev rest
  end.

(** Step 4. *)
Definition remove_empty (l : list MemoryRegion) : list MemoryRegion :=
  filter (fun r => 0 < region_length r) l.

(** Step 5. *)
Fixpoint merge (prev : MemoryRegion) (rest : list MemoryRegion) : outcome unit (list MemoryRegion) :=
  match rest with
  | [] => Ok [prev]
  | cur :: rest =>
      if negb (region_type prev =? region_type cur) then l ← merge cur rest; Ok (prev :: l)
      else
        prev_end_addr ← checked_add (base_addr prev) (region_length prev);
        if negb (prev_end_addr =? base_addr cur) then l ← merge cur rest; Ok (prev :: l)
        else
          len ← checked_add (region_length prev) (region_length cur);
          merge (set_length len prev) rest
  end.

Definition merge_all (l : list MemoryRegion) : outcome unit (list MemoryRegion) :=
  match l with
  | [] => Ok []
  | prev :: rest => merge prev rest
  end.

Section normalize.
  Variable sort : list MemoryRegion -> list MemoryRegion.

(** The loop over steps 3 and 4. *)
Fixpoint separate (fuel : nat) (l : list MemoryRegion) : outcome unit (list MemoryRegion) :=
  match fuel with
  | O => Diverge
  | S fuel =>
      '(l, change_base_addr) ← resolve_all l;
      if change_base_addr : bool then separate fuel (sort l)
      else
        let kept := remove_empty l in
        if (length kept =? length l)%nat then Ok l else separate fuel kept
  end.

Definition normalize_memory_region (fuel : nat) (l : list MemoryRegion) : outcome unit (list MemoryRegion) :=
  l ← separate fuel (restrict_type <$> sort l);
  merge_all l.
End normalize.

(** ** Addresses and types *)

Definition stop (r : MemoryRegion) : Z := base_addr r + region_length r.

Definition covers (r : MemoryRegion) (a : Z) : Prop := base_addr r <= a < stop r.

Definition of_type (t : Z) (l : list MemoryRegion) (a : Z) : Prop :=
  exists r, r ∈ l /\ region_type r = t /\ covers r a.

(** A region as the BIOS gives it: its end is an address too. *)
Definition valid (r : MemoryRegion) : Prop :=
  0 <= base_addr r /\ 0 <= region_length r /\ stop r < 2 ^ 64.

Definition typed (r : MemoryRegion) : Prop := region_type r = TYPE_USABLE \/ region_type r = TYPE_RESERVED.

(** A region of a map whose regions end by [m]. *)
Definition bounded (m : Z) (r : MemoryRegion) : Prop :=
  0 <= base_addr r /\ 0 <= region_length r /\ stop r <= m /\ typed r.

Definition base_le (r r' : MemoryRegion) : Prop := base_addr r <= base_addr r'.

(** Neighbours in the result. *)
Definition apart (r r' : MemoryRegion) : Prop := stop r <= base_addr r'.
Definition next (r r' : MemoryRegion) : Prop :=
  stop r <= base_addr r' /\ (region_type r = region_type r' -> stop r < base_addr r').

Lemma of_type_cons t r l a : of_type t (r :: l) a <-> region_type r = t /\ covers r a \/ of_type t l a.
Proof.
  unfold of_type. setoid_rewrite elem_of_cons. split.
  - intros (r' & [->|Hr'] & H); [by left|]. right. by exists r'.
  - intros [H|(r' & Hr' & H)]; [exists r|exists r']; auto.
Qed.

Lemma of_type_perm t l l' a : l ≡ₚ l' -> of_type t l a -> of_type t l' a.
Proof. intros Hp (r & Hr & H). exists r. by rewrite <-Hp. Qed.

Lemma checked_add_ok m a b : 0 <= a + b <= m -> m < 2 ^ 64 -> checked_add a b = Ok (a + b).
Proof.
  intros H Hm. unfold checked_add, fits. by rewrite (proj2 (Z.leb_le _ _)), (proj2 (Z.ltb_lt _ _)) by lia.
Qed.

(** ** One pass *)

(** What a pass promises; [C] is what reserved regions before [prev] cover. *)
Record passed (m : Z) (C : Z -> Prop) (prev : MemoryRegion) (rest l : list MemoryRegion) (change : bool) : Prop := {
  pa_head : exists h t, l = h :: t /\ base_addr h = base_addr prev /\ stop h <= stop prev;
  pa_bounded : Forall (bounded m) l;
  pa_length : length l = S (length rest);
  pa_reserved a : C a \/ of_type TYPE_RESERVED l a <-> C a \/ of_type TYPE_RESERVED (prev :: rest) a;
  pa_usable a : of_type TYPE_USABLE l a -> of_type TYPE_USABLE (prev :: rest) a;
  pa_sum : zsum base_addr (prev :: rest) + (if change then 1 else 0) <= zsum base_addr l;
}.

Definition and_before (C : Z -> Prop) (prev : MemoryRegion) (a : Z) : Prop :=
  C a \/ region_type prev = TYPE_RESERVED /\ covers prev a.

Lemma passed_cons m C prev prev' cur cur' rest l change moved :
  base_addr prev' = base_addr prev -> stop prev' <= stop prev -> bounded m prev' ->
  region_type prev' = region_type prev -> (region_type prev = TYPE_RESERVED -> prev' = prev) ->
  region_type cur' = region_type cur -> (forall a, covers cur' a -> covers cur a) ->
  (region_type cur = TYPE_RESERVED -> forall a, covers cur a -> and_before C prev a \/ covers cur' a) ->
  base_addr cur + (if moved : bool then 1 else 0) <= base_addr cur' ->
  passed m (and_before C prev) cur' rest l change ->
  passed m C prev (cur :: rest) (prev' :: l) (change || moved).
Proof.
  intros E1 E2 B ET ER KT Ksub Kres Kb [A1 A2 A3 A4 A5 A6]. split.
  - by exists prev', l.
  - by constructor.
  - cbn. by rewrite A3.
  - intros a. specialize (A4 a). rewrite !of_type_cons in *. rewrite KT in A4. rewrite ET. unfold and_before in *.
    specialize (Ksub a). split.
    + intros [?|[[HR Hc]|H]]; [by left| |].
      * right. left. by rewrite ER in Hc.
      * naive_solver.
    + intros [?|[[HR Hc]|[[HR Hc]|H]]]; [by left| | |].
      * right. left. by rewrite ER.
      * destruct (Kres HR a Hc) as [[?|[HR' ?]]|?]; [by left|right; left; by rewrite ER|].
        destruct A4 as [_ A4]. destruct A4 as [[?|[HR' ?]]|?]; [by auto|by left|right; left; by rewrite ER|by auto].
      * destruct A4 as [_ A4]. destruct A4 as [[?|[HR' ?]]|?]; [by auto|by left|right; left; by rewrite ER|by auto].
  - intros a. rewrite !of_type_cons. rewrite ET. intros [[HU Hc]|H%A5].
    + left. split; [done|]. unfold covers, stop in *. lia.
    + right. rewrite of_type_cons, KT in H. destruct H as [[HU Hc]|H]; [left|by right]. auto.
  - rewrite !zsum_cons in *. destruct change, moved; cbn [orb]; lia.
Qed.

Lemma saturating_stop r b n : stop (set_length n (set_base b r)) = b + n.
Proof. done. Qed.

Lemma resolve_spec m rest : m < 2 ^ 64 -> forall (C : Z -> Prop) b prev,
  bounded m prev -> Forall (bounded m) rest -> b <= base_addr prev ->
  Sorted Z.le (b :: (base_addr <$> rest)) ->
  (region_type prev = TYPE_RESERVED -> forall a, b <= a < base_addr prev -> C a) ->
  exists l change, resolve prev rest = Ok (l, change) /\ passed m C prev rest l change /\
    (change = false -> base_addr prev = b -> Sorted apart l).
Proof.
  intros Hm. induction rest as [|cur rest IH]; intros C b prev Hp Hr Hb Hs Hc.
  - exists [prev], false. split; [done|]. split; [|repeat constructor].
    split; [by exists prev, []|by constructor|done|done|done|cbn; lia].
  - apply Forall_cons in Hr as [Hcur Hr]. apply Sorted_inv in Hs as [Hs Hhd]. cbn in Hs, Hhd.
    apply HdRel_inv in Hhd. pose proof Hp as (P1 & P2 & P3 & Ptype). pose proof Hcur as (K1 & K2 & K3 & Ktype).
    cbn [resolve]. rewrite (checked_add_ok m) by (unfold stop in *; lia). cbn [mbind outcome_bind].
    fold (stop prev). destruct (stop prev <=? base_addr cur) eqn:Hov; bool_to_prop; [|].
    { destruct (IH (and_before C prev) (base_addr cur) cur) as (l & ch & -> & Hpass & Hsep); [done..|intros _ a; lia|].
      exists (prev :: l), ch. split; [done|]. split.
      - rewrite <-(orb_false_r ch). eapply passed_cons; try done; [auto|lia].
      - intros Hch Hbase. specialize (Hsep Hch eq_refl). destruct (pa_head _ _ _ _ _ _ Hpass) as (h & t & -> & Hh & _).
        constructor; [done|]. constructor. unfold apart. lia. }
    destruct (region_type prev =? TYPE_RESERVED) eqn:Ht; bool_to_prop.
    + rewrite (checked_add_ok m) by (unfold stop in *; lia). cbn [mbind outcome_bind].
      replace (base_addr cur + (stop prev - base_addr cur)) with (stop prev) by lia.
      set (cur' := set_length _ _).
      assert (Hst : stop cur' = Z.max (stop cur) (stop prev)) by (unfold cur', stop, saturating_sub; cbn; lia).
      destruct (IH (and_before C prev) (base_addr cur) cur') as (l & ch & -> & Hpass & Hsep); try done.
      * split_and!; [cbn; unfold stop in *; lia|unfold cur', saturating_sub; cbn; lia|lia|done].
      * cbn. lia.
      * intros _ a Ha. cbn in Ha. unfold and_before, covers.
        destruct (decide (a < base_addr prev)); [left; apply Hc; [done|lia]|right; split; [done|lia]].
      * exists (prev :: l), true. split; [done|]. split; [|done].
        rewrite <-(orb_true_r ch). eapply (passed_cons m C prev prev cur cur'); try done.
        -- intros a. unfold covers. rewrite Hst. cbn. lia.
        -- intros _ a. unfold covers, and_before. rewrite Hst. cbn. unfold covers. intros Ha.
           destruct (decide (a < stop prev)); [|right; lia]. left.
           destruct (decide (a < base_addr prev)); [left; apply Hc; [done|lia]|right; split; [done|lia]].
        -- cbn. lia.
    + assert (Hu : region_type prev = TYPE_USABLE) by (by destruct Ptype).
      destruct (IH (and_before C prev) (base_addr cur) cur) as (l & ch & -> & Hpass & Hsep); [done..|intros _ a; lia|].
      set (prev' := set_length _ _).
      assert (Hst : stop prev' = Z.max (base_addr prev) (base_addr cur)).
      { unfold prev', stop, saturating_sub. cbn. unfold stop. lia. }
      exists (prev' :: l), ch. split; [done|]. split.
      * rewrite <-(orb_false_r ch). eapply passed_cons; try done; [..|lia].
        -- rewrite Hst. unfold stop in *. lia.
        -- split_and!; [done|unfold prev', saturating_sub; cbn; lia|rewrite Hst; unfold stop in *; lia|done].
        -- auto.
      * intros Hch Hbase. specialize (Hsep Hch eq_refl). destruct (pa_head _ _ _ _ _ _ Hpass) as (h & t & -> & Hh & _).
        constructor; [done|]. constructor. unfold apart. lia.
Qed.

(** ** The loop *)

Lemma zsum_perm {A} (f : A -> Z) l l' : l ≡ₚ l' -> zsum f l = zsum f l'.
Proof. induction 1; rewrite ?zsum_cons in *; lia. Qed.

(** How far the bases can still move. *)
Definition slack (m : Z) (l : list MemoryRegion) : Z := zsum (fun r => m + 1 - base_addr r) l.

Lemma slack_sum m l : slack m l = (m + 1) * Z.of_nat (length l) - zsum base_addr l.
Proof. unfold slack. induction l as [|r l IH]; [unfold zsum; cbn; lia|]. rewrite !zsum_cons, IH. cbn [length]. rewrite Nat2Z.inj_succ. lia. Qed.

Lemma slack_filter m l : Forall (bounded m) l ->
  slack m (remove_empty l) + (Z.of_nat (length l) - Z.of_nat (length (remove_empty l))) <= slack m l.
Proof.
  unfold slack, remove_empty. induction 1 as [|r l (B1 & B2 & B3 & _) Hl IH]; [done|].
  unfold stop in B3. rewrite filter_cons. case_decide; rewrite ?zsum_cons in *; cbn [length]; lia.
Qed.

Lemma slack_nonneg m l : Forall (bounded m) l -> 0 <= slack m l.
Proof.
  intros H. apply zsum_nonneg. eapply Forall_impl; [exact H|]. intros r (B1 & B2 & B3 & _). unfold stop in B3. lia.
Qed.

Lemma of_type_remove_empty t l a : of_type t (remove_empty l) a <-> of_type t l a.
Proof.
  unfold of_type, remove_empty. setoid_rewrite list_elem_of_filter. split.
  - intros (r & [_ Hr] & H). by exists r.
  - intros (r & Hr & Ht & Hc). exists r. split_and!; try done. unfold covers, stop in Hc. lia.
Qed.

Lemma Sorted_bases l : Sorted base_le l <-> Sorted Z.le (base_addr <$> l).
Proof.
  induction l as [|r l IH]; [done|]. cbn. split; intros H; apply Sorted_inv in H as [H1 H2].
  - constructor; [by apply IH|]. destruct l; [constructor|]. apply HdRel_inv in H2. by constructor.
  - constructor; [by apply IH|]. destruct l; [constructor|]. apply HdRel_inv in H2. by constructor.
Qed.

Lemma Sorted_filter (l : list MemoryRegion) : Sorted base_le l -> Sorted base_le (remove_empty l).
Proof.
  intros H. assert (Transitive base_le) by (intros x y z; unfold base_le; lia).
  apply Sorted_StronglySorted in H; [|done]. apply StronglySorted_Sorted. unfold remove_empty.
  induction H as [|r l Hs IH Hf]; [constructor|]. rewrite filter_cons. case_decide; [|done].
  constructor; [done|]. apply Forall_forall. intros r' [_ Hr']%list_elem_of_filter. by eapply Forall_forall in Hf.
Qed.

Lemma apart_sorted m l : Forall (bounded m) l -> Sorted apart l -> Sorted base_le l.
Proof.
  intros Hb. induction 1 as [|r l Hs IH Hh]; [constructor|]. apply Forall_cons in Hb as [(_ & Hr & _) Hb].
  constructor; [auto|]. destruct Hh as [|r' l Ha]; constructor. unfold base_le, apart, stop in *. lia.
Qed.

(** A pass over the whole list. *)
Lemma resolve_all_spec m l :
  m < 2 ^ 64 -> Forall (bounded m) l -> Sorted base_le l ->
  exists l' change, resolve_all l = Ok (l', change) /\ Forall (bounded m) l' /\ length l' = length l /\
    (forall a, of_type TYPE_RESERVED l' a <-> of_type TYPE_RESERVED l a) /\
    (forall a, of_type TYPE_USABLE l' a -> of_type TYPE_USABLE l a) /\
    zsum base_addr l + (if change : bool then 1 else 0) <= zsum base_addr l' /\
    (change = false -> Sorted apart l').
Proof.
  intros Hm Hb Hs. destruct l as [|r l]; [exists [], false; by split_and!|].
  apply Forall_cons in Hb as [Hr Hl]. apply Sorted_bases in Hs.
  destruct (resolve_spec m l Hm (fun _ => False) (base_addr r) r Hr Hl ltac:(lia) Hs) as (l' & ch & He & [A1 A2 A3 A4 A5 A6] & Hsep).
  { intros _ a. lia. }
  exists l', ch. split_and!; try done; [|by auto]. intros a. specialize (A4 a). naive_solver.
Qed.

Section spec.
  Context (sort : list MemoryRegion -> list MemoryRegion).
  Hypothesis sort_perm : forall l, sort l ≡ₚ l.
  Hypothesis sort_sorted : forall l, Sorted base_le (sort l).

Record separated (m : Z) (l l' : list MemoryRegion) : Prop := {
  se_bounded : Forall (bounded m) l';
  se_filled : Forall (fun r => 0 < region_length r) l';
  se_apart : Sorted apart l';
  se_reserved a : of_type TYPE_RESERVED l' a <-> of_type TYPE_RESERVED l a;
  se_usable a : of_type TYPE_USABLE l' a -> of_type TYPE_USABLE l a;
}.

Lemma separate_spec m fuel l :
  m < 2 ^ 64 -> Forall (bounded m) l -> Sorted base_le l -> slack m l < Z.of_nat fuel ->
  exists l', separate sort fuel l = Ok l' /\ separated m l l'.
Proof.
  intros Hm. revert l. induction fuel as [|fuel IH]; intros l Hb Hs Hf.
  { pose proof (slack_nonneg m l Hb). lia. }
  cbn [separate]. destruct (resolve_all_spec m l Hm Hb Hs) as (l1 & ch & -> & B1 & L1 & R1 & U1 & S1 & A1).
  cbn [mbind outcome_bind]. destruct ch.
  - destruct (IH (sort l1)) as (l' & He & [D1 D2 D3 D4 D5]).
    + by rewrite sort_perm.
    + apply sort_sorted.
    + unfold slack. rewrite (zsum_perm _ _ _ (sort_perm l1)). fold (slack m l1). rewrite !slack_sum in *. rewrite L1. lia.
    + exists l'. split; [done|]. split; try done.
      * intros a. rewrite D4, <-R1. split; apply of_type_perm; by rewrite sort_perm.
      * intros a Ha%D5. apply U1. eapply of_type_perm; [|exact Ha]. by rewrite sort_perm.
  - specialize (A1 eq_refl). pose proof (slack_filter m l1 B1) as Hsl.
    destruct (length (remove_empty l1) =? length l1)%nat eqn:Hlen.
    + apply Nat.eqb_eq in Hlen. exists l1. split; [done|]. split; try done.
      unfold remove_empty in Hlen. clear -Hlen. induction l1 as [|r l IH]; [constructor|].
      rewrite filter_cons in Hlen. case_decide; cbn in Hlen; [constructor; auto|].
      pose proof (length_filter (fun r => 0 < region_length r) l). lia.
    + apply Nat.eqb_neq in Hlen. destruct (IH (remove_empty l1)) as (l' & He & [D1 D2 D3 D4 D5]).
      * apply Forall_forall. intros r [_ Hr]%list_elem_of_filter. by eapply Forall_forall in B1.
      * by apply Sorted_filter, (apart_sorted m).
      * pose proof (length_filter (fun r => 0 < region_length r) l1). unfold remove_empty in *. rewrite !slack_sum in *. lia.
      * exists l'. split; [done|]. split; try done.
        -- intros a. by rewrite D4, of_type_remove_empty.
        -- intros a Ha%D5. apply U1. by apply of_type_remove_empty.
Qed.

(** Merging keeps what each type covers. *)
Lemma merge_spec m rest : m < 2 ^ 64 -> forall prev,
  Forall (bounded m) (prev :: rest) -> Forall (fun r => 0 < region_length r) (prev :: rest) ->
  Sorted apart (prev :: rest) ->
  exists h l, merge prev rest = Ok (h :: l) /\ base_addr h = base_addr prev /\ region_type h = region_type prev /\
    Forall (bounded m) (h :: l) /\ Forall (fun r => 0 < region_length r) (h :: l) /\ Sorted next (h :: l) /\
    forall t a, of_type t (h :: l) a <-> of_type t (prev :: rest) a.
Proof.
  intros Hm. induction rest as [|cur rest IH]; intros prev Hb Hf Hs.
  { exists prev, []. split_and!; try done. by repeat constructor. }
  apply Forall_cons in Hb as [Hp Hb]. apply Forall_cons in Hf as [Hp0 Hf]. apply Sorted_inv in Hs as [Hs Hh].
  apply HdRel_inv in Hh. unfold apart in Hh. cbn [merge].
  assert (Hkeep : next prev cur ->
    exists h l, (l ← merge cur rest; Ok (prev :: l)) = Ok (h :: l) /\ base_addr h = base_addr prev /\
      region_type h = region_type prev /\
      Forall (bounded m) (h :: l) /\ Forall (fun r => 0 < region_length r) (h :: l) /\ Sorted next (h :: l) /\
      forall t a, of_type t (h :: l) a <-> of_type t (prev :: cur :: rest) a).
  { intros Hn. destruct (IH cur Hb Hf Hs) as (h & l & -> & E1 & E2 & E3 & E4 & E5 & E6).
    exists prev, (h :: l). split_and!; try done; [by constructor|by constructor| |].
    - constructor; [done|]. constructor. unfold next in *. by rewrite E1, E2.
    - intros t a. by rewrite (of_type_cons t prev), (of_type_cons t prev (cur :: rest)), E6. }
  destruct (region_type prev =? region_type cur) eqn:Ht; cbn [negb]; bool_to_prop.
  2:{ apply Hkeep. split; [done|]. by intros ?. }
  pose proof Hp as (P1 & P2 & P3 & P4). rewrite (checked_add_ok m (base_addr prev)) by (unfold stop in *; lia).
  cbn [mbind outcome_bind]. fold (stop prev).
  destruct (stop prev =? base_addr cur) eqn:He; cbn [negb]; bool_to_prop.
  2:{ apply Hkeep. split; [done|lia]. }
  apply Forall_cons in Hb as [(K1 & K2 & K3 & K4) Hb]. apply Forall_cons in Hf as [Hk0 Hf].
  rewrite (checked_add_ok m) by (unfold stop in *; lia). cbn [mbind outcome_bind].
  set (r := set_length _ prev).
  assert (Hr : stop r = stop cur) by (unfold r, stop in *; cbn; lia).
  destruct (IH r) as (h & l & -> & E1 & E2 & E3 & E4 & E5 & E6).
  - constructor; [|done]. split_and!; [done|cbn; lia|lia|done].
  - constructor; [cbn; lia|done].
  - apply Sorted_inv in Hs as [Hs Hh']. constructor; [done|].
    destruct Hh' as [|r' l' Hr']; constructor. unfold apart in *. by rewrite Hr.
  - exists h, l. split_and!; try done. intros t a. rewrite E6, !of_type_cons. unfold covers. rewrite Hr. cbn. rewrite Ht.
    assert (base_addr prev <= a < stop cur <-> base_addr prev <= a < stop prev \/ base_addr cur <= a < stop cur).
    { unfold stop in *. lia. }
    naive_solver.
Qed.

Lemma restrict_type_spec m l :
  Forall (fun r => 0 <= base_addr r /\ 0 <= region_length r /\ stop r <= m) l ->
  Forall (bounded m) (restrict_type <$> l) /\
  (Sorted base_le l -> Sorted base_le (restrict_type <$> l)) /\
  (forall a, of_type TYPE_USABLE (restrict_type <$> l) a <-> of_type TYPE_USABLE l a) /\
  (forall a, of_type TYPE_RESERVED (restrict_type <$> l) a <->
     exists r, r ∈ l /\ region_type r <> TYPE_USABLE /\ covers r a).
Proof.
  assert (Hr : forall r, base_addr (restrict_type r) = base_addr r /\ region_length (restrict_type r) = region_length r /\
    typed (restrict_type r) /\ (region_type (restrict_type r) = TYPE_USABLE <-> region_type r = TYPE_USABLE)).
  { intros r. unfold restrict_type, typed. destruct (_ =? _) eqn:E; bool_to_prop; cbn; split_and!; try done; auto. }
  intros Hl. split_and!.
  - apply Forall_fmap. eapply Forall_impl; [exact Hl|]. intros r (H1 & H2 & H3). unfold bounded, stop. cbn.
    destruct (Hr r) as (-> & -> & Ht & _). done.
  - intros Hs. apply Sorted_bases. apply Sorted_bases in Hs. rewrite <-list_fmap_compose.
    erewrite list_fmap_ext; [exact Hs|]. intros i r _. cbn. apply Hr.
  - intros a. unfold of_type, covers, stop. split.
    + intros (r & (r0 & -> & Hr0)%list_elem_of_fmap & Ht & Hc). exists r0. destruct (Hr r0) as (E1 & E2 & _ & E3).
      rewrite E1, E2 in Hc. naive_solver.
    + intros (r & Hr0 & Ht & Hc). exists (restrict_type r). destruct (Hr r) as (E1 & E2 & _ & E3).
      rewrite E1, E2. split_and!; [by apply list_elem_of_fmap_2|naive_solver..].
  - intros a. unfold of_type, covers, stop. split.
    + intros (r & (r0 & -> & Hr0)%list_elem_of_fmap & Ht & Hc). exists r0. destruct (Hr r0) as (E1 & E2 & _ & E3).
      rewrite E1, E2 in Hc. split; [done|]. split; [|done]. intros Hu%E3. by rewrite Hu in Ht.
    + intros (r & Hr0 & Ht & Hc). exists (restrict_type r). destruct (Hr r) as (E1 & E2 & Hty & E3).
      rewrite E1, E2. split; [by apply list_elem_of_fmap_2|]. split; [|done]. destruct Hty; naive_solver.
Qed.

(** Regions apart do not share an address. *)
Lemma apart_disjoint l r r' a :
  Sorted apart l -> Forall (fun r => 0 < region_length r) l -> r ∈ l -> r' ∈ l -> covers r a -> covers r' a -> r = r'.
Proof.
  intros Hs Hf Hr Hr' Hc Hc'.
  assert (Hss : StronglySorted apart l).
  { clear -Hs Hf. induction Hs as [|x l Hs IH Hh]; [constructor|]. apply Forall_cons in Hf as [Hx Hf].
    constructor; [auto|]. specialize (IH Hf). destruct Hh as [|y l Hxy]; [constructor|].
    apply StronglySorted_inv in IH as [_ IH]. apply Forall_cons in Hf as [Hy _].
    constructor; [done|]. eapply Forall_impl; [exact IH|]. unfold apart, stop in *. intros z Hz. lia. }
  clear Hs Hf. induction Hss as [|x l Hs IH Hh]; [by apply elem_of_nil in Hr|].
  apply elem_of_cons in Hr as [->|Hr]; apply elem_of_cons in Hr' as [->|Hr']; [done| | |by apply IH].
  - eapply Forall_forall in Hh; [|exact Hr']. unfold covers, apart in *. lia.
  - eapply Forall_forall in Hh; [|exact Hr]. unfold covers, apart in *. lia.
Qed.

Lemma exists_bound l : Forall valid l ->
  exists m, m < 2 ^ 64 /\ Forall (fun r => 0 <= base_addr r /\ 0 <= region_length r /\ stop r <= m) l.
Proof.
  intros H. exists (2 ^ 64 - 1). split; [lia|]. eapply Forall_impl; [exact H|]. intros r (? & ? & ?). lia.
Qed.

(** No pass makes the map longer. *)
Lemma resolve_length rest prev l change : resolve prev rest = Ok (l, change) -> length l = S (length rest).
Proof.
  revert prev l change. induction rest as [|cur rest IH]; intros prev l change; cbn; [by intros [= <- _]|].
  assert (Hgo : forall p q b, ('(l, c) ← resolve p rest; Ok (q :: l, b c)) = Ok (l, change) -> length l = S (S (length rest))).
  { intros p q b. destruct (resolve p rest) as [[l1 c1]| | |] eqn:E; cbn; intros [= <- _]. cbn. by rewrite (IH _ _ _ E). }
  unfold checked_add. destruct (fits _ _); cbn [mbind outcome_bind]; [|done].
  destruct (_ <=? _); [apply (Hgo _ _ id)|]. destruct (_ =? _); [|apply (Hgo _ _ id)].
  destruct (fits _ _); cbn [mbind outcome_bind]; [|done]. apply (Hgo _ _ (fun _ => true)).
Qed.

Lemma merge_length rest prev l : merge prev rest = Ok l -> (length l <= S (length rest))%nat.
Proof.
  revert prev l. induction rest as [|cur rest IH]; intros prev l; cbn; [by intros [= <-]|].
  assert (Hskip : (l ← merge cur rest; Ok (prev :: l)) = Ok l -> (length l <= S (S (length rest)))%nat).
  { destruct (merge cur rest) as [l1| | |] eqn:E; cbn; intros [= <-]. apply IH in E. cbn. lia. }
  destruct (negb _); [exact Hskip|]. unfold checked_add. destruct (fits 64 (base_addr prev + _)); cbn [mbind outcome_bind]; [|done].
  destruct (negb _); [exact Hskip|]. destruct (fits _ _); cbn [mbind outcome_bind]; [|done]. intros H'%IH. lia.
Qed.

Lemma separate_length fuel l l' : separate sort fuel l = Ok l' -> (length l' <= length l)%nat.
Proof.
  revert l. induction fuel as [|fuel IH]; intros l; cbn; [done|].
  destruct (resolve_all l) as [[l1 change]| | |] eqn:E; cbn; try done.
  assert (length l1 = length l) as El.
  { destruct l as [|p l]; cbn in E; [by injection E as <- _|]. by apply resolve_length in E. }
  destruct change; [intros H%IH; by rewrite sort_perm, El in H|].
  destruct (_ =? _)%nat; [intros [= <-]; lia|]. intros H%IH.
  pose proof (length_filter (fun r => 0 < region_length r) l1). unfold remove_empty in H. lia.
Qed.

Lemma normalize_memory_region_length fuel l l' :
  normalize_memory_region sort fuel l = Ok l' -> (length l' <= length l)%nat.
Proof.
  unfold normalize_memory_region. destruct (separate _ _ _) as [l1| | |] eqn:E; cbn; try done.
  apply separate_length in E. rewrite length_fmap, sort_perm in E.
  destruct l1 as [|p l1]; cbn; [intros [= <-]; cbn; lia|]. intros H%merge_length. cbn in E. lia.
Qed.

Lemma normalize_memory_region_ok l :
  Forall valid l ->
  exists n, forall fuel, (n <= fuel)%nat -> exists l', normalize_memory_region sort fuel l = Ok l' /\
    Forall (fun r => valid r /\ typed r /\ 0 < region_length r) l' /\ Sorted next l' /\
    (forall a, of_type TYPE_RESERVED l' a <-> exists r, r ∈ l /\ region_type r <> TYPE_USABLE /\ covers r a) /\
    (forall a, of_type TYPE_USABLE l' a -> of_type TYPE_USABLE l a /\
       ~ exists r, r ∈ l /\ region_type r <> TYPE_USABLE /\ covers r a).
Proof.
  intros Hv. destruct (exists_bound l Hv) as (m & Hm & Hb).
  assert (Hb' : Forall (fun r => 0 <= base_addr r /\ 0 <= region_length r /\ stop r <= m) (sort l)).
  { by rewrite sort_perm. }
  destruct (restrict_type_spec m _ Hb') as (B & S & U & R). specialize (S (sort_sorted l)).
  pose proof (slack_nonneg m _ B).
  exists (Datatypes.S (Z.to_nat (slack m (restrict_type <$> sort l)))). intros fuel Hfuel.
  destruct (separate_spec m fuel _ Hm B S) as (l1 & He & [D1 D2 D3 D4 D5]); [lia|].
  unfold normalize_memory_region. rewrite He. cbn [mbind outcome_bind].
  assert (Hperm : forall P : MemoryRegion -> Prop, (exists r, r ∈ sort l /\ P r) <-> (exists r, r ∈ l /\ P r)).
  { intros P. by setoid_rewrite sort_perm. }
  assert (Hm1 : exists l', merge_all l1 = Ok l' /\ Forall (bounded m) l' /\
    Forall (fun r => 0 < region_length r) l' /\ Sorted next l' /\ forall t a, of_type t l' a <-> of_type t l1 a).
  { destruct l1 as [|r l1]; [exists []; by split_and!|].
    destruct (merge_spec m l1 Hm r D1 D2 D3) as (h & l' & E0 & _ & _ & E3 & E4 & E5 & E6). by exists (h :: l'). }
  destruct Hm1 as (l' & E0 & E1 & E2 & E3 & E4). exists l'. split_and!; [done| |done| |].
  - clear -E1 E2 Hm. induction E1 as [|r l (B1 & B2 & B3 & B4) _ IH]; [constructor|].
    apply Forall_cons in E2 as [? E2]. constructor; [|auto]. split_and!; [|done..]. split_and!; [done..|lia].
  - intros a. rewrite E4, D4, R. apply Hperm.
  - intros a Ha. apply E4 in Ha. split.
    + apply D5, U in Ha. destruct Ha as (r & Hr & Hx). exists r. by rewrite <-sort_perm.
    + intros Hn. apply Hperm, R, D4 in Hn. destruct Ha as (r & Hr & Ht & Hc), Hn as (r' & Hr' & Ht' & Hc').
      assert (r = r') as -> by (by eapply apart_disjoint). by rewrite Ht in Ht'.
Qed.

(** C34: the normalisation of the memory map ends, whatever the BIOS gives and
    however the sort treats regions with the same base. In its result every
    region is usable or reserved and not empty, each one ends before the next
    begins, with a gap between two of the same type; what it calls reserved is
    exactly what some region of the map that is not usable covers; and what it
    calls usable was covered by a usable region and by no other. *)
Theorem normalize_memory_region_correct l :
  Forall valid l ->
  exists n, forall fuel, (n <= fuel)%nat -> exists l', normalize_memory_region sort fuel l = Ok l' /\
    Forall (fun r => valid r /\ typed r /\ 0 < region_length r) l' /\ Sorted next l' /\
    (forall a, of_type TYPE_RESERVED l' a <-> exists r, r ∈ l /\ region_type r <> TYPE_USABLE /\ covers r a) /\
    (forall a, of_type TYPE_USABLE l' a -> of_type TYPE_USABLE l a /\
       ~ exists r, r ∈ l /\ region_type r <> TYPE_USABLE /\ covers r a).
Proof. apply normalize_memory_region_ok. Qed.
End spec.

(** ** Memory that is lost, and memory that should not be used *)

(** A region inside a usable one cuts off all that follows it, not only what
    the two share. *)
Theorem nested_region_loses_tail :
  normalize_memory_region id 3 [mkMemoryRegion 0 100 TYPE_USABLE; mkMemoryRegion 10 10 TYPE_USABLE] =
    Ok [mkMemoryRegion 0 20 TYPE_USABLE].
Proof. done. Qed.

Lemma scan_finds {E} f pre r post (s : Machine) :
  Forall (fun x => valid x /\ stop x <= f) pre -> valid r ->
  f `mod` 0x1000 = 0 -> base_addr r <= f -> f + 0x1000 <= stop r ->
  wp (scan_regions (E:=E) f (pre ++ r :: post)) s (fun o _ => o = Some (f, f + 0x1000)).
Proof.
  intros Hpre (V1 & V2 & V3) Hfm Hb Hs. induction Hpre as [|x l ((W1 & W2 & W3) & Hx) _ IH]; cbn [scan_regions app].
  - unfold stop in *. wp_step. wp_step; [lia|]. rewrite (proj2 (Z.leb_gt _ _)) by lia.
    rewrite Z.max_r by lia. rewrite land_low, Hfm. cbn [Z.eqb]. wp_step. wp_step; [lia|].
    rewrite (proj2 (Z.ltb_ge _ _)) by lia. by wp_step.
  - unfold stop in *. wp_step. wp_step; [lia|]. by rewrite (proj2 (Z.leb_le _ _)) by lia.
Qed.

(** The frame allocator of the kernel walks over the regions of the map
    without a look at their type: when its next frame is in a reserved region
    it hands that frame out. *)
Theorem reserved_frame_handed_out {E} (s : Machine) f pre r post :
  linked_free_address s = None -> first_alloc_address s = Some f -> MEMORY_REGION s = pre ++ r :: post ->
  Forall (fun x => valid x /\ stop x <= f) pre -> valid r ->
  0 < f -> f `mod` 0x1000 = 0 -> base_addr r <= f -> f + 0x1000 <= stop r -> region_type r = TYPE_RESERVED ->
  wp (alloc_frame (E:=E)) s (fun o _ => o = Some f).
Proof.
  intros Hl Hf Hm Hpre (V1 & V2 & V3) Hf0 Hfm Hb Hs _. unfold alloc_frame. wp_step. wp_step. rewrite Hl.
  wp_step. wp_step. rewrite Hf. wp_step. wp_step. rewrite Hm. wp_step.
  assert (Hnz : forall x, 0 < x -> nonzero x = Some x).
  { intros x Hx. unfold nonzero. by rewrite (proj2 (Z.eqb_neq x 0)) by lia. }
  eapply wp_mono; [exact (scan_finds f pre r post s Hpre (conj V1 (conj V2 V3)) Hfm Hb Hs)|].
  intros o s' ->. wp_step. wp_step. wp_step. apply Hnz. lia.
Qed.

(** ** A map of a small machine *)
Module BootRun.

Fixpoint insert_region (r : MemoryRegion) (l : list MemoryRegion) : list MemoryRegion :=
  match l with
  | [] => [r]
  | x :: l' => if base_addr r <=? base_addr x then r :: l else x :: insert_region r l'
  end.

Definition sort_regions (l : list MemoryRegion) : list MemoryRegion := foldr insert_region [] l.

Lemma insert_region_perm r l : insert_region r l ≡ₚ r :: l.
Proof.
  induction l as [|x l IH]; [done|]. cbn. destruct (_ <=? _); [done|]. rewrite IH. apply Permutation_swap.
Qed.

Lemma sort_regions_perm l : sort_regions l ≡ₚ l.
Proof. induction l as [|r l IH]; [done|]. cbn. by rewrite insert_region_perm, IH. Qed.

Lemma insert_region_sorted r l : Sorted base_le l -> Sorted base_le (insert_region r l).
Proof.
  induction 1 as [|x l Hs IH Hh]; cbn; [by repeat constructor|].
  destruct (_ <=? _) eqn:Hle; bool_to_prop; [by repeat constructor|].
  constructor; [done|]. destruct Hh as [|y l Hy]; cbn; [constructor; unfold base_le; lia|].
  destruct (_ <=? _); constructor; [unfold base_le; lia|done].
Qed.

Lemma sort_regions_sorted l : Sorted base_le (sort_regions l).
Proof. induction l as [|r l IH]; [constructor|]. by apply insert_region_sorted. Qed.

(** Usable memory below and above a hole, a region of a type of its own, two
    that overlap, out of order. *)
Definition bios : list MemoryRegion :=
  [mkMemoryRegion 0x100000 0x300000 1; mkMemoryRegion 0 0x9f000 1; mkMemoryRegion 0x9e000 0x2000 2;
   mkMemoryRegion 0x3f0000 0x20000 3; mkMemoryRegion 0x408000 0x8000 2].

Lemma bios_valid : Forall valid bios.
Proof. repeat constructor; done. Qed.

Lemma bios_normalized :
  normalize_memory_region sort_regions 4 bios =
    Ok [mkMemoryRegion 0 0x9e000 1; mkMemoryRegion 0x9e000 0x2000 2; mkMemoryRegion 0x100000 0x2f0000 1;
        mkMemoryRegion 0x3f0000 0x20000 2].
Proof. by vm_compute. Qed.

Lemma normalize_memory_region_correct_witness :
  exists n, forall fuel, (n <= fuel)%nat -> exists l', normalize_memory_region sort_regions fuel bios = Ok l' /\
    Forall (fun r => valid r /\ typed r /\ 0 < region_length r) l' /\ Sorted next l' /\
    (forall a, of_type TYPE_RESERVED l' a <-> exists r, r ∈ bios /\ region_type r <> TYPE_USABLE /\ covers r a) /\
    (forall a, of_type TYPE_USABLE l' a -> of_type TYPE_USABLE bios a /\
       ~ exists r, r ∈ bios /\ region_type r <> TYPE_USABLE /\ covers r a).
Proof.
  apply (normalize_memory_region_correct sort_regions sort_regions_perm sort_regions_sorted bios bios_valid).
Defined.

Definition exhausted : Machine :=
  mkMachine (fun _ => 0) 0 None (Some 0) None
    [mkMemoryRegion 0x100000 0x2f0000 1; mkMemoryRegion 0x3f0000 0x20000 2] (Some 0x3f0000) None.

Lemma reserved_frame_handed_out_witness :
  wp (alloc_frame (E:=Empty_set)) exhausted (fun o _ => o = Some 0x3f0000).
Proof.
  apply (reserved_frame_handed_out exhausted 0x3f0000 [mkMemoryRegion 0x100000 0x2f0000 1]
    (mkMemoryRegion 0x3f0000 0x20000 2) []); try done; try (repeat constructor; done).
Defined.

End BootRun.
