(* ===== verification/Loader.v ===== *)
(** * Reading the kernel from the disk (bootloader/src/loader.rs)

    [load_kernel] and [ata_read_disk] of the loader, on the drives of
    [Ata.v] and the physical memory of [Physics.v]. Interrupts are off and
    nothing else runs; the drive goes on between two readings of its status.
    [buf_ptr] is where the stack of the loader has the buffer of
    [ata_read_disk], and [buf_len] its length. The source has [BUF_LEN], which
    is too short: a store behind the buffer is not defined, here a panic, and
    [load_kernel_overruns] shows that no kernel is ever read without one. What
    the loader does is shown for a buffer of a sector. *)
From S2P Require Import Prelude Device Physics PhysicsSpec Ata AtaSpec.
Import Drive.

Record Loading : Type := mkLoading {
  ld_drive : Drive;
  ld_mem : Z -> Z;
}.

Local Notation IO := (M Loading Empty_set).

Definition ld_access {A} (f : Drive -> option (A * Drive)) : IO A := fun s =>
  match f (ld_drive s) with
  | Some (a, d) => (Ok a, mkLoading d (ld_mem s))
  | None => (Panic, s)
  end.
Definition ld_in8 (port : Z) : IO Z := ld_access (port_in8 port).
Definition ld_in16 (port : Z) : IO Z := ld_access (port_in16 port).
Definition ld_out8 (port v : Z) : IO unit := ld_access (fun d => (fun d' => (tt, d')) <$> port_out8 port v d).

Definition ld_store (a : Z) (bs : list Z) : IO unit := modify (fun s => mkLoading (ld_drive s) (store (ld_mem s) a bs)).

(** The loop that waits for the data. *)
Fixpoint wait_data (fuel : nat) : IO unit :=
  match fuel with
  | O => diverge
  | S fuel =>
      modify (fun s => mkLoading (tick (ld_drive s)) (ld_mem s));;
      status ← ld_in8 ATA_STATUS;
      if negb (Z.land status 1 =? 0) then panic
      else if (Z.land status 0x80 =? 0) && negb (Z.land status 0x08 =? 0) then mret tt
      else wait_data fuel
  end.

(** [rep insw]: [n] words to [di] and on, in an array that ends at [limit]. *)
Fixpoint insw (limit : Z) (n : nat) (di : Z) : IO unit :=
  match n with
  | O => mret tt
  | S n =>
      w ← ld_in16 ATA_DATA;
      (if di + 2 <=? limit then ld_store di (to_le 2 w) else panic);;
      insw limit n (di + 2)
  end.

(** [let mut buf = [0u8; 256]] *)
Definition BUF_LEN : nat := 256.

Definition ata_read_disk (fuel buf_len : nat) (buf_ptr disk block ptr : Z) : IO unit :=
  rust_assert (block <? 0x10000000);;
  rust_assert (Z.land ptr 1 =? 0);;
  ld_out8 ATA_SECTOR_COUNT 1;;
  ld_out8 ATA_SECTOR (wrap 8 (Z.land block 0xff));;
  ld_out8 ATA_CYL_LO (wrap 8 (Z.land (Z.shiftr block 8) 0xff));;
  ld_out8 ATA_CYL_HI (wrap 8 (Z.land (Z.shiftr block 16) 0xff));;
  ld_out8 ATA_HEAD (head_byte disk block);;
  ld_in8 0x3F6;;
  ld_in8 0x3F6;;
  ld_in8 0x3F6;;
  ld_in8 0x3F6;;
  ld_out8 ATA_COMMAND 0x20;;
  wait_data fuel;;
  ld_store buf_ptr (replicate buf_len 0);;
  rust_assert (buf_ptr <? 0x10000);;
  insw (buf_ptr + Z.of_nat buf_len) 256 buf_ptr;;
  data ← gets (fun s => load (ld_mem s) buf_ptr 512);
  ld_store ptr data.

Definition read_u32 (a : Z) : IO Z := gets (fun s => from_le (load (ld_mem s) a 4)).

Definition load_kernel (fuel buf_len : nat) (buf_ptr disk : Z) : IO unit :=
  loader_size ← read_u32 (0x7C00 + 446 + 12);
  start_block ← checked 32 (loader_size + 1);
  block_count ← read_u32 (0x7C00 + 446 + 12 + 16);
  for_range 0 (Z.to_nat block_count) (fun i _ =>
    block ← checked 32 (start_block + Z.of_nat i);
    offset ← checked 32 (512 * Z.of_nat i);
    ata_read_disk fuel buf_len buf_ptr disk block (0x200000 + offset)) tt.

(** ** What is read *)

Lemma wait_data_run F t k l s :
  phase (ld_drive s) = Working t Fine (ReadSector k l) -> mark (ld_drive s) = false ->
  in_range (ld_drive s) k l = true -> (t < F)%nat ->
  wait_data F s = (Ok tt, mkLoading (set_phase (DataIn (media (ld_drive s) k l)) false (ld_drive s)) (ld_mem s)).
Proof.
  revert t s. induction F as [|F IH]; intros t [d m] Hp Hm Hr Ht; [lia|]. cbn in *.
  cbn [wait_data]. unfold ld_in8, ld_access, modify. unfold mbind, M_bind. cbn. unfold tick. rewrite Hp.
  destruct t as [|t].
  - cbn. rewrite Hr. unfold status. cbn. rewrite Hm. done.
  - unfold status. cbn. rewrite Hm. cbn. exact (IH t (mkLoading (set_phase (Working t Fine (ReadSector k l)) false d) m) eq_refl Hm Hr ltac:(lia)).
Qed.

Lemma insw_run limit n ws di s :
  length ws = n -> (0 < n)%nat -> phase (ld_drive s) = DataIn ws -> di + 2 * Z.of_nat n <= limit ->
  exists m, insw limit n di s = (Ok tt, mkLoading (set_phase (Resting false) (intrq (ld_drive s)) (ld_drive s)) m) /\
    meq m (store (ld_mem s) di (bytes_of_words ws)).
Proof.
  revert ws di s. induction n as [|n IH]; intros ws di [d m] Hl Hn Hp Hlim; [lia|]. cbn in Hp.
  destruct ws as [|w ws]; [done|]. cbn in Hl. cbn [insw]. rewrite (proj2 (Z.leb_le (di + 2) _)) by lia.
  destruct ws as [|w' ws].
  - assert (n = 0%nat) as -> by (cbn in Hl; lia). erewrite bind_ok.
    2:{ unfold ld_in16, ld_access, port_in16. cbn. rewrite Hp. reflexivity. }
    erewrite bind_ok by reflexivity. cbn [insw]. eexists. split; [reflexivity|]. unfold bytes_of_words. cbn. done.
  - erewrite bind_ok.
    2:{ unfold ld_in16, ld_access, port_in16. cbn. rewrite Hp. reflexivity. }
    erewrite bind_ok by reflexivity.
    destruct (IH (w' :: ws) (di + 2) (mkLoading (set_phase (DataIn (w' :: ws)) (intrq d) d) (store m di (to_le 2 w))))
      as (m' & He & Hm'); [cbn in *; lia..|done|lia|].
    exists m'. split; [exact He|]. intros x. rewrite Hm'. cbn [ld_mem].
    change (bytes_of_words (w :: w' :: ws)) with (to_le 2 w ++ bytes_of_words (w' :: ws)).
    pose proof (store_app m di (to_le 2 w) (bytes_of_words (w' :: ws)) x) as H. by rewrite length_to_le in H.
Qed.

Lemma bind_panics {S E A B} (m : M S E A) (f : A -> M S E B) s : fst (m s) = Panic -> fst ((m ≫= f) s) = Panic.
Proof. unfold mbind, M_bind. by destruct (m s) as [[] ?]. Qed.

(** A transfer of more than there is room for. *)
Lemma insw_overruns limit n ws di s :
  length ws = n -> phase (ld_drive s) = DataIn ws -> di + 2 * Z.of_nat n > limit -> di <= limit ->
  fst (insw limit n di s) = Panic.
Proof.
  revert ws di s. induction n as [|n IH]; intros ws di [d m] Hl Hp Hlim Hdi; [lia|]. cbn in Hp.
  destruct ws as [|w ws]; [done|]. cbn in Hl. cbn [insw].
  assert (exists d', ld_in16 ATA_DATA (mkLoading d m) = (Ok w, mkLoading d' m) /\ (ws <> [] -> phase d' = DataIn ws)) as (d' & Hr & Hd').
  { unfold ld_in16, ld_access, port_in16. cbn. rewrite Hp. destruct ws; eexists; split; done. }
  erewrite bind_ok by exact Hr. destruct (Z.leb_spec (di + 2) limit) as [Hle|]; [|done].
  erewrite bind_ok by reflexivity. destruct ws as [|w' ws]; [cbn in *; lia|].
  apply (IH (w' :: ws)); [cbn in *; lia|by apply Hd'|lia|lia].
Qed.

(** A drive that is ready for the next command. *)
Record ready (F : nat) (d : Drive) : Prop := {
  re_rest : is_resting d = true;
  re_ok : drive_ok d;
  re_quick : quick F d;
}.

(** [ata_read_disk] up to the transfer. *)
Lemma ata_read_disk_ready F n b k block ptr s :
  ready F (ld_drive s) -> 0 <= block < 2 ^ 28 -> in_range (ld_drive s) (k `mod` 2) block = true ->
  ptr `mod` 2 = 0 -> b < 0x10000 ->
  exists d, phase d = DataIn (media (ld_drive s) (k `mod` 2) block) /\ ready F (set_phase (Resting false) (intrq d) d) /\
    media d = media (ld_drive s) /\ capacity d = capacity (ld_drive s) /\
    ata_read_disk F n b k block ptr s =
      (insw (b + Z.of_nat n) 256 b;; data ← gets (fun s => load (ld_mem s) b 512); ld_store ptr data)
        (mkLoading d (store (ld_mem s) b (replicate n 0))).
Proof.
  intros [Hrest Hok Hq] Hb Hin Hptr Hbuf. unfold ata_read_disk.
  rewrite (proj2 (Z.ltb_lt block _)), (proj2 (Z.ltb_lt b _)) by lia. erewrite bind_ok by reflexivity.
  assert (Z.land ptr 1 = 0) as -> by (change 1 with (Z.ones 1); rewrite Z.land_ones by lia; done).
  erewrite bind_ok by reflexivity. rewrite !wrap_low8, !Z.shiftr_div_pow2 by lia.
  destruct s as [d m]. cbn [ld_drive ld_mem] in *.
  assert (Hpre : forall A (f : IO A), (
    ld_out8 ATA_SECTOR_COUNT 1;; ld_out8 ATA_SECTOR (block `mod` 256);;
    ld_out8 ATA_CYL_LO ((block / 2 ^ 8) `mod` 256);; ld_out8 ATA_CYL_HI ((block / 2 ^ 16) `mod` 256);;
    ld_out8 ATA_HEAD (head_byte k block);; ld_in8 0x3F6;; ld_in8 0x3F6;; ld_in8 0x3F6;; ld_in8 0x3F6;; f)
    (mkLoading d m) = f (mkLoading (programmed k block d) m)).
  { intros A f. destruct d as [r1 r2 r3 r4 r5 r6 ph q md cp id pl sv mk]. cbn in Hrest. by destruct ph. }
  rewrite Hpre. clear Hpre. destruct (Hq (served d)) as (t & Hpl & Ht).
  destruct (head_byte_spec k block) as (H6 & _).
  assert (Hcmd : ld_out8 ATA_COMMAND 0x20 (mkLoading (programmed k block d) m) =
    (Ok tt, mkLoading (set_phase (Working t Fine (ReadSector (k `mod` 2) block)) false
                         (set_served (S (served d)) (programmed k block d))) m)).
  { unfold ld_out8, ld_access, port_out8. cbn [ld_drive ld_mem].
    assert (Hr : is_resting (programmed k block d) = true) by exact Hrest. rewrite Hr. cbn [negb ATA_COMMAND Z.eqb Pos.eqb].
    unfold command. change (device (programmed k block d)) with (head_byte k block). rewrite H6. cbn [Z.eqb negb andb Pos.eqb].
    change (sector_count (programmed k block d)) with 1. cbn [Z.eqb negb andb Pos.eqb].
    rewrite programmed_selected, programmed_address, (Z.mod_small block) by lia. cbn [fmap option_fmap option_map].
    by rewrite (launch_fields _ (programmed k block d) t Fine Hpl). }
  erewrite bind_ok by exact Hcmd. clear Hcmd.
  erewrite bind_ok by (apply (wait_data_run F t (k `mod` 2) block); [done|apply Hok|exact Hin|exact Ht]).
  erewrite bind_ok by reflexivity. erewrite bind_ok by reflexivity. cbn [ld_drive ld_mem].
  set (d2 := set_phase (DataIn _) _ _). exists d2. split; [reflexivity|]. split; [|by split_and!].
  split; try done. destruct Hok as [D1 D2 D3 D4]. by split.
Qed.

(** What [ata_read_disk] leaves in memory: the sector, at [ptr] and in the
    buffer, when that has room for it. *)
Lemma ata_read_disk_run F n b k block ptr s :
  let sector := bytes_of_words (media (ld_drive s) (k `mod` 2) block) in
  ready F (ld_drive s) -> 0 <= block < 2 ^ 28 -> in_range (ld_drive s) (k `mod` 2) block = true ->
  ptr `mod` 2 = 0 -> b < 0x10000 -> n = 512%nat ->
  exists s', ata_read_disk F n b k block ptr s = (Ok tt, s') /\ ready F (ld_drive s') /\
    media (ld_drive s') = media (ld_drive s) /\ capacity (ld_drive s') = capacity (ld_drive s) /\
    meq (ld_mem s') (store (store (ld_mem s) b sector) ptr sector).
Proof.
  intros sector R Hb Hin Hptr Hbuf Hn. pose proof (re_ok _ _ R) as Hok.
  destruct (ata_read_disk_ready F n b k block ptr s R Hb Hin Hptr Hbuf) as (d & Hp & R' & Hmed & Hcap & ->).
  destruct (insw_run (b + Z.of_nat n) 256 _ b (mkLoading d (store (ld_mem s) b (replicate n 0)))
    (dr_media _ Hok _ _) ltac:(lia) Hp ltac:(lia)) as (m2 & Hi & Hm2).
  erewrite bind_ok by exact Hi. erewrite bind_ok by reflexivity. cbn [ld_drive ld_mem] in *. fold sector in Hm2.
  assert (Hlen : length sector = 512%nat) by (unfold sector; rewrite length_bytes_of_words, (dr_media _ Hok); done).
  assert (Hld : load m2 b 512 = sector).
  { etrans; [apply load_ext; intros x _; apply Hm2|]. etrans; [|apply (load_store (store (ld_mem s) b (replicate n 0)) b sector)].
    by rewrite Hlen. }
  eexists. split; [reflexivity|]. cbn [ld_drive ld_mem]. rewrite Hld. split_and!; try done. intros x.
  destruct (decide (ptr <= x < ptr + 512)) as [|Hx]; [by rewrite !store_in by lia|].
  rewrite (store_out m2), (store_out (store (ld_mem s) b sector)), Hm2 by lia.
  destruct (decide (b <= x < b + 512)) as [|Hx']; [by rewrite !store_in by lia|].
  by rewrite !(store_out _ b) by (rewrite ?length_replicate; lia).
Qed.

(** The kernel in memory: its blocks follow the loader on the disk. *)
Definition u32_at (m : Z -> Z) (a : Z) : Z := from_le (load m a 4).
Definition loader_blocks (m : Z -> Z) : Z := u32_at m (0x7C00 + 446 + 12).
Definition kernel_blocks (m : Z -> Z) : Z := u32_at m (0x7C00 + 446 + 12 + 16).

Lemma u32_at_bounds m a : (forall x, is_byte (m x)) -> 0 <= u32_at m a < 2 ^ 32.
Proof.
  intros Hb. unfold u32_at. pose proof (from_le_bound (load m a 4)) as H. rewrite length_load in H.
  apply H. unfold load. apply Forall_fmap, Forall_forall. intros x _. apply Hb.
Qed.

Definition kernel_loaded (k n : Z) (s s' : Loading) : Prop :=
  forall i, 0 <= i < n ->
    load (ld_mem s') (0x200000 + 512 * i) 512 =
      bytes_of_words (media (ld_drive s) (k `mod` 2) (loader_blocks (ld_mem s) + 1 + i)).

Lemma load_kernel_run F b k s :
  let first := loader_blocks (ld_mem s) + 1 in
  let n := kernel_blocks (ld_mem s) in
  ready F (ld_drive s) -> (forall x, is_byte (ld_mem s x)) -> 0 <= b < 0x10000 ->
  first + n <= capacity (ld_drive s) (k `mod` 2) -> first + n <= 2 ^ 28 -> n <= 2 ^ 23 ->
  wp (load_kernel F 512 b k) s (fun _ s' =>
    kernel_loaded k n s s' /\ media (ld_drive s') = media (ld_drive s) /\ ready F (ld_drive s') /\
    (forall x, ~ (b <= x < b + 512) -> ~ (0x200000 <= x < 0x200000 + 512 * n) -> ld_mem s' x = ld_mem s x)).
Proof.
  intros first n Hrd Hbytes Hb Hcap H28 H23.
  pose proof (u32_at_bounds _ (0x7C00 + 446 + 12) Hbytes) as HL. fold (loader_blocks (ld_mem s)) in HL.
  pose proof (u32_at_bounds _ (0x7C00 + 446 + 12 + 16) Hbytes) as HN. fold (kernel_blocks (ld_mem s)) in HN. fold n in HN.
  unfold load_kernel. wp_step. unfold read_u32. wp_step. fold (u32_at (ld_mem s) (0x7C00 + 446 + 12)).
  fold (loader_blocks (ld_mem s)). wp_step. wp_step; [lia|]. fold first. wp_step. wp_step.
  fold (u32_at (ld_mem s) (0x7C00 + 446 + 12 + 16)). fold (kernel_blocks (ld_mem s)). fold n.
  eapply wp_mono; [apply (wp_for_range (fun i _ s' => kernel_loaded k (Z.of_nat i) s s' /\
    media (ld_drive s') = media (ld_drive s) /\ capacity (ld_drive s') = capacity (ld_drive s) /\ ready F (ld_drive s') /\
    (forall x, ~ (b <= x < b + 512) -> ~ (0x200000 <= x < 0x200000 + 512 * Z.of_nat i) -> ld_mem s' x = ld_mem s x)))|].
  - split_and!; try done. intros i Hi. lia.
  - intros i [] s' Hi (K & Hm & Hc & R & Hout). wp_step. wp_step; [lia|]. wp_step. wp_step; [lia|].
    destruct (ata_read_disk_run F 512 b k (first + Z.of_nat i) (0x200000 + 512 * Z.of_nat i) s' R) as (s2 & Hrun & R2 & Hm2 & Hc2 & Hmem).
    + lia.
    + unfold in_range. rewrite Hc, (proj2 (Z.leb_le _ _)), (proj2 (Z.ltb_lt _ _)) by lia. done.
    + lia.
    + lia.
    + done.
    + set (sector := bytes_of_words _) in Hmem.
      assert (Hlen : length sector = 512%nat).
      { unfold sector. by rewrite length_bytes_of_words, (dr_media _ (re_ok _ _ R)). }
      eapply wp_intro; [exact Hrun|]. split_and!; try congruence.
      * intros j Hj. destruct (decide (j = Z.of_nat i)) as [->|].
        -- pose proof (load_store (store (ld_mem s') b sector) (0x200000 + 512 * Z.of_nat i) sector) as Hld.
           rewrite Hlen in Hld. etrans; [apply load_ext; intros x _; exact (Hmem x)|]. etrans; [exact Hld|].
           unfold sector. by rewrite Hm.
        -- rewrite <-(K j) by lia. apply load_ext. intros x Hx. rewrite Hmem, !store_out; [done|..]; rewrite ?Hlen; lia.
      * intros x Hx1 Hx2. rewrite Hmem, !store_out; [apply Hout; lia|..]; rewrite ?Hlen; lia.
  - intros [] s' (K & Hm & Hc & R & Hout). rewrite Nat.add_0_l, Z2Nat.id in * by lia. done.
Qed.

(** With a buffer of 512 bytes the loader puts the blocks of the kernel, which
    follow its own on the disk, into memory from 2M on, whatever time the drive
    takes, and changes nothing else but its buffer. *)
Theorem load_kernel_loads F b k s :
  ready F (ld_drive s) -> (forall x, is_byte (ld_mem s x)) -> 0 <= b < 0x10000 ->
  loader_blocks (ld_mem s) + 1 + kernel_blocks (ld_mem s) <= capacity (ld_drive s) (k `mod` 2) ->
  loader_blocks (ld_mem s) + 1 + kernel_blocks (ld_mem s) <= 2 ^ 28 -> kernel_blocks (ld_mem s) <= 2 ^ 23 ->
  wp (load_kernel F 512 b k) s (fun _ s' =>
    (forall i, 0 <= i < kernel_blocks (ld_mem s) ->
       load (ld_mem s') (0x200000 + 512 * i) 512 =
         bytes_of_words (media (ld_drive s) (k `mod` 2) (loader_blocks (ld_mem s) + 1 + i))) /\
    media (ld_drive s') = media (ld_drive s) /\
    forall x, ~ (b <= x < b + 512) -> ~ (0x200000 <= x < 0x200000 + 512 * kernel_blocks (ld_mem s)) ->
      ld_mem s' x = ld_mem s x).
Proof.
  intros H1 H2 H3 H4 H5 H6. eapply wp_mono; [by apply load_kernel_run|].
  intros u s' (K & Hm & _ & Hout). done.
Qed.

(** The buffer of [ata_read_disk] is an array of 256 bytes and the transfer is
    of 256 words: every sector is read over the end of the buffer, and so no
    kernel of a block or more is loaded by a program whose behaviour is
    defined. *)
Theorem load_kernel_overruns F b k s :
  ready F (ld_drive s) -> (forall x, is_byte (ld_mem s x)) -> b < 0x10000 ->
  0 < kernel_blocks (ld_mem s) -> loader_blocks (ld_mem s) + 1 < capacity (ld_drive s) (k `mod` 2) ->
  loader_blocks (ld_mem s) + 1 < 2 ^ 28 ->
  fst (load_kernel F BUF_LEN b k s) = Panic.
Proof.
  intros R Hby Hb Hk Hcap Hl. pose proof (u32_at_bounds _ (0x7C00 + 446 + 12) Hby) as HL.
  fold (loader_blocks (ld_mem s)) in HL. unfold load_kernel.
  erewrite bind_ok by reflexivity. fold (u32_at (ld_mem s) (0x7C00 + 446 + 12)). fold (loader_blocks (ld_mem s)).
  erewrite bind_ok by (unfold checked, fits; rewrite (proj2 (Z.leb_le 0 _)), (proj2 (Z.ltb_lt _ (2 ^ 32))) by lia; reflexivity).
  erewrite bind_ok by reflexivity. fold (u32_at (ld_mem s) (0x7C00 + 446 + 12 + 16)). fold (kernel_blocks (ld_mem s)).
  destruct (Z.to_nat (kernel_blocks (ld_mem s))) as [|n] eqn:Hn; [lia|]. cbn [for_range].
  apply bind_panics. cbn [Z.of_nat]. rewrite Z.add_0_r, Z.mul_0_r.
  erewrite bind_ok by (unfold checked, fits; rewrite (proj2 (Z.leb_le 0 _)), (proj2 (Z.ltb_lt _ (2 ^ 32))) by lia; reflexivity).
  erewrite bind_ok by reflexivity. rewrite Z.add_0_r.
  destruct (ata_read_disk_ready F BUF_LEN b k (loader_blocks (ld_mem s) + 1) 0x200000 s R) as (d & Hp & _ & _ & _ & ->); try done; [lia| |].
  { unfold in_range. by rewrite (proj2 (Z.leb_le 0 _)), (proj2 (Z.ltb_lt _ (capacity _ _))) by lia. }
  apply bind_panics. apply (insw_overruns _ 256 (media (ld_drive s) (k `mod` 2) (loader_blocks (ld_mem s) + 1)));
    [apply (dr_media _ (re_ok _ _ R))|exact Hp|unfold BUF_LEN; lia..].
Qed.

(** ** A disk with a loader of two blocks and a kernel of three *)
Module LoadRun.

Definition system_disk : Drive :=
  mkDrive 0 0 0 0 0 false (Resting false) false (fun _ l => replicate 256 l) (fun _ => 16)
    (fun _ => replicate 256 0) (fun n => (n mod 3, Fine)%nat) 0 false.

Definition boot_memory : Z -> Z :=
  store (store (fun _ => 0) (0x7C00 + 446 + 12) (to_le 4 2)) (0x7C00 + 446 + 12 + 16) (to_le 4 3).

Definition loading : Loading := mkLoading system_disk boot_memory.

Lemma system_disk_ready : ready 4 system_disk.
Proof.
  split; [done|split; intros; done|]. intros n. exists (n mod 3)%nat. split; [done|].
  pose proof (Nat.mod_upper_bound n 3). lia.
Qed.

Lemma store_byte m a bs x : Forall is_byte bs -> is_byte (m x) -> is_byte (store m a bs x).
Proof.
  intros Hb Hm. destruct (decide (a <= x < a + Z.of_nat (length bs))) as [H|H].
  - rewrite store_in by lia. destruct (lookup_lt_is_Some_2 bs (Z.to_nat (x - a))) as [b Hl]; [lia|].
    rewrite Hl. cbn. by eapply Forall_lookup_1.
  - by rewrite store_out by lia.
Qed.

Lemma boot_memory_bytes x : is_byte (boot_memory x).
Proof. unfold boot_memory. apply store_byte; [|apply store_byte; [|done]]; repeat constructor; done. Qed.

Lemma load_kernel_loads_witness :
  wp (load_kernel 4 512 0x7000 0) loading (fun _ s' =>
    (forall i, 0 <= i < 3 -> load (ld_mem s') (0x200000 + 512 * i) 512 = bytes_of_words (replicate 256 (3 + i))) /\
    media (ld_drive s') = media system_disk /\
    forall x, ~ (0x7000 <= x < 0x7000 + 512) -> ~ (0x200000 <= x < 0x200000 + 512 * 3) -> ld_mem s' x = boot_memory x).
Proof.
  apply (load_kernel_loads 4 0x7000 0 loading system_disk_ready boot_memory_bytes); by vm_compute.
Defined.

End LoadRun.
