(* ===== verification/BootPage.v ===== *)
(** * Entering long mode (bootloader/src/bit64.rs, main.rs, vga.rs, asm/stub.s)

    The loader from [_start] to the jump into the stub, and the stub: the text
    it shows, the test of the processor, the reading of the kernel, the
    descriptor table, the first page tables and the control registers.
    [TableName] names the statics that hold the page tables; where the linker
    puts them, and the bytes of the assembled stub, are parameters. From the moment paging is on, the loader
    reaches memory through the tables it has built, and an address they do not
    map is a fault. *)
From Stdlib Require Import Ascii String.
From S2P Require Import Prelude Physics PhysicsSpec Page PageForest BootMemory Ata AtaSpec Loader.

Inductive TableName : Type :=
  BOOT_PML4 | BOOT_LOADER_PDPT | BOOT_LOADER_PD | BOOT_LOADER_PT
| BOOT_KERNEL_PDPT | BOOT_KERNEL_PD | BOOT_KERNEL_PT.

#[global] Instance TableName_eq_dec : EqDecision TableName.
Proof. solve_decision. Defined.

Definition tables : list TableName :=
  [BOOT_PML4; BOOT_LOADER_PDPT; BOOT_LOADER_PD; BOOT_LOADER_PT; BOOT_KERNEL_PDPT; BOOT_KERNEL_PD; BOOT_KERNEL_PT].

(** The processor, the memory and the drives behind the loader. *)
Record Boot : Type := mkBoot {
  loading : Loading;
  gdtr_limit : Z;
  gdtr_base : Z;
  cr0 : Z;
  cr3 : Z;
  cr4 : Z;
  efer : Z;                            (* IA32_EFER, low half *)
}.

Definition set_loading (l : Loading) (s : Boot) : Boot :=
  mkBoot l (gdtr_limit s) (gdtr_base s) (cr0 s) (cr3 s) (cr4 s) (efer s).
Definition set_gdtr (limit base : Z) (s : Boot) : Boot :=
  mkBoot (loading s) limit base (cr0 s) (cr3 s) (cr4 s) (efer s).
Definition set_cr0 (v : Z) (s : Boot) : Boot :=
  mkBoot (loading s) (gdtr_limit s) (gdtr_base s) v (cr3 s) (cr4 s) (efer s).
Definition set_cr3 (v : Z) (s : Boot) : Boot :=
  mkBoot (loading s) (gdtr_limit s) (gdtr_base s) (cr0 s) v (cr4 s) (efer s).
Definition set_cr4 (v : Z) (s : Boot) : Boot :=
  mkBoot (loading s) (gdtr_limit s) (gdtr_base s) (cr0 s) (cr3 s) v (efer s).
Definition set_efer (v : Z) (s : Boot) : Boot :=
  mkBoot (loading s) (gdtr_limit s) (gdtr_base s) (cr0 s) (cr3 s) (cr4 s) v.

Definition memory (s : Boot) : Z -> Z := ld_mem (loading s).
Definition set_memory (m : Z -> Z) (s : Boot) : Boot := set_loading (mkLoading (ld_drive (loading s)) m) s.

Local Notation IO := (M Boot Empty_set).

(** ** The screen (vga.rs) *)

Definition VGA : Z := 0xb8000.

(** [VgaText::new]: the screen is cleared, the cursor at its start. *)
Definition vga_new : IO Z := modify (fun s => set_memory (fill (memory s) VGA (2 * (25 * 80)) 0) s);; mret 0.

Definition put_char (cursor b : Z) : IO unit :=
  rust_assert (cursor <? 25 * 80);;
  modify (fun s => set_memory (store (memory s) (VGA + 2 * cursor) (to_le 2 (Z.lor b 0x0700))) s).

(** [VgaText::write_bytes], from a cursor to the one it leaves. *)
Fixpoint write_bytes (bytes : list Z) (cursor : Z) : IO Z :=
  match bytes with
  | [] => mret cursor
  | b :: bytes =>
      let cursor := if 25 * 80 <=? cursor then 0 else cursor in
      if b =? 13 then write_bytes bytes (cursor - cursor `mod` 80)
      else if b =? 10 then write_bytes bytes (cursor - cursor `mod` 80 + 80)
      else put_char cursor b;; write_bytes bytes (cursor + 1)
  end.

Definition hex_digit (d : Z) : Z := if d <? 10 then 48 + d else 87 + d.

(** [{:x}] of a [u64]. *)
Fixpoint hex_digits (fuel : nat) (x : Z) (acc : list Z) : list Z :=
  match fuel with
  | O => acc
  | S fuel =>
      let acc := hex_digit (x `mod` 16) :: acc in
      if x / 16 =? 0 then acc else hex_digits fuel (x / 16) acc
  end.
Definition hex (x : Z) : list Z := hex_digits 16 x [].

Definition writeln (text : list Z) (cursor : Z) : IO Z := write_bytes (text ++ [10]) cursor.

(** ** The processor *)

(** [test_cpu_is_support_64bit]; [cpuid] gives [eax] and [edx]. *)
Definition test_cpu_is_support_64bit (cpuid : Z -> Z * Z) : bool :=
  if (cpuid 0x80000000).1 <? 0x80000001 then false
  else negb (Z.land (cpuid 0x80000001).2 (Z.shiftl 1 29) =? 0).

Definition enable_sse : IO unit :=
  modify (fun s => set_cr0 (Z.lor (Z.ldiff (cr0 s) (Z.shiftl 1 2)) (Z.shiftl 1 1)) s);;
  modify (fun s => set_cr4 (Z.lor (cr4 s) (Z.lor (Z.shiftl 1 9) (Z.shiftl 1 10))) s).

(** ** Descriptors *)

Definition GDT : list Z :=
  [0; 0; 0; 0x00AF9A0000000000; 0x00CF920000000000; 0; 0; 0x00CFF20000000000; 0x00AFFA0000000000].

(** [p.read_unaligned()] of a [u64], before paging. *)
Definition read_u64 (a : Z) : IO Z := gets (fun s => from_le (load (memory s) a 8)).
Definition write_u64 (a v : Z) : IO unit := modify (fun s => set_memory (store (memory s) a (to_le 8 v)) s).

Section boot.
  Context (addr : TableName -> Z) (gdt : Z).

Definition load_gdt : IO unit :=
  base ← gets gdtr_base;
  for_each [1; 2] (fun i _ => e ← read_u64 (base + 8 * i); write_u64 (gdt + 8 * i) e) tt;;
  modify (set_gdtr (9 * 8 - 1) gdt).

(** ** The page tables *)

(** [TABLE[index] = e] *)
Definition set_entry (t : TableName) (index e : Z) : IO unit :=
  rust_assert (index <? 512);;
  write_u64 (addr t + index * 8) e.

Definition flagged (a : Z) : Z := Z.lor (Z.lor a P_PRESENT) P_RW.
Definition flagged_large (a : Z) : Z := Z.lor (Z.lor (Z.lor a P_PS) P_PRESENT) P_RW.

Definition SIZE_2M : Z := 0x200000.
Definition SIZE_4K : Z := 0x1000.

Definition page_count (blocks : Z) : Z := (blocks * 512 + SIZE_4K - 1) / SIZE_4K.

Definition map_loader (loader_binary_page_count : Z) : IO unit :=
  rust_assert (loader_binary_page_count + 7 <? 512);;
  set_entry BOOT_PML4 0 (flagged (addr BOOT_LOADER_PDPT));;
  set_entry BOOT_LOADER_PDPT 0 (flagged (addr BOOT_LOADER_PD));;
  set_entry BOOT_LOADER_PD 0 (flagged (addr BOOT_LOADER_PT));;
  set_entry BOOT_LOADER_PT 1 (flagged 0x1000);;
  set_entry BOOT_LOADER_PT 2 (flagged 0x2000);;
  set_entry BOOT_LOADER_PT 7 (flagged 0x7000);;
  set_entry BOOT_LOADER_PT 0xb8 (flagged 0xb8000);;
  for_range 0 (Z.to_nat loader_binary_page_count) (fun i _ =>
    set_entry BOOT_LOADER_PT (Z.of_nat i + 8) (flagged (0x8000 + 0x1000 * Z.of_nat i))) tt.

Definition kernel_binary_start : Z := SIZE_2M.

Definition kernel_stack_start (kernel_binary_page_count : Z) : Z :=
  (kernel_binary_start + kernel_binary_page_count * SIZE_4K + SIZE_2M - 1) / SIZE_2M * SIZE_2M.

(** The loop over the pages of the kernel; each round takes at least one. *)
Fixpoint map_kernel_pages (fuel : nat) (kernel_binary_page_count i : Z) : IO unit :=
  match fuel with
  | O => diverge
  | S fuel =>
      if i <? kernel_binary_page_count then
        let remain := kernel_binary_page_count - i in
        if 512 <=? remain then
          set_entry BOOT_KERNEL_PD (i / 512) (flagged_large (kernel_binary_start + SIZE_2M * (i / 512)));;
          map_kernel_pages fuel kernel_binary_page_count (i + 512)
        else
          (if i `mod` 512 =? 0 then set_entry BOOT_KERNEL_PD (i / 512) (flagged (addr BOOT_KERNEL_PT)) else mret tt);;
          set_entry BOOT_KERNEL_PT (i `mod` 512) (flagged (kernel_binary_start + SIZE_4K * i));;
          map_kernel_pages fuel kernel_binary_page_count (i + 1)
      else mret tt
  end.

Definition map_kernel (kernel_binary_page_count : Z) : IO unit :=
  rust_assert (kernel_binary_page_count <? 512 * 512);;
  set_entry BOOT_PML4 511 (flagged (addr BOOT_KERNEL_PDPT));;
  set_entry BOOT_KERNEL_PDPT 511 (flagged (addr BOOT_KERNEL_PD));;
  set_entry BOOT_KERNEL_PD 510 (flagged_large (kernel_stack_start kernel_binary_page_count));;
  map_kernel_pages (S (Z.to_nat kernel_binary_page_count)) kernel_binary_page_count 0.

Definition setup_page_tables : IO unit :=
  for_each tables (fun t _ => rust_assert (Z.land (addr t) 0xFFF =? 0)) tt;;
  loader_size ← gets (fun s => loader_blocks (memory s));
  kernel_size ← gets (fun s => kernel_blocks (memory s));
  map_loader (page_count loader_size);;
  map_kernel (page_count kernel_size);;
  modify (set_cr3 (addr BOOT_PML4)).

(** ** Memory behind the page tables *)

(** The translation of the processor: four levels, large pages at the third
    and second one. *)
Definition translate (m : Z -> Z) (root v : Z) : option Z :=
  let e4 := entry m root (pml4_index v) in
  if negb (present e4) then None
  else
    let e3 := entry m (address e4) (pdpt_index v) in
    if negb (present e3) then None
    else if ps e3 then Some (Z.land e3 0x000FFFFFC0000000 + v `mod` 2 ^ 30)
    else
      let e2 := entry m (address e3) (pd_index v) in
      if negb (present e2) then None
      else if ps e2 then Some (Z.land e2 0x000FFFFFFFE00000 + v `mod` 2 ^ 21)
      else
        let e1 := entry m (address e2) (pt_index v) in
        if negb (present e1) then None
        else Some (address e1 + v `mod` 2 ^ 12).

Definition virt (v : Z) : IO Z := fun s =>
  match translate (memory s) (cr3 s) v with
  | Some p => (Ok p, s)
  | None => (Panic, s)
  end.

(** [ptr::copy_nonoverlapping] once paging is on. *)
Definition copy_bytes (src dst n : Z) : IO unit :=
  for_range 0 (Z.to_nat n) (fun i _ =>
    p ← virt (src + Z.of_nat i);
    q ← virt (dst + Z.of_nat i);
    modify (fun s => set_memory (store (memory s) q [memory s p]) s)) tt.

(** The registers with which the loader leaves. *)
Record Jump : Type := mkJump {
  eip : Z;
  edi : Z;
  esi : Z;
  edx : Z;
}.

(** PAE, long mode and paging, in this order. *)
Definition set_long_mode : IO unit :=
  modify (fun s => set_cr4 (Z.lor (cr4 s) (Z.shiftl 1 5)) s);;
  modify (fun s => set_efer (Z.lor (efer s) (Z.shiftl 1 8)) s);;
  modify (fun s => set_cr0 (Z.lor (cr0 s) (Z.shiftl 1 31)) s).

Definition STUB_ASM_PTR : Z := 0x2000.

(** [enable_64bit_mode]; the stub is [stub_len] bytes at [stub] in the image
    of the loader. *)
Definition enable_64bit_mode (stub stub_len region_ptr region_len startup_disk : Z) : IO Jump :=
  load_gdt;;
  setup_page_tables;;
  set_long_mode;;
  rust_assert (stub_len <? 0x1000);;
  copy_bytes stub STUB_ASM_PTR stub_len;;
  mret (mkJump STUB_ASM_PTR region_ptr region_len startup_disk).

(** ** The stub (asm/stub.s) *)

(** The bytes at a virtual address. *)
Definition read_virt (v n : Z) : IO (list Z) := fun s =>
  match mapM (fun x => memory s <$> translate (memory s) (cr3 s) x) (seqZ v n) with
  | Some bs => (Ok bs, s)
  | None => (Panic, s)
  end.

(** The load of a segment register: the processor reads the descriptor from
    the table, and a descriptor it does not take is a fault, as is a far jump
    into a segment that is not one of 64 bit code of long mode. *)
Definition descriptor (selector : Z) : IO Z :=
  limit ← gets gdtr_limit;
  rust_assert (selector + 7 <=? limit);;
  base ← gets gdtr_base;
  bs ← read_virt (base + selector) 8;
  mret (from_le bs).

Definition far_jump (selector : Z) : IO unit :=
  long ← gets (fun s => Z.testbit (cr0 s) 31 && Z.testbit (cr4 s) 5 && Z.testbit (efer s) 8);
  rust_assert long;;
  d ← descriptor selector;
  rust_assert (Z.testbit d 47 && Z.testbit d 44 && Z.testbit d 43 && Z.testbit d 53 && negb (Z.testbit d 54)).

Definition load_segment (selector : Z) : IO unit :=
  d ← descriptor selector;
  rust_assert (Z.testbit d 47 && Z.testbit d 44 && negb (Z.testbit d 43) && Z.testbit d 41).

(** The registers with which the kernel begins: [data] is in all the segment
    registers but [cs], and the others are the arguments of [kmain]. *)
Record Entry : Type := mkEntry {
  rip : Z;
  rsp : Z;
  cs : Z;
  data : Z;
  rdi : Z;
  rsi : Z;
  rdx : Z;
}.

(** The instructions at [eip] and those at the entry of the kernel have to be
    mapped. *)
Definition run_stub (j : Jump) : IO Entry :=
  virt (eip j);;
  far_jump 0x18;;
  for_range 0 5 (fun _ _ => load_segment 0x20) tt;;
  virt 0xFFFFFFFFC0000000;;
  mret (mkEntry 0xFFFFFFFFC0000000 0xFFFFFFFFFFDFFFF8 0x18 0x20 (edi j) (esi j) (edx j)).

(** ** The memory map in memory *)

(** [MemoryRegion] is 20 bytes. *)
Definition decode_region (bs : list Z) : MemoryRegion :=
  mkMemoryRegion (from_le (slice 0 8 bs)) (from_le (slice 8 8 bs)) (from_le (slice 16 4 bs)).
Definition encode_region (r : MemoryRegion) : list Z :=
  to_le 8 (base_addr r) ++ to_le 8 (region_length r) ++ to_le 4 (region_type r).

Definition regions_at (m : Z -> Z) (a n : Z) : list MemoryRegion :=
  (fun i => decode_region (load m (a + 20 * i) 20)) <$> seqZ 0 n.

(** ** [_start] *)

Definition lift_outcome {A} (o : outcome unit A) : IO A := fun s =>
  (match o with Ok a => Ok a | Err _ | Panic => Panic | Diverge => Diverge end, s).

Definition show_region (r : MemoryRegion) (cursor : Z) : IO Z :=
  stop ← checked 64 (base_addr r + region_length r);
  writeln (ascii_bytes "memory: 0x"%string ++ hex (base_addr r) ++ ascii_bytes " - 0x"%string ++ hex stop) cursor.

(** The memory map is [memory_region_size] entries at [bios_memory], and is
    normalised in place: behind the entries that are returned the array keeps
    what the passes have left there, [stale], which nobody reads. [buf_ptr] is
    the buffer of [ata_read_disk] and [buf_len] its length. *)
Definition _start (sort stale : list MemoryRegion -> list MemoryRegion) (cpuid : Z -> Z * Z) (fuel buf_len : nat)
    (stub stub_len buf_ptr bios_memory memory_region_size startup_disk : Z) : IO Jump :=
  cursor ← vga_new;
  cursor ← writeln (ascii_bytes "COS Entered 32-bit mode"%string) cursor;
  regions ← gets (fun s => regions_at (memory s) bios_memory memory_region_size);
  memory_region ← lift_outcome (normalize_memory_region sort fuel regions);
  modify (fun s => set_memory (store (memory s) bios_memory
    (concat (encode_region <$> memory_region ++ drop (length memory_region) (stale regions)))) s);;
  cursor ← writeln (ascii_bytes "memory ptr: 0x"%string ++ hex bios_memory) cursor;
  cursor ← for_each memory_region show_region cursor;
  rust_assert (test_cpu_is_support_64bit cpuid);;
  enable_sse;;
  zoom loading set_loading (load_kernel fuel buf_len buf_ptr startup_disk);;
  writeln (ascii_bytes "finish read kernel"%string) cursor;;
  enable_64bit_mode stub stub_len bios_memory (Z.of_nat (length memory_region)) startup_disk.

End boot.
