(* ===== verification/BootSpec.v ===== *)
(** * The first page tables and the way into the kernel

    What the tables of [BootPage.v] map, page by page; what the kernel makes of
    them when it starts; and the whole way from [_start] to the jump. *)
From Stdlib Require Import Sorted String.
From S2P Require Import Prelude Physics PhysicsSpec Page PageForest BootMemory Ata AtaSpec Loader BootPage.

(** ** Entries *)

Definition frame_addr (a : Z) : Prop := 0 <= a /\ a + 0x1000 <= 2 ^ 52 /\ a `mod` 0x1000 = 0.

Lemma land_small x c k : 0 <= k -> 0 <= c < 2 ^ k -> Z.land x c = Z.land (x `mod` 2 ^ k) c.
Proof.
  intros Hk Hc. rewrite <-(Z.land_ones x k Hk), <-Z.land_assoc. f_equal.
  rewrite Z.land_comm, Z.land_ones by lia. by rewrite Z.mod_small.
Qed.

Lemma flagged_sum a : frame_addr a -> flagged a = a + 3.
Proof.
  intros (H1 & H2 & H3). unfold flagged. rewrite <-Z.lor_assoc. change (Z.lor P_PRESENT P_RW) with 3.
  apply (lor_low a 3 12); lia.
Qed.

Lemma flagged_large_sum a : 0 <= a -> a `mod` 2 ^ 21 = 0 -> flagged_large a = a + 0x83.
Proof.
  intros H1 H2. unfold flagged_large. rewrite <-!Z.lor_assoc. change (Z.lor P_PS (Z.lor P_PRESENT P_RW)) with 0x83.
  apply (lor_low a 0x83 21); lia.
Qed.

Lemma flagged_ok a :
  frame_addr a -> 0 <= flagged a < 2 ^ 64 /\ present (flagged a) = true /\ ps (flagged a) = false /\ address (flagged a) = a.
Proof.
  intros Ha. rewrite flagged_sum by done. destruct Ha as (H1 & H2 & H3). split; [lia|].
  unfold present, ps, address. rewrite address_mask by lia.
  rewrite (land_small _ P_PRESENT 12), (land_small _ P_PS 12) by done.
  assert ((a + 3) `mod` 2 ^ 12 = 3) as -> by lia. split_and!; [done..|lia].
Qed.

Lemma flagged_large_ok a :
  0 <= a < 2 ^ 51 -> a `mod` 2 ^ 21 = 0 ->
  0 <= flagged_large a < 2 ^ 64 /\ present (flagged_large a) = true /\ ps (flagged_large a) = true /\
  Z.land (flagged_large a) 0x000FFFFFFFE00000 = a.
Proof.
  intros H1 H2. rewrite flagged_large_sum by lia. split; [lia|].
  unfold present, ps. rewrite (land_small _ P_PRESENT 21), (land_small _ P_PS 21) by done.
  assert ((a + 0x83) `mod` 2 ^ 21 = 0x83) as -> by lia. split_and!; [done..|].
  change 0x000FFFFFFFE00000 with (2 ^ 52 - 2 ^ 21). rewrite land_high by lia. lia.
Qed.

Lemma index_div v n : 0 <= n -> Z.land (Z.shiftr v n) 0x1FF = (v / 2 ^ n) `mod` 512.
Proof. intros. rewrite Z.shiftr_div_pow2 by done. exact (Z.land_ones _ 9 ltac:(lia)). Qed.

(** ** The tables as functions *)

Section tables.
  Context (addr : TableName -> Z) (gdt : Z).
  Implicit Types (C : TableName -> Z -> Z) (t : TableName).

(** Where the linker has put the statics of a loader of [n] blocks. *)
Record placed (n : Z) : Prop := {
  pl_aligned t : addr t `mod` 0x1000 = 0;
  pl_inside t : 0x8000 <= addr t /\ addr t + 0x1000 <= 0x8000 + 512 * n;
  pl_apart t t' : t <> t' -> addr t + 0x1000 <= addr t' \/ addr t' + 0x1000 <= addr t;
  pl_gdt : 0x8000 <= gdt /\ gdt + 72 <= 0x8000 + 512 * n;
  pl_gdt_apart t : gdt + 72 <= addr t \/ addr t + 0x1000 <= gdt;
}.

Definition entries (m : Z -> Z) C : Prop := forall t i, 0 <= i < 512 -> entry m (addr t) i = C t i.

Definition upd C t i e : TableName -> Z -> Z := fun t' i' =>
  if bool_decide (t' = t) && (i' =? i) then e else C t' i'.

(** [s] is [s0] but for the tables, whose entries are [C]. *)
Record built (s0 s : Boot) C : Prop := {
  bu_same : s = set_memory (memory s) s0;
  bu_frame x : (forall t, ~ addr t <= x < addr t + 0x1000) -> memory s x = memory s0 x;
  bu_entries : entries (memory s) C;
}.

Lemma built_ext s0 s C C' : built s0 s C -> (forall t i, 0 <= i < 512 -> C t i = C' t i) -> built s0 s C'.
Proof. intros [B1 B2 B3] H. split; [done..|]. intros t i Hi. rewrite <-H by done. by apply B3. Qed.

Lemma set_entry_ok n s0 s C t i e :
  placed n -> 0 <= i < 512 -> 0 <= e < 2 ^ 64 -> built s0 s C ->
  wp (set_entry addr t i e) s (fun _ s' => built s0 s' (upd C t i e)).
Proof.
  intros P Hi He [B1 B2 B3]. unfold set_entry, write_u64. wp_step. wp_step; [lia|]. wp_step. split.
  - rewrite B1. done.
  - intros x Hx. cbn. rewrite store_out; [by apply B2|]. specialize (Hx t). rewrite length_to_le. lia.
  - intros t' j Hj. cbn. fold (put (memory s) (addr t + i * 8) e). rewrite entry_word. unfold upd.
    destruct (decide (t' = t)) as [->|Ht].
    + rewrite bool_decide_true by done. cbn [andb]. destruct (Z.eqb_spec j i) as [->|]; [by apply word_put|].
      rewrite word_put_ne by lia. apply B3. done.
    + rewrite bool_decide_false by done. cbn [andb]. pose proof (pl_apart _ P t t' (not_eq_sym Ht)).
      rewrite word_put_ne by lia. apply B3. done.
Qed.

(** ** What is put into them *)

Definition loader_page (n j : Z) : bool :=
  (j =? 1) || (j =? 2) || (j =? 7) || (j =? 0xb8) || ((8 <=? j) && (j <? 8 + n)).

(** After the loader's part with [n] pages, and the first [i] of the [k] pages
    of the kernel. *)
Definition kernel_pd (k i j : Z) : Z :=
  if (j <? k / 512) && (512 * j <? i) then flagged_large (kernel_binary_start + SIZE_2M * j)
  else if (j =? k / 512) && (512 * j <? i) then flagged (addr BOOT_KERNEL_PT)
  else if j =? 510 then flagged_large (kernel_stack_start k) else 0.

Definition content (n k i : Z) (t : TableName) (j : Z) : Z :=
  match t with
  | BOOT_PML4 => if j =? 0 then flagged (addr BOOT_LOADER_PDPT)
                 else if j =? 511 then flagged (addr BOOT_KERNEL_PDPT) else 0
  | BOOT_LOADER_PDPT => if j =? 0 then flagged (addr BOOT_LOADER_PD) else 0
  | BOOT_LOADER_PD => if j =? 0 then flagged (addr BOOT_LOADER_PT) else 0
  | BOOT_LOADER_PT => if loader_page n j then flagged (0x1000 * j) else 0
  | BOOT_KERNEL_PDPT => if j =? 511 then flagged (addr BOOT_KERNEL_PD) else 0
  | BOOT_KERNEL_PD => kernel_pd k i j
  | BOOT_KERNEL_PT => if k / 512 * 512 + j <? i then flagged (kernel_binary_start + SIZE_4K * (k / 512 * 512 + j)) else 0
  end.

Section build.
  Context (nb : Z) (P : placed nb) (Hnb : page_count nb + 7 < 512) (Hnb0 : 0 <= nb).

Lemma table_frame t : frame_addr (addr t).
Proof.
  pose proof (pl_aligned _ P t). pose proof (pl_inside _ P t). unfold page_count, SIZE_4K in Hnb.
  split_and!; [lia..|done].
Qed.

Lemma flagged_table t : 0 <= flagged (addr t) < 2 ^ 64.
Proof. apply flagged_ok, table_frame. Qed.

Lemma flagged_page j : 0 <= j < 2 ^ 39 -> 0 <= flagged (0x1000 * j) < 2 ^ 64.
Proof. intros Hj. apply flagged_ok. split_and!; lia. Qed.

(** One step: an entry, and what the tables are then. *)
Lemma set_entry_then s0 s C C' t i e (Q : unit -> Boot -> Prop) :
  built s0 s C -> 0 <= i < 512 -> 0 <= e < 2 ^ 64 ->
  (forall t' j, 0 <= j < 512 -> upd C t i e t' j = C' t' j) ->
  (forall s', built s0 s' C' -> Q tt s') -> wp (set_entry addr t i e) s Q.
Proof.
  intros B Hi He HC HQ. eapply wp_mono; [by eapply set_entry_ok|]. intros [] s' B'.
  apply HQ. by eapply built_ext.
Qed.

Ltac table_case :=
  unfold upd; repeat first [rewrite bool_decide_true by reflexivity | rewrite bool_decide_false by discriminate]; cbn [andb content].
Ltac entry_case :=
  repeat match goal with
  | |- context [?a =? ?b] => destruct (Z.eqb_spec a b)
  | |- context [?a <? ?b] => destruct (Z.ltb_spec a b)
  | |- context [?a <=? ?b] => destruct (Z.leb_spec a b)
  end; cbn [andb orb]; try done; try lia.

(** How far the loop over the pages of the kernel has come. *)
Definition at_page (k i : Z) : Prop :=
  0 <= i <= k /\ (i `mod` 512 = 0 /\ i <= k / 512 * 512 \/ k / 512 * 512 <= i).

Lemma content_large n k i t j :
  at_page k i -> i < k -> 512 <= k - i -> 0 <= j ->
  upd (content n k i) BOOT_KERNEL_PD (i / 512) (flagged_large (kernel_binary_start + SIZE_2M * (i / 512))) t j =
    content n k (i + 512) t j.
Proof.
  intros (H1 & H2) H3 H4 Hj. destruct t; table_case; try done; unfold kernel_pd; entry_case.
  all: by replace j with (i / 512) by lia.
Qed.

Lemma content_small n k i t j :
  at_page k i -> i < k -> k - i < 512 -> 0 <= j < 512 ->
  upd (if i `mod` 512 =? 0 then upd (content n k i) BOOT_KERNEL_PD (i / 512) (flagged (addr BOOT_KERNEL_PT)) else content n k i)
    BOOT_KERNEL_PT (i `mod` 512) (flagged (kernel_binary_start + SIZE_4K * i)) t j = content n k (i + 1) t j.
Proof.
  intros (H1 & H2) H3 H4 Hj. destruct (Z.eqb_spec (i `mod` 512) 0); destruct t; table_case; try done;
    unfold kernel_pd; entry_case; by replace (k / 512 * 512 + j) with i by lia.
Qed.

Lemma map_kernel_pages_ok n k s0 fuel i s :
  0 <= k < 512 * 512 -> at_page k i -> (Z.to_nat (k - i) < fuel)%nat -> built s0 s (content n k i) ->
  wp (map_kernel_pages addr fuel k i) s (fun _ s' => built s0 s' (content n k k)).
Proof.
  intros Hk. revert i s. induction fuel as [|fuel IH]; intros i s Hi Hf B; [lia|]. cbn [map_kernel_pages].
  pose proof Hi as (H1 & H2).
  destruct (Z.ltb_spec i k); [|wp_step; by replace i with k in B by lia].
  unfold kernel_binary_start, SIZE_2M, SIZE_4K in *.
  destruct (Z.leb_spec 512 (k - i)).
  - wp_step. eapply set_entry_then; [exact B|lia| |intros t' j Hj; apply content_large; done || lia|].
    { apply flagged_large_ok; lia. }
    intros s' B'. apply (IH (i + 512)); [split; lia|lia|done].
  - assert (Hs : wp (if i `mod` 512 =? 0 then set_entry addr BOOT_KERNEL_PD (i / 512) (flagged (addr BOOT_KERNEL_PT)) else mret tt) s
      (fun _ s' => built s0 s' (if i `mod` 512 =? 0 then upd (content n k i) BOOT_KERNEL_PD (i / 512) (flagged (addr BOOT_KERNEL_PT)) else content n k i))).
    { destruct (Z.eqb_spec (i `mod` 512) 0); [|by wp_step]. eapply set_entry_ok; [done|lia|apply flagged_table|done]. }
    wp_step. eapply wp_mono; [exact Hs|]. intros [] s1 B1. wp_step.
    eapply set_entry_then; [exact B1|lia| |intros t' j Hj; by apply content_small|].
    { apply flagged_ok. split_and!; lia. }
    intros s' B'. apply (IH (i + 1)); [split; lia|lia|done].
Qed.

(** Nothing is in the tables at first. *)
Definition no_entries (t : TableName) (j : Z) : Z := 0.

Definition loader_content (n i : Z) (t : TableName) (j : Z) : Z :=
  match t with
  | BOOT_PML4 => if j =? 0 then flagged (addr BOOT_LOADER_PDPT) else 0
  | BOOT_LOADER_PT => if loader_page i j then flagged (0x1000 * j) else 0
  | BOOT_LOADER_PDPT | BOOT_LOADER_PD => content n 0 0 t j
  | _ => 0
  end.

Lemma map_loader_ok s0 s :
  built s0 s no_entries ->
  wp (map_loader addr (page_count nb)) s (fun _ s' => built s0 s' (loader_content (page_count nb) (page_count nb))).
Proof.
  intros B. unfold map_loader. assert (0 <= page_count nb) by (unfold page_count, SIZE_4K; lia).
  set (n := page_count nb) in *. wp_step. wp_step; [lia|].
  do 7 (wp_step; eapply wp_mono; [eapply set_entry_ok; [done|lia|by apply flagged_table || by apply flagged_ok|done]|];
    clear B; intros [] ? B).
  eapply wp_mono; [apply (wp_for_range (fun i _ s' => built s0 s' (loader_content n (Z.of_nat i))))|].
  - eapply built_ext; [exact B|]. intros t j Hj. destruct t; table_case; cbn [loader_content]; try done; unfold no_entries, loader_page; entry_case.
    all: by subst.
  - intros i [] s9 Hi B'. eapply set_entry_then; [exact B'|lia|apply flagged_ok; split_and!; lia| |done].
    intros t j Hj. destruct t; table_case; cbn [loader_content]; try done. unfold loader_page; entry_case; subst; f_equal; lia.
  - intros [] s9 B'. by rewrite Nat.add_0_l, Z2Nat.id in B' by lia.
Qed.

Lemma stack_start_ok k :
  0 <= k < 512 * 512 -> 0 <= kernel_stack_start k < 2 ^ 31 /\ kernel_stack_start k `mod` 2 ^ 21 = 0.
Proof. intros Hk. unfold kernel_stack_start, kernel_binary_start, SIZE_2M, SIZE_4K. lia. Qed.

Lemma map_kernel_ok n k s0 s :
  0 <= k < 512 * 512 -> built s0 s (loader_content n n) ->
  wp (map_kernel addr k) s (fun _ s' => built s0 s' (content n k k)).
Proof.
  intros Hk B. unfold map_kernel. wp_step. wp_step; [lia|]. pose proof (stack_start_ok k Hk).
  do 3 (wp_step; eapply wp_mono; [eapply set_entry_ok; [done|lia|by apply flagged_table || by apply flagged_large_ok; lia|done]|];
    clear B; intros [] ? B).
  apply map_kernel_pages_ok; [done|split; lia|lia|]. eapply built_ext; [exact B|].
  intros t j Hj. destruct t; table_case; cbn [loader_content]; try done; unfold kernel_pd; entry_case.
Qed.

(** ** What they map *)

Definition KERNEL : Z := 0xFFFFFFFFC0000000.
Definition KERNEL_STACK : Z := 0xFFFFFFFFFFC00000.

Definition canonical (v : Z) : Prop := 0 <= v < 2 ^ 47 \/ 2 ^ 64 - 2 ^ 47 <= v < 2 ^ 64.

(** The pages of the loader where they are, [k] pages of the kernel from 2M
    on, the stack behind them, and nothing else. *)
Definition boot_map (n k v : Z) : option Z :=
  if (v <? SIZE_2M) && loader_page n (v / 0x1000) then Some v
  else if (KERNEL <=? v) && (v <? KERNEL + k * SIZE_4K) then Some (kernel_binary_start + (v - KERNEL))
  else if (KERNEL_STACK <=? v) && (v <? KERNEL_STACK + SIZE_2M) then Some (kernel_stack_start k + (v - KERNEL_STACK))
  else None.

Lemma flagged_next t : present (flagged (addr t)) = true /\ ps (flagged (addr t)) = false /\ address (flagged (addr t)) = addr t.
Proof. apply flagged_ok, table_frame. Qed.

(** The walk through the tables of the loader. *)
Lemma translate_loader m n k v :
  entries m (content n k k) -> n + 7 < 512 -> 0 <= v < 2 ^ 47 ->
  translate m (addr BOOT_PML4) v =
    if (v <? SIZE_2M) && loader_page n (v / 0x1000) then Some v else None.
Proof.
  intros He Hn Hv. unfold translate, pml4_index, pdpt_index, pd_index, pt_index. rewrite !index_div by lia.
  rewrite (He BOOT_PML4) by lia. cbn [content]. rewrite (proj2 (Z.eqb_neq _ 511)) by lia.
  unfold SIZE_2M. destruct (Z.eqb_spec ((v / 2 ^ 39) `mod` 512) 0); cbn [negb].
  2:{ rewrite (proj2 (Z.ltb_ge _ _)) by lia. done. }
  destruct (flagged_next BOOT_LOADER_PDPT) as (-> & _ & ->). cbn [negb].
  rewrite (He BOOT_LOADER_PDPT) by lia. cbn [content]. destruct (Z.eqb_spec ((v / 2 ^ 30) `mod` 512) 0); cbn [negb].
  2:{ rewrite (proj2 (Z.ltb_ge _ _)) by lia. done. }
  destruct (flagged_next BOOT_LOADER_PD) as (-> & -> & ->). cbn [negb].
  rewrite (He BOOT_LOADER_PD) by lia. cbn [content]. destruct (Z.eqb_spec ((v / 2 ^ 21) `mod` 512) 0); cbn [negb].
  2:{ rewrite (proj2 (Z.ltb_ge _ _)) by lia. done. }
  destruct (flagged_next BOOT_LOADER_PT) as (-> & -> & ->). cbn [negb].
  rewrite (He BOOT_LOADER_PT) by lia. cbn [content]. rewrite (proj2 (Z.ltb_lt v _)) by lia. cbn [andb].
  replace ((v / 2 ^ 12) `mod` 512) with (v / 0x1000) by lia. destruct (loader_page n (v / 0x1000)) eqn:Hp; [|done].
  destruct (flagged_ok (0x1000 * (v / 0x1000))) as (_ & -> & _ & ->); [split_and!; lia|]. cbn [negb]. f_equal. lia.
Qed.

(** The walk through the tables of the kernel. *)
Lemma translate_kernel m n k v :
  entries m (content n k k) -> 0 <= k < 512 * 512 -> KERNEL <= v < 2 ^ 64 ->
  translate m (addr BOOT_PML4) v =
    let x := v - KERNEL in
    if x <? k * SIZE_4K then Some (kernel_binary_start + x)
    else if (k <=? 510 * 512) && (510 * SIZE_2M <=? x) && (x <? 511 * SIZE_2M)
    then Some (kernel_stack_start k + (x - 510 * SIZE_2M)) else None.
Proof.
  intros He Hk Hv. cbn zeta. unfold translate, pml4_index, pdpt_index, pd_index, pt_index, KERNEL in *. rewrite !index_div by lia.
  replace ((v / 2 ^ 39) `mod` 512) with 511 by lia. replace ((v / 2 ^ 30) `mod` 512) with 511 by lia.
  rewrite (He BOOT_PML4) by lia. cbn [content Z.eqb Pos.eqb].
  destruct (flagged_next BOOT_KERNEL_PDPT) as (-> & _ & ->). cbn [negb].
  rewrite (He BOOT_KERNEL_PDPT) by lia. cbn [content Z.eqb Pos.eqb].
  destruct (flagged_next BOOT_KERNEL_PD) as (-> & -> & ->). cbn [negb].
  rewrite (He BOOT_KERNEL_PD) by lia. cbn [content].
  set (x := v - 0xFFFFFFFFC0000000). assert (Hx : 0 <= x < 2 ^ 30) by lia.
  replace ((v / 2 ^ 21) `mod` 512) with (x / 2 ^ 21) by lia. replace ((v / 2 ^ 12) `mod` 512) with ((x / 2 ^ 12) `mod` 512) by lia.
  replace (v `mod` 2 ^ 21) with (x `mod` 2 ^ 21) by lia. replace (v `mod` 2 ^ 12) with (x `mod` 2 ^ 12) by lia.
  clearbody x. clear v Hv. unfold kernel_pd, kernel_binary_start, SIZE_2M, SIZE_4K.
  destruct (stack_start_ok k Hk) as [Hs1 Hs2].
  destruct (Z.ltb_spec (x / 2 ^ 21) (k / 512)).
  { rewrite (proj2 (Z.ltb_lt (512 * (x / 2 ^ 21)) k)), (proj2 (Z.ltb_lt x _)) by lia. cbn [andb].
    destruct (flagged_large_ok (0x200000 + 0x200000 * (x / 2 ^ 21))) as (_ & -> & -> & ->); [lia..|]. cbn [negb]. f_equal. lia. }
  cbn [andb]. destruct (Z.eqb_spec (x / 2 ^ 21) (k / 512)) as [Hq|Hq], (Z.ltb_spec (512 * (x / 2 ^ 21)) k); cbn [andb].
  1:{ destruct (flagged_next BOOT_KERNEL_PT) as (-> & -> & ->). cbn [negb].
    rewrite (He BOOT_KERNEL_PT) by lia. cbn [content]. unfold kernel_binary_start, SIZE_2M, SIZE_4K.
    replace (k / 512 * 512 + (x / 2 ^ 12) `mod` 512) with (x / 2 ^ 12) by lia.
    destruct (Z.ltb_spec (x / 2 ^ 12) k).
    - rewrite (proj2 (Z.ltb_lt x _)) by lia.
      destruct (flagged_ok (0x200000 + 0x1000 * (x / 2 ^ 12))) as (_ & -> & _ & ->); [split_and!; lia|]. cbn [negb]. f_equal. lia.
    - rewrite (proj2 (Z.ltb_ge x _)) by lia. destruct (Z.leb_spec k (510 * 512)), (Z.leb_spec (510 * 0x200000) x); try done. lia. }
  all: rewrite (proj2 (Z.ltb_ge x _)) by lia.
  all: destruct (Z.eqb_spec (x / 2 ^ 21) 510); [|destruct (Z.leb_spec (510 * 0x200000) x), (Z.ltb_spec x (511 * 0x200000));
    rewrite ?andb_false_r; done || lia].
  all: rewrite (proj2 (Z.leb_le k _)), (proj2 (Z.leb_le _ x)), (proj2 (Z.ltb_lt x _)) by lia; cbn [andb].
  all: destruct (flagged_large_ok (kernel_stack_start k)) as (_ & -> & -> & ->); [lia|done|]; cbn [negb]; f_equal; lia.
Qed.

(** Between the two nothing is mapped. *)
Lemma translate_between m n k v :
  entries m (content n k k) -> 2 ^ 64 - 2 ^ 47 <= v < KERNEL -> translate m (addr BOOT_PML4) v = None.
Proof.
  intros He Hv. unfold translate, pml4_index, pdpt_index, KERNEL in *. rewrite !index_div by lia.
  rewrite (He BOOT_PML4) by lia. cbn [content]. rewrite (proj2 (Z.eqb_neq _ 0)) by lia.
  destruct (Z.eqb_spec ((v / 2 ^ 39) `mod` 512) 511); [|done].
  destruct (flagged_next BOOT_KERNEL_PDPT) as (-> & _ & ->). cbn [negb].
  rewrite (He BOOT_KERNEL_PDPT) by lia. cbn [content]. by rewrite (proj2 (Z.eqb_neq _ 511)) by lia.
Qed.

Lemma translate_content m n k v :
  entries m (content n k k) -> n + 7 < 512 -> 0 <= k <= 510 * 512 -> canonical v ->
  translate m (addr BOOT_PML4) v = boot_map n k v.
Proof.
  intros He Hn Hk Hv. unfold boot_map.
  assert (Hlow : v < 2 ^ 47 -> (KERNEL <=? v) = false /\ (KERNEL_STACK <=? v) = false).
  { unfold KERNEL, KERNEL_STACK. intros. rewrite !(proj2 (Z.leb_gt _ v)) by lia. done. }
  assert (Hhigh : 2 ^ 47 <= v -> (v <? SIZE_2M) = false).
  { unfold SIZE_2M. intros. apply Z.ltb_ge. lia. }
  destruct Hv as [Hv|Hv].
  { rewrite (translate_loader m n k v) by (done || lia). destruct (Hlow ltac:(lia)) as [-> ->]. by destruct (_ && _). }
  rewrite Hhigh by lia. cbn [andb]. destruct (Z.leb_spec KERNEL v) as [HK|HK].
  - rewrite (translate_kernel m n k v) by (done || lia). rewrite (proj2 (Z.leb_le k _)) by lia. cbn zeta. cbn [andb].
    unfold KERNEL, KERNEL_STACK, SIZE_2M, SIZE_4K, kernel_binary_start in *. clear Hlow Hhigh.
    entry_case; f_equal; lia.
  - rewrite (translate_between m n k v) by (done || lia). cbn [andb].
    unfold KERNEL, KERNEL_STACK in *. by rewrite (proj2 (Z.leb_gt _ v)) by lia.
Qed.

(** ** The steps of [enable_64bit_mode] *)

Lemma setup_page_tables_ok s :
  let k := page_count (kernel_blocks (memory s)) in
  loader_blocks (memory s) = nb -> 0 <= k < 512 * 512 -> entries (memory s) no_entries ->
  wp (setup_page_tables addr) s (fun _ s' => exists s1,
    built s s1 (content (page_count nb) k k) /\ s' = set_cr3 (addr BOOT_PML4) s1).
Proof.
  intros k Hl Hk He. unfold setup_page_tables. wp_step.
  eapply wp_mono; [apply (wp_for_each (fun _ _ s' => s' = s)); [done|]|].
  { intros t l _ s' _ ->. wp_step; [|done]. rewrite land_low. by rewrite (pl_aligned _ P t). }
  intros [] s' ->. wp_step. wp_step. wp_step. wp_step. rewrite Hl. fold k.
  wp_step. eapply wp_mono; [apply (map_loader_ok s s); split; [by destruct s as [[]]|done|done]|].
  intros [] s1 B1. wp_step. eapply wp_mono; [by apply map_kernel_ok|]. intros [] s2 B2. wp_step. by exists s2.
Qed.

(** A copy of [n] bytes from [src] to [dst], both mapped where they are. *)
Lemma copy_bytes_ok src dst n s (C : TableName -> Z -> Z) :
  0 <= n -> cr3 s = addr BOOT_PML4 -> entries (memory s) C ->
  (forall t, dst + n <= addr t \/ addr t + 0x1000 <= dst) -> (src + n <= dst \/ dst + n <= src) ->
  (forall m i, entries m C -> 0 <= i < n ->
     translate m (addr BOOT_PML4) (src + i) = Some (src + i) /\ translate m (addr BOOT_PML4) (dst + i) = Some (dst + i)) ->
  wp (copy_bytes src dst n) s (fun _ s' => s' = set_memory (memory s') s /\
    meq (memory s') (store (memory s) dst (load (memory s) src n)) /\ entries (memory s') C).
Proof.
  intros Hn Hcr He Ha Hd Ht. unfold copy_bytes.
  eapply wp_mono; [apply (wp_for_range (fun i _ s' => s' = set_memory (memory s') s /\
    meq (memory s') (store (memory s) dst (load (memory s) src (Z.of_nat i))) /\ entries (memory s') C))|].
  - split_and!; [by destruct s as [[]]| |done]. by rewrite store_nil.
  - intros i [] s' Hi (B1 & B2 & B3). destruct (Ht (memory s') (Z.of_nat i) B3 ltac:(lia)) as [T1 T2].
    assert (Hcr' : cr3 s' = addr BOOT_PML4) by (by rewrite B1).
    wp_step. eapply wp_intro; [unfold virt; by rewrite Hcr', T1|].
    wp_step. eapply wp_intro; [unfold virt; by rewrite Hcr', T2|]. wp_step.
    set (m := store (memory s') _ _).
    assert (Hm : meq m (store (memory s) dst (load (memory s) src (Z.of_nat (S i))))).
    { assert (Hb : memory s' (src + Z.of_nat i) = memory s (src + Z.of_nat i)).
      { rewrite B2, store_out; [done|]. rewrite length_load. lia. }
      replace (Z.of_nat (S i)) with (Z.of_nat i + 1) by lia. rewrite load_app by lia.
      assert (load (memory s) (src + Z.of_nat i) 1 = [memory s (src + Z.of_nat i)]) as -> by (unfold load; rewrite seqZ_cons by lia; done).
      intros x. rewrite <-(store_app (memory s) dst _ _ x), length_load, Z2Nat.id by lia. unfold m. rewrite Hb.
      destruct (decide (dst + Z.of_nat i <= x < dst + Z.of_nat i + 1)).
      - by rewrite !store_in by (cbn; lia).
      - rewrite !(store_out _ (dst + Z.of_nat i)) by (cbn; lia). apply B2. }
    split_and!; [by rewrite B1|exact Hm|]. intros t j Hj. cbn [memory set_memory set_loading loading ld_mem].
    fold (memory s'). rewrite <-(B3 t j) by done. rewrite !entry_word. unfold word. f_equal. apply load_ext.
    intros x Hx. unfold m. apply store_out. cbn. specialize (Ha t). lia.
  - intros [] s' (B1 & B2 & B3). rewrite Nat.add_0_l, Z2Nat.id in B2 by lia. done.
Qed.
End build.

(** ** The whole of it *)

(** The image of the loader as the linker and the boot sector leave it, a
    kernel that leaves room for its stack, and the stub of [len] bytes in the
    image. *)
Record prepared (stub len : Z) (s : Boot) : Prop := {
  pr_bytes x : 0x7C00 <= x < 0x7E00 -> is_byte (memory s x);
  pr_placed : placed (loader_blocks (memory s));
  pr_loader : page_count (loader_blocks (memory s)) + 7 < 512;
  pr_kernel : page_count (kernel_blocks (memory s)) <= 510 * 512;
  pr_tables t x : addr t <= x < addr t + 0x1000 -> memory s x = 0;
  pr_descriptors i e : GDT !! i = Some e -> word (memory s) (gdt + 8 * Z.of_nat i) = e;
  pr_gdtr : 0x7C00 <= gdtr_base s /\ gdtr_base s + 24 <= 0x7E00;
  pr_stub : 0x8000 <= stub /\ 0 <= len < 0x1000 /\ stub + len <= 0x8000 + 512 * loader_blocks (memory s);
  pr_stub_apart t : stub + len <= addr t \/ addr t + 0x1000 <= stub;
  pr_stub_gdt : stub + len <= gdt \/ gdt + 72 <= stub;
}.

Lemma load_bytes m a n : (forall x, a <= x < a + n -> is_byte (m x)) -> Forall is_byte (load m a n).
Proof. intros H. unfold load. apply Forall_fmap, Forall_forall. intros x Hx%elem_of_seqZ. apply H. lia. Qed.

Lemma load_gdt_ok s :
  0x7C00 <= gdtr_base s /\ gdtr_base s + 24 <= 0x7E00 -> 0x8000 <= gdt ->
  (forall x, 0x7C00 <= x < 0x7E00 -> is_byte (memory s x)) ->
  wp (load_gdt gdt) s (fun _ s' => exists m, s' = set_gdtr 71 gdt (set_memory m s) /\
    (forall x, ~ gdt + 8 <= x < gdt + 24 -> m x = memory s x) /\
    forall i, i = 1 \/ i = 2 -> word m (gdt + 8 * i) = word (memory s) (gdtr_base s + 8 * i)).
Proof.
  intros Hb Hg Hbytes. unfold load_gdt, read_u64, write_u64. wp_pure. cbn [for_each]. wp_pure.
  fold (word (memory s) (gdtr_base s + 8 * 1)). set (w1 := word (memory s) (gdtr_base s + 8 * 1)).
  assert (Hw : forall i, 1 <= i <= 2 -> 0 <= word (memory s) (gdtr_base s + 8 * i) < 2 ^ 64).
  { intros i Hi. unfold word. pose proof (from_le_bound (load (memory s) (gdtr_base s + 8 * i) 8)) as H. rewrite length_load in H.
    apply H, load_bytes. intros x Hx. apply Hbytes. lia. }
  change (store (memory s) (gdt + 8 * 1) (to_le 8 w1)) with (put (memory s) (gdt + 8 * 1) w1).
  cbn [memory set_memory set_loading loading ld_mem]. fold (memory s).
  change (from_le (load ?m ?a 8)) with (word m a). rewrite word_put_ne by lia.
  eexists. split; [reflexivity|]. split.
  - intros x Hx. unfold put. rewrite !store_out; [done|..]; rewrite length_to_le; lia.
  - intros i [-> | ->].
    + change (store ?m (gdt + 8 * 2) (to_le 8 ?w)) with (put m (gdt + 8 * 2) w). rewrite word_put_ne by lia.
      apply word_put, Hw. lia.
    + apply word_put, Hw. lia.
Qed.

Lemma no_entries_ok m : (forall t x, addr t <= x < addr t + 0x1000 -> m x = 0) -> entries m no_entries.
Proof.
  intros H t i Hi. rewrite entry_word. unfold word. transitivity (from_le (load (fun _ => 0) (addr t + i * 8) 8)); [|done].
  f_equal. apply load_ext. intros x Hx. apply (H t). lia.
Qed.

Lemma u32_nonneg s a :
  (forall x, 0x7C00 <= x < 0x7E00 -> is_byte (memory s x)) -> 0x7C00 <= a <= 0x7E00 - 4 -> 0 <= u32_at (memory s) a.
Proof. intros Hb Ha. unfold u32_at. apply from_le_bound, load_bytes. intros x Hx. apply Hb. lia. Qed.

Lemma u32_agree m m' a : (forall x, a <= x < a + 4 -> m' x = m x) -> u32_at m' a = u32_at m a.
Proof. intros H. unfold u32_at. f_equal. by apply load_ext. Qed.

(** What [enable_64bit_mode] leaves for the stub. *)
Record entered (stub len : Z) (s s' : Boot) : Prop := {
  en_maps v : canonical v -> translate (memory s') (cr3 s') v =
    boot_map (page_count (loader_blocks (memory s))) (page_count (kernel_blocks (memory s))) v;
  en_entries : cr3 s' = addr BOOT_PML4 /\ entries (memory s') (content
    (page_count (loader_blocks (memory s))) (page_count (kernel_blocks (memory s))) (page_count (kernel_blocks (memory s))));
  en_stub : load (memory s') STUB_ASM_PTR len = load (memory s) stub len;
  en_long : Z.testbit (cr0 s') 31 = true /\ Z.testbit (cr4 s') 5 = true /\ Z.testbit (efer s') 8 = true;
  en_gdtr : gdtr_base s' = gdt /\ gdtr_limit s' = 71;
  en_gdt i e : GDT !! i = Some e -> word (memory s') (gdt + 8 * Z.of_nat i) =
    if decide (i = 1 \/ i = 2)%nat then word (memory s) (gdtr_base s + 8 * Z.of_nat i) else e;
  en_drive : ld_drive (loading s') = ld_drive (loading s);
  en_frame x : (forall t, ~ addr t <= x < addr t + 0x1000) -> ~ gdt <= x < gdt + 72 ->
    ~ STUB_ASM_PTR <= x < STUB_ASM_PTR + len -> memory s' x = memory s x;
}.

(** The pages of the image and the page of the stub are mapped where they are. *)
Lemma loader_identity nb (P : placed nb) (Hl : page_count nb + 7 < 512) m k v :
  entries m (content (page_count nb) k k) -> 0x8000 <= v < 0x8000 + 512 * nb \/ 0x2000 <= v < 0x3000 ->
  translate m (addr BOOT_PML4) v = Some v.
Proof.
  intros He Hv. unfold page_count, SIZE_4K in Hl. rewrite (translate_loader nb P Hl _ (page_count nb) k) by (done || lia).
  unfold page_count, SIZE_4K, SIZE_2M, loader_page.
  rewrite (proj2 (Z.ltb_lt v _)) by lia. cbn [andb]. destruct Hv.
  - rewrite (proj2 (Z.leb_le 8 _)), (proj2 (Z.ltb_lt (v / 0x1000) _)) by lia. by rewrite !orb_true_r.
  - by replace (v / 0x1000) with 2 by lia.
Qed.

Lemma lor_bit x n : 0 <= n -> Z.testbit (Z.lor x (Z.shiftl 1 n)) n = true.
Proof. intros Hn. rewrite Z.lor_spec, Z.shiftl_spec, Z.sub_diag by lia. apply orb_true_r. Qed.

Lemma enable_64bit_mode_ok stub len ptr n disk s :
  prepared stub len s ->
  wp (enable_64bit_mode addr gdt stub len ptr n disk) s (fun j s' => j = mkJump STUB_ASM_PTR ptr n disk /\ entered stub len s s').
Proof.
  intros [Hb P Hl Hk Ht Hd Hg Hs Hsa Hsg]. unfold enable_64bit_mode. pose proof (pl_gdt _ P) as Hgd.
  pose proof (u32_nonneg s (0x7C00 + 446 + 12) Hb ltac:(lia)) as HL0. pose proof (u32_nonneg s (0x7C00 + 446 + 12 + 16) Hb ltac:(lia)) as HK0.
  fold (loader_blocks (memory s)) in HL0. fold (kernel_blocks (memory s)) in HK0.
  set (nb := loader_blocks (memory s)) in *. set (kb := kernel_blocks (memory s)) in *.
  assert (0 <= page_count kb) by (unfold page_count, SIZE_4K; lia).
  wp_step. eapply wp_mono; [apply load_gdt_ok; [done|lia|done]|]. intros [] s0 (m & -> & Hm & Hw).
  assert (HT : forall t x, addr t <= x < addr t + 0x1000 -> m x = 0).
  { intros t x Hx. pose proof (pl_gdt_apart _ P t). rewrite Hm by lia. by apply (Ht t). }
  assert (El : loader_blocks m = nb) by (apply u32_agree; intros; apply Hm; lia).
  assert (Ek : kernel_blocks m = kb) by (apply u32_agree; intros; apply Hm; lia).
  wp_step. eapply wp_mono.
  { apply (setup_page_tables_ok nb P Hl HL0 (set_gdtr 71 gdt (set_memory m s))); cbn; [done| |by apply no_entries_ok].
    rewrite Ek. lia. }
  cbn. rewrite Ek. intros [] s1 (s2 & [B1 B2 B3] & ->). cbn in B2.
  wp_step. unfold set_long_mode. do 2 (wp_step; wp_step). wp_step. wp_step. wp_step; [lia|]. wp_step. eapply wp_mono.
  { apply (copy_bytes_ok stub STUB_ASM_PTR len _ (content (page_count nb) (page_count kb) (page_count kb))).
    - lia.
    - done.
    - exact B3.
    - intros t. pose proof (pl_inside _ P t). unfold STUB_ASM_PTR. lia.
    - unfold STUB_ASM_PTR. lia.
    - intros m' i He Hi. unfold STUB_ASM_PTR. split; apply (loader_identity nb P Hl m' _ _ He); lia. }
  intros [] s4 (C1 & C2 & C3). cbn in C2. fold (memory s2) in C2. wp_step. split; [done|].
  assert (Hrest : forall x, (forall t, ~ addr t <= x < addr t + 0x1000) -> ~ STUB_ASM_PTR <= x < STUB_ASM_PTR + len ->
    memory s4 x = m x).
  { intros x Hx1 Hx2. rewrite C2, store_out by (rewrite length_load; lia). by apply B2. }
  assert (Hcr : cr3 s4 = addr BOOT_PML4) by (by rewrite C1).
  split.
  - intros v Hv. rewrite Hcr. apply (translate_content nb P Hl); [done|done|split; done|done].
  - done.
  - transitivity (load (memory s2) stub len).
    + etrans; [apply load_ext; intros x _; apply C2|]. pose proof (load_store (memory s2) STUB_ASM_PTR (load (memory s2) stub len)) as H0.
      by rewrite length_load, Z2Nat.id in H0 by lia.
    + apply load_ext. intros x Hx. rewrite B2; [apply Hm; lia|]. intros t. specialize (Hsa t). lia.
  - rewrite C1. split_and!; by apply lor_bit.
  - rewrite C1, B1. done.
  - intros i e Hi. assert (Hi9 : (i < 9)%nat) by (by apply lookup_lt_Some in Hi).
    transitivity (word m (gdt + 8 * Z.of_nat i)).
    { unfold word. f_equal. apply load_ext. intros x Hx. apply Hrest; [|unfold STUB_ASM_PTR; lia].
      intros t. pose proof (pl_gdt_apart _ P t). lia. }
    destruct (decide (i = 1 \/ i = 2)%nat); [apply Hw; lia|]. rewrite <-(Hd i e Hi). unfold word. f_equal.
    apply load_ext. intros x Hx. apply Hm. lia.
  - rewrite C1, B1. done.
  - intros x Hx1 Hx2 Hx3. rewrite Hrest by done. apply Hm. lia.
Qed.

(** ** [_start] *)

(** Text on the screen: nothing but the screen changes. *)
Definition on_screen (x : Z) : Prop := VGA <= x < VGA + 2 * (25 * 80).

Record shown (s s' : Boot) : Prop := {
  sh_same : s' = set_memory (memory s') s;
  sh_frame x : ~ on_screen x -> memory s' x = memory s x;
  sh_bytes : (forall x, is_byte (memory s x)) -> forall x, is_byte (memory s' x);
}.

Lemma shown_refl s : shown s s.
Proof. split; [by destruct s as [[]]|done..]. Qed.

Lemma shown_trans s s1 s2 : shown s s1 -> shown s1 s2 -> shown s s2.
Proof.
  intros [A1 A2 A3] [B1 B2 B3]. split; [by rewrite B1, A1|intros x Hx; by rewrite B2, A2|auto].
Qed.

Lemma write_bytes_ok bs cursor s :
  0 <= cursor <= 25 * 80 -> wp (write_bytes bs cursor) s (fun c s' => 0 <= c <= 25 * 80 /\ shown s s').
Proof.
  revert cursor s. induction bs as [|b bs IH]; intros c s Hc; cbn [write_bytes].
  { wp_step. split; [done|apply shown_refl]. }
  set (c' := if 25 * 80 <=? c then 0 else c). assert (Hc' : 0 <= c' < 25 * 80).
  { unfold c'. destruct (Z.leb_spec (25 * 80) c); lia. }
  clearbody c'. destruct (b =? 13); [apply IH; lia|]. destruct (b =? 10); [apply IH; lia|].
  wp_step. unfold put_char. wp_step. wp_step; [lia|]. wp_step.
  eapply wp_mono; [apply IH; lia|]. intros c2 s2 [H1 H2]. split; [done|]. eapply shown_trans; [|exact H2]. split.
  - done.
  - intros x Hx. unfold on_screen in Hx. cbn. apply store_out. rewrite length_to_le. lia.
  - intros Hb x. cbn. apply LoadRun.store_byte; [apply to_le_bytes|apply Hb].
Qed.

Lemma vga_new_ok s : wp vga_new s (fun c s' => c = 0 /\ shown s s').
Proof.
  unfold vga_new. wp_pure. split; [done|]. split.
  - done.
  - intros x Hx. unfold on_screen in Hx. cbn. apply fill_out. lia.
  - intros Hb x. cbn. unfold fill. destruct (_ && _); [done|apply Hb].
Qed.

Lemma show_regions_ok l c s :
  Forall valid l -> 0 <= c <= 25 * 80 ->
  wp (for_each l show_region c) s (fun c s' => 0 <= c <= 25 * 80 /\ shown s s').
Proof.
  intros Hv Hc. apply (wp_for_each (fun _ c s' => 0 <= c <= 25 * 80 /\ shown s s')); [split; [done|apply shown_refl]|].
  intros r l' c1 s1 Hsuf [H1 H2]. assert (Hr : valid r).
  { rewrite Forall_forall in Hv. apply Hv. destruct Hsuf as [k ->]. set_solver. }
  unfold valid, stop in Hr. unfold show_region. wp_step. wp_step; [lia|]. unfold writeln.
  eapply wp_mono; [by apply write_bytes_ok|]. intros c2 s2 [H3 H4]. split; [done|by eapply shown_trans].
Qed.

(** What the loader may change before it enters long mode. *)
Definition scratch (b kb x : Z) : Prop := on_screen x \/ b <= x < b + 512 \/ 0x200000 <= x < 0x200000 + 512 * kb.

Lemma prepared_agree stub len b s s' :
  prepared stub len s -> gdtr_base s' = gdtr_base s -> 0x3000 <= b -> b + 512 <= 0x7C00 ->
  0x8000 + 512 * loader_blocks (memory s) <= VGA ->
  (forall x, ~ scratch b (kernel_blocks (memory s)) x -> memory s' x = memory s x) -> prepared stub len s'.
Proof.
  intros [Hb P Hl Hk Ht Hd Hg Hs Hsa Hsg] Hgdtr Hb1 Hb2 Hsmall Hm. unfold VGA in Hsmall. pose proof (pl_gdt _ P) as Hgd.
  assert (Hlow : forall x, 0x7C00 <= x < 0x8000 + 512 * loader_blocks (memory s) -> memory s' x = memory s x).
  { intros x Hx. apply Hm. unfold scratch, on_screen, VGA. lia. }
  assert (El : loader_blocks (memory s') = loader_blocks (memory s)) by (apply u32_agree; intros; apply Hlow; lia).
  assert (Ek : kernel_blocks (memory s') = kernel_blocks (memory s)) by (apply u32_agree; intros; apply Hlow; lia).
  split; rewrite ?El, ?Ek, ?Hgdtr; try done.
  - intros x Hx. rewrite Hlow by lia. by apply Hb.
  - intros t x Hx. pose proof (pl_inside _ P t). rewrite Hlow by lia. by apply (Ht t).
  - intros i e Hi. rewrite <-(Hd i e Hi). assert (i < 9)%nat by (by apply lookup_lt_Some in Hi).
    unfold word. f_equal. apply load_ext. intros x Hx. apply Hlow. lia.
Qed.

(** Bytes behind virtual addresses. *)
Definition vload (s : Boot) (v n : Z) : list (option Z) :=
  (fun x => memory s <$> translate (memory s) (cr3 s) x) <$> seqZ v n.

Lemma vload_mapped s v p n :
  (forall i, 0 <= i < n -> translate (memory s) (cr3 s) (v + i) = Some (p + i)) ->
  vload s v n = Some <$> load (memory s) p n.
Proof.
  intros H. unfold vload, load. rewrite <-list_fmap_compose. apply list_eq. intros j.
  rewrite !list_lookup_fmap. destruct (decide (Z.of_nat j < n)).
  - rewrite !lookup_seqZ_lt by lia. cbn. by rewrite H by lia.
  - by rewrite !lookup_seqZ_ge by lia.
Qed.

Lemma vload_part s m v n a k :
  vload s v n = Some <$> load m v n -> v <= a -> a + k <= v + n -> vload s a k = Some <$> load m a k.
Proof.
  intros H Ha Hk. unfold vload, load in *. rewrite <-list_fmap_compose in *. apply list_fmap_ext.
  intros i x Hi%lookup_seqZ. assert (seqZ v n !! Z.to_nat (x - v) = Some x) as Hx by (apply lookup_seqZ; lia).
  apply (f_equal (.!! Z.to_nat (x - v))) in H. rewrite !list_lookup_fmap, Hx in H. by injection H.
Qed.

(** The machine when the stub begins: the kernel of the disk behind its virtual
    addresses, a stack that is apart from it, and the stub at its place. *)
Record handed_over (stub len disk : Z) (s s' : Boot) : Prop := {
  ho_kernel i : 0 <= i < kernel_blocks (memory s) ->
    vload s' (KERNEL + 512 * i) 512 =
      Some <$> bytes_of_words (Drive.media (ld_drive (loading s)) (disk `mod` 2) (loader_blocks (memory s) + 1 + i));
  ho_stack i : 0 <= i < SIZE_2M -> exists p,
    translate (memory s') (cr3 s') (KERNEL_STACK + i) = Some p /\ 0x200000 + 512 * kernel_blocks (memory s) <= p;
  ho_stub : vload s' STUB_ASM_PTR len = Some <$> load (memory s) stub len;
  ho_low : vload s' 0x1000 0x1000 = Some <$> load (memory s) 0x1000 0x1000;
  ho_long : Z.testbit (cr0 s') 31 = true /\ Z.testbit (cr4 s') 5 = true /\ Z.testbit (efer s') 8 = true;
  ho_gdt : gdtr_base s' = gdt /\ word (memory s') (gdt + 0x18) = 0x00AF9A0000000000 /\
    word (memory s') (gdt + 0x20) = 0x00CF920000000000;
}.

Lemma boot_map_kernel n k x :
  0 <= k <= 510 * 512 -> 0 <= x < k * SIZE_4K ->
  canonical (KERNEL + x) /\ boot_map n k (KERNEL + x) = Some (kernel_binary_start + x).
Proof.
  intros Hk Hx. unfold boot_map, canonical, KERNEL, SIZE_2M, SIZE_4K, kernel_binary_start in *. split; [lia|].
  rewrite (proj2 (Z.ltb_ge _ 0x200000)), (proj2 (Z.leb_le _ _)), (proj2 (Z.ltb_lt _ _)) by lia. cbn [andb]. f_equal. lia.
Qed.

Lemma boot_map_stack n k x :
  0 <= k <= 510 * 512 -> 0 <= x < SIZE_2M ->
  canonical (KERNEL_STACK + x) /\ boot_map n k (KERNEL_STACK + x) = Some (kernel_stack_start k + x).
Proof.
  intros Hk Hx. unfold boot_map, canonical, KERNEL, KERNEL_STACK, SIZE_2M, SIZE_4K, kernel_binary_start in *. split; [lia|].
  rewrite (proj2 (Z.ltb_ge _ 0x200000)), (proj2 (Z.ltb_ge _ (_ + k * _))), (proj2 (Z.leb_le _ _)) by lia. rewrite !andb_false_r.
  cbn [andb]. rewrite (proj2 (Z.leb_le _ _)), (proj2 (Z.ltb_lt _ _)) by lia. cbn [andb]. f_equal. lia.
Qed.

Lemma boot_map_stub n k x : 0 <= x < 0x1000 -> canonical (STUB_ASM_PTR + x) /\ boot_map n k (STUB_ASM_PTR + x) = Some (STUB_ASM_PTR + x).
Proof.
  intros Hx. unfold boot_map, canonical, STUB_ASM_PTR, SIZE_2M. split; [lia|].
  rewrite (proj2 (Z.ltb_lt _ 0x200000)) by lia. by replace ((0x2000 + x) / 0x1000) with 2 by lia.
Qed.

Lemma boot_map_low n k x : 0x1000 <= x < 0x2000 -> canonical x /\ boot_map n k x = Some x.
Proof.
  intros Hx. unfold boot_map, canonical, SIZE_2M. split; [lia|].
  rewrite (proj2 (Z.ltb_lt _ 0x200000)) by lia. by replace (x / 0x1000) with 1 by lia.
Qed.

(** ** The stub *)

Lemma mapM_fmap {A B} (f : A -> option B) (g : A -> B) l : (forall x, x ∈ l -> f x = Some (g x)) -> mapM f l = Some (g <$> l).
Proof.
  induction l as [|x l IH]; intros H; [done|]. cbn. rewrite H by apply list_elem_of_here. cbn.
  rewrite IH; [done|]. intros y Hy. apply H. by apply list_elem_of_further.
Qed.

Lemma read_virt_run v n s :
  (forall x, v <= x < v + n -> translate (memory s) (cr3 s) x = Some x) -> read_virt v n s = (Ok (load (memory s) v n), s).
Proof.
  intros H. unfold read_virt. rewrite (mapM_fmap _ (memory s)); [done|].
  intros x Hx%elem_of_seqZ. by rewrite H by lia.
Qed.

(** A descriptor of the loader, read by the processor. *)
Lemma descriptor_run stub len s s' i e :
  prepared stub len s -> entered stub len s s' -> GDT !! i = Some e -> ~ (i = 1 \/ i = 2)%nat ->
  descriptor (8 * Z.of_nat i) s' = (Ok e, s').
Proof.
  intros Pr [_ [Hcr He] _ _ [Hg Hlim] Hgdt _ _] Hi Hne. assert (i < 9)%nat by (by apply lookup_lt_Some in Hi).
  pose proof (pr_placed _ _ _ Pr) as P. pose proof (pl_gdt _ P) as Hin.
  unfold descriptor, gets, rust_assert. erewrite bind_ok by reflexivity. rewrite Hlim, (proj2 (Z.leb_le _ 71)) by lia.
  erewrite bind_ok by reflexivity. erewrite bind_ok by reflexivity. rewrite Hg.
  erewrite bind_ok.
  2:{ apply read_virt_run. intros x Hx. rewrite Hcr.
      apply (loader_identity _ P (pr_loader _ _ _ Pr) _ (page_count (kernel_blocks (memory s)))); [done|left; lia]. }
  pose proof (Hgdt i e Hi) as Hw. rewrite decide_False in Hw by done. unfold word in Hw. by rewrite Hw.
Qed.

Lemma run_stub_run stub len s s' ptr n disk :
  prepared stub len s -> entered stub len s s' -> 0 < kernel_blocks (memory s) ->
  run_stub (mkJump STUB_ASM_PTR ptr n disk) s' =
    (Ok (mkEntry KERNEL (KERNEL_STACK + SIZE_2M - 8) 0x18 0x20 ptr n disk), s').
Proof.
  intros Pr E Hk0. pose proof (pr_kernel _ _ _ Pr) as Hk. pose proof E as [Hmap _ _ (L1 & L2 & L3) _ _ _ _].
  assert (Hv : forall v p, canonical v -> boot_map (page_count (loader_blocks (memory s))) (page_count (kernel_blocks (memory s))) v = Some p ->
    virt v s' = (Ok p, s')) by (intros v p Hc Hp; unfold virt; by rewrite Hmap, Hp).
  destruct (boot_map_stub (page_count (loader_blocks (memory s))) (page_count (kernel_blocks (memory s))) 0) as [C1 B1]; [lia|].
  destruct (boot_map_kernel (page_count (loader_blocks (memory s))) (page_count (kernel_blocks (memory s))) 0) as [C2 B2];
    [unfold page_count, SIZE_4K in *; lia..|].
  rewrite Z.add_0_r in C1, C2, B1, B2. unfold run_stub. cbn [eip edi esi edx].
  erewrite bind_ok by (by apply Hv).
  assert (far_jump 0x18 s' = (Ok tt, s')) as Hfar.
  { unfold far_jump, gets, rust_assert. erewrite bind_ok by reflexivity. rewrite L1, L2, L3. erewrite bind_ok by reflexivity.
    erewrite bind_ok by (apply (descriptor_run stub len s s' 3 0x00AF9A0000000000); done || lia). done. }
  assert (load_segment 0x20 s' = (Ok tt, s')) as Hseg.
  { unfold load_segment, rust_assert.
    erewrite bind_ok by (apply (descriptor_run stub len s s' 4 0x00CF920000000000); done || lia). done. }
  erewrite bind_ok by exact Hfar. erewrite bind_ok.
  2:{ cbn [for_range]. do 5 (erewrite bind_ok by exact Hseg). done. }
  change 0xFFFFFFFFC0000000 with KERNEL. erewrite bind_ok by (by apply Hv). done.
Qed.


(** ** The whole way *)

Lemma entered_handed_over stub len disk s0 s s' :
  prepared stub len s0 -> prepared stub len s -> entered stub len s s' ->
  loader_blocks (memory s) = loader_blocks (memory s0) -> kernel_blocks (memory s) = kernel_blocks (memory s0) ->
  0x8000 + 512 * loader_blocks (memory s0) <= VGA ->
  load (memory s) stub len = load (memory s0) stub len ->
  load (memory s) 0x1000 0x1000 = load (memory s0) 0x1000 0x1000 ->
  (forall i, 0 <= i < kernel_blocks (memory s0) -> load (memory s) (0x200000 + 512 * i) 512 =
     bytes_of_words (Drive.media (ld_drive (loading s0)) (disk `mod` 2) (loader_blocks (memory s0) + 1 + i))) ->
  handed_over stub len disk s0 s'.
Proof.
  intros Pr0 Pr [E1 _ E2 E3 [E4 _] E5 _ E6] El Ek Hsmall Hst Hlow Hker. rewrite El, Ek in E1.
  pose proof (u32_nonneg s0 (0x7C00 + 446 + 12 + 16) (pr_bytes _ _ _ Pr0) ltac:(lia)) as HK0.
  fold (kernel_blocks (memory s0)) in HK0. pose proof (pr_kernel _ _ _ Pr0) as Hk.
  set (kb := kernel_blocks (memory s0)) in *. set (nb := loader_blocks (memory s0)) in *.
  assert (Hkp : 0 <= page_count kb /\ 512 * kb <= page_count kb * 0x1000) by (unfold page_count, SIZE_4K; lia).
  split.
  - intros i Hi. rewrite (vload_mapped s' _ (0x200000 + 512 * i)).
    + f_equal. rewrite <-Hker by done. apply load_ext. intros x Hx. unfold VGA in Hsmall.
      pose proof (pl_gdt _ (pr_placed _ _ _ Pr0)). apply E6; [|lia|unfold STUB_ASM_PTR; destruct (pr_stub _ _ _ Pr0); lia].
      intros t. pose proof (pl_inside _ (pr_placed _ _ _ Pr0) t). lia.
    + intros j Hj. rewrite <-Z.add_assoc.
      destruct (boot_map_kernel (page_count nb) (page_count kb) (512 * i + j)) as [Hc Hb]; [lia|unfold SIZE_4K; lia|].
      rewrite E1, Hb by done. f_equal. unfold kernel_binary_start, SIZE_2M. lia.
  - intros i Hi. destruct (boot_map_stack (page_count nb) (page_count kb) i) as [Hc Hb]; [lia..|].
    eexists. split; [by rewrite E1, Hb|].
    unfold kernel_stack_start, kernel_binary_start, SIZE_2M, SIZE_4K in *. lia.
  - rewrite (vload_mapped s' _ STUB_ASM_PTR); [by rewrite E2, Hst|].
    intros i Hi. destruct (boot_map_stub (page_count nb) (page_count kb) i) as [Hc Hb]; [destruct (pr_stub _ _ _ Pr0); lia|].
    by rewrite E1, Hb.
  - rewrite (vload_mapped s' _ 0x1000).
    + f_equal. rewrite <-Hlow. apply load_ext. intros x Hx. pose proof (pl_gdt _ (pr_placed _ _ _ Pr0)).
      apply E6; [|lia|unfold STUB_ASM_PTR; lia]. intros t. pose proof (pl_inside _ (pr_placed _ _ _ Pr0) t). lia.
    + intros i Hi. destruct (boot_map_low (page_count nb) (page_count kb) (0x1000 + i)) as [Hc Hb]; [lia|]. by rewrite E1, Hb.
  - done.
  - split_and!; [done|apply (E5 3%nat)|apply (E5 4%nat)]; done.
Qed.

Lemma ready_mono F F' d : ready F d -> (F <= F')%nat -> ready F' d.
Proof. intros [R1 R2 R3] HF. split; [done..|]. intros n. destruct (R3 n) as (t & Ht & Hlt). exists t. split; [done|lia]. Qed.

Section start.
  Context (sort : list MemoryRegion -> list MemoryRegion) (cpuid : Z -> Z * Z).
  Context (sort_perm : forall l, sort l ≡ₚ l) (sort_sorted : forall l, Sorted base_le (sort l)).

(** The state in which the boot sector starts the loader of [disk]. *)
Record bootable (F : nat) (stub len b disk : Z) (s : Boot) : Prop := {
  bo_prepared : prepared stub len s;
  bo_bytes x : is_byte (memory s x);
  bo_small : 0x8000 + 512 * loader_blocks (memory s) <= VGA;
  bo_buffer : 0x3000 <= b /\ b + 512 <= 0x7C00;
  bo_ready : ready F (ld_drive (loading s));
  bo_disk : loader_blocks (memory s) + 1 + kernel_blocks (memory s) <= Drive.capacity (ld_drive (loading s)) (disk `mod` 2);
  bo_cpu : test_cpu_is_support_64bit cpuid = true;
}.

(** What is left of [s0] once the kernel is in memory. *)
Record kernel_ready (b disk : Z) (s0 s : Boot) : Prop := {
  kr_gdtr : gdtr_base s = gdtr_base s0;
  kr_frame x : ~ scratch b (kernel_blocks (memory s0)) x -> memory s x = memory s0 x;
  kr_kernel i : 0 <= i < kernel_blocks (memory s0) -> load (memory s) (0x200000 + 512 * i) 512 =
    bytes_of_words (Drive.media (ld_drive (loading s0)) (disk `mod` 2) (loader_blocks (memory s0) + 1 + i));
}.

Lemma screen_blocks s0 s :
  (forall x, ~ on_screen x -> memory s x = memory s0 x) ->
  loader_blocks (memory s) = loader_blocks (memory s0) /\ kernel_blocks (memory s) = kernel_blocks (memory s0).
Proof. intros H. split; apply u32_agree; intros; apply H; unfold on_screen, VGA; lia. Qed.

Lemma load_kernel_part F fuel stub len b disk s0 s :
  bootable F stub len b disk s0 -> (F <= fuel)%nat -> ld_drive (loading s) = ld_drive (loading s0) ->
  gdtr_base s = gdtr_base s0 -> (forall x, is_byte (memory s x)) -> (forall x, ~ on_screen x -> memory s x = memory s0 x) ->
  wp (zoom loading set_loading (load_kernel fuel 512 b disk)) s (fun _ s' => kernel_ready b disk s0 s').
Proof.
  intros [Pr _ Hsm Hb Hrd Hdisk _] HF Hd Hg Hby Hfr. destruct (screen_blocks s0 s Hfr) as [El Ek].
  pose proof (pr_kernel _ _ _ Pr) as Hk. pose proof (pr_loader _ _ _ Pr) as Hl. unfold page_count, SIZE_4K in Hk, Hl.
  wp_step. eapply wp_mono; [apply load_kernel_run|].
  - rewrite Hd. by eapply ready_mono.
  - exact Hby.
  - lia.
  - fold (memory s). rewrite El, Ek, Hd. done.
  - fold (memory s). rewrite El, Ek. lia.
  - fold (memory s). rewrite Ek. lia.
  - intros [] l (K & _ & _ & Hout). unfold kernel_loaded in K. fold (memory s) in *. rewrite El, Ek, Hd in *. split.
    + done.
    + intros x Hx. unfold scratch in Hx. change (memory (set_loading l s) x) with (ld_mem l x). rewrite Hout by tauto. apply Hfr. tauto.
    + intros i Hi. by apply K.
Qed.

Lemma finish_boot stub len b ptr n disk s0 s :
  prepared stub len s0 -> 0x8000 + 512 * loader_blocks (memory s0) <= VGA -> 0x3000 <= b /\ b + 512 <= 0x7C00 ->
  kernel_ready b disk s0 s ->
  wp (enable_64bit_mode addr gdt stub len ptr n disk) s (fun j s' =>
    j = mkJump STUB_ASM_PTR ptr n disk /\ handed_over stub len disk s0 s').
Proof.
  intros Pr Hsm Hb [Hg Hfr Hker].
  assert (Pr' : prepared stub len s) by (eapply (prepared_agree stub len b); done || lia).
  assert (Hlow : forall x, 0x7C00 <= x < 0x8000 + 512 * loader_blocks (memory s0) -> memory s x = memory s0 x).
  { intros x Hx. apply Hfr. unfold scratch, on_screen, VGA in *. lia. }
  pose proof (pr_stub _ _ _ Pr) as (? & ? & ?).
  eapply wp_mono; [by apply enable_64bit_mode_ok|]. intros j s' [-> He]. split; [done|].
  apply (entered_handed_over stub len disk s0 s s'); try done.
  - apply u32_agree. intros. apply Hlow. pose proof (pl_gdt _ (pr_placed _ _ _ Pr)). lia.
  - apply u32_agree. intros. apply Hlow. pose proof (pl_gdt _ (pr_placed _ _ _ Pr)). lia.
  - apply load_ext. intros x Hx. apply Hlow. lia.
  - apply load_ext. intros x Hx. apply Hfr. unfold scratch, on_screen, VGA. lia.
Qed.

Lemma bootable_shown F stub len b disk s s' : shown s s' -> bootable F stub len b disk s -> bootable F stub len b disk s'.
Proof.
  intros [T1 T2 T3] [Pr Hby Hsm Hb Hrd Hdisk Hcpu]. destruct (screen_blocks s s' T2) as [El Ek].
  split; rewrite ?El, ?Ek; try done; [|by apply T3|by rewrite T1..].
  eapply (prepared_agree stub len b s s'); [done|by rewrite T1|lia..|]. intros x Hx. apply T2. unfold scratch in Hx. tauto.
Qed.

(** From the map on. *)
Lemma start_rest F fuel stub len b disk bios_memory l cursor s :
  bootable F stub len b disk s -> (F <= fuel)%nat -> 0 <= cursor <= 25 * 80 -> Forall valid l ->
  wp (cursor ← writeln (ascii_bytes "memory ptr: 0x"%string ++ hex bios_memory) cursor;
      cursor ← for_each l show_region cursor;
      rust_assert (test_cpu_is_support_64bit cpuid);;
      enable_sse;;
      zoom loading set_loading (load_kernel fuel 512 b disk);;
      writeln (ascii_bytes "finish read kernel"%string) cursor;;
      enable_64bit_mode addr gdt stub len bios_memory (Z.of_nat (length l)) disk) s (fun j s' =>
    j = mkJump STUB_ASM_PTR bios_memory (Z.of_nat (length l)) disk /\ handed_over stub len disk s s').
Proof.
  intros Hboot Hf Hc Hv. pose proof Hboot as [Pr Hby Hsm Hb Hrd Hdisk Hcpu].
  wp_step. eapply wp_mono; [by apply write_bytes_ok|]. intros c' s4 [Hc' S4].
  wp_step. eapply wp_mono; [by apply show_regions_ok|].
  intros c5 s5 [Hc5 S6]. pose proof (shown_trans _ _ _ S4 S6) as [T1 T2 T3]. clear S4 S6.
  rewrite Hcpu. wp_step. wp_step; [done|]. wp_step. unfold enable_sse. wp_step. wp_step. wp_step.
  wp_step. eapply wp_mono.
  { apply (load_kernel_part F fuel stub len b disk s); [done|lia|by rewrite T1|by rewrite T1|exact (T3 Hby)|exact T2]. }
  intros [] s6 K. wp_step. eapply wp_mono; [by apply write_bytes_ok|]. intros c7 s7 [_ [U1 U2 _]].
  assert (K' : kernel_ready b disk s s7).
  { destruct K as [K1 K2 K3]. split.
    - by rewrite U1.
    - intros x Hx. rewrite U2 by (unfold scratch in Hx; tauto). by apply K2.
    - intros i Hi. rewrite <-K3 by done. apply load_ext. intros x Hx. apply U2. unfold on_screen, VGA. lia. }
  by eapply finish_boot.
Qed.

(** Writing to the page of the memory map leaves the rest as it is. *)
Lemma bootable_map F stub len b disk a bs s :
  bootable F stub len b disk s -> 0x1000 <= a -> a + Z.of_nat (length bs) <= 0x2000 -> Forall is_byte bs ->
  bootable F stub len b disk (set_memory (store (memory s) a bs) s).
Proof.
  intros [Pr Hby Hsm Hb Hrd Hdisk Hcpu] Ha Hl Hbs.
  assert (Hk : forall x, 0x7C00 <= x -> store (memory s) a bs x = memory s x) by (intros x Hx; apply store_out; lia).
  assert (El : loader_blocks (memory (set_memory (store (memory s) a bs) s)) = loader_blocks (memory s))
    by (apply u32_agree; intros; apply Hk; lia).
  assert (Ek : kernel_blocks (memory (set_memory (store (memory s) a bs) s)) = kernel_blocks (memory s))
    by (apply u32_agree; intros; apply Hk; lia).
  split; rewrite ?El, ?Ek; try done.
  - destruct Pr as [P1 P2 P3 P4 P5 P6 P7 P8 P9 P10]. pose proof (pl_gdt _ P2).
    split; rewrite ?El, ?Ek; try done.
    + intros x Hx. change (is_byte (store (memory s) a bs x)). rewrite Hk by lia. by apply P1.
    + intros t x Hx. pose proof (pl_inside _ P2 t). change (store (memory s) a bs x = 0). rewrite Hk by lia. by apply (P5 t).
    + intros i e Hi. rewrite <-(P6 i e Hi). unfold word. f_equal. apply load_ext. intros x Hx. apply Hk. lia.
  - intros x. by apply LoadRun.store_byte.
Qed.

Lemma encode_regions_bytes l : Forall is_byte (concat (encode_region <$> l)).
Proof.
  apply Forall_concat, Forall_fmap, Forall_forall. intros r _. unfold encode_region. cbn.
  repeat apply Forall_app_2; apply to_le_bytes.
Qed.

Lemma length_encode_regions l : length (concat (encode_region <$> l)) = (20 * length l)%nat.
Proof.
  induction l as [|r l IH]; [done|]. rewrite fmap_cons. cbn [concat length]. rewrite length_app, IH.
  unfold encode_region. rewrite !length_app, !length_to_le. lia.
Qed.

(** With a buffer of 512 bytes the loader, started on a disk that holds it and
    a kernel, ends with a jump to the stub in long mode: the kernel of the disk
    is behind the virtual addresses it is linked for, a stack of 2M that shares
    no memory with it is behind those the stub uses, the stub itself and the
    descriptors of the kernel's segments are in place, and the registers say
    where the normalised memory map is and how long, and it is there. No access
    on the way, before or after paging is on, is to an address that is not
    mapped. *)
Theorem _start_hands_over F stub len b bios_memory count disk stale s :
  let regions := regions_at (memory s) bios_memory count in
  bootable F stub len b disk s -> Forall valid regions ->
  0x1000 <= bios_memory -> 0 <= count -> bios_memory + 20 * count <= 0x2000 -> length (stale regions) = length regions ->
  exists n, forall fuel, (n <= fuel)%nat ->
  wp (_start addr gdt sort stale cpuid fuel 512 stub len b bios_memory count disk) s (fun j s' => exists l s1,
    normalize_memory_region sort fuel regions = Ok l /\
    j = mkJump STUB_ASM_PTR bios_memory (Z.of_nat (length l)) disk /\
    (forall x, ~ (0x1000 <= x < 0x2000) -> ~ on_screen x -> memory s1 x = memory s x) /\
    ld_drive (loading s1) = ld_drive (loading s) /\ handed_over stub len disk s1 s' /\
    vload s' bios_memory (20 * Z.of_nat (length l)) = Some <$> concat (encode_region <$> l)).
Proof.
  intros regions Hboot Hv Ha Hcount Hpage Hstale. pose proof Hboot as [_ _ _ _ _ _ Hcpu].
  destruct (normalize_memory_region_ok sort sort_perm sort_sorted regions Hv) as (n & Hn).
  exists (Nat.max n F). intros fuel Hf. destruct (Hn fuel ltac:(lia)) as (l & Hl & Hty & _).
  pose proof (normalize_memory_region_length sort sort_perm fuel regions l Hl) as Hlen.
  assert (Hrl : length regions = Z.to_nat count) by (unfold regions, regions_at; by rewrite length_fmap, length_seqZ).
  set (bs := concat (encode_region <$> l ++ drop (length l) (stale regions))).
  assert (Hbs : length bs = (20 * Z.to_nat count)%nat) by (unfold bs; rewrite length_encode_regions, length_app, length_drop; lia).
  unfold _start. wp_step. eapply wp_mono; [apply vga_new_ok|]. intros c s1 [-> S1].
  wp_step. eapply wp_mono; [apply write_bytes_ok; lia|]. intros c s2 [Hc S2]. pose proof (shown_trans _ _ _ S1 S2) as S3.
  wp_step. wp_step. assert (regions_at (memory s2) bios_memory count = regions) as ->.
  { apply list_fmap_ext. intros i x Hi%lookup_seqZ. f_equal. apply load_ext. intros y Hy.
    apply (sh_frame _ _ S3). unfold on_screen, VGA. lia. }
  wp_step. eapply wp_intro; [unfold lift_outcome; by rewrite Hl|].
  assert (Hboot2 : bootable F stub len b disk s2) by (by eapply bootable_shown).
  wp_step. wp_step. fold bs.
  assert (Hboot3 := bootable_map F stub len b disk bios_memory bs s2 Hboot2 Ha ltac:(lia) (encode_regions_bytes _)).
  set (s3 := set_memory _ s2) in *. eapply wp_mono.
  { apply (start_rest F fuel stub len b disk bios_memory l c s3); [done|lia|done|].
    eapply Forall_impl; [exact Hty|]. by intros r (? & _). }
  intros j s' [-> H]. exists l, s3. pose proof S3 as [T1 T2 _]. split_conj; try done.
  - intros x Hx Hs. change (store (memory s2) bios_memory bs x = memory s x). rewrite store_out by lia. by apply T2.
  - change (ld_drive (loading s2) = ld_drive (loading s)). by rewrite T1.
  - pose proof (ho_low _ _ _ _ _ H) as Hlow. pose proof (length_encode_regions l) as Hel.
    assert (Hpre : load (memory s3) bios_memory (20 * Z.of_nat (length l)) = concat (encode_region <$> l)).
    { change (memory s3) with (store (memory s2) bios_memory bs). unfold bs. rewrite fmap_app, concat_app.
      etrans; [apply load_ext; intros x Hx; rewrite <-(store_app (memory s2) bios_memory _ _ x), store_out; [reflexivity|lia]|].
      etrans; [|apply (load_store (memory s2) bios_memory)]. f_equal. lia. }
    rewrite <-Hpre. apply (vload_part s' (memory s3) 0x1000 0x1000); [done|lia..].
Qed.
End start.

(** ** What the kernel makes of it *)

Lemma filter_seqZ_all (Q : Z -> Prop) `{HQ : !forall i, Decision (Q i)} a n :
  (forall i, a <= i < a + n -> Q i) -> filter Q (seqZ a n) = seqZ a n.
Proof.
  intros H. assert (HF : Forall Q (seqZ a n)).
  { apply Forall_forall. intros i Hi%elem_of_seqZ. apply H. lia. }
  induction HF as [|i l Hi _ IH]; [done|]. by rewrite filter_cons_True, IH.
Qed.

Lemma filter_seqZ_none (Q : Z -> Prop) `{HQ : !forall i, Decision (Q i)} a n :
  (forall i, a <= i < a + n -> ~ Q i) -> filter Q (seqZ a n) = [].
Proof.
  intros H. assert (HF : Forall (fun i => ~ Q i) (seqZ a n)).
  { apply Forall_forall. intros i Hi%elem_of_seqZ. apply H. lia. }
  induction HF as [|i l Hi _ IH]; [done|]. by rewrite filter_cons_False, IH.
Qed.

Section account.
  Context (nb : Z) (P : placed nb) (Hnb : page_count nb + 7 < 512).

(** The large pages the kernel needs. *)
Definition large_pages (k : Z) : Z := (k + 511) / 512.

Lemma kernel_pd_present k i :
  0 <= k <= 510 * 512 -> 0 <= i < 512 -> present (kernel_pd k k i) = true <-> i < large_pages k \/ i = 510.
Proof.
  intros Hk Hi. unfold kernel_pd, large_pages.
  destruct (Z.ltb_spec i (k / 512)), (Z.eqb_spec i (k / 512)), (Z.ltb_spec (512 * i) k); cbn [andb]; try lia.
  - destruct (flagged_large_ok (kernel_binary_start + SIZE_2M * i)) as (_ & -> & _);
      [unfold kernel_binary_start, SIZE_2M; lia..|]. split; [lia|done].
  - destruct (flagged_next nb P Hnb BOOT_KERNEL_PT) as (-> & _). split; [lia|done].
  - destruct (Z.eqb_spec i 510); [|split; [done|lia]].
    destruct (flagged_large_ok (kernel_stack_start k)) as (_ & -> & _); [pose proof (stack_start_ok k); lia..|]. split; [lia|done].
  - destruct (Z.eqb_spec i 510); [|split; [done|lia]].
    destruct (flagged_large_ok (kernel_stack_start k)) as (_ & -> & _); [pose proof (stack_start_ok k); lia..|]. split; [lia|done].
Qed.

Lemma used_entries m n k :
  entries m (content n k k) -> 0 <= k <= 510 * 512 ->
  Z.of_nat (length (filter (fun i => present (entry m (addr BOOT_KERNEL_PD) i) = true) (seqZ 0 512))) = large_pages k + 1.
Proof.
  intros He Hk. assert (Hc : 0 <= large_pages k <= 510) by (unfold large_pages; lia).
  assert (Hp : forall i, 0 <= i < 512 -> present (entry m (addr BOOT_KERNEL_PD) i) = true <-> i < large_pages k \/ i = 510).
  { intros i Hi. rewrite (He BOOT_KERNEL_PD i Hi). by apply kernel_pd_present. }
  replace 512 with (large_pages k + ((510 - large_pages k) + (1 + 1))) by lia.
  rewrite !seqZ_app, !filter_app, !length_app by lia.
  rewrite (filter_seqZ_all _ 0), (filter_seqZ_none _ (0 + large_pages k)), (filter_seqZ_all _ _ 1), (filter_seqZ_none _ _ 1).
  - rewrite !length_seqZ. cbn [length]. lia.
  - intros i Hi. rewrite Hp by lia. lia.
  - intros i Hi. rewrite Hp by lia. lia.
  - intros i Hi. rewrite Hp by lia. lia.
  - intros i Hi. rewrite Hp by lia. lia.
Qed.

Lemma page_init_tables m n k rs ms :
  entries m (content n k k) -> 0 <= k <= 510 * 512 -> ram ms = m ->
  set_region rs (page_init (addr BOOT_PML4) ms) =
    mkMachine m (temp ms) (Some (addr BOOT_PML4)) (Some (addr BOOT_LOADER_PT)) (Some (addr BOOT_KERNEL_PD)) rs
      (first_alloc_address ms) (linked_free_address ms).
Proof.
  intros He Hk <-. unfold page_init, set_region.
  cbn [ram temp PML4 LOADER_PT KERNEL_PD first_alloc_address linked_free_address MEMORY_REGION].
  destruct (flagged_next nb P Hnb BOOT_LOADER_PDPT) as (_ & _ & E1), (flagged_next nb P Hnb BOOT_LOADER_PD) as (_ & _ & E2).
  destruct (flagged_next nb P Hnb BOOT_LOADER_PT) as (_ & _ & E3), (flagged_next nb P Hnb BOOT_KERNEL_PDPT) as (_ & _ & E4).
  destruct (flagged_next nb P Hnb BOOT_KERNEL_PD) as (_ & _ & E5).
  rewrite !(He BOOT_PML4) by lia. cbn [content Z.eqb Pos.eqb]. rewrite E1, E4.
  rewrite (He BOOT_LOADER_PDPT), (He BOOT_KERNEL_PDPT) by lia. cbn [content Z.eqb Pos.eqb]. rewrite E2, E5.
  rewrite (He BOOT_LOADER_PD) by lia. cbn [content Z.eqb Pos.eqb]. by rewrite E3.
Qed.
End account.

(** C35: no frame the kernel hands out is memory it was booted into. From the
    tables the loader leaves, the kernel finds its own, and takes for the first
    free address the end of its boot stack: every address mapped at that point
    is below it. When the regions of memory that start above it start on a page
    boundary, every frame [alloc_frame] returns, after any use of the allocator
    from there on, is above every address mapped at that point and is not in
    use. *)
Theorem first_frame_above_boot stub len ptr n disk s :
  prepared stub len s ->
  wp (enable_64bit_mode addr gdt stub len ptr n disk) s (fun _ s' => forall ms rs,
    ram ms = memory s' -> linked_free_address ms = None ->
    let first := kernel_stack_start (page_count (kernel_blocks (memory s))) + SIZE_2M in
    let ms' := memory_init (cr3 s') rs ms in
    PML4 ms' = Some (addr BOOT_PML4) /\ LOADER_PT ms' = Some (addr BOOT_LOADER_PT) /\
    KERNEL_PD ms' = Some (addr BOOT_KERNEL_PD) /\ first_alloc_address ms' = Some first /\
    (forall v p, canonical v -> translate (memory s') (cr3 s') v = Some p -> 0 < p < first) /\
    (regions_ok first rs -> forall st used, frames_reached ms' st used ->
      wp (alloc_frame (E:=Empty_set)) st (fun r _ => forall a, r = Some a ->
        a ∉ used /\ in_region (MEMORY_REGION st) a /\ first <= a /\
        forall v p, canonical v -> translate (memory s') (cr3 s') v = Some p -> p < a))).
Proof.
  intros Pr. eapply wp_mono; [by apply (enable_64bit_mode_ok stub len ptr n disk s)|].
  intros j s' [_ [Hmap [Hcr He] _ _ _ _ _ _]] ms rs Hram Hfree. cbn zeta.
  pose proof (u32_nonneg s (0x7C00 + 446 + 12 + 16) (pr_bytes _ _ _ Pr) ltac:(lia)) as HK0.
  fold (kernel_blocks (memory s)) in HK0. pose proof (pr_kernel _ _ _ Pr) as Hk. pose proof (pr_loader _ _ _ Pr) as Hl.
  set (k := page_count (kernel_blocks (memory s))) in *. assert (Hk0 : 0 <= k <= 510 * 512) by (unfold k, page_count, SIZE_4K in *; lia).
  set (nb := loader_blocks (memory s)) in *.
  unfold memory_init. rewrite Hcr. pose proof (pr_placed _ _ _ Pr) as P. fold nb in P.
  rewrite (page_init_tables nb P Hl (memory s') _ k) by done. unfold frames_init, get_kernel_used_memory.
  cbn [KERNEL_PD ram PML4 LOADER_PT first_alloc_address set_first].
  rewrite (used_entries nb P Hl _ _ _ He Hk0). rewrite nonzero_Some by (unfold large_pages; lia).
  rewrite Hcr in Hmap. set (first := kernel_stack_start k + SIZE_2M).
  replace (0x200000 * (large_pages k + 1) + 0x200000) with first
    by (unfold first, kernel_stack_start, kernel_binary_start, large_pages, SIZE_2M, SIZE_4K; lia).
  assert (Hbelow : forall v p, canonical v -> translate (memory s') (addr BOOT_PML4) v = Some p -> 0 < p < first).
  { intros v p Hv. rewrite Hmap by done. unfold first, boot_map, loader_page, kernel_stack_start, kernel_binary_start, KERNEL, KERNEL_STACK.
    unfold SIZE_2M, SIZE_4K. unfold canonical in Hv. clear Hmap He.
    repeat case_match; intros [= <-]; bool_to_prop; lia. }
  split_conj; try done. intros Hrs st used Hr.
  eapply wp_mono; [eapply (alloc_frame_reached _ first); [|exact Hr]|].
  - unfold booted. split_conj; [by eexists|done..| |]; unfold first, kernel_stack_start, kernel_binary_start, SIZE_2M, SIZE_4K; lia.
  - intros [a|] _; [|done]. intros (Ha & _ & Hlo & Hin) ? [= <-]. split_conj; try done.
    intros v p Hv Hp. specialize (Hbelow v p Hv Hp). lia.
Qed.

(** The assertion on the size of the kernel admits 512 large pages and the
    stack has the place of number 510: a kernel of more than 510 takes that
    place, and what the stub makes the stack is the kernel's own image. *)
Theorem large_kernel_takes_stack nb s :
  let k := page_count (kernel_blocks (memory s)) in
  placed nb -> page_count nb + 7 < 512 -> 0 <= nb -> loader_blocks (memory s) = nb ->
  510 * 512 < k < 512 * 512 -> entries (memory s) no_entries ->
  wp (setup_page_tables addr) s (fun _ s' => forall x, 0 <= x -> 510 * SIZE_2M + x < k * SIZE_4K ->
    translate (memory s') (cr3 s') (KERNEL_STACK + x) = Some (kernel_binary_start + (510 * SIZE_2M + x))).
Proof.
  intros k P Hn Hn0 Hl Hk He. eapply wp_mono; [apply (setup_page_tables_ok nb P Hn Hn0 s Hl); [fold k; lia|done]|].
  fold k. intros [] s' (s1 & [_ _ B] & ->) x Hx Hxk. cbn [memory set_cr3 loading cr3].
  unfold SIZE_2M, SIZE_4K, KERNEL_STACK in *.
  rewrite (translate_kernel nb P Hn (memory s1) (page_count nb) k) by (done || unfold KERNEL; lia).
  cbn zeta. unfold KERNEL, SIZE_4K. rewrite (proj2 (Z.ltb_lt _ _)) by lia. f_equal. lia.
Qed.
End tables.

(** ** A small loader and a kernel of three blocks *)
Module BootDemo.

Definition place (t : TableName) : Z :=
  match t with
  | BOOT_PML4 => 0x9000
  | BOOT_LOADER_PDPT => 0xA000
  | BOOT_LOADER_PD => 0xB000
  | BOOT_LOADER_PT => 0xC000
  | BOOT_KERNEL_PDPT => 0xD000
  | BOOT_KERNEL_PD => 0xE000
  | BOOT_KERNEL_PT => 0xF000
  end.

Definition image : Z -> Z :=
  store (store (store (store (fun _ => 0) (0x7C00 + 446 + 12) (to_le 4 64)) (0x7C00 + 446 + 12 + 16) (to_le 4 3))
    0x8100 (concat (to_le 8 <$> GDT))) 0x8200 [0xEA; 0; 0x20; 0; 0; 0x18; 0].

Definition disk : Drive.Drive :=
  Drive.mkDrive 0 0 0 0 0 false (Drive.Resting false) false (fun _ l => replicate 256 l) (fun _ => 100)
    (fun _ => replicate 256 0) (fun n => (n mod 3, Drive.Fine)%nat) 0 false.

Definition started : Boot := mkBoot (mkLoading disk image) 23 0x7C40 0x11 0 0 0.

Definition cpuid (leaf : Z) : Z * Z := if leaf =? 0x80000000 then (0x80000008, 0) else (0, 2 ^ 29).

Lemma image_bytes x : is_byte (image x).
Proof.
  unfold image. repeat apply LoadRun.store_byte; try done.
  all: try apply to_le_bytes; repeat constructor; done.
Qed.

Lemma disk_ready : ready 4 disk.
Proof.
  split; [done|split; intros; done|]. intros n. exists (n mod 3)%nat. split; [done|].
  pose proof (Nat.mod_upper_bound n 3). lia.
Qed.

Lemma image_placed : placed place 0x8100 64.
Proof.
  split; [by intros []|intros []; unfold place; lia| |lia|intros []; unfold place; lia].
  intros [] [] H; try done; unfold place; lia.
Qed.

Lemma image_zero t x : place t <= x < place t + 0x1000 -> image x = 0.
Proof.
  intros Hx. assert (H72 : length (concat (to_le 8 <$> GDT)) = 72%nat) by done.
  assert (0x9000 <= x < 0x10000) by (destruct t; unfold place in Hx; lia).
  unfold image. rewrite !store_out; [done|..]; rewrite ?H72, ?length_to_le; cbn [length]; lia.
Qed.

Lemma image_descriptors i e : GDT !! i = Some e -> word image (0x8100 + 8 * Z.of_nat i) = e.
Proof. intros Hi. do 9 (destruct i as [|i]; [injection Hi as <-; by vm_compute|]). done. Qed.

Lemma started_prepared : prepared place 0x8100 0x8200 7 started.
Proof.
  split.
  - intros x _. apply image_bytes.
  - exact image_placed.
  - by vm_compute.
  - by vm_compute.
  - exact image_zero.
  - exact image_descriptors.
  - done.
  - by vm_compute.
  - intros []; unfold place; lia.
  - lia.
Qed.

Lemma started_bootable : bootable place 0x8100 cpuid 4 0x8200 7 0x7000 0x80 started.
Proof.
  split; [exact started_prepared|exact image_bytes|by vm_compute|lia|exact disk_ready|by vm_compute|done].
Qed.


Lemma _start_hands_over_witness :
  exists n, forall fuel, (n <= fuel)%nat ->
  wp (_start place 0x8100 BootRun.sort_regions id cpuid fuel 512 0x8200 7 0x7000 0x1000 4 0x80) started (fun j _ => eip j = STUB_ASM_PTR).
Proof.
  destruct (_start_hands_over place 0x8100 BootRun.sort_regions cpuid BootRun.sort_regions_perm BootRun.sort_regions_sorted
    4 0x8200 7 0x7000 0x1000 4 0x80 id started started_bootable) as (n & H); [|lia..|reflexivity|].
  - apply Forall_fmap, Forall_forall. intros i Hi%elem_of_seqZ.
    assert (i = 0 \/ i = 1 \/ i = 2 \/ i = 3) as [->|[->|[->| ->]]] by lia; by vm_compute.
  - exists n. intros fuel Hf. eapply wp_mono; [exact (H fuel Hf)|]. by intros j s' (l & s1 & _ & -> & _).
Defined.

Lemma regions_good :
  regions_ok (kernel_stack_start (page_count (kernel_blocks (memory started))) + SIZE_2M)
    [mkMemoryRegion 0 0x9fc00 1; mkMemoryRegion 0x100000 0x700000 1].
Proof.
  replace (kernel_stack_start _ + SIZE_2M) with 0x600000 by (by vm_compute).
  split; [|repeat constructor; vm_compute; discriminate].
  repeat constructor; unfold region_end; cbn; try lia; try (intros H; vm_compute in H; discriminate H).
Qed.

Lemma first_frame_above_boot_witness :
  wp (enable_64bit_mode place 0x8100 0x8200 7 0x1000 4 0x80) started (fun _ s' => forall ms, ram ms = memory s' ->
    linked_free_address ms = None ->
    wp (alloc_frame (E:=Empty_set)) (memory_init (cr3 s') [mkMemoryRegion 0 0x9fc00 1; mkMemoryRegion 0x100000 0x700000 1] ms)
      (fun r _ => forall a, r = Some a -> 0x600000 <= a)).
Proof.
  eapply wp_mono; [apply (first_frame_above_boot place 0x8100 0x8200 7 0x1000 4 0x80 started started_prepared)|].
  intros j s' H ms Hram Hfree.
  destruct (H ms [mkMemoryRegion 0 0x9fc00 1; mkMemoryRegion 0x100000 0x700000 1] Hram Hfree) as (_ & _ & _ & _ & _ & Ha).
  eapply wp_mono; [apply (Ha regions_good _ ∅); constructor|].
  intros r s1 Hr a Hra. destruct (Hr a Hra) as (_ & _ & Hlo & _). exact Hlo.
Defined.

End BootDemo.
