(* ===== verification/VgaText.v ===== *)
(** * The text screen of the kernel (kernel/src/display/vga_text.rs, panicking.rs)

    [VgaTextWriter] over the cells of the text mode and the registers of the
    cursor, and the two screens of a panic. To whoever prints, the screen is a
    document that grows at its end: lines that are done and the line with the
    cursor. The writer shows the last lines of it, whatever bytes are written. *)
From Stdlib Require Import String.
From S2P Require Import Prelude.

Definition WIDTH : nat := 80.
Definition HEIGHT : nat := 25.
Definition DEFAULT_STYLE : Z := 0x07.
Definition TAB_SIZE : nat := 2.

(** The cells, and the registers of the display controller. *)
Record Display : Type := mkDisplay { cells : list Z; crtc_index : Z; crtc : Z -> Z }.

Record VgaTextWriter : Type := mkWriter { display : Display; cursor : Z * Z; style : Z }.

Definition set_display (d : Display) (w : VgaTextWriter) : VgaTextWriter := mkWriter d (cursor w) (style w).
Definition set_pos (row col : Z) (w : VgaTextWriter) : VgaTextWriter := mkWriter (display w) (row, col) (style w).
Definition set_cells (l : list Z) (d : Display) : Display := mkDisplay l (crtc_index d) (crtc d).
Definition buffer (w : VgaTextWriter) : list Z := cells (display w).
Definition set_buffer (l : list Z) (w : VgaTextWriter) : VgaTextWriter := set_display (set_cells l (display w)) w.

Definition outb (port v : Z) (d : Display) : Display :=
  if port =? 0x3D4 then mkDisplay (cells d) v (crtc d)
  else if port =? 0x3D5 then mkDisplay (cells d) (crtc_index d) (fun i => if i =? crtc_index d then v else crtc d i)
  else d.

Definition hw_set_cursor (row col : Z) (d : Display) : Display :=
  let pos := wrap 16 (row * Z.of_nat WIDTH + col) in
  outb 0x3D5 (Z.shiftr pos 8) (outb 0x3D4 0x0E (outb 0x3D5 (Z.land pos 0xFF) (outb 0x3D4 0x0F d))).

Definition char_with_style (style char : Z) : Z := Z.lor (Z.shiftl style 8) char.

(** [VgaTextWriter::with_style]; [new] is the same with the default style. *)
Definition with_style (st : Z) (d : Display) : VgaTextWriter :=
  let d := set_cells (replicate (WIDTH * HEIGHT) (char_with_style st 32)) d in
  mkWriter (hw_set_cursor 0 0 d) (0, 0) st.
Definition new (d : Display) : VgaTextWriter := with_style DEFAULT_STYLE d.

Section writer.
  Context {E : Type}.
  Notation IO := (M VgaTextWriter E).

Definition set_cursor (row col : Z) : IO unit :=
  rust_assert (row <? Z.of_nat HEIGHT);;
  rust_assert (col <? Z.of_nat WIDTH);;
  modify (fun w => set_display (hw_set_cursor row col (display w)) (set_pos row col w)).

Definition write_char (char : Z) : IO unit :=
  w ← gets id;
  let i := (cursor w).1 * Z.of_nat WIDTH + (cursor w).2 in
  rust_assert (i <? Z.of_nat (length (buffer w)));;
  modify (set_buffer (<[Z.to_nat i := char_with_style (style w) char]> (buffer w))).

(** [ptr::copy] moves the rows up by one and [fill] clears the last. *)
Definition check_height_overflow : IO unit :=
  w ← gets id;
  if Z.of_nat HEIGHT <=? (cursor w).1 then
    let kept := (WIDTH * (HEIGHT - 1))%nat in
    let moved := take kept (drop WIDTH (buffer w)) ++ drop kept (buffer w) in
    modify (set_buffer (take kept moved ++ replicate (length moved - kept) (char_with_style (style w) 32)));;
    row ← checked 8 ((cursor w).1 - 1);
    modify (set_pos row ((cursor w).2))
  else mret tt.

Definition check_width_overflow : IO unit :=
  w ← gets id;
  if Z.of_nat WIDTH <=? (cursor w).2 then
    row ← checked 8 ((cursor w).1 + 1);
    modify (set_pos row 0);;
    check_height_overflow
  else mret tt.

(** A character and the step behind it. *)
Definition put (char : Z) : IO unit :=
  write_char char;;
  w ← gets id;
  col ← checked 8 ((cursor w).2 + 1);
  modify (set_pos ((cursor w).1) col);;
  check_width_overflow.

Definition write_byte (byte : Z) : IO unit :=
  w ← gets id;
  if byte =? 13 then modify (set_pos ((cursor w).1) 0)
  else if byte =? 10 then
    row ← checked 8 ((cursor w).1 + 1);
    modify (set_pos row 0);;
    check_height_overflow
  else if byte =? 8 then modify (set_pos ((cursor w).1) (Z.max 0 ((cursor w).2 - 1)))
  else if byte =? 9 then for_range 0 TAB_SIZE (fun _ _ => put 32) tt
  else if (0x20 <=? byte) && (byte <=? 0x7E) then put byte
  else put 46.

Definition write_bytes (bytes : list Z) : IO unit :=
  for_each bytes (fun b _ => write_byte b) tt;;
  modify (fun w => set_display (hw_set_cursor ((cursor w).1) ((cursor w).2) (display w)) w).

(** The writer of the kernel, which is there after [init]. *)
Definition init (d : Display) (writer : option VgaTextWriter) : option VgaTextWriter :=
  match writer with Some w => Some w | None => Some (new d) end.

Definition _kprint (bytes : list Z) : M (option VgaTextWriter) E unit := fun writer =>
  match writer with
  | Some w => let '(r, w) := write_bytes bytes w in (r, Some w)
  | None => (Panic, None)
  end.

End writer.

(** ** The document *)

Record Doc : Type := mkDoc { done : list (list Z); line : list Z; col : nat }.

Section doc.
  Context (st : Z).

Definition blank : list Z := replicate WIDTH (char_with_style st 32).
Definition empty_doc : Doc := mkDoc [] blank 0.

Definition end_line (d : Doc) : Doc := mkDoc (done d ++ [line d]) blank 0.

Definition add_char (c : Z) (d : Doc) : Doc :=
  let l := <[col d := char_with_style st c]> (line d) in
  if decide (S (col d) = WIDTH) then end_line (mkDoc (done d) l (col d)) else mkDoc (done d) l (S (col d)).

Definition add_byte (d : Doc) (b : Z) : Doc :=
  if b =? 13 then mkDoc (done d) (line d) 0
  else if b =? 10 then end_line d
  else if b =? 8 then mkDoc (done d) (line d) (col d - 1)
  else if b =? 9 then add_char 32 (add_char 32 d)
  else if (0x20 <=? b) && (b <=? 0x7E) then add_char b d
  else add_char 46 d.

(** The last lines that are done, the line with the cursor, and nothing. *)
Definition screen (d : Doc) : list (list Z) :=
  drop (length (done d) - 24) (done d) ++ line d :: replicate (24 - length (done d)) blank.

Record doc_ok (d : Doc) : Prop := {
  dk_done : Forall (fun l => length l = WIDTH) (done d);
  dk_line : length (line d) = WIDTH;
  dk_col : (col d < WIDTH)%nat
}.

(** The writer shows the document. *)
Record shows (w : VgaTextWriter) (d : Doc) : Prop := {
  sh_ok : doc_ok d;
  sh_buffer : buffer w = concat (screen d);
  sh_cursor : cursor w = (Z.of_nat (length (done d) `min` 24), Z.of_nat (col d));
  sh_style : style w = st
}.

Lemma length_rows (ls : list (list Z)) : Forall (fun l => length l = WIDTH) ls -> length (concat ls) = (WIDTH * length ls)%nat.
Proof. induction 1 as [|l ls Hl _ IH]; [done|]. cbn [concat length]. rewrite length_app, IH, Hl. lia. Qed.

Lemma end_line_ok d : doc_ok d -> doc_ok (end_line d).
Proof.
  intros [H1 H2 H3]. split; cbn [end_line done line col]; [|apply length_replicate|unfold WIDTH; lia].
  apply Forall_app. split; [done|]. by repeat constructor.
Qed.

(** A line that ends: the screen stays or moves up by a row. *)
Lemma screen_end_line d :
  doc_ok d -> screen (end_line d) = if decide (length (done d) < 24)%nat then screen d else drop 1 (screen d) ++ [blank].
Proof.
  intros _. unfold screen, end_line. cbn [done line]. rewrite length_app. cbn [length].
  case_decide as Hd.
  - replace (length (done d) + 1 - 24)%nat with 0%nat by lia. replace (length (done d) - 24)%nat with 0%nat by lia.
    replace (24 - length (done d))%nat with (S (24 - (length (done d) + 1))) by lia.
    rewrite !drop_0. cbn [replicate]. by rewrite <-app_assoc.
  - replace (24 - (length (done d) + 1))%nat with 0%nat by lia. replace (24 - length (done d))%nat with 0%nat by lia.
    cbn [replicate]. replace (length (done d) + 1 - 24)%nat with (length (done d) - 24 + 1)%nat by lia.
    rewrite <-drop_drop, drop_app_le by lia. done.
Qed.

Lemma rows_kept d : doc_ok d -> Forall (fun l => length l = WIDTH) (screen d) /\ length (screen d) = HEIGHT.
Proof.
  intros [H1 H2 _]. unfold screen. split.
  - apply Forall_app. split; [by apply Forall_drop|]. constructor; [done|]. apply Forall_replicate. unfold blank. by rewrite length_replicate.
  - rewrite length_app, length_drop. cbn [length]. rewrite length_replicate. unfold HEIGHT. lia.
Qed.

Section steps.
  Context {E : Type}.
  Implicit Types (Q : unit -> VgaTextWriter -> Prop).

(** The row behind the last line. *)
Lemma height_spec w d Q :
  doc_ok d -> buffer w = concat (screen d) -> style w = st -> cursor w = (Z.of_nat (length (done d) `min` 24) + 1, 0) ->
  (forall w', shows w' (end_line d) -> Q tt w') -> wp (E:=E) check_height_overflow w Q.
Proof.
  intros Hok Hb Hst Hc HQ. pose proof (screen_end_line d Hok) as Hs. destruct (rows_kept d Hok) as [Hr Hl].
  unfold check_height_overflow. wp_step. wp_step. cbn [id]. rewrite Hc. cbn [fst snd].
  destruct (decide (length (done d) < 24)%nat) as [Hd|Hd].
  - rewrite (proj2 (Z.leb_gt _ _)) by (unfold HEIGHT; lia). wp_step. apply HQ. split; [by apply end_line_ok| | |done].
    + by rewrite Hs.
    + rewrite Hc. cbn. rewrite length_app. cbn. f_equal; lia.
  - rewrite (proj2 (Z.leb_le _ _)) by (unfold HEIGHT; lia). cbv zeta. rewrite Hb, Hst. wp_step. wp_step. wp_step. apply wp_checked; [lia|]. wp_step.
    apply HQ. split; [by apply end_line_ok| | |done].
    + rewrite Hs. unfold buffer, set_buffer, set_pos. cbn [display set_display cells set_cells].
      destruct (screen d) as [|l ls]; [done|]. inversion Hr as [|? ? Hl0 Hls]; subst. cbn in Hl. injection Hl as Hl.
      pose proof (length_rows ls Hls) as Hlen. cbn [concat drop]. rewrite drop_app_length' by done.
      assert (length (concat ls) = (WIDTH * (HEIGHT - 1))%nat) as Hk by (rewrite Hlen; unfold HEIGHT; lia).
      rewrite (take_ge (concat ls)) by lia. rewrite take_app_length' by done. rewrite concat_app. cbn [concat]. rewrite app_nil_r. f_equal.
      rewrite length_app, length_drop, length_app, Hk, Hl0. unfold blank. by f_equal.
    + cbn. rewrite length_app. cbn. f_equal; lia.
Qed.

(** A character. *)
Lemma put_spec w d c Q : shows w d -> (forall w', shows w' (add_char c d) -> Q tt w') -> wp (E:=E) (put c) w Q.
Proof.
  intros [Hok Hb Hc Hst] HQ. pose proof Hok as [H1 H2 H3]. destruct (rows_kept d Hok) as [Hr Hl].
  pose proof (length_rows _ Hr) as Hlen. set (l' := <[col d := char_with_style st c]> (line d)).
  set (d' := mkDoc (done d) l' (col d)).
  assert (Hok' : doc_ok d') by (split; cbn; [done|by unfold l'; rewrite length_insert|done]).
  assert (Hb' : <[Z.to_nat ((cursor w).1 * Z.of_nat WIDTH + (cursor w).2) := char_with_style st c]> (buffer w) = concat (screen d')).
  { rewrite Hb, Hc. unfold screen. cbn [fst snd]. rewrite !concat_app. cbn [concat].
    pose proof (length_rows (drop (length (done d) - 24) (done d)) ltac:(by apply Forall_drop)) as Hp. rewrite length_drop in Hp.
    replace (Z.to_nat _) with (length (concat (drop (length (done d) - 24) (done d))) + col d)%nat by (rewrite Hp; unfold WIDTH; lia).
    rewrite insert_app_r, insert_app_l by lia. done. }
  unfold put, write_char. wp_step. wp_step. wp_step. cbn [id]. wp_step. apply wp_assert.
  { apply Z.ltb_lt. rewrite Hb, Hlen, Hl, Hc. unfold WIDTH, HEIGHT in *. cbn. lia. }
  wp_step. rewrite Hst, Hb'. wp_step. wp_step. wp_step.
  cbn [id cursor set_buffer set_display]. rewrite Hc. cbn [fst snd].
  apply wp_checked; [unfold WIDTH in *; lia|]. wp_step. wp_step. unfold check_width_overflow. wp_step. wp_step. cbn [id cursor set_pos fst snd].
  unfold add_char in HQ. fold l' d' in HQ. case_decide as Hd.
  - rewrite (proj2 (Z.leb_le _ _)) by lia. wp_step. apply wp_checked; [lia|]. wp_step. wp_step.
    eapply (height_spec _ d'); [done|done|done|done|done].
  - rewrite (proj2 (Z.leb_gt _ _)) by lia. wp_step. apply HQ. split; [|done| |done].
    + split; cbn; [done|by unfold l'; rewrite length_insert|lia].
    + cbn. f_equal. lia.
Qed.

Lemma byte_spec w d b Q : shows w d -> (forall w', shows w' (add_byte d b) -> Q tt w') -> wp (E:=E) (write_byte b) w Q.
Proof.
  intros Hw HQ. pose proof Hw as [Hok Hb Hc Hst]. pose proof Hok as [H1 H2 H3]. unfold write_byte, add_byte in *. wp_step. wp_step. cbn [id].
  destruct (b =? 13).
  { wp_step. apply HQ. split; [split; [done|done|unfold WIDTH; cbn; lia]|done|by cbn; rewrite Hc|done]. }
  destruct (b =? 10).
  { wp_step. rewrite Hc. cbn [fst snd]. apply wp_checked; [lia|]. wp_step. wp_step. eapply (height_spec _ d); try done. }
  destruct (b =? 8).
  { wp_step. apply HQ. split; [split; [done|done|cbn; lia]|done| |done]. cbn. rewrite Hc. cbn. f_equal. lia. }
  destruct (b =? 9).
  { unfold TAB_SIZE. cbn [for_range]. wp_step. eapply put_spec; [done|]. intros w1 Hw1. wp_step. eapply put_spec; [done|].
    intros w2 Hw2. wp_step. by apply HQ. }
  destruct (_ && _); by eapply put_spec.
Qed.

(** The position of the cursor as the display controller has it. *)
Definition hw_cursor (d : Display) : Z := 256 * crtc d 0x0E + crtc d 0x0F.

Lemma hw_set_cursor_pos row column d : 0 <= row <= 24 -> 0 <= column < 80 -> hw_cursor (hw_set_cursor row column d) = row * 80 + column.
Proof.
  intros Hr Hc. unfold hw_cursor, hw_set_cursor, wrap. rewrite Z.mod_small by (unfold WIDTH; lia).
  set (pos := row * Z.of_nat WIDTH + column). unfold outb. cbn [Z.eqb Pos.eqb crtc crtc_index cells].
  rewrite Z.shiftr_div_pow2 by lia. change 255 with (Z.ones 8). rewrite Z.land_ones by lia. subst pos. unfold WIDTH. lia.
Qed.

Lemma write_bytes_spec w d bytes Q :
  shows w d -> (forall w', shows w' (foldl add_byte d bytes) ->
    hw_cursor (display w') = (cursor w').1 * 80 + (cursor w').2 -> Q tt w') -> wp (E:=E) (write_bytes bytes) w Q.
Proof.
  intros Hw HQ. unfold write_bytes. wp_step.
  assert (Hl : forall bs w d Q, shows w d -> (forall w', shows w' (foldl add_byte d bs) -> Q tt w') ->
    wp (E:=E) (for_each bs (fun b _ => write_byte b) tt) w Q).
  { clear. induction bs as [|b bs IH]; intros w d Q Hw HQ; cbn [for_each foldl] in *; [wp_step; by apply HQ|].
    wp_step. eapply byte_spec; [done|]. intros w' Hw'. by eapply IH. }
  eapply Hl; [done|]. intros w' [Hok Hb Hc Hst]. wp_step. apply HQ; [by split|]. cbn [display set_display cursor].
  pose proof (dk_col _ Hok) as Hcol. rewrite Hc. cbn [fst snd]. apply hw_set_cursor_pos; unfold WIDTH in *; lia.
Qed.

End steps.
End doc.

(** A new writer shows the empty document. *)
Lemma with_style_shows st d : shows st (with_style st d) (empty_doc st).
Proof.
  split; [split; [done|apply length_replicate|unfold WIDTH; cbn; lia]| |done|done].
  unfold screen. cbn [done line empty_doc length drop app Nat.sub]. change (buffer (with_style st d)) with (replicate (WIDTH * HEIGHT) (char_with_style st 32)).
  reflexivity.
Qed.

(** C40: The screen shows the end of what has been printed. Writing any bytes
    to a [VgaTextWriter] that shows a document ends without a panic and without
    a store outside the cells, and the writer then shows the document with the
    bytes added: its last 25 lines, each of 80 cells, with the cursor of the
    display on the cell behind the last character. Lines wrap at the border,
    a carriage return and a backspace go back within the line, a tab is two
    spaces, and what is not printable is a dot. *)
Theorem vga_text_refines {E} st w d bytes :
  shows st w d ->
  wp (E:=E) (write_bytes bytes) w (fun _ w' => shows st w' (foldl (add_byte st) d bytes) /\
    hw_cursor (display w') = (cursor w').1 * 80 + (cursor w').2).
Proof. intros Hw. by eapply write_bytes_spec. Qed.

Definition dark : Display := mkDisplay [] 0 (fun _ => 0).

Lemma vga_text_refines_witness :
  wp (E:=Empty_set) (write_bytes (ascii_bytes "COS"%string ++ [10])) (new dark) (fun _ w' =>
    shows DEFAULT_STYLE w' (mkDoc [map (char_with_style DEFAULT_STYLE) (ascii_bytes "COS"%string) ++ replicate 77 0x0720] (blank DEFAULT_STYLE) 0) /\
    hw_cursor (display w') = (cursor w').1 * 80 + (cursor w').2).
Proof.
  exact (vga_text_refines DEFAULT_STYLE (new dark) (empty_doc DEFAULT_STYLE) (ascii_bytes "COS"%string ++ [10]) (with_style_shows _ dark)).
Defined.

(** ** A panic of the kernel (panicking.rs) *)

Section panicking.

(** What [PanicInfo] has: where, and the message. *)
Record PanicInfo : Type := mkPanicInfo { location : option (list Z * Z * Z); message : list Z }.

(** The processor's interrupt flag, the count, the display, and what has been
    sent to the keyboard controller. *)
Record Panicking : Type := mkPanicking { interrupts : bool; PANIC_COUNT : Z; panic_display : Display; controller : list Z }.

Notation IO := (M VgaTextWriter Empty_set).

(** [writeln!] of a line that is formatted already. *)
Definition writeln (l : list Z) : IO unit := write_bytes (l ++ [10]).
Definition writeln_str (l : string) : IO unit := writeln (ascii_bytes l).

(** A [u32] with [{}]. *)
Fixpoint digits (fuel : nat) (n : Z) : list Z :=
  match fuel with
  | O => []
  | S fuel => (if n <? 10 then [] else digits fuel (n / 10)) ++ [48 + n `mod` 10]
  end.
Definition decimal (n : Z) : list Z := digits 10 n.

Definition bluescreen_print_header : IO unit :=
  writeln_str "A PROBLEM HAS BEEN DETECTED AND COS HAS BEEN SHUT DOWN TO PREVENT DAMAGE TO YOUR COMPUTER.";;
  writeln_str "";;
  writeln_str "The system encountered a fatal condition from which it cannot recover.";;
  writeln_str "";;
  writeln_str "If this is the first time you have seen this Stop error screen, restart your system. If this screen appears again, follow these steps:";;
  writeln_str "";;
  writeln_str "* If problems continue, disable or remove any newly installed components.";;
  writeln_str "* Contact your system administrator or kernel developer for assistance.";;
  writeln_str "".

Definition print_location (info : PanicInfo) : IO unit :=
  match location info with
  | Some (file, line, column) =>
      writeln (ascii_bytes "*** FILE: " ++ file);;
      writeln (ascii_bytes "*** LINE: " ++ decimal line ++ ascii_bytes " COLUMN: " ++ decimal column)
  | None => mret tt
  end.

Definition auto_dump_and_print_blue_screen (info : PanicInfo) : IO unit :=
  bluescreen_print_header;;
  writeln_str "Technical information:";;
  writeln_str "";;
  print_location info;;
  writeln (ascii_bytes "*** MESSAGE: " ++ message info);;
  writeln_str "";;
  writeln_str "The system has been halted.";;
  writeln_str "";;
  writeln_str "STOP: 0x0000007E (KERNEL_PANIC)";;
  writeln_str "".

Definition print_static_blue_screen : IO unit :=
  bluescreen_print_header;;
  writeln_str "Technical information:";;
  writeln_str "";;
  writeln_str "*** MESSAGE: DOUBLE PANIC DETECTED";;
  writeln_str "";;
  writeln_str "The system has been halted.";;
  writeln_str "";;
  writeln_str "STOP: 0x0000007F (KERNEL_DOUBLE_PANIC)";;
  writeln_str "".

Definition on_new_writer (prog : IO unit) (s : Panicking) : outcome Empty_set unit * Panicking :=
  let '(r, w) := prog (with_style 0x1f (panic_display s)) in
  (r, mkPanicking (interrupts s) (PANIC_COUNT s) (display w) (controller s)).

Definition restart_emergency (s : Panicking) : Panicking :=
  mkPanicking (interrupts s) (PANIC_COUNT s) (panic_display s) (controller s ++ replicate 5 0xFE).

(** [panic_entry] up to the loop with [hlt] at its end. *)
Definition panic_entry (info : PanicInfo) (s : Panicking) : outcome Empty_set unit * Panicking :=
  let count := PANIC_COUNT s in
  let s := mkPanicking false (wrap 32 (count + 1)) (panic_display s) (controller s) in
  if count =? 0 then on_new_writer (auto_dump_and_print_blue_screen info) s
  else if count =? 1 then on_new_writer print_static_blue_screen s
  else (Ok tt, restart_emergency s).

(** What the screen says. *)
Definition header_text : list Z :=
  mjoin (fmap (fun l => ascii_bytes l ++ [10])
    ["A PROBLEM HAS BEEN DETECTED AND COS HAS BEEN SHUT DOWN TO PREVENT DAMAGE TO YOUR COMPUTER."; "";
     "The system encountered a fatal condition from which it cannot recover."; "";
     "If this is the first time you have seen this Stop error screen, restart your system. If this screen appears again, follow these steps:"; "";
     "* If problems continue, disable or remove any newly installed components.";
     "* Contact your system administrator or kernel developer for assistance."; "";
     "Technical information:"; ""]%string).

Definition panic_text (info : PanicInfo) : list Z :=
  header_text ++
  match location info with
  | Some (file, line, column) =>
      ascii_bytes "*** FILE: " ++ file ++ [10] ++
      ascii_bytes "*** LINE: " ++ decimal line ++ ascii_bytes " COLUMN: " ++ decimal column ++ [10]
  | None => []
  end ++
  ascii_bytes "*** MESSAGE: " ++ message info ++ [10; 10] ++
  ascii_bytes "The system has been halted." ++ [10; 10] ++ ascii_bytes "STOP: 0x0000007E (KERNEL_PANIC)" ++ [10; 10].

Definition double_panic_text : list Z :=
  header_text ++ ascii_bytes "*** MESSAGE: DOUBLE PANIC DETECTED" ++ [10; 10] ++
  ascii_bytes "The system has been halted." ++ [10; 10] ++ ascii_bytes "STOP: 0x0000007F (KERNEL_DOUBLE_PANIC)" ++ [10; 10].

(** [prog] prints [text]. *)
Definition prints (prog : IO unit) (text : list Z) : Prop :=
  forall st w d Q, shows st w d -> (forall w', shows st w' (foldl (add_byte st) d text) -> Q tt w') -> wp prog w Q.

Lemma prints_writeln l : prints (writeln l) (l ++ [10]).
Proof. intros st w d Q Hw HQ. eapply write_bytes_spec; [done|]. intros w' Hw' _. by apply HQ. Qed.

Lemma prints_seq p q t u : prints p t -> prints q u -> prints (p;; q) (t ++ u).
Proof.
  intros Hp Hq st w d Q Hw HQ. wp_step. eapply Hp; [done|]. intros w' Hw'. eapply Hq; [done|]. intros w2 Hw2.
  apply HQ. by rewrite foldl_app.
Qed.

Lemma prints_none : prints (mret tt) [].
Proof. intros st w d Q Hw HQ. wp_step. by apply HQ. Qed.

Lemma prints_str l : prints (writeln_str l) (ascii_bytes l ++ [10]).
Proof. apply prints_writeln. Qed.

Lemma prints_as p t u : prints p t -> t = u -> prints p u.
Proof. by intros H <-. Qed.

Ltac print_step := first [apply prints_str | apply prints_writeln | apply prints_seq].

Lemma header_prints :
  prints ((bluescreen_print_header;; writeln_str "Technical information:");; writeln_str "") header_text.
Proof. unfold bluescreen_print_header. eapply prints_as; [repeat print_step|]. reflexivity. Qed.

Lemma location_prints info :
  prints (print_location info)
    (match location info with
     | Some (file, line, column) =>
         ascii_bytes "*** FILE: " ++ file ++ [10] ++
         ascii_bytes "*** LINE: " ++ decimal line ++ ascii_bytes " COLUMN: " ++ decimal column ++ [10]
     | None => []
     end).
Proof.
  unfold print_location. destruct (location info) as [[[file line] column]|]; [|apply prints_none].
  eapply prints_as; [repeat print_step|]. by rewrite <-!app_assoc.
Qed.

Lemma prints_assoc {A B} (p : IO A) (q : A -> IO B) (r : B -> IO unit) t :
  prints ((p ≫= q) ≫= r) t -> prints (p ≫= fun a => q a ≫= r) t.
Proof. intros H st w d Q Hw HQ. specialize (H st w d Q Hw HQ). unfold wp, mbind, M_bind in *. by destruct (p w) as [[]]. Qed.

Lemma blue_screen_prints info : prints (auto_dump_and_print_blue_screen info) (panic_text info).
Proof.
  unfold auto_dump_and_print_blue_screen. apply prints_assoc, prints_assoc. unfold panic_text.
  apply prints_seq; [exact header_prints|]. apply prints_seq; [apply location_prints|].
  eapply prints_as; [repeat print_step|]. by rewrite <-!app_assoc.
Qed.

Lemma static_screen_prints : prints print_static_blue_screen double_panic_text.
Proof.
  unfold print_static_blue_screen. apply prints_assoc, prints_assoc. unfold double_panic_text.
  apply prints_seq; [exact header_prints|]. eapply prints_as; [repeat print_step|]. by rewrite <-!app_assoc.
Qed.

#[local] Opaque auto_dump_and_print_blue_screen print_static_blue_screen panic_text double_panic_text.

(** A panic ends with interrupts off. The first shows where it was and why, on
    blue; one while this is shown shows a fixed text; any more reset the
    machine and do not touch the screen. *)
Theorem panic_entry_shows info s :
  0 <= PANIC_COUNT s < 2 ^ 32 - 1 ->
  wp (panic_entry info) s (fun _ s' => interrupts s' = false /\ PANIC_COUNT s' = PANIC_COUNT s + 1 /\
    if PANIC_COUNT s =? 0 then exists w, shows 0x1f w (foldl (add_byte 0x1f) (empty_doc 0x1f) (panic_text info)) /\ display w = panic_display s'
    else if PANIC_COUNT s =? 1 then exists w, shows 0x1f w (foldl (add_byte 0x1f) (empty_doc 0x1f) double_panic_text) /\ display w = panic_display s'
    else panic_display s' = panic_display s /\ controller s' = controller s ++ replicate 5 0xFE).
Proof.
  intros Hc. assert (wrap 32 (PANIC_COUNT s + 1) = PANIC_COUNT s + 1) as Hw by (unfold wrap; rewrite Z.mod_small; lia).
  assert (Hon : forall prog text s1, prints prog text -> wp (on_new_writer prog) s1 (fun _ s' =>
    interrupts s' = interrupts s1 /\ PANIC_COUNT s' = PANIC_COUNT s1 /\
    exists w, shows 0x1f w (foldl (add_byte 0x1f) (empty_doc 0x1f) text) /\ display w = panic_display s')).
  { intros prog text s1 Hp. specialize (Hp _ _ _ (fun _ w => shows 0x1f w (foldl (add_byte 0x1f) (empty_doc 0x1f) text))
      (with_style_shows 0x1f (panic_display s1)) (fun _ H => H)).
    unfold wp, on_new_writer in *. destruct (prog _) as [[[]|e| |] w]; try done. split_and!; [done|done|]. by exists w. }
  set (s1 := mkPanicking false (PANIC_COUNT s + 1) (panic_display s) (controller s)) in *.
  assert (Hsame : forall (m : M Panicking Empty_set unit) Q, panic_entry info s = m s1 -> wp m s1 Q -> wp (panic_entry info) s Q).
  { intros m Q Heq. unfold wp. by rewrite Heq. }
  destruct (Z.eqb_spec (PANIC_COUNT s) 0) as [H0|H0].
  { apply (Hsame (on_new_writer (auto_dump_and_print_blue_screen info))); [|apply (Hon _ _ s1 (blue_screen_prints info))].
    unfold panic_entry. cbv zeta. rewrite Hw, (proj2 (Z.eqb_eq _ _) H0). reflexivity. }
  destruct (Z.eqb_spec (PANIC_COUNT s) 1) as [H1|H1].
  { apply (Hsame (on_new_writer print_static_blue_screen)); [|apply (Hon _ _ s1 static_screen_prints)].
    unfold panic_entry. cbv zeta. rewrite Hw, (proj2 (Z.eqb_eq _ _) H1), (proj2 (Z.eqb_neq _ _) H0). reflexivity. }
  apply (Hsame (fun s => (Ok tt, restart_emergency s))); [|done]. unfold panic_entry. cbv zeta. rewrite Hw.
  by rewrite (proj2 (Z.eqb_neq _ _) H0), (proj2 (Z.eqb_neq _ _) H1).
Qed.
End panicking.
