(* ===== verification/Spin.v ===== *)
(** * Spin locks and the interrupt flag
      (kernel/src/sync/spin.rs, kernel/src/sync/int.rs, library/async_locks/src/spin.rs)

    Processors that run threads and interrupt handlers on shared spin locks. A
    step is one attempt of [try_lock], one drop of a guard or one change of the
    interrupt flag; [lock] repeats [try_lock] until it succeeds. A handler
    begins when the flag of its processor is set and runs on top of what it has
    interrupted. The gates of idt.rs leave the flag as it is ([Idt.v],
    [AsmSpec.v]), so that a handler can be interrupted in turn, to any depth;
    its return restores the flag that was set when it began. Which handlers the
    interrupt controller lets nest is not restricted here.

    No lock has two owners, and the warning of [SpinLock] is made precise: a
    handler whose locks are only taken with interrupts off, by handlers too,
    always returns. *)
From S2P Require Import Prelude.

(** Locks by number. *)
Inductive Op : Type :=
  | Lock (l : Z)             (* SpinLock::lock *)
  | TryLock (l : Z)          (* SpinLock::try_lock *)
  | Unlock (l : Z)           (* the drop of a SpinLockGuard *)
  | GuardCli | GuardSti      (* IrqGuard::cli, IrqGuard::sti *)
  | DropGuard                (* the drop of the IrqGuard that is youngest *)
  | Cli | Sti.               (* cli, sti *)

(** Code with the guards it owns: locks, and flags to restore. *)
Record Context : Type := mkContext { code : list Op; held : list Z; prev : list bool }.
Definition begin (ops : list Op) : Context := mkContext ops [] [].

Definition remove (l : Z) (ls : list Z) : list Z := filter (fun x => x <> l) ls.

(** [SpinLock::try_lock]: the compare-exchange on the word. *)
Definition try_lock (l : Z) (locked : gset Z) : option (gset Z) :=
  if decide (l ∈ locked) then None else Some ({[l]} ∪ locked).

Notation Effect := (option (Context * bool * gset Z)).

(** [SpinLock::lock]: one round of the loop. *)
Definition lock (l : Z) (ops : list Op) (c : Context) (flag : bool) (locked : gset Z) : Effect :=
  match try_lock l locked with
  | Some locked => Some (mkContext ops (l :: held c) (prev c), flag, locked)
  | None => Some (c, flag, locked)
  end.

Definition once (l : Z) (ops : list Op) (c : Context) (flag : bool) (locked : gset Z) : Effect :=
  match try_lock l locked with
  | Some locked => Some (mkContext ops (l :: held c) (prev c), flag, locked)
  | None => Some (mkContext ops (held c) (prev c), flag, locked)
  end.

(** [Drop for SpinLockGuard] *)
Definition drop_lock (l : Z) (ops : list Op) (c : Context) (flag : bool) (locked : gset Z) : Effect :=
  if decide (l ∈ held c) then Some (mkContext ops (remove l (held c)) (prev c), flag, locked ∖ {[l]}) else None.

(** [IrqGuard::cli], [IrqGuard::sti] and [Drop for IrqGuard] *)
Definition guard_flag (on : bool) (ops : list Op) (c : Context) (flag : bool) (locked : gset Z) : Effect :=
  Some (mkContext ops (held c) (flag :: prev c), on, locked).

Definition drop_guard (ops : list Op) (c : Context) (locked : gset Z) : Effect :=
  match prev c with
  | b :: p => Some (mkContext ops (held c) p, b, locked)
  | [] => None
  end.

(** One operation: the context, the interrupt flag and the lock words. [None]
    is code that does not exist: a guard is dropped by its owner, and before it
    returns. *)
Definition run_op (c : Context) (flag : bool) (locked : gset Z) : Effect :=
  match code c with
  | [] => None
  | op :: ops =>
      match op with
      | Lock l => lock l ops c flag locked
      | TryLock l => once l ops c flag locked
      | Unlock l => drop_lock l ops c flag locked
      | GuardCli => guard_flag false ops c flag locked
      | GuardSti => guard_flag true ops c flag locked
      | DropGuard => drop_guard ops c locked
      | Cli => Some (mkContext ops (held c) (prev c), false, locked)
      | Sti => Some (mkContext ops (held c) (prev c), true, locked)
      end
  end.

Ltac unfold_op := unfold run_op, lock, once, drop_lock, guard_flag, drop_guard, try_lock in *.

(** [irqs] are the handlers that have begun and not returned, the youngest
    first. *)
Record Cpu : Type := mkCpu { flag : bool; irqs : list Context; thread : Context }.
Record Smp : Type := mkSmp { cpus : list Cpu; locked : gset Z }.

Inductive Event : Type := Run (i : nat) | Interrupt (i : nat) (ops : list Op).

Definition run_cpu (c : Cpu) (locked : gset Z) : option (Cpu * gset Z) :=
  match irqs c with
  | h :: hs =>
      match code h with
      | [] => if decide (held h = []) then Some (mkCpu true hs (thread c), locked) else None
      | _ => '(h, f, locked) ← run_op h (flag c) locked; Some (mkCpu f (h :: hs) (thread c), locked)
      end
  | [] => '(t, f, locked) ← run_op (thread c) (flag c) locked; Some (mkCpu f [] t, locked)
  end.

Definition exec (e : Event) (s : Smp) : option Smp :=
  match e with
  | Run i =>
      c ← cpus s !! i;
      '(c, locked) ← run_cpu c (locked s);
      Some (mkSmp (<[i := c]> (cpus s)) locked)
  | Interrupt i ops =>
      c ← cpus s !! i;
      if flag c then Some (mkSmp (<[i := mkCpu (flag c) (begin ops :: irqs c) (thread c)]> (cpus s)) (locked s)) else None
  end.

(** Threads start with nothing; [handlers] is the code of the handlers. *)
Definition start (programs : list (bool * list Op)) : Smp :=
  mkSmp ((fun p => mkCpu p.1 [] (begin p.2)) <$> programs) ∅.

Inductive reachable (handlers : list (list Op)) (s0 : Smp) : Smp -> Prop :=
  | reachable_start : reachable handlers s0 s0
  | reachable_run i s s' : reachable handlers s0 s -> exec (Run i) s = Some s' -> reachable handlers s0 s'
  | reachable_irq i ops s s' :
      reachable handlers s0 s -> ops ∈ handlers -> exec (Interrupt i ops) s = Some s' -> reachable handlers s0 s'.

(** ** Mutual exclusion *)

Definition context_held (c : Cpu) : list Z := mjoin (held <$> irqs c) ++ held (thread c).
Definition owners (s : Smp) : list Z := mjoin (context_held <$> cpus s).

Lemma held_cons h hs (r : list Z) : mjoin (held <$> h :: hs) ++ r = held h ++ mjoin (held <$> hs) ++ r.
Proof. cbn. by rewrite <-app_assoc. Qed.

(** The lock words say which locks have an owner, and none has two. *)
Definition exclusive (s : Smp) : Prop := NoDup (owners s) /\ forall l, l ∈ owners s <-> l ∈ locked s.

Lemma remove_absent l ls : l ∉ ls -> remove l ls = ls.
Proof.
  induction ls as [|x ls IH]; [done|]. intros [Hne Hn]%not_elem_of_cons. unfold remove. rewrite filter_cons_True by auto.
  f_equal. by apply IH.
Qed.

Lemma remove_perm l ls : NoDup ls -> l ∈ ls -> ls ≡ₚ l :: remove l ls.
Proof.
  induction ls as [|x ls IH]; [by intros _ ?%elem_of_nil|]. intros [Hx Hn]%NoDup_cons Hl. unfold remove.
  destruct (decide (x = l)) as [->|Hne].
  - rewrite filter_cons_False by auto. constructor. change (ls ≡ₚ remove l ls). by rewrite remove_absent.
  - rewrite filter_cons_True by done. rewrite (IH Hn) at 1 by set_solver. apply Permutation_swap.
Qed.

(** What an operation does to the locks owned. *)
Lemma run_op_held c f ls c' f' ls' (rest : list Z) :
  run_op c f ls = Some (c', f', ls') -> NoDup (held c ++ rest) -> (forall l, l ∈ held c ++ rest <-> l ∈ ls) ->
  NoDup (held c' ++ rest) /\ forall l, l ∈ held c' ++ rest <-> l ∈ ls'.
Proof.
  unfold_op. destruct (code c) as [|[l|l|l| | | | |] ops]; [done|..]; intros Hr Hn Hl; repeat case_decide; repeat case_match;
    simplify_eq; try done.
  - cbn. split; [apply NoDup_cons; split; [by rewrite Hl|done]|]. intros x. set_solver.
  - cbn. split; [apply NoDup_cons; split; [by rewrite Hl|done]|]. intros x. set_solver.
  - cbn. pose proof Hn as (Hn1 & Hd & Hn2)%NoDup_app. pose proof (remove_perm l (held c) Hn1 ltac:(done)) as Hp.
    rewrite Hp in Hn. cbn in Hn. apply NoDup_cons in Hn as [Hno Hn]. split; [done|]. intros x.
    assert (x ∈ held c <-> x = l \/ x ∈ remove l (held c)) as Hx by (rewrite Hp at 1; set_solver).
    rewrite elem_of_difference, <-Hl, !elem_of_app, Hx. set_solver.
Qed.

Lemma owners_at s i c :
  cpus s !! i = Some c -> exists rest, owners s ≡ₚ context_held c ++ rest /\
    forall c' ls, owners (mkSmp (<[i := c']> (cpus s)) ls) ≡ₚ context_held c' ++ rest.
Proof.
  intros Hc. assert (i < length (cpus s))%nat as Hi by (by apply lookup_lt_Some in Hc).
  exists (mjoin (context_held <$> take i (cpus s)) ++ mjoin (context_held <$> drop (S i) (cpus s))). unfold owners. split.
  - rewrite <-(take_drop_middle (cpus s) i c Hc) at 1. rewrite fmap_app, join_app. cbn. rewrite !app_assoc. by rewrite (Permutation_app_comm (mjoin _)).
  - intros c' ls. cbn [cpus]. rewrite insert_take_drop by done. rewrite fmap_app, join_app. cbn. rewrite !app_assoc. by rewrite (Permutation_app_comm (mjoin _)).
Qed.

Lemma exclusive_perm s l : owners s ≡ₚ l -> exclusive s <-> NoDup l /\ forall x, x ∈ l <-> x ∈ locked s.
Proof. intros Hp. unfold exclusive. rewrite Hp. split; intros [H1 H2]; (split; [done|]); intros x; rewrite <-H2, Hp; done. Qed.

Lemma run_cpu_held c ls c' ls' (rest : list Z) :
  run_cpu c ls = Some (c', ls') -> NoDup (context_held c ++ rest) -> (forall l, l ∈ context_held c ++ rest <-> l ∈ ls) ->
  NoDup (context_held c' ++ rest) /\ forall l, l ∈ context_held c' ++ rest <-> l ∈ ls'.
Proof.
  unfold run_cpu, context_held. destruct (irqs c) as [|h hs]; cbn [fmap list_fmap mjoin list_join].
  - intros Hr. destruct (run_op (thread c) (flag c) ls) as [[[t' f] ls1]|] eqn:Ho; [|done]. cbn in Hr. injection Hr as <- <-.
    cbn. by eapply run_op_held.
  - intros Hr. destruct (code h) as [|op ops] eqn:Hc.
    + case_decide as H0; [|done]. injection Hr as <- <-. by rewrite H0.
    + destruct (run_op h (flag c) ls) as [[[h' f] ls1]|] eqn:Ho; [|done]. cbn in Hr. injection Hr as <- <-.
      cbn [irqs thread fmap list_fmap mjoin list_join]. rewrite <-!app_assoc. by eapply run_op_held.
Qed.

Lemma exec_exclusive e s s' : exclusive s -> exec e s = Some s' -> exclusive s'.
Proof.
  intros Hx He. destruct e as [i|i ops]; cbn in He; (destruct (cpus s !! i) as [c|] eqn:Hc; [|done]); cbn in He;
    destruct (owners_at s i c Hc) as (rest & Hp & Hp').
  - destruct (run_cpu c (locked s)) as [[c' ls']|] eqn:Hr; [|done]. cbn in He. injection He as <-.
    apply (exclusive_perm _ _ (Hp' c' ls')). destruct (proj1 (exclusive_perm _ _ Hp) Hx) as [Hn Hl]. by eapply run_cpu_held.
  - destruct (flag c); [|done]. injection He as <-.
    apply (exclusive_perm _ _ (Hp' _ _)). destruct (proj1 (exclusive_perm _ _ Hp) Hx) as [Hn Hl]. by split.
Qed.

Lemma start_exclusive programs : exclusive (start programs).
Proof.
  assert (owners (start programs) = []) as Ho by (unfold owners, start; cbn; induction programs as [|p l IH]; [done|exact IH]).
  split; rewrite Ho; [constructor|]. intros l. cbn. set_solver.
Qed.

(** C38: A spin lock has one owner. Whatever threads and interrupt handlers do
    on any number of processors, interrupted at any point, the locks that are
    owned are pairwise different and are those whose word is set: two guards of
    one lock never exist. *)
Theorem spin_exclusive handlers programs s :
  reachable handlers (start programs) s -> NoDup (owners s) /\ forall l, l ∈ owners s <-> l ∈ locked s.
Proof.
  change (reachable handlers (start programs) s -> exclusive s).
  induction 1 as [|i s s' _ IH He|i ops s s' _ IH _ He]; [apply start_exclusive|by eapply exec_exclusive..].
Qed.

(** ** Interrupts *)

Section discipline.
  (** The locks that handlers take. *)
  Context (hl : gset Z).

(** Code that owns no such lock while interrupts are on. *)
Fixpoint safe (f : bool) (h : list Z) (p : list bool) (ops : list Op) : Prop :=
  (f = true -> forall l, l ∈ h -> l ∉ hl) /\
  match ops with
  | [] => True
  | Lock l :: ops => safe f (l :: h) p ops
  | TryLock l :: ops => safe f (l :: h) p ops /\ safe f h p ops
  | Unlock l :: ops => safe f (remove l h) p ops
  | GuardCli :: ops => safe false h (f :: p) ops
  | GuardSti :: ops => safe true h (f :: p) ops
  | DropGuard :: ops => match p with b :: p => safe b h p ops | [] => True end
  | Cli :: ops => safe false h p ops
  | Sti :: ops => safe true h p ops
  end.

(** Code of a handler: its locks are among these, it takes none twice and drops
    its guards before it returns. *)
Fixpoint bracketed (h : list Z) (guards : nat) (ops : list Op) : Prop :=
  match ops with
  | [] => h = []
  | Lock l :: ops => l ∈ hl /\ l ∉ h /\ bracketed (l :: h) guards ops
  | TryLock l :: ops => l ∈ hl /\ bracketed (l :: h) guards ops /\ bracketed h guards ops
  | Unlock l :: ops => l ∈ h /\ bracketed (remove l h) guards ops
  | GuardCli :: ops | GuardSti :: ops => bracketed h (S guards) ops
  | DropGuard :: ops => match guards with S n => bracketed h n ops | O => False end
  | Cli :: ops | Sti :: ops => bracketed h guards ops
  end.

Definition safe_context (f : bool) (x : Context) : Prop := safe f (held x) (prev x) (code x).

Definition handler_ok (x : Context) : Prop :=
  bracketed (held x) (length (prev x)) (code x) /\ forall l, l ∈ held x -> l ∈ hl.

(** Only what runs may own a lock of the handlers: the rest was interrupted
    with interrupts on. *)
Definition cpu_ok (c : Cpu) (ls : gset Z) : Prop :=
  Forall handler_ok (irqs c) /\ ls = list_to_set (context_held c) /\
  match irqs c with
  | [] => safe_context (flag c) (thread c)
  | h :: hs => safe_context (flag c) h /\ Forall (safe_context true) hs /\ safe_context true (thread c)
  end.

Lemma safe_free f x l : safe_context f x -> f = true -> l ∈ held x -> l ∉ hl.
Proof. unfold safe_context. destruct (code x); intros [H _] Hf; by apply H. Qed.

Lemma below_free hs t l :
  Forall (safe_context true) hs -> safe_context true t -> l ∈ hl -> l ∉ mjoin (held <$> hs) ++ held t.
Proof.
  intros Hs Ht Hl. rewrite elem_of_app. intros [Hi|Hi]; [|by eapply safe_free].
  apply list_elem_of_join in Hi as (h & Hi & (x & -> & Hx)%list_elem_of_fmap). rewrite Forall_forall in Hs.
  by apply (safe_free true x l (Hs x Hx)).
Qed.

Lemma list_to_set_remove (l : Z) ls (rest : gset Z) : l ∉ rest -> (list_to_set ls ∪ rest) ∖ {[l]} = list_to_set (remove l ls) ∪ rest.
Proof.
  intros Hr. apply set_eq. intros x. rewrite elem_of_difference, !elem_of_union, !elem_of_list_to_set, elem_of_singleton.
  unfold remove. rewrite list_elem_of_filter. set_solver.
Qed.

(** A step keeps the discipline and the locks that others own. *)
Lemma op_safe t f (rest : list Z) t' f' ls' :
  safe_context f t -> (forall l, l ∈ held t -> l ∉ rest) -> run_op t f (list_to_set (held t ++ rest)) = Some (t', f', ls') ->
  safe_context f' t' /\ ls' = list_to_set (held t' ++ rest).
Proof.
  unfold safe_context. intros Hs Hd Hr. unfold_op. destruct (code t) as [|op ops] eqn:Hc; [done|]. cbn [safe] in Hs.
  destruct Hs as [Hf Hs]. destruct op as [l|l|l| | | | |]; repeat case_decide; repeat case_match; simplify_eq; cbn [code held prev];
    try done.
  - rewrite Hc. cbn [safe]. done.
  - split; [apply Hs|done].
  - split; [apply Hs|]. done.
  - split; [done|]. rewrite !list_to_set_app_L. apply list_to_set_remove. rewrite elem_of_list_to_set. auto.
Qed.

(** A step of a handler: it is never the attempt on a lock that is taken. *)
Lemma handler_step h f (rest : list Z) :
  handler_ok h -> (forall l, l ∈ hl -> l ∉ rest) -> code h <> [] ->
  exists h' f' ls', run_op h f (list_to_set (held h ++ rest)) = Some (h', f', ls') /\ code h' = tail (code h) /\ handler_ok h'.
Proof.
  intros [Hb Hin] Hnot Hne. unfold handler_ok. unfold_op. destruct (code h) as [|op ops] eqn:Hc; [done|]. cbn [bracketed tail] in *.
  destruct op as [l|l|l| | | | |]; try (by eexists _, _, _).
  - destruct Hb as (Hl & Hn & Hb). rewrite decide_False by (rewrite elem_of_list_to_set, elem_of_app; naive_solver).
    eexists _, _, _. split_and!; [done|done|done|set_solver].
  - destruct Hb as (Hl & Hb1 & Hb2). case_decide; [by eexists _, _, _|].
    eexists _, _, _. split_and!; [done|done|done|set_solver].
  - destruct Hb as (Hl & Hb). rewrite decide_True by done. eexists _, _, _. split_and!; [done|done|done|]. cbn [held].
    unfold remove. intros x [_ Hx]%list_elem_of_filter. auto.
  - destruct (prev h) as [|b p]; [done|]. by eexists _, _, _.
Qed.

Context (handlers : list (list Op)).
Context (Hh : forall ops, ops ∈ handlers -> bracketed [] 0 ops /\ safe true [] [] ops).

Definition one_ok (s : Smp) : Prop := exists c, cpus s = [c] /\ cpu_ok c (locked s).

(** What the youngest handler does next. *)
Lemma irq_step c h hs ls :
  cpu_ok c ls -> irqs c = h :: hs -> code h <> [] ->
  exists f h' ls', run_cpu c ls = Some (mkCpu f (h' :: hs) (thread c), ls') /\ code h' = tail (code h) /\
    cpu_ok (mkCpu f (h' :: hs) (thread c)) ls'.
Proof.
  unfold cpu_ok, run_cpu, context_held. intros (Ha & -> & Hs) Hi Hne. rewrite Hi in *. destruct Hs as (Hs & Hhs & Ht).
  apply Forall_cons in Ha as [Hok Ha]. rewrite held_cons.
  assert (Hnot : forall l, l ∈ hl -> l ∉ mjoin (held <$> hs) ++ held (thread c)) by (intros l; by apply below_free).
  destruct (handler_step h (flag c) _ Hok Hnot Hne) as (h' & f & ls' & Hr & Hcode & Hok').
  destruct (op_safe h (flag c) _ h' f ls' Hs ltac:(intros l Hl; by apply Hnot, Hok) Hr) as [Hs' ->].
  destruct (code h) as [|op ops]; [done|]. rewrite Hr. eexists f, h', _. split; [reflexivity|]. split; [done|].
  split; [by constructor|]. split; [|done]. cbn [irqs thread]. by rewrite held_cons.
Qed.

Lemma irq_return c h hs ls :
  cpu_ok c ls -> irqs c = h :: hs -> code h = [] ->
  run_cpu c ls = Some (mkCpu true hs (thread c), ls) /\ cpu_ok (mkCpu true hs (thread c)) ls.
Proof.
  unfold cpu_ok, run_cpu, context_held. intros (Ha & Hl & Hs) Hi Hc. rewrite Hi in *. destruct Hs as (_ & Hhs & Ht).
  apply Forall_cons in Ha as [[Hb _] Ha]. rewrite Hc in *. cbn in Hb. rewrite Hb in *. split; [by rewrite decide_True|].
  cbn in *. rewrite Hb in Hl. split; [done|]. split; [done|]. destruct hs; [done|]. by apply Forall_cons in Hhs as [? ?].
Qed.

Lemma one_run s s' : one_ok s -> exec (Run 0) s = Some s' -> one_ok s'.
Proof.
  intros (c & Hc & Hok) He. cbn in He. rewrite Hc in He. cbn in He.
  destruct (run_cpu c (locked s)) as [[c' ls']|] eqn:Hr; [|done]. cbn in He. injection He as <-.
  exists c'. split; [done|]. cbn. destruct (irqs c) as [|h hs] eqn:Hi.
  - unfold cpu_ok, run_cpu, context_held in *. rewrite Hi in *. destruct Hok as (_ & Hl & Hs).
    destruct (run_op (thread c) (flag c) (locked s)) as [[[t' f'] ls1]|] eqn:Ho; [|done]. cbn in Hr. injection Hr as <- <-. cbn in *.
    rewrite Hl, <-(app_nil_r (held (thread c))) in Ho.
    destruct (op_safe _ _ [] _ _ _ Hs ltac:(set_solver) Ho) as [H1 H2]. rewrite app_nil_r in H2. done.
  - destruct (code h) as [|op ops] eqn:Hcode.
    + destruct (irq_return c h hs _ Hok Hi Hcode) as [Hr' Hok']. rewrite Hr' in Hr. by injection Hr as <- <-.
    + destruct (irq_step c h hs _ Hok Hi) as (f & h' & ls1 & Hr' & _ & Hok'); [by rewrite Hcode|]. rewrite Hr' in Hr. by injection Hr as <- <-.
Qed.

Lemma one_irq s ops s' : one_ok s -> ops ∈ handlers -> exec (Interrupt 0 ops) s = Some s' -> one_ok s'.
Proof.
  intros (c & Hc & Hok) Hin He. cbn in He. rewrite Hc in He. cbn in He.
  destruct (flag c) eqn:Hf; [|done]. injection He as <-. destruct Hok as (Ha & Hl & Hs). destruct (Hh ops Hin) as [Hb Hsafe].
  eexists. split; [done|]. unfold cpu_ok. cbn. split; [constructor; [|done]; split; [done|set_solver]|]. split; [done|]. split; [done|].
  rewrite Hf in Hs. destruct (irqs c); [done|]. destruct Hs as (H1 & H2 & H3). split; [by constructor|done].
Qed.

Lemma one_reachable f ops s : safe f [] [] ops -> reachable handlers (start [(f, ops)]) s -> one_ok s.
Proof.
  intros Hs. induction 1 as [|i s s' _ IH He|i o s s' _ IH Hin He].
  - eexists. split; [done|]. split; [constructor|]. by split.
  - pose proof IH as (c & Hc & _). destruct i; [by eapply one_run|]. cbn in He. by rewrite Hc in He.
  - pose proof IH as (c & Hc & _). destruct i; [by eapply one_irq|]. cbn in He. by rewrite Hc in He.
Qed.

Fixpoint run_n (n : nat) (s : Smp) : option Smp :=
  match n with O => Some s | S n => exec (Run 0) s ≫= run_n n end.

Lemma handler_runs n s c h hs :
  one_ok s -> cpus s = [c] -> irqs c = h :: hs -> length (code h) = n ->
  exists s', run_n (S n) s = Some s' /\ cpus s' = [mkCpu true hs (thread c)] /\
    locked s' = list_to_set (mjoin (held <$> hs) ++ held (thread c)).
Proof.
  revert s c h. induction n as [|n IH]; intros s c h (c1 & Hc1 & Hok) Hc Hi Hn; rewrite Hc in Hc1; injection Hc1 as <-.
  - apply nil_length_inv in Hn. destruct (irq_return c h hs _ Hok Hi Hn) as [Hr (_ & Hl & _)].
    cbn [run_n exec]. rewrite Hc. cbn. rewrite Hr. cbn. eexists. split_and!; [done|done|]. exact Hl.
  - destruct (irq_step c h hs _ Hok Hi) as (f & h' & ls' & Hr & Hcode & Hok'); [by intros E; rewrite E in Hn|].
    destruct (IH (mkSmp [mkCpu f (h' :: hs) (thread c)] ls') (mkCpu f (h' :: hs) (thread c)) h') as (s' & Hrun & Hrest);
      [by eexists|done|done|rewrite Hcode; destruct (code h); [done|]; cbn in *; lia|].
    exists s'. split; [|done]. cbn [run_n exec]. rewrite Hc. cbn. rewrite Hr. exact Hrun.
Qed.

End discipline.

(** C37: A handler returns when its locks are taken with interrupts off. On a
    processor whose thread and handlers never own a lock of the handlers while
    interrupts are on, and whose handlers take their locks once and drop them,
    every handler that has begun, at any point of the thread or of another
    handler, finds its locks free: left alone, after as many steps as it has
    operations what it has interrupted goes on, with interrupts on and with the
    locks that were owned before and no other lock taken. *)
Theorem irq_handler_returns (hl : gset Z) handlers f ops s c h hs :
  (forall o, o ∈ handlers -> bracketed hl [] 0 o /\ safe hl true [] [] o) -> safe hl f [] [] ops ->
  reachable handlers (start [(f, ops)]) s -> cpus s = [c] -> irqs c = h :: hs ->
  exists s', run_n (S (length (code h))) s = Some s' /\ cpus s' = [mkCpu true hs (thread c)] /\
    locked s' = list_to_set (mjoin (held <$> hs) ++ held (thread c)).
Proof.
  intros Hh Hs Hr Hc Hi. pose proof (one_reachable hl handlers Hh f ops s Hs Hr) as Hok. by eapply handler_runs.
Qed.

Lemma run_n_reachable handlers s0 n s s' : reachable handlers s0 s -> run_n n s = Some s' -> reachable handlers s0 s'.
Proof.
  revert s. induction n as [|n IH]; intros s Hr; cbn [run_n]; [by intros [= <-]|].
  destruct (exec (Run 0) s) as [s1|] eqn:He; [|done]. cbn. apply IH. by eapply reachable_run.
Qed.

(** Otherwise it may not: a handler that comes to a lock of what it has
    interrupted spins for ever, since that does not run. *)
Theorem irq_deadlock s c h hs l ops :
  cpus s = [c] -> irqs c = h :: hs -> code h = Lock l :: ops -> l ∈ locked s -> forall n, run_n n s = Some s.
Proof.
  intros Hc Hd Hcode Hl. assert (exec (Run 0) s = Some s) as He.
  { cbn. rewrite Hc. cbn. unfold run_cpu. rewrite Hd, Hcode. unfold_op. rewrite Hcode, decide_True by done. cbn.
    destruct s as [cs ls], c as [f d t], h. cbn in *. by subst. }
  induction n as [|n IH]; [done|]. cbn [run_n]. rewrite He. exact IH.
Qed.

Module SpinRun.

(** [_kprint]: the lock of the writer under an [IrqGuard]. *)
Definition kprint_code (l : Z) : list Op := [GuardCli; Lock l; Unlock l; DropGuard].
Definition handler_code (l : Z) : list Op := [Lock l; Unlock l].

Definition two_cpus : Smp := default (start []) (exec (Run 1) (start [(false, handler_code 1); (false, handler_code 1)])).

Lemma spin_exclusive_witness : NoDup (owners two_cpus) /\ forall l, l ∈ owners two_cpus <-> l ∈ locked two_cpus.
Proof.
  apply (spin_exclusive [] [(false, handler_code 1); (false, handler_code 1)]).
  eapply (reachable_run _ _ 1); [constructor|]. vm_compute. reflexivity.
Defined.

(** The handler prints too; it is interrupted, before it has the lock, by
    another that prints. *)
Definition interrupted_once : Smp := default (start []) (exec (Interrupt 0 (kprint_code 1)) (start [(true, kprint_code 1)])).
Definition interrupted : Smp := default (start []) (exec (Interrupt 0 (kprint_code 1)) interrupted_once).

Lemma kprint_safe : safe {[1]} true [] [] (kprint_code 1).
Proof. cbn. repeat split; try discriminate; intros _ l Hl; by apply elem_of_nil in Hl. Qed.

Lemma irq_handler_returns_witness :
  exists s', run_n 5 interrupted = Some s' /\
    cpus s' = [mkCpu true [begin (kprint_code 1)] (begin (kprint_code 1))] /\ locked s' = ∅.
Proof.
  apply (irq_handler_returns {[1]} [kprint_code 1] true (kprint_code 1) interrupted
    (mkCpu true [begin (kprint_code 1); begin (kprint_code 1)] (begin (kprint_code 1)))
    (begin (kprint_code 1)) [begin (kprint_code 1)]).
  - intros o Ho. apply list_elem_of_singleton in Ho as ->. split; [cbn; repeat split; set_solver|exact kprint_safe].
  - exact kprint_safe.
  - eapply (reachable_irq _ _ 0 (kprint_code 1) interrupted_once); [|left|vm_compute; reflexivity].
    eapply (reachable_irq _ _ 0 (kprint_code 1)); [constructor|left|vm_compute; reflexivity].
  - reflexivity.
  - reflexivity.
Defined.

End SpinRun.
