(* ===== verification/Keyboard.v ===== *)
(** * The keyboard (kernel/src/io/keyboard.rs, keyboard_irq of trap/hard.rs)

    Scan codes become characters and go into the channel of [Spsc.v], whose
    receiver is the handler of the system call for a character. The sender is
    the handler of the keyboard interrupt. It runs with interrupts on, so the
    timer can interrupt it and let the receiver run between any two of its
    steps; the interrupt controller holds the next key back until its end of
    interrupt, so there is never more than one of it. *)
From Stdlib Require Import String.
From S2P Require Import Prelude Spin Semaphore SemaphoreSpec Spsc SpscSpec.

Definition LEFT_SHIFT : Z := 0x2A.
Definition RIGHT_SHIFT : Z := 0x36.

(** The keys with a character, without and with shift. *)
Definition code_ascii : list (Z * Z) :=
  [(0x01, 27); (0x02, 49); (0x03, 50); (0x04, 51); (0x05, 52); (0x06, 53); (0x07, 54); (0x08, 55);
   (0x09, 56); (0x0A, 57); (0x0B, 48); (0x0C, 45); (0x0D, 61); (0x0E, 8); (0x0F, 9); (0x10, 113);
   (0x11, 119); (0x12, 101); (0x13, 114); (0x14, 116); (0x15, 121); (0x16, 117); (0x17, 105); (0x18, 111);
   (0x19, 112); (0x1A, 91); (0x1B, 93); (0x1C, 10); (0x1E, 97); (0x1F, 115); (0x20, 100); (0x21, 102);
   (0x22, 103); (0x23, 104); (0x24, 106); (0x25, 107); (0x26, 108); (0x27, 59); (0x28, 39); (0x29, 96);
   (0x2B, 92); (0x2C, 122); (0x2D, 120); (0x2E, 99); (0x2F, 118); (0x30, 98); (0x31, 110); (0x32, 109);
   (0x33, 44); (0x34, 46); (0x35, 47); (0x39, 32)].

Definition code_ascii_shift : list (Z * Z) :=
  [(0x01, 27); (0x02, 33); (0x03, 64); (0x04, 35); (0x05, 36); (0x06, 37); (0x07, 94); (0x08, 38);
   (0x09, 42); (0x0A, 40); (0x0B, 41); (0x0C, 95); (0x0D, 43); (0x0E, 8); (0x0F, 9); (0x10, 81); (0x11, 87);
   (0x12, 69); (0x13, 82); (0x14, 84); (0x15, 89); (0x16, 85); (0x17, 73); (0x18, 79); (0x19, 80);
   (0x1A, 123); (0x1B, 125); (0x1C, 10); (0x1E, 65); (0x1F, 83); (0x20, 68); (0x21, 70); (0x22, 71);
   (0x23, 72); (0x24, 74); (0x25, 75); (0x26, 76); (0x27, 58); (0x28, 34); (0x29, 126); (0x2B, 124);
   (0x2C, 90); (0x2D, 88); (0x2E, 67); (0x2F, 86); (0x30, 66); (0x31, 78); (0x32, 77); (0x33, 60);
   (0x34, 62); (0x35, 63); (0x39, 32)].

(** The tables of 0x80 entries that [const fn]s fill. *)
Definition generate (keys : list (Z * Z)) : list (option Z) :=
  foldl (fun mapping k => <[Z.to_nat k.1 := Some k.2]> mapping) (replicate 0x80 None) keys.
Definition CODE_ASCII_MAPPING : list (option Z) := generate code_ascii.
Definition CODE_ASCII_SHIFT_MAPPING : list (option Z) := generate code_ascii_shift.

Record SpecKeyStatus : Type := mkStatus { left_shift : bool; right_shift : bool }.
Record Keyboard : Type := mkKeyboard { SPEC_KEY_STATUS : SpecKeyStatus; spsc : Channel (T:=Z) }.

Definition init : Keyboard := mkKeyboard (mkStatus false false) (channel 0x80).

(** [Sender::try_send], its first step and those after it: each of its atomic
    operations is a step of its own. [None] is a panic. *)
Definition try_send (d : Z) (c : Channel) : option (Channel (T:=Z)) :=
  match step (TrySendCheck d) c with Next c' => Some c' | _ => None end.

Definition try_send_next (c : Channel) : option (Channel (T:=Z)) :=
  let go e := match step e c with Next c' => Some c' | _ => None end in
  match tx c with
  | TxTry _ => go TrySendAcquire
  | TxReserved _ => go WriteSlot
  | TxWritten => go WriteRelease
  | _ => Some c
  end.

(** All that is left of it, when nothing comes between. *)
Definition try_send_end (c : Channel) : option (Channel (T:=Z)) :=
  c ← try_send_next c; c ← try_send_next c; try_send_next c.

Definition shift_pressed (st : SpecKeyStatus) : bool := left_shift st || right_shift st.

(** [mapping[button as usize]]; a button has seven bits. *)
Definition ascii (shift : bool) (button : Z) : option Z :=
  mjoin ((if shift then CODE_ASCII_SHIFT_MAPPING else CODE_ASCII_MAPPING) !! Z.to_nat button).

(** The handler up to the first step of [try_send]. [None] is a panic. *)
Definition handle_keyboard_scan (code : Z) (k : Keyboard) : option Keyboard :=
  let pressed := Z.land code 0x80 =? 0 in
  let button := Z.land code 0x7f in
  let st := SPEC_KEY_STATUS k in
  if button =? LEFT_SHIFT then Some (mkKeyboard (mkStatus pressed (right_shift st)) (spsc k))
  else if button =? RIGHT_SHIFT then Some (mkKeyboard (mkStatus (left_shift st) pressed) (spsc k))
  else if pressed then
    match ascii (shift_pressed st) button with
    | Some a => c ← try_send a (spsc k); Some (mkKeyboard st c)
    | None => Some k
    end
  else Some k.

(** ** What is typed *)

(** The keyboard: rows of keys with consecutive scan codes, the first of them,
    and what is printed on the keys, below and above. *)
Definition rows : list (Z * list Z * list Z) :=
  [(0x01, [27], [27]);
   (0x02, ascii_bytes "1234567890-="%string, ascii_bytes "!@#$%^&*()_+"%string);
   (0x0E, [8; 9], [8; 9]);
   (0x10, ascii_bytes "qwertyuiop[]"%string, ascii_bytes "QWERTYUIOP{}"%string);
   (0x1C, [10], [10]);
   (0x1E, ascii_bytes "asdfghjkl;"%string ++ [39], ascii_bytes "ASDFGHJKL:"%string ++ [34]);
   (0x29, ascii_bytes "`"%string, ascii_bytes "~"%string);
   (0x2B, ascii_bytes "\zxcvbnm,./"%string, ascii_bytes "|ZXCVBNM<>?"%string);
   (0x39, ascii_bytes " "%string, ascii_bytes " "%string)].

Definition character (shift : bool) (key : Z) : option Z :=
  head (omap (fun '(first, below, above) =>
    if first <=? key then (if shift then above else below : list Z) !! Z.to_nat (key - first) else None) rows).

(** The keys that are down after some scan codes: 0x80 is added when a key goes up. *)
Definition down (codes : list Z) : gset Z :=
  foldl (fun keys code => if code <? 0x80 then {[code]} ∪ keys else keys ∖ {[code - 0x80]}) ∅ codes.

(** One of the two shift keys is down. *)
Definition shifted (codes : list Z) : bool := bool_decide (0x2A ∈ down codes \/ 0x36 ∈ down codes).

(** What a scan code means after others, and what they mean all together. *)
Definition meaning (before : list Z) (code : Z) : option Z :=
  if code <? 0x80 then character (shifted before) code else None.

Fixpoint typed_after (before codes : list Z) : list Z :=
  match codes with
  | [] => []
  | code :: codes => option_list (meaning before code) ++ typed_after (before ++ [code]) codes
  end.

Definition typed (codes : list Z) : list Z := typed_after [] codes.

(** The fate of a character: what there is when the handler comes to it
    decides. *)
Inductive Fate : Type := Pending | Sent | Full | Closed.

Definition closed (c : Channel (T:=Z)) : bool := lost_receiver c || bool_decide (txstate c = STATE_DROP).
Definition full (c : Channel (T:=Z)) : bool := permits (producer c) <=? 0.

Definition arrive (c : Channel (T:=Z)) (new : option Z) : list (Z * Fate) :=
  (., if closed c then Closed else Pending) <$> option_list new.

Definition settle (c : Channel (T:=Z)) (ledger : list (Z * Fate)) : list (Z * Fate) :=
  match tx c with
  | TxTry _ => (fun '(a, f) => (a, match f with Pending => if full c then Full else Sent | _ => f end)) <$> ledger
  | _ => ledger
  end.

Definition kept (ledger : list (Z * Fate)) : list Z :=
  omap (fun '(a, f) => match f with Sent => Some a | _ => None end) ledger.

Definition of_receiver (e : Event (T:=Z)) : Prop :=
  match e with
  | TrySendCheck _ | TrySendAcquire | SendStart _ | SendInit | SendPoll | SendCancel | WriteSlot | WriteRelease | DropSender => False
  | _ => True
  end.

(** A scan code arrives, the handler goes on, or the receiver makes a step;
    with the ledger of the characters typed. *)
Inductive typing : list Z -> list (Z * Fate) -> Keyboard -> Prop :=
  | typing_init : typing [] [] init
  | typing_scan codes ledger code k k' :
      typing codes ledger k -> tx (spsc k) = TxIdle -> 0 <= code < 0x100 -> handle_keyboard_scan code k = Some k' ->
      typing (codes ++ [code]) (ledger ++ arrive (spsc k) (meaning codes code)) k'
  | typing_sender codes ledger k c :
      typing codes ledger k -> try_send_next (spsc k) = Some c ->
      typing codes (settle (spsc k) ledger) (mkKeyboard (SPEC_KEY_STATUS k) c)
  | typing_receiver codes ledger e k c :
      typing codes ledger k -> of_receiver e -> step e (spsc k) = Next c ->
      typing codes ledger (mkKeyboard (SPEC_KEY_STATUS k) c).

(** ** The channel *)

(** The character that the handler has a place for and has not put there yet. *)
Definition reserved (t : Tx (T:=Z)) : list Z := match t with TxReserved d => [d] | _ => [] end.

Definition trying (t : Tx (T:=Z)) : Prop :=
  match t with TxIdle | TxTry _ | TxReserved _ | TxWritten => True | _ => False end.

Lemma try_send_begins d c :
  tx c = TxIdle ->
  exists c', try_send d c = Some c' /\ step (TrySendCheck d) c = Next c' /\ sent c' = sent c /\ producer c' = producer c /\
    tx_index c' = tx_index c /\ tx c' = if closed c then TxIdle else TxTry d.
Proof.
  intros Htx. unfold try_send. cbn [step]. unfold try_send_check, closed. rewrite Htx.
  destruct (_ || _); eexists; (split_and!; [done..|]); done.
Qed.

Lemma try_take_full c : is_Some (try_take (producer c)) <-> full c = false.
Proof.
  unfold try_take, full. cbn [exec]. unfold try_acquire. rewrite Z.leb_gt.
  destruct (permits (producer c) <? 1) eqn:E; bool_to_prop.
  - rewrite (proj2 (Nat.ltb_ge _ _)) by done. split; [by intros []|lia].
  - cbn [agents add_agent set_permits]. rewrite length_app, (proj2 (Nat.ltb_lt _ _)) by (cbn; lia).
    unfold with_agent. cbn [agents add_agent set_permits].
    rewrite lookup_app_r, Nat.sub_diag by done. cbn. split; [lia|by eexists].
Qed.

(** A step of the handler does not panic. *)
Lemma try_send_next_runs c : tx_index c < usize_max -> trying (tx c) -> is_Some (try_send_next c).
Proof.
  intros Hi Ht. unfold try_send_next. destruct (tx c) eqn:Htx; try done; cbn [step].
  - unfold try_send_acquire. rewrite Htx. by destruct (try_take _).
  - unfold write_slot. rewrite Htx, (proj2 (Z.leb_gt _ _)) by done. done.
  - unfold write_release. rewrite Htx. done.
Qed.

(** It gives the character a place when there is one, and drops it otherwise. *)
Lemma try_send_next_keeps c c' :
  reached 0x80 c -> trying (tx c) -> try_send_next c = Some c' ->
  reached 0x80 c' /\ trying (tx c') /\ (forall d, tx c' <> TxTry d) /\
  sent c' ++ reserved (tx c') = sent c ++ match tx c with TxTry d => if full c then [] else [d] | t => reserved t end.
Proof.
  intros Hr Ht Hs. unfold try_send_next in Hs. destruct (tx c) as [|d| | |d| |] eqn:Htx; try done.
  - injection Hs as <-. rewrite Htx. by split_and!.
  - destruct (step TrySendAcquire c) as [| |c1] eqn:E; try done. injection Hs as <-. split; [by eapply reached_step|].
    cbn in E. unfold try_send_acquire in E. rewrite Htx in E. pose proof (try_take_full c) as Hf.
    destruct (try_take _) as [q|]; injection E as <-; cbn; (split_and!; [done|done|]).
    + by rewrite (proj1 Hf).
    + destruct (full c); [done|]. by destruct (proj2 Hf eq_refl).
  - destruct (step WriteSlot c) as [| |c1] eqn:E; try done. injection Hs as <-. split; [by eapply reached_step|].
    cbn in E. unfold write_slot in E. rewrite Htx in E. destruct (usize_max <=? _); [done|]. injection E as <-. cbn.
    split_and!; [done|done|]. by rewrite app_nil_r.
  - destruct (step WriteRelease c) as [| |c1] eqn:E; try done. injection Hs as <-. split; [by eapply reached_step|].
    cbn in E. unfold write_release in E. rewrite Htx in E. cbn in E. injection E as <-. done.
Qed.

(** Left alone it comes to its end, with the character sent if there is a place. *)
Lemma try_send_ends d c :
  tx c = TxTry d -> tx_index c < usize_max ->
  exists c', try_send_end c = Some c' /\ tx c' = TxIdle /\ (is_Some (try_take (producer c)) -> sent c' = sent c ++ [d]).
Proof.
  intros Htx Hi. unfold try_send_end.
  assert (try_send_next c = match try_take (producer c) with
    | Some q => Some (set_tx (TxReserved d) (set_producer q c)) | None => Some (set_tx TxIdle c) end) as E1.
  { unfold try_send_next. rewrite Htx. cbn. unfold try_send_acquire. rewrite Htx. by destruct (try_take _). }
  rewrite E1. destruct (try_take (producer c)) as [q|].
  - assert (exists c2, try_send_next (set_tx (TxReserved d) (set_producer q c)) = Some c2 /\ tx c2 = TxWritten /\ sent c2 = sent c ++ [d])
      as (c2 & E2 & Ht2 & Hs2).
    { unfold try_send_next. cbn. unfold write_slot. cbn. rewrite (proj2 (Z.leb_gt _ _)) by done. by eexists. }
    cbn [mbind option_bind]. rewrite E2. cbn [mbind option_bind]. unfold try_send_next. rewrite Ht2. cbn. unfold write_release. rewrite Ht2. cbn. eexists. split; [reflexivity|]. done.
  - cbn. eexists. split; [reflexivity|]. split; [done|by intros []].
Qed.

Lemma try_send_end_idle c : tx c = TxIdle -> try_send_end c = Some c.
Proof. intros Htx. unfold try_send_end, try_send_next. rewrite Htx. cbn. rewrite Htx. cbn. by rewrite Htx. Qed.

Lemma receiver_keeps e c c' : of_receiver e -> step e c = Next c' -> tx c' = tx c /\ sent c' = sent c.
Proof.
  intros He Hs. destruct e; try done; cbn in Hs;
    unfold try_recv_acquire, try_recv_check, recv_start, recv_last, recv_init, recv_poll, recv_cancel, recv_slot, recv_release, drop_receiver in Hs;
    repeat case_match; simplify_eq; done.
Qed.

(** ** The handler *)

(** The tables are the keyboard. *)
Lemma ascii_character shift button : 0 <= button < 0x80 -> ascii shift button = character shift button.
Proof.
  assert (Forall (fun b => ascii true b = character true b /\ ascii false b = character false b) (seqZ 0 0x80)) as Hf
    by (apply (bool_decide_unpack _); vm_compute; exact Logic.I).
  rewrite Forall_forall in Hf. intros Hb. destruct (Hf button ltac:(apply elem_of_seqZ; lia)). by destruct shift.
Qed.

Lemma byte_bits code : 0 <= code < 0x100 -> (Z.land code 0x80 =? 0) = (code <? 0x80) /\ Z.land code 0x7f = code `mod` 0x80.
Proof.
  intros Hc. split; [|change 0x7f with (Z.ones 7); by rewrite Z.land_ones].
  assert (Forall (fun x => (Z.land x 0x80 =? 0) = (x <? 0x80)) (seqZ 0 0x100)) as Hf by (vm_compute; repeat constructor).
  rewrite Forall_forall in Hf. apply Hf, elem_of_seqZ. lia.
Qed.

(** The keys that are down, as the handler remembers them. *)
Definition remembers (st : SpecKeyStatus) (codes : list Z) : Prop :=
  left_shift st = bool_decide (0x2A ∈ down codes) /\ right_shift st = bool_decide (0x36 ∈ down codes).

Lemma remembers_shift st codes : remembers st codes -> shift_pressed st = shifted codes.
Proof.
  intros [H1 H2]. unfold shift_pressed, shifted. rewrite H1, H2.
  do 3 case_bool_decide; cbn; tauto.
Qed.

Lemma down_snoc codes code key :
  0 <= code < 0x100 -> 0 <= key < 0x80 ->
  bool_decide (key ∈ down (codes ++ [code])) =
    if code `mod` 0x80 =? key then code <? 0x80 else bool_decide (key ∈ down codes).
Proof.
  intros Hc Hk. unfold down. rewrite foldl_app. cbn [foldl]. fold (down codes).
  assert (code `mod` 0x80 = if code <? 0x80 then code else code - 0x80) as -> by (case_match; bool_to_prop; lia).
  destruct (code <? 0x80) eqn:E; bool_to_prop; case_match; bool_to_prop;
    rewrite ?bool_decide_eq_true, ?bool_decide_eq_false; try apply bool_decide_ext; set_solver.
Qed.

Lemma typed_after_snoc before codes code :
  typed_after before (codes ++ [code]) = typed_after before codes ++ option_list (meaning (before ++ codes) code).
Proof.
  revert before. induction codes as [|x codes IH]; intros before; cbn; [by rewrite !app_nil_r|].
  by rewrite IH, <-!app_assoc.
Qed.

Lemma typed_snoc codes code : typed (codes ++ [code]) = typed codes ++ option_list (meaning codes code).
Proof. apply typed_after_snoc. Qed.

(** What a scan code does, next to what it means. *)
Lemma scan_means codes code k :
  0 <= code < 0x100 -> tx (spsc k) = TxIdle -> remembers (SPEC_KEY_STATUS k) codes ->
  exists k', handle_keyboard_scan code k = Some k' /\ remembers (SPEC_KEY_STATUS k') (codes ++ [code]) /\
    match meaning codes code with
    | Some a => try_send a (spsc k) = Some (spsc k')
    | None => spsc k' = spsc k
    end.
Proof.
  intros Hc Htx Hst. destruct (byte_bits code Hc) as [B1 B2]. unfold handle_keyboard_scan, meaning. cbv zeta.
  rewrite B1, B2, (remembers_shift _ _ Hst). unfold LEFT_SHIFT, RIGHT_SHIFT, remembers in *.
  rewrite !down_snoc by lia. destruct Hst as [H1 H2].
  destruct (code `mod` 0x80 =? 0x2A) eqn:EL; bool_to_prop.
  { eexists. split; [done|]. rewrite EL. cbn. split; [done|].
    destruct (code <? 0x80) eqn:E; [|done]. bool_to_prop. assert (code = 0x2A) as -> by lia. by case (shifted codes). }
  destruct (code `mod` 0x80 =? 0x36) eqn:ER; bool_to_prop.
  { eexists. split; [done|]. cbn. split; [done|].
    destruct (code <? 0x80) eqn:E; [|done]. bool_to_prop. assert (code = 0x36) as -> by lia. by case (shifted codes). }
  destruct (code <? 0x80) eqn:E; [|by eexists]. bool_to_prop.
  rewrite Z.mod_small, ascii_character by lia. destruct (character (shifted codes) code) as [a|]; [|by eexists].
  destruct (try_send_begins a (spsc k) Htx) as (c' & Hs & _). rewrite Hs. by eexists.
Qed.

(** The last character of the ledger is the one the handler is at, and no
    other is pending. *)
Definition settled (ledger : list (Z * Fate)) : Prop := Forall (fun e => e.2 <> Pending) ledger.

Definition at_last (t : Tx (T:=Z)) (ledger : list (Z * Fate)) : Prop :=
  match t with TxTry d => exists l, ledger = l ++ [(d, Pending)] /\ settled l | _ => settled ledger end.

Lemma settle_settled c f l :
  settled l -> ((fun '(a, g) => (a, match g with Pending => if full c then Full else f | _ => g end)) <$> l) = l.
Proof. induction 1 as [|[a g] l Hg _ IH]; [done|]. cbn. rewrite IH. by destruct g. Qed.

Lemma settle_kept c ledger :
  at_last (tx c) ledger ->
  settled (settle c ledger) /\ (settle c ledger).*1 = ledger.*1 /\
  kept (settle c ledger) = kept ledger ++ match tx c with TxTry d => if full c then [] else [d] | _ => [] end.
Proof.
  unfold settle, at_last. destruct (tx c) as [|d| | | | |]; try (intros H; rewrite app_nil_r; done).
  intros (l & -> & Hl). rewrite fmap_app, (settle_settled c Sent) by done. unfold kept. rewrite !omap_app, !fmap_app. cbn.
  rewrite app_nil_r. destruct (full c); (split_and!; [|done|done]); apply Forall_app; split; [done| |done|]; by repeat constructor.
Qed.

Lemma typing_inv codes ledger k :
  typing codes ledger k -> reached 0x80 (spsc k) /\ trying (tx (spsc k)) /\ remembers (SPEC_KEY_STATUS k) codes /\
  ledger.*1 = typed codes /\ at_last (tx (spsc k)) ledger /\
  sent (spsc k) ++ reserved (tx (spsc k)) = kept ledger.
Proof.
  induction 1 as [|codes ledger code k k' Ht (Hr & _ & Hst & Hl & Ha & Hs) Htx Hc Hk
    |codes ledger k c Ht (Hr & Htr & Hst & Hl & Ha & Hs) Hn|codes ledger e k c Ht (Hr & Htr & Hst & Hl & Ha & Hs) He Hc].
  - split_and!; [constructor|done..|by constructor|done].
  - rewrite typed_snoc. destruct (scan_means codes code k Hc Htx Hst) as (k1 & Hk1 & Hst' & Hnew).
    rewrite Hk1 in Hk. injection Hk as <-. rewrite Htx in Ha, Hs. cbn in Ha, Hs.
    unfold arrive, kept in *. rewrite fmap_app, omap_app, Hl, <-Hs.
    destruct (meaning codes code) as [a|]; cbn; [|rewrite Hnew, Htx, !app_nil_r; by split_and!].
    destruct (try_send_begins a (spsc k) Htx) as (c' & Hs' & Hstep & Hsent & _ & _ & Hcase).
    rewrite Hs' in Hnew. injection Hnew as <-. split; [by eapply reached_step|].
    rewrite Hsent, Hcase. destruct (closed (spsc k)); cbn; rewrite !app_nil_r; (split_and!; [done|done|done| |done]).
    + apply Forall_app. split; [done|]. by repeat constructor.
    + by eexists.
  - destruct (try_send_next_keeps _ _ Hr Htr Hn) as (H1 & H2 & H3 & H4). destruct (settle_kept _ _ Ha) as (S1 & S2 & S3).
    cbn. split_and!; [done|done|done|by rewrite S2| |].
    + unfold at_last. destruct (tx c); try done. by destruct (H3 d).
    + rewrite H4, S3, <-Hs. destruct (tx (spsc k)); cbn; by rewrite ?app_nil_r.
  - destruct (receiver_keeps e _ _ He Hc) as [H1 H2]. cbn. rewrite H1, H2. split_and!; [by eapply reached_step|done..].
Qed.

(** C39: what is typed arrives. After any scan codes, with the handler of the
    keyboard and the receiver at any points of their work: each character that
    the keys typed stand for, by what is printed on the keyboard and with or
    without a shift key down, has its place in the ledger. Those sent, with the
    one the handler has a place for, are exactly those for which there was a
    receiver and a free place at the moment the handler came to them, in the
    order of the keys; the others are lost. The characters received are the
    first of those sent, at most 128 are under way, and no step of the handler
    panics. At rest the handler has nothing pending and takes the next scan
    code, and if nothing comes between, its character is sent when there are a
    receiver and a free place. *)
Theorem keyboard_delivers codes ledger k :
  typing codes ledger k -> tx_index (spsc k) < usize_max ->
  ledger.*1 = typed codes /\ sent (spsc k) ++ reserved (tx (spsc k)) = kept ledger /\
  received (spsc k) `prefix_of` sent (spsc k) /\
  (length (sent (spsc k)) - length (received (spsc k)) <= 0x80)%nat /\
  is_Some (try_send_next (spsc k)) /\
  (tx (spsc k) = TxIdle -> settled ledger /\
   forall code, 0 <= code < 0x100 ->
    exists k' c, handle_keyboard_scan code k = Some k' /\ try_send_end (spsc k') = Some c /\ tx c = TxIdle /\
      (closed (spsc k) = false -> full (spsc k) = false ->
       sent c = sent (spsc k) ++ option_list (meaning codes code))).
Proof.
  intros Ht Hi. destruct (typing_inv codes ledger k Ht) as (Hr & Htr & Hst & Hl & Ha & Hs).
  pose proof (spsc_reached_ok 0x80 (spsc k) ltac:(unfold usize_max; lia) Hr) as Hok. pose proof (chan_bounds _ _ Hok) as Hb.
  split; [done|]. split; [done|]. split; [apply Hok|]. split.
  { pose proof (ok_tx _ _ Hok). pose proof (ok_rx _ _ Hok). destruct (tx (spsc k)), (rx (spsc k)); cbn in Hb; lia. }
  split; [by apply try_send_next_runs|]. intros Htx. rewrite Htx in Ha. split; [done|]. intros code Hc.
  destruct (scan_means codes code k Hc Htx Hst) as (k1 & Hk1 & _ & Hnew). exists k1.
  destruct (meaning codes code) as [a|]; cbn [option_list].
  - destruct (try_send_begins a (spsc k) Htx) as (c' & Hs' & _ & Hsent & Hprod & Hti & Hcase).
    rewrite Hs' in Hnew. injection Hnew as <-. destruct (closed (spsc k)).
    + exists c'. by rewrite try_send_end_idle.
    + destruct (try_send_ends a c' Hcase ltac:(by rewrite Hti)) as (c2 & H1 & H2 & H3). exists c2. split_and!; [done..|].
      intros _ Hf. rewrite <-Hsent. apply H3. rewrite Hprod. by apply try_take_full.
  - exists (spsc k). rewrite Hnew, try_send_end_idle, app_nil_r by done. done.
Qed.

(** ** The locks *)

(** The queue of the channel's semaphore is behind a spin lock, which a poll of
    [recv] takes in a system call, with interrupts on, and [try_send] takes in
    the interrupt handler: [Semaphore::queue] and [Semaphore::release]. *)
Definition SPEC_KEY_LOCK : Z := 0.
Definition SENDER_LOCK : Z := 1.
Definition QUEUE_LOCK : Z := 2.

Definition recv_poll_locks : list Op := [Lock QUEUE_LOCK; Unlock QUEUE_LOCK; Lock QUEUE_LOCK; Unlock QUEUE_LOCK].
Definition keyboard_irq_locks : list Op :=
  [Lock SPEC_KEY_LOCK; Unlock SPEC_KEY_LOCK; Lock SENDER_LOCK; Lock QUEUE_LOCK; Unlock QUEUE_LOCK; Unlock SENDER_LOCK].

(** A key pressed while a thread waits for a character can stop the machine. *)
Theorem keyboard_irq_deadlock :
  exists s, Spin.reachable [keyboard_irq_locks] (start [(true, recv_poll_locks)]) s /\
    (exists c h hs, cpus s = [c] /\ irqs c = h :: hs /\ Spin.code h <> []) /\ forall n, run_n n s = Some s.
Proof.
  pose (s1 := default (start []) (Spin.exec (Spin.Run 0) (start [(true, recv_poll_locks)]))).
  pose (s2 := default (start []) (Spin.exec (Interrupt 0 keyboard_irq_locks) s1)).
  pose (s3 := default (start []) (run_n 3 s2)).
  assert (Spin.exec (Spin.Run 0) (start [(true, recv_poll_locks)]) = Some s1) as E1 by (vm_compute; reflexivity).
  assert (Spin.exec (Interrupt 0 keyboard_irq_locks) s1 = Some s2) as E2 by (vm_compute; reflexivity).
  assert (Spin.reachable [keyboard_irq_locks] (start [(true, recv_poll_locks)]) s2) as R2.
  { eapply (reachable_irq _ _ 0); [eapply (reachable_run _ _ 0); [constructor|exact E1]|left|exact E2]. }
  exists s3. split; [|split].
  - eapply (run_n_reachable _ _ 3); [exact R2|]. vm_compute. reflexivity.
  - eexists _, _, _. split; [vm_compute; reflexivity|]. split; [reflexivity|]. discriminate.
  - eapply irq_deadlock; [vm_compute; reflexivity|reflexivity|reflexivity|].
    apply (bool_decide_unpack _). vm_compute. exact Logic.I.
Qed.

Module KeyboardRun.

(** Shift is pressed, and then the key of the letter a; its handler comes to
    its end. *)
Definition shift_down : Keyboard := default init (handle_keyboard_scan 0x2A init).
Definition pressed : Keyboard := default init (handle_keyboard_scan 0x1E shift_down).
Definition go_on (k : Keyboard) : Keyboard := mkKeyboard (SPEC_KEY_STATUS k) (default (spsc k) (try_send_next (spsc k))).
Definition capital : Keyboard := go_on (go_on (go_on pressed)).

Lemma pressed_typing : typing [0x2A; 0x1E] [(65, Pending)] pressed.
Proof.
  apply (typing_scan [0x2A] [] 0x1E shift_down);
    [apply (typing_scan [] [] 0x2A init); [constructor|reflexivity|lia|reflexivity]|reflexivity|lia|].
  vm_compute. reflexivity.
Qed.

Lemma go_on_typing codes l l' k :
  typing codes l k -> is_Some (try_send_next (spsc k)) -> settle (spsc k) l = l' -> typing codes l' (go_on k).
Proof. intros Ht [c Hc] <-. unfold go_on. rewrite Hc. by eapply typing_sender. Qed.

Lemma capital_typing : typing [0x2A; 0x1E] [(65, Sent)] capital.
Proof.
  do 2 (eapply go_on_typing; [|eexists; vm_compute; reflexivity|vm_compute; reflexivity]).
  eapply go_on_typing; [exact pressed_typing|eexists; vm_compute; reflexivity|vm_compute; reflexivity].
Qed.

Lemma keyboard_delivers_witness :
  typed [0x2A; 0x1E] = ascii_bytes "A"%string /\ sent (spsc capital) = [65] /\ received (spsc capital) `prefix_of` [65].
Proof.
  destruct (keyboard_delivers [0x2A; 0x1E] [(65, Sent)] capital capital_typing ltac:(vm_compute; reflexivity)) as (H1 & H2 & H3 & _).
  assert (sent (spsc capital) = [65]) as E by (vm_compute; reflexivity). rewrite E in H3.
  split; [symmetry; exact H1|]. split; [exact E|exact H3].
Defined.

End KeyboardRun.
